(* ===== verification/_CoqProject ===== *)
-Q . S2P
Prelude.v
JsString.v
Splitting.v
Numbers.v
Sorting.v
Uri.v
Utf8.v
UrlEncoded.v
Mimetype.v
Json.v
Regex.v
Patterns.v
FormRules.v
Validate.v
Version.v
WebUrl.v
FileHelpers.v
Share.v
Agent.v
PluginChannel.v
Environment.v
Cron.v
Size.v
Dates.v
Firewall.v
WhiteList.v
DockerGuard.v
SecretField.v
CustomWebhook.v
WebhookForm.v
GlobalStore.v
Http.v
Base64.v
ExternalLogin.v
Login.v
NginxMode.v
Access.v
Directive.v
TerminalSession.v
TerminalRestore.v
Terminal.v
Reconnect.v
Upload.v
Tabs.v
Columns.v
TableSelection.v
TableOperations.v
CardColumns.v
TableControls.v
Stepper.v
FooterNavigation.v
AxiosCancel.v
RouterGuard.v
RouteTable.v
Navigation.v
ProcessStore.v
ExtensionRoutes.v
TaskText.v
LogViewer.v
LogFollowing.v
DashboardCache.v
Misc.v
FilePaths.v
DirSizes.v
FileManager.v
FileHistory.v
FileTabs.v
Downloads.v
DownloadRemovals.v
ContainerLog.v
DropWalk.v
