(* ===== verification/Prelude.v ===== *)
(** * The 1Panel web front end: a verification library

    The program is the TypeScript part of 1Panel's web front end
    (src/frontend/src): a Vue application whose own logic lives in stores,
    composables, a router guard, a directive and libraries of validators.  This
    library translates that logic into executable definitions, one per function
    or handler, and proves what makes each part correct.  Paths below are
    relative to src/frontend/src.

    ** Foundations

    - Prelude (this file): strings as lists of UTF-16 units, the hint databases,
      list lemmas, reflexive-transitive closures, and a state monad [M] with the
      notion of an operation that only [reads] part of its state.
    - JsString, Splitting: the String and Number methods the sources use;
      [indexOf] and [findIndex] return [None] for -1.  Splitting adds longer
      separators, class expressions, [new Set] spreads and the rounding of
      [Number] to a double.
    - Numbers: the numbers of the language as far as the components use them, behind
      the classes [JsNumber] (the Number of a text) and [JsInteger] (Number.isInteger).
    - Uri: encodeURIComponent and decodeURIComponent, with their round trip.  Utf8: the
      TextEncoder and the fatal TextDecoder.  UrlEncoded: URLSearchParams, what it reads,
      writes, sets and deletes, with the round trip of a list of parameters.
    - Sorting: the stable sort of Array.prototype.sort by a numeric key, with what
      characterises it.  WebUrl: the class of the browser's URL parser, with an
      instance for simple locations.
    - Json: JSON values, JSON.stringify and JSON.parse, with their round trip.
    - Regex: regular expressions as a datatype with their language, an executable
      matcher by derivatives ([matches_spec]) and enumeration of finite
      languages ([enum_spec]).  Patterns: the literals of the validators.

    ** Components

    - FormRules: global/form-rules.ts.  A validator maps a value (a string, null
      or undefined) to the list of callbacks it makes, or to [Throws].  The
      theorems say what the port, address, password and name validators accept,
      that every validator calls back once, and which required rules accept an
      empty value.
    - Firewall: views/host/firewall/utils/validation.ts.  IPv4, IPv6 and CIDR
      texts are compared with grammars that do not mention the code's scan
      ([dotted], [ipv6_text], [block]); host addresses, port ranges and tags have
      a functional and a round-trip theorem each.
    - Mimetype: global/mimetype.ts, enums/files.ts and utils/ssl.ts: the tables of
      options as data; within a table no value stands for two options.
    - FileHelpers, Share: utils/file.ts; the dialog and the public page of a share, the
      scripts of views/host/file-management/share/index.vue and views/share/index.vue.  The
      names proposed for downloads hold no separator; a password is sent when it was
      typed; and a link copied from the dialog, opened on the page, downloads the file.
    - Base64: utils/auth.ts with atob and btoa: the encryption of passwords and the
      base64url texts of passkeys, with their round trips.
    - FooterNavigation: components/footer-navigation/model.ts: which URLs are safe, and
      the links of the footer from a setting and its defaults.
    - Validate: utils/validate.ts: the checks agree with the form rules; durations
      read back as they were split.
    - WhiteList, DockerGuard: views/host/firewall/setting/white-list/model.ts and
      views/host/firewall/docker/model.ts.  Rules and policies arrive as JSON of any
      shape; the theorems type what the normalisations return and show that what is
      written is read back.
    - Size, Dates, Cron: utils/size.ts, utils/date.ts and
      views/cronjob/cronjob/helper.ts.  Sizes are shown by an abstract ladder of units
      that the seven functions implement, with bounds on the error; names made of
      dates sort as the dates; schedules survive the cron text.
    - SecretField, CustomWebhook, WebhookForm: secret-field.ts, custom-webhook.ts and
      custom-webhook-form.vue of views/setting/alert/setting/drawer.  The draft of a
      webhook, what it may contain (a grammar of templates, valid drafts), and the form
      as a state machine over the events its template offers: no stored secret
      reaches an update, and every event offered is handled.
    - Version, Agent: utils/version.ts implements a total order of digit runs;
      utils/agent.ts decides with it and normalises the origins of a form.
    - PluginChannel: useAgentPluginChannel.ts of the openclaw channels, its awaited
      requests as suspended calls that are answered in any order.
    - NginxMode: components/codemirror-pro/nginx.ts, the tokenizers of the editor's nginx mode
      over the stream CodeMirror gives them: every token advances, and a line is read whole.
    - Environment: utils/runtime-environment.ts, a parser with quoted values over
      several lines: it ends on every text and reads a quoted file back, unless a value holds
      a separator its expression does not match, which it refuses with the whole file.
    - GlobalStore: store/modules/global.ts, utils/permission-codes.ts and
      utils/page-state-cache.ts.  [World] is the store with the module variables
      and storages beside it; [reachable] is what the actions can produce.
      [hasPermission] is proved equal to the declarative [granted].
    - Http: api/index.ts and the helpers it calls.  [Client] is the store's world, the
      operated node and the log of effects; the interceptors are functions of what axios
      hands them, and one theorem says which answers end the session.
    - ExternalLogin, Login: utils/external-login.ts and utils/saml2.ts; the script of
      views/login/components/login-form.vue with its awaited requests as tasks: what a
      session needs, what a password needs to leave the page (encrypted when the cookie holds
      a key), and that a page opened with a ticket settles.
    - Access: utils/rbac.ts, utils/permission.ts and the composable
      useMenuManagePermission.ts, on top of [hasPermission]: route access,
      monotonicity, manage implies view, agreement of the two readings.
    - Directive: directives/modules/permission.ts on a tree of elements: running
      it again never loses what an element was before the first run, its own marks of a
      disabled element excepted, as long as nothing else changes the element.
    - TerminalSession, TerminalRestore: store/modules/terminal-session.ts.  Entries live in
      a heap, since the list and the suspended calls share them; waiting for a terminal
      is a suspended call with the code's retry counter.  TerminalRestore is restore from its
      listings to the end of its loop, beside the other operations and beside the template
      of components/terminal/host.vue, which mounts a new terminal for every entry that was
      refreshed.
    - Terminal, Reconnect: components/terminal/index.vue.  Sockets and timers have
      identities, [handle] runs the handler of an event, [runs] are its histories with
      their times.  Terminal shows that the output does not depend on how its characters are
      cut into messages and that a closed terminal is silent; Reconnect, for a terminal given
      its parameters once, that it refines a machine of five phases, sends its first command
      once, and tries a lost connection again at most 228 times, and once more for each
      revalidation it is asked for.
    - Upload: views/host/file-management/upload/index.vue.  Calls of uploadFile are
      suspended computations known by their controllers; a file marked as uploaded was
      delivered whole, nothing unfinished is left on the server, every call ends.
    - DropWalk: the walk of the same drawer through dropped items.  Its walkers are suspended
      at files and at batches of a directory; a drop that no other one meets collects every
      file once, or refuses them all, and ends.
    - Tabs: store/modules/tabs.ts and utils/tab-cache.ts: distinct tabs, distinct
      cache names, closing.
    - Columns, CardColumns: components/table/Table.ts, components/shared/vnode.ts and
      useCardColumns.ts: the settings of the columns of a table, their storage, the children
      rendered, and the same settings on cards.
    - TableOperations, TableControls: the buttons of a row with their context menu, from
      components/table/shared.ts, TableOperations.vue and useContextMenu.ts; the refresh
      timer, the widths and the page size of a table, from TableSetting.vue,
      useResponsivePagination.ts and ComplexTable.vue.
    - TableSelection: components/table/complex/useTableSelection.ts.  The Element
      Plus table is the class [ElTable]; its change events re-enter the handlers,
      and the theorem shows that the guard flag keeps them from nesting.  The data change
      between events, and the selection is then pruned.
    - Stepper: components/fu/steps/Stepper.ts.  The asynchronous [active] is a
      suspended call that overlaps with others.
    - AxiosCancel: api/helper/axios-cancel.ts, the map of pending requests.
    - RouterGuard: routers/index.ts and the license part of utils/xpack.ts.  It
      composes GlobalStore, Access, TerminalSession and AxiosCancel: [before_license] is the
      guard up to the license request it awaits and [after_license] the rest, between which
      the store may change ([guarded]); [beforeEach] is both at once.
    - RouteTable: routers/modules/*.ts as data, routers/router.ts over it: the
      pages' access, the settings redirect, the menu list, the redirects.
    - Navigation: the redirects of the guard followed, by any router that keeps the laws of
      the class [Router], as the one over the table does ([table_router]).
    - ExtensionRoutes: extensions/routes.ts on a heap of route records, since a record is
      moved from its module into the children of its parent, behind the child it names.
    - TaskText, LogViewer, LogFollowing: utils/task.ts, the texts of tasks;
      components/log/file/index.vue, its pages, its interval and its window of rows; and the
      viewer beside a file that grows, read as ReadFileByLine of
      src/agent/utils/files/utils.go reads it, in pages of 500 lines: within the bounds
      [watched] states, what is shown is the file.
    - DashboardCache: utils/dashboardCache.ts over the text that localStorage holds.
    - Misc: utils/misc.ts: copies, debouncing, menus, punycode.
    - FilePaths, DirSizes: of views/host/file-management/index.vue and size-cache.ts, the paths
      and breadcrumbs, the buttons that fit, the cache of sizes, and the queue in which the
      sizes of single directories are asked for.
    - FileManager, FileHistory, FileTabs: the navigation of the same component.  Its awaits
      are tasks answered in any order; the history implements a zipper, the tabs keep an
      invariant, and a directory that is gone to is shown everywhere.
    - Downloads, DownloadRemovals: views/host/file-management/process/index.vue, the downloads
      panel: its socket, its interval, and the removal of finished records in batches, of all
      that are finished and at most three times for each.
    - ContainerLog: components/log/container/index.vue: event streams with identities, of
      which a viewer has one at most as long as its searches do not overlap, and the terminal
      with the lines its buffer keeps.
    - ProcessStore: store/modules/process.ts.  Sockets have identities, since a
      late event of an old socket reaches the store; every handler, timer and
      suspended connection is a step of one transition relation.

    ** Interaction

    RouterGuard calls hasRouteAccess of Access, which calls hasPermission of
    GlobalStore; when a session ends it clears GlobalStore, closes the sessions
    of TerminalSession and cancels the requests of AxiosCancel.  RouteTable uses
    the same access decision for its pages, and Navigation runs the guard over them.  Directive decides with the
    utilities of Access.  Http works on the World of GlobalStore and clears it when the
    server ends the session.  Firewall and FormRules share Regex and Patterns;
    Validate is compared with FormRules, WhiteList and DockerGuard call the address
    and port functions of Firewall, and Agent compares versions with Version.
    WebhookForm is the state around CustomWebhook, which uses Json for its templates,
    WebUrl for addresses and SecretField for what is kept, replaced or cleared; Columns
    orders with Sorting.  Share writes and reads its links with FileHelpers, which stands
    on UrlEncoded, WebUrl and Mimetype; Login signs in through GlobalStore and Http and takes
    its tickets with ExternalLogin; TableOperations asks the permission store and the row
    selection; LogViewer shows its lines with TaskText; FileManager sorts and merges its
    listings with FilePaths and runs DirSizes beside the navigation; FooterNavigation decodes with Utf8 and parses with
    WebUrl; Base64 reads the public key with the cookie function of Http.

    ** Fuel and bounds

    [navigate] takes the number of guard runs allowed; [navigate_terminates]
    proves that 6 are enough whatever is stored.  The loop of restore advances to its next
    await on the number of its entries ([advance_more]).  [syncTableSelection] takes the
    nesting of change events; [selection_agrees] proves that every positive
    amount gives the same result.  The decimal and hexadecimal printers run on
    the number of binary digits, which is more than they need ([dec_spec]).  The JSON
    parser runs on twice the length of its text and two more ([parse_enough]).  The
    loop over the lines of an environment file runs on the number of lines, the search
    for a quote on the text to come ([parseEnvironment_total]).  The search for
    variables in a template runs on the length of the text and one more
    ([hasInvalidTemplateVariable_spec]).  Sizes are naturals
    below 2^53; their quotients are dyadic numbers of 53 significant bits, and the
    bounds of [sizes_close] hold for all of them.

    The tokenizers of NginxMode run on the length of a line ([line_read] shows that every token
    takes a unit of it).  A log viewer keeps at most 3000 lines of its pages.

    The measure [Upload.weight] bounds the answers an upload can take; [upload_ends] shows that
    they end it.  [drop_weight] bounds those of a drop, and a restore of terminals takes at
    most nine turns for each entry ([restore_ends]).

    ** Parameters

    Code outside the sources is an argument or a class: vue-router's matching
    (the argument [resolve] of the guard, with the laws of [Router] in Navigation), qs.stringify and uuid in the definitions that use them, the
    Element Plus table ([ElTable]), the Unicode case tables ([JsUnicode]), Number on
    texts that are not plain numerals ([JsNumber], [JsInteger]), the URL parser of the
    browser ([WebURL]), the random bytes of a uid ([Entropy]), base64 of the entrance code, the local fields of a date,
    the stream of CodeMirror ([StringStream]), the largest number ([JsMax]), the parser of an
    URL against a base, the tables of punycode, numbers that JSON holds beside naturals and the
    quota of localStorage in DashboardCache, measured widths and heights,
    the ciphers of a password ([Ciphers], with the law that a private key undoes its public key),
    js-base64 and the xterm screen of a terminal.
    Answers of the server are arguments of the steps that receive them, and
    translated texts are their keys.

    ** What is not modelled

    The templates of Vue and most single-file components, the request wrappers of
    api/modules, the type declarations of api/interface and the translation catalogues
    hold little logic of their own: a form is filled in, sent, and its answer shown.  Of the
    components the scripts of the webhook form, the share dialog, the share page, the
    terminal, the upload drawer, the login form, the table, the two log viewers, the
    downloads panel and the file manager are modelled, with the events their templates
    offer.  Of these are left out what is only drawn or measured: colours and fonts of the terminal, the percentages of an
    upload, the view mode of a table and the heights of its cards, the theme of the login
    button, the highlighting of log lines; and, of the file manager, its dialogs, remarks,
    favourites, drag and drop and clipboard, each a request of its own that ends in a new
    listing.  Watermark and theme
    helpers of utils/xpack.ts, the loaders of extensions/ and the registrations with the
    Monaco editor drive code that is not in the repository.  The get and post wrappers of
    RequestHttp only call axios.  The Go services are another language; the reading of a log
    file alone is translated, since the log viewer is proved against it. *)

From stdpp Require Export base tactics list gmap numbers option decidable.
From Stdlib Require Import Strings.String Strings.Ascii.
From Stdlib Require Export NArith ZArith Lia Bool.
Export Strings.String.StringSyntax.

Abbreviation string := Stdlib.Strings.String.string.
#[global] Delimit Scope string_scope with string.
#[global] Bind Scope string_scope with Stdlib.Strings.String.string.

#[global] Open Scope nat_scope.

(** ** Strings as sequences of UTF-16 code units

    A JavaScript string is a finite sequence of 16-bit code units; [length],
    indexing and every method below work on units, never on characters. *)

Abbreviation jsstr := (list N) (only parsing).

(** ASCII literals of the source. *)
Fixpoint js (s : string) : jsstr :=
  match s with
  | EmptyString => []
  | String a s' => N_of_ascii a :: js s'
  end.
Arguments js s%_string.

(** ** Declared scope for the operators the components share *)

Declare Scope panel_scope.
Delimit Scope panel_scope with panel.
#[global] Open Scope panel_scope.

(** [s === t] is the strict equality of two strings, as a boolean. *)
Definition streqb (s t : jsstr) : bool := bool_decide (s = t).
Infix "===" := streqb (at level 70, no associativity) : panel_scope.
Notation "s !== t" := (negb (streqb s t)) (at level 70, no associativity) : panel_scope.

(** A string is truthy when it is not empty. *)
Definition truthy (s : jsstr) : bool := match s with [] => false | _ => true end.

(** ** Hint databases and tactics

    [panel] holds the rewrite rules and resolution lemmas that decide the
    common boolean side conditions of the handlers. *)

Create HintDb panel.
Create Rewrite HintDb panel.
Create Rewrite HintDb panel_bool.

Lemma streqb_eq s t : (s === t) = true <-> s = t.
Proof. apply bool_decide_eq_true. Qed.

Lemma streqb_neq s t : (s === t) = false <-> s <> t.
Proof. apply bool_decide_eq_false. Qed.

Lemma streqb_refl s : (s === s) = true.
Proof. by apply streqb_eq. Qed.

Lemma streqb_sym s t : (s === t) = (t === s).
Proof. apply bool_decide_ext. split; congruence. Qed.

Lemma truthy_true s : truthy s = true <-> s <> [].
Proof. destruct s; simpl; split; congruence. Qed.

Lemma truthy_false s : truthy s = false <-> s = [].
Proof. destruct s; simpl; split; congruence. Qed.

#[export] Hint Rewrite streqb_refl : panel.
#[export] Hint Rewrite streqb_eq streqb_neq truthy_true truthy_false
  andb_true_iff andb_false_iff orb_true_iff orb_false_iff
  negb_true_iff negb_false_iff : panel_bool.

(** Turn every boolean equation of the context into a proposition. *)
Ltac bool_prop :=
  repeat match goal with
  | H : _ |- _ => progress autorewrite with panel_bool in H
  end; autorewrite with panel_bool.

(** Case analysis on the scrutinee of a conditional or a match of the goal. *)
Ltac case_step :=
  match goal with
  | |- context [if ?b then _ else _] => destruct b eqn:?
  | |- context [match ?x with _ => _ end] => destruct x eqn:?
  end.

Ltac case_in H :=
  match type of H with
  | context [if ?b then _ else _] => destruct b eqn:?
  | context [match ?x with _ => _ end] => destruct x eqn:?
  end.

(** ** Generic list lemmas *)

(** [existsb]/[forallb] against stdpp's membership. *)
Lemma existsb_elem {A} (f : A -> bool) (l : list A) :
  existsb f l = true <-> exists x, x ∈ l /\ f x = true.
Proof.
  rewrite existsb_exists. split; intros (x & ? & ?); exists x;
    (split; [by apply list_elem_of_In | done]).
Qed.

Lemma forallb_elem {A} (f : A -> bool) (l : list A) :
  forallb f l = true <-> forall x, x ∈ l -> f x = true.
Proof.
  rewrite forallb_forall. split; intros H x Hx; apply H; by apply list_elem_of_In.
Qed.

Lemma Forall_elem {A} (P : A -> Prop) (l : list A) :
  Forall P l <-> forall x, x ∈ l -> P x.
Proof.
  rewrite Forall_forall. split; intros H x Hx; apply H; by apply list_elem_of_In.
Qed.

Lemma elem_map {A B} (f : A -> B) (l : list A) (y : B) :
  y ∈ List.map f l <-> exists x, y = f x /\ x ∈ l.
Proof.
  rewrite list_elem_of_In, in_map_iff. setoid_rewrite list_elem_of_In. naive_solver.
Qed.

Lemma elem_filter {A} (f : A -> bool) (l : list A) (x : A) :
  x ∈ List.filter f l <-> x ∈ l /\ f x = true.
Proof. by rewrite !list_elem_of_In, filter_In. Qed.

Lemma filter_none {A} (f : A -> bool) l : (forall x, x ∈ l -> f x = false) -> List.filter f l = [].
Proof.
  induction l as [|x l IH]; intros H; [done|]. cbn. rewrite H by left. apply IH. intros y Hy. apply H. by right.
Qed.

Lemma filter_all {A} (f : A -> bool) l : (forall x, x ∈ l -> f x = true) -> List.filter f l = l.
Proof.
  induction l as [|x l IH]; intros H; [done|]. cbn. rewrite H by left.
  by rewrite IH by (intros y Hy; apply H; by right).
Qed.

(** A boolean predicate on the [n] numbers from [a]. *)
Fixpoint forall_from (f : N -> bool) (a : N) (n : nat) : bool :=
  match n with O => true | S k => f a && forall_from f (N.succ a) k end.

Lemma forall_from_spec f a n :
  forall_from f a n = true -> forall x, (a <= x < a + N.of_nat n)%N -> f x = true.
Proof.
  revert a. induction n as [|n IH]; intros a; cbn [forall_from]; intros H x Hx; [lia|].
  apply andb_true_iff in H as [Ha H]. destruct (N.eq_dec x a) as [->|]; [done|].
  apply (IH (N.succ a) H). lia.
Qed.

(** Boolean membership, JavaScript's [Array.prototype.includes] on strings. *)
Definition memb (x : jsstr) (l : list jsstr) : bool := existsb (streqb x) l.

Lemma memb_elem x l : memb x l = true <-> x ∈ l.
Proof.
  unfold memb. rewrite existsb_elem. split.
  - intros (y & Hy & E). apply streqb_eq in E. by subst.
  - intros Hx. exists x. split; [done | apply streqb_refl].
Qed.

Lemma memb_not_elem x l : memb x l = false <-> x ∉ l.
Proof.
  rewrite <- memb_elem. destruct (memb x l); split; congruence.
Qed.

#[export] Hint Rewrite memb_elem memb_not_elem : panel_bool.

(** ** Reflexive-transitive closure of a step relation *)

Section Star.
Context {A : Type} (R : A -> A -> Prop).

Inductive star : A -> A -> Prop :=
| star_refl a : star a a
| star_step a b c : R a b -> star b c -> star a c.

Lemma star_trans a b c : star a b -> star b c -> star a c.
Proof. induction 1; eauto using star. Qed.

Lemma star_one a b : R a b -> star a b.
Proof. eauto using star. Qed.

(** An invariant of every step is an invariant of every run. *)
Lemma star_invariant (I : A -> Prop) :
  (forall a b, I a -> R a b -> I b) -> forall a b, star a b -> I a -> I b.
Proof. intros Hstep a b. induction 1; eauto. Qed.
End Star.

#[export] Hint Resolve star_refl star_one : panel.

(** ** A state monad

    Components that share mutable state are written in [M S]: an operation maps
    the state to its result and the next state. *)

Definition M (S A : Type) : Type := S -> A * S.
Definition ret {S A} (a : A) : M S A := fun s => (a, s).
Definition bind {S A B} (m : M S A) (k : A -> M S B) : M S B :=
  fun s => let '(a, s') := m s in k a s'.
Definition get {S} : M S S := fun s => (s, s).
Definition gets {S A} (f : S -> A) : M S A := fun s => (f s, s).
Definition modify {S} (f : S -> S) : M S unit := fun s => (tt, f s).
Notation "'let!' x ':=' m 'in' k" := (bind m (fun x => k))
  (at level 10, x name, m at level 100, k at level 200) : panel_scope.
Notation "m ';;;' k" := (bind m (fun _ => k)) (at level 199, right associativity) : panel_scope.

(** Array.prototype.some and every with an effectful predicate: they stop at
    the first element that decides. *)
Fixpoint someM {S A} (f : A -> M S bool) (l : list A) : M S bool :=
  match l with
  | [] => ret false
  | x :: l' => let! b := f x in if b then ret true else someM f l'
  end.
Fixpoint everyM {S A} (f : A -> M S bool) (l : list A) : M S bool :=
  match l with
  | [] => ret true
  | x :: l' => let! b := f x in if b then everyM f l' else ret false
  end.

(** [reads I view m f]: from a state satisfying [I], [m] returns [f] of the part
    [view] of the state, and preserves [I] and that part. *)
Definition reads {S V A} (I : S -> Prop) (view : S -> V) (m : M S A) (f : V -> A) : Prop :=
  forall s, I s -> (m s).1 = f (view s) /\ view (m s).2 = view s /\ I (m s).2.

Section Reads.
Context {S V : Type} {I : S -> Prop} {view : S -> V}.

Lemma reads_ret {A} (f : V -> A) a : (forall v, f v = a) -> reads I view (ret a) f.
Proof. intros H s Hs. by rewrite H. Qed.

Lemma reads_gets {A} (g : S -> A) f : (forall s, g s = f (view s)) -> reads I view (gets g) f.
Proof. intros H s Hs. simpl. by rewrite H. Qed.

Lemma reads_bind {A B} (m : M S A) (k : A -> M S B) (f : V -> A) (g : A -> V -> B) :
  reads I view m f -> (forall a, reads I view (k a) (g a)) ->
  reads I view (bind m k) (fun v => g (f v) v).
Proof.
  intros Hm Hk s Hs. unfold bind. destruct (Hm s Hs) as (E & Ev & HI).
  destruct (m s) as [a s']. simpl in *. subst a.
  destruct (Hk (f (view s)) s' HI) as (E2 & Ev2 & HI2). rewrite Ev in E2, Ev2. auto.
Qed.

Lemma reads_ext {A} (m : M S A) f g :
  (forall v, f v = g v) -> reads I view m f -> reads I view m g.
Proof. intros E H s Hs. rewrite <- E. by apply H. Qed.

Lemma reads_some {A} (f : A -> M S bool) g (l : list A) :
  (forall x, reads I view (f x) (g x)) ->
  reads I view (someM f l) (fun v => existsb (fun x => g x v) l).
Proof.
  intros H. induction l as [|x l IH]; cbn [someM existsb]; [by apply reads_ret|].
  apply (reads_bind (f x) _ (g x) (fun b v => if b then true else existsb (fun x => g x v) l));
    [apply H|]. intros [|]; [by apply reads_ret|done].
Qed.

Lemma reads_every {A} (f : A -> M S bool) g (l : list A) :
  (forall x, reads I view (f x) (g x)) ->
  reads I view (everyM f l) (fun v => forallb (fun x => g x v) l).
Proof.
  intros H. induction l as [|x l IH]; cbn [everyM forallb]; [by apply reads_ret|].
  apply (reads_bind (f x) _ (g x) (fun b v => if b then forallb (fun x => g x v) l else false));
    [apply H|]. intros [|]; [done|by apply reads_ret].
Qed.
End Reads.
