(* ===== verification/JsString.v ===== *)
(** * The String.prototype methods the sources use

    Executable definitions over code units, with the lemmas the components
    share.  [indexOf] and [lastIndexOf] return an option where JavaScript
    returns -1.  Case mapping outside ASCII depends on the Unicode tables, so
    it is an interface ([JsUnicode]) whose laws state what the components use. *)

From S2P Require Import Prelude.

(** ** Prefixes, suffixes, searching *)

Fixpoint prefixb (p s : jsstr) : bool :=
  match p, s with
  | [], _ => true
  | _, [] => false
  | a :: p', b :: s' => (a =? b)%N && prefixb p' s'
  end.

(** [s.startsWith(p)] and [s.endsWith(p)]. *)
Definition startsWith (s p : jsstr) : bool := prefixb p s.
Definition endsWith (s p : jsstr) : bool := prefixb (rev p) (rev s).

(** [s.indexOf(p)], [None] for -1. *)
Fixpoint indexOf (s p : jsstr) : option nat :=
  if prefixb p s then Some 0
  else match s with
       | [] => None
       | _ :: s' => S <$> indexOf s' p
       end.

(** [s.includes(p)]. *)
Definition includes (s p : jsstr) : bool := bool_decide (is_Some (indexOf s p)).

(** [s.includes(c)] for a one-unit string. *)
Definition has_unit (c : N) (s : jsstr) : bool := existsb (N.eqb c) s.

(** [s.lastIndexOf(c)] for a one-unit string. *)
Fixpoint lastIndexOf (s : jsstr) (c : N) : option nat :=
  match s with
  | [] => None
  | a :: s' =>
      match lastIndexOf s' c with
      | Some i => Some (S i)
      | None => if (a =? c)%N then Some 0 else None
      end
  end.

(** [s.slice(i, j)] for 0 <= i, and [s.slice(i)]. *)
Definition slice (s : jsstr) (i j : nat) : jsstr := take (j - i) (drop i s).
Definition slice_from (s : jsstr) (i : nat) : jsstr := drop i s.

(** ** Splitting and joining *)

(** [s.split(c)] for a one-unit separator. *)
Fixpoint split (c : N) (s : jsstr) : list jsstr :=
  match s with
  | [] => [[]]
  | a :: s' =>
      if (a =? c)%N then [] :: split c s'
      else match split c s' with
           | [] => [[a]]
           | w :: ws => (a :: w) :: ws
           end
  end.

(** [s.split(sep)] for a separator of any positive length: the leftmost
    occurrences, without overlap; [skip] counts the separator units still to
    drop. *)
Fixpoint split_on_go (sep s : jsstr) (skip : nat) (acc : jsstr) : list jsstr :=
  match s with
  | [] => [rev acc]
  | a :: s' =>
      match skip with
      | S k => split_on_go sep s' k acc
      | O => if prefixb sep s
             then rev acc :: split_on_go sep s' (length sep - 1) []
             else split_on_go sep s' 0 (a :: acc)
      end
  end.
Definition split_on (sep s : jsstr) : list jsstr := split_on_go sep s 0 [].

(** [l.join(sep)]. *)
Fixpoint join (sep : jsstr) (l : list jsstr) : jsstr :=
  match l with
  | [] => []
  | [w] => w
  | w :: ws => w ++ sep ++ join sep ws
  end.

(** [s.replaceAll(p, r)] for a non-empty string pattern. *)
Definition replaceAll (s p r : jsstr) : jsstr := join r (split_on p s).

(** ** White space *)

(** The units [trim] removes and [\s] matches: WhiteSpace and LineTerminator. *)
Definition is_ws (c : N) : bool :=
  ((9 <=? c) && (c <=? 13))%N || (c =? 32)%N || (c =? 160)%N || (c =? 5760)%N
  || ((8192 <=? c) && (c <=? 8202))%N || (c =? 8232)%N || (c =? 8233)%N
  || (c =? 8239)%N || (c =? 8287)%N || (c =? 12288)%N || (c =? 65279)%N.

(** The units a dot of a regular expression does not match. *)
Definition line_terminator (c : N) : bool := (c =? 10)%N || (c =? 13)%N || (c =? 8232)%N || (c =? 8233)%N.

Fixpoint trimStart (s : jsstr) : jsstr :=
  match s with
  | [] => []
  | c :: s' => if is_ws c then trimStart s' else s
  end.
Definition trimEnd (s : jsstr) : jsstr := rev (trimStart (rev s)).
Definition trim (s : jsstr) : jsstr := trimEnd (trimStart s).

(** ** Character classes *)

Definition is_digit (c : N) : bool := ((48 <=? c) && (c <=? 57))%N.
Definition is_lower (c : N) : bool := ((97 <=? c) && (c <=? 122))%N.
Definition is_upper (c : N) : bool := ((65 <=? c) && (c <=? 90))%N.
Definition is_ascii (s : jsstr) : bool := forallb (fun c => (c <? 128)%N) s.

(** ** Case mapping *)

Definition ascii_lower (c : N) : N := if is_upper c then (c + 32)%N else c.
Definition ascii_upper (c : N) : N := if is_lower c then (c - 32)%N else c.

(** The Unicode case tables: [toLowerCase] agrees with the ASCII mapping on
    ASCII strings. *)
Class JsUnicode := {
  toLowerCase : jsstr -> jsstr;
  toLowerCase_ascii s : is_ascii s = true -> toLowerCase s = map ascii_lower s;
}.

(** The instance that maps ASCII letters only, for evaluation. *)
#[export] Instance ascii_unicode : JsUnicode | 100.
Proof. refine {| toLowerCase := map ascii_lower |}. done. Defined.

(** ** Numerals *)

(** The value of a run of digits, most significant first: [Number] and
    [parseInt] on a digit string. *)
Definition digits_val (s : jsstr) : N := foldl (fun v c => 10 * v + (c - 48))%N 0%N s.

(** [String(n)] for a natural number. *)
Fixpoint dec_go (fuel : nat) (n : N) (acc : jsstr) : jsstr :=
  match fuel with
  | O => acc
  | S k =>
      let acc' := (48 + n mod 10)%N :: acc in
      if (n <? 10)%N then acc' else dec_go k (n / 10) acc'
  end.
Definition dec (n : N) : jsstr := dec_go (S (N.to_nat (N.log2 n))) n [].

(** [String(z)] for an integer. *)
Definition decZ (z : Z) : jsstr :=
  if (z <? 0)%Z then 45%N :: dec (Z.to_N (- z)) else dec (Z.to_N z).

Example dec_0 : dec 0 = js "0". Proof. reflexivity. Qed.
Example dec_65535 : dec 65535 = js "65535". Proof. reflexivity. Qed.
Example split_ex : split 46 (js "a.b..c") = [js "a"; js "b"; []; js "c"]. Proof. reflexivity. Qed.
Example split_on_ex : split_on (js "::") (js "1::2:::3") = [js "1"; js "2"; js ":3"].
Proof. reflexivity. Qed.
Example replaceAll_ex : replaceAll (js "a*/b*/") (js "*/") (js "-") = js "a-b-".
Proof. reflexivity. Qed.
Example trim_ex : trim (js "  a b ") = js "a b". Proof. reflexivity. Qed.
Example endsWith_ex : endsWith (js "host_view") (js "_view") = true. Proof. reflexivity. Qed.

(** ** Lemmas *)

Lemma prefixb_spec p s : prefixb p s = true <-> exists t, s = p ++ t.
Proof.
  revert s. induction p as [|a p IH]; intros s; simpl.
  { split; [intros _; by exists s | done]. }
  destruct s as [|b s]; [by split; [|intros [t ?]]|].
  rewrite andb_true_iff, N.eqb_eq, IH. split.
  - intros [-> [t ->]]. by exists t.
  - intros [t [= -> ->]]. eauto.
Qed.

Lemma startsWith_spec s p : startsWith s p = true <-> exists t, s = p ++ t.
Proof. apply prefixb_spec. Qed.

Lemma endsWith_spec s p : endsWith s p = true <-> exists t, s = t ++ p.
Proof.
  unfold endsWith. rewrite prefixb_spec. split; intros [t Ht]; exists (rev t).
  - rewrite <- (rev_involutive s), Ht, rev_app_distr, rev_involutive. done.
  - by rewrite Ht, rev_app_distr.
Qed.

Lemma indexOf_Some s p i :
  indexOf s p = Some i -> exists a b, s = a ++ p ++ b /\ length a = i.
Proof.
  revert i. induction s as [|c s IH]; intros i; simpl.
  - destruct (prefixb p []) eqn:E; [|done]. intros [= <-].
    apply prefixb_spec in E as [t E]. by exists [], t.
  - destruct (prefixb p (c :: s)) eqn:E.
    + intros [= <-]. apply prefixb_spec in E as [t E]. by exists [], t.
    + destruct (indexOf s p) as [k|]; [|done]. intros [= <-].
      destruct (IH k eq_refl) as (a & b & -> & <-). by exists (c :: a), b.
Qed.

Lemma indexOf_None s p a b : indexOf s p = None -> s <> a ++ p ++ b.
Proof.
  revert a. induction s as [|c s IH]; intros a; simpl.
  - destruct (prefixb p []) eqn:E; [done|]. intros _ Hs. symmetry in Hs.
    apply app_eq_nil in Hs as [-> [-> ->]%app_eq_nil]. done.
  - destruct (prefixb p (c :: s)) eqn:E; [done|].
    destruct (indexOf s p) eqn:Ei; [done|]. intros _ Hs.
    destruct a as [|a0 a]; simpl in Hs.
    + assert (prefixb p (c :: s) = true) by (apply prefixb_spec; eauto). congruence.
    + injection Hs as -> Hs. by apply (IH a).
Qed.

Lemma includes_spec s p : includes s p = true <-> exists a b, s = a ++ p ++ b.
Proof.
  unfold includes. rewrite bool_decide_eq_true. split.
  - intros [i H]. apply indexOf_Some in H as (a & b & H & _). eauto.
  - intros (a & b & H). destruct (indexOf s p) eqn:E; [done|].
    exfalso. by apply (indexOf_None _ _ a b E).
Qed.

Lemma includes_unit s w c : js w = [c] -> includes s (js w) = true <-> c ∈ s.
Proof.
  intros ->. rewrite includes_spec. split.
  - intros (a & b & ->). rewrite elem_of_app. right. by left.
  - intros Hc. by apply list_elem_of_split in Hc.
Qed.

Lemma includes_false s p : includes s p = false <-> forall a b, s <> a ++ p ++ b.
Proof.
  rewrite <- not_true_iff_false, includes_spec. naive_solver.
Qed.

Lemma has_unit_spec c s : has_unit c s = true <-> c ∈ s.
Proof.
  unfold has_unit. rewrite existsb_elem. split.
  - intros (x & ? & E). apply N.eqb_eq in E. by subst.
  - intros ?. exists c. by rewrite N.eqb_refl.
Qed.

Lemma has_unit_false c s : has_unit c s = false <-> c ∉ s.
Proof. rewrite <- has_unit_spec. destruct (has_unit c s); split; congruence. Qed.

(** *** split and join *)

Lemma split_nonempty c s : split c s <> [].
Proof. induction s as [|a s IH]; simpl; [done|]. repeat case_step; done. Qed.

Lemma join_cons sep w l : l <> [] -> join sep (w :: l) = w ++ sep ++ join sep l.
Proof. by destruct l. Qed.

Lemma split_no_sep c s : c ∉ s -> split c s = [s].
Proof.
  induction s as [|a s IH]; intros Hc; simpl; [done|].
  apply not_elem_of_cons in Hc as [Ha Hs].
  destruct (N.eqb_spec a c); [congruence|]. by rewrite IH.
Qed.

Lemma split_app c s t : c ∉ s -> split c (s ++ c :: t) = s :: split c t.
Proof.
  induction s as [|a s IH]; intros Hc; simpl; [by rewrite N.eqb_refl|].
  apply not_elem_of_cons in Hc as [Ha Hs].
  destruct (N.eqb_spec a c); [congruence|]. by rewrite IH.
Qed.

(** [split] undoes [join] on words free of the separator... *)
Lemma split_join c l :
  l <> [] -> Forall (fun w => c ∉ w) l -> split c (join [c] l) = l.
Proof.
  intros Hne H. revert Hne. induction H as [|w l Hw Hl IH]; intros Hne; [done|].
  destruct l as [|w' l]; [by apply split_no_sep|].
  rewrite join_cons by done. cbn [app]. rewrite split_app by done. by rewrite IH.
Qed.

(** ... and [join] undoes [split] on every string. *)
Lemma join_split c s : join [c] (split c s) = s.
Proof.
  induction s as [|a s IH]; simpl; [done|].
  destruct (N.eqb_spec a c) as [->|].
  - rewrite join_cons by apply split_nonempty. simpl. by rewrite IH.
  - destruct (split c s) as [|w ws] eqn:E; [by destruct (split_nonempty c s)|].
    rewrite <- IH. destruct ws; done.
Qed.

Lemma split_pieces c s : Forall (fun w => c ∉ w) (split c s).
Proof.
  induction s as [|a s IH]; simpl.
  { repeat constructor. apply not_elem_of_nil. }
  destruct (N.eqb_spec a c); [constructor; [apply not_elem_of_nil | exact IH]|].
  destruct (split c s); [repeat constructor; apply not_elem_of_cons; by split; [|apply not_elem_of_nil]|].
  inversion_clear IH; constructor; [|done]. apply not_elem_of_cons; by split.
Qed.

(** The pieces of a string are the unique list of separator-free words whose
    join is the string. *)
Lemma split_unique c s l :
  l <> [] -> Forall (fun w => c ∉ w) l -> (split c s = l <-> s = join [c] l).
Proof.
  intros Hne Hl. split.
  - intros <-. by rewrite join_split.
  - intros ->. by apply split_join.
Qed.

Lemma join_inj c l l' :
  l <> [] -> l' <> [] -> Forall (fun w => c ∉ w) l -> Forall (fun w => c ∉ w) l' ->
  join [c] l = join [c] l' -> l = l'.
Proof.
  intros H H' Hl Hl' E. rewrite <- (split_join c l), <- (split_join c l') by done.
  by rewrite E.
Qed.

(** *** trim *)

Definition no_ws_ends (s : jsstr) : Prop :=
  match s with [] => True | c :: _ => is_ws c = false end /\
  match rev s with [] => True | c :: _ => is_ws c = false end.

Lemma trimStart_head s :
  match trimStart s with [] => True | c :: _ => is_ws c = false end.
Proof. induction s as [|c s IH]; simpl; [done|]. by destruct (is_ws c) eqn:E. Qed.

Lemma trimStart_id s :
  match s with [] => True | c :: _ => is_ws c = false end -> trimStart s = s.
Proof. destruct s as [|c s]; simpl; [done|]. by intros ->. Qed.

Lemma trim_id s : no_ws_ends s -> trim s = s.
Proof.
  intros [H1 H2]. unfold trim, trimEnd.
  by rewrite (trimStart_id s H1), (trimStart_id _ H2), rev_involutive.
Qed.

Lemma trimStart_suffix s : exists p, s = p ++ trimStart s.
Proof.
  induction s as [|c s [p IH]]; simpl; [by exists []|].
  destruct (is_ws c); [exists (c :: p); simpl; congruence | by exists []].
Qed.

Lemma no_ws_ends_trim s : no_ws_ends (trim s).
Proof.
  unfold no_ws_ends, trim, trimEnd. rewrite rev_involutive. split; [|apply trimStart_head].
  destruct (rev (trimStart (rev (trimStart s)))) as [|c u] eqn:E; [done|].
  destruct (trimStart_suffix (rev (trimStart s))) as [p Hp].
  apply (f_equal (@rev N)) in Hp. rewrite rev_involutive, rev_app_distr, E in Hp.
  pose proof (trimStart_head s) as Hh. rewrite Hp in Hh. done.
Qed.

Lemma trim_idemp s : trim (trim s) = trim s.
Proof. apply trim_id, no_ws_ends_trim. Qed.

Lemma no_ws_ends_all s : Forall (fun c => is_ws c = false) s -> no_ws_ends s.
Proof.
  intros H. split.
  - destruct H; done.
  - assert (Forall (fun c => is_ws c = false) (rev s)) as Hr by by apply Forall_rev.
    destruct Hr; done.
Qed.

(** The units of a trimmed string come from the string. *)
Lemma trimStart_blank s : trimStart s = [] <-> forallb is_ws s = true.
Proof. induction s as [|c s IH]; cbn; [done|]. by destruct (is_ws c); cbn. Qed.

(** A string trims to nothing when it holds only white space. *)
Lemma trim_blank s : trim s = [] <-> forallb is_ws s = true.
Proof.
  rewrite <- trimStart_blank. unfold trim, trimEnd. split; [|by intros ->].
  intros E. apply (f_equal (@rev N)) in E. rewrite rev_involutive in E. cbn in E.
  apply trimStart_blank in E. pose proof (trimStart_head s) as H.
  destruct (trimStart s) as [|c t]; [done|]. rewrite forallb_elem in E.
  rewrite (E c) in H; [done|]. apply list_elem_of_In. rewrite <- in_rev. by left.
Qed.

Lemma trim_not_blank s c : c ∈ s -> is_ws c = false -> trim s <> [].
Proof.
  intros Hc Hw E. apply trim_blank in E. rewrite forallb_elem in E. by rewrite (E c Hc) in Hw.
Qed.

Lemma trim_sub s c : c ∈ trim s -> c ∈ s.
Proof.
  unfold trim, trimEnd. intros H. apply list_elem_of_In in H. apply in_rev in H.
  apply list_elem_of_In in H.
  destruct (trimStart_suffix (rev (trimStart s))) as [p Hp].
  assert (c ∈ rev (trimStart s)) as H' by (rewrite Hp; apply elem_of_app; by right).
  apply list_elem_of_In in H'. apply in_rev in H'. apply list_elem_of_In in H'.
  destruct (trimStart_suffix s) as [q Hq]. rewrite Hq. apply elem_of_app. by right.
Qed.

(** *** Decimal numerals *)

(** The numerals [String(n)] prints: digits, without a leading zero. *)
Definition canonical (s : jsstr) : bool :=
  match s with
  | [] => false
  | [c] => is_digit c
  | c :: _ => forallb is_digit s && negb (c =? 48)%N
  end.

Lemma digits_val_snoc s c : digits_val (s ++ [c]) = (10 * digits_val s + (c - 48))%N.
Proof. unfold digits_val. by rewrite foldl_app. Qed.

Lemma digits_val_acc s v :
  foldl (fun v c => 10 * v + (c - 48))%N v s = (v * 10 ^ N.of_nat (length s) + digits_val s)%N.
Proof.
  unfold digits_val. revert v. induction s as [|c s IH]; intros v; cbn [length foldl].
  { simpl. lia. }
  rewrite IH, (IH (10 * 0 + (c - 48))%N), Nat2N.inj_succ, N.pow_succ_r'. lia.
Qed.

Lemma digits_val_cons c s :
  digits_val (c :: s) = ((c - 48) * 10 ^ N.of_nat (length s) + digits_val s)%N.
Proof.
  unfold digits_val at 1. cbn [foldl]. by rewrite digits_val_acc, N.mul_0_r.
Qed.

Lemma digits_val_bound s :
  forallb is_digit s = true -> (digits_val s < 10 ^ N.of_nat (length s))%N.
Proof.
  induction s as [|c s IH]; [done|]. cbn [forallb]. rewrite andb_true_iff. intros [Hc Hs].
  rewrite digits_val_cons. cbn [length]. rewrite Nat2N.inj_succ, N.pow_succ_r'.
  specialize (IH Hs). unfold is_digit in Hc. apply andb_true_iff in Hc as [H1 H2].
  apply N.leb_le in H1, H2. nia.
Qed.

Lemma canonical_digits s : canonical s = true -> forallb is_digit s = true.
Proof.
  destruct s as [|c [|d s]]; cbn [canonical]; [done| |].
  - intros H. simpl. by rewrite H.
  - intros [H _]%andb_true_iff. done.
Qed.

Lemma canonical_snoc s c :
  canonical (s ++ [c]) = true ->
  is_digit c = true /\ (s = [] \/ canonical s = true /\ (1 <= digits_val s)%N).
Proof.
  intros H. pose proof (canonical_digits _ H) as Hd.
  rewrite forallb_app in Hd. cbn [forallb] in Hd. rewrite !andb_true_iff in Hd.
  destruct Hd as (Hs & Hc & _). split; [done|].
  destruct s as [|a s]; [by left|right].
  assert (a <> 48)%N as Ha.
  { destruct s; simpl in H; rewrite !andb_true_iff, negb_true_iff, N.eqb_neq in H; tauto. }
  split.
  - destruct s as [|b s]; cbn [canonical]; cbn [forallb] in Hs.
    + by rewrite andb_true_r in Hs.
    + apply andb_true_iff; split; [exact Hs|]. by apply negb_true_iff, N.eqb_neq.
  - rewrite digits_val_cons. cbn [forallb] in Hs. apply andb_true_iff in Hs as [Hd _].
    unfold is_digit in Hd. apply andb_true_iff in Hd as [H1 H2]. apply N.leb_le in H1, H2.
    assert (1 <= 10 ^ N.of_nat (length s))%N by (apply N.lt_pred_le, N.neq_0_lt_0, N.pow_nonzero; lia).
    nia.
Qed.

(** A number has one canonical numeral. *)
Lemma canonical_inj s t :
  canonical s = true -> canonical t = true -> digits_val s = digits_val t -> s = t.
Proof.
  revert t. induction s as [|c s IH] using rev_ind; [done|]. intros t Hs Ht E.
  destruct t as [|d t _] using rev_ind; [done|].
  apply canonical_snoc in Hs as [Hc Hs], Ht as [Hd Ht].
  rewrite !digits_val_snoc in E.
  unfold is_digit in Hc, Hd. apply andb_true_iff in Hc as [??], Hd as [??].
  rewrite !N.leb_le in *.
  assert (digits_val s = digits_val t /\ c = d) as [E1 ->] by lia.
  f_equal. destruct Hs as [->|[Hs Ps]], Ht as [->|[Ht Pt]]; [done|..|by apply IH].
  - change (digits_val []) with 0%N in E1. lia.
  - change (digits_val []) with 0%N in E1. lia.
Qed.

Lemma dec_go_spec fuel n acc :
  (n < 10 ^ N.of_nat fuel)%N -> fuel <> 0 ->
  exists ds, dec_go fuel n acc = ds ++ acc /\ digits_val ds = n /\ canonical ds = true.
Proof.
  revert n acc. induction fuel as [|k IH]; intros n acc Hn Hk; [done|].
  cbn [dec_go]. pose proof (N.div_mod n 10 ltac:(lia)) as Hdm.
  pose proof (N.mod_lt n 10 ltac:(lia)) as Hm.
  pose proof (N.le_0_l (n mod 10)) as Hm0.
  assert (Hdig : is_digit (48 + n mod 10)%N = true).
  { unfold is_digit. apply andb_true_iff. rewrite !N.leb_le. lia. }
  destruct (N.ltb_spec n 10).
  - exists [(48 + n mod 10)%N]. split; [done|]. split; [|done].
    change (0 * 10 + ((48 + n mod 10) - 48) = n)%N. rewrite N.mod_small by done. lia.
  - rewrite Nat2N.inj_succ, N.pow_succ_r' in Hn.
    destruct (IH (n / 10)%N ((48 + n mod 10)%N :: acc)) as (ds & E & Hv & Hcan).
    + apply N.Div0.div_lt_upper_bound; lia.
    + intros ->. change (n < 10)%N in Hn. lia.
    + exists (ds ++ [(48 + n mod 10)%N]). rewrite E, <- app_assoc. split; [done|].
      rewrite digits_val_snoc, Hv. split; [lia|].
      pose proof (canonical_digits _ Hcan) as Hall.
      assert (1 <= n / 10)%N by (apply N.div_le_lower_bound; lia).
      destruct ds as [|a ds]; [done|].
      assert (negb (a =? 48)%N = true) as Ha.
      { apply negb_true_iff, N.eqb_neq. intros ->.
        destruct ds as [|b ds]; [change (digits_val [48%N]) with 0%N in Hv; lia|].
        cbn [canonical] in Hcan. rewrite andb_true_iff in Hcan. by destruct Hcan. }
      cbn [app canonical]. destruct (ds ++ _) eqn:Eq; [by destruct ds|].
      rewrite <- Eq. apply andb_true_iff; split; [|done].
      rewrite app_comm_cons, forallb_app, Hall. cbn [forallb]. by rewrite Hdig.
Qed.

Lemma dec_spec n : digits_val (dec n) = n /\ canonical (dec n) = true.
Proof.
  unfold dec. set (k := N.to_nat (N.log2 n)).
  destruct (dec_go_spec (S k) n []) as (ds & E & Hv & Hcan); [|done|].
  - subst k. rewrite Nat2N.inj_succ, N2Nat.id.
    destruct (N.eq_dec n 0) as [->|Hn]; [done|].
    pose proof (N.log2_spec n ltac:(lia)) as [_ H].
    eapply N.lt_le_trans; [exact H|]. apply N.pow_le_mono_l. lia.
  - by rewrite E, app_nil_r.
Qed.

Lemma digits_val_dec n : digits_val (dec n) = n.
Proof. apply dec_spec. Qed.
Lemma canonical_dec n : canonical (dec n) = true.
Proof. apply dec_spec. Qed.
Lemma dec_digits n : forallb is_digit (dec n) = true.
Proof. apply canonical_digits, canonical_dec. Qed.
Lemma dec_inj m n : dec m = dec n -> m = n.
Proof. intros E. by rewrite <- (digits_val_dec m), <- (digits_val_dec n), E. Qed.
Lemma dec_canonical s : canonical s = true -> dec (digits_val s) = s.
Proof. intros H. apply canonical_inj; [apply canonical_dec|done|apply digits_val_dec]. Qed.
Lemma dec_not_nil n : dec n <> [].
Proof. intros E. pose proof (canonical_dec n) as H. by rewrite E in H. Qed.

Lemma dec_elem n c : c ∈ dec n -> (48 <= c <= 57)%N.
Proof.
  intros Hc. pose proof (dec_digits n) as H. rewrite forallb_elem in H.
  specialize (H c Hc). unfold is_digit in H. by rewrite andb_true_iff, !N.leb_le in H.
Qed.

Lemma digit_no_ws c : (48 <= c <= 57)%N -> is_ws c = false.
Proof.
  intros [H1 H2]. unfold is_ws.
  rewrite !orb_false_iff, !andb_false_iff, !N.leb_gt, !N.eqb_neq. repeat split; lia.
Qed.

Lemma trim_dec n : trim (dec n) = dec n.
Proof.
  apply trim_id, no_ws_ends_all, Forall_elem. intros c Hc.
  eapply digit_no_ws, dec_elem; exact Hc.
Qed.

Lemma dec_no_unit n c : (c < 48 \/ 57 < c)%N -> c ∉ dec n.
Proof. intros H Hc. apply dec_elem in Hc. lia. Qed.

#[export] Hint Rewrite digits_val_dec canonical_dec dec_digits trim_dec trim_idemp : panel.
#[export] Hint Resolve dec_not_nil dec_no_unit canonical_dec split_nonempty : panel.

(** ** Comparison

    [s < t] on strings compares units from the left. *)

Fixpoint str_lt (s t : jsstr) : bool :=
  match s, t with
  | _, [] => false
  | [], _ => true
  | a :: s', b :: t' => (a <? b)%N || (a =? b)%N && str_lt s' t'
  end.

Lemma str_lt_app s t u v :
  length s = length t -> str_lt (s ++ u) (t ++ v) = str_lt s t || (s === t) && str_lt u v.
Proof.
  revert t. induction s as [|a s IH]; intros [|b t] Hl; try done. simpl in Hl |- *.
  rewrite IH by lia. destruct (N.ltb_spec a b), (N.eqb_spec a b); simpl; try done.
  - subst. f_equal. assert ((b :: s === b :: t) = (s === t)) as ->; [|done].
    apply eq_true_iff_eq. rewrite !streqb_eq. naive_solver.
  - assert ((a :: s === b :: t) = false) as ->; [|done]. apply streqb_neq. congruence.
Qed.

(** On runs of digits of the same length it compares the numbers. *)
Lemma str_lt_digits s t :
  length s = length t -> forallb is_digit s = true -> forallb is_digit t = true ->
  str_lt s t = (digits_val s <? digits_val t)%N.
Proof.
  revert t. induction s as [|a s IH]; intros [|b t] Hl Hs Ht; try done.
  apply andb_true_iff in Hs as [Ha Hs], Ht as [Hb Ht]. injection Hl as Hl. cbn [str_lt].
  rewrite IH by done. rewrite !digits_val_cons, Hl.
  pose proof (digits_val_bound s Hs) as Bs. pose proof (digits_val_bound t Ht) as Bt. rewrite Hl in Bs.
  unfold is_digit in Ha, Hb. apply andb_true_iff in Ha as [Ha1 Ha2], Hb as [Hb1 Hb2].
  apply N.leb_le in Ha1, Ha2, Hb1, Hb2. set (p := (10 ^ N.of_nat (length t))%N) in *.
  destruct (N.ltb_spec a b), (N.eqb_spec a b); cbn [orb andb].
  - lia.
  - symmetry. apply N.ltb_lt. nia.
  - subst. apply eq_true_iff_eq. rewrite !N.ltb_lt. lia.
  - symmetry. apply N.ltb_ge. nia.
Qed.

Lemma digits_val_inj s t :
  length s = length t -> forallb is_digit s = true -> forallb is_digit t = true ->
  digits_val s = digits_val t -> s = t.
Proof.
  revert t. induction s as [|a s IH]; intros [|b t] Hl Hs Ht E; try done.
  apply andb_true_iff in Hs as [Ha Hs], Ht as [Hb Ht]. injection Hl as Hl.
  rewrite !digits_val_cons, Hl in E.
  pose proof (digits_val_bound s Hs) as Bs. pose proof (digits_val_bound t Ht) as Bt. rewrite Hl in Bs.
  unfold is_digit in Ha, Hb. apply andb_true_iff in Ha as [Ha1 Ha2], Hb as [Hb1 Hb2].
  apply N.leb_le in Ha1, Ha2, Hb1, Hb2. set (p := (10 ^ N.of_nat (length t))%N) in *.
  assert (a = b) as -> by nia. f_equal. apply IH; [done..|lia].
Qed.
