(* ===== verification/Splitting.v ===== *)
(** * Splitting on longer separators and on classes, and doubles

    The rest of the String and Number operations the address and port
    validators use: [split] with a two-unit separator or a class expression,
    searching with [lastIndexOf], and [Number] of a digit string, rounded to a
    double. *)

From S2P Require Import Prelude JsString.

(** ** Pieces of a concatenation *)

Lemma split_app_sep c s t : split c (s ++ c :: t) = split c s ++ split c t.
Proof.
  induction s as [|a s IH]; simpl; [by rewrite N.eqb_refl|].
  destruct (N.eqb_spec a c) as [->|]; [by rewrite IH|]. rewrite IH.
  destruct (split c s) eqn:E; [by destruct (split_nonempty c s)|done].
Qed.

Lemma join_app sep l l' :
  l <> [] -> l' <> [] -> join sep (l ++ l') = join sep l ++ sep ++ join sep l'.
Proof.
  intros Hl Hl'. induction l as [|w l IH]; [done|]. destruct l as [|w' l].
  - by apply join_cons.
  - change ((w :: w' :: l) ++ l') with (w :: ((w' :: l) ++ l')).
    rewrite join_cons by (by destruct l). rewrite IH by done.
    rewrite (join_cons sep w (w' :: l)) by done. by rewrite <- !app_assoc.
Qed.

Lemma join_elem sep l c : c ∈ join sep l -> c ∈ sep \/ exists w, w ∈ l /\ c ∈ w.
Proof.
  induction l as [|w l IH]; [by intros ?%elem_of_nil|].
  destruct l as [|w' l]; [right; exists w; by split; [left|]|].
  rewrite join_cons by done. rewrite !elem_of_app. intros [H|[H|H]].
  - right. exists w. by split; [left|].
  - by left.
  - destruct (IH H) as [|(x & Hx & ?)]; [by left|right; exists x; by split; [right|]].
Qed.

(** ** [indexOf] and [lastIndexOf] *)

(** [indexOf] finds the first occurrence. *)
Lemma indexOf_min s p i u v : indexOf s p = Some i -> s = u ++ p ++ v -> i <= length u.
Proof.
  revert i u. induction s as [|a s IH]; intros i u; cbn [indexOf].
  - destruct (prefixb p []); [|done]. intros [= <-] _. lia.
  - destruct (prefixb p (a :: s)) eqn:Ep; [intros [= <-] _; lia|].
    destruct (indexOf s p) as [k|]; [|done]. intros [= <-] E. destruct u as [|b u].
    + assert (prefixb p (a :: s) = true) by (apply prefixb_spec; eauto). congruence.
    + injection E as -> E. specialize (IH k u eq_refl E). simpl. lia.
Qed.

Lemma lastIndexOf_app s t c : c ∉ t -> lastIndexOf (s ++ c :: t) c = Some (length s).
Proof.
  intros Ht. assert (Hn : lastIndexOf t c = None).
  { induction t as [|a t IH]; simpl; [done|]. apply not_elem_of_cons in Ht as [Ha Ht].
    rewrite IH by done. by destruct (N.eqb_spec a c). }
  induction s as [|a s IH]; simpl; [by rewrite Hn, N.eqb_refl|by rewrite IH].
Qed.

Lemma lastIndexOf_Some s c i :
  lastIndexOf s c = Some i -> exists a b, s = a ++ c :: b /\ length a = i /\ c ∉ b.
Proof.
  revert i. induction s as [|a s IH]; intros i; simpl; [done|].
  destruct (lastIndexOf s c) as [k|] eqn:E.
  - intros [= <-]. destruct (IH k eq_refl) as (x & y & -> & <- & Hy). by exists (a :: x), y.
  - destruct (N.eqb_spec a c) as [->|]; [|done]. intros [= <-]. exists [], s.
    split; [done|]. split; [done|]. clear IH. intros Hc.
    apply list_elem_of_split in Hc as (x & y & ->).
    clear -E. induction x as [|b x IH]; simpl in E.
    + destruct (lastIndexOf y c); [done|]. by rewrite N.eqb_refl in E.
    + destruct (lastIndexOf (x ++ c :: y) c); [done|]. by apply IH.
Qed.

Lemma indexOf_first_unit a c b : c ∉ a -> indexOf (a ++ c :: b) [c] = Some (length a).
Proof.
  intros Ha. induction a as [|d a IH]; cbn [app indexOf prefixb length].
  - by rewrite N.eqb_refl.
  - apply not_elem_of_cons in Ha as [Hd Ha]. destruct (N.eqb_spec c d); [done|]. cbn [andb].
    by rewrite IH.
Qed.

Lemma indexOf_unit s c :
  indexOf s [c] = None <-> c ∉ s.
Proof.
  split.
  - intros H Hc. apply list_elem_of_split in Hc as (a & b & ->).
    by apply (indexOf_None _ [c] a b) in H.
  - intros H. destruct (indexOf s [c]) eqn:E; [|done]. exfalso. apply H.
    apply indexOf_Some in E as (a & b & -> & _). rewrite elem_of_app. right. by left.
Qed.

(** ** The separator ["::"] *)

(** [split_on sep] cuts at the first occurrence of [sep] and goes on after it. *)
Lemma split_on_go_skip sep s t acc :
  split_on_go sep (s ++ t) (length s) acc = split_on_go sep t 0 acc.
Proof. induction s as [|a s IH]; simpl; [done|]. by rewrite IH. Qed.

Lemma split_on_go_none sep s acc :
  indexOf s sep = None -> split_on_go sep s 0 acc = [rev acc ++ s].
Proof.
  revert acc. induction s as [|a s IH]; intros acc; cbn [indexOf split_on_go];
    destruct (prefixb sep _) eqn:Ep; try done; [by rewrite app_nil_r|].
  destruct (indexOf s sep); [done|]. intros _. rewrite IH by done.
  cbn [rev]. by rewrite <- app_assoc.
Qed.

Lemma split_on_go_some sep s acc i :
  sep <> [] -> indexOf s sep = Some i ->
  split_on_go sep s 0 acc = (rev acc ++ take i s) :: split_on sep (drop (i + length sep) s).
Proof.
  intros Hsep. revert acc i. induction s as [|a s IH]; intros acc i; cbn [indexOf split_on_go].
  - destruct (prefixb sep []) eqn:Ep; [|done]. apply prefixb_spec in Ep as [t Et].
    by destruct sep.
  - destruct (prefixb sep (a :: s)) eqn:Ep.
    + intros [= <-]. apply prefixb_spec in Ep as [t Et]. destruct sep as [|b sep]; [done|].
      injection Et as -> ->.
      replace (length (b :: sep) - 1) with (length sep) by (simpl; lia).
      rewrite split_on_go_skip. cbn [take length drop app Nat.add].
      by rewrite drop_app_length, app_nil_r.
    + destruct (indexOf s sep) as [k|] eqn:Ek; [|done]. intros [= <-].
      rewrite (IH (a :: acc) k eq_refl). cbn [rev take drop app Nat.add]. by rewrite <- app_assoc.
Qed.

Lemma split_on_none sep s : indexOf s sep = None -> split_on sep s = [s].
Proof. apply (split_on_go_none sep s []). Qed.

Lemma split_on_some sep s i :
  sep <> [] -> indexOf s sep = Some i ->
  split_on sep s = take i s :: split_on sep (drop (i + length sep) s).
Proof. intros H E. exact (split_on_go_some sep s [] i H E). Qed.

Lemma split_on_nonempty sep s : sep <> [] -> split_on sep s <> [].
Proof.
  intros H. destruct (indexOf s sep) eqn:E; [by rewrite (split_on_some _ _ _ H E)|].
  by rewrite split_on_none.
Qed.

(** A one-unit separator. *)
Lemma split_on_unit c s : split_on [c] s = split c s.
Proof.
  cut (forall acc, split_on_go [c] s 0 acc =
         match split c s with [] => [] | w :: ws => (rev acc ++ w) :: ws end).
  { intros H. unfold split_on. rewrite H. pose proof (split_nonempty c s). by destruct (split c s). }
  induction s as [|a s IH]; intros acc; cbn [split_on_go split prefixb]; [by rewrite app_nil_r|].
  rewrite andb_true_r, N.eqb_sym. destruct (a =? c)%N.
  - cbn [length Nat.sub]. rewrite (IH []), app_nil_r. pose proof (split_nonempty c s).
    by destruct (split c s).
  - rewrite IH. pose proof (split_nonempty c s). destruct (split c s); [done|].
    cbn [rev]. by rewrite <- app_assoc.
Qed.

(** [s.replaceAll(c, '')] on a string that ends with its only [c]. *)
Lemma replaceAll_last c s : c ∉ s -> replaceAll (s ++ [c]) [c] [] = s.
Proof.
  intros Hc. unfold replaceAll. rewrite split_on_unit, split_app by done. simpl. by rewrite app_nil_r.
Qed.

(** The first occurrence in [a ++ sep ++ b], when none starts in [a]. *)
Lemma indexOf_first sep a b :
  sep <> [] -> (forall x y, a ++ removelast sep <> x ++ sep ++ y) ->
  indexOf (a ++ sep ++ b) sep = Some (length a).
Proof.
  intros Hsep. induction a as [|c a IH]; intros H.
  - cbn [app length]. assert (prefixb sep (sep ++ b) = true) as E by (apply prefixb_spec; eauto).
    destruct (sep ++ b) eqn:Es; cbn [indexOf]; by rewrite E.
  - cbn [app indexOf length]. destruct (prefixb sep (c :: a ++ sep ++ b)) eqn:E.
    + exfalso. apply prefixb_spec in E as [t Et].
      assert (Hl : length sep <= length ((c :: a) ++ removelast sep)).
      { rewrite length_app. destruct sep as [|s0 sep] using rev_ind; [done|].
        rewrite removelast_last, length_app. simpl. lia. }
      apply (H [] (drop (length sep) ((c :: a) ++ removelast sep))). cbn [app].
      rewrite <- (take_drop (length sep) ((c :: a) ++ removelast sep)) at 1. f_equal.
      destruct sep as [|s0 sep _] using rev_ind; [done|]. rewrite removelast_last in *.
      assert (Et' : ((c :: a) ++ sep) ++ [s0] ++ b = (sep ++ [s0]) ++ t)
        by (rewrite <- Et; cbn [app]; by rewrite <- !app_assoc).
      rewrite <- (take_app_le ((c :: a) ++ sep) ([s0] ++ b)) by done.
      rewrite Et'. by rewrite take_app_length.
    + rewrite IH; [done|]. intros x y E'. apply (H (c :: x) y). cbn [app]. by rewrite E'.
Qed.

(** *** Two colons *)

Section Colons.
Context (c : N).

(** [c c] occurs exactly where an inner piece is empty. *)
Lemma double_pieces s :
  (exists x y, s = x ++ [c; c] ++ y) <->
  (exists l r, split c s = l ++ [] :: r /\ l <> [] /\ r <> []).
Proof.
  split.
  - intros (x & y & ->). exists (split c x), (split c y).
    split; [|auto with panel]. cbn [app]. rewrite split_app_sep. f_equal.
    cbn [split]. by rewrite N.eqb_refl.
  - intros (l & r & E & Hl & Hr). exists (join [c] l), (join [c] r).
    rewrite <- (join_split c s), E. change ([] :: r) with ([[]] ++ r).
    rewrite !join_app by done. done.
Qed.

Definition solid (l : list jsstr) : Prop := Forall (fun w => w <> [] /\ c ∉ w) l.

Lemma solid_split l : solid l -> l <> [] -> split c (join [c] l) = l.
Proof.
  intros H Hne. apply split_join; [done|]. eapply Forall_impl; [|exact H]. by intros w [].
Qed.

Lemma solid_no_empty l : solid l -> [] ∉ l.
Proof. intros H Hin. unfold solid in H. rewrite Forall_elem in H. by destruct (H [] Hin). Qed.

(** Words without an empty one, joined, hold no [c c]; nor with a trailing [c]. *)
Lemma solid_no_double l x y : solid l -> join [c] l <> x ++ [c; c] ++ y.
Proof.
  intros H E. destruct l as [|w l]; [by destruct x|].
  assert (exists x y, join [c] (w :: l) = x ++ [c; c] ++ y) as Hd by eauto.
  apply double_pieces in Hd as (l1 & r1 & E1 & _). rewrite solid_split in E1 by done.
  apply (solid_no_empty _ H). rewrite E1, elem_of_app. right. by left.
Qed.

Lemma solid_no_double_end l x y : solid l -> join [c] l ++ [c] <> x ++ [c; c] ++ y.
Proof.
  intros H E. destruct (decide (l = [])) as [->|Hne].
  { apply (f_equal length) in E. rewrite !length_app in E. simpl in E. lia. }
  assert (exists x y, join [c] l ++ [c] = x ++ [c; c] ++ y) as Hd by eauto.
  apply double_pieces in Hd as (l1 & r1 & E1 & Hl1 & Hr1).
  rewrite split_app_sep, solid_split in E1 by done. cbn [split] in E1.
  destruct r1 as [|w r1 _] using rev_ind; [done|].
  change (l1 ++ [] :: r1 ++ [w]) with (l1 ++ ([[]] ++ r1) ++ [w]) in E1.
  rewrite app_assoc in E1. apply app_inj_tail in E1 as [E1 _].
  apply (solid_no_empty _ H). rewrite E1, elem_of_app. right. by left.
Qed.

(** The two sides of a single [c c]. *)
Lemma split_on_double a b :
  (forall x y, a ++ [c] <> x ++ [c; c] ++ y) -> (forall x y, b <> x ++ [c; c] ++ y) ->
  split_on [c; c] (a ++ [c; c] ++ b) = [a; b].
Proof.
  intros Ha Hb. rewrite (split_on_some _ _ (length a)); [|done|by apply indexOf_first].
  rewrite take_app_length, <- drop_drop, drop_app_length.
  cbn [length]. rewrite split_on_none; [done|].
  destruct (indexOf _ [c; c]) as [i|] eqn:E; [|done].
  apply indexOf_Some in E as (x & y & E & _). by destruct (Hb x y).
Qed.

Lemma split_on_double_inv s a b :
  split_on [c; c] s = [a; b] ->
  s = a ++ [c; c] ++ b /\ (forall x y, a ++ [c] <> x ++ [c; c] ++ y) /\
  (forall x y, b <> x ++ [c; c] ++ y).
Proof.
  intros H. destruct (indexOf s [c; c]) as [i|] eqn:E; [|by rewrite split_on_none in H].
  rewrite (split_on_some [c; c] s i) in H by done. injection H as Ha Hb.
  apply indexOf_Some in E as Hs. destruct Hs as (x & y & Hs & Hi).
  assert (Ex : x = a) by (rewrite <- Ha, Hs, <- Hi; by rewrite take_app_length). subst x.
  rewrite Hs, <- Hi, <- drop_drop, drop_app_length in Hb.
  change (split_on [c; c] y = [b]) in Hb.
  destruct (indexOf y [c; c]) as [j|] eqn:Ej.
  { rewrite (split_on_some [c; c] y j) in Hb by done.
    injection Hb as _ Hb. by apply split_on_nonempty in Hb. }
  rewrite split_on_none in Hb by done. injection Hb as ->.
  split; [done|]. split.
  - intros u v Ed. subst i.
    assert (Hs' : s = u ++ [c; c] ++ (v ++ [c] ++ b)).
    { rewrite Hs. change ([c; c] ++ b) with ([c] ++ [c] ++ b).
      rewrite app_assoc, Ed. by rewrite <- !app_assoc. }
    assert (Hlt : length u < length a).
    { apply (f_equal length) in Ed. rewrite !length_app in Ed. simpl in Ed. lia. }
    pose proof (indexOf_min _ _ _ _ _ E Hs'). lia.
  - intros u v Ed. by apply (indexOf_None _ _ u v Ej).
Qed.

Lemma solid_head l y : solid l -> join [c] l <> c :: y.
Proof.
  intros H E. destruct l as [|w l]; [done|].
  assert (Hs : split c (join [c] (w :: l)) = w :: l) by by apply solid_split.
  rewrite E in Hs. cbn [split] in Hs. rewrite N.eqb_refl in Hs. injection Hs as <- _.
  apply (solid_no_empty _ H). by left.
Qed.

(** A single [c c] between two joined solid lists: the split finds the two
    sides, and there is no [c c c]. *)
Lemma solid_sides l r :
  solid l -> solid r ->
  split_on [c; c] (join [c] l ++ [c; c] ++ join [c] r) = [join [c] l; join [c] r].
Proof.
  intros Hl Hr. apply split_on_double; intros x y.
  - by apply solid_no_double_end.
  - by apply solid_no_double.
Qed.

Lemma solid_no_triple l r x y :
  solid l -> solid r -> join [c] l ++ [c; c] ++ join [c] r <> x ++ [c; c; c] ++ y.
Proof.
  intros Hl Hr E.
  assert (Hi : indexOf (join [c] l ++ [c; c] ++ join [c] r) [c; c] = Some (length (join [c] l))).
  { apply indexOf_first; [done|]. intros u v. by apply solid_no_double_end. }
  pose proof (indexOf_min _ _ _ x (c :: y) Hi E) as Hlen.
  apply (app_eq_inv _ _ _ _) in E as [(k & Ex & E)|(k & Ex & E)].
  - assert (k = []) as -> by (apply (f_equal length) in Ex; rewrite length_app in Ex; destruct k; simpl in *; [done|lia]).
    rewrite app_nil_r in Ex. cbn [app] in E. injection E as E. by apply (solid_head r y Hr).
  - destruct k as [|a [|b k]]; cbn [app] in E.
    + injection E as E. by apply (solid_head r y Hr).
    + injection E as _ E. by apply (solid_head r (c :: y) Hr).
    + injection E as _ _ E. by apply (solid_no_double r k (c :: y) Hr).
Qed.

Definition doubled (s : jsstr) : Prop := exists x y, s = x ++ [c; c] ++ y.

(** A [c c] of [bs ++ t'], where [t'] has no empty word, is one of [bs ++ t]. *)
Lemma double_tail bs t t' :
  Forall (fun w => c ∉ w) (bs ++ t) -> Forall (fun w => c ∉ w) bs -> solid t' ->
  t <> [] -> t' <> [] -> doubled (join [c] (bs ++ t')) -> doubled (join [c] (bs ++ t)).
Proof.
  intros Ht Hbs Ht' Hne Hne' Hd. unfold doubled in *. apply double_pieces in Hd as (l & r & E & Hl & Hr).
  apply double_pieces.
  assert (Hf' : Forall (fun w => c ∉ w) (bs ++ t')).
  { apply Forall_app. split; [done|]. eapply Forall_impl; [|exact Ht']. by intros w []. }
  rewrite split_join in E by (done || by destruct bs, t').
  rewrite split_join by (done || by destruct bs, t).
  assert (Hin : [] ∈ t' -> False) by (intros Hin; by apply (solid_no_empty _ Ht')).
  apply app_eq_inv in E as [(k & -> & E)|(k & -> & E)].
  - destruct k as [|w k]; cbn [app] in E.
    + exfalso. apply Hin. rewrite <- E. by left.
    + injection E as <- ->. exists l, (k ++ t). rewrite <- app_assoc. repeat split; [done|].
      by destruct k.
  - exfalso. apply Hin. rewrite E, elem_of_app. right. by left.
Qed.

(** Moving the last word of a joined list past the separator. *)
Lemma sides_snoc l r t :
  t <> [] ->
  join [c] l ++ [c; c] ++ join [c] (r ++ t) =
  (join [c] l ++ [c] ++ match r with [] => [] | _ => [c] ++ join [c] r end) ++ [c] ++ join [c] t.
Proof.
  intros Ht. destruct r as [|w r]; [by rewrite <- !app_assoc|].
  rewrite join_app by done. by rewrite <- !app_assoc.
Qed.
End Colons.

(** ** A class expression with [+] as the separator

    [s.split(/[...]+/)]: every maximal run of separator units is one
    separator. [skip] holds inside a run; [acc] is the current piece, reversed. *)

Fixpoint split_runs_go (sep : N -> bool) (s : jsstr) (skip : bool) (acc : jsstr) : list jsstr :=
  match s with
  | [] => [rev acc]
  | c :: s' =>
      if sep c then
        if skip then split_runs_go sep s' true acc
        else rev acc :: split_runs_go sep s' true []
      else split_runs_go sep s' false (c :: acc)
  end.
Definition split_runs (sep : N -> bool) (s : jsstr) : list jsstr := split_runs_go sep s false [].

Example split_runs_ex : split_runs (N.eqb 44) (js ",a,,b,") = [[]; js "a"; js "b"; []].
Proof. reflexivity. Qed.

(** The words of [s]: its maximal non-empty runs without a separator. *)
Definition clean_word (sep : N -> bool) (w : jsstr) : Prop :=
  w <> [] /\ Forall (fun c => sep c = false) w.

Fixpoint words_go (sep : N -> bool) (s acc : jsstr) : list jsstr :=
  let out := match acc with [] => [] | _ => [rev acc] end in
  match s with
  | [] => out
  | c :: s' => if sep c then out ++ words_go sep s' [] else words_go sep s' (c :: acc)
  end.
Definition words (sep : N -> bool) (s : jsstr) : list jsstr := words_go sep s [].

Lemma truthy_rev s : truthy (rev s) = truthy s.
Proof.
  destruct s as [|c s]; [done|]. cbn [rev truthy].
  destruct (rev s ++ [c]) eqn:E; [by apply app_eq_nil in E as [_ ?]|done].
Qed.

(** Without its empty pieces, the split is the words. *)
Lemma split_runs_words sep s :
  List.filter truthy (split_runs sep s) = words sep s.
Proof.
  assert (H : forall s skip acc, (skip = true -> acc = []) ->
    List.filter truthy (split_runs_go sep s skip acc) = words_go sep s acc).
  { clear s. induction s as [|c s IH]; intros skip acc Hk; cbn [split_runs_go words_go].
    - cbn [List.filter]. rewrite truthy_rev. by destruct acc.
    - destruct (sep c); [|by apply IH].
      destruct skip.
      + rewrite Hk by done. by rewrite IH.
      + cbn [List.filter]. rewrite truthy_rev, IH by done. by destruct acc. }
  by apply H.
Qed.

Lemma words_go_clean sep s acc :
  Forall (fun c => sep c = false) acc -> Forall (clean_word sep) (words_go sep s acc).
Proof.
  assert (Hout : forall acc, Forall (fun c => sep c = false) acc ->
    Forall (clean_word sep) match acc with [] => [] | _ => [rev acc] end).
  { intros [|c l] H; repeat constructor; [|by apply Forall_rev].
    intros E. apply app_eq_nil in E as [_ ?]. done. }
  revert acc. induction s as [|c s IH]; intros acc Hacc; cbn [words_go]; [by apply Hout|].
  destruct (sep c) eqn:Ec; [apply Forall_app_2; [by apply Hout|by apply IH]|].
  apply IH. by constructor.
Qed.

Lemma words_clean sep s : Forall (clean_word sep) (words sep s).
Proof. by apply words_go_clean. Qed.

Lemma words_go_app sep w s acc :
  Forall (fun c => sep c = false) w -> words_go sep (w ++ s) acc = words_go sep s (rev w ++ acc).
Proof.
  intros H. revert acc. induction H as [|c w Hc Hw IH]; intros acc; [done|].
  cbn [app words_go rev]. by rewrite Hc, IH, <- app_assoc.
Qed.

(** The words of clean words joined by separators are those words. *)
Lemma words_join sep sp l :
  Forall (clean_word sep) l -> sp <> [] -> Forall (fun c => sep c = true) sp ->
  words sep (join sp l) = l.
Proof.
  intros Hl Hne Hsp. unfold words. induction Hl as [|w l [Hw Hc] Hl IH]; [done|].
  destruct l as [|w' l].
  - cbn [join]. rewrite <- (app_nil_r w) at 1. rewrite words_go_app by done. cbn [words_go].
    rewrite app_nil_r. destruct (rev w) eqn:E; [by apply (f_equal (@rev N)) in E; rewrite rev_involutive in E|].
    by rewrite <- E, rev_involutive.
  - rewrite join_cons, words_go_app, app_nil_r by done.
    assert (Hskip : forall sp s, Forall (fun c => sep c = true) sp -> words_go sep (sp ++ s) [] = words_go sep s []).
    { intros sp' s H. induction H as [|c sp' Hcs _ IH']; [done|]. cbn [app words_go]. by rewrite Hcs, IH'. }
    destruct Hsp as [|c sp Hcs Hsp]; [done|]. cbn [app words_go]. rewrite Hcs, Hskip, IH by done.
    destruct (rev w) eqn:E; [by apply (f_equal (@rev N)) in E; rewrite rev_involutive in E|].
    by rewrite <- E, rev_involutive.
Qed.

(** A clean word is its own list of words. *)
Lemma words_one sep w : clean_word sep w -> words sep w = [w].
Proof.
  intros [Hw Hc]. unfold words. rewrite <- (app_nil_r w) at 1.
  rewrite words_go_app by done. cbn [words_go]. rewrite app_nil_r.
  destruct (rev w) eqn:E; [by apply (f_equal (@rev N)) in E; rewrite rev_involutive in E|].
  by rewrite <- E, rev_involutive.
Qed.

(** ** [new Set] over strings, spread: the first occurrences, in order *)

Fixpoint set_go (seen l : list jsstr) : list jsstr :=
  match l with
  | [] => []
  | x :: l' => if memb x seen then set_go seen l' else x :: set_go (seen ++ [x]) l'
  end.
Definition spread_set (l : list jsstr) : list jsstr := set_go [] l.

Lemma set_go_elem seen l x : x ∈ set_go seen l <-> x ∈ l /\ x ∉ seen.
Proof.
  revert seen. induction l as [|y l IH]; intros seen; cbn [set_go].
  { rewrite elem_of_nil. tauto. }
  destruct (memb y seen) eqn:E; bool_prop.
  - rewrite IH, elem_of_cons. split; [tauto|]. intros [[->|?] ?]; done.
  - rewrite !elem_of_cons, IH, elem_of_app, list_elem_of_singleton. split.
    + intros [->|[? H]]; [by split; [left|]|split; [by right|tauto]].
    + intros [[->|?] ?]; [by left|]. destruct (decide (x = y)) as [->|]; [by left|]. right. tauto.
Qed.

Lemma set_go_NoDup seen l : NoDup (set_go seen l).
Proof.
  revert seen. induction l as [|y l IH]; intros seen; cbn [set_go]; [constructor|].
  case_step; [done|]. constructor; [|done]. rewrite set_go_elem, elem_of_app, list_elem_of_singleton.
  tauto.
Qed.

Lemma set_go_id seen l : NoDup l -> (forall x, x ∈ l -> x ∉ seen) -> set_go seen l = l.
Proof.
  intros H. revert seen. induction H as [|y l Hy Hl IH]; intros seen Hs; cbn [set_go]; [done|].
  assert (memb y seen = false) as ->. { apply memb_not_elem, Hs. by left. }
  f_equal. apply IH. intros x Hx. rewrite elem_of_app, list_elem_of_singleton.
  intros [Hin| ->]; [|done]. by apply (Hs x); [right|].
Qed.

Lemma spread_set_elem l x : x ∈ spread_set l <-> x ∈ l.
Proof. unfold spread_set. rewrite set_go_elem, elem_of_nil. tauto. Qed.
Lemma spread_set_NoDup l : NoDup (spread_set l).
Proof. apply set_go_NoDup. Qed.
Lemma spread_set_id l : NoDup l -> spread_set l = l.
Proof. intros H. apply set_go_id; [done|]. intros x _. apply not_elem_of_nil. Qed.

(** ** [Number] of a digit string

    The value is rounded to the nearest double, ties to even; a magnitude past
    the largest double, which JavaScript reads as Infinity, stays a number
    larger than every bound the sources compare it with. *)

Definition round53 (n : N) : N :=
  let k := (N.log2 n - 52)%N in
  let q := N.shiftr n k in
  let r := (n - N.shiftl q k)%N in
  let h := N.shiftl 1 k in
  N.shiftl (if (2 * r <? h)%N then q else if (h <? 2 * r)%N then q + 1
            else if N.even q then q else q + 1)%N k.

Definition Number_digits (s : jsstr) : N := round53 (digits_val s).

Example round53_up : round53 9007199254740995 = 9007199254740996%N. Proof. reflexivity. Qed.
Example round53_even : round53 9007199254740993 = 9007199254740992%N. Proof. reflexivity. Qed.

(** Exact up to 2^53. *)
Lemma round53_small n : (n < 2 ^ 53)%N -> round53 n = n.
Proof.
  intros H. unfold round53. assert (N.log2 n <= 52)%N as Hl.
  { destruct (N.eq_dec n 0) as [->|]; [done|]. apply N.lt_succ_r, N.log2_lt_pow2; lia. }
  replace (N.log2 n - 52)%N with 0%N by lia.
  rewrite N.shiftr_0_r, !N.shiftl_0_r, N.sub_diag. done.
Qed.

Lemma round53_big n : (2 ^ 53 <= n)%N -> (2 ^ 52 <= round53 n)%N.
Proof.
  intros H. unfold round53. set (k := (N.log2 n - 52)%N).
  assert (Hq : (2 ^ 52 <= N.shiftr n k)%N).
  { rewrite N.shiftr_div_pow2. apply N.div_le_lower_bound; [by apply N.pow_nonzero|].
    rewrite <- N.pow_add_r. assert (53 <= N.log2 n)%N by (apply N.log2_le_pow2; lia).
    replace (k + 52)%N with (N.log2 n) by (subst k; lia). apply N.log2_spec. lia. }
  rewrite N.shiftl_mul_pow2. assert (1 <= 2 ^ k)%N by (apply N.lt_pred_le, N.neq_0_lt_0, N.pow_nonzero; lia).
  repeat case_step; nia.
Qed.

(** Comparing with a bound of a port number sees no rounding. *)
Lemma Number_digits_small s b : (b < 2 ^ 52)%N -> (digits_val s <= b)%N -> Number_digits s = digits_val s.
Proof. intros ? ?. apply round53_small. lia. Qed.

Lemma Number_digits_le s b : (b < 2 ^ 52)%N -> (Number_digits s <= b)%N <-> (digits_val s <= b)%N.
Proof.
  intros Hb. unfold Number_digits. destruct (N.lt_ge_cases (digits_val s) (2 ^ 53)) as [H|H].
  - by rewrite round53_small.
  - pose proof (round53_big _ H). lia.
Qed.
