(* ===== verification/Numbers.v ===== *)
(** * JavaScript numbers

    The forms and helpers convert strings to numbers and back.  A number is a
    double; what the components rely on is that integers of less than 2^53 in
    magnitude are exact, which [JsNumber] states.  The instance at the end keeps
    integers and NaN only, and serves evaluation. *)

From S2P Require Import Prelude JsString.

Definition exact (z : Z) : Prop := (Z.abs z < 2 ^ 53)%Z.

Class JsNumber := {
  num : Type;
  Number : jsstr -> num;             (* Number(s) *)
  String_num : num -> jsstr;         (* String(x), `${x}` *)
  int : Z -> num;                    (* an integer literal or an exact result *)
  num_mul : num -> num -> num;
  num_le : num -> num -> bool;
  num_lt : num -> num -> bool;
  num_eq : num -> num -> bool;       (* === *)
  Number_nil : Number [] = int 0;
  Number_dec n : exact (Z.of_N n) -> Number (dec n) = int (Z.of_N n);
  String_int z : exact z -> String_num (int z) = decZ z;
  mul_int a b : exact a -> exact b -> exact (a * b) -> num_mul (int a) (int b) = int (a * b);
  le_int a b : exact a -> exact b -> num_le (int a) (int b) = (a <=? b)%Z;
  eq_int a b : exact a -> exact b -> num_eq (int a) (int b) = (a =? b)%Z;
  lt_int a b : exact a -> exact b -> num_lt (int a) (int b) = (a <? b)%Z;
}.

Lemma decZ_N n : decZ (Z.of_N n) = dec n.
Proof.
  unfold decZ. assert ((Z.of_N n <? 0)%Z = false) as -> by (apply Z.ltb_ge; lia). by rewrite N2Z.id.
Qed.

Lemma String_N `{JsNumber} n : exact (Z.of_N n) -> String_num (int (Z.of_N n)) = dec n.
Proof. intros Hn. by rewrite String_int, decZ_N. Qed.

Lemma exact_le a b : exact b -> (0 <= a <= b)%Z -> exact a.
Proof. unfold exact. lia. Qed.

(** [i < 10 ? '0' + i : '' + i], with two digits for a natural number below 100. *)
Definition pad2 (n : N) : jsstr := if (n <? 10)%N then js "0" ++ dec n else dec n.

(** Integers and NaN. *)
#[export] Instance int_numbers : JsNumber | 100.
Proof.
  refine {|
    num := option Z;
    Number s := if forallb is_digit s then Some (Z.of_N (digits_val s)) else None;
    String_num x := match x with Some z => decZ z | None => js "NaN" end;
    int z := Some z;
    num_mul a b := match a, b with Some a, Some b => Some (a * b)%Z | _, _ => None end;
    num_le a b := match a, b with Some a, Some b => (a <=? b)%Z | _, _ => false end;
    num_eq a b := match a, b with Some a, Some b => (a =? b)%Z | _, _ => false end;
    num_lt a b := match a, b with Some a, Some b => (a <? b)%Z | _, _ => false end |}; try done.
  intros n _. by rewrite dec_digits, digits_val_dec.
Defined.

(** Number.isInteger: an integer in a range of exact bounds is one of the exact
    integers between them. *)
Class JsInteger `{JsNumber} := {
  isInteger : num -> bool;
  isInteger_int z : exact z -> isInteger (int z) = true;
  isInteger_between x a b : exact a -> exact b ->
    isInteger x = true -> num_lt x (int a) = false -> num_lt (int b) x = false ->
    exists z, x = int z /\ (a <= z <= b)%Z;
}.

#[export] Instance int_integers : JsInteger | 100.
Proof.
  refine {| isInteger x := match x with Some _ => true | None => false end |}; [done|].
  intros [z|] a b _ _; [|done]. cbn. intros _ H1%Z.ltb_ge H2%Z.ltb_ge. by exists z.
Defined.
