(* ===== verification/Sorting.v ===== *)
(** * Array.prototype.sort

    A stable sort by a comparator that is the difference of two exact numbers: the
    standard asks for a stable permutation in ascending order, which [sort_by_unique]
    shows to be one list only. *)

From S2P Require Import Prelude.
From Stdlib Require Import Sorting.Sorted.
From stdpp Require Import sorting.

#[local] Open Scope list_scope.

Section SortBy.
Context {A : Type} (key : A -> Z).

(** [x] goes behind the items that are not greater. *)
Fixpoint insert_by (x : A) (l : list A) : list A :=
  match l with
  | [] => [x]
  | y :: l' => if (key x <? key y)%Z then x :: l else y :: insert_by x l'
  end.
Definition sort_by (l : list A) : list A := foldl (fun acc x => insert_by x acc) [] l.

Definition ascending : A -> A -> Prop := fun x y => (key x <= key y)%Z.

Lemma insert_by_perm x l : insert_by x l ≡ₚ x :: l.
Proof.
  induction l as [|y l IH]; [done|]. cbn [insert_by]. destruct (key x <? key y)%Z; [done|].
  rewrite IH. apply Permutation_swap.
Qed.

Lemma insert_by_sorted x l : StronglySorted ascending l -> StronglySorted ascending (insert_by x l).
Proof.
  induction 1 as [|y l Hl IH Hy]; cbn [insert_by]; [by repeat constructor|].
  destruct (Z.ltb_spec (key x) (key y)).
  - constructor; [by constructor|]. constructor; [unfold ascending; lia|].
    eapply Forall_impl; [exact Hy|]. unfold ascending. intros z Hz. lia.
  - constructor; [done|]. rewrite insert_by_perm. constructor; [unfold ascending; lia|done].
Qed.

Lemma sort_by_snoc l x : sort_by (l ++ [x]) = insert_by x (sort_by l).
Proof. unfold sort_by. by rewrite foldl_app. Qed.

Lemma sort_by_perm l : sort_by l ≡ₚ l.
Proof.
  induction l as [|x l IH] using rev_ind; [done|]. rewrite sort_by_snoc, insert_by_perm, IH.
  by rewrite Permutation_cons_append.
Qed.

Lemma sort_by_sorted l : StronglySorted ascending (sort_by l).
Proof. induction l as [|x l IH] using rev_ind; [constructor|]. rewrite sort_by_snoc. by apply insert_by_sorted. Qed.

Lemma insert_by_id x l : StronglySorted ascending (l ++ [x]) -> insert_by x l = l ++ [x].
Proof.
  induction l as [|y l IH]; [done|]. cbn [app insert_by]. intros H. inversion H as [|? ? Hs Hf]; subst.
  rewrite Forall_app in Hf. destruct Hf as [_ Hf]. inversion Hf; subst. unfold ascending in *.
  destruct (Z.ltb_spec (key x) (key y)); [lia|]. by rewrite IH.
Qed.

(** A sorted list stays as it is. *)
Lemma sort_by_id l : StronglySorted ascending l -> sort_by l = l.
Proof.
  induction l as [|x l IH] using rev_ind; [done|]. intros H. rewrite sort_by_snoc, IH; [by apply insert_by_id|].
  clear IH. induction l as [|y l IH]; [constructor|]. cbn [app] in H. inversion H as [|? ? Hs Hf]; subst.
  constructor; [by apply IH|]. by apply Forall_app in Hf as [? _].
Qed.

(** Items with the same key keep their order. *)
Lemma insert_by_stable k x l : StronglySorted ascending l ->
  List.filter (fun y => (key y =? k)%Z) (insert_by x l) = List.filter (fun y => (key y =? k)%Z) (l ++ [x]).
Proof.
  induction 1 as [|y l Hl IH Hy]; [done|]. cbn [insert_by]. destruct (Z.ltb_spec (key x) (key y)) as [Hlt|Hge].
  - cbn [app List.filter]. rewrite List.filter_app. cbn [List.filter]. destruct (Z.eqb_spec (key x) k) as [Hx|Hx].
    + assert (Hno : List.filter (fun y => (key y =? k)%Z) (y :: l) = []).
      { apply filter_none. intros z [->|Hz]%elem_of_cons; [apply Z.eqb_neq; lia|].
        rewrite Forall_elem in Hy. specialize (Hy z Hz). unfold ascending in Hy. apply Z.eqb_neq. lia. }
      cbn [List.filter] in Hno. destruct (key y =? k)%Z eqn:Ey; rewrite ?Ey in Hno; [done|]. by rewrite Hno.
    + by rewrite app_nil_r.
  - cbn [app List.filter]. by rewrite IH.
Qed.

Lemma sort_by_stable k l :
  List.filter (fun y => (key y =? k)%Z) (sort_by l) = List.filter (fun y => (key y =? k)%Z) l.
Proof.
  induction l as [|x l IH] using rev_ind; [done|]. rewrite sort_by_snoc, insert_by_stable by apply sort_by_sorted.
  by rewrite !List.filter_app, IH.
Qed.

(** With distinct keys the sorted permutation is the only one. *)
Lemma sort_by_unique l s : NoDup (List.map key l) -> s ≡ₚ l -> StronglySorted ascending s -> sort_by l = s.
Proof.
  intros Hn Hp Hs. apply (StronglySorted_unique_strong ascending); [|apply sort_by_sorted|done|by rewrite sort_by_perm, Hp].
  intros x y Hx Hy H1 H2. rewrite sort_by_perm in Hx. rewrite Hp in Hy. unfold ascending in *.
  apply list_elem_of_lookup in Hx as (i & Hi), Hy as (j & Hj).
  assert (i = j) as ->; [|congruence].
  apply (NoDup_lookup (List.map key l) i j (key x)); [done|..];
    change (List.map key l) with (key <$> l); rewrite list_lookup_fmap.
  - by rewrite Hi.
  - rewrite Hj. cbn. f_equal. lia.
Qed.
End SortBy.
