(* ===== verification/Uri.v ===== *)
(** * encodeURIComponent and decodeURIComponent

    The two functions of the ECMAScript standard library that the program uses
    to put names into query strings and headers, on sequences of UTF-16 units.
    Both throw a URIError, which is [None] here: the encoder on a lone
    surrogate, the decoder on a malformed escape. *)

From Stdlib Require Import ZifyBool ZifyN.
From S2P Require Import Prelude JsString.

Local Ltac Zify.zify_post_hook ::= Z.to_euclidean_division_equations.

(** ** Code points and UTF-8 *)

Definition is_high (c : N) : bool := ((55296 <=? c) && (c <=? 56319))%N.
Definition is_low (c : N) : bool := ((56320 <=? c) && (c <=? 57343))%N.

Fixpoint code_points (s : jsstr) : option (list N) :=
  match s with
  | [] => Some []
  | c :: s' =>
      if is_high c then
        match s' with
        | d :: s'' =>
            if is_low d then cons (65536 + (c - 55296) * 1024 + (d - 56320))%N <$> code_points s''
            else None
        | [] => None
        end
      else if is_low c then None
      else cons c <$> code_points s'
  end.

Definition units (cp : N) : jsstr :=
  if (cp <? 65536)%N then [cp]
  else [(55296 + (cp - 65536) / 1024)%N; (56320 + (cp - 65536) mod 1024)%N].

Definition utf8 (cp : N) : list N :=
  if (cp <? 128)%N then [cp]
  else if (cp <? 2048)%N then [192 + cp / 64; 128 + cp mod 64]%N
  else if (cp <? 65536)%N then [224 + cp / 4096; 128 + (cp / 64) mod 64; 128 + cp mod 64]%N
  else [240 + cp / 262144; 128 + (cp / 4096) mod 64; 128 + (cp / 64) mod 64; 128 + cp mod 64]%N.

(** ** Escapes *)

(** The units encodeURIComponent keeps. *)
Definition unreserved (c : N) : bool :=
  is_digit c || is_lower c || is_upper c || existsb (N.eqb c) (js "-_.!~*'()").

Definition hex_digit (n : N) : N := if (n <? 10)%N then (48 + n)%N else (55 + n)%N.
Definition pct (b : N) : jsstr := [37%N; hex_digit (b / 16); hex_digit (b mod 16)].

Definition encode_cp (cp : N) : jsstr := if unreserved cp then [cp] else flat_map pct (utf8 cp).

Definition encodeURIComponent (s : jsstr) : option jsstr := flat_map encode_cp <$> code_points s.

Definition hex_value (c : N) : option N :=
  if is_digit c then Some (c - 48)%N
  else if ((65 <=? c) && (c <=? 70))%N then Some (c - 55)%N
  else if ((97 <=? c) && (c <=? 102))%N then Some (c - 87)%N
  else None.

(** A unit of the text, or a byte an escape stands for. *)
Inductive token := Lit (c : N) | Byte (b : N).

Fixpoint tokens (s : jsstr) : option (list token) :=
  match s with
  | [] => Some []
  | c :: s' =>
      if (c =? 37)%N then
        match s' with
        | h :: l :: s'' =>
            match hex_value h, hex_value l with
            | Some h, Some l => cons (Byte (16 * h + l)%N) <$> tokens s''
            | _, _ => None
            end
        | _ => None
        end
      else cons (Lit c) <$> tokens s'
  end.

Definition is_cont (b : N) : bool := ((128 <=? b) && (b <? 192))%N.

(** The units of the tokens; the bytes have to form minimal UTF-8 sequences. *)
Fixpoint assemble (ts : list token) : option jsstr :=
  match ts with
  | [] => Some []
  | Lit c :: ts' => cons c <$> assemble ts'
  | Byte a :: ts' =>
      if (a <? 128)%N then cons a <$> assemble ts'
      else if ((194 <=? a) && (a <? 224))%N then
        match ts' with
        | Byte b :: ts'' =>
            if is_cont b then app (units ((a - 192) * 64 + (b - 128))%N) <$> assemble ts'' else None
        | _ => None
        end
      else if ((224 <=? a) && (a <? 240))%N then
        match ts' with
        | Byte b :: Byte c :: ts'' =>
            let cp := ((a - 224) * 4096 + (b - 128) * 64 + (c - 128))%N in
            if is_cont b && is_cont c && (2048 <=? cp)%N && negb (is_high cp || is_low cp)
            then app (units cp) <$> assemble ts'' else None
        | _ => None
        end
      else if ((240 <=? a) && (a <? 245))%N then
        match ts' with
        | Byte b :: Byte c :: Byte d :: ts'' =>
            let cp := ((a - 240) * 262144 + (b - 128) * 4096 + (c - 128) * 64 + (d - 128))%N in
            if is_cont b && is_cont c && is_cont d && (65536 <=? cp)%N && (cp <? 1114112)%N
            then app (units cp) <$> assemble ts'' else None
        | _ => None
        end
      else None
  end.

Definition decodeURIComponent (s : jsstr) : option jsstr := tokens s ≫= assemble.

(** ** Round trip *)

(** A Unicode scalar value. *)
Definition scalar (cp : N) : Prop := (cp < 1114112)%N /\ is_high cp = false /\ is_low cp = false.

Definition unit16 (c : N) : Prop := (c < 65536)%N.

Ltac nbool :=
  repeat match goal with
  | H : (_ && _) = true |- _ => apply andb_true_iff in H as [? ?]
  | H : (_ && _) = false |- _ => apply andb_false_iff in H
  | H : (_ <=? _)%N = true |- _ => apply N.leb_le in H
  | H : (_ <=? _)%N = false |- _ => apply N.leb_gt in H
  | H : (_ <? _)%N = true |- _ => apply N.ltb_lt in H
  | H : (_ <? _)%N = false |- _ => apply N.ltb_ge in H
  end.

Lemma code_points_strong n s l :
  length s <= n -> Forall unit16 s -> code_points s = Some l ->
  Forall scalar l /\ flat_map units l = s.
Proof.
  revert s l. induction n as [|n IH]; intros s l Hn Hs E.
  { destruct s; [|cbn in Hn; lia]. by injection E as <-. }
  destruct s as [|c s]; [by injection E as <-|]. cbn [length] in Hn. cbn [code_points] in E.
  inversion_clear Hs as [|? ? Hc Hs']. destruct (is_high c) eqn:Eh.
  - destruct s as [|d s]; [done|]. destruct (is_low d) eqn:El; [|done].
    destruct (code_points s) as [l'|] eqn:E'; [|done]. injection E as <-.
    inversion_clear Hs' as [|? ? Hd Hs'']. cbn [length] in Hn.
    destruct (IH s l') as [H1 H2]; [lia|done|done|]. cbn [flat_map]. rewrite H2.
    unfold is_high, is_low in Eh, El. nbool. split.
    + constructor; [|done]. unfold scalar, is_high, is_low. lia.
    + unfold units. assert ((65536 + (c - 55296) * 1024 + (d - 56320) <? 65536)%N = false) as -> by lia.
      cbn [app]. f_equal; [|f_equal]; lia.
  - destruct (is_low c) eqn:El; [done|]. destruct (code_points s) as [l'|] eqn:E'; [|done].
    injection E as <-. destruct (IH s l') as [H1 H2]; [lia|done|done|]. cbn [flat_map]. rewrite H2.
    unfold unit16 in Hc. split.
    + constructor; [|done]. split; [lia|done].
    + unfold units. by assert ((c <? 65536)%N = true) as -> by lia.
Qed.

Lemma hex_value_digit n : (n < 16)%N -> hex_value (hex_digit n) = Some n.
Proof.
  intros H. unfold hex_value, hex_digit, is_digit.
  destruct (n <? 10)%N eqn:E; nbool; repeat case_match; nbool; try (f_equal; lia); lia.
Qed.

Lemma tokens_pct b s : (b < 256)%N -> tokens (pct b ++ s) = cons (Byte b) <$> tokens s.
Proof.
  intros H. unfold pct. cbn [app tokens]. rewrite N.eqb_refl, !hex_value_digit by lia.
  replace (16 * (b / 16) + b mod 16)%N with b by lia. done.
Qed.

Lemma tokens_bytes bs s :
  Forall (fun b => (b < 256)%N) bs -> tokens (flat_map pct bs ++ s) = app (Byte <$> bs) <$> tokens s.
Proof.
  induction 1 as [|b bs Hb _ IH]; cbn [flat_map app]; [by destruct (tokens s)|].
  rewrite <- app_assoc, tokens_pct, IH by done. by destruct (tokens s).
Qed.

Lemma utf8_bytes cp : (cp < 1114112)%N -> Forall (fun b => (b < 256)%N) (utf8 cp).
Proof. intros H. unfold utf8. repeat case_match; nbool; repeat constructor; lia. Qed.

Definition cp_tokens (cp : N) : list token :=
  if unreserved cp then [Lit cp] else Byte <$> utf8 cp.

Lemma unreserved_ascii c : unreserved c = true -> (c < 128)%N /\ c <> 37%N.
Proof.
  intros H. unfold unreserved, is_digit, is_lower, is_upper in H.
  apply orb_true_iff in H as [H|H]; [|].
  - repeat (apply orb_true_iff in H as [H|H]); nbool; lia.
  - apply existsb_elem in H as (x & Hx & E). apply N.eqb_eq in E as ->.
    apply list_elem_of_In in Hx. cbn in Hx. intuition (subst; lia).
Qed.

Lemma tokens_encode_cp cp s :
  scalar cp -> tokens (encode_cp cp ++ s) = app (cp_tokens cp) <$> tokens s.
Proof.
  intros (H & _). unfold encode_cp, cp_tokens. destruct (unreserved cp) eqn:E.
  - apply unreserved_ascii in E as [_ E]. cbn [app tokens].
    destruct (N.eqb_spec cp 37); [done|]. by destruct (tokens s).
  - by apply tokens_bytes, utf8_bytes.
Qed.

Lemma assemble_cp cp ts :
  scalar cp -> assemble (cp_tokens cp ++ ts) = app (units cp) <$> assemble ts.
Proof.
  intros (H & Hh & Hl). unfold cp_tokens. destruct (unreserved cp) eqn:E.
  { apply unreserved_ascii in E as [E _]. cbn. unfold units.
    assert ((cp <? 65536)%N = true) as -> by lia. by destruct (assemble ts). }
  unfold utf8. destruct (cp <? 128)%N eqn:E1; [|destruct (cp <? 2048)%N eqn:E2;
    [|destruct (cp <? 65536)%N eqn:E3]]; nbool; cbn [fmap list_fmap app assemble].
  - assert ((cp <? 128)%N = true) as -> by lia. unfold units.
    assert ((cp <? 65536)%N = true) as -> by lia. by destruct (assemble ts).
  - assert ((192 + cp / 64 <? 128)%N = false) as -> by lia.
    assert ((194 <=? 192 + cp / 64)%N && (192 + cp / 64 <? 224)%N = true) as -> by lia.
    assert (is_cont (128 + cp mod 64) = true) as -> by (unfold is_cont; lia).
    by replace ((192 + cp / 64 - 192) * 64 + (128 + cp mod 64 - 128))%N with cp by lia.
  - assert ((224 + cp / 4096 <? 128)%N = false) as -> by lia.
    assert ((194 <=? 224 + cp / 4096)%N && (224 + cp / 4096 <? 224)%N = false) as -> by lia.
    assert ((224 <=? 224 + cp / 4096)%N && (224 + cp / 4096 <? 240)%N = true) as -> by lia.
    cbn zeta. replace ((224 + cp / 4096 - 224) * 4096 + (128 + (cp / 64) mod 64 - 128) * 64 +
      (128 + cp mod 64 - 128))%N with cp by lia.
    assert (is_cont (128 + (cp / 64) mod 64) = true) as -> by (unfold is_cont; lia).
    assert (is_cont (128 + cp mod 64) = true) as -> by (unfold is_cont; lia).
    rewrite Hh, Hl. by assert ((2048 <=? cp)%N = true) as -> by lia.
  - assert ((240 + cp / 262144 <? 128)%N = false) as -> by lia.
    assert ((194 <=? 240 + cp / 262144)%N && (240 + cp / 262144 <? 224)%N = false) as -> by lia.
    assert ((224 <=? 240 + cp / 262144)%N && (240 + cp / 262144 <? 240)%N = false) as -> by lia.
    assert ((240 <=? 240 + cp / 262144)%N && (240 + cp / 262144 <? 245)%N = true) as -> by lia.
    cbn zeta. replace ((240 + cp / 262144 - 240) * 262144 + (128 + (cp / 4096) mod 64 - 128) * 4096 +
      (128 + (cp / 64) mod 64 - 128) * 64 + (128 + cp mod 64 - 128))%N with cp by lia.
    assert (is_cont (128 + (cp / 4096) mod 64) = true) as -> by (unfold is_cont; lia).
    assert (is_cont (128 + (cp / 64) mod 64) = true) as -> by (unfold is_cont; lia).
    assert (is_cont (128 + cp mod 64) = true) as -> by (unfold is_cont; lia).
    assert ((65536 <=? cp)%N = true) as -> by lia. by assert ((cp <? 1114112)%N = true) as -> by lia.
Qed.

Lemma decode_cps l :
  Forall scalar l -> decodeURIComponent (flat_map encode_cp l) = Some (flat_map units l).
Proof.
  intros H. assert (tokens (flat_map encode_cp l) = Some (flat_map cp_tokens l)) as E.
  { induction H as [|cp l Hcp _ IH]; [done|]. cbn [flat_map]. by rewrite tokens_encode_cp, IH. }
  unfold decodeURIComponent. rewrite E. cbn [mbind option_bind]. clear E.
  induction H as [|cp l Hcp _ IH]; [done|]. cbn [flat_map]. by rewrite assemble_cp, IH.
Qed.

(** Decoding what was encoded gives the string back. *)
Lemma decode_encode s t :
  Forall unit16 s -> encodeURIComponent s = Some t -> decodeURIComponent t = Some s.
Proof.
  intros Hs E. unfold encodeURIComponent in E. destruct (code_points s) as [l|] eqn:El; [|done].
  injection E as <-. destruct (code_points_strong (length s) s l) as [H1 H2]; [done..|].
  by rewrite decode_cps, H2.
Qed.

(** The encoder is total on strings without surrogates. *)
Lemma encode_total s :
  Forall (fun c => is_high c = false /\ is_low c = false) s -> exists t, encodeURIComponent s = Some t.
Proof.
  intros H. assert (exists l, code_points s = Some l) as [l E].
  { induction H as [|c s [Hh Hl] _ [l E]]; [by exists []|]. exists (c :: l).
    cbn [code_points]. by rewrite Hh, Hl, E. }
  unfold encodeURIComponent. rewrite E. eauto.
Qed.

(** What the encoder emits holds no unit that separates parameters. *)
Definition uri_safe (c : N) : bool := unreserved c || (c =? 37)%N.

Lemma pct_safe b c : (b < 256)%N -> c ∈ pct b -> uri_safe c = true.
Proof.
  intros Hb Hc. apply list_elem_of_In in Hc. unfold pct in Hc. cbn [In] in Hc.
  assert (forall n, (n < 16)%N -> uri_safe (hex_digit n) = true) as Hd.
  { intros n Hn. apply (forall_from_spec (fun n => uri_safe (hex_digit n)) 0 16); [reflexivity|lia]. }
  destruct Hc as [<-|[<-|[<-|[]]]]; [reflexivity|apply Hd; lia|apply Hd; lia].
Qed.

Lemma encode_safe s t c :
  Forall unit16 s -> encodeURIComponent s = Some t -> c ∈ t -> uri_safe c = true.
Proof.
  intros Hs E Hc. unfold encodeURIComponent in E. destruct (code_points s) as [l|] eqn:El; [|done].
  injection E as <-. destruct (code_points_strong (length s) s l) as [H1 _]; [done..|].
  apply list_elem_of_In, in_flat_map in Hc as (cp & Hcp & Hc). apply list_elem_of_In in Hcp.
  rewrite Forall_elem in H1. destruct (H1 cp Hcp) as (Hlt & _). unfold encode_cp in Hc.
  destruct (unreserved cp) eqn:Eu.
  - destruct Hc as [<-|[]]. unfold uri_safe. by rewrite Eu.
  - apply in_flat_map in Hc as (b & Hb & Hc). apply list_elem_of_In in Hb, Hc.
    eapply pct_safe; [|exact Hc]. pose proof (utf8_bytes cp Hlt) as HB. rewrite Forall_elem in HB. by apply HB.
Qed.
