(* ===== verification/Utf8.v ===== *)
(** * TextEncoder and TextDecoder

    The UTF-8 encoder and decoder of the platform, with the replacement character for
    lone surrogates and for bytes that are no UTF-8.  [text_decode] drops a byte order
    mark at the start, as a decoder made without options does. *)

From Stdlib Require Import ZifyBool ZifyN.
From S2P Require Import Prelude JsString Uri.

#[local] Open Scope N_scope.
#[local] Open Scope list_scope.

Local Ltac Zify.zify_post_hook ::= Z.to_euclidean_division_equations.

(** The scalar values of a string: a lone surrogate is replaced. *)
Fixpoint scalars (s : jsstr) : list N :=
  match s with
  | [] => []
  | c :: s' =>
      if is_high c then
        match s' with
        | d :: s'' => if is_low d then (65536 + (c - 55296) * 1024 + (d - 56320)) :: scalars s'' else 65533 :: scalars s'
        | [] => [65533]
        end
      else if is_low c then 65533 :: scalars s' else c :: scalars s'
  end.

Definition text_encode (s : jsstr) : list N := flat_map utf8 (scalars s).

(** The bytes a sequence still needs, the bounds of the next one and what was read. *)
Record Pending := { needed : nat; lower : N; upper : N; so_far : N }.

(** A byte that begins a sequence. *)
Definition decode_start (b : N) : list N * option Pending :=
  if b <? 128 then ([b], None)
  else if (194 <=? b) && (b <=? 223) then ([], Some {| needed := 1; lower := 128; upper := 191; so_far := b - 192 |})
  else if (224 <=? b) && (b <=? 239) then
    ([], Some {| needed := 2; lower := if b =? 224 then 160 else 128; upper := if b =? 237 then 159 else 191; so_far := b - 224 |})
  else if (240 <=? b) && (b <=? 244) then
    ([], Some {| needed := 3; lower := if b =? 240 then 144 else 128; upper := if b =? 244 then 143 else 191; so_far := b - 240 |})
  else ([65533], None).

Definition decode_byte (st : option Pending) (b : N) : list N * option Pending :=
  match st with
  | None => decode_start b
  | Some p =>
      if (p.(lower) <=? b) && (b <=? p.(upper)) then
        let cp := p.(so_far) * 64 + (b - 128) in
        match p.(needed) with
        | S (S n) => ([], Some {| needed := S n; lower := 128; upper := 191; so_far := cp |})
        | _ => ([cp], None)
        end
      else let '(out, st) := decode_start b in (65533 :: out, st)
  end.

Fixpoint decode_go (st : option Pending) (bs : list N) : list N :=
  match bs with
  | [] => match st with Some _ => [65533] | None => [] end
  | b :: bs' => let '(out, st) := decode_byte st b in out ++ decode_go st bs'
  end.

(** A byte order mark at the start is dropped. *)
Definition drop_mark (cps : list N) : list N :=
  match cps with c :: rest => if c =? 65279 then rest else cps | [] => [] end.
Definition text_decode (bs : list N) : jsstr := flat_map units (drop_mark (decode_go None bs)).

Example decode_euro : text_decode [226; 130; 172; 255; 194; 65; 240; 159; 152; 128] = [8364; 65533; 65533; 65; 55357; 56832].
Proof. by vm_compute. Qed.
Example surrogate_bytes : text_decode [237; 160; 128] = [65533; 65533; 65533].
Proof. by vm_compute. Qed.
(** ** Lemmas *)

(** What a pending sequence may still become. *)
Lemma start_utf8 cp rest : scalar cp -> decode_go None (utf8 cp ++ rest) = cp :: decode_go None rest.
Proof.
  intros (H & Hh & Hl). unfold is_high, is_low in Hh, Hl. unfold utf8.
  destruct (cp <? 128) eqn:E1; [|destruct (cp <? 2048) eqn:E2; [|destruct (cp <? 65536) eqn:E3]]; cbn [app decode_go].
  - unfold decode_byte, decode_start. rewrite E1. done.
  - cbn [decode_byte]. unfold decode_start.
    assert ((192 + cp / 64 <? 128) = false) as -> by lia.
    assert ((194 <=? 192 + cp / 64) && (192 + cp / 64 <=? 223) = true) as -> by lia.
    cbn [app decode_go decode_byte lower upper needed so_far].
    assert ((128 <=? 128 + cp mod 64) && (128 + cp mod 64 <=? 191) = true) as -> by lia.
    cbn [app]. f_equal. lia.
  - cbn [decode_byte]. unfold decode_start.
    assert ((224 + cp / 4096 <? 128) = false) as -> by lia.
    assert ((194 <=? 224 + cp / 4096) && (224 + cp / 4096 <=? 223) = false) as -> by lia.
    assert ((224 <=? 224 + cp / 4096) && (224 + cp / 4096 <=? 239) = true) as -> by lia.
    cbn [app decode_go decode_byte lower upper needed so_far].
    assert (((if 224 + cp / 4096 =? 224 then 160 else 128) <=? 128 + cp / 64 mod 64) &&
      (128 + cp / 64 mod 64 <=? (if 224 + cp / 4096 =? 237 then 159 else 191)) = true) as -> by (repeat case_step; lia).
    cbn [app decode_go decode_byte lower upper needed so_far].
    assert ((128 <=? 128 + cp mod 64) && (128 + cp mod 64 <=? 191) = true) as -> by lia.
    cbn [app]. f_equal. lia.
  - cbn [decode_byte]. unfold decode_start.
    assert ((240 + cp / 262144 <? 128) = false) as -> by lia.
    assert ((194 <=? 240 + cp / 262144) && (240 + cp / 262144 <=? 223) = false) as -> by lia.
    assert ((224 <=? 240 + cp / 262144) && (240 + cp / 262144 <=? 239) = false) as -> by lia.
    assert ((240 <=? 240 + cp / 262144) && (240 + cp / 262144 <=? 244) = true) as -> by lia.
    cbn [app decode_go decode_byte lower upper needed so_far].
    assert (((if 240 + cp / 262144 =? 240 then 144 else 128) <=? 128 + cp / 4096 mod 64) &&
      (128 + cp / 4096 mod 64 <=? (if 240 + cp / 262144 =? 244 then 143 else 191)) = true) as -> by (repeat case_step; lia).
    cbn [app decode_go decode_byte lower upper needed so_far].
    assert ((128 <=? 128 + cp / 64 mod 64) && (128 + cp / 64 mod 64 <=? 191) = true) as -> by lia.
    cbn [app decode_go decode_byte lower upper needed so_far].
    assert ((128 <=? 128 + cp mod 64) && (128 + cp mod 64 <=? 191) = true) as -> by lia.
    cbn [app]. f_equal. lia.
Qed.

Definition pending_ok (st : option Pending) : Prop :=
  match st with Some p => 128 <= p.(lower) /\ p.(upper) <= 191 | None => True end.

Lemma start_ok b : pending_ok (decode_start b).2.
Proof. unfold decode_start. repeat case_step; cbn; try done; repeat case_step; lia. Qed.

Lemma byte_ok st b : pending_ok st -> pending_ok (decode_byte st b).2.
Proof.
  destruct st as [p|]; cbn [decode_byte]; [|intros _; apply start_ok]. intros Hp. case_step.
  - destruct (needed p) as [|[|n]]; cbn; [done|done|lia].
  - pose proof (start_ok b) as H. by destruct (decode_start b).
Qed.

Lemma decode_app st x y : pending_ok st -> exists out st', pending_ok st' /\ decode_go st (x ++ y) = out ++ decode_go st' y.
Proof.
  revert st. induction x as [|b x IH]; intros st Hst; [by exists [], st|]. cbn [app decode_go].
  pose proof (byte_ok st b Hst) as Hb. destruct (decode_byte st b) as [o st1]. cbn [snd] in Hb.
  destruct (IH st1 Hb) as (out & st' & Hok & ->). exists (o ++ out), st'. by rewrite app_assoc.
Qed.

Lemma lead_byte cp : scalar cp -> exists b l, utf8 cp = b :: l /\ (b < 128 \/ 192 <= b).
Proof. intros _. unfold utf8. repeat case_step; eexists _, _; (split; [done|]); lia. Qed.

(** An encoded scalar value is read back wherever it stands. *)
Lemma decode_elem cp x y : scalar cp -> cp ∈ decode_go None (x ++ utf8 cp ++ y).
Proof.
  intros Hc. destruct (decode_app None x (utf8 cp ++ y)) as (out & st & Hst & ->); [done|].
  rewrite elem_of_app. right. destruct st as [p|]; [|rewrite start_utf8 by done; by left].
  destruct (lead_byte cp Hc) as (b & l & Hu & Hb). pose proof (start_utf8 cp y Hc) as Hs. rewrite Hu in Hs |- *.
  cbn [app decode_go decode_byte] in Hs |- *. cbn [pending_ok] in Hst.
  assert ((p.(lower) <=? b) && (b <=? p.(upper)) = false) as -> by lia.
  destruct (decode_start b) as [o st]. cbn [app]. rewrite Hs. right. by left.
Qed.

Lemma text_decode_elem cp x y : scalar cp -> cp < 65279 -> cp ∈ text_decode (x ++ utf8 cp ++ y).
Proof.
  intros Hc Hlt. pose proof (decode_elem cp x y Hc) as H. unfold text_decode.
  apply list_elem_of_In, in_flat_map. exists cp. split.
  - apply list_elem_of_In. destruct (decode_go _ _) as [|d l]; [done|]. cbn [drop_mark].
    destruct (N.eqb_spec d 65279) as [->|_]; [|done]. apply elem_of_cons in H as [->|H]; [lia|done].
  - unfold units. assert ((cp <? 65536) = true) as -> by lia. by left.
Qed.

Lemma unreserved_ws c : unreserved c = true -> is_ws c = false.
Proof.
  intros H. pose proof (unreserved_ascii c H) as [Hc _].
  assert (Hall : negb (is_ws c && unreserved c) = true).
  { apply (forall_from_spec (fun c => negb (is_ws c && unreserved c)) 0 128); [by vm_compute|lia]. }
  rewrite H in Hall. by destruct (is_ws c).
Qed.

(** Text that is encoded is read back. *)
Lemma decode_scalars cps : Forall scalar cps -> decode_go None (flat_map utf8 cps) = cps.
Proof. induction 1 as [|cp cps Hcp _ IH]; [done|]. cbn [flat_map]. by rewrite start_utf8, IH. Qed.

Lemma scalars_points s cps : code_points s = Some cps -> scalars s = cps.
Proof.
  revert cps. induction s as [s IH] using (induction_ltof1 _ (@length N)). unfold ltof in IH. intros cps.
  destruct s as [|c s]; [by intros [= <-]|]. cbn [code_points scalars]. destruct (is_high c).
  - destruct s as [|d s]; [done|]. destruct (is_low d); [|done].
    intros (l & Hl & ->)%fmap_Some. f_equal. apply IH; [cbn; lia|done].
  - destruct (is_low c); [done|]. intros (l & Hl & ->)%fmap_Some. f_equal. apply IH; [cbn; lia|done].
Qed.

(** A text of ASCII units is its own scalar values. *)
Lemma scalars_ascii s : Forall (fun c => c < 128) s -> scalars s = s.
Proof.
  induction 1 as [|c s Hc _ IH]; [done|]. cbn [scalars]. unfold is_high, is_low.
  assert ((55296 <=? c) && (c <=? 56319) = false) as -> by lia.
  assert ((56320 <=? c) && (c <=? 57343) = false) as -> by lia. by rewrite IH.
Qed.

(** ** Decoding yields scalar values *)

(** What a sequence still needs leads to scalar values only. *)
Fixpoint leads (n : nat) (lo up cp : N) : Prop :=
  match n with
  | O => scalar cp
  | S n => forall b, lo <= b <= up -> leads n 128 191 (cp * 64 + (b - 128))
  end.
Definition pending_leads (st : option Pending) : Prop :=
  match st with Some p => p.(needed) <> O /\ leads p.(needed) p.(lower) p.(upper) p.(so_far) | None => True end.

Lemma replacement_scalar : scalar 65533.
Proof. by repeat split. Qed.

Lemma start_leads b : Forall scalar (decode_start b).1 /\ pending_leads (decode_start b).2.
Proof.
  unfold decode_start, pending_leads, scalar, is_high, is_low.
  destruct (b <? 128) eqn:E1; [split; [|done]; constructor; [lia|constructor]|].
  destruct ((194 <=? b) && (b <=? 223)) eqn:E2.
  { split; [constructor|]. split; [done|]. cbn [leads needed lower upper so_far]. unfold scalar, is_high, is_low. lia. }
  destruct ((224 <=? b) && (b <=? 239)) eqn:E3.
  { split; [constructor|]. split; [done|]. cbn [leads needed lower upper so_far]. unfold scalar, is_high, is_low.
    intros c Hc d Hd. destruct (b =? 224) eqn:F1, (b =? 237) eqn:F2; lia. }
  destruct ((240 <=? b) && (b <=? 244)) eqn:E4.
  { split; [constructor|]. split; [done|]. cbn [leads needed lower upper so_far]. unfold scalar, is_high, is_low.
    intros c Hc d Hd e He. destruct (b =? 240) eqn:F1, (b =? 244) eqn:F2; lia. }
  split; [|done]. constructor; [exact replacement_scalar|constructor].
Qed.

Lemma byte_leads st b : pending_leads st -> Forall scalar (decode_byte st b).1 /\ pending_leads (decode_byte st b).2.
Proof.
  destruct st as [p|]; cbn [decode_byte]; [|intros _; apply start_leads]. intros [Hn Hp].
  destruct ((lower p <=? b) && (b <=? upper p)) eqn:E.
  - destruct (needed p) as [|[|n]]; [done|..]; cbn [leads] in Hp; specialize (Hp b ltac:(lia)).
    + split; [|done]. by constructor.
    + split; [constructor|]. split; [done|]. exact Hp.
  - pose proof (start_leads b) as [H1 H2]. destruct (decode_start b) as [out st]. split; [|done].
    constructor; [exact replacement_scalar|done].
Qed.

Lemma decode_go_scalars st bs : pending_leads st -> Forall scalar (decode_go st bs).
Proof.
  revert st. induction bs as [|b bs IH]; intros st Hst; cbn [decode_go].
  - destruct st; [|constructor]. constructor; [exact replacement_scalar|constructor].
  - destruct (byte_leads st b Hst) as [H1 H2]. destruct (decode_byte st b) as [out st1]. apply Forall_app_2; [done|by apply IH].
Qed.

Lemma code_points_units cps : Forall scalar cps -> code_points (flat_map units cps) = Some cps.
Proof.
  induction 1 as [|cp cps (Hlt & Hh & Hl) _ IH]; [done|]. cbn [flat_map]. unfold units at 1. destruct (cp <? 65536) eqn:E.
  - cbn [app code_points]. by rewrite Hh, Hl, IH.
  - cbn [app code_points]. unfold is_high in *. unfold is_low in *.
    assert (((55296 <=? 55296 + (cp - 65536) / 1024) && (55296 + (cp - 65536) / 1024 <=? 56319)) = true) as -> by lia.
    assert (((56320 <=? 56320 + (cp - 65536) mod 1024) && (56320 + (cp - 65536) mod 1024 <=? 57343)) = true) as -> by lia.
    rewrite IH. cbn. do 2 f_equal. lia.
Qed.

Lemma units_unit16 cps : Forall scalar cps -> Forall unit16 (flat_map units cps).
Proof.
  induction 1 as [|cp cps (Hlt & _) _ IH]; [constructor|]. cbn [flat_map]. apply Forall_app_2; [|done].
  unfold units at 1, unit16. destruct (cp <? 65536) eqn:E; repeat constructor; lia.
Qed.
