(* ===== verification/UrlEncoded.v ===== *)
(** * URLSearchParams

    The query strings of the platform: the application/x-www-form-urlencoded parser and
    serializer with the methods the sources call, and the round trip of both. *)

From Stdlib Require Import ZifyBool ZifyN.
From S2P Require Import Prelude JsString Splitting Uri Utf8.

#[local] Open Scope N_scope.
#[local] Open Scope list_scope.

Abbreviation params := (list (jsstr * jsstr)) (only parsing).

(** ** Parsing *)

(** The bytes of scalar values: a plus stands for a space, a percent sign that does not
    begin an escape for itself. *)
Fixpoint form_bytes (cps : list N) : list N :=
  match cps with
  | [] => []
  | c :: cps' =>
      if c =? 43 then 32 :: form_bytes cps'
      else if c =? 37 then
        match cps' with
        | h :: l :: rest =>
            match hex_value h, hex_value l with
            | Some h, Some l => (16 * h + l) :: form_bytes rest
            | _, _ => 37 :: form_bytes cps'
            end
        | _ => 37 :: form_bytes cps'
        end
      else utf8 c ++ form_bytes cps'
  end.

Definition form_decode (s : jsstr) : jsstr := flat_map units (decode_go None (form_bytes (scalars s))).

Definition parse_pair (s : jsstr) : jsstr * jsstr :=
  match indexOf s [61] with
  | Some i => (form_decode (take i s), form_decode (drop (S i) s))
  | None => (form_decode s, [])
  end.

Definition parse_params (s : jsstr) : params := List.map parse_pair (List.filter truthy (split 38 s)).

(** [new URLSearchParams(s)] leaves out a question mark at the start. *)
Definition new_URLSearchParams (s : jsstr) : params :=
  parse_params (if startsWith s (js "?") then drop 1 s else s).

(** ** Serializing *)

Definition form_safe (c : N) : bool := is_digit c || is_lower c || is_upper c || existsb (N.eqb c) (js "*-._").

Definition form_cp (cp : N) : jsstr := if cp =? 32 then [43] else if form_safe cp then [cp] else flat_map pct (utf8 cp).

Definition form_encode (s : jsstr) : jsstr := flat_map form_cp (scalars s).

Definition params_toString (l : params) : jsstr :=
  join [38] (List.map (fun p => form_encode p.1 ++ [61] ++ form_encode p.2) l).

(** ** Methods *)

Definition params_get (name : jsstr) (l : params) : option jsstr := snd <$> List.find (fun p => p.1 === name) l.

Definition params_delete (name : jsstr) (l : params) : params := List.filter (fun p => p.1 !== name) l.

(** The first pair of the name takes the value, the others go; a new pair comes last. *)
Fixpoint params_set (name value : jsstr) (l : params) : params :=
  match l with
  | [] => [(name, value)]
  | p :: l' => if p.1 === name then (name, value) :: params_delete name l' else p :: params_set name value l'
  end.

Example parse_params_ex : new_URLSearchParams (js "?a=b+c&&k&x=%E2%82%ACy%zz&a==") =
  [(js "a", js "b c"); (js "k", []); (js "x", 8364 :: js "y%zz"); (js "a", js "=")].
Proof. by vm_compute. Qed.
Example params_text : params_toString [(js "a b", js "1&2"); (js "k", [8364])] = js "a+b=1%262&k=%E2%82%AC".
Proof. by vm_compute. Qed.

(** ** Round trip *)

(** A string without lone surrogates. *)
Definition well_formed (s : jsstr) : Prop := Forall unit16 s /\ is_Some (code_points s).

Lemma form_safe_ascii c : form_safe c = true -> c < 128 /\ c <> 43 /\ c <> 37 /\ c <> 38 /\ c <> 61 /\ c <> 63.
Proof.
  intros H. unfold form_safe, is_digit, is_lower, is_upper in H.
  change (js "*-._") with [42; 45; 46; 95] in H. cbn [existsb] in H. lia.
Qed.

Lemma pct_units b c : b < 256 -> c ∈ pct b -> c < 128 /\ c <> 38 /\ c <> 61 /\ c <> 63.
Proof.
  intros Hb Hc. apply pct_safe in Hc; [|done]. unfold uri_safe in Hc. apply orb_true_iff in Hc as [Hc|Hc%N.eqb_eq]; [|lia].
  pose proof (unreserved_ascii c Hc) as [H _]. split; [done|].
  split_and!; intros ->; by vm_compute in Hc.
Qed.

(** The units of an encoded scalar value separate nothing. *)
Lemma form_cp_units cp : scalar cp -> Forall (fun c => c < 128 /\ c <> 38 /\ c <> 61 /\ c <> 63) (form_cp cp).
Proof.
  intros (Hlt & _). unfold form_cp. destruct (cp =? 32); [repeat constructor; lia|].
  destruct (form_safe cp) eqn:E; [apply form_safe_ascii in E; repeat constructor; lia|].
  apply Forall_elem. intros c Hc. apply list_elem_of_In, in_flat_map in Hc as (b & Hb & Hc). apply list_elem_of_In in Hb, Hc.
  pose proof (utf8_bytes cp Hlt) as Hu. rewrite Forall_elem in Hu. apply (pct_units b); auto.
Qed.

Lemma form_bytes_pct l rest : Forall (fun b => b < 256) l -> form_bytes (flat_map pct l ++ rest) = l ++ form_bytes rest.
Proof.
  induction 1 as [|b l Hb _ IH]; [done|]. cbn [flat_map]. rewrite <- app_assoc. unfold pct at 1. cbn [app form_bytes].
  change (37 =? 43) with false. rewrite N.eqb_refl, !hex_value_digit by lia. rewrite IH. f_equal. lia.
Qed.

Lemma form_bytes_cp cp rest : scalar cp -> form_bytes (form_cp cp ++ rest) = utf8 cp ++ form_bytes rest.
Proof.
  intros (Hlt & _). unfold form_cp. destruct (N.eqb_spec cp 32) as [->|]; [done|].
  destruct (form_safe cp) eqn:E; [|by apply form_bytes_pct, utf8_bytes].
  apply form_safe_ascii in E. cbn [app form_bytes].
  assert ((cp =? 43) = false) as -> by lia. assert ((cp =? 37) = false) as -> by lia. done.
Qed.

Lemma form_bytes_cps cps : Forall scalar cps -> form_bytes (flat_map form_cp cps) = flat_map utf8 cps.
Proof. induction 1 as [|cp cps Hcp _ IH]; [done|]. cbn [flat_map]. by rewrite form_bytes_cp, IH. Qed.

Lemma form_encode_units s : well_formed s -> Forall (fun c => c < 128 /\ c <> 38 /\ c <> 61 /\ c <> 63) (form_encode s).
Proof.
  intros [Hu [cps Hc]]. unfold form_encode. rewrite (scalars_points _ _ Hc).
  destruct (code_points_strong (length s) s cps) as [Hall _]; [done|done|done|].
  apply Forall_elem. intros c H. apply list_elem_of_In, in_flat_map in H as (cp & Hcp & H). apply list_elem_of_In in Hcp, H.
  rewrite Forall_elem in Hall. pose proof (form_cp_units cp (Hall _ Hcp)) as Hf. rewrite Forall_elem in Hf. auto.
Qed.

Lemma form_decode_encode s : well_formed s -> form_decode (form_encode s) = s.
Proof.
  intros Hw. pose proof (form_encode_units s Hw) as Hf. destruct Hw as [Hu [cps Hc]].
  destruct (code_points_strong (length s) s cps) as [Hall Hun]; [done|done|done|].
  unfold form_decode. rewrite scalars_ascii.
  - unfold form_encode. rewrite (scalars_points _ _ Hc), form_bytes_cps, decode_scalars by done. done.
  - eapply list.Forall_impl; [exact Hf|]. naive_solver.
Qed.

Lemma form_encode_plain s c : well_formed s -> c = 38 \/ c = 61 \/ c = 63 -> c ∉ form_encode s.
Proof. intros Hw Hc H. pose proof (form_encode_units s Hw) as Hf. rewrite Forall_elem in Hf. apply Hf in H. lia. Qed.

Definition good_params (l : params) : Prop := Forall (fun p => well_formed p.1 /\ well_formed p.2) l.

(** Whatever is parsed, names and values come out well formed. *)
Lemma form_decode_well_formed s : well_formed (form_decode s).
Proof.
  unfold form_decode. assert (H : Forall scalar (decode_go None (form_bytes (scalars s)))) by (by apply decode_go_scalars).
  split; [by apply units_unit16|]. rewrite code_points_units by done. by eexists.
Qed.

Lemma parse_params_good s : good_params (parse_params s).
Proof.
  unfold good_params, parse_params. apply Forall_elem. intros p (t & -> & _)%elem_map. unfold parse_pair.
  destruct (indexOf t [61]); split; try apply form_decode_well_formed. split; [constructor|by eexists].
Qed.

Lemma parse_pair_text p : well_formed p.1 -> well_formed p.2 -> parse_pair (form_encode p.1 ++ [61] ++ form_encode p.2) = p.
Proof.
  intros H1 H2. unfold parse_pair.
  assert (indexOf (form_encode p.1 ++ [61] ++ form_encode p.2) [61] = Some (length (form_encode p.1))) as ->.
  { apply indexOf_first_unit. apply form_encode_plain; auto. }
  rewrite take_app_length, drop_app_ge by lia. replace (S (length (form_encode p.1)) - length (form_encode p.1))%nat with 1%nat by lia.
  cbn [app drop]. rewrite drop_0, !form_decode_encode by done. by destruct p.
Qed.

Lemma params_roundtrip l : good_params l -> parse_params (params_toString l) = l.
Proof.
  intros Hl. unfold parse_params, params_toString. destruct l as [|p l]; [done|].
  set (texts := List.map _ (p :: l)).
  assert (split 38 (join [38] texts) = texts) as ->.
  { apply split_join; [done|]. apply Forall_elem. intros t (q & -> & Hq)%elem_map.
    unfold good_params in Hl. rewrite Forall_elem in Hl. apply Hl in Hq as [H1 H2].
    rewrite !elem_of_app, list_elem_of_singleton. intros [H|[H|H]]; [|done|]; by apply form_encode_plain in H; auto. }
  assert (List.filter truthy texts = texts) as ->.
  { apply filter_all. intros t (q & -> & _)%elem_map. by destruct (form_encode q.1). }
  subst texts. rewrite map_map. unfold good_params in Hl. induction Hl as [|q r [H1 H2] _ IH]; [done|].
  cbn [List.map]. by rewrite parse_pair_text, IH.
Qed.

(** The text of parameters does not begin with a question mark. *)
Lemma new_params_roundtrip l : good_params l -> new_URLSearchParams (params_toString l) = l.
Proof.
  intros Hl. unfold new_URLSearchParams. destruct (startsWith (params_toString l) (js "?")) eqn:E; [|by apply params_roundtrip].
  exfalso. apply startsWith_spec in E as [t Ht]. assert (63 ∈ params_toString l) as H by (rewrite Ht; by left).
  unfold params_toString in H. apply join_elem in H as [H|(w & Hw & Hc)]; [by apply list_elem_of_singleton in H|].
  apply elem_map in Hw as (p & -> & Hp). unfold good_params in Hl. rewrite Forall_elem in Hl. apply Hl in Hp as [H1 H2].
  rewrite !elem_of_app, list_elem_of_singleton in Hc. destruct Hc as [Hc|[Hc|Hc]]; [|done|]; by apply form_encode_plain in Hc; auto.
Qed.

Lemma params_delete_good name l : good_params l -> good_params (params_delete name l).
Proof.
  unfold good_params. rewrite !Forall_elem. intros H p Hp. apply H. by apply elem_filter in Hp as [Hp _].
Qed.

Lemma params_set_good name value l : well_formed name -> well_formed value -> good_params l -> good_params (params_set name value l).
Proof.
  intros Hn Hv Hl. induction l as [|p l IH]; cbn [params_set]; [by constructor; [|constructor]|].
  apply list.Forall_cons in Hl as [Hp Hl]. destruct (p.1 === name); apply list.Forall_cons; (split; [done|]).
  - by apply params_delete_good.
  - by apply IH.
Qed.

Lemma params_get_set name value l : params_get name (params_set name value l) = Some value.
Proof.
  unfold params_get. induction l as [|p l IH]; cbn [params_set List.find fst]; [by rewrite streqb_refl|].
  destruct (p.1 === name) eqn:E; cbn [List.find fst]; [by rewrite streqb_refl|]. by rewrite E.
Qed.

Lemma params_get_delete name l : params_get name (params_delete name l) = None.
Proof.
  unfold params_get, params_delete. induction l as [|p l IH]; [done|]. cbn [List.filter].
  destruct (p.1 === name) eqn:E; cbn [negb]; [done|]. cbn [List.find]. by rewrite E.
Qed.

Lemma params_delete_idemp name l : params_delete name (params_delete name l) = params_delete name l.
Proof.
  unfold params_delete. induction l as [|p l IH]; [done|]. cbn [List.filter]. destruct (p.1 !== name) eqn:E; [|done].
  cbn [List.filter]. by rewrite E, IH.
Qed.

(** The other parameters stay as they are. *)
Lemma params_delete_set name value l : params_delete name (params_set name value l) = params_delete name l.
Proof.
  unfold params_delete. induction l as [|p l IH]; cbn [params_set List.filter fst]; [by rewrite streqb_refl|].
  destruct (p.1 === name) eqn:E; cbn [List.filter fst negb]; rewrite ?streqb_refl, ?E; cbn [negb]; [|by rewrite IH].
  apply params_delete_idemp.
Qed.

Lemma params_get_delete_other name k l : k <> name -> params_get k (params_delete name l) = params_get k l.
Proof.
  intros Hk. unfold params_get, params_delete. induction l as [|q l IH]; [done|]. cbn [List.filter List.find].
  destruct (q.1 === name) eqn:E; cbn [negb List.find].
  - rewrite IH. apply streqb_eq in E. destruct (q.1 === k) eqn:F; [|done]. apply streqb_eq in F. congruence.
  - by destruct (q.1 === k).
Qed.

Lemma params_get_other name k value l : k <> name -> params_get k (params_set name value l) = params_get k l.
Proof. intros Hk. by rewrite <- (params_get_delete_other name), params_delete_set, params_get_delete_other. Qed.

Lemma good_name s : Forall (fun c => (c < 128)%N) (js s) -> well_formed (js s).
Proof.
  intros H. split; [eapply list.Forall_impl; [exact H|]; unfold unit16; lia|].
  induction H as [|c l Hc _ [x IH]]; [by exists []|]. cbn [code_points]. unfold is_high, is_low.
  assert ((55296 <=? c)%N && (c <=? 56319)%N = false) as -> by lia.
  assert ((56320 <=? c)%N && (c <=? 57343)%N = false) as -> by lia. rewrite IH. by eexists.
Qed.


(** Literal names are well formed. *)
Ltac ascii_name := apply good_name; by repeat constructor.
