(* ===== verification/Mimetype.v ===== *)
(** * Option tables

    src/frontend/src/global/mimetype.ts, enums/files.ts and the lookups of utils/ssl.ts,
    as data.  A label is a text or the key of a translation. *)

From S2P Require Import Prelude JsString.

#[local] Open Scope list_scope.

(** ** enums/files.ts *)

Variant CompressType := Zip | Gz | Bz2 | TarBz2 | Tar | TGz | TarGz | Xz | TarXz | Rar | SevenZ.

#[export] Instance CompressType_eq_dec : EqDecision CompressType.
Proof. solve_decision. Defined.

Definition compress_types : list CompressType := [Zip; Gz; Bz2; TarBz2; Tar; TGz; TarGz; Xz; TarXz; Rar; SevenZ].

(** The value of the enum. *)
Definition compress_value (t : CompressType) : jsstr :=
  js match t with
     | Zip => "zip" | Gz => "gz" | Bz2 => "bz2" | TarBz2 => "tar.bz2" | Tar => "tar" | TGz => "tgz"
     | TarGz => "tar.gz" | Xz => "xz" | TarXz => "tar.xz" | Rar => "rar" | SevenZ => "7z"
     end%string.

(** CompressExtension[value] *)
Definition CompressExtension : list (jsstr * jsstr) :=
  List.map (fun p => (js p.1, js p.2))
  [ ("zip", ".zip"); ("gz", ".gz"); ("xz", ".xz"); ("tar.bz2", ".tar.bz2"); ("bz2", ".bz2"); ("tar", ".tar");
    ("tgz", ".tgz"); ("tar.gz", ".tar.gz"); ("tar.xz", ".tar.xz"); ("rar", ".rar"); ("7z", ".7z") ]%string.

Definition MimetypeByExtensionObject : list (jsstr * jsstr) :=
  List.map (fun p => (js p.1, js p.2))
  [ (".zip", "application/zip"); (".tar", "application/x-tar"); (".tar.bz2", "application/x-bzip2");
    (".bz2", "application/x-bzip2"); (".tar.gz", "application/gzip"); (".tgz", "application/x-gzip");
    (".gz", "application/gzip"); (".tar.xz", "application/x-xz"); (".xz", "application/x-xz");
    (".rar", "application/x-rar-compressed"); (".7z", "application/x-7z-compressed") ]%string.

(** ** global/mimetype.ts *)

Variant label := Text (s : string) | Trans (key : string).

Definition Mimetypes : list (jsstr * CompressType) :=
  [ (js "application/zip", Zip);
    (js "application/x-zip", Zip);
    (js "application/x-zip-compressed", Zip);
    (js "application/x-tar", Tar);
    (js "application/x-bzip2", Bz2);
    (js "application/gzip", TarGz);
    (js "application/x-gzip", TarGz);
    (js "application/x-gunzip", TarGz);
    (js "application/gzipped", TarGz);
    (js "application/gzip-compressed", TarGz);
    (js "application/x-gzip-compressed", TarGz);
    (js "gzip/document", TarGz);
    (js "application/x-xz", Xz);
    (js "application/octet-stream", Tar);
    (js "application/x-rar-compressed", Rar);
    (js "application/vnd.rar", Rar);
    (js "application/rar", Rar);
    (js "application/x-7z-compressed", SevenZ) ].

Definition Languages : list (jsstr * list jsstr) :=
  [ (js "plaintext", [js "txt"]);
    (js "json", [js "json"]);
    (js "vue", [js "vue"]);
    (js "typescript", [js "ts"]);
    (js "lua", [js "lua"]);
    (js "markdown", [js "md"]);
    (js "dockerfile", [js "dockerfile"]);
    (js "yaml", [js "yml"; js "yaml"]);
    (js "xml", [js "xml"]);
    (js "php", [js "php"]);
    (js "sql", [js "sql"]);
    (js "go", [js "go"]);
    (js "html", [js "html"]);
    (js "javascript", [js "js"]);
    (js "java", [js "java"]);
    (js "kotlin", [js "kt"]);
    (js "python", [js "py"]);
    (js "redis", [js "redis"]);
    (js "shell", [js "sh"]);
    (js "css", [js "css"]);
    (js "ini", [js "ini"]) ].

Definition Rewrites : list jsstr :=
  List.map js
  [ "default"; "wordpress"; "wp2"; "typecho"; "typecho2"; "thinkphp"; "yii2"; "laravel5"; "discuz"; "discuzx"; "discuzx2"; "discuzx3"; "EduSoho"; "EmpireCMS"; "ShopWind"; "crmeb"; "dabr"; "dbshop"; "dedecms"; "drupal"; "ecshop"; "emlog"; "maccms"; "mvc"; "niushop"; "phpcms"; "sablog"; "seacms"; "shopex"; "zblog" ]%string.

Definition Units : list (label * jsstr) :=
  [ (Trans "commons.units.second", js "s");
    (Trans "commons.units.minute", js "m");
    (Trans "commons.units.hour", js "h");
    (Trans "commons.units.day", js "d");
    (Trans "commons.units.week", js "w");
    (Trans "commons.units.month", js "M");
    (Trans "commons.units.year", js "y") ].

Definition sizeUnits : list (label * jsstr) :=
  [ (Text "B", js "b");
    (Text "KB", js "k");
    (Text "MB", js "m");
    (Text "GB", js "g") ].

Definition AcmeAccountTypes : list (label * jsstr) :=
  [ (Text "Let's Encrypt", js "letsencrypt");
    (Text "ZeroSSL", js "zerossl");
    (Text "Buypass", js "buypass");
    (Text "Google Cloud", js "google");
    (Trans "ssl.customAcme", js "custom") ].

Definition KeyTypes : list (label * jsstr) :=
  [ (Text "EC 256", js "EC256");
    (Text "EC 384", js "EC384");
    (Text "RSA 2048", js "RSA2048");
    (Text "RSA 3072", js "RSA3072");
    (Text "RSA 4096", js "RSA4096") ].

Definition DNSTypes : list (label * jsstr) :=
  [ (Trans "website.aliyun", js "AliYun");
    (Trans "website.aliEsa", js "AliESA");
    (Trans "website.awsRoute53", js "AWSRoute53");
    (Trans "website.tencentCloud", js "TencentCloud");
    (Trans "website.huaweicloud", js "HuaweiCloud");
    (Text "GoDaddy", js "Godaddy");
    (Text "Cloudflare", js "CloudFlare");
    (Text "Vercel", js "Vercel");
    (Text "CloudDNS", js "CloudDns");
    (Text "NameSilo", js "NameSilo");
    (Text "NameCheap", js "NameCheap");
    (Text "Name.com", js "NameCom");
    (Text "Dynu", js "Dynu");
    (Text "reg.ru", js "RegRu");
    (Text "FreeMyIP", js "FreeMyIP");
    (Trans "ssl.baiduCloud", js "BaiduCloud");
    (Trans "website.rainyun", js "RainYun");
    (Trans "website.westCN", js "WestCN");
    (Text "ClouDNS", js "ClouDNS");
    (Text "Spaceship", js "Spaceship");
    (Text "OVH", js "Ovh");
    (Text "Acme DNS", js "AcmeDNS");
    (Trans "website.volcengine", js "Volcengine");
    (Text "PorkBun", js "PorkBun");
    (Text "DNSPod", js "DnsPod");
    (Text "Dynadot", js "Dynadot");
    (Text "Technitium", js "Technitium");
    (Text "Ionos", js "Ionos");
    (Text "Ionos Cloud", js "IonosCloud") ].

Definition Fields : list (label * jsstr) :=
  [ (Text "URL", js "URL");
    (Text "IP", js "IP");
    (Text "Header", js "Header");
    (Text "Host", js "Host");
    (Trans "xpack.waf.method", js "Method") ].

Definition Patterns : list (label * jsstr) :=
  [ (Trans "xpack.waf.contain", js "contain");
    (Trans "xpack.waf.notContain", js "notContain");
    (Trans "xpack.waf.equal", js "eq");
    (Trans "xpack.waf.notEqual", js "notEq");
    (Trans "xpack.waf.regex", js "regex");
    (Trans "xpack.waf.belongToIpGroup", js "belongToIpGroup");
    (Trans "xpack.waf.notBelongToIpGroup", js "notBelongToIpGroup") ].

(** The fields a pattern is hidden for. *)
Definition Patterns_hidden : list (jsstr * list jsstr) :=
  [ (js "contain", [js "Method"]);
    (js "notContain", [js "Method"]);
    (js "regex", [js "Method"]) ].

Definition HttpCodes : list (label * N) :=
  [ (Trans "xpack.waf.badReq", 400);
    (Trans "xpack.waf.forbidden", 403);
    (Trans "xpack.waf.notFound", 404);
    (Trans "xpack.waf.noRes", 444);
    (Trans "xpack.waf.serverErr", 500);
    (Trans "xpack.waf.serviceUnavailable", 503);
    (Trans "xpack.waf.gatewayTimeout", 504) ]%N.

Definition HttpMethods : list (label * jsstr) :=
  [ (Text "GET", js "GET");
    (Text "POST", js "POST");
    (Text "PUT", js "PUT");
    (Text "DELETE", js "DELETE");
    (Text "HEAD", js "HEAD");
    (Text "OPTIONS", js "OPTIONS");
    (Text "PATCH", js "PATCH");
    (Text "TRACE", js "TRACE") ].

Definition Actions : list (label * jsstr) :=
  [ (Trans "xpack.waf.actionAllow", js "allow");
    (Trans "xpack.waf.deny", js "deny");
    (Trans "xpack.waf.captcha", js "captcha");
    (Trans "xpack.waf.fiveSeconds", js "five_seconds") ].

Definition getStatusStrategy : list (label * jsstr) :=
  [ (Trans "website.strategyDown", js "down");
    (Trans "website.strategyBackup", js "backup") ].

Definition getWebsiteTypes : list (label * jsstr) :=
  [ (Trans "website.deployment", js "deployment");
    (Trans "runtime.runtime", js "runtime");
    (Trans "website.static", js "static");
    (Trans "website.proxy", js "proxy");
    (Trans "website.subsite", js "subsite");
    (Trans "website.stream", js "stream") ].

Definition DNSTypes_deprecated : list jsstr := [js "DnsPod"].

(** The base algorithms with their hints. *)
Definition baseAlgorithms : list (label * jsstr * label) :=
  [ (Trans "commons.table.default", js "default", Trans "website.defaultHelper");
    (Trans "website.ipHash", js "ip_hash", Trans "website.ipHashHelper");
    (Trans "website.leastConn", js "least_conn", Trans "website.leastConnHelper") ].

Definition getAlgorithms (type : jsstr) : list (label * jsstr * label) :=
  if type === js "stream" then List.filter (fun algo => algo.1.2 !== js "ip_hash") baseAlgorithms else baseAlgorithms.

(** ** utils/ssl.ts *)

(** The label of the first item of a value. *)
Definition name_of (items : list (label * jsstr)) (type : jsstr) : label :=
  default (Text "") (fst <$> List.find (fun item => item.2 === type) items).

Definition getAccountName := name_of AcmeAccountTypes.
Definition getKeyName := name_of KeyTypes.
Definition getDNSName := name_of DNSTypes.

Definition getProvider (provider : jsstr) : label :=
  if provider === js "dnsAccount" then Trans "website.dnsAccount"
  else if provider === js "dnsManual" then Trans "website.dnsManual"
  else if provider === js "http" then Text "HTTP"
  else if provider === js "selfSigned" then Trans "ssl.selfSigned"
  else if provider === js "fromMaster" then Trans "ssl.fromMaster"
  else Trans "ssl.manualCreate".

(** ** Lookups *)

Definition lookup_last {A} (k : jsstr) (m : list (jsstr * A)) : option A :=
  snd <$> List.find (fun p => p.1 === k) (rev m).

Lemma name_of_spec items type l : NoDup (List.map snd items) ->
  (l, type) ∈ items <-> exists a b, items = a ++ (l, type) :: b /\ name_of items type = l.
Proof.
  intros Hn. split; [|intros (a & b & -> & _); rewrite elem_of_app; right; by left].
  intros H. apply list_elem_of_split in H as (a & b & ->). exists a, b. split; [done|].
  unfold name_of. induction a as [|[l' t'] a IH].
  - cbn. by rewrite streqb_refl.
  - cbn [app List.map] in Hn. apply list.NoDup_cons in Hn as [Hnot Hn]. cbn [app List.find snd].
    destruct (t' === type) eqn:E; [|by apply IH]. exfalso. apply Hnot. apply streqb_eq in E as ->.
    apply elem_map. exists (l, type). split; [done|]. rewrite elem_of_app. right. by left.
Qed.

(** No table offers a value twice, and a name shown for a value of a certificate's form is
    the label under which the value was offered. *)
Theorem options_distinct :
  Forall (fun items => NoDup (List.map snd items))
    [Units; sizeUnits; AcmeAccountTypes; KeyTypes; DNSTypes; Fields; Patterns; HttpMethods; Actions; getStatusStrategy;
     getWebsiteTypes] /\
  NoDup (List.map snd HttpCodes) /\ NoDup Rewrites /\ NoDup (List.map fst Mimetypes) /\
  (forall l v, (l, v) ∈ AcmeAccountTypes -> getAccountName v = l) /\
  (forall l v, (l, v) ∈ KeyTypes -> getKeyName v = l) /\
  (forall l v, (l, v) ∈ DNSTypes -> getDNSName v = l).
Proof.
  assert (Hd : Forall (fun items => NoDup (List.map snd items))
    [Units; sizeUnits; AcmeAccountTypes; KeyTypes; DNSTypes; Fields; Patterns; HttpMethods; Actions; getStatusStrategy;
     getWebsiteTypes]).
  { repeat (apply list.Forall_cons; split; [refine (bool_decide_unpack _ _); vm_compute; exact I|]). constructor. }
  assert (Hn : forall items, items ∈ [AcmeAccountTypes; KeyTypes; DNSTypes] -> forall l v, (l, v) ∈ items -> name_of items v = l).
  { intros items Hi l v Hv. rewrite Forall_elem in Hd. apply (name_of_spec items v l) in Hv as (a & b & _ & H); [done|].
    apply Hd. clear -Hi. set_solver. }
  split; [done|]. split_and!; try (refine (bool_decide_unpack _ _); vm_compute; exact I); apply Hn; set_solver.
Qed.
