(* ===== verification/Json.v ===== *)
(** * JSON text

    JSON.parse and JSON.stringify of the language's standard library, on the values
    the sources exchange: [parse] is the grammar of the standard by recursive
    descent, [None] being the SyntaxError; [stringify] writes without white space.
    Members of an object are kept in the order in which their names first appear;
    a repeated name takes the last value.  A number is kept as the text of its
    numeral. *)

From S2P Require Import Prelude JsString Uri.

#[local] Open Scope N_scope.
#[local] Open Scope list_scope.

#[local] Set Warnings "-register-all".

Inductive json :=
| JNull
| JBool (b : bool)
| JNum (numeral : jsstr)
| JStr (s : jsstr)
| JArr (l : list json)
| JObj (members : list (jsstr * json)).

(** ** Parsing *)

Definition is_json_ws (c : N) : bool := (c =? 32) || (c =? 9) || (c =? 10) || (c =? 13).

Fixpoint skip_ws (s : jsstr) : jsstr :=
  match s with
  | c :: s' => if is_json_ws c then skip_ws s' else s
  | [] => []
  end.

(** The unit of a simple escape. *)
Definition unescape (e : N) : option N :=
  if e =? 34 then Some 34 else if e =? 92 then Some 92 else if e =? 47 then Some 47
  else if e =? 98 then Some 8 else if e =? 102 then Some 12 else if e =? 110 then Some 10
  else if e =? 114 then Some 13 else if e =? 116 then Some 9 else None.

Definition hex4 (a b c d : N) : option N :=
  x ← hex_value a; y ← hex_value b; z ← hex_value c; w ← hex_value d;
  Some (4096 * x + 256 * y + 16 * z + w).

(** The units up to the closing quote, and what follows it. *)
Fixpoint parse_string (s : jsstr) : option (jsstr * jsstr) :=
  match s with
  | [] => None
  | c :: s1 =>
      if c =? 34 then Some ([], s1)
      else if c =? 92 then
        match s1 with
        | e :: s2 =>
            if e =? 117 then
              match s2 with
              | a :: b :: c' :: d :: s3 =>
                  match hex4 a b c' d, parse_string s3 with
                  | Some u, Some (w, r) => Some (u :: w, r)
                  | _, _ => None
                  end
              | _ => None
              end
            else match unescape e, parse_string s2 with
                 | Some u, Some (w, r) => Some (u :: w, r)
                 | _, _ => None
                 end
        | [] => None
        end
      else if c <? 32 then None
      else match parse_string s1 with Some (w, r) => Some (c :: w, r) | None => None end
  end.

(** The longest run of digits. *)
Fixpoint span_digits (s : jsstr) : jsstr * jsstr :=
  match s with
  | c :: s' => if is_digit c then let '(d, r) := span_digits s' in (c :: d, r) else ([], s)
  | [] => ([], [])
  end.

Definition parse_int (s : jsstr) : option (jsstr * jsstr) :=
  match s with
  | c :: s' =>
      if c =? 48 then Some ([48], s')
      else if is_digit c then Some (span_digits s) else None
  | [] => None
  end.

(** An optional part that starts with a mark and holds at least a digit. *)
Definition parse_frac (s : jsstr) : option (jsstr * jsstr) :=
  match s with
  | c :: s' =>
      if c =? 46 then
        match span_digits s' with ([], _) => None | (d, r) => Some (46 :: d, r) end
      else Some ([], s)
  | [] => Some ([], [])
  end.
Definition parse_exp (s : jsstr) : option (jsstr * jsstr) :=
  match s with
  | c :: s' =>
      if (c =? 101) || (c =? 69) then
        let '(sign, t) := match s' with
                          | g :: t => if (g =? 43) || (g =? 45) then ([g], t) else ([], s')
                          | [] => ([], [])
                          end in
        match span_digits t with ([], _) => None | (d, r) => Some (c :: sign ++ d, r) end
      else Some ([], s)
  | [] => Some ([], [])
  end.

Definition parse_number (s : jsstr) : option (jsstr * jsstr) :=
  let '(sign, s) := match s with c :: s' => if c =? 45 then ([45], s') else ([], s) | [] => ([], []) end in
  '(i, s) ← parse_int s;
  '(f, s) ← parse_frac s;
  '(e, s) ← parse_exp s;
  Some (sign ++ i ++ f ++ e, s).

Definition parse_lit (w : string) (v : json) (s : jsstr) : option (json * jsstr) :=
  if startsWith s (js w) then Some (v, drop (length (js w)) s) else None.

(** A member replaces an earlier one of its name. *)
Fixpoint put (k : jsstr) (v : json) (l : list (jsstr * json)) : list (jsstr * json) :=
  match l with
  | [] => [(k, v)]
  | (k', v') :: l' => if k' === k then (k, v) :: l' else (k', v') :: put k v l'
  end.

(** The value at the start of the text, after white space, and what follows it;
    the elements of an array and the members of an object after their first
    bracket, read so far. *)
Fixpoint parse_value (fuel : nat) (s : jsstr) : option (json * jsstr) :=
  match fuel with
  | O => None
  | S n =>
      match skip_ws s with
      | [] => None
      | c :: r =>
          if c =? 123 then
            match skip_ws r with
            | c' :: r' => if c' =? 125 then Some (JObj [], r') else parse_members n [] r
            | [] => None
            end
          else if c =? 91 then
            match skip_ws r with
            | c' :: r' => if c' =? 93 then Some (JArr [], r') else parse_elems n [] r
            | [] => None
            end
          else if c =? 34 then '(w, r') ← parse_string r; Some (JStr w, r')
          else if c =? 116 then parse_lit "true" (JBool true) (c :: r)
          else if c =? 102 then parse_lit "false" (JBool false) (c :: r)
          else if c =? 110 then parse_lit "null" JNull (c :: r)
          else '(d, r') ← parse_number (c :: r); Some (JNum d, r')
      end
  end
with parse_elems (fuel : nat) (acc : list json) (s : jsstr) : option (json * jsstr) :=
  match fuel with
  | O => None
  | S n =>
      match parse_value n s with
      | Some (v, r) =>
          match skip_ws r with
          | c :: r' =>
              if c =? 44 then parse_elems n (acc ++ [v]) r'
              else if c =? 93 then Some (JArr (acc ++ [v]), r') else None
          | [] => None
          end
      | None => None
      end
  end
with parse_members (fuel : nat) (acc : list (jsstr * json)) (s : jsstr) : option (json * jsstr) :=
  match fuel with
  | O => None
  | S n =>
      match skip_ws s with
      | q :: s' =>
          if q =? 34 then
            match parse_string s' with
            | Some (k, r) =>
                match skip_ws r with
                | c :: r' =>
                    if c =? 58 then
                      match parse_value n r' with
                      | Some (v, r'') =>
                          match skip_ws r'' with
                          | c' :: t =>
                              if c' =? 44 then parse_members n (put k v acc) t
                              else if c' =? 125 then Some (JObj (put k v acc), t) else None
                          | [] => None
                          end
                      | None => None
                      end
                    else None
                | [] => None
                end
            | None => None
            end
          else None
      | [] => None
      end
  end.

(** JSON.parse *)
Definition parse (s : jsstr) : option json :=
  match parse_value (2 * length s + 2) s with
  | Some (v, r) => match skip_ws r with [] => Some v | _ => None end
  | None => None
  end.

(** ** Writing *)

Definition hex_lower (n : N) : N := if n <? 10 then 48 + n else 87 + n.
Definition escape_u (c : N) : jsstr :=
  js "\u" ++ [hex_lower (c / 4096); hex_lower ((c / 256) mod 16); hex_lower ((c / 16) mod 16); hex_lower (c mod 16)].

Definition quote_unit (c : N) : jsstr :=
  if c =? 8 then js "\b" else if c =? 9 then js "\t" else if c =? 10 then js "\n"
  else if c =? 12 then js "\f" else if c =? 13 then js "\r"
  else if c =? 34 then [92; 34] else if c =? 92 then js "\\"
  else if c <? 32 then escape_u c else [c].

(** A surrogate that is not part of a pair is escaped. *)
Fixpoint quote_units (s : jsstr) : jsstr :=
  match s with
  | [] => []
  | c :: s' =>
      if is_high c then
        match s' with
        | d :: s'' => if is_low d then c :: d :: quote_units s'' else escape_u c ++ quote_units s'
        | [] => escape_u c
        end
      else if is_low c then escape_u c ++ quote_units s'
      else quote_unit c ++ quote_units s'
  end.
Definition quote (s : jsstr) : jsstr := 34 :: quote_units s ++ [34].

(** JSON.stringify *)
Fixpoint stringify (v : json) : jsstr :=
  match v with
  | JNull => js "null"
  | JBool true => js "true"
  | JBool false => js "false"
  | JNum d => d
  | JStr s => quote s
  | JArr l => js "[" ++ join (js ",") (List.map stringify l) ++ js "]"
  | JObj ms => js "{" ++ join (js ",") (List.map (fun m => quote m.1 ++ js ":" ++ stringify m.2) ms) ++ js "}"
  end.

(** The member of a name. *)
Definition member (k : jsstr) (v : json) : option json :=
  match v with JObj ms => snd <$> List.find (fun m => m.1 === k) ms | _ => None end.

Example parse_ex : parse (js " [1, -2.5e3, true, {} ,null] ") =
  Some (JArr [JNum (js "1"); JNum (js "-2.5e3"); JBool true; JObj []; JNull]).
Proof. vm_compute. reflexivity. Qed.
Example parse_dup :
  parse ([123] ++ quote (js "a") ++ js ":1," ++ quote (js "b") ++ js ":2," ++ quote (js "a") ++ js ":3}") =
  Some (JObj [(js "a", JNum (js "3")); (js "b", JNum (js "2"))]).
Proof. vm_compute. reflexivity. Qed.
Example parse_bad : map parse [js "01"; js "[1,]"; js "1 2"; js "nul"; js "-"; js "1."] = repeat None 6.
Proof. vm_compute. reflexivity. Qed.
Example quote_ex : quote [55357; 56832; 55357; 10] = [34; 55357; 56832] ++ js "\ud83d\n" ++ [34].
Proof. vm_compute. reflexivity. Qed.

(** ** Fuel

    Every call of the parser consumes what it reads, so twice the length of the
    text and two are enough: with more fuel the result is the same. *)

Lemma skip_ws_length s : (length (skip_ws s) <= length s)%nat.
Proof. induction s as [|c s IH]; cbn [skip_ws]; [done|]. destruct (is_json_ws c); cbn [length]; lia. Qed.

Lemma parse_string_length s w r : parse_string s = Some (w, r) -> (length r < length s)%nat.
Proof.
  remember (length s) as n eqn:En. assert (H : (length s <= n)%nat) by lia. clear En.
  revert s w r H. induction n as [|n IH]; intros [|c s] w r H; cbn [length] in H; try lia; try done.
  cbn [parse_string]. destruct (c =? 34); [intros [= <- <-]; lia|].
  destruct (c =? 92).
  - destruct s as [|e s]; [done|]. cbn [length] in H. destruct (e =? 117).
    + destruct s as [|a [|b [|c' [|d s]]]]; try done. cbn [length] in H.
      destruct (hex4 a b c' d), (parse_string s) as [[w' r']|] eqn:E; try done.
      intros [= <- <-]. apply IH in E; lia.
    + destruct (unescape e), (parse_string s) as [[w' r']|] eqn:E; try done.
      intros [= <- <-]. apply IH in E; lia.
  - destruct (c <? 32); [done|]. destruct (parse_string s) as [[w' r']|] eqn:E; [|done].
    intros [= <- <-]. apply IH in E; lia.
Qed.

Lemma span_digits_length s d r : span_digits s = (d, r) -> (length d + length r = length s)%nat.
Proof.
  revert d r. induction s as [|c s IH]; intros d r; cbn [span_digits]; [by intros [= <- <-]|].
  destruct (is_digit c); [|by intros [= <- <-]]. destruct (span_digits s) as [d' r'].
  intros [= <- <-]. cbn [length]. rewrite <- (IH d' r') by done. lia.
Qed.

Lemma parse_int_length s d r : parse_int s = Some (d, r) -> (length r < length s)%nat.
Proof.
  destruct s as [|c s]; [done|]. cbn [parse_int]. destruct (c =? 48); [intros [= <- <-]; cbn; lia|].
  destruct (is_digit c) eqn:Ec; [|done]. cbn [span_digits]. rewrite Ec.
  destruct (span_digits s) as [d' r'] eqn:E. intros [= <- <-].
  apply span_digits_length in E. cbn [length]. lia.
Qed.

Lemma parse_frac_length s d r : parse_frac s = Some (d, r) -> (length r <= length s)%nat.
Proof.
  destruct s as [|c s]; [by intros [= <- <-]|]. cbn [parse_frac]. destruct (c =? 46); [|by intros [= <- <-]].
  destruct (span_digits s) as [[|? ?] r'] eqn:E; [done|]. apply span_digits_length in E.
  intros [= <- <-]. cbn [length] in *. lia.
Qed.

Lemma parse_exp_length s d r : parse_exp s = Some (d, r) -> (length r <= length s)%nat.
Proof.
  destruct s as [|c s]; [by intros [= <- <-]|]. cbn [parse_exp]. destruct (_ || _); [|by intros [= <- <-]].
  destruct s as [|g s]; [done|]. destruct ((g =? 43) || (g =? 45)).
  - destruct (span_digits s) as [[|? ?] r'] eqn:E; [done|]. apply span_digits_length in E.
    intros [= <- <-]. cbn [length] in *. lia.
  - destruct (span_digits (g :: s)) as [[|? ?] r'] eqn:E; [done|]. apply span_digits_length in E.
    intros [= <- <-]. cbn [length] in *. lia.
Qed.

Lemma parse_number_length s d r : parse_number s = Some (d, r) -> (length r < length s)%nat.
Proof.
  unfold parse_number.
  destruct (match s with c :: s' => if c =? 45 then ([45], s') else ([], s) | [] => ([], []) end) as [g t] eqn:Eg.
  assert (Ht : (length t <= length s)%nat).
  { destruct s as [|c s]; [by injection Eg as <- <-|]. destruct (c =? 45); injection Eg as <- <-; cbn; lia. }
  destruct (parse_int t) as [[i t1]|] eqn:E1; [|done]. cbn [mbind option_bind].
  destruct (parse_frac t1) as [[f t2]|] eqn:E2; [|done]. cbn [mbind option_bind].
  destruct (parse_exp t2) as [[e t3]|] eqn:E3; [|done]. cbn [mbind option_bind]. intros [= <- <-].
  apply parse_int_length in E1. apply parse_frac_length in E2. apply parse_exp_length in E3. lia.
Qed.

Lemma parse_lit_length w v s x r : js w <> [] -> parse_lit w v s = Some (x, r) -> (length r < length s)%nat.
Proof.
  intros Hw. unfold parse_lit. destruct (startsWith s (js w)) eqn:E; [|done]. intros [= <- <-].
  apply startsWith_spec in E as [t ->]. rewrite drop_app_length, length_app.
  destruct (js w); [done|]. cbn. lia.
Qed.

(** The three parsers leave a shorter text. *)
Lemma parse_shorter f :
  (forall s v r, parse_value f s = Some (v, r) -> (length r < length s)%nat) /\
  (forall acc s v r, parse_elems f acc s = Some (v, r) -> (length r < length s)%nat) /\
  (forall acc s v r, parse_members f acc s = Some (v, r) -> (length r < length s)%nat).
Proof.
  induction f as [|f (IHv & IHe & IHm)]; [done|]. split_and!.
  - intros s v r. cbn [parse_value]. pose proof (skip_ws_length s) as Hw.
    destruct (skip_ws s) as [|c t]; [done|]. cbn [length] in Hw. pose proof (skip_ws_length t) as Hw'.
    destruct (c =? 123).
    { destruct (skip_ws t) as [|c' t'] eqn:Et; [done|]. cbn [length] in Hw'.
      destruct (c' =? 125); [intros [= <- <-]; lia|]. intros E%IHm. lia. }
    destruct (c =? 91).
    { destruct (skip_ws t) as [|c' t'] eqn:Et; [done|]. cbn [length] in Hw'.
      destruct (c' =? 93); [intros [= <- <-]; lia|]. intros E%IHe. lia. }
    destruct (c =? 34).
    { destruct (parse_string t) as [[w r']|] eqn:E; [|done]. intros [= <- <-]. apply parse_string_length in E. lia. }
    do 3 (destruct (_ =? _); [intros E%parse_lit_length; [cbn [length] in E; lia|done]|]).
    destruct (parse_number (c :: t)) as [[d r']|] eqn:E; [|done]. intros [= <- <-].
    apply parse_number_length in E. cbn [length] in E. lia.
  - intros acc s v r. cbn [parse_elems]. destruct (parse_value f s) as [[x t]|] eqn:E; [|done].
    apply IHv in E. pose proof (skip_ws_length t) as Hw. destruct (skip_ws t) as [|c t']; [done|].
    cbn [length] in Hw. destruct (c =? 44); [intros E'%IHe; lia|].
    destruct (c =? 93); [|done]. intros [= <- <-]. lia.
  - intros acc s v r. cbn [parse_members]. pose proof (skip_ws_length s) as Hw.
    destruct (skip_ws s) as [|q t]; [done|]. cbn [length] in Hw. destruct (q =? 34); [|done].
    destruct (parse_string t) as [[k t1]|] eqn:E1; [|done]. apply parse_string_length in E1.
    pose proof (skip_ws_length t1) as Hw1. destruct (skip_ws t1) as [|c t2]; [done|]. cbn [length] in Hw1.
    destruct (c =? 58); [|done]. destruct (parse_value f t2) as [[x t3]|] eqn:E3; [|done]. apply IHv in E3.
    pose proof (skip_ws_length t3) as Hw3. destruct (skip_ws t3) as [|c' t4]; [done|]. cbn [length] in Hw3.
    destruct (c' =? 44); [intros E'%IHm; lia|]. destruct (c' =? 125); [|done]. intros [= <- <-]. lia.
Qed.

(** What some fuel parses, enough fuel parses too. *)
Lemma parse_enough f :
  (forall s x, parse_value f s = Some x -> forall g, (2 * length s + 2 <= g)%nat -> parse_value g s = Some x) /\
  (forall acc s x, parse_elems f acc s = Some x -> forall g, (2 * length s + 3 <= g)%nat -> parse_elems g acc s = Some x) /\
  (forall acc s x, parse_members f acc s = Some x -> forall g, (2 * length s + 1 <= g)%nat -> parse_members g acc s = Some x).
Proof.
  induction f as [|f (IHv & IHe & IHm)]; [done|]. destruct (parse_shorter f) as (Sv & _ & _). split_and!.
  - intros s x E [|g] Hg; [lia|]. cbn [parse_value] in E |- *. pose proof (skip_ws_length s) as Hw.
    destruct (skip_ws s) as [|c t]; [done|]. cbn [length] in Hw.
    destruct (c =? 123).
    { destruct (skip_ws t) as [|c' t']; [done|]. destruct (c' =? 125); [done|]. apply IHm; [done|lia]. }
    destruct (c =? 91); [|done].
    destruct (skip_ws t) as [|c' t']; [done|]. destruct (c' =? 93); [done|]. apply IHe; [done|lia].
  - intros acc s x E [|g] Hg; [lia|]. cbn [parse_elems] in E |- *.
    destruct (parse_value f s) as [[v t]|] eqn:Ev; [|done]. pose proof (Sv _ _ _ Ev).
    rewrite (IHv _ _ Ev g) by lia. pose proof (skip_ws_length t). destruct (skip_ws t) as [|c t']; [done|].
    cbn [length] in *. destruct (c =? 44); [|done]. apply IHe; [done|lia].
  - intros acc s x E [|g] Hg; [lia|]. cbn [parse_members] in E |- *. pose proof (skip_ws_length s).
    destruct (skip_ws s) as [|q t]; [done|]. cbn [length] in *. destruct (q =? 34); [|done].
    destruct (parse_string t) as [[k t1]|] eqn:E1; [|done]. apply parse_string_length in E1.
    pose proof (skip_ws_length t1). destruct (skip_ws t1) as [|c t2]; [done|]. cbn [length] in *.
    destruct (c =? 58); [|done]. destruct (parse_value f t2) as [[v t3]|] eqn:E3; [|done].
    pose proof (Sv _ _ _ E3). rewrite (IHv _ _ E3 g) by lia. pose proof (skip_ws_length t3).
    destruct (skip_ws t3) as [|c' t4]; [done|]. cbn [length] in *. destruct (c' =? 44); [|done]. apply IHm; [done|lia].
Qed.

(** The fuel of [parse] loses nothing. *)
Lemma parse_complete f s v r :
  parse_value f s = Some (v, r) -> skip_ws r = [] -> parse s = Some v.
Proof.
  intros E Hr. unfold parse. rewrite (proj1 (parse_enough f) s _ E) by lia. by rewrite Hr.
Qed.

(** ** Reading back what was written *)

Section Induction.
Variable P : json -> Prop.
Hypothesis HNull : P JNull.
Hypothesis HBool : forall b, P (JBool b).
Hypothesis HNum : forall d, P (JNum d).
Hypothesis HStr : forall s, P (JStr s).
Hypothesis HArr : forall l, Forall P l -> P (JArr l).
Hypothesis HObj : forall ms, Forall (fun m => P m.2) ms -> P (JObj ms).

Fixpoint json_nested_ind (v : json) : P v :=
  match v with
  | JNull => HNull
  | JBool b => HBool b
  | JNum d => HNum d
  | JStr s => HStr s
  | JArr l =>
      HArr l ((fix go l : Forall P l := match l with
                           | [] => Forall_nil_2 P
                           | x :: l' => Forall_cons_2 P x l' (json_nested_ind x) (go l')
                           end) l)
  | JObj ms =>
      HObj ms ((fix go ms : Forall (fun m => P m.2) ms := match ms with
                             | [] => Forall_nil_2 (fun m => P m.2)
                             | m :: ms' => Forall_cons_2 (fun m => P m.2) m ms' (json_nested_ind m.2) (go ms')
                             end) ms)
  end.
End Induction.

(** The values whose text reads back: strings of 16-bit units, numerals of natural
    numbers, and objects without a repeated name. *)
Inductive writable : json -> Prop :=
| w_null : writable JNull
| w_bool b : writable (JBool b)
| w_num n : writable (JNum (dec n))
| w_str s : Forall unit16 s -> writable (JStr s)
| w_arr l : Forall writable l -> writable (JArr l)
| w_obj ms : NoDup (List.map fst ms) -> Forall (fun m => Forall unit16 m.1) ms ->
    Forall (fun m => writable m.2) ms -> writable (JObj ms).

Lemma hex_value_lower n : n < 16 -> hex_value (hex_lower n) = Some n.
Proof.
  intros H. assert (E : match hex_value (hex_lower n) with Some m => m =? n | None => false end = true).
  { apply (forall_from_spec (fun n => match hex_value (hex_lower n) with Some m => m =? n | None => false end) 0 16);
      [reflexivity|lia]. }
  destruct (hex_value (hex_lower n)); [|done]. by apply N.eqb_eq in E as ->.
Qed.

Lemma parse_escape_u c t : c < 65536 ->
  parse_string (escape_u c ++ t) = match parse_string t with Some (w, r) => Some (c :: w, r) | None => None end.
Proof.
  intros Hc. unfold escape_u. change (js "\u") with [92; 117]. cbn [app parse_string N.eqb Pos.eqb].
  unfold hex4. rewrite !hex_value_lower by (try (apply N.mod_lt; lia); apply N.Div0.div_lt_upper_bound; lia).
  cbn [mbind option_bind].
  replace (4096 * (c / 4096) + 256 * ((c / 256) mod 16) + 16 * ((c / 16) mod 16) + c mod 16) with c; [done|].
  rewrite (N.div_mod c 16) at 1 by done. rewrite (N.div_mod (c / 16) 16) at 1 by done.
  rewrite (N.div_mod (c / 16 / 16) 16) at 1 by done. rewrite !N.Div0.div_div.
  change (16 * 16) with 256. change (256 * 16) with 4096. lia.
Qed.

Lemma parse_quote_unit c t :
  parse_string (quote_unit c ++ t) = match parse_string t with Some (w, r) => Some (c :: w, r) | None => None end.
Proof.
  unfold quote_unit.
  do 7 (match goal with |- context [c =? ?k] => destruct (N.eqb_spec c k) as [->|]; [reflexivity|] end).
  destruct (N.ltb_spec c 32); [apply parse_escape_u; lia|].
  cbn [app parse_string]. assert ((c =? 34) = false) as -> by by apply N.eqb_neq.
  assert ((c =? 92) = false) as -> by by apply N.eqb_neq. by assert ((c <? 32) = false) as -> by by apply N.ltb_ge.
Qed.

(** A unit that is no quotation mark, reverse solidus or control is read as it is. *)
Lemma parse_unit c t : 92 < c ->
  parse_string (c :: t) = match parse_string t with Some (w, r) => Some (c :: w, r) | None => None end.
Proof.
  intros H. cbn [parse_string]. assert ((c =? 34) = false) as -> by (apply N.eqb_neq; lia).
  assert ((c =? 92) = false) as -> by (apply N.eqb_neq; lia). by assert ((c <? 32) = false) as -> by (apply N.ltb_ge; lia).
Qed.

Lemma parse_quote_units s r : Forall unit16 s -> parse_string (quote_units s ++ 34 :: r) = Some (s, r).
Proof.
  remember (length s) as n eqn:En. assert (H : (length s <= n)%nat) by lia. clear En.
  revert s H. induction n as [|n IH]; intros [|c s] H Hs; cbn [length] in H; try lia; try done.
  apply Forall_cons_iff in Hs as [Hc Hs]. assert (Hc' : c < 65536) by exact Hc. cbn [quote_units].
  destruct (is_high c) eqn:Eh.
  - destruct s as [|d s]; [by rewrite parse_escape_u|]. destruct (is_low d) eqn:El.
    + apply Forall_cons_iff in Hs as [Hd Hs]. cbn [app]. unfold is_high, is_low in Eh, El.
      apply andb_true_iff in Eh as [Eh _], El as [El _]. apply N.leb_le in Eh, El.
      rewrite !parse_unit by lia. cbn [length] in H. by rewrite IH by (lia || done).
    + rewrite <- app_assoc, parse_escape_u by done. by rewrite IH by (cbn [length] in *; lia || done).
  - destruct (is_low c).
    + rewrite <- app_assoc, parse_escape_u by done. by rewrite IH by (lia || done).
    + rewrite <- app_assoc, parse_quote_unit. by rewrite IH by (lia || done).
Qed.

Lemma parse_quote s r : Forall unit16 s ->
  exists t, quote s ++ r = 34 :: t /\ parse_string t = Some (s, r).
Proof.
  intros Hs. exists ((quote_units s ++ [34]) ++ r). split; [done|]. rewrite <- app_assoc. by apply parse_quote_units.
Qed.

(** What may follow a value inside a document. *)
Definition ends_value (r : jsstr) : Prop :=
  match r with [] => True | c :: _ => c ∈ [44; 93; 125] end.

Lemma span_digits_app d r :
  forallb is_digit d = true -> match r with [] => True | c :: _ => is_digit c = false end ->
  span_digits (d ++ r) = (d, r).
Proof.
  intros Hd Hr. induction d as [|c d IH]; cbn [app].
  - destruct r as [|c r]; [done|]. cbn [span_digits]. by rewrite Hr.
  - apply andb_true_iff in Hd as [Hc Hd]. cbn [span_digits]. by rewrite Hc, IH.
Qed.

Lemma ends_value_digit r : ends_value r -> match r with [] => True | c :: _ => is_digit c = false end.
Proof.
  destruct r as [|c r]; [done|]. cbn. rewrite !elem_of_cons, elem_of_nil.
  by intros [->|[->|[->|[]]]].
Qed.

Lemma parse_number_dec n r : ends_value r -> parse_number (dec n ++ r) = Some (dec n, r).
Proof.
  intros Hr. pose proof (dec_digits n) as Hd. pose proof (canonical_dec n) as Hc.
  pose proof (dec_not_nil n). destruct (dec n) as [|c d] eqn:E; [done|].
  assert (Hc48 : 48 <= c <= 57) by (apply (dec_elem n); rewrite E; by left).
  unfold parse_number. cbn [app]. assert ((c =? 45) = false) as -> by (apply N.eqb_neq; lia).
  assert (parse_int (c :: d ++ r) = Some (c :: d, r)) as ->.
  { cbn [parse_int]. destruct (N.eqb_spec c 48) as [->|Hn].
    - destruct d as [|a d]; [done|]. cbn [canonical N.eqb Pos.eqb negb] in Hc. by rewrite andb_false_r in Hc.
    - cbn [forallb] in Hd. pose proof Hd as Hd'. apply andb_true_iff in Hd' as [-> _].
      change (c :: d ++ r) with ((c :: d) ++ r). rewrite span_digits_app; [done|exact Hd|by apply ends_value_digit]. }
  cbn [mbind option_bind].
  assert (parse_frac r = Some ([], r)) as ->.
  { destruct r as [|x r]; [done|]. cbn. cbn in Hr. rewrite !elem_of_cons, elem_of_nil in Hr.
    by destruct Hr as [->|[->|[->|[]]]]. }
  cbn [mbind option_bind].
  assert (parse_exp r = Some ([], r)) as ->.
  { destruct r as [|x r]; [done|]. cbn. cbn in Hr. rewrite !elem_of_cons, elem_of_nil in Hr.
    by destruct Hr as [->|[->|[->|[]]]]. }
  cbn [mbind option_bind app]. by rewrite !app_nil_r.
Qed.

(** The first unit of a value. *)
Definition starts_value (s : jsstr) : Prop :=
  exists c t, s = c :: t /\ is_json_ws c = false /\ c <> 93 /\ c <> 125.

Lemma stringify_starts v r : writable v -> starts_value (stringify v ++ r).
Proof.
  intros H. destruct H as [|[]|n|s|l|ms]; try (eexists _, _; split; [reflexivity|by vm_compute]).
  cbn [stringify]. pose proof (dec_not_nil n). destruct (dec n) as [|c d] eqn:E; [done|].
  assert (48 <= c <= 57) by (apply (dec_elem n); rewrite E; by left).
  exists c, (d ++ r). split; [done|]. unfold is_json_ws.
  repeat (match goal with |- context [c =? ?k] => destruct (N.eqb_spec c k); [lia|] end). split_and!; [done|lia|lia].
Qed.

Lemma put_new k v l : k ∉ List.map fst l -> put k v l = l ++ [(k, v)].
Proof.
  induction l as [|[k' v'] l IH]; cbn [put List.map fst]; [done|]. intros Hk.
  apply not_elem_of_cons in Hk as [Hne Hk]. assert ((k' === k) = false) as -> by by apply streqb_neq.
  by rewrite IH.
Qed.

(** Some fuel reads [v] before [r]. *)
Definition reads_back (v : json) : Prop :=
  forall r, ends_value r -> exists f, parse_value f (stringify v ++ r) = Some (v, r).

Lemma more_fuel f g s x : parse_value f s = Some x -> (2 * length s + 2 <= g)%nat -> parse_value g s = Some x.
Proof. intros E Hg. exact (proj1 (parse_enough f) s x E g Hg). Qed.

Lemma reads_elems l acc r : Forall writable l -> Forall reads_back l -> l <> [] ->
  exists f, parse_elems f acc (join (js ",") (List.map stringify l) ++ 93 :: r) = Some (JArr (acc ++ l), r).
Proof.
  intros Hw Hl. revert acc. induction Hl as [|v l Hv _ IH]; intros acc Hne; [done|].
  apply Forall_cons_iff in Hw as [_ Hw]. destruct l as [|w l].
  - destruct (Hv (93 :: r)) as [f E]; [by right; left|]. exists (S f). cbn [List.map join parse_elems].
    by rewrite E.
  - cbn [List.map]. rewrite join_cons by done. change (js ",") with [44]. rewrite <- !app_assoc.
    set (rest := join [44] (stringify w :: List.map stringify l) ++ 93 :: r).
    destruct (Hv (44 :: rest)) as [f E]; [by left|].
    destruct (IH Hw (acc ++ [v])) as [g Eg]; [done|].
    rewrite <- app_assoc in Eg. cbn [app List.map] in Eg. change (js ",") with [44] in Eg. fold rest in Eg.
    set (s := stringify v ++ [44] ++ rest).
    exists (S (Nat.max g (2 * length s + 3))). cbn [parse_elems].
    rewrite (more_fuel f _ s _ E) by lia. cbn [skip_ws is_json_ws N.eqb Pos.eqb orb].
    apply (proj1 (proj2 (parse_enough g)) _ _ _ Eg).
    assert (length s = length (stringify v) + S (length rest))%nat 
      by (unfold s; rewrite !length_app; change (length [44]) with 1%nat; lia). clearbody rest s. lia.
Qed.

Lemma reads_members ms acc r :
  NoDup (List.map fst (acc ++ ms)) -> Forall (fun m => Forall unit16 m.1) ms ->
  Forall (fun m => reads_back m.2) ms -> ms <> [] ->
  exists f, parse_members f acc
    (join (js ",") (List.map (fun m => quote m.1 ++ js ":" ++ stringify m.2) ms) ++ 125 :: r) = Some (JObj (acc ++ ms), r).
Proof.
  intros Hnd Hk Hv. revert acc Hnd. induction Hv as [|[k v] ms Hv _ IH]; intros acc Hnd Hne; [done|].
  apply Forall_cons_iff in Hk as [Hk Hks]. cbn [fst snd] in *.
  assert (Hput : put k v acc = acc ++ [(k, v)]).
  { apply put_new. rewrite map_app in Hnd. cbn [List.map fst] in Hnd.
    apply list.NoDup_app in Hnd as (_ & H & _). intros Hin. apply (H k Hin). by left. }
  destruct ms as [|m ms].
  - destruct (Hv (125 :: r)) as [f E]; [by right; right; left|].
    exists (S f). cbn [List.map join parse_members fst snd]. rewrite <- !app_assoc.
    destruct (parse_quote k (js ":" ++ stringify v ++ 125 :: r) Hk) as (t & -> & Et).
    cbn [skip_ws is_json_ws N.eqb Pos.eqb orb]. rewrite Et. change (js ":") with [58].
    cbn [app skip_ws is_json_ws N.eqb Pos.eqb orb]. rewrite E. cbn [skip_ws is_json_ws N.eqb Pos.eqb orb].
    by rewrite Hput.
  - cbn [List.map fst snd]. rewrite join_cons by done. change (js ",") with [44]. rewrite <- !app_assoc.
    set (rest := join [44] (_ :: List.map _ ms) ++ 125 :: r).
    destruct (Hv (44 :: rest)) as [f E]; [by left|].
    destruct (IH Hks (acc ++ [(k, v)])) as [g Eg]; [by rewrite <- app_assoc|done|].
    rewrite <- app_assoc in Eg. cbn [app List.map] in Eg. change (js ",") with [44] in Eg. fold rest in Eg.
    set (s := stringify v ++ [44] ++ rest).
    destruct (parse_quote k (js ":" ++ s) Hk) as (t & Eq & Et).
    exists (S (Nat.max g (2 * length s + 3))). rewrite Eq. cbn [parse_members skip_ws is_json_ws N.eqb Pos.eqb orb].
    rewrite Et. change (js ":") with [58]. cbn [app skip_ws is_json_ws N.eqb Pos.eqb orb].
    rewrite (more_fuel f _ s _ E) by lia. cbn [skip_ws is_json_ws N.eqb Pos.eqb orb]. rewrite Hput.
    apply (proj2 (proj2 (parse_enough g)) _ _ _ Eg).
    assert (length s = length (stringify v) + S (length rest))%nat 
      by (unfold s; rewrite !length_app; change (length [44]) with 1%nat; lia). clearbody rest s. lia.
Qed.

Lemma skip_starts s : starts_value s -> skip_ws s = s.
Proof. intros (c & t & -> & Hc & _). cbn [skip_ws]. by rewrite Hc. Qed.

Lemma writable_reads v : writable v -> reads_back v.
Proof.
  induction v as [|b|d|s|l IH|ms IH] using json_nested_ind; intros Hw r Hr.
  - by exists 1%nat.
  - exists 1%nat. by destruct b.
  - exists 1%nat. inversion Hw as [| |n| | |]; subst. cbn [stringify parse_value].
    destruct (stringify_starts (JNum (dec n)) r Hw) as (c & t & Ec & H1 & H2 & H3).
    pose proof (parse_number_dec n r Hr) as En. cbn [stringify] in Ec. rewrite Ec in En |- *.
    cbn [skip_ws]. rewrite H1.
    assert (48 <= c <= 57).
    { pose proof (dec_not_nil n). destruct (dec n) as [|c' d'] eqn:Ed; [done|]. injection Ec as -> _.
      apply (dec_elem n). rewrite Ed. by left. }
    repeat (match goal with |- context [c =? ?k] => destruct (N.eqb_spec c k); [lia|] end). by rewrite En.
  - exists 1%nat. inversion Hw; subst. cbn [stringify]. destruct (parse_quote s r) as (t & -> & Et); [done|].
    cbn [parse_value skip_ws is_json_ws N.eqb Pos.eqb orb]. by rewrite Et.
  - inversion Hw as [| | | |l' Hl|]; subst l'. destruct l as [|x l]; [by exists 1%nat|].
    assert (Hrb : Forall reads_back (x :: l)).
    { apply Forall_elem. intros y Hy. rewrite Forall_elem in IH, Hl. by apply IH, Hl. }
    destruct (reads_elems (x :: l) [] r Hl Hrb) as [f E]; [done|]. exists (S f).
    cbn [stringify]. change (js "[") with [91]. change (js "]") with [93]. rewrite <- !app_assoc.
    cbn [app parse_value skip_ws is_json_ws N.eqb Pos.eqb orb].
    assert (Hs : starts_value (join (js ",") (List.map stringify (x :: l)) ++ 93 :: r)).
    { apply Forall_cons_iff in Hl as [Hx _]. cbn [List.map].
      destruct l as [|y l]; [by apply stringify_starts|]. cbn [List.map]. rewrite join_cons by done.
      rewrite <- app_assoc. by apply stringify_starts. }
    rewrite (skip_starts _ Hs). destruct Hs as (c & t & Ec & _ & Hc & _). rewrite Ec in E |- *.
    assert ((c =? 93) = false) as -> by by apply N.eqb_neq. by rewrite E.
  - inversion Hw as [| | | | |ms' Hnd Hk Hv]; subst ms'. destruct ms as [|m ms]; [by exists 1%nat|].
    assert (Hrb : Forall (fun m => reads_back m.2) (m :: ms)).
    { apply Forall_elem. intros y Hy. rewrite Forall_elem in IH, Hv. by apply IH, Hv. }
    destruct (reads_members (m :: ms) [] r Hnd Hk Hrb) as [f E]; [done|]. exists (S f).
    cbn [stringify]. change (js "{") with [123]. change (js "}") with [125]. rewrite <- !app_assoc.
    cbn [app parse_value skip_ws is_json_ws N.eqb Pos.eqb orb].
    assert (Hq : exists t, join (js ",") (List.map (fun m => quote m.1 ++ js ":" ++ stringify m.2) (m :: ms)) ++ 125 :: r = 34 :: t).
    { cbn [List.map]. destruct ms as [|m' ms]; [by eexists|]. cbn [List.map]. rewrite join_cons by done. by eexists. }
    destruct Hq as [t Et]. rewrite Et in E |- *. cbn [skip_ws is_json_ws N.eqb Pos.eqb orb]. exact E.
Qed.

(** JSON.parse undoes JSON.stringify on every value whose strings are 16-bit
    units, whose numerals are natural numbers and whose objects repeat no name. *)
Lemma json_roundtrip v : writable v -> parse (stringify v) = Some v.
Proof.
  intros Hw. destruct (writable_reads v Hw []) as [f E]; [done|]. rewrite app_nil_r in E.
  by apply (parse_complete f _ _ []).
Qed.
