(* ===== verification/Regex.v ===== *)
(** * Regular expressions of the sources

    The sources test strings with anchored regular expressions without the
    [m] and [g] flags, so [re.test(s)] is membership of [s] in a language.
    Expressions are given by their abstract syntax, with conjunction and
    complement for the lookaheads that start an expression; [matches] decides
    membership by Brzozowski derivatives and [matches_spec] proves that it
    agrees with the language.  [enum] lists a finite language, so that a
    property of every accepted string can be evaluated. *)

From S2P Require Import Prelude JsString.

(** ** Syntax *)

(** A character class: inclusive ranges of code units, possibly negated. *)
Inductive re :=
| Void
| Eps
| Cls (neg : bool) (ranges : list (N * N))
| Cat (r1 r2 : re)
| Alt (r1 r2 : re)
| And (r1 r2 : re)
| Not (r : re)
| Rep (r : re) (least : nat) (extra : option nat).

Definition in_range (c : N) (p : N * N) : bool := ((p.1 <=? c) && (c <=? p.2))%N.
Definition in_class (neg : bool) (ranges : list (N * N)) (c : N) : bool :=
  xorb neg (existsb (in_range c) ranges).

(** ** Abbreviations with the source's spelling *)

Definition rng (a b : string) : N * N :=
  match js a, js b with x :: _, y :: _ => (x, y) | _, _ => (1%N, 0%N) end.
(** The units of a literal, as one-unit ranges. *)
Definition ones (s : string) : list (N * N) := map (fun c => (c, c)) (js s).

Definition set (rs : list (N * N)) : re := Cls false rs.          (* [...] *)
Definition nset (rs : list (N * N)) : re := Cls true rs.          (* [^...] *)
Definition any_unit : re := Cls true [].                          (* [^] *)
Definition dot : re := nset [(10, 10); (13, 13); (8232, 8233)]%N. (* . *)
Definition lit (s : string) : re := fold_right (fun c r => Cat (Cls false [(c, c)]) r) Eps (js s).
Definition digit : re := set [(48, 57)%N].                        (* \d *)
Definition anything : re := Rep any_unit 0 None.
Definition opt (r : re) : re := Rep r 0 (Some 1).
Definition many (r : re) : re := Rep r 0 None.
Definition plus (r : re) : re := Rep r 1 None.
(** [r{m,n}] and [r{n}]. *)
Definition rep (r : re) (m n : nat) : re := Rep r m (Some (n - m)).
Definition times (r : re) (n : nat) : re := Rep r n (Some 0).
Definition alts (rs : list re) : re := fold_right Alt Void rs.
(** A lookahead at the start of an anchored expression. *)
Definition ahead (r body : re) : re := And r body.
Definition not_ahead (r body : re) : re := And (Not r) body.

Infix "⋅" := Cat (at level 41, right associativity) : panel_scope.
Infix "∥" := Alt (at level 51, right associativity) : panel_scope.

(** ** Language *)

Fixpoint lang (r : re) (s : jsstr) : Prop :=
  match r with
  | Void => False
  | Eps => s = []
  | Cls neg rs => exists c, s = [c] /\ in_class neg rs c = true
  | Cat r1 r2 => exists a b, s = a ++ b /\ lang r1 a /\ lang r2 b
  | Alt r1 r2 => lang r1 s \/ lang r2 s
  | And r1 r2 => lang r1 s /\ lang r2 s
  | Not r => ~ lang r s
  | Rep r lo ex =>
      exists ss : list jsstr,
        s = concat ss /\ Forall (lang r) ss /\ lo <= length ss /\
        match ex with Some k => length ss <= lo + k | None => True end
  end.

(** ** Matching by derivatives *)

Fixpoint nullable (r : re) : bool :=
  match r with
  | Void => false
  | Eps => true
  | Cls _ _ => false
  | Cat r1 r2 => nullable r1 && nullable r2
  | Alt r1 r2 => nullable r1 || nullable r2
  | And r1 r2 => nullable r1 && nullable r2
  | Not r => negb (nullable r)
  | Rep r lo _ => (lo =? 0) || nullable r
  end.

(** Constructors that keep derivatives small. *)
Definition cat (r1 r2 : re) : re :=
  match r1 with
  | Void => Void
  | Eps => r2
  | _ => match r2 with Void => Void | _ => Cat r1 r2 end
  end.
Definition alt (r1 r2 : re) : re :=
  match r1 with
  | Void => r2
  | _ => match r2 with Void => r1 | _ => Alt r1 r2 end
  end.

Fixpoint deriv (c : N) (r : re) : re :=
  match r with
  | Void | Eps => Void
  | Cls neg rs => if in_class neg rs c then Eps else Void
  | Cat r1 r2 =>
      if nullable r1 then alt (cat (deriv c r1) r2) (deriv c r2)
      else cat (deriv c r1) r2
  | Alt r1 r2 => alt (deriv c r1) (deriv c r2)
  | And r1 r2 => And (deriv c r1) (deriv c r2)
  | Not r => Not (deriv c r)
  | Rep r lo ex =>
      match lo, ex with
      | S k, _ => cat (deriv c r) (Rep r k ex)
      | O, None => cat (deriv c r) (Rep r 0 None)
      | O, Some (S k) => cat (deriv c r) (Rep r 0 (Some k))
      | O, Some O => Void
      end
  end.

(** [re.test(s)]. *)
Fixpoint matches (r : re) (s : jsstr) : bool :=
  match s with
  | [] => nullable r
  | c :: s' => matches (deriv c r) s'
  end.

(** ** Correctness of the matcher *)

Lemma cat_lang r1 r2 s : lang (cat r1 r2) s <-> lang (Cat r1 r2) s.
Proof.
  assert (Hv : forall r, lang (Cat r Void) s <-> lang Void s) by (intros r; simpl; split; [intros (? & ? & ? & ? & []) | intros []]).
  destruct r1; [| |destruct r2; try reflexivity; symmetry; apply Hv..].
  - simpl. split; [intros [] | intros (? & ? & ? & [] & ?)].
  - simpl. split; [intros H; by exists [], s | intros (a & b & -> & -> & H); done].
Qed.

Lemma alt_lang r1 r2 s : lang (alt r1 r2) s <-> lang (Alt r1 r2) s.
Proof. destruct r1, r2; simpl; tauto. Qed.

Lemma concat_nil_Forall {A} (ss : list (list A)) :
  [] = concat ss -> Forall (fun s => s = []) ss.
Proof.
  induction ss as [|s ss IH]; simpl; intros H; [constructor|].
  symmetry in H. apply app_eq_nil in H as [-> H]. by constructor; [|apply IH].
Qed.

Lemma nullable_spec r : nullable r = true <-> lang r [].
Proof.
  induction r as [| |neg rs|r1 IH1 r2 IH2|r1 IH1 r2 IH2|r1 IH1 r2 IH2|r IH|r IH lo ex]; simpl.
  - done.
  - done.
  - split; [done|]. by intros (c & ? & _).
  - rewrite andb_true_iff, IH1, IH2. split.
    + intros [? ?]. by exists [], [].
    + intros (a & b & E & Ha & Hb). symmetry in E. by apply app_eq_nil in E as [-> ->].
  - by rewrite orb_true_iff, IH1, IH2.
  - by rewrite andb_true_iff, IH1, IH2.
  - rewrite negb_true_iff, <- IH. destruct (nullable r); split; congruence.
  - rewrite orb_true_iff, Nat.eqb_eq, IH. split.
    + intros [->|H].
      * exists []. split; [done|]. split; [constructor|]. simpl. by destruct ex; [lia|].
      * exists (repeat [] lo). rewrite repeat_length. split; [|split; [|split]]; [..|lia|].
        -- clear. induction lo; simpl; done.
        -- clear -H. induction lo; simpl; constructor; done.
        -- destruct ex; [lia|done].
    + intros (ss & E & Hss & Hlo & _). destruct ss as [|s ss]; [left; simpl in Hlo; lia|].
      right. apply concat_nil_Forall in E. inversion_clear E; subst. by inversion Hss.
Qed.

(** Pull the first non-empty piece of a repetition to the front. *)
Lemma concat_first (P : jsstr -> Prop) (ss : list jsstr) c s :
  c :: s = concat ss -> Forall P ss ->
  exists a ss', s = a ++ concat ss' /\ P (c :: a) /\ Forall P ss' /\ length ss = S (length ss').
Proof.
  induction ss as [|w ss IH]; [done|]. intros E H. inversion_clear H as [|? ? Hw Hss].
  destruct w as [|d w].
  - destruct (IH E Hss) as (a & ss' & -> & Ha & Hss' & Hl).
    exists a, ([] :: ss'). simpl. split; [done|]. split; [done|]. split; [by constructor|lia].
  - simpl in E. injection E as <- ->. by exists w, ss.
Qed.

Lemma deriv_rep_iff r (IH : forall c s, lang (deriv c r) s <-> lang r (c :: s)) c s lo ex lo' ex' :
  (forall n, (lo <= S n /\ match ex with Some k => S n <= lo + k | None => True end) <->
             (lo' <= n /\ match ex' with Some k => n <= lo' + k | None => True end)) ->
  lang (Cat (deriv c r) (Rep r lo' ex')) s <-> lang (Rep r lo ex) (c :: s).
Proof.
  intros Hn. simpl. split.
  - intros (a & b & -> & Ha & ss & -> & Hss & Hl). apply IH in Ha. apply Hn in Hl.
    exists ((c :: a) :: ss). simpl. split; [done|]. split; [by constructor|done].
  - intros (ss & E & Hss & Hl). destruct (concat_first _ _ _ _ E Hss) as (a & ss' & -> & Ha & Hss' & Hlen).
    rewrite Hlen in Hl. apply Hn in Hl. exists a, (concat ss'). split; [done|].
    split; [by apply IH|]. by exists ss'.
Qed.

Lemma deriv_spec r c s : lang (deriv c r) s <-> lang r (c :: s).
Proof.
  revert c s.
  induction r as [| |neg rs|r1 IH1 r2 IH2|r1 IH1 r2 IH2|r1 IH1 r2 IH2|r IH|r IH lo ex];
    intros c s; cbn [deriv].
  - done.
  - simpl. split; done.
  - destruct (in_class neg rs c) eqn:E; simpl.
    + split; [intros ->; by exists c | by intros (d & [= -> ->] & _)].
    + split; [done|]. intros (d & [= -> ->] & H). congruence.
  - assert (Hcat : lang (Cat (deriv c r1) r2) s <->
        exists a b, c :: s = (c :: a) ++ b /\ lang r1 (c :: a) /\ lang r2 b).
    { simpl. split; intros (a & b & E & Ha & Hb); exists a, b.
      - subst. by rewrite <- IH1.
      - injection E as ->. by rewrite IH1. }
    assert (Hsplit : lang (Cat r1 r2) (c :: s) <->
        (lang r1 [] /\ lang r2 (c :: s)) \/
        exists a b, c :: s = (c :: a) ++ b /\ lang r1 (c :: a) /\ lang r2 b).
    { simpl. split.
      - intros ([|d a] & b & E & Ha & Hb); simpl in E; [subst; by left|].
        injection E as <- ->. right. by exists a, b.
      - intros [[Ha Hb]|(a & b & E & Ha & Hb)]; [by exists [], (c :: s)|].
        by exists (c :: a), b. }
    rewrite Hsplit, <- Hcat. destruct (nullable r1) eqn:En.
    + rewrite alt_lang. change (lang (Alt ?x ?y) s) with (lang x s \/ lang y s).
      rewrite cat_lang, IH2. apply nullable_spec in En. tauto.
    + rewrite cat_lang. split; [by right|]. intros [[Ha _]|H]; [|done].
      apply nullable_spec in Ha. congruence.
  - rewrite alt_lang. simpl. by rewrite IH1, IH2.
  - simpl. by rewrite IH1, IH2.
  - simpl. by rewrite IH.
  - destruct lo as [|k].
    + destruct ex as [[|k]|].
      * split; [done|]. intros (ss & E & _ & _ & Hl).
        destruct ss; [done|simpl in Hl; lia].
      * rewrite cat_lang. apply deriv_rep_iff; [done|]. intros n; lia.
      * rewrite cat_lang. apply deriv_rep_iff; [done|]. intros n; split; split; done || lia.
    + rewrite cat_lang. apply deriv_rep_iff; [done|]. intros n; destruct ex; lia.
Qed.

(** The matcher decides the language. *)
Lemma matches_spec r s : matches r s = true <-> lang r s.
Proof.
  revert r. induction s as [|c s IH]; intros r; simpl; [apply nullable_spec|].
  by rewrite IH, deriv_spec.
Qed.

Lemma matches_false r s : matches r s = false <-> ~ lang r s.
Proof. rewrite <- matches_spec. destruct (matches r s); split; congruence. Qed.

#[export] Instance lang_dec r s : Decision (lang r s).
Proof.
  destruct (matches r s) eqn:E; [left; by apply matches_spec | right].
  by apply matches_false in E.
Defined.

(** Two expressions with the same language accept the same strings. *)
Definition re_equiv (r1 r2 : re) : Prop := forall s, lang r1 s <-> lang r2 s.

#[export] Instance re_equiv_equivalence : Equivalence re_equiv.
Proof.
  split.
  - by intros r s.
  - intros r1 r2 H s. by rewrite (H s).
  - intros r1 r2 r3 H1 H2 s. by rewrite (H1 s), (H2 s).
Qed.

#[export] Instance matches_proper : Proper (re_equiv ==> eq ==> eq) matches.
Proof.
  intros r1 r2 H s ? <-. apply eq_true_iff_eq. by rewrite !matches_spec, (H s).
Qed.

(** ** Finite languages *)

Definition range_units (p : N * N) : list N :=
  map (fun i => p.1 + N.of_nat i)%N (seq 0 (N.to_nat (p.2 + 1 - p.1))).

Definition prods (l1 l2 : list jsstr) : list jsstr :=
  flat_map (fun a => map (app a) l2) l1.

Fixpoint powers (l : list jsstr) (n : nat) : list jsstr :=
  match n with O => [[]] | S k => prods l (powers l k) end.

(** The words of an expression whose language is finite by its shape. *)
Fixpoint enum (r : re) : option (list jsstr) :=
  match r with
  | Void => Some []
  | Eps => Some [[]]
  | Cls false rs => Some (map (fun c => [c]) (flat_map range_units rs))
  | Cls true _ => None
  | Cat r1 r2 =>
      match enum r1, enum r2 with Some l1, Some l2 => Some (prods l1 l2) | _, _ => None end
  | Alt r1 r2 =>
      match enum r1, enum r2 with Some l1, Some l2 => Some (l1 ++ l2) | _, _ => None end
  | And r1 r2 => filter (fun s => Is_true (matches r2 s)) <$> enum r1
  | Not _ => None
  | Rep r lo (Some k) =>
      match enum r with Some l => Some (flat_map (powers l) (seq lo (S k))) | None => None end
  | Rep _ _ None => None
  end.

Lemma elem_of_flat_map {A B} (f : A -> list B) l y :
  y ∈ flat_map f l <-> exists x, x ∈ l /\ y ∈ f x.
Proof.
  rewrite list_elem_of_In, in_flat_map. split; intros (x & ? & ?); exists x;
    (split; by apply list_elem_of_In).
Qed.

Lemma elem_of_map {A B} (f : A -> B) l y : y ∈ map f l <-> exists x, f x = y /\ x ∈ l.
Proof.
  rewrite list_elem_of_In, in_map_iff. split; intros (x & ? & ?); exists x;
    (split; [done|by apply list_elem_of_In]).
Qed.

Lemma elem_of_seq_iff i a n : i ∈ seq a n <-> a <= i < a + n.
Proof. by rewrite list_elem_of_In, in_seq. Qed.

Lemma range_units_spec p c : c ∈ range_units p <-> in_range c p = true.
Proof.
  unfold range_units, in_range. rewrite elem_of_map, andb_true_iff, !N.leb_le. split.
  - intros (i & <- & Hi). apply elem_of_seq_iff in Hi. lia.
  - intros [H1 H2]. exists (N.to_nat (c - p.1)). split; [lia|]. apply elem_of_seq_iff. lia.
Qed.

Lemma prods_spec l1 l2 s :
  s ∈ prods l1 l2 <-> exists a b, s = a ++ b /\ a ∈ l1 /\ b ∈ l2.
Proof.
  unfold prods. rewrite elem_of_flat_map. split.
  - intros (a & Ha & H). apply elem_of_map in H as (b & <- & Hb). eauto.
  - intros (a & b & -> & Ha & Hb). exists a. split; [done|]. apply elem_of_map. eauto.
Qed.

Lemma powers_spec l n s :
  s ∈ powers l n <-> exists ss, s = concat ss /\ Forall (fun w => w ∈ l) ss /\ length ss = n.
Proof.
  revert s. induction n as [|n IH]; intros s; cbn [powers].
  - rewrite list_elem_of_singleton. split.
    + intros ->. by exists [].
    + by intros ([|] & -> & _ & [=]).
  - rewrite prods_spec. split.
    + intros (a & b & -> & Ha & (ss & -> & Hss & <-)%IH).
      exists (a :: ss). split; [done|]. by split; [constructor|].
    + intros ([|a ss] & -> & Hss & [= <-]). inversion_clear Hss as [|? ? Ha Hss'].
      exists a, (concat ss). split; [done|]. split; [done|]. apply IH. by exists ss.
Qed.

(** The listed words are the language. *)
Lemma enum_spec r l s : enum r = Some l -> (lang r s <-> s ∈ l).
Proof.
  revert l s.
  induction r as [| |neg rs|r1 IH1 r2 IH2|r1 IH1 r2 IH2|r1 IH1 r2 IH2|r IH|r IH lo ex];
    intros l s; cbn [enum]; intros Hl.
  - injection Hl as <-. simpl. by rewrite elem_of_nil.
  - injection Hl as <-. simpl. by rewrite list_elem_of_singleton.
  - destruct neg; [done|]. injection Hl as <-. rewrite elem_of_map. simpl.
    setoid_rewrite elem_of_flat_map. setoid_rewrite range_units_spec.
    unfold in_class. split.
    + intros (c & -> & H). exists c. split; [done|]. by apply existsb_elem.
    + intros (c & <- & H). exists c. split; [done|]. by apply existsb_elem.
  - destruct (enum r1) as [l1|]; [|done]. destruct (enum r2) as [l2|]; [|done].
    injection Hl as <-. rewrite prods_spec. simpl.
    by setoid_rewrite (IH1 _ _ eq_refl); setoid_rewrite (IH2 _ _ eq_refl).
  - destruct (enum r1) as [l1|]; [|done]. destruct (enum r2) as [l2|]; [|done].
    injection Hl as <-. rewrite elem_of_app. simpl. by rewrite (IH1 l1), (IH2 l2).
  - destruct (enum r1) as [l1|]; [|done]. injection Hl as <-.
    rewrite list_elem_of_filter, Is_true_true, matches_spec. simpl. rewrite (IH1 l1) by done. tauto.
  - done.
  - destruct ex as [k|]; [|done]. destruct (enum r) as [lr|]; [|done].
    apply (inj Some) in Hl. subst l.
    rewrite elem_of_flat_map. setoid_rewrite powers_spec. cbn [lang]. split.
    + intros (ss & -> & Hss & Hlo & Hk). exists (length ss).
      split; [apply elem_of_seq_iff; lia|]. exists ss. split; [done|].
      split; [|done]. eapply Forall_impl; [|exact Hss]. intros w Hw. by apply (IH lr).
    + intros (n & Hn & ss & -> & Hss & <-). apply elem_of_seq_iff in Hn.
      exists ss. split; [done|]. split; [|lia].
      eapply Forall_impl; [|exact Hss]. intros w Hw. by apply (IH lr).
Qed.

(** A decidable property of every word of a finite language. *)
Lemma enum_forall r (f : jsstr -> bool) :
  match enum r with Some l => forallb f l | None => false end = true ->
  forall s, lang r s -> f s = true.
Proof.
  destruct (enum r) as [l|] eqn:E; [|done]. rewrite forallb_elem. intros H s Hs.
  apply H. by apply (enum_spec r).
Qed.

(** ** Inversion of common shapes *)

Lemma lang_set rs s : lang (set rs) s <-> exists c, s = [c] /\ existsb (in_range c) rs = true.
Proof. done. Qed.

Lemma lang_cat r1 r2 s : lang (r1 ⋅ r2) s <-> exists a b, s = a ++ b /\ lang r1 a /\ lang r2 b.
Proof. done. Qed.

Lemma lang_alt r1 r2 s : lang (r1 ∥ r2) s <-> lang r1 s \/ lang r2 s.
Proof. done. Qed.

Lemma lang_alts rs s : lang (alts rs) s <-> exists r, r ∈ rs /\ lang r s.
Proof.
  induction rs as [|r rs IH]; simpl.
  - split; [done|]. intros (? & ?%elem_of_nil & _). done.
  - rewrite IH. split.
    + intros [H|(r' & ? & ?)]; [exists r; split; [left|]|exists r'; split; [right|]]; done.
    + intros (r' & [->|H]%elem_of_cons & ?); eauto.
Qed.

Lemma lang_lit w s : lang (lit w) s <-> s = js w.
Proof.
  unfold lit. revert s. induction (js w) as [|c l IH]; intros s; simpl; [done|]. split.
  - intros (a & b & -> & (d & -> & Hd) & ->%IH). unfold in_class, in_range in Hd. simpl in Hd.
    rewrite orb_false_r, andb_true_iff, !N.leb_le in Hd. by replace d with c by lia.
  - intros ->. exists [c], l. split; [done|]. split; [|by apply IH]. exists c.
    split; [done|]. unfold in_class, in_range. simpl. by rewrite !N.leb_refl.
Qed.

(** A repeated class: the length bounds and the class of every unit. *)
Lemma lang_rep_cls neg rs lo ex s :
  lang (Rep (Cls neg rs) lo ex) s <->
  Forall (fun c => in_class neg rs c = true) s /\ lo <= length s /\
  match ex with Some k => length s <= lo + k | None => True end.
Proof.
  assert (Hone : forall ss, Forall (lang (Cls neg rs)) ss ->
      Forall (fun c => in_class neg rs c = true) (concat ss) /\ length (concat ss) = length ss).
  { intros ss H. induction H as [|w ss (c & -> & Hc) _ [IH1 IH2]]; simpl; [done|].
    split; [by constructor|lia]. }
  split.
  - intros (ss & -> & Hss & Hl). destruct (Hone ss Hss) as [H1 H2]. by rewrite H2.
  - intros (Hs & Hl). exists (map (fun c => [c]) s). rewrite length_map. split.
    { clear. induction s; simpl; congruence. }
    split; [|done]. clear Hl. induction Hs; simpl; constructor; eauto.
Qed.

Lemma lang_opt r s : lang (opt r) s <-> s = [] \/ lang r s.
Proof.
  unfold opt. simpl. split.
  - intros (ss & -> & Hss & _ & Hl). destruct ss as [|w [|w' ss]]; [by left| |simpl in Hl; lia].
    right. inversion_clear Hss. simpl. by rewrite app_nil_r.
  - intros [->|H]; [exists []|exists [s]]; simpl; (split; [by rewrite ?app_nil_r|]);
      (split; [by repeat constructor|lia]).
Qed.

Lemma lang_anything s : lang anything s.
Proof.
  apply lang_rep_cls. split; [|split; [simpl; lia|done]].
  apply Forall_elem. intros c _. done.
Qed.

Lemma lang_times_0 r s : lang (times r 0) s <-> s = [].
Proof.
  unfold times; simpl. split.
  - intros (ss & -> & _ & _ & Hl). destruct ss; [done|simpl in Hl; lia].
  - intros ->. exists []. split; [done|]. split; [constructor|simpl; lia].
Qed.

Lemma lang_times_S r n s : lang (times r (S n)) s <-> lang (r ⋅ times r n) s.
Proof.
  unfold times; simpl. split.
  - intros (ss & -> & Hss & H1 & H2). destruct ss as [|w ss]; simpl in *; [lia|].
    inversion_clear Hss. exists w, (concat ss). split; [done|]. split; [done|].
    exists ss. split; [done|]. split; [done|lia].
  - intros (a & b & -> & Ha & ss & -> & Hss & H1 & H2). exists (a :: ss).
    split; [done|]. split; [by constructor|simpl; lia].
Qed.

(** A one-unit literal between two expressions. *)
Lemma lang_sep r1 w r2 s c :
  js w = [c] ->
  lang (r1 ⋅ lit w ⋅ r2) s <-> exists a b, s = a ++ c :: b /\ lang r1 a /\ lang r2 b.
Proof.
  intros Hw. rewrite lang_cat. split.
  - intros (a & x & -> & Ha & Hx). apply lang_cat in Hx as (l & b & -> & Hl & Hb).
    apply lang_lit in Hl as ->. rewrite Hw. by exists a, b.
  - intros (a & b & -> & Ha & Hb). exists a, (c :: b). split; [done|]. split; [done|].
    apply lang_cat. exists [c], b. split; [done|]. split; [|done]. by apply lang_lit.
Qed.
