(* ===== verification/Patterns.v ===== *)
(** * The regular expressions of the form validators

    src/frontend/src/global/form-rules.ts and src/frontend/src/utils/validate.ts:
    one expression per literal, with the source's alternatives in its order. *)

From S2P Require Import Prelude JsString Regex.

(** ** Classes *)

Definition r_09 := rng "0" "9".
Definition r_az := rng "a" "z".
Definition r_AZ := rng "A" "Z".
Definition r_af := rng "a" "f".
Definition r_AF := rng "A" "F".
Definition alnum := [r_az; r_AZ; r_09].
(** \u4e00-\u9fa5 *)
Definition r_cjk : N * N := (19968, 40869)%N.
(** \w *)
Definition word_cls := [r_az; r_AZ; r_09] ++ ones "_".
(** \s, and \S as its complement *)
Definition ws_cls : list (N * N) :=
  [(9, 13); (32, 32); (160, 160); (5760, 5760); (8192, 8202); (8232, 8233);
   (8239, 8239); (8287, 8287); (12288, 12288); (65279, 65279)]%N.
Definition non_ws : re := nset ws_cls.

(** ** Internet addresses *)

(** \d{1,2}|1\d\d|2[0-4]\d|25[0-5] *)
Definition octet_lax : re :=
  rep digit 1 2 ∥ (lit "1" ⋅ digit ⋅ digit) ∥ (lit "2" ⋅ set [rng "0" "4"] ⋅ digit)
  ∥ (lit "25" ⋅ set [rng "0" "5"]).

Definition re_ip : re :=
  octet_lax ⋅ lit "." ⋅ octet_lax ⋅ lit "." ⋅ octet_lax ⋅ lit "." ⋅ octet_lax.

(** IPv4SegmentFormat, IPv4AddressFormat, IPv6SegmentFormat *)
Definition IPv4SegmentFormat : re :=
  digit ∥ (set [rng "1" "9"] ⋅ digit) ∥ (lit "1" ⋅ digit ⋅ digit)
  ∥ (lit "2" ⋅ set [rng "0" "4"] ⋅ digit) ∥ (lit "25" ⋅ set [rng "0" "5"]).
Definition IPv4AddressFormat : re :=
  times (IPv4SegmentFormat ⋅ lit ".") 3 ⋅ IPv4SegmentFormat.
Definition IPv6SegmentFormat : re := rep (set [r_09; r_af; r_AF]) 1 4.

Definition IPv6AddressRegExp : re :=
  let h := IPv6SegmentFormat in
  let v4 := IPv4AddressFormat in
  let hc n := times (h ⋅ lit ":") n in
  let ch m n := rep (lit ":" ⋅ h) m n in
  alts [ hc 7 ⋅ (h ∥ lit ":");
         hc 6 ⋅ (v4 ∥ (lit ":" ⋅ h) ∥ lit ":");
         hc 5 ⋅ ((lit ":" ⋅ v4) ∥ ch 1 2 ∥ lit ":");
         hc 4 ⋅ ((ch 0 1 ⋅ lit ":" ⋅ v4) ∥ ch 1 3 ∥ lit ":");
         hc 3 ⋅ ((ch 0 2 ⋅ lit ":" ⋅ v4) ∥ ch 1 4 ∥ lit ":");
         hc 2 ⋅ ((ch 0 3 ⋅ lit ":" ⋅ v4) ∥ ch 1 5 ∥ lit ":");
         hc 1 ⋅ ((ch 0 4 ⋅ lit ":" ⋅ v4) ∥ ch 1 6 ∥ lit ":");
         lit ":" ⋅ ((ch 0 5 ⋅ lit ":" ⋅ v4) ∥ ch 1 7 ∥ lit ":") ]
  ⋅ opt (lit "%" ⋅ plus (set (alnum ++ ones "-.:"))).

(** 25[0-5]|2[0-4][0-9]|[01]?[0-9][0-9]? *)
Definition octet_01 : re :=
  (lit "25" ⋅ set [rng "0" "5"]) ∥ (lit "2" ⋅ set [rng "0" "4"] ⋅ digit)
  ∥ (opt (set (ones "01")) ⋅ digit ⋅ opt digit).
Definition ipv4_01 : re := times (octet_01 ⋅ lit ".") 3 ⋅ octet_01.

(** ipv6Regex of checkDomainOrIP *)
Definition octet_v4o : re :=
  (lit "25" ⋅ set [rng "0" "5"])
  ∥ (opt ((lit "2" ⋅ set [rng "0" "4"]) ∥ (opt (lit "1") ⋅ digit)) ⋅ digit).
Definition ipv6_domainOrIP : re :=
  let h := IPv6SegmentFormat in
  let v4 := times (octet_v4o ⋅ lit ".") 3 ⋅ octet_v4o in
  let hc m n := rep (h ⋅ lit ":") m n in
  let ch m n := rep (lit ":" ⋅ h) m n in
  alts [ times (h ⋅ lit ":") 7 ⋅ h;
         hc 1 7 ⋅ lit ":";
         hc 1 6 ⋅ lit ":" ⋅ h;
         hc 1 5 ⋅ ch 1 2;
         hc 1 4 ⋅ ch 1 3;
         hc 1 3 ⋅ ch 1 4;
         hc 1 2 ⋅ ch 1 5;
         h ⋅ lit ":" ⋅ ch 1 6;
         lit ":" ⋅ (ch 1 7 ∥ lit ":");
         lit "fe80:" ⋅ rep (lit ":" ⋅ rep (set [r_09; r_af; r_AF]) 0 4) 0 4 ⋅ lit "%" ⋅ plus (set alnum);
         lit "::" ⋅ opt (lit "ffff" ⋅ opt (lit ":" ⋅ rep (lit "0") 1 4) ⋅ lit ":") ⋅ v4;
         hc 1 4 ⋅ lit ":" ⋅ v4 ].

(** ipv4 and ipv6 of checkIpv4orV6 *)
Definition octet_strict : re :=
  (lit "25" ⋅ set [rng "0" "5"]) ∥ (lit "2" ⋅ set [rng "0" "4"] ⋅ digit)
  ∥ (lit "1" ⋅ digit ⋅ digit) ∥ (opt (set [rng "1" "9"]) ⋅ digit).
Definition ipv4_strict : re := octet_strict ⋅ times (lit "." ⋅ octet_strict) 3.
Definition ipv6_simple : re :=
  let h := IPv6SegmentFormat in
  alts [ times (h ⋅ lit ":") 7 ⋅ h; rep (h ⋅ lit ":") 1 7 ⋅ lit ":"; lit ":" ⋅ rep (lit ":" ⋅ h) 1 7 ].

(** ** Host names *)

Definition re_host : re :=
  ahead (rep dot 3 255)
    (set alnum ⋅ rep (set (alnum ++ ones "-")) 0 62
     ⋅ plus (lit "." ⋅ set alnum ⋅ rep (set (alnum ++ ones "-")) 0 62)).

(** With the flag i: the ASCII letters of both cases. *)
Definition domain_label_i : re :=
  set alnum ⋅ opt (rep (set (alnum ++ ones "-")) 0 61 ⋅ set alnum).
Definition domain_i : re :=
  plus (domain_label_i ⋅ lit ".") ⋅ set alnum ⋅ rep (set (alnum ++ ones "-")) 0 61 ⋅ set alnum.
Definition domainRegex : re := opt (lit "*.") ⋅ domain_i.

Definition domain_word : list (N * N) := word_cls ++ [r_cjk] ++ ones "-".
Definition re_domain : re :=
  rep (rep (set (domain_word ++ ones "*")) 1 100 ⋅ lit ".") 1 10
  ⋅ (rep (set domain_word) 1 24 ∥ (rep (set domain_word) 1 24 ⋅ lit "." ⋅ rep (set domain_word) 1 24)).
Definition re_domainWithPort : re := re_domain ⋅ opt (lit ":" ⋅ rep digit 1 5).

(** ** Numbers and ports *)

Definition re_port : re :=
  alts [ set [rng "1" "9"] ⋅ rep digit 0 3;
         set [rng "1" "5"] ⋅ times digit 4;
         lit "6" ⋅ set [rng "0" "4"] ⋅ times digit 3;
         lit "65" ⋅ set [rng "0" "4"] ⋅ times digit 2;
         lit "655" ⋅ set [rng "0" "2"] ⋅ digit;
         lit "6553" ⋅ set [rng "0" "5"] ].

Definition re_urlAndPort : re :=
  opt (lit "http" ⋅ opt (lit "s") ⋅ lit "://")
  ⋅ (lit "localhost" ∥ (many (plus (set (alnum ++ ones "_-")) ⋅ lit ".") ⋅ plus (set (alnum ++ ones "_-"))))
  ⋅ opt (lit ":" ⋅ re_port)
  ⋅ opt (lit "/" ⋅ many non_ws).

Definition re_integer : re := set [rng "1" "9"] ⋅ many digit.
Definition re_integer0 : re := many digit.
Definition re_float : re := plus digit ⋅ opt (lit "." ⋅ plus digit).

(** ** Names and passwords *)

Definition re_complexity : re :=
  not_ahead (plus digit)
    (not_ahead (plus (set [r_az; r_AZ]))
      (not_ahead (plus (nset [r_09; r_az; r_AZ])) (rep dot 8 30))).
Definition re_name : re := set (alnum ++ [r_cjk]) ⋅ rep (set (alnum ++ ones "_.-" ++ [r_cjk])) 0 127.
Definition re_userName : re := rep (set (alnum ++ ones "_" ++ [r_cjk])) 3 30.
Definition re_simpleName : re := set alnum ⋅ rep (set word_cls) 2 29.
Definition re_simplePassword : re := set alnum ⋅ rep (set word_cls) 0 29.
Definition re_authBasicPassword : re := rep (set (alnum ++ ones "_-.@$!%*?&")) 1 72.
Definition re_dbName : re := set (alnum ++ [r_cjk]) ⋅ rep (set (alnum ++ ones "_.-" ++ [r_cjk])) 0 63.
Definition re_composeName : re := set [r_az; r_09] ⋅ rep (set ([r_az; r_09] ++ ones "_-")) 0 255.
Definition re_imageName : re := set alnum ⋅ rep (set (alnum ++ ones ":@_/.-")) 0 255.
Definition re_volumeName : re := set alnum ⋅ rep (set (alnum ++ ones "_.-")) 1 30.
(** 34 is the double quote. *)
Definition re_linuxName : re := rep (nset (ones "/\'|<>()?*" ++ [(34, 34)%N])) 1 128.
Definition re_supervisorName : re := set alnum ⋅ rep (set (alnum ++ ones "_-")) 0 127.
Definition re_databaseName : re := set alnum ⋅ rep (set word_cls) 0 30.
Definition re_appName : re :=
  not_ahead (set (ones "_-") ⋅ anything) (rep (set (alnum ++ ones "_-")) 1 29 ⋅ set alnum).
Definition re_alias : re :=
  not_ahead (set (ones "-_") ⋅ anything) (rep (set (alnum ++ ones "._-")) 0 126 ⋅ set (alnum ++ ones ".")).
Definition re_vmName : re := set alnum ⋅ rep (set (alnum ++ ones "._-")) 0 63.
Definition re_vmNetwork : re := set alnum ⋅ rep (set (alnum ++ ones "._:-")) 0 63.
Definition re_paramCommon : re := set alnum ⋅ rep (set (alnum ++ ones "._-")) 1 63.
Definition re_paramComplexity : re :=
  set alnum ⋅ rep (set (alnum ++ ones ".%@!~_-")) 4 126 ⋅ set alnum.
Definition re_doc : re := plus (set (alnum ++ [(10, 10)%N] ++ ones "./_-")).
Definition re_containerName : re := set alnum ⋅ rep (set (alnum ++ ones "_.-")) 1 127.
Definition re_disableFunctions : re := plus (set ([r_az; r_AZ] ++ ones "_,")).
Definition re_leechExts : re := plus (set (alnum ++ ones ",")).
Definition re_paramSimple : re := set [r_az; r_09] ⋅ rep (set [r_az; r_09]) 1 128.
Definition re_filePermission : re := rep (set [rng "0" "7"]) 3 4.
Definition re_phpExtensions : re := plus (set ([r_az; r_09] ++ ones ",_")).
(** Not anchored at the end. *)
Definition re_httpOrHttps : re := (lit "http" ∥ lit "https") ⋅ lit "://" ⋅ anything.
Definition re_phone : re :=
  opt ((lit "+" ∥ lit "00") ⋅ lit "86") ⋅ lit "1" ⋅ set [rng "3" "9"] ⋅ times digit 9.

(** ** CIDR prefixes *)

Definition re_cidr : re :=
  ipv4_01 ⋅ opt (lit "/" ⋅ (digit ∥ (set [rng "1" "2"] ⋅ digit) ∥ (lit "3" ⋅ set [rng "0" "2"]))).
Definition re_prefix128 : re :=
  digit ∥ (set [rng "1" "9"] ⋅ digit) ∥ (lit "1" ⋅ set [rng "0" "1"] ⋅ digit) ∥ (lit "12" ⋅ set [rng "0" "8"]).

Example re_ip_ok : matches re_ip (js "192.168.01.255") = true. Proof. vm_compute. reflexivity. Qed.
Example re_ip_256 : matches re_ip (js "192.168.1.256") = false. Proof. vm_compute. reflexivity. Qed.
Example re_ipv6_ok : matches IPv6AddressRegExp (js "fe80::1:192.168.1.1%eth0") = true.
Proof. vm_compute. reflexivity. Qed.
Example re_host_ok : matches re_host (js "panel.example.com") = true. Proof. vm_compute. reflexivity. Qed.
Example re_url_ok : matches re_urlAndPort (js "https://a.b.c:8080/x?y") = true. Proof. vm_compute. reflexivity. Qed.
Example re_password_ok : matches re_complexity (js "abc12345") = true. Proof. vm_compute. reflexivity. Qed.
Example re_password_letters : matches re_complexity (js "abcdefgh") = false. Proof. vm_compute. reflexivity. Qed.
