(* ===== verification/FormRules.v ===== *)
(** * Form validators

    src/frontend/src/global/form-rules.ts.  A validator receives the value of a
    form item and reports through a callback; [outcome] records every call it
    makes ([None] is a call without an error) or that it throws.  Messages are
    keys of the translation catalogue with their arguments. *)

From S2P Require Import Prelude JsString Regex Patterns.

#[local] Open Scope string_scope.
#[local] Open Scope list_scope.

(** ** Values, messages and outcomes *)

(** ValidatorValue: the type says string, the code also meets undefined and null. *)
Inductive value := Undefined | Null | Str (s : jsstr).

(** i18n.global.t(key, args) *)
Record message := Msg { msg_key : string; msg_args : list jsstr }.
Definition t (key : string) : message := Msg key [].

Inductive outcome :=
| Throws
| Calls (cs : list (option message)).

Definition validator := value -> outcome.

Definition accept : outcome := Calls [None].
Definition reject (m : message) : outcome := Calls [Some m].

(** value === '' || typeof value === 'undefined' || value == null *)
Definition missing (v : value) : bool :=
  match v with Undefined | Null => true | Str s => negb (truthy s) end.

(** reg.test(value): the string an expression tests; undefined and null are
    tested as their names. *)
Definition text (v : value) : jsstr :=
  match v with Undefined => js "undefined" | Null => js "null" | Str s => s end.
Definition test (r : re) (v : value) : bool := matches r (text v).
(** value !== '' *)
Definition nonempty (v : value) : bool :=
  match v with Str s => truthy s | _ => true end.

(** Some call of the validator carries an error, or it throws. *)
Definition accepts (o : outcome) : bool :=
  match o with Throws => false | Calls cs => forallb (fun c => match c with None => true | Some _ => false end) cs end.

(** ** Validators *)

(** value.indexOf throws on undefined and null. *)
Definition checkNoSpace : validator := fun v =>
  match v with
  | Str s => if has_unit 32 s then reject (t "setting.noSpace") else accept
  | _ => Throws
  end.

(** The argument lists the units a Linux name excludes; 34 is the double quote. *)
Definition linuxName_message : message :=
  Msg "commons.rule.linuxName" [js "/\:*?'" ++ [34%N] ++ js "()<>|"].

Definition checkIp : validator := fun v =>
  if missing v then reject (t "commons.rule.requiredInput")
  else if negb (test re_ip v) && nonempty v
  then reject (t "commons.rule.ip") else accept.

Definition checkIpv4 : validator := fun v =>
  if missing v then accept
  else if negb (test re_ip v) && nonempty v
  then reject (t "commons.rule.ip") else accept.

Definition checkIpV6 : validator := fun v =>
  if missing v then reject (t "commons.rule.requiredInput")
  else if negb (test IPv6AddressRegExp v) && nonempty v
  then reject (t "commons.rule.ip") else accept.

Definition checkIpV4V6OrDomain : validator := fun v =>
  if missing v then reject (t "commons.rule.requiredInput")
  else if negb (test re_host v) && negb (test IPv4AddressFormat v) && negb (test IPv6AddressRegExp v) && nonempty v
  then reject (t "commons.rule.ip") else accept.

Definition checkDomainOrIP : validator := fun v =>
  if missing v then accept
  else if test ipv4_01 v || test ipv6_domainOrIP v || test domainRegex v
  then accept else reject (t "commons.rule.domain").

Definition checkHost : validator := fun v =>
  if missing v then reject (t "commons.rule.requiredInput")
  else if negb (test re_ip v) && negb (test re_host v)
  then reject (t "commons.rule.host") else accept.

Definition checkIllegal : validator := fun v =>
  if missing v then reject (t "commons.rule.requiredInput")
  else if existsb (fun c => has_unit c (text v)) (js "&|;$'`()><") then reject (t "commons.rule.illegalInput") else accept.

Definition complexityPassword : validator := fun v =>
  if missing v then reject (t "commons.rule.complexityPassword")
  else if negb (test re_complexity v) && nonempty v
  then reject (t "commons.rule.complexityPassword") else accept.

Definition checkName : validator := fun v =>
  if missing v then reject (t "commons.rule.commonName")
  else if negb (test re_name v) && nonempty v
  then reject (t "commons.rule.commonName") else accept.

Definition checkUserName : validator := fun v =>
  if missing v then reject (t "commons.rule.userName")
  else if negb (test re_userName v) && nonempty v
  then reject (t "commons.rule.userName") else accept.

Definition checkSimpleName : validator := fun v =>
  if missing v then reject (t "commons.rule.simpleName")
  else if negb (test re_simpleName v) && nonempty v
  then reject (t "commons.rule.simpleName") else accept.

Definition checkSimplePassword : validator := fun v =>
  if missing v then reject (t "commons.rule.simplePassword")
  else if negb (test re_simplePassword v) && nonempty v
  then reject (t "commons.rule.simplePassword") else accept.

Definition checkAuthBasicPassword : validator := fun v =>
  if missing v then reject (t "commons.rule.authBasicPassword")
  else if negb (test re_authBasicPassword v)
  then reject (t "commons.rule.authBasicPassword") else accept.

Definition checkDBName : validator := fun v =>
  if missing v then reject (t "commons.rule.dbName")
  else if negb (test re_dbName v) && nonempty v
  then reject (t "commons.rule.dbName") else accept.

Definition checkComposeName : validator := fun v =>
  if missing v then reject (t "commons.rule.composeName")
  else if negb (test re_composeName v) && nonempty v
  then reject (t "commons.rule.composeName") else accept.

Definition checkImageName : validator := fun v =>
  if missing v then reject (t "commons.rule.imageName")
  else if negb (test re_imageName v) && nonempty v
  then reject (t "commons.rule.imageName") else accept.

Definition checkVolumeName : validator := fun v =>
  if missing v then reject (t "commons.rule.volumeName")
  else if negb (test re_volumeName v) && nonempty v
  then reject (t "commons.rule.volumeName") else accept.

Definition checkLinuxName : validator := fun v =>
  if missing v then reject linuxName_message
  else if negb (test re_linuxName v) && nonempty v
  then reject linuxName_message else accept.

Definition checkSupervisorName : validator := fun v =>
  if missing v then reject (t "commons.rule.supervisorName")
  else if negb (test re_supervisorName v) && nonempty v
  then reject (t "commons.rule.supervisorName") else accept.

Definition checkDatabaseName : validator := fun v =>
  if missing v then reject (t "commons.rule.databaseName")
  else if negb (test re_databaseName v) && nonempty v
  then reject (t "commons.rule.databaseName") else accept.

Definition checkAppName : validator := fun v =>
  if missing v then reject (t "commons.rule.appName")
  else if negb (test re_appName v) && nonempty v
  then reject (t "commons.rule.appName") else accept.

(** !value *)
Definition checkAlias : validator := fun v =>
  if missing v then reject (t "commons.rule.alias")
  else if negb (test re_alias v)
  then reject (t "commons.rule.alias") else accept.

Definition checkVMName : validator := fun v =>
  if missing v then reject (t "commons.rule.vmName")
  else if negb (test re_vmName v)
  then reject (t "commons.rule.vmName") else accept.

Definition checkVMNetwork : validator := fun v =>
  if missing v then reject (t "commons.rule.vmNetwork")
  else if negb (test re_vmNetwork v)
  then reject (t "commons.rule.vmNetwork") else accept.

Definition checkDomain : validator := fun v =>
  if missing v then reject (t "commons.rule.domain")
  else if negb (test re_domain v) && nonempty v
  then reject (t "commons.rule.domain") else accept.

Definition checkDomainWithPort : validator := fun v =>
  if missing v then reject (t "commons.rule.domain")
  else if negb (test re_domainWithPort v) && nonempty v
  then reject (t "commons.rule.domain") else accept.

Definition checkIntegerNumber : validator := fun v =>
  if missing v then reject (t "commons.rule.integer")
  else if negb (test re_integer v) && nonempty v
  then reject (t "commons.rule.integer") else accept.

Definition checkIntegerNumberWith0 : validator := fun v =>
  if missing v then reject (t "commons.rule.integer")
  else if negb (test re_integer0 v) && nonempty v
  then reject (t "commons.rule.integer") else accept.

Definition checkFloatNumber : validator := fun v =>
  if missing v then reject (t "commons.rule.integer")
  else if negb (test re_float v) && nonempty v
  then reject (t "commons.rule.number") else accept.

Definition checkParamCommon : validator := fun v =>
  if missing v then reject (t "commons.rule.paramName")
  else if negb (test re_paramCommon v) && nonempty v
  then reject (t "commons.rule.paramName") else accept.

Definition checkParamComplexity : validator := fun v =>
  if missing v then reject (Msg "commons.rule.paramComplexity" [js ".%@!~_-"])
  else if negb (test re_paramComplexity v) && nonempty v
  then reject (Msg "commons.rule.paramComplexity" [js ".%@!~_-"]) else accept.

Definition checkParamUrlAndPort : validator := fun v =>
  if missing v then reject (t "commons.rule.paramUrlAndPort")
  else if negb (test re_urlAndPort v) && nonempty v
  then reject (t "commons.rule.paramUrlAndPort") else accept.

Definition checkPort : validator := fun v =>
  if missing v then reject (t "commons.rule.port")
  else if negb (test re_port v) && nonempty v
  then reject (t "commons.rule.port") else accept.

Definition checkDoc : validator := fun v =>
  if missing v then reject (t "commons.rule.nginxDoc")
  else if negb (test re_doc v) && nonempty v
  then reject (t "commons.rule.nginxDoc") else accept.

Definition checkContainerName : validator := fun v =>
  if missing v then accept
  else if negb (test re_containerName v) && nonempty v
  then reject (t "commons.rule.containerName") else accept.

Definition checkDisableFunctions : validator := fun v =>
  if missing v then reject (t "commons.rule.disableFunction")
  else if negb (test re_disableFunctions v) && nonempty v
  then reject (t "commons.rule.disableFunction") else accept.

Definition checkLeechExts : validator := fun v =>
  if missing v then reject (t "commons.rule.leechExts")
  else if negb (test re_leechExts v) && nonempty v
  then reject (t "commons.rule.leechExts") else accept.

Definition checkParamSimple : validator := fun v =>
  if missing v then accept
  else if negb (test re_paramSimple v) && nonempty v
  then reject (t "commons.rule.paramSimple") else accept.

Definition checkFilePermission : validator := fun v =>
  if missing v then reject (t "commons.rule.filePermission")
  else if negb (test re_filePermission v)
  then reject (t "commons.rule.filePermission") else accept.

Definition checkPHPExtensions : validator := fun v =>
  if missing v then reject (t "commons.rule.phpExtension")
  else if negb (test re_phpExtensions v)
  then reject (t "commons.rule.phpExtension") else accept.

Definition checkHttpOrHttps : validator := fun v =>
  if missing v then reject (t "commons.rule.paramHttp")
  else if negb (test re_httpOrHttps v)
  then reject (t "commons.rule.paramHttp") else accept.

Definition checkPhone : validator := fun v =>
  if missing v then accept
  else if negb (test re_phone v) && nonempty v
  then reject (t "commons.rule.phone") else accept.

(** value === '' || value == null *)
Definition checkIpv4orV6 : validator := fun v =>
  if missing v then accept
  else if negb (test ipv4_strict v) && negb (test ipv6_simple v)
  then reject (t "commons.rule.ip") else accept.

(** ** Rules

    FormItemRule of the component library: the fields the source sets (a single
    trigger is a one-element list).  How the
    form evaluates [required], [type], [min] and [max] is the library's. *)

Record FormItemRule := {
  required : option bool;
  trigger : list string;
  rule_min : option Z;
  rule_max : option Z;
  rule_type : option string;
  rule_message : option message;
  rule_validator : option validator;
}.

Definition mk_rule (rq : option bool) (tr : list string) (vd : option validator) : FormItemRule :=
  {| required := rq; trigger := tr; rule_min := None; rule_max := None;
     rule_type := None; rule_message := None; rule_validator := vd |}.

Definition checkNumberRange (min max : Z) : FormItemRule :=
  {| required := Some false; trigger := ["blur"]; rule_min := Some min; rule_max := Some max;
     rule_type := Some "number";
     rule_message := Some (Msg "commons.rule.numberRange" [decZ min; decZ max]);
     rule_validator := None |}.

(** value.length > maxLength, on a non-negative bound. *)
Definition checkMaxLength (maxLength : nat) : FormItemRule :=
  {| required := Some false; trigger := ["blur"]; rule_min := None; rule_max := None;
     rule_type := Some "string"; rule_message := None;
     rule_validator := Some (fun v =>
       if missing v then accept
       else if maxLength <? length (text v)
       then reject (Msg "commons.rule.maxLength" [dec (N.of_nat maxLength)]) else accept) |}.

Definition rule_requiredInput : FormItemRule :=
  {| required := Some true; trigger := ["blur"]; rule_min := None; rule_max := None;
     rule_type := None; rule_message := Some (t "commons.rule.requiredInput"); rule_validator := None |}.
Definition rule_requiredSelect : FormItemRule :=
  {| required := Some true; trigger := ["change"]; rule_min := None; rule_max := None;
     rule_type := None; rule_message := Some (t "commons.rule.requiredSelect"); rule_validator := None |}.
Definition rule_requiredSelectBusiness : FormItemRule :=
  {| required := Some true; trigger := ["change"]; rule_min := Some 1%Z; rule_max := Some 65535%Z;
     rule_type := Some "number"; rule_message := Some (t "commons.rule.requiredSelect"); rule_validator := None |}.
Definition rule_noSpace := mk_rule (Some true) ["blur"] (Some checkNoSpace).
Definition rule_simpleName := mk_rule (Some true) ["blur"] (Some checkSimpleName).
Definition rule_simplePassword := mk_rule (Some true) ["blur"] (Some checkSimplePassword).
Definition rule_dbName := mk_rule (Some true) ["blur"] (Some checkDBName).
Definition rule_composeName := mk_rule (Some true) ["blur"] (Some checkComposeName).
Definition rule_imageName := mk_rule (Some true) ["blur"] (Some checkImageName).
Definition rule_volumeName := mk_rule (Some true) ["blur"] (Some checkVolumeName).
Definition rule_name := mk_rule (Some true) ["blur"] (Some checkName).
Definition rule_userName := mk_rule (Some true) ["blur"] (Some checkUserName).
Definition rule_linuxName := mk_rule (Some true) ["blur"] (Some checkLinuxName).
Definition rule_databaseName := mk_rule (Some true) ["blur"] (Some checkDatabaseName).
Definition rule_password := mk_rule None ["blur"] (Some complexityPassword).
Definition rule_email : FormItemRule :=
  {| required := Some true; trigger := ["blur"]; rule_min := None; rule_max := None;
     rule_type := Some "email"; rule_message := Some (t "commons.rule.email"); rule_validator := None |}.
Definition rule_number : FormItemRule :=
  {| required := Some true; trigger := ["blur"]; rule_min := Some 0%Z; rule_max := None;
     rule_type := Some "number"; rule_message := Some (t "commons.rule.number"); rule_validator := None |}.
Definition rule_integerNumber := mk_rule (Some true) ["blur"] (Some checkIntegerNumber).
Definition rule_integerNumberWith0 := mk_rule (Some true) ["blur"] (Some checkIntegerNumberWith0).
Definition rule_floatNumber : FormItemRule :=
  {| required := Some true; trigger := ["blur"]; rule_min := Some 0%Z; rule_max := None;
     rule_type := None; rule_message := Some (t "commons.rule.number"); rule_validator := Some checkFloatNumber |}.
Definition rule_ip := mk_rule (Some true) ["blur"] (Some checkIp).
Definition rule_ipV6 := mk_rule (Some true) ["blur"] (Some checkIpV6).
Definition rule_ipV4V6OrDomain := mk_rule (Some true) ["blur"] (Some checkIpV4V6OrDomain).
Definition rule_host := mk_rule (Some true) ["blur"] (Some checkHost).
Definition rule_illegal := mk_rule (Some true) ["blur"] (Some checkIllegal).
Definition rule_port : FormItemRule :=
  {| required := Some true; trigger := ["blur"]; rule_min := Some 1%Z; rule_max := Some 65535%Z;
     rule_type := Some "number"; rule_message := Some (t "commons.rule.port"); rule_validator := None |}.
Definition rule_domain := mk_rule (Some true) ["blur"] (Some checkDomain).
Definition rule_paramCommon := mk_rule (Some true) ["blur"] (Some checkParamCommon).
Definition rule_paramComplexity := mk_rule (Some true) ["blur"] (Some checkParamComplexity).
Definition rule_paramPort := mk_rule (Some true) ["blur"] (Some checkPort).
Definition rule_paramExtUrl := mk_rule (Some true) ["blur"] (Some checkParamUrlAndPort).
Definition rule_nginxDoc := mk_rule (Some true) ["blur"] (Some checkDoc).
Definition rule_appName := mk_rule (Some true) ["blur"] (Some checkAppName).
Definition rule_containerName := mk_rule (Some false) ["blur"] (Some checkContainerName).
Definition rule_disabledFunctions := mk_rule (Some true) ["blur"] (Some checkDisableFunctions).
Definition rule_leechExts := mk_rule (Some true) ["blur"] (Some checkLeechExts).
Definition rule_supervisorName := mk_rule (Some true) ["blur"] (Some checkSupervisorName).
Definition rule_paramSimple := mk_rule (Some true) ["blur"] (Some checkParamSimple).
Definition rule_domainWithPort := mk_rule (Some true) ["blur"] (Some checkDomainWithPort).
Definition rule_filePermission := mk_rule (Some true) ["blur"] (Some checkFilePermission).
Definition rule_phpExtensions := mk_rule (Some true) ["blur"] (Some checkPHPExtensions).
Definition rule_paramHttp := mk_rule (Some true) ["blur"] (Some checkHttpOrHttps).
Definition rule_ipv4 := mk_rule None ["blur"] (Some checkIpv4).
Definition rule_domainOrIP := mk_rule None ["blur"] (Some checkDomainOrIP).
Definition rule_phone := mk_rule None ["blur"] (Some checkPhone).
Definition rule_authBasicPassword := mk_rule None ["blur"] (Some checkAuthBasicPassword).
Definition rule_ipv4orV6 := mk_rule None ["blur"] (Some checkIpv4orV6).
Definition rule_alias := mk_rule (Some true) ["blur"] (Some checkAlias).
Definition rule_vmName := mk_rule (Some true) ["blur"] (Some checkVMName).
Definition rule_vmNetwork := mk_rule (Some true) ["blur"; "change"] (Some checkVMNetwork).

(** Rules, in the order of the source. *)
Definition Rules : list (string * FormItemRule) :=
  [ ("requiredInput", rule_requiredInput);
    ("requiredSelect", rule_requiredSelect);
    ("requiredSelectBusiness", rule_requiredSelectBusiness);
    ("noSpace", rule_noSpace);
    ("simpleName", rule_simpleName);
    ("simplePassword", rule_simplePassword);
    ("dbName", rule_dbName);
    ("composeName", rule_composeName);
    ("imageName", rule_imageName);
    ("volumeName", rule_volumeName);
    ("name", rule_name);
    ("userName", rule_userName);
    ("linuxName", rule_linuxName);
    ("databaseName", rule_databaseName);
    ("password", rule_password);
    ("email", rule_email);
    ("number", rule_number);
    ("integerNumber", rule_integerNumber);
    ("integerNumberWith0", rule_integerNumberWith0);
    ("floatNumber", rule_floatNumber);
    ("ip", rule_ip);
    ("ipV6", rule_ipV6);
    ("ipV4V6OrDomain", rule_ipV4V6OrDomain);
    ("host", rule_host);
    ("illegal", rule_illegal);
    ("port", rule_port);
    ("domain", rule_domain);
    ("paramCommon", rule_paramCommon);
    ("paramComplexity", rule_paramComplexity);
    ("paramPort", rule_paramPort);
    ("paramExtUrl", rule_paramExtUrl);
    ("nginxDoc", rule_nginxDoc);
    ("appName", rule_appName);
    ("containerName", rule_containerName);
    ("disabledFunctions", rule_disabledFunctions);
    ("leechExts", rule_leechExts);
    ("supervisorName", rule_supervisorName);
    ("paramSimple", rule_paramSimple);
    ("domainWithPort", rule_domainWithPort);
    ("filePermission", rule_filePermission);
    ("phpExtensions", rule_phpExtensions);
    ("paramHttp", rule_paramHttp);
    ("ipv4", rule_ipv4);
    ("domainOrIP", rule_domainOrIP);
    ("phone", rule_phone);
    ("authBasicPassword", rule_authBasicPassword);
    ("ipv4orV6", rule_ipv4orV6);
    ("alias", rule_alias);
    ("vmName", rule_vmName);
    ("vmNetwork", rule_vmNetwork) ].

(** ** The shapes of the validators *)

(** A validator that requires a value and tests one expression. *)
Lemma accepts_tested r m m' s :
  accepts (if missing (Str s) then reject m
           else if negb (test r (Str s)) && nonempty (Str s) then reject m' else accept)
  = truthy s && matches r s.
Proof. unfold test. destruct s as [|c s]; [done|]. cbn [missing text nonempty truthy negb].
  by destruct (matches r (c :: s)). Qed.

(** One that accepts the missing value. *)
Lemma accepts_optional r m' s :
  accepts (if missing (Str s) then accept
           else if negb (test r (Str s)) && nonempty (Str s) then reject m' else accept)
  = negb (truthy s) || matches r s.
Proof. unfold test. destruct s as [|c s]; [done|]. cbn [missing text nonempty truthy negb].
  by destruct (matches r (c :: s)). Qed.

Lemma accepts_tested' r m m' s :
  accepts (if missing (Str s) then reject m
           else if negb (test r (Str s)) then reject m' else accept)
  = truthy s && matches r s.
Proof. unfold test. destruct s as [|c s]; [done|]. cbn [missing text truthy negb].
  by destruct (matches r (c :: s)). Qed.

#[export] Hint Rewrite accepts_tested accepts_optional accepts_tested' : panel.

(** A first unit of one class followed by a bounded run of another: the shape
    of the name expressions. *)
Lemma lang_name a b m n s :
  m <= n ->
  lang (set a ⋅ rep (set b) m n) s <->
  exists c u, s = c :: u /\ existsb (in_range c) a = true /\
    Forall (fun d => existsb (in_range d) b = true) u /\ m <= length u <= n.
Proof.
  intros Hmn. rewrite lang_cat. split.
  - intros (x & u & -> & (c & -> & Hc) & Hu).
    apply lang_rep_cls in Hu as (Hf & H1 & H2). exists c, u. split; [done|].
    split; [done|]. split; [exact Hf|lia].
  - intros (c & u & -> & Hc & Hf & Hl). exists [c], u. split; [done|].
    split; [by exists c|]. apply lang_rep_cls. split; [exact Hf|lia].
Qed.

(** ** Ports *)

Lemma port_numerals :
  forall_from (fun p => matches re_port (dec p)) 1 (N.to_nat 65535) = true.
Proof. vm_compute. reflexivity. Qed.

Lemma port_words s :
  lang re_port s ->
  canonical s && (1 <=? digits_val s)%N && (digits_val s <=? 65535)%N = true.
Proof.
  revert s. apply (enum_forall re_port (fun s =>
    canonical s && (1 <=? digits_val s)%N && (digits_val s <=? 65535)%N)).
  vm_compute. reflexivity.
Qed.

Lemma re_port_spec s :
  matches re_port s = true <-> exists p, (1 <= p <= 65535)%N /\ s = dec p.
Proof.
  split.
  - intros H%matches_spec%port_words. rewrite !andb_true_iff, !N.leb_le in H.
    exists (digits_val s). split; [lia|]. symmetry. apply dec_canonical. tauto.
  - intros (p & Hp & ->). refine (forall_from_spec _ _ _ port_numerals p _). rewrite N2Nat.id. lia.
Qed.

(** *** Four octets *)

(** An octet of the lax expression: one to three digits worth at most 255, the
    first of three not being zero. *)
Definition lax_octet (w : jsstr) : bool :=
  forallb is_digit w && (1 <=? length w) && (length w <=? 3) && (digits_val w <=? 255)%N
  && match w with [c; _; _] => negb (c =? 48)%N | _ => true end.

Lemma octet_lax_words w : lang octet_lax w -> lax_octet w = true.
Proof. revert w. apply (enum_forall octet_lax lax_octet). vm_compute. reflexivity. Qed.

(** All words of one to three digits. *)
Definition digit_words : re := rep digit 1 3.

Lemma octet_lax_complete w : lang digit_words w -> lax_octet w = true -> lang octet_lax w.
Proof.
  intros Hw Ho. apply matches_spec.
  pose proof (enum_forall digit_words (fun w => implb (lax_octet w) (matches octet_lax w))) as H.
  specialize (H ltac:(vm_compute; reflexivity) w Hw). cbn beta in H. by rewrite Ho in H.
Qed.

Lemma lax_octet_spec w : lang octet_lax w <-> lax_octet w = true.
Proof.
  split; [apply octet_lax_words|]. intros Ho. apply octet_lax_complete; [|done].
  unfold lax_octet in Ho. rewrite !andb_true_iff, !Nat.leb_le, forallb_elem in Ho.
  destruct Ho as ((((Hd & H1) & H2) & _) & _).
  apply lang_rep_cls. split; [|lia]. apply Forall_elem. intros c Hc. apply Hd in Hc.
  unfold in_class, in_range, is_digit in *. simpl. by rewrite Hc.
Qed.

Lemma lax_octet_no_dot w : lax_octet w = true -> 46%N ∉ w.
Proof.
  unfold lax_octet. rewrite !andb_true_iff, forallb_elem. intros ((((Hd & _) & _) & _) & _) H.
  apply Hd in H. by vm_compute in H.
Qed.

Lemma re_ip_spec s :
  matches re_ip s = true <->
  exists a b c d, split 46 s = [a; b; c; d] /\ forallb lax_octet [a; b; c; d] = true.
Proof.
  rewrite matches_spec. unfold re_ip.
  setoid_rewrite (fun r r' s => lang_sep r "." r' s 46%N eq_refl).
  setoid_rewrite (fun r r' s => lang_sep r "." r' s 46%N eq_refl).
  setoid_rewrite (fun r r' s => lang_sep r "." r' s 46%N eq_refl).
  setoid_rewrite lax_octet_spec. split.
  - intros (a & ? & -> & Ha & b & ? & -> & Hb & c & d & -> & Hc & Hd).
    exists a, b, c, d. cbn [forallb]. rewrite Ha, Hb, Hc, Hd. split; [|done].
    pose proof lax_octet_no_dot as Hdot.
    rewrite (split_app 46 a), (split_app 46 b), (split_app 46 c), split_no_sep by (apply Hdot; done).
    done.
  - intros (a & b & c & d & Hs & Ho). cbn [forallb] in Ho. rewrite !andb_true_iff in Ho.
    destruct Ho as (Ha & Hb & Hc & Hd & _).
    pose proof (join_split 46 s) as <-. rewrite Hs. cbn [join app].
    eauto 15.
Qed.

(** ** Properties *)

(** The validators of the file under their names. *)
Definition validators : list (string * validator) :=
  [ ("checkNoSpace", checkNoSpace); ("checkIp", checkIp); ("checkIpv4", checkIpv4);
    ("checkIpV6", checkIpV6); ("checkIpV4V6OrDomain", checkIpV4V6OrDomain);
    ("checkDomainOrIP", checkDomainOrIP); ("checkHost", checkHost); ("checkIllegal", checkIllegal);
    ("complexityPassword", complexityPassword); ("checkName", checkName);
    ("checkUserName", checkUserName); ("checkSimpleName", checkSimpleName);
    ("checkSimplePassword", checkSimplePassword); ("checkAuthBasicPassword", checkAuthBasicPassword);
    ("checkDBName", checkDBName); ("checkComposeName", checkComposeName);
    ("checkImageName", checkImageName); ("checkVolumeName", checkVolumeName);
    ("checkLinuxName", checkLinuxName); ("checkSupervisorName", checkSupervisorName);
    ("checkDatabaseName", checkDatabaseName); ("checkAppName", checkAppName);
    ("checkAlias", checkAlias); ("checkVMName", checkVMName); ("checkVMNetwork", checkVMNetwork);
    ("checkDomain", checkDomain); ("checkDomainWithPort", checkDomainWithPort);
    ("checkIntegerNumber", checkIntegerNumber); ("checkIntegerNumberWith0", checkIntegerNumberWith0);
    ("checkFloatNumber", checkFloatNumber); ("checkParamCommon", checkParamCommon);
    ("checkParamComplexity", checkParamComplexity); ("checkParamUrlAndPort", checkParamUrlAndPort);
    ("checkPort", checkPort); ("checkDoc", checkDoc); ("checkContainerName", checkContainerName);
    ("checkDisableFunctions", checkDisableFunctions); ("checkLeechExts", checkLeechExts);
    ("checkParamSimple", checkParamSimple); ("checkFilePermission", checkFilePermission);
    ("checkPHPExtensions", checkPHPExtensions); ("checkHttpOrHttps", checkHttpOrHttps);
    ("checkPhone", checkPhone); ("checkIpv4orV6", checkIpv4orV6) ].

(** checkPort accepts exactly the decimal numerals, without sign or
    leading zero, of the numbers 1 to 65535. *)
Theorem checkPort_spec s :
  accepts (checkPort (Str s)) = true <-> exists p, (1 <= p <= 65535)%N /\ s = dec p.
Proof.
  unfold checkPort. rewrite accepts_tested, andb_true_iff, re_port_spec, truthy_true.
  split; [tauto|]. intros (p & Hp & ->). split; [auto with panel|eauto].
Qed.

(** checkIp accepts exactly four dot-separated octets, each of one to three
    digits worth at most 255 where only an octet of three digits may not start
    with a zero: 192.168.01.5 is accepted. *)
Theorem checkIp_spec s :
  accepts (checkIp (Str s)) = true <->
  exists a b c d, split 46 s = [a; b; c; d] /\ forallb lax_octet [a; b; c; d] = true.
Proof.
  unfold checkIp. rewrite accepts_tested, andb_true_iff, re_ip_spec, truthy_true.
  split; [tauto|]. intros H. split; [|done].
  destruct H as (a & b & c & d & H & _). by intros ->.
Qed.

(** Every validator calls back exactly once on every value, and only
    checkNoSpace can throw instead, on a value that is not a string. *)
Theorem validators_call_once :
  Forall (fun '(n, f) => forall v,
    (exists c, f v = Calls [c]) \/ n = "checkNoSpace" /\ f v = Throws /\ forall s, v <> Str s)
    validators.
Proof.
  unfold validators. repeat apply Forall_cons_2; try apply Forall_nil_2; intros v;
    lazymatch goal with |- context [checkNoSpace] => idtac | |- _ => left end.
  { destruct v; [right; done|right; done|left].
    unfold checkNoSpace. case_step; eexists; reflexivity. }
  all: lazymatch goal with |- exists c, ?f ?x = _ => unfold f end;
    repeat case_step; eexists; reflexivity.
Qed.

(** Among the rules marked required that carry a validator, exactly
    noSpace and paramSimple accept the empty value: every other one reports an
    error on the empty string, on undefined and on null. *)
Theorem Rules_required_nonempty n r f :
  (n, r) ∈ Rules -> required r = Some true -> rule_validator r = Some f ->
  (accepts (f (Str [])) = true <-> n = "noSpace" \/ n = "paramSimple") /\
  (n <> "paramSimple" -> accepts (f Undefined) = false /\ accepts (f Null) = false).
Proof.
  assert (H : Forall (fun '(n, r) => forall f, required r = Some true -> rule_validator r = Some f ->
    (accepts (f (Str [])) = true <-> n = "noSpace" \/ n = "paramSimple") /\
    (n <> "paramSimple" -> accepts (f Undefined) = false /\ accepts (f Null) = false)) Rules).
  { unfold Rules. repeat apply Forall_cons_2; try apply Forall_nil_2; intros g Hr Hv;
      try discriminate Hr; try discriminate Hv; injection Hv as <-;
      vm_compute; naive_solver. }
  intros Hin. rewrite Forall_elem in H. apply (H (n, r) Hin).
Qed.

(** checkIllegal accepts exactly the non-empty strings without one of the
    ten units & | ; $ ' ` ( ) > and <. *)
Theorem checkIllegal_spec s :
  accepts (checkIllegal (Str s)) = true <->
  s <> [] /\ forall c, c ∈ js "&|;$'`()><" -> c ∉ s.
Proof.
  destruct s as [|a s]; [by split; [|intros [? _]]|].
  unfold checkIllegal. cbn [missing truthy negb text].
  destruct (existsb _ _) eqn:E; cbn.
  - split; [done|]. intros [_ H]. apply existsb_elem in E as (c & Hc & Hs).
    apply has_unit_spec in Hs. by destruct (H c Hc).
  - split; [|done]. intros _. split; [done|]. intros c Hc Hs.
    apply has_unit_spec in Hs.
    assert (existsb (fun c => has_unit c (a :: s)) (js "&|;$'`()><") = true); [|congruence].
    apply existsb_elem. eauto.
Qed.

(** The classes complexityPassword distinguishes. *)
Definition is_letter (c : N) : bool := is_lower c || is_upper c.
Definition is_other (c : N) : bool := negb (is_digit c || is_letter c).
Definition is_line_end (c : N) : bool := existsb (in_range c) [(10, 10); (13, 13); (8232, 8233)]%N.

Lemma plus_class neg rs f s :
  (forall c, in_class neg rs c = f c) -> s <> [] ->
  lang (plus (Cls neg rs)) s <-> forallb f s = true.
Proof.
  intros Hf Hs. unfold plus. rewrite lang_rep_cls, forallb_elem, Forall_elem. setoid_rewrite Hf.
  destruct s; [done|]. simpl. split; [tauto|]. intros; split; [done|]. split; [lia|done].
Qed.

Lemma plus_digits s : s <> [] -> lang (plus digit) s <-> forallb is_digit s = true.
Proof.
  apply plus_class. intros c. unfold in_class, in_range, is_digit. cbn. apply orb_false_r.
Qed.

Lemma plus_letters s : s <> [] -> lang (plus (set [r_az; r_AZ])) s <-> forallb is_letter s = true.
Proof.
  apply plus_class. intros c. unfold in_class, in_range, is_letter, is_lower, is_upper. cbn.
  by rewrite orb_false_r.
Qed.

Lemma plus_others s :
  s <> [] -> lang (plus (nset [r_09; r_az; r_AZ])) s <-> forallb is_other s = true.
Proof.
  apply plus_class. intros c.
  unfold in_class, in_range, is_other, is_letter, is_digit, is_lower, is_upper. cbn.
  by rewrite orb_false_r.
Qed.

Lemma lang_not_ahead r b s : lang (not_ahead r b) s <-> ~ lang r s /\ lang b s.
Proof. done. Qed.

Lemma lang_dots s m n :
  m <= n ->
  lang (rep dot m n) s <-> m <= length s <= n /\ forallb (fun c => negb (is_line_end c)) s = true.
Proof.
  intros Hmn. unfold rep, dot, nset. rewrite lang_rep_cls, forallb_elem, Forall_elem. split.
  - intros (H1 & H2). split; [lia|exact H1].
  - intros (H1 & H2). split; [exact H2|lia].
Qed.

(** complexityPassword accepts exactly the strings of 8 to 30 units,
    without a line terminator, that are neither all digits nor all letters nor
    all other units. *)
Theorem complexityPassword_spec s :
  accepts (complexityPassword (Str s)) = true <->
  8 <= length s <= 30 /\ forallb (fun c => negb (is_line_end c)) s = true /\
  forallb is_digit s = false /\ forallb is_letter s = false /\ forallb is_other s = false.
Proof.
  unfold complexityPassword, re_complexity.
  rewrite accepts_tested, andb_true_iff, matches_spec, truthy_true, !lang_not_ahead.
  rewrite lang_dots, <- !not_true_iff_false by lia.
  split.
  - intros (Hs & H). rewrite plus_digits, plus_letters, plus_others in H by done. tauto.
  - intros (H4 & H5 & H). assert (s <> []) as Hs by (intros ->; simpl in H4; lia).
    rewrite plus_digits, plus_letters, plus_others by done. tauto.
Qed.

Lemma Rules_required_nonempty_witness :
  (accepts (checkIp (Str [])) = true <-> "ip" = "noSpace" \/ "ip" = "paramSimple") /\
  ("ip" <> "paramSimple" -> accepts (checkIp Undefined) = false /\ accepts (checkIp Null) = false).
Proof.
  apply (Rules_required_nonempty "ip" rule_ip checkIp); [|reflexivity|reflexivity].
  apply list_elem_of_In. unfold Rules. cbn [In]. tauto.
Defined.

(** The validators whose expression is one alphanumeric unit followed by units
    of a class. *)
Definition name_validators : list validator :=
  [ checkSimpleName; checkSimplePassword; checkComposeName; checkVolumeName; checkSupervisorName;
    checkDatabaseName; checkVMName; checkVMNetwork; checkParamCommon; checkContainerName ].

Definition is_alnum (c : N) : bool := is_digit c || is_letter c.

(** Units with a meaning for a shell or a path, and white space. *)
Definition unsafe_unit (c : N) : bool :=
  is_ws c || existsb (N.eqb c) (js "&|;$`'()<>\*?#~!{}[]/%=^," ++ [34%N; 0%N]).

Lemma class_safe b c :
  forallb (fun p => forallb (fun d => negb (unsafe_unit d)) (range_units p)) b = true ->
  existsb (in_range c) b = true -> unsafe_unit c = false.
Proof.
  intros Hb Hc. apply existsb_elem in Hc as (p & Hp & Hc). rewrite forallb_elem in Hb.
  specialize (Hb p Hp). rewrite forallb_elem in Hb. apply range_units_spec in Hc.
  specialize (Hb c Hc). by apply negb_true_iff in Hb.
Qed.

Lemma class_alnum a c :
  forallb (fun p => forallb is_alnum (range_units p)) a = true ->
  existsb (in_range c) a = true -> is_alnum c = true.
Proof.
  intros Ha Hc. apply existsb_elem in Hc as (p & Hp & Hc). rewrite forallb_elem in Ha.
  specialize (Ha p Hp). rewrite forallb_elem in Ha. by apply Ha, range_units_spec.
Qed.

Lemma is_alnum_safe c : is_alnum c = true -> unsafe_unit c = false.
Proof.
  intros H. apply (class_safe alnum); [vm_compute; reflexivity|].
  unfold is_alnum, is_letter, is_digit, is_lower, is_upper in H.
  unfold in_range. cbn. rewrite orb_false_r. bool_prop. tauto.
Qed.

Lemma lang_name_safe a b m n s :
  m <= n ->
  forallb (fun p => forallb is_alnum (range_units p)) a = true ->
  forallb (fun p => forallb (fun d => negb (unsafe_unit d)) (range_units p)) b = true ->
  lang (set a ⋅ rep (set b) m n) s ->
  (exists c u, s = c :: u /\ is_alnum c = true) /\ forallb (fun c => negb (unsafe_unit c)) s = true.
Proof.
  intros Hmn Ha Hb H. apply lang_name in H as (c & u & -> & Hc & Hu & _); [|done].
  apply (class_alnum a) in Hc; [|done]. split; [by exists c, u|].
  cbn [forallb]. rewrite is_alnum_safe by done. cbn. apply forallb_elem.
  intros d Hd. rewrite Forall_elem in Hu. apply negb_true_iff, (class_safe b); [done|]. by apply Hu.
Qed.

(** A non-empty name that one of the name validators accepts starts with
    an ASCII letter or digit, so it is not an option or a dot file, and holds
    no white space, path separator, quote or shell metacharacter. *)
Theorem name_validators_safe f s :
  f ∈ name_validators -> s <> [] -> accepts (f (Str s)) = true ->
  (exists c u, s = c :: u /\ is_alnum c = true) /\ forallb (fun c => negb (unsafe_unit c)) s = true.
Proof.
  intros Hf Hs Ha.
  assert (H : exists a b m n, m <= n /\
    forallb (fun p => forallb is_alnum (range_units p)) a = true /\
    forallb (fun p => forallb (fun d => negb (unsafe_unit d)) (range_units p)) b = true /\
    lang (set a ⋅ rep (set b) m n) s).
  { unfold name_validators in Hf. apply list_elem_of_In in Hf. cbn [In] in Hf.
    repeat destruct Hf as [<-|Hf]; [..|done];
      (match type of Ha with accepts (?g _) = _ => unfold g in Ha end;
       rewrite ?accepts_tested, ?accepts_tested', ?accepts_optional in Ha;
       apply truthy_true in Hs; rewrite Hs in Ha; cbn [negb andb orb] in Ha;
       apply matches_spec in Ha; eexists _, _, _, _;
       split; [|split; [|split; [|exact Ha]]]; [lia|vm_compute; reflexivity..]). }
  destruct H as (a & b & m & n & Hmn & H1 & H2 & H). by apply (lang_name_safe a b m n).
Qed.

Lemma name_validators_safe_witness :
  let s := js "my-volume_1" in
  (exists c u, s = c :: u /\ is_alnum c = true) /\ forallb (fun c => negb (unsafe_unit c)) s = true.
Proof.
  cbn zeta. apply (name_validators_safe checkVolumeName); [|done|vm_compute; reflexivity].
  apply list_elem_of_In. cbn. tauto.
Defined.
