(* ===== verification/Validate.v ===== *)
(** * Checks and conversions of form values

    src/frontend/src/utils/validate.ts: checks that answer whether a value is
    wrong, and the conversions of durations and URLs between a form's fields and
    the text that is stored. *)

From S2P Require Import Prelude JsString Splitting Numbers Regex Patterns FormRules.

(** ** Checks: [true] is an error *)

Definition checkIp (value : jsstr) : bool :=
  if value === [] then true else negb (matches re_ip value) && (value !== []).

Definition checkDomain (value : jsstr) : bool :=
  if value === [] then true else negb (matches re_host value) && (value !== []).

Definition isDomain (value : jsstr) : bool :=
  if value === [] then true else (value !== []) && matches domain_i value.

Definition checkIpV4V6 (value : jsstr) : bool :=
  if value === [] then true
  else negb (matches IPv4AddressFormat value) && negb (matches IPv6AddressRegExp value) && (value !== []).

Definition checkIpV6 (value : jsstr) : bool :=
  if value === [] then true else negb (matches IPv6AddressRegExp value) && (value !== []).

Definition checkCidr (value : jsstr) : bool :=
  if value === [] then true else negb (matches re_cidr value) && (value !== []).

(** An absent second piece is the text "undefined" for the expression. *)
Definition checkCidrV6 (value : jsstr) : bool :=
  if value === [] then true
  else
    let pieces := split 47 value in
    if checkIpV6 (default [] (pieces !! 0)) then true
    else negb (matches re_prefix128 (default (js "undefined") (pieces !! 1))).

Section Numeric.
Context {JN : JsNumber} (t : jsstr -> jsstr).

Definition checkPort (value : jsstr) : bool :=
  if num_le (Number value) (int 0) then true
  else negb (matches re_port value) && (value !== []).

(** ** Durations *)

Definition has (item u : jsstr) : bool := includes item u.
Definition strip (item u : jsstr) : num := Number (replaceAll item u []).

Definition transferTimeToSecond (item : jsstr) : num :=
  if has item (js "s") then strip item (js "s")
  else if has item (js "m") then num_mul (strip item (js "m")) (int 60)
  else if has item (js "h") then num_mul (num_mul (strip item (js "h")) (int 60)) (int 60)
  else if has item (js "d") then num_mul (num_mul (num_mul (strip item (js "d")) (int 60)) (int 60)) (int 24)
  else Number item.

Definition splitTime (item : jsstr) : num * jsstr :=
  if has item (js "s") then (strip item (js "s"), js "s")
  else if has item (js "m") then (strip item (js "m"), js "m")
  else if has item (js "h") then (strip item (js "h"), js "h")
  else if has item (js "d") then (strip item (js "d"), js "d")
  else if has item (js "y") then (strip item (js "y"), js "y")
  else (Number item, js "s").

(** [t] is [i18n.global.t]. *)
Definition transTimeUnit (val : jsstr) : jsstr :=
  if has val (js "s") then replaceAll val (js "s") (t (js "commons.units.second"))
  else if has val (js "m") then replaceAll val (js "m") (t (js "commons.units.minute"))
  else if has val (js "h") then replaceAll val (js "h") (t (js "commons.units.hour"))
  else if has val (js "d") then replaceAll val (js "d") (t (js "commons.units.day"))
  else if has val (js "y") then replaceAll val (js "y") (t (js "commons.units.year"))
  else val ++ t (js "commons.units.second").
End Numeric.

(** The number of seconds is an integer of a form field; [%] is the remainder
    of the dividend's sign, and both divisions are exact. *)
Definition splitTimeFromSecond (item : Z) : Z * jsstr :=
  if (3600 <=? item)%Z && (Z.rem item 3600 =? 0)%Z then (Z.quot item 3600, js "h")
  else if (60 <=? item)%Z && (Z.rem item 60 =? 0)%Z then (Z.quot item 60, js "m")
  else (item, js "s").

(** ** URLs and lines *)

Definition splitHttp (url : jsstr) : jsstr * jsstr :=
  if includes url (js "https://") then (js "https", replaceAll url (js "https://") [])
  else if includes url (js "http://") then (js "http", replaceAll url (js "http://") [])
  else ([], url).

Definition spliceHttp (proto url : jsstr) : jsstr :=
  proto ++ js "://" ++ replaceAll (replaceAll url (js "https://") []) (js "http://") [].

Definition emptyLineFilter (str spilt : jsstr) : jsstr :=
  let list := split_on spilt str in
  let results := List.filter (fun line => trim line !== []) list in
  join spilt results.

Example cidr6_garbage : checkCidrV6 (js "fe80::1/64/anything") = false. Proof. vm_compute. reflexivity. Qed.
Example cidr6_plain : checkCidrV6 (js "fe80::1") = true. Proof. vm_compute. reflexivity. Qed.
Example transfer_ex : transferTimeToSecond (js "90m") = Some 5400%Z. Proof. vm_compute. reflexivity. Qed.
Example http_ex : splitHttp (js "https://a.b/c") = (js "https", js "a.b/c"). Proof. vm_compute. reflexivity. Qed.
Example lines_ex : emptyLineFilter (js "a,, ,b,") (js ",") = js "a,b". Proof. vm_compute. reflexivity. Qed.

(** ** Durations: text and seconds *)

Definition letter (w : string) : bool :=
  match js w with [c] => (57 <? c)%N | _ => false end.

Lemma letter_unit w : letter w = true -> exists c, js w = [c] /\ (57 < c)%N.
Proof. unfold letter. destruct (js w) as [|c [|]]; try done. rewrite N.ltb_lt. eauto. Qed.

(** A number followed by a unit letter contains only that letter. *)
Lemma has_letter n w v : letter w = true -> letter v = true ->
  has (dec n ++ js w) (js v) = (js v === js w).
Proof.
  intros (c & Hw & Hc)%letter_unit (d & Hv & Hd)%letter_unit.
  unfold has. apply eq_true_iff_eq. rewrite (includes_unit _ _ d Hv), streqb_eq, Hw, Hv, elem_of_app.
  rewrite list_elem_of_singleton. pose proof (dec_no_unit n d). naive_solver lia.
Qed.

Ltac decide_letters :=
  repeat match goal with
  | |- context [has (dec ?n ++ js ?w) (js ?v)] =>
      rewrite (has_letter n w v eq_refl eq_refl);
      let b := eval vm_compute in (js v === js w) in change (js v === js w) with b; cbn match
  end.

Section Laws.
Context {JN : JsNumber}.

Lemma strip_letter n w : letter w = true -> exact (Z.of_N n) ->
  strip (dec n ++ js w) (js w) = int (Z.of_N n).
Proof.
  intros (c & Hw & Hc)%letter_unit Hn. unfold strip.
  rewrite Hw, replaceAll_last by (apply dec_no_unit; lia). by apply Number_dec.
Qed.

Definition seconds_of (w : string) : Z :=
  if String.eqb w "h" then 3600 else if String.eqb w "m" then 60 else 1.

Lemma transfer_unit n w :
  w ∈ ["h"; "m"; "s"]%string -> exact (Z.of_N n * seconds_of w) ->
  transferTimeToSecond (dec n ++ js w) = int (Z.of_N n * seconds_of w) /\
  splitTime (dec n ++ js w) = (int (Z.of_N n), js w).
Proof.
  rewrite list_elem_of_In. unfold exact.
  intros [<-|[<-|[<-|[]]]]; unfold seconds_of; cbn [String.eqb Ascii.eqb Bool.eqb]; intros Hn;
    unfold transferTimeToSecond, splitTime;
    decide_letters; rewrite strip_letter by (done || (unfold exact; lia));
    rewrite ?mul_int by (unfold exact; lia); rewrite ?Z.mul_1_r; rewrite <- ?Z.mul_assoc; done.
Qed.

(** The unit is the largest that divides the duration. *)
Lemma splitTimeFromSecond_spec (n : Z) : (0 <= n)%Z ->
  exists v w, splitTimeFromSecond n = (Z.of_N v, js w) /\ w ∈ ["h"; "m"; "s"]%string /\
    n = (Z.of_N v * seconds_of w)%Z /\
    (js w = js "h" <-> (0 < n)%Z /\ (3600 | n)%Z) /\
    (js w = js "s" <-> n = 0%Z \/ ~ (60 | n)%Z).
Proof.
  intros Hn. unfold splitTimeFromSecond.
  rewrite !Z.rem_mod_nonneg, !Z.quot_div_nonneg by lia.
  assert (Hdiv : forall k, (0 < k)%Z -> (k | n)%Z <-> (n mod k = 0)%Z) by (intros; symmetry; apply Z.mod_divide; lia).
  setoid_rewrite Hdiv; [|lia..].
  assert (H60 : (n mod 3600 = 0 -> n mod 60 = 0)%Z).
  { intros H. apply Z.mod_divide in H as [q ->]; [|lia].
    replace (q * 3600)%Z with (q * 60 * 60)%Z by lia. apply Z.mod_mul. lia. }
  pose proof (Z.div_mod n 3600). pose proof (Z.div_mod n 60).
  case_step; [exists (Z.to_N (n / 3600)), "h"%string | case_step;
    [exists (Z.to_N (n / 60)), "m"%string | exists (Z.to_N n), "s"%string]]; bool_prop;
    (rewrite Z2N.id by (try apply Z.div_pos; lia)); (split; [done|]);
    (split; [rewrite list_elem_of_In; simpl; tauto|]);
    (split; [unfold seconds_of; simpl; lia|]); (split; [split; [|]|split]); (done || lia).
Qed.

(** A duration in seconds that is split into a number and a unit and written
    as text reads back as the same number of seconds, and the unit is the largest
    of hours, minutes and seconds that divides it. *)
Theorem duration_roundtrip (n : Z) : (0 <= n < 2 ^ 53)%Z ->
  let '(v, u) := splitTimeFromSecond n in
  transferTimeToSecond (String_num (int v) ++ u) = int n /\
  splitTime (String_num (int v) ++ u) = (int v, u) /\
  (u = js "h" <-> (0 < n)%Z /\ (3600 | n)%Z) /\
  (u = js "s" <-> n = 0%Z \/ ~ (60 | n)%Z).
Proof.
  intros Hn. destruct (splitTimeFromSecond_spec n) as (v & w & -> & Hw & -> & Hu); [lia|].
  assert (Hk : exact (Z.of_N v * seconds_of w)) by (unfold exact; lia).
  destruct (transfer_unit v w Hw Hk) as [Et Es].
  rewrite String_N by (revert Hk; unfold exact, seconds_of; repeat case_match; lia). exact (conj Et (conj Es Hu)).
Qed.
End Laws.

Lemma duration_roundtrip_witness :
  let '(v, u) := splitTimeFromSecond 5400 in
  transferTimeToSecond (String_num (int v) ++ u) = int 5400 /\
  splitTime (String_num (int v) ++ u) = (int v, u) /\
  (u = js "h" <-> (0 < 5400)%Z /\ (3600 | 5400)%Z) /\
  (u = js "s" <-> 5400%Z = 0%Z \/ ~ (60 | 5400)%Z).
Proof. apply (duration_roundtrip 5400). lia. Defined.

(** ** Agreement with the form rules *)

Lemma checkIp_agrees s : checkIp s = negb (accepts (FormRules.checkIp (Str s))).
Proof. unfold checkIp, FormRules.checkIp. rewrite accepts_tested. by destruct s, (matches _ _). Qed.

Lemma checkIpV6_agrees s : checkIpV6 s = negb (accepts (FormRules.checkIpV6 (Str s))).
Proof. unfold checkIpV6, FormRules.checkIpV6. rewrite accepts_tested. by destruct s, (matches _ _). Qed.

(** The number test before the expression refuses nothing the expression accepts. *)
Lemma checkPort_agrees `{JsNumber} s : checkPort s = negb (accepts (FormRules.checkPort (Str s))).
Proof.
  unfold checkPort, FormRules.checkPort. rewrite accepts_tested.
  destruct (matches re_port s) eqn:E.
  - apply re_port_spec in E as (p & Hp & ->).
    rewrite Number_dec, le_int by (unfold exact; lia).
    assert ((Z.of_N p <=? 0)%Z = false) as -> by (apply Z.leb_gt; lia).
    pose proof (dec_not_nil p). by destruct (dec p).
  - rewrite andb_false_r. simpl. destruct (num_le _ _) eqn:En; [done|]. destruct s; [|done].
    rewrite Number_nil, le_int in En by (unfold exact; lia). done.
Qed.

(** The checks of the helpers agree with the form rules of the same name on
    every string, although checkPort first compares the number with 0. *)
Theorem checks_agree `{JsNumber} (s : jsstr) :
  checkIp s = negb (accepts (FormRules.checkIp (Str s))) /\
  checkIpV6 s = negb (accepts (FormRules.checkIpV6 (Str s))) /\
  checkPort s = negb (accepts (FormRules.checkPort (Str s))).
Proof. by rewrite checkIp_agrees, checkIpV6_agrees, checkPort_agrees. Qed.

(** ** IPv6 blocks *)

Lemma prefix128_numerals :
  forall_from (fun p => matches re_prefix128 (dec p)) 0 (N.to_nat 129) = true.
Proof. vm_compute. reflexivity. Qed.

Lemma re_prefix128_spec s : matches re_prefix128 s = true <-> exists p, (p <= 128)%N /\ s = dec p.
Proof.
  split.
  - intros H%matches_spec. revert H.
    assert (Hw : lang re_prefix128 s -> canonical s && (digits_val s <=? 128)%N = true).
    { revert s. apply (enum_forall re_prefix128 (fun s => canonical s && (digits_val s <=? 128)%N)).
      vm_compute. reflexivity. }
    intros [Hc Hv]%Hw%andb_true_iff. exists (digits_val s).
    by rewrite dec_canonical, <- N.leb_le.
  - intros (p & Hp & ->). refine (forall_from_spec _ _ _ prefix128_numerals p _). rewrite N2Nat.id. lia.
Qed.

(** checkCidrV6 accepts exactly the texts whose first piece between slashes
    is an IPv6 address of the form rules and whose second is a prefix length of at
    most 128: the prefix is mandatory, and the further pieces are not looked at. *)
Theorem checkCidrV6_spec (s : jsstr) :
  checkCidrV6 s = false <->
  exists a p rest, split 47 s = a :: dec p :: rest /\ (p <= 128)%N /\
    accepts (FormRules.checkIpV6 (Str a)) = true.
Proof.
  unfold checkCidrV6. destruct (streqb_eq s []) as [_ Hs].
  destruct (s === []) eqn:E.
  { split; [done|]. apply streqb_eq in E as ->. by intros (a & p & rest & ? & _). }
  clear Hs. pose proof (split_nonempty 47 s) as Hn. destruct (split 47 s) as [|a [|q rest]]; [done|..].
  - cbn. split; [|by intros (? & ? & ? & ? & _)].
    destruct (checkIpV6 a); [done|]. intros H%negb_false_iff. by vm_compute in H.
  - cbn [lookup list_lookup default from_option id]. rewrite checkIpV6_agrees.
    destruct (accepts _) eqn:Ea; cbn [negb].
    + rewrite negb_false_iff, re_prefix128_spec. split.
      * intros (p & Hp & ->). by exists a, p, rest.
      * intros (a' & p & rest' & [= <- -> <-] & Hp & _). eauto.
    + split; [done|]. intros (a' & p & rest' & [= <- _ _] & _ & Ha). congruence.
Qed.

(** ** Lines *)

Lemma filter_lines_id (l : list jsstr) :
  List.filter (fun line => trim line !== []) (List.filter (fun line => trim line !== []) l) =
  List.filter (fun line => trim line !== []) l.
Proof. induction l as [|w l IH]; simpl; [done|]. destruct (trim w !== []) eqn:E; simpl; rewrite ?E, ?IH; done. Qed.

(** The filter keeps exactly the lines with a visible unit, in order. *)
Lemma emptyLineFilter_lines c s :
  let kept := List.filter (fun line => trim line !== []) (split c s) in
  split c (emptyLineFilter s [c]) = match kept with [] => [[]] | _ => kept end.
Proof.
  intros kept. unfold emptyLineFilter. rewrite split_on_unit. fold kept.
  destruct kept as [|w l] eqn:E; [done|]. rewrite <- E. apply split_join; [by rewrite E|].
  apply Forall_elem. intros x [Hx _]%elem_filter. pose proof (split_pieces c s) as Hp.
  rewrite Forall_elem in Hp. by apply Hp.
Qed.

Lemma emptyLineFilter_idem c s : emptyLineFilter (emptyLineFilter s [c]) [c] = emptyLineFilter s [c].
Proof.
  unfold emptyLineFilter at 1. rewrite split_on_unit, emptyLineFilter_lines.
  unfold emptyLineFilter. rewrite split_on_unit.
  destruct (List.filter _ (split c s)) as [|w l] eqn:E; [done|]. rewrite <- E. by rewrite filter_lines_id.
Qed.
