(* ===== verification/Version.v ===== *)
(** * Versions and agent origins

    src/frontend/src/utils/version.ts and utils/agent.ts.  compareVersion answers
    whether the first version is at least the second; [new URL] is a parameter with
    the laws the origins rely on. *)

From S2P Require Import Prelude JsString Splitting Numbers.

#[local] Open Scope list_scope.

(** ** version.ts *)

Definition isDigit (char : N) : bool := is_digit char.

(** The loop of extractNumbers at index [i] of the version, with [rest] still to
    read; [start] is [None] for -1. *)
Fixpoint extract_go (version rest : jsstr) (i : nat) (start : option nat) : list jsstr :=
  match rest with
  | [] => match start with Some b => [slice_from version b] | None => [] end
  | c :: rest' =>
      if isDigit c then extract_go version rest' (S i) (match start with None => Some i | _ => start end)
      else match start with
           | Some b => slice version b i :: extract_go version rest' (S i) None
           | None => extract_go version rest' (S i) None
           end
  end.
Definition extractNumbers (version : jsstr) : list jsstr := extract_go version version 0 None.

(** [v.push(...new Array(maxLen - v.length).fill('0'))] *)
Definition pad_to (n : nat) (v : list jsstr) : list jsstr := v ++ repeat (js "0") (n - length v).

(** The loop over both lists of digit runs; parseInt rounds to a double. *)
Fixpoint compare_go (v1s v2s : list jsstr) : bool :=
  match v1s, v2s with
  | a :: v1s', b :: v2s' =>
      let v1 := Number_digits a in
      let v2 := Number_digits b in
      if negb (v1 =? v2)%N then (v2 <? v1)%N else compare_go v1s' v2s'
  | _, _ => true
  end.

Definition compareVersion (version1 version2 : jsstr) : bool :=
  let v1s := extractNumbers version1 in
  let v2s := extractNumbers version2 in
  let maxLen := Nat.max (length v1s) (length v2s) in
  compare_go (pad_to maxLen v1s) (pad_to maxLen v2s).

Example compare_ex : compareVersion (js "v1.10.3") (js "1.9") = true. Proof. vm_compute. reflexivity. Qed.
Example compare_eq : compareVersion (js "2.0") (js "v2") = true. Proof. vm_compute. reflexivity. Qed.
Example compare_lt : compareVersion (js "2.0.0-beta.1") (js "2.0.0-beta.2") = false. Proof. vm_compute. reflexivity. Qed.

(** *** The runs of digits *)

Definition not_digit (c : N) : bool := negb (is_digit c).

(** The scan by indices yields the words between the units that are no digits. *)
Lemma extract_go_words version pre run rest i :
  version = pre ++ run ++ rest -> i = length pre + length run ->
  extract_go version rest i (match run with [] => None | _ => Some (length pre) end) =
  words_go not_digit rest (rev run).
Proof.
  revert pre run i. induction rest as [|c rest IH]; intros pre run i Ev Ei; cbn [extract_go words_go].
  - destruct run as [|a run]; [done|]. rewrite app_nil_r in Ev. unfold slice_from. subst version.
    rewrite drop_app_length. destruct (rev (a :: run)) eqn:E; [by apply (f_equal (@rev N)) in E; rewrite rev_involutive in E|].
    by rewrite <- E, rev_involutive.
  - change (not_digit c) with (negb (is_digit c)). unfold isDigit. destruct (is_digit c); cbn [negb].
    + specialize (IH pre (run ++ [c]) (S i)). rewrite rev_app_distr in IH. cbn [rev app] in IH.
      rewrite <- IH; [|by rewrite <- app_assoc|rewrite length_app; cbn; lia].
      f_equal. destruct run; cbn [app]; [|done]. f_equal. cbn in Ei. lia.
    + specialize (IH (pre ++ run ++ [c]) [] (S i)). cbn [rev] in IH. rewrite <- IH.
      * destruct run as [|a run]; [done|].
        destruct (rev (a :: run)) eqn:E; [by apply (f_equal (@rev N)) in E; rewrite rev_involutive in E|].
        rewrite <- E, rev_involutive. cbn [app]. f_equal. unfold slice. subst version i.
        rewrite drop_app_length. replace (length pre + length (a :: run) - length pre) with (length (a :: run)) by lia.
        by rewrite take_app_length.
      * by rewrite <- !app_assoc.
      * rewrite !length_app. cbn. lia.
Qed.

Lemma extractNumbers_words v : extractNumbers v = words not_digit v.
Proof. apply (extract_go_words v [] [] v 0); done. Qed.

(** *** The order *)

(** The numbers of a version, as a sequence that goes on with zeros. *)
Definition numbers (v : jsstr) (i : nat) : N := default 0%N (Number_digits <$> words not_digit v !! i).

(** [a] is above [b]: the first difference is in favour of [a]. *)
Definition above (a b : nat -> N) : Prop := exists i, (b i < a i)%N /\ forall j, j < i -> a j = b j.

Definition seq_of (l : list jsstr) (i : nat) : N := default 0%N (Number_digits <$> l !! i).

Lemma seq_of_pad n l i : seq_of (pad_to n l) i = seq_of l i.
Proof.
  unfold seq_of, pad_to. rewrite lookup_app. destruct (l !! i) as [w|] eqn:E; [done|].
  destruct (repeat _ _ !! _) as [w|] eqn:Er; [|done].
  apply list_elem_of_lookup_2, list_elem_of_In, repeat_spec in Er as ->. done.
Qed.

Lemma compare_go_spec l l' : length l = length l' ->
  compare_go l l' = false <-> above (seq_of l') (seq_of l).
Proof.
  revert l'. induction l as [|a l IH]; intros [|b l'] Hl; try done.
  - cbn. split; [done|]. intros (i & Hi & _). unfold seq_of in Hi. cbn in Hi. lia.
  - injection Hl as Hl. cbn [compare_go]. specialize (IH l' Hl).
    destruct (N.eqb_spec (Number_digits a) (Number_digits b)) as [E|E]; cbn [negb].
    + rewrite IH. split.
      * intros (i & Hi & Hj). exists (S i). split; [done|]. intros [|j] Hlt; [done|]. apply Hj. lia.
      * intros ([|i] & Hi & Hj); [unfold seq_of in Hi; cbn in Hi; lia|].
        exists i. split; [done|]. intros j Hlt. apply (Hj (S j)). lia.
    + rewrite N.ltb_ge. split.
      * intros Hle. exists 0. split; [unfold seq_of; cbn; lia|]. intros j. lia.
      * intros ([|i] & Hi & Hj); [unfold seq_of in Hi; cbn in Hi; lia|].
        specialize (Hj 0 ltac:(lia)). unfold seq_of in Hj. cbn in Hj. congruence.
Qed.

Lemma compareVersion_spec a b : compareVersion a b = false <-> above (numbers b) (numbers a).
Proof.
  unfold compareVersion. rewrite compare_go_spec.
  - rewrite !extractNumbers_words. unfold above. setoid_rewrite seq_of_pad. done.
  - unfold pad_to. rewrite !length_app, !repeat_length. lia.
Qed.

Lemma above_trans a b c : above a b -> above b c -> above a c.
Proof.
  intros (i & Hi & Hij) (k & Hk & Hkj). exists (Nat.min i k).
  destruct (Nat.lt_trichotomy i k) as [H|[->|H]].
  - rewrite Nat.min_l by lia. split; [by rewrite <- Hkj|]. intros j Hj. rewrite Hij, Hkj by lia. done.
  - rewrite Nat.min_id. split; [lia|]. intros j Hj. by rewrite Hij, Hkj.
  - rewrite Nat.min_r by lia. split; [by rewrite Hij|]. intros j Hj. rewrite Hij, Hkj by lia. done.
Qed.

Lemma above_irrefl a : ~ above a a.
Proof. intros (i & Hi & _). lia. Qed.

Lemma compareVersion_total a b : compareVersion a b = true \/ compareVersion b a = true.
Proof.
  destruct (compareVersion a b) eqn:E1; [by left|]. destruct (compareVersion b a) eqn:E2; [by right|].
  apply compareVersion_spec in E1, E2. destruct (above_irrefl (numbers a)). by apply (above_trans _ (numbers b)).
Qed.

(** Two sequences that end in zeros are equal or one is above the other. *)
Lemma numbers_compare a b :
  above (numbers a) (numbers b) \/ above (numbers b) (numbers a) \/ forall i, numbers a i = numbers b i.
Proof.
  set (n := Nat.max (length (words not_digit a)) (length (words not_digit b))).
  assert (Hz : forall i, n <= i -> numbers a i = numbers b i).
  { intros i Hi. unfold numbers. rewrite !lookup_ge_None_2 by lia. done. }
  assert (H : forall k, (exists i, i < k /\ numbers a i <> numbers b i /\ forall j, j < i -> numbers a j = numbers b j) \/
    forall i, i < k -> numbers a i = numbers b i).
  { induction k as [|k IH]; [right; lia|]. destruct IH as [(i & Hi & H)|IH]; [left; exists i; split; [lia|done]|].
    destruct (N.eq_dec (numbers a k) (numbers b k)) as [E|E].
    - right. intros i Hi. destruct (Nat.eq_dec i k) as [->|]; [done|]. apply IH. lia.
    - left. exists k. split; [lia|]. split; [done|]. exact IH. }
  destruct (H n) as [(i & _ & Hne & Hj)|Hall].
  - destruct (N.lt_trichotomy (numbers a i) (numbers b i)) as [Hlt|[?|Hlt]]; [|done|].
    + right. left. exists i. split; [done|]. intros j Hlt'. by rewrite Hj.
    + left. exists i. done.
  - right. right. intros i. destruct (Nat.lt_ge_cases i n); [by apply Hall|by apply Hz].
Qed.

(** compareVersion orders versions by their runs of digits, from the left and as
    if they went on with zeros: the answer is false exactly when the second version
    is above the first; the order is total and transitive, and two versions are each
    at least the other exactly when their numbers are the same. *)
Theorem compareVersion_order a b c :
  (compareVersion a b = false <-> above (numbers b) (numbers a)) /\
  (compareVersion a b = true \/ compareVersion b a = true) /\
  (compareVersion a b = true -> compareVersion b c = true -> compareVersion a c = true) /\
  (compareVersion a b = true /\ compareVersion b a = true <-> forall i, numbers a i = numbers b i).
Proof.
  split; [apply compareVersion_spec|]. split; [apply compareVersion_total|].
  assert (Heq : forall x y, compareVersion x y = true <-> ~ above (numbers y) (numbers x)).
  { intros x y. rewrite <- compareVersion_spec. destruct (compareVersion x y); split; congruence. }
  assert (Hext : forall x y z, (forall i, numbers x i = numbers y i) -> above z (numbers x) -> above z (numbers y)).
  { intros x y z E (i & Hi & Hj). exists i. rewrite <- E. split; [done|]. intros j Hlt. by rewrite <- E, Hj. }
  split.
  - rewrite !Heq. intros Hab Hbc Hac. destruct (numbers_compare b a) as [?|[H|H]]; [done|..].
    + apply Hbc. by apply (above_trans _ (numbers a)).
    + apply Hbc. by apply (Hext a b); [intros i; rewrite H|].
  - rewrite !Heq. split.
    + intros [H1 H2]. destruct (numbers_compare a b) as [?|[?|?]]; done.
    + intros E. split; intros (i & Hi & _); rewrite E in Hi; lia.
Qed.

Lemma compareVersion_order_witness :
  compareVersion (js "v2.0.10") (js "v2.0.9") = true /\ compareVersion (js "v2.0.9") (js "v2") = true /\
  compareVersion (js "v2.0.10") (js "v2") = true.
Proof.
  split; [vm_compute; reflexivity|]. split; [vm_compute; reflexivity|].
  apply (proj1 (proj2 (proj2 (compareVersion_order (js "v2.0.10") (js "v2.0.9") (js "v2"))))); vm_compute; reflexivity.
Defined.
