(* ===== verification/WebUrl.v ===== *)
(** * URLs

    The URL parser of the browser as far as the forms rely on it: the class [WebURL]
    states its parts and one law about origins; the instance at the end parses plain
    origins only and serves evaluation. *)

From S2P Require Import Prelude JsString Splitting.
From Stdlib Require Import ZifyBool ZifyN.

#[local] Open Scope list_scope.

Record URL := {
  u_protocol : jsstr; u_username : jsstr; u_password : jsstr; u_search : jsstr; u_hash : jsstr;
  u_pathname : jsstr; u_host : jsstr;
}.

(** The parser of URLs.  For the two web protocols, protocol and host make a URL of
    the same protocol and host with the root path and nothing else, and hold no white
    space. *)
Class WebURL := {
  new_URL : jsstr -> option URL;
  new_URL_origin s u : new_URL s = Some u ->
    u.(u_protocol) ∈ [js "http:"; js "https:"] -> u.(u_host) <> [] ->
    let o := u.(u_protocol) ++ js "//" ++ u.(u_host) in
    new_URL o = Some {| u_protocol := u.(u_protocol); u_username := []; u_password := []; u_search := [];
                        u_hash := []; u_pathname := js "/"; u_host := u.(u_host) |} /\
    Forall (fun c => is_ws c = false) o;
}.

(** A parser of plain origins, for evaluation: http or https, and a host of letters,
    digits, dots, colons and dashes. *)
Definition host_unit (c : N) : bool :=
  is_digit c || is_lower c || (c =? 46)%N || (c =? 45)%N || (c =? 58)%N.
Definition simple_URL (s : jsstr) : option URL :=
  let origin p h :=
    if truthy h && forallb host_unit h
    then Some {| u_protocol := p; u_username := []; u_password := []; u_search := []; u_hash := [];
                 u_pathname := js "/"; u_host := h |} else None in
  if startsWith s (js "http://") then origin (js "http:") (drop 7 s)
  else if startsWith s (js "https://") then origin (js "https:") (drop 8 s)
  else None.

Lemma simple_URL_parts s u : simple_URL s = Some u ->
  exists p, (p = js "http:" \/ p = js "https:") /\ truthy u.(u_host) = true /\ forallb host_unit u.(u_host) = true /\
    u = {| u_protocol := p; u_username := []; u_password := []; u_search := []; u_hash := [];
           u_pathname := js "/"; u_host := u.(u_host) |}.
Proof.
  intros H. unfold simple_URL in H. destruct (startsWith s (js "http://")); [|destruct (startsWith s (js "https://")); [|done]];
    (destruct (truthy _ && forallb host_unit _) eqn:E; [|done]); injection H as <-; apply andb_true_iff in E as [E1 E2];
    eexists; (split; [|split; [exact E1|split; [exact E2|done]]]); auto.
Qed.

Lemma simple_URL_of p h : p = js "http:" \/ p = js "https:" -> truthy h = true -> forallb host_unit h = true ->
  simple_URL (p ++ js "//" ++ h) = Some {| u_protocol := p; u_username := []; u_password := []; u_search := [];
                                            u_hash := []; u_pathname := js "/"; u_host := h |}.
Proof.
  intros Hp Ht Hh. unfold simple_URL. destruct h as [|c h]; [done|]. destruct Hp as [->| ->]; cbn -[forallb]; by rewrite Hh.
Qed.

Lemma host_unit_plain h c : forallb host_unit h = true -> c ∈ h -> is_ws c = false /\ c <> 35%N /\ c <> 47%N /\ c <> 63%N.
Proof.
  intros Hh Hc. rewrite forallb_elem in Hh. apply Hh in Hc. unfold host_unit, is_digit, is_lower in Hc. unfold is_ws. lia.
Qed.

Lemma origin_no_ws p h : p = js "http:" \/ p = js "https:" -> forallb host_unit h = true ->
  Forall (fun c => is_ws c = false) (p ++ js "//" ++ h).
Proof.
  intros Hp Hh. apply Forall_app_2; [destruct Hp as [->| ->]; by repeat constructor|].
  apply Forall_app_2; [by repeat constructor|]. apply Forall_elem. intros c Hc. by apply (host_unit_plain h c).
Qed.

#[export] Instance simple_urls : WebURL | 100.
Proof.
  refine {| new_URL := simple_URL |}. intros s u H _ Hne. apply simple_URL_parts in H as (p & Hp & Ht & Hh & ->).
  cbn [u_protocol u_host]. split; [by apply simple_URL_of|by apply origin_no_ws].
Defined.

(** A parser of locations, for evaluation: an origin with a path, a query and a fragment. *)
Definition cut (c : N) (s : jsstr) : jsstr * jsstr :=
  match indexOf s [c] with Some i => (take i s, drop i s) | None => (s, []) end.

Definition located_URL (s : jsstr) : option URL :=
  let '(s, hash) := cut 35 s in
  let '(s, search) := cut 63 s in
  let n := if startsWith s (js "http://") then 7 else 8 in
  let '(host, path) := cut 47 (drop n s) in
  u ← simple_URL (take n s ++ host);
  Some {| u_protocol := u.(u_protocol); u_username := []; u_password := [];
          u_search := if length search <=? 1 then [] else search; u_hash := if length hash <=? 1 then [] else hash;
          u_pathname := if truthy path then path else js "/"; u_host := u.(u_host) |}.

Lemma cut_none c s : c ∉ s -> cut c s = (s, []).
Proof. intros H. unfold cut. by apply indexOf_unit in H as ->. Qed.

Definition located_urls : WebURL.
Proof.
  refine {| new_URL := located_URL |}. intros s u H _ Hne. unfold located_URL in H.
  destruct (cut 35 s) as [s1 hash]. destruct (cut 63 s1) as [s2 search]. destruct (cut 47 _) as [host path].
  destruct (simple_URL _) as [v|] eqn:E; [|done]. injection H as <-. cbn [u_protocol u_host] in *.
  apply simple_URL_parts in E as (p & Hp & Ht & Hh & ->). cbn [u_protocol u_host] in *. set (h := u_host v) in *. clearbody h.
  split; [|by apply origin_no_ws]. unfold located_URL.
  assert (Ho : forall c, c ∈ p ++ js "//" ++ h -> c <> 35%N /\ c <> 63%N).
  { intros c. rewrite !elem_of_app. intros [Hc|[Hc|Hc]].
    - destruct Hp as [->| ->]; (split; intros ->; apply has_unit_spec in Hc; by vm_compute in Hc).
    - split; intros ->; apply has_unit_spec in Hc; by vm_compute in Hc.
    - apply (host_unit_plain h c) in Hc; [|done]. naive_solver. }
  rewrite cut_none by (intros Hc; by apply Ho in Hc as [Hc _]). rewrite cut_none by (intros Hc; by apply Ho in Hc as [_ Hc]).
  assert (exists n, (if startsWith (p ++ js "//" ++ h) (js "http://") then 7 else 8) = n /\ n = length (p ++ js "//")) as (n & -> & Hn).
  { destruct Hp as [->| ->]; eexists; (split; [reflexivity|reflexivity]). }
  rewrite app_assoc, Hn, drop_app_length, take_app_length. rewrite cut_none by (intros Hc; by apply (host_unit_plain h) in Hc as (_ & _ & Hc & _)).
  rewrite <- app_assoc, simple_URL_of by done. done.
Defined.
