(* ===== verification/FileHelpers.v ===== *)
(** * File helpers

    src/frontend/src/utils/file.ts.  URLs are the records of the class [WebURL], their
    query strings those of UrlEncoded; setting a parameter or the hash of a URL object
    updates its record.  [None] is an exception.  The download of a content through a
    link element is not modelled. *)

From Stdlib Require Import ZifyBool ZifyN.
From S2P Require Import Prelude JsString Splitting Uri Utf8 UrlEncoded WebUrl Mimetype.

#[local] Open Scope N_scope.
#[local] Open Scope list_scope.

(** ** Kinds of files *)

Definition icons : list (jsstr * jsstr) :=
  List.map (fun p => (js p.1, js p.2))
  [ (".zip", "p-file-zip"); (".gz", "p-file-zip"); (".tar.bz2", "p-file-zip"); (".bz2", "p-file-zip"); (".xz", "p-file-zip");
    (".tar.xz", "p-file-zip"); (".tar", "p-file-zip"); (".tar.gz", "p-file-zip"); (".war", "p-file-zip"); (".tgz", "p-file-zip");
    (".7z", "p-file-zip"); (".rar", "p-file-zip"); (".mp3", "p-file-mp3"); (".svg", "p-file-svg"); (".txt", "p-file-txt");
    (".html", "p-file-html"); (".word", "p-file-word"); (".ppt", "p-file-ppt"); (".jpg", "p-file-jpg"); (".jpeg", "p-file-jpg");
    (".png", "p-file-png"); (".xlsx", "p-file-excel"); (".doc", "p-file-word"); (".xls", "p-file-excel"); (".docx", "p-file-word");
    (".pdf", "p-file-pdf"); (".bmp", "p-file-png"); (".gif", "p-file-png"); (".tiff", "p-file-png"); (".ico", "p-file-png");
    (".webp", "p-file-png"); (".mp4", "p-file-video"); (".webm", "p-file-video"); (".mov", "p-file-video"); (".wmv", "p-file-video");
    (".mkv", "p-file-video"); (".avi", "p-file-video"); (".wma", "p-file-video"); (".flv", "p-file-video"); (".wav", "p-file-mp3");
    (".wma", "p-file-mp3"); (".ape", "p-file-mp3"); (".acc", "p-file-mp3"); (".ogg", "p-file-mp3"); (".flac", "p-file-mp3") ]%string.

Definition fileTypes : list (jsstr * list jsstr) :=
  List.map (fun p => (js p.1, List.map js p.2))
  [ ("image", [".jpg"; ".jpeg"; ".png"; ".bmp"; ".gif"; ".tiff"; ".ico"; ".svg"; ".webp"]);
    ("compress", [".zip"; ".rar"; ".gz"; ".war"; ".tgz"; ".7z"; ".tar.gz"; ".tar"; ".bz2"; ".xz"; ".tar.bz2"; ".tar.xz"]);
    ("video", [".mp4"; ".webm"; ".mov"; ".wmv"; ".mkv"; ".avi"; ".wma"; ".flv"]);
    ("audio", [".mp3"; ".wav"; ".wma"; ".ape"; ".acc"; ".ogg"; ".flac"]);
    ("pdf", [".pdf"]);
    ("word", [".doc"; ".docx"]);
    ("excel", [".xls"; ".xlsx"]);
    ("text", [".iso"; ".tiff"; ".exe"; ".so"; ".bz"; ".dmg"; ".apk"; ".pptx"; ".ppt"; ".xlsb"]) ]%string.

Definition getIcon (extension : jsstr) : jsstr := default (js "p-file-normal") (lookup_last extension icons).

Definition sensitivePath : list jsstr :=
  List.map js ["/"; "/bin"; "/sbin"; "/usr/bin"; "/usr/sbin"; "/usr/local/bin"; "/etc"; "/lib"; "/lib64"; "/usr/lib"; "/home";
               "/tmp"; "/var"; "/dev"; "/proc"; "/sys"]%string.
Definition isSensitiveLinuxPath (path : jsstr) : bool := memb path sensitivePath.

(** [s.split('/').pop() || ''] *)
Definition base_name (path : jsstr) : jsstr := List.last (split 47 path) [].

Section Names.
Context {JU : JsUnicode}.

(** The last type that lists the extension. *)
Definition getFileType (extension : jsstr) : jsstr :=
  foldl (fun type '(key, extensions) => if memb (toLowerCase extension) extensions then key else type) (js "text") fileTypes.

Definition convertTypes : list jsstr := [js "image"; js "video"; js "audio"].

Definition isConvertible (extension mimeType : jsstr) : bool :=
  memb (getFileType extension) convertTypes &&
  (startsWith mimeType (js "image/") || startsWith mimeType (js "audio/") || startsWith mimeType (js "video/")).

(** ** Languages of the editor *)

Definition editorLanguages : list (jsstr * jsstr) :=
  flat_map (fun '(lang, exts) => List.map (fun ext => (toLowerCase ext, lang)) exts) Languages.

Definition specialEditorFileNames : list jsstr := [js "dockerfile"].

Definition normalizeEditorExtension (value : jsstr) : jsstr :=
  let trimmed := toLowerCase (trim value) in
  if negb (truthy trimmed) then []
  else if startsWith trimmed (js ".") then drop 1 trimmed else trimmed.

Definition isSpecialEditorFileName (value : jsstr) : bool :=
  let normalized := toLowerCase (trim value) in
  truthy normalized && memb normalized specialEditorFileNames.

(** The language of the first candidate that has one; a label is never empty. *)
Definition resolveEditorLanguage (path extension name : jsstr) : jsstr :=
  if isSpecialEditorFileName name then js "dockerfile"
  else
    let candidates := List.filter truthy (List.map normalizeEditorExtension [extension; base_name path]) in
    match List.find truthy (omap (fun ext => lookup_last ext editorLanguages) candidates) with
    | Some language => language
    | None => if isSpecialEditorFileName (base_name path) then js "dockerfile" else js "yaml"
    end.

(** ** Names from a URL *)

Definition is_quote (c : N) : bool := (c =? 39) || (c =? 34).

(** A quote at the start and a quote at the end are left out. *)
Definition drop_quote (s : jsstr) : jsstr := match s with c :: s' => if is_quote c then s' else s | [] => [] end.
Definition strip_quotes (s : jsstr) : jsstr := rev (drop_quote (rev (drop_quote s))).

Definition name_control (c : N) : bool := (c <=? 31) || (c =? 127).
Definition path_separator (c : N) : bool := (c =? 47) || (c =? 92).

(** The last piece between separators. *)
Definition last_piece (s : jsstr) : jsstr :=
  foldl (fun piece c => if path_separator c then [] else piece ++ [c]) [] s.

Definition normalizeUrlFilename (value : jsstr) : jsstr :=
  let decoded := strip_quotes (trim value) in
  let decoded := default decoded (decodeURIComponent decoded) in
  trim (last_piece (List.filter (fun c => negb (name_control c)) decoded)).

(** A word of ASCII letters without regard to case. *)
Fixpoint match_word (w s : jsstr) : option jsstr :=
  match w, s with
  | [], _ => Some s
  | a :: w', c :: s' => if ascii_lower c =? a then match_word w' s' else None
  | _, [] => None
  end.

(** The units before the first [c]. *)
Definition until (c : N) (s : jsstr) : jsstr := match indexOf s [c] with Some i => take i s | None => s end.

(** The expressions of a filename parameter, [star] telling which one, after their first
    group: the value between quotes, or what comes before a semicolon. *)
Definition match_filename (star : bool) (s : jsstr) : option (option jsstr * option jsstr) :=
  s ← match_word (js "filename") (trimStart s);
  s ← (if star then match s with c :: s' => if c =? 42 then Some s' else None | [] => None end else Some s);
  match trimStart s with
  | c :: s =>
      if c =? 61 then
        let s := trimStart s in
        match s with
        | d :: q =>
            if d =? 34 then
              match indexOf q [34] with
              | Some i => Some (Some (take i q), None)
              | None => Some (None, Some (until 59 s))
              end
            else Some (None, Some (until 59 s))
        | [] => Some (None, Some [])
        end
      else None
  | [] => None
  end.

(** The first match: at the start, or after a semicolon. *)
Fixpoint exec_after (star : bool) (s : jsstr) : option (option jsstr * option jsstr) :=
  match s with
  | [] => None
  | c :: s' =>
      match (if c =? 59 then match_filename star s' else None) with
      | Some m => Some m
      | None => exec_after star s'
      end
  end.
Definition exec_filename (star : bool) (s : jsstr) : option (option jsstr * option jsstr) :=
  match match_filename star s with Some m => Some m | None => exec_after star s end.

Definition or_else (a b : jsstr) : jsstr := if truthy a then a else b.

(** What follows the charset and the language of an extended value: the rest after the
    second quote, when it is one line. *)
Definition after_charset (s : jsstr) : option jsstr :=
  i ← indexOf s [39];
  j ← indexOf (drop (S i) s) [39];
  let rest := drop (S j) (drop (S i) s) in
  if existsb line_terminator rest then None else Some rest.

Definition getFilenameFromContentDisposition (contentDisposition : jsstr) : jsstr :=
  let m := exec_filename true contentDisposition in
  let extendedValue := or_else (default [] (m ≫= fst)) (trim (default [] (m ≫= snd))) in
  if truthy extendedValue then
    let encodedValue := or_else (default [] (after_charset extendedValue)) extendedValue in
    normalizeUrlFilename encodedValue
  else
    let m := exec_filename false contentDisposition in
    normalizeUrlFilename (or_else (default [] (m ≫= fst)) (default [] (m ≫= snd))).

(** [value.slice(value.lastIndexOf('/') + 1)] *)
Definition last_segment (s : jsstr) : jsstr :=
  match lastIndexOf s 47 with Some i => drop (S i) s | None => s end.

(** [s.replace(/[?#].*$/, '')]: cut at the first of the two signs that is followed by the
    rest of one line. *)
Fixpoint cut_query (s : jsstr) : jsstr :=
  match s with
  | [] => []
  | c :: s' => if ((c =? 63) || (c =? 35)) && negb (existsb line_terminator s') then [] else c :: cut_query s'
  end.

Definition dispositionKeys : list jsstr := [js "response-content-disposition"; js "rscd"; js "content-disposition"].

Definition getFilenameFromUrl `{WebURL} (value : jsstr) : jsstr :=
  let normalizedValue := trim value in
  match new_URL normalizedValue with
  | Some url =>
      let named key :=
        disposition ← snd <$> List.find (fun p => toLowerCase p.1 === key) (new_URLSearchParams url.(u_search));
        let filename := if truthy disposition then getFilenameFromContentDisposition disposition else [] in
        if truthy filename then Some filename else None in
      match omap named dispositionKeys with
      | filename :: _ => filename
      | [] => normalizeUrlFilename (last_segment url.(u_pathname))
      end
  | None => normalizeUrlFilename (last_segment (cut_query normalizedValue))
  end.
End Names.

(** ** Shared files *)

Definition with_search (l : list (jsstr * jsstr)) (url : URL) : URL :=
  {| u_protocol := url.(u_protocol); u_username := url.(u_username); u_password := url.(u_password);
     u_search := match params_toString l with [] => [] | q => js "?" ++ q end;
     u_hash := url.(u_hash); u_pathname := url.(u_pathname); u_host := url.(u_host) |}.

Definition with_hash (h : jsstr) (url : URL) : URL :=
  {| u_protocol := url.(u_protocol); u_username := url.(u_username); u_password := url.(u_password);
     u_search := url.(u_search); u_hash := match h with [] => [] | _ => js "#" ++ h end;
     u_pathname := url.(u_pathname); u_host := url.(u_host) |}.

(** [url.searchParams.set(name, value)] *)
Definition set_param (name value : jsstr) (url : URL) : URL :=
  with_search (params_set name value (new_URLSearchParams url.(u_search))) url.

Section Share.
(** The API base of the build, the origin of the page, and the URL parser with a base *)
Variables apiBase origin : jsstr.
Variable new_URL_base : jsstr -> jsstr -> option URL.
Context {WU : WebURL}.

Definition buildFileDownloadUrl (filePath currentNode : jsstr) : option jsstr :=
  path ← encodeURIComponent filePath;
  Some (apiBase ++ js "/files/download?operateNode=" ++ currentNode ++ js "&" ++ js "path=" ++ path).

Definition buildFileSharePageUrl (code currentNode : jsstr) : option URL :=
  code ← encodeURIComponent code;
  shareUrl ← new_URL_base (js "/s/" ++ code) origin;
  Some (set_param (js "operateNode") currentNode shareUrl).

(** [apiBase.replace(/\/$/, '')] *)
Definition normalizedBase : jsstr := if endsWith apiBase (js "/") then take (length apiBase - 1) apiBase else apiBase.

(** [/^https?:\/\//i] *)
Definition absolute (s : jsstr) : bool :=
  bool_decide (is_Some (match_word (js "http://") s)) || bool_decide (is_Some (match_word (js "https://") s)).

Definition api_url (path : jsstr) : option URL :=
  if absolute normalizedBase then new_URL (normalizedBase ++ path) else new_URL_base (normalizedBase ++ path) origin.

Definition buildFileShareDownloadUrl (code currentNode : jsstr) (password : option jsstr) : option URL :=
  shareUrl ← api_url (js "/files/share/download");
  let shareUrl := set_param (js "code") code (set_param (js "operateNode") currentNode shareUrl) in
  Some (match password with
        | Some p => if truthy p then set_param (js "password") p shareUrl else shareUrl
        | None => shareUrl
        end).

Definition buildFileShareQrCodeUrl (code currentNode : jsstr) : option URL :=
  shareUrl ← api_url (js "/files/share/qrcode");
  Some (set_param (js "code") code (set_param (js "operateNode") currentNode shareUrl)).

Definition downloadFile := buildFileDownloadUrl.
End Share.

Definition FILE_SHARE_PASSWORD_KEY : jsstr := js "k".

(** [hash.replace(/^#/, '')] *)
Definition drop_hash (hash : jsstr) : jsstr := if startsWith hash (js "#") then drop 1 hash else hash.

(** On the URL object of the value. *)
Definition set_share_password (password : jsstr) (shareUrl : URL) : URL :=
  let hashParams := new_URLSearchParams (drop 1 shareUrl.(u_hash)) in
  let normalizedPassword := trim password in
  with_hash (params_toString (if truthy normalizedPassword
                              then params_set FILE_SHARE_PASSWORD_KEY normalizedPassword hashParams
                              else params_delete FILE_SHARE_PASSWORD_KEY hashParams)) shareUrl.

Definition withFileSharePassword `{WebURL} (value password : jsstr) : option URL :=
  set_share_password password <$> new_URL value.

Definition getFileSharePasswordFromHash (hash : jsstr) : jsstr :=
  trim (default [] (params_get FILE_SHARE_PASSWORD_KEY (new_URLSearchParams (drop_hash hash)))).

Definition removeFileSharePasswordFromHash (hash : jsstr) : jsstr :=
  let remainingHash := params_toString (params_delete FILE_SHARE_PASSWORD_KEY (new_URLSearchParams (drop_hash hash))) in
  if truthy remainingHash then js "#" ++ remainingHash else [].

Example name_1 : getFilenameFromContentDisposition (js "attachment; filename=a.txt; FileName* = UTF-8''%E2%82%AC%20b.txt") = 8364 :: js " b.txt".
Proof. by vm_compute. Qed.
Example name_2 : getFilenameFromUrl (js "/x/y%2Fz\\w.zip?a=b#c") = js "w.zip".
Proof. by vm_compute. Qed.
Example name_3 : getFilenameFromUrl (js "https://1panel.cn/") = [] /\ getFilenameFromUrl (js "/a/..") = js "..".
Proof. by vm_compute. Qed.
Example editor_1 : resolveEditorLanguage (js "/etc/Dockerfile") [] [] = js "dockerfile" /\
  resolveEditorLanguage (js "/a/b.yml") (js ".yml") (js "b.yml") = js "yaml" /\ resolveEditorLanguage (js "/a/x") (js ".PY") [] = js "python".
Proof. by vm_compute. Qed.
Example share_1 : (set_share_password (js " p&q ") {| u_protocol := js "https:"; u_username := []; u_password := []; u_search := [];
  u_hash := js "#a=b&k=old"; u_pathname := js "/s/c"; u_host := js "h" |}).(u_hash) = js "#a=b&k=p%26q".
Proof. by vm_compute. Qed.

(** ** Lemmas *)

Lemma last_piece_go s acc : (forall c, c ∈ acc -> path_separator c = false) ->
  let r := foldl (fun piece c => if path_separator c then [] else piece ++ [c]) acc s in
  (forall c, c ∈ r -> path_separator c = false /\ (c ∈ acc \/ c ∈ s)) /\
  ((forall c, c ∈ s -> path_separator c = false) -> r = acc ++ s).
Proof.
  cbv zeta. revert acc. induction s as [|d s IH]; intros acc Ha; cbn [foldl].
  { split; [intros c Hc; split; [by apply Ha|by left]|by rewrite app_nil_r]. }
  destruct (path_separator d) eqn:E.
  - destruct (IH []) as [H1 H2]; [intros c Hc; by apply elem_of_nil in Hc|]. split.
    + intros c Hc. apply H1 in Hc as [Hc [Hn|Hs]]; [by apply elem_of_nil in Hn|]. split; [done|]. right. by right.
    + intros H. rewrite (H d) in E; [done|by left].
  - destruct (IH (acc ++ [d])) as [H1 H2].
    { intros c. rewrite elem_of_app, list_elem_of_singleton. intros [Hc| ->]; [by apply Ha|done]. }
    split.
    + intros c Hc. apply H1 in Hc as [Hc Hin]. split; [done|]. rewrite elem_of_app, list_elem_of_singleton in Hin.
      rewrite elem_of_cons. naive_solver.
    + intros H. rewrite H2; [by rewrite <- app_assoc|]. intros c Hc. apply H. by right.
Qed.

Lemma last_piece_plain s c : c ∈ last_piece s -> path_separator c = false /\ c ∈ s.
Proof.
  intros Hc. apply (last_piece_go s []) in Hc as [H [Hn|Hs]]; [by apply elem_of_nil in Hn|done|].
  intros d Hd. by apply elem_of_nil in Hd.
Qed.

Lemma last_piece_id s : (forall c, c ∈ s -> path_separator c = false) -> last_piece s = s.
Proof. intros H. apply (last_piece_go s []); [|done]. intros d Hd. by apply elem_of_nil in Hd. Qed.

(** What a file name may be: no separator, no control character, no blank at an end. *)
Definition plain_name (s : jsstr) : Prop :=
  no_ws_ends s /\ forall c, c ∈ s -> path_separator c = false /\ name_control c = false.

Lemma normalize_plain value : plain_name (normalizeUrlFilename value).
Proof.
  split; [apply no_ws_ends_trim|]. intros c Hc. apply trim_sub, last_piece_plain in Hc as [H Hc].
  split; [done|]. apply elem_filter in Hc as [_ Hc]. by destruct (name_control c).
Qed.

(** The quotes of an encoded name are those of the name. *)
Lemma drop_quote_id s : (forall c, head s = Some c -> is_quote c = false) -> drop_quote s = s.
Proof. intros H. destruct s as [|c s]; [done|]. cbn [drop_quote]. by rewrite (H c). Qed.

Definition no_quote_ends (s : jsstr) : Prop :=
  (forall c, head s = Some c -> is_quote c = false) /\ (forall c, head (rev s) = Some c -> is_quote c = false).

Lemma strip_quotes_id s : no_quote_ends s -> strip_quotes s = s.
Proof.
  intros [H1 H2]. unfold strip_quotes. rewrite (drop_quote_id s) by done. rewrite drop_quote_id by done. apply rev_involutive.
Qed.

(** A unit of an encoded value: it can be kept, or it belongs to an escape. *)
Lemma encode_cp_ends cp : scalar cp -> exists c l d, encode_cp cp = c :: l /\ head (rev (encode_cp cp)) = Some d /\
  (is_quote c = true -> cp = 39) /\ (is_quote d = true -> cp = 39).
Proof.
  intros (Hlt & _). unfold encode_cp. destruct (unreserved cp) eqn:E.
  - exists cp, [], cp. split; [done|]. split; [done|]. unfold is_quote. split; intros H; apply orb_true_iff in H as [H|H];
      apply N.eqb_eq in H; subst; try done; by vm_compute in E.
  - assert (Hne : utf8 cp <> []) by (unfold utf8; repeat case_step; done). pose proof (utf8_bytes cp Hlt) as Hb.
    assert (Hp : forall b, b < 256 -> exists x, pct b = [37; x; hex_digit (b mod 16)] /\ is_quote (hex_digit (b mod 16)) = false).
    { intros b Hb'. eexists. split; [done|]. unfold is_quote, hex_digit. case_step; lia. }
    destruct (utf8 cp) as [|b l]; [done|]. inversion Hb as [|? ? Hb1 Hl]; subst.
    destruct (Hp b Hb1) as (x & Hx & Hq). cbn [flat_map]. rewrite Hx. cbn [app].
    destruct l as [|b' l' _] using rev_ind.
    + eexists _, _, _. split; [done|]. split; [done|]. split; [done|]. by rewrite Hq.
    + apply Forall_app in Hl as [_ Hl]. inversion Hl as [|? ? Hb2 _]; subst. destruct (Hp b' Hb2) as (y & Hy & Hq').
      rewrite flat_map_app. cbn [flat_map]. rewrite Hy, app_nil_r. eexists _, _, _. split; [done|].
      split; [|split; [done|by rewrite Hq']].
      cbn [rev]. by rewrite !rev_app_distr.
Qed.

(** A name the server sends: well formed, plain, and without a quote at an end. *)
Definition sendable (f : jsstr) : Prop :=
  f <> [] /\ Forall unit16 f /\ plain_name f /\ no_quote_ends f.

Lemma encode_ends f t : Forall unit16 f -> no_quote_ends f -> encodeURIComponent f = Some t -> no_quote_ends t.
Proof.
  intros Hu [H1 H2] Ht. unfold encodeURIComponent in Ht. apply fmap_Some in Ht as (cps & Hcps & ->).
  destruct (code_points_strong (length f) f cps) as [Hall Hun]; [done|done|done|]. subst f. clear Hcps Hu.
  split; intros c Hc.
  - destruct cps as [|cp cps]; [done|]. inversion Hall as [|? ? Hcp _]; subst.
    destruct (encode_cp_ends cp Hcp) as (d & l & e & He & _ & Hq & _). cbn [flat_map] in Hc. rewrite He in Hc. injection Hc as <-.
    apply not_true_iff_false. intros H. apply Hq in H as ->. specialize (H1 39 eq_refl). by vm_compute in H1.
  - destruct cps as [|cp cps _] using rev_ind; [done|]. apply Forall_app in Hall as [_ Hcp]. inversion Hcp as [|? ? Hcp' _]; subst.
    destruct (encode_cp_ends cp Hcp') as (d & l & e & _ & He & _ & Hq). rewrite flat_map_app in Hc, H2. cbn [flat_map] in Hc, H2.
    rewrite app_nil_r in Hc, H2. rewrite rev_app_distr in Hc, H2. destruct (rev (encode_cp cp)) as [|x r]; [done|].
    injection He as ->. injection Hc as <-. apply not_true_iff_false. intros H. apply Hq in H as ->.
    specialize (H2 39 eq_refl). by vm_compute in H2.
Qed.

Lemma normalize_encoded f t : sendable f -> encodeURIComponent f = Some t -> normalizeUrlFilename t = f.
Proof.
  intros (Hne & Hu & [Hws Hp] & Hq) Ht. unfold normalizeUrlFilename.
  assert (Hsafe : forall c, c ∈ t -> is_ws c = false).
  { intros c Hc. pose proof (encode_safe f t c Hu Ht Hc) as Hs. unfold uri_safe in Hs.
    apply orb_true_iff in Hs as [Hs|Hs%N.eqb_eq]; [by apply unreserved_ws|by subst]. }
  rewrite (trim_id t) by (by apply no_ws_ends_all, Forall_elem).
  rewrite strip_quotes_id by (by eapply encode_ends). rewrite (decode_encode f t Hu Ht). change (default t (Some f)) with f.
  assert (List.filter (fun c => negb (name_control c)) f = f) as ->.
  { apply filter_all. intros c Hc. by apply Hp in Hc as [_ ->]. }
  rewrite last_piece_id by (intros c Hc; by apply Hp). by apply trim_id.
Qed.

Lemma until_all c s : c ∉ s -> until c s = s.
Proof. intros H. unfold until. by apply indexOf_unit in H as ->. Qed.

Lemma disposition_name f t : sendable f -> encodeURIComponent f = Some t ->
  getFilenameFromContentDisposition (js "attachment; filename*=UTF-8''" ++ t) = f.
Proof.
  intros Hf Ht. assert (Hu := proj1 (proj2 Hf)).
  assert (Hsafe : forall c, c ∈ t -> c <> 59 /\ is_ws c = false /\ line_terminator c = false).
  { intros c Hc. pose proof (encode_safe f t c Hu Ht Hc) as Hs. unfold uri_safe in Hs.
    assert (is_ws c = false) by (apply orb_true_iff in Hs as [Hs|Hs%N.eqb_eq]; [by apply unreserved_ws|by subst]).
    split; [intros ->; by vm_compute in Hs|]. split; [done|]. unfold is_ws, line_terminator in *. lia. }
  assert (Hne : t <> []).
  { intros ->. pose proof (decode_encode f [] Hu Ht) as H. injection H as <-. by destruct Hf. }
  set (v := js "UTF-8''" ++ t).
  assert (Hm : exec_filename true (js "attachment; filename*=UTF-8''" ++ t) = Some (None, Some (until 59 v))) by reflexivity.
  assert (Hv : until 59 v = v).
  { apply until_all. unfold v. rewrite elem_of_app. intros [H|H]; [apply has_unit_spec in H; by vm_compute in H|]. by apply Hsafe in H as [H _]. }
  assert (Htr : trim v = v).
  { apply trim_id, no_ws_ends_all, Forall_elem. intros c Hc. unfold v in Hc. apply elem_of_app in Hc as [Hc|Hc]; [|by apply Hsafe].
    assert (Hall : forallb (fun c => negb (is_ws c)) (js "UTF-8''") = true) by done.
    rewrite forallb_elem in Hall. apply Hall in Hc. by destruct (is_ws c). }
  assert (Hch : after_charset v = Some t).
  { change (after_charset v) with (if existsb line_terminator t then None else Some t).
    assert (existsb line_terminator t = false) as ->; [|done]. apply not_true_iff_false.
    intros (c & Hc & Hl)%existsb_elem. apply Hsafe in Hc as (_ & _ & Hc). congruence. }
  unfold getFilenameFromContentDisposition. rewrite Hm, Hv. cbn [mbind option_bind fst snd].
  change (or_else (default [] None) (trim (default [] (Some v)))) with (trim v). rewrite Htr, Hch.
  change (truthy v) with true. cbv iota. change (default [] (Some t)) with t. unfold or_else.
  assert (truthy t = true) as -> by by apply truthy_true. by apply normalize_encoded.
Qed.

Section Theorems.
Context {JU : JsUnicode} {WU : WebURL}.

(** The name proposed for a download never holds a path separator or a control character,
    nor a blank at an end, whatever the text, its query or a header in it is; and a name
    sent in a Content-Disposition parameter of the URL is the one proposed. *)
Theorem getFilenameFromUrl_plain value :
  plain_name (getFilenameFromUrl value) /\
  (forall url f t, new_URL (trim value) = Some url -> sendable f -> encodeURIComponent f = Some t ->
     (exists key, List.find (fun p => toLowerCase p.1 === js "response-content-disposition") (new_URLSearchParams url.(u_search)) =
        Some (key, js "attachment; filename*=UTF-8''" ++ t)) ->
     getFilenameFromUrl value = f).
Proof.
  split.
  - unfold getFilenameFromUrl. destruct (new_URL (trim value)) as [url|]; [|apply normalize_plain].
    set (named := fun key => _). assert (Hn : forall key f, named key = Some f -> plain_name f).
    { intros key f. unfold named. destruct (List.find _ _) as [p|]; cbn [fmap option_fmap option_map mbind option_bind]; [|done].
      destruct (truthy p.2); cbn [truthy]; [|done]. destruct (truthy (getFilenameFromContentDisposition p.2)); [|done].
      intros [= <-]. unfold getFilenameFromContentDisposition. case_step; apply normalize_plain. }
    destruct (omap named dispositionKeys) as [|f l] eqn:E; [apply normalize_plain|].
    assert (f ∈ omap named dispositionKeys) as Hf by (rewrite E; by left).
    apply list_elem_of_omap in Hf as (key & _ & Hf). by eapply Hn.
  - intros url f t Hu Hf Ht [key Hk]. unfold getFilenameFromUrl. rewrite Hu. unfold dispositionKeys.
    cbn [omap list_omap]. rewrite Hk. cbn [fmap option_fmap option_map mbind option_bind snd].
    rewrite (disposition_name f t) by done. change (truthy (js "attachment; filename*=UTF-8''" ++ t)) with true. cbv iota.
    assert (truthy f = true) as -> by (apply truthy_true; by destruct Hf). done.
Qed.
End Theorems.

Lemma drop_with_hash h url : drop_hash (with_hash h url).(u_hash) = h.
Proof. by destruct h. Qed.

Lemma drop_text_hash h : drop_hash (if truthy h then js "#" ++ h else []) = h.
Proof. by destruct h. Qed.

Lemma key_well_formed : well_formed FILE_SHARE_PASSWORD_KEY.
Proof. split; [by repeat constructor|by eexists]. Qed.

(** The password a shared link carries in its hash is the one its page reads, trimmed; the
    page's removal leaves every other parameter of the hash and no password. *)
Theorem share_password_roundtrip password url :
  let others := new_URLSearchParams (drop 1 url.(u_hash)) in
  good_params others -> well_formed (trim password) ->
  let hash := (set_share_password password url).(u_hash) in
  getFileSharePasswordFromHash hash = trim password /\
  getFileSharePasswordFromHash (removeFileSharePasswordFromHash hash) = [] /\
  new_URLSearchParams (drop_hash (removeFileSharePasswordFromHash hash)) = params_delete FILE_SHARE_PASSWORD_KEY others.
Proof.
  cbv zeta. intros Hg Hw. unfold set_share_password. cbv zeta. set (others := new_URLSearchParams _) in *.
  set (l := if truthy (trim password) then _ else _).
  assert (Hl : good_params l).
  { unfold l. case_step; [by apply params_set_good; [apply key_well_formed| |]|by apply params_delete_good]. }
  assert (Hd : params_delete FILE_SHARE_PASSWORD_KEY l = params_delete FILE_SHARE_PASSWORD_KEY others).
  { unfold l. case_step; [apply params_delete_set|apply params_delete_idemp]. }
  unfold getFileSharePasswordFromHash, removeFileSharePasswordFromHash. cbv zeta.
  rewrite drop_with_hash, new_params_roundtrip, drop_text_hash, new_params_roundtrip, params_get_delete by (done || by apply params_delete_good).
  split; [|done]. unfold l. destruct (truthy (trim password)) eqn:E.
  - rewrite params_get_set. apply trim_idemp.
  - rewrite params_get_delete. apply truthy_false in E. by rewrite E.
Qed.

(** Images in the TIFF format are listed as text as well, and the last type wins: they are
    neither shown as images nor offered for conversion. *)
Lemma tiff_is_text `{JsUnicode} :
  toLowerCase (js ".tiff") = js ".tiff" -> getFileType (js ".tiff") = js "text" /\
  isConvertible (js ".tiff") (js "image/tiff") = false /\ getIcon (js ".tiff") = js "p-file-png".
Proof.
  intros Hl. assert (getFileType (js ".tiff") = js "text") as E by (unfold getFileType; cbn [foldl fileTypes List.map fst snd]; by rewrite Hl).
  split; [exact E|]. split; [unfold isConvertible; by rewrite E|done].
Qed.

#[local] Existing Instances located_urls ascii_unicode.

Definition named_url : jsstr := js "https://a.b/x?response-content-disposition=attachment%3B+filename*%3DUTF-8''report.pdf".

Lemma getFilenameFromUrl_plain_witness :
  sendable (js "report.pdf") /\ encodeURIComponent (js "report.pdf") = Some (js "report.pdf") /\
  getFilenameFromUrl named_url = js "report.pdf".
Proof.
  assert (H : sendable (js "report.pdf")).
  { split; [done|]. split; [by repeat constructor|]. split; [split; [split; by vm_compute|]|split; intros c [= <-]; done].
    intros c Hc. assert (Hall : forallb (fun c => negb (path_separator c || name_control c)) (js "report.pdf") = true) by done.
    rewrite forallb_elem in Hall. apply Hall in Hc. apply negb_true_iff, orb_false_iff in Hc. exact Hc. }
  assert (E : encodeURIComponent (js "report.pdf") = Some (js "report.pdf")) by by vm_compute.
  split; [exact H|]. split; [exact E|].
  destruct (new_URL (trim named_url)) as [url|] eqn:U; [|by vm_compute in U].
  apply (proj2 (getFilenameFromUrl_plain named_url) url (js "report.pdf") (js "report.pdf") U H E).
  vm_compute in U. injection U as <-. eexists. vm_compute. reflexivity.
Defined.

Definition hash_url : URL :=
  {| u_protocol := js "https:"; u_username := []; u_password := []; u_search := []; u_hash := js "#a=b&k=old";
     u_pathname := js "/s/c"; u_host := js "h" |}.

Lemma share_password_roundtrip_witness :
  well_formed (trim (js " p&q ")) /\
  getFileSharePasswordFromHash (set_share_password (js " p&q ") hash_url).(u_hash) = trim (js " p&q ").
Proof.
  assert (H : well_formed (trim (js " p&q "))).
  { replace (trim (js " p&q ")) with (js "p&q") by by vm_compute. ascii_name. }
  assert (G : good_params (new_URLSearchParams (drop 1 hash_url.(u_hash)))).
  { replace (new_URLSearchParams (drop 1 hash_url.(u_hash))) with [(js "a", js "b"); (js "k", js "old")] by by vm_compute.
    repeat (apply list.Forall_cons; split; [split; ascii_name|]). constructor. }
  destruct (share_password_roundtrip (js " p&q ") hash_url G H) as [E _]. split; [exact H|exact E].
Defined.
