(* ===== verification/Share.v ===== *)
(** * Shared files

    The dialog that shares a file, src/frontend/src/views/host/file-management/share/index.vue,
    and the public page a shared link opens, views/share/index.vue.  A request the dialog
    awaits is a suspended call the server answers in any order; the page runs its mounting
    and its download one after the other, with the answers as arguments.  A URL object is
    turned into text by [href], which the theorems assume to be read back. *)

From Stdlib Require Import ZifyBool ZifyN.
From S2P Require Import Prelude JsString Splitting Uri UrlEncoded WebUrl FileHelpers.

#[local] Open Scope list_scope.

(** ** Data *)

Record FileShareInfo := {
  i_code : jsstr; i_expiresAt : Z; i_permanent : bool; i_hasPassword : bool; i_password : option jsstr;
}.

Record FileShareCreate := { c_path : jsstr; c_expireMinutes : Z; c_password : option jsstr }.

Variant Expires := NoText | Ever | At_ (seconds : Z).

Variant Call := LoadDetail (path : jsstr) | Create (payload : FileShareCreate) | Remove (path : jsstr).

Record Dialog := {
  open : bool; loading : bool; changed : bool; filePath : jsstr;
  shareInfo : option FileShareInfo; shareUrl : option URL; expiresAtText : Expires;
  qrCodeUrl : option URL; qrDialogOpen : bool;
  initialSharePassword : jsstr; passwordTouched : bool;
  expireMinutes : Z; sharePassword : jsstr;
  calls : list Call; closed_with : list bool;          (* awaited requests; emitted close events *)
}.

Definition expireOptions : list Z := [60; 360; 1440; 4320; 10080; 0]%Z.

(** ** Setters *)

Definition set_info (i : option FileShareInfo) (s : Dialog) : Dialog :=
  {| open := s.(open); loading := s.(loading); changed := s.(changed); filePath := s.(filePath); shareInfo := i;
     shareUrl := s.(shareUrl); expiresAtText := s.(expiresAtText); qrCodeUrl := s.(qrCodeUrl); qrDialogOpen := s.(qrDialogOpen);
     initialSharePassword := s.(initialSharePassword); passwordTouched := s.(passwordTouched);
     expireMinutes := s.(expireMinutes); sharePassword := s.(sharePassword); calls := s.(calls); closed_with := s.(closed_with) |}.

Definition set_share_url (u : option URL) (s : Dialog) : Dialog :=
  {| open := s.(open); loading := s.(loading); changed := s.(changed); filePath := s.(filePath); shareInfo := s.(shareInfo);
     shareUrl := u; expiresAtText := s.(expiresAtText); qrCodeUrl := s.(qrCodeUrl); qrDialogOpen := s.(qrDialogOpen);
     initialSharePassword := s.(initialSharePassword); passwordTouched := s.(passwordTouched);
     expireMinutes := s.(expireMinutes); sharePassword := s.(sharePassword); calls := s.(calls); closed_with := s.(closed_with) |}.

Definition set_rest (qr : option URL) (qrOpen : bool) (text : Expires) (minutes : Z) (password : jsstr) (s : Dialog) : Dialog :=
  {| open := s.(open); loading := s.(loading); changed := s.(changed); filePath := s.(filePath); shareInfo := s.(shareInfo);
     shareUrl := s.(shareUrl); expiresAtText := text; qrCodeUrl := qr; qrDialogOpen := qrOpen;
     initialSharePassword := password; passwordTouched := false;
     expireMinutes := minutes; sharePassword := password; calls := s.(calls); closed_with := s.(closed_with) |}.

Definition set_flags (open_ loading_ changed_ : bool) (path : jsstr) (s : Dialog) : Dialog :=
  {| open := open_; loading := loading_; changed := changed_; filePath := path; shareInfo := s.(shareInfo);
     shareUrl := s.(shareUrl); expiresAtText := s.(expiresAtText); qrCodeUrl := s.(qrCodeUrl); qrDialogOpen := s.(qrDialogOpen);
     initialSharePassword := s.(initialSharePassword); passwordTouched := s.(passwordTouched);
     expireMinutes := s.(expireMinutes); sharePassword := s.(sharePassword); calls := s.(calls); closed_with := s.(closed_with) |}.

Definition set_form (touched : bool) (minutes : Z) (password : jsstr) (s : Dialog) : Dialog :=
  {| open := s.(open); loading := s.(loading); changed := s.(changed); filePath := s.(filePath); shareInfo := s.(shareInfo);
     shareUrl := s.(shareUrl); expiresAtText := s.(expiresAtText); qrCodeUrl := s.(qrCodeUrl); qrDialogOpen := s.(qrDialogOpen);
     initialSharePassword := s.(initialSharePassword); passwordTouched := touched;
     expireMinutes := minutes; sharePassword := password; calls := s.(calls); closed_with := s.(closed_with) |}.

Definition set_calls (l : list Call) (e : list bool) (s : Dialog) : Dialog :=
  {| open := s.(open); loading := s.(loading); changed := s.(changed); filePath := s.(filePath); shareInfo := s.(shareInfo);
     shareUrl := s.(shareUrl); expiresAtText := s.(expiresAtText); qrCodeUrl := s.(qrCodeUrl); qrDialogOpen := s.(qrDialogOpen);
     initialSharePassword := s.(initialSharePassword); passwordTouched := s.(passwordTouched);
     expireMinutes := s.(expireMinutes); sharePassword := s.(sharePassword); calls := l; closed_with := e |}.

Definition set_loading (b : bool) (s : Dialog) : Dialog := set_flags s.(open) b s.(changed) s.(filePath) s.
Definition set_changed (s : Dialog) : Dialog := set_flags s.(open) s.(loading) true s.(filePath) s.
Definition suspend (c : Call) (s : Dialog) : Dialog := set_calls (s.(calls) ++ [c]) s.(closed_with) s.

Definition initial_dialog : Dialog :=
  {| open := false; loading := false; changed := false; filePath := []; shareInfo := None; shareUrl := None;
     expiresAtText := NoText; qrCodeUrl := None; qrDialogOpen := false; initialSharePassword := []; passwordTouched := false;
     expireMinutes := 1440; sharePassword := []; calls := []; closed_with := [] |}.

(** ** Operations *)

(** The error of the form item, if any. *)
Definition validatePassword (value : jsstr) : option jsstr :=
  let password := trim value in
  if length password =? 0 then None
  else if (length password <? 4) || (256 <? length password) then Some (js "file.sharePasswordLengthHint")
  else None.

(** Math.round of a quotient by the milliseconds of a minute. *)
Definition round_minutes (ms : Z) : Z := ((ms + 30000) / 60000)%Z.

Definition mapExpireMinutes (now : Z) (info : FileShareInfo) : Z :=
  if info.(i_permanent) || (info.(i_expiresAt) =? 0)%Z then 0
  else
    let remainMinutes := Z.max 1 (round_minutes (info.(i_expiresAt) * 1000 - now)) in
    if existsb (Z.eqb remainMinutes) expireOptions then remainMinutes else 1440.

Section Dialog.
Variables apiBase origin : jsstr.
Variable new_URL_base : jsstr -> jsstr -> option URL.
Context {WU : WebURL}.
Variable currentNode : jsstr.

(** An exception leaves what was set before it. *)
Definition applyShareInfo (now : Z) (info : option FileShareInfo) (s : Dialog) : Dialog :=
  let s := set_info info s in
  match info with
  | None => set_rest None false NoText 1440 [] (set_share_url None s)
  | Some info =>
      match buildFileSharePageUrl origin new_URL_base info.(i_code) currentNode with
      | None => s
      | Some url =>
          let s := set_share_url (Some url) s in
          match buildFileShareQrCodeUrl apiBase origin new_URL_base info.(i_code) currentNode with
          | None => s
          | Some qr =>
              set_rest (Some qr) s.(qrDialogOpen) (if info.(i_permanent) then Ever else At_ info.(i_expiresAt))
                (mapExpireMinutes now info) (default [] info.(i_password)) s
          end
      end
  end.

Definition resetForm (now : Z) (s : Dialog) : Dialog :=
  applyShareInfo now None (set_flags s.(open) s.(loading) false [] s).

Definition handleClose (now : Z) (s : Dialog) : Dialog :=
  let needRefresh := s.(changed) in
  let s := resetForm now (set_flags false s.(loading) s.(changed) s.(filePath) s) in
  set_calls s.(calls) (s.(closed_with) ++ [needRefresh]) s.

Definition acceptParams (now : Z) (path : jsstr) (s : Dialog) : Dialog :=
  let s := resetForm now s in
  suspend (LoadDetail path) (set_flags true true s.(changed) path s).

(** The user types a password; the watcher compares it with the one that was loaded. *)
Definition typePassword (val : jsstr) (s : Dialog) : Dialog :=
  set_form (s.(passwordTouched) || (val !== s.(initialSharePassword))) s.(expireMinutes) val s.

Definition chooseExpire (minutes : Z) (s : Dialog) : Dialog := set_form s.(passwordTouched) minutes s.(sharePassword) s.

Definition payload_of (s : Dialog) : FileShareCreate :=
  let pw := trim s.(sharePassword) in
  {| c_path := s.(filePath); c_expireMinutes := s.(expireMinutes);
     c_password :=
       if s.(passwordTouched) then Some pw
       else if negb (match s.(shareInfo) with Some i => i.(i_hasPassword) | None => false end) && truthy pw then Some pw
       else None |}.

Definition generate (s : Dialog) : Dialog :=
  match validatePassword s.(sharePassword) with
  | Some _ => s
  | None => suspend (Create (payload_of s)) (set_loading true s)
  end.

Definition cancelShare (s : Dialog) : Dialog := suspend (Remove s.(filePath)) (set_loading true s).

(** What the server answers: the data of the response, or a failure. *)
Definition answer (now : Z) (i : nat) (res : option (option FileShareInfo)) (s : Dialog) : Dialog :=
  match s.(calls) !! i with
  | None => s
  | Some call =>
      let s := set_calls (delete i s.(calls)) s.(closed_with) s in
      set_loading false
        match call, res with
        | LoadDetail _, Some data =>
            applyShareInfo now (match data with Some d => if truthy d.(i_code) then Some d else None | None => None end) s
        | Create _, Some data => set_changed (applyShareInfo now data s)
        | Remove _, Some _ => set_changed (applyShareInfo now None s)
        | _, None => s
        end
  end.

(** The text of a URL object *)
Variable href : URL -> jsstr.

(** The link that is copied: the URL object [copyText] gets the text of. *)
Definition copyLink (s : Dialog) : option URL :=
  match s.(shareUrl) with
  | Some url => withFileSharePassword (href url) s.(sharePassword)
  | None => None
  end.

Variant Event :=
| Open_ (path : jsstr) | Type_ (password : jsstr) | Choose (minutes : Z) | Generate | CancelShare | Close
| Answer (i : nat) (res : option (option FileShareInfo)).

(** One event at a time, with the clock. *)
Definition step (now : Z) (e : Event) (s : Dialog) : Dialog :=
  match e with
  | Open_ path => acceptParams now path s
  | Type_ password => typePassword password s
  | Choose minutes => chooseExpire minutes s
  | Generate => generate s
  | CancelShare => cancelShare s
  | Close => handleClose now s
  | Answer i res => answer now i res s
  end.
Definition after (es : list (Z * Event)) (s : Dialog) : Dialog := foldl (fun s e => step e.1 e.2 s) s es.
End Dialog.

(** ** The public page *)

Record FileSharePublicInfo := { p_fileName : jsstr; p_hasPassword : bool }.

Variant Effect :=
| CheckShare (code password operateNode acceptLanguage : jsstr)
| Navigate (url : URL).

Record Page := {
  pg_password : jsstr; pg_errorMessage : jsstr; pg_shareInfo : option FileSharePublicInfo; pg_hash : jsstr;
  pg_locale : jsstr; pg_effects : list Effect;
}.

Definition supportedLocales : list jsstr :=
  List.map js ["zh"; "zh-Hant"; "en"; "pt-BR"; "ja"; "ru"; "ms"; "ko"; "tr"; "es-ES"; "fa"; "lo"]%string.

Section Page.
Context {JU : JsUnicode} {WU : WebURL}.
Variables apiBase origin : jsstr.
Variable new_URL_base : jsstr -> jsstr -> option URL.

(** The message of the exception of a URL that cannot be built *)
Variable exceptionMessage : jsstr.
(** The parameter of the route and its query. *)
Variables routeCode : jsstr.
Variable routeNode : option jsstr.
Definition page_code : jsstr := trim routeCode.
Definition currentNode_ : jsstr := match routeNode with Some n => if truthy n then n else js "local" | None => js "local" end.

Definition applySharedPassword (s : Page) : Page :=
  let sharedPassword := getFileSharePasswordFromHash s.(pg_hash) in
  if negb (truthy sharedPassword) then s
  else {| pg_password := sharedPassword; pg_errorMessage := s.(pg_errorMessage); pg_shareInfo := s.(pg_shareInfo);
          pg_hash := removeFileSharePasswordFromHash s.(pg_hash); pg_locale := s.(pg_locale); pg_effects := s.(pg_effects) |}.

(** [language] is navigator.language. *)
Definition resolveBrowserLocale (language : jsstr) : jsstr :=
  let normalized := toLowerCase (trim language) in
  if startsWith normalized (js "zh-hant") || startsWith normalized (js "zh-tw") || startsWith normalized (js "zh-hk")
  then js "zh-Hant"
  else if startsWith normalized (js "zh") then js "zh"
  else match List.find (fun locale => toLowerCase locale === normalized) supportedLocales with
       | Some locale => locale
       | None =>
           let prefix := List.hd [] (split 45 normalized) in
           default (js "en") (List.find (fun locale => List.hd [] (split 45 (toLowerCase locale)) === prefix) supportedLocales)
       end.

Definition page_error (m : jsstr) (s : Page) : Page :=
  {| pg_password := s.(pg_password); pg_errorMessage := m; pg_shareInfo := s.(pg_shareInfo); pg_hash := s.(pg_hash);
     pg_locale := s.(pg_locale); pg_effects := s.(pg_effects) |}.
Definition page_effect (e : Effect) (s : Page) : Page :=
  {| pg_password := s.(pg_password); pg_errorMessage := s.(pg_errorMessage); pg_shareInfo := s.(pg_shareInfo);
     pg_hash := s.(pg_hash); pg_locale := s.(pg_locale); pg_effects := s.(pg_effects) ++ [e] |}.
Definition page_locale (l : jsstr) (s : Page) : Page :=
  {| pg_password := s.(pg_password); pg_errorMessage := s.(pg_errorMessage); pg_shareInfo := s.(pg_shareInfo);
     pg_hash := s.(pg_hash); pg_locale := l; pg_effects := s.(pg_effects) |}.
Definition page_info (i : FileSharePublicInfo) (s : Page) : Page :=
  {| pg_password := s.(pg_password); pg_errorMessage := s.(pg_errorMessage); pg_shareInfo := Some i;
     pg_hash := s.(pg_hash); pg_locale := s.(pg_locale); pg_effects := s.(pg_effects) |}.

(** The message of a failed request, or a text of the page. *)
Definition message_or (message : jsstr) (key : string) : jsstr := if truthy message then message else js key.

Definition triggerDownload (pwd : jsstr) (s : Page) : option Page :=
  (fun url => page_effect (Navigate url) s) <$>
  buildFileShareDownloadUrl apiBase origin new_URL_base page_code currentNode_ (Some pwd).

(** [check] is the answer of checkFileShare: the message of its failure, if it fails.  A
    URL that cannot be built is one of the errors that are caught. *)
Definition downloadWithPassword (check : option jsstr) (s : Page) : Page :=
  if negb (truthy page_code) then page_error (js "file.shareInvalid") s
  else if match s.(pg_shareInfo) with Some i => i.(p_hasPassword) | None => false end && negb (truthy (trim s.(pg_password)))
  then page_error (js "file.sharePasswordRequiredInput") s
  else
    let s := page_effect (CheckShare page_code (trim s.(pg_password)) currentNode_ s.(pg_locale)) (page_error [] s) in
    match check with
    | Some message => page_error (message_or message "file.shareDownloadFailed") s
    | None => default (page_error (message_or exceptionMessage "file.shareDownloadFailed") s) (triggerDownload (trim s.(pg_password)) s)
    end.

(** The mounting: [loaded] is the locale that loads for the browser's, [info] the answer of
    the server, or the message of its failure. *)
Definition onMounted (loaded : jsstr) (info : FileSharePublicInfo + jsstr) (check : option jsstr) (s : Page) : Page :=
  let s := page_locale loaded (applySharedPassword s) in
  if negb (truthy page_code) then page_error (js "file.shareInvalid") s
  else match info with
       | inr message => page_error (message_or message "file.shareInvalid") s
       | inl i => let s := page_info i s in if negb i.(p_hasPassword) then downloadWithPassword check s else s
       end.
End Page.

Definition opened_page (hash : jsstr) : Page :=
  {| pg_password := []; pg_errorMessage := []; pg_shareInfo := None; pg_hash := hash; pg_locale := js "en"; pg_effects := [] |}.

(** ** Lemmas *)

Section Facts.
Variables apiBase origin : jsstr.
Variable new_URL_base : jsstr -> jsstr -> option URL.
Context {WU : WebURL}.
Variable node : jsstr.
Abbreviation run es := (after apiBase origin new_URL_base node es initial_dialog) (only parsing).

(** An answer of the server that describes a share: a share without a password has none,
    and its links can be built. *)
Definition good_info (info : FileShareInfo) : Prop :=
  (info.(i_hasPassword) = false -> default [] info.(i_password) = []) /\
  is_Some (buildFileSharePageUrl origin new_URL_base info.(i_code) node) /\
  is_Some (buildFileShareQrCodeUrl apiBase origin new_URL_base info.(i_code) node).

Definition good_event (e : Event) : Prop :=
  match e with Answer _ (Some (Some info)) => good_info info | _ => True end.

Record dialog_ok (s : Dialog) : Prop := {
  ok_untouched : s.(passwordTouched) = false -> s.(sharePassword) = s.(initialSharePassword);
  ok_info : match s.(shareInfo) with
            | Some i => s.(initialSharePassword) = default [] i.(i_password) /\ good_info i /\
                        s.(shareUrl) = buildFileSharePageUrl origin new_URL_base i.(i_code) node
            | None => s.(initialSharePassword) = [] /\ s.(shareUrl) = None
            end;
}.

Lemma apply_ok now info s : match info with Some i => good_info i | None => True end ->
  dialog_ok (applyShareInfo apiBase origin new_URL_base node now info s).
Proof.
  intros Hi. unfold applyShareInfo. destruct info as [i|]; [|by split].
  pose proof Hi as (_ & [u Hu] & [q Hq]). rewrite Hu, Hq. split; [done|]. cbn. by rewrite Hu.
Qed.

(** Operations that leave the share and the form alone. *)
Lemma same_ok s t : dialog_ok s -> t.(shareInfo) = s.(shareInfo) -> t.(shareUrl) = s.(shareUrl) ->
  t.(initialSharePassword) = s.(initialSharePassword) -> t.(passwordTouched) = s.(passwordTouched) ->
  t.(sharePassword) = s.(sharePassword) -> dialog_ok t.
Proof. intros [H1 H2] E1 E2 E3 E4 E5. split; [by rewrite E3, E4, E5|by rewrite E1, E2, E3]. Qed.

Lemma dialog_step_ok now e s : good_event e -> dialog_ok s -> dialog_ok (step apiBase origin new_URL_base node now e s).
Proof.
  intros He Hs. destruct e as [path|p|m| | | |i res]; cbn [step].
  - apply (same_ok (applyShareInfo apiBase origin new_URL_base node now None s)); [by apply apply_ok|done..].
  - split; [|by destruct Hs]. cbn. intros H. apply orb_false_iff in H as [_ H]. apply negb_false_iff in H. by apply streqb_eq in H.
  - by eapply same_ok.
  - unfold generate. case_step; [done|]. by eapply same_ok.
  - by eapply same_ok.
  - apply (same_ok (applyShareInfo apiBase origin new_URL_base node now None s)); [by apply apply_ok|done..].
  - unfold answer. destruct (calls s !! i) as [c|]; [|done].
    destruct c as [path|pl|path], res as [data|]; try (by eapply same_ok).
    + eapply same_ok; [apply (apply_ok now (match data with Some d => if truthy (i_code d) then Some d else None | None => None end) (set_calls (delete i (calls s)) (closed_with s) s))|done..].
      destruct data as [d|]; [|done]. by destruct (truthy (i_code d)).
    + eapply same_ok; [apply (apply_ok now data (set_calls (delete i (calls s)) (closed_with s) s))|done..]. by destruct data.
    + apply (same_ok (applyShareInfo apiBase origin new_URL_base node now None s)); [by apply apply_ok|done..].
Qed.

Lemma share_run_ok es : Forall (fun e => good_event e.2) es -> dialog_ok (run es).
Proof.
  intros He. assert (dialog_ok initial_dialog) as Hi by by split. unfold after. revert Hi. generalize initial_dialog.
  induction He as [|e es He _ IH]; intros s Hs; [done|]. cbn [foldl]. apply IH. by apply dialog_step_ok.
Qed.

(** What the dialog would send holds a password exactly when the user has typed one since
    the share was loaded: a stored password that was not touched is neither sent again nor
    dropped, and the password sent has 4 to 256 characters or is empty. *)
Theorem password_sent_iff_typed es : Forall (fun e => good_event e.2) es ->
  let s := run es in
  (payload_of s).(c_password) = (if s.(passwordTouched) then Some (trim s.(sharePassword)) else None) /\
  (s.(passwordTouched) = false -> s.(sharePassword) = default [] (s.(shareInfo) ≫= i_password)) /\
  (forall p, Create p ∈ (generate s).(calls) -> Create p ∉ s.(calls) ->
     p = payload_of s /\ (trim s.(sharePassword) = [] \/ 4 <= length (trim s.(sharePassword)) <= 256)).
Proof.
  intros He. cbv zeta. pose proof (share_run_ok es He) as [H1 H2]. generalize dependent (run es). intros s H1 H2.
  assert (Hst : s.(passwordTouched) = false -> s.(sharePassword) = default [] (s.(shareInfo) ≫= i_password)).
  { intros Ht. rewrite (H1 Ht). destruct (shareInfo s) as [i|]; [by destruct H2|by destruct H2]. }
  split; [|split; [done|]].
  - unfold payload_of. cbn [c_password]. destruct (passwordTouched s); [done|]. rewrite Hst by done.
    destruct (shareInfo s) as [i|]; [|done]. cbn [mbind option_bind]. destruct (i_hasPassword i) eqn:E; [done|].
    destruct H2 as (_ & (Hn & _) & _). by rewrite Hn.
  - intros p Hp Hn. unfold generate, validatePassword in Hp. destruct (Nat.eqb_spec (length (trim (sharePassword s))) 0) as [Hz|Hz].
    + cbn in Hp. apply elem_of_app in Hp as [Hp|Hp]; [done|]. apply list_elem_of_singleton in Hp. injection Hp as ->.
      split; [done|]. left. by apply nil_length_inv.
    + destruct (_ || _) eqn:E; [done|]. cbn in Hp. apply elem_of_app in Hp as [Hp|Hp]; [done|].
      apply list_elem_of_singleton in Hp. injection Hp as ->. split; [done|]. right. lia.
Qed.
End Facts.

(** ** From the dialog to the page *)

Lemma page_url_parts origin new_URL_base code node c page : encodeURIComponent code = Some c ->
  new_URL_base (js "/s/" ++ c) origin = Some page ->
  buildFileSharePageUrl origin new_URL_base code node = Some (set_param (js "operateNode") node page).
Proof. intros Hc Hp. unfold buildFileSharePageUrl. rewrite Hc. cbn [mbind option_bind]. by rewrite Hp. Qed.

Lemma search_params l u : good_params l -> new_URLSearchParams (with_search l u).(u_search) = l.
Proof.
  intros Hl. cbn [with_search u_search]. destruct (params_toString l) as [|c q] eqn:E.
  - rewrite <- E. by apply new_params_roundtrip.
  - rewrite <- E. change (new_URLSearchParams (js "?" ++ params_toString l)) with (parse_params (params_toString l)).
    by apply params_roundtrip.
Qed.

Lemma params_of_set n v u : well_formed n -> well_formed v -> good_params (new_URLSearchParams u.(u_search)) ->
  new_URLSearchParams (set_param n v u).(u_search) = params_set n v (new_URLSearchParams u.(u_search)).
Proof. intros Hn Hv Hg. unfold set_param. apply search_params. by apply params_set_good. Qed.

Section Link.
Variables apiBase origin : jsstr.
Variable new_URL_base : jsstr -> jsstr -> option URL.
Context {WU : WebURL} {JU : JsUnicode}.
Variable href : URL -> jsstr.
Variables (code node c exceptionMessage : jsstr) (page api : URL).

(** The code and the node are ones a link can carry; the page and the download have an
    address without query and fragment; and the text of the link is read back. *)
Hypothesis Hcode : encodeURIComponent code = Some c.
Hypothesis Hwf : well_formed code /\ well_formed node.
Hypothesis Hne : code <> [] /\ node <> [] /\ trim code = code.
Hypothesis Hpage : new_URL_base (js "/s/" ++ c) origin = Some page /\ page.(u_search) = [] /\ page.(u_hash) = [].
Hypothesis Hapi : api_url apiBase origin new_URL_base (js "/files/share/download") = Some api /\ api.(u_search) = [].
Let link := set_param (js "operateNode") node page.
Hypothesis Hhref : new_URL (href link) = Some link.

Lemma link_hash : link.(u_hash) = [].
Proof. unfold link. cbn. by destruct Hpage as (_ & _ & ->). Qed.

(** C22. What the page of a link makes of it: the password of the link is filled in, it is gone
    from the address, and the download asks for the file of the link with it. *)
Theorem shared_link_downloads s loaded info :
  s.(shareUrl) = buildFileSharePageUrl origin new_URL_base code node ->
  well_formed (trim s.(sharePassword)) -> trim s.(sharePassword) <> [] -> info.(p_hasPassword) = true ->
  exists url, copyLink href s = Some url /\
    params_get (js "operateNode") (new_URLSearchParams url.(u_search)) = Some node /\
    let mount := onMounted apiBase origin new_URL_base exceptionMessage code (Some node) loaded (inl info) None (opened_page url.(u_hash)) in
    mount.(pg_password) = trim s.(sharePassword) /\ getFileSharePasswordFromHash mount.(pg_hash) = [] /\ mount.(pg_effects) = [] /\
    exists download,
      (downloadWithPassword apiBase origin new_URL_base exceptionMessage code (Some node) None mount).(pg_effects) =
        [CheckShare code (trim s.(sharePassword)) node loaded; Navigate download] /\
      new_URLSearchParams download.(u_search) =
        [(js "operateNode", node); (js "code", code); (js "password", trim s.(sharePassword))].
Proof.
  intros Hu Hw Hp Hi. destruct Hwf as [Hwc Hwn]. destruct Hne as (Hc & Hn & Htrim).
  destruct Hpage as (Hpg & Hps & Hph). destruct Hapi as [Hap Has].
  rewrite (page_url_parts _ _ _ _ _ _ Hcode Hpg) in Hu. fold link in Hu.
  set (pw := trim (sharePassword s)) in *. exists (set_share_password (sharePassword s) link).
  destruct (share_password_roundtrip (sharePassword s) link) as (Hget & Hgone & _).
  { rewrite link_hash. constructor. }
  { exact Hw. }
  fold pw in Hget. split; [unfold copyLink, withFileSharePassword; by rewrite Hu, Hhref|]. split.
  { change (u_search (set_share_password (sharePassword s) link)) with (u_search link). unfold link.
    rewrite params_of_set; [apply params_get_set|ascii_name|done|]. rewrite Hps. constructor. }
  set (h := u_hash (set_share_password (sharePassword s) link)) in *.
  assert (truthy code = true) as Hct by by apply truthy_true. assert (truthy node = true) as Hnt by by apply truthy_true.
  assert (truthy pw = true) as Hpt by by apply truthy_true.
  assert (Hm : onMounted apiBase origin new_URL_base exceptionMessage code (Some node) loaded (inl info) None (opened_page h) =
    {| pg_password := pw; pg_errorMessage := []; pg_shareInfo := Some info; pg_hash := removeFileSharePasswordFromHash h;
       pg_locale := loaded; pg_effects := [] |}).
  { unfold onMounted, page_code, applySharedPassword. rewrite Htrim, Hct. cbn [negb pg_hash opened_page].
    by rewrite Hget, Hpt, Hi. }
  cbv zeta. rewrite Hm. split; [done|]. split; [exact Hgone|]. split; [done|].
  unfold downloadWithPassword, triggerDownload, page_code, currentNode_. rewrite Htrim, Hct, Hnt.
  cbn [negb pg_shareInfo pg_password]. rewrite Hi. assert (trim pw = pw) as Htp by apply trim_idemp. rewrite Htp, Hpt. cbn [negb andb].
  unfold buildFileShareDownloadUrl. rewrite Hap. cbn [mbind option_bind page_effect page_error pg_password pg_locale pg_effects].
  rewrite Htp, Hpt. cbn [fmap option_fmap option_map default].
  eexists. split; [reflexivity|].
  assert (G0 : good_params (new_URLSearchParams api.(u_search))) by (rewrite Has; constructor).
  assert (E1 : new_URLSearchParams (set_param (js "operateNode") node api).(u_search) = [(js "operateNode", node)])
    by (rewrite params_of_set, Has; [done|ascii_name|done|done]).
  assert (E2 : new_URLSearchParams (set_param (js "code") code (set_param (js "operateNode") node api)).(u_search)
    = [(js "operateNode", node); (js "code", code)]).
  { rewrite params_of_set, E1; [done|ascii_name|done|]. rewrite E1. constructor; [|constructor]. split; [ascii_name|done]. }
  rewrite params_of_set, E2; [done|ascii_name|done|]. rewrite E2.
  repeat (apply list.Forall_cons; split; [split; [ascii_name|done]|]). constructor.
Qed.
End Link.

(** ** Concrete runs *)

Definition located_base (path origin : jsstr) : option URL := located_URL (origin ++ path).
Definition href_of (u : URL) : jsstr :=
  u.(u_protocol) ++ js "//" ++ u.(u_host) ++ u.(u_pathname) ++ u.(u_search) ++ u.(u_hash).

#[local] Existing Instances located_urls ascii_unicode.

Abbreviation sample := (after (js "/api/v2") (js "https://panel.cn") located_base (js "local")) (only parsing).

Definition sample_info (c : string) (password : string) (expires : Z) : FileShareInfo :=
  {| i_code := js c; i_expiresAt := expires; i_permanent := false;
     i_hasPassword := truthy (js password); i_password := Some (js password) |}.

(** The share of a file with a stored password, loaded and untouched. *)
Definition loaded_share : Dialog :=
  sample [(0%Z, Open_ (js "/a")); (0%Z, Answer 0 (Some (Some (sample_info "c1" "secret" 3600))))] initial_dialog.

(** A password typed but not saved is in the link that is copied: the link does not open
    the file. *)
Lemma copied_link_holds_unsaved_password :
  let s := step (js "/api/v2") (js "https://panel.cn") located_base (js "local") 0 (Type_ (js "other")) loaded_share in
  s.(shareInfo) = Some (sample_info "c1" "secret" 3600) /\ s.(calls) = [] /\
  (getFileSharePasswordFromHash ∘ u_hash <$> copyLink href_of s) = Some (js "other").
Proof. by vm_compute. Qed.

(** The detail of a file whose dialog was closed is shown for the file opened next, whose
    share is then the one removed. *)
Lemma stale_detail_is_shown :
  let s := sample [(0%Z, Open_ (js "/a")); (0%Z, Close); (0%Z, Open_ (js "/b"));
                   (0%Z, Answer 1 (Some None)); (0%Z, Answer 0 (Some (Some (sample_info "c1" "" 3600))))] initial_dialog in
  s.(filePath) = js "/b" /\ (i_code <$> s.(shareInfo)) = Some (js "c1") /\ s.(loading) = false /\
  (step (js "/api/v2") (js "https://panel.cn") located_base (js "local") 0 CancelShare s).(calls) = [Remove (js "/b")].
Proof. by vm_compute. Qed.

(** The dialog opened five minutes after a file was shared for an hour offers a day, and
    saving it with another password prolongs the share. *)
Lemma reopened_share_is_prolonged :
  let s := sample [(300000%Z, Open_ (js "/a")); (300000%Z, Answer 0 (Some (Some (sample_info "c1" "" 3600))));
                   (300000%Z, Type_ (js "abcd"))] initial_dialog in
  s.(expireMinutes) = 1440%Z /\ (generate s).(calls) = [Create {| c_path := js "/a"; c_expireMinutes := 1440; c_password := Some (js "abcd") |}].
Proof. by vm_compute. Qed.

Lemma password_sent_iff_typed_witness :
  (payload_of loaded_share).(c_password) = None /\ loaded_share.(sharePassword) = js "secret".
Proof.
  assert (H : Forall (fun e => good_event (js "/api/v2") (js "https://panel.cn") located_base (js "local") e.2)
    [(0%Z, Open_ (js "/a")); (0%Z, Answer 0 (Some (Some (sample_info "c1" "secret" 3600))))]).
  { constructor; [exact I|]. constructor; [|constructor]. split; [done|]. split; by eexists. }
  destruct (password_sent_iff_typed _ _ _ _ _ H) as (H1 & H2 & _). split; [exact H1|exact (H2 eq_refl)].
Defined.

Definition sample_url (path : string) : URL :=
  {| u_protocol := js "https:"; u_username := []; u_password := []; u_search := []; u_hash := []; u_pathname := js path;
     u_host := js "panel.cn" |}.

Lemma shared_link_downloads_witness :
  let link := set_share_password (js "secret") (set_param (js "operateNode") (js "local") (sample_url "/s/c1")) in
  link.(u_hash) = js "#k=secret" /\ loaded_share.(sharePassword) = js "secret" /\
  exists url, copyLink href_of loaded_share = Some url /\
    params_get (js "operateNode") (new_URLSearchParams url.(u_search)) = Some (js "local").
Proof.
  cbv zeta. split; [by vm_compute|]. split; [by vm_compute|].
  assert (H1 : encodeURIComponent (js "c1") = Some (js "c1")) by by vm_compute.
  assert (H2 : well_formed (js "c1") /\ well_formed (js "local")) by (split; ascii_name).
  assert (H3 : js "c1" <> [] /\ js "local" <> [] /\ trim (js "c1") = js "c1") by by vm_compute.
  assert (H4 : located_base (js "/s/" ++ js "c1") (js "https://panel.cn") = Some (sample_url "/s/c1") /\
    u_search (sample_url "/s/c1") = [] /\ u_hash (sample_url "/s/c1") = []) by by vm_compute.
  assert (H5 : api_url (js "/api/v2") (js "https://panel.cn") located_base (js "/files/share/download") =
    Some (sample_url "/api/v2/files/share/download") /\ u_search (sample_url "/api/v2/files/share/download") = []) by by vm_compute.
  assert (H6 : new_URL (href_of (set_param (js "operateNode") (js "local") (sample_url "/s/c1"))) =
    Some (set_param (js "operateNode") (js "local") (sample_url "/s/c1"))) by by vm_compute.
  assert (H7 : loaded_share.(shareUrl) = buildFileSharePageUrl (js "https://panel.cn") located_base (js "c1") (js "local")) by by vm_compute.
  assert (H8 : well_formed (trim loaded_share.(sharePassword))).
  { replace (trim loaded_share.(sharePassword)) with (js "secret") by by vm_compute. ascii_name. }
  assert (H9 : trim loaded_share.(sharePassword) <> []) by by vm_compute.
  destruct (shared_link_downloads (js "/api/v2") (js "https://panel.cn") located_base href_of (js "c1") (js "local") (js "c1")
    (js "Invalid URL") (sample_url "/s/c1") (sample_url "/api/v2/files/share/download") H1 H2 H3 H4 H5 H6 loaded_share (js "en")
    {| p_fileName := js "a"; p_hasPassword := true |} H7 H8 H9 eq_refl) as (url & U1 & U2 & _).
  exists url. split; [exact U1|exact U2].
Defined.
