(* ===== verification/Agent.v ===== *)
(** * Agent accounts and allowed origins

    src/frontend/src/utils/agent.ts.  [new URL] of the web platform is a parameter;
    a text it refuses is [None], and so is every error thrown here. *)

From S2P Require Import Prelude JsString Splitting Version WebUrl.
From Stdlib Require Import ZifyBool ZifyN.

#[local] Open Scope list_scope.

Definition openclawHTTPSVersion : jsstr := js "2026.3.13".
Definition openclawHTTPVersion : jsstr := js "2026.3.23".
Definition openclawDefaultAccessHost : jsstr := js "127.0.0.1".

Section Accounts.
Context {JU : JsUnicode} (t : jsstr -> jsstr).

Definition getAgentProviderDisplayName (provider : jsstr) (displayName : option jsstr) : jsstr :=
  let shown := default [] displayName in
  if (provider === js "custom") || (shown === js "Custom") then t (js "container.custom")
  else if (provider === js "vllm") || (shown === js "vLLM") then js "vLLM"
  else if truthy shown then shown else provider.

Definition isAgentAccountVerificationSkipped (provider : option jsstr) : bool :=
  memb (toLowerCase (default [] provider)) [js "vllm"; js "ollama"; js "llmman"; js "kimi-coding"].
End Accounts.

Definition supportsAgentModelConfig (agentType : jsstr) : bool :=
  (agentType === js "openclaw") || (agentType === js "hermes-agent").
Definition supportsAgentToken (agentType : jsstr) : bool := agentType === js "openclaw".
Definition supportsAgentDashboardAuth (agentType : jsstr) : bool :=
  (agentType === js "hermes-agent") || (agentType === js "copaw").

Definition isOpenclawHTTPSWindowVersion (version : jsstr) : bool :=
  compareVersion version openclawHTTPSVersion && negb (compareVersion version openclawHTTPVersion).
Definition isOpenclawCurrentHTTPVersion (version : jsstr) : bool := compareVersion version openclawHTTPVersion.
Definition getOpenclawAccessScheme (version : jsstr) : jsstr :=
  if isOpenclawHTTPSWindowVersion version then js "https" else js "http".

(** The port is a number or a string; 0 and the empty string are falsy. *)
Inductive Port := PortNumber (n : N) | PortString (s : jsstr).
Definition port_given (p : option Port) : option jsstr :=
  match p with
  | Some (PortNumber n) => if (n =? 0)%N then None else Some (dec n)
  | Some (PortString s) => if truthy s then Some s else None
  | None => None
  end.

Definition buildDefaultAllowedOrigin (systemIP : jsstr) (port : option Port) (version : option jsstr) : jsstr :=
  let target := if truthy (trim systemIP) then trim systemIP else openclawDefaultAccessHost in
  match port_given port with
  | None => []
  | Some p =>
      let host := if includes target (js ":") && negb (startsWith target (js "[")) && negb (endsWith target (js "]"))
                  then js "[" ++ target ++ js "]" else target in
      getOpenclawAccessScheme (default [] version) ++ js "://" ++ host ++ js ":" ++ p
  end.

(** ** Allowed origins *)

Section Origins.
Context {WU : WebURL} (t : jsstr -> jsstr).

Definition normalizeAllowedOrigin (value : jsstr) : option jsstr :=
  let target := trim value in
  if negb (truthy target) then None
  else
    match new_URL target with
    | None => None
    | Some parsed =>
        if (parsed.(u_protocol) !== js "http:") && (parsed.(u_protocol) !== js "https:") then None
        else if truthy parsed.(u_username) || truthy parsed.(u_password) || truthy parsed.(u_search)
                || truthy parsed.(u_hash) then None
        else if truthy parsed.(u_pathname) && (parsed.(u_pathname) !== js "/") then None
        else if negb (truthy parsed.(u_host)) then None
        else Some (parsed.(u_protocol) ++ js "//" ++ parsed.(u_host))
    end.

(** [s.split(/\r?\n/)] *)
Definition drop_cr (w : jsstr) : jsstr :=
  match rev w with c :: r => if (c =? 13)%N then rev r else w | [] => w end.
Definition split_lines (s : jsstr) : list jsstr :=
  match rev (split 10 s) with
  | [] => []
  | last :: before => List.map drop_cr (rev before) ++ [last]
  end.

(** The loop over the lines; [seen] is the set of origins. *)
Fixpoint collect_origins (seen : list jsstr) (lines : list jsstr) : option (list jsstr) :=
  match lines with
  | [] => Some []
  | line :: lines' =>
      let target := trim line in
      if negb (truthy target) then collect_origins seen lines'
      else
        normalized ← normalizeAllowedOrigin target;
        if memb normalized seen then collect_origins seen lines'
        else cons normalized <$> collect_origins (normalized :: seen) lines'
  end.
Definition parseAllowedOriginsInput (value : jsstr) : option (list jsstr) := collect_origins [] (split_lines value).

(** Every error thrown carries the same message. *)
Definition validateAllowedOriginsInput (value : jsstr) : jsstr :=
  match parseAllowedOriginsInput value with
  | Some [] => t (js "aiTools.agents.allowedOriginsRequired")
  | Some _ => []
  | None => t (js "aiTools.agents.allowedOriginsInvalid")
  end.
End Origins.

(** ** The window of HTTPS versions *)

(** An agent is reached over HTTPS exactly from version 2026.3.13 on and before
    2026.3.23, comparing the numbers of the versions. *)
Theorem https_window version :
  getOpenclawAccessScheme version = js "https" <->
  ~ above (numbers openclawHTTPSVersion) (numbers version) /\ above (numbers openclawHTTPVersion) (numbers version).
Proof.
  unfold getOpenclawAccessScheme, isOpenclawHTTPSWindowVersion.
  rewrite <- !compareVersion_spec, not_false_iff_true.
  destruct (compareVersion version openclawHTTPSVersion), (compareVersion version openclawHTTPVersion);
    cbn [andb negb]; split; done || (intros [? ?]; done) || idtac.
Qed.

(** ** Origins *)

Section Laws.
Context {WU : WebURL}.

(** An origin in its normal form. *)
Definition origin (o : jsstr) : Prop :=
  normalizeAllowedOrigin o = Some o /\ o <> [] /\ Forall (fun c => is_ws c = false) o.

Lemma normalize_origin v o : normalizeAllowedOrigin v = Some o -> origin o.
Proof.
  unfold normalizeAllowedOrigin. destruct (truthy (trim v)); [|done]. cbn [negb].
  destruct (new_URL (trim v)) as [u|] eqn:Eu; [|done].
  destruct ((_ !== _) && _) eqn:Ep; [done|].
  assert (Hp : u_protocol u ∈ [js "http:"; js "https:"]).
  { apply andb_false_iff in Ep as [Ep|Ep]; apply negb_false_iff, streqb_eq in Ep; rewrite Ep; [by left|by right; left]. }
  destruct (truthy (u_username u) || _ || _ || _); [done|]. destruct (truthy (u_pathname u) && _); [done|].
  destruct (truthy (u_host u)) eqn:Eh; [|done]. cbn [negb]. intros [= <-]. apply truthy_true in Eh.
  destruct (new_URL_origin _ u Eu Hp Eh) as [Hnew Hws]. set (o := u_protocol u ++ js "//" ++ u_host u) in *.
  change (origin o). assert (Ho : o <> []) by (unfold o; by destruct (u_protocol u)).
  assert (Ht : trim o = o) by (apply trim_id, no_ws_ends_all; done).
  split; [unfold normalizeAllowedOrigin|done]. rewrite Ht. apply truthy_true in Ho as ->. cbn [negb]. rewrite Hnew. cbn [u_protocol u_username u_password u_search u_hash u_pathname u_host].
  assert ((u_protocol u !== js "http:") && (u_protocol u !== js "https:") = false) as ->.
  { apply andb_false_iff. rewrite !negb_false_iff. rewrite !elem_of_cons, elem_of_nil in Hp.
    destruct Hp as [->|[->|[]]]; [left|right]; apply streqb_refl. }
  apply truthy_true in Eh as ->. done.
Qed.

Lemma collect_origins_spec seen lines os : collect_origins seen lines = Some os ->
  Forall origin os /\ NoDup os /\ forall o, o ∈ os -> o ∉ seen.
Proof.
  revert seen os. induction lines as [|l lines IH]; intros seen os; cbn [collect_origins].
  { intros [= <-]. split_and!; [constructor..|]. intros o Ho. inversion Ho. }
  destruct (negb _); [apply IH|]. destruct (normalizeAllowedOrigin (trim l)) as [n|] eqn:En; [|done].
  cbn [mbind option_bind]. apply normalize_origin in En. destruct (memb n seen) eqn:Es; [apply IH|].
  apply memb_not_elem in Es. destruct (collect_origins (n :: seen) lines) as [l'|] eqn:E; [|done].
  intros [= <-]. apply IH in E as (H1 & H2 & H3). split_and!.
  - by constructor.
  - constructor; [|done]. intros Hn. apply (H3 n Hn). by left.
  - intros o [->|Ho]%elem_of_cons; [done|]. intros Hin. apply (H3 o Ho). by right.
Qed.

Lemma collect_origins_id seen os :
  Forall origin os -> NoDup os -> (forall o, o ∈ os -> o ∉ seen) -> collect_origins seen os = Some os.
Proof.
  intros H. revert seen. induction H as [|o os (Hn & Hne & Hws) _ IH]; intros seen Hnd Hs; [done|].
  apply list.NoDup_cons in Hnd as [Ho Hnd]. cbn [collect_origins].
  rewrite trim_id by by apply no_ws_ends_all. apply truthy_true in Hne as ->. cbn [negb]. rewrite Hn.
  cbn [mbind option_bind]. assert (memb o seen = false) as -> by (apply memb_not_elem, Hs; by left).
  rewrite IH; [done..|]. intros o' Ho' [->|Hin]%elem_of_cons; [done|]. apply (Hs o'); [by right|done].
Qed.

Lemma split_lines_join os : Forall origin os -> os <> [] -> split_lines (join [10%N] os) = os.
Proof.
  intros H Hne. assert (Hu : forall o c, o ∈ os -> c ∈ o -> is_ws c = false).
  { intros o c Ho Hc. rewrite Forall_elem in H. destruct (H o Ho) as (_ & _ & Hw).
    rewrite Forall_elem in Hw. by apply Hw. }
  unfold split_lines. rewrite split_join; [|done|].
  - destruct (rev os) as [|l b] eqn:E; [by apply (f_equal (@rev jsstr)) in E; rewrite rev_involutive in E|].
    apply (f_equal (@rev jsstr)) in E. rewrite rev_involutive in E. cbn [rev] in E.
    rewrite E. f_equal. rewrite <- (List.map_id (rev b)) at 2. apply List.map_ext_in.
    intros o Ho. apply list_elem_of_In in Ho. unfold drop_cr. destruct (rev o) as [|c r] eqn:Er; [done|].
    assert (Hc : is_ws c = false).
    { apply (Hu o); [rewrite E; apply elem_of_app; by left|].
      apply list_elem_of_In. rewrite in_rev, Er. by left. }
    by destruct (N.eqb_spec c 13) as [->|Hn].
  - apply Forall_elem. intros o Ho Hin. by specialize (Hu o 10%N Ho Hin).
Qed.

(** The origins a text yields are distinct and in normal form, the form accepts
    exactly the texts that yield some, and written one per line they read back the
    same. *)
Theorem origins_roundtrip (t : jsstr -> jsstr) value os : (forall k, t k <> []) ->
  parseAllowedOriginsInput value = Some os ->
  NoDup os /\ (forall o, o ∈ os -> normalizeAllowedOrigin o = Some o) /\
  (validateAllowedOriginsInput t value = [] <-> os <> []) /\
  parseAllowedOriginsInput (join [10%N] os) = Some os.
Proof.
  intros Ht H. pose proof H as H'. apply collect_origins_spec in H' as (Ho & Hnd & _).
  split; [done|]. split; [intros o Hin; rewrite Forall_elem in Ho; by apply Ho|]. split.
  - unfold validateAllowedOriginsInput. rewrite H. destruct os; [|done]. split; [|done]. intros E. by apply Ht in E.
  - destruct os as [|o os]; [done|]. unfold parseAllowedOriginsInput. rewrite split_lines_join by done.
    apply collect_origins_id; [done..|]. intros x _ Hx. inversion Hx.
Qed.
End Laws.

Lemma origins_roundtrip_witness :
  NoDup [js "http://a.b"; js "https://c:81"] /\
  (forall o, o ∈ [js "http://a.b"; js "https://c:81"] -> normalizeAllowedOrigin o = Some o) /\
  (validateAllowedOriginsInput (fun k => 33%N :: k) (js " http://a.b" ++ [13; 10]%N ++ js "https://c:81 ") = [] <->
     [js "http://a.b"; js "https://c:81"] <> []) /\
  parseAllowedOriginsInput (join [10%N] [js "http://a.b"; js "https://c:81"]) = Some [js "http://a.b"; js "https://c:81"].
Proof. apply origins_roundtrip; [done|vm_compute; reflexivity]. Defined.
