(* ===== verification/PluginChannel.v ===== *)
(** * The plugin channel of an agent

    src/frontend/src/views/ai/agents/agent/config/tabs/channels/openclaw/useAgentPluginChannel.ts.
    A call that awaits the server is suspended with what it remembers; the server may
    answer the suspended calls in any order, or fail them.  [status_of] is a ghost: the
    agent whose status was applied last. *)

From S2P Require Import Prelude JsString.

#[local] Open Scope list_scope.

Record AgentPluginStatus := {
  s_installed : bool; s_currentVersion : jsstr; s_latestVersion : jsstr; s_upgradable : bool;
}.

Variant TaskKind := installing_task | upgrading_task | uninstalling_task.

Variant Call :=
| StatusCall (id : N) (load : option N)        (* checkPluginStatus, alone or in the load of a version *)
| LatestCall (id version : N)                  (* checkPluginLatestVersion *)
| TaskCall (kind : TaskKind) (id : N) (taskID : jsstr).

Record Channel := {
  agentId : N; loading : bool; installed : bool; installing : bool; upgrading : bool; uninstalling : bool;
  currentVersion : jsstr; latestVersion : jsstr; upgradable : bool; loadVersion : N;
  calls : list Call; status_of : option N;
}.

Definition initial_channel : Channel :=
  {| agentId := 0; loading := false; installed := false; installing := false; upgrading := false; uninstalling := false;
     currentVersion := []; latestVersion := []; upgradable := false; loadVersion := 0; calls := []; status_of := None |}.

Definition suspend (c : Call) (s : Channel) : Channel :=
  {| agentId := s.(agentId); loading := s.(loading); installed := s.(installed); installing := s.(installing);
     upgrading := s.(upgrading); uninstalling := s.(uninstalling); currentVersion := s.(currentVersion);
     latestVersion := s.(latestVersion); upgradable := s.(upgradable); loadVersion := s.(loadVersion);
     calls := s.(calls) ++ [c]; status_of := s.(status_of) |}.

Definition drop_call (i : nat) (s : Channel) : Channel :=
  {| agentId := s.(agentId); loading := s.(loading); installed := s.(installed); installing := s.(installing);
     upgrading := s.(upgrading); uninstalling := s.(uninstalling); currentVersion := s.(currentVersion);
     latestVersion := s.(latestVersion); upgradable := s.(upgradable); loadVersion := s.(loadVersion);
     calls := delete i s.(calls); status_of := s.(status_of) |}.

Definition set_loading (b : bool) (s : Channel) : Channel :=
  {| agentId := s.(agentId); loading := b; installed := s.(installed); installing := s.(installing);
     upgrading := s.(upgrading); uninstalling := s.(uninstalling); currentVersion := s.(currentVersion);
     latestVersion := s.(latestVersion); upgradable := s.(upgradable); loadVersion := s.(loadVersion);
     calls := s.(calls); status_of := s.(status_of) |}.

Definition set_flag (kind : TaskKind) (b : bool) (s : Channel) : Channel :=
  {| agentId := s.(agentId); loading := s.(loading); installed := s.(installed);
     installing := match kind with installing_task => b | _ => s.(installing) end;
     upgrading := match kind with upgrading_task => b | _ => s.(upgrading) end;
     uninstalling := match kind with uninstalling_task => b | _ => s.(uninstalling) end;
     currentVersion := s.(currentVersion); latestVersion := s.(latestVersion); upgradable := s.(upgradable);
     loadVersion := s.(loadVersion); calls := s.(calls); status_of := s.(status_of) |}.

(** [id] is the agent the status was asked for. *)
Definition applyPluginStatus (id : N) (status : option AgentPluginStatus) (s : Channel) : Channel :=
  {| agentId := s.(agentId); loading := s.(loading);
     installed := match status with Some t => t.(s_installed) | None => false end;
     installing := s.(installing); upgrading := s.(upgrading); uninstalling := s.(uninstalling);
     currentVersion := match status with Some t => t.(s_currentVersion) | None => [] end;
     latestVersion := match status with Some t => t.(s_latestVersion) | None => [] end;
     upgradable := match status with Some t => t.(s_upgradable) | None => false end;
     loadVersion := s.(loadVersion); calls := s.(calls); status_of := Some id |}.

(** ** Calls *)

(** checkPluginStatus called by the view: nothing happens without an agent. *)
Definition checkPluginStatus (s : Channel) : Channel :=
  if (s.(agentId) =? 0)%N then s else suspend (StatusCall s.(agentId) None) s.

Definition checkPluginLatestVersion (version : N) (s : Channel) : Channel :=
  if (s.(agentId) =? 0)%N then s else suspend (LatestCall s.(agentId) version) s.

(** Up to the await of checkPluginStatus; without an agent the load ends at once. *)
Definition loadPlugin (id : N) (s : Channel) : Channel :=
  let version := (s.(loadVersion) + 1)%N in
  let s := {| agentId := id; loading := true; installed := s.(installed); installing := s.(installing);
              upgrading := s.(upgrading); uninstalling := s.(uninstalling); currentVersion := s.(currentVersion);
              latestVersion := []; upgradable := false; loadVersion := version; calls := s.(calls);
              status_of := s.(status_of) |} in
  if (id =? 0)%N then set_loading false s else suspend (StatusCall id (Some version)) s.

(** installPlugin, upgradePlugin and uninstallPlugin. *)
Definition startTask (kind : TaskKind) (taskID : jsstr) (s : Channel) : Channel :=
  if (s.(agentId) =? 0)%N then s else set_flag kind true (suspend (TaskCall kind s.(agentId) taskID) s).
Definition installPlugin := startTask installing_task.
Definition upgradePlugin := startTask upgrading_task.
Definition uninstallPlugin := startTask uninstalling_task.

(** The answer to the suspended call at [i]: the data of the response, [None] when the
    request fails. *)
Definition answer (i : nat) (res : option (option AgentPluginStatus)) (s : Channel) : Channel :=
  match s.(calls) !! i with
  | None => s
  | Some call =>
      let s := drop_call i s in
      match call, res with
      | StatusCall id None, Some data => applyPluginStatus id data s
      | StatusCall id None, None => s
      | StatusCall id (Some version), Some data =>
          let s := applyPluginStatus id data s in
          set_loading false (if match data with Some t => t.(s_installed) | None => false end
                             then checkPluginLatestVersion version s else s)
      | StatusCall id (Some version), None => set_loading false s
      | LatestCall id version, Some data =>
          if negb (version =? s.(loadVersion))%N then s else applyPluginStatus id data s
      | LatestCall _ _, None => s
      | TaskCall kind _ _, _ => set_flag kind false s
      end
  end.

Inductive Event :=
| Load (id : N) | CheckStatus | Start (kind : TaskKind) (taskID : jsstr)
| Answer (i : nat) (res : option (option AgentPluginStatus)).

Definition step (e : Event) (s : Channel) : Channel :=
  match e with
  | Load id => loadPlugin id s
  | CheckStatus => checkPluginStatus s
  | Start kind taskID => startTask kind taskID s
  | Answer i res => answer i res s
  end.
Definition after (es : list Event) (s : Channel) : Channel := foldl (fun s e => step e s) s es.

(** ** The invariant *)

Definition flag (kind : TaskKind) (s : Channel) : bool :=
  match kind with installing_task => s.(installing) | upgrading_task => s.(upgrading) | uninstalling_task => s.(uninstalling) end.

(** A flag that is up has its call; the version a latest call remembers is not of the
    future, and as long as it is the current one the call is for the current agent. *)
Record channel_ok (s : Channel) : Prop := {
  ch_latest : forall id v, LatestCall id v ∈ s.(calls) -> (v <= s.(loadVersion))%N /\ (v = s.(loadVersion) -> id = s.(agentId));
  ch_loads : forall id v, StatusCall id (Some v) ∈ s.(calls) -> (v <= s.(loadVersion))%N;
  ch_loading : s.(loading) = true -> exists id v, StatusCall id (Some v) ∈ s.(calls);
  ch_tasks : forall kind, flag kind s = true -> exists id t, TaskCall kind id t ∈ s.(calls);
}.

Lemma delete_elem {A} (l : list A) i x y : l !! i = Some y -> x ∈ l -> x <> y -> x ∈ delete i l.
Proof.
  intros Hi (j & Hj)%list_elem_of_lookup Hne. apply list_elem_of_lookup.
  destruct (decide (j < i)) as [?|?]; [exists j; by rewrite list_lookup_delete_lt|].
  destruct (decide (j = i)) as [->|?]; [congruence|]. exists (j - 1).
  rewrite list_lookup_delete_ge by lia. by replace (S (j - 1)) with j by lia.
Qed.

Lemma elem_delete {A} (l : list A) i x : x ∈ delete i l -> x ∈ l.
Proof. intros (j & Hj)%list_elem_of_lookup. apply list_elem_of_lookup. destruct (decide (j < i)).
  - exists j. by rewrite list_lookup_delete_lt in Hj.
  - exists (S j). by rewrite list_lookup_delete_ge in Hj by lia.
Qed.

Lemma initial_channel_ok : channel_ok initial_channel.
Proof. split; cbn; [|..|by intros []]; [intros ? ? H; by apply elem_of_nil in H..|done]. Qed.

(** Suspending a call that is not a future one. *)
Lemma suspend_channel_ok c s : channel_ok s ->
  (forall id v, c = LatestCall id v -> (v <= s.(loadVersion))%N /\ (v = s.(loadVersion) -> id = s.(agentId))) ->
  (forall id v, c = StatusCall id (Some v) -> (v <= s.(loadVersion))%N) -> channel_ok (suspend c s).
Proof.
  intros [H1 H2 H3 H4] Hl Hs. split; cbn [suspend calls loadVersion agentId loading].
  - intros id v [H|H]%elem_of_app; [by apply H1|]. apply list_elem_of_singleton in H. by apply Hl.
  - intros id v [H|H]%elem_of_app; [by eapply H2|]. apply list_elem_of_singleton in H. by eapply Hs.
  - intros (id & v & H)%H3. exists id, v. rewrite elem_of_app. by left.
  - intros kind H. destruct (H4 kind) as (id & t & Hin); [by destruct kind|]. exists id, t. rewrite elem_of_app. by left.
Qed.

Lemma latest_ok v s : channel_ok s -> (v <= s.(loadVersion))%N -> channel_ok (checkPluginLatestVersion v s).
Proof.
  intros Hs Hv. unfold checkPluginLatestVersion. destruct (_ =? 0)%N; [done|]. apply suspend_channel_ok; [done| |done].
  by intros id w [= -> ->].
Qed.

(** Removing the call at [i] and lowering the flag it was the call of. *)
Lemma answered_ok (s t : Channel) i c : channel_ok s -> s.(calls) !! i = Some c -> t.(calls) = delete i s.(calls) ->
  t.(loadVersion) = s.(loadVersion) -> t.(agentId) = s.(agentId) ->
  (t.(loading) = true -> s.(loading) = true /\ match c with StatusCall _ (Some _) => False | _ => True end) ->
  (forall kind, flag kind t = true -> flag kind s = true /\ match c with TaskCall k _ _ => k <> kind | _ => True end) ->
  channel_ok t.
Proof.
  intros [H1 H2 H3 H4] Hi Hc Hv Ha Hl Hf. split; rewrite ?Hc, ?Hv, ?Ha.
  - intros id v H. apply elem_delete in H. by apply H1.
  - intros id v H. apply elem_delete in H. by eapply H2.
  - intros H. apply Hl in H as [H Hno]. apply H3 in H as (id & v & H). exists id, v.
    apply (delete_elem _ _ _ c); [done|done|]. by intros <-.
  - intros kind H. apply Hf in H as [H Hno]. apply H4 in H as (id & t' & H). exists id, t'.
    apply (delete_elem _ _ _ c); [done|done|]. by intros <-.
Qed.

Lemma answer_ok i res s : channel_ok s -> channel_ok (answer i res s).
Proof.
  intros Hs. unfold answer. destruct (calls s !! i) as [c|] eqn:Hi; [|done].
  assert (Hv : forall id v, c = StatusCall id (Some v) -> (v <= s.(loadVersion))%N).
  { intros id v ->. eapply ch_loads; [done|]. by eapply list_elem_of_lookup_2. }
  destruct c as [id [v|]|id v|kind id t], res as [data|].
  - assert (Ht : channel_ok (set_loading false (applyPluginStatus id data (drop_call i s)))).
    { apply (answered_ok s _ i _ Hs Hi); try done; by intros []. }
    destruct (match data with Some t => t.(s_installed) | None => false end); [|done].
    unfold checkPluginLatestVersion. destruct (_ =? 0)%N; [done|].
    apply (suspend_channel_ok (LatestCall (agentId s) v)) in Ht; [done| |done]. intros id' v' [= <- <-]. split; [by eapply Hv|done].
  - apply (answered_ok s _ i _ Hs Hi); try done; by intros [].
  - apply (answered_ok s _ i _ Hs Hi); try done; by intros [].
  - apply (answered_ok s _ i _ Hs Hi); try done; by intros [].
  - destruct (negb _); apply (answered_ok s _ i _ Hs Hi); try done; by intros [].
  - apply (answered_ok s _ i _ Hs Hi); try done; by intros [].
  - apply (answered_ok s _ i _ Hs Hi); try done; intros k; by destruct kind, k.
  - apply (answered_ok s _ i _ Hs Hi); try done; intros k; by destruct kind, k.
Qed.

Lemma load_ok id s : channel_ok s -> channel_ok (loadPlugin id s).
Proof.
  intros [H1 H2 H3 H4]. unfold loadPlugin. destruct (N.eqb_spec id 0) as [->|Hid].
  - split; cbn; [|intros i v H; specialize (H2 i v H); lia|done|exact H4].
    intros i v H. apply H1 in H as [H _]. split; lia.
  - split; cbn [suspend calls loadVersion agentId loading].
    + intros i v [H|H]%elem_of_app; [apply H1 in H as [H _]; split; lia|]. by apply list_elem_of_singleton in H.
    + intros i v [H|H]%elem_of_app; [specialize (H2 i v H); lia|]. apply list_elem_of_singleton in H. injection H as _ ->. lia.
    + intros _. exists id, (loadVersion s + 1)%N. rewrite elem_of_app. right. by left.
    + intros kind H. destruct (H4 kind) as (i & t & Hin); [by destruct kind|]. exists i, t. rewrite elem_of_app. by left.
Qed.

Lemma task_ok kind t s : channel_ok s -> channel_ok (startTask kind t s).
Proof.
  intros Hs. unfold startTask. destruct (_ =? 0)%N; [done|].
  assert (channel_ok (suspend (TaskCall kind (agentId s) t) s)) as [H1 H2 H3 H4] by (by apply suspend_channel_ok).
  split; [exact H1|exact H2|exact H3|]. intros k Hk.
  assert (k = kind \/ flag k s = true) as [->|H] by (destruct kind, k; cbn in Hk |- *; auto); [|by apply (H4 k)].
  exists (agentId s), t. destruct kind; cbn; rewrite elem_of_app; right; by left.
Qed.

Lemma channel_step_ok e s : channel_ok s -> channel_ok (step e s).
Proof.
  intros Hs. destruct e; cbn [step]; [by apply load_ok| |by apply task_ok|by apply answer_ok].
  unfold checkPluginStatus. destruct (_ =? 0)%N; [done|]. by apply suspend_channel_ok.
Qed.

Lemma after_ok es s : channel_ok s -> channel_ok (after es s).
Proof. revert s. induction es as [|e es IH]; intros s Hs; [done|]. apply IH. by apply channel_step_ok. Qed.

(** ** Theorems *)

(** A run in which no load begins while the status of a plugin is awaited. *)
Inductive quiet : list Event -> Channel -> Prop :=
| quiet_nil s : quiet [] s
| quiet_cons e es s :
    (forall id, e = Load id -> forall i l, StatusCall i l ∉ s.(calls)) -> quiet es (step e s) -> quiet (e :: es) s.

Definition current_calls (s : Channel) : Prop := forall id l, StatusCall id l ∈ s.(calls) -> id = s.(agentId).

Lemma calls_answer i res s c : c ∈ (answer i res s).(calls) -> c ∈ s.(calls) \/ exists v, c = LatestCall s.(agentId) v.
Proof.
  unfold answer. destruct (calls s !! i) as [d|]; [|by left].
  destruct d as [id [v|]|id v|kind id t], res as [data|]; try (intros H; left; by apply elem_delete in H).
  - destruct (match data with Some t => t.(s_installed) | None => false end); [|intros H; left; by apply elem_delete in H].
    unfold checkPluginLatestVersion. destruct (_ =? 0)%N; [intros H; left; by apply elem_delete in H|].
    cbn. rewrite elem_of_app, list_elem_of_singleton. intros [H| ->]; [left; by apply elem_delete in H|right; by eexists].
  - destruct (negb _); intros H; left; by apply elem_delete in H.
Qed.

Lemma answer_agent i res s : (answer i res s).(agentId) = s.(agentId).
Proof.
  unfold answer. destruct (calls s !! i) as [d|]; [|done].
  destruct d as [id [v|]|id v|kind id t], res as [data|]; try done.
  - unfold checkPluginLatestVersion. destruct (match data with Some t => t.(s_installed) | None => false end); [|done].
    by destruct (_ =? 0)%N.
  - by destruct (negb _).
Qed.

Lemma current_step e s : (forall id, e = Load id -> forall i l, StatusCall i l ∉ s.(calls)) ->
  current_calls s -> current_calls (step e s).
Proof.
  intros Hq Hs. destruct e as [id| |kind t|i res]; cbn [step].
  - unfold loadPlugin. intros i l. destruct (id =? 0)%N.
    + intros H. by apply (Hq id eq_refl) in H.
    + cbn. rewrite elem_of_app, list_elem_of_singleton. intros [H|[= -> _]]; [by apply (Hq id eq_refl) in H|done].
  - unfold checkPluginStatus. destruct (_ =? 0)%N; [done|]. intros i l. cbn.
    rewrite elem_of_app, list_elem_of_singleton. intros [H|[= -> _]]; [by eapply Hs|done].
  - unfold startTask. destruct (_ =? 0)%N; [done|]. intros i l. cbn.
    rewrite elem_of_app, list_elem_of_singleton. intros [H|H]; [by eapply Hs|done].
  - intros id l H. rewrite answer_agent. apply calls_answer in H as [H|[v H]]; [by eapply Hs|done].
Qed.

Lemma answer_status i res s : channel_ok s -> current_calls s ->
  (answer i res s).(status_of) = s.(status_of) \/ (answer i res s).(status_of) = Some s.(agentId).
Proof.
  intros Hok Hs. unfold answer. destruct (calls s !! i) as [d|] eqn:Hi; [|by left]. apply list_elem_of_lookup_2 in Hi.
  destruct d as [id [v|]|id v|kind id t], res as [data|]; try (by left).
  - right. apply Hs in Hi as ->. unfold checkPluginLatestVersion.
    destruct (match data with Some t => t.(s_installed) | None => false end); [|done]. by destruct (_ =? 0)%N.
  - right. by apply Hs in Hi as ->.
  - cbn [drop_call loadVersion]. destruct (N.eqb_spec v (loadVersion s)) as [->|]; cbn [negb]; [|by left].
    right. apply (ch_latest _ Hok) in Hi as [_ Hi]. by rewrite Hi.
Qed.

(** The check for the latest version never shows the status of an agent that is no
    longer the current one; while no load begins before the status of the previous one has
    come, no answer does; and when no call is awaited, nothing is shown as going on. *)
Theorem channel_shows_current es :
  let s := after es initial_channel in
  (forall i id v res, s.(calls) !! i = Some (LatestCall id v) ->
     (answer i res s).(status_of) = s.(status_of) \/ (answer i res s).(status_of) = Some s.(agentId)) /\
  (quiet es initial_channel -> forall i res,
     (answer i res s).(status_of) = s.(status_of) \/ (answer i res s).(status_of) = Some s.(agentId)) /\
  (s.(calls) = [] -> s.(loading) = false /\ forall kind, flag kind s = false).
Proof.
  cbv zeta. pose proof (after_ok es _ initial_channel_ok) as Hok. split; [|split].
  - intros i id v res Hi. unfold answer. rewrite Hi. destruct res as [data|]; [|by left].
    cbn [drop_call loadVersion]. destruct (N.eqb_spec v (loadVersion (after es initial_channel))) as [->|]; cbn [negb]; [|by left].
    right. apply list_elem_of_lookup_2 in Hi. apply (ch_latest _ Hok) in Hi as [_ Hi]. by rewrite Hi.
  - intros Hq i res. apply answer_status; [done|]. revert Hq.
    assert (current_calls initial_channel) as Hc by (intros id l H; by apply elem_of_nil in H).
    clear Hok. revert Hc. generalize initial_channel. induction es as [|e es IH]; intros s Hc Hq; [done|].
    inversion Hq; subst. apply IH; [by apply current_step|done].
  - intros Hn. split.
    + apply not_true_iff_false. intros H. apply (ch_loading _ Hok) in H as (id & v & H). rewrite Hn in H. by apply elem_of_nil in H.
    + intros kind. apply not_true_iff_false. intros H. apply (ch_tasks _ Hok) in H as (id & t & H). rewrite Hn in H.
      by apply elem_of_nil in H.
Qed.

Definition status (b : bool) (v : string) : AgentPluginStatus :=
  {| s_installed := b; s_currentVersion := js v; s_latestVersion := []; s_upgradable := false |}.

(** The status of a load that has been overtaken is applied all the same: when agent 1
    answers after agent 2, its plugin is shown as that of agent 2, and nothing that is
    still awaited corrects it. *)
Lemma overtaken_load_is_shown :
  let s := after [Load 1; Load 2; Answer 1 (Some (Some (status false "")));
                  Answer 0 (Some (Some (status true "1.0")))] initial_channel in
  s.(agentId) = 2%N /\ s.(installed) = true /\ s.(currentVersion) = js "1.0" /\ s.(status_of) = Some 1%N /\
  s.(loading) = false /\ s.(calls) = [LatestCall 2 1] /\
  forall res, (answer 0 res s).(status_of) = Some 1%N.
Proof. cbv zeta. split_and!; try (by vm_compute). by intros [data|]. Qed.

Lemma channel_shows_current_witness :
  let s := after [Load 1; Answer 0 (Some (Some (status true "1.0"))); Load 2] initial_channel in
  quiet [Load 1; Answer 0 (Some (Some (status true "1.0"))); Load 2] initial_channel /\
  ((answer 1 (Some (Some (status true "2.0"))) s).(status_of) = s.(status_of) \/
   (answer 1 (Some (Some (status true "2.0"))) s).(status_of) = Some s.(agentId)).
Proof.
  cbv zeta. assert (Hq : quiet [Load 1; Answer 0 (Some (Some (status true "1.0"))); Load 2] initial_channel).
  { repeat (apply quiet_cons; [intros id Hid i l Hin; vm_compute in Hin;
      repeat (apply elem_of_cons in Hin as [Hin|Hin]; [discriminate Hin || discriminate Hid|]); by apply elem_of_nil in Hin|]).
    apply quiet_nil. }
  split; [exact Hq|]. apply (channel_shows_current [Load 1; Answer 0 (Some (Some (status true "1.0"))); Load 2]). exact Hq.
Defined.
