(* ===== verification/Environment.v ===== *)
(** * Environment files of runtimes

    src/frontend/src/utils/runtime-environment.ts.  The parser reads NAME=value lines
    with optional quotes that may span lines; it keeps the loop over line indices and
    the scan over the growing value as the source has them, on fuel that
    [parseEnvironment_total] shows to be enough. *)

From S2P Require Import Prelude JsString Splitting.
From Stdlib Require Import ZifyBool ZifyN.

#[local] Open Scope list_scope.

Record EnvironmentEntry := { key : jsstr; value : jsstr }.

Inductive Reason := envInvalidAssignment | envUnclosedQuote | envUnexpectedText.
Record EnvironmentError := { line : nat; reason : Reason }.

(** The entries, none when there is an error. *)
Inductive Parsed :=
| Entries (l : list EnvironmentEntry)
| Error (e : EnvironmentError)
| OutOfFuel.

(** ** Lines *)

(** [.replace(/^\uFEFF/, '')] *)
Definition strip_bom (s : jsstr) : jsstr :=
  match s with c :: s' => if (c =? 65279)%N then s' else s | [] => [] end.

(** [.replace(/\r\n?/g, '\n')] *)
Fixpoint unify_newlines (s : jsstr) : jsstr :=
  match s with
  | [] => []
  | c :: s' =>
      if (c =? 13)%N then
        match s' with
        | d :: s'' => if (d =? 10)%N then 10%N :: unify_newlines s'' else 10%N :: unify_newlines s'
        | [] => [10%N]
        end
      else c :: unify_newlines s'
  end.

Definition env_lines (text : jsstr) : list jsstr := split 10 (unify_newlines (strip_bom text)).

(** ** One assignment

    The expression: an optional word export with white space, a name, an equals sign
    between optional white space, and the rest of the line.  The runs are greedy and
    the units after each cannot belong to it, so the only choice is whether the word
    export is the prefix or the name; the rest excludes line terminators. *)

Definition name_start (c : N) : bool := is_lower c || is_upper c || (c =? 95)%N.
Definition name_unit (c : N) : bool := name_start c || is_digit c.

Fixpoint span (f : N -> bool) (s : jsstr) : jsstr * jsstr :=
  match s with
  | c :: s' => if f c then let '(a, b) := span f s' in (c :: a, b) else ([], s)
  | [] => ([], [])
  end.

(** The expression after the prefix. *)
Definition exec_plain (s : jsstr) : option (jsstr * jsstr) :=
  match s with
  | c :: _ =>
      if name_start c then
        let '(k, r) := span name_unit s in
        match trimStart r with
        | e :: r' =>
            if (e =? 61)%N then
              let v := trimStart r' in
              if existsb line_terminator v then None else Some (k, v)
            else None
        | [] => None
        end
      else None
  | [] => None
  end.
Definition exec_assignment (s : jsstr) : option (jsstr * jsstr) :=
  let prefixed :=
    if startsWith s (js "export") then
      match drop 6 s with
      | c :: r => if is_ws c then exec_plain (trimStart r) else None
      | [] => None
      end
    else None in
  match prefixed with Some m => Some m | None => exec_plain s end.

(** ** Quoted values *)

Inductive Scan :=
| Closed (value : jsstr) (end_ i : nat)
| Unclosed
| NoFuel.

(** The loop that looks for the closing quote: [i] is the index of the last line that
    was joined to the value. *)
Fixpoint close_quote (fuel : nat) (quote : N) (lines : list jsstr) (text : jsstr) (end_ i : nat) : Scan :=
  match fuel with
  | O => NoFuel
  | S n =>
      match (if length text <=? end_
             then (fun l => (text ++ 10%N :: l, S i)) <$> lines !! S i
             else Some (text, i)) with
      | None => Unclosed
      | Some (text, i) =>
          if bool_decide (text !! end_ = Some 92%N) &&
             (bool_decide (text !! S end_ = Some quote) || bool_decide (text !! S end_ = Some 92%N))
          then close_quote n quote lines text (S (S end_)) i
          else if bool_decide (text !! end_ = Some quote) then Closed text end_ i
          else close_quote n quote lines text (S end_) i
      end
  end.

(** The replacement of the escapes in a value between double quotes. *)
Definition double_escape (c : N) : option N :=
  if (c =? 110)%N then Some 10%N else if (c =? 114)%N then Some 13%N else if (c =? 116)%N then Some 9%N
  else if (c =? 34)%N then Some 34%N else if (c =? 92)%N then Some 92%N else None.
Fixpoint unescape_double (s : jsstr) : jsstr :=
  match s with
  | [] => []
  | c :: s' =>
      if (c =? 92)%N then
        match s' with
        | d :: s'' => match double_escape d with
                      | Some u => u :: unescape_double s''
                      | None => c :: unescape_double s'
                      end
        | [] => [c]
        end
      else c :: unescape_double s'
  end.

(** The replacement of a comment by nothing: from the first white space of a run that a hash
    follows, when no line terminator follows the hash. *)
Fixpoint strip_comment (s : jsstr) : jsstr :=
  match s with
  | [] => []
  | c :: s' =>
      if is_ws c && startsWith (trimStart s') (js "#") && negb (existsb line_terminator (trimStart s')) then []
      else c :: strip_comment s'
  end.

(** An entry replaces the value of an earlier one of its name. *)
Fixpoint put_entry (k v : jsstr) (l : list EnvironmentEntry) : list EnvironmentEntry :=
  match l with
  | [] => [{| key := k; value := v |}]
  | e :: l' => if e.(key) === k then {| key := e.(key); value := v |} :: l' else e :: put_entry k v l'
  end.

(** The text after a closing quote. *)
Definition trailing_ok (value : jsstr) (end_ : nat) : bool :=
  let trailing := trim (drop (S end_) value) in
  negb (truthy trailing) || startsWith trailing (js "#").

Definition total_length (lines : list jsstr) : nat := list_sum (List.map (fun l => S (length l)) lines).

(** The loop over the lines from index [i]. *)
Fixpoint parse_lines (fuel : nat) (lines : list jsstr) (i : nat) (entries : list EnvironmentEntry) : Parsed :=
  match lines !! i with
  | None => Entries entries
  | Some l =>
      match fuel with
      | O => OutOfFuel
      | S n =>
          let line := trimStart l in
          if negb (truthy line) || startsWith line (js "#") then parse_lines n lines (S i) entries
          else
            match exec_assignment line with
            | None => Error {| line := S i; reason := envInvalidAssignment |}
            | Some (k, v) =>
                match v with
                | quote :: _ =>
                    if (quote =? 34)%N || (quote =? 39)%N then
                      match close_quote (S (length v + total_length lines)) quote lines v 1 i with
                      | NoFuel => OutOfFuel
                      | Unclosed => Error {| line := S i; reason := envUnclosedQuote |}
                      | Closed v' end_ i' =>
                          if negb (trailing_ok v' end_) then Error {| line := S i'; reason := envUnexpectedText |}
                          else
                            let body := slice v' 1 end_ in
                            let value := if (quote =? 34)%N then unescape_double body
                                         else replaceAll body [92%N; 39%N] [39%N] in
                            parse_lines n lines (S i') (put_entry k value entries)
                      end
                    else
                      let value := if startsWith v (js "#") then [] else trimEnd (strip_comment v) in
                      parse_lines n lines (S i) (put_entry k value entries)
                | [] => parse_lines n lines (S i) (put_entry k [] entries)
                end
            end
      end
  end.

Definition parseEnvironment (text : jsstr) : Parsed :=
  let lines := env_lines text in parse_lines (length lines) lines 0 [].

(** The first entry of a name takes the new value; a new name is appended. *)
Definition mergeEnvironments (current incoming : list EnvironmentEntry) : list EnvironmentEntry :=
  foldl (fun cur e => put_entry e.(key) e.(value) cur) current incoming.

Definition E k v := {| key := js k; value := js v |}.
Definition nl : jsstr := [10%N].
Definition dq : jsstr := [34%N].

Example env_plain : parseEnvironment (js "A=1" ++ nl ++ js "# c" ++ nl ++ js " export B = x y  # z" ++ nl ++ js "A=#")
  = Entries [E "A" ""; E "B" "x y"]. Proof. vm_compute. reflexivity. Qed.
Example env_quoted : parseEnvironment (js "A=" ++ dq ++ js "l1\n\" ++ dq ++ nl ++ js "l2" ++ dq ++ js " #c" ++ nl ++ js "B='it\'s'")
  = Entries [{| key := js "A"; value := js "l1" ++ nl ++ dq ++ nl ++ js "l2" |}; E "B" "it's"].
Proof. vm_compute. reflexivity. Qed.
Example env_unclosed : parseEnvironment (js "A=1" ++ nl ++ js "B='x" ++ nl ++ js "y")
  = Error {| line := 2; reason := envUnclosedQuote |}. Proof. vm_compute. reflexivity. Qed.
Example env_export_name : parseEnvironment (js "export =1") = Entries [E "export" "1"]. Proof. vm_compute. reflexivity. Qed.
Example env_unexpected : parseEnvironment (js "A='x' y") = Error {| line := 1; reason := envUnexpectedText |}.
Proof. vm_compute. reflexivity. Qed.

(** ** Termination *)

(** The text still to come after line [i]. *)
Definition rest_length (lines : list jsstr) (i : nat) : nat := total_length (drop (S i) lines).

Lemma rest_next lines i l : lines !! S i = Some l -> rest_length lines i = S (length l) + rest_length lines (S i).
Proof. intros H. unfold rest_length. by rewrite (drop_S _ _ _ H). Qed.

Lemma rest_total lines i : rest_length lines i <= total_length lines.
Proof.
  unfold rest_length, total_length. rewrite <- (take_drop (S i) lines) at 2.
  rewrite map_app. rewrite list_sum_app. lia.
Qed.

Lemma close_quote_total fuel quote lines text end_ i :
  end_ <= length text -> length text + rest_length lines i < fuel + end_ ->
  i < length lines ->
  match close_quote fuel quote lines text end_ i with
  | NoFuel => False
  | Closed _ _ i' => i <= i' < length lines
  | Unclosed => True
  end.
Proof.
  revert text end_ i. induction fuel as [|fuel IH]; intros text end_ i He Hf Hi; [lia|].
  cbn [close_quote].
  destruct (if length text <=? end_ then _ else _) as [[t j]|] eqn:E; [|done].
  assert (Ht : end_ < length t /\ length t + rest_length lines j = length text + rest_length lines i /\
    i <= j < length lines).
  { destruct (Nat.leb_spec (length text) end_); [|injection E as <- <-; lia].
    destruct (lines !! S i) as [l|] eqn:El; [|done]. injection E as <- <-.
    pose proof (rest_next lines i l El). apply lookup_lt_Some in El.
    rewrite length_app. cbn [length]. lia. }
  destruct Ht as (H1 & H2 & H3). destruct (_ && _) eqn:Ea.
  - assert (S end_ < length t).
    { apply andb_true_iff in Ea as [_ Ea]. apply orb_true_iff in Ea as [Ea|Ea]; apply bool_decide_eq_true in Ea;
        by apply lookup_lt_Some in Ea. }
    specialize (IH t (S (S end_)) j ltac:(lia) ltac:(lia) ltac:(lia)).
    destruct (close_quote _ _ _ _ _ _); [lia|done..].
  - destruct (bool_decide (t !! end_ = Some quote)); [exact H3|].
    specialize (IH t (S end_) j ltac:(lia) ltac:(lia) ltac:(lia)).
    destruct (close_quote _ _ _ _ _ _); [lia|done..].
Qed.

(** The parser ends on every text: neither the loop over the lines nor the search
    for a closing quote runs out of fuel. *)
Theorem parseEnvironment_total text : parseEnvironment text <> OutOfFuel.
Proof.
  unfold parseEnvironment. set (lines := env_lines text).
  assert (H : forall fuel i entries, length lines <= fuel + i -> parse_lines fuel lines i entries <> OutOfFuel);
    [|apply H; lia].
  induction fuel as [|fuel IH]; intros i entries Hi; cbn [parse_lines]; destruct (lines !! i) as [l|] eqn:El; try done.
  { apply lookup_lt_Some in El. lia. }
  apply lookup_lt_Some in El. destruct (_ || _); [apply IH; lia|].
  destruct (exec_assignment _) as [[k v]|]; [|done]. destruct v as [|q v]; [apply IH; lia|].
  destruct (_ || _); [|apply IH; lia].
  pose proof (close_quote_total (S (length (q :: v) + total_length lines)) q lines (q :: v) 1 i) as Hq.
  pose proof (rest_total lines i). destruct (close_quote _ _ _ _ _ _) as [v' e i'| |]; [|done|].
  - destruct (negb _); [done|]. apply IH. cbn [length] in Hq. lia.
  - exfalso. apply Hq; cbn [length]; lia.
Qed.

(** ** Names *)

Definition valid_name (k : jsstr) : bool :=
  match k with c :: _ => name_start c && forallb name_unit k | [] => false end.

Lemma span_spec f s a b : span f s = (a, b) -> s = a ++ b /\ forallb f a = true /\
  match b with [] => True | c :: _ => f c = false end.
Proof.
  revert a b. induction s as [|c s IH]; intros a b; cbn [span]; [by intros [= <- <-]|].
  destruct (f c) eqn:E; [|by intros [= <- <-]]. destruct (span f s) as [a' b'].
  intros [= <- <-]. destruct (IH a' b' eq_refl) as (-> & H1 & H2). cbn. by rewrite E.
Qed.

Lemma exec_plain_name s k v : exec_plain s = Some (k, v) -> valid_name k = true.
Proof.
  unfold exec_plain. destruct s as [|c s]; [done|]. destruct (name_start c) eqn:Ec; [|done].
  destruct (span name_unit (c :: s)) as [a b] eqn:E. destruct (trimStart b) as [|e r]; [done|].
  destruct (e =? 61)%N; [|done]. destruct (existsb _ _); [done|]. intros [= <- _].
  cbn [span] in E. unfold name_unit in E at 1. rewrite Ec in E. cbn [orb] in E.
  destruct (span name_unit s) as [a' b'] eqn:E'. injection E as <- <-.
  apply span_spec in E' as (_ & H & _). cbn [valid_name forallb]. rewrite Ec, H. unfold name_unit. by rewrite Ec.
Qed.

Lemma exec_assignment_name s k v : exec_assignment s = Some (k, v) -> valid_name k = true.
Proof.
  unfold exec_assignment. intros H.
  destruct (if startsWith s (js "export") then _ else None) as [[k' v']|] eqn:E; [|by apply exec_plain_name in H].
  injection H as -> ->. destruct (startsWith _ _); [|done]. destruct (drop 6 s) as [|c r]; [done|].
  destruct (is_ws c); [|done]. by apply exec_plain_name in E.
Qed.

Lemma put_entry_keys k v l :
  List.map key (put_entry k v l) = if memb k (List.map key l) then List.map key l else List.map key l ++ [k].
Proof.
  induction l as [|e l IH]; [done|]. cbn [put_entry List.map memb existsb]. fold (memb k (List.map key l)).
  rewrite (streqb_sym k). destruct (key e === k) eqn:Ek; cbn [orb List.map key]; [done|].
  rewrite IH. by destruct (memb k _).
Qed.

Definition named_well (l : list EnvironmentEntry) : Prop :=
  NoDup (List.map key l) /\ Forall (fun k => valid_name k = true) (List.map key l).

Lemma put_entry_named k v l : valid_name k = true -> named_well l -> named_well (put_entry k v l).
Proof.
  intros Hk [Hn Hv]. unfold named_well. rewrite put_entry_keys. destruct (memb k _) eqn:E; [done|].
  apply memb_not_elem in E. split; [|by apply Forall_app_2; [|by repeat constructor]].
  apply list.NoDup_app. split; [done|]. split; [|by apply NoDup_singleton].
  intros x Hx ->%list_elem_of_singleton. done.
Qed.

Lemma parse_lines_named fuel lines i entries l :
  named_well entries -> parse_lines fuel lines i entries = Entries l -> named_well l.
Proof.
  revert i entries. induction fuel as [|fuel IH]; intros i entries Hw; cbn [parse_lines];
    destruct (lines !! i) as [ln|]; try done; try (by intros [= <-]).
  destruct (_ || _); [by apply IH|]. destruct (exec_assignment _) as [[k v]|] eqn:Ex; [|done].
  apply exec_assignment_name in Ex. destruct v as [|q v]; [apply IH; by apply put_entry_named|].
  destruct (_ || _); [|apply IH; by apply put_entry_named].
  destruct (close_quote _ _ _ _ _ _); try done. destruct (negb _); [done|]. apply IH. by apply put_entry_named.
Qed.

(** The names the parser yields are identifiers, and no name appears twice. *)
Theorem parseEnvironment_names text l : parseEnvironment text = Entries l ->
  NoDup (List.map key l) /\ Forall (fun k => valid_name k = true) (List.map key l).
Proof. apply parse_lines_named. split; constructor. Qed.

(** ** Merging *)

Definition lookup_entry (k : jsstr) (l : list EnvironmentEntry) : option jsstr :=
  value <$> List.find (fun e => e.(key) === k) l.

Lemma lookup_put k k' v l :
  lookup_entry k (put_entry k' v l) = if k' === k then Some v else lookup_entry k l.
Proof.
  unfold lookup_entry. induction l as [|e l IH]; cbn [put_entry List.find].
  - cbn [key]. by destruct (k' === k).
  - destruct (key e === k') eqn:E; cbn [List.find key].
    + apply streqb_eq in E as ->. by destruct (k' === k).
    + destruct (key e === k) eqn:Ek; [|done]. apply streqb_eq in Ek as <-.
      rewrite streqb_sym, E. done.
Qed.

Lemma find_app {A} (f : A -> bool) a b :
  List.find f (a ++ b) = match List.find f a with Some x => Some x | None => List.find f b end.
Proof. induction a as [|x a IH]; [done|]. cbn [app List.find]. by destruct (f x). Qed.

(** Merging gives every name its last incoming value and keeps the others, appends
    only the incoming names that are new, and repeats no name that was not repeated. *)
Theorem mergeEnvironments_spec current incoming :
  (forall k, lookup_entry k (mergeEnvironments current incoming) =
     match lookup_entry k (rev incoming) with Some v => Some v | None => lookup_entry k current end) /\
  (exists new : list jsstr, List.map key (mergeEnvironments current incoming) = List.map key current ++ new /\
     forall k, k ∈ new <-> k ∈ List.map key incoming /\ k ∉ List.map key current) /\
  (NoDup (List.map key current) -> NoDup (List.map key (mergeEnvironments current incoming))).
Proof.
  unfold mergeEnvironments. revert current. induction incoming as [|e l IH]; intros current; cbn [foldl rev].
  { split; [done|]. split; [|done]. exists []. rewrite app_nil_r. split; [done|]. cbn. set_solver. }
  destruct (IH (put_entry (key e) (value e) current)) as (H1 & (new & H2 & H3) & H4).
  rewrite put_entry_keys in H2, H3, H4. split; [|split].
  - intros k. rewrite H1, lookup_put. unfold lookup_entry. rewrite find_app. cbn [List.find].
    destruct (List.find _ (rev l)); [done|]. by destruct (key e === k).
  - destruct (memb (key e) (List.map key current)) eqn:Em; bool_prop.
    + exists new. split; [done|]. intros k. rewrite H3. cbn [List.map]. rewrite elem_of_cons. naive_solver.
    + exists (key e :: new). rewrite <- app_assoc in H2. split; [done|].
      intros k. cbn [List.map]. rewrite !elem_of_cons, H3, elem_of_app, list_elem_of_singleton.
      destruct (decide (k = key e)) as [->|]; naive_solver.
  - intros Hn. apply H4. destruct (memb _ _) eqn:Em; [done|]. apply memb_not_elem in Em.
    apply list.NoDup_app. split; [done|]. split; [|by apply NoDup_singleton].
    intros x Hx ->%list_elem_of_singleton. done.
Qed.

(** ** Reading back a quoted file

    A file with one line per entry, each value between double quotes with its line
    feeds, carriage returns, tabs, quotes and reverse solidi escaped. *)

Definition escape_unit (c : N) : jsstr :=
  if (c =? 10)%N then [92; 110]%N else if (c =? 13)%N then [92; 114]%N else if (c =? 9)%N then [92; 116]%N
  else if (c =? 34)%N then [92; 34]%N else if (c =? 92)%N then [92; 92]%N else [c].
Definition escape_double (w : jsstr) : jsstr := flat_map escape_unit w.

Definition quoted (w : jsstr) : jsstr := 34%N :: escape_double w ++ [34%N].
Definition entry_line (e : EnvironmentEntry) : jsstr := e.(key) ++ 61%N :: quoted e.(value).
Definition env_text (l : list EnvironmentEntry) : jsstr := join [10%N] (List.map entry_line l).

(** The five shapes of an escaped unit. *)
Lemma escape_unit_cases c :
  (exists x, escape_unit c = [92; x]%N /\ double_escape x = Some c /\ x <> 10%N /\ x <> 13%N /\ x <> 8232%N /\ x <> 8233%N) \/
  (escape_unit c = [c] /\ c <> 92%N /\ c <> 34%N /\ c <> 10%N /\ c <> 13%N).
Proof.
  unfold escape_unit.
  do 5 (match goal with |- context [(c =? ?k)%N] => destruct (N.eqb_spec c k) as [->|] end;
    [left; eexists; split; [reflexivity|]; split; [reflexivity|]; split_and!; lia|]).
  by right.
Qed.

Lemma unescape_escape w : unescape_double (escape_double w) = w.
Proof.
  induction w as [|c w IH]; [done|]. cbn [escape_double flat_map]. fold (escape_double w).
  destruct (escape_unit_cases c) as [(x & -> & Hx & _)|(-> & H1 & H2 & _)]; cbn [app unescape_double].
  - rewrite Hx. cbn [N.eqb Pos.eqb]. by rewrite IH.
  - apply N.eqb_neq in H1 as ->. by rewrite IH.
Qed.

Lemma escape_double_units w c : c ∈ escape_double w ->
  c <> 10%N /\ c <> 13%N /\ (Forall (fun c => c <> 8232%N /\ c <> 8233%N) w -> c <> 8232%N /\ c <> 8233%N).
Proof.
  intros Hc. apply list_elem_of_In, in_flat_map in Hc as (d & Hd & Hc). apply list_elem_of_In in Hd, Hc.
  destruct (escape_unit_cases d) as [(x & E & _ & ?)|(E & _ & _ & H1 & H2)]; rewrite E in Hc;
    rewrite ?elem_of_cons, ?elem_of_nil in Hc.
  - destruct Hc as [->|[->|[]]]; (split; [lia|]; split; [lia|]); intros _; lia.
  - destruct Hc as [->|[]]. split; [done|]. split; [done|]. intros H. rewrite Forall_elem in H. by apply H.
Qed.

Section Scan.
Variables (lines : list jsstr) (i : nat).

Lemma at_mid (pre : jsstr) c post : (pre ++ c :: post) !! length pre = Some c.
Proof. by rewrite lookup_app_r, Nat.sub_diag by lia. Qed.

Lemma at_next (pre : jsstr) c d post : (pre ++ c :: d :: post) !! S (length pre) = Some d.
Proof. rewrite lookup_app_r by lia. by replace (S (length pre) - length pre) with 1 by lia. Qed.

Lemma scan_inside n text end_ : end_ < length text ->
  close_quote (S n) 34 lines text end_ i =
  (if bool_decide (text !! end_ = Some 92%N) &&
      (bool_decide (text !! S end_ = Some 34%N) || bool_decide (text !! S end_ = Some 92%N))
   then close_quote n 34 lines text (S (S end_)) i
   else if bool_decide (text !! end_ = Some 34%N) then Closed text end_ i
   else close_quote n 34 lines text (S end_) i).
Proof. intros H. cbn [close_quote]. by destruct (Nat.leb_spec (length text) end_); [lia|]. Qed.

(** A unit that is neither a quote nor a reverse solidus is passed. *)
Lemma scan_plain n pre c post : c <> 92%N -> c <> 34%N ->
  close_quote (S n) 34 lines (pre ++ c :: post) (length pre) i =
  close_quote n 34 lines (pre ++ c :: post) (S (length pre)) i.
Proof.
  intros H1 H2. rewrite scan_inside by (rewrite length_app; cbn; lia). rewrite at_mid.
  rewrite (bool_decide_false (Some c = Some 92%N)), (bool_decide_false (Some c = Some 34%N)) by congruence. done.
Qed.

(** The search for the quote passes an escaped text and stops after it. *)
Lemma scan_escaped w n pre : length (escape_double w) < n ->
  close_quote n 34 lines (pre ++ escape_double w ++ [34%N]) (length pre) i =
  Closed (pre ++ escape_double w ++ [34%N]) (length pre + length (escape_double w)) i.
Proof.
  revert n pre. induction w as [|c w IH]; intros n pre Hn.
  - destruct n as [|n]; [cbn in Hn; lia|]. cbn [escape_double flat_map app length]. rewrite Nat.add_0_r.
    rewrite scan_inside by (rewrite length_app; cbn; lia). rewrite at_mid.
    by rewrite (bool_decide_false (Some 34%N = Some 92%N)), (bool_decide_true (Some 34%N = Some 34%N)) by done.
  - cbn [escape_double flat_map] in *. fold (escape_double w) in *.
    destruct (escape_unit_cases c) as [(x & E & Hx & _)|(E & H1 & H2 & _)]; rewrite E in *; cbn [app] in *.
    + cbn [length] in Hn |- *. destruct n as [|[|n]]; [lia..|].
      assert (IH' : forall m, length (escape_double w) < m ->
        close_quote m 34 lines (pre ++ 92%N :: x :: escape_double w ++ [34%N]) (S (S (length pre))) i =
        Closed (pre ++ 92%N :: x :: escape_double w ++ [34%N]) (length pre + S (S (length (escape_double w)))) i).
      { intros m Hm. specialize (IH m (pre ++ [92; x]%N) Hm). rewrite <- app_assoc, length_app in IH. cbn [app length] in IH.
        replace (length pre + 2) with (S (S (length pre))) in IH by lia. rewrite IH. f_equal. lia. }
      rewrite scan_inside by (rewrite length_app; cbn; lia). rewrite at_mid, at_next.
      rewrite (bool_decide_true (Some 92%N = Some 92%N)) by done. cbn [andb].
      destruct (bool_decide (Some x = Some 34%N) || bool_decide (Some x = Some 92%N)) eqn:Eq; [apply IH'; lia|].
      apply orb_false_iff in Eq as [Eq1 Eq2]. apply bool_decide_eq_false in Eq1, Eq2.
      rewrite (bool_decide_false (Some 92%N = Some 34%N)) by done.
      pose proof (scan_plain n (pre ++ [92%N]) x (escape_double w ++ [34%N])) as Hp.
      rewrite <- app_assoc, length_app in Hp. cbn [app length] in Hp.
      replace (length pre + 1) with (S (length pre)) in Hp by lia.
      rewrite Hp by congruence. apply IH'. lia.
    + cbn [length] in Hn |- *. destruct n as [|n]; [lia|]. rewrite scan_plain by done.
      specialize (IH n (pre ++ [c]) ltac:(lia)). rewrite <- app_assoc, length_app in IH. cbn [app length] in IH.
      replace (length pre + 1) with (S (length pre)) in IH by lia. rewrite IH. f_equal. lia.
Qed.

Lemma scan_quoted w n : length (quoted w) <= n ->
  close_quote n 34 lines (quoted w) 1 i = Closed (quoted w) (1 + length (escape_double w)) i.
Proof.
  intros H. apply (scan_escaped w n [34%N]). unfold quoted in H. cbn [length] in H. rewrite length_app in H. cbn in H. lia.
Qed.
End Scan.

(** The expression on the line of an entry. *)
Lemma span_app f a b :
  forallb f a = true -> match b with [] => True | c :: _ => f c = false end -> span f (a ++ b) = (a, b).
Proof.
  intros Ha Hb. induction a as [|c a IH]; cbn [app].
  - destruct b as [|c b]; [done|]. cbn [span]. by rewrite Hb.
  - apply andb_true_iff in Ha as [Hc Ha]. cbn [span]. by rewrite Hc, IH.
Qed.

(** A line separator or a paragraph separator, which the escapes leave as it is and the dot of
    the expression does not match. *)
Definition separator (c : N) : bool := (c =? 8232)%N || (c =? 8233)%N.
Definition separated (e : EnvironmentEntry) : bool := existsb separator e.(value).
Definition named_line (e : EnvironmentEntry) : Prop := valid_name e.(key) = true.

Lemma escape_double_kept c w : c ∈ w -> separator c = true -> c ∈ escape_double w.
Proof.
  intros Hc Hs. unfold escape_double. apply list_elem_of_In, in_flat_map. exists c. split; [by apply list_elem_of_In|].
  destruct (escape_unit_cases c) as [(x & E & _ & Hx)|(E & _)]; rewrite E; [|by left].
  exfalso. unfold separator in Hs. apply orb_true_iff in Hs as [->%N.eqb_eq| ->%N.eqb_eq]; discriminate E.
Qed.

Lemma quoted_terminators w : existsb line_terminator (quoted w) = existsb separator w.
Proof.
  apply eq_true_iff_eq. rewrite !existsb_elem. split.
  - intros (d & Hd & Ht). destruct (existsb separator w) eqn:Ew; [by apply existsb_elem|]. exfalso.
    assert (Hv : Forall (fun c => c <> 8232%N /\ c <> 8233%N) w).
    { apply Forall_elem. intros c Hc. assert (separator c = false) as Hs.
      { apply not_true_iff_false. intros Hs. apply not_true_iff_false in Ew. apply Ew, existsb_elem. eauto. }
      unfold separator in Hs. lia. }
    unfold quoted in Hd. rewrite elem_of_cons, elem_of_app, list_elem_of_singleton in Hd. unfold line_terminator in Ht.
    rewrite !orb_true_iff, !N.eqb_eq in Ht. destruct Hd as [->|[Hd| ->]]; [lia| |lia].
    apply escape_double_units in Hd as (H1 & H2 & H3). specialize (H3 Hv). lia.
  - intros (d & Hd & Ht). exists d. split; [unfold quoted; apply elem_of_cons; right; apply elem_of_app; left; by apply escape_double_kept|].
    unfold separator in Ht. unfold line_terminator. lia.
Qed.

Lemma quoted_trim w : trimStart (quoted w) = quoted w.
Proof. reflexivity. Qed.

Lemma equals_trim s : trimStart (61%N :: s) = 61%N :: s.
Proof. reflexivity. Qed.

Lemma exec_plain_line e : named_line e -> exec_plain (entry_line e) = if separated e then None else Some (e.(key), quoted e.(value)).
Proof.
  unfold named_line. intros Hk. unfold exec_plain, entry_line, separated. unfold valid_name in Hk. destruct (key e) as [|c k]; [done|].
  apply andb_true_iff in Hk as [Hc Hk]. cbn [app]. rewrite Hc.
  change (c :: k ++ 61%N :: quoted (value e)) with ((c :: k) ++ 61%N :: quoted (value e)).
  rewrite span_app by done. rewrite equals_trim, quoted_trim, quoted_terminators. done.
Qed.

Lemma exec_line e : named_line e -> exec_assignment (entry_line e) = if separated e then None else Some (e.(key), quoted e.(value)).
Proof.
  intros He. pose proof (exec_plain_line e He) as Hp. unfold exec_assignment.
  destruct (startsWith (entry_line e) (js "export")) eqn:Es; [|done].
  apply startsWith_spec in Es as [t Et].
  assert (Hd : drop 6 (entry_line e) = t) by (rewrite Et; by rewrite (drop_app_length (js "export"))). rewrite Hd.
  destruct t as [|c r]; [done|]. destruct (is_ws c) eqn:Ec; [|done]. exfalso.
  (* the unit after the six letters belongs to the name or is the equals sign *)
  unfold named_line in He. rename He into Hk. unfold entry_line in Et.
  assert (Hx : c ∈ key e \/ c = 61%N).
  { clear - Et. revert Et. change (js "export") with [101; 120; 112; 111; 114; 116]%N.
    destruct (key e) as [|k1 [|k2 [|k3 [|k4 [|k5 [|k6 [|k7 k]]]]]]]; cbn [app]; intros Et; try discriminate Et.
    - injection Et as _ _ _ _ _ _ <- _. by right.
    - injection Et as _ _ _ _ _ _ <- _. left. do 6 right. by left. }
  destruct Hx as [Hx| ->]; [|done]. unfold valid_name in Hk. destruct (key e) as [|k0 k]; [done|].
  apply andb_true_iff in Hk as [_ Hk]. rewrite forallb_elem in Hk. apply Hk in Hx.
  unfold name_unit, name_start, is_digit, is_lower, is_upper in Hx. unfold is_ws in Ec. lia.
Qed.

(** The value between the quotes. *)
Lemma body_slice w : slice (quoted w) 1 (1 + length (escape_double w)) = escape_double w.
Proof.
  unfold slice, quoted. rewrite skipn_cons, drop_0.
  replace (1 + _ - 1) with (length (escape_double w)) by lia. by rewrite take_app_length.
Qed.

Lemma put_entry_new k v l : k ∉ List.map key l -> put_entry k v l = l ++ [{| key := k; value := v |}].
Proof.
  induction l as [|e l IH]; [done|]. cbn [List.map put_entry]. rewrite not_elem_of_cons. intros [Hk H].
  destruct (key e === k) eqn:E; [apply streqb_eq in E; congruence|].
  cbn [app]. f_equal. by apply IH.
Qed.

Lemma entry_line_start e : named_line e ->
  trimStart (entry_line e) = entry_line e /\ truthy (entry_line e) = true /\ startsWith (entry_line e) (js "#") = false /\
  strip_bom (entry_line e) = entry_line e.
Proof.
  intros Hk. unfold named_line, entry_line, valid_name in *. destruct (key e) as [|c k]; [done|].
  apply andb_true_iff in Hk as [Hc _]. unfold name_start, is_lower, is_upper in Hc.
  cbn [app trimStart strip_bom]. split_and!; [|done| |].
  - assert (is_ws c = false) as ->; [unfold is_ws; lia|done].
  - apply not_true_iff_false. intros (t & Ht)%startsWith_spec. injection Ht as -> _. lia.
  - destruct (N.eqb_spec c 65279); [lia|done].
Qed.

(** The entries as they are, or an error at the first line whose value has a separator. *)
Definition read_back (before : nat) (entries l : list EnvironmentEntry) : Parsed :=
  match list_find (fun e => separated e = true) l with
  | None => Entries (entries ++ l)
  | Some (i, _) => Error {| line := S (before + i); reason := envInvalidAssignment |}
  end.

Lemma read_back_cons n entries e l : separated e = false -> read_back n entries (e :: l) = read_back (S n) (entries ++ [e]) l.
Proof.
  intros He. unfold read_back. cbn [list_find]. rewrite decide_False by congruence.
  destruct (list_find _ l) as [[i x]|]; cbn; [by rewrite Nat.add_succ_r|by rewrite <- app_assoc].
Qed.

(** The loop reads one line per entry. *)
Lemma parse_quoted_lines l pre fuel entries : Forall named_line l -> length l <= fuel ->
  NoDup (List.map key entries ++ List.map key l) ->
  parse_lines fuel (pre ++ List.map entry_line l) (length pre) entries = read_back (length pre) entries l.
Proof.
  revert pre fuel entries. induction l as [|e l IH]; intros pre fuel entries Hr Hf Hn; cbn [List.map] in *.
  { unfold read_back. cbn. rewrite !app_nil_r. destruct fuel; cbn [parse_lines]; by rewrite lookup_ge_None_2. }
  apply Forall_cons_iff in Hr as [He Hr]. destruct fuel as [|fuel]; [cbn in Hf; lia|].
  cbn [parse_lines]. rewrite list_lookup_middle by done. destruct (entry_line_start e He) as (-> & -> & -> & _). cbn [negb orb].
  rewrite exec_line by done. destruct (separated e) eqn:Esep.
  { unfold read_back. cbn [list_find]. rewrite decide_True by done. by rewrite Nat.add_0_r. }
  rewrite read_back_cons by done. unfold quoted at 1. cbn match. change (34 =? 34)%N with true. cbn [orb].
  set (lines := pre ++ _ :: _). rewrite scan_quoted by lia.
  unfold trailing_ok. assert (Ht : drop (S (1 + length (escape_double (value e)))) (quoted (value e)) = []).
  { apply drop_ge. unfold quoted. cbn [length]. rewrite length_app. cbn. lia. }
  rewrite Ht, body_slice. change (negb (negb (truthy (trim [])) || startsWith (trim []) (js "#"))) with false. cbn match.
  rewrite unescape_escape. apply list.NoDup_app in Hn as (Hn1 & Hn2 & Hn3). cbn [List.map] in Hn3.
  rewrite put_entry_new by (intros Hx; apply Hn2 in Hx; apply Hx; by left).
  destruct e as [k v]. cbn [key value] in *. apply list.NoDup_cons in Hn3 as [Hn3 Hn4].
  specialize (IH (pre ++ [entry_line {| key := k; value := v |}]) fuel (entries ++ [{| key := k; value := v |}]) Hr).
  rewrite <- app_assoc, length_app, Nat.add_1_r in IH. cbn [app] in IH. apply IH; [cbn in Hf; lia|].
  rewrite map_app, <- app_assoc. cbn [List.map app key]. apply list.NoDup_app. split; [done|].
  split; [done|]. by apply list.NoDup_cons.
Qed.

Lemma unify_id s : 13%N ∉ s -> unify_newlines s = s.
Proof.
  induction s as [|c s IH]; [done|]. rewrite not_elem_of_cons. intros [Hc H]. cbn [unify_newlines].
  destruct (N.eqb_spec c 13) as [->|]; [done|]. f_equal. by apply IH.
Qed.

Lemma entry_line_units e c : named_line e -> c ∈ entry_line e -> c <> 10%N /\ c <> 13%N.
Proof.
  intros Hk. unfold named_line in Hk. unfold entry_line, quoted. rewrite elem_of_app, elem_of_cons, elem_of_cons, elem_of_app, list_elem_of_singleton.
  intros [Hc|[->|[->|[Hc| ->]]]]; try lia.
  - unfold valid_name in Hk. destruct (key e) as [|c0 k]; [done|]. apply andb_true_iff in Hk as [_ Hk].
    rewrite forallb_elem in Hk. apply Hk in Hc. unfold name_unit, name_start, is_digit, is_lower, is_upper in Hc. lia.
  - by apply escape_double_units in Hc as (? & ? & _).
Qed.

Lemma env_text_lines l : Forall named_line l -> l <> [] -> env_lines (env_text l) = List.map entry_line l.
Proof.
  intros Hr Hl. unfold env_lines, env_text. rewrite Forall_elem in Hr.
  assert (strip_bom (join [10%N] (List.map entry_line l)) = join [10%N] (List.map entry_line l)) as ->.
  { destruct l as [|e l]; [done|]. destruct (entry_line_start e) as (_ & Ht & _ & Hb); [apply Hr; by left|].
    cbn [List.map join]. destruct (entry_line e) as [|c w]; [done|].
    destruct (List.map entry_line l); [done|]. cbn [app strip_bom] in *. destruct (N.eqb_spec c 65279) as [->|]; [|done].
    cbn in Hb. exfalso. apply (f_equal length) in Hb. cbn in Hb. lia. }
  rewrite unify_id.
  - apply split_join; [by destruct l|]. rewrite Forall_elem. intros w (e & -> & He)%list_elem_of_fmap.
    intros Hc. apply entry_line_units in Hc as [? _]; [done|by apply Hr].
  - intros [Hc|(w & (e & -> & He)%list_elem_of_fmap & Hc)]%join_elem.
    + apply list_elem_of_singleton in Hc. done.
    + apply entry_line_units in Hc as [_ ?]; [done|by apply Hr].
Qed.

(** C31. A file that quotes and escapes each value reads back as its entries, whatever their values
    hold, line feeds and quotes included, but for the line separator U+2028 and the paragraph
    separator U+2029: the first line that has one of these in its value is refused as no
    assignment, and with it the file. *)
Theorem environment_roundtrip l : NoDup (List.map key l) -> Forall (fun e => valid_name e.(key) = true) l ->
  parseEnvironment (env_text l) =
  match list_find (fun e => existsb (fun c => (c =? 8232)%N || (c =? 8233)%N) e.(value) = true) l with
  | None => Entries l
  | Some (i, _) => Error {| line := S i; reason := envInvalidAssignment |}
  end.
Proof.
  intros Hn Hr. destruct (decide (l = [])) as [->|Hl]; [reflexivity|].
  unfold parseEnvironment. rewrite env_text_lines by done.
  apply (parse_quoted_lines l [] _ [] Hr); [by rewrite length_map|done].
Qed.

Definition sample_env : list EnvironmentEntry :=
  [{| key := js "exports"; value := js "a" ++ nl ++ dq ++ js "b\" |}; E "B_1" "#x"].
Lemma environment_roundtrip_witness :
  parseEnvironment (env_text sample_env) = Entries sample_env.
Proof.
  etransitivity; [apply environment_roundtrip|vm_compute; reflexivity];
    refine (bool_decide_unpack _ _); vm_compute; exact I.
Defined.

(** A value the parser refuses, quoted or not. *)
Lemma separator_refused :
  parseEnvironment (js "A=x" ++ [8232%N]) = Error {| line := 1; reason := envInvalidAssignment |} /\
  parseEnvironment (env_text [E "B" "1"; {| key := js "A"; value := [97; 8233; 98]%N |}]) = Error {| line := 2; reason := envInvalidAssignment |}.
Proof. vm_compute. split; reflexivity. Qed.

Lemma parseEnvironment_names_witness :
  parseEnvironment (js "A=1" ++ nl ++ js "export B=2" ++ nl ++ js "A=3") = Entries [E "A" "3"; E "B" "2"] /\
  NoDup [js "A"; js "B"].
Proof.
  split; [vm_compute; reflexivity|].
  apply (parseEnvironment_names (js "A=1" ++ nl ++ js "export B=2" ++ nl ++ js "A=3") [E "A" "3"; E "B" "2"]).
  vm_compute. reflexivity.
Defined.

Lemma mergeEnvironments_spec_witness :
  mergeEnvironments [E "A" "1"; E "B" "2"] [E "B" "3"; E "C" "4"] = [E "A" "1"; E "B" "3"; E "C" "4"] /\
  NoDup (List.map key (mergeEnvironments [E "A" "1"; E "B" "2"] [E "B" "3"; E "C" "4"])).
Proof.
  split; [vm_compute; reflexivity|].
  apply (proj2 (proj2 (mergeEnvironments_spec [E "A" "1"; E "B" "2"] [E "B" "3"; E "C" "4"]))).
  refine (bool_decide_unpack _ _). vm_compute. exact I.
Defined.
