(* ===== verification/Cron.v ===== *)
(** * Schedules of cron jobs

    src/frontend/src/views/cronjob/cronjob/helper.ts, with loadZero of
    src/frontend/src/utils/date.ts.  The form edits a schedule as an object with
    a type and five numbers; the server keeps it as a line of cron fields.  The
    labels and helper texts are translation keys with their arguments. *)

From S2P Require Import Prelude JsString Splitting Numbers.

#[local] Open Scope list_scope.

(** ** Options *)

Definition specOptions : list (jsstr * jsstr) :=
  [ (js "cronjob.perMonth", js "perMonth");
    (js "cronjob.perWeek", js "perWeek");
    (js "cronjob.perDay", js "perDay");
    (js "cronjob.perHour", js "perHour");
    (js "cronjob.perNDay", js "perNDay");
    (js "cronjob.perNHour", js "perNHour");
    (js "cronjob.perNMinute", js "perNMinute");
    (js "cronjob.perNSecond", js "perNSecond") ].

Definition weekOptions : list (jsstr * Z) :=
  [ (js "cronjob.monday", 1%Z);
    (js "cronjob.tuesday", 2%Z);
    (js "cronjob.wednesday", 3%Z);
    (js "cronjob.thursday", 4%Z);
    (js "cronjob.friday", 5%Z);
    (js "cronjob.saturday", 6%Z);
    (js "cronjob.sunday", 0%Z) ].

Record mysqlArg := {
  arg : jsstr;
  description : jsstr;
  supportedTypes : option (list jsstr);
}.

Definition mysqlArgs : list mysqlArg :=
  [ {| arg := js "--single-transaction"; description := js "cronjob.singleTransaction"; supportedTypes := None |};
    {| arg := js "--quick"; description := js "cronjob.quick"; supportedTypes := None |};
    {| arg := js "--skip-lock-tables"; description := js "cronjob.skipLockTables"; supportedTypes := None |};
    {| arg := js "--set-gtid-purged=OFF"; description := js "cronjob.setGtidPurgedOff";
       supportedTypes := Some [js "mysql"; js "mysql-cluster"] |} ].

Definition loadMysqlArgs (dbType : jsstr) : list mysqlArg :=
  List.filter (fun item => match supportedTypes item with None => true | Some ts => memb dbType ts end) mysqlArgs.

Definition cronjobTypes : list (jsstr * jsstr) :=
  [ (js "shell", js "cronjob.shell");
    (js "app", js "cronjob.app");
    (js "website", js "cronjob.website");
    (js "database", js "cronjob.database");
    (js "directory", js "cronjob.directory");
    (js "log", js "cronjob.log");
    (js "curl", js "cronjob.curl");
    (js "cutWebsiteLog", js "cronjob.cutWebsiteLog");
    (js "clean", js "setting.diskClean");
    (js "snapshot", js "cronjob.snapshot");
    (js "ntp", js "cronjob.ntp");
    (js "syncIpGroup", js "cronjob.syncIpGroup");
    (js "cleanLog", js "cronjob.cleanLog") ].

Definition hasBackup (type : jsstr) : bool :=
  (type === js "app") || (type === js "website") || (type === js "database") ||
  (type === js "directory") || (type === js "snapshot") || (type === js "log") ||
  (type === js "cutWebsiteLog").

(** ** Schedules *)

Section Specs.
Context {JN : JsNumber}.

Record SpecObj := {
  specType : jsstr;      (* [] is an absent type *)
  week : num;
  day : num;
  hour : num;
  minute : num;
  second : num;
}.

Definition loadWeek (i : num) : jsstr :=
  match List.find (fun w => num_eq (int w.2) i) weekOptions with
  | Some w => w.1
  | None => []
  end.

Definition spec_of (type : string) (w h m : Z) : SpecObj :=
  {| specType := js type; week := int w; day := int 0; hour := int h; minute := int m; second := int 0 |}.

Definition loadDefaultSpec (type : jsstr) : SpecObj :=
  if memb type (List.map (fun s => js s) ["shell"; "clean"; "website"; "log"; "snapshot"; "curl"]%string)
  then spec_of "perWeek" 1 1 30
  else if memb type (List.map (fun s => js s) ["app"; "database"]%string)
  then spec_of "perDay" 0 2 30
  else if memb type (List.map (fun s => js s) ["directory"; "cutWebsiteLog"; "cleanLog"; "syncIpGroup"; "ntp"]%string)
  then spec_of "perDay" 0 1 30
  else spec_of "" 0 0 0.

Definition loadDefaultSpecCustom (type : jsstr) : jsstr :=
  if memb type (List.map (fun s => js s) ["shell"; "clean"; "website"; "log"; "snapshot"; "curl"]%string)
  then js "30 1 * * 1"
  else if memb type (List.map (fun s => js s) ["app"; "database"]%string) then js "30 2 * * *"
  else if memb type (List.map (fun s => js s) ["directory"; "cutWebsiteLog"; "ntp"; "syncIpGroup"]%string)
  then js "30 1 * * *"
  else js "30 1 * * 1".

Definition transObjToSpec (specType : jsstr) (week day hour minute second : num) : jsstr :=
  let s := String_num in
  if specType === js "perMonth" then s minute ++ js " " ++ s hour ++ js " " ++ s day ++ js " * *"
  else if specType === js "perWeek" then s minute ++ js " " ++ s hour ++ js " * * " ++ s week
  else if specType === js "perNDay" then s minute ++ js " " ++ s hour ++ js " */" ++ s day ++ js " * *"
  else if specType === js "perDay" then s minute ++ js " " ++ s hour ++ js " * * *"
  else if specType === js "perNHour" then s minute ++ js " */" ++ s hour ++ js " * * *"
  else if specType === js "perHour" then s minute ++ js " * * * *"
  else if specType === js "perNMinute" then js "@every " ++ s minute ++ js "m"
  else if specType === js "perNSecond" then js "@every " ++ s second ++ js "s"
  else [].

Definition with_type (o : SpecObj) (t : string) : SpecObj :=
  {| specType := js t; week := week o; day := day o; hour := hour o; minute := minute o; second := second o |}.
Definition with_week (o : SpecObj) (n : num) : SpecObj :=
  {| specType := specType o; week := n; day := day o; hour := hour o; minute := minute o; second := second o |}.
Definition with_day (o : SpecObj) (n : num) : SpecObj :=
  {| specType := specType o; week := week o; day := n; hour := hour o; minute := minute o; second := second o |}.
Definition with_hour (o : SpecObj) (n : num) : SpecObj :=
  {| specType := specType o; week := week o; day := day o; hour := n; minute := minute o; second := second o |}.
Definition with_minute (o : SpecObj) (n : num) : SpecObj :=
  {| specType := specType o; week := week o; day := day o; hour := hour o; minute := n; second := second o |}.
Definition with_second (o : SpecObj) (n : num) : SpecObj :=
  {| specType := specType o; week := week o; day := day o; hour := hour o; minute := minute o; second := n |}.

(** [None] is null. *)
Definition transSpecToObj (spec : jsstr) : option SpecObj :=
  let specs := split 32 spec in
  let specItem := spec_of "perNMinute" 0 0 0 in
  let at_ i := default [] (specs !! i) in
  if length specs =? 2 then
    if includes (at_ 1) (js "m")
    then Some (with_minute (with_type specItem "perNMinute") (Number (replaceAll (at_ 1) (js "m") [])))
    else Some (with_second (with_type specItem "perNSecond") (Number (replaceAll (at_ 1) (js "s") [])))
  else if negb (length specs =? 5) || (at_ 0 === js "*") then None
  else
    let specItem := with_minute specItem (Number (at_ 0)) in
    if at_ 1 === js "*" then Some (with_type specItem "perHour")
    else if includes (at_ 1) (js "*/")
    then Some (with_hour (with_type specItem "perNHour") (Number (replaceAll (at_ 1) (js "*/") [])))
    else
      let specItem := with_hour specItem (Number (at_ 1)) in
      if includes (at_ 2) (js "*/")
      then Some (with_day (with_type specItem "perNDay") (Number (replaceAll (at_ 2) (js "*/") [])))
      else if at_ 2 !== js "*" then Some (with_day (with_type specItem "perMonth") (Number (at_ 2)))
      else if at_ 4 !== js "*" then Some (with_week (with_type specItem "perWeek") (Number (at_ 4)))
      else Some (with_type specItem "perDay").

(** [i < 10 ? '0' + i : '' + i] *)
Definition loadZero (i : num) : jsstr :=
  if num_lt i (int 10) then js "0" ++ String_num i else String_num i.

(** A translated text: its key and arguments. *)
Inductive text_arg := ANum (n : num) | AStr (s : jsstr).
Inductive result := TypeError | NoText | Text (key : jsstr) (args : list text_arg).

Definition transSpecToStr (spec : jsstr) : result :=
  match transSpecToObj spec with
  | None => TypeError
  | Some o =>
      let isT t := specType o === t in
      if isT (js "perMonth") then Text (js "cronjob.perMonthHelper") [ANum (day o); ANum (hour o); AStr (loadZero (minute o))]
      else if isT (js "perWeek")
      then Text (js "cronjob.perWeekHelper") [AStr (loadWeek (week o)); ANum (hour o); AStr (loadZero (minute o))]
      else if isT (js "perDay") then Text (js "cronjob.perDayHelper") [ANum (hour o); AStr (loadZero (minute o))]
      else if isT (js "perHour") then Text (js "cronjob.perHourHelper") [AStr (loadZero (minute o))]
      else if isT (js "perNDay")
      then Text (js "cronjob.perNDayHelper") [ANum (day o); ANum (hour o); AStr (loadZero (minute o))]
      else if isT (js "perNHour") then Text (js "cronjob.perNHourHelper") [ANum (hour o); AStr (loadZero (minute o))]
      else if isT (js "perNMinute") then Text (js "cronjob.perNMinuteHelper") [AStr (loadZero (minute o))]
      else if isT (js "perNSecond") then Text (js "cronjob.perNSecondHelper") [AStr (loadZero (second o))]
      else NoText
  end.
End Specs.

(** ** Examples *)

Example week_ex : transObjToSpec (js "perWeek") (int 1) (int 0) (int 1) (int 30) (int 0) = js "30 1 * * 1".
Proof. vm_compute. reflexivity. Qed.
Example spec_parse_ex : transSpecToObj (js "30 1 * * 1") = Some (spec_of "perWeek" 1 1 30).
Proof. vm_compute. reflexivity. Qed.
Example str_ex :
  transSpecToStr (js "5 2 * * 0") =
  Text (js "cronjob.perWeekHelper") [AStr (js "cronjob.sunday"); ANum (int 2); AStr (js "05")].
Proof. vm_compute. reflexivity. Qed.

(** ** Default schedules *)

(** The schedule a custom text stands for, against the schedule of the form. *)
Definition default_agrees (type : jsstr) : bool :=
  match transSpecToObj (loadDefaultSpecCustom type) with
  | Some o =>
      let d := loadDefaultSpec type in
      (specType o === specType d) && num_eq (week o) (week d) && num_eq (hour o) (hour d)
      && num_eq (minute o) (minute d)
  | None => false
  end.

(** For every type of the type list but cleanLog the default text of the
    custom form describes the default schedule of the plain form. *)
Theorem default_specs_agree :
  List.map fst (List.filter (fun t => negb (default_agrees t.1)) cronjobTypes) = [js "cleanLog"] /\
  loadDefaultSpecCustom (js "cleanLog") = js "30 1 * * 1" /\
  loadDefaultSpec (js "cleanLog") = spec_of "perDay" 0 1 30.
Proof. vm_compute. auto. Qed.

(** ** Round trip *)

Section Trip.
Context {JN : JsNumber}.

(** The fields of a schedule that its type uses; the others are 0. *)
Definition used (specType : jsstr) (w d h m s : N) : SpecObj :=
  let f (ts : list string) (n : N) := if memb specType (List.map (fun t => js t) ts) then int (Z.of_N n) else int 0 in
  {| specType := specType;
     week := f ["perWeek"]%string w;
     day := f ["perMonth"; "perNDay"]%string d;
     hour := f ["perMonth"; "perWeek"; "perNDay"; "perDay"; "perNHour"]%string h;
     minute := f ["perMonth"; "perWeek"; "perNDay"; "perDay"; "perNHour"; "perHour"; "perNMinute"]%string m;
     second := f ["perNSecond"]%string s |}.

Definition exactN (n : N) : Prop := exact (Z.of_N n).

(** The cron fields of a schedule, when its type has them. *)
Lemma dec_no_space n : 32%N ∉ dec n.
Proof. apply dec_no_unit. lia. Qed.

Lemma split_field n s : split 32 (dec n ++ 32%N :: s) = dec n :: split 32 s.
Proof. apply split_app, dec_no_space. Qed.

Lemma split_step n s : split 32 (js "*/" ++ dec n ++ 32%N :: s) = (js "*/" ++ dec n) :: split 32 s.
Proof.
  rewrite app_assoc. apply split_app. rewrite not_elem_of_app. split; [|apply dec_no_space].
  by apply has_unit_false.
Qed.

Lemma split_last n : split 32 (dec n) = [dec n].
Proof. apply split_no_sep, dec_no_space. Qed.

Lemma dec_not_star n : (dec n === js "*") = false.
Proof.
  apply streqb_neq. intros E. assert (H : 42%N ∈ dec n) by (rewrite E; by left).
  apply dec_elem in H. lia.
Qed.

Lemma step_not_star n : (js "*/" ++ dec n === js "*") = false.
Proof. by apply streqb_neq. Qed.

Lemma dec_no_step n : includes (dec n) (js "*/") = false.
Proof.
  apply includes_false. intros a b E. assert (H : 42%N ∈ dec n) by (rewrite E; set_solver).
  apply dec_elem in H. lia.
Qed.

Lemma step_step n : includes (js "*/" ++ dec n) (js "*/") = true.
Proof. apply includes_spec. by exists [], (dec n). Qed.

Lemma step_number n : exactN n -> Number (replaceAll (js "*/" ++ dec n) (js "*/") []) = int (Z.of_N n).
Proof.
  intros Hn. unfold replaceAll. rewrite (split_on_some _ _ 0) by done.
  cbn [take drop length Nat.add app js]. rewrite split_on_none; [by apply Number_dec|].
  pose proof (dec_no_step n) as H. unfold includes in H. apply bool_decide_eq_false in H.
  by apply eq_None_not_Some.
Qed.

Ltac literals :=
  repeat match goal with
  | |- context [js ?a === js ?b] =>
      let v := eval vm_compute in (js a === js b) in change (js a === js b) with v
  | |- context [memb (js ?a) ?l] =>
      let v := eval vm_compute in (memb (js a) l) in change (memb (js a) l) with v
  end; cbn match.

(** The fields between spaces of each kind of text. *)
Definition fields (specType : jsstr) (w d h m s : N) : list jsstr :=
  let star := js "*" in
  let isT t := specType === t in
  if isT (js "perMonth") then [dec m; dec h; dec d; star; star]
  else if isT (js "perWeek") then [dec m; dec h; star; star; dec w]
  else if isT (js "perNDay") then [dec m; dec h; js "*/" ++ dec d; star; star]
  else if isT (js "perDay") then [dec m; dec h; star; star; star]
  else if isT (js "perNHour") then [dec m; js "*/" ++ dec h; star; star; star]
  else if isT (js "perHour") then [dec m; star; star; star; star]
  else if isT (js "perNMinute") then [js "@every"; dec m ++ js "m"]
  else [js "@every"; dec s ++ js "s"].

Lemma no_space_letter n c : (57 < c)%N -> 32%N ∉ dec n ++ [c].
Proof.
  intros Hc. rewrite not_elem_of_app, list_elem_of_singleton. split; [apply dec_no_space|lia].
Qed.

Lemma fields_solid t w d h m s : Forall (fun f => 32%N ∉ f) (fields t w d h m s).
Proof.
  assert (Hs : forall n, 32%N ∉ js "*/" ++ dec n).
  { intros n. rewrite not_elem_of_app. split; [by apply has_unit_false|apply dec_no_space]. }
  pose proof (dec_no_space m). pose proof (dec_no_space h). pose proof (dec_no_space d).
  pose proof (dec_no_space w). assert (32%N ∉ js "*") by by apply has_unit_false.
  assert (32%N ∉ js "@every") by by apply has_unit_false.
  unfold fields. repeat case_step; repeat apply Forall_cons_2; try apply Forall_nil_2; auto;
    by apply no_space_letter.
Qed.

Lemma transObjToSpec_fields t w d h m s :
  t ∈ List.map snd specOptions -> exactN w -> exactN d -> exactN h -> exactN m -> exactN s ->
  let z n := int (Z.of_N n) in
  split 32 (transObjToSpec t (z w) (z d) (z h) (z m) (z s)) = fields t w d h m s.
Proof.
  intros Ht Hw Hd Hh Hm Hs z.
  rewrite <- (split_join 32 (fields t w d h m s)); [|unfold fields; by repeat case_step|apply fields_solid].
  f_equal. unfold transObjToSpec, fields, z. rewrite !String_N by done.
  cbn [List.map specOptions snd] in Ht. rewrite list_elem_of_In in Ht.
  repeat (destruct Ht as [<-|Ht]; [literals; cbn [join]; rewrite <- ?app_assoc; done|]). done.
Qed.

Lemma minutes_number n : exactN n -> Number (replaceAll (dec n ++ js "m") (js "m") []) = int (Z.of_N n).
Proof.
  intros Hn. change (js "m") with [109%N]. rewrite replaceAll_last by (apply dec_no_unit; lia).
  by apply Number_dec.
Qed.

Lemma seconds_number n : exactN n -> Number (replaceAll (dec n ++ js "s") (js "s") []) = int (Z.of_N n).
Proof.
  intros Hn. change (js "s") with [115%N]. rewrite replaceAll_last by (apply dec_no_unit; lia).
  by apply Number_dec.
Qed.

Lemma seconds_no_m n : includes (dec n ++ js "s") (js "m") = false.
Proof.
  apply not_true_iff_false. rewrite (includes_unit _ "m" 109) by done.
  rewrite elem_of_app. intros [H|H]; [apply dec_elem in H; lia|by apply list_elem_of_singleton in H].
Qed.

Lemma minutes_m n : includes (dec n ++ js "m") (js "m") = true.
Proof. apply includes_spec. exists (dec n), []. done. Qed.

(** The object a schedule of the form is read back as. *)
Lemma spec_roundtrip t w d h m s :
  t ∈ List.map snd specOptions -> exactN w -> exactN d -> exactN h -> exactN m -> exactN s ->
  let z n := int (Z.of_N n) in
  transSpecToObj (transObjToSpec t (z w) (z d) (z h) (z m) (z s)) = Some (used t w d h m s).
Proof.
  intros Ht Hw Hd Hh Hm Hs z. subst z. unfold transSpecToObj.
  pose proof (transObjToSpec_fields t w d h m s Ht Hw Hd Hh Hm Hs) as E. cbv beta zeta in E.
  rewrite E. clear E. cbn [List.map specOptions snd] in Ht. rewrite list_elem_of_In in Ht.
  assert (Hd' : forall n, exactN n -> Number (dec n) = int (Z.of_N n)) by (intros; by apply Number_dec).
  repeat (destruct Ht as [<-|Ht];
    [unfold fields, used; literals; cbn [length Nat.eqb negb orb lookup list_lookup default from_option id];
     rewrite ?dec_not_star, ?step_not_star, ?dec_no_step, ?step_step, ?seconds_no_m, ?minutes_m;
     rewrite ?Hd', ?step_number, ?minutes_number, ?seconds_number by done; done|]).
  done.
Qed.

(** C38. A schedule of the form written as cron text is read back with its type
    and every number its type uses, the numbers it does not use being 0; and its
    description never throws. *)
Theorem cron_roundtrip t w d h m s :
  t ∈ List.map snd specOptions -> exactN w -> exactN d -> exactN h -> exactN m -> exactN s ->
  let spec := transObjToSpec t (int (Z.of_N w)) (int (Z.of_N d)) (int (Z.of_N h)) (int (Z.of_N m)) (int (Z.of_N s)) in
  transSpecToObj spec = Some (used t w d h m s) /\
  exists key args, transSpecToStr spec = Text key args.
Proof.
  intros Ht Hw Hd Hh Hm Hs spec.
  pose proof (spec_roundtrip t w d h m s Ht Hw Hd Hh Hm Hs) as E. cbv beta zeta in E. fold spec in E.
  split; [done|]. unfold transSpecToStr. rewrite E.
  cbn [List.map specOptions snd] in Ht. rewrite list_elem_of_In in Ht.
  repeat (destruct Ht as [<-|Ht]; [unfold used; cbn [specType]; literals; eauto|]). done.
Qed.

(** The description throws exactly on a text that is not read: one without
    two or five fields, or of five fields of which the first is a star. *)
Theorem transSpecToStr_throws spec :
  transSpecToStr spec = TypeError <->
  length (split 32 spec) <> 2 /\ (length (split 32 spec) <> 5 \/ split 32 spec !! 0 = Some (js "*")).
Proof.
  assert (H : transSpecToStr spec = TypeError <-> transSpecToObj spec = None).
  { unfold transSpecToStr. destruct (transSpecToObj spec); [|done]. split; [|done]. by repeat case_step. }
  rewrite H. clear H. unfold transSpecToObj.
  destruct (split 32 spec) as [|a [|b [|c [|d [|e [|f l]]]]]] eqn:E;
    cbn [length Nat.eqb negb orb lookup list_lookup default from_option id].
  all: try (split; [|done]; try (intros _; split; [lia|left; lia])).
  all: try (split; [|intros [? _]; lia]; repeat case_step; done).
  destruct (a === js "*") eqn:Ea.
  - apply streqb_eq in Ea as ->. split; [|done]. split; [lia|by right].
  - apply streqb_neq in Ea. split; [by repeat case_step|]. intros [_ [?|[= ?]]]; [lia|done].
Qed.

End Trip.

Lemma cron_roundtrip_witness :
  let spec := transObjToSpec (js "perNHour") (int 0) (int 0) (int 6) (int 30) (int 0) in
  spec = js "30 */6 * * *" /\
  transSpecToObj spec = Some (used (js "perNHour") 0 0 6 30 0) /\
  exists key args, transSpecToStr spec = Text key args.
Proof.
  split; [vm_compute; reflexivity|].
  apply (cron_roundtrip (js "perNHour") 0 0 6 30 0);
    [by apply memb_elem; vm_compute|unfold exactN, exact; simpl; lia..].
Defined.
