(* ===== verification/Size.v ===== *)
(** * Sizes

    src/frontend/src/utils/size.ts.  A size is a natural number below 2^53.  A
    quotient is a double: the dyadic number nearest to the exact quotient, ties to
    even; toFixed rounds that dyadic number, ties upwards; Number of the text so
    obtained is kept as its decimal mantissa and scale, and printed without
    trailing zeros. *)

From S2P Require Import Prelude JsString Splitting.

#[local] Open Scope N_scope.

(** ** Quotients of doubles *)

(** [dy_m / 2 ^ dy_k] *)
Record dyadic := Dy { dy_m : N; dy_k : N }.

(** The integer nearest to [a / b], ties to even. *)
Definition nearest_even (a b : N) : N :=
  let q := a / b in
  let r := 2 * (a mod b) in
  if r <? b then q else if b <? r then q + 1 else if N.even q then q else q + 1.

(** [a / b] of two doubles that are positive integers, with 53 significant bits. *)
Definition fdiv (a b : N) : dyadic :=
  let k := 52 + N.log2 b - N.log2 a in
  let k := if a * 2 ^ N.log2 b <? b * 2 ^ N.log2 a then k + 1 else k in
  Dy (nearest_even (a * 2 ^ k) b) k.

(** The integer nearest to [x * 10 ^ f], ties upwards. *)
Definition scaled (x : dyadic) (f : N) : N :=
  (2 * 10 ^ f * dy_m x + 2 ^ dy_k x) / (2 * 2 ^ dy_k x).

(** [n / 10 ^ f] with [f] digits after the point. *)
Fixpoint digits (f : nat) (n : N) : jsstr :=
  match f with O => [] | S f => digits f (n / 10) ++ [48 + n mod 10] end.
Definition fixed (n f : N) : jsstr :=
  if f =? 0 then dec n else dec (n / 10 ^ f) ++ js "." ++ digits (N.to_nat f) (n mod 10 ^ f).

Definition toFixed (x : dyadic) (f : N) : jsstr := fixed (scaled x f) f.

(** ** Decimal numbers *)

Record decimal := De { mantissa : N; scale : N }.

(** Number of digits with at most one point among them. *)
Definition Number_text (s : jsstr) : decimal :=
  match split 46 s with
  | [a] => De (digits_val a) 0
  | a :: b :: _ => De (digits_val (a ++ b)) (N.of_nat (length b))
  | [] => De 0 0
  end.

(** The number as a text, without trailing zeros. *)
Fixpoint strip_zeros (fuel : nat) (n f : N) : N * N :=
  match fuel with
  | O => (n, f)
  | S fuel => if (f =? 0) || negb (n mod 10 =? 0) then (n, f) else strip_zeros fuel (n / 10) (f - 1)
  end.
Definition String_decimal (x : decimal) : jsstr :=
  let '(n, f) := strip_zeros (N.to_nat (scale x)) (mantissa x) (scale x) in fixed n f.

Definition formattedNumber (s : jsstr) : decimal :=
  if endsWith s (js ".00") then Number_text (slice s 0 (length s - 3)) else Number_text s.

(** ** The functions *)

Inductive BinarySizeUnit := B | KiB | MiB | GiB | TiB.
#[export] Instance BinarySizeUnit_eq_dec : EqDecision BinarySizeUnit.
Proof. solve_decision. Defined.

Definition binarySizeUnitPower (u : BinarySizeUnit) : N :=
  match u with B => 0 | KiB => 1 | MiB => 2 | GiB => 3 | TiB => 4 end.

Definition convertBinarySize (size : N) (from to : BinarySizeUnit) (precision : N) : decimal :=
  if (size =? 0) || bool_decide (from = to) then De size 0
  else
    let bytes := size * 1024 ^ binarySizeUnitPower from in
    formattedNumber (toFixed (fdiv bytes (1024 ^ binarySizeUnitPower to)) precision).

(** [formattedNumber((size / d).toFixed(2))] as text *)
Definition short (size d : N) : jsstr := String_decimal (formattedNumber (toFixed (fdiv size d) 2)).

Definition computeSize (size : N) : jsstr :=
  let num := 1024 in
  if size <? num then dec size ++ js " B"
  else if size <? num ^ 2 then short size num ++ js " KB"
  else if size <? num ^ 3 then short size (num ^ 2) ++ js " MB"
  else if size <? num ^ 4 then short size (num ^ 3) ++ js " GB"
  else short size (num ^ 4) ++ js " TB".

Definition computeSizeForDocker (size : N) : jsstr :=
  let num := 1024 in
  if size <? num then dec size ++ js " B"
  else if size <? num ^ 2 then short size num ++ js " KiB"
  else if size <? num ^ 3 then short size (num ^ 2) ++ js " MiB"
  else if size <? num ^ 4 then short size (num ^ 3) ++ js " GiB"
  else short size (num ^ 4) ++ js " TiB".

Definition computeSize2 (size : N) : jsstr :=
  let num := 1000 in
  if size <? num then dec size ++ js " B"
  else if size <? num ^ 2 then short size num ++ js " KB"
  else if size <? num ^ 3 then short size (num ^ 2) ++ js " MB"
  else if size <? num ^ 4 then short size (num ^ 3) ++ js " GB"
  else short size (num ^ 4) ++ js " TB".

(** The second unit is written with the Greek letter mu. *)
Definition computeCPU (size : N) : jsstr :=
  let num := 1000 in
  if size <? num then dec size ++ js " ns"
  else if size <? num ^ 2 then short size num ++ (js " " ++ [956] ++ js "s")
  else if size <? num ^ 3 then short size (num ^ 2) ++ js " ms"
  else short size (num ^ 3) ++ js " s".

Definition splitSize (size : N) : decimal * jsstr :=
  let num := 1024 in
  let number d := formattedNumber (toFixed (fdiv size d) 2) in
  if size <? num then (De size 0, js "B")
  else if size <? num ^ 2 then (number num, js "KB")
  else if size <? num ^ 3 then (number (num ^ 2), js "MB")
  else if size <? num ^ 4 then (number (num ^ 3), js "GB")
  else (number (num ^ 4), js "TB").

Definition long (size d : N) : jsstr := toFixed (fdiv size d) 2.

Definition computeSizeFromMB (size : N) : jsstr :=
  let num := 1024 in
  if size <? num then dec size ++ js " MB"
  else if size <? num ^ 2 then long size num ++ js " GB"
  else long size (num ^ 3) ++ js " TB".

Definition computeSizeFromKB (size : N) : jsstr :=
  let num := 1024 in
  if size <? num then dec size ++ js " KB"
  else if size <? num ^ 2 then long size num ++ js " MB"
  else if size <? num ^ 3 then long size (num ^ 2) ++ js " GB"
  else long size (num ^ 3) ++ js " TB".

Definition computeSizeFromByte (size : N) : jsstr :=
  let num := 1024 in
  if size <? num then dec size ++ js " B"
  else if size <? num ^ 2 then long size num ++ js " KB"
  else if size <? num ^ 3 then long size (num ^ 2) ++ js " MB"
  else if size <? num ^ 4 then long size (num ^ 3) ++ js " GB"
  else long size (num ^ 4) ++ js " TB".

Definition computeSizeFromKBs (size : N) : jsstr :=
  let num := 1024 in
  if size <? num then dec size ++ js " KB/s"
  else if size <? num ^ 2 then long size num ++ js " MB/s"
  else if size <? num ^ 3 then long size (num ^ 2) ++ js " GB/s"
  else long size (num ^ 3) ++ js " TB/s".

Example size_1536 : computeSize 1536 = js "1.5 KB". Proof. vm_compute. reflexivity. Qed.
Example size_edge : computeSize 1048575 = js "1024 KB". Proof. vm_compute. reflexivity. Qed.
Example size_tie : computeSize2 1005 = js "1 KB". Proof. vm_compute. reflexivity. Qed.
Example size_tie' : computeSize2 1015 = js "1.01 KB". Proof. vm_compute. reflexivity. Qed.
Example size_tie'' : computeSize2 1025 = js "1.02 KB". Proof. vm_compute. reflexivity. Qed.
Example size_10 : computeSize 10000000 = js "9.54 MB". Proof. vm_compute. reflexivity. Qed.
Example size_mb : computeSizeFromMB (2 * 1024 ^ 2) = js "0.00 TB". Proof. vm_compute. reflexivity. Qed.
Example size_kb : computeSizeFromKB (2 * 1024 ^ 3) = js "2.00 TB". Proof. vm_compute. reflexivity. Qed.
Example size_split : splitSize 1536 = (De 150 2, js "KB"). Proof. vm_compute. reflexivity. Qed.

(** ** Rounding errors *)

Lemma nearest_even_bound a b : 0 < b ->
  2 * nearest_even a b * b <= 2 * a + b /\ 2 * a <= 2 * nearest_even a b * b + b.
Proof.
  intros Hb. unfold nearest_even.
  assert (E : a = b * (a / b) + a mod b) by (apply N.div_mod; lia).
  assert (Hr : a mod b < b) by (apply N.mod_lt; lia).
  set (q := a / b) in *. set (r := a mod b) in *. clearbody q r. subst a.
  assert (forall x, 2 * x * b = 2 * (b * x)) as Hm by (intros; lia). rewrite !Hm.
  assert (b * (q + 1) = b * q + b) by lia. set (y := b * q) in *.
  destruct (N.ltb_spec (2 * r) b), (N.ltb_spec b (2 * r)), (N.even q); lia.
Qed.

Lemma scaled_bound x f :
  2 * scaled x f * 2 ^ dy_k x <= 2 * 10 ^ f * dy_m x + 2 ^ dy_k x /\
  2 * 10 ^ f * dy_m x + 2 ^ dy_k x < 2 * scaled x f * 2 ^ dy_k x + 2 * 2 ^ dy_k x.
Proof.
  unfold scaled. assert (Hp : 0 < 2 ^ dy_k x) by (apply N.neq_0_lt_0, N.pow_nonzero; lia).
  set (num := 2 * 10 ^ f * dy_m x + 2 ^ dy_k x). set (P := 2 ^ dy_k x) in *.
  assert (E : num = 2 * P * (num / (2 * P)) + num mod (2 * P)) by (apply N.div_mod; lia).
  assert (num mod (2 * P) < 2 * P) by (apply N.mod_lt; lia). 
  set (q := num / (2 * P)) in *. set (r := num mod (2 * P)) in *. clearbody num q r P. lia.
Qed.

(** The hundredths [n] are [size / d] up to half of one and a millionth of that. *)
Definition close (n size d : N) : Prop :=
  2 * 10 ^ 6 * (n * d) <= 2 * 10 ^ 6 * (100 * size) + (10 ^ 6 + 1) * d /\
  2 * 10 ^ 6 * (100 * size) <= 2 * 10 ^ 6 * (n * d) + (10 ^ 6 + 1) * d.

Lemma fdiv_precise a b : 0 < a -> 0 < b -> a < 2 ^ 25 * b -> 27 <= dy_k (fdiv a b).
Proof.
  intros Ha Hb H.
  assert (Hl : N.log2 a <= N.log2 b + 25).
  { rewrite <- N.log2_shiftl by lia. apply N.log2_le_mono. rewrite N.shiftl_mul_pow2. lia. }
  unfold fdiv. cbn [dy_k]. case_step; lia.
Qed.

Lemma toFixed_close a b : 0 < a -> 0 < b -> a < 2 ^ 25 * b -> close (scaled (fdiv a b) 2) a b.
Proof.
  intros Ha Hb H. pose proof (fdiv_precise a b Ha Hb H) as Hk.
  pose proof (scaled_bound (fdiv a b) 2) as [H1 H2].
  pose proof (nearest_even_bound (a * 2 ^ dy_k (fdiv a b)) b Hb) as [H3 H4].
  change (nearest_even _ b) with (dy_m (fdiv a b)) in H3, H4.
  assert (HP : 10 ^ 8 <= 2 ^ dy_k (fdiv a b)).
  { transitivity (2 ^ 27); [done|]. apply N.pow_le_mono_r; [done|lia]. }
  set (n := scaled _ 2) in *. set (m := dy_m _) in *. set (P := 2 ^ dy_k _) in *.
  change (10 ^ 2) with 100 in *. change (10 ^ 8) with 100000000 in HP. unfold close.
  change (10 ^ 6) with 1000000.
  assert (HPb : 100000000 * b <= P * b) by nia.
  assert (2 * 1000000 * (n * b) * P <= (2 * 1000000 * (100 * a) + (1000000 + 1) * b) * P) by nia.
  assert (2 * 1000000 * (100 * a) * P <= (2 * 1000000 * (n * b) + (1000000 + 1) * b) * P) by nia.
  split; apply (N.mul_le_mono_pos_r _ _ P); lia.
Qed.

(** ** Texts of hundredths *)

Lemma digits_2 r : digits 2 r = [48 + (r / 10) mod 10; 48 + r mod 10].
Proof. reflexivity. Qed.

Lemma fixed_2 n : fixed n 2 = dec (n / 100) ++ 46 :: digits 2 (n mod 100).
Proof. reflexivity. Qed.

Lemma digit_sub d : d < 10 -> 48 + d - 48 = d.
Proof. lia. Qed.

Lemma Number_text_2 n : Number_text (fixed n 2) = De n 2.
Proof.
  unfold Number_text. rewrite fixed_2, split_app by (apply dec_no_unit; lia).
  assert (Hr : n mod 100 < 100) by (apply N.mod_lt; lia).
  rewrite split_no_sep; [|rewrite digits_2, !not_elem_of_cons; repeat split; try apply not_elem_of_nil;
    pose proof (N.le_0_l ((n mod 100 / 10) mod 10)); pose proof (N.le_0_l ((n mod 100) mod 10)); lia].
  rewrite digits_2. f_equal. change [48 + (n mod 100 / 10) mod 10; 48 + (n mod 100) mod 10]
    with ([48 + (n mod 100 / 10) mod 10] ++ [48 + (n mod 100) mod 10]).
  rewrite app_assoc, !digits_val_snoc, digits_val_dec, !digit_sub by (apply N.mod_lt; lia).
  rewrite (N.mod_small (_ / 10)) by (apply N.Div0.div_lt_upper_bound; lia).
  pose proof (N.div_mod n 100). pose proof (N.div_mod (n mod 100) 10). lia.
Qed.

Lemma ends_00 n : endsWith (fixed n 2) (js ".00") = (n mod 100 =? 0).
Proof.
  assert (Hr : n mod 100 < 100) by (apply N.mod_lt; lia).
  rewrite fixed_2, digits_2. apply eq_true_iff_eq. rewrite endsWith_spec, N.eqb_eq. split.
  - intros [t E]. change (js ".00") with [46; 48; 48] in E. apply (app_inj_2 _ _ [_; _; _] [_; _; _]) in E as [_ E]; [|done].
    injection E as E1 E2. pose proof (N.div_mod (n mod 100) 10).
    rewrite (N.mod_small (_ / 10)) in E1 by (apply N.Div0.div_lt_upper_bound; lia). lia.
  - intros ->. by exists (dec (n / 100)).
Qed.

Lemma short_text n : String_decimal (formattedNumber (fixed n 2)) = String_decimal (De n 2).
Proof.
  unfold formattedNumber. rewrite ends_00. destruct (n mod 100 =? 0) eqn:E; [|by rewrite Number_text_2].
  apply N.eqb_eq in E. rewrite fixed_2, E, digits_2.
  assert (Hs : slice (dec (n / 100) ++ [46; 48; 48]) 0 (length (dec (n / 100) ++ [46; 48; 48]) - 3) = dec (n / 100)).
  { unfold slice. rewrite length_app. cbn [length drop].
    replace (length (dec (n / 100)) + 3 - 3 - 0)%nat with (length (dec (n / 100))) by lia.
    apply take_app_length. }
  cbn [N.div N.modulo N.add] in Hs |- *. change (46 :: _) with [46; 48; 48]. rewrite Hs.
  unfold Number_text. rewrite split_no_sep by (apply dec_no_unit; lia). rewrite digits_val_dec.
  unfold String_decimal. cbn [scale mantissa].
  assert (E1 : n mod 10 = 0).
  { apply N.Div0.mod_divides in E as [q ->]. replace (100 * q) with (10 * q * 10) by lia. apply N.Div0.mod_mul. }
  assert (E2 : (n / 10) mod 10 = 0).
  { apply N.Div0.mod_divides in E as [q ->]. replace (100 * q) with (10 * q * 10) by lia.
    rewrite N.div_mul by lia. rewrite (N.mul_comm 10). apply N.Div0.mod_mul. }
  change (N.to_nat 2) with 2%nat. change (N.to_nat 0) with 0%nat. cbn [strip_zeros].
  rewrite E1. change (2 - 1) with 1. rewrite E2. rewrite N.Div0.div_div. reflexivity.
Qed.

(** ** The ladder of units *)

(** A size in the [i]-th power of the base, shown by [show], with its unit. *)
Definition rung (show : N -> jsstr) (base : N) (i : nat) (size : N) : jsstr :=
  if (i =? 0)%nat then dec size else show (scaled (fdiv size (base ^ N.of_nat i)) 2).

(** The first unit whose next unit is larger than the size. *)
Fixpoint ladder (show : N -> jsstr) (base : N) (i : nat) (u : jsstr) (us : list jsstr) (size : N) : jsstr :=
  match us with
  | [] => rung show base i size ++ u
  | v :: us' =>
      if size <? base ^ N.of_nat (S i) then rung show base i size ++ u
      else ladder show base (S i) v us' size
  end.

Definition shown (n : N) : jsstr := String_decimal (De n 2).
Definition shown_long (n : N) : jsstr := fixed n 2.

Definition implements (f : N -> jsstr) (show : N -> jsstr) (base : N) (u : string) (us : list jsstr) : Prop :=
  forall size, f size = ladder show base 0 (js u) us size.

Lemma short_rung size d : short size d = shown (scaled (fdiv size d) 2).
Proof. apply short_text. Qed.

(** Each size function shows a size in the largest unit of its ladder that
    does not exceed it, as bytes or as the quotient rounded to hundredths. *)
Theorem sizes_implement_ladder :
  implements computeSize shown 1024 " B" [js " KB"; js " MB"; js " GB"; js " TB"] /\
  implements computeSizeForDocker shown 1024 " B" [js " KiB"; js " MiB"; js " GiB"; js " TiB"] /\
  implements computeSize2 shown 1000 " B" [js " KB"; js " MB"; js " GB"; js " TB"] /\
  implements computeCPU shown 1000 " ns" [js " " ++ [956] ++ js "s"; js " ms"; js " s"] /\
  implements computeSizeFromByte shown_long 1024 " B" [js " KB"; js " MB"; js " GB"; js " TB"] /\
  implements computeSizeFromKB shown_long 1024 " KB" [js " MB"; js " GB"; js " TB"] /\
  implements computeSizeFromKBs shown_long 1024 " KB/s" [js " MB/s"; js " GB/s"; js " TB/s"].
Proof.
  split_and!; intros size;
    [unfold computeSize|unfold computeSizeForDocker|unfold computeSize2|unfold computeCPU|
     unfold computeSizeFromByte|unfold computeSizeFromKB|unfold computeSizeFromKBs];
    rewrite ?short_rung; reflexivity.
Qed.

(** What a ladder shows is right up to half a hundredth of the unit. *)
Lemma ladder_close show base i u us size :
  1000 <= base -> 0 < size -> (i = 0%nat \/ base ^ N.of_nat i <= size) ->
  size < 2 ^ 25 * base ^ N.of_nat (i + length us) -> base <= 2 ^ 25 ->
  exists j v, (u :: us) !! (j - i)%nat = Some v /\ (i <= j)%nat /\
    (j = 0%nat \/ base ^ N.of_nat j <= size) /\
    ((j < i + length us)%nat -> size < base ^ N.of_nat (S j)) /\
    ladder show base i u us size = rung show base j size ++ v /\
    (j <> 0%nat -> close (scaled (fdiv size (base ^ N.of_nat j)) 2) size (base ^ N.of_nat j)).
Proof.
  intros Hb Hs. revert i u. induction us as [|w us IH]; intros i u Hi Hl Hb'.
  all: assert (Hp : 0 < base ^ N.of_nat i) by (apply N.neq_0_lt_0, N.pow_nonzero; lia).
  - exists i, u. rewrite Nat.sub_diag. cbn [length] in *. rewrite Nat.add_0_r in *.
    split_and!; try done; try lia. intros Hj. by apply toFixed_close.
  - cbn [ladder]. destruct (N.ltb_spec size (base ^ N.of_nat (S i))) as [Hlt|Hge].
    + exists i, u. rewrite Nat.sub_diag. split_and!; try done; try lia.
      intros Hj. apply toFixed_close; try done.
      rewrite Nat2N.inj_succ, N.pow_succ_r' in Hlt. nia.
    + destruct (IH (S i) w) as (j & v & Hv & Hj & H1 & H2 & H3 & H4);
        [by right|by rewrite Nat.add_succ_comm|done|].
      exists j, v. replace (j - i)%nat with (S (j - S i)) by lia. cbn [length] in *.
      split_and!; try done; try lia.
Qed.

(** For a size below 2^53 the number a size function shows is the size in the
    unit beside it up to half of a hundredth (and a millionth of that, the error
    of the quotient), the unit does not exceed the size, and the next one does. *)
Theorem sizes_close f show base u us :
  (f, show, base, u, us) ∈
    [ (computeSize, shown, 1024, " B"%string, [js " KB"; js " MB"; js " GB"; js " TB"]);
      (computeSizeForDocker, shown, 1024, " B"%string, [js " KiB"; js " MiB"; js " GiB"; js " TiB"]);
      (computeSize2, shown, 1000, " B"%string, [js " KB"; js " MB"; js " GB"; js " TB"]);
      (computeSizeFromByte, shown_long, 1024, " B"%string, [js " KB"; js " MB"; js " GB"; js " TB"]);
      (computeSizeFromKB, shown_long, 1024, " KB"%string, [js " MB"; js " GB"; js " TB"]);
      (computeSizeFromKBs, shown_long, 1024, " KB/s"%string, [js " MB/s"; js " GB/s"; js " TB/s"]) ] ->
  forall size, 0 < size -> size < 2 ^ 53 ->
  exists j v, (js u :: us) !! j = Some v /\
    (j = 0%nat \/ base ^ N.of_nat j <= size) /\
    ((j < length us)%nat -> size < base ^ N.of_nat (S j)) /\
    f size = rung show base j size ++ v /\
    (j <> 0%nat -> close (scaled (fdiv size (base ^ N.of_nat j)) 2) size (base ^ N.of_nat j)).
Proof.
  intros Hin size Hs Hmax.
  assert (Hf : f size = ladder show base 0 (js u) us size).
  { rewrite list_elem_of_In in Hin.
    repeat (destruct Hin as [[= <- <- <- <- <-]|Hin];
      [unfold computeSize, computeSizeForDocker, computeSize2, computeSizeFromByte,
         computeSizeFromKB, computeSizeFromKBs; rewrite ?short_rung; reflexivity|]). done. }
  assert (Hb : 1000 <= base /\ base <= 2 ^ 25 /\ 2 ^ 53 <= 2 ^ 25 * base ^ N.of_nat (0 + length us)).
  { rewrite list_elem_of_In in Hin.
    repeat (destruct Hin as [[= <- <- <- <- <-]|Hin]; [split_and!; by vm_compute|]). done. }
  destruct Hb as (Hb1 & Hb2 & Hb3).
  destruct (ladder_close show base 0 (js u) us size) as (j & v & Hv & _ & H1 & H2 & H3 & H4);
    [done|done|by left|lia|done|].
  rewrite Nat.sub_0_r in Hv. exists j, v. rewrite Hf. auto.
Qed.

(** From 1024^2 MB on, computeSizeFromMB divides by 1024^3 where a terabyte
    is 1024^2 MB: the number it shows beside TB is the size in units of 1024 TB,
    up to half a hundredth, so a terabyte is shown as 0.00 TB. *)
Theorem computeSizeFromMB_off_by_1024 :
  (forall size, 1024 ^ 2 <= size -> size < 2 ^ 53 ->
    exists n, computeSizeFromMB size = shown_long n ++ js " TB" /\ close n size (1024 * 1024 ^ 2)) /\
  computeSizeFromMB (1024 ^ 2) = js "0.00 TB" /\ computeSizeFromKB (1024 ^ 3) = js "1.00 TB".
Proof.
  split; [|by vm_compute]. intros size Hs Hm.
  exists (scaled (fdiv size (1024 * 1024 ^ 2)) 2). split.
  - unfold computeSizeFromMB. change (1024 ^ 3) with (1024 * 1024 ^ 2).
    destruct (N.ltb_spec size 1024) as [H|_]; [change (1024 ^ 2) with 1048576 in Hs; lia|].
    by destruct (N.ltb_spec size (1024 ^ 2)); [lia|].
  - apply toFixed_close; change (1024 * 1024 ^ 2) with (2 ^ 30) in *; change (1024 ^ 2) with (2 ^ 20) in *; lia.
Qed.

Lemma sizes_close_witness :
  exists j v, [js " B"; js " KB"; js " MB"; js " GB"; js " TB"] !! j = Some v /\
    (j = 0%nat \/ 1024 ^ N.of_nat j <= 1536) /\
    ((j < 4)%nat -> 1536 < 1024 ^ N.of_nat (S j)) /\
    computeSize 1536 = rung shown 1024 j 1536 ++ v /\
    (j <> 0%nat -> close (scaled (fdiv 1536 (1024 ^ N.of_nat j)) 2) 1536 (1024 ^ N.of_nat j)).
Proof.
  apply (sizes_close computeSize shown 1024 " B" [js " KB"; js " MB"; js " GB"; js " TB"]);
    [by left|done|done].
Defined.

Lemma computeSizeFromMB_off_by_1024_witness :
  exists n, computeSizeFromMB (3 * 1024 ^ 2) = shown_long n ++ js " TB" /\ close n (3 * 1024 ^ 2) (1024 * 1024 ^ 2).
Proof. apply computeSizeFromMB_off_by_1024; [done|reflexivity]. Defined.
