(* ===== verification/Dates.v ===== *)
(** * Dates and durations as text

    src/frontend/src/utils/date.ts.  [new Date(...)] gives the fields of a date in
    local time, or NaN for every field when the text is no date: a field is an
    optional integer.  [tn key n] is i18n.global.t(key, n) and [t key] is
    i18n.global.t(key). *)

From S2P Require Import Prelude JsString.
From Stdlib Require Import ZifyBool.

#[local] Open Scope Z_scope.

(** ** Dates *)

(** A field, [None] for NaN. *)
Abbreviation field := (option Z) (only parsing).

Record Date := {
  getFullYear : field;
  getMonth : field;            (* 0 is January *)
  getDate : field;
  getHours : field;
  getMinutes : field;
  getSeconds : field;
  getTimezoneOffset : field;   (* minutes from local time to UTC *)
}.

Definition String_field (x : field) : jsstr :=
  match x with Some z => decZ z | None => js "NaN" end.
Definition succ_field (x : field) : field := Z.succ <$> x.

(** [x < 10 ? `0${String(x)}` : x], in a template. *)
Definition two (x : field) : jsstr :=
  match x with
  | Some z => if z <? 10 then js "0" ++ decZ z else decZ z
  | None => js "NaN"
  end.

(** [s.padStart(2, '0')] *)
Definition padStart2 (s : jsstr) : jsstr := replicate (2 - length s) 48%N ++ s.

Definition getCurrentDateFormatted (now : Date) : jsstr :=
  let month := padStart2 (String_field (succ_field (getMonth now))) in
  let day := padStart2 (String_field (getDate now)) in
  let hours := padStart2 (String_field (getHours now)) in
  let minutes := padStart2 (String_field (getMinutes now)) in
  let seconds := padStart2 (String_field (getSeconds now)) in
  String_field (getFullYear now) ++ month ++ day ++ hours ++ minutes ++ seconds.

Definition dateFormat (date : Date) : jsstr :=
  let y := String_field (getFullYear date) in
  let m := two (succ_field (getMonth date)) in
  let d := two (getDate date) in
  let h := two (getHours date) in
  let minute := two (getMinutes date) in
  let second := two (getSeconds date) in
  y ++ js "-" ++ m ++ js "-" ++ d ++ js "   " ++ h ++ js ":" ++ minute ++ js ":" ++ second.

Definition dateFormatSimple (date : Date) : jsstr :=
  let y := String_field (getFullYear date) in
  let m := two (succ_field (getMonth date)) in
  let d := two (getDate date) in
  y ++ js "-" ++ m ++ js "-" ++ d.

Definition dateFormatSimpleWithSecond (date : Date) : jsstr :=
  let y := String_field (getFullYear date) in
  let m := two (succ_field (getMonth date)) in
  let d := two (getDate date) in
  let h := two (getHours date) in
  let minute := two (getMinutes date) in
  let second := two (getSeconds date) in
  y ++ js "-" ++ m ++ js "-" ++ d ++ js " " ++ h ++ js ":" ++ minute ++ js ":" ++ second.

Definition dateFormatRFC3339 (date : Date) : jsstr :=
  let pad x := padStart2 (String_field x) in
  let y := String_field (getFullYear date) in
  let m := pad (succ_field (getMonth date)) in
  let d := pad (getDate date) in
  let h := pad (getHours date) in
  let minute := pad (getMinutes date) in
  let second := pad (getSeconds date) in
  let offset := Z.opp <$> getTimezoneOffset date in
  let sign := match offset with Some o => if 0 <=? o then js "+" else js "-" | None => js "-" end in
  let absOffset := Z.abs <$> offset in
  let offsetHour := pad ((fun o => o / 60) <$> absOffset) in
  let offsetMinute := pad ((fun o => Z.rem o 60) <$> absOffset) in
  y ++ js "-" ++ m ++ js "-" ++ d ++ js "T" ++ h ++ js ":" ++ minute ++ js ":" ++ second
    ++ sign ++ offsetHour ++ js ":" ++ offsetMinute.

Definition dateFormatForName (date : Date) : jsstr :=
  let y := String_field (getFullYear date) in
  let m := two (succ_field (getMonth date)) in
  let d := two (getDate date) in
  let h := two (getHours date) in
  let minute := two (getMinutes date) in
  let second := two (getSeconds date) in
  y ++ m ++ d ++ h ++ minute ++ second.

Definition dateFormatWithoutYear (date : Date) : jsstr :=
  let m := two (succ_field (getMonth date)) in
  let d := two (getDate date) in
  let h := two (getHours date) in
  let minute := two (getMinutes date) in
  let s := two (getSeconds date) in
  m ++ js "-" ++ d ++ [10%N] ++ h ++ js ":" ++ minute ++ js ":" ++ s.

Definition dateFormatForSecond (date : Date) : jsstr :=
  let h := two (getHours date) in
  let minute := two (getMinutes date) in
  let second := two (getSeconds date) in
  h ++ js ":" ++ minute ++ js ":" ++ second.

Definition getDateStr (now : Date) : jsstr :=
  let year := String_field (getFullYear now) in
  let month := two (succ_field (getMonth now)) in
  let date := two (getDate now) in
  let hours := two (getHours now) in
  let minutes := two (getMinutes now) in
  let seconds := two (getSeconds now) in
  year ++ js "-" ++ month ++ js "-" ++ date ++ js "-" ++ hours ++ js "-" ++ minutes ++ js "-" ++ seconds.

(** ** Durations *)

Section Durations.
Context (t : jsstr -> jsstr) (tn : jsstr -> Z -> jsstr).

Record RunningTime := { days : Z; hours : Z; minutes : Z; seconds : Z }.

Definition formatDurationUnit (value : Z) (unit : jsstr) : jsstr := decZ value ++ tn unit value.

(** The argument is optional. *)
Definition formatUptime (runningTime : option RunningTime) : jsstr :=
  match runningTime with
  | None => []
  | Some r =>
      let day := formatDurationUnit (days r) (js "commons.units.day") in
      let hour := formatDurationUnit (hours r) (js "commons.units.hour") in
      let minute := formatDurationUnit (minutes r) (js "commons.units.minute") in
      let second := formatDurationUnit (seconds r) (js "commons.units.second") in
      if (days r <=? 0) && (hours r <=? 0) && (minutes r <=? 0) && (seconds r <=? 0) then []
      else if negb (days r =? 0) then day ++ js " " ++ hour ++ js " " ++ minute ++ js " " ++ second
      else if negb (hours r =? 0) then hour ++ js " " ++ minute ++ js " " ++ second
      else if negb (minutes r =? 0) then minute ++ js " " ++ second
      else second
  end.

(** [dateDiff] is the time from the argument to now in milliseconds; [%] is the
    remainder with the sign of the dividend. *)
Definition getAge (dateDiff : Z) : jsstr :=
  let dayDiff := dateDiff / (24 * 3600 * 1000) in
  let leave1 := Z.rem dateDiff (24 * 3600 * 1000) in
  let hours := leave1 / (3600 * 1000) in
  let leave2 := Z.rem leave1 (3600 * 1000) in
  let minutes := leave2 / (60 * 1000) in
  let unit k n := tn k n in
  let res := if 0 <? dayDiff then decZ dayDiff ++ js " " ++ unit (js "commons.units.day") dayDiff ++ js " " else [] in
  if (0 <? dayDiff) && (hours <=? 0) then res
  else if 0 <? hours then res ++ decZ hours ++ js " " ++ unit (js "commons.units.hour") hours
  else if 0 <? minutes then res ++ decZ minutes ++ js " " ++ unit (js "commons.units.minute") minutes
  else t (js "app.less1Minute").
End Durations.

Definition example_date : Date :=
  {| getFullYear := Some 2025; getMonth := Some 0; getDate := Some 9; getHours := Some 23;
     getMinutes := Some 5; getSeconds := Some 0; getTimezoneOffset := Some (-480) |}.

Example name_ex : dateFormatForName example_date = js "20250109230500". Proof. reflexivity. Qed.
Example rfc_ex : dateFormatRFC3339 example_date = js "2025-01-09T23:05:00+08:00". Proof. reflexivity. Qed.

(** ** Texts of fields *)

(** A run of [w] digits worth [z]. *)
Definition is_run (w : nat) (z : Z) (s : jsstr) : bool :=
  (length s =? w)%nat && forallb is_digit s && (digits_val s =? Z.to_N z)%N.

Lemma two_run z : (0 <= z < 100) -> is_run 2 z (two (Some z)) = true.
Proof.
  intros Hz. rewrite <- (Z2N.id z) by lia.
  apply (forall_from_spec (fun n => is_run 2 (Z.of_N n) (two (Some (Z.of_N n)))) 0 100); [|lia].
  vm_compute. reflexivity.
Qed.

Lemma pad_two z : (0 <= z) -> padStart2 (String_field (Some z)) = two (Some z).
Proof.
  intros Hz. destruct (Z.lt_ge_cases z 10) as [H|H].
  - rewrite <- (Z2N.id z) by lia.
    apply streqb_eq.
    apply (forall_from_spec (fun n => padStart2 (String_field (Some (Z.of_N n))) === two (Some (Z.of_N n))) 0 10);
      [vm_compute; reflexivity|lia].
  - unfold two, padStart2, String_field. assert ((z <? 10) = false) as -> by (apply Z.ltb_ge; lia).
    unfold decZ. assert ((z <? 0) = false) as -> by (apply Z.ltb_ge; lia).
    assert (Hl : (2 <= length (dec (Z.to_N z)))%nat).
    { destruct (dec (Z.to_N z)) as [|a [|b l]] eqn:E; simpl; [by apply dec_not_nil in E| |lia].
      pose proof (digits_val_dec (Z.to_N z)) as Hv. pose proof (dec_digits (Z.to_N z)) as Hd. rewrite E in Hv, Hd.
      pose proof (digits_val_bound _ Hd) as Hb. simpl in Hb. lia. }
    by replace (2 - length (dec (Z.to_N z)))%nat with 0%nat by lia.
Qed.

Lemma year_run y : (1000 <= y <= 9999) -> is_run 4 y (decZ y) = true.
Proof.
  intros Hy. rewrite <- (Z2N.id y) by lia.
  apply (forall_from_spec (fun n => is_run 4 (Z.of_N n) (decZ (Z.of_N n))) 1000 (N.to_nat 9000)); [|lia].
  vm_compute. reflexivity.
Qed.

(** The ranges of the fields of a valid date of four year digits. *)
Definition valid (d : Date) : Prop :=
  exists y mo dd h mi s o,
    d = {| getFullYear := Some y; getMonth := Some mo; getDate := Some dd; getHours := Some h;
           getMinutes := Some mi; getSeconds := Some s; getTimezoneOffset := Some o |} /\
    (1000 <= y <= 9999) /\ (0 <= mo <= 11) /\ (1 <= dd <= 31) /\ (0 <= h <= 23) /\
    (0 <= mi <= 59) /\ (0 <= s <= 59) /\ (-840 <= o <= 720).

(** The fields in chronological order of significance. *)
Definition fields (d : Date) : list Z :=
  List.map (default 0) [getFullYear d; getMonth d; getDate d; getHours d; getMinutes d; getSeconds d].

Fixpoint lex_lt (a b : list Z) : bool :=
  match a, b with
  | x :: a', y :: b' => (x <? y) || (x =? y) && lex_lt a' b'
  | [], _ :: _ => true
  | _, [] => false
  end.

Lemma str_lt_run w x y s t u v :
  0 <= x -> 0 <= y -> is_run w x s = true -> is_run w y t = true ->
  str_lt (s ++ u) (t ++ v) = (x <? y) || (x =? y) && str_lt u v.
Proof.
  unfold is_run. rewrite !andb_true_iff, !Nat.eqb_eq, !N.eqb_eq.
  intros Hx Hy [[Hls Hs] Hvs] [[Hlt Ht] Hvt].
  rewrite str_lt_app by congruence. rewrite str_lt_digits by congruence. rewrite Hvs, Hvt.
  assert ((s === t) = (x =? y)) as ->.
  { apply eq_true_iff_eq. rewrite streqb_eq, Z.eqb_eq. split.
    - intros ->. lia.
    - intros ->. apply digits_val_inj; congruence. }
  f_equal. apply eq_true_iff_eq. rewrite N.ltb_lt, Z.ltb_lt. lia.
Qed.

Lemma name_order a b : valid a -> valid b ->
  str_lt (dateFormatForName a) (dateFormatForName b) = lex_lt (fields a) (fields b).
Proof.
  intros (y & mo & dd & h & mi & s & o & -> & ?) (y' & mo' & dd' & h' & mi' & s' & o' & -> & ?).
  unfold dateFormatForName, fields. cbn -[two decZ str_lt].
  rewrite (str_lt_run 4 y y') by (lia || (apply year_run; lia)).
  rewrite (str_lt_run 2 (Z.succ mo) (Z.succ mo')) by (lia || (apply two_run; lia)).
  rewrite (str_lt_run 2 dd dd') by (lia || (apply two_run; lia)).
  rewrite (str_lt_run 2 h h') by (lia || (apply two_run; lia)).
  rewrite (str_lt_run 2 mi mi') by (lia || (apply two_run; lia)).
  rewrite <- (app_nil_r (two (Some s))), <- (app_nil_r (two (Some s'))).
  rewrite (str_lt_run 2 s s') by (lia || (apply two_run; lia)).
  cbn [lex_lt str_lt].
  assert ((Z.succ mo <? Z.succ mo') = (mo <? mo')) as -> by lia.
  by assert ((Z.succ mo =? Z.succ mo') = (mo =? mo')) as -> by lia.
Qed.

Lemma lex_lt_total a b : length a = length b -> lex_lt a b = false -> lex_lt b a = false -> a = b.
Proof.
  revert b. induction a as [|x a IH]; intros [|y b] Hl H1 H2; try done.
  cbn [lex_lt] in H1, H2. injection Hl as Hl. assert (x = y) as -> by lia. f_equal.
  apply IH; [done|..]; lia.
Qed.

Lemma lex_lt_irrefl a : lex_lt a a = false.
Proof. induction a as [|x a IH]; [done|]. cbn [lex_lt]. lia. Qed.

(** Names made of dates sort as the dates do: one name is before another
    exactly when its date is earlier in local time, and equal names come from
    dates that agree to the second. *)
Theorem dateFormatForName_sorted a b : valid a -> valid b ->
  str_lt (dateFormatForName a) (dateFormatForName b) = lex_lt (fields a) (fields b) /\
  (dateFormatForName a = dateFormatForName b <-> fields a = fields b).
Proof.
  intros Ha Hb. split; [by apply name_order|]. split.
  - intros E. apply lex_lt_total; [done|..].
    + by rewrite <- name_order, E, name_order, lex_lt_irrefl.
    + by rewrite <- name_order, E, name_order, lex_lt_irrefl.
  - intros E. destruct Ha as (y & mo & dd & h & mi & s & o & -> & _).
    destruct Hb as (y' & mo' & dd' & h' & mi' & s' & o' & -> & _).
    by injection E as -> -> -> -> -> ->.
Qed.

Lemma dateFormatForName_sorted_witness :
  str_lt (dateFormatForName example_date) (dateFormatForName example_date) =
    lex_lt (fields example_date) (fields example_date) /\
  (dateFormatForName example_date = dateFormatForName example_date <-> fields example_date = fields example_date).
Proof.
  assert (valid example_date) as H.
  { do 7 eexists. split; [reflexivity|]. lia. }
  exact (dateFormatForName_sorted example_date example_date H H).
Defined.

(** dateFormatRFC3339 writes the UTC offset of the date: two digits of hours
    and two of minutes, below 60, whose sum with the sign is the offset. *)
Theorem dateFormatRFC3339_offset d : valid d ->
  exists s oh om : Z, (s = 1 \/ s = -1) /\ 0 <= oh <= 14 /\ 0 <= om < 60 /\
    getTimezoneOffset d = Some (- (s * (60 * oh + om))) /\
    dateFormatRFC3339 d =
      dateFormatSimple d ++ js "T" ++ dateFormatForSecond d ++
      (if 0 <? s then js "+" else js "-") ++ two (Some oh) ++ js ":" ++ two (Some om).
Proof.
  intros (y & mo & dd & h & mi & s & o & -> & ?).
  exists (if 0 <=? - o then 1 else -1), (Z.abs o / 60), (Z.abs o mod 60).
  pose proof (Z.div_mod (Z.abs o) 60). pose proof (Z.mod_pos_bound (Z.abs o) 60).
  split; [by case_step; auto|]. split; [lia|]. split; [lia|]. split.
  { cbn. f_equal. case_step; lia. }
  unfold dateFormatRFC3339, dateFormatSimple, dateFormatForSecond. cbn -[two decZ padStart2 Z.rem Z.div Z.abs Z.opp js app].
  change (default ?x (Some ?y)) with y.
  rewrite Z.rem_mod_nonneg by lia. change (decZ ?x) with (String_field (Some x)).
  rewrite Z.abs_opp. rewrite !pad_two by lia.
  rewrite <- !app_assoc. destruct (0 <=? - o); reflexivity.
Qed.

Lemma dateFormatRFC3339_offset_witness :
  exists s oh om : Z, (s = 1 \/ s = -1) /\ 0 <= oh <= 14 /\ 0 <= om < 60 /\
    getTimezoneOffset example_date = Some (- (s * (60 * oh + om))) /\
    dateFormatRFC3339 example_date =
      dateFormatSimple example_date ++ js "T" ++ dateFormatForSecond example_date ++
      (if 0 <? s then js "+" else js "-") ++ two (Some oh) ++ js ":" ++ two (Some om).
Proof. apply (dateFormatRFC3339_offset example_date). do 7 eexists. split; [reflexivity|]. lia. Defined.
