(* ===== verification/Firewall.v ===== *)
(** * Firewall addresses and ports

    src/frontend/src/views/host/firewall/utils/validation.ts: tags, IPv4 and
    IPv6 addresses, CIDR blocks, host addresses and port ranges.  The
    specifications are written in the grammar of the addresses ([dotted],
    [ipv6_text]) and never mention how the code scans the string. *)

From S2P Require Import Prelude JsString Splitting Regex Patterns.

(** ** Definitions *)

Inductive FirewallAddressFamily := ipv4 | ipv6 | inet.

#[export] Instance family_eq_dec : EqDecision FirewallAddressFamily.
Proof. solve_decision. Defined.

(** [,，;；\s] *)
Definition tag_sep (c : N) : bool :=
  (c =? 44)%N || (c =? 65292)%N || (c =? 59)%N || (c =? 65307)%N || is_ws c.

Definition splitTagValues (values : list jsstr) : list jsstr :=
  spread_set (List.filter truthy (List.map trim (flat_map (split_runs tag_sep) values))).

(** 0|[1-9]\d{0,2} *)
Definition re_octet : re := lit "0" ∥ (set [rng "1" "9"] ⋅ rep digit 0 2).

Definition isValidIPv4Address (value : jsstr) : bool :=
  let parts := split 46 value in
  (length parts =? 4) &&
  forallb (fun part => matches re_octet part && (0 <=? Number_digits part)%N
                       && (Number_digits part <=? 255)%N) parts.

(** [\da-f]{1,4}, ignoring case *)
Definition re_hextet : re := rep (set [r_09; r_af; r_AF]) 1 4.

(** [value.match(/::/g).length], 0 for no match. *)
Definition count_double (value : jsstr) : nat := length (split_on (js "::") value) - 1.

(** [s ? s.split(':') : []] *)
Definition side_groups (s : jsstr) : list jsstr := if truthy s then split 58 s else [].

Definition isValidIPv6Address (value : jsstr) : bool :=
  if negb (includes value (js ":")) || includes value (js ":::") || (1 <? count_double value)
  then false
  else
    let normalized :=
      if includes value (js ".") then
        match lastIndexOf value 58 with
        | None => None
        | Some separator =>
            if negb (isValidIPv4Address (slice_from value (separator + 1))) then None
            else Some (slice value 0 separator ++ js ":0:0")
        end
      else Some value in
    match normalized with
    | None => false
    | Some normalized =>
        let compressed := includes normalized (js "::") in
        let sides := split_on (js "::") normalized in
        let left := default [] (sides !! 0) in
        let right := default [] (sides !! 1) in
        let groups := side_groups left ++ side_groups right in
        if existsb (fun group => negb (matches re_hextet group)) groups then false
        else if compressed then length groups <? 8 else length groups =? 8
    end.

Definition inferAddressFamily (value : jsstr) : FirewallAddressFamily :=
  if includes value (js ":") then ipv6 else ipv4.

Definition isValidIPOrCIDR (value : jsstr) : bool :=
  let slash := indexOf value (js "/") in
  if bool_decide (slash <> lastIndexOf value 47) then false
  else
    let address := match slash with None => value | Some i => slice value 0 i end in
    let prefix := match slash with None => None | Some i => Some (slice_from value (i + 1)) end in
    let family := inferAddressFamily address in
    if negb (if decide (family = ipv6) then isValidIPv6Address address else isValidIPv4Address address)
    then false
    else match prefix with
         | None => true
         | Some prefix =>
             if negb (matches (rep digit 1 3) prefix) then false
             else (0 <=? Number_digits prefix)%N
                  && (Number_digits prefix <=? (if decide (family = ipv6) then 128 else 32))%N
         end.

Definition isValidAddressForFamily (family : FirewallAddressFamily) (value : jsstr) (allowCIDR : bool) : bool :=
  if negb allowCIDR && includes value (js "/") then false
  else isValidIPOrCIDR value
       && bool_decide (inferAddressFamily (default [] (split 47 value !! 0)) = family).

Definition formatHostAddress (value : option jsstr) (family : option FirewallAddressFamily) : jsstr :=
  let address := match value with Some v => trim v | None => [] end in
  if negb (truthy address) then []
  else
    let addressFamily :=
      match family with
      | Some inet | None => inferAddressFamily (default [] (split 47 address !! 0))
      | Some f => f
      end in
    let hostPrefix := if decide (addressFamily = ipv6) then js "/128" else js "/32" in
    if negb (endsWith address hostPrefix) then address
    else
      let host := slice address 0 (length address - length hostPrefix) in
      let validHost :=
        if decide (addressFamily = ipv6) then isValidIPv6Address host else isValidIPv4Address host in
      if validHost then host else address.

Definition formatHostAddressList (values : list jsstr) (family : option FirewallAddressFamily) : jsstr :=
  join (js ", ") (List.filter truthy (List.map (fun v => formatHostAddress (Some v) family) values)).

(** The groups of ^(\d+)(?:[:-](\d+))?$: the first is the leading run of digits. *)
Fixpoint leading_digits (s : jsstr) : jsstr * jsstr :=
  match s with
  | [] => ([], [])
  | c :: s' => if is_digit c then let '(d, r) := leading_digits s' in (c :: d, r) else ([], s)
  end.
Definition match_range (s : jsstr) : option (jsstr * option jsstr) :=
  let '(d, r) := leading_digits s in
  if negb (truthy d) then None
  else match r with
       | [] => Some (d, None)
       | c :: e =>
           if ((c =? 58)%N || (c =? 45)%N) && truthy e && forallb is_digit e
           then Some (d, Some e) else None
       end.

(** [None] is the Error('invalid port range') it throws. *)
Definition normalizePortRange (value : jsstr) : option jsstr :=
  match match_range (trim value) with
  | None => None
  | Some (m1, m2) =>
      let start := Number_digits m1 in
      let end_ := match m2 with None => start | Some e => Number_digits e end in
      if (start <? 1)%N || (65535 <? start)%N || (end_ <? start)%N || (65535 <? end_)%N then None
      else Some (if (start =? end_)%N then dec start else dec start ++ [45%N] ++ dec end_)
  end.

Definition isValidPortRange (value : jsstr) : bool :=
  match normalizePortRange value with Some _ => true | None => false end.

Example tags_ex : splitTagValues [js " a,b ; a"; js "c"] = [js "a"; js "b"; js "c"].
Proof. vm_compute. reflexivity. Qed.
Example v4_leading_zero : isValidIPv4Address (js "192.168.01.5") = false. Proof. vm_compute. reflexivity. Qed.
Example v6_full : isValidIPv6Address (js "1:2:3:4:5:6:7:8") = true. Proof. vm_compute. reflexivity. Qed.
Example v6_mapped : isValidIPv6Address (js "::ffff:10.0.0.1") = true. Proof. vm_compute. reflexivity. Qed.
Example v6_two : isValidIPv6Address (js "1::2::3") = false. Proof. vm_compute. reflexivity. Qed.
Example v6_edge : isValidIPv6Address (js "1:2:3:4:5:6:7::") = true. Proof. vm_compute. reflexivity. Qed.
Example cidr_ex : isValidIPOrCIDR (js "10.0.0.0/08") = true. Proof. vm_compute. reflexivity. Qed.
Example host_ex : formatHostAddress (Some (js " 10.0.0.1/32 ")) None = js "10.0.0.1".
Proof. vm_compute. reflexivity. Qed.
Example range_ex : normalizePortRange (js "0080:443 ") = Some (js "80-443").
Proof. vm_compute. reflexivity. Qed.

(** ** IPv4 *)

(** Four numbers of at most 255, in decimal without leading zeros. *)
Definition dotted (s : jsstr) : Prop :=
  exists l, length l = 4 /\ Forall (fun n => n <= 255)%N l /\ s = join (js ".") (List.map dec l).

Definition octet_ok (part : jsstr) : bool :=
  matches re_octet part && (0 <=? Number_digits part)%N && (Number_digits part <=? 255)%N.

Lemma re_octet_canonical s : matches re_octet s = true -> canonical s = true.
Proof.
  rewrite matches_spec. unfold re_octet. rewrite lang_alt, lang_lit, lang_cat.
  intros [->|(a & b & -> & Ha & Hb)]; [done|].
  apply lang_set in Ha as (c & -> & Hc). apply lang_rep_cls in Hb as (Hd & _ & Hl).
  cbn in Hc. unfold in_range in Hc. cbn in Hc. rewrite orb_false_r, andb_true_iff, !N.leb_le in Hc.
  assert (Hb : forallb is_digit b = true).
  { apply forallb_elem. intros x Hx. rewrite Forall_elem in Hd. specialize (Hd x Hx).
    cbn in Hd. unfold in_range in Hd. cbn in Hd. unfold is_digit. by rewrite orb_false_r in Hd. }
  assert (Hc' : is_digit c = true) by (unfold is_digit; rewrite andb_true_iff, !N.leb_le; lia).
  cbn [app canonical]. destruct b as [|x b]; [done|]. cbn [forallb] in *. rewrite Hc', Hb. simpl.
  apply negb_true_iff, N.eqb_neq. lia.
Qed.

Lemma octet_spec part : octet_ok part = true <-> exists n, (n <= 255)%N /\ part = dec n.
Proof.
  split.
  - unfold octet_ok. rewrite !andb_true_iff, !N.leb_le. intros [[Hc%re_octet_canonical _] Hn].
    exists (digits_val part). split; [by apply (Number_digits_le _ 255)|by rewrite dec_canonical].
  - intros (n & Hn & ->).
    apply (forall_from_spec (fun n => octet_ok (dec n)) 0 256); [by vm_compute|lia].
Qed.

Lemma octets_spec parts :
  forallb octet_ok parts = true <-> exists l, Forall (fun n => n <= 255)%N l /\ parts = List.map dec l.
Proof.
  induction parts as [|w parts IH]; cbn [forallb].
  - split; [exists []; split; [constructor|done]|done].
  - rewrite andb_true_iff, IH, octet_spec. split.
    + intros [(n & Hn & ->) (l & Hl & ->)]. exists (n :: l). by split; [constructor|].
    + intros ([|n l] & Hl & E); [done|]. injection E as -> ->. apply Forall_cons_1 in Hl as [Hn Hl]. split; eauto.
Qed.

Lemma map_dec_no_unit c l : (c < 48 \/ 57 < c)%N -> Forall (fun w => c ∉ w) (List.map dec l).
Proof. intros H. apply Forall_elem. intros w (n & -> & _)%elem_map. by apply dec_no_unit. Qed.

(** isValidIPv4Address accepts exactly four dot-separated numbers of at most
    255, each in decimal without a leading zero. *)
Lemma ipv4_spec value : isValidIPv4Address value = true <-> dotted value.
Proof.
  unfold isValidIPv4Address, dotted. fold octet_ok. rewrite andb_true_iff, Nat.eqb_eq.
  change (forallb _ (split 46 value)) with (forallb octet_ok (split 46 value)).
  rewrite octets_spec. split.
  - intros [Hn (l & Hl & E)]. exists l. rewrite E, length_map in Hn.
    split; [done|]. split; [done|]. by rewrite <- (join_split 46 value), E.
  - intros (l & Hn & Hl & ->). rewrite (split_join 46) by
      (try (apply map_dec_no_unit; lia); by destruct l).
    rewrite length_map. eauto.
Qed.

(** ** IPv6 *)

Definition is_hex (c : N) : bool := existsb (in_range c) [r_09; r_af; r_AF].
Definition hextet (w : jsstr) : Prop := Forall (fun c => is_hex c = true) w /\ 1 <= length w <= 4.

(** The words of one side of the address and the number of hextets they stand
    for: a dotted quad at the end stands for two. *)
Inductive covers : list jsstr -> nat -> Prop :=
| covers_groups l : Forall hextet l -> covers l (length l)
| covers_dotted l q : Forall hextet l -> dotted q -> covers (l ++ [q]) (length l + 2).

(** Eight hextets, or fewer with one [::] that stands for the missing ones. *)
Definition ipv6_text (v : jsstr) : Prop :=
  (exists l, covers l 8 /\ v = join (js ":") l) \/
  (exists l r n, Forall hextet l /\ covers r n /\ length l + n <= 7 /\
     v = join (js ":") l ++ js "::" ++ join (js ":") r).

Lemma re_hextet_spec w : matches re_hextet w = true <-> hextet w.
Proof.
  rewrite matches_spec. unfold re_hextet, rep, set. rewrite lang_rep_cls. unfold hextet, is_hex, in_class.
  cbn [xorb]. simpl. split; [intros (? & ? & ?)|intros (? & ? & ?)]; (split; [done|lia]).
Qed.

Lemma hextet_solid w : hextet w -> w <> [] /\ 58%N ∉ w.
Proof.
  intros [H Hl]. split; [by intros ->; simpl in Hl; lia|]. rewrite Forall_elem in H.
  intros Hc. by apply H in Hc.
Qed.

Lemma hextets_solid l : Forall hextet l -> solid 58 l.
Proof. intros H. eapply Forall_impl; [|exact H]. apply hextet_solid. Qed.

Lemma dotted_units q c : dotted q -> c ∈ q -> c = 46%N \/ (48 <= c <= 57)%N.
Proof.
  intros (l & _ & _ & ->) Hc. apply join_elem in Hc as [Hc|(w & Hw & Hc)].
  - left. by apply list_elem_of_singleton in Hc.
  - right. apply elem_map in Hw as (n & -> & _). by apply dec_elem in Hc.
Qed.

Lemma dotted_solid q : dotted q -> q <> [] /\ 58%N ∉ q.
Proof.
  intros H. split; [|intros Hc; apply (dotted_units _ _ H) in Hc; lia].
  intros ->. apply ipv4_spec in H. by vm_compute in H.
Qed.

Lemma dotted_dot q : dotted q -> 46%N ∈ q.
Proof.
  intros (l & Hl & _ & ->). destruct l as [|a [|b l]]; [done..|].
  cbn [List.map]. rewrite join_cons by done. rewrite elem_of_app. right. by left.
Qed.

(** *** The body of the check, on a string without dots *)

Definition groups_ok (normalized : jsstr) : bool :=
  let sides := split_on (js "::") normalized in
  let groups := side_groups (default [] (sides !! 0)) ++ side_groups (default [] (sides !! 1)) in
  if existsb (fun group => negb (matches re_hextet group)) groups then false
  else if includes normalized (js "::") then length groups <? 8 else length groups =? 8.

Definition plain (s : jsstr) : Prop :=
  (exists l, Forall hextet l /\ length l = 8 /\ s = join (js ":") l) \/
  (exists l r, Forall hextet l /\ Forall hextet r /\ length l + length r <= 7 /\
     s = join (js ":") l ++ js "::" ++ join (js ":") r).

Lemma groups_hextets l :
  existsb (fun group => negb (matches re_hextet group)) l = false <-> Forall hextet l.
Proof.
  rewrite <- not_true_iff_false, existsb_elem, Forall_elem. setoid_rewrite <- re_hextet_spec.
  split.
  - intros H x Hx. destruct (matches re_hextet x) eqn:E; [done|]. exfalso. apply H. exists x. by rewrite E.
  - intros H (x & Hx & E). by rewrite (H x Hx) in E.
Qed.

Lemma side_groups_join l : Forall hextet l -> side_groups (join (js ":") l) = l.
Proof.
  intros H. unfold side_groups. destruct l as [|w l]; [done|].
  rewrite (proj2 (truthy_true _)); [by apply solid_split; [apply hextets_solid|]|].
  destruct (hextet_solid w) as [Hw _]; [by inversion_clear H|].
  destruct l; [done|]. rewrite join_cons by done. by destruct w.
Qed.

Lemma side_groups_inv s : join (js ":") (side_groups s) = s.
Proof. unfold side_groups. destruct s as [|c s]; [done|]. apply join_split. Qed.

(** The destructuring of the two sides. *)
Lemma side_0 (a : jsstr) t : default [] ((a :: t) !! 0) = a.
Proof. done. Qed.
Lemma side_1 (a b : jsstr) t : default [] ((a :: b :: t) !! 1) = b.
Proof. done. Qed.
Lemma side_1_none (a : jsstr) : default [] ([a] !! 1) = [].
Proof. done. Qed.

Lemma groups_ok_spec s : count_double s <= 1 -> groups_ok s = true <-> plain s.
Proof.
  intros Hc. unfold groups_ok. split.
  - destruct (existsb _ _) eqn:Eg; [done|]. apply groups_hextets in Eg.
    destruct (indexOf s (js "::")) as [i|] eqn:Ei.
    + assert (includes s (js "::") = true) as -> by (unfold includes; rewrite Ei; done).
      intros Hl. apply Nat.ltb_lt in Hl. right.
      unfold count_double in Hc. destruct (split_on (js "::") s) as [|a [|b [|x t]]] eqn:Es.
      * by apply split_on_nonempty in Es.
      * rewrite (split_on_some (js "::") s i) in Es by done. injection Es as _ Es.
        by apply split_on_nonempty in Es.
      * apply split_on_double_inv in Es as (-> & _). simpl in Eg, Hl.
        apply Forall_app in Eg as [Ha Hb]. exists (side_groups a), (side_groups b).
        rewrite length_app in Hl. rewrite !side_groups_inv. repeat split; try done. lia.
      * simpl in Hc. lia.
    + assert (includes s (js "::") = false) as -> by (unfold includes; rewrite Ei; done).
      rewrite split_on_none in * by done. simpl in *. rewrite app_nil_r in *.
      intros Hl%Nat.eqb_eq. left. exists (side_groups s). by rewrite side_groups_inv.
  - intros [(l & Hl & H8 & ->)|(l & r & Hl & Hr & Hn & ->)].
    + assert (Ei : includes (join (js ":") l) (js "::") = false)
        by (apply includes_false; intros a b; by apply solid_no_double, hextets_solid).
      rewrite Ei. unfold includes in Ei. apply bool_decide_eq_false in Ei.
      rewrite split_on_none by (destruct (indexOf _ _); [by destruct Ei|done]).
      rewrite side_0, side_1_none, side_groups_join by done.
      change (side_groups []) with (@nil jsstr). rewrite app_nil_r, (proj2 (groups_hextets l)) by done.
      by rewrite H8.
    + change (js "::") with [58; 58]%N. change (js ":") with [58%N]. rewrite solid_sides by by apply hextets_solid.
      change [58%N] with (js ":"). rewrite side_0, side_1, !side_groups_join by done.
      rewrite (proj2 (groups_hextets (l ++ r))) by by rewrite ?Forall_app.
      assert (includes _ _ = true) as -> by (apply includes_spec; eauto).
      apply Nat.ltb_lt. rewrite length_app. lia.
Qed.

(** *** The dotted tail *)

Lemma hextet_0 : hextet (js "0").
Proof. split; [by repeat constructor|simpl; lia]. Qed.

(** Replacing the dotted tail by two zero groups adds no [::]. *)
Lemma count_replace p q :
  58%N ∉ q -> q <> [] -> count_double (p ++ 58%N :: q) <= 1 -> count_double (p ++ js ":0:0") <= 1.
Proof.
  intros Hq Hne. unfold count_double. change (js "::") with [58; 58]%N.
  assert (H0 : solid 58 [js "0"; js "0"]) by (apply hextets_solid; repeat constructor; apply hextet_0).
  assert (Hs : split 58 (p ++ 58%N :: q) = split 58 p ++ [q]) by (by rewrite split_app_sep, (split_no_sep 58 q)).
  assert (Hj : p ++ js ":0:0" = join [58%N] (split 58 p ++ [js "0"; js "0"]))
    by (rewrite join_app, join_split by auto with panel; done).
  destruct (split_on [58; 58]%N (p ++ 58%N :: q)) as [|a [|b [|x t]]] eqn:Es.
  - by apply split_on_nonempty in Es.
  - intros _. rewrite split_on_none; [simpl; lia|].
    destruct (indexOf (p ++ js ":0:0") [58; 58]%N) as [i|] eqn:E; [|done]. exfalso.
    apply indexOf_Some in E as (x & y & E & _). rewrite Hj in E.
    destruct (double_tail 58 (split 58 p) [q] [js "0"; js "0"]) as (u & v & Ed);
      [rewrite <- Hs; apply split_pieces|apply split_pieces|done..|by exists x, y|].
    rewrite <- Hs, join_split in Ed.
    destruct (indexOf (p ++ 58%N :: q) [58; 58]%N) as [k|] eqn:Ek.
    + rewrite (split_on_some _ _ k) in Es by done. injection Es as _ Es. by apply split_on_nonempty in Es.
    + by apply (indexOf_None _ _ u v) in Ek.
  - intros _. apply split_on_double_inv in Es as (Ev & Ha & Hb).
    rewrite Ev in Hs. cbn [app] in Hs. rewrite split_app_sep in Hs. cbn [split] in Hs.
    rewrite N.eqb_refl in Hs.
    destruct (split 58 b) as [|w0 bs0] eqn:Eb using rev_ind; [by apply split_nonempty in Eb|].
    change ([] :: bs0 ++ [w0]) with (([] :: bs0) ++ [w0]) in Hs.
    rewrite app_assoc in Hs. apply app_inj_tail in Hs as [Hp ->].
    assert (E2 : p ++ js ":0:0" = a ++ [58; 58]%N ++ join [58%N] (bs0 ++ [js "0"; js "0"])).
    { rewrite Hj, <- Hp, <- app_assoc, join_app, join_split by auto with panel. cbn [app].
      by rewrite join_cons by by destruct bs0. }
    rewrite E2, split_on_double; [simpl; lia|done|].
    intros x y E. destruct (double_tail 58 bs0 [q] [js "0"; js "0"]) as (u & v & Ed);
      [rewrite <- Eb; apply split_pieces| |done..|by exists x, y|].
    + pose proof (split_pieces 58 b) as Hf. rewrite Eb in Hf. by apply Forall_app in Hf as [? _].
    + rewrite <- Eb, join_split in Ed. by apply (Hb u v).
  - simpl. lia.
Qed.

Lemma hextet_no_dot w : hextet w -> 46%N ∉ w.
Proof. intros [H _] Hc. rewrite Forall_elem in H. by apply H in Hc. Qed.

Lemma join_hextets_no_dot l : Forall hextet l -> 46%N ∉ join (js ":") l.
Proof.
  intros H Hc. apply join_elem in Hc as [Hc|(w & Hw & Hc)].
  - by apply list_elem_of_singleton in Hc.
  - rewrite Forall_elem in H. by apply (hextet_no_dot w); [apply H|].
Qed.

(** A string with the two zero groups in the place of the quad is plain exactly
    when the string with the quad is an address. *)
Lemma plain_replace p q :
  dotted q -> plain (p ++ js ":0:0") -> ipv6_text (p ++ 58%N :: q).
Proof.
  intros Hq. assert (Hs0 : split 58 (p ++ js ":0:0") = split 58 p ++ [js "0"; js "0"]).
  { change (p ++ js ":0:0") with (p ++ 58%N :: js "0:0"). by rewrite split_app_sep. }
  assert (Hv : p ++ 58%N :: q = join (js ":") (split 58 p ++ [q]))
    by (change (js ":") with [58%N]; rewrite join_app, join_split by auto with panel; done).
  intros [(l & Hl & H8 & E)|(l & r & Hl & Hr & Hn & E)].
  - left. exists (split 58 p ++ [q]). split; [|done].
    rewrite E, solid_split in Hs0 by (try (by apply hextets_solid); by intros ->).
    rewrite Hs0 in Hl, H8. rewrite length_app in H8. cbn [length] in H8.
    apply Forall_app in Hl as [Hl _]. replace 8 with (length (split 58 p) + 2) by lia.
    by apply covers_dotted.
  - right. destruct (decide (r = [])) as [->|Hr0].
    { exfalso. rewrite E in Hs0. change (js "::" ++ join (js ":") []) with (58%N :: [58%N]) in Hs0.
      rewrite split_app_sep in Hs0. cbn [split] in Hs0. rewrite N.eqb_refl in Hs0.
      change [js "0"; js "0"] with ([js "0"] ++ [js "0"]) in Hs0.
      change [[]; []] with ([[]] ++ [@nil N]) in Hs0. rewrite !app_assoc in Hs0.
      by apply app_inj_tail in Hs0 as [_ ?]. }
    assert (Hs : split 58 (join (js ":") l) ++ [] :: r = split 58 p ++ [js "0"; js "0"]).
    { rewrite <- Hs0, E. cbn [js app]. rewrite split_app_sep. cbn [split]. rewrite N.eqb_refl.
      f_equal. f_equal. symmetry. by apply solid_split; [apply hextets_solid|]. }
    destruct r as [|w1 r _] using rev_ind; [done|].
    destruct r as [|w2 r _] using rev_ind.
    { exfalso. change [js "0"; js "0"] with ([js "0"] ++ [js "0"]) in Hs.
      change ([] :: [] ++ [w1]) with ([@nil N] ++ [w1]) in Hs. rewrite !app_assoc in Hs.
      apply app_inj_tail in Hs as [Hs _]. by apply app_inj_tail in Hs as [_ ?]. }
    change [js "0"; js "0"] with ([js "0"] ++ [js "0"]) in Hs.
    change ([] :: (r ++ [w2]) ++ [w1]) with (([] :: r ++ [w2]) ++ [w1]) in Hs. rewrite !app_assoc in Hs.
    apply app_inj_tail in Hs as [Hs _].
    change ([] :: r ++ [w2]) with (([] :: r) ++ [w2]) in Hs. rewrite app_assoc in Hs.
    apply app_inj_tail in Hs as [Hs _].
    exists l, (r ++ [q]), (length r + 2). apply Forall_app in Hr as [Hr _]. apply Forall_app in Hr as [Hr _].
    rewrite !length_app in Hn. cbn [length] in Hn.
    repeat split; [done|by apply covers_dotted|lia|].
    rewrite Hv, <- Hs, <- app_assoc. change (js ":") with [58%N].
    rewrite join_app, join_split by auto with panel. cbn [app].
    by rewrite join_cons by by destruct r.
Qed.

Lemma plain_text v : plain v -> ipv6_text v.
Proof.
  intros [(l & Hl & H8 & ->)|(l & r & Hl & Hr & Hn & ->)].
  - left. exists l. split; [|done]. rewrite <- H8. by constructor.
  - right. exists l, r, (length r). repeat split; try done. by constructor.
Qed.

(** *** The scan of the whole string *)

Definition scan_ok (v : jsstr) : Prop :=
  includes v (js ":") = true /\ includes v (js ":::") = false /\ count_double v <= 1.

Lemma scan_full l : solid 58 l -> 2 <= length l -> scan_ok (join (js ":") l).
Proof.
  intros Hl Hn. assert (Hd : forall x y, join [58%N] l <> x ++ [58; 58]%N ++ y) by (intros; by apply solid_no_double).
  repeat split.
  - apply (includes_unit _ ":" 58); [done|]. destruct l as [|a [|b l]]; simpl in Hn; [lia..|].
    rewrite join_cons by done. rewrite elem_of_app. right. by left.
  - apply includes_false. intros x y E. apply (Hd x (58%N :: y)), E.
  - unfold count_double. rewrite split_on_none; [simpl; lia|].
    destruct (indexOf _ _) eqn:E; [|done]. apply indexOf_Some in E as (x & y & E & _). by destruct (Hd x y).
Qed.

Lemma scan_sides l r : solid 58 l -> solid 58 r -> scan_ok (join (js ":") l ++ js "::" ++ join (js ":") r).
Proof.
  intros Hl Hr. repeat split.
  - apply (includes_unit _ ":" 58); [done|]. rewrite elem_of_app. right. by left.
  - apply includes_false. intros x y. by apply (solid_no_triple 58).
  - unfold count_double. change (js "::") with [58; 58]%N. change (js ":") with [58%N].
    rewrite solid_sides by done. simpl. lia.
Qed.

Lemma covers_solid l n : covers l n -> solid 58 l.
Proof.
  intros [m H|m q H Hq]; [by apply hextets_solid|].
  apply Forall_app. split; [by apply hextets_solid|]. repeat constructor; by apply dotted_solid.
Qed.

Lemma text_scan v : ipv6_text v -> scan_ok v.
Proof.
  intros [(l & Hl & ->)|(l & r & n & Hl & Hr & _ & ->)].
  - apply scan_full; [by eapply covers_solid|].
    inversion Hl as [m _ E1 E2|m q _ _ E1 E2]; subst; [lia|]. rewrite length_app. simpl. lia.
  - apply scan_sides; [by apply hextets_solid|by eapply covers_solid].
Qed.

(** An address is plain, or a dotted quad follows its last colon and two zero
    groups in its place make it plain. *)
Lemma text_cases v :
  ipv6_text v ->
  plain v /\ (46%N ∉ v) \/ exists p q, v = p ++ 58%N :: q /\ dotted q /\ plain (p ++ js ":0:0").
Proof.
  assert (Hz : forall l, Forall hextet l -> Forall hextet (l ++ [js "0"; js "0"])).
  { intros l H. apply Forall_app. split; [done|]. repeat constructor; apply hextet_0. }
  intros [(l & Hl & ->)|(l & r & n & Hl & Hr & Hn & ->)].
  - inversion Hl as [m H E1 E2|m q H Hq E1 E2]; subst.
    + left. split; [left; eauto|by apply join_hextets_no_dot].
    + right. destruct m as [|w m]; [done|]. exists (join (js ":") (w :: m)), q.
      rewrite join_app by done. split; [done|]. split; [done|].
      left. exists ((w :: m) ++ [js "0"; js "0"]). rewrite join_app, length_app by done.
      split; [by apply Hz|]. by split; [exact E2|].
  - destruct Hr as [r H|r q H Hq].
    + left. split; [right; exists l, r; auto|]. rewrite !elem_of_app. intros [Hc|[Hc|Hc]].
      * by apply (join_hextets_no_dot l).
      * by vm_compute in Hc; repeat (apply elem_of_cons in Hc as [?|Hc]); [..|by apply elem_of_nil in Hc].
      * by apply (join_hextets_no_dot r).
    + right. exists (join (js ":") l ++ [58%N] ++ match r with [] => [] | _ => [58%N] ++ join (js ":") r end), q.
      split; [by apply (sides_snoc 58 l r [q])|]. split; [done|]. right.
      exists l, (r ++ [js "0"; js "0"]). rewrite length_app.
      split; [done|]. split; [by apply Hz|]. split; [simpl; lia|].
      symmetry. by apply (sides_snoc 58 l r [js "0"; js "0"]).
Qed.

Lemma scan_cond v :
  (negb (includes v (js ":")) || includes v (js ":::") || (1 <? count_double v)) = false <-> scan_ok v.
Proof.
  unfold scan_ok. rewrite !orb_false_iff, negb_false_iff, Nat.ltb_ge. tauto.
Qed.

Lemma slices_at p q :
  slice_from (p ++ 58%N :: q) (length p + 1) = q /\ slice (p ++ 58%N :: q) 0 (length p) = p.
Proof.
  unfold slice_from, slice. split.
  - by rewrite <- drop_drop, drop_app_length.
  - rewrite Nat.sub_0_r, drop_0. by rewrite take_app_length.
Qed.

(** isValidIPv6Address accepts exactly the textual form of an IPv6 address. *)
Lemma ipv6_spec value : isValidIPv6Address value = true <-> ipv6_text value.
Proof.
  unfold isValidIPv6Address.
  destruct (negb (includes value (js ":")) || includes value (js ":::") || (1 <? count_double value)) eqn:Ec.
  { split; [done|]. intros H%text_scan%scan_cond. congruence. }
  apply scan_cond in Ec as (_ & _ & Hc). destruct (includes value (js ".")) eqn:Ed.
  - assert (Hdot : 46%N ∈ value) by by apply (includes_unit _ "." 46).
    destruct (lastIndexOf value 58) as [i|] eqn:El.
    + apply lastIndexOf_Some in El as (p & q & -> & <- & Hq). destruct (slices_at p q) as [-> ->].
      destruct (isValidIPv4Address q) eqn:Eq; cbn [negb].
      * apply ipv4_spec in Eq. fold (groups_ok (p ++ js ":0:0")).
        assert (Hcr : count_double (p ++ js ":0:0") <= 1) by (apply (count_replace p q); [done|by apply dotted_solid|done]).
        change (groups_ok (p ++ js ":0:0") = true <-> ipv6_text (p ++ 58%N :: q)).
        rewrite (groups_ok_spec _ Hcr). split; [by apply plain_replace|].
        intros [[_ Hn]|(p' & q' & E & Hq' & Hp)]%text_cases; [done|].
        assert (p' = p) as ->; [|done].
        apply (f_equal (fun s => lastIndexOf s 58)) in E as El.
        rewrite !lastIndexOf_app in El by (done || by apply dotted_solid). injection El as El.
        by apply app_inj_1 in E as [-> _].
      * split; [done|]. intros [[_ Hn]|(p' & q' & E & Hq' & Hp)]%text_cases; [done|].
        apply (f_equal (fun s => lastIndexOf s 58)) in E as El.
        rewrite !lastIndexOf_app in El by (done || by apply dotted_solid). injection El as El.
        apply app_inj_1 in E as [-> E]; [|done]. injection E as ->. apply ipv4_spec in Hq'. congruence.
    + split; [done|]. intros [[_ Hn]|(p' & q' & -> & Hq' & Hp)]%text_cases; [done|].
      rewrite lastIndexOf_app in El by by apply dotted_solid. done.
  - assert (Hdot : 46%N ∉ value) by (rewrite <- (includes_unit _ "." 46) by done; by rewrite Ed).
    change (groups_ok value = true <-> ipv6_text value). rewrite (groups_ok_spec _ Hc).
    split; [apply plain_text|]. intros [[H _]|(p & q & -> & Hq & _)]%text_cases; [done|].
    destruct Hdot. rewrite elem_of_app. right. right. by apply dotted_dot.
Qed.

(** ** Addresses, CIDR blocks and host addresses *)

Definition address (f : FirewallAddressFamily) (a : jsstr) : Prop :=
  match f with ipv4 => dotted a | ipv6 => ipv6_text a | inet => False end.

Definition bits (f : FirewallAddressFamily) : N := if decide (f = ipv6) then 128%N else 32%N.

(** The units of an address: no slash and no white space among them. *)
Definition address_unit (c : N) : bool := is_hex c || is_digit c || (c =? 46)%N || (c =? 58)%N.

Lemma dotted_address_unit q c : dotted q -> c ∈ q -> address_unit c = true.
Proof.
  intros Hq Hc. unfold address_unit. rewrite !orb_true_iff, !N.eqb_eq.
  destruct (dotted_units q c Hq Hc) as [->|Hd]; [tauto|].
  left. left. right. unfold is_digit. by rewrite andb_true_iff, !N.leb_le.
Qed.

Lemma covers_unit l n c : covers l n -> c ∈ join (js ":") l -> address_unit c = true.
Proof.
  intros Hl Hc. apply join_elem in Hc as [Hc|(w & Hw & Hc)].
  { apply list_elem_of_singleton in Hc as ->. by vm_compute. }
  assert (Hx : hextet w \/ dotted w).
  { destruct Hl as [m H|m q H Hq]; rewrite Forall_elem in H; [left; by apply H|].
    apply elem_of_app in Hw as [Hw|Hw]; [left; by apply H|right].
    by apply list_elem_of_singleton in Hw as ->. }
  destruct Hx as [[H _]|H]; [|by apply (dotted_address_unit w)].
  rewrite Forall_elem in H. unfold address_unit. by rewrite (H c Hc).
Qed.

Lemma address_units f a c : address f a -> c ∈ a -> address_unit c = true.
Proof.
  destruct f; simpl; [by apply dotted_address_unit| |done].
  intros [(l & Hl & ->)|(l & r & n & Hl & Hr & _ & ->)].
  - by apply (covers_unit l 8).
  - rewrite !elem_of_app. intros [Hc|[Hc|Hc]].
    + apply (covers_unit l (length l)); [by constructor|done].
    + apply elem_of_cons in Hc as [->|Hc]; [by vm_compute|].
      apply list_elem_of_singleton in Hc as ->. by vm_compute.
    + by apply (covers_unit r n).
Qed.

Lemma address_no_slash f a : address f a -> 47%N ∉ a.
Proof. intros H Hc. by apply (address_units f) in Hc. Qed.

Lemma address_unit_range c : address_unit c = true -> (33 <= c <= 126)%N.
Proof.
  unfold address_unit, is_hex, is_digit. cbn [existsb]. unfold in_range. cbn.
  rewrite !orb_true_iff, !andb_true_iff, !N.leb_le, !N.eqb_eq. lia.
Qed.

Lemma address_trim f a : address f a -> trim a = a.
Proof.
  intros H. apply trim_id, no_ws_ends_all, Forall_elem. intros c Hc.
  apply (address_units f) in Hc; [|done]. apply address_unit_range in Hc. unfold is_ws.
  rewrite !orb_false_iff, !andb_false_iff, !N.leb_gt, !N.eqb_neq. repeat split; lia.
Qed.

Lemma infer_spec a : inferAddressFamily a = ipv6 <-> 58%N ∈ a.
Proof.
  unfold inferAddressFamily. rewrite <- (includes_unit a ":" 58) by done.
  by destruct (includes a (js ":")).
Qed.

Lemma infer_cases a : inferAddressFamily a = ipv6 \/ inferAddressFamily a = ipv4.
Proof. unfold inferAddressFamily. case_step; tauto. Qed.

Lemma address_infer f a : address f a -> inferAddressFamily a = f.
Proof.
  destruct f; simpl; intros H; [| |done].
  - destruct (infer_cases a) as [E|E]; [|done]. apply infer_spec in E. by apply dotted_solid in H as [_ ?].
  - apply infer_spec, (includes_unit a ":" 58); [done|]. by apply text_scan in H as [? _].
Qed.

(** The checks in terms of the address grammar. *)
Definition valid_in (f : FirewallAddressFamily) (a : jsstr) : bool :=
  if decide (f = ipv6) then isValidIPv6Address a else isValidIPv4Address a.

Lemma valid_in_spec f a : f <> inet -> valid_in f a = true <-> address f a.
Proof.
  unfold valid_in. intros Hf. case_decide as E; [subst f; apply ipv6_spec|].
  destruct f; [apply ipv4_spec|done|done].
Qed.

Lemma infer_not_inet a : inferAddressFamily a <> inet.
Proof. destruct (infer_cases a) as [->| ->]; done. Qed.

(** A prefix: one to three digits worth at most the family's width. *)
Definition prefix_ok (f : FirewallAddressFamily) (p : jsstr) : Prop :=
  forallb is_digit p = true /\ 1 <= length p <= 3 /\ (digits_val p <= bits f)%N.

Lemma prefix_check f p :
  (if negb (matches (rep digit 1 3) p) then false
   else (0 <=? Number_digits p)%N && (Number_digits p <=? bits f)%N) = true <-> prefix_ok f p.
Proof.
  unfold prefix_ok. assert (Hm : matches (rep digit 1 3) p = true <-> forallb is_digit p = true /\ 1 <= length p <= 3).
  { rewrite matches_spec. unfold rep, digit, set. rewrite lang_rep_cls, forallb_elem, Forall_elem.
    unfold in_class, is_digit. cbn [existsb]. unfold in_range. cbn [fst snd].
    setoid_rewrite orb_false_r. setoid_rewrite xorb_false_l. simpl.
    split; intros (H & ? & ?); (split; [done|lia]). }
  destruct (matches (rep digit 1 3) p) eqn:E; cbn [negb].
  - rewrite andb_true_iff, !N.leb_le, Number_digits_le by (unfold bits; case_step; lia).
    destruct Hm as [Hm _]. specialize (Hm eq_refl). split; [intros [_ ?]; tauto|]. intros (_ & _ & ?). split; [lia|done].
  - split; [done|]. intros (? & ? & _). by destruct Hm as [_ Hm]; discriminate Hm.
Qed.

(** An address of family [f], with or without a prefix. *)
Definition block (f : FirewallAddressFamily) (value : jsstr) : Prop :=
  exists a, address f a /\ (value = a \/ exists p, value = a ++ 47%N :: p /\ prefix_ok f p).

Lemma lastIndexOf_None s c : c ∉ s -> lastIndexOf s c = None.
Proof.
  intros H. destruct (lastIndexOf s c) eqn:E; [|done]. apply lastIndexOf_Some in E as (a & b & -> & _).
  destruct H. rewrite elem_of_app. right. by left.
Qed.

(** One slash at most: the code's comparison of its first and last position. *)
Lemma slash_cases value :
  ((47%N ∉ value) /\ indexOf value (js "/") = None /\ lastIndexOf value 47 = None) \/
  (exists a p, value = a ++ 47%N :: p /\ (47%N ∉ a) /\
     indexOf value (js "/") = Some (length a) /\
     (lastIndexOf value 47 = Some (length a) <-> (47%N ∉ p))).
Proof.
  destruct (decide (47%N ∈ value)) as [H|H].
  - right. destruct (indexOf value (js "/")) as [i|] eqn:E; [|by apply indexOf_unit in E].
    apply indexOf_Some in E as Hs. destruct Hs as (a & p & -> & <-). exists a, p.
    assert (Ha : 47%N ∉ a).
    { intros Hc. apply list_elem_of_split in Hc as (x & y & ->).
      pose proof (indexOf_min _ _ _ x (y ++ 47%N :: p) E) as Hlen.
      rewrite <- app_assoc in Hlen. specialize (Hlen eq_refl). rewrite length_app in Hlen. simpl in Hlen. lia. }
    repeat split; try done.
    + intros El Hp. apply lastIndexOf_Some in El as (x & y & E' & Hl & Hy).
      apply app_inj_1 in E' as [-> E']; [|done]. injection E' as ->. done.
    + intros Hp. by apply lastIndexOf_app.
  - left. split; [done|]. split; [by apply indexOf_unit|by apply lastIndexOf_None].
Qed.

Lemma digits_no_slash p : forallb is_digit p = true -> 47%N ∉ p.
Proof. rewrite forallb_elem. intros H Hc. by apply H in Hc. Qed.

Lemma slice_slash p q : slice_from (p ++ 47%N :: q) (length p + 1) = q /\ slice (p ++ 47%N :: q) 0 (length p) = p.
Proof.
  unfold slice_from, slice. split.
  - by rewrite <- drop_drop, drop_app_length.
  - rewrite Nat.sub_0_r, drop_0. by rewrite take_app_length.
Qed.

Lemma block_no_prefix f value : 47%N ∉ value -> block f value <-> address f value.
Proof.
  intros Hn. split; [|by intros H; exists value; auto].
  intros (a & Ha & [->|(p & -> & _)]); [done|]. destruct Hn. rewrite elem_of_app. right. by left.
Qed.

Lemma block_prefix f a p : 47%N ∉ a -> block f (a ++ 47%N :: p) <-> address f a /\ prefix_ok f p.
Proof.
  intros Hn. split; [|by intros [H ?]; exists a; eauto].
  intros (a' & Ha & [E|(p' & E & Hp)]).
  - destruct (address_no_slash f a' Ha). rewrite <- E, elem_of_app. right. by left.
  - assert (indexOf (a ++ 47%N :: p) [47%N] = indexOf (a' ++ 47%N :: p') [47%N]) as Ei by by rewrite E.
    rewrite !indexOf_first_unit in Ei by (done || by apply (address_no_slash f)). injection Ei as Ei.
    apply app_inj_1 in E as [-> E]; [|done]. by injection E as ->.
Qed.

(** A family exists with the address exactly when the inferred one has it. *)
Lemma exists_inferred a (Q : FirewallAddressFamily -> Prop) :
  (exists f, address f a /\ Q f) <->
  valid_in (inferAddressFamily a) a = true /\ Q (inferAddressFamily a).
Proof.
  rewrite valid_in_spec by apply infer_not_inet. split; [|by eauto].
  intros (f & Ha & Hq). by rewrite (address_infer f).
Qed.

Lemma cidr_spec value : isValidIPOrCIDR value = true <-> exists f, block f value.
Proof.
  unfold isValidIPOrCIDR.
  destruct (slash_cases value) as [(Hn & -> & ->)|(a & p & -> & Ha & -> & Hl)].
  - rewrite bool_decide_false by naive_solver. change (if decide (?f = ipv6) then _ else _) with (valid_in (inferAddressFamily value) value).
    transitivity (exists f, address f value /\ True).
    2: { apply exist_proper. intros f. rewrite block_no_prefix by done. tauto. }
    rewrite exists_inferred.
    destruct (valid_in (inferAddressFamily value) value); cbn [negb];
        [tauto|split; [done|by intros []]].
  - destruct (slice_slash a p) as [-> ->].
    change (if decide (inferAddressFamily a = ipv6) then isValidIPv6Address a else isValidIPv4Address a)
      with (valid_in (inferAddressFamily a) a).
    transitivity (exists f, address f a /\ prefix_ok f p).
    2: { apply exist_proper. intros f. by rewrite block_prefix. }
    rewrite exists_inferred, <- prefix_check. fold (bits (inferAddressFamily a)).
    destruct (decide (47%N ∈ p)) as [Hp|Hp].
    + rewrite bool_decide_true by (intros E; symmetry in E; by apply Hl in E).
      split; [done|]. rewrite prefix_check. intros [_ (Hd & _)]. by apply digits_no_slash in Hd.
    + rewrite bool_decide_false by (rewrite (proj2 Hl Hp); naive_solver).
      destruct (valid_in (inferAddressFamily a) a); cbn [negb];
        [tauto|split; [done|by intros []]].
Qed.

(** C30. isValidIPOrCIDR accepts exactly the textual forms of IPv4 and IPv6
    addresses, alone or with a prefix of one to three digits of at most 32 or
    128; isValidAddressForFamily accepts those of its family, and only those
    without a prefix when CIDR is not allowed. *)
Theorem isValidAddressForFamily_spec value :
  (isValidIPOrCIDR value = true <-> exists f, block f value) /\
  forall f allowCIDR, f <> inet ->
    (isValidAddressForFamily f value allowCIDR = true <->
     if allowCIDR then block f value else address f value).
Proof.
  split; [apply cidr_spec|]. intros f allowCIDR Hf. unfold isValidAddressForFamily.
  assert (Hb : isValidIPOrCIDR value && bool_decide (inferAddressFamily (default [] (split 47 value !! 0)) = f) = true
               <-> block f value).
  { rewrite andb_true_iff, cidr_spec, bool_decide_eq_true.
    assert (Hi : forall g, block g value -> inferAddressFamily (default [] (split 47 value !! 0)) = g).
    { intros g (a & Ha & Hv). assert (default [] (split 47 value !! 0) = a) as ->.
      { destruct Hv as [->|(p & -> & _)]; [rewrite split_no_sep|rewrite split_app];
          (done || by apply (address_no_slash g)). }
      by apply address_infer. }
    split; [|by eauto]. intros [[g Hg] E]. by rewrite <- E, (Hi g). }
  destruct allowCIDR; cbn [negb andb]; [done|].
  destruct (includes value (js "/")) eqn:E.
  - split; [done|]. intros H. apply (includes_unit value "/" 47) in E; [|done].
    by apply address_no_slash in H.
  - rewrite Hb. apply block_no_prefix. by rewrite <- (includes_unit value "/" 47), E.
Qed.

Lemma isValidAddressForFamily_spec_witness :
  isValidAddressForFamily ipv6 (js "fe80::1/64") true = true /\
  isValidAddressForFamily ipv6 (js "fe80::1/64") false = false /\
  (isValidAddressForFamily ipv6 (js "fe80::1") false = true <-> address ipv6 (js "fe80::1")).
Proof.
  split; [vm_compute; reflexivity|]. split; [vm_compute; reflexivity|].
  exact (proj2 (isValidAddressForFamily_spec (js "fe80::1")) ipv6 false ltac:(discriminate)).
Defined.

(** ** Host addresses *)

(** The families a host address may have for the [family] argument. *)
Definition fits (family : option FirewallAddressFamily) (f : FirewallAddressFamily) : Prop :=
  match family with None | Some inet => True | Some g => g = f end.

Definition host_prefix (f : FirewallAddressFamily) : jsstr := 47%N :: dec (bits f).

Lemma host_prefix_js f : (if decide (f = ipv6) then js "/128" else js "/32") = host_prefix f.
Proof. unfold host_prefix, bits. by case_decide. Qed.

Lemma formatHostAddress_trim v family :
  formatHostAddress (Some (trim v)) family = formatHostAddress (Some v) family.
Proof. unfold formatHostAddress. by rewrite trim_idemp. Qed.

(** The family the code takes for [a]. *)
Definition taken (family : option FirewallAddressFamily) (a : jsstr) : FirewallAddressFamily :=
  match family with
  | Some inet | None => inferAddressFamily (default [] (split 47 a !! 0))
  | Some f => f
  end.

Lemma taken_not_inet family a : taken family a <> inet.
Proof. unfold taken. destruct family as [[]|]; try done; apply infer_not_inet. Qed.

Lemma taken_fits family a : fits family (taken family a).
Proof. by destruct family as [[]|]. Qed.

Lemma formatHostAddress_eq v family :
  let a := trim v in
  let f := taken family a in
  formatHostAddress (Some v) family =
  if negb (truthy a) then [] else
  if negb (endsWith a (host_prefix f)) then a
  else let host := slice a 0 (length a - length (host_prefix f)) in
       if valid_in f host then host else a.
Proof. cbn zeta. unfold formatHostAddress. rewrite <- host_prefix_js. done. Qed.

Lemma slice_host host t : slice (host ++ t) 0 (length (host ++ t) - length t) = host.
Proof.
  unfold slice. rewrite length_app, Nat.add_sub, Nat.sub_0_r, drop_0. by rewrite take_app_length.
Qed.

Lemma formatHostAddress_strips v family f host :
  address f host -> fits family f -> trim v = host ++ host_prefix f ->
  formatHostAddress (Some v) family = host.
Proof.
  intros Ha Hf E. rewrite formatHostAddress_eq. cbn zeta. rewrite E.
  assert (Ht : taken family (host ++ host_prefix f) = f).
  { unfold taken, host_prefix. rewrite split_app by by apply (address_no_slash f).
    rewrite side_0, (address_infer f) by done. by destruct family as [[]|]. }
  rewrite Ht. assert (truthy (host ++ host_prefix f) = true) as ->.
  { apply truthy_true. by destruct host. }
  assert (endsWith (host ++ host_prefix f) (host_prefix f) = true) as -> by (apply endsWith_spec; eauto).
  cbn [negb]. rewrite slice_host. by rewrite (proj2 (valid_in_spec f host ltac:(by destruct f))).
Qed.

Lemma formatHostAddress_keeps v family :
  (forall f host, address f host -> fits family f -> trim v <> host ++ host_prefix f) ->
  formatHostAddress (Some v) family = trim v.
Proof.
  intros H. rewrite formatHostAddress_eq. cbn zeta.
  destruct (truthy (trim v)) eqn:Et; cbn [negb]; [|symmetry; by apply truthy_false].
  destruct (endsWith (trim v) _) eqn:Ee; cbn [negb]; [|done].
  destruct (valid_in _ _) eqn:Ev; [|done]. exfalso.
  apply endsWith_spec in Ee as (host & E). rewrite E in Ev at 2 3. rewrite slice_host in Ev.
  apply valid_in_spec in Ev; [|apply taken_not_inet].
  by apply (H _ _ Ev (taken_fits family (trim v))).
Qed.

Lemma host_or_not v family :
  (exists f host, address f host /\ fits family f /\ trim v = host ++ host_prefix f) \/
  (forall f host, address f host -> fits family f -> trim v <> host ++ host_prefix f).
Proof.
  set (f := taken family (trim v)).
  destruct (endsWith (trim v) (host_prefix f) && valid_in f (slice (trim v) 0 (length (trim v) - length (host_prefix f)))) eqn:E.
  - left. apply andb_true_iff in E as [(host & E)%endsWith_spec Ev].
    rewrite E, slice_host in Ev. apply valid_in_spec in Ev; [|apply taken_not_inet].
    exists f, host. split; [done|]. split; [apply taken_fits|done].
  - right. intros g host Ha Hf Eq. apply andb_false_iff in E.
    assert (Ht : f = g).
    { subst f. rewrite Eq. unfold taken, host_prefix. rewrite split_app by by apply (address_no_slash g).
      rewrite side_0, (address_infer g) by done. by destruct family as [[]|]. }
    rewrite Ht, Eq, slice_host in E. destruct E as [E|E].
    + assert (endsWith (host ++ host_prefix g) (host_prefix g) = true) by (apply endsWith_spec; eauto). congruence.
    + apply (valid_in_spec g host) in Ha; [congruence|by destruct g].
Qed.

(** formatHostAddress drops exactly the full-length prefix of a host address
    of a family that fits, and otherwise only trims; formatting twice changes
    nothing. *)
Theorem formatHostAddress_spec v family :
  (forall f host, address f host -> fits family f -> trim v = host ++ host_prefix f ->
     formatHostAddress (Some v) family = host) /\
  ((forall f host, address f host -> fits family f -> trim v <> host ++ host_prefix f) ->
     formatHostAddress (Some v) family = trim v) /\
  formatHostAddress (Some (formatHostAddress (Some v) family)) family = formatHostAddress (Some v) family.
Proof.
  split; [by apply formatHostAddress_strips|]. split; [apply formatHostAddress_keeps|].
  destruct (host_or_not v family) as [(f & host & Ha & Hf & E)|H].
  - rewrite (formatHostAddress_strips v family f host Ha Hf E), formatHostAddress_keeps;
      [by apply (address_trim f)|].
    intros g host' _ _. rewrite (address_trim f) by done. intros ->.
    apply (address_no_slash f _ Ha). rewrite elem_of_app. right. by left.
  - rewrite (formatHostAddress_keeps v family H). rewrite formatHostAddress_trim.
    by apply formatHostAddress_keeps.
Qed.

Lemma formatHostAddress_spec_witness :
  let v := js " 2001:db8::1/128" in
  formatHostAddress (Some v) None = js "2001:db8::1" /\
  formatHostAddress (Some (js "10.0.0.0/8")) None = js "10.0.0.0/8".
Proof.
  cbn zeta. split.
  - apply (proj1 (formatHostAddress_spec (js " 2001:db8::1/128") None) ipv6);
      [by apply ipv6_spec; vm_compute|done|by vm_compute].
  - vm_compute. reflexivity.
Defined.

(** ** Port ranges *)

(** The numerals of a range: one port, or two with a colon or a dash between. *)
Definition reads_range (t : jsstr) (lo hi : N) : Prop :=
  exists m1, m1 <> [] /\ forallb is_digit m1 = true /\ digits_val m1 = lo /\
  (t = m1 /\ hi = lo \/
   exists c m2, (c = 58%N \/ c = 45%N) /\ t = m1 ++ c :: m2 /\ m2 <> [] /\
     forallb is_digit m2 = true /\ digits_val m2 = hi).

Definition render_range (lo hi : N) : jsstr :=
  if (lo =? hi)%N then dec lo else dec lo ++ [45%N] ++ dec hi.

Lemma leading_digits_app d r :
  forallb is_digit d = true -> match r with [] => True | c :: _ => is_digit c = false end ->
  leading_digits (d ++ r) = (d, r).
Proof.
  intros Hd Hr. induction d as [|c d IH]; cbn [app leading_digits].
  - destruct r as [|c r]; [done|]. cbn [leading_digits]. by rewrite Hr.
  - cbn [forallb] in Hd. apply andb_true_iff in Hd as [-> Hd]. by rewrite IH.
Qed.

Lemma leading_digits_inv s d r :
  leading_digits s = (d, r) -> s = d ++ r /\ forallb is_digit d = true.
Proof.
  revert d r. induction s as [|c s IH]; intros d r; cbn [leading_digits]; [by intros [= <- <-]|].
  destruct (is_digit c) eqn:Ec; [|by intros [= <- <-]].
  destruct (leading_digits s) as [d' r']. intros [= <- <-].
  destruct (IH d' r' eq_refl) as [-> Hd]. cbn [forallb]. by rewrite Ec.
Qed.

Definition range_of (m : jsstr * option jsstr) : N * N :=
  let lo := Number_digits m.1 in (lo, match m.2 with None => lo | Some e => Number_digits e end).

(** The match of the expression, as a reading of the numerals. *)
Lemma match_range_reads t lo hi :
  (lo <= 65535)%N -> (hi <= 65535)%N ->
  reads_range t lo hi <-> exists m, match_range t = Some m /\ range_of m = (lo, hi).
Proof.
  intros Hlo Hhi. assert (Hn : forall s n, digits_val s = n -> (n <= 65535)%N -> Number_digits s = n).
  { intros s n <- H. by apply (Number_digits_small _ 65535). }
  assert (Hv : forall s n, Number_digits s = n -> (n <= 65535)%N -> digits_val s = n).
  { intros s n <- H. symmetry. apply (Number_digits_small _ 65535); [done|].
    by apply (Number_digits_le _ 65535). }
  unfold match_range, range_of. split.
  - intros (m1 & Hne & Hd & H1 & [[-> ->]|(c & m2 & Hc & -> & Hne2 & Hd2 & H2)]).
    + rewrite <- (app_nil_r m1), leading_digits_app by done. destruct m1; [done|].
      eexists. split; [reflexivity|]. cbn [fst snd]. by rewrite (Hn _ lo).
    + rewrite leading_digits_app by (done || by destruct Hc as [->| ->]).
      destruct m1; [done|]. cbn [truthy negb]. destruct m2; [done|].
      rewrite Hd2. assert ((c =? 58)%N || (c =? 45)%N = true) as -> by (destruct Hc as [->| ->]; done).
      eexists. split; [reflexivity|]. cbn [fst snd]. by rewrite (Hn _ lo), (Hn _ hi).
  - intros (m & Hm & Hr). destruct (leading_digits t) as [d r] eqn:E.
    apply leading_digits_inv in E as [-> Hd]. destruct d as [|c0 d]; [done|]. cbn [truthy negb] in Hm.
    exists (c0 :: d). split; [done|]. split; [done|].
    destruct r as [|c e].
    + injection Hm as <-. cbn [fst snd] in Hr. injection Hr as H1 H2. rewrite app_nil_r.
      rewrite H1 in H2. subst hi. rewrite (Hv _ lo H1 Hlo). auto.
    + destruct ((c =? 58)%N || (c =? 45)%N) eqn:Ec; [|done]. cbn [andb] in Hm.
      destruct e as [|c1 e]; [done|]. cbn [truthy andb] in Hm.
      destruct (forallb is_digit (c1 :: e)) eqn:Ee; [|done]. injection Hm as <-.
      cbn [fst snd] in Hr. injection Hr as H1 H2. split; [by apply Hv|]. right. exists c, (c1 :: e).
      split; [by bool_prop; rewrite !N.eqb_eq in Ec|]. repeat split; try done. by apply Hv.
Qed.

Lemma normalize_cases value r :
  normalizePortRange value = Some r <->
  exists m, match_range (trim value) = Some m /\
    let '(lo, hi) := range_of m in (1 <= lo <= hi)%N /\ (hi <= 65535)%N /\ r = render_range lo hi.
Proof.
  unfold normalizePortRange, render_range, range_of.
  destruct (match_range (trim value)) as [[m1 m2]|]; [|naive_solver]. cbn [fst snd].
  set (lo := Number_digits m1). set (hi := match m2 with None => lo | Some e => Number_digits e end).
  destruct ((lo <? 1)%N || (65535 <? lo)%N || (hi <? lo)%N || (65535 <? hi)%N) eqn:E.
  - split; [done|]. intros (m & [= <-] & H1 & H2 & _). cbn [fst snd] in *. fold lo hi in H1, H2.
    rewrite !orb_true_iff, !N.ltb_lt in E. lia.
  - rewrite !orb_false_iff, !N.ltb_ge in E. split.
    + intros [= <-]. eexists. split; [reflexivity|]. cbn [fst snd]. fold lo hi. repeat split; lia.
    + intros (m & [= <-] & _ & _ & ->). done.
Qed.

Lemma normalize_reads value r :
  normalizePortRange value = Some r <->
  exists lo hi, (1 <= lo <= hi)%N /\ (hi <= 65535)%N /\ reads_range (trim value) lo hi /\ r = render_range lo hi.
Proof.
  rewrite normalize_cases. split.
  - intros (m & Hm & H). destruct (range_of m) as [lo hi] eqn:E. destruct H as (H1 & H2 & ->).
    exists lo, hi. repeat split; try lia. apply match_range_reads; [lia..|]. eauto.
  - intros (lo & hi & H1 & H2 & Hr & ->). apply match_range_reads in Hr as (m & Hm & E); [|lia..].
    exists m. rewrite E. auto.
Qed.

Lemma render_reads lo hi : reads_range (render_range lo hi) lo hi.
Proof.
  unfold render_range, reads_range. exists (dec lo).
  split; [auto with panel|]. split; [apply dec_digits|]. split; [apply digits_val_dec|].
  destruct (N.eqb_spec lo hi) as [->|]; [by left|]. right. exists 45%N, (dec hi).
  repeat split; auto with panel; [apply dec_digits|apply digits_val_dec].
Qed.

Lemma render_trim lo hi : trim (render_range lo hi) = render_range lo hi.
Proof.
  apply trim_id, no_ws_ends_all, Forall_elem. intros c Hc. unfold render_range in Hc.
  assert (Hd : forall n, c ∈ dec n -> is_ws c = false) by (intros n ?%dec_elem; by apply digit_no_ws).
  destruct (lo =? hi)%N; [by apply (Hd lo)|]. rewrite !elem_of_app in Hc.
  destruct Hc as [?|[->%list_elem_of_singleton|?]]; [by apply (Hd lo)|done|by apply (Hd hi)].
Qed.

(** normalizePortRange accepts exactly one numeral, or two with a colon or a
    dash between, of ports in ascending order from 1 to 65535; it returns the
    range in canonical form, which it leaves unchanged when given it again. *)
Theorem normalizePortRange_spec value r :
  (normalizePortRange value = Some r <->
   exists lo hi, (1 <= lo <= hi)%N /\ (hi <= 65535)%N /\ reads_range (trim value) lo hi /\
     r = render_range lo hi) /\
  (isValidPortRange value = true <-> is_Some (normalizePortRange value)) /\
  (normalizePortRange value = Some r -> normalizePortRange r = Some r).
Proof.
  split; [apply normalize_reads|]. split.
  { unfold isValidPortRange, is_Some. destruct (normalizePortRange value); naive_solver. }
  rewrite !normalize_reads. intros (lo & hi & H1 & H2 & _ & ->). exists lo, hi.
  rewrite render_trim. eauto using render_reads.
Qed.

Lemma normalizePortRange_spec_witness :
  normalizePortRange (js " 0080-8080") = Some (js "80-8080") /\
  normalizePortRange (js "80-8080") = Some (js "80-8080").
Proof.
  assert (H : normalizePortRange (js " 0080-8080") = Some (js "80-8080")) by (vm_compute; reflexivity).
  split; [exact H|]. exact (proj2 (proj2 (normalizePortRange_spec (js " 0080-8080") (js "80-8080"))) H).
Defined.

(** ** Tags *)

(** [x] is a word of [v]: a non-empty run without separators, bounded by
    separators or by the ends of [v]. *)
Definition is_word (sep : N -> bool) (x v : jsstr) : Prop :=
  clean_word sep x /\ exists a b, v = a ++ x ++ b /\
    match rev a with [] => True | c :: _ => sep c = true end /\
    match b with [] => True | c :: _ => sep c = true end.

Lemma last_sep_nil (sep : N -> bool) a :
  match rev a with [] => True | c :: _ => sep c = true end ->
  Forall (fun c => sep c = false) a -> a = [].
Proof.
  intros H Ha. destruct a as [|c a _] using rev_ind; [done|]. rewrite rev_app_distr in H.
  apply Forall_app in Ha as [_ Ha]. apply Forall_cons_1 in Ha as [Ha _]. simpl in H. congruence.
Qed.

(** The words of [w ++ c :: s], for a separator [c] after a clean run [w]. *)
Lemma is_word_sep sep x w c s :
  Forall (fun c => sep c = false) w -> sep c = true ->
  is_word sep x (w ++ c :: s) <-> (w <> [] /\ x = w) \/ is_word sep x s.
Proof.
  intros Hw Hc. split.
  - intros [[Hx Hcl] (a & b & E & Ha & Hb)]. apply app_eq_inv in E as [(k & -> & E)|(k & -> & E)].
    + apply Forall_app in Hw as [Hwa Hwk]. apply last_sep_nil in Ha; [|done]. subst a. left.
      symmetry in E. apply app_eq_inv in E as [(k' & -> & E)|(k' & -> & E)].
      * destruct k' as [|d k']; [by rewrite app_nil_r|]. subst b. cbn [app] in Hb.
        apply Forall_app in Hwk as [_ Hwk]. apply Forall_cons_1 in Hwk as [Hwk _]. congruence.
      * destruct k' as [|d k']; [by rewrite app_nil_r in *|]. cbn [app] in E. injection E as <- _.
        apply Forall_app in Hcl as [_ Hcl]. apply Forall_cons_1 in Hcl as [Hcl _]. congruence.
    + destruct k as [|d k]; cbn [app] in E.
      * destruct x as [|e x]; [done|]. injection E as <- _. apply Forall_cons_1 in Hcl as [Hcl _]. congruence.
      * injection E as <- ->. right. split; [done|]. exists k, b. split; [done|]. split; [|done].
        rewrite rev_app_distr in Ha. cbn [rev] in Ha. by destruct (rev k).
  - intros [[Hne ->]|[Hcl (a & b & -> & Ha & Hb)]].
    + split; [done|]. exists [], (c :: s). by split.
    + split; [done|]. exists (w ++ c :: a), b. split; [by rewrite <- app_assoc|]. split; [|done].
      rewrite rev_app_distr. cbn [rev]. by destruct (rev a).
Qed.

Lemma is_word_clean sep x w :
  Forall (fun c => sep c = false) w -> is_word sep x w <-> w <> [] /\ x = w.
Proof.
  intros Hw. split.
  - intros [[Hx Hcl] (a & b & -> & Ha & Hb)]. apply Forall_app in Hw as [Hwa Hw].
    apply last_sep_nil in Ha; [|done]. subst a. destruct b as [|d b]; [by rewrite app_nil_r|].
    apply Forall_app in Hw as [_ Hw]. apply Forall_cons_1 in Hw as [Hw _]. congruence.
  - intros [Hne ->]. split; [done|]. exists [], []. by rewrite app_nil_r.
Qed.

Lemma words_spec sep x s : x ∈ words sep s <-> is_word sep x s.
Proof.
  assert (H : forall s acc, Forall (fun c => sep c = false) acc ->
    x ∈ words_go sep s acc <-> is_word sep x (rev acc ++ s)).
  { clear s. induction s as [|c s IH]; intros acc Hacc.
    - rewrite app_nil_r, is_word_clean by by apply Forall_rev. cbn [words_go].
      destruct acc as [|d acc]; [rewrite elem_of_nil; naive_solver|].
      rewrite list_elem_of_singleton. split; [|tauto]. intros ->. split; [|done].
      intros E. apply app_eq_nil in E as [_ ?]. done.
    - cbn [words_go]. destruct (sep c) eqn:Ec.
      + rewrite is_word_sep by (done || by apply Forall_rev). rewrite elem_of_app, (IH []) by done.
        destruct acc as [|d acc]; [rewrite elem_of_nil; naive_solver|].
        rewrite list_elem_of_singleton. split; [|tauto]. intros [->|?]; [left|by right]. split; [|done].
        intros E. apply app_eq_nil in E as [_ ?]. done.
      + rewrite IH by (by constructor). cbn [rev]. by rewrite <- app_assoc. }
  by apply (H s []).
Qed.

Lemma clean_trim w : clean_word tag_sep w -> trim w = w.
Proof.
  intros [_ H]. apply trim_id, no_ws_ends_all. eapply Forall_impl; [|exact H].
  intros c Hc. unfold tag_sep in Hc. rewrite !orb_false_iff in Hc. tauto.
Qed.

(** The pieces are already trimmed: what remains are the words of the values. *)
Lemma tags_words values :
  List.filter truthy (List.map trim (flat_map (split_runs tag_sep) values)) = flat_map (words tag_sep) values.
Proof.
  assert (Hpiece : forall s skip acc, Forall (fun c => tag_sep c = false) acc ->
    Forall (fun w => Forall (fun c => tag_sep c = false) w) (split_runs_go tag_sep s skip acc)).
  { induction s as [|c s IH]; intros skip acc Hacc; cbn [split_runs_go].
    - repeat constructor. by apply Forall_rev.
    - destruct (tag_sep c) eqn:Ec; [destruct skip; [by apply IH|constructor; [by apply Forall_rev|by apply IH]]|].
      apply IH. by constructor. }
  assert (Htrim : forall w, Forall (fun c => tag_sep c = false) w -> trim w = w).
  { intros [|c w] H; [done|]. by apply clean_trim. }
  induction values as [|v values IH]; [done|]. cbn [flat_map].
  rewrite List.map_app, List.filter_app, IH, <- split_runs_words. f_equal. f_equal.
  assert (H := Hpiece v false [] (Forall_nil_2 _)). change (split_runs_go tag_sep v false []) with (split_runs tag_sep v) in H.
  induction H as [|w l Hw Hl IHl]; [done|]. cbn [List.map]. by rewrite (Htrim w), IHl.
Qed.

(** splitTagValues lists exactly the words of its values, each once; splitting
    the tags joined with a comma, or the tags themselves, gives them back. *)
Theorem splitTagValues_spec values :
  let tags := splitTagValues values in
  NoDup tags /\
  (forall x, x ∈ tags <-> exists v, v ∈ values /\ is_word tag_sep x v) /\
  splitTagValues [join (js ",") tags] = tags /\
  splitTagValues tags = tags.
Proof.
  cbn zeta. unfold splitTagValues. rewrite !tags_words.
  set (tags := spread_set (flat_map (words tag_sep) values)).
  assert (Hnd : NoDup tags) by apply spread_set_NoDup.
  assert (Hin : forall x, x ∈ tags <-> exists v, v ∈ values /\ is_word tag_sep x v).
  { intros x. subst tags. rewrite spread_set_elem, elem_of_flat_map. by setoid_rewrite words_spec. }
  assert (Hcl : Forall (clean_word tag_sep) tags).
  { apply Forall_elem. intros x Hx. apply Hin in Hx as (v & _ & [H _]). done. }
  split; [done|]. split; [done|]. split.
  - cbn [flat_map]. rewrite app_nil_r, words_join by (done || by repeat constructor). by apply spread_set_id.
  - assert (flat_map (words tag_sep) tags = tags) as ->; [|by apply spread_set_id].
    clear -Hcl. induction Hcl as [|w l Hw _ IH]; [done|]. cbn [flat_map]. by rewrite words_one, IH.
Qed.
