(* ===== verification/WhiteList.v ===== *)
(** * The white list of firewall ports

    src/frontend/src/views/host/firewall/setting/white-list/model.ts.  A rule comes
    as text or as a JSON value whose members may be missing or of another type: a
    missing member and one that is no string both make the normalisation throw,
    which is [None]. *)

From S2P Require Import Prelude JsString Splitting Uri Json Firewall.

#[local] Open Scope list_scope.

Section Rules.
Context {JU : JsUnicode}.

(** A rule as it comes in: its string members. *)
Record Raw := { r_family : option jsstr; r_protocol : option jsstr; r_port : option jsstr }.

Record WhiteListRule := { family : jsstr; protocol : jsstr; port : jsstr }.
#[export] Instance WhiteListRule_eq_dec : EqDecision WhiteListRule.
Proof. solve_decision. Defined.

Definition raw_of (r : WhiteListRule) : Raw :=
  {| r_family := Some r.(family); r_protocol := Some r.(protocol); r_port := Some r.(port) |}.

Definition families : list jsstr := [js "ipv4"; js "ipv6"].
Definition protocols : list jsstr := [js "tcp"; js "udp"].

Definition normalizeWhiteListRule (rule : Raw) : option WhiteListRule :=
  f ← toLowerCase <$> rule.(r_family);
  p ← toLowerCase <$> rule.(r_protocol);
  if negb (memb f families) || negb (memb p protocols) then None
  else
    t ← rule.(r_port);
    port ← normalizePortRange t;
    Some {| family := f; protocol := p; port := port |}.

Definition whiteListRuleKey (rule : WhiteListRule) : option jsstr :=
  n ← normalizeWhiteListRule (raw_of rule);
  Some (n.(family) ++ js "/" ++ n.(protocol) ++ js "/" ++ n.(port)).

(** ** Reading *)

(** [\s,;] *)
Definition rule_sep (c : N) : bool := is_ws c || (c =? 44)%N || (c =? 59)%N.

Definition rule_of_text (item : jsstr) : Raw :=
  let parts := split 47 item in
  match parts with
  | [a; b; c] => {| r_family := Some a; r_port := Some b; r_protocol := Some c |}
  | _ =>
      {| r_family := Some (js "ipv4"); r_port := parts !! 0;
         r_protocol := Some (match parts !! 1 with
                             | Some p => if truthy p then p else js "tcp"
                             | None => js "tcp"
                             end) |}
  end.

Definition string_of (v : json) : option jsstr := match v with JStr s => Some s | _ => None end.
Definition rule_of_json (v : json) : Raw :=
  let f k := member (js k) v ≫= string_of in
  {| r_family := f "family"%string; r_protocol := f "protocol"%string; r_port := f "port"%string |}.

(** The loop over the rules; [seen] is the set of keys. *)
Fixpoint collect (seen : list jsstr) (rules : list Raw) : option (list WhiteListRule) :=
  match rules with
  | [] => Some []
  | item :: rules' =>
      rule ← normalizeWhiteListRule item;
      key ← whiteListRuleKey rule;
      if memb key seen then collect seen rules'
      else cons rule <$> collect (key :: seen) rules'
  end.

(** The value is absent when the setting is; a text that starts with a bracket is
    JSON, and a JSON value that starts so is an array. *)
Definition parseWhiteList (value : option jsstr) : option (list WhiteListRule) :=
  let input := default [] (trim <$> value) in
  if negb (truthy input) then Some []
  else if startsWith input (js "[") then
    match parse input with
    | Some (JArr l) => collect [] (List.map rule_of_json l)
    | _ => None
    end
  else collect [] (List.map rule_of_text (List.filter truthy (split_runs rule_sep input))).

(** ** Writing *)

Definition rule_json (r : WhiteListRule) : json :=
  JObj [(js "family", JStr r.(family)); (js "protocol", JStr r.(protocol)); (js "port", JStr r.(port))].

Definition serializeWhiteList (rules : list WhiteListRule) : option jsstr :=
  ns ← mapM (fun r => normalizeWhiteListRule (raw_of r)) rules;
  Some (stringify (JArr (List.map rule_json ns))).

Definition whiteListRuleCount (value : option jsstr) : nat :=
  match parseWhiteList value with Some l => length l | None => 0 end.
End Rules.

Example parse_text : parseWhiteList (Some (js " 22, 80/TCP;ipv6/8080-9090/udp ipv4/80/tcp")) =
  Some [ {| family := js "ipv4"; protocol := js "tcp"; port := js "22" |};
         {| family := js "ipv4"; protocol := js "tcp"; port := js "80" |};
         {| family := js "ipv6"; protocol := js "udp"; port := js "8080-9090" |} ].
Proof. vm_compute. reflexivity. Qed.
Example parse_wrong : parseWhiteList (Some (js "22 99999")) = None.
Proof. vm_compute. reflexivity. Qed.

(** ** Normal rules *)

Section Laws.
Context {JU : JsUnicode}.

Definition normal (r : WhiteListRule) : Prop := normalizeWhiteListRule (raw_of r) = Some r.

Lemma lower_word w : w ∈ families ++ protocols -> toLowerCase w = w.
Proof.
  intros Hw. rewrite list_elem_of_In in Hw.
  repeat (destruct Hw as [<-|Hw]; [by rewrite toLowerCase_ascii|]). done.
Qed.

(** A range keeps its form, and is made of digits and dashes. *)
Lemma port_idem t p : normalizePortRange t = Some p -> normalizePortRange p = Some p.
Proof.
  rewrite !normalize_reads. intros (lo & hi & H1 & H2 & _ & ->). exists lo, hi.
  rewrite render_trim. eauto using render_reads.
Qed.

Lemma port_units t p c : normalizePortRange t = Some p -> c ∈ p -> (45 <= c <= 57)%N /\ c <> 47%N.
Proof.
  rewrite normalize_reads. intros (lo & hi & _ & _ & _ & ->). unfold render_range.
  assert (Hd : forall n, c ∈ dec n -> (45 <= c <= 57)%N /\ c <> 47%N) by (intros n ?%dec_elem; lia).
  case_match; [apply Hd|]. rewrite !elem_of_app, list_elem_of_singleton.
  intros [?|[->|?]]; [by apply (Hd lo)|lia|by apply (Hd hi)].
Qed.

Lemma normalize_inv i r : normalizeWhiteListRule i = Some r ->
  r.(family) ∈ families /\ r.(protocol) ∈ protocols /\ exists t, i.(r_port) = Some t /\
  normalizePortRange t = Some r.(port).
Proof.
  unfold normalizeWhiteListRule. destruct (r_family i) as [f|]; [|done]. destruct (r_protocol i) as [p|]; [|done].
  cbn [fmap option_fmap option_map mbind option_bind].
  destruct (memb (toLowerCase f) families) eqn:Ef; [|done]. destruct (memb (toLowerCase p) protocols) eqn:Ep; [|done].
  cbn [negb orb]. destruct (r_port i) as [t|]; [|done]. cbn [mbind option_bind].
  destruct (normalizePortRange t) as [q|] eqn:Eq; [|done]. intros [= <-]. bool_prop. cbn. eauto.
Qed.

Lemma normal_spec r : normal r <->
  r.(family) ∈ families /\ r.(protocol) ∈ protocols /\ normalizePortRange r.(port) = Some r.(port).
Proof.
  split.
  - intros H. apply normalize_inv in H as (Hf & Hp & t & [= <-] & Ht). done.
  - intros (Hf & Hp & Ht). unfold normal, normalizeWhiteListRule.
    cbn [raw_of r_family r_protocol r_port fmap option_fmap option_map mbind option_bind].
    rewrite !lower_word by (rewrite elem_of_app; tauto).
    apply memb_elem in Hf as ->. apply memb_elem in Hp as ->. cbn [negb orb mbind option_bind].
    rewrite Ht. by destruct r.
Qed.

Lemma normalize_normal i r : normalizeWhiteListRule i = Some r -> normal r.
Proof.
  intros (Hf & Hp & t & _ & Ht)%normalize_inv. apply normal_spec. split_and!; [done..|].
  by apply (port_idem t).
Qed.

Definition key_text (r : WhiteListRule) : jsstr := r.(family) ++ js "/" ++ r.(protocol) ++ js "/" ++ r.(port).

Lemma normal_key r : normal r -> whiteListRuleKey r = Some (key_text r).
Proof. intros H. unfold whiteListRuleKey. by rewrite H. Qed.

Lemma word_no_slash w : w ∈ families ++ protocols -> 47%N ∉ w.
Proof.
  intros Hw. rewrite list_elem_of_In in Hw. apply has_unit_false.
  repeat (destruct Hw as [<-|Hw]; [reflexivity|]). done.
Qed.

(** The key tells normal rules apart. *)
Lemma key_text_split r : normal r -> split 47 (key_text r) = [r.(family); r.(protocol); r.(port)].
Proof.
  intros (Hf & Hp & Ht)%normal_spec. unfold key_text. change (js "/") with [47%N]. cbn [app].
  rewrite !split_app by (apply word_no_slash; rewrite elem_of_app; tauto).
  rewrite split_no_sep; [done|]. intros H. eapply port_units in H as [_ H]; [done|exact Ht].
Qed.

Lemma key_text_inj r r' : normal r -> normal r' -> key_text r = key_text r' -> r = r'.
Proof.
  intros H H' E. pose proof (key_text_split r H) as E1. rewrite E, key_text_split in E1 by done.
  destruct r, r'. cbn in E1. by injection E1 as -> -> ->.
Qed.

Lemma mapM_normal items ns : mapM normalizeWhiteListRule items = Some ns -> Forall normal ns.
Proof.
  intros H%mapM_Some. induction H as [|i n items ns Hn _ IH]; constructor; [by apply (normalize_normal i)|done].
Qed.

(** What the loop returns. *)
Lemma collect_spec seen items rs : collect seen items = Some rs ->
  Forall normal rs /\ NoDup (List.map key_text rs) /\
  exists ns, mapM normalizeWhiteListRule items = Some ns /\
    forall r, r ∈ rs <-> r ∈ ns /\ key_text r ∉ seen.
Proof.
  revert seen rs. induction items as [|i items IH]; intros seen rs; cbn [collect].
  { intros [= <-]. split_and!; [constructor..|]. exists []. split; [done|].
    intros r. rewrite !elem_of_nil. naive_solver. }
  destruct (normalizeWhiteListRule i) as [n|] eqn:En; [|done]. pose proof (normalize_normal i n En) as Hn.
  cbn [mbind option_bind]. rewrite normal_key by done. cbn [mbind option_bind].
  assert (Hm : forall ns, mapM normalizeWhiteListRule items = Some ns ->
    mapM normalizeWhiteListRule (i :: items) = Some (n :: ns)) by (intros ns E; cbn; by rewrite En, E).
  destruct (memb (key_text n) seen) eqn:Ek; bool_prop.
  - intros (H1 & H2 & ns & H4 & H5)%IH. split_and!; [done..|]. exists (n :: ns). split; [by apply Hm|].
    intros r. rewrite H5, elem_of_cons. naive_solver.
  - destruct (collect _ items) as [l|] eqn:E; [|done]. intros [= <-].
    apply IH in E as (H1 & H2 & ns & H4 & H5).
    assert (Hnot : key_text n ∉ List.map key_text l).
    { intros (r & Er & Hr)%elem_map. apply H5 in Hr as [_ Hr]. apply Hr. rewrite <- Er. by left. }
    split_and!; [by constructor|by constructor|]. exists (n :: ns). split; [by apply Hm|].
    pose proof (mapM_normal _ _ H4) as Hns. rewrite Forall_elem in Hns.
    intros r. rewrite !elem_of_cons, H5, elem_of_cons.
    destruct (decide (r = n)) as [->|Hne]; [naive_solver|].
    assert (Hk : r ∈ ns -> key_text r <> key_text n) by (intros Hr Heq; by apply Hne, key_text_inj; [apply Hns| |]).
    naive_solver.
Qed.

(** Rules that are normal and distinct go through the loop unchanged. *)
Lemma collect_normal seen rs :
  Forall normal rs -> NoDup (List.map key_text rs) -> (forall k, k ∈ seen -> k ∉ List.map key_text rs) ->
  collect seen (List.map raw_of rs) = Some rs.
Proof.
  intros H. revert seen. induction H as [|r rs Hr _ IH]; intros seen Hnd Hs; [done|].
  cbn [List.map collect]. rewrite Hr. cbn [mbind option_bind]. rewrite normal_key by done. cbn [mbind option_bind].
  apply list.NoDup_cons in Hnd as [Hn Hnd].
  assert (memb (key_text r) seen = false) as -> by (apply memb_not_elem; intros Hk; apply (Hs _ Hk); by left).
  rewrite IH; [done..|]. intros k [->|Hk]%elem_of_cons; [done|].
  intros Hin. apply (Hs k Hk). by right.
Qed.

Lemma rule_json_raw r : rule_of_json (rule_json r) = raw_of r.
Proof. reflexivity. Qed.

Lemma normal_units r c : normal r -> c ∈ r.(family) ++ r.(protocol) ++ r.(port) -> unit16 c.
Proof.
  intros (Hf & Hp & Ht)%normal_spec. rewrite !elem_of_app.
  assert (Hw : forall w, w ∈ families ++ protocols -> c ∈ w -> unit16 c).
  { intros w Hw Hc. assert (Ha : is_ascii w = true).
    { rewrite list_elem_of_In in Hw. repeat (destruct Hw as [<-|Hw]; [reflexivity|]). done. }
    unfold is_ascii in Ha. rewrite forallb_elem in Ha. apply Ha in Hc. apply N.ltb_lt in Hc. unfold unit16. lia. }
  intros [Hc|[Hc|Hc]]; [apply (Hw r.(family)); [apply elem_of_app; tauto|done]|
    apply (Hw r.(protocol)); [apply elem_of_app; tauto|done]|].
  eapply port_units in Hc; [|exact Ht]. unfold unit16. lia.
Qed.

Lemma rules_writable rs : Forall normal rs -> writable (JArr (List.map rule_json rs)).
Proof.
  intros H. constructor. apply Forall_elem. intros v (r & -> & Hr)%elem_map.
  rewrite Forall_elem in H. specialize (H r Hr).
  assert (Hu : forall s, (forall c, c ∈ s -> c ∈ r.(family) ++ r.(protocol) ++ r.(port)) -> Forall unit16 s).
  { intros s Hs. apply Forall_elem. intros c Hc. apply (normal_units r); auto. }
  constructor.
  - change (NoDup [js "family"; js "protocol"; js "port"]). refine (bool_decide_unpack _ _). by vm_compute.
  - repeat constructor.
  - repeat constructor; apply Hu; intros c; rewrite !elem_of_app; tauto.
Qed.

Lemma serialize_normal rs : Forall normal rs ->
  serializeWhiteList rs = Some (stringify (JArr (List.map rule_json rs))).
Proof.
  intros H. unfold serializeWhiteList.
  assert (mapM (fun r => normalizeWhiteListRule (raw_of r)) rs = Some rs) as ->; [|done].
  apply mapM_Some. induction H; by constructor.
Qed.

Lemma parse_stringified rs : Forall normal rs -> NoDup (List.map key_text rs) ->
  parseWhiteList (Some (stringify (JArr (List.map rule_json rs)))) = Some rs.
Proof.
  intros H Hnd. set (t := stringify _).
  assert (Ht : t = 91%N :: join (js ",") (List.map stringify (List.map rule_json rs)) ++ [93%N]) by reflexivity.
  assert (Etrim : trim t = t).
  { apply trim_id. unfold no_ws_ends. rewrite Ht. split; [done|]. cbn [rev]. by rewrite rev_app_distr. }
  unfold parseWhiteList. change (default [] (trim <$> Some t)) with (trim t). rewrite Etrim. cbv zeta.
  assert (truthy t = true) as -> by by rewrite Ht. assert (startsWith t (js "[") = true) as -> by by rewrite Ht.
  cbn [negb]. unfold t. rewrite json_roundtrip by by apply rules_writable.
  rewrite List.map_map. erewrite List.map_ext; [|intros; apply rule_json_raw].
  apply collect_normal; [done..|]. intros k Hk. inversion Hk.
Qed.

Lemma parse_collects value rs : parseWhiteList value = Some rs ->
  exists items, collect [] items = Some rs.
Proof.
  unfold parseWhiteList. destruct (negb _); [intros [= <-]; by exists []|].
  destruct (startsWith _ _); [|eauto]. destruct (parse _) as [[]|]; try done. eauto.
Qed.

Lemma parse_normal value rs : parseWhiteList value = Some rs ->
  Forall normal rs /\ NoDup (List.map key_text rs).
Proof. intros (items & Hi)%parse_collects. apply collect_spec in Hi as (H1 & H2 & _). done. Qed.

(** Every rule a white list yields has a known family and protocol and a
    canonical port or range from 1 to 65535, and no rule appears twice. *)
Theorem parseWhiteList_typed value rs : parseWhiteList value = Some rs ->
  NoDup rs /\ forall r, r ∈ rs ->
    (r.(family) = js "ipv4" \/ r.(family) = js "ipv6") /\
    (r.(protocol) = js "tcp" \/ r.(protocol) = js "udp") /\
    exists lo hi, (1 <= lo <= hi)%N /\ (hi <= 65535)%N /\ r.(port) = render_range lo hi.
Proof.
  intros (Hn & Hk)%parse_normal. split; [by apply (NoDup_fmap_1 key_text)|].
  intros r Hr. rewrite Forall_elem in Hn. apply Hn, normal_spec in Hr as (Hf & Hp & Ht).
  apply normalize_reads in Ht as (lo & hi & H1 & H2 & _ & H3). unfold families, protocols in *.
  rewrite !elem_of_cons, elem_of_nil in Hf, Hp. split; [tauto|]. split; [tauto|]. eauto.
Qed.

(** C28. A white list that was read can be written, and reads back as the same
    rules in the same order. *)
Theorem white_list_roundtrip value rs : parseWhiteList value = Some rs ->
  exists text, serializeWhiteList rs = Some text /\ parseWhiteList (Some text) = Some rs /\
    whiteListRuleCount (Some text) = length rs.
Proof.
  intros (Hn & Hk)%parse_normal. exists (stringify (JArr (List.map rule_json rs))).
  split; [by apply serialize_normal|]. unfold whiteListRuleCount. by rewrite parse_stringified.
Qed.
End Laws.

Lemma parseWhiteList_typed_witness :
  NoDup [ {| family := js "ipv6"; protocol := js "tcp"; port := js "80-90" |} ] /\
  forall r, r ∈ [ {| family := js "ipv6"; protocol := js "tcp"; port := js "80-90" |} ] ->
    (r.(family) = js "ipv4" \/ r.(family) = js "ipv6") /\
    (r.(protocol) = js "tcp" \/ r.(protocol) = js "udp") /\
    exists lo hi, (1 <= lo <= hi)%N /\ (hi <= 65535)%N /\ r.(port) = render_range lo hi.
Proof. apply (parseWhiteList_typed (Some (js "IPv6/080:90/TCP"))). vm_compute. reflexivity. Defined.

Lemma white_list_roundtrip_witness :
  exists text, serializeWhiteList [ {| family := js "ipv4"; protocol := js "tcp"; port := js "22" |} ] = Some text /\
    parseWhiteList (Some text) = Some [ {| family := js "ipv4"; protocol := js "tcp"; port := js "22" |} ] /\
    whiteListRuleCount (Some text) = 1.
Proof. apply (white_list_roundtrip (Some (js "22"))). vm_compute. reflexivity. Defined.
