(* ===== verification/DockerGuard.v ===== *)
(** * Docker guard policies

    src/frontend/src/views/host/firewall/docker/model.ts.  A policy to import is any
    JSON value; the normalisation checks its members one by one and answers
    undefined ([None]) at the first that fails.  Messages are translation keys with
    their arguments. *)

From S2P Require Import Prelude JsString Splitting Numbers Json Firewall.

#[local] Open Scope list_scope.

(** ** Endpoints *)

Record DockerGuardFamilyStatus := { reason : option jsstr; fs_initialized : bool; fs_bound : bool }.
Record DockerGuardBase := { base_ipv4 : DockerGuardFamilyStatus; base_ipv6 : DockerGuardFamilyStatus; backend : jsstr }.

Record DockerGuardEndpoint := {
  family : jsstr; hostIP : jsstr; hostPort : N; protocol : jsstr;
  containerState : option jsstr; policyUUID : option jsstr; effective : bool;
  trafficPath : jsstr; managementTarget : option jsstr; managementReason : option jsstr;
}.

(** A present and non-empty string. *)
Definition given (o : option jsstr) : bool := match o with Some s => truthy s | None => false end.

Definition dockerGuardEndpointKey (e : DockerGuardEndpoint) : jsstr :=
  e.(family) ++ js "|" ++ e.(hostIP) ++ js "|" ++ dec e.(hostPort) ++ js "|" ++ e.(protocol).

Definition isDockerGuardRuntimeEndpoint (e : DockerGuardEndpoint) : bool :=
  negb (given e.(containerState)) ||
  memb (default [] e.(containerState)) [js "running"; js "paused"; js "restarting"].

Definition dockerGuardManagementTarget (e : DockerGuardEndpoint) : jsstr :=
  if given e.(managementTarget) then default [] e.(managementTarget)
  else if e.(trafficPath) === js "forward" then js "container_guard"
  else if e.(trafficPath) === js "input" then js "host_firewall"
  else js "needs_diagnosis".

#[local] Set Warnings "-register-all".

(** A translated text, with arguments that may be translated themselves. *)
Inductive message := Empty | Key (k : jsstr) (args : list message) | Plain (s : jsstr).

Definition dockerGuardEndpointManagementMessage (e : DockerGuardEndpoint) : message :=
  if given e.(managementReason)
  then Key (js "firewall.dockerTrafficPathReason." ++ default [] e.(managementReason)) []
  else Key (js "firewall.dockerTrafficPathUnknown") [].

Definition isValidDockerGuardSource (f : FirewallAddressFamily) (value : jsstr) : bool :=
  isValidAddressForFamily f value true.

Definition dockerGuardFamilyStatusMessage (base : DockerGuardBase) (fam : jsstr) (status : DockerGuardFamilyStatus)
    : message :=
  if given status.(reason)
  then Key (js "firewall.dockerGuardStatusReason." ++ default [] status.(reason)) [Plain fam]
  else
    let state := Key (if negb status.(fs_initialized) then js "firewall.notInitialized"
                      else if negb status.(fs_bound) then js "commons.status.unbind"
                      else js "firewall.notEffective") [] in
    let chainName := if base.(backend) === js "nftables" then js "NFT_1PANEL_DOCKER" else js "1PANEL_DOCKER" in
    Key (js "firewall.familyChainIssue") [Plain fam; Plain chainName; state].

Definition dockerGuardEndpointStatusMessage (base : DockerGuardBase) (e : DockerGuardEndpoint) : message :=
  if negb (given e.(policyUUID)) || e.(effective) then Empty
  else
    let target := dockerGuardManagementTarget e in
    if target === js "host_firewall" then Key (js "firewall.dockerInputPolicyNotEffective") []
    else if target === js "needs_diagnosis" then dockerGuardEndpointManagementMessage e
    else
      let is6 := e.(family) === js "ipv6" in
      dockerGuardFamilyStatusMessage base (if is6 then js "IPv6" else js "IPv4")
        (if is6 then base.(base_ipv6) else base.(base_ipv4)).

(** ** Policies *)

Section Policies.
Context {JN : JsNumber} {JI : JsInteger}.

(** String(v), with [None] for undefined: an array joins its elements, null and
    undefined elements being empty. *)
Fixpoint String_json (v : json) : jsstr :=
  match v with
  | JNull => js "null"
  | JBool true => js "true"
  | JBool false => js "false"
  | JNum d => String_num (Number d)
  | JStr s => s
  | JArr l => join (js ",") (List.map (fun x => match x with JNull => [] | _ => String_json x end) l)
  | JObj _ => js "[object Object]"
  end.
Definition String_member (v : option json) : jsstr :=
  match v with Some x => String_json x | None => js "undefined" end.

(** The members that are checked by their text are kept as they came. *)
Record DockerGuardPolicy := {
  p_family : json; p_hostIP : jsstr; p_hostPort : num; p_protocol : json; p_mode : json;
  p_sources : list jsstr; p_description : jsstr;
}.

(** The family as an argument of the address check: anything but the string is
    different from every family. *)
Definition family_of (v : option json) : option FirewallAddressFamily :=
  match v with
  | Some (JStr s) => if s === js "ipv4" then Some ipv4 else if s === js "ipv6" then Some ipv6 else None
  | _ => None
  end.
Definition valid_for (f : option FirewallAddressFamily) (value : jsstr) (allowCIDR : bool) : bool :=
  match f with Some f => isValidAddressForFamily f value allowCIDR | None => false end.

Definition is_string (v : json) : option jsstr := match v with JStr s => Some s | _ => None end.
Definition is_mode (v : option json) (s : string) : bool :=
  match v with Some (JStr m) => m === js s | _ => false end.

Definition modes : list jsstr := [js "deny_sources"; js "allow_sources"; js "deny_all"].

(** The checks on the members of an object. *)
Definition normalize_members (policy : string -> option json) : option DockerGuardPolicy :=
  if negb (memb (String_member (policy "family"%string)) [js "ipv4"; js "ipv6"]) then None
  else if negb (memb (String_member (policy "protocol"%string)) [js "tcp"; js "udp"]) then None
  else if negb (memb (String_member (policy "mode"%string)) modes) then None
  else
    match policy "hostIP"%string, policy "hostPort"%string with
    | Some (JStr hostIP), Some (JNum d) =>
        let hostPort := Number d in
        if negb (isInteger hostPort) then None
        else if num_lt hostPort (int 1) || num_lt (int 65535) hostPort then None
        else
          let f := family_of (policy "family"%string) in
          if negb (valid_for f hostIP false) then None
          else
            match policy "sources"%string with
            | Some (JArr l) =>
                match mapM is_string l with
                | None => None
                | Some given_sources =>
                    let sources := List.filter truthy (List.map trim given_sources) in
                    let deny_all := is_mode (policy "mode"%string) "deny_all" in
                    if negb deny_all && (length sources =? 0) then None
                    else if negb deny_all && negb (forallb (fun s => valid_for f s true) sources) then None
                    else
                      match policy "description"%string with
                      | None | Some (JStr _) =>
                          Some {| p_family := default JNull (policy "family"%string);
                                  p_hostIP := hostIP; p_hostPort := hostPort;
                                  p_protocol := default JNull (policy "protocol"%string);
                                  p_mode := default JNull (policy "mode"%string);
                                  p_sources := if deny_all then [] else spread_set sources;
                                  p_description := trim (default [] (policy "description"%string ≫= is_string)) |}
                      | Some _ => None
                      end
                end
            | _ => None
            end
    | _, _ => None
    end.

(** An array is an object without these members. *)
Definition normalizeDockerGuardPolicy (value : json) : option DockerGuardPolicy :=
  match value with
  | JArr _ | JObj _ => normalize_members (fun k => member (js k) value)
  | _ => None
  end.

(** The policy as a JSON value, to be written or sent. *)
Definition policy_json (p : DockerGuardPolicy) : json :=
  JObj [ (js "family", p.(p_family)); (js "hostIP", JStr p.(p_hostIP));
         (js "hostPort", JNum (String_num p.(p_hostPort))); (js "protocol", p.(p_protocol));
         (js "mode", p.(p_mode)); (js "sources", JArr (List.map JStr p.(p_sources)));
         (js "description", JStr p.(p_description)) ].
End Policies.

(** ** Properties *)

Section Laws.
Context {JN : JsNumber} {JI : JsInteger}.

Definition family_text (f : FirewallAddressFamily) : jsstr :=
  match f with ipv4 => js "ipv4" | ipv6 => js "ipv6" | inet => js "inet" end.

Lemma family_of_spec v f : family_of v = Some f -> v = Some (JStr (family_text f)) /\ f <> inet.
Proof.
  unfold family_of. destruct v as [[]|]; try done.
  destruct (s === js "ipv4") eqn:E4; [intros [= <-]; by apply streqb_eq in E4 as ->|].
  destruct (s === js "ipv6") eqn:E6; [intros [= <-]; by apply streqb_eq in E6 as ->|done].
Qed.

(** What every normalised policy satisfies. *)
Record well_formed (p : DockerGuardPolicy) : Prop := {
  wf_family : exists f, f <> inet /\ p.(p_family) = JStr (family_text f) /\
    isValidAddressForFamily f p.(p_hostIP) false = true /\
    (p.(p_mode) <> JStr (js "deny_all") ->
       p.(p_sources) <> [] /\ Forall (fun s => isValidAddressForFamily f s true = true) p.(p_sources));
  wf_port : exists z, p.(p_hostPort) = int z /\ (1 <= z <= 65535)%Z;
  wf_protocol : String_json p.(p_protocol) ∈ [js "tcp"; js "udp"];
  wf_mode : String_json p.(p_mode) ∈ modes;
  wf_sources : NoDup p.(p_sources) /\ Forall (fun s => s <> [] /\ trim s = s) p.(p_sources);
  wf_deny_all : p.(p_mode) = JStr (js "deny_all") -> p.(p_sources) = [];
  wf_description : trim p.(p_description) = p.(p_description);
}.

Lemma String_member_in v (l : list jsstr) : String_member v ∈ l -> js "undefined" ∉ l ->
  exists x, v = Some x /\ String_json x ∈ l.
Proof. destruct v as [x|]; cbn [String_member]; [eauto|done]. Qed.

Lemma is_mode_spec v s : is_mode v s = true <-> v = Some (JStr (js s)).
Proof.
  unfold is_mode. destruct v as [[| | |m| |]|]; try (split; [done|congruence]).
  rewrite streqb_eq. split; [by intros ->|by intros [= ->]].
Qed.

Lemma trimmed_sources l :
  let sources := List.filter truthy (List.map trim l) in
  NoDup (spread_set sources) /\ Forall (fun s => s <> [] /\ trim s = s) (spread_set sources).
Proof.
  split; [apply spread_set_NoDup|]. apply Forall_elem. intros s Hs.
  apply spread_set_elem, elem_filter in Hs as [Hs Ht]. apply truthy_true in Ht. split; [done|].
  apply elem_map in Hs as (x & -> & _). apply trim_idemp.
Qed.

Lemma spread_set_nil l : spread_set l = [] -> l = [].
Proof.
  destruct l as [|x l]; [done|]. intros E. assert (x ∈ spread_set (x :: l)) as H by (apply spread_set_elem; by left).
  rewrite E in H. inversion H.
Qed.

Lemma normalize_members_well_formed policy p : normalize_members policy = Some p -> well_formed p.
Proof.
  unfold normalize_members.
  destruct (memb (String_member (policy "family"%string)) _) eqn:Ef; [|done].
  destruct (memb (String_member (policy "protocol"%string)) _) eqn:Ep; [|done].
  destruct (memb (String_member (policy "mode"%string)) _) eqn:Em; [|done]. cbn [negb].
  apply memb_elem in Ef, Ep, Em.
  apply String_member_in in Ep as (pr & Epr & Ep); [|by apply memb_not_elem].
  apply String_member_in in Em as (mo & Emo & Em); [|by apply memb_not_elem].
  destruct (policy "hostIP"%string) as [[| | |hostIP| |]|]; try done.
  destruct (policy "hostPort"%string) as [[| |d| | |]|]; try done.
  destruct (isInteger (Number d)) eqn:Ei; [|done]. cbn [negb].
  destruct (num_lt (Number d) (int 1)) eqn:E1; [done|].
  destruct (num_lt (int 65535) (Number d)) eqn:E2; [done|]. cbn [orb].
  destruct (family_of (policy "family"%string)) as [f|] eqn:Ff; [|done].
  apply family_of_spec in Ff as (Efam & Hinet). cbn [valid_for].
  destruct (isValidAddressForFamily f hostIP false) eqn:Eip; [|done]. cbn [negb].
  destruct (policy "sources"%string) as [[| | | |l|]|]; try done.
  destruct (mapM is_string l) as [gs|]; [|done].
  pose proof (trimmed_sources gs) as [Hnd Htr]. set (sources := List.filter truthy (List.map trim gs)) in *.
  destruct (negb _ && (length sources =? 0)) eqn:El; [done|].
  destruct (negb _ && negb (forallb _ sources)) eqn:Ev; [done|].
  rewrite Emo in *. set (deny := is_mode (Some mo) "deny_all") in *.
  intros H. assert (Hp : p = {| p_family := JStr (family_text f); p_hostIP := hostIP; p_hostPort := Number d;
    p_protocol := pr; p_mode := mo; p_sources := if deny then [] else spread_set sources;
    p_description := trim (default [] (policy "description"%string ≫= is_string)) |}).
  { rewrite Efam, Epr in H. by destruct (policy "description"%string) as [[| | | | |]|]; try done; injection H as <-. }
  clear H. subst p. constructor; cbn [p_family p_hostIP p_hostPort p_protocol p_mode p_sources p_description]; try done.
  - exists f. split_and!; [done..|]. intros Hm.
    assert (deny = false) as Hd.
    { apply not_true_iff_false. unfold deny. rewrite is_mode_spec. congruence. }
    rewrite Hd in *. cbn [negb andb] in El, Ev. apply Nat.eqb_neq in El. apply negb_false_iff in Ev.
    rewrite forallb_elem in Ev. split.
    + intros E%spread_set_nil. by rewrite E in El.
    + apply Forall_elem. intros s Hs. by apply spread_set_elem, Ev in Hs.
  - apply (isInteger_between (Number d) 1 65535); done.
  - destruct deny; [split; constructor|done].
  - intros ->. assert (deny = true) as -> by by apply is_mode_spec. done.
  - apply trim_idemp.
Qed.

(** C35. A policy that is normalised has a family the host address belongs to, an
    integer port from 1 to 65535, distinct trimmed sources that are addresses or
    blocks of the family, at least one unless everything is denied and none then, and
    a trimmed description. *)
Theorem normalizeDockerGuardPolicy_typed v p : normalizeDockerGuardPolicy v = Some p -> well_formed p.
Proof. destruct v; try done; apply normalize_members_well_formed. Qed.

(** Normal policies are their own normal form. *)
Lemma sources_kept p : well_formed p ->
  let sources := List.filter truthy (List.map trim p.(p_sources)) in
  sources = p.(p_sources) /\ spread_set sources = p.(p_sources).
Proof.
  intros H. destruct (wf_sources p H) as [Hnd Hf]. cbn zeta.
  assert (List.filter truthy (List.map trim (p_sources p)) = p_sources p) as ->.
  { clear Hnd. induction Hf as [|s l [Hs Ht] _ IH]; [done|]. cbn [List.map List.filter]. rewrite Ht.
    apply truthy_true in Hs as ->. by rewrite IH. }
  split; [done|]. by apply spread_set_id.
Qed.

Lemma mapM_strings l : mapM is_string (List.map JStr l) = Some l.
Proof. apply mapM_Some. induction l; by constructor. Qed.

(** The checks succeed on the members of a well-formed policy. *)
Lemma normalize_members_fields policy p f z :
  f <> inet -> p.(p_family) = JStr (family_text f) ->
  isValidAddressForFamily f p.(p_hostIP) false = true ->
  (p.(p_mode) <> JStr (js "deny_all") ->
     p.(p_sources) <> [] /\ Forall (fun s => isValidAddressForFamily f s true = true) p.(p_sources)) ->
  p.(p_hostPort) = int z -> (1 <= z <= 65535)%Z -> well_formed p ->
  policy "family"%string = Some p.(p_family) -> policy "hostIP"%string = Some (JStr p.(p_hostIP)) ->
  policy "hostPort"%string = Some (JNum (String_num p.(p_hostPort))) ->
  policy "protocol"%string = Some p.(p_protocol) -> policy "mode"%string = Some p.(p_mode) ->
  policy "sources"%string = Some (JArr (List.map JStr p.(p_sources))) ->
  policy "description"%string = Some (JStr p.(p_description)) ->
  normalize_members policy = Some p.
Proof.
  intros Hf Efam Hip Hsrc Ez Hz Hw E1 E2 E3 E4 E5 E6 E7. destruct (sources_kept p Hw) as [Hk1 Hk2].
  unfold normalize_members. rewrite E1, E2, E3, E4, E5, E6, E7. cbn [String_member].
  assert (Hfam : family_of (Some (p_family p)) = Some f) by (rewrite Efam; by destruct f).
  assert (memb (String_json (p_family p)) [js "ipv4"; js "ipv6"] = true) as -> by (rewrite Efam; by destruct f).
  pose proof (wf_protocol p Hw) as Hp. apply memb_elem in Hp as ->.
  pose proof (wf_mode p Hw) as Hm. apply memb_elem in Hm as ->. cbn [negb].
  assert (Number (String_num (p_hostPort p)) = p_hostPort p) as ->.
  { rewrite Ez, <- (Z2N.id z), String_N, Number_dec by (unfold exact; lia). done. }
  rewrite Ez. rewrite isInteger_int, !lt_int by (unfold exact; lia).
  assert ((z <? 1)%Z = false) as -> by (apply Z.ltb_ge; lia).
  assert ((65535 <? z)%Z = false) as -> by (apply Z.ltb_ge; lia). cbn [negb orb].
  rewrite Hfam. cbn [valid_for]. rewrite Hip, mapM_strings, Hk2, Hk1. cbn [negb].
  set (deny := is_mode (Some (p_mode p)) "deny_all").
  assert (Hdeny : deny = false -> p_sources p <> [] /\ forallb (fun s => isValidAddressForFamily f s true) (p_sources p) = true).
  { intros Hd. destruct Hsrc as [H1 H2].
    - intros E. rewrite <- not_true_iff_false in Hd. apply Hd. by apply is_mode_spec; rewrite E.
    - split; [done|]. apply forallb_elem. by rewrite Forall_elem in H2. }
  assert (Hall : deny = true -> p_sources p = []).
  { intros Hd%is_mode_spec. apply (wf_deny_all p Hw). by injection Hd. }
  assert (negb deny && (length (p_sources p) =? 0) = false) as ->.
  { destruct deny; [done|]. destruct Hdeny as [H _]; [done|]. by destruct (p_sources p). }
  assert (negb deny && negb (forallb (fun s => isValidAddressForFamily f s true) (p_sources p)) = false) as ->.
  { destruct deny; [done|]. by destruct Hdeny as [_ ->]. }
  cbn [from_option mbind option_bind is_string id]; unfold id. rewrite (wf_description p Hw).
  assert ((if deny then [] else p_sources p) = p_sources p) as -> by (destruct deny; [by rewrite Hall|done]).
  rewrite <- Ez. by destruct p.
Qed.

(** Normalising a normalised policy changes nothing. *)
Theorem normalizeDockerGuardPolicy_idem v p :
  normalizeDockerGuardPolicy v = Some p -> normalizeDockerGuardPolicy (policy_json p) = Some p.
Proof.
  intros H. assert (Hw : well_formed p) by (destruct v; try done; by apply normalize_members_well_formed in H).
  clear H. destruct (wf_family p Hw) as (f & Hf & Efam & Hip & Hsrc).
  destruct (wf_port p Hw) as (z & Ez & Hz).
  change (normalizeDockerGuardPolicy (policy_json p)) with (normalize_members (fun k => member (js k) (policy_json p))).
  apply (normalize_members_fields _ p f z Hf); try done.
Qed.

End Laws.

(** A policy whose protocol and mode are arrays. *)
Definition array_policy : json :=
  JObj [ (js "family", JStr (js "ipv4")); (js "hostIP", JStr (js "0.0.0.0")); (js "hostPort", JNum (js "8080"));
         (js "protocol", JArr [JStr (js "tcp")]); (js "mode", JArr [JStr (js "deny_all")]);
         (js "sources", JArr [JStr (js "10.0.0.1")]) ].

(** The checks of the protocol and the mode look at their text only: an array
    of one name passes them and stays an array in the policy. *)
Theorem normalizeDockerGuardPolicy_arrays :
  exists p, normalizeDockerGuardPolicy array_policy = Some p /\
    p.(p_protocol) = JArr [JStr (js "tcp")] /\ p.(p_mode) = JArr [JStr (js "deny_all")] /\
    p.(p_sources) = [js "10.0.0.1"].
Proof. eexists. split; [vm_compute; reflexivity|]. by vm_compute. Qed.

Definition sample_policy : json :=
  JObj [ (js "family", JStr (js "ipv4")); (js "hostIP", JStr (js "127.0.0.1")); (js "hostPort", JNum (js "443"));
         (js "protocol", JStr (js "tcp")); (js "mode", JStr (js "deny_sources"));
         (js "sources", JArr [JStr (js " 10.0.0.0/8"); JStr []; JStr (js "10.0.0.0/8")]);
         (js "description", JStr (js " web ")) ].

Definition sample_normal : DockerGuardPolicy :=
  {| p_family := JStr (js "ipv4"); p_hostIP := js "127.0.0.1"; p_hostPort := int 443; p_protocol := JStr (js "tcp");
     p_mode := JStr (js "deny_sources"); p_sources := [js "10.0.0.0/8"]; p_description := js "web" |}.

Lemma normalizeDockerGuardPolicy_typed_witness : well_formed sample_normal.
Proof. apply (normalizeDockerGuardPolicy_typed sample_policy). vm_compute. reflexivity. Defined.

Lemma normalizeDockerGuardPolicy_idem_witness :
  normalizeDockerGuardPolicy (policy_json sample_normal) = Some sample_normal.
Proof. apply (normalizeDockerGuardPolicy_idem sample_policy). vm_compute. reflexivity. Defined.
