(* ===== verification/SecretField.v ===== *)
(** * Secret fields of the alert forms

    src/frontend/src/views/setting/alert/setting/drawer/secret-field.ts.  A secret is
    edited as a draft that keeps, replaces or clears the stored one; the operations
    are generic in the records that extend a draft, here the class [Secret].  A
    configuration that comes from the server is a JSON value. *)

From S2P Require Import Prelude JsString Json Numbers.

#[local] Open Scope list_scope.

Variant SecretAction := keep | replace | clear.

#[export] Instance SecretAction_eq_dec : EqDecision SecretAction.
Proof. solve_decision. Defined.

Record SecretDraft := {
  configured : bool; masked : jsstr; action : SecretAction; value : jsstr; originalValue : option jsstr;
}.

(** [T extends SecretDraft]: a record that has a draft among its members. *)
Class Secret (T : Type) := {
  draft_of : T -> SecretDraft;
  with_draft : SecretDraft -> T -> T;
  draft_with d t : draft_of (with_draft d t) = d;
}.

#[export] Instance draft_secret : Secret SecretDraft.
Proof. refine {| draft_of d := d; with_draft d _ := d |}. done. Defined.

Definition secretEditorValue (draft : SecretDraft) : jsstr :=
  match draft.(action) with keep | replace => draft.(value) | clear => [] end.

Definition secretEditorPlaceholder (draft : SecretDraft) (fallback : jsstr) : jsstr :=
  match draft.(action) with
  | keep => if draft.(configured) then (if truthy draft.(masked) then draft.(masked) else js "******") else fallback
  | _ => fallback
  end.

Section Drafts.
Context {T} `{Secret T}.

Definition edit (draft : T) (a : SecretAction) (v : jsstr) : T :=
  let d := draft_of draft in
  with_draft {| configured := d.(configured); masked := d.(masked); action := a; value := v;
                originalValue := d.(originalValue) |} draft.

Definition replaceSecretDraft (draft : T) (value : jsstr) : T := edit draft replace value.
Definition keepSecretDraft (draft : T) : T := edit draft keep (default [] (draft_of draft).(originalValue)).
Definition clearSecretDraft (draft : T) : T := edit draft clear [].
End Drafts.

(** ** Values of a configuration *)

Definition rawSecretValue (source : option json) : jsstr :=
  match source with
  | Some (JStr s) => s
  | Some (JObj ms) => match member (js "value") (JObj ms) with Some (JStr s) => s | _ => [] end
  | _ => []
  end.

Definition serializeLegacySecretValue (value : jsstr) (trimmed : bool) : jsstr := if trimmed then trim value else value.

Definition rawStringValue (value : option json) : jsstr := match value with Some (JStr s) => s | _ => [] end.

Section Email.
Context `{JsNumber} (String_array : list json -> jsstr).

(** [Number(v) || 0]; an array counts as its text, an object as NaN.  [NaN <= NaN] is
    false, which tells it from the numbers. *)
Definition Number_json (v : option json) : num :=
  match v with
  | Some JNull => int 0
  | Some (JBool b) => int (if b then 1 else 0)
  | Some (JNum d) => Number d
  | Some (JStr s) => Number s
  | Some (JArr l) => Number (String_array l)
  | Some (JObj _) => Number (js "[object Object]")
  | None => Number (js "undefined")
  end.
Definition or_zero (x : num) : num := if num_le x x then x else int 0.

Record LegacyEmailTestFields := {
  host : jsstr; port : num; sender : jsstr; userName : jsstr; password : jsstr; e_displayName : jsstr;
  encryption : jsstr; recipient : jsstr;
}.

Definition buildLegacyEmailTestFields (config : string -> option json) : LegacyEmailTestFields :=
  {| host := rawStringValue (config "host"%string);
     port := or_zero (Number_json (config "port"%string));
     sender := rawStringValue (config "sender"%string);
     userName := rawStringValue (config "userName"%string);
     password := rawSecretValue (config "password"%string);
     e_displayName := rawStringValue (config "displayName"%string);
     encryption := (let e := rawStringValue (config "encryption"%string) in if truthy e then e else js "NONE");
     recipient := rawStringValue (config "recipient"%string) |}.
End Email.

(** The display name of a webhook of a list, empty when it has none. *)
Definition webhookName (webhook : json) : jsstr :=
  match webhook with
  | JObj _ => match member (js "displayName") webhook with Some (JStr s) => trim s | _ => [] end
  | _ => []
  end.

Definition getAlertConfigDisplayName (type : jsstr) (config : string -> option json) : jsstr :=
  let displayName := trim (rawStringValue (config "displayName"%string)) in
  if truthy displayName then displayName
  else
    let sender := trim (rawStringValue (config "sender"%string)) in
    if truthy sender then sender
    else
      let phone := if type === js "sms" then rawSecretValue (config "phone"%string) else [] in
      if truthy phone then phone
      else
        match config "webhooks"%string with
        | Some (JArr l) => join (js ", ") (List.filter truthy (List.map webhookName l))
        | _ => []
        end.

(** ** Laws of the drafts *)

Section Laws.
Context {T} `{Secret T}.

(** Keeping a draft undoes every edit of it: what the edits before were does not matter. *)
Lemma keep_edit (t : T) a v : draft_of (keepSecretDraft (edit t a v)) = draft_of (keepSecretDraft t).
Proof. unfold keepSecretDraft, edit. by rewrite !draft_with. Qed.

(** No edit changes what is stored. *)
Lemma edit_stored (t : T) a v :
  (draft_of (edit t a v)).(configured) = (draft_of t).(configured) /\
  (draft_of (edit t a v)).(originalValue) = (draft_of t).(originalValue).
Proof. unfold edit. by rewrite draft_with. Qed.
End Laws.
