(* ===== verification/CustomWebhook.v ===== *)
(** * Custom webhooks of alerts

    src/frontend/src/views/setting/alert/setting/drawer/custom-webhook.ts.  A webhook
    comes from the server as a view, is edited as a draft and goes back as an update.
    The records are those of the interfaces, with [None] for an absent member; a
    secret member of a draft is a [SecretDraft].  The calls of createCustomWebhookUid
    are numbered: [uid n] is what the call after [n] others answers. *)

From S2P Require Import Prelude JsString Splitting Json WebUrl SecretField.
From Stdlib Require Import ZifyBool ZifyN.

#[local] Open Scope list_scope.

(** ** Data *)

Variant CustomWebhookPreset := genericJson | slack | discord | teamsWorkflows | custom.
Variant CustomWebhookBodyType := json_body | form_body | text_body.

#[export] Instance CustomWebhookPreset_eq_dec : EqDecision CustomWebhookPreset.
Proof. solve_decision. Defined.
#[export] Instance CustomWebhookBodyType_eq_dec : EqDecision CustomWebhookBodyType.
Proof. solve_decision. Defined.

Record CustomWebhookSecretView := { sv_configured : bool; sv_masked : option jsstr; sv_value : option jsstr }.
Record CustomWebhookFormField := { f_uid : jsstr; f_key : jsstr; f_value : jsstr }.
Record CustomWebhookFormFieldView := { fv_uid : option jsstr; fv_key : jsstr; fv_value : jsstr }.
Record CustomWebhookHeaderView := {
  hv_uid : jsstr; hv_key : jsstr; hv_secret : bool; hv_value : option jsstr; hv_configured : option bool;
  hv_masked : option jsstr;
}.
Record CustomWebhookHeaderDraft := { h_uid : jsstr; h_key : jsstr; h_secret : bool; h_draft : SecretDraft }.
Record CustomWebhookBody := { b_type : CustomWebhookBodyType; b_template : jsstr; b_fields : list CustomWebhookFormField }.
Record CustomWebhookBodyView := {
  bv_type : option jsstr; bv_template : option jsstr; bv_fields : option (list CustomWebhookFormFieldView);
}.

(** The address of a view: a text or a sanitised secret. *)
Variant UrlView := UrlText (s : jsstr) | UrlSecret (v : CustomWebhookSecretView).

Record CustomWebhookConfigView := {
  v_state : option jsstr; v_displayName : option jsstr; v_preset : option jsstr; v_url : option UrlView;
  v_body : option CustomWebhookBodyView; v_headers : option (list CustomWebhookHeaderView);
}.
Record CustomWebhookDraft := {
  d_state : option jsstr; d_displayName : jsstr; d_preset : CustomWebhookPreset; d_url : SecretDraft;
  d_body : CustomWebhookBody; d_headers : list CustomWebhookHeaderDraft;
}.
Record CustomWebhookSecretMutation := { m_action : SecretAction; m_value : option jsstr }.
Record HeaderUpdate := {
  hu_uid : jsstr; hu_key : jsstr; hu_secret : bool; hu_action : SecretAction; hu_value : option jsstr;
}.
Record CustomWebhookConfigUpdate := {
  u_displayName : jsstr; u_preset : CustomWebhookPreset; u_url : CustomWebhookSecretMutation;
  u_type : CustomWebhookBodyType; u_template : jsstr; u_fields : list (jsstr * jsstr);
  u_headers : list HeaderUpdate;
}.

#[export] Instance header_secret : Secret CustomWebhookHeaderDraft.
Proof.
  refine {| draft_of := h_draft;
            with_draft d h := {| h_uid := h.(h_uid); h_key := h.(h_key); h_secret := h.(h_secret); h_draft := d |} |}.
  done.
Defined.

(** ** Tables *)

(** A text whose double quotes are written as apostrophes. *)
Definition quoted (s : string) : jsstr := List.map (fun c => if (c =? 39)%N then 34%N else c) (js s).

Record PresetDefinition := { bodyType : CustomWebhookBodyType; template : jsstr }.

Definition PRESET_DEFINITIONS (preset : CustomWebhookPreset) : option PresetDefinition :=
  match preset with
  | genericJson => Some {| bodyType := json_body; template := quoted "{
  'schema_version': '1',
  'title': '{{title}}',
  'message': '{{message}}',
  'type': '{{type}}',
  'node_name': '{{nodeName}}',
  'timestamp': '{{timestamp}}'
}" |}
  | slack => Some {| bodyType := json_body; template := quoted "{
  'text': '*{{title}}*\n{{message}}'
}" |}
  | discord => Some {| bodyType := json_body; template := quoted "{
  'content': '**{{title}}**\n{{message}}',
  'allowed_mentions': { 'parse': [] }
}" |}
  | teamsWorkflows => Some {| bodyType := json_body; template := quoted "{
  'type': 'message',
  'attachments': [
    {
      'contentType': 'application/vnd.microsoft.card.adaptive',
      'contentUrl': null,
      'content': {
        '$schema': 'http://adaptivecards.io/schemas/adaptive-card.json',
        'type': 'AdaptiveCard',
        'version': '1.4',
        'body': [
          { 'type': 'TextBlock', 'weight': 'Bolder', 'text': '{{title}}' },
          { 'type': 'TextBlock', 'wrap': true, 'text': '{{message}}' }
        ]
      }
    }
  ]
}" |}
  | custom => None
  end.

Definition CUSTOM_WEBHOOK_VARIABLES : list jsstr :=
  [js "{{title}}"; js "{{message}}"; js "{{type}}"; js "{{nodeName}}"; js "{{timestamp}}"].

Definition RESERVED_HEADERS : list jsstr :=
  List.map js ["connection"; "content-length"; "content-type"; "host"; "proxy-connection"; "proxy-authorization";
               "te"; "trailer"; "transfer-encoding"; "upgrade"]%string.

(** The units of [HEADER_NAME_PATTERN]. *)
Definition header_unit (c : N) : bool :=
  is_digit c || is_lower c || is_upper c || has_unit c (js "!#$%&'*+.^_`|~-").
Definition HEADER_NAME_PATTERN (s : jsstr) : bool := truthy s && forallb header_unit s.

Definition contentTypeForBodyType (type : CustomWebhookBodyType) : jsstr :=
  match type with
  | form_body => js "application/x-www-form-urlencoded"
  | text_body => js "text/plain"
  | json_body => js "application/json"
  end.

(** ** Identifiers *)

(** Where a call finds its randomness: randomUUID, or sixteen bytes of
    getRandomValues or Math.random. *)
Variant Entropy := RandomUUID (s : jsstr) | RandomBytes (bytes : list N).

(** [byte.toString(16).padStart(2, '0')] of a byte. *)
Definition byte_hex (byte : N) : jsstr := [hex_lower (byte / 16); hex_lower (byte mod 16)].

Definition stamp (bytes : list N) : list N :=
  <[8 := N.lor (N.land (bytes !!! 8) 63) 128]> (<[6 := N.lor (N.land (bytes !!! 6) 15) 64]> bytes).

Definition uuid_of_bytes (bytes : list N) : jsstr :=
  let hex := flat_map byte_hex (stamp bytes) in
  slice hex 0 8 ++ js "-" ++ slice hex 8 12 ++ js "-" ++ slice hex 12 16 ++ js "-" ++ slice hex 16 20 ++ js "-" ++
  slice_from hex 20.

Definition createCustomWebhookUid (e : Entropy) : jsstr :=
  match e with RandomUUID s => s | RandomBytes bytes => uuid_of_bytes bytes end.

Definition createCustomWebhookFormField (u : jsstr) : CustomWebhookFormField :=
  {| f_uid := u; f_key := []; f_value := [] |}.
Definition createCustomWebhookHeader (u : jsstr) : CustomWebhookHeaderDraft :=
  {| h_uid := u; h_key := []; h_secret := false;
     h_draft := {| configured := false; masked := []; action := replace; value := []; originalValue := None |} |}.

(** ** Drafts *)

Definition applyCustomWebhookPreset (source : CustomWebhookDraft) (preset : CustomWebhookPreset) : CustomWebhookDraft :=
  {| d_state := source.(d_state); d_displayName := source.(d_displayName); d_preset := preset; d_url := source.(d_url);
     d_body := match PRESET_DEFINITIONS preset with
               | None => source.(d_body)
               | Some definition =>
                   {| b_type := definition.(bodyType); b_template := definition.(template); b_fields := [] |}
               end;
     d_headers := source.(d_headers) |}.

Definition createDefaultCustomWebhookDraft : CustomWebhookDraft :=
  applyCustomWebhookPreset
    {| d_state := None; d_displayName := []; d_preset := genericJson;
       d_url := {| configured := false; masked := []; action := replace; value := []; originalValue := None |};
       d_body := {| b_type := json_body; b_template := []; b_fields := [] |}; d_headers := [] |} genericJson.

Definition normalizePreset (value : option jsstr) : CustomWebhookPreset :=
  match value with
  | Some v => if v === js "genericJson" then genericJson else if v === js "slack" then slack
              else if v === js "discord" then discord else if v === js "teamsWorkflows" then teamsWorkflows else custom
  | None => custom
  end.

Definition normalizeBodyType (value : option jsstr) : CustomWebhookBodyType :=
  match value with
  | Some v => if v === js "form" then form_body else if v === js "text" then text_body else json_body
  | None => json_body
  end.

Definition maskCustomWebhookUrl (value : jsstr) : jsstr := if truthy value then js "******" else [].

Definition isCustomWebhookPresetPristine (draft : CustomWebhookDraft) : bool :=
  if decide (draft.(d_preset) = custom) then false
  else
    let expected := applyCustomWebhookPreset draft draft.(d_preset) in
    bool_decide (draft.(d_body).(b_type) = expected.(d_body).(b_type)) &&
    (draft.(d_body).(b_template) === expected.(d_body).(b_template)) &&
    (length draft.(d_body).(b_fields) =? length expected.(d_body).(b_fields)).

Definition updateCustomWebhookBodyTemplate (draft : CustomWebhookDraft) (template : jsstr) : CustomWebhookDraft :=
  {| d_state := draft.(d_state); d_displayName := draft.(d_displayName); d_preset := draft.(d_preset);
     d_url := draft.(d_url);
     d_body := {| b_type := draft.(d_body).(b_type); b_template := template; b_fields := draft.(d_body).(b_fields) |};
     d_headers := draft.(d_headers) |}.

(** *** From a view *)

Definition or_else (a b : jsstr) : jsstr := if truthy a then a else b.

(** [Array.prototype.map] with calls of the numbered generator. *)
Fixpoint mapS {S A B} (f : A -> M S B) (l : list A) : M S (list B) :=
  match l with
  | [] => ret []
  | x :: l' => let! y := f x in let! ys := mapS f l' in ret (y :: ys)
  end.

Section Webhooks.
Context {JU : JsUnicode} (uid : nat -> jsstr).

Definition newUid : M nat jsstr := fun n => (uid n, S n).

(** [x || createCustomWebhookUid()] *)
Definition uid_or (x : jsstr) : M nat jsstr := if truthy x then ret x else newUid.

Definition isCustomWebhookSecretHeader (key : jsstr) : bool :=
  let normalized := toLowerCase (trim key) in
  let compact := List.filter (fun c => negb ((c =? 45)%N || (c =? 95)%N)) normalized in
  (normalized === js "authorization") || (normalized === js "cookie") ||
  endsWith normalized (js "-key") || endsWith normalized (js "_key") ||
  includes compact (js "apikey") || includes compact (js "token") || includes compact (js "secret") ||
  includes compact (js "signature").

Definition hydrate_header (header : CustomWebhookHeaderView) : M nat CustomWebhookHeaderDraft :=
  let secret := header.(hv_secret) || isCustomWebhookSecretHeader header.(hv_key) in
  let value := default [] header.(hv_value) in
  let secretValue := if secret then value else [] in
  let configured := if secret then default (truthy secretValue) header.(hv_configured) else false in
  let! u := uid_or header.(hv_uid) in
  ret {| h_uid := u; h_key := header.(hv_key); h_secret := secret;
         h_draft := {| configured := configured;
                       masked := if secret then or_else (default [] header.(hv_masked))
                                                        (if truthy value then js "***" else []) else [];
                       action := if secret then (if truthy secretValue then keep else if configured then keep else clear)
                                 else replace;
                       value := if secret then secretValue else value;
                       originalValue := if truthy secretValue then Some secretValue else None |} |}.

Definition hydrate_field (field : CustomWebhookFormFieldView) : M nat CustomWebhookFormField :=
  let! u := uid_or (default [] field.(fv_uid)) in
  ret {| f_uid := u; f_key := field.(fv_key); f_value := field.(fv_value) |}.

Definition hydrate_url (rawUrl : option UrlView) : SecretDraft :=
  let urlConfigured := match rawUrl with
                       | Some (UrlText s) => truthy s
                       | Some (UrlSecret v) => v.(sv_configured)
                       | None => false end in
  let urlValue := match rawUrl with Some (UrlText s) => s | _ => [] end in
  {| configured := urlConfigured;
     masked := match rawUrl with Some (UrlSecret v) => default [] v.(sv_masked) | _ => [] end;
     action := match rawUrl with
               | Some (UrlText s) => if truthy s then keep else if urlConfigured then keep else replace
               | Some (UrlSecret _) => if urlConfigured then keep else clear
               | None => if urlConfigured then keep else replace
               end;
     value := urlValue;
     originalValue := if truthy urlValue then Some urlValue else None |}.

Definition hydrate_template (bodyType : CustomWebhookBodyType) (template : option jsstr) : jsstr :=
  match bodyType with
  | form_body => []
  | _ => match template with
         | None => match bodyType with
                   | text_body => js "{{message}}"
                   | _ => createDefaultCustomWebhookDraft.(d_body).(b_template) end
         | Some t => t
         end
  end.

Definition hydrateCustomWebhookDraft (raw : CustomWebhookConfigView) : M nat CustomWebhookDraft :=
  let preset := normalizePreset raw.(v_preset) in
  let bodyType := normalizeBodyType (raw.(v_body) ≫= bv_type) in
  let! headers := mapS hydrate_header (default [] raw.(v_headers)) in
  let! fields := mapS hydrate_field (default [] (raw.(v_body) ≫= bv_fields)) in
  ret {| d_state := match raw.(v_state) with
                    | Some s => if (s === js "legacy") || (s === js "invalid") then Some s else None
                    | None => None end;
         d_displayName := default [] raw.(v_displayName);
         d_preset := preset;
         d_url := hydrate_url raw.(v_url);
         d_body := {| b_type := bodyType; b_template := hydrate_template bodyType (raw.(v_body) ≫= bv_template);
                      b_fields := fields |};
         d_headers := headers |}.

(** *** To an update *)

Definition serializeSecret (secret : SecretDraft) : CustomWebhookSecretMutation :=
  match secret.(action) with
  | replace => {| m_action := replace; m_value := Some (trim secret.(value)) |}
  | a => {| m_action := a; m_value := None |}
  end.

Definition serialize_header (header : CustomWebhookHeaderDraft) : HeaderUpdate :=
  {| hu_uid := header.(h_uid); hu_key := trim header.(h_key); hu_secret := header.(h_secret);
     hu_action := if header.(h_secret) then header.(h_draft).(action) else replace;
     hu_value := if header.(h_secret) && negb (bool_decide (header.(h_draft).(action) = replace)) then None
                 else Some header.(h_draft).(value) |}.

Definition serializeCustomWebhookDraft (draft : CustomWebhookDraft) : CustomWebhookConfigUpdate :=
  let form := bool_decide (draft.(d_body).(b_type) = form_body) in
  {| u_displayName := trim draft.(d_displayName);
     u_preset := draft.(d_preset);
     u_url := serializeSecret draft.(d_url);
     u_type := draft.(d_body).(b_type);
     u_template := if form then [] else draft.(d_body).(b_template);
     u_fields := if form then List.map (fun f => (trim f.(f_key), f.(f_value))) draft.(d_body).(b_fields) else [];
     u_headers := List.map serialize_header draft.(d_headers) |}.
(** ** Validation *)

Variant IssueCode :=
| displayNameRequired | urlRequired | urlInvalid | bodyRequired | jsonInvalid | formFieldRequired | formFieldDuplicate
| headerRequired | headerInvalid | headerDuplicate | headerReserved | headerMustBeSecret | templateVariableInvalid
| secretRequired.

(** An issue: the field it is about and its code. *)
Definition Issue : Type := jsstr * IssueCode.

Definition isJsonTemplateValid (value : jsstr) : bool := match parse value with Some _ => true | None => false end.

Fixpoint template_key (node : json) : bool :=
  match node with
  | JArr l => existsb template_key l
  | JObj ms => existsb (fun '(key, child) => includes key (js "{{") || includes key (js "}}") || template_key child) ms
  | _ => false
  end.
Definition hasTemplateJsonKey (value : jsstr) : bool :=
  match parse value with Some v => template_key v | None => false end.

(** The loop over the remainder; [invalid_variables_eq] shows that the length of the
    text is fuel enough. *)
Fixpoint invalid_variables (fuel : nat) (remainder : jsstr) : bool :=
  match fuel with
  | O => false
  | S n =>
      match indexOf remainder (js "{{") with
      | None => includes remainder (js "}}")
      | Some start =>
          if includes (slice remainder 0 start) (js "}}") then true
          else
            match indexOf (slice_from remainder (start + 2)) (js "}}") with
            | None => true
            | Some endOffset =>
                let end_ := start + 2 + endOffset + 2 in
                if negb (memb (slice remainder start end_) CUSTOM_WEBHOOK_VARIABLES) then true
                else invalid_variables n (slice_from remainder end_)
            end
      end
  end.
Definition hasInvalidTemplateVariable (value : jsstr) : bool := invalid_variables (S (length value)) value.

Section Validation.
Context {WU : WebURL}.

Definition isValidHttpUrl (value : jsstr) : bool :=
  match new_URL value with
  | Some parsed =>
      ((parsed.(u_protocol) === js "http:") || (parsed.(u_protocol) === js "https:")) &&
      negb (truthy parsed.(u_username)) && negb (truthy parsed.(u_password)) && negb (truthy parsed.(u_hash))
  | None => false
  end.

(** Every item with its index, from [i]. *)
Fixpoint each {A K} (f : K -> nat -> A -> list Issue * K) (s : K) (i : nat) (l : list A) : list Issue :=
  match l with
  | [] => []
  | x :: l' => let '(issues, s') := f s i x in issues ++ each f s' (S i) l'
  end.

Definition when (b : bool) (field : jsstr) (code : IssueCode) : list Issue := if b then [(field, code)] else [].

Definition field_path (prefix : string) (index : nat) : jsstr := js prefix ++ dec (N.of_nat index).

Definition check_field (keys : list jsstr) (index : nat) (field : CustomWebhookFormField) : list Issue * list jsstr :=
  let at_ := field_path "body.fields." index in
  let key := trim field.(f_key) in
  if negb (truthy key) then ([(at_, formFieldRequired)], keys)
  else
    let normalized := toLowerCase key in
    (when (includes key (js "{{") || includes key (js "}}")) at_ templateVariableInvalid ++
     when (memb normalized keys) at_ formFieldDuplicate ++
     when (hasInvalidTemplateVariable field.(f_value)) at_ templateVariableInvalid,
     normalized :: keys).

Definition check_header (headerKeys : list jsstr) (index : nat) (header : CustomWebhookHeaderDraft) :
  list Issue * list jsstr :=
  let at_ := field_path "headers." index in
  let key := trim header.(h_key) in
  let normalized := toLowerCase key in
  let d := header.(h_draft) in
  ((if negb (truthy key) then [(at_, headerRequired)]
    else if negb (HEADER_NAME_PATTERN key) then [(at_, headerInvalid)]
    else if memb normalized RESERVED_HEADERS then [(at_, headerReserved)]
    else when (memb normalized headerKeys) at_ headerDuplicate) ++
   when (isCustomWebhookSecretHeader key && negb header.(h_secret)) at_ headerMustBeSecret ++
   (if header.(h_secret) then
      when (bool_decide (d.(action) = keep) && negb d.(configured)) at_ secretRequired ++
      when (bool_decide (d.(action) = replace) && negb (truthy d.(value))) at_ secretRequired
    else []),
   normalized :: headerKeys).

Definition check_url (url : SecretDraft) (allowClearedUrl : bool) : list Issue :=
  match url.(action) with
  | keep => when (negb url.(configured)) (js "url") urlRequired
  | replace =>
      if negb (truthy (trim url.(value))) then [(js "url", urlRequired)]
      else when (negb (isValidHttpUrl (trim url.(value)))) (js "url") urlInvalid
  | clear => when (negb allowClearedUrl) (js "url") urlRequired
  end.

Definition check_body (body : CustomWebhookBody) : list Issue :=
  match body.(b_type) with
  | form_body =>
      when (length body.(b_fields) =? 0) (js "body") bodyRequired ++ each check_field [] 0 body.(b_fields)
  | type =>
      let is_json := bool_decide (type = json_body) in
      (if negb (truthy (trim body.(b_template))) then [(js "body", bodyRequired)]
       else if is_json && negb (isJsonTemplateValid body.(b_template)) then [(js "body", jsonInvalid)]
       else when (is_json && hasTemplateJsonKey body.(b_template)) (js "body") templateVariableInvalid) ++
      when (hasInvalidTemplateVariable body.(b_template)) (js "body") templateVariableInvalid
  end.

Definition validateCustomWebhookDraft (draft : CustomWebhookDraft) (allowClearedUrl : bool) : list Issue :=
  when (negb (truthy (trim draft.(d_displayName)))) (js "displayName") displayNameRequired ++
  check_url draft.(d_url) allowClearedUrl ++ check_body draft.(d_body) ++ each check_header [] 0 draft.(d_headers).
End Validation.
End Webhooks.

(** ** Inserting a variable *)

Record CustomWebhookTemplateSelection := { s_start : Z; s_end : Z }.
Record CustomWebhookTemplateInsertion := { i_template : jsstr; i_cursor : nat }.

(** The rest of a string literal: the index of its closing quote, counted from [i].  The
    body of the expression takes escapes and units that are neither quote nor reverse
    solidus, so it ends at the first quote or not at all. *)
Fixpoint string_end (s : jsstr) (i : nat) : option nat :=
  match s with
  | [] => None
  | c :: s' =>
      if (c =? 34)%N then Some i
      else if (c =? 92)%N then
        match s' with
        | d :: s'' => if line_terminator d then None else string_end s'' (S (S i))
        | [] => None
        end
      else string_end s' (S i)
  end.

Fixpoint skip_blank (s : jsstr) (i : nat) : jsstr * nat :=
  match s with c :: s' => if is_ws c then skip_blank s' (S i) else (s, i) | [] => (s, i) end.

(** A colon, white space and a string. *)
Definition colon_string (s : jsstr) (i : nat) : option nat :=
  match s with
  | c :: s' =>
      if (c =? 58)%N then
        let '(r, j) := skip_blank s' (S i) in
        match r with q :: r' => if (q =? 34)%N then string_end r' (S j) else None | [] => None end
      else None
  | [] => None
  end.

(** [stringValuePattern] at the start of [s]: a quoted name, white space, the above. *)
Definition named_string (names : list jsstr) (s : jsstr) : option nat :=
  match List.find (fun name => startsWith s (34%N :: name ++ [34%N])) names with
  | Some name =>
      let '(r, i) := skip_blank (drop (length name + 2) s) (length name + 2) in
      colon_string r i
  | None => None
  end.

(** The first match of an expression: the index of the last unit of the match. *)
Fixpoint search (f : jsstr -> option nat) (s : jsstr) (i : nat) : option nat :=
  match f s with
  | Some e => Some (i + e)
  | None => match s with _ :: s' => search f s' (S i) | [] => None end
  end.

Definition stringValuePattern (template : jsstr) : option nat :=
  search (named_string [js "message"; js "text"; js "content"]) template 0.
Definition anyStringValuePattern (template : jsstr) : option nat := search (fun s => colon_string s 0) template 0.

(** A template of an empty object or array, around the variable. *)
Definition around (before variable after : jsstr) : CustomWebhookTemplateInsertion :=
  let next := before ++ variable ++ after in
  {| i_template := next; i_cursor := default 0 (indexOf next variable) + length variable |}.

Definition insertCustomWebhookVariable (template variable : jsstr) (bodyType : CustomWebhookBodyType)
    (selection : option CustomWebhookTemplateSelection) : CustomWebhookTemplateInsertion :=
  let plain :=
    match bodyType with
    | text_body => {| i_template := template ++ variable; i_cursor := length template + length variable |}
    | _ =>
        let match_ := match stringValuePattern template with
                      | Some e => Some e | None => anyStringValuePattern template end in
        match match_ with
        | Some insertAt =>
            {| i_template := slice template 0 insertAt ++ variable ++ slice_from template insertAt;
               i_cursor := insertAt + length variable |}
        | None =>
            let trimmed := trim template in
            if trimmed === js "{}" then around (quoted "{
  'message': '") variable (quoted "'
}")
            else if trimmed === js "[]" then around (quoted "[
  '") variable (quoted "'
]")
            else {| i_template := template; i_cursor := length template |}
        end
    end in
  match selection with
  | Some sel =>
      if (0 <=? sel.(s_start))%Z && (sel.(s_start) <=? sel.(s_end))%Z &&
         (sel.(s_end) <=? Z.of_nat (length template))%Z
      then
        let a := Z.to_nat sel.(s_start) in
        {| i_template := slice template 0 a ++ variable ++ slice_from template (Z.to_nat sel.(s_end));
           i_cursor := a + length variable |}
      else plain
  | None => plain
  end.

(** ** Summaries *)

Definition BODY_TYPE (type : CustomWebhookBodyType) : jsstr :=
  match type with json_body => js "JSON" | form_body => js "FORM" | text_body => js "TEXT" end.

Definition dot : jsstr := [32; 183; 32]%N.

Definition formatCustomWebhookSafeSummary (config : CustomWebhookConfigView) (includeUrl : bool) : jsstr :=
  let bodyType := BODY_TYPE (normalizeBodyType (config.(v_body) ≫= bv_type)) in
  let headerCount := length (default [] config.(v_headers)) in
  let summary := js "POST" ++ dot ++ bodyType ++ dot ++ dec (N.of_nat headerCount) ++ js " Headers" in
  if negb includeUrl then summary
  else
    let url := match config.(v_url) with
               | Some (UrlText s) => maskCustomWebhookUrl s
               | Some (UrlSecret v) => or_else (default [] v.(sv_masked)) (js "***")
               | None => js "***" end in
    summary ++ dot ++ url.

(** The configuration is a view or just an address. *)
Definition formatCustomWebhookDetails (config : CustomWebhookConfigView + jsstr) (missingUrl : jsstr) : jsstr :=
  let normalized := match config with
                    | inl c => c
                    | inr s => {| v_state := None; v_displayName := None; v_preset := None; v_url := Some (UrlText s);
                                  v_body := None; v_headers := None |} end in
  let summary := formatCustomWebhookSafeSummary normalized false in
  let url := match normalized.(v_url) with
             | Some (UrlText s) => s
             | Some (UrlSecret v) => default [] v.(sv_value)
             | None => [] end in
  summary ++ dot ++ or_else url missingUrl.

Definition insert_json (template : jsstr) : jsstr :=
  i_template (insertCustomWebhookVariable template (js "{{title}}") json_body None).

Example insert_named : insert_json (quoted "{'a':'x','text' : 'b'}") = quoted "{'a':'x','text' : 'b{{title}}'}".
Proof. vm_compute. reflexivity. Qed.
Example insert_any : insert_json (quoted "{'a': 'x\'y'}") = quoted "{'a': 'x\'y{{title}}'}". Proof. vm_compute. reflexivity. Qed.
Example insert_empty : insert_json (js " [] ") = quoted "[
  '{{title}}'
]". Proof. vm_compute. reflexivity. Qed.
Example variable_ok : hasInvalidTemplateVariable (js "a } {{title}}}{{type}} {") = false. Proof. vm_compute. reflexivity. Qed.
Example variable_bad : hasInvalidTemplateVariable (js "{{{title}}") = true. Proof. vm_compute. reflexivity. Qed.
Example uuid_ex : uuid_of_bytes (List.map N.of_nat (seq 240 16)) = js "f0f1f2f3-f4f5-46f7-b8f9-fafbfcfdfeff".
Proof. vm_compute. reflexivity. Qed.

(** ** Variables of a template *)

(** Pieces without two braces in a row, between variables; a piece before a variable does
    not end with an opening brace. *)
Inductive Template : jsstr -> Prop :=
| template_plain t : includes t (js "{{") = false -> includes t (js "}}") = false -> Template t
| template_variable t v r :
    includes (t ++ js "{") (js "{{") = false -> includes t (js "}}") = false ->
    v ∈ CUSTOM_WEBHOOK_VARIABLES -> Template r -> Template (t ++ v ++ r).

(** A variable is a name between braces, in which no pair of braces closes. *)
Lemma variable_name v : v ∈ CUSTOM_WEBHOOK_VARIABLES ->
  exists name, v = js "{{" ++ name ++ js "}}" /\ includes (name ++ js "}") (js "}}") = false.
Proof.
  intros H. exists (take (length v - 4) (drop 2 v)). rewrite list_elem_of_In in H.
  repeat (destruct H as [<-|H]; [split; vm_compute; reflexivity|]). destruct H.
Qed.

Lemma first_pair a b (x : N) : includes (a ++ [x]) [x; x] = false -> indexOf (a ++ [x; x] ++ b) [x; x] = Some (length a).
Proof. intros H. apply indexOf_first; [done|]. cbn [removelast]. by apply includes_false. Qed.

Lemma pair_first s (x : N) i : indexOf s [x; x] = Some i ->
  exists a b, s = a ++ [x; x] ++ b /\ length a = i /\ includes (a ++ [x]) [x; x] = false.
Proof.
  intros H. pose proof H as H'. apply indexOf_Some in H as (a & b & -> & <-). exists a, b.
  split; [done|]. split; [done|]. apply includes_false. intros u v E.
  assert (length a <= length u).
  { apply (indexOf_min (a ++ [x; x] ++ b) [x; x] (length a) u (v ++ [x] ++ b) H').
    change ([x; x] ++ b) with ([x] ++ [x] ++ b). rewrite (app_assoc a), E. by rewrite <- !app_assoc. }
  apply (f_equal length) in E. rewrite !length_app in E. cbn in E. lia.
Qed.

Lemma slice_mid (a b c : jsstr) i : i = length a + length b -> slice (a ++ b ++ c) (length a) i = b.
Proof.
  intros ->. unfold slice. rewrite drop_app_length.
  replace (length a + length b - length a) with (length b) by lia. by rewrite take_app_length.
Qed.

Lemma opens : js "{{" = [123; 123]%N. Proof. reflexivity. Qed.
Lemma closes : js "}}" = [125; 125]%N. Proof. reflexivity. Qed.

(** What the loop reads of a text with a pair of opening braces after [a]. *)
Lemma after_pair (a b : jsstr) (x y : N) k : k = length a + 2 -> slice_from (a ++ [x; y] ++ b) k = b.
Proof. intros ->. unfold slice_from. rewrite app_assoc. apply drop_app_length'. by rewrite length_app. Qed.

Lemma after_token (a c d : jsstr) k : k = length a + 2 + length c + 2 ->
  let v := js "{{" ++ c ++ js "}}" in
  a ++ [123; 123]%N ++ c ++ [125; 125]%N ++ d = a ++ v ++ d /\
  slice (a ++ v ++ d) (length a) k = v /\ slice_from (a ++ v ++ d) k = d.
Proof.
  intros ->. cbv zeta. rewrite opens, closes. split; [by rewrite <- !app_assoc|].
  assert (Hl : length a + 2 + length c + 2 = length (a ++ [123; 123]%N ++ c ++ [125; 125]%N))
    by (rewrite !length_app; cbn; lia).
  split; [apply slice_mid; rewrite Hl, length_app; done|].
  unfold slice_from. rewrite app_assoc. by apply drop_app_length'.
Qed.

Lemma invalid_template n s : length s < n -> invalid_variables n s = false -> Template s.
Proof.
  revert s. induction n as [|n IH]; intros s Hn; [lia|]. cbn [invalid_variables].
  destruct (indexOf s (js "{{")) as [i|] eqn:E.
  - rewrite opens in E. apply pair_first in E as (a & b & -> & <- & Ha).
    rewrite (slice_mid [] a ([123; 123]%N ++ b)) by done. rewrite (after_pair a) by done.
    destruct (includes a (js "}}")) eqn:Hb; [done|]. destruct (indexOf b (js "}}")) as [j|] eqn:Ej; [|done].
    rewrite closes in Ej. apply pair_first in Ej as (c & d & -> & <- & Hc).
    destruct (after_token a c d _ eq_refl) as (Hs & H1 & H2). rewrite Hs in *. rewrite H1, H2.
    destruct (memb _ _) eqn:Hm; [|done]. cbn [negb]. intros H.
    apply template_variable; [done..|by apply memb_elem|]. apply IH; [|done].
    rewrite !length_app in Hn. cbn in Hn. lia.
  - intros H. apply template_plain; [|done]. unfold includes. rewrite E. by apply bool_decide_eq_false.
Qed.

Lemma template_valid n s : Template s -> length s < n -> invalid_variables n s = false.
Proof.
  intros Ht. revert n. induction Ht as [t H1 H2|t v r H1 H2 Hv Hr IH]; intros n Hn;
    (destruct n as [|n]; [lia|]); cbn [invalid_variables].
  - unfold includes in H1. apply bool_decide_eq_false in H1. destruct (indexOf t (js "{{")); [|done]. destruct H1. eauto.
  - destruct (variable_name v Hv) as (name & -> & Hname).
    destruct (after_token t name r _ eq_refl) as (Hs & S1 & S2).
    assert (indexOf (t ++ (js "{{" ++ name ++ js "}}") ++ r) (js "{{") = Some (length t)) as ->.
    { rewrite <- Hs, opens. by apply first_pair. }
    assert (slice (t ++ (js "{{" ++ name ++ js "}}") ++ r) 0 (length t) = t) as -> by by apply (slice_mid [] t).
    rewrite H2. rewrite <- Hs at 1. rewrite after_pair by done.
    assert (indexOf (name ++ [125; 125]%N ++ r) (js "}}") = Some (length name)) as ->.
    { rewrite closes. apply first_pair. by rewrite closes in Hname. }
    rewrite S1, S2. apply memb_elem in Hv. rewrite Hv. cbn [negb].
    apply IH. rewrite !length_app in Hn. cbn in Hn. lia.
Qed.

(** A text passes the check of its variables exactly when it is made of known
    variables and of pieces without two braces in a row; the check ends on every text. *)
Theorem hasInvalidTemplateVariable_spec s : hasInvalidTemplateVariable s = false <-> Template s.
Proof. split; [apply invalid_template; lia|intros H; apply template_valid; [done|lia]]. Qed.

(** ** What validation accepts *)

(** The name of a member at some depth. *)
Inductive name_in : jsstr -> json -> Prop :=
| name_member k v ms : (k, v) ∈ ms -> name_in k (JObj ms)
| name_below k k' v ms : (k', v) ∈ ms -> name_in k v -> name_in k (JObj ms)
| name_item k v l : v ∈ l -> name_in k v -> name_in k (JArr l).

Definition braces (key : jsstr) : bool := includes key (js "{{") || includes key (js "}}").

Lemma template_key_spec v : template_key v = true <-> exists k, name_in k v /\ braces k = true.
Proof.
  induction v as [|b|d|s|l IH|ms IH] using json_nested_ind; cbn [template_key];
    try (split; [done|by intros (k & Hk & _); inversion Hk]).
  - rewrite existsb_elem. rewrite Forall_elem in IH. split.
    + intros (x & Hx & Ht). apply IH in Ht as (k & Hk & Hb); [|done]. exists k. eauto using name_in.
    + intros (k & Hk & Hb). inversion Hk; subst. eexists. split; [done|]. apply IH; eauto.
  - rewrite existsb_elem. rewrite Forall_elem in IH. split.
    + intros ([k x] & Hx & Ht). fold (braces k) in Ht. apply orb_true_iff in Ht as [Ht|Ht]; [exists k; eauto using name_in|].
      apply (IH (k, x)) in Ht as (k' & Hk & Hb); [|done]. exists k'. eauto using name_in.
    + intros (k & Hk & Hb). inversion Hk; subst.
      * eexists (_, _). split; [done|]. fold (braces k). by rewrite Hb.
      * eexists (_, _). split; [done|]. apply orb_true_iff. right. by apply (IH (k', v)); [|exists k].
Qed.

Section Accepts.
Context {JU : JsUnicode} {WU : WebURL}.

Definition good_url (url : SecretDraft) (allowClearedUrl : bool) : Prop :=
  match url.(action) with
  | keep => url.(configured) = true
  | replace => trim url.(value) <> [] /\ isValidHttpUrl (trim url.(value)) = true
  | clear => allowClearedUrl = true
  end.

Definition good_field (f : CustomWebhookFormField) : Prop :=
  trim f.(f_key) <> [] /\ braces (trim f.(f_key)) = false /\ Template f.(f_value).
Definition field_name (f : CustomWebhookFormField) : jsstr := toLowerCase (trim f.(f_key)).

Definition good_body (body : CustomWebhookBody) : Prop :=
  match body.(b_type) with
  | form_body => body.(b_fields) <> [] /\ Forall good_field body.(b_fields) /\ NoDup (List.map field_name body.(b_fields))
  | json_body =>
      trim body.(b_template) <> [] /\ Template body.(b_template) /\
      exists v, parse body.(b_template) = Some v /\ forall k, name_in k v -> braces k = false
  | text_body => trim body.(b_template) <> [] /\ Template body.(b_template)
  end.

Definition header_name (h : CustomWebhookHeaderDraft) : jsstr := toLowerCase (trim h.(h_key)).
Definition good_header (h : CustomWebhookHeaderDraft) : Prop :=
  HEADER_NAME_PATTERN (trim h.(h_key)) = true /\ (header_name h ∉ RESERVED_HEADERS) /\
  (isCustomWebhookSecretHeader (trim h.(h_key)) = true -> h.(h_secret) = true) /\
  (h.(h_secret) = true -> match h.(h_draft).(action) with
                          | keep => h.(h_draft).(configured) = true
                          | replace => h.(h_draft).(value) <> []
                          | clear => True end).

Lemma when_nil b field code : when b field code = [] <-> b = false.
Proof. by destruct b. Qed.

(** Checking items one by one, each against the names before it. *)
Lemma each_nil {A} (check : list jsstr -> nat -> A -> list Issue * list jsstr) (name : A -> jsstr) (good : A -> Prop) :
  (forall keys i x, (check keys i x).1 = [] -> (check keys i x).2 = name x :: keys) ->
  (forall keys i x, (check keys i x).1 = [] <-> good x /\ name x ∉ keys) ->
  forall l keys i, each check keys i l = [] <->
    Forall good l /\ NoDup (List.map name l) /\ (forall k, k ∈ List.map name l -> k ∉ keys).
Proof.
  intros Hk Hg l. induction l as [|x l IH]; intros keys i; cbn [each List.map].
  { split; [|done]. intros _. split; [done|]. split; [constructor|]. intros k Hin. by apply elem_of_nil in Hin. }
  specialize (Hk keys i x). specialize (Hg keys i x). destruct (check keys i x) as [out ks]. cbn [fst snd] in *.
  rewrite app_nil, Hg, Forall_cons_iff, list.NoDup_cons. split.
  - intros [[H1 H2] H3]. rewrite Hk in H3 by by apply Hg. apply IH in H3 as (H3 & H4 & H5).
    split; [done|]. split; [split; [|done]|].
    + intros Hin. apply (H5 _ Hin). by left.
    + intros k [->|Hin]%elem_of_cons; [done|]. intros Hk'. apply (H5 k Hin). by right.
  - intros ((H1 & H2) & (H3 & H4) & H5). assert (name x ∉ keys) as Hx by (apply H5; by left).
    split; [done|]. rewrite Hk by by apply Hg. apply IH. split; [done|]. split; [done|].
    intros k Hin. rewrite not_elem_of_cons. split; [congruence|]. apply H5. by right.
Qed.

Lemma check_field_spec keys i f :
  ((check_field keys i f).1 = [] -> (check_field keys i f).2 = field_name f :: keys) /\
  ((check_field keys i f).1 = [] <-> good_field f /\ field_name f ∉ keys).
Proof.
  unfold check_field, good_field. fold (field_name f) (braces (trim (f_key f))). rewrite <- hasInvalidTemplateVariable_spec.
  destruct (truthy (trim (f_key f))) eqn:Et; cbn [negb fst snd]; bool_prop.
  - split; [done|]. rewrite !app_nil, !when_nil, memb_not_elem. tauto.
  - split; [done|]. naive_solver.
Qed.

Lemma check_header_spec keys i h :
  ((check_header keys i h).1 = [] -> (check_header keys i h).2 = header_name h :: keys) /\
  ((check_header keys i h).1 = [] <-> good_header h /\ header_name h ∉ keys).
Proof.
  split; [done|]. unfold check_header, good_header. fold (header_name h). cbn [fst]. rewrite !app_nil, when_nil.
  unfold HEADER_NAME_PATTERN. set (key := trim (h_key h)).
  assert (Hd : (if h_secret h then
      when (bool_decide (action (h_draft h) = keep) && negb (configured (h_draft h))) (field_path "headers." i) secretRequired ++
      when (bool_decide (action (h_draft h) = replace) && negb (truthy (value (h_draft h)))) (field_path "headers." i) secretRequired
    else []) = [] <-> (h_secret h = true -> match (h_draft h).(action) with
                          | keep => (h_draft h).(configured) = true
                          | replace => (h_draft h).(value) <> []
                          | clear => True end)).
  { destruct (h_secret h); [|naive_solver]. rewrite app_nil, !when_nil.
    destruct (action (h_draft h)), (configured (h_draft h)), (value (h_draft h)); cbn; naive_solver. }
  rewrite Hd, andb_false_iff, negb_false_iff. clear Hd.
  destruct (truthy key); cbn [negb andb]; [|naive_solver]. destruct (forallb header_unit key); cbn [negb]; [|naive_solver].
  destruct (memb (header_name h) RESERVED_HEADERS) eqn:Er; bool_prop; [naive_solver|].
  rewrite when_nil, memb_not_elem. destruct (isCustomWebhookSecretHeader key); naive_solver.
Qed.

Lemma check_body_spec body : check_body body = [] <-> good_body body.
Proof.
  unfold check_body, good_body. destruct (b_type body) eqn:Eb.
  - rewrite app_nil, when_nil, hasInvalidTemplateVariable_spec. rewrite bool_decide_true by done. cbn [andb].
    destruct (truthy (trim (b_template body))) eqn:Et; cbn [negb]; bool_prop; [|naive_solver].
    unfold isJsonTemplateValid, hasTemplateJsonKey. destruct (parse (b_template body)) as [v|]; cbn [negb]; [|naive_solver].
    rewrite when_nil. assert (template_key v = false <-> forall k, name_in k v -> braces k = false) as ->.
    { rewrite <- not_true_iff_false, template_key_spec. setoid_rewrite <- not_true_iff_false. naive_solver. }
    naive_solver.
  - rewrite app_nil, when_nil, Nat.eqb_neq.
    rewrite (each_nil check_field field_name good_field) by apply check_field_spec.
    split; [intros (H1 & H2 & H3 & _)|intros (H1 & H2 & H3)]; (split; [by destruct (b_fields body)|]); [done|].
    split; [done|]. split; [done|]. intros k _ Hk. by apply elem_of_nil in Hk.
  - rewrite app_nil, when_nil, hasInvalidTemplateVariable_spec. rewrite bool_decide_false by done. cbn [andb].
    destruct (truthy (trim (b_template body))) eqn:Et; cbn [negb]; bool_prop; naive_solver.
Qed.

Lemma check_url_spec url allow : check_url url allow = [] <-> good_url url allow.
Proof.
  unfold check_url, good_url. destruct (action url); rewrite ?when_nil, ?negb_false_iff; try done.
  destruct (truthy (trim (value url))) eqn:Et; cbn [negb]; bool_prop; rewrite ?when_nil, ?negb_false_iff; naive_solver.
Qed.

(** A draft has no issue exactly when it has a name; an address that is stored, or a web
    address without credentials and fragment, or cleared where that is allowed; a body
    whose variables are known, in JSON with no variable in a name, or fields with distinct
    names; and headers with distinct valid names that are not reserved, sensitive ones
    being secret and every secret stored or given. *)
Theorem validateCustomWebhookDraft_spec draft allowClearedUrl :
  validateCustomWebhookDraft draft allowClearedUrl = [] <->
  trim draft.(d_displayName) <> [] /\ good_url draft.(d_url) allowClearedUrl /\ good_body draft.(d_body) /\
  Forall good_header draft.(d_headers) /\ NoDup (List.map header_name draft.(d_headers)).
Proof.
  unfold validateCustomWebhookDraft. rewrite !app_nil, when_nil, negb_false_iff, truthy_true, check_url_spec, check_body_spec.
  rewrite (each_nil check_header header_name good_header) by apply check_header_spec.
  split; [naive_solver|]. intros (? & ? & ? & ? & ?). split_and!; try done. intros k _ Hk. by apply elem_of_nil in Hk.
Qed.
End Accepts.

(** ** An untouched draft *)

Lemma mapS_spec {S A B} (f : A -> M S B) l s :
  Forall2 (fun x y => exists s', y = (f x s').1) l (mapS f l s).1.
Proof.
  revert s. induction l as [|x l IH]; intros s; cbn [mapS]; [constructor|]. unfold bind, ret.
  destruct (f x s) as [y s1] eqn:E. specialize (IH s1). destruct (mapS f l s1) as [ys s2]. cbn [fst] in *.
  constructor; [|done]. exists s. by rewrite E.
Qed.

Section Untouched.
Context {JU : JsUnicode} (uid : nat -> jsstr).

(** The secret of a header view is stored: it comes along, or the server says so. *)
Definition is_secret (v : CustomWebhookHeaderView) : bool := v.(hv_secret) || isCustomWebhookSecretHeader v.(hv_key).
Definition stored (v : CustomWebhookHeaderView) : bool :=
  truthy (default [] v.(hv_value)) || default false v.(hv_configured).

(** What an untouched header sends. *)
Definition same_header (v : CustomWebhookHeaderView) (h : HeaderUpdate) : Prop :=
  (v.(hv_uid) <> [] -> h.(hu_uid) = v.(hv_uid)) /\ h.(hu_key) = trim v.(hv_key) /\ h.(hu_secret) = is_secret v /\
  (if is_secret v then h.(hu_action) = (if stored v then keep else clear) /\ h.(hu_value) = None
   else h.(hu_action) = replace /\ h.(hu_value) = Some (default [] v.(hv_value))).

Lemma hydrate_header_spec v s : same_header v (serialize_header (hydrate_header uid v s).1).
Proof.
  unfold same_header, hydrate_header, is_secret, stored, bind, ret, uid_or, newUid. cbv zeta.
  set (sec := hv_secret v || _). set (val := default [] (hv_value v)).
  assert (Hu : exists u s', (if truthy (hv_uid v) then ret (hv_uid v) else fun n => (uid n, S n)) s = (u, s') /\
    (hv_uid v <> [] -> u = hv_uid v)).
  { destruct (truthy (hv_uid v)) eqn:E; eexists _, _; (split; [reflexivity|]); [done|]. apply truthy_false in E. done. }
  destruct Hu as (u & s' & Hu & Hne). rewrite Hu. clear Hu. unfold serialize_header.
  cbn [fst h_uid h_key h_secret h_draft hu_uid hu_key hu_secret hu_action hu_value action value].
  split; [done|]. split; [done|]. split; [done|]. destruct sec; cbn [andb]; [|done].
  destruct (truthy val); cbn [orb]; [done|]. by destruct (hv_configured v) as [[]|].
Qed.

(** What an untouched address sends. *)
Definition same_url (v : option UrlView) (m : CustomWebhookSecretMutation) : Prop :=
  match v with
  | Some (UrlText s) => if truthy s then m = {| m_action := keep; m_value := None |}
                        else m = {| m_action := replace; m_value := Some [] |}
  | Some (UrlSecret w) => m = {| m_action := if w.(sv_configured) then keep else clear; m_value := None |}
  | None => m = {| m_action := replace; m_value := Some [] |}
  end.

Lemma hydrate_url_spec v : same_url v (serializeSecret (hydrate_url v)).
Proof.
  destruct v as [[s|w]|]; unfold same_url, hydrate_url, serializeSecret; cbn; [|by destruct (sv_configured w)|done].
  by destruct s.
Qed.

Lemma hydrate_parts raw n :
  let d := (hydrateCustomWebhookDraft uid raw n).1 in
  d.(d_displayName) = default [] raw.(v_displayName) /\ d.(d_preset) = normalizePreset raw.(v_preset) /\
  d.(d_url) = hydrate_url raw.(v_url) /\ d.(d_body).(b_type) = normalizeBodyType (raw.(v_body) ≫= bv_type) /\
  d.(d_body).(b_template) = hydrate_template d.(d_body).(b_type) (raw.(v_body) ≫= bv_template) /\
  (exists s, d.(d_headers) = (mapS (hydrate_header uid) (default [] raw.(v_headers)) s).1) /\
  exists s, d.(d_body).(b_fields) = (mapS (hydrate_field uid) (default [] (raw.(v_body) ≫= bv_fields)) s).1.
Proof.
  unfold hydrateCustomWebhookDraft, bind, ret. destruct (mapS _ (default [] (v_headers raw)) n) as [hs s1] eqn:E1.
  destruct (mapS _ _ s1) as [fs s2] eqn:E2. cbn. split_and!; try done; [exists n; by rewrite E1|exists s1; by rewrite E2].
Qed.

Lemma hydrate_field_spec v s : (hydrate_field uid v s).1.(f_key) = v.(fv_key) /\ (hydrate_field uid v s).1.(f_value) = v.(fv_value).
Proof. unfold hydrate_field, bind, ret, uid_or, newUid. by destruct (truthy _). Qed.

(** A webhook opened and saved without an edit sends back its name, preset, body and
    headers as they came, keeps every stored secret and sends the value of none. *)
Theorem untouched_draft_keeps_secrets raw n :
  let u := serializeCustomWebhookDraft (hydrateCustomWebhookDraft uid raw n).1 in
  let type := normalizeBodyType (raw.(v_body) ≫= bv_type) in
  u.(u_displayName) = trim (default [] raw.(v_displayName)) /\ u.(u_preset) = normalizePreset raw.(v_preset) /\
  same_url raw.(v_url) u.(u_url) /\
  Forall2 same_header (default [] raw.(v_headers)) u.(u_headers) /\
  u.(u_type) = type /\ u.(u_template) = hydrate_template type (raw.(v_body) ≫= bv_template) /\
  u.(u_fields) = (if bool_decide (type = form_body)
                  then List.map (fun f => (trim f.(fv_key), f.(fv_value))) (default [] (raw.(v_body) ≫= bv_fields)) else []).
Proof.
  cbv zeta. destruct (hydrate_parts raw n) as (H1 & H2 & H3 & H4 & H5 & (s & H6) & (s' & H7)).
  set (d := (hydrateCustomWebhookDraft uid raw n).1) in *. unfold serializeCustomWebhookDraft.
  cbn [u_displayName u_preset u_url u_headers u_type u_template u_fields]. rewrite H1, H2, H3, H5, H4, H6, H7.
  split_and!; try done.
  - apply hydrate_url_spec.
  - apply Forall2_fmap_r. eapply Forall2_impl; [|exact (mapS_spec (hydrate_header uid) (default [] (v_headers raw)) s)]. intros v h (s1 & ->). apply hydrate_header_spec.
  - by destruct (normalizeBodyType _).
  - destruct (bool_decide _); [|done]. pose proof (mapS_spec (hydrate_field uid) (default [] (v_body raw ≫= bv_fields)) s') as HF.
    clear -HF. induction HF as [|v f l l' (s1 & ->) _ IH]; [done|]. cbn [List.map]. rewrite IH.
    by destruct (hydrate_field_spec v s1) as [-> ->].
Qed.
End Untouched.

(** ** Presets *)

Definition presets : list CustomWebhookPreset := [genericJson; slack; discord; teamsWorkflows; custom].

(** Applying a preset that is not custom makes a body that is valid and pristine; a new
    draft lacks a name and an address only. *)
Theorem presets_valid {JU : JsUnicode} {WU : WebURL} draft preset :
  let d := applyCustomWebhookPreset draft preset in
  (preset <> custom -> isCustomWebhookPresetPristine d = true /\ good_body d.(d_body)) /\
  (preset = custom -> d.(d_body) = draft.(d_body) /\ isCustomWebhookPresetPristine d = false) /\
  forall allow, validateCustomWebhookDraft createDefaultCustomWebhookDraft allow =
    [(js "displayName", displayNameRequired); (js "url", urlRequired)].
Proof.
  cbv zeta. split; [|split].
  - intros Hp. split.
    + unfold isCustomWebhookPresetPristine. cbn [d_preset applyCustomWebhookPreset d_body].
      destruct (decide _); [done|]. destruct preset; try done; cbn; by rewrite streqb_refl.
    + unfold applyCustomWebhookPreset. cbn [d_body]. apply check_body_spec.
      destruct preset; try done; vm_compute; reflexivity.
  - intros ->. done.
  - intros allow. vm_compute. reflexivity.
Qed.

(** ** Where a variable goes *)

Lemma at_drop {A} (s : list A) k j : drop k s !! j = s !! (k + j).
Proof. apply lookup_drop. Qed.

Lemma string_end_quote s i e : string_end s i = Some e -> i <= e /\ s !! (e - i) = Some 34%N.
Proof.
  revert i. induction s as [s IH] using (induction_ltof1 _ (@length N)). intros i. unfold ltof in IH.
  destruct s as [|c s]; [done|]. cbn [string_end]. destruct (N.eqb_spec c 34) as [->|].
  { intros [= <-]. split; [lia|]. by rewrite Nat.sub_diag. }
  destruct (c =? 92)%N.
  - destruct s as [|d s]; [done|]. destruct (line_terminator d); [done|]. intros H.
    apply IH in H as [H1 H2]; [|cbn; lia]. split; [lia|]. by replace (e - i) with (S (S (e - S (S i)))) by lia.
  - intros H. apply IH in H as [H1 H2]; [|cbn; lia]. split; [lia|]. by replace (e - i) with (S (e - S i)) by lia.
Qed.

Lemma skip_blank_drop s i r j : skip_blank s i = (r, j) -> i <= j /\ r = drop (j - i) s.
Proof.
  revert i. induction s as [|c s IH]; intros i; cbn [skip_blank].
  - intros [= <- <-]. by rewrite Nat.sub_diag.
  - destruct (is_ws c); [|intros [= <- <-]; by rewrite Nat.sub_diag].
    intros H. apply IH in H as [H ->]. split; [lia|]. by replace (j - i) with (S (j - S i)) by lia.
Qed.

Lemma colon_string_quote s i e : colon_string s i = Some e -> i <= e /\ s !! (e - i) = Some 34%N.
Proof.
  unfold colon_string. destruct s as [|c s]; [done|]. destruct (c =? 58)%N; [|done].
  destruct (skip_blank s (S i)) as [r j] eqn:E. apply skip_blank_drop in E as [Hj Hr].
  destruct r as [|q r]; [done|]. destruct (q =? 34)%N; [|done]. intros H. apply string_end_quote in H as [H1 H2].
  split; [lia|]. replace (e - i) with (S (j - S i + S (e - S j))) by lia. cbn [lookup list_lookup].
  change (s !! (j - S i + S (e - S j)) = Some 34%N). by rewrite <- at_drop, <- Hr.
Qed.

Lemma named_string_quote names s e : named_string names s = Some e -> s !! e = Some 34%N.
Proof.
  unfold named_string. destruct (List.find _ names) as [name|]; [|done].
  destruct (skip_blank _ _) as [r i] eqn:E. apply skip_blank_drop in E as [Hi ->].
  intros H. apply colon_string_quote in H as [H1 H2]. rewrite !at_drop in H2.
  by replace (length name + 2 + (i - (length name + 2) + (e - i))) with e in H2 by lia.
Qed.

Lemma search_quote f s i e :
  (forall s e, f s = Some e -> s !! e = Some 34%N) -> search f s i = Some e -> i <= e /\ s !! (e - i) = Some 34%N.
Proof.
  intros Hf. revert i. induction s as [|c s IH]; intros i; cbn [search].
  - destruct (f []) eqn:E; [|done]. by apply Hf in E.
  - destruct (f (c :: s)) eqn:E.
    + intros [= <-]. split; [lia|]. rewrite Nat.add_comm, Nat.add_sub. by apply Hf.
    + intros H. apply IH in H as [H1 H2]. split; [lia|]. by replace (e - i) with (S (e - S i)) by lia.
Qed.

Lemma match_quote template e :
  match stringValuePattern template with Some e => Some e | None => anyStringValuePattern template end = Some e ->
  template !! e = Some 34%N.
Proof.
  destruct (stringValuePattern template) as [e'|] eqn:E.
  - intros [= <-]. apply search_quote in E as [_ E]; [by rewrite Nat.sub_0_r in E|]. apply named_string_quote.
  - intros H. apply search_quote in H as [_ H]; [by rewrite Nat.sub_0_r in H|].
    intros s e' Hs. apply colon_string_quote in Hs as [_ Hs]. by rewrite Nat.sub_0_r in Hs.
Qed.

(** A selection inside the template. *)
Definition selected (sel : option CustomWebhookTemplateSelection) (template : jsstr) (a b : nat) : Prop :=
  exists s, sel = Some s /\ s.(s_start) = Z.of_nat a /\ s.(s_end) = Z.of_nat b /\ a <= b <= length template.

(** The variable at its place, and the cursor after it. *)
Definition placed (r : CustomWebhookTemplateInsertion) (a variable c : jsstr) : Prop :=
  i_template r = a ++ variable ++ c /\ i_cursor r = length (a ++ variable).

Lemma cut_at (s variable : jsstr) i j : i <= j <= length s ->
  exists a b c, s = a ++ b ++ c /\ length a = i /\ length (a ++ b) = j /\
    placed {| i_template := slice s 0 i ++ variable ++ slice_from s j; i_cursor := i + length variable |} a variable c.
Proof.
  intros H. exists (take i s), (take (j - i) (drop i s)), (drop j s).
  assert (Hd : drop j s = drop (j - i) (drop i s)) by (rewrite drop_drop; f_equal; lia).
  split; [by rewrite Hd, !take_drop|]. rewrite !length_app, !length_take, length_drop.
  split; [lia|]. split; [lia|]. unfold placed, slice, slice_from. rewrite Nat.sub_0_r, drop_0.
  split; [done|]. cbn [i_cursor]. rewrite length_app, length_take. lia.
Qed.

(** The two templates made around a variable hold it as their only string. *)
Lemma around_variable variable : variable ∈ CUSTOM_WEBHOOK_VARIABLES ->
  let o := around (quoted "{
  'message': '") variable (quoted "'
}") in
  let a := around (quoted "[
  '") variable (quoted "'
]") in
  placed o (quoted "{
  'message': '") variable (quoted "'
}") /\ parse (i_template o) = Some (JObj [(js "message", JStr variable)]) /\
  placed a (quoted "[
  '") variable (quoted "'
]") /\ parse (i_template a) = Some (JArr [JStr variable]).
Proof.
  intros Hv. rewrite list_elem_of_In in Hv.
  repeat (destruct Hv as [<-|Hv]; [unfold placed; split_and!; vm_compute; reflexivity|]). destruct Hv.
Qed.

Lemma plain_spec template variable type : type <> form_body -> variable ∈ CUSTOM_WEBHOOK_VARIABLES ->
  let r := insertCustomWebhookVariable template variable type None in
  (type = text_body /\ placed r template variable []) \/
  (type = json_body /\ exists a c, template = a ++ 34%N :: c /\ placed r a variable (34%N :: c)) \/
  (type = json_body /\ exists a c, placed r a variable c /\
     (trim template = js "{}" /\ parse (i_template r) = Some (JObj [(js "message", JStr variable)]) \/
      trim template = js "[]" /\ parse (i_template r) = Some (JArr [JStr variable]))) \/
  (type = json_body /\ i_template r = template /\ i_cursor r = length template).
Proof.
  intros Ht Hv. cbv zeta. unfold insertCustomWebhookVariable. destruct type; [|done|].
  2:{ left. split; [done|]. unfold placed. cbn. by rewrite app_nil_r, length_app. }
  right. pose proof (match_quote template) as Hq.
  destruct (match stringValuePattern template with Some e => Some e | None => _ end) as [e|].
  - left. split; [done|]. specialize (Hq e eq_refl). pose proof (lookup_lt_Some _ _ _ Hq) as Hl.
    destruct (cut_at template variable e e) as (a & b & c & Hs & Ha & Hb & Hp); [lia|].
    assert (b = []) as -> by (apply nil_length_inv; rewrite length_app in Hb; lia). cbn [app] in Hs.
    rewrite Hs, <- Ha, lookup_app_r, Nat.sub_diag in Hq by done. destruct c as [|q c]; [done|]. injection Hq as ->.
    exists a, c. done.
  - right. destruct around_variable with variable as (H1 & H2 & H3 & H4); [done|].
    destruct (trim template === js "{}") eqn:E1; [|destruct (trim template === js "[]") eqn:E2]; bool_prop.
    + left. split; [done|]. eexists _, _. split; [exact H1|]. left. done.
    + left. split; [done|]. eexists _, _. split; [exact H3|]. right. done.
    + right. done.
Qed.

(** Inserting a variable replaces a selection inside the template and puts the cursor
    after it; without one the variable goes to the end of a text, before a quote of a JSON
    template, or into a new string when that is an empty object or array; otherwise the
    template stays as it is. *)
Theorem insertCustomWebhookVariable_spec template variable type sel :
  type <> form_body -> variable ∈ CUSTOM_WEBHOOK_VARIABLES ->
  let r := insertCustomWebhookVariable template variable type sel in
  (forall i j, selected sel template i j -> exists a b c,
     template = a ++ b ++ c /\ length a = i /\ length (a ++ b) = j /\ placed r a variable c) /\
  ((forall i j, ~ selected sel template i j) ->
   (type = text_body /\ placed r template variable []) \/
   (type = json_body /\ exists a c, template = a ++ 34%N :: c /\ placed r a variable (34%N :: c)) \/
   (type = json_body /\ exists a c, placed r a variable c /\
     (trim template = js "{}" /\ parse (i_template r) = Some (JObj [(js "message", JStr variable)]) \/
      trim template = js "[]" /\ parse (i_template r) = Some (JArr [JStr variable]))) \/
   (type = json_body /\ i_template r = template /\ i_cursor r = length template)).
Proof.
  intros Ht Hv. cbv zeta. split.
  - intros i j ([a b] & -> & Ha & Hb & Hij). cbn [s_start s_end] in *. unfold insertCustomWebhookVariable.
    cbn [s_start s_end]. subst a b. rewrite !Nat2Z.id.
    assert ((0 <=? Z.of_nat i)%Z && (Z.of_nat i <=? Z.of_nat j)%Z && (Z.of_nat j <=? Z.of_nat (length template))%Z = true)
      as -> by lia. by apply cut_at.
  - intros Hno. assert (insertCustomWebhookVariable template variable type sel =
      insertCustomWebhookVariable template variable type None) as ->; [|by apply plain_spec].
    destruct sel as [[a b]|]; [|done]. unfold insertCustomWebhookVariable. cbn [s_start s_end].
    destruct ((0 <=? a)%Z && (a <=? b)%Z && (b <=? Z.of_nat (length template))%Z) eqn:E; [|done].
    exfalso. apply (Hno (Z.to_nat a) (Z.to_nat b)). eexists. split; [reflexivity|]. cbn [s_start s_end]. lia.
Qed.

(** A colon at the end of a string misleads the expression: in a valid array of strings
    the variable lands between two items. *)
Lemma insert_breaks_json :
  parse (quoted "['Note:', 'x']") = Some (JArr [JStr (js "Note:"); JStr (js "x")]) /\
  insert_json (quoted "['Note:', 'x']") = quoted "['Note:', {{title}}'x']" /\
  parse (insert_json (quoted "['Note:', 'x']")) = None.
Proof. by vm_compute. Qed.

(** ** Summaries *)

(** Two views that differ in the text of the address, in what is stored of it and in the
    contents of the headers only. *)
Definition same_shape (a b : CustomWebhookConfigView) : Prop :=
  (a.(v_body) ≫= bv_type) = (b.(v_body) ≫= bv_type) /\
  length (default [] a.(v_headers)) = length (default [] b.(v_headers)) /\
  match a.(v_url), b.(v_url) with
  | Some (UrlText s), Some (UrlText t) => truthy s = truthy t
  | Some (UrlSecret v), Some (UrlSecret w) => v.(sv_masked) = w.(sv_masked)
  | None, None => True
  | _, _ => False
  end.

(** The safe summary of a webhook does not depend on the text of its address, on the
    address behind a mask nor on any header, but for their number. *)
Theorem safe_summary_hides a b includeUrl : same_shape a b ->
  formatCustomWebhookSafeSummary a includeUrl = formatCustomWebhookSafeSummary b includeUrl.
Proof.
  intros (H1 & H2 & H3). unfold formatCustomWebhookSafeSummary, maskCustomWebhookUrl. rewrite H1, H2.
  destruct (v_url a) as [[s|v]|], (v_url b) as [[t|w]|]; try done; by rewrite H3.
Qed.

(** ** Identifiers of version 4 *)

Definition is_hex (c : N) : bool := is_digit c || ((97 <=? c) && (c <=? 102))%N.

Lemma hex_lower_hex n : (n < 16)%N -> is_hex (hex_lower n) = true.
Proof. intros H. unfold hex_lower, is_hex, is_digit. destruct (N.ltb_spec n 10); lia. Qed.

Lemma hex_lower_inj m n : (m < 16)%N -> (n < 16)%N -> hex_lower m = hex_lower n -> m = n.
Proof.
  intros Hm Hn H. apply hex_value_lower in Hm, Hn. congruence.
Qed.

Definition bytes_ok (l : list N) : Prop := Forall (fun b => (b < 256)%N) l.

Lemma byte_hex_hex b : (b < 256)%N -> Forall (fun c => is_hex c = true) (byte_hex b).
Proof.
  intros H. assert (b / 16 < 16)%N by (apply N.Div0.div_lt_upper_bound; lia). pose proof (N.mod_lt b 16).
  unfold byte_hex. repeat constructor; apply hex_lower_hex; lia.
Qed.

Lemma hex_bytes_inj a b : bytes_ok a -> bytes_ok b -> flat_map byte_hex a = flat_map byte_hex b -> a = b.
Proof.
  revert b. induction a as [|x a IH]; intros [|y b] Ha Hb H; try done.
  apply Forall_cons_iff in Ha as [Hx Ha], Hb as [Hy Hb]. cbn [flat_map byte_hex app] in H.
  injection H as H1 H2 H. f_equal; [|by apply IH].
  assert (x / 16 < 16)%N by (apply N.Div0.div_lt_upper_bound; lia).
  assert (y / 16 < 16)%N by (apply N.Div0.div_lt_upper_bound; lia).
  pose proof (N.mod_lt x 16). pose proof (N.mod_lt y 16). apply hex_lower_inj in H1, H2; lia.
Qed.

Lemma stamped_nibbles x : (x < 256)%N ->
  (N.lor (N.land x 15) 64 < 256)%N /\ (N.lor (N.land x 15) 64 / 16 = 4)%N /\
  (N.lor (N.land x 63) 128 < 256)%N /\ (8 <= N.lor (N.land x 63) 128 / 16 <= 11)%N.
Proof.
  intros H.
  assert (Hall : forall_from (fun x => (N.lor (N.land x 15) 64 <? 256)%N && (N.lor (N.land x 15) 64 / 16 =? 4)%N &&
    (N.lor (N.land x 63) 128 <? 256)%N && (8 <=? N.lor (N.land x 63) 128 / 16)%N &&
    (N.lor (N.land x 63) 128 / 16 <=? 11)%N) 0 256 = true) by (vm_compute; reflexivity).
  pose proof (forall_from_spec _ _ _ Hall x) as Hx. cbn beta in Hx. rewrite !andb_true_iff in Hx.
  destruct Hx as ((((H1 & H2) & H3) & H4) & H5); [lia|]. lia.
Qed.

Lemma stamp_ok l : bytes_ok l -> length l = 16 -> bytes_ok (stamp l) /\ length (stamp l) = 16.
Proof.
  intros Hl Hlen. unfold stamp. rewrite !length_insert. split; [|done].
  assert (Hb : forall i, i < 16 -> (l !!! i < 256)%N).
  { intros i Hi. unfold bytes_ok in Hl. rewrite Forall_lookup in Hl. apply (Hl i). apply list_lookup_lookup_total_lt. lia. }
  apply Forall_insert; [apply Forall_insert; [done|]|]; apply stamped_nibbles; apply Hb; lia.
Qed.

Lemma drop_sub c (s : jsstr) i : c ∈ drop i s -> c ∈ s.
Proof. intros H. rewrite <- (take_drop i s), elem_of_app. by right. Qed.

Lemma slice_sub c (s : jsstr) i j : c ∈ slice s i j -> c ∈ s.
Proof. intros H. apply (drop_sub c s i). rewrite <- (take_drop (j - i) (drop i s)), elem_of_app. by left. Qed.

(** The groups of an identifier made of sixteen bytes. *)
Lemma uuid_groups bytes : bytes_ok bytes -> length bytes = 16 ->
  exists a b c d e, split 45 (uuid_of_bytes bytes) = [a; b; 52%N :: c; d; e] /\
    a ++ b ++ (52%N :: c) ++ d ++ e = flat_map byte_hex (stamp bytes) /\
    List.map (@length N) [a; b; 52%N :: c; d; e] = [8; 4; 4; 4; 12] /\
    (exists x, head d = Some x /\ x ∈ [56; 57; 97; 98]%N).
Proof.
  intros Hl Hlen. destruct (stamp_ok bytes Hl Hlen) as [Hs Hslen].
  assert (Hx : Forall (fun c => is_hex c = true) (flat_map byte_hex (stamp bytes))).
  { clear -Hs. induction Hs as [|b l Hb Hs IH]; [constructor|]. cbn [flat_map]. apply Forall_app_2; [by apply byte_hex_hex|done]. }
  assert (Hb : forall i, i < 16 -> (bytes !!! i < 256)%N).
  { intros i Hi. unfold bytes_ok in Hl. rewrite Forall_lookup in Hl. apply (Hl i). apply list_lookup_lookup_total_lt. lia. }
  pose proof (stamped_nibbles _ (Hb 6 ltac:(lia))) as (_ & H6 & _). pose proof (stamped_nibbles _ (Hb 8 ltac:(lia))) as (_ & _ & _ & H8).
  assert (E6 : stamp bytes !! 6 = Some (N.lor (N.land (bytes !!! 6) 15) 64)).
  { unfold stamp. rewrite list_lookup_insert_ne, list_lookup_insert_eq; [done|lia|done]. }
  assert (E8 : stamp bytes !! 8 = Some (N.lor (N.land (bytes !!! 8) 63) 128)).
  { unfold stamp. rewrite list_lookup_insert_eq; [done|rewrite length_insert; lia]. }
  unfold uuid_of_bytes. destruct (stamp bytes) as [|b0 [|b1 [|b2 [|b3 [|b4 [|b5 [|b6 [|b7 [|b8 [|b9 [|ba [|bb [|bc [|bd [|be [|bf [|]]]]]]]]]]]]]]]]];
    try done. injection E6 as ->. injection E8 as ->.
  set (h := flat_map byte_hex _) in *. 
  eexists (slice h 0 8), (slice h 8 12), (slice h 13 16), (slice h 16 20), (slice_from h 20).
  assert (Hc : slice h 12 16 = 52%N :: slice h 13 16) by (subst h; unfold slice; cbn; by rewrite H6).
  rewrite <- Hc. split_and!.
  - assert (Hn : forall w, (exists i j, w = slice h i j) \/ (exists i, w = slice_from h i) -> 45%N ∉ w).
    { intros w Hw Hin. assert (Hh : 45%N ∈ h).
      { destruct Hw as [(i & j & ->)|(i & ->)]; [by apply slice_sub in Hin|by apply drop_sub in Hin]. }
      rewrite Forall_elem in Hx. by apply Hx in Hh. }
    change (js "-") with [45%N]. cbn [app]. rewrite !split_app, split_no_sep by (apply Hn; eauto). done.
  - done.
  - done.
  - exists (hex_lower (N.lor (N.land (bytes !!! 8) 63) 128 / 16)). split; [done|].
    set (x := (N.lor _ 128 / 16)%N) in *. clearbody x.
    assert (Hx8 : x = 8%N \/ x = 9%N \/ x = 10%N \/ x = 11%N) by lia.
    destruct Hx8 as [->|[->|[->| ->]]]; refine (bool_decide_unpack _ _); vm_compute; exact I.
Qed.

(** The identifier made of sixteen bytes has the form of version 4: five groups of
    8, 4, 4, 4 and 12 hexadecimal digits, the third starting with 4 and the fourth with 8,
    9, a or b; two identifiers are equal exactly when the bytes agree apart from the six
    bits that mark the version. *)
Theorem uuid_of_bytes_v4 x y : bytes_ok x -> bytes_ok y -> length x = 16 -> length y = 16 ->
  (exists a b c d e, split 45 (uuid_of_bytes x) = [a; b; 52%N :: c; d; e] /\
    List.map (@length N) [a; b; 52%N :: c; d; e] = [8; 4; 4; 4; 12] /\
    Forall (fun u => is_hex u = true) (a ++ b ++ (52%N :: c) ++ d ++ e) /\
    exists u, head d = Some u /\ u ∈ [56; 57; 97; 98]%N) /\
  (uuid_of_bytes x = uuid_of_bytes y <-> stamp x = stamp y).
Proof.
  intros Hx Hy Lx Ly. destruct (uuid_groups x Hx Lx) as (a & b & c & d & e & H1 & H2 & H3 & H4). split.
  - exists a, b, c, d, e. split_and!; try done. rewrite H2.
    destruct (stamp_ok x Hx Lx) as [Hs _]. clear -Hs.
    induction Hs as [|z l Hz Hs IH]; [constructor|]. cbn [flat_map]. apply Forall_app_2; [by apply byte_hex_hex|done].
  - split; [|unfold uuid_of_bytes; by intros ->]. intros E.
    destruct (uuid_groups y Hy Ly) as (a' & b' & c' & d' & e' & H1' & H2' & _). rewrite E, H1' in H1.
    injection H1 as -> -> -> -> ->. rewrite H2' in H2. symmetry.
    apply hex_bytes_inj; [by apply stamp_ok..|done].
Qed.

(** ** Witnesses *)

Definition sample_uid (n : nat) : jsstr := js "u" ++ dec (N.of_nat n).

Lemma presets_valid_witness :
  isCustomWebhookPresetPristine (applyCustomWebhookPreset createDefaultCustomWebhookDraft teamsWorkflows) = true.
Proof. apply (presets_valid createDefaultCustomWebhookDraft teamsWorkflows). done. Defined.

Lemma insertCustomWebhookVariable_spec_witness :
  exists a b c, js "ab cd" = a ++ b ++ c /\ length a = 1 /\ length (a ++ b) = 4 /\
    placed (insertCustomWebhookVariable (js "ab cd") (js "{{type}}") text_body (Some {| s_start := 1; s_end := 4 |}))
      a (js "{{type}}") c.
Proof.
  apply (insertCustomWebhookVariable_spec (js "ab cd") (js "{{type}}") text_body); [done|apply memb_elem; reflexivity|].
  eexists. split; [reflexivity|]. cbn. lia.
Defined.

Definition sample_view (address secret : jsstr) : CustomWebhookConfigView :=
  {| v_state := None; v_displayName := Some (js " ops "); v_preset := Some (js "slack"); v_url := Some (UrlText address);
     v_body := None;
     v_headers := Some [ {| hv_uid := js "h1"; hv_key := js "X-Api-Key"; hv_secret := false; hv_value := Some secret;
                            hv_configured := None; hv_masked := None |} ] |}.

Lemma safe_summary_hides_witness :
  formatCustomWebhookSafeSummary (sample_view (js "https://a/1") (js "s1")) true =
  formatCustomWebhookSafeSummary (sample_view (js "https://b/2") (js "s2")) true.
Proof. apply safe_summary_hides. done. Defined.

Lemma untouched_draft_keeps_secrets_witness :
  Forall2 same_header (default [] (sample_view (js "https://a/1") (js "s1")).(v_headers))
    (serializeCustomWebhookDraft
       (hydrateCustomWebhookDraft sample_uid (sample_view (js "https://a/1") (js "s1")) 0).1).(u_headers).
Proof. apply (untouched_draft_keeps_secrets sample_uid (sample_view (js "https://a/1") (js "s1")) 0). Defined.

Lemma uuid_of_bytes_v4_witness :
  uuid_of_bytes (repeat 0%N 16) = uuid_of_bytes (<[6 := 96%N]> (repeat 0%N 16)) <->
  stamp (repeat 0%N 16) = stamp (<[6 := 96%N]> (repeat 0%N 16)).
Proof. apply uuid_of_bytes_v4; try reflexivity; unfold bytes_ok; refine (bool_decide_unpack _ _); vm_compute; exact I. Defined.
