(* ===== verification/WebhookForm.v ===== *)
(** * The form of a custom webhook

    The script and the event handlers of
    src/frontend/src/views/setting/alert/setting/drawer/custom-webhook-form.vue.  The
    state is the draft the parent holds, which every emitted value replaces, and the
    component's own variables.  An event is handled at once, except that a preset that
    overwrites the body waits for the answer of a dialog.  A handler answers [None] where
    the code would throw. *)

From S2P Require Import Prelude JsString WebUrl SecretField CustomWebhook.

#[local] Open Scope list_scope.

Record Form := {
  modelValue : CustomWebhookDraft;
  bodyDrafts : CustomWebhookBodyType -> CustomWebhookBody;
  bodyTemplateFocused : bool;
  activeFormFieldIndex : option nat;
  caret : option nat;                      (* where the textarea was last asked to put its cursor *)
  asking : list CustomWebhookPreset;       (* the calls of changePreset that await their dialog *)
  uids : nat;                              (* the identifiers made so far *)
}.

Section Form.
Context {JU : JsUnicode} (uid : nat -> jsstr) (allowClearUrl : bool).

Definition set_bodyDraft (type : CustomWebhookBodyType) (body : CustomWebhookBody)
    (drafts : CustomWebhookBodyType -> CustomWebhookBody) : CustomWebhookBodyType -> CustomWebhookBody :=
  fun t => if decide (t = type) then body else drafts t.

(** The parent takes the value; the watcher of the body keeps it as the draft of its type. *)
Definition emitValue (value : CustomWebhookDraft) (f : Form) : Form :=
  {| modelValue := value; bodyDrafts := set_bodyDraft value.(d_body).(b_type) value.(d_body) f.(bodyDrafts);
     bodyTemplateFocused := f.(bodyTemplateFocused); activeFormFieldIndex := f.(activeFormFieldIndex);
     caret := f.(caret); asking := f.(asking); uids := f.(uids) |}.

Definition set_focus (focused : bool) (active : option nat) (f : Form) : Form :=
  {| modelValue := f.(modelValue); bodyDrafts := f.(bodyDrafts); bodyTemplateFocused := focused;
     activeFormFieldIndex := active; caret := f.(caret); asking := f.(asking); uids := f.(uids) |}.
Definition set_caret (c : nat) (f : Form) : Form :=
  {| modelValue := f.(modelValue); bodyDrafts := f.(bodyDrafts); bodyTemplateFocused := true;
     activeFormFieldIndex := f.(activeFormFieldIndex); caret := Some c; asking := f.(asking); uids := f.(uids) |}.
Definition set_asking (l : list CustomWebhookPreset) (f : Form) : Form :=
  {| modelValue := f.(modelValue); bodyDrafts := f.(bodyDrafts); bodyTemplateFocused := f.(bodyTemplateFocused);
     activeFormFieldIndex := f.(activeFormFieldIndex); caret := f.(caret); asking := l; uids := f.(uids) |}.
Definition set_drafts (drafts : CustomWebhookBodyType -> CustomWebhookBody) (f : Form) : Form :=
  {| modelValue := f.(modelValue); bodyDrafts := drafts; bodyTemplateFocused := f.(bodyTemplateFocused);
     activeFormFieldIndex := f.(activeFormFieldIndex); caret := f.(caret); asking := f.(asking); uids := f.(uids) |}.

(** createCustomWebhookUid *)
Definition fresh_uid (f : Form) : jsstr * Form :=
  (uid f.(uids),
   {| modelValue := f.(modelValue); bodyDrafts := f.(bodyDrafts); bodyTemplateFocused := f.(bodyTemplateFocused);
      activeFormFieldIndex := f.(activeFormFieldIndex); caret := f.(caret); asking := f.(asking);
      uids := S f.(uids) |}).

(** Copies of the draft with some members replaced. *)
Definition with_displayName (s : jsstr) (d : CustomWebhookDraft) : CustomWebhookDraft :=
  {| d_state := d.(d_state); d_displayName := s; d_preset := d.(d_preset); d_url := d.(d_url); d_body := d.(d_body);
     d_headers := d.(d_headers) |}.
Definition with_url (u : SecretDraft) (d : CustomWebhookDraft) : CustomWebhookDraft :=
  {| d_state := d.(d_state); d_displayName := d.(d_displayName); d_preset := d.(d_preset); d_url := u;
     d_body := d.(d_body); d_headers := d.(d_headers) |}.
Definition with_custom_body (b : CustomWebhookBody) (d : CustomWebhookDraft) : CustomWebhookDraft :=
  {| d_state := d.(d_state); d_displayName := d.(d_displayName); d_preset := custom; d_url := d.(d_url); d_body := b;
     d_headers := d.(d_headers) |}.
Definition with_headers (l : list CustomWebhookHeaderDraft) (d : CustomWebhookDraft) : CustomWebhookDraft :=
  {| d_state := d.(d_state); d_displayName := d.(d_displayName); d_preset := d.(d_preset); d_url := d.(d_url);
     d_body := d.(d_body); d_headers := l |}.
Definition with_fields (l : list CustomWebhookFormField) (b : CustomWebhookBody) : CustomWebhookBody :=
  {| b_type := b.(b_type); b_template := b.(b_template); b_fields := l |}.

(** *** Name, preset and address *)

Definition updateDisplayName (displayName : jsstr) (f : Form) : Form :=
  emitValue (with_displayName displayName f.(modelValue)) f.

(** The part of changePreset after the dialog. *)
Definition apply_preset (preset : CustomWebhookPreset) (f : Form) : Form :=
  let next := applyCustomWebhookPreset f.(modelValue) preset in
  emitValue next (set_focus false None (set_drafts (set_bodyDraft next.(d_body).(b_type) next.(d_body) f.(bodyDrafts)) f)).

Definition changePreset (preset : CustomWebhookPreset) (f : Form) : Form :=
  let d := f.(modelValue) in
  if decide (preset = d.(d_preset)) then f
  else
    let hasBodyContent := truthy d.(d_body).(b_template) || negb (length d.(d_body).(b_fields) =? 0) in
    let overwritesBody := negb (bool_decide (preset = custom)) && negb (isCustomWebhookPresetPristine d) && hasBodyContent in
    if overwritesBody then set_asking (f.(asking) ++ [preset]) f else apply_preset preset f.

(** The answer of the dialog of the call at position [i]. *)
Definition answerPreset (i : nat) (confirmed : bool) (f : Form) : Form :=
  match f.(asking) !! i with
  | None => f
  | Some preset =>
      let f := set_asking (delete i f.(asking)) f in
      if confirmed then apply_preset preset f else f
  end.

Definition updateUrlValue (value : jsstr) (f : Form) : Form :=
  emitValue (with_url (replaceSecretDraft f.(modelValue).(d_url) value) f.(modelValue)) f.
Definition keepUrl (f : Form) : Form := emitValue (with_url (keepSecretDraft f.(modelValue).(d_url)) f.(modelValue)) f.
Definition clearUrl (f : Form) : Form :=
  if negb allowClearUrl then f else emitValue (with_url (clearSecretDraft f.(modelValue).(d_url)) f.(modelValue)) f.

(** *** Body *)

Definition defaultBodyForType (type : CustomWebhookBodyType) (f : Form) : CustomWebhookBody * Form :=
  match type with
  | form_body =>
      let '(u, f) := fresh_uid f in
      ({| b_type := type; b_template := []; b_fields := [createCustomWebhookFormField u] |}, f)
  | text_body => ({| b_type := type; b_template := js "{{message}}"; b_fields := [] |}, f)
  | json_body => ({| b_type := type; b_template := js "{}"; b_fields := [] |}, f)
  end.

Definition changeBodyType (type : CustomWebhookBodyType) (f : Form) : Form :=
  let current := f.(modelValue).(d_body) in
  let f := set_drafts (set_bodyDraft current.(b_type) current f.(bodyDrafts)) f in
  let cached := f.(bodyDrafts) type in
  let '(body, f) := if truthy cached.(b_template) || negb (length cached.(b_fields) =? 0) then (cached, f)
                    else defaultBodyForType type f in
  emitValue (with_custom_body body f.(modelValue)) (set_focus false None f).

Definition updateBodyTemplate (template : jsstr) (f : Form) : Form :=
  emitValue (updateCustomWebhookBodyTemplate f.(modelValue) template) f.

Definition set_fields (l : list CustomWebhookFormField) (f : Form) : Form :=
  emitValue (with_custom_body (with_fields l f.(modelValue).(d_body)) f.(modelValue)) f.

Definition addFormField (f : Form) : Form :=
  let '(u, f) := fresh_uid f in set_fields (f.(modelValue).(d_body).(b_fields) ++ [createCustomWebhookFormField u]) f.

Variant FieldPart := the_key | the_value.
Definition set_part (part : FieldPart) (value : jsstr) (item : CustomWebhookFormField) : CustomWebhookFormField :=
  match part with
  | the_key => {| f_uid := item.(f_uid); f_key := value; f_value := item.(f_value) |}
  | the_value => {| f_uid := item.(f_uid); f_key := item.(f_key); f_value := value |}
  end.

Definition updateFormField (index : nat) (field : FieldPart) (value : jsstr) (f : Form) : Form :=
  set_fields (alter (set_part field value) index f.(modelValue).(d_body).(b_fields)) f.

Definition removeFormField (index : nat) (f : Form) : Form :=
  let f := set_fields (delete index f.(modelValue).(d_body).(b_fields)) f in
  match f.(activeFormFieldIndex) with
  | Some i => if i =? index then set_focus f.(bodyTemplateFocused) None f
              else if index <? i then set_focus f.(bodyTemplateFocused) (Some (i - 1)) f else f
  | None => f
  end.

(** *** Headers *)

Definition addHeader (f : Form) : Form :=
  let '(u, f) := fresh_uid f in
  emitValue (with_headers (f.(modelValue).(d_headers) ++ [createCustomWebhookHeader u]) f.(modelValue)) f.

Definition updateHeader (index : nat) (patch : CustomWebhookHeaderDraft -> CustomWebhookHeaderDraft) (f : Form) : Form :=
  emitValue (with_headers (alter patch index f.(modelValue).(d_headers)) f.(modelValue)) f.

(** The patch [{ value }]. *)
Definition patch_value (v : jsstr) (h : CustomWebhookHeaderDraft) : CustomWebhookHeaderDraft :=
  let d := h.(h_draft) in
  {| h_uid := h.(h_uid); h_key := h.(h_key); h_secret := h.(h_secret);
     h_draft := {| configured := d.(configured); masked := d.(masked); action := d.(action); value := v;
                   originalValue := d.(originalValue) |} |}.
Definition updateHeaderValue (index : nat) (value : jsstr) (f : Form) : Form := updateHeader index (patch_value value) f.

Definition updateSecretHeaderValue (index : nat) (value : jsstr) (f : Form) : Form :=
  updateHeader index (fun header => replaceSecretDraft header value) f.

Definition patch_key (key : jsstr) (h : CustomWebhookHeaderDraft) : CustomWebhookHeaderDraft :=
  {| h_uid := h.(h_uid); h_key := key; h_secret := h.(h_secret); h_draft := h.(h_draft) |}.
(** A new secret that is not stored, with the value [v]. *)
Definition patch_secret (key : jsstr) (secret : bool) (v : jsstr) (h : CustomWebhookHeaderDraft) : CustomWebhookHeaderDraft :=
  {| h_uid := h.(h_uid); h_key := key; h_secret := secret;
     h_draft := {| configured := false; masked := []; action := replace; value := v;
                   originalValue := h.(h_draft).(originalValue) |} |}.

Definition updateHeaderKey (index : nat) (key : jsstr) (f : Form) : option Form :=
  if negb (isCustomWebhookSecretHeader key) then Some (updateHeader index (patch_key key) f)
  else
    current ← f.(modelValue).(d_headers) !! index;
    Some (if current.(h_secret) then updateHeader index (patch_key key) f
          else updateHeader index (fun h => patch_secret key true h.(h_draft).(value) h) f).

Definition removeHeader (index : nat) (f : Form) : Form :=
  emitValue (with_headers (delete index f.(modelValue).(d_headers)) f.(modelValue)) f.

Definition toggleHeaderSecret (index : nat) (secret : bool) (f : Form) : option Form :=
  current ← f.(modelValue).(d_headers) !! index;
  if negb secret && isCustomWebhookSecretHeader current.(h_key) then Some f
  else
    let v := if decide (current.(h_draft).(action) = replace) then current.(h_draft).(value) else [] in
    Some (updateHeader index (fun h => patch_secret h.(h_key) secret v h) f).

Definition setHeaderSecretAction (index : nat) (a : SecretAction) (f : Form) : option Form :=
  match a with
  | keep => header ← f.(modelValue).(d_headers) !! index; Some (updateHeader index keepSecretDraft f)
  | clear => Some (updateHeader index clearSecretDraft f)
  | replace => Some (updateHeader index (fun header => replaceSecretDraft header []) f)
  end.

(** *** Variables *)

(** The selection is that of the textarea, when there is one. *)
Definition insertVariable (variable : jsstr) (textarea : option CustomWebhookTemplateSelection) (f : Form) : option Form :=
  let body := f.(modelValue).(d_body) in
  match body.(b_type) with
  | form_body =>
      if length body.(b_fields) =? 0 then
        let '(u, f) := fresh_uid f in
        Some (set_fields [ {| f_uid := u; f_key := []; f_value := variable |} ] f)
      else
        let fallbackIndex := length body.(b_fields) - 1 in
        let targetIndex := default fallbackIndex f.(activeFormFieldIndex) in
        target ← body.(b_fields) !! targetIndex;
        Some (updateFormField targetIndex the_value (target.(f_value) ++ variable) f)
  | type =>
      let selection := if f.(bodyTemplateFocused) then textarea else None in
      let insertion := insertCustomWebhookVariable body.(b_template) variable type selection in
      Some (set_caret (i_cursor insertion) (updateBodyTemplate (i_template insertion) f))
  end.
End Form.

(** The field a validation issue is shown at. *)
Definition errorFor (validationIssues : list Issue) (field : jsstr) : option IssueCode :=
  snd <$> List.find (fun i : Issue => (i.1 === field) || startsWith i.1 (field ++ js ".")) validationIssues.

(** ** Events *)

Inductive Event :=
| UpdateDisplayName (s : jsstr)
| ChangePreset (p : CustomWebhookPreset)
| AnswerPreset (i : nat) (confirmed : bool)
| UpdateUrlValue (s : jsstr)
| KeepUrl
| ClearUrl
| ChangeBodyType (t : CustomWebhookBodyType)
| FocusTemplate
| UpdateBodyTemplate (s : jsstr)
| AddFormField
| FocusField (i : nat)
| UpdateFormField (i : nat) (p : FieldPart) (s : jsstr)
| RemoveFormField (i : nat)
| AddHeader
| UpdateHeaderKey (i : nat) (s : jsstr)
| UpdateHeaderValue (i : nat) (s : jsstr)
| UpdateSecretHeaderValue (i : nat) (s : jsstr)
| ToggleHeaderSecret (i : nat) (b : bool)
| SetHeaderSecretAction (i : nat) (a : SecretAction)
| RemoveHeader (i : nat)
| InsertVariable (v : jsstr) (textarea : option CustomWebhookTemplateSelection).

Section Events.
Context {JU : JsUnicode} (uid : nat -> jsstr) (allowClearUrl : bool).

(** The controls the template shows: the conditions of its v-if and v-for. *)
Definition shown (e : Event) (f : Form) : Prop :=
  let d := f.(modelValue) in
  let header i P := exists h, d.(d_headers) !! i = Some h /\ P h in
  match e with
  | KeepUrl => d.(d_url).(action) <> keep /\ d.(d_url).(configured) = true
  | ClearUrl => allowClearUrl = true
  | FocusTemplate | UpdateBodyTemplate _ => d.(d_body).(b_type) <> form_body
  | AddFormField => d.(d_body).(b_type) = form_body
  | FocusField i | UpdateFormField i _ _ | RemoveFormField i =>
      d.(d_body).(b_type) = form_body /\ i < length d.(d_body).(b_fields)
  | UpdateHeaderKey i _ | RemoveHeader i | ToggleHeaderSecret i _ => header i (fun _ => True)
  | UpdateHeaderValue i _ => header i (fun h => h.(h_secret) = false \/ h.(h_draft).(action) = replace)
  | UpdateSecretHeaderValue i _ => header i (fun h => h.(h_secret) = true /\ h.(h_draft).(action) <> replace)
  | SetHeaderSecretAction i a =>
      header i (fun h => h.(h_secret) = true /\ h.(h_draft).(configured) = true /\ h.(h_draft).(action) <> a /\ a <> replace)
  | InsertVariable v _ => v ∈ CUSTOM_WEBHOOK_VARIABLES
  | _ => True
  end.

Definition handle (e : Event) (f : Form) : option Form :=
  match e with
  | UpdateDisplayName s => Some (updateDisplayName s f)
  | ChangePreset p => Some (changePreset p f)
  | AnswerPreset i confirmed => Some (answerPreset i confirmed f)
  | UpdateUrlValue s => Some (updateUrlValue s f)
  | KeepUrl => Some (keepUrl f)
  | ClearUrl => Some (clearUrl allowClearUrl f)
  | ChangeBodyType t => Some (changeBodyType uid t f)
  | FocusTemplate => Some (set_focus true f.(activeFormFieldIndex) f)
  | UpdateBodyTemplate s => Some (updateBodyTemplate s f)
  | AddFormField => Some (addFormField uid f)
  | FocusField i => Some (set_focus f.(bodyTemplateFocused) (Some i) f)
  | UpdateFormField i p s => Some (updateFormField i p s f)
  | RemoveFormField i => Some (removeFormField i f)
  | AddHeader => Some (addHeader uid f)
  | UpdateHeaderKey i s => updateHeaderKey i s f
  | UpdateHeaderValue i s => Some (updateHeaderValue i s f)
  | UpdateSecretHeaderValue i s => Some (updateSecretHeaderValue i s f)
  | ToggleHeaderSecret i b => toggleHeaderSecret i b f
  | SetHeaderSecretAction i a => setHeaderSecretAction i a f
  | RemoveHeader i => Some (removeHeader i f)
  | InsertVariable v textarea => insertVariable uid v textarea f
  end.

(** The form of a draft: the watcher runs at once. *)
Definition mount (d : CustomWebhookDraft) (n : nat) : Form :=
  {| modelValue := d;
     bodyDrafts := set_bodyDraft d.(d_body).(b_type) d.(d_body)
       (fun t => {| b_type := t; b_template := match t with text_body => js "{{message}}" | _ => [] end; b_fields := [] |});
     bodyTemplateFocused := false; activeFormFieldIndex := None; caret := None; asking := []; uids := n |}.

(** A run of events that are shown when they happen. *)
Inductive run : list Event -> Form -> Form -> Prop :=
| run_nil f : run [] f f
| run_cons e es f f1 f2 : shown e f -> handle e f = Some f1 -> run es f1 f2 -> run (e :: es) f f2.

(** ** The invariant of the form *)

Definition header_ok (h : CustomWebhookHeaderDraft) : Prop :=
  (isCustomWebhookSecretHeader h.(h_key) = true -> h.(h_secret) = true) /\
  (h.(h_secret) = false -> h.(h_draft).(action) = replace).

Record form_ok (f : Form) : Prop := {
  ok_headers : Forall header_ok f.(modelValue).(d_headers);
  ok_active : forall i, f.(activeFormFieldIndex) = Some i -> i < length f.(modelValue).(d_body).(b_fields);
  ok_drafts : forall t, (f.(bodyDrafts) t).(b_type) = t;
  ok_current : f.(bodyDrafts) f.(modelValue).(d_body).(b_type) = f.(modelValue).(d_body);
}.

Lemma empty_not_secret : isCustomWebhookSecretHeader [] = false.
Proof. unfold isCustomWebhookSecretHeader. change (trim []) with (@nil N). by rewrite toLowerCase_ascii. Qed.

Lemma set_bodyDraft_type b drafts :
  (forall t, (drafts t).(b_type) = t) -> forall t, (set_bodyDraft b.(b_type) b drafts t).(b_type) = t.
Proof. intros H t. unfold set_bodyDraft. by destruct (decide _). Qed.

Lemma emit_ok d f : Forall header_ok d.(d_headers) ->
  (forall i, f.(activeFormFieldIndex) = Some i -> i < length d.(d_body).(b_fields)) ->
  (forall t, (f.(bodyDrafts) t).(b_type) = t) -> form_ok (emitValue d f).
Proof.
  intros H1 H2 H3. split; [done|done| |]; cbn [emitValue modelValue bodyDrafts].
  - by apply set_bodyDraft_type.
  - unfold set_bodyDraft. by rewrite decide_True.
Qed.

(** A value with the same headers and as many fields. *)
Lemma emit_same d f : form_ok f -> d.(d_headers) = f.(modelValue).(d_headers) ->
  length d.(d_body).(b_fields) = length f.(modelValue).(d_body).(b_fields) -> form_ok (emitValue d f).
Proof. intros [H1 H2 H3 H4] Hh Hl. apply emit_ok; [by rewrite Hh|by rewrite Hl|done]. Qed.

Lemma header_patched (patch : CustomWebhookHeaderDraft -> CustomWebhookHeaderDraft) i f : form_ok f ->
  (forall h, f.(modelValue).(d_headers) !! i = Some h -> header_ok h -> header_ok (patch h)) -> form_ok (updateHeader i patch f).
Proof.
  intros [H1 H2 H3 H4] Hp. apply emit_ok; [|done..]. cbn [with_headers d_headers].
  rewrite Forall_lookup in H1 |- *. intros j h. rewrite list_lookup_alter. destruct (decide (i = j)) as [<-|Hne].
  - intros (h0 & Hh & ->)%fmap_Some. eauto.
  - apply H1.
Qed.

Lemma apply_preset_ok p f : form_ok f -> form_ok (apply_preset p f).
Proof.
  intros [H1 H2 H3 H4]. apply emit_ok; [done|done|]. cbn [set_focus set_drafts bodyDrafts].
  by apply set_bodyDraft_type.
Qed.

Lemma set_fields_ok l f : form_ok f -> (forall i, f.(activeFormFieldIndex) = Some i -> i < length l) -> form_ok (set_fields l f).
Proof. intros [H1 H2 H3 H4] Hl. by apply emit_ok. Qed.

Lemma removeFormField_ok i f : form_ok f -> i < length f.(modelValue).(d_body).(b_fields) -> form_ok (removeFormField i f).
Proof.
  intros [H1 H2 H3 H4] Hi. unfold removeFormField. set (g := set_fields _ f).
  assert (Hg : forall a focus, (forall j, a = Some j -> j < length f.(modelValue).(d_body).(b_fields) - 1) -> form_ok (set_focus focus a g)).
  { intros a focus Ha. destruct (emit_ok (with_custom_body (with_fields (delete i f.(modelValue).(d_body).(b_fields))
      f.(modelValue).(d_body)) f.(modelValue)) (set_focus focus None f)) as [G1 G2 G3 G4]; [done..|].
    split; [done| |done|done]. intros j Hj. cbn [set_focus activeFormFieldIndex] in Hj. subst a.
    specialize (Ha j eq_refl). cbn. rewrite length_delete by (apply lookup_lt_is_Some; lia). lia. }
  change (activeFormFieldIndex g) with (activeFormFieldIndex f). destruct (activeFormFieldIndex f) as [j|] eqn:Ea.
  - specialize (H2 j eq_refl). destruct (Nat.eqb_spec j i) as [->|Hne]; [by apply Hg|].
    destruct (Nat.ltb_spec i j).
    + apply Hg. intros k [= <-]. lia.
    + replace g with (set_focus (bodyTemplateFocused f) (Some j) g) by (unfold g, set_fields, emitValue, set_focus; cbn; by rewrite Ea).
      apply Hg. intros k [= <-]. lia.
  - replace g with (set_focus (bodyTemplateFocused f) None g) by (unfold g, set_fields, emitValue, set_focus; cbn; by rewrite Ea).
    by apply Hg.
Qed.

Lemma inserted_ok t c f : form_ok f -> form_ok (set_caret c (updateBodyTemplate t f)).
Proof.
  intros Hf. assert (form_ok (updateBodyTemplate t f)) as [H1 H2 H3 H4] by by apply emit_same. by split.
Qed.

Lemma changeBodyType_ok t f : form_ok f -> form_ok (changeBodyType uid t f).
Proof.
  intros [H1 H2 H3 H4]. unfold changeBodyType. cbv zeta.
  set (g := set_drafts _ f). assert (Hg : forall t, (g.(bodyDrafts) t).(b_type) = t) by by apply set_bodyDraft_type.
  destruct (truthy _ || _).
  - apply emit_ok; [done..|]. exact Hg.
  - destruct t; cbn [defaultBodyForType fresh_uid]; apply emit_ok; try done; exact Hg.
Qed.

(** Every event that is shown is handled without an exception, and keeps the invariant. *)
Lemma handle_ok e f : form_ok f -> shown e f -> exists f', handle e f = Some f' /\ form_ok f'.
Proof.
  intros Hf. pose proof Hf as [H1 H2 H3 H4]. destruct e; cbn [shown handle]; intros Hs.
  - eexists. split; [reflexivity|]. by apply emit_same.
  - eexists. split; [reflexivity|]. unfold changePreset. destruct (decide _); [done|].
    destruct (_ && _ && _); [by split|by apply apply_preset_ok].
  - eexists. split; [reflexivity|]. unfold answerPreset. destruct (_ !! i) as [p|]; [|done].
    assert (form_ok (set_asking (delete i (asking f)) f)) by by split. destruct confirmed; [by apply apply_preset_ok|done].
  - eexists. split; [reflexivity|]. by apply emit_same.
  - eexists. split; [reflexivity|]. by apply emit_same.
  - eexists. split; [reflexivity|]. unfold clearUrl. destruct (negb _); [done|by apply emit_same].
  - eexists. split; [reflexivity|]. by apply changeBodyType_ok.
  - eexists. split; [reflexivity|]. by split.
  - eexists. split; [reflexivity|]. by apply emit_same.
  - eexists. split; [reflexivity|]. unfold addFormField. cbn [fresh_uid]. apply set_fields_ok; [by split|].
    intros i Hi. apply H2 in Hi. cbn. rewrite length_app. cbn. lia.
  - eexists. split; [reflexivity|]. split; try done. cbn. intros j [= <-]. by apply Hs.
  - eexists. split; [reflexivity|]. apply set_fields_ok; [done|]. by rewrite length_alter.
  - eexists. split; [reflexivity|]. apply removeFormField_ok; [done|by apply Hs].
  - eexists. split; [reflexivity|]. unfold addHeader. cbn [fresh_uid]. apply emit_ok; [|done..].
    cbn. apply Forall_app_2; [done|]. constructor; [|done]. split; [|done].
    cbn. intros E. by rewrite empty_not_secret in E.
  - destruct Hs as (h & Hh & _). unfold updateHeaderKey. destruct (isCustomWebhookSecretHeader s) eqn:Es; cbn [negb].
    + rewrite Hh. cbn [mbind option_bind]. eexists. split; [reflexivity|].
      destruct (h_secret h) eqn:Eh; apply header_patched; try done.
      intros h' Hh' [Ha Hb]. rewrite Hh in Hh'. injection Hh' as <-. split; [done|]. cbn. congruence.
    + eexists. split; [reflexivity|]. apply header_patched; [done|]. intros h' _ [Ha Hb]. split; [|done]. cbn. congruence.
  - eexists. split; [reflexivity|]. apply header_patched; [done|]. by intros h' _ [Ha Hb].
  - eexists. split; [reflexivity|]. apply header_patched; [done|]. by intros h' _ [Ha Hb].
  - destruct Hs as (h & Hh & _). unfold toggleHeaderSecret. rewrite Hh. cbn [mbind option_bind].
    destruct (negb b && _) eqn:Eb; [by eexists|]. eexists. split; [reflexivity|]. apply header_patched; [done|].
    intros h' Hh' [Ha Hb]. rewrite Hh in Hh'. injection Hh' as <-. split; [|done]. cbn. intros E. rewrite E in Eb.
    by destruct b.
  - destruct Hs as (h & Hh & Hsec & _). unfold setHeaderSecretAction.
    assert (Hp : forall v a', header_ok h -> header_ok (edit h a' v)) by (intros v a' [Ha Hb]; split; [done|cbn; congruence]).
    destruct a; rewrite ?Hh; cbn [mbind option_bind]; (eexists; split; [reflexivity|]; apply header_patched; [done|]);
      intros h' Hh'; rewrite Hh in Hh'; injection Hh' as <-; apply Hp.
  - eexists. split; [reflexivity|]. apply emit_ok; [|done..]. cbn. by apply Forall_delete.
  - unfold insertVariable. destruct (b_type (d_body (modelValue f))) eqn:Eb;
      [eexists; split; [reflexivity|]; by apply inserted_ok| |eexists; split; [reflexivity|]; by apply inserted_ok].
    destruct (Nat.eqb_spec (length (b_fields (d_body (modelValue f)))) 0) as [E|E].
    + eexists. split; [reflexivity|]. cbn. apply set_fields_ok; [by destruct Hf; split|]. intros i Hi. apply H2 in Hi. lia.
    + destruct (b_fields (d_body (modelValue f)) !! _) as [x|] eqn:Ex.
      * cbn [mbind option_bind]. eexists. split; [reflexivity|]. apply set_fields_ok; [done|]. by rewrite length_alter.
      * exfalso. apply lookup_ge_None in Ex. destruct (activeFormFieldIndex f) as [j|]; cbn [default from_option id] in Ex; [specialize (H2 j eq_refl)|]; lia.
Qed.

Lemma run_ok es f f' : form_ok f -> run es f f' -> form_ok f'.
Proof.
  intros Hf Hr. induction Hr as [|e es f f1 f2 Hs Hh Hr IH]; [done|].
  destruct (handle_ok e f Hf Hs) as (f1' & Hh' & Hf'). rewrite Hh in Hh'. injection Hh' as <-. by apply IH.
Qed.

Lemma mount_ok d n : Forall header_ok d.(d_headers) -> form_ok (mount d n).
Proof.
  intros H. split; [done|done| |].
  - by apply set_bodyDraft_type.
  - cbn. unfold set_bodyDraft. by rewrite decide_True.
Qed.
End Events.

(** ** Secrets do not reach the server

    Two runs with the same events, of which only the stored secrets differ. *)

(** Drafts that agree but for a value that is not being replaced. *)
Definition same_secret (d e : SecretDraft) : Prop :=
  d.(configured) = e.(configured) /\ d.(masked) = e.(masked) /\ d.(action) = e.(action) /\
  (d.(action) = replace -> d.(value) = e.(value)).

Definition same_header (h k : CustomWebhookHeaderDraft) : Prop :=
  h.(h_uid) = k.(h_uid) /\ h.(h_key) = k.(h_key) /\ h.(h_secret) = k.(h_secret) /\ same_secret h.(h_draft) k.(h_draft).

Record same_draft (d e : CustomWebhookDraft) : Prop := {
  sd_state : d.(d_state) = e.(d_state);
  sd_name : d.(d_displayName) = e.(d_displayName);
  sd_preset : d.(d_preset) = e.(d_preset);
  sd_url : same_secret d.(d_url) e.(d_url);
  sd_body : d.(d_body) = e.(d_body);
  sd_headers : Forall2 same_header d.(d_headers) e.(d_headers);
}.

Record same_form (f g : Form) : Prop := {
  sf_value : same_draft f.(modelValue) g.(modelValue);
  sf_drafts : forall t, f.(bodyDrafts) t = g.(bodyDrafts) t;
  sf_focused : f.(bodyTemplateFocused) = g.(bodyTemplateFocused);
  sf_active : f.(activeFormFieldIndex) = g.(activeFormFieldIndex);
  sf_caret : f.(caret) = g.(caret);
  sf_asking : f.(asking) = g.(asking);
  sf_uids : f.(uids) = g.(uids);
}.

Section Secrets.
Context {JU : JsUnicode} (uid : nat -> jsstr) (allowClearUrl : bool).

Lemma same_edit d e a v w : same_secret d e -> (a = replace -> v = w) -> same_secret (edit d a v) (edit e a w).
Proof. intros (H1 & H2 & H3 & H4) Hv. done. Qed.

Lemma emit_same_form d e f g : same_form f g -> same_draft d e -> same_form (emitValue d f) (emitValue e g).
Proof.
  intros [H1 H2 H3 H4 H5 H6 H7] He. split; try done. cbn. intros t. unfold set_bodyDraft.
  rewrite (sd_body _ _ He). by destruct (decide _).
Qed.

(** A change of the body alone, or of the headers alone. *)
Lemma body_same_draft b d e : same_draft d e -> same_draft (with_custom_body b d) (with_custom_body b e).
Proof. by intros [H1 H2 H3 H4 H5 H6]. Qed.

Lemma headers_same_draft l l' d e : same_draft d e -> Forall2 same_header l l' ->
  same_draft (with_headers l d) (with_headers l' e).
Proof. by intros [H1 H2 H3 H4 H5 H6]. Qed.

Lemma url_same_draft u u' d e : same_draft d e -> same_secret u u' -> same_draft (with_url u d) (with_url u' e).
Proof. by intros [H1 H2 H3 H4 H5 H6]. Qed.

Lemma same_lookup i f g h : same_form f g -> f.(modelValue).(d_headers) !! i = Some h ->
  exists k, g.(modelValue).(d_headers) !! i = Some k /\ same_header h k.
Proof. intros [H _ _ _ _ _ _] Hh. by apply (Forall2_lookup_l _ _ _ _ _ (sd_headers _ _ H)) in Hh. Qed.

Lemma same_updateHeader i patch patch' f g : same_form f g ->
  (forall h k, f.(modelValue).(d_headers) !! i = Some h -> same_header h k -> same_header (patch h) (patch' k)) ->
  same_form (updateHeader i patch f) (updateHeader i patch' g).
Proof.
  intros H Hp. pose proof (sf_value _ _ H) as Hv. apply emit_same_form; [done|]. apply headers_same_draft; [done|].
  apply Forall2_alter; [by apply sd_headers|]. intros h k Hh _ Hk. by apply Hp.
Qed.

Lemma same_apply_preset p f g : same_form f g -> same_form (apply_preset p f) (apply_preset p g).
Proof.
  intros H. pose proof H as [Hv H2 H3 H4 H5 H6 H7]. assert (He : same_draft (applyCustomWebhookPreset (modelValue f) p)
    (applyCustomWebhookPreset (modelValue g) p)).
  { destruct Hv as [V1 V2 V3 V4 V5 V6]. split; try done. cbn. by rewrite V5. }
  apply emit_same_form; [|done]. split; try done. cbn [set_focus set_drafts bodyDrafts]. intros t. unfold set_bodyDraft.
  rewrite (sd_body _ _ He). by destruct (decide _).
Qed.

Lemma same_fresh f g : same_form f g -> same_form (fresh_uid uid f).2 (fresh_uid uid g).2 /\
  (fresh_uid uid f).1 = (fresh_uid uid g).1.
Proof. intros [H1 H2 H3 H4 H5 H6 H7]. cbn. rewrite H7. split; [by split|done]. Qed.

Lemma same_set_fields l f g : same_form f g -> same_form (set_fields l f) (set_fields l g).
Proof.
  intros H. pose proof (sf_value _ _ H) as Hv. apply emit_same_form; [done|]. rewrite (sd_body _ _ Hv).
  by apply body_same_draft.
Qed.

Lemma same_focus b a f g : same_form f g -> same_form (set_focus b a f) (set_focus b a g).
Proof. by intros [H1 H2 H3 H4 H5 H6 H7]. Qed.

Lemma same_shown e f g : same_form f g -> shown allowClearUrl e f -> shown allowClearUrl e g.
Proof.
  intros H. pose proof (sf_value _ _ H) as Hv. pose proof Hv as [V1 V2 V3 (U1 & U2 & U3 & U4) V5 V6].
  destruct e; cbn [shown]; rewrite <- ?V5, <- ?U1, <- ?U3; try done;
    intros (h & Hh & P); destruct (same_lookup _ _ _ _ H Hh) as (k & Hk & K1 & K2 & K3 & K4 & K5 & K6 & K7);
    exists k; rewrite <- ?K3, <- ?K4, <- ?K6; (split; [exact Hk|exact P]).
Qed.
Lemma same_changeBodyType t f g : same_form f g -> same_form (changeBodyType uid t f) (changeBodyType uid t g).
Proof.
  intros H. pose proof (sf_value _ _ H) as Hv. pose proof (sd_body _ _ Hv) as V5. unfold changeBodyType. cbv zeta.
  rewrite <- V5. set (cur := d_body (modelValue f)).
  assert (Hd : same_form (set_drafts (set_bodyDraft cur.(b_type) cur f.(bodyDrafts)) f)
                         (set_drafts (set_bodyDraft cur.(b_type) cur g.(bodyDrafts)) g)).
  { destruct H as [H1 H2 H3 H4 H5 H6 H7]. split; try done. cbn. intros u. unfold set_bodyDraft. by destruct (decide _). }
  set (f1 := set_drafts _ f) in *. set (g1 := set_drafts _ g) in *. rewrite <- (sf_drafts _ _ Hd t).
  destruct (truthy _ || _).
  - apply emit_same_form; [by apply same_focus|]. by apply body_same_draft.
  - destruct (same_fresh f1 g1 Hd) as [Hf Hu]. destruct t; cbn [defaultBodyForType fresh_uid fst snd] in *;
      (apply emit_same_form; [by apply same_focus|]; first [rewrite Hu|idtac]; by apply body_same_draft).
Qed.

Lemma same_removeFormField i f g : same_form f g -> same_form (removeFormField i f) (removeFormField i g).
Proof.
  intros H. unfold removeFormField. pose proof (sd_body _ _ (sf_value _ _ H)) as V5.
  assert (Hs : same_form (set_fields (delete i f.(modelValue).(d_body).(b_fields)) f)
                         (set_fields (delete i g.(modelValue).(d_body).(b_fields)) g)) by (rewrite V5; by apply same_set_fields).
  cbn zeta. cbn [activeFormFieldIndex set_fields emitValue bodyTemplateFocused]. rewrite <- (sf_active _ _ H), <- (sf_focused _ _ H).
  destruct (activeFormFieldIndex f) as [j|]; [|done].
  destruct (j =? i); [by apply same_focus|]. destruct (i <? j); [by apply same_focus|done].
Qed.

Lemma same_setHeaderSecretAction i a f g f' : same_form f g -> setHeaderSecretAction i a f = Some f' ->
  exists g', setHeaderSecretAction i a g = Some g' /\ same_form f' g'.
Proof.
  intros H. unfold setHeaderSecretAction. destruct a.
  - destruct (_ !! i) as [h|] eqn:Hh; [|done]. destruct (same_lookup _ _ _ _ H Hh) as (k & -> & _).
    cbn [mbind option_bind]. intros [= <-]. eexists. split; [reflexivity|]. apply same_updateHeader; [done|].
    intros h1 k1 _ (K1 & K2 & K3 & K4). split_and!; try done. by apply same_edit.
  - intros [= <-]. eexists. split; [reflexivity|]. apply same_updateHeader; [done|].
    intros h1 k1 _ (K1 & K2 & K3 & K4). split_and!; try done. by apply same_edit.
  - intros [= <-]. eexists. split; [reflexivity|]. apply same_updateHeader; [done|].
    intros h1 k1 _ (K1 & K2 & K3 & K4). split_and!; try done. by apply same_edit.
Qed.

Lemma same_toggle i b f g f' : same_form f g -> toggleHeaderSecret i b f = Some f' ->
  exists g', toggleHeaderSecret i b g = Some g' /\ same_form f' g'.
Proof.
  intros H. unfold toggleHeaderSecret. destruct (_ !! i) as [h|] eqn:Hh; [|done].
  destruct (same_lookup _ _ _ _ H Hh) as (k & -> & _ & K2 & _ & _ & _ & K6 & K7). cbn [mbind option_bind]. rewrite <- K2, <- K6.
  destruct (negb b && _); intros [= <-]; [by eexists|]. eexists. split; [reflexivity|].
  apply same_updateHeader; [done|]. intros h1 k1 _ (L1 & L2 & L3 & L4). cbn. split_and!; try done. split_and!; try done.
  cbn. intros _. by destruct (decide _) as [E|E]; [apply K7|].
Qed.

Lemma same_updateHeaderKey i s f g f' : form_ok f -> same_form f g -> updateHeaderKey i s f = Some f' ->
  exists g', updateHeaderKey i s g = Some g' /\ same_form f' g'.
Proof.
  intros Hok H. unfold updateHeaderKey.
  assert (Hk : forall f1, Some (updateHeader i (patch_key s) f) = Some f1 ->
    exists g1, Some (updateHeader i (patch_key s) g) = Some g1 /\ same_form f1 g1).
  { intros f1 [= <-]. eexists. split; [reflexivity|]. apply same_updateHeader; [done|].
    intros h k _ (K1 & K2 & K3 & K4). done. }
  destruct (negb _); [by apply Hk|]. destruct (_ !! i) as [h|] eqn:Hh; [|done].
  destruct (same_lookup _ _ _ _ H Hh) as (k & -> & _ & _ & K3 & _). cbn [mbind option_bind]. rewrite <- K3.
  destruct (h_secret h) eqn:Es; [apply Hk|]. intros [= <-]. eexists. split; [reflexivity|]. apply same_updateHeader; [done|].
  intros h1 k1 Hh1 (L1 & L2 & L3 & L4 & L5 & L6 & L7). rewrite Hh in Hh1. injection Hh1 as <-.
  cbn. split_and!; try done. split_and!; try done. cbn. intros _. apply L7.
  pose proof (ok_headers _ Hok) as Hall. rewrite Forall_lookup in Hall. by apply (Hall i h Hh).
Qed.

Lemma same_insertVariable v ta f g f' : same_form f g -> insertVariable uid v ta f = Some f' ->
  exists g', insertVariable uid v ta g = Some g' /\ same_form f' g'.
Proof.
  intros H. pose proof (sf_value _ _ H) as Hv. unfold insertVariable. cbv zeta.
  rewrite <- (sd_body _ _ Hv), <- (sf_focused _ _ H), <- (sf_active _ _ H).
  assert (Ht : forall c t, same_form (set_caret c (updateBodyTemplate t f)) (set_caret c (updateBodyTemplate t g))).
  { intros c t. assert (same_form (updateBodyTemplate t f) (updateBodyTemplate t g)) as [H1 H2 H3 H4 H5 H6 H7].
    - apply emit_same_form; [done|]. destruct Hv as [V1 V2 V3 V4 V5 V6]. split; try done. cbn. by rewrite V5.
    - by split. }
  destruct (b_type (d_body (modelValue f))) eqn:Eb; [intros [= <-]; eexists; split; [reflexivity|apply Ht]| |
    intros [= <-]; eexists; split; [reflexivity|apply Ht]].
  destruct (_ =? 0).
  - destruct (same_fresh f g H) as [Hf Hu]. cbn [fresh_uid fst] in *. rewrite <- Hu. intros [= <-].
    eexists. split; [reflexivity|]. by apply same_set_fields.
  - destruct (b_fields (d_body (modelValue f)) !! _) as [x|]; [|done]. cbn [mbind option_bind]. intros [= <-].
    eexists. split; [reflexivity|]. unfold updateFormField. rewrite <- (sd_body _ _ Hv). by apply same_set_fields.
Qed.

Lemma same_handle e f g f' : form_ok f -> same_form f g -> handle uid allowClearUrl e f = Some f' ->
  exists g', handle uid allowClearUrl e g = Some g' /\ same_form f' g'.
Proof.
  intros Hok H. pose proof (sf_value _ _ H) as Hv. pose proof Hv as [V1 V2 V3 V4 V5 V6].
  assert (Hurl : forall a v, same_form (emitValue (with_url (edit (d_url (modelValue f)) a v) (modelValue f)) f)
                                       (emitValue (with_url (edit (d_url (modelValue g)) a v) (modelValue g)) g)).
  { intros a v. apply emit_same_form; [done|]. apply url_same_draft; [done|]. by apply same_edit. }
  destruct e; cbn [handle]; try (intros [= <-]; eexists; split; [reflexivity|]).
  - apply emit_same_form; [done|]. by split.
  - unfold changePreset, isCustomWebhookPresetPristine, applyCustomWebhookPreset.
    cbn [d_preset d_body]. rewrite <- V3, <- V5. destruct (decide _); [done|].
    destruct (_ && _ && _); [|by apply same_apply_preset]. destruct H as [H1 H2 H3 H4 H5 H6 H7]. split; try done. cbn. by rewrite H6.
  - unfold answerPreset. rewrite <- (sf_asking _ _ H). destruct (_ !! i) as [p|]; [|done].
    assert (same_form (set_asking (delete i (asking f)) f) (set_asking (delete i (asking f)) g)) by by destruct H.
    destruct confirmed; [by apply same_apply_preset|done].
  - apply Hurl.
  - apply emit_same_form; [done|]. apply url_same_draft; [done|]. by apply same_edit.
  - unfold clearUrl. destruct (negb _); [done|]. apply Hurl.
  - by apply same_changeBodyType.
  - rewrite (sf_active _ _ H). by apply same_focus.
  - apply emit_same_form; [done|]. split; try done. cbn. by rewrite V5.
  - unfold addFormField. destruct (same_fresh f g H) as [Hf Hu]. cbn [fresh_uid fst snd] in *. cbn [modelValue].
    rewrite Hu, V5. by apply same_set_fields.
  - rewrite (sf_focused _ _ H). by apply same_focus.
  - unfold updateFormField. rewrite V5. by apply same_set_fields.
  - by apply same_removeFormField.
  - unfold addHeader. destruct (same_fresh f g H) as [Hf Hu]. cbn [fresh_uid fst snd] in *. cbn [modelValue].
    apply emit_same_form; [done|]. apply headers_same_draft; [done|]. apply Forall2_app; [done|].
    rewrite Hu. by repeat constructor.
  - by apply same_updateHeaderKey.
  - apply same_updateHeader; [done|]. intros h k _ (K1 & K2 & K3 & K4 & K5 & K6 & K7). done.
  - apply same_updateHeader; [done|]. intros h k _ (K1 & K2 & K3 & K4). split_and!; try done. by apply same_edit.
  - by apply same_toggle.
  - by apply same_setHeaderSecretAction.
  - apply emit_same_form; [done|]. apply headers_same_draft; [done|]. by apply Forall2_delete.
  - by apply same_insertVariable.
Qed.

Lemma same_run es f g f' : form_ok f -> same_form f g -> run uid allowClearUrl es f f' ->
  exists g', run uid allowClearUrl es g g' /\ same_form f' g'.
Proof.
  intros Hok H Hr. revert g H. induction Hr as [f|e es f f1 f2 Hs Hh Hr IH]; intros g H; [exists g; by split; [constructor|]|].
  destruct (same_handle e f g f1 Hok H Hh) as (g1 & Hg & H1).
  destruct (handle_ok uid allowClearUrl e f Hok Hs) as (f1' & Hh' & Hok1). rewrite Hh in Hh'. injection Hh' as <-.
  destruct (IH Hok1 g1 H1) as (g2 & Hr2 & H2). exists g2. split; [|done].
  apply (run_cons _ _ e es g g1 g2); [|done..]. eapply same_shown; [exact H|exact Hs].
Qed.

(** What is sent and what is reported does not depend on a secret that is not replaced. *)
Lemma same_serialized f g : form_ok f -> same_form f g ->
  serializeCustomWebhookDraft f.(modelValue) = serializeCustomWebhookDraft g.(modelValue).
Proof.
  intros Hok [[V1 V2 V3 (U1 & U2 & U3 & U4) V5 V6] _ _ _ _ _ _]. unfold serializeCustomWebhookDraft.
  rewrite V2, V3, V5. f_equal.
  - unfold serializeSecret. rewrite <- U3. destruct (action (d_url (modelValue f))) eqn:E; [done| |done]. by rewrite U4.
  - pose proof (ok_headers _ Hok) as Hh. revert Hh. induction V6 as [|h k l l' (K1 & K2 & K3 & K4 & K5 & K6 & K7) _ IH]; [done|].
    intros [[_ Hn] Hl]%Forall_cons_iff. cbn [List.map]. rewrite IH by done. f_equal. unfold serialize_header.
    rewrite <- K1, <- K2, <- K3, <- K6. destruct (h_secret h) eqn:Es; cbn [andb negb].
    + destruct (decide (action (h_draft h) = replace)) as [E|E]; [by rewrite K7|by rewrite bool_decide_false].
    + by rewrite K7 by by apply Hn.
Qed.

Lemma same_each (check check' : list jsstr -> nat -> CustomWebhookHeaderDraft -> list Issue * list jsstr) l l' :
  (forall keys i h k, same_header h k -> check keys i h = check' keys i k) ->
  Forall2 same_header l l' -> forall keys i, each check keys i l = each check' keys i l'.
Proof.
  intros Hc Hl. induction Hl as [|h k l l' Hh _ IH]; intros keys i; [done|]. cbn [each].
  rewrite (Hc keys i h k Hh). destruct (check' keys i k). by rewrite IH.
Qed.

Lemma same_issues `{WebURL} allow f g : same_form f g ->
  validateCustomWebhookDraft f.(modelValue) allow = validateCustomWebhookDraft g.(modelValue) allow.
Proof.
  intros [[V1 V2 V3 (U1 & U2 & U3 & U4) V5 V6] _ _ _ _ _ _]. unfold validateCustomWebhookDraft.
  rewrite V2, V5. f_equal. f_equal; [|f_equal].
  - unfold check_url. rewrite <- U3, <- U1. destruct (action (d_url (modelValue f))) eqn:E; [done| |done]. by rewrite U4.
  - apply same_each; [|done]. intros keys i h k (K1 & K2 & K3 & K4 & K5 & K6 & K7). unfold check_header.
    rewrite <- K2, <- K3, <- K4, <- K6. f_equal. f_equal. f_equal. destruct (h_secret h); [|done]. f_equal.
    destruct (decide (action (h_draft h) = replace)) as [E|E]; [by rewrite K7|by rewrite (bool_decide_false _ E)].
Qed.

(** *** Opening the form on a view *)

Definition opened (raw : CustomWebhookConfigView) (n : nat) : Form :=
  let '(d, m) := hydrateCustomWebhookDraft uid raw n in mount d m.

(** Views that differ in the values of stored secrets only. *)
Definition same_header_view (v w : CustomWebhookHeaderView) : Prop :=
  v.(hv_uid) = w.(hv_uid) /\ v.(hv_key) = w.(hv_key) /\ v.(hv_secret) = w.(hv_secret) /\
  v.(hv_configured) = w.(hv_configured) /\ v.(hv_masked) = w.(hv_masked) /\
  (if is_secret v then truthy (default [] v.(hv_value)) = truthy (default [] w.(hv_value))
   else default [] v.(hv_value) = default [] w.(hv_value)).

Definition same_url_view (v w : option UrlView) : Prop :=
  match v, w with
  | Some (UrlText s), Some (UrlText t) => truthy s = truthy t
  | Some (UrlSecret a), Some (UrlSecret b) => a.(sv_configured) = b.(sv_configured) /\ a.(sv_masked) = b.(sv_masked)
  | None, None => True
  | _, _ => False
  end.

Record same_view (v w : CustomWebhookConfigView) : Prop := {
  sv_state : v.(v_state) = w.(v_state);
  sv_name : v.(v_displayName) = w.(v_displayName);
  sv_preset : v.(v_preset) = w.(v_preset);
  sv_body : v.(v_body) = w.(v_body);
  sv_url : same_url_view v.(v_url) w.(v_url);
  sv_headers : Forall2 same_header_view (default [] v.(v_headers)) (default [] w.(v_headers));
}.

Lemma same_hydrated_url v w : same_url_view v w -> same_secret (hydrate_url v) (hydrate_url w).
Proof.
  destruct v as [[s|a]|], w as [[t|b]|]; try done; unfold same_secret, hydrate_url; cbn.
  - intros H. rewrite H. split_and!; try done. by destruct s, t.
  - by intros [-> ->].
Qed.

Lemma same_hydrated_header v w n : same_header_view v w ->
  same_header (hydrate_header uid v n).1 (hydrate_header uid w n).1 /\
  (hydrate_header uid v n).2 = (hydrate_header uid w n).2.
Proof.
  unfold same_header_view, is_secret, hydrate_header, bind, uid_or, newUid, ret. intros (H1 & H2 & H3 & H4 & H5 & H6).
  cbv zeta. rewrite <- H1, <- H2, <- H3, <- H4, <- H5.
  set (a := default [] (hv_value v)) in *. set (b := default [] (hv_value w)) in *. clearbody a b.
  destruct (hv_secret v || _); [|subst b; by destruct (truthy (hv_uid v))].
  rewrite <- H6. destruct (truthy (hv_uid v)); cbn [fst snd]; (split; [|done]); split_and!; try done;
    (split_and!; try done); cbn; destruct (truthy a); try done; by destruct (hv_configured v) as [[]|].
Qed.

Lemma same_hydrated_headers l l' n : Forall2 same_header_view l l' ->
  Forall2 same_header (mapS (hydrate_header uid) l n).1 (mapS (hydrate_header uid) l' n).1 /\
  (mapS (hydrate_header uid) l n).2 = (mapS (hydrate_header uid) l' n).2.
Proof.
  intros Hl. revert n. induction Hl as [|v w l l' Hv _ IH]; intros n; [done|]. cbn [mapS]. unfold bind, ret.
  destruct (same_hydrated_header v w n Hv) as [Hh Hn].
  destruct (hydrate_header uid v n) as [h m]. destruct (hydrate_header uid w n) as [k m']. cbn [fst snd] in *. subst m'.
  specialize (IH m) as [IH1 IH2]. destruct (mapS _ l m) as [hs q]. destruct (mapS _ l' m) as [ks q']. cbn [fst snd] in *.
  split; [by constructor|done].
Qed.

Lemma same_opened v w n : same_view v w -> same_form (opened v n) (opened w n).
Proof.
  intros [V1 V2 V3 V4 V5 V6]. unfold opened, hydrateCustomWebhookDraft, bind, ret. rewrite <- V1, <- V2, <- V3, <- V4.
  destruct (same_hydrated_headers _ _ n V6) as [Hh Hn].
  destruct (mapS _ (default [] (v_headers v)) n) as [hs m]. destruct (mapS _ (default [] (v_headers w)) n) as [ks m'].
  cbn [fst snd] in *. subst m'. destruct (mapS (hydrate_field uid) _ m) as [fs q].
  split; try done. split; try done. cbn. by apply same_hydrated_url.
Qed.

Lemma opened_ok v n : form_ok (opened v n).
Proof.
  unfold opened. destruct (hydrateCustomWebhookDraft uid v n) as [d m] eqn:E. apply mount_ok.
  destruct (hydrate_parts uid v n) as (_ & _ & _ & _ & _ & (s & Hs) & _). rewrite E in Hs. cbn [fst] in Hs. rewrite Hs.
  eapply Forall2_Forall_r; [apply mapS_spec|]. apply Forall_true. intros x h (s' & ->).
  unfold hydrate_header, bind, uid_or, newUid, ret. cbv zeta.
  destruct (truthy (hv_uid x)); (split; cbn; [intros ->; by rewrite orb_true_r|by intros ->]).
Qed.

(** C21. Whatever is done in the form of a stored webhook, what it would save and what it
    reports do not depend on a stored secret: two webhooks that differ in their secrets
    only lead, by the same events, to the same update and the same issues. *)
Theorem form_sends_no_stored_secret raw raw' n es f : same_view raw raw' ->
  run uid allowClearUrl es (opened raw n) f ->
  exists g, run uid allowClearUrl es (opened raw' n) g /\
    serializeCustomWebhookDraft f.(modelValue) = serializeCustomWebhookDraft g.(modelValue) /\
    forall (WU : WebURL) allow, validateCustomWebhookDraft f.(modelValue) allow = validateCustomWebhookDraft g.(modelValue) allow.
Proof.
  intros Hv Hr. destruct (same_run es _ _ f (opened_ok raw n) (same_opened _ _ n Hv) Hr) as (g & Hg & Hs).
  exists g. split; [done|]. split; [|intros WU allow; by apply same_issues].
  apply same_serialized; [|done]. by apply (run_ok uid allowClearUrl es (opened raw n)); [apply opened_ok|].
Qed.

(** However the form is used, every event it shows is handled without an exception, a
    sensitive header is secret, and the field a variable goes to exists. *)
Theorem form_handles_every_event raw n es f : run uid allowClearUrl es (opened raw n) f ->
  (forall e, shown allowClearUrl e f -> exists f', handle uid allowClearUrl e f = Some f') /\
  (forall h, h ∈ f.(modelValue).(d_headers) -> isCustomWebhookSecretHeader h.(h_key) = true -> h.(h_secret) = true) /\
  (forall i, f.(activeFormFieldIndex) = Some i -> i < length f.(modelValue).(d_body).(b_fields)).
Proof.
  intros Hr. assert (Hok : form_ok f) by (by apply (run_ok uid allowClearUrl es (opened raw n)); [apply opened_ok|]).
  split; [|split].
  - intros e Hs. destruct (handle_ok uid allowClearUrl e f Hok Hs) as (f' & Hf & _). eauto.
  - pose proof (ok_headers _ Hok) as Hh. rewrite Forall_elem in Hh. intros h Hin. by apply Hh.
  - by apply ok_active.
Qed.

Definition has_content (b : CustomWebhookBody) : bool := truthy b.(b_template) || negb (length b.(b_fields) =? 0).

Lemma changeBodyType_to u f : form_ok f -> has_content (f.(bodyDrafts) u) = true ->
  (changeBodyType uid u f).(modelValue).(d_body) = f.(bodyDrafts) u.
Proof.
  intros [_ _ _ H4] Hc. unfold changeBodyType. cbv zeta. cbn [set_drafts bodyDrafts].
  assert (set_bodyDraft (b_type (d_body (modelValue f))) (d_body (modelValue f)) (bodyDrafts f) u = bodyDrafts f u) as Hu.
  { unfold set_bodyDraft. by destruct (decide _) as [->|]. }
  rewrite Hu. unfold has_content in Hc. by rewrite Hc.
Qed.

Lemma changeBodyType_keeps t f : form_ok f -> t <> f.(modelValue).(d_body).(b_type) ->
  (changeBodyType uid t f).(modelValue).(d_body).(b_type) = t /\
  (changeBodyType uid t f).(bodyDrafts) f.(modelValue).(d_body).(b_type) = f.(modelValue).(d_body).
Proof.
  intros [_ _ H3 H4] Ht. unfold changeBodyType. cbv zeta. set (cur := d_body (modelValue f)) in *.
  cbn [set_drafts bodyDrafts].
  assert (Hc : set_bodyDraft (b_type cur) cur (bodyDrafts f) t = bodyDrafts f t) by (unfold set_bodyDraft; by rewrite decide_False).
  rewrite Hc. assert (Hcur : forall b, b_type b = t ->
    set_bodyDraft (b_type b) b (set_bodyDraft (b_type cur) cur (bodyDrafts f)) (b_type cur) = cur).
  { intros b Hb. unfold set_bodyDraft. rewrite decide_False by congruence. by rewrite decide_True. }
  destruct (truthy _ || _); [split; [apply H3|by apply Hcur, H3]|]. 
  destruct (defaultBodyForType uid t _) as [b f2] eqn:Ed.
  assert (b_type b = t /\ bodyDrafts f2 = set_bodyDraft (b_type cur) cur (bodyDrafts f)) as [Hb H2].
  { destruct t; cbn [defaultBodyForType fresh_uid] in Ed; by injection Ed as <- <-. }
  split; [done|]. cbn [emitValue set_focus bodyDrafts with_custom_body d_body]. rewrite H2. by apply Hcur.
Qed.

(** Changing the type of a body that is not empty and back restores it. *)
Theorem body_type_roundtrip raw n es f t : run uid allowClearUrl es (opened raw n) f ->
  has_content f.(modelValue).(d_body) = true -> t <> f.(modelValue).(d_body).(b_type) ->
  (changeBodyType uid t f).(modelValue).(d_body).(b_type) = t /\
  (changeBodyType uid f.(modelValue).(d_body).(b_type) (changeBodyType uid t f)).(modelValue).(d_body) =
  f.(modelValue).(d_body).
Proof.
  intros Hr Hc Ht. assert (Hok : form_ok f) by (by apply (run_ok uid allowClearUrl es (opened raw n)); [apply opened_ok|]).
  destruct (changeBodyType_keeps t f Hok Ht) as [H1 H2]. split; [done|].
  rewrite changeBodyType_to; [done|by apply changeBodyType_ok|by rewrite H2].
Qed.
End Secrets.

(** ** Witnesses *)

Definition sample_events : list Event :=
  [ToggleHeaderSecret 0 false; SetHeaderSecretAction 0 clear; ChangeBodyType text_body;
   InsertVariable (js "{{type}}") None; SetHeaderSecretAction 0 keep].

Lemma sample_run : exists f,
  run sample_uid false sample_events (opened sample_uid (sample_view (js "https://a/1") (js "s1")) 0) f /\
  has_content f.(modelValue).(d_body) = true /\ f.(modelValue).(d_body).(b_type) = text_body.
Proof.
  eexists. split.
  - repeat (eapply run_cons;
      [cbn [shown sample_events]; first [exact I|apply memb_elem; vm_compute; reflexivity|eexists; split; [vm_compute; reflexivity|vm_compute; split_and?; done]]
      |vm_compute; reflexivity|]).
    apply run_nil.
  - by vm_compute.
Defined.

Lemma form_sends_no_stored_secret_witness : exists f g,
  run sample_uid false sample_events (opened sample_uid (sample_view (js "https://a/1") (js "s1")) 0) f /\
  run sample_uid false sample_events (opened sample_uid (sample_view (js "https://b/2") (js "s2")) 0) g /\
  serializeCustomWebhookDraft f.(modelValue) = serializeCustomWebhookDraft g.(modelValue).
Proof.
  destruct sample_run as (f & Hf & _).
  destruct (form_sends_no_stored_secret sample_uid false (sample_view (js "https://a/1") (js "s1"))
    (sample_view (js "https://b/2") (js "s2")) 0 sample_events f) as (g & Hg & Hs & _); [|exact Hf|].
  - split; try reflexivity. constructor; [|constructor]. split_and!; reflexivity.
  - exists f, g. split; [exact Hf|]. split; [exact Hg|exact Hs].
Defined.

Lemma form_handles_every_event_witness : exists f,
  run sample_uid false sample_events (opened sample_uid (sample_view (js "https://a/1") (js "s1")) 0) f /\
  exists f', handle sample_uid false (InsertVariable (js "{{title}}") None) f = Some f'.
Proof.
  destruct sample_run as (f & Hf & _). exists f. split; [exact Hf|].
  apply (form_handles_every_event sample_uid false (sample_view (js "https://a/1") (js "s1")) 0 sample_events f Hf).
  apply memb_elem. vm_compute. reflexivity.
Defined.

Lemma body_type_roundtrip_witness : exists f,
  run sample_uid false sample_events (opened sample_uid (sample_view (js "https://a/1") (js "s1")) 0) f /\
  (changeBodyType sample_uid f.(modelValue).(d_body).(b_type) (changeBodyType sample_uid json_body f)).(modelValue).(d_body) =
  f.(modelValue).(d_body).
Proof.
  destruct sample_run as (f & Hf & Hc & Ht). exists f. split; [exact Hf|].
  apply (body_type_roundtrip sample_uid false (sample_view (js "https://a/1") (js "s1")) 0 sample_events f json_body Hf Hc).
  by rewrite Ht.
Defined.
