(* ===== verification/GlobalStore.v ===== *)
(** * The global store and the permission codes

    src/frontend/src/store/modules/global.ts, store/interface/index.ts,
    utils/permission-codes.ts and utils/page-state-cache.ts.  The record follows
    the interface GlobalState, grouped as its comments group it.  [World] is the
    module-level state these files share; the handlers are in the state monad. *)

From S2P Require Import Prelude JsString.

(** ** State *)

(** enum DeviceType *)
Inductive DeviceType := Mobile | Desktop.

Record ThemeConfigProp := {
  panelName : jsstr; primary : jsstr; theme : jsstr; footer : bool; title : jsstr;
  logo : jsstr; logoWithText : jsstr; favicon : jsstr; loginImage : jsstr; loginBgType : jsstr;
  loginBackground : jsstr; loginBtnLinkColor : jsstr; themeColor : jsstr;
}.

Record Watermark := {
  lightColor : jsstr; darkColor : jsstr; fontSize : Z; content : jsstr; rotate : Z; gap : Z;
}.

Record NodeRole := { nodeId : Z; nodeName : jsstr; roleId : Z; roleName : jsstr }.

Record Ui := {
  isFullScreen : bool; openMenuTabs : bool; menuAccordion : bool; watermark : option Watermark;
  watermarkShow : bool; isLoading : bool; loadingText : jsstr;
}.
Record Auth := {
  ignoreCaptcha : bool; agreeLicense : bool; isLogin : bool; entrance : jsstr; csrfToken : jsstr;
}.
Record Ctx := {
  hasNewVersion : bool; lastFilePath : jsstr; currentDB : jsstr; currentPgDB : jsstr;
  currentRedisDB : jsstr; currentMongodbDB : jsstr; showEntranceWarn : bool;
  defaultNetwork : jsstr; defaultIO : jsstr; isOnRestart : bool;
}.
Record Tags := {
  isAdmin : bool; permissions : list jsstr; masterOnlyPermissions : list jsstr;
  nodeRoles : list NodeRole; isEnterprise : bool; isIntl : bool; docWithRegion : bool;
  isFxplay : bool; isOffline : bool;
}.
Record License := {
  isProductPro : bool; productProExpires : Z; isMasterProductPro : bool;
  isEnterpriseLicensed : bool; isEnterpriseLicenseLoaded : bool;
}.
Record MultiNode := { masterAlias : jsstr; currentNode : jsstr; currentNodeAddr : jsstr }.

Record GlobalState := {
  language : jsstr; device : DeviceType; themeConfig : ThemeConfigProp;
  ui : Ui; auth : Auth; ctx : Ctx; tags : Tags; license : License; node : MultiNode;
}.

(** Assignments to the fields of a group. *)
Definition set_ui (f : Ui -> Ui) (g : GlobalState) : GlobalState :=
  Build_GlobalState g.(language) g.(device) g.(themeConfig) (f g.(ui)) g.(auth) g.(ctx) g.(tags) g.(license) g.(node).
Definition set_auth (f : Auth -> Auth) (g : GlobalState) : GlobalState :=
  Build_GlobalState g.(language) g.(device) g.(themeConfig) g.(ui) (f g.(auth)) g.(ctx) g.(tags) g.(license) g.(node).
Definition set_tags (f : Tags -> Tags) (g : GlobalState) : GlobalState :=
  Build_GlobalState g.(language) g.(device) g.(themeConfig) g.(ui) g.(auth) g.(ctx) (f g.(tags)) g.(license) g.(node).
Definition set_license (f : License -> License) (g : GlobalState) : GlobalState :=
  Build_GlobalState g.(language) g.(device) g.(themeConfig) g.(ui) g.(auth) g.(ctx) g.(tags) (f g.(license)) g.(node).
Definition set_node (f : MultiNode -> MultiNode) (g : GlobalState) : GlobalState :=
  Build_GlobalState g.(language) g.(device) g.(themeConfig) g.(ui) g.(auth) g.(ctx) g.(tags) g.(license) (f g.(node)).
Definition set_device (d : DeviceType) (g : GlobalState) : GlobalState :=
  Build_GlobalState g.(language) d g.(themeConfig) g.(ui) g.(auth) g.(ctx) g.(tags) g.(license) g.(node).
Definition set_language (l : jsstr) (g : GlobalState) : GlobalState :=
  Build_GlobalState l g.(device) g.(themeConfig) g.(ui) g.(auth) g.(ctx) g.(tags) g.(license) g.(node).

(** state(), for the locale the catalogue starts with *)
Definition initial_state (locale : jsstr) : GlobalState := {|
  language := locale;
  device := Desktop;
  themeConfig := {| panelName := []; primary := js "#005eeb"; theme := js "auto"; footer := true;
    title := []; logo := []; logoWithText := []; favicon := []; loginImage := []; loginBgType := [];
    loginBackground := []; loginBtnLinkColor := []; themeColor := [] |};
  ui := {| isFullScreen := false; openMenuTabs := false; menuAccordion := false; watermark := None;
    watermarkShow := false; isLoading := false; loadingText := [] |};
  auth := {| ignoreCaptcha := true; agreeLicense := false; isLogin := false; entrance := []; csrfToken := [] |};
  ctx := {| hasNewVersion := false; lastFilePath := []; currentDB := []; currentPgDB := [];
    currentRedisDB := []; currentMongodbDB := []; showEntranceWarn := true;
    defaultNetwork := js "all"; defaultIO := js "all"; isOnRestart := false |};
  tags := {| isAdmin := false; permissions := []; masterOnlyPermissions := []; nodeRoles := [];
    isEnterprise := false; isIntl := false; docWithRegion := true; isFxplay := false; isOffline := false |};
  license := {| isProductPro := false; productProExpires := 0; isMasterProductPro := false;
    isEnterpriseLicensed := false; isEnterpriseLicenseLoaded := false |};
  node := {| masterAlias := []; currentNode := js "local"; currentNodeAddr := [] |};
|}.

(** ** Module-level state *)

(** The two variables of permission-codes.ts. *)
Record Codes := { masterOnlyPermissionCodes : gset jsstr; masterOnlyPermissionCodesKey : jsstr }.

Record World := {
  gs : GlobalState;
  codes : Codes;
  (** page-state-cache.ts: the Map of page states, its objects by identity *)
  pageStateCache : gmap jsstr N;
  next_object : N;
}.

Definition set_gs (f : GlobalState -> GlobalState) (w : World) : World :=
  {| gs := f w.(gs); codes := w.(codes); pageStateCache := w.(pageStateCache); next_object := w.(next_object) |}.
Definition set_codes (c : Codes) (w : World) : World :=
  {| gs := w.(gs); codes := c; pageStateCache := w.(pageStateCache); next_object := w.(next_object) |}.

Definition initial_world (locale : jsstr) : World :=
  {| gs := initial_state locale;
     codes := {| masterOnlyPermissionCodes := ∅; masterOnlyPermissionCodesKey := [] |};
     pageStateCache := ∅; next_object := 0 |}.

(** ** permission-codes.ts *)

Definition setMasterOnlyPermissionCodes (permissions : list jsstr) : M World unit :=
  let cs := List.filter truthy permissions in
  let key := join [10%N] cs in
  modify (fun w =>
    if key === w.(codes).(masterOnlyPermissionCodesKey) then w
    else set_codes {| masterOnlyPermissionCodes := list_to_set cs; masterOnlyPermissionCodesKey := key |} w).

(** permission.replace(/_view$/, '_manage') rewrites the suffix. *)
Definition toManageCode (permission : jsstr) : jsstr :=
  if negb (truthy permission) then []
  else if endsWith permission (js "_view")
       then take (length permission - length (js "_view")) permission ++ js "_manage"
       else [].

Definition normalizeToManageCode (permission : jsstr) : jsstr :=
  if negb (truthy permission) then []
  else let m := toManageCode permission in if truthy m then m else permission.

Definition isMasterOnlyPermissionCode (permission : jsstr) : M World bool :=
  gets (fun w => bool_decide (permission ∈ w.(codes).(masterOnlyPermissionCodes))).

(** ** page-state-cache.ts *)

(** The factory's object is a fresh identity. *)
Definition getPageState (key : jsstr) : M World N := fun w =>
  match w.(pageStateCache) !! key with
  | Some o => (o, w)
  | None =>
      let o := w.(next_object) in
      (o, {| gs := w.(gs); codes := w.(codes);
             pageStateCache := <[key := o]> w.(pageStateCache); next_object := (o + 1)%N |})
  end.

Definition clearPageStateCache : M World unit :=
  modify (fun w => {| gs := w.(gs); codes := w.(codes); pageStateCache := ∅; next_object := w.(next_object) |}).

(** ** Getters *)

Definition nodeAdmin_name : jsstr := js "Node Admin".

Definition isNodeAdmin (g : GlobalState) : bool :=
  existsb (fun item => (item.(nodeName) === g.(node).(currentNode)) && (item.(roleName) === nodeAdmin_name))
    g.(tags).(nodeRoles).
Definition isAdminOrNodeAdmin (g : GlobalState) : bool := g.(tags).(isAdmin) || isNodeAdmin g.
Definition isMaster (g : GlobalState) : bool := g.(node).(currentNode) === js "local".
Definition isMobile (g : GlobalState) : bool := match g.(device) with Mobile => true | Desktop => false end.
Definition isEE (g : GlobalState) : bool := g.(tags).(isEnterprise) && g.(license).(isEnterpriseLicensed).
Definition isXpackOrEE (g : GlobalState) : bool := isEE g || g.(license).(isMasterProductPro).
Definition isMasterPro (g : GlobalState) : bool := g.(license).(isMasterProductPro).
(** [prefersDark] is what matchMedia answers. *)
Definition isDarkTheme (prefersDark : bool) (g : GlobalState) : bool :=
  (g.(themeConfig).(theme) === js "dark") || (g.(themeConfig).(theme) === js "auto") && prefersDark.
Definition isDarkGoldTheme (g : GlobalState) : bool :=
  (g.(themeConfig).(primary) === js "#F0BE96") && g.(license).(isProductPro).
Definition CN_DOCS_URL := js "https://1panel.cn/docs/v2".
Definition INTL_DOCS_URL := js "https://1panel.pro/docs/v2".
Definition docsUrl `{JsUnicode} (g : GlobalState) : jsstr :=
  if g.(tags).(docWithRegion) then (if g.(tags).(isIntl) then INTL_DOCS_URL else CN_DOCS_URL)
  else if toLowerCase g.(language) === js "zh" then CN_DOCS_URL else INTL_DOCS_URL.

(** ** Actions *)

Definition setScreenFull : M World unit :=
  modify (set_gs (set_ui (fun u =>
    Build_Ui (negb u.(isFullScreen)) u.(openMenuTabs) u.(menuAccordion) u.(watermark)
      u.(watermarkShow) u.(isLoading) u.(loadingText)))).

Definition setLogStatus (login : bool) : M World unit :=
  modify (set_gs (set_auth (fun a =>
    Build_Auth a.(ignoreCaptcha) a.(agreeLicense) login a.(entrance) a.(csrfToken)))).

Definition with_auth_info (adm : bool) (ps ms : list jsstr) (rs : list NodeRole) (t : Tags) : Tags :=
  Build_Tags adm ps ms rs t.(isEnterprise) t.(isIntl) t.(docWithRegion) t.(isFxplay) t.(isOffline).

(** The payload's optional fields are empty when absent. *)
Record AuthInfo := {
  p_isAdmin : bool; p_permissions : list jsstr; p_masterOnly : option (list jsstr);
  p_nodeRoles : option (list NodeRole);
}.

Definition setAuthInfo (p : AuthInfo) : M World unit :=
  modify (set_gs (set_tags (with_auth_info p.(p_isAdmin) p.(p_permissions)
    (default [] p.(p_masterOnly)) (default [] p.(p_nodeRoles)))));;;
  let! w := get in
  setMasterOnlyPermissionCodes w.(gs).(tags).(masterOnlyPermissions).

Definition clearAuthInfo : M World unit :=
  clearPageStateCache;;;
  modify (set_gs (set_tags (with_auth_info false [] [] [])));;;
  setMasterOnlyPermissionCodes [].

Definition toggleDevice (d : DeviceType) : M World unit := modify (set_gs (set_device d)).

(** updateLanguage, once setActiveLocale has answered with the active locale *)
Definition updateLanguage (activeLocale : jsstr) : M World jsstr :=
  modify (set_gs (set_language activeLocale));;; ret activeLocale.

(** [master] is the catalogue's name of the master node. *)
Definition getMasterAlias (master : jsstr) (g : GlobalState) : jsstr :=
  if truthy g.(node).(masterAlias) then g.(node).(masterAlias) else master.

Definition hasPermission (permission : jsstr) : M World bool :=
  let! w := get in
  setMasterOnlyPermissionCodes w.(gs).(tags).(masterOnlyPermissions);;;
  let normalizedPermission := trim permission in
  if negb (truthy normalizedPermission) then ret false
  else
    let! masterOnly := isMasterOnlyPermissionCode normalizedPermission in
    if negb (isMaster w.(gs)) && masterOnly then ret false
    else if w.(gs).(tags).(isAdmin) then ret true
    else if memb normalizedPermission w.(gs).(tags).(permissions) then ret true
    else
      let managePermission := toManageCode normalizedPermission in
      if negb (truthy managePermission) then ret false
      else
        let! manageOnly := isMasterOnlyPermissionCode managePermission in
        if negb (isMaster w.(gs)) && manageOnly then ret false
        else ret (memb managePermission w.(gs).(tags).(permissions)).

(** ** The invariant of the module-level codes

    The key identifies the set only while no code holds a line feed: with such a
    code two different lists share a key, and the second is never installed. *)

Definition no_newline (l : list jsstr) : Prop := Forall (fun c => 10%N ∉ c) l.

Definition codes_ok (c : Codes) : Prop :=
  exists l, Forall (fun s => s <> []) l /\ no_newline l /\
    c.(masterOnlyPermissionCodesKey) = join [10%N] l /\
    c.(masterOnlyPermissionCodes) = list_to_set l.

Definition world_ok (w : World) : Prop :=
  codes_ok w.(codes) /\ no_newline w.(gs).(tags).(masterOnlyPermissions).

Lemma filter_truthy l : Forall (fun s => s <> []) (List.filter truthy l).
Proof.
  apply Forall_elem. intros x Hx. apply list_elem_of_In, filter_In in Hx as [_ Hx].
  by apply truthy_true.
Qed.

Lemma filter_no_newline f l : no_newline l -> no_newline (List.filter f l).
Proof.
  intros H. apply Forall_elem. intros x Hx. apply list_elem_of_In, filter_In in Hx as [Hx _].
  unfold no_newline in H. rewrite Forall_elem in H. by apply H, list_elem_of_In.
Qed.

Lemma join_nil_inv sep l : Forall (fun s => s <> []) l -> join sep l = [] -> l = [].
Proof.
  intros H. destruct l as [|a l]; [done|]. inversion_clear H as [|? ? Ha _].
  destruct l as [|b l]; intros E.
  - cbn in E. by rewrite E in Ha.
  - rewrite join_cons in E by done. by apply app_eq_nil in E as [? _].
Qed.

Lemma join_key_inj l l' :
  Forall (fun s => s <> []) l -> Forall (fun s => s <> []) l' -> no_newline l -> no_newline l' ->
  join [10%N] l = join [10%N] l' -> l = l'.
Proof.
  intros H H' N N' E.
  destruct l as [|a l]; [symmetry; eapply join_nil_inv; [exact H'|by rewrite <- E]|].
  destruct l' as [|b l']; [eapply join_nil_inv; [exact H|by rewrite E]|].
  by apply (join_inj 10).
Qed.

Section Sync.
Variable ps : list jsstr.
Hypothesis Hps : no_newline ps.

(** After the call the set is the one of [ps], whatever was installed. *)
Lemma setMasterOnlyPermissionCodes_sync w :
  codes_ok w.(codes) ->
  exists c, (setMasterOnlyPermissionCodes ps w).2 = set_codes c w /\ codes_ok c /\
    c.(masterOnlyPermissionCodes) = list_to_set (List.filter truthy ps).
Proof.
  intros (l & Hl & Hn & Hk & Hs). unfold setMasterOnlyPermissionCodes, modify. cbn.
  pose proof (filter_truthy ps) as Ht. pose proof (filter_no_newline truthy ps Hps) as Hf.
  destruct (_ === _) eqn:E.
  - apply streqb_eq in E. rewrite Hk in E. apply join_key_inj in E; [|done..].
    exists w.(codes). split; [by destruct w|]. split; [by exists l|]. by rewrite Hs, E.
  - eexists. split; [done|]. split; [|done]. by exists (List.filter truthy ps).
Qed.
End Sync.

Lemma set_codes_gs c w : gs (set_codes c w) = gs w.
Proof. done. Qed.

(** ** Permissions: the declarative reading *)

(** A code may be used off the master node unless it is master-only. *)
Definition usable (g : GlobalState) (c : jsstr) : Prop :=
  isMaster g = true \/ c ∉ g.(tags).(masterOnlyPermissions).

(** What [hasPermission] grants: an administrator every usable code, anybody
    else the usable codes it lists, and a view code whose manage code it lists. *)
Definition granted (g : GlobalState) (c : jsstr) : Prop :=
  c <> [] /\ usable g c /\
  (g.(tags).(isAdmin) = true \/ c ∈ g.(tags).(permissions) \/
   exists m, c = m ++ js "_view" /\ usable g (m ++ js "_manage") /\
     (m ++ js "_manage") ∈ g.(tags).(permissions)).

(** The same as a boolean of the state. *)
Definition usableb (g : GlobalState) (c : jsstr) : bool :=
  isMaster g || negb (memb c g.(tags).(masterOnlyPermissions)).
Definition grantedb (g : GlobalState) (c : jsstr) : bool :=
  truthy c && usableb g c &&
  (g.(tags).(isAdmin) || memb c g.(tags).(permissions) ||
   truthy (toManageCode c) && usableb g (toManageCode c) && memb (toManageCode c) g.(tags).(permissions)).

Lemma toManageCode_view m : toManageCode (m ++ js "_view") = m ++ js "_manage".
Proof.
  unfold toManageCode.
  assert (truthy (m ++ js "_view") = true) as -> by (apply truthy_true; by destruct m).
  assert (endsWith (m ++ js "_view") (js "_view") = true) as -> by (apply endsWith_spec; eauto).
  cbn [negb]. f_equal. rewrite length_app, Nat.add_sub. by rewrite take_app_length.
Qed.

Lemma toManageCode_other c : (forall m, c <> m ++ js "_view") -> toManageCode c = [].
Proof.
  intros H. unfold toManageCode. destruct c as [|a c]; [done|]. cbn [truthy negb].
  destruct (endsWith _ _) eqn:E; [|done]. apply endsWith_spec in E as (m & E). by destruct (H m).
Qed.

Lemma toManageCode_cases c :
  (exists m, c = m ++ js "_view" /\ toManageCode c = m ++ js "_manage") \/
  (toManageCode c = [] /\ forall m, c <> m ++ js "_view").
Proof.
  destruct (endsWith c (js "_view")) eqn:E.
  - apply endsWith_spec in E as (m & ->). left. exists m. by rewrite toManageCode_view.
  - right. assert (forall m, c <> m ++ js "_view") as H.
    { intros m ->. rewrite <- not_true_iff_false, endsWith_spec in E. apply E. eauto. }
    split; [by apply toManageCode_other|done].
Qed.

Lemma usableb_spec g c : usableb g c = true <-> usable g c.
Proof.
  unfold usableb, usable. rewrite orb_true_iff, negb_true_iff, memb_not_elem. done.
Qed.

Lemma grantedb_spec g c : grantedb g c = true <-> granted g c.
Proof.
  unfold grantedb, granted.
  rewrite !andb_true_iff, !orb_true_iff, !andb_true_iff, !usableb_spec, !memb_elem, !truthy_true.
  destruct (toManageCode_cases c) as [(m & -> & ->)|(-> & Hn)].
  - split.
    + intros ((? & ?) & [[?|?]|((? & ?) & ?)]); naive_solver.
    + intros (? & ? & [?|[?|(m' & E & ? & ?)]]); [naive_solver..|].
      apply app_inv_tail in E as <-. split; [done|]. right. split; [split|]; try done.
      by destruct m.
  - split.
    + intros ((? & ?) & [[?|?]|((? & ?) & ?)]); naive_solver.
    + intros (? & ? & [?|[?|(m' & E & ? & ?)]]); [naive_solver..|]. by destruct (Hn m').
Qed.

Lemma memb_set c l : c <> [] ->
  bool_decide (c ∈ (list_to_set (List.filter truthy l) : gset jsstr)) = memb c l.
Proof.
  intros Hc. apply eq_true_iff_eq. rewrite bool_decide_eq_true, elem_of_list_to_set, memb_elem.
  rewrite !list_elem_of_In, filter_In, truthy_true. tauto.
Qed.

(** ** The state monad's view of the store

    [hasPermission] answers a boolean of the store alone and leaves the store
    as it is: the key and the set are a cache. *)
Lemma hasPermission_reads p : reads world_ok gs (hasPermission p) (fun g => grantedb g (trim p)).
Proof.
  intros w (Hc & Hn). unfold hasPermission, bind, get, ret.
  destruct (setMasterOnlyPermissionCodes_sync _ Hn w Hc) as (c & E & Hok & Hset).
  destruct (setMasterOnlyPermissionCodes _ w) as [u w']. cbn [snd] in E. subst w'.
  assert (world_ok (set_codes c w)) as Hw by (by split).
  unfold grantedb. set (q := trim p). destruct (truthy q) eqn:Eq; [|done].
  apply truthy_true in Eq. unfold isMasterOnlyPermissionCode, gets. cbn [negb andb codes set_codes].
  rewrite Hset, (memb_set q) by done. unfold usableb.
  set (mo := masterOnlyPermissions (tags (gs w))). set (ps := permissions (tags (gs w))).
  destruct (isMaster (gs w)), (memb q mo), (isAdmin (tags (gs w))), (memb q ps); try done;
    cbn [negb andb orb];
    (destruct (truthy (toManageCode q)) eqn:Em; [|done]); apply truthy_true in Em;
    cbn [negb andb orb codes set_codes]; rewrite ?Hset, ?(memb_set (toManageCode q)) by done;
    fold mo; try destruct (memb (toManageCode q) mo); done.
Qed.

Lemma setMasterOnlyPermissionCodes_cache ps w :
  pageStateCache (setMasterOnlyPermissionCodes ps w).2 = pageStateCache w.
Proof. unfold setMasterOnlyPermissionCodes, modify. cbn. by case_step. Qed.

Lemma hasPermission_cache p w : pageStateCache (hasPermission p w).2 = pageStateCache w.
Proof.
  unfold hasPermission, bind, get, isMasterOnlyPermissionCode, gets, ret.
  rewrite <- (setMasterOnlyPermissionCodes_cache (masterOnlyPermissions (tags (gs w))) w).
  destruct (setMasterOnlyPermissionCodes _ w) as [u w']. repeat case_step; done.
Qed.

(** The actions of the store that write the codes keep the invariant. *)
Lemma setMasterOnlyPermissionCodes_ok ps w :
  no_newline ps -> world_ok w -> world_ok (setMasterOnlyPermissionCodes ps w).2.
Proof.
  intros Hps (Hc & Hn). destruct (setMasterOnlyPermissionCodes_sync ps Hps w Hc) as (c & -> & ? & _).
  by split.
Qed.

Lemma setAuthInfo_ok p w :
  no_newline (default [] p.(p_masterOnly)) -> world_ok w -> world_ok (setAuthInfo p w).2.
Proof.
  intros Hp (Hc & Hn). apply setMasterOnlyPermissionCodes_ok; [done|]. by split.
Qed.

Lemma clearAuthInfo_ok w : world_ok w -> world_ok (clearAuthInfo w).2.
Proof.
  intros (Hc & Hn). apply (setMasterOnlyPermissionCodes_ok []); [by constructor|].
  split; [done|by constructor].
Qed.

Lemma initial_world_ok locale : world_ok (initial_world locale).
Proof. split; [|by constructor]. exists []. repeat split; by constructor. Qed.

#[export] Hint Resolve setAuthInfo_ok clearAuthInfo_ok initial_world_ok : panel.

(** ** Runs of the store

    Whatever the order of the calls, whatever node the user switches to in
    between, and whatever the pages assign to the other fields (the entrance in
    login/index.vue, the edition in login-form.vue, the license in xpack.ts), the
    invariant holds: the server's codes hold no line feed. *)

Definition switch_node (n : jsstr) : World -> World :=
  set_gs (set_node (fun m => Build_MultiNode m.(masterAlias) n m.(currentNodeAddr))).

(** The tags that are assigned beside the rights: the edition of the panel. *)
Definition with_edition (enterprise intl fxplay offline : bool) (t : Tags) : Tags :=
  {| isAdmin := t.(isAdmin); permissions := t.(permissions); masterOnlyPermissions := t.(masterOnlyPermissions);
     nodeRoles := t.(nodeRoles); isEnterprise := enterprise; isIntl := intl; docWithRegion := t.(docWithRegion);
     isFxplay := fxplay; isOffline := offline |}.

Inductive store_step : World -> World -> Prop :=
| step_setAuthInfo p w : no_newline (default [] p.(p_masterOnly)) -> store_step w (setAuthInfo p w).2
| step_clearAuthInfo w : store_step w (clearAuthInfo w).2
| step_hasPermission p w : store_step w (hasPermission p w).2
| step_switch_node n w : store_step w (switch_node n w)
| step_setLogStatus b w : store_step w (setLogStatus b w).2
| step_updateLanguage l w : store_step w (updateLanguage l w).2
| step_getPageState k w : store_step w (getPageState k w).2
| step_toggleDevice d w : store_step w (toggleDevice d w).2
| step_setScreenFull w : store_step w (setScreenFull w).2
| step_assign_ui f w : store_step w (set_gs (set_ui f) w)
| step_assign_auth f w : store_step w (set_gs (set_auth f) w)
| step_assign_license f w : store_step w (set_gs (set_license f) w)
| step_assign_edition e i x o w : store_step w (set_gs (set_tags (with_edition e i x o)) w).

Definition reachable (locale : jsstr) (w : World) : Prop :=
  star store_step (initial_world locale) w.

Lemma store_step_ok w w' : world_ok w -> store_step w w' -> world_ok w'.
Proof.
  intros Hw H. destruct H as [p w Hp| |p w| | | |k w| | | | | |]; auto with panel;
    try (destruct Hw; by split).
  - by apply (hasPermission_reads p w Hw).
  - unfold getPageState. destruct (pageStateCache w !! k); [done|]. by destruct Hw; split.
Qed.

Lemma reachable_ok locale w : reachable locale w -> world_ok w.
Proof.
  intros H. apply (star_invariant store_step world_ok store_step_ok _ _ H), initial_world_ok.
Qed.

(** ** Properties *)

(** C8. In every state the store can reach, hasPermission answers exactly the
    declarative reading of a permission: the trimmed code is not empty, it is
    usable on the current node, and the user is an administrator, lists it, or
    lists its usable manage code; the call leaves the store as it was. *)
Theorem hasPermission_spec locale p w :
  reachable locale w ->
  ((hasPermission p w).1 = true <-> granted w.(gs) (trim p)) /\
  (hasPermission p w).2.(gs) = w.(gs).
Proof.
  intros Hw%reachable_ok. destruct (hasPermission_reads p w Hw) as (-> & -> & _).
  by rewrite grantedb_spec.
Qed.

(** The store after logging in on a node. *)
Definition sample_world (adm : bool) (nodename : jsstr) (ps ms : list jsstr) : World :=
  (setAuthInfo {| p_isAdmin := adm; p_permissions := ps; p_masterOnly := Some ms; p_nodeRoles := None |}
    (switch_node nodename (initial_world (js "en")))).2.

Lemma sample_world_reachable adm nodename ps ms :
  no_newline ms -> reachable (js "en") (sample_world adm nodename ps ms).
Proof.
  intros H. eapply star_step; [apply (step_switch_node nodename)|].
  apply star_one. by apply step_setAuthInfo.
Qed.

Lemma no_newline_dec l : forallb (fun c => negb (has_unit 10 c)) l = true -> no_newline l.
Proof.
  intros H. apply Forall_elem. intros c Hc. rewrite forallb_elem in H.
  by apply has_unit_false, negb_true_iff, H.
Qed.

Lemma hasPermission_spec_witness :
  let w := sample_world false (js "edge1") [js "website_manage"] [js "firewall_view"] in
  ((hasPermission (js " website_view ") w).1 = true <-> granted w.(gs) (js "website_view")) /\
  (hasPermission (js " website_view ") w).2.(gs) = w.(gs).
Proof.
  cbn zeta. apply (hasPermission_spec (js "en") (js " website_view ")), sample_world_reachable.
  by apply no_newline_dec.
Defined.

Lemma clearAuthInfo_state w :
  let w' := (clearAuthInfo w).2 in
  w'.(pageStateCache) = ∅ /\ w'.(gs).(tags).(permissions) = [] /\ w'.(gs).(tags).(isAdmin) = false.
Proof.
  unfold clearAuthInfo, setMasterOnlyPermissionCodes, bind, modify. cbn. by case_step.
Qed.

(** After clearAuthInfo, which every logout runs, no permission is granted
    and no page state of the previous user is kept, until setAuthInfo runs
    again: neither switching the node nor asking for permissions changes it. *)
Theorem clearAuthInfo_revokes locale w w' p :
  reachable locale w -> star (fun a b => (exists n, b = switch_node n a) \/ exists q, b = (hasPermission q a).2)
    (clearAuthInfo w).2 w' ->
  (hasPermission p w').1 = false /\ w'.(pageStateCache) = ∅.
Proof.
  intros Hw%reachable_ok%clearAuthInfo_ok H.
  set (I := fun v => world_ok v /\ v.(pageStateCache) = ∅ /\
    v.(gs).(tags).(permissions) = [] /\ v.(gs).(tags).(isAdmin) = false).
  assert (I w') as (Hok & Hp & Hl & Ha).
  { refine (star_invariant _ I _ _ _ H _); [|by split; [|apply clearAuthInfo_state]].
    intros a b (Hok & Hp & Hl & Ha) [[n ->]|[q ->]].
    - split; [by destruct Hok|done].
    - destruct (hasPermission_reads q a Hok) as (_ & E & Hok'). unfold I. rewrite E.
      split; [done|]. split; [|done]. rewrite <- Hp. apply hasPermission_cache. }
  split; [|done]. apply not_true_iff_false.
  destruct (hasPermission_reads p w' Hok) as (-> & _ & _). rewrite grantedb_spec.
  intros (_ & _ & [H1|[H1|(m & _ & _ & H1)]]); [congruence|..]; rewrite Hl in H1; inversion H1.
Qed.

Lemma clearAuthInfo_revokes_witness :
  let w := sample_world true (js "local") [js "website_manage"] [] in
  (hasPermission (js "website_view") (switch_node (js "edge1") (clearAuthInfo w).2)).1 = false /\
  (switch_node (js "edge1") (clearAuthInfo w).2).(pageStateCache) = ∅.
Proof.
  cbn zeta. apply (clearAuthInfo_revokes (js "en") (sample_world true (js "local") [js "website_manage"] [])).
  - by apply sample_world_reachable, no_newline_dec.
  - apply star_one. left. by exists (js "edge1").
Defined.
