(* ===== verification/Http.v ===== *)
(** * The HTTP client

    src/frontend/src/api/index.ts (the interceptors), utils/auth-response.ts,
    utils/stream-auth.ts, utils/node.ts, utils/operate-node.ts,
    api/helper/check-status.ts, enums/http-enum.ts and getCookie of utils/auth.ts.
    A handler acts on the client's state: the world of the global store, the
    operating node override, and the log of the effects outside the store, in
    order.  axios, fetch and vue-router are third parties: what they hand to the
    handlers and what the handlers answer are arguments and results. *)

From S2P Require Import Prelude JsString Splitting Uri GlobalStore.

#[local] Open Scope list_scope.

(** ** Result codes *)

Module ResultEnum.
Definition SUCCESS := 200%Z.
Definition ERR_IP := 310%Z.
Definition ERR_DOMAIN := 311%Z.
Definition UNSAFETY := 312%Z.
Definition EXPIRED := 313%Z.
Definition ERROR := 500%Z.
Definition OVERDUE := 401%Z.
Definition FORBIDDEN := 403%Z.
Definition NOTFOUND := 404%Z.
Definition ERR_AUTH := 406%Z.
Definition ERR_GLOBAL_LOADING := 407%Z.
Definition ERR_XPACK := 410%Z.
Definition NODE_UNBIND := 411%Z.
Definition ERR_RBAC := 412%Z.
Definition ERR_ENTERPRISE := 413%Z.
Definition TIMEOUT := 20000%Z.
End ResultEnum.

(** ** The client's state *)

(** A translated text is its key. *)
Inductive Text := Key (k : jsstr) | Server (s : jsstr).

Inductive Effect :=
| RouterPush (name : jsstr) (code : option jsstr)      (* router.push with params.code *)
| RouterReplaceName (name : jsstr) (code : option jsstr)
| RouterReplacePath (path : jsstr)
| MsgError (t : Text)
| Reload                                               (* window.location.reload() *)
| ListNodes                                            (* the request of changeToLocal is sent *)
| CancelBody                                           (* res.body.cancel() *)
| ClearTimeout.

Record Client := { world : World; operateNodeOverride : jsstr; log : list Effect }.

Definition on_world {A} (m : M World A) : M Client A := fun c =>
  let '(a, w) := m c.(world) in
  (a, {| world := w; operateNodeOverride := c.(operateNodeOverride); log := c.(log) |}).
Definition emit (e : Effect) : M Client unit :=
  modify (fun c => {| world := c.(world); operateNodeOverride := c.(operateNodeOverride); log := c.(log) ++ [e] |}).
Definition globalStore {A} (f : GlobalState -> A) : M Client A := gets (fun c => f c.(world).(gs)).
Definition update (f : GlobalState -> GlobalState) : M Client unit := on_world (modify (set_gs f)).
Definition entrance_of (g : GlobalState) : jsstr := g.(auth).(entrance).

(** ** operate-node.ts *)

Definition set_override (n : jsstr) (c : Client) : Client :=
  {| world := c.(world); operateNodeOverride := n; log := c.(log) |}.
Definition setOperateNodeOverride (node : option jsstr) : M Client unit :=
  modify (set_override (default [] node)).
Definition getOperateNodeOverride : M Client jsstr := gets operateNodeOverride.
Definition clearOperateNodeOverride (node : option jsstr) : M Client unit :=
  modify (fun c =>
    if negb (truthy (default [] node)) || (c.(operateNodeOverride) === default [] node)
    then set_override [] c else c).

(** ** node.ts *)

Record NodeItem := { node_name : jsstr; node_addr : jsstr }.

Definition set_current (n addr : jsstr) : GlobalState -> GlobalState :=
  set_node (fun m => Build_MultiNode m.(masterAlias) n addr).

Definition setDefaultNodeInfo : M Client unit := update (set_current (js "local") (js "127.0.0.1")).

(** The answer of listNodes: [None] when the request failed or has no data. *)
Definition listNodes (answer : option (list NodeItem)) : list NodeItem := default [] answer.

(** changeToLocal, once the request it starts with has answered. *)
Definition changeToLocal_resume (answer : option (list NodeItem)) : M Client unit :=
  match listNodes answer with
  | [] => setDefaultNodeInfo
  | (first :: _) as nodes =>
      let! admin := globalStore (fun g => g.(tags).(isAdmin)) in
      match (if admin then List.find (fun item => item.(node_name) === js "local") nodes else None) with
      | Some item => update (set_current (js "local") item.(node_addr))
      | None => update (set_current first.(node_name) first.(node_addr))
      end
  end.

(** changeToLocal() up to its await. *)
Definition changeToLocal : M Client unit := emit ListNodes.

(** ** auth-response.ts *)

(** The data of a response: an object with an optional code and message. *)
Record Data := { code : option Z; message : option jsstr }.

Inductive Action := reject | return_.
Record AuthResponseResult := { handled : bool; action : option Action; result_message : Text }.

Definition forbiddenMessage : Text := Key (js "commons.res.forbidden").

(** [data?.message || forbiddenMessage()] *)
Definition message_or (key : Text) (m : option jsstr) : Text :=
  match m with Some s => if truthy s then Server s else key | None => key end.

Definition redirectToEntrance : M Client unit :=
  on_world (setLogStatus false);;;
  on_world clearAuthInfo;;;
  let! e := globalStore entrance_of in
  emit (RouterPush (js "entrance") (Some e)).

Definition redirectToExpired : M Client unit := emit (RouterPush (js "Expired") None).

Definition not_handled : AuthResponseResult := {| handled := false; action := None; result_message := Server [] |}.

Definition handleAuthResponseCode (data : option Data) (showRBACMessage : bool) : M Client AuthResponseResult :=
  let msg := message_or forbiddenMessage (data ≫= message) in
  match data ≫= code with
  | Some c =>
      if (c =? ResultEnum.OVERDUE)%Z || (c =? ResultEnum.FORBIDDEN)%Z then
        redirectToEntrance;;; ret {| handled := true; action := Some reject; result_message := msg |}
      else if (c =? ResultEnum.ERR_RBAC)%Z then
        (if showRBACMessage then emit (MsgError msg) else ret tt);;;
        ret {| handled := true; action := Some reject; result_message := msg |}
      else if (c =? ResultEnum.EXPIRED)%Z then
        redirectToExpired;;; ret {| handled := true; action := Some return_; result_message := msg |}
      else ret not_handled
  | None => ret not_handled
  end.

Definition handleAuthResponseStatus (status : Z) : M Client AuthResponseResult :=
  if (status =? ResultEnum.OVERDUE)%Z || (status =? ResultEnum.FORBIDDEN)%Z then
    redirectToEntrance;;; ret {| handled := true; action := Some reject; result_message := forbiddenMessage |}
  else if (status =? ResultEnum.EXPIRED)%Z then
    redirectToExpired;;; ret {| handled := true; action := Some return_; result_message := forbiddenMessage |}
  else ret not_handled.

(** ** check-status.ts *)

Definition checkStatus (status : Z) (msg : jsstr) : M Client unit :=
  let show key := emit (MsgError (if truthy msg then Server msg else Key (js key))) in
  if (status =? 400)%Z then show "commons.res.paramError"%string
  else if (status =? 404)%Z then show "commons.res.notFound"%string
  else if (status =? 403)%Z then
    on_world (setLogStatus false);;;
    on_world clearAuthInfo;;;
    let! e := globalStore entrance_of in
    emit (RouterReplaceName (js "entrance") (Some e));;;
    show "commons.res.forbidden"%string
  else if (status =? 500)%Z then show "commons.res.serverError"%string
  else show "commons.res.commonError"%string.

(** ** getCookie *)

(** [parts.pop()?.split(';').shift()]; [None] is undefined. *)
Definition getCookie (cookie name : jsstr) : option jsstr :=
  let value := js "; " ++ cookie in
  match split_on (js "; " ++ name ++ js "=") value with
  | [_; last] => head (split 59 last)
  | _ => None
  end.

(** ** The request interceptor *)

(** A request: its URL, method (absent is get) and headers. *)
Record Request := { url : jsstr; method : option jsstr; headers : gmap jsstr jsstr }.

Definition entrance_urls : list jsstr :=
  [ js "/core/auth/login"; js "/core/auth/mfalogin"; js "/core/auth/passkey/begin";
    js "/core/auth/passkey/finish"; js "/core/auth/oidc/begin"; js "/core/auth/oidc/finish";
    js "/core/auth/saml2/begin"; js "/core/auth/saml2/finish" ].
Definition safe_methods : list jsstr := [js "GET"; js "HEAD"; js "OPTIONS"; js "TRACE"].

Definition set_csrfToken (t : jsstr) : GlobalState -> GlobalState := set_auth (fun a =>
  Build_Auth a.(ignoreCaptcha) a.(agreeLicense) a.(isLogin) a.(entrance) t).

Section Client.
(** js-base64's Base64.encode, and String.prototype.toUpperCase of a method *)
Context {JU : JsUnicode} (encodeBase64 toUpperCase : jsstr -> jsstr).

(** [None] is the URIError of encodeURIComponent, which rejects the request;
    [cookie] is document.cookie. *)
Definition request_interceptor (cookie : jsstr) (config : Request) : M Client (option Request) :=
  let! language := globalStore language in
  let headers := config.(headers) ∪ {[ js "Accept-Language" := language ]} in
  let! override := getOperateNodeOverride in
  let! node := globalStore (fun g => g.(node).(currentNode)) in
  let current := match headers !! js "CurrentNode" with
                 | None => if truthy override then override else node
                 | Some n => n
                 end in
  match encodeURIComponent current with
  | None => ret None
  | Some encoded =>
      let headers := <[js "CurrentNode" := encoded]> headers in
      let! entrance := globalStore entrance_of in
      let headers := if memb config.(url) entrance_urls
                     then <[js "EntranceCode" := encodeBase64 entrance]> headers else headers in
      let m := toUpperCase (match config.(method) with
                            | Some m => if truthy m then m else js "get"
                            | None => js "get"
                            end) in
      let requiresToken := negb (memb m safe_methods) in
      let csrfToken := default [] (getCookie cookie (js "pcsrftoken")) in
      if requiresToken && truthy csrfToken then
        update (set_csrfToken csrfToken);;;
        ret (Some {| url := config.(url); method := config.(method);
                     headers := <[js "X-CSRF-Token" := csrfToken]> headers |})
      else ret (Some {| url := config.(url); method := config.(method); headers := headers |})
  end.

(** ** The response interceptor *)

(** What the interceptor's promise does: it resolves with the data or with
    undefined, rejects with the data, or fails with a TypeError. *)
Inductive Outcome := Resolved (d : Data) | ResolvedUndefined | Rejected (d : Data) | TypeError.

Definition set_isProductPro (b : bool) : GlobalState -> GlobalState := set_license (fun l =>
  Build_License b l.(productProExpires) l.(isMasterProductPro) l.(isEnterpriseLicensed) l.(isEnterpriseLicenseLoaded)).
Definition set_isEnterpriseLicensed (b : bool) : GlobalState -> GlobalState := set_license (fun l =>
  Build_License l.(isProductPro) l.(productProExpires) l.(isMasterProductPro) b l.(isEnterpriseLicenseLoaded)).
Definition set_loading (b : bool) (text : option jsstr) : GlobalState -> GlobalState := set_ui (fun u =>
  Build_Ui u.(isFullScreen) u.(openMenuTabs) u.(menuAccordion) u.(watermark) u.(watermarkShow) b
    (default u.(loadingText) text)).

(** [routeName] is router.currentRoute.value.name; [data] is absent when the body
    is null, and a body without an object's fields has neither code nor message. *)
Definition response_interceptor (routeName : option jsstr) (skipErrorMessage : bool) (data : option Data)
    : M Client Outcome :=
  let! authResult := handleAuthResponseCode data true in
  match data with
  | None => ret TypeError
  | Some d =>
      let is_code c := match d.(code) with Some x => (x =? c)%Z | None => false end in
      if authResult.(handled) then
        ret (match authResult.(action) with Some return_ => ResolvedUndefined | _ => Rejected d end)
      else if is_code ResultEnum.ERR_XPACK then
        update (set_isProductPro false);;; emit Reload;;; ret (Rejected d)
      else if is_code ResultEnum.ERR_ENTERPRISE then
        update (set_isEnterpriseLicensed false);;;
        let! login := globalStore (fun g => g.(auth).(isLogin)) in
        (if login && negb (bool_decide (routeName = Some (js "EnterpriseLicenseRequired")))
         then emit (RouterPush (js "EnterpriseLicenseRequired") None) else ret tt);;;
        ret (Rejected d)
      else if is_code ResultEnum.NODE_UNBIND then
        changeToLocal;;; emit Reload;;; ret ResolvedUndefined
      else if is_code ResultEnum.ERR_GLOBAL_LOADING then
        update (set_loading true (Some (default [] d.(message))));;; ret ResolvedUndefined
      else
        let! loading := globalStore (fun g => g.(ui).(isLoading)) in
        (if loading then update (set_loading false None) else ret tt);;;
        if is_code ResultEnum.ERR_AUTH then ret (Resolved d)
        else match d.(code) with
             | None => ret (Resolved d)
             | Some c =>
                 if (c =? 0)%Z || (c =? ResultEnum.SUCCESS)%Z then ret (Resolved d)
                 else match d.(message) with
                      | None => ret TypeError
                      | Some m =>
                          if includes (toLowerCase m) (js "operation not permitted") then
                            emit (MsgError (Key (js "license.tamperHelper")));;; ret (Rejected d)
                          else
                            (if skipErrorMessage then ret tt else emit (MsgError (Server m)));;;
                            ret (Rejected d)
                      end
             end
  end.

(** ** The error interceptor *)

(** A failed request: its message and, when the server answered, the status and
    the message of the body. *)
Record Failure := { error_message : jsstr; response : option (Z * option jsstr) }.

Definition isCsrfForbidden (m : option jsstr) : bool :=
  match m with Some s => includes (toLowerCase s) (js "csrf token invalid") | None => false end.

(** [true]: the promise is rejected with the error; [false]: it resolves with undefined. *)
Definition error_interceptor (onLine : bool) (error : Failure) : M Client bool :=
  (if includes error.(error_message) (js "timeout")
   then emit (MsgError (Key (js "commons.msg.requestTimeout"))) else ret tt);;;
  match error.(response) with
  | Some (status, m) =>
      if (status =? 313)%Z then emit (RouterPush (js "Expired") None);;; ret false
      else if (status =? 403)%Z then
        (if isCsrfForbidden m then ret tt
         else emit (MsgError (message_or (Key (js "commons.res.forbidden")) m)));;;
        ret true
      else if (status =? 500)%Z || (status =? 502)%Z || (status =? 524)%Z || (status =? 407)%Z then
        checkStatus status (default [] m);;; ret true
      else ret true
  | None => (if onLine then ret tt else emit (RouterReplacePath (js "/500")));;; ret true
  end.

(** ** stream-auth.ts *)

(** What fetch answers: the status, the content type and the parsed body, absent
    when it is no JSON. *)
Record FetchResponse := { status : Z; contentType : option jsstr; body : option (option Data) }.

(** [url.replace(/^ws/, 'http')] *)
Definition stream_url (u : jsstr) : jsstr :=
  if startsWith u (js "ws") then js "http" ++ drop 2 u else u.

(** The try block, once fetch has answered for [node]: [answer] is absent when the
    fetch fails or the timer aborts it. *)
Definition stream_result (node : jsstr) (answer : option FetchResponse) : M Client Text :=
  match encodeURIComponent node, answer with
  | Some _, Some res =>
      let! statusResult := handleAuthResponseStatus res.(status) in
      if statusResult.(handled) then ret statusResult.(result_message)
      else if negb (includes (default [] res.(contentType)) (js "application/json")) then
        emit CancelBody;;; ret (Server [])
      else match res.(body) with
           | Some data =>
               let! codeResult := handleAuthResponseCode data false in
               if codeResult.(handled) then ret codeResult.(result_message) else ret (Server [])
           | None => ret (Server [])
           end
  | _, _ => ret (Server [])
  end.

(** The node a stream is for. *)
Definition stream_node (currentNode : option jsstr) (g : GlobalState) : jsstr :=
  let storeCurrentNode := g.(node).(GlobalStore.currentNode) in
  match currentNode with Some n => if truthy n then n else storeCurrentNode | None => storeCurrentNode end.

(** The result is the message shown, empty when the stream may be opened. *)
Definition checkStreamAuth (answer : option FetchResponse) (currentNode : option jsstr) : M Client Text :=
  let! n := globalStore (stream_node currentNode) in
  let! result := stream_result n answer in
  emit ClearTimeout;;; ret result.
End Client.

(** ** What ends a session *)

(** The parts of the store a session consists of. *)
Definition session (c : Client) : bool * Tags * gmap jsstr N :=
  (c.(world).(gs).(auth).(isLogin), c.(world).(gs).(tags), c.(world).(pageStateCache)).

Definition session_ended (c c' : Client) : Prop :=
  c'.(world).(gs).(auth).(isLogin) = false /\
  (world_ok c.(world) -> forall p, (hasPermission p c'.(world)).1 = false) /\
  c'.(world).(pageStateCache) = ∅.

(** An operation that touches nothing of the session. *)
Definition spares {A} (m : M Client A) : Prop := forall c, session (m c).2 = session c.

Lemma spares_ret {A} (a : A) : spares (ret a).
Proof. by intros c. Qed.
Lemma spares_emit e : spares (emit e).
Proof. by intros c. Qed.
Lemma spares_gets {A} (f : GlobalState -> A) : spares (globalStore f).
Proof. by intros c. Qed.
Lemma spares_override : spares getOperateNodeOverride.
Proof. by intros c. Qed.
Lemma spares_update f :
  (forall g, (f g).(auth).(isLogin) = g.(auth).(isLogin) /\ (f g).(tags) = g.(tags)) -> spares (update f).
Proof.
  intros H c. unfold update, on_world, modify, session. cbn. by destruct (H (gs (world c))) as [-> ->].
Qed.
Lemma spares_bind {A B} (m : M Client A) (k : A -> M Client B) :
  spares m -> (forall a, spares (k a)) -> spares (bind m k).
Proof.
  intros Hm Hk c. unfold bind. specialize (Hm c). destruct (m c) as [a c']. cbn in Hm. by rewrite Hk.
Qed.
Lemma spares_if {A} (b : bool) (m m' : M Client A) : spares m -> spares m' -> spares (if b then m else m').
Proof. by destruct b. Qed.

Ltac spare :=
  repeat first
    [ apply spares_ret | apply spares_emit | apply spares_gets | apply spares_override
    | apply spares_update; by intros [] | apply spares_bind; [|intros ?]
    | apply spares_if | progress case_match ].

Lemma clearAuthInfo_login w : (clearAuthInfo w).2.(gs).(auth) = w.(gs).(auth).
Proof. unfold clearAuthInfo, setMasterOnlyPermissionCodes, bind, modify. cbn. by case_step. Qed.

(** redirectToEntrance ends the session and shows the entrance. *)
Lemma redirectToEntrance_spec c :
  let c' := (redirectToEntrance c).2 in
  session_ended c c' /\
  c'.(log) = c.(log) ++ [RouterPush (js "entrance") (Some (entrance_of c.(world).(gs)))].
Proof.
  cbn zeta. unfold redirectToEntrance, bind, on_world, globalStore, gets, emit, modify.
  destruct (setLogStatus false (world c)) as [u w1] eqn:E1. cbn [world].
  destruct (clearAuthInfo w1) as [u' w2] eqn:E2.
  pose proof (clearAuthInfo_state w1) as (Hp & Hl & Ha). pose proof (clearAuthInfo_login w1) as Hau.
  rewrite E2 in Hp, Hl, Ha, Hau. cbn [snd] in *. injection E1 as _ E1.
  assert (Hau1 : auth (gs w1) = Build_Auth (ignoreCaptcha (auth (gs (world c)))) (agreeLicense (auth (gs (world c))))
    false (entrance (auth (gs (world c)))) (csrfToken (auth (gs (world c))))) by by rewrite <- E1.
  unfold session_ended. cbn [snd world log]. split; [split; [|split]|].
  - by rewrite Hau, Hau1.
  - intros Hw p. assert (world_ok w2) as Hok.
    { pose proof (clearAuthInfo_ok w1) as H. rewrite E2 in H. apply H. rewrite <- E1. by destruct Hw; split. }
    apply not_true_iff_false. destruct (hasPermission_reads p w2 Hok) as (-> & _ & _).
    rewrite grantedb_spec. intros (_ & _ & [H|[H|(m & _ & _ & H)]]); [congruence|..]; rewrite Hl in H; inversion H.
  - done.
  - unfold entrance_of. by rewrite Hau, Hau1.
Qed.

Definition ends_session (c : option Z) : bool :=
  match c with Some c => (c =? ResultEnum.OVERDUE)%Z || (c =? ResultEnum.FORBIDDEN)%Z | None => false end.

Lemma handleAuthResponseCode_ends d b c : ends_session (d ≫= code) = true ->
  handleAuthResponseCode d b c =
    ({| handled := true; action := Some reject; result_message := message_or forbiddenMessage (d ≫= message) |},
     (redirectToEntrance c).2).
Proof.
  unfold handleAuthResponseCode, ends_session. destruct (d ≫= code) as [k|]; [|done]. intros ->.
  unfold bind, ret. by destruct (redirectToEntrance c).
Qed.

Lemma handleAuthResponseCode_spares d b : ends_session (d ≫= code) = false -> spares (handleAuthResponseCode d b).
Proof.
  unfold handleAuthResponseCode, ends_session. destruct (d ≫= code) as [k|]; [|intros _; apply spares_ret].
  intros ->. spare.
Qed.

Lemma handleAuthResponseStatus_spares s :
  ends_session (Some s) = false -> spares (handleAuthResponseStatus s).
Proof. unfold handleAuthResponseStatus, ends_session. intros ->. spare. Qed.

Section Laws.
Context {JU : JsUnicode} (encodeBase64 toUpperCase : jsstr -> jsstr).

Lemma response_spares rn skip d : ends_session (d ≫= code) = false -> spares (response_interceptor rn skip d).
Proof.
  intros H. unfold response_interceptor. apply spares_bind; [by apply handleAuthResponseCode_spares|].
  intros r. unfold changeToLocal. spare.
Qed.

Lemma checkStatus_spares s m : s <> 403%Z -> spares (checkStatus s m).
Proof.
  intros Hs. unfold checkStatus. assert ((s =? 403)%Z = false) as -> by by apply Z.eqb_neq.
  cbv zeta. spare.
Qed.

Lemma error_spares onLine e : spares (error_interceptor onLine e).
Proof.
  unfold error_interceptor. apply spares_bind; [spare|]. intros [].
  destruct (response e) as [[s m]|]; [|spare].
  apply spares_if; [spare|]. destruct (s =? 403)%Z eqn:E4; [spare|].
  apply spares_if; [|spare]. apply spares_bind; [|intros []; spare].
  by apply checkStatus_spares, Z.eqb_neq.
Qed.

Lemma response_ends rn skip d c : ends_session d.(code) = true ->
  response_interceptor rn skip (Some d) c = (Rejected d, (redirectToEntrance c).2).
Proof.
  intros H. unfold response_interceptor. unfold bind at 1. by rewrite handleAuthResponseCode_ends.
Qed.

(** C12. A session ends exactly on an answer whose body carries the code OVERDUE or
    FORBIDDEN: then nobody is logged in, no permission is granted, no page state is
    kept and the entrance is shown.  No other answer, and no failed request whatever
    its status, changes the session. *)
Theorem session_ends_exactly rn skip d c :
  (ends_session (d ≫= code) = true ->
    let c' := (response_interceptor rn skip d c).2 in
    session_ended c c' /\
    c'.(log) = c.(log) ++ [RouterPush (js "entrance") (Some (entrance_of c.(world).(gs)))]) /\
  (ends_session (d ≫= code) = false -> session (response_interceptor rn skip d c).2 = session c) /\
  (forall onLine e, session (error_interceptor onLine e c).2 = session c).
Proof.
  split; [|split].
  - intros H. destruct d as [d|]; [|done]. cbn zeta. rewrite response_ends by done.
    exact (redirectToEntrance_spec c).
  - intros H. by apply response_spares.
  - intros onLine e. apply error_spares.
Qed.

(** C40. What becomes of an answer: the caller gets the data without a code, or with
    0, SUCCESS or ERR_AUTH; undefined when the panel expired, the node was unbound or
    a global operation runs; an exception when an error has no message; every other
    answer is rejected with its data. *)
Theorem response_outcome rn skip d c :
  (response_interceptor rn skip (Some d) c).1 =
  match d.(code) with
  | None => Resolved d
  | Some k =>
      if existsb (Z.eqb k) [0; ResultEnum.SUCCESS; ResultEnum.ERR_AUTH]%Z then Resolved d
      else if existsb (Z.eqb k) [ResultEnum.EXPIRED; ResultEnum.NODE_UNBIND; ResultEnum.ERR_GLOBAL_LOADING]
      then ResolvedUndefined
      else if existsb (Z.eqb k) [ResultEnum.OVERDUE; ResultEnum.FORBIDDEN; ResultEnum.ERR_RBAC;
                                 ResultEnum.ERR_XPACK; ResultEnum.ERR_ENTERPRISE]
      then Rejected d
      else if bool_decide (d.(message) = None) then TypeError else Rejected d
  end.
Proof.
  destruct d as [[k|] m]; cbn [code message].
  2: { unfold response_interceptor, bind, ret, globalStore, gets. cbn. by case_match. }
  destruct (ends_session (Some k)) eqn:He.
  { rewrite response_ends by done. cbn [ends_session] in He.
    apply orb_true_iff in He as [He|He]; by apply Z.eqb_eq in He as ->. }
  cbn [ends_session] in He. apply orb_false_iff in He as [H401 H403].
  unfold response_interceptor, handleAuthResponseCode. cbn [mbind option_bind code message existsb].
  rewrite H401, H403. cbn [orb].
  destruct (k =? ResultEnum.ERR_RBAC)%Z eqn:E1; [by apply Z.eqb_eq in E1 as ->|].
  destruct (k =? ResultEnum.EXPIRED)%Z eqn:E2; [by apply Z.eqb_eq in E2 as ->|].
  unfold bind at 1, ret at 1. cbn [not_handled handled].
  destruct (k =? ResultEnum.ERR_XPACK)%Z eqn:E3; [by apply Z.eqb_eq in E3 as ->|].
  destruct (k =? ResultEnum.ERR_ENTERPRISE)%Z eqn:E4.
  { apply Z.eqb_eq in E4 as ->. unfold bind, update, globalStore, gets, on_world, modify. cbn. by case_match. }
  destruct (k =? ResultEnum.NODE_UNBIND)%Z eqn:E5; [by apply Z.eqb_eq in E5 as ->|].
  destruct (k =? ResultEnum.ERR_GLOBAL_LOADING)%Z eqn:E6; [by apply Z.eqb_eq in E6 as ->|].
  unfold bind, globalStore, gets. destruct (if isLoading _ then _ else _) as [u c'].
  destruct (k =? ResultEnum.ERR_AUTH)%Z, (k =? 0)%Z, (k =? ResultEnum.SUCCESS)%Z; cbn [orb]; try done.
  destruct m as [m|]; [|done]. by destruct (includes _ _), skip.
Qed.

(** ** What a request carries *)

(** The node a request is for: its own, the operating node or the current one. *)
Definition request_node (config : Request) (c : Client) : jsstr :=
  match config.(headers) !! js "CurrentNode" with
  | Some n => n
  | None => if truthy c.(operateNodeOverride) then c.(operateNodeOverride)
            else c.(world).(gs).(node).(GlobalStore.currentNode)
  end.

Definition needs_token (config : Request) : bool :=
  let m := match config.(method) with Some m => if truthy m then m else js "get" | None => js "get" end in
  negb (memb (toUpperCase m) safe_methods).

(** A request that goes out carries the encoding of its node, which decodes to
    it; the entrance code exactly on the eight login URLs; the token of the cookie
    exactly when its method may change something and the cookie holds one; the
    language unless it sets its own; and every other header it had.  Of the store
    only the token changes. *)
Theorem request_spec cookie config c :
  Forall unit16 (request_node config c) ->
  match request_interceptor encodeBase64 toUpperCase cookie config c with
  | (None, c') => c' = c /\ encodeURIComponent (request_node config c) = None
  | (Some r, c') =>
      let token := default [] (getCookie cookie (js "pcsrftoken")) in
      r.(url) = config.(url) /\ r.(method) = config.(method) /\
      (exists n, r.(headers) !! js "CurrentNode" = Some n /\
         decodeURIComponent n = Some (request_node config c)) /\
      r.(headers) !! js "EntranceCode" =
        (if memb config.(url) entrance_urls then Some (encodeBase64 (entrance_of c.(world).(gs)))
         else config.(headers) !! js "EntranceCode") /\
      r.(headers) !! js "X-CSRF-Token" =
        (if needs_token config && truthy token then Some token else config.(headers) !! js "X-CSRF-Token") /\
      r.(headers) !! js "Accept-Language" =
        Some (default c.(world).(gs).(language) (config.(headers) !! js "Accept-Language")) /\
      (forall k, k ∉ [js "CurrentNode"; js "EntranceCode"; js "X-CSRF-Token"; js "Accept-Language"] ->
         r.(headers) !! k = config.(headers) !! k) /\
      c' = (if needs_token config && truthy token then (update (set_csrfToken token) c).2 else c)
  end.
Proof.
  intros Hu. unfold request_interceptor, bind, getOperateNodeOverride, globalStore, gets.
  assert (Hn : (config.(headers) ∪ {[ js "Accept-Language" := language (gs (world c)) ]} : gmap jsstr jsstr)
    !! js "CurrentNode" = config.(headers) !! js "CurrentNode").
  { rewrite lookup_union, lookup_singleton_ne by done. by destruct (_ !! _). }
  rewrite Hn. change (match config.(headers) !! js "CurrentNode" with Some n => n | None => _ end) with (request_node config c).
  destruct (encodeURIComponent (request_node config c)) as [n|] eqn:En; [|done].
  set (l := language _). set (e := entrance_of _).
  fold (needs_token config). cbv zeta.
  set (token := default [] (getCookie cookie (js "pcsrftoken"))).
  set (h := config.(headers)) in *.
  assert (Hl : forall k : jsstr, (h ∪ {[ js "Accept-Language" := l ]} : gmap jsstr jsstr) !! k =
    if bool_decide (k = js "Accept-Language") then Some (default l (h !! k)) else h !! k).
  { intros k. rewrite lookup_union. case_bool_decide as Hk.
    - rewrite Hk, lookup_singleton_eq. destruct (h !! js "Accept-Language"); reflexivity.
    - rewrite lookup_singleton_ne by done. by destruct (h !! k). }
  assert (Hdec : decodeURIComponent n = Some (request_node config c)) by by apply (decode_encode _ n).
  destruct (needs_token config && truthy token), (memb (url config) entrance_urls);
    cbn [url method headers update on_world modify ret]; split_and!; try done.
  all: try (exists n; split; [|done]).
  all: repeat first [rewrite lookup_insert_eq | rewrite lookup_insert_ne by done].
  all: try (rewrite Hl; reflexivity).
  all: try done.
  all: intros k Hk; rewrite !not_elem_of_cons in Hk; destruct Hk as (H1 & H2 & H3 & H4 & _);
    rewrite ?lookup_insert_ne by done; rewrite Hl, bool_decide_false by done; done.
Qed.

(** ** Switching to the local node *)

(** After changeToLocal has its answer the current node is the one called local
    for an administrator who has it; otherwise the first node listed, or local when
    none is; and nothing else of the session changes. *)
Theorem changeToLocal_spec answer c :
  let g := (changeToLocal_resume answer c).2.(world).(gs) in
  let nodes := default [] answer in
  (nodes = [] -> g.(node).(GlobalStore.currentNode) = js "local" /\ g.(node).(currentNodeAddr) = js "127.0.0.1") /\
  (nodes <> [] -> exists n, n ∈ nodes /\
     g.(node).(GlobalStore.currentNode) = n.(node_name) /\ g.(node).(currentNodeAddr) = n.(node_addr) /\
     (c.(world).(gs).(tags).(isAdmin) = true -> (exists m, m ∈ nodes /\ m.(node_name) = js "local") ->
        n.(node_name) = js "local") /\
     (c.(world).(gs).(tags).(isAdmin) = false -> head nodes = Some n)) /\
  session (changeToLocal_resume answer c).2 = session c.
Proof.
  unfold changeToLocal_resume, listNodes. split; [|split].
  - by intros ->.
  - destruct (default [] answer) as [|first nodes]; [done|]. intros _.
    unfold bind, globalStore, gets. destruct (isAdmin _) eqn:Ea.
    + destruct (List.find (fun item => item.(node_name) === js "local") (first :: nodes)) as [m|] eqn:Ef.
      * apply find_some in Ef as [Hm E]. apply streqb_eq in E. apply list_elem_of_In in Hm.
        exists m. by split_and!.
      * exists first. split_and!; try done; [by left|]. intros _ (m & Hm & E).
        pose proof (find_none _ _ Ef m) as Hf. rewrite <- list_elem_of_In in Hf. specialize (Hf Hm).
        apply streqb_neq in Hf. congruence.
    + exists first. split_and!; try done. by left.
  - destruct (default [] answer) as [|first nodes]; unfold setDefaultNodeInfo.
    + apply spares_update. by intros [].
    + revert c. change (spares (let! admin := globalStore (fun g => g.(tags).(isAdmin)) in
        match (if admin then List.find (fun item => item.(node_name) === js "local") (first :: nodes) else None) with
        | Some item => update (set_current (js "local") item.(node_addr))
        | None => update (set_current first.(node_name) first.(node_addr))
        end)). spare.
Qed.

(** An answer that the node is unbound reloads the page before the nodes are
    listed: when the reload is called the current node is still the unbound one. *)
Theorem node_unbind_reloads_early rn skip m c :
  response_interceptor rn skip (Some {| code := Some ResultEnum.NODE_UNBIND; message := m |}) c =
  (ResolvedUndefined,
   {| world := c.(world); operateNodeOverride := c.(operateNodeOverride);
      log := (c.(log) ++ [ListNodes]) ++ [Reload] |}).
Proof. reflexivity. Qed.

(** ** Streams *)

Definition refused_code (k : option Z) : bool :=
  match k with
  | Some k => existsb (Z.eqb k) [ResultEnum.OVERDUE; ResultEnum.FORBIDDEN; ResultEnum.ERR_RBAC; ResultEnum.EXPIRED]
  | None => false
  end.
Definition refused_status (s : Z) : bool :=
  existsb (Z.eqb s) [ResultEnum.OVERDUE; ResultEnum.FORBIDDEN; ResultEnum.EXPIRED].
Definition json_code (res : FetchResponse) : option Z :=
  if includes (default [] res.(contentType)) (js "application/json")
  then match res.(body) with Some d => d ≫= code | None => None end else None.

Lemma message_or_key k m : message_or (Key k) m <> Server [].
Proof. unfold message_or. destruct m as [[|a s]|]; cbn; congruence. Qed.

Lemma handled_code d b c :
  (handleAuthResponseCode d b c).1.(handled) = refused_code (d ≫= code) /\
  ((handleAuthResponseCode d b c).1.(handled) = true ->
   (handleAuthResponseCode d b c).1.(result_message) <> Server []).
Proof.
  unfold handleAuthResponseCode, refused_code. destruct (d ≫= code) as [k|]; [|done]. cbn [existsb].
  rewrite orb_false_r. unfold bind, ret.
  destruct (k =? ResultEnum.OVERDUE)%Z, (k =? ResultEnum.FORBIDDEN)%Z; cbn [orb];
    try (destruct (redirectToEntrance c); split; [done|intros _; apply message_or_key]).
  destruct (k =? ResultEnum.ERR_RBAC)%Z; cbn [orb].
  { destruct b; (split; [done|intros _; apply message_or_key]). }
  destruct (k =? ResultEnum.EXPIRED)%Z; [|done]. split; [done|intros _; apply message_or_key].
Qed.

Lemma handled_status s c :
  (handleAuthResponseStatus s c).1.(handled) = refused_status s /\
  ((handleAuthResponseStatus s c).1.(handled) = true ->
   (handleAuthResponseStatus s c).1.(result_message) <> Server []).
Proof.
  unfold handleAuthResponseStatus, refused_status. cbn [existsb]. rewrite orb_false_r. unfold bind, ret.
  destruct (s =? ResultEnum.OVERDUE)%Z, (s =? ResultEnum.FORBIDDEN)%Z; cbn [orb];
    try (by destruct (redirectToEntrance c)).
  by destruct (s =? ResultEnum.EXPIRED)%Z.
Qed.

(** A stream is refused, with a message, exactly when its authentication answers
    with a status or a JSON code of a lost session, an expired panel or a missing
    permission; a request that fails or is aborted refuses nothing.  The timer is
    cleared in every case. *)
Theorem checkStreamAuth_spec answer currentNode c :
  let '(t, c') := checkStreamAuth answer currentNode c in
  (t <> Server [] <->
     encodeURIComponent (stream_node currentNode c.(world).(gs)) <> None /\
     exists res, answer = Some res /\
       (refused_status res.(status) = true \/ refused_code (json_code res) = true)) /\
  list.last c'.(log) = Some ClearTimeout.
Proof.
  unfold checkStreamAuth, bind at 1, globalStore at 1, gets. set (n := stream_node _ _). unfold bind at 1.
  destruct (stream_result n answer c) as [t c'] eqn:E. unfold bind.
  unfold emit, modify, ret. cbn [log]. split; [|by rewrite last_snoc].
  unfold stream_result, bind, emit, modify, ret in E.
  destruct (encodeURIComponent n) as [x|]; [|injection E as <- <-; naive_solver].
  destruct answer as [res|]; [|injection E as <- <-; naive_solver].
  assert (Hgoal : t <> Server [] <-> refused_status (status res) = true \/ refused_code (json_code res) = true);
    [|rewrite Hgoal; naive_solver].
  destruct (handled_status (status res) c) as [H1 H2].
  destruct (handleAuthResponseStatus (status res) c) as [r c1]. cbn [fst] in H1, H2. rewrite H1 in *.
  destruct (refused_status (status res)).
  { injection E as <- <-. naive_solver. }
  unfold json_code. destruct (includes _ _); cbn [negb] in E; [|injection E as <- <-; naive_solver].
  destruct (body res) as [d|]; [|injection E as <- <-; naive_solver].
  destruct (handled_code d false c1) as [H3 H4].
  destruct (handleAuthResponseCode d false c1) as [r' c2]. cbn [fst] in H3, H4. rewrite H3 in *.
  destruct (refused_code (d ≫= code)); injection E as <- <-; naive_solver.
Qed.

End Laws.

(** ** Cookies *)

(** document.cookie for a list of cookies. *)
Definition pair_text (p : jsstr * jsstr) : jsstr := p.1 ++ 61%N :: p.2.
Definition cookie_text (l : list (jsstr * jsstr)) : jsstr := join (js "; ") (List.map pair_text l).

Section Cookies.
Variable name : jsstr.
Hypothesis Hname : (59%N ∉ name) /\ (61%N ∉ name).

Definition cookie_sep : jsstr := js "; " ++ name ++ js "=".
Definition plain_pair (p : jsstr * jsstr) : Prop := (59%N ∉ p.1) /\ (61%N ∉ p.1) /\ (59%N ∉ p.2).

Lemma go_plain u t acc : 59%N ∉ u ->
  split_on_go cookie_sep (u ++ t) 0 acc = split_on_go cookie_sep t 0 (rev u ++ acc).
Proof.
  revert acc. induction u as [|a u IH]; intros acc Hu; [done|]. apply not_elem_of_cons in Hu as [Ha Hu].
  cbn [app split_on_go]. assert (prefixb cookie_sep (a :: u ++ t) = false) as ->.
  { unfold cookie_sep. change (js "; ") with [59; 32]%N. cbn [app prefixb].
    by destruct (N.eqb_spec 59 a); [congruence|]. }
  rewrite IH by done. cbn [rev]. by rewrite <- app_assoc.
Qed.

Lemma prefix_pair p t : 61%N ∉ p.1 ->
  prefixb (name ++ [61%N]) (pair_text p ++ t) = (p.1 === name).
Proof.
  destruct Hname as [_ Hn]. intros Hk. apply eq_true_iff_eq. rewrite prefixb_spec, streqb_eq. unfold pair_text. split.
  - intros [r E]. rewrite <- !app_assoc in E. cbn [app] in E.
    pose proof (f_equal (fun s => head (split 61 s)) E) as Eh. cbn beta in Eh.
    rewrite !split_app in Eh by done. by injection Eh.
  - intros <-. exists (p.2 ++ t). by rewrite <- !app_assoc.
Qed.

(** The text after the first cookies, cut at the cookies of the name. *)
Fixpoint segments (acc : jsstr) (l : list (jsstr * jsstr)) : list jsstr :=
  match l with
  | [] => [rev acc]
  | p :: l' =>
      if p.1 === name then rev acc :: segments (rev p.2) l'
      else segments (rev (js "; " ++ pair_text p) ++ acc) l'
  end.

Definition cookies_text (l : list (jsstr * jsstr)) : jsstr := flat_map (fun p => js "; " ++ pair_text p) l.

Lemma go_cookies l acc : Forall plain_pair l ->
  split_on_go cookie_sep (cookies_text l) 0 acc = segments acc l.
Proof.
  intros H. revert acc. induction H as [|p l (Hk & Hk' & Hv) _ IH]; intros acc; [done|].
  change (cookies_text (p :: l)) with (59%N :: 32%N :: pair_text p ++ cookies_text l).
  cbn [segments]. change (split_on_go cookie_sep (59%N :: ?t) 0 acc) with
    (if prefixb cookie_sep (59%N :: t) then rev acc :: split_on_go cookie_sep t (length cookie_sep - 1) []
     else split_on_go cookie_sep t 0 (59%N :: acc)).
  assert (prefixb cookie_sep (59%N :: 32%N :: pair_text p ++ cookies_text l) = (p.1 === name)) as ->
    by (rewrite <- (prefix_pair p (cookies_text l)) by done; reflexivity).
  destruct (p.1 === name) eqn:E.
  - apply streqb_eq in E. f_equal.
    assert (32%N :: pair_text p ++ cookies_text l = (32%N :: name ++ [61%N]) ++ p.2 ++ cookies_text l) as ->
      by (unfold pair_text; rewrite E; cbn; by rewrite <- !app_assoc).
    replace (length cookie_sep - 1) with (length (32%N :: name ++ [61%N])) by (unfold cookie_sep; rewrite !length_app; cbn; rewrite length_app; cbn; lia).
    rewrite split_on_go_skip, go_plain by done. by rewrite app_nil_r, IH.
  - change (32%N :: pair_text p ++ cookies_text l) with ((32%N :: pair_text p) ++ cookies_text l).
    rewrite go_plain, IH by (unfold pair_text; rewrite not_elem_of_cons, not_elem_of_app, not_elem_of_cons; naive_solver).
    f_equal. change (js "; " ++ pair_text p) with (59%N :: 32%N :: pair_text p).
    cbn [rev]. by rewrite <- !app_assoc.
Qed.

(** Without a cookie of the name there is one segment; its head is the text so far. *)
Lemma segments_length l acc :
  length (segments acc l) = S (length (List.filter (fun p => p.1 === name) l)).
Proof.
  revert acc. induction l as [|p l IH]; intros acc; [done|]. cbn [segments List.filter].
  destruct (p.1 === name); cbn [length]; by rewrite IH.
Qed.

Lemma segments_none l acc : List.filter (fun p => p.1 === name) l = [] ->
  segments acc l = [rev acc ++ cookies_text l].
Proof.
  revert acc. induction l as [|p l IH]; intros acc; cbn [segments List.filter]; [by rewrite app_nil_r|].
  destruct (p.1 === name); [done|]. intros H. rewrite IH by done.
  by rewrite rev_app_distr, rev_involutive, <- app_assoc.
Qed.

Lemma cookie_text_eq l : js "; " ++ cookie_text l = match l with [] => js "; " | _ => cookies_text l end.
Proof.
  unfold cookie_text. destruct l as [|p l]; [done|]. revert p.
  induction l as [|q l IH]; intros p; [cbn; by rewrite app_nil_r|].
  cbn [List.map]. rewrite join_cons by done. change (cookies_text (p :: q :: l)) with
    (js "; " ++ pair_text p ++ cookies_text (q :: l)). by rewrite <- IH.
Qed.

Lemma head_value v l : 59%N ∉ v -> head (split 59 (v ++ cookies_text l)) = Some v.
Proof.
  intros Hv. destruct l as [|p l]; [cbn; by rewrite app_nil_r, split_no_sep|].
  change (cookies_text (p :: l)) with (59%N :: 32%N :: pair_text p ++ cookies_text l). by rewrite split_app.
Qed.

(** getCookie finds the value of the only cookie of a name, and nothing when
    there is none or more than one. *)
Theorem getCookie_spec l : Forall plain_pair l ->
  getCookie (cookie_text l) name =
  match List.filter (fun p => p.1 === name) l with [p] => Some p.2 | _ => None end.
Proof.
  intros Hl. unfold getCookie. rewrite cookie_text_eq. fold cookie_sep.
  destruct l as [|p0 l0] eqn:El.
  { unfold split_on, cookie_sep. cbn. by destruct name. }
  rewrite <- El in *. clear El p0 l0. unfold split_on. rewrite go_cookies by done.
  assert (Hseg : forall acc, match segments acc l with [_; w] => head (split 59 w) | _ => None end =
    match List.filter (fun p => p.1 === name) l with [p] => Some p.2 | _ => None end); [|apply Hseg].
  induction Hl as [|p l (_ & _ & Hv) Hl IH]; intros acc; [done|]. cbn [segments List.filter].
  destruct (p.1 === name); [|apply IH].
  destruct (List.filter _ l) as [|q r] eqn:Ef.
  - rewrite segments_none by done. rewrite rev_involutive. by apply head_value.
  - pose proof (segments_length l (rev p.2)) as Hlen. rewrite Ef in Hlen.
    by destruct (segments _ l) as [|? [|? [|]]].
Qed.
End Cookies.

(** ** Witnesses *)

Definition sample_client : Client :=
  {| world := sample_world false (js "edge1") [js "website_manage"] []; operateNodeOverride := []; log := [] |}.

Definition sample_request : Request := {| url := js "/websites"; method := Some (js "post"); headers := ∅ |}.

Lemma request_spec_witness :
  match request_interceptor (fun s => s) (map ascii_upper) (js "a=b; pcsrftoken=t1") sample_request sample_client with
  | (None, c') => c' = sample_client /\ encodeURIComponent (request_node sample_request sample_client) = None
  | (Some r, c') =>
      let token := default [] (getCookie (js "a=b; pcsrftoken=t1") (js "pcsrftoken")) in
      r.(url) = js "/websites" /\ r.(method) = Some (js "post") /\
      (exists n, r.(headers) !! js "CurrentNode" = Some n /\ decodeURIComponent n = Some (js "edge1")) /\
      r.(headers) !! js "EntranceCode" = None /\
      r.(headers) !! js "X-CSRF-Token" = Some (js "t1") /\
      r.(headers) !! js "Accept-Language" = Some (js "en") /\
      (forall k, k ∉ [js "CurrentNode"; js "EntranceCode"; js "X-CSRF-Token"; js "Accept-Language"] ->
         r.(headers) !! k = (∅ : gmap jsstr jsstr) !! k) /\
      c' = (update (set_csrfToken token) sample_client).2
  end.
Proof.
  apply (request_spec (fun s => s) (map ascii_upper) (js "a=b; pcsrftoken=t1") sample_request sample_client).
  repeat constructor.
Defined.

Lemma getCookie_spec_witness :
  getCookie (cookie_text [(js "a", js "1"); (js "pcsrftoken", js "t=2")]) (js "pcsrftoken") = Some (js "t=2").
Proof.
  apply (getCookie_spec (js "pcsrftoken")); [split; by apply has_unit_false|].
  repeat constructor; by apply has_unit_false.
Defined.

Lemma session_ends_exactly_witness :
  session_ended sample_client
    (response_interceptor None false (Some {| code := Some ResultEnum.OVERDUE; message := None |}) sample_client).2.
Proof.
  apply (session_ends_exactly None false (Some {| code := Some ResultEnum.OVERDUE; message := None |}) sample_client).
  reflexivity.
Defined.
