(* ===== verification/Base64.v ===== *)
(** * Base64 and the encryption of passwords

    src/frontend/src/utils/auth.ts.  [btoa] and [atob] are the functions of the web
    platform on binary strings, whose units are bytes; [atob] is its forgiving decoder,
    [None] being the exception.  The ciphers of jsencrypt and crypto-js are the class
    [Ciphers]; random bytes are arguments. *)

From Stdlib Require Import ZifyBool ZifyN ZifyNat.
From S2P Require Import Prelude JsString Splitting Uri Json GlobalStore Http.

#[local] Open Scope N_scope.
#[local] Open Scope list_scope.

Local Ltac Zify.zify_post_hook ::= Z.to_euclidean_division_equations.

(** ** The platform *)

Definition sextet_char (n : N) : N :=
  if n <? 26 then 65 + n else if n <? 52 then 71 + n else if n <? 62 then n - 4 else if n =? 62 then 43 else 47.

Definition char_sextet (c : N) : option N :=
  if is_upper c then Some (c - 65) else if is_lower c then Some (c - 71) else if is_digit c then Some (c + 4)
  else if c =? 43 then Some 62 else if c =? 47 then Some 63 else None.

Fixpoint btoa (bytes : list N) : jsstr :=
  match bytes with
  | [] => []
  | [a] => [sextet_char (a / 4); sextet_char (a mod 4 * 16); 61; 61]
  | [a; b] => [sextet_char (a / 4); sextet_char (a mod 4 * 16 + b / 16); sextet_char (b mod 16 * 4); 61]
  | a :: b :: c :: rest =>
      [sextet_char (a / 4); sextet_char (a mod 4 * 16 + b / 16); sextet_char (b mod 16 * 4 + c / 64); sextet_char (c mod 64)]
      ++ btoa rest
  end.

(** The bytes of a run of sextets; spare bits are dropped, a lone sextet is an error. *)
Fixpoint sextet_bytes (l : list N) : option (list N) :=
  match l with
  | [] => Some []
  | [_] => None
  | [x; y] => Some [x * 4 + y / 16]
  | [x; y; z] => Some [x * 4 + y / 16; y mod 16 * 16 + z / 4]
  | x :: y :: z :: w :: rest => (fun r => [x * 4 + y / 16; y mod 16 * 16 + z / 4; z mod 4 * 64 + w] ++ r) <$> sextet_bytes rest
  end.

Definition ascii_white (c : N) : bool := (c =? 9) || (c =? 10) || (c =? 12) || (c =? 13) || (c =? 32).

(** Up to two padding signs at the end of whole groups of four. *)
Definition drop_padding (s : jsstr) : jsstr :=
  if (length s mod 4 =? 0)%nat then
    if endsWith s (js "==") then take (length s - 2) s
    else if endsWith s (js "=") then take (length s - 1) s else s
  else s.

Definition atob (s : jsstr) : option (list N) :=
  mapM char_sextet (drop_padding (List.filter (fun c => negb (ascii_white c)) s)) ≫= sextet_bytes.

(** ** Buffers *)

(** [s.replace(/a/g, b)] for single units. *)
Definition replace_unit (a b : N) (s : jsstr) : jsstr := List.map (fun c => if c =? a then b else c) s.

(** [.replace(/=+$/, '')] *)
Fixpoint drop_equals (s : jsstr) : jsstr :=
  match s with c :: s' => if c =? 61 then drop_equals s' else s | [] => [] end.

Definition base64UrlToBuffer (base64url : jsstr) : option (list N) :=
  let base64 := replace_unit 95 47 (replace_unit 45 43 base64url) in
  let pad := (length base64 mod 4)%nat in
  atob (if (pad =? 0)%nat then base64 else base64 ++ repeat 61 (4 - pad)).

Definition bufferToBase64Url (buffer : list N) : jsstr :=
  rev (drop_equals (rev (replace_unit 47 95 (replace_unit 43 45 (btoa buffer))))).

Example passkey_id : bufferToBase64Url [251; 255; 254; 0] = js "-__-AA" /\ base64UrlToBuffer (js "-__-AA") = Some [251; 255; 254; 0].
Proof. by vm_compute. Qed.

(** ** Passwords *)

Definition urlDecode (value : jsstr) : option jsstr := decodeURIComponent (replace_unit 43 32 value).

(** Two lower-case digits for each of 16 random bytes. *)
Definition generateAESKey (randomBytes : list N) : jsstr :=
  flat_map (fun b => [hex_lower (b / 16); hex_lower (b mod 16)]) randomBytes.

(** The ciphers: jsencrypt with a public key, as interpolated into a text, and AES in CBC
    mode with PKCS7 padding in base64.  Who holds the private key of a public one, or the
    key and the initial vector, recovers the text; neither output holds a colon. *)
Class Ciphers := {
  rsa : jsstr -> jsstr -> jsstr;
  unrsa : jsstr -> jsstr -> option jsstr;
  aes : jsstr -> list N -> jsstr -> jsstr;
  unaes : jsstr -> list N -> jsstr -> option jsstr;
  key_pair : jsstr -> jsstr -> Prop;                  (* public, private *)
  rsa_inverse public private data : key_pair public private -> unrsa private (rsa public data) = Some data;
  aes_inverse key iv data : unaes key iv (aes key iv data) = Some data;
  rsa_plain public private data : key_pair public private -> 58 ∉ rsa public data;
  aes_plain key iv data : 58 ∉ aes key iv data;
}.

Section Passwords.
Context `{Ciphers}.

Definition rsaEncrypt (data publicKey : jsstr) : jsstr := if truthy data then rsa publicKey data else data.

Definition aesEncrypt (iv : list N) (data key : jsstr) : jsstr := btoa iv ++ js ":" ++ aes key iv data.

(** [cookie] is document.cookie; [None] is an exception. *)
Definition encryptPassword (cookie : jsstr) (randomBytes iv : list N) (password : jsstr) : option jsstr :=
  if negb (truthy password) then Some []
  else
    let rsaPublicKeyText := default [] (getCookie cookie (js "panel_public_key")) in
    if negb (truthy rsaPublicKeyText) then Some password
    else
      rsaPublicKeyText ← urlDecode rsaPublicKeyText;
      let aesKey := generateAESKey randomBytes in
      rsaPublicKey ← atob (replaceAll rsaPublicKeyText [34] []);
      let keyCipher := rsaEncrypt aesKey rsaPublicKey in
      let passwordCipher := aesEncrypt iv password aesKey in
      Some (keyCipher ++ js ":" ++ passwordCipher).
End Passwords.

(** ** Lemmas *)

Definition sextets (l : list N) : Prop := Forall (fun n => n < 64) l.
Definition bytes (l : list N) : Prop := Forall (fun n => n < 256) l.

Lemma char_sextet_char n : n < 64 -> char_sextet (sextet_char n) = Some n.
Proof.
  intros H.
  assert (Hn : match char_sextet (sextet_char n) with Some m => m =? n | None => false end = true).
  { apply (forall_from_spec (fun n => match char_sextet (sextet_char n) with Some m => m =? n | None => false end) 0 64);
      [by vm_compute|lia]. }
  destruct (char_sextet (sextet_char n)) as [m|]; [|done]. f_equal. lia.
Qed.

(** A digit of base64 is a letter, a digit or one of two signs. *)
Lemma sextet_char_plain n : n < 64 -> let c := sextet_char n in
  ascii_white c = false /\ c <> 61 /\ c <> 45 /\ c <> 95 /\ c <> 58.
Proof.
  intros H. cbv zeta. unfold ascii_white.
  assert (Hc : (let c := sextet_char n in (c =? 43) || (47 <=? c) && (c <=? 57) || (65 <=? c) && (c <=? 90) || (97 <=? c)) = true).
  { apply (forall_from_spec (fun n => let c := sextet_char n in
      (c =? 43) || (47 <=? c) && (c <=? 57) || (65 <=? c) && (c <=? 90) || (97 <=? c)) 0 64); [by vm_compute|lia]. }
  cbv zeta in Hc. lia.
Qed.

Ltac each_byte H := unfold bytes in H; rewrite ?list.Forall_cons in H; destruct_and? H.

(** The sextets of bytes, before they are written. *)
Fixpoint byte_sextets (l : list N) : list N :=
  match l with
  | [] => []
  | [a] => [a / 4; a mod 4 * 16]
  | [a; b] => [a / 4; a mod 4 * 16 + b / 16; b mod 16 * 4]
  | a :: b :: c :: rest => [a / 4; a mod 4 * 16 + b / 16; b mod 16 * 4 + c / 64; c mod 64] ++ byte_sextets rest
  end.

Definition padding (l : list N) : nat := match (length l mod 3)%nat with 1%nat => 2 | 2%nat => 1 | _ => 0 end.

(** Induction by groups of three. *)
Lemma groups_ind (P : list N -> Prop) : P [] -> (forall a, P [a]) -> (forall a b, P [a; b]) ->
  (forall a b c l, P l -> P (a :: b :: c :: l)) -> forall l, P l.
Proof.
  intros H0 H1 H2 H3. fix F 1. intros [|a [|b [|c l]]]; [exact H0|apply H1|apply H2|apply H3; apply F].
Qed.

Lemma padding_group a b c l : padding (a :: b :: c :: l) = padding l.
Proof. unfold padding. cbn [length]. by replace (S (S (S (length l))) mod 3)%nat with (length l mod 3)%nat by lia. Qed.

Lemma btoa_sextets l : btoa l = List.map sextet_char (byte_sextets l) ++ repeat 61 (padding l).
Proof.
  induction l as [|a|a b|a b c l IH] using groups_ind; try done. rewrite padding_group. cbn [btoa byte_sextets].
  rewrite map_app, <- app_assoc, <- IH. done.
Qed.

Lemma byte_sextets_bound l : bytes l -> sextets (byte_sextets l).
Proof.
  induction l as [|a|a b|a b c l IH] using groups_ind; intros Hb; cbn [byte_sextets app];
    each_byte Hb; repeat constructor; try lia.
  by apply IH.
Qed.

Lemma sextet_bytes_inverse l : bytes l -> sextet_bytes (byte_sextets l) = Some l.
Proof.
  induction l as [|a|a b|a b c l IH] using groups_ind; intros Hb; cbn [byte_sextets app sextet_bytes];
    each_byte Hb; [done|do 2 f_equal; lia| |].
  - do 2 f_equal; [lia|]. f_equal. lia.
  - rewrite IH by done. cbn [fmap option_fmap option_map]. do 2 f_equal; [lia|]. f_equal; [lia|]. f_equal. lia.
Qed.

Lemma byte_sextets_length l : ((length (byte_sextets l) + padding l) mod 4)%nat = 0%nat.
Proof.
  induction l as [|a|a b|a b c l IH] using groups_ind; try done. rewrite padding_group. cbn [byte_sextets app length].
  replace (S (S (S (S (length (byte_sextets l))))) + padding l)%nat with (4 + (length (byte_sextets l) + padding l))%nat by lia.
  lia.
Qed.

Lemma sextets_elem l n : sextets l -> n ∈ l -> n < 64.
Proof. unfold sextets. rewrite Forall_elem. auto. Qed.

Lemma mapM_chars l : sextets l -> mapM char_sextet (List.map sextet_char l) = Some l.
Proof.
  intros Hl. apply mapM_Some. change (List.map sextet_char l) with (sextet_char <$> l). apply Forall2_fmap_l.
  apply Forall_Forall2_diag. eapply list.Forall_impl; [exact Hl|]. intros n Hn. by apply char_sextet_char.
Qed.

(** Digits and padding decode to the bytes of the digits. *)
Lemma atob_digits l k : sextets l -> (k <= 2)%nat -> ((length l + k) mod 4)%nat = 0%nat ->
  atob (List.map sextet_char l ++ repeat 61 k) = sextet_bytes l.
Proof.
  intros Hl Hk Hlen. unfold atob.
  assert (Hp : forall n, n ∈ l -> let c := sextet_char n in ascii_white c = false /\ c <> 61 /\ c <> 45 /\ c <> 95 /\ c <> 58).
  { intros n Hn. apply sextet_char_plain. by eapply sextets_elem. }
  assert (List.filter (fun c => negb (ascii_white c)) (List.map sextet_char l ++ repeat 61 k)
    = List.map sextet_char l ++ repeat 61 k) as ->.
  { rewrite filter_app. f_equal; [|by destruct k as [|[|[|k]]]; try lia].
    clear Hl Hlen. induction l as [|n l IH]; [done|]. cbn [List.map List.filter].
    destruct (Hp n) as [-> _]; [by left|]. cbn [negb]. f_equal. apply IH. intros m Hm. apply Hp. by right. }
  assert (drop_padding (List.map sextet_char l ++ repeat 61 k) = List.map sextet_char l) as ->.
  { assert (Hend : forall p, endsWith (List.map sextet_char l) (p ++ [61]) = false).
    { intros p. apply not_true_iff_false. rewrite endsWith_spec. intros [t Ht].
      assert (61 ∈ List.map sextet_char l) as (n & Hn & Hin)%elem_map
        by (rewrite Ht, !elem_of_app; right; right; by left).
      apply Hp in Hin as (_ & Hne & _). by apply Hne. }
    unfold drop_padding. rewrite length_app, length_map, repeat_length, Hlen. cbn [Nat.eqb].
    destruct k as [|[|[|k]]]; [| | |lia]; cbn [repeat].
    - rewrite app_nil_r. change (js "==") with ([61] ++ [61]). change (js "=") with ([] ++ [61]). by rewrite !Hend.
    - assert (endsWith (List.map sextet_char l ++ [61]) (js "==") = false) as ->.
      { apply not_true_iff_false. rewrite endsWith_spec. intros [t Ht]. change (js "==") with ([61] ++ [61]) in Ht.
        rewrite app_assoc in Ht. apply app_inj_tail in Ht as [Ht _].
        pose proof (Hend []) as He. rewrite Ht in He. apply not_true_iff_false in He. apply He.
        apply endsWith_spec. by exists t. }
      assert (endsWith (List.map sextet_char l ++ [61]) (js "=") = true) as -> by (apply endsWith_spec; by eexists).
      rewrite take_app_le by (rewrite length_map; lia). apply take_ge. rewrite length_map. lia.
    - assert (endsWith (List.map sextet_char l ++ [61; 61]) (js "==") = true) as -> by (apply endsWith_spec; by eexists).
      rewrite take_app_le by (rewrite length_map; lia). apply take_ge. rewrite length_map. lia. }
  rewrite mapM_chars by done. done.
Qed.

Lemma atob_btoa l : bytes l -> atob (btoa l) = Some l.
Proof.
  intros Hl. rewrite btoa_sextets, atob_digits; [by apply sextet_bytes_inverse|by apply byte_sextets_bound| |by apply byte_sextets_length].
  unfold padding. destruct (length l mod 3)%nat as [|[|[|k]]]; lia.
Qed.

(** The digits of the URL alphabet. *)
Definition url_char (n : N) : N := if n =? 62 then 45 else if n =? 63 then 95 else sextet_char n.

Lemma url_char_spec n : n < 64 -> url_char n <> 61 /\
  (is_upper (url_char n) || is_lower (url_char n) || is_digit (url_char n) || (url_char n =? 45) || (url_char n =? 95)) = true /\
  (if sextet_char n =? 43 then 45 else sextet_char n) = (if n =? 62 then 45 else sextet_char n) /\
  (let c := (if url_char n =? 45 then 43 else url_char n) in if c =? 95 then 47 else c) = sextet_char n /\
  (let c := (if sextet_char n =? 43 then 45 else sextet_char n) in if c =? 47 then 95 else c) = url_char n.
Proof.
  intros H.
  set (f n := negb (url_char n =? 61) &&
      (is_upper (url_char n) || is_lower (url_char n) || is_digit (url_char n) || (url_char n =? 45) || (url_char n =? 95)) &&
      ((if sextet_char n =? 43 then 45 else sextet_char n) =? (if n =? 62 then 45 else sextet_char n)) &&
      ((let c := (if url_char n =? 45 then 43 else url_char n) in if c =? 95 then 47 else c) =? sextet_char n) &&
      ((let c := (if sextet_char n =? 43 then 45 else sextet_char n) in if c =? 47 then 95 else c) =? url_char n)).
  assert (Hn : f n = true) by (apply (forall_from_spec f 0 64); [by vm_compute|lia]). subst f.
  cbv beta in Hn. rewrite !andb_true_iff, !N.eqb_eq, negb_true_iff, N.eqb_neq in Hn. destruct_and? Hn. done.
Qed.

Lemma drop_equals_repeat k s : 61 ∉ s -> drop_equals (repeat 61 k ++ s) = s.
Proof.
  intros Hs. induction k as [|k IH]; [|exact IH]. destruct s as [|c s]; [done|]. cbn [repeat app drop_equals].
  destruct (N.eqb_spec c 61) as [->|]; [|done]. exfalso. apply Hs. by left.
Qed.

Lemma rev_repeat {A} (x : A) k : rev (repeat x k) = repeat x k.
Proof. induction k as [|k IH]; [done|]. cbn [repeat rev]. rewrite IH. symmetry. apply repeat_cons. Qed.

Lemma buffer_text l : bytes l -> bufferToBase64Url l = List.map url_char (byte_sextets l).
Proof.
  intros Hl. apply byte_sextets_bound in Hl. unfold bufferToBase64Url, replace_unit. rewrite btoa_sextets.
  set (x := byte_sextets l) in *. rewrite !map_app, !map_map.
  assert (forall k, List.map (fun c => if (if c =? 43 then 45 else c) =? 47 then 95 else if c =? 43 then 45 else c) (repeat 61 k)
    = repeat 61 k) as -> by (intros k; induction k as [|k IH]; [done|]; cbn; by rewrite IH).
  rewrite rev_app_distr, rev_repeat.
  assert (He : List.map (fun n => if (if sextet_char n =? 43 then 45 else sextet_char n) =? 47 then 95
    else if sextet_char n =? 43 then 45 else sextet_char n) x = List.map url_char x).
  { apply map_ext_in. intros n Hn. apply list_elem_of_In, (sextets_elem _ _ Hl), url_char_spec in Hn.
    by destruct Hn as (_ & _ & _ & _ & Hn). }
  rewrite He, drop_equals_repeat; [apply rev_involutive|].
  rewrite list_elem_of_In, <- in_rev, <- list_elem_of_In.
  intros (n & Hn & Hin)%elem_map. apply (sextets_elem _ _ Hl), url_char_spec in Hin as [Hne _].
  by apply Hne.
Qed.

(** ** Theorems *)

(** What a buffer is written as holds letters, digits, dashes and underscores only, and
    decodes to the buffer, whatever its length. *)
Theorem base64Url_roundtrip buffer : bytes buffer ->
  Forall (fun c => (is_upper c || is_lower c || is_digit c || (c =? 45) || (c =? 95)) = true) (bufferToBase64Url buffer) /\
  base64UrlToBuffer (bufferToBase64Url buffer) = Some buffer.
Proof.
  intros Hl. rewrite buffer_text by done. pose proof (byte_sextets_bound _ Hl) as Hs. split.
  - apply Forall_elem. intros c (n & -> & Hn)%elem_map. apply (sextets_elem _ _ Hs), url_char_spec in Hn.
    by destruct Hn as (_ & Hn & _).
  - unfold base64UrlToBuffer, replace_unit. rewrite !map_map.
    assert (List.map (fun n => if (if url_char n =? 45 then 43 else url_char n) =? 95 then 47
      else if url_char n =? 45 then 43 else url_char n) (byte_sextets buffer) = List.map sextet_char (byte_sextets buffer)) as ->.
    { apply map_ext_in. intros n Hn. apply list_elem_of_In, (sextets_elem _ _ Hs), url_char_spec in Hn.
      by destruct Hn as (_ & _ & _ & Hn & _). }
    rewrite length_map. pose proof (byte_sextets_length buffer) as Hlen.
    assert (Hp : (padding buffer <= 2)%nat) by (unfold padding; destruct (length buffer mod 3)%nat as [|[|[|k]]]; lia).
    assert ((if (length (byte_sextets buffer) mod 4 =? 0)%nat then List.map sextet_char (byte_sextets buffer)
      else List.map sextet_char (byte_sextets buffer) ++ repeat 61 (4 - length (byte_sextets buffer) mod 4))
      = List.map sextet_char (byte_sextets buffer) ++ repeat 61 (padding buffer)) as ->.
    { destruct (Nat.eqb_spec (length (byte_sextets buffer) mod 4) 0) as [E|E].
      - replace (padding buffer) with 0%nat by lia. by rewrite app_nil_r.
      - do 2 f_equal. lia. }
    rewrite atob_digits by done. by apply sextet_bytes_inverse.
Qed.

Lemma base64Url_roundtrip_witness :
  bytes [255; 0; 62; 251; 7] /\ base64UrlToBuffer (bufferToBase64Url [255; 0; 62; 251; 7]) = Some [255; 0; 62; 251; 7].
Proof.
  assert (H : bytes [255; 0; 62; 251; 7]) by (repeat constructor).
  split; [exact H|]. apply (base64Url_roundtrip _ H).
Defined.

(** *** Passwords *)

Lemma btoa_plain l : bytes l -> 58 ∉ btoa l.
Proof.
  intros Hl. rewrite btoa_sextets, elem_of_app. intros [(n & Hn & Hin)%elem_map|H%list_elem_of_In%repeat_spec]; [|done].
  apply (sextets_elem _ _ (byte_sextets_bound _ Hl)), sextet_char_plain in Hin as (_ & _ & _ & _ & H). by apply H.
Qed.

Lemma hex_lower_word n : n < 16 -> is_digit (hex_lower n) || ((97 <=? hex_lower n) && (hex_lower n <=? 102)) = true.
Proof. intros H. unfold hex_lower, is_digit. case_step; lia. Qed.

Lemma generateAESKey_spec random : bytes random -> length (generateAESKey random) = (2 * length random)%nat /\
  forall c, c ∈ generateAESKey random -> is_digit c || ((97 <=? c) && (c <=? 102)) = true.
Proof.
  induction random as [|b random IH]; intros Hb; [split; [done|intros c H; by apply elem_of_nil in H]|].
  each_byte Hb. destruct IH as [IH1 IH2]; [done|]. cbn [generateAESKey flat_map app length]. fold (generateAESKey random).
  split; [rewrite IH1; lia|]. intros c [->|[->|Hw]%elem_of_cons]%elem_of_cons; [apply hex_lower_word; lia|apply hex_lower_word; lia|auto].
Qed.

(** What the holder of the private key makes of a text. *)
Definition decryptPassword `{Ciphers} (private text : jsstr) : option jsstr :=
  match split 58 text with
  | [keyCipher; iv; cipher] => key ← unrsa private keyCipher; iv ← atob iv; unaes key iv cipher
  | _ => None
  end.

(** The public key a cookie holds. *)
Definition public_key (cookie : jsstr) : option jsstr :=
  text ← urlDecode (default [] (getCookie cookie (js "panel_public_key"))); atob (replaceAll text [34] []).

(** Without a key in the cookie a password leaves as it is.  With one, sixteen random bytes
    make a key of 32 hexadecimal digits, and what leaves is recovered with the private key
    of the public one; a key that cannot be decoded is an exception, nothing leaves. *)
Theorem encryptPassword_recovered `{Ciphers} cookie random iv password private :
  password <> [] -> random <> [] -> bytes random -> bytes iv ->
  (default [] (getCookie cookie (js "panel_public_key")) = [] -> encryptPassword cookie random iv password = Some password) /\
  (default [] (getCookie cookie (js "panel_public_key")) <> [] ->
   (public_key cookie = None -> encryptPassword cookie random iv password = None) /\
   (forall public, public_key cookie = Some public -> key_pair public private ->
      exists text, encryptPassword cookie random iv password = Some text /\ decryptPassword private text = Some password)) /\
  length (generateAESKey random) = (2 * length random)%nat.
Proof.
  intros Hp Hr Hb Hi. apply truthy_true in Hp. unfold encryptPassword, public_key. rewrite Hp. cbn [negb].
  set (t := default [] _). destruct (generateAESKey_spec random Hb) as [Hlen _].
  split; [by intros ->|]. split; [|done]. intros Ht. apply truthy_true in Ht. rewrite Ht. cbn [negb].
  destruct (urlDecode t) as [d|]; cbn [mbind option_bind]; [|split; done].
  destruct (atob (replaceAll d [34] [])) as [public|]; cbn [mbind option_bind]; [|split; done].
  split; [done|]. intros ? [= <-] Hk. eexists. split; [done|]. unfold decryptPassword, rsaEncrypt, aesEncrypt.
  assert (truthy (generateAESKey random) = true) as ->.
  { apply truthy_true. intros E. rewrite E in Hlen. destruct random; [done|]. cbn in Hlen. lia. }
  change (js ":") with [58]. cbn [app].
  rewrite split_app by (by eapply rsa_plain). rewrite split_app by (by apply btoa_plain).
  rewrite split_no_sep by apply aes_plain. rewrite (rsa_inverse _ _ _ Hk). cbn [mbind option_bind].
  rewrite atob_btoa by done. cbn [mbind option_bind]. apply aes_inverse.
Qed.

(** Ciphers that move every unit past the colon. *)
Definition shift (s : jsstr) : jsstr := List.map (fun c => c + 59) s.
Definition unshift (s : jsstr) : jsstr := List.map (fun c => c - 59) s.

Lemma unshift_shift s : unshift (shift s) = s.
Proof.
  unfold unshift, shift. rewrite map_map. induction s as [|c s IH]; [done|]. cbn [List.map]. f_equal; [lia|]. exact IH.
Qed.

Lemma shift_plain s : 58 ∉ shift s.
Proof. intros (c & Hc & _)%elem_map. lia. Qed.

#[export] Instance shift_ciphers : Ciphers | 100.
Proof.
  refine {| rsa _ data := shift data; unrsa _ text := Some (unshift text); aes _ _ data := shift data;
            unaes _ _ text := Some (unshift text); key_pair _ _ := True |};
    intros; rewrite ?unshift_shift; (done || apply shift_plain).
Defined.

Lemma encryptPassword_recovered_witness :
  let cookie := js "a=b; panel_public_key=%22a2V5%22" in
  let random := repeat 200 16 in let iv := repeat 7 16 in
  default [] (getCookie cookie (js "panel_public_key")) <> [] /\ public_key cookie = Some (js "key") /\
  exists text, encryptPassword cookie random iv (js "secret") = Some text /\ decryptPassword [] text = Some (js "secret").
Proof.
  cbv zeta. split; [by vm_compute|]. split; [by vm_compute|].
  apply (encryptPassword_recovered (js "a=b; panel_public_key=%22a2V5%22") (repeat 200 16) (repeat 7 16) (js "secret") []) with (public := js "key");
    try done; try (by vm_compute); repeat constructor.
Defined.
