(* ===== verification/ExternalLogin.v ===== *)
(** * External logins

    src/frontend/src/utils/external-login.ts: the tickets an identity provider leaves in
    the location, and the location without them; src/frontend/src/utils/saml2.ts: where
    the browser is sent to sign in.  A location is what the URL parser makes of its text;
    setting the fragment to text of the form encoding leaves it as it is. *)

From S2P Require Import Prelude JsString Uri Utf8 UrlEncoded WebUrl.
From Stdlib Require Import ZifyBool ZifyN.

#[local] Open Scope list_scope.

(** ** external-login.ts *)

Record ExternalLoginTickets := { oidcTicket : jsstr; saml2Ticket : jsstr }.

Definition oidcTicketParam := js "oidc_ticket".
Definition saml2TicketParam := js "saml2_ticket".

Definition getFragmentParams (url : URL) : list (jsstr * jsstr) :=
  new_URLSearchParams (if startsWith url.(u_hash) (js "#") then drop 1 url.(u_hash) else url.(u_hash)).
Definition searchParams (url : URL) : list (jsstr * jsstr) := new_URLSearchParams url.(u_search).

(** [a || b || ''] *)
Definition ticket (name : jsstr) (url : URL) : jsstr :=
  let fragment := default [] (params_get name (getFragmentParams url)) in
  if truthy fragment then fragment else default [] (params_get name (searchParams url)).

(** parseExternalLoginTickets, of the parsed location. *)
Definition tickets_of (url : URL) : ExternalLoginTickets :=
  {| oidcTicket := ticket oidcTicketParam url; saml2Ticket := ticket saml2TicketParam url |}.

Definition no_tickets (t : ExternalLoginTickets) : bool := negb (truthy t.(oidcTicket)) && negb (truthy t.(saml2Ticket)).

Definition drop_tickets (l : list (jsstr * jsstr)) : list (jsstr * jsstr) :=
  params_delete saml2TicketParam (params_delete oidcTicketParam l).

(** The location with the search and the fragment written again without the tickets. *)
Definition sanitize (url : URL) : URL :=
  let search := params_toString (drop_tickets (searchParams url)) in
  let sanitizedFragment := params_toString (drop_tickets (getFragmentParams url)) in
  {| u_protocol := url.(u_protocol); u_username := url.(u_username); u_password := url.(u_password);
     u_search := if truthy search then js "?" ++ search else [];
     u_hash := if truthy sanitizedFragment then js "#" ++ sanitizedFragment else [];
     u_pathname := url.(u_pathname); u_host := url.(u_host) |}.

Definition sanitizedURL (url : URL) : jsstr :=
  let url := sanitize url in url.(u_pathname) ++ url.(u_search) ++ url.(u_hash).

Section Location.
Context `{WebURL}.

Definition parseExternalLoginTickets (href : jsstr) : option ExternalLoginTickets := tickets_of <$> new_URL href.

Definition hasExternalLoginTicket (href : jsstr) : option bool :=
  (fun t => truthy t.(oidcTicket) || truthy t.(saml2Ticket)) <$> parseExternalLoginTickets href.

(** The tickets, with the text the history is replaced by, if it is. *)
Definition takeExternalTicketsFromURL (href : jsstr) : option (ExternalLoginTickets * option jsstr) :=
  tickets ← parseExternalLoginTickets href;
  if no_tickets tickets then Some (tickets, None)
  else url ← new_URL href; Some (tickets, Some (sanitizedURL url)).
End Location.

(** ** saml2.ts *)

Inductive SAML2Navigation :=
| NavRedirect (redirectURL : jsstr)
| NavPost (postURL : jsstr) (fields : option (list (jsstr * jsstr)))
| NavOther.                        (* a response of another shape *)

(** [new URL(value, origin)] and [toString()]. *)
Class UrlBase := { resolve_URL : jsstr -> jsstr -> option URL; href_of : URL -> jsstr }.

(** What the browser is told: the location to open, or a form to post with hidden fields. *)
Variant Navigate := Assign (target : jsstr) | Submit (action : jsstr) (inputs : list (jsstr * jsstr)).

Section Saml2.
Context `{UrlBase} (origin : jsstr).

(** [None] is an exception. *)
Definition validateNavigationURL (value : jsstr) : option jsstr :=
  url ← resolve_URL origin value;
  if memb url.(u_protocol) [js "http:"; js "https:"] then Some (href_of url) else None.

Definition submitSAML2Navigation (navigation : SAML2Navigation) : option Navigate :=
  match navigation with
  | NavRedirect redirectURL =>
      if truthy redirectURL then Assign <$> validateNavigationURL redirectURL else None
  | NavPost postURL fields =>
      if negb (truthy postURL) then None
      else fields ← fields; action ← validateNavigationURL postURL; Some (Submit action fields)
  | NavOther => None
  end.

(** The browser is only ever sent to a web address: an address of another protocol, a
    script's among them, is an error; and the fields of a form are those of the answer. *)
Lemma submitSAML2Navigation_safe navigation n : submitSAML2Navigation navigation = Some n ->
  exists value url, resolve_URL origin value = Some url /\ url.(u_protocol) ∈ [js "http:"; js "https:"] /\
    ((navigation = NavRedirect value /\ n = Assign (href_of url)) \/
     exists fields, navigation = NavPost value (Some fields) /\ n = Submit (href_of url) fields).
Proof.
  assert (Hv : forall value t, validateNavigationURL value = Some t ->
    exists url, resolve_URL origin value = Some url /\ url.(u_protocol) ∈ [js "http:"; js "https:"] /\ t = href_of url).
  { intros value t E. unfold validateNavigationURL in E. destruct (resolve_URL origin value) as [url|]; [|done].
    cbn [mbind option_bind] in E. destruct (memb _ _) eqn:Em; [|done]. injection E as <-. exists url.
    split; [done|]. split; [by apply memb_elem|done]. }
  destruct navigation as [v|v [fields|]|]; cbn [submitSAML2Navigation]; intros E; [|destruct (truthy v); cbn in E; try done..|done].
  - destruct (truthy v); [|done]. destruct (validateNavigationURL v) as [t|] eqn:Et; [|done]. injection E as <-.
    destruct (Hv _ _ Et) as (url & H1 & H2 & ->). exists v, url. split; [done|]. split; [done|]. by left.
  - destruct (validateNavigationURL v) as [t|] eqn:Et; [|done]. injection E as <-.
    destruct (Hv _ _ Et) as (url & H1 & H2 & ->). exists v, url. split; [done|]. split; [done|]. right. by exists fields.
Qed.
End Saml2.

(** ** The tickets are gone *)

Lemma new_params_good s : good_params (new_URLSearchParams s).
Proof. apply parse_params_good. Qed.

Lemma drop_tickets_good l : good_params l -> good_params (drop_tickets l).
Proof. intros Hl. by apply params_delete_good, params_delete_good. Qed.

Lemma params_text_nil l : good_params l -> params_toString l = [] -> l = [].
Proof. intros Hl E. rewrite <- (new_params_roundtrip l Hl), E. reflexivity. Qed.

Lemma sanitized_search url : searchParams (sanitize url) = drop_tickets (searchParams url).
Proof.
  unfold searchParams at 1. cbn [u_search sanitize]. set (l := drop_tickets _).
  assert (Hl : good_params l) by apply drop_tickets_good, new_params_good.
  destruct (truthy (params_toString l)) eqn:E.
  - unfold new_URLSearchParams. cbn [js app startsWith prefixb]. rewrite N.eqb_refl. cbn [andb drop]. by apply params_roundtrip.
  - apply truthy_false in E. by rewrite (params_text_nil l Hl E).
Qed.

Lemma sanitized_fragment url : getFragmentParams (sanitize url) = drop_tickets (getFragmentParams url).
Proof.
  unfold getFragmentParams at 1. cbn [u_hash sanitize]. set (l := drop_tickets _).
  assert (Hl : good_params l) by apply drop_tickets_good, new_params_good.
  destruct (truthy (params_toString l)) eqn:E.
  - cbn [js app startsWith prefixb]. rewrite N.eqb_refl. cbn [andb drop]. by apply new_params_roundtrip.
  - apply truthy_false in E. by rewrite (params_text_nil l Hl E).
Qed.

Lemma drop_tickets_get name l : name ∈ [oidcTicketParam; saml2TicketParam] -> params_get name (drop_tickets l) = None.
Proof.
  unfold drop_tickets. rewrite !elem_of_cons. intros [->|[->|H]]; [|apply params_get_delete|by apply elem_of_nil in H].
  rewrite params_get_delete_other by done. apply params_get_delete.
Qed.

Lemma drop_tickets_other name l : name ∉ [oidcTicketParam; saml2TicketParam] -> params_get name (drop_tickets l) = params_get name l.
Proof.
  rewrite !not_elem_of_cons. intros (H1 & H2 & _). unfold drop_tickets. by rewrite !params_get_delete_other.
Qed.

(** C20. Taking the tickets of a login leaves none behind: the history is replaced when there is
    one, by a location of the same path in which neither the fragment nor the search
    names a ticket and every other parameter has the value it had; without a ticket the
    location stays; and what the page asked first is whether there is one. *)
Theorem tickets_taken `{WebURL} href tickets text :
  takeExternalTicketsFromURL href = Some (tickets, text) ->
  exists url, new_URL href = Some url /\ tickets = tickets_of url /\
    hasExternalLoginTicket href = Some (negb (no_tickets tickets)) /\
    text = (if no_tickets tickets then None
            else Some ((sanitize url).(u_pathname) ++ (sanitize url).(u_search) ++ (sanitize url).(u_hash))) /\
    (sanitize url).(u_pathname) = url.(u_pathname) /\
    tickets_of (sanitize url) = {| oidcTicket := []; saml2Ticket := [] |} /\
    forall name, name ∉ [oidcTicketParam; saml2TicketParam] -> ticket name (sanitize url) = ticket name url.
Proof.
  unfold takeExternalTicketsFromURL, hasExternalLoginTicket, parseExternalLoginTickets. intros E.
  destruct (new_URL href) as [url|]; [|done]. cbn [fmap option_fmap option_map mbind option_bind] in *. exists url. split; [done|].
  assert (Ht : tickets = tickets_of url) by (destruct (no_tickets _); by injection E as <- <-). subst tickets.
  split; [done|]. split; [unfold no_tickets; by rewrite negb_andb, !negb_involutive|].
  split; [destruct (no_tickets _); by injection E as <-|]. split; [done|].
  split; [|intros name Hn; unfold ticket; by rewrite sanitized_search, sanitized_fragment, !drop_tickets_other].
  unfold tickets_of, ticket. rewrite sanitized_search, sanitized_fragment.
  rewrite !drop_tickets_get by (rewrite !elem_of_cons; auto). done.
Qed.

(** ** Witnesses *)

Definition sample_location : jsstr := js "https://panel.example/login?lang=en&saml2_ticket=s1#oidc_ticket=a%20b&next=home".

Lemma tickets_taken_witness : let H := located_urls in
  takeExternalTicketsFromURL sample_location =
    Some ({| oidcTicket := js "a b"; saml2Ticket := js "s1" |}, Some (js "/login?lang=en#next=home")) /\
  exists url, new_URL sample_location = Some url /\
    tickets_of (sanitize url) = {| oidcTicket := []; saml2Ticket := [] |}.
Proof.
  cbv zeta. split; [vm_compute; reflexivity|].
  destruct (tickets_taken (H := located_urls) sample_location {| oidcTicket := js "a b"; saml2Ticket := js "s1" |}
    (Some (js "/login?lang=en#next=home"))) as (url & H1 & _ & _ & _ & _ & H2 & _); [vm_compute; reflexivity|].
  by exists url.
Defined.
