(* ===== verification/Login.v ===== *)
(** * The login form

    src/frontend/src/views/login/components/login-form.vue: passwords with captcha and
    licence, the second factor, passkeys, and the identity providers whose ticket the page
    is opened with.  A handler runs up to its next [await] and leaves a task; the answer of
    a task resumes it, in any order the tasks are answered, so the flows interleave as they
    do in the browser.  The requests and messages are a log, the last one first.  The refs
    of type boolean, those of the stores among them, are one function from their names. *)

From S2P Require Import Prelude JsString Base64 WebUrl ExternalLogin.

#[local] Open Scope list_scope.

(** ** State *)

Inductive Flag :=
(* the stores *)
| isLogin | agreeLicense | ignoreCaptcha | isAdmin | isEnterprise | isEnterpriseLicenseLoaded | isFxplay | isIntl
| isOffline | isOnRestart | openMenuTabs | menuAccordion
(* the script *)
| errAuthInfo | errCaptcha | errMfaInfo | passkeySetting | passkeySupported | ldapEnabled | oidcEnabled | oidcStarting
| saml2Enabled | saml2Starting | showPasswordLogin | isDemo | open | loginViewActive | isLoggingIn | loading | mfaShow
| loginButtonFocused | mfaButtonFocused
| form_agreeLicense          (* loginForm.agreeLicense *)
| source_ldap                (* loginSource is 'ldap', not 'local' *)
| pending_passkey            (* pendingLoginMethod is 'passkey', not 'password' *)
(* the page *)
| mobile                     (* _isMobile() *)
| keydown                    (* document.onkeydown is loginKeydownHandler *)
| autoPasskey                (* the item of localStorage *)
| mounted.

Scheme Boolean Equality for Flag.

Record ResLogin := { mfaStatus : jsstr; mfaSession : option jsstr; role : jsstr }.

Record LoginSetting := {
  ls_isDemo : bool; ls_language : jsstr; ls_isIntl : bool; ls_isFxplay : bool; ls_isOffline : bool; ls_isEnterprise : bool;
  ls_needCaptcha : bool; ls_passkeySetting : bool; ls_menuTabs : jsstr; ls_menuAccordion : jsstr;
}.

Record Captcha := { captchaID : jsstr; imagePath : jsstr; captchaLength : N }.

(** The options of navigator.credentials.get as they come, and what it gives. *)
Record PublicKey := { challenge : jsstr; allowCredentials : option (list jsstr) }.
Record Credential := {
  c_id : jsstr; rawId : list N; clientDataJSON : list N; authenticatorData : list N; signature : list N;
  userHandle : option (list N);
}.
Record Assertion := {
  a_id : jsstr; a_rawId : jsstr; a_clientDataJSON : jsstr; a_authenticatorData : jsstr; a_signature : jsstr;
  a_userHandle : option jsstr;
}.

(** What was caught: its code, when it has one, and its message. *)
Record Err := { code : option Z; message : jsstr }.

Inductive Flow := FPassword | FMfa | FPasskey | FOidc | FSaml2.

Inductive Effect :=
| LoginApi (name password captcha captchaID : jsstr) (ldap : bool) (language : jsstr)
| MfaLoginApi (sessionId code : jsstr)
| PasskeyBeginApi
| CredentialsGet (challenge : list N) (allow : option (list (list N)))
| PasskeyFinishApi (payload : Assertion) (sessionId : jsstr)
| OidcBeginApi | OidcFinishApi (ticket : jsstr)
| Saml2BeginApi | Saml2FinishApi (ticket : jsstr)
| LdapStatusApi | OidcStatusApi | Saml2StatusApi
| GetCaptcha | GetLoginSetting | UpdateLanguage (language : jsstr) | ThemeSetting
| ResetMenusAndTabs | ChangeToLocal | SyncAuthInfo | ClearLocalCaches | RouterToHome
| GoTo (n : Navigate)
| ExternalLoginReady             (* emit('external-login-ready') *)
| MsgSuccess | MsgError (text : jsstr).

Inductive Task :=
| TValidate                      (* the callback of formEl.validate *)
| TLoginApi | TMfaApi
| TPasskeyBegin | TCredential (sessionId : jsstr) | TPasskeyFinish
| TOidcBegin | TOidcFinish | TSaml2Begin | TSaml2Finish
| TChangeToLocal (f : Flow) | TSyncAuth (f : Flow) | TNavigate (f : Flow)
| TCaptcha | TSetting | TSettingLanguage (res : LoginSetting) | TLanguage
| TLdapStatus | TOidcStatus | TSaml2Status | TTheme.

Record Login := {
  flag : Flag -> bool;
  f_name : jsstr; f_password : jsstr; f_captcha : jsstr; f_language : jsstr;      (* loginForm *)
  sessionId : jsstr; mfa_code : jsstr;                                            (* mfaLoginForm *)
  captcha : Captcha;
  tasks : list Task;
  effects : list Effect;
}.

(** ** The monad *)

Definition flagb (f : Flag) : M Login bool := gets (fun s => s.(flag) f).

Definition with_flags (g : Flag -> bool) (s : Login) : Login :=
  {| flag := g; f_name := s.(f_name); f_password := s.(f_password); f_captcha := s.(f_captcha);
     f_language := s.(f_language); sessionId := s.(sessionId); mfa_code := s.(mfa_code); captcha := s.(captcha);
     tasks := s.(tasks); effects := s.(effects) |}.
Definition with_form (name password cap language : jsstr) (s : Login) : Login :=
  {| flag := s.(flag); f_name := name; f_password := password; f_captcha := cap; f_language := language;
     sessionId := s.(sessionId); mfa_code := s.(mfa_code); captcha := s.(captcha); tasks := s.(tasks); effects := s.(effects) |}.
Definition with_mfa (sid code : jsstr) (s : Login) : Login :=
  {| flag := s.(flag); f_name := s.(f_name); f_password := s.(f_password); f_captcha := s.(f_captcha);
     f_language := s.(f_language); sessionId := sid; mfa_code := code; captcha := s.(captcha); tasks := s.(tasks);
     effects := s.(effects) |}.
Definition with_captcha (c : Captcha) (s : Login) : Login :=
  {| flag := s.(flag); f_name := s.(f_name); f_password := s.(f_password); f_captcha := s.(f_captcha);
     f_language := s.(f_language); sessionId := s.(sessionId); mfa_code := s.(mfa_code); captcha := c; tasks := s.(tasks);
     effects := s.(effects) |}.
Definition with_tasks (l : list Task) (s : Login) : Login :=
  {| flag := s.(flag); f_name := s.(f_name); f_password := s.(f_password); f_captcha := s.(f_captcha);
     f_language := s.(f_language); sessionId := s.(sessionId); mfa_code := s.(mfa_code); captcha := s.(captcha);
     tasks := l; effects := s.(effects) |}.
Definition with_effects (l : list Effect) (s : Login) : Login :=
  {| flag := s.(flag); f_name := s.(f_name); f_password := s.(f_password); f_captcha := s.(f_captcha);
     f_language := s.(f_language); sessionId := s.(sessionId); mfa_code := s.(mfa_code); captcha := s.(captcha);
     tasks := s.(tasks); effects := l |}.

Definition set (f : Flag) (b : bool) : M Login unit :=
  modify (fun s => with_flags (fun g => if Flag_beq g f then b else s.(flag) g) s).
Definition set_captcha_text (t : jsstr) : M Login unit :=
  modify (fun s => with_form s.(f_name) s.(f_password) t s.(f_language) s).
Definition set_language (l : jsstr) : M Login unit :=
  modify (fun s => with_form s.(f_name) s.(f_password) s.(f_captcha) l s).
Definition set_mfa_code (c : jsstr) : M Login unit := modify (fun s => with_mfa s.(sessionId) c s).
Definition emit (e : Effect) : M Login unit := modify (fun s => with_effects (e :: s.(effects)) s).
Definition await (t : Task) : M Login unit := modify (fun s => with_tasks (s.(tasks) ++ [t]) s).
Definition skip : M Login unit := ret tt.

Notation "'IF' f 'THEN' a 'ELSE' b" := (bind (flagb f) (fun x : bool => if x then a else b))
  (at level 199, f at level 9, a at level 199, b at level 199) : panel_scope.

(** ** Operations *)

Section LoginForm.
Context `{Ciphers} `{ExternalLogin.UrlBase}.
(** The tickets the page took from its location, and the origin of the page. *)
Variables (pendingExternalTickets : ExternalLoginTickets) (origin : jsstr).

Definition pendingOIDCTicket : jsstr := pendingExternalTickets.(oidcTicket).
Definition pendingSAML2Ticket : jsstr := if truthy pendingOIDCTicket then [] else pendingExternalTickets.(saml2Ticket).
Definition hasPendingExternalTicket : bool := truthy pendingOIDCTicket || truthy pendingSAML2Ticket.

Definition loginVerify : M Login unit := emit GetCaptcha;;; await TCaptcha.

Definition showPasskeyOnly (s : Login) : bool :=
  s.(flag) passkeySetting && s.(flag) passkeySupported && negb (s.(flag) showPasswordLogin).

(** isIntl || isFxplay || isEnterprise *)
Definition exempt (s : Login) : bool := s.(flag) isIntl || s.(flag) isFxplay || s.(flag) isEnterprise.

(** handleCommand, up to its await. *)
Definition handleCommand (command : jsstr) (t : Task) : M Login unit := emit (UpdateLanguage command);;; await t.

(** *** The end of a flow: what follows the tickets of the mounted hook, and the finally blocks *)

Definition load_theme : M Login unit := emit ThemeSetting;;; await TTheme.

Definition load_status (enabled : Flag) (request : Effect) (t : Task) : M Login unit :=
  set enabled false;;;
  IF isEnterprise THEN (emit request;;; await t) ELSE skip.

Definition load_statuses : M Login unit :=
  load_status ldapEnabled LdapStatusApi TLdapStatus;;;
  load_status oidcEnabled OidcStatusApi TOidcStatus;;;
  load_status saml2Enabled Saml2StatusApi TSaml2Status;;;
  IF isEnterprise THEN skip ELSE load_theme.

Definition after_ticket : M Login unit :=
  (IF isLogin THEN skip ELSE if hasPendingExternalTicket then emit ExternalLoginReady else skip);;;
  IF loginViewActive THEN
    (IF isLogin THEN skip ELSE (IF mfaShow THEN load_theme ELSE load_statuses))
  ELSE skip.

Definition finally_ (f : Flow) : M Login unit :=
  set isLoggingIn false;;;
  match f with FMfa => skip | _ => set loading false end;;;
  match f with FOidc | FSaml2 => after_ticket | _ => skip end.

(** The catch blocks. *)
Definition unauthorized (e : Err) : bool := match e.(code) with Some c => (c =? 401)%Z | None => false end.

Definition catch_ (f : Flow) (e : Err) : M Login unit :=
  match f with
  | FPassword =>
      if unauthorized e then
        if e.(message) === js "ErrCaptchaCode" then
          set ignoreCaptcha false;;; set_captcha_text [];;; set errCaptcha true;;; set errAuthInfo false;;; loginVerify
        else if e.(message) === js "ErrAuth" then
          set ignoreCaptcha false;;; set errCaptcha false;;; set errAuthInfo true;;; loginVerify
        else (emit (MsgError e.(message));;; loginVerify)
      else loginVerify
  | FMfa =>
      if unauthorized e then
        if e.(message) === js "ErrCaptchaCode" then
          set ignoreCaptcha false;;; set_mfa_code [];;; set mfaShow false;;; loginVerify
        else if e.(message) === js "ErrMFA" then set errMfaInfo true
        else if truthy e.(message) then emit (MsgError e.(message)) else skip
      else loginVerify
  | FPasskey =>
      set autoPasskey false;;;
      if truthy e.(message) then emit (MsgError (js "commons.login.passkeyFailed")) else skip
  | FOidc | FSaml2 => skip
  end.

Definition rejected (f : Flow) (e : Err) : M Login unit := catch_ f e;;; finally_ f.

(** *** A login that succeeds *)

Definition completeLogin (f : Flow) (result : ResLogin) : M Login unit :=
  set isLogin true;;;
  set agreeLicense true;;;
  emit ResetMenusAndTabs;;;
  set isAdmin (result.(role) === js "ADMIN");;;
  emit ChangeToLocal;;; await (TChangeToLocal f).

Definition clearLoginKeydownHandler : M Login unit := set keydown false.

(** completeLogin, once syncAuthInfo has its answer. *)
Definition completeLogin_synced (f : Flow) : M Login unit :=
  emit MsgSuccess;;; emit ClearLocalCaches;;; clearLoginKeydownHandler;;; emit RouterToHome;;; await (TNavigate f).

Definition handleLoginResult (f : Flow) (result : ResLogin) : M Login unit :=
  if result.(mfaStatus) === js "Enable" then
    modify (with_mfa (default [] result.(mfaSession)) []);;;
    set mfaShow true;;; set errMfaInfo false;;; set errCaptcha false;;; finally_ f
  else completeLogin f result.

(** *** Passwords *)

(** The rules of the form; [None] is a call of the callback without an error. *)
Definition checkUsername (value : jsstr) : option jsstr := if value === [] then Some (js "commons.rule.username") else None.
Definition checkPassword (value : jsstr) : option jsstr := if value === [] then Some (js "commons.rule.password") else None.
Definition checkAgreeLicense (value isMobile : bool) : option jsstr :=
  if negb value && negb isMobile then Some (js "commons.login.errorAgree") else None.

Definition form_present (s : Login) : bool := negb (s.(flag) mfaShow) && negb (showPasskeyOnly s).

Definition login : M Login unit :=
  let! s := get in
  if negb (form_present s) || s.(flag) isLoggingIn then skip
  else (set errAuthInfo false;;; set errCaptcha false;;; await TValidate).

(** The callback of validate, with the cookie and the random bytes of the moment. *)
Definition login_validated (valid : bool) (cookie : jsstr) (randomBytes iv : list N) : M Login unit :=
  if negb valid then skip
  else
    (let! s := get in if exempt s then set form_agreeLicense true else skip);;;
    let! s := get in
    if negb (s.(flag) form_agreeLicense) then
      IF mobile THEN (set pending_passkey false;;; set open true) ELSE skip
    else
      match encryptPassword cookie randomBytes iv s.(f_password) with
      | None => skip
      | Some password =>
          if negb (s.(flag) ignoreCaptcha) && (s.(f_captcha) === []) then set errCaptcha true
          else
            set isLoggingIn true;;; set loading true;;;
            emit (LoginApi s.(f_name) password s.(f_captcha) s.(captcha).(captchaID) (s.(flag) source_ldap) s.(f_language));;;
            await TLoginApi
      end.

(** *** The second factor *)

Definition mfaLogin (auto : bool) : M Login unit :=
  let! s := get in
  if s.(flag) isLoggingIn then skip
  else if (negb auto && truthy s.(mfa_code)) || (auto && (length s.(mfa_code) =? 6)%nat) then
    set isLoggingIn true;;; set errMfaInfo false;;;
    emit (MfaLoginApi s.(sessionId) s.(mfa_code));;; await TMfaApi
  else skip.

(** *** Passkeys *)

Definition passkeyLogin : M Login unit :=
  let! s := get in
  if s.(flag) isLoggingIn || negb (s.(flag) passkeySetting) then skip
  else if negb (s.(flag) passkeySupported) then
    set autoPasskey false;;; emit (MsgError (js "commons.login.passkeyNotSupported"))
  else if negb (exempt s) && negb (s.(flag) form_agreeLicense) then
    if s.(flag) mobile || showPasskeyOnly s then set pending_passkey true;;; set open true
    else emit (MsgError (js "commons.login.errorAgree"))
  else (set isLoggingIn true;;; set loading true;;; emit PasskeyBeginApi;;; await TPasskeyBegin).

Definition normalizePasskeyRequest (publicKey : PublicKey) : option (list N * option (list (list N))) :=
  challenge ← base64UrlToBuffer publicKey.(challenge);
  match publicKey.(allowCredentials) with
  | Some ids => ids ← mapM base64UrlToBuffer ids; Some (challenge, Some ids)
  | None => Some (challenge, None)
  end.

Definition buildPasskeyAssertion (credential : Credential) : Assertion :=
  {| a_id := credential.(c_id);
     a_rawId := bufferToBase64Url credential.(rawId);
     a_clientDataJSON := bufferToBase64Url credential.(clientDataJSON);
     a_authenticatorData := bufferToBase64Url credential.(authenticatorData);
     a_signature := bufferToBase64Url credential.(signature);
     a_userHandle := bufferToBase64Url <$> credential.(userHandle) |}.

(** passkeyLogin, once it has the options: text that is no base64 is an exception. *)
Definition passkey_options (publicKey : PublicKey) (sid : jsstr) : M Login unit :=
  match normalizePasskeyRequest publicKey with
  | Some (challenge, allow) => emit (CredentialsGet challenge allow);;; await (TCredential sid)
  | None => rejected FPasskey {| code := None; message := js "InvalidCharacterError" |}
  end.

Definition passkey_credential (sid : jsstr) (credential : option Credential) : M Login unit :=
  match credential with
  | None => set autoPasskey false;;; emit (MsgError (js "commons.login.passkeyFailed"));;; finally_ FPasskey
  | Some credential => emit (PasskeyFinishApi (buildPasskeyAssertion credential) sid);;; await TPasskeyFinish
  end.

(** *** Identity providers *)

Definition beginOIDCLogin : M Login unit :=
  let! s := get in
  if s.(flag) isLoggingIn || negb (s.(flag) oidcEnabled) then skip
  else (set isLoggingIn true;;; set oidcStarting true;;; emit OidcBeginApi;;; await TOidcBegin).

Definition end_begin (starting : Flag) : M Login unit := set isLoggingIn false;;; set starting false.

Definition beginSAML2Login : M Login unit :=
  let! s := get in
  if s.(flag) isLoggingIn || negb (s.(flag) saml2Enabled) then skip
  else (set isLoggingIn true;;; set saml2Starting true;;; emit Saml2BeginApi;;; await TSaml2Begin).

Definition navigate_saml2 (navigation : SAML2Navigation) : M Login unit :=
  match submitSAML2Navigation origin navigation with
  | Some n => emit (GoTo n)
  | None => emit (MsgError (js "commons.msg.operationFailed"))
  end.

Definition finishOIDCLogin (ticket : jsstr) : M Login unit :=
  if negb (truthy ticket) then skip
  else (set isLoggingIn true;;; set loading true;;; emit (OidcFinishApi ticket);;; await TOidcFinish).

Definition finishSAML2Login (ticket : jsstr) : M Login unit :=
  if negb (truthy ticket) then skip
  else (set isLoggingIn true;;; set loading true;;; emit (Saml2FinishApi ticket);;; await TSaml2Finish).

(** *** Mounting *)

(** The mounted hook after getSetting: the ticket the page was opened with, if any. *)
Definition after_setting : M Login unit :=
  IF loginViewActive THEN
    (if truthy pendingOIDCTicket then finishOIDCLogin pendingOIDCTicket
     else if truthy pendingSAML2Ticket then finishSAML2Login pendingSAML2Ticket
     else after_ticket)
  ELSE skip.

(** getSetting, up to the await of handleCommand and after it. *)
Definition setting_loaded (res : LoginSetting) : M Login unit :=
  set isDemo res.(ls_isDemo);;;
  let! s := get in
  handleCommand (if truthy res.(ls_language) then res.(ls_language) else s.(f_language)) (TSettingLanguage res).

Definition setting_language (res : LoginSetting) (activeLocale : jsstr) : M Login unit :=
  set_language activeLocale;;;
  set isIntl res.(ls_isIntl);;;
  set isFxplay res.(ls_isFxplay);;;
  set isOffline res.(ls_isOffline);;;
  set isEnterprise res.(ls_isEnterprise);;;
  set isEnterpriseLicenseLoaded (negb res.(ls_isEnterprise));;;
  set ignoreCaptcha (negb res.(ls_needCaptcha));;;
  set passkeySetting res.(ls_passkeySetting);;;
  (if res.(ls_needCaptcha) then loginVerify else skip);;;
  set openMenuTabs (res.(ls_menuTabs) === js "Enable");;;
  set menuAccordion (res.(ls_menuAccordion) === js "Enable");;;
  (if res.(ls_passkeySetting) && negb res.(ls_isIntl) && negb res.(ls_isFxplay) then set form_agreeLicense true else skip);;;
  let! s := get in
  (if s.(flag) passkeySetting && s.(flag) passkeySupported && s.(flag) autoPasskey && negb hasPendingExternalTicket
   then passkeyLogin else skip);;;
  after_setting.

(** The mounted hook after getXpackSettingForTheme. *)
Definition theme_loaded : M Login unit :=
  IF loginViewActive THEN
    ((IF ignoreCaptcha THEN skip ELSE loginVerify);;;
     let! s := get in
     set form_agreeLicense (s.(flag) agreeLicense);;; set keydown true)
  ELSE skip.

Definition mounted_hook (supported : bool) : M Login unit :=
  set mounted true;;; set isOnRestart false;;; set passkeySupported supported;;;
  emit GetLoginSetting;;; await TSetting.

(** Promise.all: the last status to come in lets the hook go on. *)
Definition is_status (t : Task) : bool := match t with TLdapStatus | TOidcStatus | TSaml2Status => true | _ => false end.
Definition status_done : M Login unit :=
  let! s := get in if existsb is_status s.(tasks) then skip else load_theme.

(** *** The answers of the tasks *)

Inductive Answer :=
| Rejected (e : Err)
| Done
| Validated (valid : bool) (cookie : jsstr) (randomBytes iv : list N)
| LoginAnswer (r : ResLogin)
| PasskeyOptions (p : PublicKey) (sid : jsstr)
| CredentialAnswer (c : option Credential)
| AuthorizationURL (url : jsstr)
| NavigationAnswer (n : SAML2Navigation)
| CaptchaAnswer (c : Captcha)
| SettingAnswer (s : LoginSetting)
| Locale (l : jsstr)
| Enabled (b : bool).

(** What resumes with an answer; [None] when a task has no such answer.  changeToLocal
    catches its errors, and nothing catches those of loginVerify and of the language menu. *)
Definition resume (t : Task) (a : Answer) : option (M Login unit) :=
  match t, a with
  | TValidate, Validated valid cookie random iv => Some (login_validated valid cookie random iv)
  | TLoginApi, LoginAnswer r => Some (set ignoreCaptcha true;;; handleLoginResult FPassword r)
  | TLoginApi, Rejected e => Some (rejected FPassword e)
  | TMfaApi, LoginAnswer r => Some (completeLogin FMfa r)
  | TMfaApi, Rejected e => Some (rejected FMfa e)
  | TPasskeyBegin, PasskeyOptions p sid => Some (passkey_options p sid)
  | TPasskeyBegin, Rejected e => Some (rejected FPasskey e)
  | TCredential sid, CredentialAnswer c => Some (passkey_credential sid c)
  | TCredential _, Rejected e => Some (rejected FPasskey e)
  | TPasskeyFinish, LoginAnswer r => Some (set autoPasskey true;;; set ignoreCaptcha true;;; handleLoginResult FPasskey r)
  | TPasskeyFinish, Rejected e => Some (rejected FPasskey e)
  | TOidcBegin, AuthorizationURL url =>
      Some ((if truthy url then emit (GoTo (Assign url)) else skip);;; end_begin oidcStarting)
  | TOidcBegin, Rejected _ => Some (end_begin oidcStarting)
  | TOidcFinish, LoginAnswer r => Some (set ignoreCaptcha true;;; handleLoginResult FOidc r)
  | TOidcFinish, Rejected e => Some (rejected FOidc e)
  | TSaml2Begin, NavigationAnswer n => Some (navigate_saml2 n;;; end_begin saml2Starting)
  | TSaml2Begin, Rejected _ => Some (end_begin saml2Starting)
  | TSaml2Finish, LoginAnswer r => Some (set ignoreCaptcha true;;; handleLoginResult FSaml2 r)
  | TSaml2Finish, Rejected e => Some (rejected FSaml2 e)
  | TChangeToLocal f, Done => Some (emit SyncAuthInfo;;; await (TSyncAuth f))
  | TSyncAuth f, Done => Some (completeLogin_synced f)
  | TSyncAuth f, Rejected e => Some (rejected f e)
  | TNavigate f, Done => Some (finally_ f)
  | TNavigate f, Rejected _ =>
      Some ((if hasPendingExternalTicket then emit ExternalLoginReady else skip);;; finally_ f)
  | TCaptcha, CaptchaAnswer c => Some (modify (with_captcha c))
  | TCaptcha, Rejected _ => Some skip
  | TSetting, SettingAnswer res => Some (setting_loaded res)
  | TSetting, Rejected _ => Some after_setting
  | TSettingLanguage res, Locale l => Some (setting_language res l)
  | TSettingLanguage _, Rejected _ => Some after_setting
  | TLanguage, Locale l => Some (set_language l)
  | TLanguage, Rejected _ => Some skip
  | TLdapStatus, Enabled b => Some (set ldapEnabled b;;; status_done)
  | TLdapStatus, Rejected _ => Some (set ldapEnabled false;;; status_done)
  | TOidcStatus, Enabled b => Some (set oidcEnabled b;;; status_done)
  | TOidcStatus, Rejected _ => Some (set oidcEnabled false;;; status_done)
  | TSaml2Status, Enabled b => Some (set saml2Enabled b;;; status_done)
  | TSaml2Status, Rejected _ => Some (set saml2Enabled false;;; status_done)
  | TTheme, (Done | Rejected _) => Some theme_loaded
  | _, _ => None
  end.

(** *** What the user does *)

Definition agreeWithLogin : M Login unit :=
  set open false;;; set form_agreeLicense true;;;
  IF pending_passkey THEN passkeyLogin ELSE login.

Definition switchToPasswordLogin : M Login unit := set source_ldap false;;; set showPasswordLogin true.
Definition switchToLDAPLogin : M Login unit :=
  set source_ldap true;;; set showPasswordLogin true;;; set errAuthInfo false;;; set errCaptcha false.
Definition switchToLocalLogin : M Login unit :=
  set source_ldap false;;; set errAuthInfo false;;; set errCaptcha false.

(** A key on the page: [enter] that is neither prevented nor on a button of a provider. *)
Definition loginKeydownHandler (enter : bool) : M Login unit :=
  if negb enter then skip
  else
    (let! s := get in if negb (s.(flag) mfaShow) && negb (s.(flag) loginButtonFocused) then login else skip);;;
    let! s := get in if s.(flag) mfaShow && negb (s.(flag) mfaButtonFocused) then mfaLogin false else skip.

Variant Button := BLogin | BMfa | BPasskey | BOidc | BSaml2 | BPassword | BLdap | BLocal | BAgree | BCaptcha.

Definition clicked (b : Button) : M Login unit :=
  match b with
  | BLogin => login
  | BMfa => mfaLogin false
  | BPasskey => passkeyLogin
  | BOidc => beginOIDCLogin
  | BSaml2 => beginSAML2Login
  | BPassword => switchToPasswordLogin
  | BLdap => switchToLDAPLogin
  | BLocal => switchToLocalLogin
  | BAgree => agreeWithLogin
  | BCaptcha => loginVerify
  end.

(** The refs the template binds to inputs: the licence, the dialog, the focus of the buttons,
    and the width of the page. *)
Definition is_input (f : Flag) : bool :=
  match f with form_agreeLicense | open | loginButtonFocused | mfaButtonFocused | mobile => true | _ => false end.

Inductive Event :=
| Mount (supported : bool)
| Unmount
| Click (b : Button)
| Key (enter : bool)
| MfaInput (text : jsstr)
| Type_ (name password cap : jsstr)
| Tick (f : Flag) (b : bool)
| Language (l : jsstr)
| Resume (i : nat) (a : Answer).

Definition handle (e : Event) : M Login unit :=
  let! s := get in
  match e with
  | Mount supported => if s.(flag) mounted then skip else mounted_hook supported
  | Unmount => set loginViewActive false;;; clearLoginKeydownHandler
  | Click b => clicked b
  | Key enter => if s.(flag) keydown then loginKeydownHandler enter else skip
  | MfaInput text => set_mfa_code (trim text);;; mfaLogin true
  | Type_ name password cap => modify (with_form (trim name) (trim password) (trim cap) s.(f_language))
  | Tick f b => if is_input f then set f b else skip
  | Language l => handleCommand l TLanguage
  | Resume i a =>
      match s.(tasks) !! i ≫= fun t => resume t a with
      | Some m => modify (with_tasks (delete i s.(tasks)));;; m
      | None => skip
      end
  end.

Definition step (s : Login) (e : Event) : Login := (handle e s).2.

(** The page before it is mounted: the stores and the item of localStorage are given. *)
Definition store_flag (f : Flag) : bool :=
  match f with
  | isLogin | agreeLicense | ignoreCaptcha | isAdmin | isEnterprise | isEnterpriseLicenseLoaded | isFxplay | isIntl
  | isOffline | isOnRestart | openMenuTabs | menuAccordion | mobile | autoPasskey => true
  | _ => false
  end.
Definition initial (stores : Flag -> bool) : Login :=
  {| flag f := if store_flag f then stores f else Flag_beq f loginViewActive;
     f_name := []; f_password := []; f_captcha := []; f_language := js "zh"; sessionId := []; mfa_code := [];
     captcha := {| captchaID := []; imagePath := []; captchaLength := 0 |}; tasks := []; effects := [] |}.

Definition run (stores : Flag -> bool) (l : list Event) : Login := fold_left step l (initial stores).
End LoginForm.

(** ** A run *)

#[export] Instance origin_urls : UrlBase | 100 :=
  {| resolve_URL base value := located_URL value; href_of u := u.(u_protocol) ++ js "//" ++ u.(u_host) ++ u.(u_pathname) |}.

Definition sample_setting (enterprise captcha : bool) : LoginSetting :=
  {| ls_isDemo := false; ls_language := js "en"; ls_isIntl := false; ls_isFxplay := false; ls_isOffline := false;
     ls_isEnterprise := enterprise; ls_needCaptcha := captcha; ls_passkeySetting := false; ls_menuTabs := js "Enable";
     ls_menuAccordion := [] |}.
Definition no_ticket : ExternalLoginTickets := {| oidcTicket := []; saml2Ticket := [] |}.
Definition one_ticket : ExternalLoginTickets := {| oidcTicket := js "t1"; saml2Ticket := js "t2" |}.
Definition granted_login : ResLogin := {| mfaStatus := []; mfaSession := None; role := js "ADMIN" |}.
Definition mfa_login : ResLogin := {| mfaStatus := js "Enable"; mfaSession := Some (js "m1"); role := [] |}.
Definition empty_page (f : Flag) : bool := false.

(** The page is mounted, the user signs in and confirms the second factor. *)
Definition sample_events : list Event :=
  [ Mount true; Resume 0 (SettingAnswer (sample_setting false false)); Resume 0 (Locale (js "en")); Resume 0 Done;
    Type_ (js " admin") (js "secret") []; Tick form_agreeLicense true; Click BLogin;
    Resume 0 (Validated true [] [] []); Resume 0 (LoginAnswer mfa_login); MfaInput (js "12345"); MfaInput (js "123456");
    Resume 0 (LoginAnswer granted_login); Resume 0 Done; Resume 0 Done; Resume 0 Done; Unmount ].
Definition sample_run := run no_ticket (js "https://panel") empty_page.

Example sample_effects : rev (sample_run sample_events).(effects) =
  [GetLoginSetting; UpdateLanguage (js "en"); ThemeSetting;
   LoginApi (js "admin") (js "secret") [] [] false (js "en"); MfaLoginApi (js "m1") (js "123456");
   ResetMenusAndTabs; ChangeToLocal; SyncAuthInfo; MsgSuccess; ClearLocalCaches; RouterToHome] /\
  (sample_run sample_events).(flag) isLogin = true /\ (sample_run sample_events).(flag) isLoggingIn = false /\
  (sample_run sample_events).(tasks) = [].
Proof. vm_compute. auto. Qed.

(** ** What a handler leaves alone *)

(** [m] relates every state to the one it ends in by a preorder. *)
Definition keeps (R : Login -> Login -> Prop) {A} (m : M Login A) : Prop := forall s, R s (m s).2.

Section Keeps.
Context (R : Login -> Login -> Prop) `{!PreOrder R}.

Lemma keeps_ret {A} (a : A) : keeps R (ret a).
Proof. intros s. reflexivity. Qed.

Lemma keeps_gets {A} (f : Login -> A) : keeps R (gets f).
Proof. intros s. reflexivity. Qed.

Lemma keeps_get : keeps R get.
Proof. intros s. reflexivity. Qed.

Lemma keeps_bind {A B} (m : M Login A) (k : A -> M Login B) : keeps R m -> (forall a, keeps R (k a)) -> keeps R (bind m k).
Proof. intros Hm Hk s. unfold bind. specialize (Hm s). destruct (m s) as [a s1]. etransitivity; [exact Hm|apply Hk]. Qed.
End Keeps.

(** Decomposes a handler; [prim] closes the goals of its primitive steps. *)
Ltac walk prim :=
  repeat
    lazymatch goal with
    | |- keeps _ (bind _ _) => apply keeps_bind; [typeclasses eauto| |intros ?]
    | |- keeps _ (ret _) => apply keeps_ret; typeclasses eauto
    | |- keeps _ (gets _) => apply keeps_gets; typeclasses eauto
    | |- keeps _ get => apply keeps_get; typeclasses eauto
    | |- keeps _ (match ?x with _ => _ end) => destruct x
    | |- keeps _ _ => prim
    end.

Create HintDb login_steps.
#[local] Hint Unfold skip flagb loginVerify handleCommand load_theme load_status load_statuses after_ticket catch_
  rejected clearLoginKeydownHandler completeLogin_synced handleLoginResult login login_validated mfaLogin
  passkeyLogin passkey_options passkey_credential beginOIDCLogin end_begin beginSAML2Login navigate_saml2 finishOIDCLogin
  finishSAML2Login after_setting setting_loaded setting_language theme_loaded mounted_hook status_done agreeWithLogin
  switchToPasswordLogin switchToLDAPLogin switchToLocalLogin loginKeydownHandler clicked : login_steps.

Section Proofs.
Context `{Ciphers} `{UrlBase}.
Variables (tickets : ExternalLoginTickets) (origin : jsstr).

(** ** The second factor *)

(** The answers that open a session. *)
Definition grants (t : Task) (a : Answer) : bool :=
  match t, a with
  | TMfaApi, LoginAnswer _ => true
  | (TLoginApi | TPasskeyFinish | TOidcFinish | TSaml2Finish), LoginAnswer r => r.(mfaStatus) !== js "Enable"
  | _, _ => false
  end.

Definition same_login (s s' : Login) : Prop := s'.(flag) isLogin = s.(flag) isLogin.
#[local] Instance same_login_preorder : PreOrder same_login.
Proof. split; [done|]. intros a b c H1 H2. unfold same_login in *. congruence. Qed.

Lemma finally_login f : keeps same_login (finally_ tickets f).
Proof. unfold finally_. autounfold with login_steps. walk ltac:(intros ?; reflexivity). Qed.

Ltac login_prim := idtac; lazymatch goal with |- keeps _ (finally_ _ _) => apply finally_login | _ => intros ?; reflexivity end.

Lemma resume_grants t a m : resume tickets origin t a = Some m -> grants t a = false -> keeps same_login m.
Proof.
  intros E Hg. destruct t, a; cbn [resume] in E; cbn [grants] in Hg; try discriminate Hg; try discriminate E; injection E as <-.
  all: autounfold with login_steps; try (apply negb_false_iff in Hg; rewrite Hg).
  all: walk login_prim.
Qed.

Lemma handle_grants e s : (forall i t a, e = Resume i a -> s.(tasks) !! i = Some t -> grants t a = false) ->
  same_login s (step tickets origin s e).
Proof.
  intros Hg. unfold step, handle, bind at 1, get. cbn beta iota.
  destruct e as [b| |b|b|t|n p c|f b|l|i a].
  1-6: apply (fun k : keeps same_login _ => k s); autounfold with login_steps; walk login_prim.
  - destruct f; apply (fun k : keeps same_login _ => k s); cbn [is_input]; walk login_prim.
  - apply (fun k : keeps same_login _ => k s); autounfold with login_steps; walk login_prim.
  - destruct (tasks s !! i) as [t|] eqn:Et; cbn [mbind option_bind]; [|reflexivity].
    destruct (resume tickets origin t a) as [m|] eqn:Em; [|reflexivity].
    apply (fun k : keeps same_login _ => k s). apply keeps_bind; [typeclasses eauto|intros ?; reflexivity|intros _].
    apply (resume_grants t a m Em). by apply (Hg i).
Qed.

(** C3. Nobody is signed in by the page alone: a run that signs in holds the answer to a
    password, a passkey or a ticket that asks for no second factor, or the answer to a
    second factor that was asked for. *)
Theorem no_session_without_grant l s : s.(flag) isLogin = false ->
  (fold_left (step tickets origin) l s).(flag) isLogin = true ->
  exists l1 i a l2 t, l = l1 ++ Resume i a :: l2 /\
    (fold_left (step tickets origin) l1 s).(tasks) !! i = Some t /\ grants t a = true.
Proof.
  revert s. induction l as [|e l IH]; intros s Hs; cbn [fold_left]; [congruence|]. intros Hl.
  assert (Hd : (exists i t a, e = Resume i a /\ s.(tasks) !! i = Some t /\ grants t a = true) \/
               (forall i t a, e = Resume i a -> s.(tasks) !! i = Some t -> grants t a = false)).
  { destruct e as [| | | | | | | |i a]; try (right; by intros ???).
    destruct (tasks s !! i) as [t|] eqn:Et; [|right; intros ??? [= <- <-]; congruence].
    destruct (grants t a) eqn:Eg; [left; by exists i, t, a|]. right. intros ??? [= <- <-]. congruence. }
  destruct Hd as [(i & t & a & -> & Ht & Hg)|Hn]; [by exists [], i, a, l, t|].
  destruct (IH (step tickets origin s e)) as (l1 & i & a & l2 & t & -> & H1 & H2); [|done|by exists (e :: l1), i, a, l2, t].
  rewrite <- Hs. by apply handle_grants.
Qed.

(** ** Passwords *)

Definition is_password (e : Effect) : bool := match e with LoginApi _ _ _ _ _ _ => true | _ => false end.
Definition passwords (s : Login) : list Effect := List.filter is_password s.(effects).

Definition same_passwords (s s' : Login) : Prop := passwords s' = passwords s.
#[local] Instance same_passwords_preorder : PreOrder same_passwords.
Proof. split; [done|]. intros a b c H1 H2. unfold same_passwords in *. congruence. Qed.

Lemma finally_passwords f : keeps same_passwords (finally_ tickets f).
Proof. unfold finally_. autounfold with login_steps. walk ltac:(intros ?; reflexivity). Qed.

Ltac passwords_prim :=
  idtac; lazymatch goal with |- keeps _ (finally_ _ _) => apply finally_passwords | _ => intros ?; reflexivity end.

Lemma resume_passwords t a m : resume tickets origin t a = Some m -> t <> TValidate -> keeps same_passwords m.
Proof.
  intros E Ht. destruct t; try done; destruct a; cbn [resume] in E; try discriminate E; injection E as <-.
  all: autounfold with login_steps; walk passwords_prim.
Qed.

Lemma handle_passwords e s : (forall i a, e = Resume i a -> s.(tasks) !! i <> Some TValidate) ->
  same_passwords s (step tickets origin s e).
Proof.
  intros Hv. unfold step, handle, bind at 1, get. cbn beta iota.
  destruct e as [b| |b|b|t|n p c|f b|l|i a].
  1-6: apply (fun k : keeps same_passwords _ => k s); autounfold with login_steps; walk passwords_prim.
  - apply (fun k : keeps same_passwords _ => k s); walk passwords_prim.
  - apply (fun k : keeps same_passwords _ => k s); autounfold with login_steps; walk passwords_prim.
  - destruct (tasks s !! i) as [t|] eqn:Et; cbn [mbind option_bind]; [|reflexivity].
    destruct (resume tickets origin t a) as [m|] eqn:Em; [|reflexivity].
    apply (fun k : keeps same_passwords _ => k s). apply keeps_bind; [typeclasses eauto|intros ?; reflexivity|intros _].
    apply (resume_passwords t a m Em). intros ->. by apply (Hv i a).
Qed.

(** The request of a password. *)
Definition password_request (s : Login) (password : jsstr) : Effect :=
  LoginApi s.(f_name) password s.(f_captcha) s.(captcha).(captchaID) (s.(flag) source_ldap) s.(f_language).

Lemma login_validated_cases valid cookie random iv s :
  let s' := (login_validated valid cookie random iv s).2 in
  passwords s' = passwords s \/
  exists password, passwords s' = password_request s password :: passwords s /\ valid = true /\
    encryptPassword cookie random iv s.(f_password) = Some password /\
    (s.(flag) form_agreeLicense = true \/ exempt s = true) /\ (s.(flag) ignoreCaptcha = true \/ s.(f_captcha) <> []).
Proof.
  cbn zeta. unfold login_validated. destruct valid; [|by left]. cbn [negb].
  unfold bind, get, flagb, gets, skip, ret. destruct (exempt s) eqn:Ee.
  - set (s1 := (set form_agreeLicense true s).2). cbn [flag set modify with_flags snd fst Flag_beq negb].
    destruct (encryptPassword cookie random iv _) as [password|] eqn:Ep; [|by left].
    destruct (negb _ && _) eqn:Ec; [by left|]. right. exists password. split; [done|]. split; [done|]. split; [first [exact Ep|reflexivity]|].
    split; [by right|]. apply andb_false_iff in Ec as [Ec|Ec]; [left; by apply negb_false_iff in Ec|right; by apply streqb_neq in Ec].
  - cbn [fst snd]. destruct (flag s form_agreeLicense) eqn:Ea; cbn [negb]; [|destruct (flag s mobile); by left].
    destruct (encryptPassword cookie random iv _) as [password|] eqn:Ep; [|by left].
    destruct (negb _ && _) eqn:Ec; [by left|]. right. exists password. split; [done|]. split; [done|]. split; [first [exact Ep|reflexivity]|].
    split; [by left|]. apply andb_false_iff in Ec as [Ec|Ec]; [left; by apply negb_false_iff in Ec|right; by apply streqb_neq in Ec].
Qed.

(** What is sent for a password: it can be recovered with the private key of the panel when
    the cookie holds its public key, and is the password itself when the cookie holds none. *)
Definition sealed (cookie : jsstr) (random iv : list N) (plain sent : jsstr) : Prop :=
  let key := default [] (Http.getCookie cookie (js "panel_public_key")) in
  (key = [] -> sent = plain) /\
  (key <> [] -> plain <> [] -> random <> [] -> bytes random -> bytes iv -> forall public private,
     public_key cookie = Some public -> key_pair public private -> decryptPassword private sent = Some plain).

Lemma encrypt_sealed cookie random iv plain sent : encryptPassword cookie random iv plain = Some sent -> sealed cookie random iv plain sent.
Proof.
  intros E. split.
  - intros Hk. unfold encryptPassword in E. rewrite Hk in E. cbn [truthy negb] in E. destruct plain; by injection E as <-.
  - intros Hk Hp Hr Hb Hi public private Hpub Hpair.
    destruct (encryptPassword_recovered cookie random iv plain private Hp Hr Hb Hi) as (_ & Henc & _).
    destruct (proj2 (Henc Hk) public Hpub Hpair) as (text & E' & Hd). congruence.
Qed.

(** C9. A password leaves the page only after its form is validated and under a licence whose
    box is ticked, unless the edition needs none, and with a captcha unless none is needed; it leaves encrypted
    with the panel's public key when the cookie holds one, and as it is when the cookie holds
    none; with it goes the id the captcha shown came with. *)
Theorem password_request_guarded e s : passwords (step tickets origin s e) <> passwords s ->
  exists i cookie random iv password, e = Resume i (Validated true cookie random iv) /\
    s.(tasks) !! i = Some TValidate /\
    passwords (step tickets origin s e) = password_request s password :: passwords s /\
    encryptPassword cookie random iv s.(f_password) = Some password /\ sealed cookie random iv s.(f_password) password /\
    (s.(flag) form_agreeLicense = true \/ exempt s = true) /\ (s.(flag) ignoreCaptcha = true \/ s.(f_captcha) <> []).
Proof.
  intros Hne. assert (Hd : exists i a, e = Resume i a /\ s.(tasks) !! i = Some TValidate).
  { destruct e as [| | | | | | | |i a]; try (exfalso; apply Hne; apply handle_passwords; by intros ??).
    destruct (tasks s !! i) as [t|] eqn:Et.
    - destruct t; try (exfalso; apply Hne; apply handle_passwords; intros ?? [= <- <-]; congruence). by exists i, a.
    - exfalso; apply Hne; apply handle_passwords; intros ?? [= <- <-]; congruence. }
  destruct Hd as (i & a & -> & Ht). revert Hne. unfold step, handle, bind at 1 3, get. cbn beta iota.
  rewrite Ht. cbn [mbind option_bind].
  destruct a as [| |valid cookie random iv| | | | | | | | |]; cbn [resume]; try done.
  unfold bind, modify. intros Hne.
  destruct (login_validated_cases valid cookie random iv (with_tasks (delete i (tasks s)) s)) as [E|(p & E & -> & H1 & H2 & H3)];
    [done|]. exists i, cookie, random, iv, p. pose proof (encrypt_sealed _ _ _ _ _ H1). done.
Qed.

(** ** Tickets *)

Definition is_start (t : Task) : bool := match t with TSetting | TSettingLanguage _ => true | _ => false end.
Definition is_finish (e : Effect) : bool := match e with OidcFinishApi _ | Saml2FinishApi _ => true | _ => false end.
Definition finishes (s : Login) : list Effect := List.filter is_finish s.(effects).

(** What may still use the ticket, with the times it was used. *)
Definition uses (s : Login) : nat :=
  length (List.filter is_start s.(tasks)) + length (finishes s) + if s.(flag) mounted then 0 else 1.

(** The requests of a ticket use the one the page took. *)
Definition own_ticket (e : Effect) : Prop :=
  match e with
  | OidcFinishApi t => t = tickets.(oidcTicket) /\ t <> []
  | Saml2FinishApi t => t = tickets.(saml2Ticket) /\ t <> [] /\ tickets.(oidcTicket) = []
  | _ => True
  end.

Definition no_more_uses (s s' : Login) : Prop :=
  uses s' <= uses s /\ (Forall own_ticket s.(effects) -> Forall own_ticket s'.(effects)).
#[local] Instance no_more_uses_preorder : PreOrder no_more_uses.
Proof. split; [done|]. intros a b c [H1 H2] [H3 H4]. split; [lia|auto]. Qed.

Lemma uses_emit e : is_finish e = false -> keeps no_more_uses (emit e).
Proof.
  intros He s. split.
  - unfold uses, finishes. cbn [emit modify snd effects tasks flag with_effects List.filter]. by rewrite He.
  - intros Hs. constructor; [by destruct e|done].
Qed.

Lemma uses_await t : is_start t = false -> keeps no_more_uses (await t).
Proof.
  intros Ht s. split; [|done]. unfold uses, finishes. cbn [await modify snd effects tasks flag with_tasks].
  rewrite List.filter_app. cbn [List.filter]. by rewrite Ht, app_nil_r.
Qed.

Lemma uses_set f b : Flag_beq mounted f = false -> keeps no_more_uses (set f b).
Proof. intros Hf s. split; [|done]. unfold uses, finishes. cbn [set modify snd effects tasks flag with_flags]. by rewrite Hf. Qed.

Ltac uses_step :=
  idtac; lazymatch goal with
  | |- keeps _ (emit _) => apply uses_emit; reflexivity
  | |- keeps _ (await _) => apply uses_await; reflexivity
  | |- keeps _ (set _ _) => apply uses_set; reflexivity
  | |- keeps _ (completeLogin _ _) => unfold completeLogin
  | _ => intros ?; split; done
  end.

Lemma finally_uses f : keeps no_more_uses (finally_ tickets f).
Proof. unfold finally_. autounfold with login_steps. walk uses_step. Qed.

Ltac uses_prim := idtac; lazymatch goal with |- keeps _ (finally_ _ _) => apply finally_uses | _ => uses_step end.

(** One use more. *)
Definition one_more_use {A} (m : M Login A) : Prop :=
  forall s, uses (m s).2 <= S (uses s) /\ (Forall own_ticket s.(effects) -> Forall own_ticket (m s).2.(effects)).

Lemma one_more_bind {A B} (m : M Login A) (k : A -> M Login B) :
  keeps no_more_uses m -> (forall a, one_more_use (k a)) -> one_more_use (bind m k).
Proof.
  intros Hm Hk s. unfold bind. destruct (Hm s) as [H1 H2]. destruct (m s) as [a s1]. destruct (Hk a s1) as [H3 H4].
  split; [cbn [snd] in *; lia|auto].
Qed.

Lemma one_more_keeps {A} (m : M Login A) : keeps no_more_uses m -> one_more_use m.
Proof. intros Hm s. destruct (Hm s) as [H1 H2]. split; [lia|done]. Qed.

Lemma one_more_last {A} (m : M Login A) (k : A -> M Login unit) :
  one_more_use m -> (forall a, keeps no_more_uses (k a)) -> one_more_use (bind m k).
Proof.
  intros Hm Hk s. unfold bind. destruct (Hm s) as [H1 H2]. destruct (m s) as [a s1]. destruct (Hk a s1) as [H3 H4].
  split; [cbn [snd] in *; lia|auto].
Qed.

Lemma start_again t : one_more_use (await t).
Proof.
  intros s. split; [|done]. unfold uses, finishes. cbn [await modify snd effects tasks flag with_tasks].
  rewrite List.filter_app, length_app. cbn [List.filter]. destruct (is_start t); cbn [length]; lia.
Qed.

Lemma finish_emitted e : own_ticket e -> one_more_use (emit e).
Proof.
  intros He s. split; [|by constructor]. unfold uses, finishes. cbn [emit modify snd effects tasks flag with_effects List.filter].
  destruct (is_finish e); cbn [length]; lia.
Qed.

Lemma after_setting_uses : one_more_use (after_setting tickets).
Proof.
  unfold after_setting, finishOIDCLogin, finishSAML2Login. apply one_more_bind; [by intros ?|]. intros [|]; [|by apply one_more_keeps].
  destruct (truthy (pendingOIDCTicket tickets)) eqn:Eo; cbn [negb].
  - do 2 (apply one_more_bind; [walk uses_prim|intros _]). apply one_more_last; [|intros _; walk uses_prim].
    apply finish_emitted. split; [done|by apply truthy_true].
  - destruct (truthy (pendingSAML2Ticket tickets)) eqn:Es; cbn [negb].
    + do 2 (apply one_more_bind; [walk uses_prim|intros _]). apply one_more_last; [|intros _; walk uses_prim].
      unfold pendingSAML2Ticket in *. rewrite Eo in *. apply finish_emitted. split; [done|].
      split; [by apply truthy_true|by apply truthy_false].
    + apply one_more_keeps. autounfold with login_steps. walk uses_prim.
Qed.

Lemma resume_uses t a m : resume tickets origin t a = Some m ->
  if is_start t then one_more_use m else keeps no_more_uses m.
Proof.
  intros E. destruct t; cbn [is_start]; destruct a; cbn [resume] in E; try discriminate E; injection E as <-.
  all: lazymatch goal with |- one_more_use _ => idtac | _ => autounfold with login_steps; walk uses_prim end.
  - apply after_setting_uses.
  - unfold setting_loaded. apply one_more_bind; [walk uses_prim|intros _]. apply one_more_bind; [by intros ?|intros st].
    unfold handleCommand. apply one_more_bind; [walk uses_prim|intros _]. apply start_again.
  - apply after_setting_uses.
  - unfold setting_language. do 14 (apply one_more_bind; [solve [autounfold with login_steps; walk uses_prim]|intros ?]).
    apply after_setting_uses.
Qed.

Lemma filter_delete {A} (f : A -> bool) l i x : l !! i = Some x ->
  length (List.filter f (delete i l)) + (if f x then 1 else 0) = length (List.filter f l).
Proof.
  intros Hi. rewrite delete_take_drop. rewrite <- (take_drop_middle l i x Hi) at 3.
  rewrite !List.filter_app, !length_app. cbn [List.filter]. destruct (f x); cbn [length]; lia.
Qed.

Lemma mounted_hook_uses b s : s.(flag) mounted = false ->
  uses (mounted_hook b s).2 <= uses s /\ (Forall own_ticket s.(effects) -> Forall own_ticket (mounted_hook b s).2.(effects)).
Proof.
  intros Hs. split; [|intros Ho; by constructor]. unfold uses, finishes. rewrite Hs.
  unfold mounted_hook, bind, set, emit, await, modify. cbn [snd effects tasks flag with_flags with_tasks with_effects Flag_beq].
  cbn [List.filter is_finish]. rewrite List.filter_app, length_app. cbn [List.filter is_start length]. lia.
Qed.

Lemma handle_uses e s : no_more_uses s (step tickets origin s e).
Proof.
  unfold step, handle, bind at 1, get. cbn beta iota. destruct e as [b| |b|b|t|n p c|f b|l|i a].
  - destruct (flag s mounted) eqn:Em; [reflexivity|]. by apply mounted_hook_uses.
  - apply (fun k : keeps no_more_uses _ => k s). autounfold with login_steps. walk uses_prim.
  - apply (fun k : keeps no_more_uses _ => k s). autounfold with login_steps. walk uses_prim.
  - apply (fun k : keeps no_more_uses _ => k s). autounfold with login_steps. walk uses_prim.
  - apply (fun k : keeps no_more_uses _ => k s). autounfold with login_steps. walk uses_prim.
  - by split.
  - apply (fun k : keeps no_more_uses _ => k s). destruct f; cbn [is_input]; walk uses_prim.
  - apply (fun k : keeps no_more_uses _ => k s). autounfold with login_steps. walk uses_prim.
  - destruct (tasks s !! i) as [t|] eqn:Et; cbn [mbind option_bind]; [|reflexivity].
    destruct (resume tickets origin t a) as [m|] eqn:Em; [|reflexivity].
    pose proof (resume_uses t a m Em) as Hm. unfold bind, modify. set (s1 := with_tasks _ s).
    assert (H1 : uses s1 + (if is_start t then 1 else 0) = uses s).
    { unfold uses, finishes, s1. cbn [tasks effects flag with_tasks]. pose proof (filter_delete is_start _ _ _ Et). lia. }
    destruct (is_start t); destruct (Hm s1) as [H2 H3]; (split; [lia|exact H3]).
Qed.

(** The ticket a page is opened with is used once at most, whatever happens meanwhile, and
    of two tickets only that of OIDC. *)
Theorem ticket_used_once stores l : let s := run tickets origin stores l in
  length (finishes s) <= 1 /\ Forall own_ticket s.(effects).
Proof.
  cbn zeta. unfold run. set (s0 := initial stores).
  assert (Hinit : uses s0 <= 1 /\ Forall own_ticket s0.(effects)) by (split; [done|constructor]).
  assert (Hl : uses (fold_left (step tickets origin) l s0) <= 1 /\ Forall own_ticket (fold_left (step tickets origin) l s0).(effects)).
  { revert Hinit. generalize s0 as s. induction l as [|e l IH]; intros s [H1 H2]; [done|]. apply IH.
    destruct (handle_uses e s) as [H3 H4]. split; [lia|auto]. }
  split; [|apply Hl]. unfold uses in Hl. lia.
Qed.

(** ** The page that waits for a ticket *)

Definition completing (t : Task) : bool := match t with TChangeToLocal _ | TSyncAuth _ => true | _ => false end.
Definition awaits_ticket (t : Task) : bool :=
  match t with TSetting | TSettingLanguage _ | TOidcFinish | TSaml2Finish => true | _ => false end.
Definition is_ready (e : Effect) : bool := match e with ExternalLoginReady => true | _ => false end.
Definition is_home (e : Effect) : bool := match e with RouterToHome => true | _ => false end.

(** A session that was opened is being completed, or the page goes home. *)
Definition entered (s : Login) : bool := existsb is_home s.(effects) || existsb completing s.(tasks).
Definition released (s : Login) : bool :=
  existsb is_ready s.(effects) || entered s || negb (s.(flag) loginViewActive).

Definition waits (s : Login) : bool := existsb awaits_ticket s.(tasks).

(** What a step keeps once it holds. *)
Definition onward (s s' : Login) : Prop :=
  (entered s = true -> entered s' = true) /\ (released s = true -> released s' = true) /\
  (waits s = true -> waits s' = true) /\
  (s'.(flag) isLogin = true -> s.(flag) isLogin = true \/ entered s' = true) /\ s'.(flag) mounted = s.(flag) mounted.
#[local] Instance onward_preorder : PreOrder onward.
Proof.
  split; [by intros s; repeat split; auto|]. intros a b c (H1 & H2 & H3 & H4 & H5) (H6 & H7 & H8 & H9 & H10).
  repeat split; [auto..| |congruence]. intros Hc. destruct (H9 Hc) as [Hb|Hc']; [|by right].
  destruct (H4 Hb) as [Ha|Hb']; [by left|right; auto].
Qed.

Lemma onward_emit e : keeps onward (emit e).
Proof.
  intros s. unfold onward, entered, released, waits, entered. cbn [emit modify snd effects tasks flag with_effects existsb].
  repeat split; try tauto; rewrite ?orb_true_iff; tauto.
Qed.

Lemma onward_await t : keeps onward (await t).
Proof.
  intros s. unfold onward, released, waits, entered. cbn [await modify snd effects tasks flag with_tasks].
  rewrite !existsb_app. repeat split; try tauto; rewrite ?orb_true_iff; tauto.
Qed.

Lemma onward_set f b : Flag_beq isLogin f = false -> Flag_beq mounted f = false ->
  (Flag_beq loginViewActive f = true -> b = false) -> keeps onward (set f b).
Proof.
  intros H1 H2 H3 s. unfold onward, released, waits, entered. cbn [set modify snd effects tasks flag with_flags].
  rewrite H1, H2. repeat split; try tauto. destruct (Flag_beq loginViewActive f); [|done]. rewrite H3 by done.
  intros _. apply orb_true_r.
Qed.

Lemma onward_complete f r : keeps onward (completeLogin f r).
Proof.
  intros s. unfold completeLogin, bind, set, emit, await, modify, onward, released, waits, entered.
  cbn [snd effects tasks flag with_flags with_tasks with_effects Flag_beq existsb is_home is_ready orb].
  rewrite !existsb_app. cbn [existsb completing awaits_ticket]. rewrite !orb_true_r. repeat split; auto.
  intros ->. by rewrite orb_true_l.
Qed.

Ltac onward_step :=
  idtac; lazymatch goal with
  | |- keeps _ (emit _) => apply onward_emit
  | |- keeps _ (await _) => apply onward_await
  | |- keeps _ (set _ _) => apply onward_set; [reflexivity|reflexivity|try discriminate; reflexivity]
  | |- keeps _ (completeLogin _ _) => apply onward_complete
  | _ => intros ?; by repeat split; auto
  end.

Lemma onward_finally f : keeps onward (finally_ tickets f).
Proof. unfold finally_. autounfold with login_steps. walk onward_step. Qed.

Ltac onward_prim := idtac; lazymatch goal with |- keeps _ (finally_ _ _) => apply onward_finally | _ => onward_step end.

Lemma resume_onward t a m : resume tickets origin t a = Some m -> awaits_ticket t || completing t = false -> keeps onward m.
Proof.
  intros E Ht. destruct t; try discriminate Ht; destruct a; cbn [resume] in E; try discriminate E; injection E as <-.
  all: autounfold with login_steps; walk onward_prim.
Qed.

(** A session is entered once it is open. *)
Definition login_entered (s : Login) : Prop := s.(flag) isLogin = true -> entered s = true.

Lemma onward_login s s' : onward s s' -> login_entered s -> login_entered s'.
Proof. intros (H1 & _ & _ & H2 & _) Hs Hl. destruct (H2 Hl) as [H3|H3]; auto. Qed.

(** A handler after which the page still waits or is released. *)
Definition settles {A} (m : M Login A) : Prop :=
  forall s, login_entered s -> login_entered (m s).2 /\ waits (m s).2 || released (m s).2 = true /\
    (m s).2.(flag) mounted = s.(flag) mounted.

Lemma settles_then {A B} (m : M Login A) (k : A -> M Login B) :
  settles m -> (forall a, keeps onward (k a)) -> settles (bind m k).
Proof.
  intros Hm Hk s Hs. unfold bind. destruct (Hm s Hs) as (H1 & H2 & H3). destruct (m s) as [a s1]. cbn [snd] in *.
  pose proof (Hk a s1) as Hk1. split; [by apply (onward_login s1)|]. destruct Hk1 as (_ & H4 & H5 & _ & H6).
  split; [|congruence]. apply orb_true_iff in H2 as [H2|H2]; [rewrite H5|rewrite H4]; auto using orb_true_r.
Qed.

Lemma then_settles {A B} (m : M Login A) (k : A -> M Login B) :
  keeps onward m -> (forall a, settles (k a)) -> settles (bind m k).
Proof.
  intros Hm Hk s Hs. unfold bind. pose proof (Hm s) as H1. destruct (m s) as [a s1]. cbn [snd] in *.
  destruct (Hk a s1) as (H2 & H3 & H4); [by apply (onward_login s)|]. split; [done|]. split; [done|].
  destruct H1 as (_ & _ & _ & _ & H1). congruence.
Qed.

Lemma settles_waits t : awaits_ticket t = true -> settles (await t).
Proof.
  intros Ht s Hs. split; [apply (onward_login s); [apply onward_await|done]|]. split; [|done].
  unfold waits. cbn [await modify snd tasks with_tasks]. rewrite existsb_app. cbn [existsb]. by rewrite Ht, orb_true_r.
Qed.

Lemma settles_emit e : is_ready e || is_home e = true -> settles (emit e).
Proof.
  intros He s Hs. split; [apply (onward_login s); [apply onward_emit|done]|]. split; [|done].
  unfold released, entered. cbn [emit modify snd effects with_effects existsb].
  apply orb_true_iff in He as [-> | ->]; rewrite ?orb_true_r; cbn [orb]; by rewrite ?orb_true_r.
Qed.

Lemma settles_completing t : completing t = true -> settles (await t).
Proof.
  intros Ht s Hs. split; [apply (onward_login s); [apply onward_await|done]|]. split; [|done].
  unfold released, entered. cbn [await modify snd tasks with_tasks]. rewrite existsb_app. cbn [existsb].
  by rewrite Ht, !orb_true_r.
Qed.

Lemma settles_complete f r : settles (completeLogin f r).
Proof.
  intros s Hs. split; [apply (onward_login s); [apply onward_complete|done]|]. split; [|done].
  unfold completeLogin, bind, set, emit, await, modify, released, entered.
  cbn [snd tasks with_flags with_tasks with_effects]. rewrite existsb_app. cbn [existsb completing]. by rewrite !orb_true_r.
Qed.

Hypothesis Hpending : hasPendingExternalTicket tickets = true.

Lemma settles_after_ticket : settles (after_ticket tickets).
Proof.
  unfold after_ticket. rewrite Hpending. apply settles_then; [|intros _; autounfold with login_steps; walk onward_prim].
  intros s Hs. unfold bind, flagb, gets. destruct (flag s isLogin) eqn:El.
  - split; [done|]. split; [|done]. unfold released. cbn [skip ret snd]. rewrite (Hs El). by rewrite !orb_true_r.
  - by apply settles_emit.
Qed.

Lemma settles_finally f : f = FOidc \/ f = FSaml2 -> settles (finally_ tickets f).
Proof.
  intros Hf. unfold finally_. do 2 (apply then_settles; [walk onward_prim; by destruct Hf as [->| ->]|intros _]).
  destruct Hf as [->| ->]; apply settles_after_ticket.
Qed.

Lemma settles_active m : settles m -> settles (IF loginViewActive THEN m ELSE skip).
Proof.
  intros Hm s Hs. unfold bind, flagb, gets. destruct (flag s loginViewActive) eqn:Ea; [exact (Hm s Hs)|].
  split; [done|]. split; [|done]. unfold released. cbn [skip ret snd]. rewrite Ea. cbn [negb]. by rewrite !orb_true_r.
Qed.

Lemma settles_after_setting : settles (after_setting tickets).
Proof.
  unfold after_setting. apply settles_active. unfold finishOIDCLogin, finishSAML2Login.
  destruct (truthy (pendingOIDCTicket tickets)) eqn:Eo; cbn [negb].
  - do 3 (apply then_settles; [walk onward_prim|intros _]). by apply settles_waits.
  - destruct (truthy (pendingSAML2Ticket tickets)) eqn:Es; cbn [negb]; [|apply settles_after_ticket].
    do 3 (apply then_settles; [walk onward_prim|intros _]). by apply settles_waits.
Qed.

Lemma settles_result f r : f = FOidc \/ f = FSaml2 -> settles (handleLoginResult tickets f r).
Proof.
  intros Hf. unfold handleLoginResult. destruct (_ === _); [|apply settles_complete].
  do 4 (apply then_settles; [walk onward_prim|intros _]). by apply settles_finally.
Qed.

Definition rejected_answer (a : Answer) : bool := match a with Rejected _ => true | _ => false end.
Definition is_sync (t : Task) : bool := match t with TSyncAuth _ => true | _ => false end.

Lemma resume_settles t a m : resume tickets origin t a = Some m -> awaits_ticket t = true -> settles m.
Proof.
  intros E Ht. destruct t; try discriminate Ht; destruct a; cbn [resume] in E; try discriminate E; injection E as <-.
  - (* TOidcFinish *) apply then_settles; [|intros _; apply settles_finally; auto]. walk onward_prim.
  - apply then_settles; [walk onward_prim|intros _; apply settles_result; auto].
  - (* TSaml2Finish *) apply then_settles; [|intros _; apply settles_finally; auto]. walk onward_prim.
  - apply then_settles; [walk onward_prim|intros _; apply settles_result; auto].
  - (* TSetting *) apply settles_after_setting.
  - unfold setting_loaded. apply then_settles; [walk onward_prim|intros _]. apply then_settles; [walk onward_prim|intros st].
    unfold handleCommand. apply then_settles; [walk onward_prim|intros _]. by apply settles_waits.
  - (* TSettingLanguage *) apply settles_after_setting.
  - unfold setting_language. do 14 (apply then_settles; [solve [autounfold with login_steps; walk onward_prim]|intros ?]).
    apply settles_after_setting.
Qed.

Lemma resume_enters t a m s : resume tickets origin t a = Some m -> completing t = true ->
  is_sync t && rejected_answer a = false -> entered (m s).2 = true /\ (m s).2.(flag) mounted = s.(flag) mounted.
Proof.
  intros E Ht Hs. destruct t; try discriminate Ht; destruct a; cbn [resume] in E; try discriminate E; try discriminate Hs;
    injection E as <-; (split; [|reflexivity]); unfold entered.
  - unfold bind, emit, await, modify. cbn [snd effects tasks with_tasks with_effects].
    rewrite existsb_app. cbn [existsb completing]. by rewrite !orb_true_r.
  - reflexivity.
Qed.

(** ** Runs *)

(** A run in which no answer of syncAuthInfo is an error. *)
Definition synced_event (s : Login) (e : Event) : bool :=
  match e with
  | Resume i a => match s.(tasks) !! i with Some t => negb (is_sync t && rejected_answer a) | None => true end
  | _ => true
  end.
Fixpoint synced (l : list Event) (s : Login) : bool :=
  match l with [] => true | e :: l' => synced_event s e && synced l' (step tickets origin s e) end.

(** A mounted page waits for its ticket or is released, and an open session is entered. *)
Definition ticket_ok (s : Login) : Prop :=
  login_entered s /\ (s.(flag) mounted = true -> waits s || released s = true).

Lemma onward_ok s s' : onward s s' -> ticket_ok s -> ticket_ok s'.
Proof.
  intros Ho [H1 H2]. split; [by apply (onward_login s)|]. destruct Ho as (_ & H3 & H4 & _ & ->). intros Hm.
  specialize (H2 Hm). apply orb_true_iff in H2 as [H5|H5]; [rewrite H4|rewrite H3]; auto using orb_true_r.
Qed.

Lemma existsb_delete {A} (f : A -> bool) l i x : l !! i = Some x -> f x = false -> existsb f (delete i l) = existsb f l.
Proof.
  intros Hi Hx. rewrite delete_take_drop. rewrite <- (take_drop_middle l i x Hi) at 3. rewrite !existsb_app. cbn [existsb]. by rewrite Hx.
Qed.

Lemma removed_onward s i t : s.(tasks) !! i = Some t -> awaits_ticket t || completing t = false ->
  onward s (with_tasks (delete i s.(tasks)) s).
Proof.
  intros Hi [H1 H2]%orb_false_iff. unfold onward, released, waits, entered. cbn [tasks effects flag with_tasks].
  rewrite !(existsb_delete _ _ _ _ Hi) by done. repeat split; auto.
Qed.

(** Removing a task that waits leaves an open session entered, or it was being completed. *)
Lemma removed_entered s i t : s.(tasks) !! i = Some t -> completing t = false -> login_entered s ->
  login_entered (with_tasks (delete i s.(tasks)) s).
Proof.
  intros Hi Ht Hs Hl. specialize (Hs Hl). revert Hs. unfold entered. cbn [tasks effects with_tasks].
  by rewrite (existsb_delete _ _ _ _ Hi).
Qed.

Lemma step_ticket_ok s e : synced_event s e = true -> ticket_ok s -> ticket_ok (step tickets origin s e).
Proof.
  intros He Hs. unfold step, handle, bind at 1, get. cbn beta iota. destruct e as [b| |b|b|t|n p c|f b|l|i a].
  - destruct (flag s mounted) eqn:Em; [done|]. destruct Hs as [Hs _]. split.
    + intros Hl. specialize (Hs Hl). revert Hs. unfold entered. cbn.
      rewrite existsb_app, !orb_true_iff. tauto.
    + intros _. apply orb_true_iff. left. unfold waits. cbn. rewrite existsb_app. cbn. by rewrite orb_true_r.
  - apply (onward_ok s); [|done]. apply (fun k : keeps onward _ => k s). autounfold with login_steps. walk onward_prim.
  - apply (onward_ok s); [|done]. apply (fun k : keeps onward _ => k s). autounfold with login_steps. walk onward_prim.
  - apply (onward_ok s); [|done]. apply (fun k : keeps onward _ => k s). autounfold with login_steps. walk onward_prim.
  - apply (onward_ok s); [|done]. apply (fun k : keeps onward _ => k s). autounfold with login_steps. walk onward_prim.
  - done.
  - apply (onward_ok s); [|done]. apply (fun k : keeps onward _ => k s). destruct f; cbn [is_input]; walk onward_prim.
  - apply (onward_ok s); [|done]. apply (fun k : keeps onward _ => k s). autounfold with login_steps. walk onward_prim.
  - destruct (tasks s !! i) as [t|] eqn:Et; cbn [mbind option_bind]; [|done].
    destruct (resume tickets origin t a) as [m|] eqn:Em; [|done]. unfold bind, modify.
    set (s1 := with_tasks _ s). cbn [synced_event] in He. rewrite Et in He. apply negb_true_iff in He.
    destruct (completing t) eqn:Ec.
    + destruct (resume_enters t a m s1 Em Ec He) as [H1 H2]. split; [by intros _|]. intros _. unfold released.
      rewrite H1. by rewrite !orb_true_r.
    + destruct (awaits_ticket t) eqn:Ea.
      * destruct (resume_settles t a m Em Ea s1) as (H1 & H2 & H3); [|by split].
        destruct Hs as [Hs _]. by apply (removed_entered s i t).
      * apply (onward_ok s1); [by apply (resume_onward t a m Em); rewrite Ea, Ec|].
        apply (onward_ok s); [|done]. apply (removed_onward s i t Et). by rewrite Ea, Ec.
Qed.

(** C11. A page opened with a ticket does not stay behind its curtain: once the settings and the
    ticket have their answers, whichever they are, and no session is being completed, the
    form is shown, the page went home or it is gone; provided the rights of a new session
    could be read. *)
Theorem ticket_page_settles stores l : stores isLogin = false -> synced l (initial stores) = true ->
  let s := run tickets origin stores l in
  s.(flag) mounted = true -> existsb (fun t => awaits_ticket t || completing t) s.(tasks) = false ->
  ExternalLoginReady ∈ s.(effects) \/ RouterToHome ∈ s.(effects) \/ s.(flag) loginViewActive = false.
Proof.
  intros Hst Hr. cbn zeta.
  assert (Hs : ticket_ok (run tickets origin stores l)).
  { assert (Hinit : ticket_ok (initial stores)) by (split; [intros Hl; cbn in Hl; congruence|done]).
    unfold run. revert Hr Hinit. generalize (initial stores) as s. induction l as [|e l IH]; intros s Hr Hs; [done|].
    cbn [synced] in Hr. apply andb_true_iff in Hr as [He Hr]. apply IH; [done|]. by apply step_ticket_ok. }
  generalize dependent (run tickets origin stores l). intros s Hs Hm Ht.
  destruct Hs as [_ Hs]. specialize (Hs Hm).
  assert (Hn : existsb awaits_ticket s.(tasks) = false /\ existsb completing s.(tasks) = false).
  { revert Ht. induction (tasks s) as [|t ts IH]; [done|]. cbn [existsb]. rewrite !orb_false_iff. tauto. }
  destruct Hn as [H1 H2]. unfold waits, released, entered in Hs. rewrite H1, H2, orb_false_r in Hs. cbn [orb] in Hs.
  apply orb_true_iff in Hs as [Hs|Hs]; [apply orb_true_iff in Hs as [Hs|Hs]|].
  - left. apply existsb_elem in Hs as ([] & Hin & He); done.
  - right. left. apply existsb_elem in Hs as ([] & Hin & He); done.
  - right. right. by apply negb_true_iff in Hs.
Qed.

(** ** A page that is busy *)

Definition is_login_request (e : Effect) : bool :=
  match e with LoginApi _ _ _ _ _ _ | MfaLoginApi _ _ | PasskeyBeginApi | OidcBeginApi | Saml2BeginApi => true | _ => false end.

Definition idle_requests (s s' : Login) : Prop := s.(flag) isLoggingIn = true ->
  s'.(flag) isLoggingIn = true /\ List.filter is_login_request s'.(effects) = List.filter is_login_request s.(effects).
#[local] Instance idle_requests_preorder : PreOrder idle_requests.
Proof. split; [by intros s|]. intros a b c H1 H2 Ha. destruct (H1 Ha) as [Hb E1]. destruct (H2 Hb) as [Hc E2]. split; [done|congruence]. Qed.

Ltac guarded h := intros s Hs; unfold h, bind, get; rewrite Hs, ?orb_true_r; done.
Lemma login_idle : keeps idle_requests login.
Proof. guarded @login. Qed.
Lemma mfaLogin_idle b : keeps idle_requests (mfaLogin b).
Proof. guarded @mfaLogin. Qed.
Lemma passkeyLogin_idle : keeps idle_requests passkeyLogin.
Proof. guarded @passkeyLogin. Qed.
Lemma beginOIDC_idle : keeps idle_requests beginOIDCLogin.
Proof. guarded @beginOIDCLogin. Qed.
Lemma beginSAML2_idle : keeps idle_requests beginSAML2Login.
Proof. guarded @beginSAML2Login. Qed.

Ltac idle_prim :=
  idtac; lazymatch goal with
  | |- keeps _ login => apply login_idle
  | |- keeps _ (mfaLogin _) => apply mfaLogin_idle
  | |- keeps _ passkeyLogin => apply passkeyLogin_idle
  | |- keeps _ beginOIDCLogin => apply beginOIDC_idle
  | |- keeps _ beginSAML2Login => apply beginSAML2_idle
  | _ => intros ? ?; by split
  end.

(** While a login is under way nothing the user does starts another. *)
Theorem busy_page_starts_nothing s e : s.(flag) isLoggingIn = true ->
  (forall i a, e <> Resume i a) -> (forall b, e <> Mount b) ->
  (step tickets origin s e).(flag) isLoggingIn = true /\
  List.filter is_login_request (step tickets origin s e).(effects) = List.filter is_login_request s.(effects).
Proof.
  intros Hs He Hm. revert Hs. change (idle_requests s (step tickets origin s e)).
  unfold step, handle, bind at 1, get. cbn beta iota.
  destruct e as [b| |b|b|t|n p c|f b|l|i a]; [by destruct (Hm b)|..|by destruct (He i a)].
  all: apply (fun k : keeps idle_requests _ => k s).
  all: unfold clicked, agreeWithLogin, loginKeydownHandler, switchToPasswordLogin, switchToLDAPLogin, switchToLocalLogin,
    clearLoginKeydownHandler, handleCommand, loginVerify, skip, flagb.
  all: try (destruct f; cbn [is_input]); walk idle_prim.
Qed.
End Proofs.

(** ** Witnesses *)

Lemma no_session_without_grant_witness :
  exists l1 i a l2 t, sample_events = l1 ++ Resume i a :: l2 /\
    (fold_left (step no_ticket (js "https://panel")) l1 (initial empty_page)).(tasks) !! i = Some t /\ grants t a = true.
Proof. apply (no_session_without_grant no_ticket (js "https://panel")); vm_compute; reflexivity. Defined.

(** The key of the panel is in the cookie: the password is recovered with the private one. *)
Definition key_cookie : jsstr := js "a=b; panel_public_key=%22a2V5%22".
Definition validated : Answer := Validated true key_cookie (repeat 200%N 16) (repeat 7%N 16).

Lemma password_request_guarded_witness :
  let s := sample_run (take 7 sample_events) in
  exists password, passwords (step no_ticket (js "https://panel") s (Resume 0 validated)) = password_request s password :: passwords s /\
    password <> s.(f_password) /\ decryptPassword [] password = Some s.(f_password) /\ (s.(flag) ignoreCaptcha = true \/ s.(f_captcha) <> []).
Proof.
  cbv zeta.
  destruct (password_request_guarded no_ticket (js "https://panel") (Resume 0 validated) (sample_run (take 7 sample_events)))
    as (i & c & r & v & p & H1 & _ & H2 & H3 & [_ Hs] & _ & H4).
  - vm_compute. intros E. discriminate E.
  - injection H1 as <- <- <- <-. exists p. split; [exact H2|]. split; [|split; [|exact H4]].
    + intros ->. vm_compute in H3. discriminate H3.
    + apply (Hs ltac:(vm_compute; discriminate) ltac:(vm_compute; discriminate) ltac:(discriminate)
        ltac:(repeat constructor) ltac:(repeat constructor) (js "key") []); [vm_compute; reflexivity|exact I].
Defined.

(** The page is opened with a ticket, and the ticket signs in. *)
Definition ticket_events : list Event :=
  [ Mount true; Resume 0 (SettingAnswer (sample_setting true false)); Resume 0 (Locale (js "en"));
    Resume 0 (LoginAnswer granted_login); Resume 0 Done; Resume 0 Done ].
Definition ticket_run := run one_ticket (js "https://panel") empty_page.

Lemma ticket_page_settles_witness :
  ExternalLoginReady ∈ (ticket_run ticket_events).(effects) \/ RouterToHome ∈ (ticket_run ticket_events).(effects) \/
  (ticket_run ticket_events).(flag) loginViewActive = false.
Proof. apply (ticket_page_settles one_ticket (js "https://panel")); vm_compute; reflexivity. Defined.

Lemma busy_page_starts_nothing_witness :
  let s := sample_run (take 8 sample_events) in
  List.filter is_login_request (step no_ticket (js "https://panel") s (Click BLogin)).(effects) =
  List.filter is_login_request s.(effects).
Proof.
  cbv zeta. apply (busy_page_starts_nothing no_ticket (js "https://panel") (sample_run (take 8 sample_events)) (Click BLogin)).
  - vm_compute. reflexivity.
  - discriminate.
  - discriminate.
Defined.

(** The rights of the new session cannot be read: the store holds a session, and the page
    neither goes home nor shows its form, with nothing left to wait for. *)
Lemma failed_sync_strands_page :
  let s := ticket_run (take 5 ticket_events ++ [Resume 0 (Rejected {| code := Some 500%Z; message := [] |})]) in
  s.(flag) isLogin = true /\ s.(tasks) = [] /\ s.(flag) loginViewActive = true /\
  ~ ExternalLoginReady ∈ s.(effects) /\ ~ RouterToHome ∈ s.(effects).
Proof.
  cbv zeta. split; [vm_compute; reflexivity|]. split; [vm_compute; reflexivity|]. split; [vm_compute; reflexivity|].
  assert (Hn : forall e, (is_ready e || is_home e = true) ->
    ~ e ∈ (ticket_run (take 5 ticket_events ++ [Resume 0 (Rejected {| code := Some 500%Z; message := [] |})])).(effects)).
  { intros e He Hin. assert (Hf : existsb (fun e => is_ready e || is_home e)
      (ticket_run (take 5 ticket_events ++ [Resume 0 (Rejected {| code := Some 500%Z; message := [] |})])).(effects) = true)
      by (apply existsb_elem; by exists e). vm_compute in Hf. discriminate Hf. }
  split; by apply Hn.
Qed.
