(* ===== verification/NginxMode.v ===== *)
(** * The nginx mode of the editor

    src/frontend/src/components/codemirror-pro/nginx.ts: the stream parser that colours and
    indents nginx configurations.  The StringStream of CodeMirror is a class: each method
    takes units from the front of what is left of the line and adds them to the current
    token.  The variable [type] of the module is a part of what a call returns, as every
    call sets it first. *)

From S2P Require Import Prelude JsString Splitting.

#[local] Open Scope list_scope.

(** ** Words *)

(** words(str): the keys of the object. *)
Definition words (str : jsstr) : list jsstr := split 32 str.

Definition keywords_text : jsstr :=
  js "break return rewrite set accept_mutex accept_mutex_delay access_log add_after_body add_before_body add_header " ++
  js "addition_types aio alias allow ancient_browser ancient_browser_value auth_basic auth_basic_user_file auth_http " ++
  js "auth_http_header auth_http_timeout autoindex autoindex_exact_size autoindex_localtime charset charset_types " ++
  js "client_body_buffer_size client_body_in_file_only client_body_in_single_buffer client_body_temp_path " ++
  js "client_body_timeout client_header_buffer_size client_header_timeout client_max_body_size connection_pool_size " ++
  js "create_full_put_path daemon dav_access dav_methods debug_connection debug_points default_type degradation " ++
  js "degrade deny devpoll_changes devpoll_events directio directio_alignment empty_gif env epoll_events error_log " ++
  js "eventport_events expires fastcgi_bind fastcgi_buffer_size fastcgi_buffers fastcgi_busy_buffers_size " ++
  js "fastcgi_cache fastcgi_cache_key fastcgi_cache_methods fastcgi_cache_min_uses fastcgi_cache_path " ++
  js "fastcgi_cache_use_stale fastcgi_cache_valid fastcgi_catch_stderr fastcgi_connect_timeout fastcgi_hide_header " ++
  js "fastcgi_ignore_client_abort fastcgi_ignore_headers fastcgi_index fastcgi_intercept_errors " ++
  js "fastcgi_max_temp_file_size fastcgi_next_upstream fastcgi_param fastcgi_pass_header fastcgi_pass_request_body " ++
  js "fastcgi_pass_request_headers fastcgi_read_timeout fastcgi_send_lowat fastcgi_send_timeout " ++
  js "fastcgi_split_path_info fastcgi_store fastcgi_store_access fastcgi_temp_file_write_size fastcgi_temp_path " ++
  js "fastcgi_upstream_fail_timeout fastcgi_upstream_max_fails flv geoip_city geoip_country google_perftools_profiles " ++
  js "gzip gzip_buffers gzip_comp_level gzip_disable gzip_hash gzip_http_version gzip_min_length gzip_no_buffer " ++
  js "gzip_proxied gzip_static gzip_types gzip_vary gzip_window if_modified_since ignore_invalid_headers image_filter " ++
  js "image_filter_buffer image_filter_jpeg_quality image_filter_transparency imap_auth imap_capabilities " ++
  js "imap_client_buffer index ip_hash keepalive_requests keepalive_timeout kqueue_changes kqueue_events " ++
  js "large_client_header_buffers limit_conn limit_conn_log_level limit_rate limit_rate_after limit_req " ++
  js "limit_req_log_level limit_req_zone limit_zone lingering_time lingering_timeout lock_file log_format " ++
  js "log_not_found log_subrequest map_hash_bucket_size map_hash_max_size master_process memcached_bind " ++
  js "memcached_buffer_size memcached_connect_timeout memcached_next_upstream memcached_read_timeout " ++
  js "memcached_send_timeout memcached_upstream_fail_timeout memcached_upstream_max_fails merge_slashes " ++
  js "min_delete_depth modern_browser modern_browser_value msie_padding msie_refresh multi_accept open_file_cache " ++
  js "open_file_cache_errors open_file_cache_events open_file_cache_min_uses open_file_cache_valid open_log_file_cache " ++
  js "output_buffers override_charset perl perl_modules perl_require perl_set pid pop3_auth pop3_capabilities " ++
  js "port_in_redirect postpone_gzipping postpone_output protocol proxy proxy_bind proxy_buffer proxy_buffer_size " ++
  js "proxy_buffering proxy_buffers proxy_busy_buffers_size proxy_cache proxy_cache_key proxy_cache_methods " ++
  js "proxy_cache_min_uses proxy_cache_path proxy_cache_use_stale proxy_cache_valid proxy_connect_timeout " ++
  js "proxy_headers_hash_bucket_size proxy_headers_hash_max_size proxy_hide_header proxy_ignore_client_abort " ++
  js "proxy_ignore_headers proxy_intercept_errors proxy_max_temp_file_size proxy_method proxy_next_upstream " ++
  js "proxy_pass_error_message proxy_pass_header proxy_pass_request_body proxy_pass_request_headers proxy_read_timeout " ++
  js "proxy_redirect proxy_send_lowat proxy_send_timeout proxy_set_body proxy_set_header proxy_ssl_session_reuse " ++
  js "proxy_store proxy_store_access proxy_temp_file_write_size proxy_temp_path proxy_timeout " ++
  js "proxy_upstream_fail_timeout proxy_upstream_max_fails random_index read_ahead real_ip_header " ++
  js "recursive_error_pages request_pool_size reset_timedout_connection resolver resolver_timeout rewrite_log " ++
  js "rtsig_overflow_events rtsig_overflow_test rtsig_overflow_threshold rtsig_signo satisfy secure_link_secret " ++
  js "send_lowat send_timeout sendfile sendfile_max_chunk server_name_in_redirect server_names_hash_bucket_size " ++
  js "server_names_hash_max_size server_tokens set_real_ip_from smtp_auth smtp_capabilities smtp_client_buffer " ++
  js "smtp_greeting_delay so_keepalive source_charset ssi ssi_ignore_recycled_buffers ssi_min_file_chunk " ++
  js "ssi_silent_errors ssi_types ssi_value_length ssl ssl_certificate ssl_certificate_key ssl_ciphers " ++
  js "ssl_client_certificate ssl_crl ssl_dhparam ssl_engine ssl_prefer_server_ciphers ssl_protocols ssl_session_cache " ++
  js "ssl_session_timeout ssl_verify_client ssl_verify_depth starttls stub_status sub_filter sub_filter_once " ++
  js "sub_filter_types tcp_nodelay tcp_nopush thread_stack_size timeout timer_resolution types_hash_bucket_size " ++
  js "types_hash_max_size underscores_in_headers uninitialized_variable_warn use user userid userid_domain " ++
  js "userid_expires userid_mark userid_name userid_p3p userid_path userid_service valid_referers " ++
  js "variables_hash_bucket_size variables_hash_max_size worker_connections worker_cpu_affinity worker_priority " ++
  js "worker_processes worker_rlimit_core worker_rlimit_nofile worker_rlimit_sigpending worker_threads " ++
  js "working_directory xclient xml_entities xslt_stylesheet xslt_typesdrew@li229-23".
Definition keywords : list jsstr := words keywords_text.
Definition keywords_block : list jsstr := words (js "http mail events server types location upstream charset_map limit_except if geo map").
Definition keywords_important : list jsstr :=
  words (js "include root server server_name listen internal proxy_pass memcached_pass fastcgi_pass try_files").

(** ** The stream *)

Class StringStream := {
  stream : Type;
  current : stream -> jsstr;                      (* the token so far *)
  rest : stream -> jsstr;                         (* what is left of the line *)
  next : stream -> option N * stream;
  eat : N -> stream -> bool * stream;
  eatWhile : (N -> bool) -> stream -> stream;
  eatSpace : stream -> bool * stream;
  skipToEnd : stream -> stream;
  match_prefix : (jsstr -> nat) -> stream -> stream;   (* match(/^.../), by the length of the match *)
  begin_token : stream -> stream;                 (* what the editor does before each token *)
  takes (n : nat) (s s' : stream) : Prop := current s' = current s ++ take n (rest s) /\ rest s' = drop n (rest s);
  next_law s : match rest s with
               | [] => next s = (None, s)
               | c :: _ => (next s).1 = Some c /\ takes 1 s (next s).2
               end;
  eat_law c s : match rest s with
                | d :: _ => if (d =? c)%N then (eat c s).1 = true /\ takes 1 s (eat c s).2 else eat c s = (false, s)
                | [] => eat c s = (false, s)
                end;
  eatWhile_law p s : exists n, takes n s (eatWhile p s) /\ forallb p (take n (rest s)) = true /\
    match drop n (rest s) with c :: _ => p c = false | [] => True end;
  eatSpace_law s : exists n, takes n s (eatSpace s).2 /\ ((eatSpace s).1 = true <-> n <> 0) /\ n <= length (rest s) /\
    forallb is_ws (take n (rest s)) = true /\ match drop n (rest s) with c :: _ => is_ws c = false | [] => True end;
  skipToEnd_law s : takes (length (rest s)) s (skipToEnd s);
  match_law f s : takes (f (rest s)) s (match_prefix f s);
  begin_law s : current (begin_token s) = [] /\ rest (begin_token s) = rest s;
}.

(** ** Tokens *)

(** state.tokenize *)
Inductive Tokenize := TokenBase | TokenSGMLComment | TokenString (quote : N).

Record NgxState := { tokenize : Tokenize; baseIndent : Z; stack : list jsstr }.   (* the top of the stack first *)

Definition is_word (c : N) : bool := is_lower c || is_upper c || is_digit c || (c =? 95)%N.
Definition directive_unit (c : N) : bool := is_word c || (c =? 36)%N.                 (* [\w\$_] *)
Definition name_unit (c : N) : bool := is_word c || (c =? 92)%N || (c =? 45)%N.       (* [\w\\\-] *)
Definition number_unit (c : N) : bool := is_word c || (c =? 46)%N || (c =? 37)%N.     (* [\w.%] *)
Definition operator_unit (c : N) : bool := existsb (N.eqb c) (js ",.+>*/").
Definition bracket_unit (c : N) : bool := existsb (N.eqb c) (js ";{}:[]").

(** The length of a match of [\s*\w*]. *)
Fixpoint span (p : N -> bool) (s : jsstr) : nat := match s with c :: s' => if p c then S (span p s') else 0 | [] => 0 end.
Definition space_word (s : jsstr) : nat := span is_ws s + span is_word (drop (span is_ws s) s).

(** A style, and the type [ret] leaves. *)
Definition Style := option jsstr.
Definition Result {stream : Type} : Type := stream * Tokenize * Style * option jsstr.

Section Tokens.
Context `{StringStream}.

(** The loop of tokenSGMLComment, over what is left of the line. *)
Fixpoint sgml_loop (fuel dashes : nat) (s : stream) : stream * Tokenize :=
  match fuel with
  | O => (s, TokenSGMLComment)
  | S fuel =>
      match next s with
      | (None, s) => (s, TokenSGMLComment)
      | (Some ch, s) =>
          if (2 <=? dashes)%nat && (ch =? 62)%N then (s, TokenBase)
          else sgml_loop fuel (if (ch =? 45)%N then S dashes else 0) s
      end
  end.
Definition tokenSGMLComment (s : stream) : Result :=
  let '(s, t) := sgml_loop (S (length (rest s))) 0 s in (s, t, Some (js "comment"), Some (js "comment")).

(** The loop of tokenString: whether it ends escaped. *)
Fixpoint string_loop (fuel : nat) (quote : N) (escaped : bool) (s : stream) : stream * bool :=
  match fuel with
  | O => (s, escaped)
  | S fuel =>
      match next s with
      | (None, s) => (s, escaped)
      | (Some ch, s) =>
          if (ch =? quote)%N && negb escaped then (s, escaped)
          else string_loop fuel quote (negb escaped && (ch =? 92)%N) s
      end
  end.
Definition tokenString (quote : N) (s : stream) : Result :=
  let '(s, escaped) := string_loop (S (length (rest s))) quote false s in
  (s, if escaped then TokenString quote else TokenBase, Some (js "string"), Some (js "string")).

Definition is_ch (ch : option N) (c : string) : bool := match ch with Some x => [x] === js c | None => false end.
Definition test (p : N -> bool) (ch : option N) : bool := match ch with Some c => p c | None => false end.

(** tokenBase: a word that is a directive, or the unit after it. *)
Definition tokenBase (s : stream) : Result :=
  let s := eatWhile directive_unit s in
  let cur := current s in
  if memb cur keywords then (s, TokenBase, Some (js "keyword"), None)
  else if memb cur keywords_block then (s, TokenBase, Some (js "controlKeyword"), None)
  else if memb cur keywords_important then (s, TokenBase, Some (js "controlKeyword"), None)
  else
    let '(ch, s) := next s in
    if is_ch ch "@" then let s := eatWhile name_unit s in (s, TokenBase, Some (js "meta"), Some (current s))
    else
      let '(comment, s) := if is_ch ch "/" then eat 42 s else (false, s) in
      if comment then (s, TokenBase, Some (js "compare"), None)
      else
        let '(sgml, s) := if is_ch ch "<" then eat 33 s else (false, s) in
        if sgml then tokenSGMLComment s
        else if is_ch ch "=" then (s, TokenBase, None, Some (js "compare"))
        else
          let '(compare, s) := if is_ch ch "~" || is_ch ch "|" then eat 61 s else (false, s) in
          if compare then (s, TokenBase, None, Some (js "compare"))
          else if test (fun c => (c =? 34) || (c =? 39))%N ch then tokenString (default 34%N ch) s
          else if is_ch ch "#" then (skipToEnd s, TokenBase, Some (js "comment"), Some (js "comment"))
          else if is_ch ch "!" then (match_prefix space_word s, TokenBase, Some (js "keyword"), Some (js "important"))
          else if test is_digit ch then (eatWhile number_unit s, TokenBase, Some (js "number"), Some (js "unit"))
          else if test operator_unit ch then (s, TokenBase, None, Some (js "select-op"))
          else if test bracket_unit ch then (s, TokenBase, None, (fun c => [c]) <$> ch)
          else (eatWhile name_unit s, TokenBase, Some (js "variable"), Some (js "variable")).

Definition tokenize_with (t : Tokenize) (s : stream) : Result :=
  match t with TokenBase => tokenBase s | TokenSGMLComment => tokenSGMLComment s | TokenString q => tokenString q s end.

(** ** The parser *)

Definition startState : NgxState := {| tokenize := TokenBase; baseIndent := 0; stack := [] |}.

(** [type === t], for a string or nothing. *)
Definition is_type (type : option jsstr) (t : string) : bool := match type with Some x => x === js t | None => false end.

(** The stack after a token of a type. *)
Definition next_stack (type : option jsstr) (stack : list jsstr) : list jsstr :=
  let context := head stack in
  let stack := if is_type context "rule" && (is_type type "{" || is_type type "}" || is_type type ";") then tail stack else stack in
  if is_type type "{" then
    if is_type context "@media" then match stack with _ :: l => js "@media{" :: l | [] => [] end else js "{" :: stack
  else if is_type type "}" then tail stack
  else if is_type type "@media" then js "@media" :: stack
  else if is_type context "{" && negb (is_type type "comment") then js "rule" :: stack
  else stack.

(** [null] for blanks; otherwise a style with the new state. *)
Definition token (s : stream) (state : NgxState) : stream * NgxState * Style :=
  let '(space, s) := eatSpace s in
  if space then (s, state, None)
  else
    let '(s, t, style, type) := tokenize_with state.(tokenize) s in
    let context := head state.(stack) in
    let with_stack l := {| tokenize := t; baseIndent := state.(baseIndent); stack := l |} in
    if is_type type "hash" && is_type context "rule" then (s, with_stack state.(stack), Some (js "atom"))
    else if is_type style "variable" && is_type context "rule" then (s, with_stack state.(stack), Some (js "number"))
    else if is_type style "variable" && (bool_decide (context = None) || is_type context "@media{") then
      (s, with_stack state.(stack), Some (js "tag"))
    else (s, with_stack (next_stack type state.(stack)), style).

(** indent, for a line that starts with [textAfter]. *)
Definition indent (state : NgxState) (textAfter : jsstr) (unit : Z) : Z :=
  let n := Z.of_nat (length state.(stack)) in
  let top := match state.(stack) with x :: _ => x === js "rule" | [] => false end in
  let n := if startsWith textAfter (js "}") then (n - if top then 2 else 1)%Z else n in
  (state.(baseIndent) + n * unit)%Z.

(** The editor reads a line token by token. *)
Fixpoint read_line (fuel : nat) (s : stream) (state : NgxState) : option (list (jsstr * Style) * NgxState) :=
  match rest s with
  | [] => Some ([], state)
  | _ =>
      match fuel with
      | O => None
      | S fuel =>
          let '(s, state, style) := token (begin_token s) state in
          '(l, state) ← read_line fuel s state; Some ((current s, style) :: l, state)
      end
  end.
End Tokens.

(** ** A stream over a line *)

Record Line := { l_current : jsstr; l_rest : jsstr }.
Definition advance (n : nat) (s : Line) : Line :=
  {| l_current := s.(l_current) ++ take n s.(l_rest); l_rest := drop n s.(l_rest) |}.

Lemma span_longest p s : span p s <= length s /\ forallb p (take (span p s) s) = true /\
  match drop (span p s) s with c :: _ => p c = false | [] => True end.
Proof.
  induction s as [|c s (IH1 & IH2 & IH3)]; cbn [span length]; [done|]. destruct (p c) eqn:E; cbn.
  - split; [lia|]. split; [by rewrite E|done].
  - split; [lia|]. by split.
Qed.

#[export] Instance line_stream : StringStream.
Proof.
  refine {|
    stream := Line; current := l_current; rest := l_rest;
    next s := match s.(l_rest) with [] => (None, s) | c :: _ => (Some c, advance 1 s) end;
    eat c s := match s.(l_rest) with d :: _ => if (d =? c)%N then (true, advance 1 s) else (false, s) | [] => (false, s) end;
    eatWhile p s := advance (span p s.(l_rest)) s;
    eatSpace s := (0 <? span is_ws s.(l_rest), advance (span is_ws s.(l_rest)) s);
    skipToEnd s := advance (length s.(l_rest)) s;
    match_prefix f s := advance (f s.(l_rest)) s;
    begin_token s := {| l_current := []; l_rest := s.(l_rest) |} |}.
  - intros [cur l]. by destruct l.
  - intros c [cur l]. destruct l as [|d l]; [done|]. cbn [l_rest]. by destruct (d =? c)%N.
  - intros p s. exists (span p (l_rest s)). destruct (span_longest p (l_rest s)) as (_ & H1 & H2). done.
  - intros s. exists (span is_ws (l_rest s)). destruct (span_longest is_ws (l_rest s)) as (H1 & H2 & H3).
    split; [done|]. cbn [fst]. rewrite Nat.ltb_lt. repeat split; try done; lia.
  - done.
  - done.
  - done.
Defined.

Definition new_line (s : jsstr) : Line := {| l_current := []; l_rest := s |}.

Example nginx_line : read_line 40 (new_line (js "  listen 80; # x")) startState =
  Some ([(js "  ", None); (js "listen", Some (js "controlKeyword")); (js " ", None); (js "80;", None); (js " ", None);
         (js "# x", Some (js "comment"))], startState).
Proof. vm_compute. reflexivity. Qed.

(** ** Progress *)

Section Progress.
Context `{StringStream}.

(** The units taken are added to the token, none is lost. *)
Definition moved (s s' : stream) : Prop := current s ++ rest s = current s' ++ rest s' /\ length (rest s') <= length (rest s).
#[local] Instance moved_preorder : PreOrder moved.
Proof. split; [by intros s; split|]. intros a b c [H1 H2] [H3 H4]. split; [congruence|lia]. Qed.

Lemma takes_moved n s s' : takes n s s' -> moved s s'.
Proof.
  intros [H1 H2]. split; [rewrite H1, H2, <- app_assoc, take_drop; done|]. rewrite H2, length_drop. lia.
Qed.

Lemma next_moved s : moved s (next s).2.
Proof. pose proof (next_law s) as Hn. destruct (rest s); [by rewrite Hn|]. destruct Hn as [_ Hn]. by eapply takes_moved. Qed.

Lemma eat_moved c s : moved s (eat c s).2.
Proof.
  pose proof (eat_law c s) as He. destruct (rest s) as [|d l]; [by rewrite He|]. destruct (d =? c)%N; [|by rewrite He].
  destruct He as [_ He]. by eapply takes_moved.
Qed.

Lemma eatWhile_moved p s : moved s (eatWhile p s).
Proof. destruct (eatWhile_law p s) as (n & Hn & _). by eapply takes_moved. Qed.

Lemma next_progress s : rest s <> [] -> length (rest (next s).2) < length (rest s).
Proof.
  intros Hs. pose proof (next_law s) as Hn. destruct (rest s) as [|c l] eqn:E; [done|]. destruct Hn as [_ [_ Hn]].
  rewrite Hn, E. change (drop 1 (c :: l)) with l. cbn [length]. lia.
Qed.

Lemma sgml_moved fuel d s : moved s (sgml_loop fuel d s).1.
Proof.
  revert d s. induction fuel as [|fuel IH]; intros d s; [done|]. cbn [sgml_loop].
  pose proof (next_moved s) as Hn. destruct (next s) as [[c|] s1]; [|done]. cbn [snd] in Hn.
  destruct (_ && _); [done|]. etransitivity; [exact Hn|apply IH].
Qed.

Lemma string_moved fuel q e s : moved s (string_loop fuel q e s).1.
Proof.
  revert e s. induction fuel as [|fuel IH]; intros e s; [done|]. cbn [string_loop].
  pose proof (next_moved s) as Hn. destruct (next s) as [[c|] s1]; [|done]. cbn [snd] in Hn.
  destruct (_ && _); [done|]. etransitivity; [exact Hn|apply IH].
Qed.

Definition moved_to (s : stream) (r : Result (stream := stream)) : Prop := moved s r.1.1.1.

Lemma sgml_token s : moved_to s (tokenSGMLComment s).
Proof. unfold moved_to, tokenSGMLComment. pose proof (sgml_moved (S (length (rest s))) 0 s) as Hm. by destruct (sgml_loop _ _ _). Qed.

Lemma string_token q s : moved_to s (tokenString q s).
Proof. unfold moved_to, tokenString. pose proof (string_moved (S (length (rest s))) q false s) as Hm. by destruct (string_loop _ _ _ _). Qed.

Lemma empty_word : memb [] keywords = false /\ memb [] keywords_block = false /\ memb [] keywords_important = false.
Proof. vm_compute. auto. Qed.

#[local] Opaque keywords keywords_block keywords_important.

(** What is left after the word and one unit. *)
Lemma tokenBase_moved s : exists s', moved_to s' (tokenBase s) /\ moved s s' /\
  (rest s <> [] -> current s = [] -> length (rest s') < length (rest s)).
Proof.
  unfold tokenBase. set (s1 := eatWhile directive_unit s). pose proof (eatWhile_moved directive_unit s) as H1. fold s1 in H1.
  assert (Hword : forall l, memb [] l = false -> memb (current s1) l = true ->
    moved s s1 /\ (rest s <> [] -> current s = [] -> length (rest s1) < length (rest s))).
  { intros l Hl Hm. split; [done|]. intros _ Hc. destruct H1 as [H1 H2]. rewrite Hc in H1. cbn [app] in H1.
    destruct (current s1) as [|c w]; [congruence|]. rewrite H1, length_app. cbn [length]. lia. }
  destruct empty_word as (E1 & E2 & E3).
  destruct (memb (current s1) keywords) eqn:K1; [exists s1; split; [by unfold moved_to|by apply (Hword keywords)]|].
  destruct (memb (current s1) keywords_block) eqn:K2; [exists s1; split; [by unfold moved_to|by apply (Hword keywords_block)]|].
  destruct (memb (current s1) keywords_important) eqn:K3; [exists s1; split; [by unfold moved_to|by apply (Hword keywords_important)]|].
  exists (next s1).2. split; [|split; [etransitivity; [exact H1|apply next_moved]|]].
  - clear K1 K2 K3 Hword E1 E2 E3 H1. destruct (next s1) as [ch s2]. cbn [snd]. destruct (is_ch ch "@"); [apply eatWhile_moved|].
    assert (He : forall (b : bool) c s, moved s (if b then eat c s else (false, s)).2)
      by (intros [] c s'; [apply eat_moved|done]).
    pose proof (He (is_ch ch "/") 42%N s2) as G1. destruct (if is_ch ch "/" then _ else _) as [x3 s3]. cbn [snd] in G1.
    destruct x3; [done|].
    pose proof (He (is_ch ch "<") 33%N s3) as G2. destruct (if is_ch ch "<" then _ else _) as [x4 s4]. cbn [snd] in G2.
    assert (G3 : moved s2 s4) by (by etransitivity).
    destruct x4; [unfold moved_to; etransitivity; [exact G3|apply sgml_token]|]. destruct (is_ch ch "="); [done|].
    pose proof (He (is_ch ch "~" || is_ch ch "|") 61%N s4) as G4. destruct (if is_ch ch "~" || _ then _ else _) as [x5 s5].
    cbn [snd] in G4. assert (G5 : moved s2 s5) by (by etransitivity). destruct x5; [done|].
    unfold moved_to. repeat case_step; cbn [fst]; try done; (etransitivity; [exact G5|]);
      [apply string_token|eapply takes_moved, skipToEnd_law|eapply takes_moved, match_law|apply eatWhile_moved|apply eatWhile_moved].
  - intros Hs Hc. destruct (rest s1) as [|c l] eqn:E.
    + pose proof (next_moved s1) as [_ H2]. rewrite E in H2. cbn [length] in H2. destruct (rest s); [done|]. cbn. lia.
    + destruct H1 as [_ H1]. pose proof (next_progress s1) as H2. rewrite E in H2. specialize (H2 ltac:(done)). rewrite E in H1. lia.
Qed.

Lemma tokenize_moved t s : moved_to s (tokenize_with t s) /\
  (rest s <> [] -> current s = [] -> length (rest (tokenize_with t s).1.1.1) < length (rest s)).
Proof.
  assert (Hnext : forall s', rest s <> [] -> moved (next s).2 s' -> length (rest s') < length (rest s)).
  { intros s' Hs [_ H2]. pose proof (next_progress s Hs). lia. }
  destruct t as [| |q]; cbn [tokenize_with].
  - destruct (tokenBase_moved s) as (s' & H1 & H2 & H3). split; [unfold moved_to; by etransitivity|].
    intros Hs Hc. specialize (H3 Hs Hc). destruct H1 as [_ H1]. lia.
  - split; [apply sgml_token|]. intros Hs _. unfold tokenSGMLComment. cbn [sgml_loop].
    pose proof (next_law s) as Hn. destruct (rest s) as [|c l] eqn:E; [done|]. destruct Hn as [Hn _].
    specialize (Hnext (sgml_loop (S (length l)) (if (c =? 45)%N then 1 else 0) (next s).2).1 Hs (sgml_moved _ _ _)).
    cbn [length]. destruct (next s) as [ch s1]. cbn [fst snd] in *. subst ch. cbn [Nat.leb andb].
    by destruct (sgml_loop _ _ s1) as [s2 t].
  - split; [apply string_token|]. intros Hs _. unfold tokenString. cbn [string_loop].
    pose proof (next_law s) as Hn. destruct (rest s) as [|c l] eqn:E; [done|]. destruct Hn as [Hn _].
    pose proof (Hnext (next s).2 Hs ltac:(reflexivity)) as Hone.
    specialize (Hnext (string_loop (S (length l)) q (c =? 92)%N (next s).2).1 Hs (string_moved _ _ _ _)).
    cbn [length]. destruct (next s) as [ch s1]. cbn [fst snd] in *. subst ch. cbn [negb andb].
    rewrite andb_true_r. destruct (c =? q)%N; [done|]. by destruct (string_loop _ _ _ s1) as [s2 e].
Qed.

Lemma token_moved s state : let s' := (token s state).1.1 in
  moved s s' /\ (rest s <> [] -> current s = [] -> length (rest s') < length (rest s)).
Proof.
  cbn zeta. unfold token. destruct (eatSpace_law s) as (n & Hn & Hb & Hl & _). pose proof Hn as [Hcur Hrest].
  destruct (eatSpace s) as [space s1]. cbn [fst snd] in *. destruct space.
  - cbn [fst]. split; [by eapply takes_moved|]. intros Hs _. rewrite Hrest, length_drop.
    assert (n <> 0) by (by apply Hb). destruct (rest s); [done|]. cbn [length] in *. lia.
  - assert (n = 0) as -> by (destruct n; [done|]; assert (false = true) by (by apply Hb); done).
    cbn [take drop] in *. rewrite app_nil_r in Hcur.
    destruct (tokenize_moved (tokenize state) s1) as [H1 H2].
    assert (Hm : moved s s1) by (by eapply takes_moved). rewrite Hrest in H2. rewrite Hcur in H2.
    destruct (tokenize_with (tokenize state) s1) as [[[s2 t] style] type]. unfold moved_to in H1. cbn [fst] in *.
    assert (Hd : forall A (x y : A), (if is_type type "hash" && is_type (head (stack state)) "rule" then x else y) = x \/
                 (if is_type type "hash" && is_type (head (stack state)) "rule" then x else y) = y) by (intros; case_step; auto).
    repeat case_step; cbn [fst]; (split; [by etransitivity|done]).
Qed.

(** C39. A line is read to its end, whatever is on it and whatever came before it: each call of the
    parser takes at least one unit, without which the editor would stop, and the tokens are the line. *)
Theorem line_read s state : exists l state',
  read_line (length (rest s)) s state = Some (l, state') /\ concat (List.map fst l) = rest s /\
  Forall (fun t => t.1 <> []) l.
Proof.
  remember (length (rest s)) as n eqn:En. assert (Hn : length (rest s) <= n) by lia. clear En. revert s state Hn.
  induction n as [|n IH]; intros s state Hn; cbn [read_line].
  { destruct (rest s); [|cbn in Hn; lia]. exists [], state. by repeat constructor. }
  destruct (rest s) as [|c r] eqn:E; [exists [], state; by repeat constructor|].
  destruct (begin_law s) as [B1 B2]. destruct (token_moved (begin_token s) state) as [H1 H2].
  rewrite B1, B2, E in *. specialize (H2 ltac:(done) eq_refl).
  destruct (token (begin_token s) state) as [[s1 st1] style]. cbn [fst] in *. destruct H1 as [H1 _].
  destruct (IH s1 st1) as (l & st2 & -> & Hc & Hf); [cbn [length] in *; lia|]. cbn [mbind option_bind].
  exists ((current s1, style) :: l), st2. split; [done|]. cbn [List.map concat fst]. rewrite Hc.
  rewrite B1, B2 in H1. cbn [app] in H1. split; [done|]. constructor; [|done]. cbn [fst]. intros Hz. rewrite Hz in H1. cbn in H1.
  rewrite <- H1 in H2. lia.
Qed.
End Progress.

(** ** Braces *)

Section Braces.
Context `{StringStream}.

Definition has_type (r : Result (stream := stream)) (P : Style -> option jsstr -> Prop) : Prop := P r.1.2 r.2.

(** A token styled as a variable has that type. *)
Lemma variable_type t s : has_type (tokenize_with t s) (fun style type =>
  is_type style "variable" = true -> type = Some (js "variable")).
Proof.
  assert (Hg : forall s, has_type (tokenSGMLComment s) (fun style type => is_type style "variable" = true -> type = Some (js "variable")))
    by (intros s'; unfold tokenSGMLComment, has_type; by destruct (sgml_loop _ _ _)).
  assert (Hq : forall q s, has_type (tokenString q s) (fun style type => is_type style "variable" = true -> type = Some (js "variable")))
    by (intros q s'; unfold tokenString, has_type; by destruct (string_loop _ _ _ _)).
  destruct t as [| |q]; cbn [tokenize_with]; [|apply Hg|apply Hq].
  unfold tokenBase. repeat (case_step; [done|]). destruct (next _) as [ch s1].
  case_step; [done|]. destruct (if is_ch ch "/" then _ else _) as [[] s2]; [done|].
  destruct (if is_ch ch "<" then _ else _) as [[] s3]; [apply Hg|]. case_step; [done|].
  destruct (if is_ch ch "~" || _ then _ else _) as [[] s4]; [done|]. case_step; [apply Hq|].
  unfold has_type. repeat (case_step; [done|]). done.
Qed.

(** The cases in which the parser returns early leave the stack as the rest would. *)
Lemma token_stack s state : (eatSpace s).1 = false ->
  (token s state).1.2.(stack) = next_stack (tokenize_with state.(tokenize) (eatSpace s).2).2 state.(stack).
Proof.
  intros Hs. unfold token. destruct (eatSpace s) as [space s1]. cbn [fst snd] in *. subst space.
  pose proof (variable_type (tokenize state) s1) as Hv. unfold has_type in Hv.
  destruct (tokenize_with (tokenize state) s1) as [[[s2 t] style] type]. cbn [fst snd] in *.
  set (context := head (stack state)).
  destruct (is_type type "hash" && is_type context "rule") eqn:E1.
  { apply andb_true_iff in E1 as [E1 E2]. cbn [fst snd stack]. unfold next_stack. fold context. rewrite E2.
    destruct type as [x|]; [|done]. apply streqb_eq in E1 as ->. destruct context as [y|] eqn:Ec; [|done].
    apply streqb_eq in E2 as ->. reflexivity. }
  destruct (is_type style "variable" && is_type context "rule") eqn:E2.
  { apply andb_true_iff in E2 as [E2 E3]. cbn [fst snd stack]. rewrite (Hv E2). unfold next_stack. fold context.
    destruct context as [y|]; [|done]. apply streqb_eq in E3 as ->. reflexivity. }
  destruct (is_type style "variable" && (bool_decide (context = None) || is_type context "@media{")) eqn:E3; [|reflexivity].
  apply andb_true_iff in E3 as [E3 E4]. cbn [fst snd stack]. rewrite (Hv E3). unfold next_stack. fold context.
  apply orb_true_iff in E4 as [E4|E4]; [apply bool_decide_eq_true in E4 as ->; reflexivity|].
  destruct context as [y|]; [|done]. apply streqb_eq in E4 as ->. reflexivity.
Qed.

(** The stack of [d] open braces, with a rule of the innermost under way or not. *)
Definition braces (d : nat) (stack : list jsstr) : Prop :=
  stack = repeat (js "{") d \/ d <> 0 /\ stack = js "rule" :: repeat (js "{") d.

Definition brace (d : nat) (type : option jsstr) : nat :=
  if is_type type "{" then S d else if is_type type "}" then pred d else d.

Lemma next_braces type d l : is_type type "@media" = false -> braces d l -> braces (brace d type) (next_stack type l).
Proof.
  intros Hm [->|[Hd ->]]; unfold next_stack, brace.
  - destruct d as [|d]; cbn [repeat head tail is_type].
    + rewrite Hm. destruct (is_type type "{"); [by left|]. destruct (is_type type "}"); by left.
    + change (js "{" === js "rule") with false. change (js "{" === js "@media") with false.
      change (js "{" === js "{") with true. rewrite Hm. cbn [andb].
      destruct (is_type type "{"); [by left|]. destruct (is_type type "}"); [by left|].
      destruct (is_type type "comment"); [by left|by right].
  - cbn [head tail is_type]. change (js "rule" === js "rule") with true. change (js "rule" === js "@media") with false.
    change (js "rule" === js "{") with false. rewrite Hm. cbn [andb].
    destruct (is_type type "{") eqn:E1; [by left|]. destruct (is_type type "}") eqn:E2; cbn [orb].
    + left. by destruct d.
    + destruct (is_type type ";"); [by left|by right].
Qed.

(** A text read token by token, with the types of the tokens that are not blank; the text of
    each token is any. *)
Inductive parsed : list (option jsstr) -> NgxState -> Prop :=
| parsed_start : parsed [] startState
| parsed_blank types state s : parsed types state -> (eatSpace s).1 = true -> parsed types (token s state).1.2
| parsed_token types state s : parsed types state -> (eatSpace s).1 = false ->
    parsed (types ++ [(tokenize_with state.(tokenize) (eatSpace s).2).2]) (token s state).1.2.

Definition depth (types : list (option jsstr)) : nat := fold_left brace types 0.

(** Lines are indented by the braces that are open and no comment or string holds: a line
    that closes one stands where the line that opened it does, a line after a finished
    directive one step in, and a line that goes on with a directive one step more. *)
Theorem indent_follows_braces types state textAfter unit : parsed types state ->
  Forall (fun type => is_type type "@media" = false) types ->
  braces (depth types) state.(stack) /\
  (startsWith textAfter (js "}") = true -> depth types <> 0 ->
     indent state textAfter unit = (Z.of_nat (pred (depth types)) * unit)%Z) /\
  (startsWith textAfter (js "}") = false ->
     indent state textAfter unit = (Z.of_nat (depth types) * unit)%Z \/
     indent state textAfter unit = (Z.of_nat (S (depth types)) * unit)%Z /\ head state.(stack) = Some (js "rule")).
Proof.
  intros Hp Hm.
  assert (Hs : braces (depth types) state.(stack) /\ state.(baseIndent) = 0%Z).
  { induction Hp as [|types state s Hp IH Hb|types state s Hp IH Hb].
    - split; [by left|done].
    - replace (token s state).1.2 with state; [by apply IH|]. unfold token. destruct (eatSpace s). cbn [fst] in Hb. by subst.
    - apply list.Forall_app in Hm as [Hm1 Hm2]. apply list.Forall_cons in Hm2 as [Hm2 _]. destruct (IH Hm1) as [H1 H2]. split.
      + unfold depth. rewrite fold_left_app, token_stack by done. cbn [fold_left]. by apply next_braces.
      + rewrite <- H2. unfold token. destruct (eatSpace s) as [[] s1]; [done|].
        destruct (tokenize_with _ _) as [[[s2 t] style] type]. repeat case_step; reflexivity. }
  destruct Hs as [Hs Hb]. split; [done|]. unfold indent. rewrite Hb.
  destruct Hs as [E|[Hd E]]; rewrite E.
  - rewrite repeat_length. split; [|intros ->; left; lia]. intros -> Hd. destruct (depth types) as [|d]; [done|].
    cbn [repeat pred]. change (js "{" === js "rule") with false. cbv iota. lia.
  - cbn [length]. rewrite repeat_length. change (js "rule" === js "rule") with true. cbv iota. split.
    + intros -> _. destruct (depth types); [done|]. cbn [pred]. lia.
    + intros ->. right. split; [lia|done].
Qed.
End Braces.

(** ** Witness *)

Lemma indent_follows_braces_witness :
  exists types state, parsed (H := line_stream) types state /\ depth types = 1 /\ state.(stack) = [js "{"] /\
    indent state (js "}") 4 = 0%Z.
Proof.
  set (s1 := (token (H := line_stream) (new_line (js "{")) startState).1.2).
  assert (Hp : parsed (H := line_stream) [Some (js "{")] s1) by (exact (parsed_token (H := line_stream) [] startState (new_line (js "{")) parsed_start eq_refl)).
  exists [Some (js "{")], s1. split; [exact Hp|]. split; [reflexivity|]. split; [reflexivity|].
  destruct (indent_follows_braces (H := line_stream) [Some (js "{")] s1 (js "}") 4 Hp) as (_ & H1 & _).
  - apply list.Forall_cons. split; [reflexivity|apply Forall_nil_2].
  - exact (H1 eq_refl ltac:(discriminate)).
Defined.

(** A directive of nginx that is no keyword: what stands for it is no word of the language. *)
Lemma xslt_types_unknown :
  memb (js "xslt_types") keywords = false /\ memb (js "xslt_typesdrew@li229-23") keywords = true /\
  forallb directive_unit (js "xslt_typesdrew@li229-23") = false.
Proof. vm_compute. auto. Qed.
