(* ===== verification/Access.v ===== *)
(** * Role based access

    src/frontend/src/utils/rbac.ts, utils/permission.ts and
    composables/useMenuManagePermission.ts: the decisions on routes, menus and
    controls that rest on the store's [hasPermission].  Every function is in the
    state monad, as each call may refresh the cached codes; the [reads] lemmas
    show that the answers are functions of the store alone. *)

From S2P Require Import Prelude JsString GlobalStore.

(** ** rbac.ts *)

(** type PermissionMetaValue = string | string[], or undefined *)
Inductive PermissionValue := PUndef | PStr (s : jsstr) | PList (l : list jsstr).

(** RouteAccessMeta *)
Record Meta := { adminOnly : bool; protectedRoleOnly : bool; permission : PermissionValue }.

Definition hasPermissionMetaAccess (p : PermissionValue) : M World bool :=
  match p with
  | PUndef => ret true
  | PStr s => if negb (truthy s) then ret true else hasPermission s
  | PList l =>
      let permissions := List.filter truthy l in
      match permissions with [] => ret true | _ => someM hasPermission permissions end
  end.

Definition hasRouteRoleAccess (meta : option Meta) : M World bool :=
  gets (fun w =>
    match meta with
    | None => true
    | Some m =>
        if w.(gs).(tags).(isAdmin) then true
        else if m.(adminOnly) && negb w.(gs).(tags).(isAdmin) then false
        else if m.(protectedRoleOnly) then isNodeAdmin w.(gs)
        else true
    end).

(** record.meta?.permission *)
Definition meta_permission (meta : option Meta) : PermissionValue :=
  match meta with None => PUndef | Some m => m.(permission) end.

Definition hasRoutePermissionAccess (matched : list (option Meta)) : M World bool :=
  everyM (fun record => hasPermissionMetaAccess (meta_permission record)) matched.

Definition hasRouteAccess (matched : list (option Meta)) : M World bool :=
  let! role := everyM hasRouteRoleAccess matched in
  if role then hasRoutePermissionAccess matched else ret false.

(** ** permission.ts *)

(** router.currentRoute.value, or the result of useRoute(): the merged meta and
    the matched records. *)
Record CurrentRoute := { route_meta : option Meta; route_matched : list (option Meta) }.

Inductive PermissionMode := manage | view.

(** The permission a record holds, when it is a list or a non-empty string. *)
Definition held_permission (p : PermissionValue) : option PermissionValue :=
  match p with
  | PStr s => if truthy s then Some p else None
  | PList _ => Some p
  | PUndef => None
  end.

Definition getRoutePermission (route : CurrentRoute) : PermissionValue :=
  match held_permission (meta_permission route.(route_meta)) with
  | Some p => p
  | None =>
      (fix go records :=
         match records with
         | [] => PStr []
         | record :: records' =>
             match held_permission (meta_permission record) with Some p => p | None => go records' end
         end) (rev route.(route_matched))
  end.

Definition toManagePermission : jsstr -> jsstr := normalizeToManageCode.

Definition toPermissionList (route : CurrentRoute) (value : PermissionValue) : list jsstr :=
  let from_route :=
    match getRoutePermission route with
    | PList l => l
    | PStr s => if truthy s then [s] else []
    | PUndef => []
    end in
  match value with
  | PList l => List.filter (fun p => truthy (trim p)) l
  | PStr s => if truthy (trim s) then [s] else from_route
  | PUndef => from_route
  end.

(** [nodeAdmin] is options.nodeAdmin. *)
Definition hasPermissionAccessByMode (route : CurrentRoute) (mode : PermissionMode)
    (value : PermissionValue) (nodeAdmin : bool) : M World bool :=
  let! w := get in
  if nodeAdmin && isNodeAdmin w.(gs) then ret true
  else
    let permissions := toPermissionList route value in
    let normalizedPermissions :=
      match mode with
      | manage => List.filter truthy (List.map toManagePermission permissions)
      | view => permissions
      end in
    match normalizedPermissions with
    | [] => ret w.(gs).(tags).(isAdmin)
    | _ => someM hasPermission normalizedPermissions
    end.

Definition hasManagePermissionAccess route value nodeAdmin :=
  hasPermissionAccessByMode route manage value nodeAdmin.
Definition hasPermissionAccess route value nodeAdmin :=
  hasPermissionAccessByMode route view value nodeAdmin.

(** ** useMenuManagePermission.ts *)

Definition toManagePermissionValue (p : PermissionValue) : PermissionValue :=
  match p with
  | PList l => PList (List.filter truthy (List.map toManagePermission l))
  | PStr s => PStr (toManagePermission s)
  | PUndef => PStr (toManagePermission [])
  end.

(** value || [] *)
Definition or_empty_list (p : PermissionValue) : PermissionValue :=
  match p with PUndef | PStr [] => PList [] | _ => p end.

Section UseMenuManagePermission.
Variables (route : CurrentRoute) (permission : PermissionValue).

Definition sourcePermission : PermissionValue :=
  match permission with
  | PUndef | PStr [] => getRoutePermission route
  | p => p
  end.
Definition managePermission : PermissionValue := toManagePermissionValue sourcePermission.
Definition hasAdminManagePermission : M World bool :=
  gets (fun w => w.(gs).(tags).(isAdmin) || isNodeAdmin w.(gs)).
Definition menu_hasPermission : M World bool :=
  hasPermissionAccess route (or_empty_list sourcePermission) false.
Definition menu_hasManagePermission : M World bool :=
  hasManagePermissionAccess route (or_empty_list managePermission) false.
Definition useCan : M World bool := menu_hasPermission.
End UseMenuManagePermission.

(** ** The decisions as functions of the store *)

Definition meta_granted (g : GlobalState) (p : PermissionValue) : bool :=
  match p with
  | PUndef => true
  | PStr s => negb (truthy s) || grantedb g (trim s)
  | PList l =>
      let l' := List.filter truthy l in
      match l' with [] => true | _ => existsb (fun p => grantedb g (trim p)) l' end
  end.

Definition role_granted (g : GlobalState) (meta : option Meta) : bool :=
  match meta with
  | None => true
  | Some m => g.(tags).(isAdmin) || negb m.(adminOnly) && (negb m.(protectedRoleOnly) || isNodeAdmin g)
  end.

Definition route_granted (g : GlobalState) (matched : list (option Meta)) : bool :=
  forallb (role_granted g) matched && forallb (fun r => meta_granted g (meta_permission r)) matched.

Lemma hasPermissionMetaAccess_reads p :
  reads world_ok gs (hasPermissionMetaAccess p) (fun g => meta_granted g p).
Proof.
  unfold hasPermissionMetaAccess, meta_granted. destruct p as [|s|l]; [by apply reads_ret|..].
  - destruct (truthy s); cbn [negb orb]; [apply hasPermission_reads|by apply reads_ret].
  - cbn zeta. destruct (List.filter truthy l) as [|x l'] eqn:E; [by apply reads_ret|].
    apply (reads_some hasPermission (fun p g => grantedb g (trim p))), hasPermission_reads.
Qed.

Lemma hasRouteRoleAccess_reads meta :
  reads world_ok gs (hasRouteRoleAccess meta) (fun g => role_granted g meta).
Proof.
  apply reads_gets. intros w. unfold role_granted. destruct meta as [[a r p]|]; [|done]. cbn.
  destruct (isAdmin (tags (gs w))), a, r; done.
Qed.

Lemma hasRouteAccess_reads matched :
  reads world_ok gs (hasRouteAccess matched) (fun g => route_granted g matched).
Proof.
  unfold hasRouteAccess, route_granted.
  eapply reads_ext; [|apply (reads_bind (everyM hasRouteRoleAccess matched)
    (fun role => if role then hasRoutePermissionAccess matched else ret false)
    (fun g => forallb (role_granted g) matched)
    (fun role g => if role then forallb (fun r => meta_granted g (meta_permission r)) matched else false))].
  - intros g. cbn beta. by destruct (forallb (role_granted g) matched).
  - apply (reads_every hasRouteRoleAccess (fun m g => role_granted g m)), hasRouteRoleAccess_reads.
  - intros [|]; [|by apply reads_ret].
    apply (reads_every _ (fun r g => meta_granted g (meta_permission r))).
    intros r. apply hasPermissionMetaAccess_reads.
Qed.

Definition access_list (route : CurrentRoute) (mode : PermissionMode) (value : PermissionValue) : list jsstr :=
  match mode with
  | manage => List.filter truthy (List.map toManagePermission (toPermissionList route value))
  | view => toPermissionList route value
  end.

Definition access_granted (route : CurrentRoute) (mode : PermissionMode) (value : PermissionValue)
    (nodeAdmin : bool) (g : GlobalState) : bool :=
  nodeAdmin && isNodeAdmin g ||
  match access_list route mode value with
  | [] => g.(tags).(isAdmin)
  | l => existsb (fun p => grantedb g (trim p)) l
  end.

Lemma hasPermissionAccessByMode_reads route mode value nodeAdmin :
  reads world_ok gs (hasPermissionAccessByMode route mode value nodeAdmin)
    (access_granted route mode value nodeAdmin).
Proof.
  intros w Hw. unfold hasPermissionAccessByMode, access_granted, bind, get.
  destruct (nodeAdmin && isNodeAdmin (gs w)); [by split|]. cbn [orb]. fold (access_list route mode value).
  cbn zeta. destruct (access_list route mode value) as [|p l]; [done|].
  exact (reads_some hasPermission (fun p g => grantedb g (trim p)) (p :: l) hasPermission_reads w Hw).
Qed.

(** ** The declarative readings *)

Definition role_ok (g : GlobalState) (meta : option Meta) : Prop :=
  match meta with
  | None => True
  | Some m => g.(tags).(isAdmin) = true \/
      m.(adminOnly) = false /\ (m.(protectedRoleOnly) = true -> isNodeAdmin g = true)
  end.

Definition permission_ok (g : GlobalState) (p : PermissionValue) : Prop :=
  match p with
  | PUndef => True
  | PStr s => s = [] \/ granted g (trim s)
  | PList l => (forall s, s ∈ l -> s = []) \/ exists s, s ∈ l /\ granted g (trim s)
  end.

Definition route_ok (g : GlobalState) (matched : list (option Meta)) : Prop :=
  forall r, r ∈ matched -> role_ok g r /\ permission_ok g (meta_permission r).

Lemma elem_filter_truthy s l : s ∈ List.filter truthy l <-> s ∈ l /\ s <> [].
Proof. by rewrite !list_elem_of_In, filter_In, truthy_true. Qed.

Lemma filter_truthy_nil l : List.filter truthy l = [] <-> forall s, s ∈ l -> s = [].
Proof.
  split.
  - intros E s Hs. destruct s as [|a s]; [done|].
    assert ((a :: s) ∈ List.filter truthy l) as H by (by apply elem_filter_truthy).
    rewrite E in H. inversion H.
  - intros H. destruct (List.filter truthy l) as [|s l'] eqn:E; [done|].
    assert (s ∈ List.filter truthy l) as Hs by (rewrite E; left).
    apply elem_filter_truthy in Hs as [Hs Hn]. by destruct Hn; apply H.
Qed.

Lemma granted_nil g : ~ granted g [].
Proof. intros (H & _). done. Qed.

Lemma role_granted_spec g r : role_granted g r = true <-> role_ok g r.
Proof.
  unfold role_granted, role_ok. destruct r as [[a p s]|]; [|done]. cbn.
  destruct (isAdmin (tags g)), a, p, (isNodeAdmin g); cbn; intuition congruence.
Qed.

Lemma existsb_granted g l :
  existsb (fun p => grantedb g (trim p)) l = true <-> exists s, s ∈ l /\ granted g (trim s).
Proof. rewrite existsb_elem. by setoid_rewrite grantedb_spec. Qed.

Lemma meta_granted_spec g p : meta_granted g p = true <-> permission_ok g p.
Proof.
  destruct p as [|s|l]; [done|..]; cbn [meta_granted permission_ok].
  - by rewrite orb_true_iff, negb_true_iff, truthy_false, grantedb_spec.
  - cbn zeta. rewrite <- filter_truthy_nil. destruct (List.filter truthy l) as [|x l'] eqn:E.
    + split; [by left|done].
    + rewrite <- E at 1. rewrite existsb_granted. split.
      * intros (s & Hs & Hg). right. exists s. apply elem_filter_truthy in Hs as [? ?]. done.
      * intros [?|(s & Hs & Hg)]; [done|]. exists s. split; [|done]. apply elem_filter_truthy.
        split; [done|]. intros ->. by apply granted_nil in Hg.
Qed.

Lemma route_granted_spec g matched : route_granted g matched = true <-> route_ok g matched.
Proof.
  unfold route_granted, route_ok. rewrite andb_true_iff, !forallb_elem.
  setoid_rewrite role_granted_spec. setoid_rewrite meta_granted_spec. naive_solver.
Qed.

(** A user with at least the roles and codes of another, on the same node. *)
Definition at_least (g g' : GlobalState) : Prop :=
  g'.(node).(currentNode) = g.(node).(currentNode) /\
  (forall c, c ∈ g'.(tags).(masterOnlyPermissions) -> c ∈ g.(tags).(masterOnlyPermissions)) /\
  (forall c, c ∈ g.(tags).(permissions) -> c ∈ g'.(tags).(permissions)) /\
  (forall r, r ∈ g.(tags).(nodeRoles) -> r ∈ g'.(tags).(nodeRoles)) /\
  (g.(tags).(isAdmin) = true -> g'.(tags).(isAdmin) = true).

Section Monotone.
Variables g g' : GlobalState.
Hypothesis Hle : at_least g g'.

Lemma usable_mono c : usable g c -> usable g' c.
Proof. destruct Hle as (En & Hm & _). unfold usable, isMaster. rewrite En. naive_solver. Qed.

Lemma granted_mono c : granted g c -> granted g' c.
Proof.
  destruct Hle as (_ & _ & Hp & _ & Ha).
  intros (H1 & H2 & H3). split; [done|]. split; [by apply usable_mono|].
  destruct H3 as [?|[?|(m & ? & ? & ?)]]; [by auto..|]. right. right. exists m.
  auto using usable_mono.
Qed.

Lemma isNodeAdmin_mono : isNodeAdmin g = true -> isNodeAdmin g' = true.
Proof.
  destruct Hle as (En & _ & _ & Hr & _). unfold isNodeAdmin. rewrite !existsb_elem, En.
  intros (r & Hin & E). exists r. auto.
Qed.

Lemma route_ok_mono matched : route_ok g matched -> route_ok g' matched.
Proof.
  intros H r Hr. destruct (H r Hr) as [H1 H2]. split.
  - destruct r as [m|]; [|done]. destruct Hle as (_ & _ & _ & _ & Ha).
    pose proof isNodeAdmin_mono. cbn in *. naive_solver.
  - pose proof granted_mono. destruct (meta_permission r); cbn in *; naive_solver.
Qed.
End Monotone.

(** ** Properties *)

(** In every reachable state a route is open exactly when each of its
    matched records is: its role restriction admits the user, and its
    permission is absent or empty, is granted, or is a list that names no code
    or one that is granted; the decision leaves the store as it was. *)
Theorem hasRouteAccess_spec locale matched w :
  reachable locale w ->
  ((hasRouteAccess matched w).1 = true <-> route_ok w.(gs) matched) /\
  (hasRouteAccess matched w).2.(gs) = w.(gs).
Proof.
  intros Hw%reachable_ok. destruct (hasRouteAccess_reads matched w Hw) as (-> & -> & _).
  by rewrite route_granted_spec.
Qed.

Definition sample_meta (p : PermissionValue) : option Meta :=
  Some {| adminOnly := false; protectedRoleOnly := false; permission := p |}.

Lemma hasRouteAccess_spec_witness :
  let w := sample_world false (js "edge1") [js "website_manage"] [js "firewall_view"] in
  let matched := [None; sample_meta (PList [js "app_view"; js "website_view"])] in
  ((hasRouteAccess matched w).1 = true <-> route_ok w.(gs) matched) /\
  (hasRouteAccess matched w).2.(gs) = w.(gs).
Proof.
  cbn zeta. apply (hasRouteAccess_spec (js "en")), sample_world_reachable.
  by apply no_newline_dec.
Defined.

(** Route access is monotone: a user with at least the roles and codes of
    another, on the same node and with no more codes reserved to the master,
    opens every route the other opens. *)
Theorem hasRouteAccess_mono locale locale' matched w w' :
  reachable locale w -> reachable locale' w' -> at_least w.(gs) w'.(gs) ->
  (hasRouteAccess matched w).1 = true -> (hasRouteAccess matched w').1 = true.
Proof.
  intros Hw%reachable_ok Hw'%reachable_ok Hle.
  destruct (hasRouteAccess_reads matched w Hw) as (-> & _).
  destruct (hasRouteAccess_reads matched w' Hw') as (-> & _).
  rewrite !route_granted_spec. by apply route_ok_mono.
Qed.

Lemma hasRouteAccess_mono_witness :
  let matched := [sample_meta (PStr (js "app_view"))] in
  (hasRouteAccess matched (sample_world false (js "local") [js "app_manage"] [])).1 = true /\
  (hasRouteAccess matched (sample_world true (js "local") [js "app_manage"] [])).1 = true.
Proof.
  cbn zeta. assert (H : (hasRouteAccess [sample_meta (PStr (js "app_view"))]
    (sample_world false (js "local") [js "app_manage"] [])).1 = true) by (vm_compute; reflexivity).
  split; [exact H|].
  refine (hasRouteAccess_mono (js "en") (js "en") _ _ _ _ _ _ H);
    [by apply sample_world_reachable, no_newline_dec..|].
  vm_compute. repeat split; auto.
Defined.

(** The codes reserved to the master are closed: a view code comes with its
    manage code. *)
Definition view_closed (g : GlobalState) : Prop :=
  forall m, (m ++ js "_view") ∈ g.(tags).(masterOnlyPermissions) ->
    (m ++ js "_manage") ∈ g.(tags).(masterOnlyPermissions).

Lemma normalizeToManageCode_cases c :
  (exists m, c = m ++ js "_view" /\ normalizeToManageCode c = m ++ js "_manage") \/
  (normalizeToManageCode c = c /\ forall m, c <> m ++ js "_view").
Proof.
  unfold normalizeToManageCode. destruct (toManageCode_cases c) as [(m & -> & ->)|(-> & Hn)].
  - left. exists m. split; [done|]. by destruct m.
  - right. split; [|done]. by destruct c.
Qed.

Lemma manage_not_view m m' : m ++ js "_manage" <> m' ++ js "_view".
Proof.
  intros E. apply (f_equal (@rev N)) in E. rewrite !rev_app_distr in E. discriminate E.
Qed.

Lemma normalizeToManageCode_idemp c :
  normalizeToManageCode (normalizeToManageCode c) = normalizeToManageCode c.
Proof.
  destruct (normalizeToManageCode_cases c) as [(m & _ & ->)|(E & _)]; [|by rewrite !E].
  destruct (normalizeToManageCode_cases (m ++ js "_manage")) as [(m' & E & _)|(E & _)]; [|done].
  by apply manage_not_view in E.
Qed.

Lemma granted_manage_view g c :
  view_closed g -> granted g (normalizeToManageCode c) -> granted g c.
Proof.
  intros Hv H. destruct (normalizeToManageCode_cases c) as [(m & -> & E)|(E & _)]; [|by rewrite E in H].
  rewrite E in H. destruct H as (_ & Hu & Hg). split; [by destruct m|]. split.
  - destruct Hu as [?|Hu]; [by left|]. right. intros H. by apply Hu, Hv.
  - destruct Hg as [?|[?|(m' & H & _)]]; [by left| |by apply manage_not_view in H].
    right. right. by exists m.
Qed.

Lemma access_granted_spec route mode value nodeAdmin g :
  access_granted route mode value nodeAdmin g = true <->
  nodeAdmin = true /\ isNodeAdmin g = true \/
  access_list route mode value = [] /\ g.(tags).(isAdmin) = true \/
  exists c, c ∈ access_list route mode value /\ granted g (trim c).
Proof.
  unfold access_granted. rewrite orb_true_iff, andb_true_iff.
  destruct (access_list route mode value) as [|c l] eqn:E.
  - split; [naive_solver|]. intros [?|[?|(c & H & _)]]; [naive_solver..|]. inversion H.
  - rewrite existsb_granted. naive_solver.
Qed.

(** A binding whose codes are trimmed and not empty. *)
Definition clean (l : list jsstr) : Prop := forall c, c ∈ l -> trim c = c /\ c <> [].

Lemma manage_list_nil route value :
  clean (toPermissionList route value) ->
  access_list route manage value = [] -> toPermissionList route value = [].
Proof.
  unfold access_list. intros Hc E. destruct (toPermissionList route value) as [|c l]; [done|].
  destruct (Hc c) as [_ Hn]; [left|]. rewrite filter_truthy_nil in E.
  specialize (E (toManagePermission c)). cbn [List.map] in E. ospecialize (E _); [left|].
  unfold toManagePermission in E.
  destruct (normalizeToManageCode_cases c) as [(m & _ & Em)|(Em & _)]; rewrite Em in E; [by destruct m|done].
Qed.

Lemma trim_manage c : trim c = c -> trim (normalizeToManageCode c) = normalizeToManageCode c.
Proof.
  intros H. destruct (normalizeToManageCode_cases c) as [(m & -> & ->)|(-> & _)]; [|done].
  apply trim_id. assert (no_ws_ends (m ++ js "_view")) as (Hh & _) by (rewrite <- H; apply no_ws_ends_trim).
  split; [by destruct m|]. by rewrite rev_app_distr.
Qed.

(** Managing implies viewing: while the server reserves a manage code to the
    master along with its view code, a control that a binding of clean codes
    opens in manage mode is open in view mode. *)
Theorem manage_access_implies_view locale route value nodeAdmin w :
  reachable locale w -> view_closed w.(gs) -> clean (toPermissionList route value) ->
  (hasManagePermissionAccess route value nodeAdmin w).1 = true ->
  (hasPermissionAccess route value nodeAdmin w).1 = true.
Proof.
  intros Hw%reachable_ok Hv Hc. unfold hasManagePermissionAccess, hasPermissionAccess.
  destruct (hasPermissionAccessByMode_reads route manage value nodeAdmin w Hw) as (-> & _).
  destruct (hasPermissionAccessByMode_reads route view value nodeAdmin w Hw) as (-> & _).
  rewrite !access_granted_spec. intros [?|[[E ?]|(c & Hin & Hg)]]; [by left| |].
  - right. left. split; [by apply manage_list_nil|done].
  - right. right. unfold access_list in *. apply elem_filter_truthy in Hin as [Hin _].
    apply elem_map in Hin as (d & -> & Hd). exists d. split; [done|].
    destruct (Hc d Hd) as [Ht _]. unfold toManagePermission in Hg. rewrite trim_manage in Hg by done.
    rewrite Ht. by apply granted_manage_view.
Qed.

Lemma manage_access_implies_view_witness :
  let w := sample_world false (js "edge1") [js "website_manage"] [js "firewall_view"; js "firewall_manage"] in
  let route := {| route_meta := sample_meta (PStr (js "website_view")); route_matched := [] |} in
  (hasManagePermissionAccess route PUndef false w).1 = true /\
  (hasPermissionAccess route PUndef false w).1 = true.
Proof.
  cbn zeta. assert (Hm : (hasManagePermissionAccess
    {| route_meta := sample_meta (PStr (js "website_view")); route_matched := [] |} PUndef false
    (sample_world false (js "edge1") [js "website_manage"] [js "firewall_view"; js "firewall_manage"])).1 = true)
    by (vm_compute; reflexivity).
  split; [exact Hm|]. apply (manage_access_implies_view (js "en")); [| | |exact Hm].
  - by apply sample_world_reachable, no_newline_dec.
  - intros m H. cbn in H. apply elem_of_cons in H as [H|H]; [|apply list_elem_of_singleton in H].
    + apply (app_inv_tail (js "_view") m (js "firewall")) in H as ->. cbn. right. left.
    + by apply (eq_sym), (manage_not_view (js "firewall")) in H.
  - intros c Hc. cbn in Hc. apply list_elem_of_singleton in Hc as ->. by split; [vm_compute|].
Defined.

(** *** The composable and the utilities decide alike *)

Lemma trim_view m v : (95%N ∈ v) -> truthy (trim (m ++ v)) = true.
Proof.
  intros H. apply truthy_true, (trim_not_blank _ 95); [|done]. apply elem_of_app. by right.
Qed.

Lemma normalize_blank c : truthy (trim (normalizeToManageCode c)) = truthy (trim c).
Proof.
  destruct (normalizeToManageCode_cases c) as [(m & -> & ->)|(-> & _)]; [|done].
  rewrite !trim_view; [done|..]; cbn; repeat (first [left|right]).
Qed.

Lemma normalize_truthy c : truthy (normalizeToManageCode c) = truthy c.
Proof.
  destruct (normalizeToManageCode_cases c) as [(m & -> & ->)|(-> & _)]; [|done]. by destruct m.
Qed.

Lemma trim_truthy c : truthy (trim c) = true -> truthy c = true.
Proof. by destruct c. Qed.

(** Normalising a list before the blanks are dropped, or after. *)
Lemma normalize_list l :
  let nb := List.filter (fun p => truthy (trim p)) in
  List.map toManagePermission (nb (List.filter truthy (List.map toManagePermission l))) =
  List.map toManagePermission (nb l).
Proof.
  unfold toManagePermission. cbn zeta. induction l as [|c l IH]; [done|]. cbn [List.map List.filter].
  rewrite normalize_truthy. destruct (truthy (trim c)) eqn:Eb.
  - rewrite (trim_truthy c Eb). cbn [List.map List.filter]. rewrite normalize_blank, Eb.
    cbn [List.map]. by rewrite IH, normalizeToManageCode_idemp.
  - destruct (truthy c); cbn [List.filter]; [|done]. by rewrite normalize_blank, Eb.
Qed.

(** The route's own permission holds no blank code. *)
Definition route_clean (route : CurrentRoute) : Prop :=
  match getRoutePermission route with
  | PUndef => True
  | PStr s => s = [] \/ trim s <> []
  | PList l => forall s, s ∈ l -> trim s <> []
  end.

Section Agree.
Variable route : CurrentRoute.
Hypothesis Hclean : route_clean route.

(** The route's permission as a value is what an absent value stands for. *)
Lemma toPermissionList_route value :
  match value with PUndef | PStr [] => True | _ => False end ->
  toPermissionList route (or_empty_list (getRoutePermission route)) = toPermissionList route value.
Proof.
  intros Hv. assert (toPermissionList route value =
    match getRoutePermission route with
    | PList l => l | PStr s => if truthy s then [s] else [] | PUndef => [] end) as ->.
  { destruct value as [|[|? ?]|]; done. }
  unfold route_clean in Hclean. destruct (getRoutePermission route) as [|[|a s]|l] eqn:E; try done.
  - destruct Hclean as [?|H]; [done|]. cbn [or_empty_list toPermissionList].
    apply truthy_true in H. by rewrite H.
  - cbn. apply filter_all. intros s Hs. by apply truthy_true, Hclean.
Qed.

Lemma access_list_manage value :
  access_list route manage (or_empty_list (toManagePermissionValue value)) =
  access_list route manage (or_empty_list value).
Proof.
  unfold access_list. destruct value as [|[|a s]|l]; try done.
  - assert (or_empty_list (toManagePermissionValue (PStr (a :: s))) =
      PStr (normalizeToManageCode (a :: s))) as ->.
    { cbn [toManagePermissionValue]. unfold toManagePermission. pose proof (normalize_truthy (a :: s)).
      by destruct (normalizeToManageCode (a :: s)). }
    cbn [or_empty_list toPermissionList]. rewrite normalize_blank.
    destruct (truthy (trim (a :: s))); [|done]. cbn [List.map]. unfold toManagePermission.
    by rewrite normalizeToManageCode_idemp.
  - cbn [toManagePermissionValue or_empty_list toPermissionList]. by rewrite normalize_list.
Qed.

Lemma toPermissionList_source value :
  toPermissionList route (or_empty_list (sourcePermission route value)) = toPermissionList route value.
Proof.
  destruct value as [|[|a s]|l]; [by apply toPermissionList_route..|done|done].
Qed.

Lemma menu_lists value :
  access_list route manage (or_empty_list (managePermission route value)) =
    access_list route manage value /\
  access_list route view (or_empty_list (sourcePermission route value)) = access_list route view value.
Proof.
  unfold managePermission. rewrite access_list_manage.
  unfold access_list. by rewrite toPermissionList_source.
Qed.
End Agree.

(** The composable useMenuManagePermission answers what hasPermissionAccess
    and hasManagePermissionAccess answer for the same binding on the same route,
    although it normalises the codes before the utilities normalise them again,
    while the route declares no blank code. *)
Theorem useMenuManagePermission_agrees locale route value w :
  reachable locale w -> route_clean route ->
  (menu_hasManagePermission route value w).1 = (hasManagePermissionAccess route value false w).1 /\
  (menu_hasPermission route value w).1 = (hasPermissionAccess route value false w).1.
Proof.
  intros Hw%reachable_ok Hr. destruct (menu_lists route Hr value) as [E1 E2].
  unfold menu_hasManagePermission, menu_hasPermission, hasManagePermissionAccess, hasPermissionAccess.
  split.
  all: rewrite (proj1 (hasPermissionAccessByMode_reads _ _ _ _ w Hw)).
  all: rewrite (proj1 (hasPermissionAccessByMode_reads _ _ _ _ w Hw)).
  all: unfold access_granted; by rewrite ?E1, ?E2.
Qed.

Lemma useMenuManagePermission_agrees_witness :
  let w := sample_world false (js "edge1") [js "website_manage"] [] in
  let route := {| route_meta := sample_meta (PStr (js "website_view")); route_matched := [] |} in
  (menu_hasManagePermission route PUndef w).1 = (hasManagePermissionAccess route PUndef false w).1 /\
  (menu_hasPermission route PUndef w).1 = (hasPermissionAccess route PUndef false w).1.
Proof.
  cbn zeta. apply (useMenuManagePermission_agrees (js "en")).
  - by apply sample_world_reachable, no_newline_dec.
  - by right.
Defined.
