(* ===== verification/Directive.v ===== *)
(** * The permission directive

    src/frontend/src/directives/modules/permission.ts: v-permission disables the
    element it is bound to and the form controls inside it, remembers in
    data-permission attributes what it overwrote, and restores it. *)

From S2P Require Import Prelude JsString GlobalStore Access.

(** ** Elements

    What the directive reads and writes of an HTMLElement.  [native] says that
    it is a button, input, select or textarea. *)
Record Elem := {
  native : bool;
  attrs : gmap jsstr jsstr;
  disabled : bool;
  pointerEvents : jsstr;
  classes : gset jsstr;
}.

Definition set_attrs (f : gmap jsstr jsstr -> gmap jsstr jsstr) (e : Elem) : Elem :=
  Build_Elem e.(native) (f e.(attrs)) e.(disabled) e.(pointerEvents) e.(classes).
Definition setAttribute (k v : jsstr) : Elem -> Elem := set_attrs <[k := v]>.
Definition removeAttribute (k : jsstr) : Elem -> Elem := set_attrs (delete k).
Definition getAttribute (k : jsstr) (e : Elem) : option jsstr := e.(attrs) !! k.
Definition hasAttribute (k : jsstr) (e : Elem) : bool := bool_decide (is_Some (getAttribute k e)).
Definition set_disabled (b : bool) (e : Elem) : Elem :=
  Build_Elem e.(native) e.(attrs) b e.(pointerEvents) e.(classes).
Definition set_pointerEvents (p : jsstr) (e : Elem) : Elem :=
  Build_Elem e.(native) e.(attrs) e.(disabled) p e.(classes).
Definition set_classes (f : gset jsstr -> gset jsstr) (e : Elem) : Elem :=
  Build_Elem e.(native) e.(attrs) e.(disabled) e.(pointerEvents) (f e.(classes)).

Definition PERMISSION_DISABLED_ATTR := js "data-permission-disabled".
Definition PERMISSION_POINTER_EVENTS_ATTR := js "data-permission-pointer-events".
Definition PERMISSION_NATIVE_DISABLED_ATTR := js "data-permission-native-disabled".
Definition PERMISSION_TABINDEX_ATTR := js "data-permission-tabindex".
Definition NODE_ADMIN_PERMISSION_ATTR := js "data-node-admin-permission".
Definition aria_disabled := js "aria-disabled".
Definition tabindex := js "tabindex".
Definition is_disabled := js "is-disabled".

(** An element and the form controls inside it, in document order. *)
Record Tree := { root : Elem; controls : list Elem }.

(** ** The loops over getDisableTargets, one target at a time *)

Definition disable_target (t : Elem) : Elem :=
  if t.(native) then
    let t := if hasAttribute PERMISSION_NATIVE_DISABLED_ATTR t then t
      else setAttribute PERMISSION_NATIVE_DISABLED_ATTR
             (if t.(disabled) then js "true" else js "false") t in
    set_disabled true t
  else
    let t := if hasAttribute PERMISSION_TABINDEX_ATTR t then t
      else setAttribute PERMISSION_TABINDEX_ATTR (default [] (getAttribute tabindex t)) t in
    setAttribute tabindex (js "-1") t.

Definition enable_target (t : Elem) : Elem :=
  if t.(native) then
    match getAttribute PERMISSION_NATIVE_DISABLED_ATTR t with
    | Some previousDisabled =>
        removeAttribute PERMISSION_NATIVE_DISABLED_ATTR
          (set_disabled (previousDisabled === js "true") t)
    | None => t
    end
  else
    match getAttribute PERMISSION_TABINDEX_ATTR t with
    | Some previousTabindex =>
        removeAttribute PERMISSION_TABINDEX_ATTR
          (if previousTabindex === [] then removeAttribute tabindex t
           else setAttribute tabindex previousTabindex t)
    | None => t
    end.

Definition map_targets (f : Elem -> Elem) (el : Tree) : Tree :=
  {| root := f el.(root); controls := List.map f el.(controls) |}.
Definition map_root (f : Elem -> Elem) (el : Tree) : Tree :=
  {| root := f el.(root); controls := el.(controls) |}.

Definition disableNativeControls : Tree -> Tree := map_targets disable_target.
Definition enableNativeControls : Tree -> Tree := map_targets enable_target.

Definition disable_root (e : Elem) : Elem :=
  let e := if hasAttribute PERMISSION_POINTER_EVENTS_ATTR e then e
           else setAttribute PERMISSION_POINTER_EVENTS_ATTR e.(pointerEvents) e in
  let e := set_pointerEvents (js "none") e in
  let e := setAttribute aria_disabled (js "true") e in
  let e := setAttribute PERMISSION_DISABLED_ATTR (js "true") e in
  set_classes (fun c => c ∪ {[is_disabled]}) e.

Definition disableElement (el : Tree) : Tree := disableNativeControls (map_root disable_root el).

Definition enable_root (e : Elem) : Elem :=
  let e := set_pointerEvents (default [] (getAttribute PERMISSION_POINTER_EVENTS_ATTR e)) e in
  let e := removeAttribute aria_disabled e in
  let e := removeAttribute PERMISSION_DISABLED_ATTR e in
  let e := removeAttribute PERMISSION_POINTER_EVENTS_ATTR e in
  set_classes (fun c => c ∖ {[is_disabled]}) e.

Definition enableElement (el : Tree) : Tree :=
  if negb (hasAttribute PERMISSION_DISABLED_ATTR el.(root)) then el
  else enableNativeControls (map_root enable_root el).

(** ** The directive

    A binding: its argument and value.  The vnode's component may expose
    setPermissionDisabled, whose calls are recorded; [has_nodeAdmin] says that
    v-node-admin is among the vnode's directives. *)
Record Binding := { arg : option jsstr; value : PermissionValue }.
Record VNode := { controller : option (list bool); has_nodeAdmin : bool }.
Record Bound := { element : Tree; vnode : VNode; world : World }.

Definition getPermissionMode (b : Binding) : PermissionMode :=
  match b.(arg) with Some a => if a === js "view" then view else manage | None => manage end.

Definition hasNodeAdminDirective (el : Tree) (v : VNode) : bool :=
  hasAttribute NODE_ADMIN_PERMISSION_ATTR el.(root) || v.(has_nodeAdmin).

Definition applyPermission (route : CurrentRoute) (binding : Binding) (s : Bound) : Bound :=
  let nodeAdmin := hasNodeAdminDirective s.(element) s.(vnode) in
  let '(access, w) :=
    match getPermissionMode binding with
    | view => hasPermissionAccess route binding.(value) nodeAdmin s.(world)
    | manage => hasManagePermissionAccess route binding.(value) nodeAdmin s.(world)
    end in
  let disabled := negb access in
  match s.(vnode).(controller) with
  | Some calls =>
      {| element := s.(element); world := w;
         vnode := {| controller := Some (calls ++ [disabled]); has_nodeAdmin := s.(vnode).(has_nodeAdmin) |} |}
  | None =>
      {| element := if disabled then disableElement s.(element) else enableElement s.(element);
         vnode := s.(vnode); world := w |}
  end.

Definition nodeAdmin_mounted : Tree -> Tree := map_root (setAttribute NODE_ADMIN_PERMISSION_ATTR (js "true")).
Definition nodeAdmin_updated : Tree -> Tree := map_root (setAttribute NODE_ADMIN_PERMISSION_ATTR (js "true")).
Definition nodeAdmin_unmounted : Tree -> Tree := map_root (removeAttribute NODE_ADMIN_PERMISSION_ATTR).

(** ** Restoring *)

(** An element the directive has not touched, and whose own state it can
    restore: an empty tabindex cannot be told from an absent one. *)
Definition fresh_target (e : Elem) : Prop :=
  getAttribute PERMISSION_NATIVE_DISABLED_ATTR e = None /\
  getAttribute PERMISSION_TABINDEX_ATTR e = None /\
  (e.(native) = false -> getAttribute tabindex e <> Some []).

Definition fresh (el : Tree) : Prop :=
  Forall fresh_target (el.(root) :: el.(controls)) /\
  getAttribute PERMISSION_DISABLED_ATTR el.(root) = None /\
  getAttribute PERMISSION_POINTER_EVENTS_ATTR el.(root) = None.

(** An element without the marks of a disabled one, which disableElement overwrites without
    keeping what they were, and enableElement takes away. *)
Definition unmark (e : Elem) : Elem := set_classes (fun c => c ∖ {[is_disabled]}) (removeAttribute aria_disabled e).
Definition unmarked : Tree -> Tree := map_root unmark.
Definition bare (el : Tree) : Prop := getAttribute aria_disabled el.(root) = None /\ is_disabled ∉ el.(root).(classes).

Lemma Elem_ext e e' :
  e.(native) = e'.(native) -> (forall k, getAttribute k e = getAttribute k e') ->
  e.(disabled) = e'.(disabled) -> e.(pointerEvents) = e'.(pointerEvents) ->
  e.(classes) = e'.(classes) -> e = e'.
Proof.
  intros H1 H2 H3 H4 H5. assert (attrs e = attrs e') by (by apply map_eq).
  destruct e, e'; cbn in *; congruence.
Qed.

Lemma hasAttribute_eq k e :
  hasAttribute k e = match getAttribute k e with Some _ => true | None => false end.
Proof.
  unfold hasAttribute. destruct (getAttribute k e); [by apply bool_decide_eq_true|].
  apply bool_decide_eq_false. by intros [? ?].
Qed.

Lemma get_set k k' v e :
  getAttribute k (setAttribute k' v e) = if decide (k' = k) then Some v else getAttribute k e.
Proof. apply lookup_insert. Qed.

Lemma get_remove k k' e :
  getAttribute k (removeAttribute k' e) = if decide (k' = k) then None else getAttribute k e.
Proof. apply lookup_delete. Qed.

(** Attributes of an updated element: the names are constants, so two of them
    are equal or not by computation. *)
Ltac attr_step :=
  match goal with
  | H : @eq (list N) ?a ?b |- _ => vm_compute in H; discriminate H
  | H : @eq (list N) ?a ?b |- _ => first [subst a | subst b]
  | H : ?a <> ?a |- _ => by destruct H
  | |- context [decide ?P] => destruct (decide P)
  end.

(** What each half of the directive does to an attribute of a target. *)
Lemma disable_target_get k e :
  getAttribute k (disable_target e) =
  if e.(native) then
    if decide (PERMISSION_NATIVE_DISABLED_ATTR = k)
    then Some (default (if e.(disabled) then js "true" else js "false")
                 (getAttribute PERMISSION_NATIVE_DISABLED_ATTR e))
    else getAttribute k e
  else
    if decide (tabindex = k) then Some (js "-1")
    else if decide (PERMISSION_TABINDEX_ATTR = k)
    then Some (default (default [] (getAttribute tabindex e)) (getAttribute PERMISSION_TABINDEX_ATTR e))
    else getAttribute k e.
Proof.
  unfold disable_target. rewrite !hasAttribute_eq. destruct (native e).
  - change (getAttribute k (set_disabled true ?x)) with (getAttribute k x).
    destruct (getAttribute PERMISSION_NATIVE_DISABLED_ATTR e) eqn:E; rewrite ?get_set;
      repeat case_decide; by subst.
  - destruct (getAttribute PERMISSION_TABINDEX_ATTR e) eqn:E; rewrite ?get_set;
      repeat case_decide; by subst.
Qed.

Lemma disable_target_rest e :
  native (disable_target e) = native e /\ disabled (disable_target e) = native e || disabled e /\
  pointerEvents (disable_target e) = pointerEvents e /\ classes (disable_target e) = classes e.
Proof.
  unfold disable_target. destruct (native e) eqn:E; case_step; cbn; rewrite ?E; done.
Qed.

Lemma enable_target_get k e :
  getAttribute k (enable_target e) =
  if e.(native) then
    if decide (PERMISSION_NATIVE_DISABLED_ATTR = k) then None else getAttribute k e
  else
    match getAttribute PERMISSION_TABINDEX_ATTR e with
    | None => getAttribute k e
    | Some t =>
        if decide (PERMISSION_TABINDEX_ATTR = k) then None
        else if decide (tabindex = k) then (if decide (t = []) then None else Some t)
        else getAttribute k e
    end.
Proof.
  unfold enable_target. destruct (native e).
  - destruct (getAttribute PERMISSION_NATIVE_DISABLED_ATTR e) eqn:E; rewrite ?get_remove;
      repeat case_decide; by subst.
  - destruct (getAttribute PERMISSION_TABINDEX_ATTR e) as [t|] eqn:E; [|done].
    rewrite get_remove. unfold streqb. destruct (decide (t = [])) as [Ht|Ht].
    + rewrite bool_decide_eq_true_2, get_remove by done. done.
    + rewrite bool_decide_eq_false_2, get_set by done. done.
Qed.

Lemma enable_target_rest e :
  native (enable_target e) = native e /\
  disabled (enable_target e) =
    (if native e then match getAttribute PERMISSION_NATIVE_DISABLED_ATTR e with
                      | Some p => p === js "true" | None => disabled e end else disabled e) /\
  pointerEvents (enable_target e) = pointerEvents e /\ classes (enable_target e) = classes e.
Proof.
  unfold enable_target. destruct (native e) eqn:E; case_step; rewrite ?E; try done.
  case_step; done.
Qed.

Lemma disable_target_idemp e : disable_target (disable_target e) = disable_target e.
Proof.
  destruct (disable_target_rest e) as (H1 & H2 & H3 & H4).
  destruct (disable_target_rest (disable_target e)) as (K1 & K2 & K3 & K4).
  apply Elem_ext; [congruence| |rewrite K2, H1, H2; by destruct (native e)|congruence..].
  intros k. rewrite (disable_target_get k (disable_target e)), H1, !disable_target_get.
  clear. destruct (native e); repeat attr_step; done.
Qed.

Lemma enable_disable_target e : fresh_target e -> enable_target (disable_target e) = e.
Proof.
  intros (F1 & F2 & F3).
  destruct (disable_target_rest e) as (H1 & H2 & H3 & H4).
  destruct (enable_target_rest (disable_target e)) as (K1 & K2 & K3 & K4).
  apply Elem_ext; [congruence| | |congruence..].
  - intros k. rewrite enable_target_get, H1, !disable_target_get. clear -F1 F2 F3.
    destruct (native e); rewrite ?F1, ?F2.
    + repeat attr_step; done.
    + destruct (decide (tabindex = _)); [by attr_step|].
      destruct (decide (_ = PERMISSION_TABINDEX_ATTR)); [|done]. cbn [default].
      repeat attr_step; try done.
      all: specialize (F3 eq_refl); destruct (getAttribute tabindex e); cbn in *; congruence.
  - rewrite K2, H1, H2, disable_target_get. destruct (native e); [|done].
    rewrite decide_True by done. rewrite F1. cbn. by destruct (disabled e).
Qed.

Lemma disable_root_get k e :
  getAttribute k (disable_root e) =
  if decide (PERMISSION_DISABLED_ATTR = k) then Some (js "true")
  else if decide (aria_disabled = k) then Some (js "true")
  else if decide (PERMISSION_POINTER_EVENTS_ATTR = k)
  then Some (default e.(pointerEvents) (getAttribute PERMISSION_POINTER_EVENTS_ATTR e))
  else getAttribute k e.
Proof.
  unfold disable_root. rewrite hasAttribute_eq.
  change (getAttribute k (set_classes ?f ?x)) with (getAttribute k x). rewrite !get_set.
  change (getAttribute k (set_pointerEvents ?f ?x)) with (getAttribute k x).
  destruct (getAttribute PERMISSION_POINTER_EVENTS_ATTR e) eqn:E; rewrite ?get_set;
    repeat case_decide; by subst.
Qed.

Lemma disable_root_rest e :
  native (disable_root e) = native e /\ disabled (disable_root e) = disabled e /\
  pointerEvents (disable_root e) = js "none" /\ classes (disable_root e) = classes e ∪ {[is_disabled]}.
Proof. unfold disable_root. by destruct (hasAttribute _ e). Qed.

Lemma enable_root_get k e :
  getAttribute k (enable_root e) =
  if decide (PERMISSION_POINTER_EVENTS_ATTR = k) then None
  else if decide (PERMISSION_DISABLED_ATTR = k) then None
  else if decide (aria_disabled = k) then None
  else getAttribute k e.
Proof.
  unfold enable_root. change (getAttribute k (set_classes ?f ?x)) with (getAttribute k x).
  by rewrite !get_remove.
Qed.

Lemma enable_root_rest e :
  native (enable_root e) = native e /\ disabled (enable_root e) = disabled e /\
  pointerEvents (enable_root e) = default [] (getAttribute PERMISSION_POINTER_EVENTS_ATTR e) /\
  classes (enable_root e) = classes e ∖ {[is_disabled]}.
Proof. done. Qed.

(** Both passes over the root. *)
Definition disable_both (e : Elem) : Elem := disable_target (disable_root e).
Definition enable_both (e : Elem) : Elem := enable_target (enable_root e).

Definition fresh_root (e : Elem) : Prop :=
  getAttribute PERMISSION_DISABLED_ATTR e = None /\
  getAttribute PERMISSION_POINTER_EVENTS_ATTR e = None.

Lemma disable_both_rest e :
  native (disable_both e) = native e /\ disabled (disable_both e) = native e || disabled e /\
  pointerEvents (disable_both e) = js "none" /\ classes (disable_both e) = classes e ∪ {[is_disabled]}.
Proof.
  unfold disable_both. destruct (disable_target_rest (disable_root e)) as (-> & -> & -> & ->).
  by destruct (disable_root_rest e) as (-> & -> & -> & ->).
Qed.

Lemma disable_both_idemp e : disable_both (disable_both e) = disable_both e.
Proof.
  destruct (disable_both_rest e) as (H1 & H2 & H3 & H4).
  destruct (disable_both_rest (disable_both e)) as (K1 & K2 & K3 & K4).
  destruct (disable_root_rest e) as (N & D & _).
  destruct (disable_root_rest (disable_both e)) as (N' & D' & _).
  apply Elem_ext; [congruence| |rewrite K2, H1, H2; by destruct (native e)|congruence|].
  - intros k. unfold disable_both at 1. rewrite disable_target_get, N', D', H1, H2.
    rewrite !(disable_root_get _ (disable_both e)). unfold disable_both.
    rewrite !disable_target_get, N, D, !disable_root_get.
    clear. destruct (native e); repeat attr_step; done.
  - rewrite K4, H4. set_solver.
Qed.

Lemma unmark_get k e : getAttribute k (unmark e) = if decide (aria_disabled = k) then None else getAttribute k e.
Proof. apply get_remove. Qed.

Lemma unmark_rest e :
  native (unmark e) = native e /\ disabled (unmark e) = disabled e /\ pointerEvents (unmark e) = pointerEvents e /\
  classes (unmark e) = classes e ∖ {[is_disabled]}.
Proof. done. Qed.

Lemma enable_disable_both e :
  fresh_target e -> fresh_root e -> enable_both (disable_both e) = unmark e.
Proof.
  intros (F1 & F2 & F3) (R1 & R2).
  destruct (disable_both_rest e) as (H1 & H2 & H3 & H4).
  destruct (disable_root_rest e) as (N & D & _).
  destruct (enable_root_rest (disable_both e)) as (N' & D' & P' & C').
  destruct (enable_target_rest (enable_root (disable_both e))) as (K1 & K2 & K3 & K4).
  assert (forall k, getAttribute k (enable_root (disable_both e)) =
    if decide (aria_disabled = k) then None else getAttribute k (disable_target e)) as G.
  { intros k. rewrite enable_root_get. unfold disable_both.
    rewrite !disable_target_get, N, D, !disable_root_get. clear -F1 F2 F3 R1 R2.
    destruct (native e); repeat attr_step; done. }
  apply Elem_ext; unfold enable_both.
  - rewrite K1, N', H1. done.
  - intros k. rewrite unmark_get.
    assert (getAttribute k e = getAttribute k (enable_target (disable_target e))) as -> by (by rewrite enable_disable_target).
    rewrite !enable_target_get, !G, N', H1. destruct (disable_target_rest e) as (-> & _).
    clear. destruct (native e); repeat attr_step; try done; case_match; repeat attr_step; done.
  - rewrite K2, N', H1, D', H2, G, disable_target_get. destruct (unmark_rest e) as (_ & -> & _). destruct (native e); [|done].
    clear -F1. repeat attr_step; try done. rewrite F1. cbn. by destruct (disabled e).
  - rewrite K3, P'. unfold disable_both. rewrite disable_target_get, N, !disable_root_get, R2.
    clear. destruct (native e); repeat attr_step; done.
  - rewrite K4, C', H4. destruct (unmark_rest e) as (_ & _ & _ & ->). set_solver.
Qed.

Lemma disable_both_unmark e : disable_both (unmark e) = disable_both e.
Proof.
  destruct (disable_both_rest e) as (H1 & H2 & H3 & H4), (disable_both_rest (unmark e)) as (K1 & K2 & K3 & K4).
  destruct (unmark_rest e) as (U1 & U2 & U3 & U4), (disable_root_rest e) as (N & D & _), (disable_root_rest (unmark e)) as (N' & D' & _).
  apply Elem_ext; [congruence| |congruence..|].
  - intros k. unfold disable_both. rewrite !disable_target_get, N, N', D, D', U1, U2, !disable_root_get, !unmark_get, U3.
    clear. destruct (native e); repeat attr_step; done.
  - rewrite K4, H4, U4. clear. apply set_eq. intros x. destruct (decide (x = is_disabled)); set_solver.
Qed.

Lemma disableElement_eq el :
  disableElement el =
  {| root := disable_both el.(root); controls := List.map disable_target el.(controls) |}.
Proof. reflexivity. Qed.

Lemma enableElement_eq el :
  enableElement el =
  if hasAttribute PERMISSION_DISABLED_ATTR el.(root)
  then {| root := enable_both el.(root); controls := List.map enable_target el.(controls) |}
  else el.
Proof. unfold enableElement. by destruct (hasAttribute _ _). Qed.

Lemma fresh_parts el :
  fresh el -> Forall fresh_target el.(controls) /\ fresh_target el.(root) /\ fresh_root el.(root).
Proof. intros (H & ?). by inversion_clear H. Qed.

Lemma has_disabled_attr e : hasAttribute PERMISSION_DISABLED_ATTR (disable_both e) = true.
Proof.
  rewrite hasAttribute_eq. unfold disable_both. rewrite disable_target_get, !disable_root_get.
  destruct (native _); repeat attr_step; done.
Qed.

Lemma disable_both_nodeAdmin e :
  hasAttribute NODE_ADMIN_PERMISSION_ATTR (disable_both e) = hasAttribute NODE_ADMIN_PERMISSION_ATTR e.
Proof.
  rewrite !hasAttribute_eq. unfold disable_both. rewrite disable_target_get, !disable_root_get.
  destruct (native _); repeat attr_step; done.
Qed.

#[local] Opaque disable_target enable_target disable_both enable_both.

Lemma fresh_enabled el : fresh el -> enableElement el = el.
Proof. intros (_ & H & _). by rewrite enableElement_eq, hasAttribute_eq, H. Qed.

Lemma unmarked_enabled el : fresh el -> enableElement (unmarked el) = unmarked el.
Proof. intros (_ & H & _). rewrite enableElement_eq, hasAttribute_eq. cbn [unmarked map_root root]. by rewrite unmark_get, H. Qed.

Lemma unmarked_bare el : bare el -> unmarked el = el.
Proof.
  intros [Ha Hc]. destruct el as [r cs]. cbn [root] in *. unfold unmarked, map_root. f_equal. cbn [root].
  destruct (unmark_rest r) as (U1 & U2 & U3 & U4). apply Elem_ext; [done| |done..|rewrite U4; set_solver].
  intros k. rewrite unmark_get. case_decide; by subst.
Qed.

Lemma disableElement_unmarked el : disableElement (unmarked el) = disableElement el.
Proof. rewrite !disableElement_eq. cbn [unmarked map_root root controls]. by rewrite disable_both_unmark. Qed.

Lemma disableElement_idemp el : disableElement (disableElement el) = disableElement el.
Proof.
  rewrite !disableElement_eq. cbn [root controls]. rewrite disable_both_idemp, map_map.
  f_equal. apply map_ext, disable_target_idemp.
Qed.

Lemma enable_disableElement el : fresh el -> enableElement (disableElement el) = unmarked el.
Proof.
  intros Hf. destruct (fresh_parts el Hf) as (Hc & Ht & Hr).
  rewrite disableElement_eq, enableElement_eq. cbn [root controls].
  rewrite has_disabled_attr, enable_disable_both by done.
  destruct el as [r cs]. unfold unmarked, map_root. f_equal. cbn [controls] in *. clear -Hc.
  induction Hc as [|c cs H Hc IH]; [done|]. cbn [List.map]. by rewrite enable_disable_target, IH.
Qed.

(** ** A bound element through its life

    The directive runs at any moment, on any route, and the store changes in
    between. *)
Inductive bound_step : Bound -> Bound -> Prop :=
| bound_apply route b s : bound_step s (applyPermission route b s)
| bound_store s w : store_step s.(world) w ->
    bound_step s {| element := s.(element); vnode := s.(vnode); world := w |}.

(** Mounted without a component controller, in a reachable state of the store. *)
Record mounted (locale : jsstr) (el : Tree) (s : Bound) : Prop := {
  mounted_element : s.(element) = el;
  mounted_controller : s.(vnode).(controller) = None;
  mounted_world : reachable locale s.(world);
}.

Definition access_ok (g : GlobalState) (route : CurrentRoute) (b : Binding) (nodeAdmin : bool) : Prop :=
  nodeAdmin = true /\ isNodeAdmin g = true \/
  access_list route (getPermissionMode b) b.(value) = [] /\ g.(tags).(isAdmin) = true \/
  exists c, c ∈ access_list route (getPermissionMode b) b.(value) /\ granted g (trim c).

Section Life.
Variables (el : Tree) (v : VNode).
Hypotheses (Hel : fresh el) (Hv : v.(controller) = None).

Definition life_ok (s : Bound) : Prop :=
  (s.(element) = el \/ s.(element) = unmarked el \/ s.(element) = disableElement el) /\ s.(vnode) = v /\ world_ok s.(world).

Lemma life_nodeAdmin s :
  life_ok s -> hasNodeAdminDirective s.(element) s.(vnode) = hasNodeAdminDirective el v.
Proof.
  intros (He & -> & _). unfold hasNodeAdminDirective. f_equal.
  destruct He as [->|[->| ->]]; [done|..].
  - rewrite !hasAttribute_eq. cbn [unmarked map_root root]. rewrite unmark_get. by rewrite decide_False by (vm_compute; discriminate).
  - rewrite disableElement_eq. apply disable_both_nodeAdmin.
Qed.

Lemma applyPermission_life route b s :
  life_ok s ->
  let access := access_granted route (getPermissionMode b) b.(value)
                  (hasNodeAdminDirective el v) s.(world).(gs) in
  (applyPermission route b s).(element) = (if access then enableElement s.(element) else disableElement el) /\
  life_ok (applyPermission route b s).
Proof.
  intros Hs. pose proof (life_nodeAdmin s Hs) as En. destruct Hs as (He & Ev & Hw).
  unfold applyPermission. rewrite En, Ev, Hv.
  assert (forall m, match m with
    | manage => hasManagePermissionAccess route b.(value) (hasNodeAdminDirective el v) s.(world)
    | view => hasPermissionAccess route b.(value) (hasNodeAdminDirective el v) s.(world)
    end = hasPermissionAccessByMode route m b.(value) (hasNodeAdminDirective el v) s.(world)) as ->
    by (by intros [|]).
  destruct (hasPermissionAccessByMode_reads route (getPermissionMode b) b.(value)
    (hasNodeAdminDirective el v) s.(world) Hw) as (E & _ & Hok).
  destruct (hasPermissionAccessByMode _ _ _ _ _) as [access w]. cbn [fst snd] in *. subst access.
  destruct (access_granted _ _ _ _ _); cbn [negb element].
  - split; [done|]. split; [|done]. cbn [element].
    destruct He as [->|[->| ->]]; [left; by apply fresh_enabled|right; left; by apply unmarked_enabled|right; left; by apply enable_disableElement].
  - assert (disableElement (element s) = disableElement el) as ->.
    { destruct He as [->|[->| ->]]; [done|apply disableElement_unmarked|apply disableElement_idemp]. }
    split; [done|]. split; [by right; right|done].
Qed.

Lemma life_step s s' : life_ok s -> bound_step s s' -> life_ok s'.
Proof.
  intros Hs H. destruct H as [route b s|s w Hw]; [by apply applyPermission_life|].
  destruct Hs as (He & Ev & Hok). split; [done|]. split; [done|]. by apply (store_step_ok (world s)).
Qed.
End Life.


(** A text input inside a link. *)
Definition sample_tree : Tree := {|
  root := {| native := false; attrs := {[ tabindex := js "0" ]}; disabled := false;
             pointerEvents := []; classes := {[ js "el-link" ]} |};
  controls := [ {| native := true; attrs := ∅; disabled := true; pointerEvents := []; classes := ∅ |} ];
|}.

Lemma sample_tree_fresh : fresh sample_tree.
Proof. split; [|vm_compute; done]. repeat constructor; intros; vm_compute; congruence. Qed.

Lemma sample_tree_bare : bare sample_tree.
Proof. split; [done|]. vm_compute. intros H; discriminate H. Qed.


(** A button its component has disabled, with the marks of its own. *)
Definition sample_button : Tree := {|
  root := {| native := true; attrs := {[ aria_disabled := js "true" ]}; disabled := true;
             pointerEvents := []; classes := {[ js "el-button"; is_disabled ]} |};
  controls := [];
|}.

(** Refused and then granted, it is still disabled, but no longer marked as such. *)
Lemma disabled_button_unmarked :
  let e := (enableElement (disableElement sample_button)).(root) in
  e.(disabled) = true /\ getAttribute aria_disabled e = None /\ (is_disabled ∉ e.(classes)) /\
  getAttribute aria_disabled sample_button.(root) = Some (js "true") /\ is_disabled ∈ sample_button.(root).(classes).
Proof.
  cbv zeta. assert (Hf : fresh sample_button) by (split; [repeat constructor; intros; vm_compute; congruence|vm_compute; done]).
  rewrite (enable_disableElement _ Hf). split; [done|]. split; [done|]. split; [set_solver|]. split; [done|]. set_solver.
Qed.
