(* ===== verification/TerminalSession.v ===== *)
(** * The terminal session store

    src/frontend/src/store/modules/terminal-session.ts.  The entries are mutable
    objects that survive in suspended calls after they have left the list, so
    they live in a heap; [open] and [reconnect] are cut at their awaits. *)

From S2P Require Import Prelude JsString Uri.

(** ** State *)

Inductive Status := online | closed.

Record Entry := {
  key : jsstr; title : jsstr; wsID : Z; endpoint : jsstr; args : jsstr; sessionId : jsstr;
  status : Status; latency : Z; refresh : Z;
}.

Definition set_session (id : jsstr) (st : Status) (e : Entry) : Entry :=
  Build_Entry e.(key) e.(title) e.(wsID) e.(endpoint) e.(args) id st e.(latency) e.(refresh).
Definition set_sessionId (id : jsstr) (e : Entry) : Entry := set_session id e.(status) e.
Definition set_link (st : Status) (l : Z) (e : Entry) : Entry :=
  Build_Entry e.(key) e.(title) e.(wsID) e.(endpoint) e.(args) e.(sessionId) st l e.(refresh).
Definition bump_refresh (e : Entry) : Entry :=
  Build_Entry e.(key) e.(title) e.(wsID) e.(endpoint) e.(args) e.(sessionId) e.(status) e.(latency)
    (e.(refresh) + 1).

(** A suspended [instanceOf]: the ticks it may still wait for, or its answer. *)
Inductive Await := Waiting (ticks : nat) | Resolved (inst : option N).

(** A suspended [open] or [reconnect]: the entry it holds, the key it looks up,
    whether it passes the session id, and what it was called with. *)
Record Call := {
  c_entry : N; c_key : jsstr; c_reconnect : bool; c_initCmd : jsstr; c_error : jsstr; c_await : Await;
}.

Record Accept := {
  a_inst : N; a_endpoint : jsstr; a_args : jsstr; a_initCmd : jsstr; a_error : jsstr;
  a_sessionId : option jsstr;
}.

(** Component instances and slot elements by identity. *)
Record Sessions := {
  heap : gmap N Entry; next : N; entries : list N;
  instances : gmap jsstr N; slots : gmap jsstr (option N);
  calls : list Call; accepted : list Accept;
}.

Definition initial_sessions : Sessions :=
  {| heap := ∅; next := 0; entries := []; instances := ∅; slots := ∅; calls := []; accepted := [] |}.

Definition with_heap (h : gmap N Entry) (s : Sessions) : Sessions :=
  Build_Sessions h s.(next) s.(entries) s.(instances) s.(slots) s.(calls) s.(accepted).
Definition with_instances (i : gmap jsstr N) (s : Sessions) : Sessions :=
  Build_Sessions s.(heap) s.(next) s.(entries) i s.(slots) s.(calls) s.(accepted).
Definition with_slots (i : gmap jsstr (option N)) (s : Sessions) : Sessions :=
  Build_Sessions s.(heap) s.(next) s.(entries) s.(instances) i s.(calls) s.(accepted).
Definition with_calls (c : list Call) (s : Sessions) : Sessions :=
  Build_Sessions s.(heap) s.(next) s.(entries) s.(instances) s.(slots) c s.(accepted).

Definition localEndpoint := js "/api/v2/hosts/terminal/local".
Definition sshEndpoint := js "/api/v2/hosts/terminal/ssh".

(** ** Operations *)

Definition find (s : Sessions) (k : jsstr) : option N :=
  List.find (fun o => match s.(heap) !! o with Some e => e.(key) === k | None => false end) s.(entries).

(** /operateNode=([^&]+)/.exec(args)?.[1] *)
Fixpoint operateNode (a : jsstr) : option jsstr :=
  let value :=
    (fix run (s : jsstr) : jsstr :=
       match s with [] => [] | c :: s' => if (c =? 38)%N then [] else c :: run s' end) in
  let here := if startsWith a (js "operateNode=") then value (drop (length (js "operateNode=")) a) else [] in
  if truthy here then Some here
  else match a with [] => None | _ :: a' => operateNode a' end.

Definition join_args : list jsstr -> jsstr := fun l => join (js "&") (List.filter truthy l).

Definition or_else (a b : jsstr) : jsstr := if truthy a then a else b.

Record Init := {
  i_title : jsstr; i_wsID : Z; i_nodeName : jsstr; i_args : jsstr; i_status : Status;
}.

(** The node an entry of the local endpoint runs on, escaped. *)
Definition target_node (currentNode : jsstr) (init : Init) : option jsstr :=
  match operateNode init.(i_args) with
  | Some n => Some n
  | None => encodeURIComponent (or_else init.(i_nodeName) (or_else currentNode (js "local")))
  end.

(** The title and the arguments of the new entry. *)
Definition title_args (currentNode : jsstr) (init : Init) : option (jsstr * jsstr) :=
  if (init.(i_wsID) =? 0)%Z then
    node ← target_node currentNode init;
    let ags := if negb (includes init.(i_args) (js "operateNode="))
               then join_args [init.(i_args); js "operateNode=" ++ node] else init.(i_args) in
    if (node !== js "local") && negb (truthy init.(i_nodeName)) then
      shown ← decodeURIComponent node;
      Some (init.(i_title) ++ js " (" ++ shown ++ js ")", ags)
    else Some (init.(i_title), ags)
  else Some (init.(i_title), init.(i_args)).

Definition new_entry (uuid enc : jsstr) (init : Init) (ta : jsstr * jsstr) : Entry :=
  let q := js "title=" ++ enc in
  {| key := uuid; title := ta.1; wsID := init.(i_wsID);
     endpoint := if (init.(i_wsID) =? 0)%Z then localEndpoint else sshEndpoint;
     args := join_args [(if (init.(i_wsID) =? 0)%Z then [] else js "id=" ++ decZ init.(i_wsID)); ta.2; q];
     sessionId := []; status := init.(i_status); latency := 0; refresh := 0 |}.

(** entries.value.push(e) *)
Definition push_entry (e : Entry) (s : Sessions) : Sessions :=
  Build_Sessions (<[s.(next) := e]> s.(heap)) (s.(next) + 1) (s.(entries) ++ [s.(next)])
    s.(instances) s.(slots) s.(calls) s.(accepted).

(** [uuid] is what newUUID answers; [None] is a URIError, thrown before the push. *)
Definition add (currentNode uuid : jsstr) (init : Init) (s : Sessions) : option Sessions :=
  enc ← encodeURIComponent init.(i_title);
  ta ← title_args currentNode init;
  Some (push_entry (new_entry uuid enc init ta) s).

Definition suspend (c : Call) (s : Sessions) : Sessions := with_calls (s.(calls) ++ [c]) s.

(** instanceOf waits for at most five ticks. *)
Definition open (currentNode uuid ttl : jsstr) (ws : Z) (nodeName initCmd error : jsstr) (s : Sessions)
    : option Sessions :=
  s' ← add currentNode uuid
    {| i_title := ttl; i_wsID := ws; i_nodeName := nodeName; i_args := [];
       i_status := if truthy error then closed else online |} s;
  o ← find s' uuid;
  Some (suspend {| c_entry := o; c_key := uuid; c_reconnect := false; c_initCmd := initCmd;
                   c_error := error; c_await := Waiting 5 |} s').

(** Its own nextTick comes on top of the five. *)
Definition reconnect (k error initCmd : jsstr) (s : Sessions) : Sessions :=
  match find s k with
  | None => s
  | Some o =>
      suspend {| c_entry := o; c_key := k; c_reconnect := true; c_initCmd := initCmd;
                 c_error := error; c_await := Waiting 6 |}
        (with_heap (alter bump_refresh o s.(heap)) s)
  end.

(** A tick of a suspended call.  A reconnect's first tick passes in any case. *)
Definition resume (c : Call) (s : Sessions) : Call * list Accept :=
  match c.(c_await) with
  | Waiting n =>
      let a := match s.(instances) !! c.(c_key), n with
               | Some i, S (S (S (S (S (S m))))) => Waiting 5
               | Some i, _ => Resolved (Some i)
               | None, S n' => Waiting n'
               | None, O => Resolved None
               end in
      (Build_Call c.(c_entry) c.(c_key) c.(c_reconnect) c.(c_initCmd) c.(c_error) a, [])
  | Resolved inst =>
      (c, match inst, s.(heap) !! c.(c_entry) with
          | Some i, Some e =>
              [ {| a_inst := i; a_endpoint := e.(endpoint); a_args := e.(args); a_initCmd := c.(c_initCmd);
                   a_error := c.(c_error);
                   a_sessionId := if c.(c_reconnect) then Some e.(sessionId) else None |} ]
          | _, _ => []
          end)
  end.

(** The call at position [n] runs on until its next await, or returns. *)
Definition resume_call (n : nat) (s : Sessions) : Sessions :=
  match s.(calls) !! n with
  | None => s
  | Some c =>
      let '(c', out) := resume c s in
      Build_Sessions s.(heap) s.(next) s.(entries) s.(instances) s.(slots)
        (match c.(c_await) with
         | Waiting _ => <[n := c']> s.(calls)
         | Resolved _ => take n s.(calls) ++ drop (S n) s.(calls)
         end) (s.(accepted) ++ out)
  end.

(** A session the server lists; a node's listing is absent when its request failed. *)
Record ServerSession := {
  s_kind : jsstr; s_attached : bool; s_id : jsstr; s_hostId : Z; s_title : jsstr;
}.

Definition live (s : Sessions) : list Entry := omap (fun o => s.(heap) !! o) s.(entries).

(** One turn of the loop of restore; [i] is the index of the listing, [node] the node restore
    began with and [currentNode] that of the moment. *)
Definition restore_one (node currentNode localhost : jsstr) (i : nat) (r : ServerSession) (uuid : jsstr)
    (s : Sessions) : option Sessions :=
  let fromLocalNode := (i =? 1)%nat || (node === js "local") in
  if (r.(s_kind) !== js "local") && (r.(s_kind) !== js "ssh") then Some s
  else if r.(s_attached) || existsb (fun e => e.(sessionId) === r.(s_id)) (live s) then Some s
  else if (0 <? r.(s_hostId))%Z && negb fromLocalNode then Some s
  else
    s' ← add currentNode uuid
      {| i_title := or_else r.(s_title) localhost; i_wsID := r.(s_hostId); i_nodeName := [];
         i_args := if (r.(s_hostId) =? 0)%Z && (i =? 1)%nat then js "operateNode=local" else [];
         i_status := online |} s;
    o ← find s' uuid;
    Some (with_heap (alter (set_sessionId r.(s_id)) o s'.(heap)) s').

(** The listings in order, each session with the uuid its entry would get. *)
Fixpoint restore_merge (node currentNode localhost : jsstr) (rs : list (nat * ServerSession * jsstr))
    (s : Sessions) : option Sessions :=
  match rs with
  | [] => Some s
  | (i, r, uuid) :: rs' =>
      s' ← restore_one node currentNode localhost i r uuid s; restore_merge node currentNode localhost rs' s'
  end.

Definition removeWhere (matches : Entry -> bool) (s : Sessions) : Sessions :=
  let hit o := match s.(heap) !! o with Some e => matches e | None => false end in
  let gone := omap (fun o => if hit o then key <$> s.(heap) !! o else None) s.(entries) in
  Build_Sessions s.(heap) s.(next) (List.filter (fun o => negb (hit o)) s.(entries))
    (foldr delete s.(instances) gone) (foldr delete s.(slots) gone) s.(calls) s.(accepted).

Definition remove (k : jsstr) : Sessions -> Sessions := removeWhere (fun e => e.(key) === k).
Definition closeAll : Sessions -> Sessions := removeWhere (fun _ => true).

Definition setSessionId (k id : jsstr) (s : Sessions) : Sessions :=
  match find s k with
  | None => s
  | Some o => with_heap (alter (set_session id online) o s.(heap)) s
  end.

Definition onExpired (k : jsstr) (s : Sessions) : Sessions :=
  match find s k with
  | None => s
  | Some o => with_heap (alter (set_session [] closed) o s.(heap)) s
  end.

Definition setInstance (k : jsstr) (inst : option N) (s : Sessions) : Sessions :=
  match inst with
  | Some i => with_instances (<[k := i]> s.(instances)) s
  | None => with_instances (delete k s.(instances)) s
  end.

Definition setSlot (k : jsstr) (el : option N) (s : Sessions) : Sessions :=
  with_slots (<[k := el]> s.(slots)) s.

(** [isWsOpen] and [getLatency] are methods of the component instances. *)
Definition sync (isWsOpen : N -> bool) (getLatency : N -> Z) (s : Sessions) : Sessions :=
  foldl (fun s o =>
    match s.(heap) !! o ≫= fun e => s.(instances) !! e.(key) with
    | None => s
    | Some i => with_heap (alter (set_link (if isWsOpen i then online else closed) (getLatency i)) o s.(heap)) s
    end) s s.(entries).

(** ** Well-formed states *)

Record sessions_ok (s : Sessions) : Prop := {
  ok_nodup : NoDup s.(entries);
  ok_live : forall o, o ∈ s.(entries) -> is_Some (s.(heap) !! o);
  ok_next : forall o e, s.(heap) !! o = Some e -> (o < s.(next))%N;
  ok_keys : forall o o' e e', s.(heap) !! o = Some e -> s.(heap) !! o' = Some e' ->
    e.(key) = e'.(key) -> o = o';
  ok_instances : forall k, is_Some (s.(instances) !! k) ->
    exists o e, o ∈ s.(entries) /\ s.(heap) !! o = Some e /\ e.(key) = k;
  ok_calls : forall c, c ∈ s.(calls) -> exists e, s.(heap) !! c.(c_entry) = Some e /\ e.(key) = c.(c_key);
}.

(** A uuid no entry has ever had. *)
Definition fresh (uuid : jsstr) (s : Sessions) : Prop :=
  forall o e, s.(heap) !! o = Some e -> e.(key) <> uuid.

Lemma initial_sessions_ok : sessions_ok initial_sessions.
Proof.
  split; cbn; try (intros; set_solver); try constructor.
  intros k [i H]. rewrite lookup_empty in H. discriminate H.
Qed.

Lemma fresh_initial uuid : fresh uuid initial_sessions.
Proof. intros o e H. cbn in H. rewrite lookup_empty in H. discriminate H. Qed.

Lemma find_spec s k o :
  find s k = Some o -> o ∈ s.(entries) /\ exists e, s.(heap) !! o = Some e /\ e.(key) = k.
Proof.
  intros H. apply List.find_some in H as [Hin H]. split; [by apply list_elem_of_In|].
  destruct (heap s !! o) as [e|]; [|done]. apply streqb_eq in H. eauto.
Qed.

(** Rewriting fields other than the key preserves the invariant. *)
Lemma alter_ok f o s :
  (forall e, key (f e) = key e) -> sessions_ok s -> sessions_ok (with_heap (alter f o s.(heap)) s).
Proof.
  intros Hf [H1 H2 H3 H4 H5 H6].
  assert (forall p e, alter f o (heap s) !! p = Some e ->
    exists e', heap s !! p = Some e' /\ key e = key e') as Hback.
  { intros p e E. destruct (decide (o = p)) as [->|Hn].
    - rewrite lookup_alter_eq in E. destruct (heap s !! p) as [e'|]; [|done]. injection E as <-. eauto.
    - rewrite lookup_alter_ne in E by done. eauto. }
  assert (forall p e', heap s !! p = Some e' ->
    exists e, alter f o (heap s) !! p = Some e /\ key e = key e') as Hfwd.
  { intros p e' E. destruct (decide (o = p)) as [->|Hn].
    - rewrite lookup_alter_eq, E. cbn. eauto.
    - rewrite lookup_alter_ne by done. eauto. }
  split; cbn [heap next entries instances calls with_heap].
  - done.
  - intros p Hp. destruct (H2 p Hp) as [e' E]. destruct (Hfwd p e' E) as (e & E' & _). eauto.
  - intros p e E. destruct (Hback p e E) as (e' & E' & _). eauto.
  - intros p q e e' E E' Hk. destruct (Hback _ _ E) as (d & Ed & Kd). destruct (Hback _ _ E') as (d' & Ed' & Kd').
    apply (H4 p q d d'); congruence.
  - intros k Hk. destruct (H5 k Hk) as (p & e & Hp & E & <-). destruct (Hfwd _ _ E) as (d & Ed & Kd). eauto 6.
  - intros c Hc. destruct (H6 c Hc) as (e & E & <-). destruct (Hfwd _ _ E) as (d & Ed & Kd). eauto.
Qed.

(** What [add] does: it pushes one new entry. *)
Lemma add_shape currentNode uuid init s s' :
  add currentNode uuid init s = Some s' ->
  exists enc ta, encodeURIComponent init.(i_title) = Some enc /\
    title_args currentNode init = Some ta /\ s' = push_entry (new_entry uuid enc init ta) s.
Proof.
  unfold add. intros H. destruct (encodeURIComponent (i_title init)) as [enc|]; [|discriminate H].
  destruct (title_args currentNode init) as [ta|]; [|discriminate H]. injection H as <-. eauto.
Qed.

Lemma add_ok currentNode uuid init s s' :
  fresh uuid s -> sessions_ok s -> add currentNode uuid init s = Some s' -> sessions_ok s'.
Proof.
  intros Hf [H1 H2 H3 H4 H5 H6] Ha. apply add_shape in Ha as (enc & ta & _ & _ & ->).
  set (e := new_entry uuid enc init ta). assert (key e = uuid) as Hk by done.
  assert (heap s !! next s = None) as Hn.
  { destruct (heap s !! next s) as [d|] eqn:E; [|done]. apply H3 in E. lia. }
  assert (forall p d, heap s !! p = Some d -> <[next s := e]> (heap s) !! p = Some d) as Hold.
  { intros p d E. rewrite lookup_insert_ne; [done|]. intros <-. congruence. }
  split; cbn [heap next entries instances calls push_entry].
  - apply list.NoDup_app. split; [done|]. split; [|by apply NoDup_singleton].
    intros p Hp Hp'. apply list_elem_of_singleton in Hp' as ->. apply H2 in Hp as [? ?]. congruence.
  - intros p Hp. apply elem_of_app in Hp as [Hp|Hp].
    + apply H2 in Hp as [d E]. eauto.
    + apply list_elem_of_singleton in Hp as ->. rewrite lookup_insert_eq. eauto.
  - intros p d E. apply lookup_insert_Some in E as [[<- <-]|[_ E]]; [lia|]. apply H3 in E. lia.
  - intros p q d d' E E' Hkk. apply lookup_insert_Some in E, E'. unfold fresh in Hf. naive_solver.
  - intros k Hk'. destruct (H5 k Hk') as (p & d & Hp & E & <-). exists p, d.
    split; [apply elem_of_app; by left|eauto].
  - intros c Hc. destruct (H6 c Hc) as (d & E & <-). eauto.
Qed.

Lemma calls_ok l s :
  sessions_ok s -> (forall c, c ∈ l -> exists e, s.(heap) !! c.(c_entry) = Some e /\ e.(key) = c.(c_key)) ->
  sessions_ok (with_calls l s).
Proof. by intros [H1 H2 H3 H4 H5 H6] Hl; split. Qed.

Lemma suspend_ok c s o :
  sessions_ok s -> find s c.(c_key) = Some o -> c.(c_entry) = o -> sessions_ok (suspend c s).
Proof.
  intros Hs Hfind He. apply calls_ok; [done|]. intros c' Hc'.
  apply elem_of_app in Hc' as [Hc'|Hc']; [by apply (ok_calls s Hs)|].
  apply list_elem_of_singleton in Hc' as ->. apply find_spec in Hfind as (_ & e & E & K).
  rewrite He. eauto.
Qed.

Lemma find_alter f s o k :
  (forall e, key (f e) = key e) -> find (with_heap (alter f o s.(heap)) s) k = find s k.
Proof.
  intros Hf. unfold find. cbn [with_heap heap entries]. induction (entries s) as [|p l IH]; [done|].
  cbn [List.find]. rewrite IH. destruct (decide (o = p)) as [->|Hn].
  - rewrite lookup_alter_eq. destruct (heap s !! p) as [e|]; [|done]. cbn. by rewrite Hf.
  - by rewrite lookup_alter_ne.
Qed.

Lemma foldr_delete_lookup (ks : list jsstr) {A} (m : gmap jsstr A) k :
  foldr delete m ks !! k = if memb k ks then None else m !! k.
Proof.
  induction ks as [|j ks IH]; [done|]. cbn [foldr memb existsb]. fold (memb k ks).
  destruct (decide (j = k)) as [->|Hn].
  - by rewrite lookup_delete_eq, streqb_refl.
  - rewrite lookup_delete_ne, IH by done. assert ((k === j) = false) as -> by (by apply streqb_neq). done.
Qed.

Lemma removeWhere_ok f s : sessions_ok s -> sessions_ok (removeWhere f s).
Proof.
  intros [H1 H2 H3 H4 H5 H6]. split; cbn [removeWhere heap next entries instances calls]; try done.
  - apply NoDup_ListNoDup, List.NoDup_filter. by apply NoDup_ListNoDup.
  - intros o Ho. apply elem_filter in Ho as [Ho _]. by apply H2.
  - intros k Hk. rewrite foldr_delete_lookup in Hk. destruct (memb k _) eqn:Em; [by destruct Hk|].
    destruct (H5 k Hk) as (o & e & Ho & E & Ek). exists o, e. split; [|done].
    apply elem_filter. split; [done|]. rewrite E. destruct (f e) eqn:Ef; [|done].
    rewrite memb_not_elem in Em. destruct Em. apply list_elem_of_omap. exists o. split; [done|].
    cbn. rewrite E, Ef. cbn. by rewrite Ek.
Qed.

(** ** Runs

    A component registers its instance only while its entry is listed: the
    ref callback of a mounted terminal. *)

Inductive quiet : Sessions -> Sessions -> Prop :=
| q_resume n s : quiet s (resume_call n s)
| q_reconnect k err cmd s : quiet s (reconnect k err cmd s)
| q_remove k s : quiet s (remove k s)
| q_closeAll s : quiet s (closeAll s)
| q_setSessionId k id s : quiet s (setSessionId k id s)
| q_onExpired k s : quiet s (onExpired k s)
| q_setInstance k i s : i = None \/ is_Some (find s k) -> quiet s (setInstance k i s)
| q_setSlot k el s : quiet s (setSlot k el s)
| q_sync f g s : quiet s (sync f g s).

Inductive session_step : Sessions -> Sessions -> Prop :=
| s_quiet s s' : quiet s s' -> session_step s s'
| s_open nd uuid ttl ws name cmd err s s' :
    fresh uuid s -> open nd uuid ttl ws name cmd err s = Some s' -> session_step s s'
| s_restore nd cur lh i r uuid s s' :
    fresh uuid s -> restore_one nd cur lh i r uuid s = Some s' -> session_step s s'.

Lemma resume_ok n s : sessions_ok s -> sessions_ok (resume_call n s).
Proof.
  intros Hs. unfold resume_call. destruct (calls s !! n) as [c|] eqn:Ec; [|done].
  destruct (resume c s) as [c' out] eqn:Er.
  enough (sessions_ok (with_calls (match c_await c with
    Waiting _ => <[n:=c']> (calls s) | Resolved _ => take n (calls s) ++ drop (S n) (calls s) end) s)) as H
    by (by destruct H; split).
  apply calls_ok; [done|]. intros d Hd. destruct (c_await c) eqn:Ea.
  - apply list_elem_of_lookup in Hd as [j Hj]. apply list_lookup_insert_Some in Hj as [(_ & <- & _)|[_ Hj]];
      [|by apply (ok_calls s Hs), list_elem_of_lookup_2 with j].
    unfold resume in Er. rewrite Ea in Er. injection Er as <- _. cbn.
    by apply (ok_calls s Hs), list_elem_of_lookup_2 with n.
  - apply (ok_calls s Hs). apply elem_of_app in Hd as [Hd|Hd].
    + by apply (subseteq_take n).
    + by apply (subseteq_drop (S n)).
Qed.

Lemma setInstance_ok k i s :
  i = None \/ is_Some (find s k) -> sessions_ok s -> sessions_ok (setInstance k i s).
Proof.
  intros Hg [H1 H2 H3 H4 H5 H6].
  destruct i as [i|]; split; cbn [setInstance with_instances heap next entries instances calls]; try done;
    intros k' Hk'.
  - destruct (decide (k = k')) as [->|Hn]; [|apply H5; by rewrite lookup_insert_ne in Hk'].
    destruct Hg as [?|[o Ho]]; [done|]. apply find_spec in Ho as (Ho & e & E & K). eauto.
  - apply H5. destruct (decide (k = k')) as [->|Hn].
    + rewrite lookup_delete_eq in Hk'. by destruct Hk'.
    + by rewrite lookup_delete_ne in Hk'.
Qed.

Lemma sync_ok f g s : sessions_ok s -> sessions_ok (sync f g s).
Proof.
  unfold sync. generalize (entries s) as os. intros os. revert s.
  induction os as [|o os IH]; intros s Hs; [done|]. cbn [foldl]. apply IH.
  destruct (heap s !! o ≫= _); [|done]. by apply alter_ok.
Qed.

Lemma quiet_ok s s' : sessions_ok s -> quiet s s' -> sessions_ok s'.
Proof.
  intros Hs H. destruct H; auto using resume_ok, removeWhere_ok, setInstance_ok, sync_ok.
  - unfold reconnect. destruct (find s k) as [o|] eqn:E; [|done].
    apply (suspend_ok _ _ o); [by apply alter_ok| |done]. by rewrite (find_alter bump_refresh).
  - by apply removeWhere_ok.
  - by apply removeWhere_ok.
  - unfold setSessionId. case_match; [by apply alter_ok|done].
  - unfold onExpired. case_match; [by apply alter_ok|done].
  - by destruct Hs; split.
Qed.

Lemma session_step_ok s s' : sessions_ok s -> session_step s s' -> sessions_ok s'.
Proof.
  intros Hs H. destruct H as [s s' H|nd uuid ttl ws name cmd err s s' Hf H|nd cur lh i r uuid s s' Hf H].
  - by apply (quiet_ok s).
  - unfold open in H. destruct (add _ _ _ s) as [s1|] eqn:Ea; [|discriminate H]. cbn in H.
    destruct (find s1 uuid) as [o|] eqn:Ef; [|discriminate H]. injection H as <-.
    by apply (suspend_ok _ _ o); [eapply add_ok|..].
  - unfold restore_one in H. repeat (case_match; [by injection H as <-|]).
    destruct (add _ _ _ s) as [s1|] eqn:Ea; [|discriminate H]. cbn in H.
    destruct (find s1 uuid) as [o|] eqn:Ef; [|discriminate H]. injection H as <-.
    apply alter_ok; [done|]. by eapply add_ok.
Qed.

Definition sessions_reachable (s : Sessions) : Prop := star session_step initial_sessions s.

Lemma sessions_reachable_ok s : sessions_reachable s -> sessions_ok s.
Proof. intros H. by apply (star_invariant _ _ session_step_ok _ _ H), initial_sessions_ok. Qed.

(** *** After closeAll *)

(** A suspended call that has not been answered with an instance. *)
Definition unanswered (c : Call) : Prop :=
  match c.(c_await) with Resolved (Some _) => False | _ => True end.

Definition silent (out : list Accept) (s : Sessions) : Prop :=
  sessions_ok s /\ s.(entries) = [] /\ s.(accepted) = out /\ Forall unanswered s.(calls).

Lemma no_instances s : sessions_ok s -> s.(entries) = [] -> forall k, s.(instances) !! k = None.
Proof.
  intros Hs He k. apply eq_None_not_Some. intros H. apply (ok_instances s Hs) in H as (o & _ & Ho & _).
  rewrite He in Ho. inversion Ho.
Qed.

Lemma find_nil s k : s.(entries) = [] -> find s k = None.
Proof. intros E. unfold find. by rewrite E. Qed.

Lemma resume_silent out n s : silent out s -> silent out (resume_call n s).
Proof.
  intros (Hs & He & Ha & Hc). split; [by apply resume_ok|]. unfold resume_call.
  destruct (calls s !! n) as [c|] eqn:Ec; [|done]. unfold resume.
  assert (unanswered c) as Hu by (eapply Forall_lookup_1; eauto).
  unfold unanswered in Hu. destruct (c_await c) as [t|[i|]] eqn:Ea; [|done|]; cbn.
  - rewrite (no_instances s Hs He), app_nil_r. split; [done|]. split; [done|].
    apply Forall_insert; [done|]. by destruct t.
  - rewrite app_nil_r. split; [done|]. split; [done|]. apply Forall_app.
    split; [by apply Forall_take|by apply Forall_drop].
Qed.

Lemma quiet_silent out s s' : silent out s -> quiet s s' -> silent out s'.
Proof.
  intros Hs H. pose proof (fun H' => quiet_ok s s' H' H) as Hok.
  destruct H; try (by apply resume_silent); destruct Hs as (Hs & He & Ha & Hc); specialize (Hok Hs);
    try (by split; [|repeat split]).
  - unfold reconnect in *. by rewrite find_nil in *.
  - split; [done|]. cbn. by rewrite He.
  - split; [done|]. cbn. by rewrite He.
  - unfold setSessionId in *. by rewrite find_nil in *.
  - unfold onExpired in *. by rewrite find_nil in *.
  - split; [done|]. by destruct i.
  - unfold sync in *. rewrite He in *. by split.
Qed.

(** closeAll, which the router guard runs when the user is logged out, ends
    every session: nothing is listed any more and no instance is registered,
    and a suspended open or reconnect that had not yet found its terminal
    never connects it, however the suspended calls are resumed afterwards,
    until a new session is opened. *)
Theorem closeAll_silences s s' :
  sessions_reachable s -> Forall unanswered s.(calls) -> star quiet (closeAll s) s' ->
  s'.(entries) = [] /\ (forall k, s'.(instances) !! k = None) /\ s'.(accepted) = s.(accepted).
Proof.
  intros Hs%sessions_reachable_ok Hc H.
  assert (silent s.(accepted) s') as (Hok & He & Ha & _).
  { apply (star_invariant quiet _ (quiet_silent _) _ _ H). split; [by apply removeWhere_ok|].
    split; [|done]. cbn. apply filter_none. intros o Ho.
    by apply (ok_live s Hs) in Ho as [e ->]. }
  split; [done|]. split; [by apply no_instances|done].
Qed.

Definition sample_opened : Sessions :=
  default initial_sessions (open (js "local") (js "u1") (js "root") 0 [] [] [] initial_sessions).

Lemma closeAll_silences_witness :
  let s := sample_opened in
  let s' := setInstance (js "u1") None (resume_call 0 (closeAll s)) in
  length s.(calls) = 1 /\ length s.(entries) = 1 /\
  (s'.(entries) = [] /\ (forall k, s'.(instances) !! k = None) /\ s'.(accepted) = s.(accepted)).
Proof.
  cbn zeta. split; [vm_compute; reflexivity|]. split; [vm_compute; reflexivity|].
  apply (closeAll_silences sample_opened).
  - apply star_one. apply (s_open (js "local") (js "u1") (js "root") 0 [] [] []).
    + apply fresh_initial.
    + vm_compute. reflexivity.
  - vm_compute. repeat constructor.
  - eapply star_step; [apply (q_resume 0)|]. apply star_one, q_setInstance. by left.
Defined.

(** ** restore *)

Definition ids (s : Sessions) : list jsstr := sessionId <$> live s.

(** The sessions restore leaves alone whatever is listed. *)
Definition passed_over (node : jsstr) (i : nat) (r : ServerSession) : bool :=
  (r.(s_kind) !== js "local") && (r.(s_kind) !== js "ssh") || r.(s_attached) ||
  (0 <? r.(s_hostId))%Z && negb ((i =? 1)%nat || (node === js "local")).

Lemma existsb_ids s id : existsb (fun e => e.(sessionId) === id) (live s) = memb id (ids s).
Proof.
  unfold ids, memb. induction (live s) as [|e l IH]; [done|]. cbn. by rewrite IH, streqb_sym.
Qed.

Lemma restore_one_skip node currentNode localhost i r uuid s :
  passed_over node i r || memb r.(s_id) (ids s) = true ->
  restore_one node currentNode localhost i r uuid s = Some s.
Proof.
  intros H. unfold restore_one. rewrite existsb_ids. unfold passed_over in H.
  destruct ((s_kind r !== js "local") && (s_kind r !== js "ssh")); [done|].
  destruct (s_attached r); [done|]. destruct (memb (s_id r) (ids s)); [done|]. cbn [orb] in *.
  rewrite orb_false_r in H. by rewrite H.
Qed.

Lemma next_not_listed s o : sessions_ok s -> o ∈ s.(entries) -> s.(next) <> o.
Proof.
  intros Hs Ho <-. apply (ok_live s Hs) in Ho as [d E]. apply (ok_next s Hs) in E. lia.
Qed.

Lemma find_pushed s e :
  sessions_ok s -> fresh e.(key) s -> find (push_entry e s) e.(key) = Some s.(next).
Proof.
  intros Hs Hf. unfold find. cbn [push_entry heap entries].
  assert (forall l, (forall o, o ∈ l -> o ∈ entries s) ->
    List.find (fun o => match <[next s := e]> (heap s) !! o with
                        | Some d => key d === key e | None => false end) (l ++ [next s]) = Some (next s)) as H.
  { induction l as [|o l IH]; intros Hl; cbn [app List.find].
    - by rewrite lookup_insert_eq, streqb_refl.
    - assert (o ∈ entries s) as Ho by (apply Hl; left).
      rewrite lookup_insert_ne by (by apply next_not_listed).
      destruct (ok_live s Hs o Ho) as [d Ed]. rewrite Ed.
      assert ((key d === key e) = false) as -> by (apply streqb_neq; by eapply Hf).
      apply IH. intros p Hp. apply Hl. by right. }
  by apply H.
Qed.

Lemma ids_restored s e id :
  sessions_ok s ->
  ids (with_heap (alter (set_sessionId id) s.(next) (push_entry e s).(heap)) (push_entry e s)) = ids s ++ [id].
Proof.
  intros Hs. unfold ids, live. cbn [with_heap push_entry heap entries].
  rewrite omap_app, fmap_app. f_equal.
  - f_equal. assert (forall l, (forall o, o ∈ l -> o ∈ entries s) ->
      (omap (fun o => alter (set_sessionId id) (next s) (<[next s := e]> (heap s)) !! o) l : list Entry) =
      omap (fun o => heap s !! o) l) as H; [|by apply H].
    induction l as [|o l IH]; intros Hl; [done|]. cbn [omap list_omap].
    rewrite lookup_alter_ne, lookup_insert_ne by (apply next_not_listed, Hl; [done|left]). rewrite IH; [done|]. intros p Hp. apply Hl. by right.
  - cbn. by rewrite lookup_alter_eq, lookup_insert_eq.
Qed.

(** A session that is not passed over is pushed with its id. *)
Lemma restore_one_push node currentNode localhost i r uuid s s' :
  sessions_ok s -> fresh uuid s -> restore_one node currentNode localhost i r uuid s = Some s' ->
  passed_over node i r || memb r.(s_id) (ids s) = false ->
  exists e, e.(key) = uuid /\
    s' = with_heap (alter (set_sessionId r.(s_id)) s.(next) (push_entry e s).(heap)) (push_entry e s).
Proof.
  intros Hs Hf H E. unfold restore_one in H. rewrite existsb_ids in H. unfold passed_over in E.
  apply orb_false_iff in E as [E1 E2]. apply orb_false_iff in E1 as [E1 E3].
  apply orb_false_iff in E1 as [E0 E1]. rewrite E0, E1, E2, E3 in H. cbn [orb] in H.
  destruct (add _ _ _ s) as [s1|] eqn:Ea; [|discriminate H]. cbn [mbind option_bind] in H.
  apply add_shape in Ea as (enc & ta & _ & _ & ->).
  match goal with H : context [push_entry ?e s] |- _ => exists e; set (d := e) in * end.
  change uuid with (key d) in H. rewrite find_pushed in H by done. cbn [mbind option_bind] in H.
  by injection H as <-.
Qed.

Lemma restore_one_ids node currentNode localhost i r uuid s s' :
  sessions_ok s -> fresh uuid s -> restore_one node currentNode localhost i r uuid s = Some s' ->
  (forall id, id ∈ ids s -> id ∈ ids s') /\ (passed_over node i r || memb r.(s_id) (ids s')) = true.
Proof.
  intros Hs Hf H. destruct (passed_over node i r || memb (s_id r) (ids s)) eqn:E.
  { rewrite restore_one_skip in H by done. by injection H as <-. }
  apply restore_one_push in H as (e & _ & ->); [|done..]. rewrite ids_restored by done. split.
  - intros id Hid. apply elem_of_app. by left.
  - apply orb_true_iff. right. apply memb_elem, elem_of_app. right. by apply list_elem_of_singleton.
Qed.

(** The uuids the entries would get are new, and none is given twice. *)
Fixpoint all_fresh (rs : list (nat * ServerSession * jsstr)) (s : Sessions) : Prop :=
  match rs with
  | [] => True
  | (_, _, uuid) :: rs' => fresh uuid s /\ (uuid ∉ List.map snd rs') /\ all_fresh rs' s
  end.

Lemma restore_one_fresh node currentNode localhost i r uuid s s' v :
  sessions_ok s -> fresh uuid s -> restore_one node currentNode localhost i r uuid s = Some s' ->
  v <> uuid -> fresh v s -> fresh v s'.
Proof.
  intros Hs Hf H Hv Hfv. destruct (passed_over node i r || memb (s_id r) (ids s)) eqn:E.
  { rewrite restore_one_skip in H by done. by injection H as <-. }
  apply restore_one_push in H as (d & Hk & ->); [|done..].
  intros o e Ho. cbn [with_heap push_entry heap] in Ho.
  destruct (decide (next s = o)) as [<-|Hn].
  - rewrite lookup_alter_eq, lookup_insert_eq in Ho. injection Ho as <-. cbn. congruence.
  - rewrite lookup_alter_ne, lookup_insert_ne in Ho by done. by eapply Hfv.
Qed.

Lemma restore_merge_covers node currentNode localhost rs s s' :
  sessions_ok s -> all_fresh rs s -> restore_merge node currentNode localhost rs s = Some s' ->
  (forall id, id ∈ ids s -> id ∈ ids s') /\
  Forall (fun x => passed_over node x.1.1 x.1.2 || memb x.1.2.(s_id) (ids s') = true) rs.
Proof.
  revert s. induction rs as [|[[i r] uuid] rs IH]; intros s Hs Hf H.
  { injection H as <-. by split; [|constructor]. }
  cbn [restore_merge] in H. destruct Hf as (Hf & Hnin & Hfs).
  destruct (restore_one _ _ _ i r uuid s) as [s1|] eqn:E1; [|discriminate H]. cbn [mbind option_bind] in H.
  destruct (restore_one_ids _ _ _ _ _ _ _ _ Hs Hf E1) as [Hm Hc].
  destruct (IH s1) as [Hm' Hc']; [|clear IH|done|].
  - by apply (session_step_ok s), (s_restore node currentNode localhost i r uuid).
  - clear -Hfs Hnin E1 Hs Hf. induction rs as [|[[j r'] v] rs IH]; [done|].
    destruct Hfs as (Hv & Hn & Hfs). cbn [List.map snd] in Hnin. apply not_elem_of_cons in Hnin as [H H'].
    split; [|split; [done|by apply IH]]. apply (restore_one_fresh node currentNode localhost i r uuid s); done.
  - split; [auto|]. constructor; [|done]. cbn. apply orb_true_iff in Hc as [->|Hc]; [done|].
    apply orb_true_iff. right. apply memb_elem, Hm'. by apply memb_elem.
Qed.

(** restore is idempotent: merging the same listings again, on the same
    node and with whatever uuids, adds nothing, as every session a first merge
    does not pass over is listed under its id afterwards. *)
Theorem restore_merge_idempotent node currentNode localhost rs rs' s s' :
  sessions_reachable s -> all_fresh rs s -> List.map fst rs' = List.map fst rs ->
  restore_merge node currentNode localhost rs s = Some s' ->
  restore_merge node currentNode localhost rs' s' = Some s'.
Proof.
  intros Hs%sessions_reachable_ok Hf Hrs H.
  destruct (restore_merge_covers _ _ _ _ _ _ Hs Hf H) as [_ Hc]. clear H Hf.
  revert rs' Hrs. induction Hc as [|[[i r] u] rs Hc Hcs IH]; intros rs' Hrs.
  - by destruct rs'.
  - destruct rs' as [|[[i' r'] u'] rs']; [discriminate Hrs|]. injection Hrs as -> -> Hrs.
    cbn [restore_merge]. rewrite restore_one_skip by done. by apply IH.
Qed.

Definition sample_listing : list (nat * ServerSession) :=
  [ (0, {| s_kind := js "ssh"; s_attached := false; s_id := js "a"; s_hostId := 3; s_title := js "web" |});
    (0, {| s_kind := js "local"; s_attached := false; s_id := js "b"; s_hostId := 0; s_title := [] |});
    (0, {| s_kind := js "ssh"; s_attached := true; s_id := js "c"; s_hostId := 4; s_title := js "db" |}) ].

Lemma restore_merge_idempotent_witness :
  let rs := zip sample_listing [js "u1"; js "u2"; js "u3"] in
  let rs' := zip sample_listing [js "v1"; js "v2"; js "v3"] in
  let s' := default initial_sessions (restore_merge (js "local") (js "local") (js "localhost") rs initial_sessions) in
  length s'.(entries) = 2 /\ restore_merge (js "local") (js "local") (js "localhost") rs' s' = Some s'.
Proof.
  cbn zeta. split; [vm_compute; reflexivity|].
  apply (restore_merge_idempotent _ _ _ (zip sample_listing [js "u1"; js "u2"; js "u3"]) _ initial_sessions).
  - apply star_refl.
  - by repeat (split; [apply fresh_initial|split; [apply memb_not_elem; reflexivity|]]).
  - reflexivity.
  - vm_compute. reflexivity.
Defined.

(** ** Titles *)

(** A local terminal opened on the current node is titled with the node's
    name, exactly as it is stored, unless the node is the master: the escaped
    name in the arguments decodes to the name. *)
Theorem add_title nd uuid ttl s s' :
  Forall unit16 nd -> nd <> [] -> nd <> js "local" ->
  add nd uuid {| i_title := ttl; i_wsID := 0; i_nodeName := []; i_args := []; i_status := online |} s = Some s' ->
  exists e enc q, s'.(heap) !! s.(next) = Some e /\ s'.(entries) = s.(entries) ++ [s.(next)] /\
    e.(title) = ttl ++ js " (" ++ nd ++ js ")" /\ encodeURIComponent ttl = Some q /\
    decodeURIComponent enc = Some nd /\
    e.(args) = js "operateNode=" ++ enc ++ js "&title=" ++ q.
Proof.
  intros Hu Hn Hl Ha. apply add_shape in Ha as (q & ta & Eq & Et & ->).
  unfold title_args in Et. cbn [i_wsID Z.eqb] in Et.
  match type of Et with context [target_node nd ?i] =>
    assert (target_node nd i = encodeURIComponent nd) as E by (by destruct nd); rewrite E in Et; clear E end.
  destruct (encodeURIComponent nd) as [enc|] eqn:Ee; [|discriminate Et]. cbn [mbind option_bind] in Et.
  pose proof (decode_encode nd enc Hu Ee) as Ed. rewrite Ed in Et.
  assert ((enc !== js "local") = true) as El.
  { apply negb_true_iff, streqb_neq. intros ->. change (Some (js "local") = Some nd) in Ed. congruence. }
  rewrite El in Et. cbn [andb truthy negb i_nodeName mbind option_bind] in Et. injection Et as <-.
  eexists _, enc, q. cbn [push_entry heap entries]. rewrite lookup_insert_eq.
  split; [reflexivity|]. split; [done|]. split; [done|]. split; [done|]. split; [done|]. done.
Qed.

Lemma add_title_witness :
  let nd := js "edge 1" in
  let s' := default initial_sessions
    (add nd (js "u1") {| i_title := js "root"; i_wsID := 0; i_nodeName := []; i_args := []; i_status := online |}
      initial_sessions) in
  exists e enc q, s'.(heap) !! 0%N = Some e /\ s'.(entries) = [] ++ [0%N] /\
    e.(title) = js "root" ++ js " (" ++ nd ++ js ")" /\ encodeURIComponent (js "root") = Some q /\
    decodeURIComponent enc = Some nd /\
    e.(args) = js "operateNode=" ++ enc ++ js "&title=" ++ q.
Proof.
  cbn zeta. apply (add_title (js "edge 1") (js "u1") (js "root") initial_sessions).
  - vm_compute. repeat constructor.
  - discriminate.
  - discriminate.
  - vm_compute. reflexivity.
Defined.
