(* ===== verification/TerminalRestore.v ===== *)
(** * Restoring the terminal sessions

    restore of src/frontend/src/store/modules/terminal-session.ts from its first await to its
    end: the listings it waits for, their merging, and the loop that reconnects one entry
    after another while the rest of the store goes on; beside it
    src/frontend/src/components/terminal/host.vue, which mounts a terminal for each entry and
    another one whenever an entry is refreshed. *)

From S2P Require Import Prelude JsString Uri TerminalSession.

#[local] Open Scope list_scope.

(** The loop over [entries.value]: the array is the store's as long as that is not replaced,
    and the old one afterwards. *)
Record Loop := { l_array : option (list N); l_pos : nat; l_call : option Call }.

(** The terminals of the host by the keys of their entries, each with the refresh it was mounted
    for, and the next component instance. *)
Record Host := { rendered : gmap jsstr (Z * N); fresh_inst : N }.

Record Restoring := {
  store : Sessions;
  searches : gmap nat jsstr;                 (* the nodes of the calls that wait for listings *)
  loops : gmap nat Loop;
  fresh_loop : nat;
  reconnected : list (nat * N);              (* the entries reconnected, by loop *)
  host : Host
}.

Definition with_store (f : Sessions -> Sessions) (s : Restoring) : Restoring :=
  {| store := f s.(store); searches := s.(searches); loops := s.(loops); fresh_loop := s.(fresh_loop);
     reconnected := s.(reconnected); host := s.(host) |}.
Definition with_loops (l : gmap nat Loop) (s : Restoring) : Restoring :=
  {| store := s.(store); searches := s.(searches); loops := l; fresh_loop := s.(fresh_loop);
     reconnected := s.(reconnected); host := s.(host) |}.

Definition initial_restoring : Restoring :=
  {| store := initial_sessions; searches := ∅; loops := ∅; fresh_loop := 0; reconnected := []; host := {| rendered := ∅; fresh_inst := 0 |} |}.

(** ** restore *)

(** Up to the await of the listings. *)
Definition restore (currentNode : jsstr) (s : Restoring) : Restoring :=
  {| store := s.(store); searches := <[s.(fresh_loop) := or_else currentNode (js "local")]> s.(searches);
     loops := s.(loops); fresh_loop := S s.(fresh_loop); reconnected := s.(reconnected); host := s.(host) |}.

(** The sessions of the listings with their index; one that failed lists nothing, and the
    second is asked for on other nodes only. *)
Definition listings (node : jsstr) (r0 r1 : option (list ServerSession)) : list (nat * ServerSession) :=
  List.map (pair 0) (default [] r0) ++ (if node === js "local" then [] else List.map (pair 1) (default [] r1)).

(** The merging with what it has pushed when an exception ends it; the result says whether
    it came to its end. *)
Fixpoint merge_all (node currentNode localhost : jsstr) (rs : list (nat * ServerSession * jsstr)) (s : Sessions)
    : Sessions * bool :=
  match rs with
  | [] => (s, true)
  | (i, r, uuid) :: rs' =>
      match restore_one node currentNode localhost i r uuid s with
      | Some s' => merge_all node currentNode localhost rs' s'
      | None => (s, false)
      end
  end.

(** The listings are merged: [uuid] gives the keys. *)
Definition merged (i : nat) (currentNode localhost : jsstr) (r0 r1 : option (list ServerSession)) (uuid : nat -> jsstr)
    (s : Restoring) : Restoring :=
  match s.(searches) !! i with
  | None => s
  | Some node =>
      let rs := imap (fun k x => (x, uuid k)) (listings node r0 r1) in
      let '(st, ended) := merge_all node currentNode localhost rs s.(store) in
      {| store := st; searches := delete i s.(searches);
         loops := if ended then <[i := {| l_array := None; l_pos := 0; l_call := None |}]> s.(loops) else s.(loops);
         fresh_loop := s.(fresh_loop); reconnected := s.(reconnected); host := s.(host) |}
  end.

Definition array (l : Loop) (s : Sessions) : list N := default s.(entries) l.(l_array).

(** The call of reconnect for an entry of the loop, which may have left the list. *)
Definition reconnect_call (o : N) (e : Entry) : Call :=
  {| c_entry := o; c_key := e.(key); c_reconnect := true; c_initCmd := []; c_error := []; c_await := Waiting 6 |}.

(** The loop goes to its next entry, or ends. *)
Definition next_entry (i : nat) (s : Restoring) : Restoring :=
  match s.(loops) !! i with
  | Some {| l_array := a; l_pos := p; l_call := None |} =>
      match default s.(store).(entries) a !! p with
      | None => with_loops (delete i s.(loops)) s
      | Some o =>
          let past := with_loops (<[i := {| l_array := a; l_pos := S p; l_call := None |}]> s.(loops)) s in
          match s.(store).(heap) !! o with
          | Some e =>
              if truthy e.(sessionId) then
                match find s.(store) e.(key) with
                | Some o' =>
                    {| store := with_heap (alter bump_refresh o' s.(store).(heap)) s.(store); searches := s.(searches);
                       loops := <[i := {| l_array := a; l_pos := p; l_call := Some (reconnect_call o' e) |}]> s.(loops);
                       fresh_loop := s.(fresh_loop); reconnected := s.(reconnected) ++ [(i, o')]; host := s.(host) |}
                | None => past
                end
              else past
          | None => past
          end
      end
  | _ => s
  end.

(** A tick of the reconnect that the loop awaits. *)
Definition tick (i : nat) (s : Restoring) : Restoring :=
  match s.(loops) !! i with
  | Some {| l_array := a; l_pos := p; l_call := Some c |} =>
      let '(c', out) := resume c s.(store) in
      let l := match c.(c_await) with
               | Waiting _ => {| l_array := a; l_pos := p; l_call := Some c' |}
               | Resolved _ => {| l_array := a; l_pos := S p; l_call := None |}
               end in
      with_loops (<[i := l]> s.(loops))
        (with_store (fun st => Build_Sessions st.(heap) st.(next) st.(entries) st.(instances) st.(slots) st.(calls) (st.(accepted) ++ out)) s)
  | _ => s
  end.

(** The loop goes on to its next await, or to its end; [fuel] is more than its entries. *)
Fixpoint advance (fuel i : nat) (s : Restoring) : Restoring :=
  match fuel with
  | O => s
  | S fuel' =>
      match s.(loops) !! i with
      | Some {| l_call := None |} => advance fuel' i (next_entry i s)
      | _ => s
      end
  end.
Definition go_on (i : nat) (s : Restoring) : Restoring :=
  match s.(loops) !! i with Some l => advance (S (length (array l s.(store)))) i s | None => s end.

(** The listings are there: they are merged, and the loop runs up to its first await. *)
Definition listed (i : nat) (currentNode localhost : jsstr) (r0 r1 : option (list ServerSession)) (uuid : nat -> jsstr)
    (s : Restoring) : Restoring :=
  match s.(searches) !! i with
  | None => s
  | Some _ => go_on i (merged i currentNode localhost r0 r1 uuid s)
  end.

(** ** The host *)

(** The terminal of an entry: the one that is mounted, or a new one when there is none or the
    entry was refreshed since. *)
Definition mount_one (e : Entry) (h : Host) : N * Host :=
  match h.(rendered) !! e.(key) with
  | Some (r, i) =>
      if (r =? e.(refresh))%Z then (i, h)
      else (h.(fresh_inst), {| rendered := <[e.(key) := (e.(refresh), h.(fresh_inst))]> h.(rendered); fresh_inst := h.(fresh_inst) + 1 |})
  | None => (h.(fresh_inst), {| rendered := <[e.(key) := (e.(refresh), h.(fresh_inst))]> h.(rendered); fresh_inst := h.(fresh_inst) + 1 |})
  end.

(** The terminals in the order of the list, each handed to its ref. *)
Fixpoint mount (es : list Entry) (h : Host) (st : Sessions) : Host * Sessions :=
  match es with
  | [] => (h, st)
  | e :: es => let '(i, h') := mount_one e h in mount es h' (setInstance e.(key) (Some i) st)
  end.

(** The terminals of entries that are gone are unmounted. *)
Definition unmount (h : Host) (st : Sessions) : Host * Sessions :=
  let gone := List.filter (fun k => negb (memb k (List.map key (live st)))) (map_to_list h.(rendered)).*1 in
  ({| rendered := foldr delete h.(rendered) gone; fresh_inst := h.(fresh_inst) |}, foldr (fun k => setInstance k None) st gone).

(** Vue renders the host, before any nextTick resolves. *)
Definition flush (s : Restoring) : Restoring :=
  let '(h, st) := unmount s.(host) s.(store) in
  let '(h, st) := mount (live st) h st in
  {| store := st; searches := s.(searches); loops := s.(loops); fresh_loop := s.(fresh_loop); reconnected := s.(reconnected); host := h |}.

(** A loop goes on: its reconnect waits for a nextTick, has its terminal, or has returned. *)
Definition turn (i : nat) (s : Restoring) : Restoring :=
  match s.(loops) !! i with
  | Some {| l_call := Some {| c_await := Waiting _ |} |} => tick i (flush s)
  | Some {| l_call := Some _ |} => tick i s
  | Some {| l_call := None |} => go_on i s
  | None => s
  end.

(** The array of the store is replaced: the loops keep the old one. *)
Definition detach (old : list N) (l : Loop) : Loop :=
  {| l_array := Some (default old l.(l_array)); l_pos := l.(l_pos); l_call := l.(l_call) |}.

(** ** Events *)

Inductive Event :=
| Restore (currentNode : jsstr)
| Listed (i : nat) (currentNode localhost : jsstr) (r0 r1 : option (list ServerSession)) (uuid : nat -> jsstr)
| Turn (i : nat)                             (* the loop goes on to its next await *)
| Open (currentNode uuid ttl : jsstr) (ws : Z) (nodeName initCmd error : jsstr)
| Resume (n : nat) | Reconnect (k error initCmd : jsstr)
| Remove (k : jsstr) | CloseAll
| SetSessionId (k id : jsstr) | Expired (k : jsstr) | Flush | SetSlot (k : jsstr) (el : option N)
| Sync (isWsOpen : N -> bool) (getLatency : N -> Z).

Definition remove_entries (f : Sessions -> Sessions) (s : Restoring) : Restoring :=
  with_store f (with_loops (detach s.(store).(entries) <$> s.(loops)) s).

Definition rstep (e : Event) (s : Restoring) : Restoring :=
  match e with
  | Restore cur => restore cur s
  | Listed i cur lh r0 r1 uuid => listed i cur lh r0 r1 uuid s
  | Turn i => turn i s
  | Open cur uuid ttl ws name cmd err => with_store (fun st => default st (open cur uuid ttl ws name cmd err st)) s
  | Resume n => with_store (resume_call n) (flush s)
  | Reconnect k err cmd => with_store (TerminalSession.reconnect k err cmd) s
  | Remove k => remove_entries (remove k) s
  | CloseAll => remove_entries closeAll s
  | SetSessionId k id => with_store (setSessionId k id) s
  | Expired k => with_store (onExpired k) s
  | Flush => flush s
  | SetSlot k el => with_store (setSlot k el) s
  | Sync f g => with_store (sync f g) s
  end.

Definition run (es : list Event) (s : Restoring) : Restoring := fold_left (fun s e => rstep e s) es s.

(** ** Reachable states *)

(** Events as they occur: keys are new. *)
Definition good_event (s : Restoring) (e : Event) : Prop :=
  match e with
  | Listed i cur lh r0 r1 uuid =>
      match s.(searches) !! i with
      | Some node => all_fresh (imap (fun k x => (x, uuid k)) (listings node r0 r1)) s.(store)
      | None => True
      end
  | Open cur uuid ttl ws name cmd err => fresh uuid s.(store)
  | _ => True
  end.

Inductive good_step : Restoring -> Restoring -> Prop :=
| good_rstep e s : good_event s e -> good_step s (rstep e s).

Definition restoring_reachable (s : Restoring) : Prop := star good_step initial_restoring s.

(** The entries a loop has been at. *)
Definition begun (l : Loop) : nat := match l.(l_call) with Some _ => S l.(l_pos) | None => l.(l_pos) end.
Definition passed (l : Loop) (s : Sessions) : list N := take (begun l) (array l s).

(** A loop over distinct entries that has reconnected none but those it has passed. *)
Record loop_ok (i : nat) (l : Loop) (st : Sessions) (log : list (nat * N)) : Prop := {
  lo_nodup : NoDup (array l st);
  lo_begun : begun l <= length (array l st);
  lo_heap : forall o, o ∈ array l st -> is_Some (st.(heap) !! o);
  lo_call : match l.(l_call) with Some {| c_await := Waiting n |} => n <= 6 | _ => True end;
  lo_passed : forall o, (i, o) ∈ log -> o ∈ passed l st
}.

Record restoring_ok (s : Restoring) : Prop := {
  ro_store : sessions_ok s.(store);
  ro_fresh : forall i, is_Some (s.(searches) !! i) \/ is_Some (s.(loops) !! i) \/ i ∈ s.(reconnected).*1 -> i < s.(fresh_loop);
  ro_apart : forall i, is_Some (s.(searches) !! i) -> (s.(loops) !! i = None) /\ (i ∉ s.(reconnected).*1);
  ro_loop : forall i l, s.(loops) !! i = Some l -> loop_ok i l s.(store) s.(reconnected);
  ro_once : NoDup s.(reconnected)
}.

(** How far a loop has come, in turns. *)
Definition call_turns (c : Call) : nat :=
  match c.(c_await) with Waiting n => 7 - n | Resolved _ => 8 end.
Definition progress (l : Loop) : nat := 9 * l.(l_pos) + match l.(l_call) with Some c => call_turns c | None => 0 end.

Lemma resume_turns c s : match c.(c_await) with Waiting n => n <= 6 | _ => True end ->
  match c.(c_await) with
  | Waiting _ => call_turns c < call_turns (resume c s).1 /\
      match (c_await (resume c s).1) with Waiting n => n <= 6 | _ => True end
  | Resolved _ => call_turns c = 8
  end.
Proof.
  unfold resume, call_turns. destruct (c_await c) as [n|]; [|done]. intros Hn. cbn.
  destruct (instances s !! c_key c) as [i|]; [|destruct n; cbn; lia].
  destruct n as [|[|[|[|[|[|n]]]]]]; cbn; lia.
Qed.

(** A store whose list only got longer. *)
Record grows (st st' : Sessions) : Prop := {
  gr_ok : sessions_ok st';
  gr_entries : exists tl, st'.(entries) = st.(entries) ++ tl;
  gr_heap : forall o, is_Some (st.(heap) !! o) -> is_Some (st'.(heap) !! o)
}.

Lemma grows_refl st : sessions_ok st -> grows st st.
Proof. intros Hs. split; [done|exists []; by rewrite app_nil_r|done]. Qed.

Lemma grows_trans s1 s2 s3 : grows s1 s2 -> grows s2 s3 -> grows s1 s3.
Proof.
  intros [_ [t E] H] [Hs [t' E'] H']. split; [done| |auto]. exists (t ++ t'). by rewrite E', E, app_assoc.
Qed.

Lemma grows_alter f o st : (forall e, key (f e) = key e) -> sessions_ok st -> grows st (with_heap (alter f o st.(heap)) st).
Proof.
  intros Hf Hs. split; [by apply alter_ok|exists []; by rewrite app_nil_r|]. intros p Hp. cbn.
  destruct (decide (o = p)) as [->|Hn]; [rewrite lookup_alter_eq; by apply fmap_is_Some|by rewrite lookup_alter_ne].
Qed.

Lemma grows_push st st' e : sessions_ok st -> sessions_ok st' -> st'.(entries) = (push_entry e st).(entries) ->
  st'.(heap) = (push_entry e st).(heap) -> grows st st'.
Proof.
  intros Hs Hs' E1 E2. split; [done|rewrite E1; by eexists|]. intros o [d Ho]. rewrite E2. cbn.
  apply (ok_next st Hs) in Ho as Hlt. rewrite lookup_insert_ne by lia. by rewrite Ho.
Qed.

Lemma open_grows cur uuid ttl ws name cmd err st : sessions_ok st -> fresh uuid st ->
  grows st (default st (open cur uuid ttl ws name cmd err st)).
Proof.
  intros Hs Hf. destruct (open cur uuid ttl ws name cmd err st) as [st'|] eqn:E; [|by apply grows_refl].
  assert (Hok : sessions_ok st') by (apply (session_step_ok st); [done|by eapply s_open]). cbn.
  unfold open in E. destruct (add _ _ _ st) as [s1|] eqn:Ea; [|done]. cbn in E. destruct (find s1 uuid) as [o|]; [|done]. injection E as <-.
  apply add_shape in Ea as (enc & ta & _ & _ & ->). by eapply grows_push.
Qed.

Lemma restore_one_grows node cur lh i r uuid st st' : sessions_ok st -> fresh uuid st ->
  restore_one node cur lh i r uuid st = Some st' -> grows st st'.
Proof.
  intros Hs Hf E. destruct (passed_over node i r || memb (s_id r) (ids st)) eqn:Ep.
  { rewrite restore_one_skip in E by done. injection E as <-. by apply grows_refl. }
  assert (Hok : sessions_ok st') by (apply (session_step_ok st); [done|by eapply s_restore]).
  apply restore_one_push in E as (e & Hk & ->); [|done..]. split; [done|by eexists|]. intros o [d Ho].
  apply (ok_next st Hs) in Ho as Hlt. cbn. rewrite lookup_alter_ne, lookup_insert_ne by lia. by rewrite Ho.
Qed.

Lemma all_fresh_step node cur lh i r uuid st st' rs : sessions_ok st -> fresh uuid st ->
  restore_one node cur lh i r uuid st = Some st' -> uuid ∉ List.map snd rs -> all_fresh rs st -> all_fresh rs st'.
Proof.
  intros Hs Hf E. induction rs as [|[[j r'] v] rs IH]; [done|]. cbn [List.map snd]. intros [Hv Hn]%not_elem_of_cons (H1 & H2 & H3).
  split; [by apply (restore_one_fresh node cur lh i r uuid st)|]. split; [done|by apply IH].
Qed.

Lemma merge_grows node cur lh rs : forall st, sessions_ok st -> all_fresh rs st -> grows st (merge_all node cur lh rs st).1.
Proof.
  induction rs as [|[[i r] uuid] rs IH]; intros st Hs Hf; [by apply grows_refl|]. cbn [merge_all].
  destruct Hf as (Hf & Hn & Hfs). destruct (restore_one node cur lh i r uuid st) as [st'|] eqn:E; [|by apply grows_refl].
  apply restore_one_grows in E as Hg; [|done..]. eapply grows_trans; [done|]. apply IH; [apply Hg|by eapply all_fresh_step].
Qed.

Lemma resume_call_grows n st : sessions_ok st -> grows st (resume_call n st).
Proof.
  intros Hs. split; [by apply resume_ok| |]; unfold resume_call; destruct (calls st !! n) as [c|]; try (exists []; by rewrite app_nil_r); try done;
    destruct (resume c st); [exists []; by rewrite app_nil_r|done].
Qed.

Lemma sync_grows f g st : sessions_ok st -> grows st (sync f g st).
Proof.
  unfold sync. generalize (entries st) as os. intros os. revert st. induction os as [|o os IH]; intros st Hs; [by apply grows_refl|].
  cbn [foldl]. destruct (heap st !! o ≫= _) as [i|]; [|by apply IH].
  assert (Hg : grows st (with_heap (alter (set_link (if f i then online else closed) (g i)) o st.(heap)) st)) by by apply grows_alter.
  eapply grows_trans; [exact Hg|]. apply IH, Hg.
Qed.

(** A step of the store that keeps the list and the heap's domain. *)
Lemma quiet_grows st st' : sessions_ok st -> quiet st st' -> st'.(entries) = st.(entries) ->
  (forall o, is_Some (st.(heap) !! o) -> is_Some (st'.(heap) !! o)) -> grows st st'.
Proof. intros Hs Hq E H. split; [by eapply quiet_ok|exists []; by rewrite E, app_nil_r|done]. Qed.

(** A loop whose store has grown. *)
Lemma loop_grows i l st st' log : grows st st' -> loop_ok i l st log -> loop_ok i l st' log.
Proof.
  intros [Hs [tl E] Hh] [H1 H2 H3 H4 H5].
  assert (Ha : exists tl', array l st' = array l st ++ tl').
  { unfold array. destruct (l_array l); cbn; [exists []; by rewrite app_nil_r|by exists tl]. }
  destruct Ha as [tl' Ha]. split.
  - unfold array in *. destruct (l_array l); [done|]. apply Hs.
  - rewrite Ha, length_app. lia.
  - intros o Ho. unfold array in *. destruct (l_array l); [by apply Hh, H3|]. by apply (ok_live st' Hs).
  - done.
  - intros o Ho. unfold passed in *. rewrite Ha, take_app_le by done. by apply H5.
Qed.

Lemma store_ok f s : restoring_ok s -> grows s.(store) (f s.(store)) -> restoring_ok (with_store f s).
Proof.
  intros [H1 H2 H3 H4 H5] Hg. split; try done; [apply Hg|]. intros i l Hl. eapply loop_grows; [done|by apply H4].
Qed.

(** The store's list is replaced by what is left of it. *)
Lemma remove_entries_ok f s : restoring_ok s -> restoring_ok (remove_entries (removeWhere f) s).
Proof.
  intros [H1 H2 H3 H4 H5]. split; cbn; [by apply removeWhere_ok| | | |done].
  - intros i Hi. apply H2. rewrite lookup_fmap, fmap_is_Some in Hi. done.
  - intros i Hi. rewrite lookup_fmap. destruct (H3 i Hi) as [-> Hn]. done.
  - intros i l. rewrite lookup_fmap_Some. intros (l0 & <- & Hl). destruct (H4 i l0 Hl). by split.
Qed.

(** A loop moves on, with at most one reconnection. *)
Lemma moved_ok i l l' st' log' s : restoring_ok s -> s.(loops) !! i = Some l -> grows s.(store) st' ->
  log' = s.(reconnected) \/ (exists o, log' = s.(reconnected) ++ [(i, o)] /\ ((i, o) ∉ s.(reconnected))) ->
  loop_ok i l' st' log' ->
  restoring_ok {| store := st'; searches := s.(searches); loops := <[i := l']> s.(loops); fresh_loop := s.(fresh_loop); reconnected := log'; host := s.(host) |}.
Proof.
  intros [H1 H2 H3 H4 H5] Hl Hg Hlog Hok.
  assert (Hsub : forall j o, (j, o) ∈ log' -> (j, o) ∈ s.(reconnected) \/ j = i).
  { intros j o Ho. destruct Hlog as [->|(o' & -> & _)]; [by left|]. apply elem_of_app in Ho as [Ho|Ho]; [by left|].
    apply list_elem_of_singleton in Ho. right. congruence. }
  assert (Hfst : forall j, j ∈ log'.*1 -> j ∈ s.(reconnected).*1 \/ j = i).
  { intros j ([j' o] & -> & Ho)%list_elem_of_fmap. cbn. destruct (Hsub _ _ Ho) as [Ho'| ->]; [left|by right].
    apply list_elem_of_fmap. by exists (j', o). }
  split; cbn; [apply Hg| | | |].
  - intros j Hj. destruct (decide (j = i)) as [->|Hn]; [apply H2; right; left; by eexists|]. rewrite lookup_insert_ne in Hj by done.
    apply H2. destruct Hj as [Hj|[Hj|Hj]]; auto. by destruct (Hfst j Hj); auto.
  - intros j Hj. destruct (H3 j Hj) as [E Hn]. assert (j <> i) by congruence. rewrite lookup_insert_ne by done. split; [done|].
    intros Hj'. by destruct (Hfst j Hj').
  - intros j l0. rewrite lookup_insert_Some. intros [[<- <-]|[Hn Hj]]; [done|].
    destruct (H4 j l0 Hj) as [L1 L2 L3 L4 L5]. eapply loop_grows; [done|]. split; [done..|].
    intros o Ho. apply L5. destruct (Hsub _ _ Ho) as [?| ->]; done.
  - destruct Hlog as [->|(o & -> & Ho)]; [done|]. apply list.NoDup_app. split; [done|]. split; [|by apply NoDup_singleton].
    intros x Hx ->%list_elem_of_singleton. done.
Qed.

(** The entry a loop stands at is one that it has not passed. *)
Lemma passed_next i a p o st log : loop_ok i {| l_array := a; l_pos := p; l_call := None |} st log ->
  default st.(entries) a !! p = Some o -> ((i, o) ∉ log) /\ S p <= length (default st.(entries) a).
Proof.
  intros [H1 _ _ _ H5] Ho. split; [|by apply lookup_lt_Some in Ho]. intros Hin. apply H5 in Hin.
  unfold passed, array, begun in Hin. cbn in Hin. apply list_elem_of_lookup in Hin as [k Hk].
  apply lookup_take_Some in Hk as [Hk Hlt]. assert (k = p) by (by eapply (NoDup_lookup _ _ _ _ H1)). lia.
Qed.

Lemma passed_more i a p c c' st log : loop_ok i {| l_array := a; l_pos := p; l_call := c |} st log ->
  match c' with Some {| c_await := Waiting n |} => n <= 6 | _ => True end ->
  forall p', begun {| l_array := a; l_pos := p; l_call := c |} <= begun {| l_array := a; l_pos := p'; l_call := c' |} ->
  begun {| l_array := a; l_pos := p'; l_call := c' |} <= length (default st.(entries) a) ->
  loop_ok i {| l_array := a; l_pos := p'; l_call := c' |} st log.
Proof.
  intros [H1 H2 H3 H4 H5] Hc p' Hle Hlen. split; try done. intros o Ho. apply H5 in Ho. unfold passed in *.
  apply (subseteq_take (begun {| l_array := a; l_pos := p; l_call := c |})). rewrite take_take, Nat.min_l by done. exact Ho.
Qed.

Lemma begun_call a p c : begun {| l_array := a; l_pos := p; l_call := Some c |} = S p.
Proof. done. Qed.

Lemma next_entry_ok i s : restoring_ok s -> restoring_ok (next_entry i s).
Proof.
  intros Hs. unfold next_entry. destruct (loops s !! i) as [[a p [c|]]|] eqn:Hl; try done.
  pose proof (ro_loop s Hs i _ Hl) as Hlo. destruct (default (entries (store s)) a !! p) as [o|] eqn:Ho.
  2:{ destruct Hs as [H1 H2 H3 H4 H5]. split; cbn; try done.
      - intros j [Hj|[Hj|Hj]]; [auto| |auto]. rewrite lookup_delete_is_Some in Hj. apply H2. right. left. apply Hj.
      - intros j Hj. rewrite lookup_delete_None. destruct (H3 j Hj). auto.
      - intros j l. rewrite lookup_delete_Some. intros [_ Hj]. by apply H4. }
  destruct (passed_next i a p o _ _ Hlo Ho) as [Hnew Hlen]. pose proof (ro_store s Hs) as Hst.
  assert (Hpast : restoring_ok (with_loops (<[i := {| l_array := a; l_pos := S p; l_call := None |}]> s.(loops)) s)).
  { eapply (moved_ok i _ _ s.(store) s.(reconnected)); [done|done|by apply grows_refl|by left|]. eapply passed_more; [done|done|cbn; lia|done]. }
  destruct (heap (store s) !! o) as [e|] eqn:He; [|done]. destruct (truthy (sessionId e)); [|done].
  destruct (find (store s) (key e)) as [o'|] eqn:Hf; [|done]. apply find_spec in Hf as (_ & e' & He' & Hk).
  assert (o' = o) as -> by by apply (ok_keys _ Hst o' o e' e).
  eapply (moved_ok i _ _ _ (s.(reconnected) ++ [(i, o)])); [done|done|by apply grows_alter|right; by exists o|].
  assert (Hg : grows s.(store) (with_heap (alter bump_refresh o s.(store).(heap)) s.(store))) by by apply grows_alter.
  apply (loop_grows _ _ _ _ _ Hg). assert (Hmore : loop_ok i {| l_array := a; l_pos := p; l_call := Some (reconnect_call o e) |} s.(store) s.(reconnected)).
  { eapply passed_more; [done|cbn; lia|cbn; lia|done]. }
  destruct Hmore as [L1 L2 L3 L4 L5]. split; try done. intros o'' [Hin|Hin]%elem_of_app; [by apply L5|].
  apply list_elem_of_singleton in Hin as [= ->]. unfold passed. rewrite begun_call. apply list_elem_of_lookup. exists p.
  apply lookup_take_Some. split; [exact Ho|lia].
Qed.

Lemma tick_ok i s : restoring_ok s -> restoring_ok (tick i s).
Proof.
  intros Hs. unfold tick. destruct (loops s !! i) as [[a p [c|]]|] eqn:Hl; try done.
  pose proof (ro_loop s Hs i _ Hl) as Hlo. destruct (resume c (store s)) as [c' out] eqn:Hr.
  pose proof (resume_turns c s.(store)) as Ht. rewrite Hr in Ht. cbn [fst] in Ht.
  match goal with |- context [with_store ?f _] => set (st' := f) end. assert (Hg : grows s.(store) (st' s.(store))).
  { split; [|exists []; by rewrite app_nil_r|done]. destruct (ro_store s Hs). by split. }
  unfold with_loops, with_store. cbn [store searches loops fresh_loop reconnected host].
  eapply (moved_ok i _ _ (st' s.(store)) s.(reconnected)); [done|done|done|by left|]. apply (loop_grows _ _ _ _ _ Hg).
  pose proof (lo_begun _ _ _ _ Hlo) as Hb. pose proof (lo_call _ _ _ _ Hlo) as Hc. cbn in Hb, Hc.
  destruct (c_await c) as [n|inst] eqn:Ea.
  - eapply passed_more; [done| |done|done]. destruct c' as [x1 x2 x3 x4 x5 x6]. apply Ht. destruct c; cbn in *. by rewrite Ea in Hc.
  - by eapply passed_more.
Qed.

Lemma advance_ok n i : forall s, restoring_ok s -> restoring_ok (advance n i s).
Proof.
  induction n as [|n IH]; intros s Hs; [done|]. cbn [advance]. destruct (loops s !! i) as [[a p [c|]]|]; try done. by apply IH, next_entry_ok.
Qed.

Lemma go_on_ok i s : restoring_ok s -> restoring_ok (go_on i s).
Proof. intros Hs. unfold go_on. destruct (loops s !! i); [by apply advance_ok|done]. Qed.

(** *** The host *)

Lemma live_listed st e : e ∈ live st -> exists o, o ∈ st.(entries) /\ st.(heap) !! o = Some e.
Proof. unfold live. intros (o & Ho & He)%list_elem_of_omap. by exists o. Qed.

Lemma find_listed st o e : sessions_ok st -> o ∈ st.(entries) -> st.(heap) !! o = Some e -> find st e.(key) = Some o.
Proof.
  intros Hs Ho He. unfold find. destruct (List.find _ _) as [o'|] eqn:E.
  - apply find_some in E as [Hin Hk]. destruct (heap st !! o') as [e'|] eqn:He'; [|done]. apply streqb_eq in Hk. f_equal. by apply (ok_keys st Hs o' o e' e).
  - exfalso. pose proof (find_none _ _ E o (proj1 (list_elem_of_In _ _) Ho)) as Hn. cbn in Hn. rewrite He in Hn. by rewrite streqb_refl in Hn.
Qed.

(** What a flush leaves of the store. *)
Record flushed (st st' : Sessions) : Prop := {
  fl_ok : sessions_ok st';
  fl_entries : st'.(entries) = st.(entries);
  fl_heap : st'.(heap) = st.(heap);
  fl_accepted : st'.(accepted) = st.(accepted)
}.

Lemma flushed_trans s1 s2 s3 : flushed s1 s2 -> flushed s2 s3 -> flushed s1 s3.
Proof. intros [] []. constructor; congruence || done. Qed.

Lemma flushed_live st st' : flushed st st' -> live st' = live st.
Proof. intros [_ E1 E2 _]. unfold live. by rewrite E1, E2. Qed.

Lemma flushed_grows st st' : flushed st st' -> grows st st'.
Proof. intros [H1 H2 H3 _]. split; [done|exists []; by rewrite H2, app_nil_r|by rewrite H3]. Qed.

Lemma set_flushed k i st : sessions_ok st -> i = None \/ is_Some (find st k) -> flushed st (setInstance k i st).
Proof. intros Hs Hi. split; [eapply quiet_ok; [done|by constructor]|by destruct i..]. Qed.

Lemma unmount_flushed h st : sessions_ok st -> flushed st (unmount h st).2.
Proof.
  unfold unmount. cbn [snd]. generalize (List.filter (fun k => negb (memb k (List.map key (live st)))) (map_to_list (rendered h)).*1) as ks.
  intros ks Hs. induction ks as [|k ks IH]; [by split|]. cbn [foldr]. eapply flushed_trans; [exact IH|]. apply set_flushed; [apply IH|by left].
Qed.

Lemma mount_flushed es : forall h st, sessions_ok st -> (forall e, e ∈ es -> e ∈ live st) ->
  flushed st (mount es h st).2 /\ (forall k, is_Some (st.(instances) !! k) -> is_Some ((mount es h st).2.(instances) !! k)) /\
  forall e, e ∈ es -> is_Some ((mount es h st).2.(instances) !! e.(key)).
Proof.
  induction es as [|e es IH]; intros h st Hs He; [split; [by split|split; [done|by intros e ?%not_elem_of_nil]]|].
  cbn [mount]. destruct (mount_one e h) as [i h']. destruct (live_listed st e) as (o & Ho & Hoe); [apply He; by left|].
  assert (Hf : flushed st (setInstance (key e) (Some i) st)) by (apply set_flushed; [done|right; rewrite (find_listed st o e Hs Ho Hoe); by eexists]).
  destruct (IH h' (setInstance (key e) (Some i) st)) as (H1 & H2 & H3); [apply Hf| |].
  { intros d Hd. rewrite (flushed_live _ _ Hf). apply He. by right. }
  split; [by eapply flushed_trans|]. split.
  - intros k Hk. apply H2. cbn. destruct (decide (key e = k)) as [->|Hn]; [rewrite lookup_insert_eq; by eexists|by rewrite lookup_insert_ne].
  - intros d [->|Hd]%elem_of_cons; [|by apply H3]. apply H2. cbn. rewrite lookup_insert_eq. by eexists.
Qed.

(** After a flush every entry has its terminal. *)
Lemma flush_spec s : sessions_ok s.(store) -> flushed s.(store) (flush s).(store) /\
  (forall e, e ∈ live s.(store) -> is_Some ((flush s).(store).(instances) !! e.(key))) /\
  (flush s).(searches) = s.(searches) /\ (flush s).(loops) = s.(loops) /\ (flush s).(fresh_loop) = s.(fresh_loop) /\
  (flush s).(reconnected) = s.(reconnected).
Proof.
  intros Hs. unfold flush. pose proof (unmount_flushed s.(host) s.(store) Hs) as Hu. destruct (unmount (host s) (store s)) as [h st]. cbn [snd] in Hu.
  destruct (mount_flushed (live st) h st (fl_ok _ _ Hu)) as (H1 & _ & H3); [done|]. destruct (mount (live st) h st) as [h' st']. cbn [snd] in *.
  split; [by eapply flushed_trans|]. split; [|done]. cbn. rewrite <- (flushed_live _ _ Hu). exact H3.
Qed.

Lemma host_flush_ok s : restoring_ok s -> restoring_ok (flush s).
Proof.
  intros Hs. destruct (flush_spec s (ro_store s Hs)) as (H1 & _ & E1 & E2 & E3 & E4). destruct Hs as [G1 G2 G3 G4 G5].
  split; rewrite ?E1, ?E2, ?E3, ?E4; try done; [apply H1|]. intros i l Hl. eapply loop_grows; [by apply flushed_grows|by apply G4].
Qed.

Lemma turn_ok i s : restoring_ok s -> restoring_ok (turn i s).
Proof.
  intros Hs. unfold turn. destruct (loops s !! i) as [[a p [[c1 c2 c3 c4 c5 [n|r]]|]]|];
    [by apply tick_ok, host_flush_ok|by apply tick_ok|by apply go_on_ok|done].
Qed.

Lemma restore_ok cur s : restoring_ok s -> restoring_ok (restore cur s).
Proof.
  intros [H1 H2 H3 H4 H5].
  assert (Hn : forall i, is_Some (s.(loops) !! i) \/ i ∈ s.(reconnected).*1 -> i <> fresh_loop s).
  { intros i Hi ->. assert (fresh_loop s < fresh_loop s); [apply H2; tauto|lia]. }
  split; cbn; try done.
  - intros i [Hi|Hi]; [|apply Nat.lt_lt_succ_r, H2; tauto].
    rewrite lookup_insert_is_Some in Hi. destruct Hi as [<-|[_ Hi]]; [lia|]. apply Nat.lt_lt_succ_r, H2. by left.
  - intros i. rewrite lookup_insert_is_Some. intros [<-|[_ Hi]]; [|by apply H3].
    split; [|intros Hi; by apply (Hn (fresh_loop s)); auto]. apply eq_None_not_Some. intros Hi. apply (Hn (fresh_loop s)); auto.
Qed.

Lemma merged_ok i cur lh r0 r1 uuid s : good_event s (Listed i cur lh r0 r1 uuid) -> restoring_ok s ->
  restoring_ok (merged i cur lh r0 r1 uuid s).
Proof.
  cbn. unfold merged. intros Hf Hs. destruct (searches s !! i) as [node|] eqn:Ei; [|done].
  pose proof (merge_grows node cur lh _ s.(store) (ro_store s Hs) Hf) as Hg. destruct (merge_all _ _ _ _ _) as [st ended]. cbn [fst] in Hg.
  destruct Hs as [H1 H2 H3 H4 H5]. destruct (H3 i) as [Hl Hlog]; [by eexists|].
  assert (Hdel : forall j, is_Some (delete i (searches s) !! j) -> j <> i /\ is_Some (searches s !! j)).
  { intros j Hj. rewrite lookup_delete_is_Some in Hj. by destruct Hj. }
  assert (Hadd : forall j, is_Some ((if ended then <[i := {| l_array := None; l_pos := 0; l_call := None |}]> (loops s) else loops s) !! j) ->
    j = i \/ is_Some (loops s !! j)).
  { intros j. destruct ended; [|by right]. rewrite lookup_insert_is_Some. intros [<-|[_ ?]]; auto. }
  split; cbn; [apply Hg| | | |done].
  - intros j [Hj|[Hj|Hj]]; [by apply H2; left; apply Hdel| |by apply H2; auto].
    destruct (Hadd j Hj) as [->|Hj']; apply H2; [left; by eexists|auto].
  - intros j Hj. apply Hdel in Hj as [Hn Hj]. destruct (H3 j Hj) as [E Hn']. split; [|done].
    destruct ended; [by rewrite lookup_insert_ne|done].
  - assert (Hold : forall j l, loops s !! j = Some l -> loop_ok j l st (reconnected s)) by (intros j l Hj; eapply loop_grows; [done|by apply H4]).
    intros j l. destruct ended; [|by apply Hold]. rewrite lookup_insert_Some. intros [[<- <-]|[_ Hj]]; [|by apply Hold].
    split; cbn; [apply Hg|lia|by apply (ok_live st (gr_ok _ _ Hg))|done|].
    intros o Ho. exfalso. apply Hlog. apply list_elem_of_fmap. by exists (i, o).
Qed.

Lemma listed_ok i cur lh r0 r1 uuid s : good_event s (Listed i cur lh r0 r1 uuid) -> restoring_ok s ->
  restoring_ok (listed i cur lh r0 r1 uuid s).
Proof.
  intros Hg Hs. pose proof (merged_ok i cur lh r0 r1 uuid s Hg Hs) as Hm. unfold listed. destruct (searches s !! i); [by apply go_on_ok|done].
Qed.

Lemma find_domain f o o' (h : gmap N Entry) : is_Some (h !! o) -> is_Some (alter f o' h !! o).
Proof.
  intros Ho. destruct (decide (o' = o)) as [->|Hn]; [rewrite lookup_alter_eq; by apply fmap_is_Some|by rewrite lookup_alter_ne].
Qed.

Lemma rstep_ok s s' : restoring_ok s -> good_step s s' -> restoring_ok s'.
Proof.
  intros Hs H. destruct H as [e s Hg]. pose proof (ro_store s Hs) as Hst.
  destruct e; cbn [rstep good_event] in *.
  - by apply restore_ok.
  - by apply listed_ok.
  - by apply turn_ok.
  - apply store_ok; [done|]. by apply open_grows.
  - apply store_ok; [by apply host_flush_ok|]. apply resume_call_grows, (fl_ok _ _ (proj1 (flush_spec s Hst))).
  - apply store_ok; [done|]. apply quiet_grows; [done|constructor|..]; unfold TerminalSession.reconnect; destruct (find _ _); try done.
    intros o. apply find_domain.
  - by apply remove_entries_ok.
  - by apply remove_entries_ok.
  - apply store_ok; [done|]. apply quiet_grows; [done|constructor|..]; unfold setSessionId; destruct (find _ _); try done.
    intros o. apply find_domain.
  - apply store_ok; [done|]. apply quiet_grows; [done|constructor|..]; unfold onExpired; destruct (find _ _); try done.
    intros o. apply find_domain.
  - by apply host_flush_ok.
  - apply store_ok; [done|]. apply quiet_grows; [done|by constructor|..]; done.
  - apply store_ok; [done|]. by apply sync_grows.
Qed.

Lemma initial_restoring_ok : restoring_ok initial_restoring.
Proof.
  split; cbn; [apply initial_sessions_ok| | | |constructor].
  - intros i [[x Hi]|[[x Hi]|Hi]]; [done..|by apply not_elem_of_nil in Hi].
  - intros i [x Hi]. done.
  - done.
Qed.

Lemma reachable_restoring_ok s : restoring_reachable s -> restoring_ok s.
Proof. intros H. by apply (star_invariant _ _ rstep_ok _ _ H), initial_restoring_ok. Qed.

(** ** What restore promises *)

(** However the store goes on meanwhile, a restore reconnects every entry once at most, and only
    entries it has come to. *)
Theorem restore_reconnects_once s : restoring_reachable s ->
  NoDup s.(reconnected) /\
  forall i l o, s.(loops) !! i = Some l -> (i, o) ∈ s.(reconnected) -> o ∈ passed l s.(store).
Proof.
  intros Hs%reachable_restoring_ok. split; [apply Hs|]. intros i l o Hl. apply (ro_loop s Hs i l Hl).
Qed.

Lemma next_entry_spec i s a p : s.(loops) !! i = Some {| l_array := a; l_pos := p; l_call := None |} ->
  store (next_entry i s) = s.(store) /\
    (loops (next_entry i s) = delete i s.(loops) /\ default s.(store).(entries) a !! p = None \/
     loops (next_entry i s) = <[i := {| l_array := a; l_pos := S p; l_call := None |}]> s.(loops)) \/
  exists o e, store (next_entry i s) = with_heap (alter bump_refresh o s.(store).(heap)) s.(store) /\
    loops (next_entry i s) = <[i := {| l_array := a; l_pos := p; l_call := Some (reconnect_call o e) |}]> s.(loops).
Proof.
  intros Hl. unfold next_entry. rewrite Hl. destruct (_ !! p) as [o|]; [|by left; split; [|left]].
  destruct (heap (store s) !! o) as [e|]; [|by left; split; [|right]].
  destruct (truthy (sessionId e)); [|by left; split; [|right]].
  destruct (find (store s) (key e)) as [o'|]; [|by left; split; [|right]]. right. by exists o', e.
Qed.

Lemma tick_spec i s a p c : s.(loops) !! i = Some {| l_array := a; l_pos := p; l_call := Some c |} ->
  (exists out, store (tick i s) = Build_Sessions s.(store).(heap) s.(store).(next) s.(store).(entries) s.(store).(instances)
    s.(store).(slots) s.(store).(calls) (s.(store).(accepted) ++ out) /\ out = (resume c s.(store)).2) /\
  loops (tick i s) = <[i := match c.(c_await) with
    | Waiting _ => {| l_array := a; l_pos := p; l_call := Some (resume c s.(store)).1 |}
    | Resolved _ => {| l_array := a; l_pos := S p; l_call := None |} end]> s.(loops).
Proof. intros Hl. unfold tick. rewrite Hl. destruct (resume c (store s)) as [c' out]. split; [by exists out|done]. Qed.

Lemma loop_progress i s l l' : s.(loops) !! i = Some l -> l.(l_call) = None -> loops (next_entry i s) !! i = Some l' ->
  progress l < progress l' /\ array l' (next_entry i s).(store) = array l s.(store).
Proof.
  destruct l as [a p c]. cbn. intros Hl ->.
  destruct (next_entry_spec i s a p Hl) as [[-> [[-> _]| ->]]|(o & e & -> & ->)]; [by rewrite lookup_delete_eq|..];
    rewrite lookup_insert_eq; intros [= <-]; (split; [unfold progress; cbn; lia|done]).
Qed.

Lemma advance_gone n i s : s.(loops) !! i = None -> advance n i s = s.
Proof. intros H. destruct n; [done|]. cbn. by rewrite H. Qed.

Lemma advance_progress n i : forall s l l', s.(loops) !! i = Some l -> loops (advance n i s) !! i = Some l' ->
  progress l <= progress l' /\ array l' (advance n i s).(store) = array l s.(store).
Proof.
  induction n as [|n IH]; intros s l l' Hl; [cbn; rewrite Hl; by intros [= <-]|]. cbn [advance]. rewrite Hl.
  destruct l as [a p [c|]]; [rewrite Hl; by intros [= <-]|]. intros Hl'. destruct (loops (next_entry i s) !! i) as [l1|] eqn:E1.
  - destruct (loop_progress i s _ l1 Hl eq_refl E1) as [H1 <-]. destruct (IH _ l1 l' E1 Hl') as [H2 <-]. split; [lia|done].
  - rewrite advance_gone in Hl' by done. congruence.
Qed.

(** A loop that is not at an await goes on. *)
Lemma go_on_progress i s l l' : s.(loops) !! i = Some l -> l.(l_call) = None -> loops (go_on i s) !! i = Some l' ->
  progress l < progress l' /\ array l' (go_on i s).(store) = array l s.(store).
Proof.
  intros Hl Hc. unfold go_on. rewrite Hl. cbn [advance]. rewrite Hl. destruct l as [a p c]. cbn in Hc. subst c. intros Hl'.
  destruct (loops (next_entry i s) !! i) as [l1|] eqn:E1.
  - destruct (loop_progress i s _ l1 Hl eq_refl E1) as [H1 A1]. destruct (advance_progress _ i _ l1 l' E1 Hl') as [H2 A2]. split; [lia|]. etransitivity; [exact A2|exact A1].
  - rewrite advance_gone in Hl' by done. congruence.
Qed.

(** Other loops and the calls that wait stay as they are. *)
Lemma next_entry_other i j s : i <> j -> loops (next_entry i s) !! j = s.(loops) !! j.
Proof. intros Hn. unfold next_entry. repeat case_match; cbn; rewrite ?lookup_insert_ne, ?lookup_delete_ne by done; done. Qed.

Lemma next_entry_rest i s : searches (next_entry i s) = s.(searches) /\ fresh_loop (next_entry i s) = s.(fresh_loop).
Proof. unfold next_entry. by repeat case_match. Qed.

Lemma advance_other n i j : i <> j -> forall s, loops (advance n i s) !! j = s.(loops) !! j.
Proof.
  intros Hn. induction n as [|n IH]; intros s; [done|]. cbn [advance]. destruct (loops s !! i) as [[a p [c|]]|]; try done.
  by rewrite IH, next_entry_other.
Qed.

Lemma advance_rest n i : forall s, searches (advance n i s) = s.(searches) /\ fresh_loop (advance n i s) = s.(fresh_loop).
Proof.
  induction n as [|n IH]; intros s; [done|]. cbn [advance]. destruct (loops s !! i) as [[a p [c|]]|]; try done.
  destruct (IH (next_entry i s)) as [-> ->]. apply next_entry_rest.
Qed.

Lemma go_on_other i j s : i <> j -> loops (go_on i s) !! j = s.(loops) !! j.
Proof. intros Hn. unfold go_on. destruct (loops s !! i); [by apply advance_other|done]. Qed.

Lemma go_on_rest i s : searches (go_on i s) = s.(searches) /\ fresh_loop (go_on i s) = s.(fresh_loop).
Proof. unfold go_on. destruct (loops s !! i); [apply advance_rest|done]. Qed.

Lemma flush_rest s : (flush s).(searches) = s.(searches) /\ (flush s).(loops) = s.(loops) /\ (flush s).(fresh_loop) = s.(fresh_loop).
Proof. unfold flush. destruct (unmount _ _) as [h st]. by destruct (mount _ _ _). Qed.

Lemma tick_other i j s : i <> j -> loops (tick i s) !! j = s.(loops) !! j.
Proof. intros Hn. unfold tick. destruct (loops s !! i) as [[a p [c|]]|]; try done. destruct (resume c (store s)). cbn. by rewrite lookup_insert_ne. Qed.

Lemma tick_rest i s : searches (tick i s) = s.(searches) /\ fresh_loop (tick i s) = s.(fresh_loop).
Proof. unfold tick. destruct (loops s !! i) as [[a p [c|]]|]; try done. by destruct (resume c (store s)). Qed.

Lemma turn_other i j s : i <> j -> loops (turn i s) !! j = s.(loops) !! j.
Proof.
  intros Hn. unfold turn. destruct (loops s !! i) as [[a p [[c1 c2 c3 c4 c5 [n|r]]|]]|]; [|by apply tick_other|by apply go_on_other|done].
  rewrite tick_other by done. by destruct (flush_rest s) as (_ & -> & _).
Qed.

Lemma turn_rest i s : searches (turn i s) = s.(searches) /\ fresh_loop (turn i s) = s.(fresh_loop).
Proof.
  unfold turn. destruct (loops s !! i) as [[a p [[c1 c2 c3 c4 c5 [n|r]]|]]|]; [|apply tick_rest|apply go_on_rest|done].
  destruct (tick_rest i (flush s)) as [-> ->]. by destruct (flush_rest s) as (-> & _ & ->).
Qed.

Lemma tick_progress i s l l' : restoring_ok s -> s.(loops) !! i = Some l -> l.(l_call) <> None -> loops (tick i s) !! i = Some l' ->
  progress l < progress l' /\ array l' (tick i s).(store) = array l s.(store).
Proof.
  intros Hs Hl Hn. pose proof (ro_loop s Hs i l Hl) as [_ _ _ Hc _]. destruct l as [a p [c|]]; [|done].
  destruct (tick_spec i s a p c Hl) as [(out & -> & _) ->]. rewrite lookup_insert_eq.
  pose proof (resume_turns c s.(store)) as Ht.
  assert (Hc' : match c.(c_await) with Waiting n => n <= 6 | _ => True end) by (clear -Hc; by destruct c).
  destruct (c_await c) as [n|inst]; specialize (Ht Hc').
  - destruct Ht as [Hlt _]. intros [= <-]. split; [unfold progress; cbn [l_pos l_call]; lia|done].
  - intros [= <-]. split; [unfold progress; cbn [l_pos l_call]; lia|done].
Qed.

(** A turn brings a loop forward, or to its end; what it goes through stays the same. *)
Lemma turn_progress i s l l' : restoring_ok s -> s.(loops) !! i = Some l -> loops (turn i s) !! i = Some l' ->
  progress l < progress l' /\ array l' (turn i s).(store) = array l s.(store).
Proof.
  intros Hs Hl. unfold turn. rewrite Hl. destruct l as [a p [[c1 c2 c3 c4 c5 [n|r]]|]].
  - destruct (flush_spec s (ro_store s Hs)) as (Hf & _ & _ & E & _). intros Hl'.
    destruct (tick_progress i (flush s) {| l_array := a; l_pos := p; l_call := Some (Build_Call c1 c2 c3 c4 c5 (Waiting n)) |} l') as [H1 ->];
      [by apply host_flush_ok|by rewrite E|done|done|]. split; [done|]. unfold array. by rewrite (fl_entries _ _ Hf).
  - intros Hl'. by apply tick_progress.
  - intros Hl'. by apply go_on_progress.
Qed.

(** No other event moves a loop. *)
Lemma merged_other i0 i cur lh r0 r1 uuid s : i0 <> i -> loops (merged i0 cur lh r0 r1 uuid s) !! i = s.(loops) !! i.
Proof.
  intros Hn. unfold merged. destruct (searches s !! i0); [|done]. destruct (merge_all _ _ _ _ _) as [st []]; cbn; rewrite ?lookup_insert_ne by done; done.
Qed.

Lemma listed_other i0 i cur lh r0 r1 uuid s : i0 <> i -> loops (listed i0 cur lh r0 r1 uuid s) !! i = s.(loops) !! i.
Proof. intros Hn. unfold listed. destruct (searches s !! i0); [|done]. by rewrite go_on_other, merged_other. Qed.

Lemma listed_rest i cur lh r0 r1 uuid s : searches (listed i cur lh r0 r1 uuid s) = delete i s.(searches) /\
  fresh_loop (listed i cur lh r0 r1 uuid s) = s.(fresh_loop).
Proof.
  unfold listed. destruct (searches s !! i) eqn:E; [|by rewrite delete_id].
  destruct (go_on_rest i (merged i cur lh r0 r1 uuid s)) as [-> ->]. unfold merged. rewrite E. by destruct (merge_all _ _ _ _ _).
Qed.

Lemma event_progress e i s l l' : restoring_ok s -> s.(loops) !! i = Some l -> e <> Turn i -> loops (rstep e s) !! i = Some l' ->
  progress l' = progress l.
Proof.
  intros Hs Hl He. destruct e; cbn [rstep]; try (cbn; rewrite Hl; by intros [= <-]).
  - destruct (decide (i0 = i)) as [->|Hn]; [|rewrite listed_other, Hl by done; by intros [= <-]].
    unfold listed. destruct (searches s !! i) as [node|] eqn:Ei; [|rewrite Hl; by intros [= <-]].
    destruct (ro_apart s Hs i) as [Hn _]; [by eexists|congruence].
  - rewrite turn_other, Hl by congruence. by intros [= <-].
  - destruct (flush_rest s) as (_ & E & _). cbn [with_store loops]. rewrite E, Hl. by intros [= <-].
  - cbn. rewrite lookup_fmap, Hl. by intros [= <-].
  - cbn. rewrite lookup_fmap, Hl. by intros [= <-].
  - destruct (flush_rest s) as (_ & E & _). rewrite E, Hl. by intros [= <-].
Qed.

Fixpoint good_run (es : list Event) (s : Restoring) : Prop :=
  match es with [] => True | e :: es => good_event s e /\ good_run es (rstep e s) end.

Definition is_turn (i : nat) (e : Event) : bool := match e with Turn j => i =? j | _ => false end.
Definition turns (i : nat) (es : list Event) : nat := length (List.filter (is_turn i) es).

(** A loop that is over does not begin again. *)
Lemma loop_gone e i s : restoring_ok s -> i < s.(fresh_loop) -> s.(loops) !! i = None -> (s.(searches) !! i = None) ->
  loops (rstep e s) !! i = None /\ (searches (rstep e s) !! i = None) /\ i < fresh_loop (rstep e s).
Proof.
  intros Hs Hi Hl Hn. destruct (flush_rest s) as (F1 & F2 & F3). destruct e; cbn [rstep]; try done.
  - cbn. rewrite lookup_insert_ne by lia. split; [done|]. split; [done|lia].
  - destruct (listed_rest i0 currentNode localhost r0 r1 uuid s) as [-> ->]. rewrite lookup_delete_None. split; [|auto].
    destruct (decide (i0 = i)) as [->|Hne]; [|by rewrite listed_other]. unfold listed. by rewrite Hn.
  - destruct (turn_rest i0 s) as [-> ->]. split; [|done]. destruct (decide (i0 = i)) as [->|Hne]; [|by rewrite turn_other].
    unfold turn. by rewrite Hl.
  - cbn [with_store searches loops fresh_loop]. by rewrite F1, F2, F3.
  - cbn. by rewrite lookup_fmap, Hl.
  - cbn. by rewrite lookup_fmap, Hl.
  - by rewrite F1, F2, F3.
Qed.

Lemma fresh_grows e s : fresh_loop s <= fresh_loop (rstep e s).
Proof.
  destruct (flush_rest s) as (_ & _ & F). destruct e; cbn [rstep]; try done; [cbn; lia|by rewrite (proj2 (listed_rest _ _ _ _ _ _ _))|
    by rewrite (proj2 (turn_rest _ _))|cbn [with_store fresh_loop]; by rewrite F|by rewrite F].
Qed.

Lemma searches_kept e i s : is_Some (searches (rstep e s) !! i) -> i < s.(fresh_loop) -> is_Some (s.(searches) !! i).
Proof.
  intros H Hi. destruct (flush_rest s) as (F & _ & _). destruct e; cbn [rstep] in H; try exact H.
  - cbn in H. by rewrite lookup_insert_ne in H by lia.
  - rewrite (proj1 (listed_rest _ _ _ _ _ _ _)), lookup_delete_is_Some in H. apply H.
  - by rewrite (proj1 (turn_rest _ _)) in H.
  - cbn [with_store searches] in H. by rewrite F in H.
  - by rewrite F in H.
Qed.

Lemma run_gone es i : forall s, restoring_ok s -> good_run es s -> i < s.(fresh_loop) -> s.(loops) !! i = None -> (s.(searches) !! i = None) ->
  loops (run es s) !! i = None.
Proof.
  induction es as [|e es IH]; intros s Hs Hg Hi Hl Hn; [done|]. destruct Hg as [Hg Hgs].
  destruct (loop_gone e i s Hs Hi Hl Hn) as (H1 & H2 & H3). apply IH; try done. by apply (rstep_ok s), good_rstep.
Qed.

Lemma run_progress es i l' : forall s l, restoring_ok s -> good_run es s -> s.(loops) !! i = Some l -> loops (run es s) !! i = Some l' ->
  progress l + turns i es <= progress l'.
Proof.
  induction es as [|e es IH]; intros s l Hs Hg Hl; [cbn; rewrite Hl; intros [= <-]; lia|]. destruct Hg as [Hg Hgs]. intros Hl'.
  assert (Hs' : restoring_ok (rstep e s)) by by apply (rstep_ok s), good_rstep.
  assert (Hi : i < fresh_loop (rstep e s)).
  { assert (i < fresh_loop s) by (apply (ro_fresh s Hs); right; left; by eexists). pose proof (fresh_grows e s). lia. }
  destruct (loops (rstep e s) !! i) as [l1|] eqn:E1.
  - specialize (IH _ l1 Hs' Hgs E1 Hl'). unfold turns in *. cbn [List.filter]. destruct (is_turn i e) eqn:Et; cbn [length].
    + destruct e; try done. cbn in Et. apply Nat.eqb_eq in Et as <-. cbn [rstep] in E1. apply turn_progress with (l := l) in E1 as [? _]; [lia|done..].
    + assert (e <> Turn i) by (intros ->; cbn in Et; by rewrite Nat.eqb_refl in Et). apply event_progress with (l := l) in E1; [lia|done..].
  - assert (searches (rstep e s) !! i = None) as Hn.
    { apply eq_None_not_Some. intros Hn. apply searches_kept in Hn as Hn'; [|apply (ro_fresh s Hs); right; left; by eexists].
      destruct (ro_apart s Hs i Hn'). congruence. }
    change (run (e :: es) s) with (run es (rstep e s)) in Hl'. rewrite run_gone in Hl'; done.
Qed.

Lemma progress_bound i l st log : loop_ok i l st log -> progress l <= 9 * length (array l st).
Proof.
  intros [_ Hb _ Hc _]. unfold progress, begun in *. destruct (l_call l) as [[c1 c2 c3 c4 c5 []]|]; unfold call_turns; cbn; lia.
Qed.

Lemma turns_over i n : forall s, s.(loops) !! i = None -> run (repeat (Turn i) n) s = s.
Proof.
  induction n as [|n IH]; intros s Hs; [done|]. change (run (repeat (Turn i) (S n)) s) with (run (repeat (Turn i) n) (turn i s)).
  assert (turn i s = s) as -> by (unfold turn; by rewrite Hs). by apply IH.
Qed.

Lemma turns_repeat i n : turns i (repeat (Turn i) n) = n.
Proof. unfold turns. induction n as [|n IH]; [done|]. cbn [repeat List.filter is_turn]. rewrite Nat.eqb_refl. cbn. by rewrite IH. Qed.

Lemma turns_good i n : forall s, good_run (repeat (Turn i) n) s.
Proof. induction n as [|n IH]; intros s; [done|]. split; [done|apply IH]. Qed.

Lemma run_restoring_ok es : forall s, restoring_ok s -> good_run es s -> restoring_ok (run es s).
Proof.
  induction es as [|e es IH]; intros s Hs Hg; [done|]. destruct Hg as [Hg Hgs]. apply IH; [|done]. by apply (rstep_ok s), good_rstep.
Qed.

Lemma run_turns_array i n : forall s l l', restoring_ok s -> s.(loops) !! i = Some l ->
  loops (run (repeat (Turn i) n) s) !! i = Some l' -> array l' (run (repeat (Turn i) n) s).(store) = array l s.(store).
Proof.
  induction n as [|n IH]; intros s l l' Hs Hl; [cbn; rewrite Hl; by intros [= <-]|].
  cbn [repeat run fold_left rstep]. intros Hl'. change (loops (run (repeat (Turn i) n) (turn i s)) !! i = Some l') in Hl'.
  change (array l' (store (run (repeat (Turn i) n) (turn i s))) = array l (store s)).
  destruct (loops (turn i s) !! i) as [l1|] eqn:E.
  - destruct (turn_progress i s l l1 Hs Hl E) as [_ <-]. apply IH; [by apply turn_ok|done..].
  - rewrite turns_over in Hl' by done. by rewrite E in Hl'.
Qed.

(** A restore comes to its end: it takes at most nine turns for each entry there is at last,
    whatever goes on meanwhile, and when it is left alone that many turns end it. *)
Theorem restore_ends es i l s (Hs : restoring_reachable s) (Hl : s.(loops) !! i = Some l) (Hg : good_run es s) :
  (forall l', loops (run es s) !! i = Some l' -> turns i es <= 9 * length (array l' (run es s).(store))) /\
  loops (run (repeat (Turn i) (S (9 * length (array l s.(store))))) s) !! i = None.
Proof.
  apply reachable_restoring_ok in Hs. split.
  - intros l' Hl'. pose proof (run_progress es i l' s l Hs Hg Hl Hl') as Hp.
    pose proof (progress_bound i l' _ _ (ro_loop _ (run_restoring_ok es s Hs Hg) i l' Hl')). lia.
  - set (n := S _). apply eq_None_not_Some. intros [l' Hl'].
    pose proof (turns_good i n s) as Hgt.
    pose proof (run_progress _ i l' s l Hs Hgt Hl Hl') as Hp.
    pose proof (progress_bound i l' _ _ (ro_loop _ (run_restoring_ok _ s Hs Hgt) i l' Hl')) as Hb.
    rewrite (run_turns_array i n s l l') in Hb by done. rewrite turns_repeat in Hp. lia.
Qed.

(** ** What a restore attaches *)

(** An entry is attached: its terminal gets its address under the id of its session. *)
Definition attached (st : Sessions) (o : N) (a : Accept) : Prop :=
  exists e, st.(heap) !! o = Some e /\ a.(a_endpoint) = e.(endpoint) /\ a.(a_args) = e.(args) /\ a.(a_sessionId) = Some e.(sessionId).

Definition with_session (st : Sessions) (o : N) : bool :=
  match st.(heap) !! o with Some e => truthy e.(sessionId) | None => false end.

(** Stores that differ in how often entries were refreshed and in their terminals. *)
Definition same_entries (st st' : Sessions) : Prop :=
  st'.(entries) = st.(entries) /\
  forall o, (fun e => (e.(key), e.(endpoint), e.(args), e.(sessionId))) <$> st'.(heap) !! o =
            (fun e => (e.(key), e.(endpoint), e.(args), e.(sessionId))) <$> st.(heap) !! o.

Lemma same_entries_trans s1 s2 s3 : same_entries s1 s2 -> same_entries s2 s3 -> same_entries s1 s3.
Proof. intros [E1 E2] [F1 F2]. split; [congruence|]. intros o. by rewrite F2, E2. Qed.

Lemma flushed_same st st' : flushed st st' -> same_entries st st'.
Proof. intros [_ E1 E2 _]. split; [done|]. by rewrite E2. Qed.

Lemma attached_same st st' o a : same_entries st st' -> attached st' o a -> attached st o a.
Proof.
  intros [_ E] (e' & He & H1 & H2 & H3). specialize (E o). rewrite He in E. destruct (heap st !! o) as [e|] eqn:Ho; [|done].
  cbn in E. injection E as _ E1 E2 E3. exists e. split; [done|]. by rewrite H1, H2, H3, E1, E2, E3.
Qed.

Lemma with_session_same st st' o : same_entries st st' -> with_session st' o = with_session st o.
Proof.
  intros [_ E]. specialize (E o). unfold with_session. destruct (heap st' !! o), (heap st !! o); try done. cbn in E. by injection E as _ _ _ ->.
Qed.

Lemma filter_session_same st st' l : same_entries st st' -> List.filter (with_session st') l = List.filter (with_session st) l.
Proof. intros H. induction l as [|o l IH]; [done|]. cbn. by rewrite (with_session_same st st' o H), IH. Qed.

Lemma same_refresh o st : same_entries st (with_heap (alter bump_refresh o st.(heap)) st).
Proof.
  split; [done|]. intros p. cbn. destruct (decide (o = p)) as [->|Hn]; [|by rewrite lookup_alter_ne].
  rewrite lookup_alter_eq. by destruct (heap st !! p).
Qed.

(** A reconnect that waits. *)
Definition waiting (aw : Await) (o : N) (e : Entry) : Call :=
  {| c_entry := o; c_key := e.(key); c_reconnect := true; c_initCmd := []; c_error := []; c_await := aw |}.

Lemma tick_to i x a p o e aw aw' out :
  x.(loops) !! i = Some {| l_array := a; l_pos := p; l_call := Some (waiting aw o e) |} ->
  resume (waiting aw o e) x.(store) = (waiting aw' o e, out) ->
  let st := x.(store) in
  tick i x = {| store := Build_Sessions st.(heap) st.(next) st.(entries) st.(instances) st.(slots) st.(calls) (st.(accepted) ++ out);
    searches := x.(searches);
    loops := <[i := match aw with
                    | Waiting _ => {| l_array := a; l_pos := p; l_call := Some (waiting aw' o e) |}
                    | Resolved _ => {| l_array := a; l_pos := S p; l_call := None |} end]> x.(loops);
    fresh_loop := x.(fresh_loop); reconnected := x.(reconnected); host := x.(host) |}.
Proof. intros Hl Hr. unfold tick. by rewrite Hl, Hr. Qed.

(** A turn of a reconnect that waits for a nextTick: the host is rendered, and the entry has a
    terminal. *)
Lemma turn_waiting i x p o e e' n : restoring_ok x ->
  x.(loops) !! i = Some {| l_array := None; l_pos := p; l_call := Some (waiting (Waiting n) o e) |} ->
  o ∈ x.(store).(entries) -> x.(store).(heap) !! o = Some e' -> e'.(key) = e.(key) ->
  let x' := turn i x in exists inst,
    x'.(loops) !! i = Some {| l_array := None; l_pos := p;
      l_call := Some (waiting (match n with S (S (S (S (S (S _))))) => Waiting 5 | _ => Resolved (Some inst) end) o e) |} /\
    x'.(store).(accepted) = x.(store).(accepted) /\ same_entries x.(store) x'.(store) /\ x'.(store).(heap) = x.(store).(heap).
Proof.
  intros Hx Hl Ho He Hk. cbv zeta. destruct (flush_spec x (ro_store x Hx)) as (Hf & Hi & _ & El & _).
  destruct (Hi e') as [inst Hinst]; [apply list_elem_of_omap; by exists o|]. rewrite Hk in Hinst. exists inst.
  unfold turn. rewrite Hl. cbn [waiting c_await]. rewrite <- El in Hl.
  rewrite (tick_to i (flush x) None p o e (Waiting n) (match n with S (S (S (S (S (S _))))) => Waiting 5 | _ => Resolved (Some inst) end) []);
    [|exact Hl|unfold resume; cbn [waiting c_await c_key]; rewrite Hinst; by destruct n as [|[|[|[|[|[|n]]]]]]].
  cbn [loops store accepted heap]. rewrite lookup_insert_eq, app_nil_r. split; [done|].
  destruct (flushed_same _ _ Hf) as [S1 S2]. destruct Hf as [F1 F2 F3 F4]. split; [done|]. split; [split; [exact S1|exact S2]|exact F3].
Qed.

(** Three turns attach an entry: the two awaits, and the end of the call. *)
Lemma attach_turns i x p o e e' : restoring_ok x ->
  x.(loops) !! i = Some {| l_array := None; l_pos := p; l_call := Some (waiting (Waiting 6) o e) |} ->
  o ∈ x.(store).(entries) -> x.(store).(heap) !! o = Some e' -> e'.(key) = e.(key) ->
  let x' := turn i (turn i (turn i x)) in
  x'.(loops) !! i = Some {| l_array := None; l_pos := S p; l_call := None |} /\
  (exists a, x'.(store).(accepted) = x.(store).(accepted) ++ [a] /\ attached x.(store) o a) /\ same_entries x.(store) x'.(store).
Proof.
  intros Hx Hl Ho He Hk. cbv zeta. destruct (turn_waiting i x p o e e' 6 Hx Hl Ho He Hk) as (i1 & L1 & A1 & S1 & H1).
  pose proof (turn_ok i x Hx) as Hx1. set (x1 := turn i x) in *.
  destruct (turn_waiting i x1 p o e e' 5 Hx1 L1) as (i2 & L2 & A2 & S2 & H2); [by rewrite (proj1 S1)|by rewrite H1|done|].
  set (x2 := turn i x1) in *. assert (E3 : turn i x2 = tick i x2) by (unfold turn; by rewrite L2). rewrite E3.
  rewrite (tick_to i x2 None p o e (Resolved (Some i2)) (Resolved (Some i2)) [ {| a_inst := i2; a_endpoint := e'.(endpoint); a_args := e'.(args);
    a_initCmd := []; a_error := []; a_sessionId := Some e'.(sessionId) |} ]); [|exact L2|unfold resume; cbn; by rewrite H2, H1, He].
  cbn [loops store accepted]. rewrite lookup_insert_eq, A2, A1. split; [done|]. split.
  - eexists. split; [done|]. by exists e'.
  - eapply same_entries_trans; [exact S1|]. exact S2.
Qed.

(** A loop that goes on from an entry: past it when it has no session, into its reconnect
    otherwise. *)
Lemma next_none i s p : s.(loops) !! i = Some {| l_array := None; l_pos := p; l_call := None |} ->
  s.(store).(entries) !! p = None -> next_entry i s = with_loops (delete i s.(loops)) s.
Proof. intros Hl Ho. unfold next_entry. rewrite Hl. change (default (entries (store s)) None) with (entries (store s)). by rewrite Ho. Qed.

Lemma next_past i s p o : s.(loops) !! i = Some {| l_array := None; l_pos := p; l_call := None |} ->
  s.(store).(entries) !! p = Some o -> with_session s.(store) o = false ->
  next_entry i s = with_loops (<[i := {| l_array := None; l_pos := S p; l_call := None |}]> s.(loops)) s.
Proof.
  intros Hl Ho Hw. unfold next_entry. rewrite Hl. change (default (entries (store s)) None) with (entries (store s)). rewrite Ho.
  unfold with_session in Hw. destruct (heap (store s) !! o); [by rewrite Hw|done].
Qed.

Lemma next_reconnect i s p o e : restoring_ok s -> s.(loops) !! i = Some {| l_array := None; l_pos := p; l_call := None |} ->
  s.(store).(entries) !! p = Some o -> s.(store).(heap) !! o = Some e -> truthy e.(sessionId) = true ->
  next_entry i s = {| store := with_heap (alter bump_refresh o s.(store).(heap)) s.(store); searches := s.(searches);
    loops := <[i := {| l_array := None; l_pos := p; l_call := Some (waiting (Waiting 6) o e) |}]> s.(loops);
    fresh_loop := s.(fresh_loop); reconnected := s.(reconnected) ++ [(i, o)]; host := s.(host) |}.
Proof.
  intros Hs Hl Ho He Ht. unfold next_entry. rewrite Hl. change (default (entries (store s)) None) with (entries (store s)). rewrite Ho, He, Ht.
  by rewrite (find_listed _ o e) by (by apply Hs || done || by eapply list_elem_of_lookup_2).
Qed.

Lemma advance_S n i s a p : s.(loops) !! i = Some {| l_array := a; l_pos := p; l_call := None |} -> advance (S n) i s = advance n i (next_entry i s).
Proof. intros Hl. cbn [advance]. by rewrite Hl. Qed.

Lemma advance_call n i s a p c : s.(loops) !! i = Some {| l_array := a; l_pos := p; l_call := Some c |} -> advance n i s = s.
Proof. intros Hl. destruct n; [done|]. cbn [advance]. by rewrite Hl. Qed.

(** More fuel than entries makes no difference. *)
Lemma advance_more i : forall n s a p, s.(loops) !! i = Some {| l_array := a; l_pos := p; l_call := None |} ->
  length (default s.(store).(entries) a) - p < n -> advance (S n) i s = advance n i s.
Proof.
  induction n as [|n IH]; intros s a p Hl Hn; [lia|]. rewrite (advance_S (S n) i s a p Hl), (advance_S n i s a p Hl).
  destruct (loops (next_entry i s) !! i) as [[a1 p1 [c1|]]|] eqn:E1.
  - by rewrite !(advance_call _ i _ a1 p1 c1 E1).
  - destruct (loop_progress i s _ _ Hl eq_refl E1) as [Hp Ha]. unfold progress in Hp. cbn in Hp.
    apply (IH _ a1 p1 E1). unfold array in Ha. cbn [l_array] in Ha. rewrite Ha.
    destruct (decide (p < length (default (entries (store s)) a))); [lia|]. exfalso.
    destruct (next_entry_spec i s a p Hl) as [[_ [[E _]|E]]|(o & e & _ & E)]; rewrite E in E1; [by rewrite lookup_delete_eq in E1| |].
    + unfold next_entry in E. rewrite Hl in E. rewrite lookup_ge_None_2 in E by lia. cbn in E.
      assert (E' : delete i (loops s) !! i = Some {| l_array := a; l_pos := S p; l_call := None |}) by (rewrite E; apply lookup_insert_eq).
      by rewrite lookup_delete_eq in E'.
    + by rewrite lookup_insert_eq in E1.
  - by rewrite !advance_gone.
Qed.

Lemma advance_entries n i : forall s, entries (store (advance n i s)) = entries (store s).
Proof.
  induction n as [|n IH]; intros s; [done|]. cbn [advance]. destruct (loops s !! i) as [[a p [c|]]|] eqn:E; try done. rewrite IH.
  destruct (next_entry_spec i s a p E) as [[-> _]|(o & e & -> & _)]; done.
Qed.

Lemma go_on_entries i s : entries (store (go_on i s)) = entries (store s).
Proof. unfold go_on. destruct (loops s !! i); [apply advance_entries|done]. Qed.

Lemma go_on_next i s a p : s.(loops) !! i = Some {| l_array := a; l_pos := p; l_call := None |} ->
  go_on i s = match loops (next_entry i s) !! i with Some {| l_call := None |} => go_on i (next_entry i s) | _ => next_entry i s end.
Proof.
  intros Hl. unfold go_on at 1. rewrite Hl, (advance_S _ i s a p Hl). destruct (loops (next_entry i s) !! i) as [[a1 p1 [c1|]]|] eqn:E1.
  - by rewrite (advance_call _ i _ a1 p1 c1 E1).
  - unfold go_on. rewrite E1. destruct (loop_progress i s _ _ Hl eq_refl E1) as [Hp Ha]. rewrite Ha. unfold progress in Hp. cbn in Hp. symmetry.
    apply (advance_more i _ _ a1 p1 E1). unfold array in Ha. cbn [l_array] in Ha. unfold array. cbn [l_array]. rewrite Ha.
    destruct (decide (0 < length (default (entries (store s)) a))); [lia|]. exfalso.
    unfold next_entry in E1. rewrite Hl, lookup_ge_None_2 in E1 by lia. cbn in E1. by rewrite lookup_delete_eq in E1.
  - by rewrite advance_gone.
Qed.

(** The loop to its end, alone: it attaches the entries with a session, in order. *)
Lemma turns_attach i todo : forall s p, restoring_ok s ->
  s.(loops) !! i = Some {| l_array := None; l_pos := p; l_call := None |} -> drop p s.(store).(entries) = todo ->
  exists n, n <= 4 * length todo /\ let s' := run (repeat (Turn i) n) (go_on i s) in
    (s'.(loops) !! i = None) /\ same_entries s.(store) s'.(store) /\
    exists out, s'.(store).(accepted) = s.(store).(accepted) ++ out /\ Forall2 (attached s.(store)) (List.filter (with_session s.(store)) todo) out.
Proof.
  induction todo as [|o todo IH]; intros s p Hs Hl Hd.
  - assert (Hn : entries (store s) !! p = None) by (rewrite <- (Nat.add_0_r p), <- lookup_drop, Hd; done).
    exists 0. split; [lia|]. cbn [repeat run fold_left]. cbv zeta. rewrite (go_on_next i s _ _ Hl), (next_none i s p Hl Hn).
    cbn [with_loops loops]. rewrite ?lookup_delete_eq. split; [cbn; by rewrite ?lookup_delete_eq|]. split; [done|]. exists []. by rewrite app_nil_r.
  - assert (Ho : entries (store s) !! p = Some o) by (rewrite <- (Nat.add_0_r p), <- lookup_drop, Hd; done).
    assert (Hd' : drop (S p) s.(store).(entries) = todo) by (by rewrite <- Nat.add_1_r, <- drop_drop, Hd).
    assert (Hin : o ∈ s.(store).(entries)) by (by eapply list_elem_of_lookup_2).
    rewrite (go_on_next i s _ _ Hl). destruct (with_session (store s) o) eqn:Hw.
    + unfold with_session in Hw. destruct (heap (store s) !! o) as [e|] eqn:He; [|done].
      pose proof (next_entry_ok i s Hs) as Hs1. rewrite (next_reconnect i s p o e Hs Hl Ho He Hw) in Hs1 |- *.
      set (x := {| store := _ |}) in *. cbn [loops x]. rewrite lookup_insert_eq.
      destruct (attach_turns i x p o e (bump_refresh e) Hs1) as (L & (a & Ea & Ha) & Hsame);
        [apply lookup_insert_eq|done|cbn; by rewrite lookup_alter_eq, He|done|].
      pose proof (turn_ok i _ (turn_ok i _ (turn_ok i x Hs1))) as Hs2. set (s2 := turn i (turn i (turn i x))) in *.
      assert (Hsx : same_entries s.(store) x.(store)) by apply same_refresh.
      assert (Hs2s : same_entries s.(store) s2.(store)) by (by eapply same_entries_trans).
      destruct (IH s2 (S p) Hs2 L) as (m & Hm & G1 & G2 & out & G3 & G4); [by rewrite (proj1 Hs2s)|].
      exists (4 + m). split; [cbn [length]; lia|]. cbv zeta.
      assert (E4 : run (repeat (Turn i) (4 + m)) x = run (repeat (Turn i) m) (go_on i s2)).
      { change (run (repeat (Turn i) (4 + m)) x) with (run (repeat (Turn i) m) (turn i s2)). f_equal. unfold turn. by rewrite L. }
      rewrite E4. split; [done|]. split; [by eapply same_entries_trans|]. exists (a :: out).
      split; [by rewrite G3, Ea, <- app_assoc|]. cbn [List.filter]. unfold with_session at 1. rewrite He, Hw. constructor; [by apply (attached_same _ _ _ _ Hsx)|].
      rewrite (filter_session_same _ _ todo Hs2s) in G4. eapply Forall2_impl; [|exact G4]. intros o' a'. by apply attached_same.
    + pose proof (next_entry_ok i s Hs) as Hs1. rewrite (next_past i s p o Hl Ho Hw) in Hs1 |- *. set (x := with_loops _ s) in *.
      cbn [loops x with_loops]. rewrite lookup_insert_eq.
      destruct (IH x (S p) Hs1) as (m & Hm & G1 & G2 & out & G3 & G4); [apply lookup_insert_eq|exact Hd'|].
      exists m. split; [cbn [length]; lia|]. split; [done|]. split; [done|]. exists out. split; [done|]. cbn [List.filter]. by rewrite Hw.
Qed.

Lemma merge_all_merge node cur lh rs : forall st, (merge_all node cur lh rs st).2 = true ->
  restore_merge node cur lh rs st = Some (merge_all node cur lh rs st).1.
Proof.
  induction rs as [|[[i r] uuid] rs IH]; intros st H; [done|]. cbn [merge_all restore_merge] in *.
  destruct (restore_one node cur lh i r uuid st) as [st'|]; [|done]. cbn [mbind option_bind]. by apply IH.
Qed.

Lemma listed_session st id : id ∈ ids st -> exists o e, o ∈ st.(entries) /\ st.(heap) !! o = Some e /\ e.(sessionId) = id.
Proof.
  unfold ids, live. intros (e & -> & He)%list_elem_of_fmap. apply list_elem_of_omap in He as (o & Ho & He). by exists o, e.
Qed.

(** C19. Sessions the server holds are taken up again.  When the listings are there they are merged
    and the loop begins, in one go; left alone, as it is while no timer, request or user comes
    between its microtasks, it ends, the host mounting a new terminal for every entry it
    refreshes; and every session listed that is not passed over, because it is attached
    elsewhere, of another kind or of another node, has been attached under its id. *)
Theorem restore_reattaches s i node cur lh r0 r1 uuid (Hs : restoring_reachable s) (Hi : s.(searches) !! i = Some node)
  (Hg : good_event s (Listed i cur lh r0 r1 uuid))
  (Hm : (merge_all node cur lh (imap (fun k x => (x, uuid k)) (listings node r0 r1)) s.(store)).2 = true) :
  exists n, n <= 4 * length (rstep (Listed i cur lh r0 r1 uuid) s).(store).(entries) /\
    let s' := run (Listed i cur lh r0 r1 uuid :: repeat (Turn i) n) s in
    (s'.(loops) !! i = None) /\
    forall k r, (k, r) ∈ listings node r0 r1 -> passed_over node k r = false -> r.(s_id) <> [] ->
      exists a, a ∈ s'.(store).(accepted) /\ a.(a_sessionId) = Some r.(s_id).
Proof.
  apply reachable_restoring_ok in Hs. pose proof (merge_all_merge _ _ _ _ _ Hm) as Hmerge. pose proof Hg as Hg'. cbn [good_event] in Hg. rewrite Hi in Hg.
  destruct (restore_merge_covers _ _ _ _ _ _ (ro_store s Hs) Hg Hmerge) as [_ Hcov].
  pose proof (merged_ok i cur lh r0 r1 uuid s Hg' Hs) as Hs1.
  assert (E1 : loops (merged i cur lh r0 r1 uuid s) !! i = Some {| l_array := None; l_pos := 0; l_call := None |} /\
    store (merged i cur lh r0 r1 uuid s) = (merge_all node cur lh (imap (fun k x => (x, uuid k)) (listings node r0 r1)) s.(store)).1).
  { unfold merged. rewrite Hi. destruct (merge_all _ _ _ _ _) as [st ended]. cbn in Hm |- *. rewrite Hm. by rewrite lookup_insert_eq. }
  assert (El : rstep (Listed i cur lh r0 r1 uuid) s = go_on i (merged i cur lh r0 r1 uuid s)) by (cbn; unfold listed; by rewrite Hi).
  destruct E1 as [E1 E2]. set (s1 := merged i cur lh r0 r1 uuid s) in *.
  destruct (turns_attach i s1.(store).(entries) s1 0 Hs1 E1 eq_refl) as (n & Hn & G1 & Hsame & out & G3 & G4).
  exists n. change (run (Listed i cur lh r0 r1 uuid :: repeat (Turn i) n) s) with (run (repeat (Turn i) n) (rstep (Listed i cur lh r0 r1 uuid) s)).
  rewrite El. split; [|split; [done|]].
  { assert (Hlen : length (entries (store (go_on i s1))) = length (entries (store s1))); [|lia]. by rewrite go_on_entries. }
  intros k r Hr Hp Hid. assert (Hin : r.(s_id) ∈ ids s1.(store)).
  { apply list_elem_of_lookup in Hr as [j Hj]. assert (Hx : (k, r, uuid j) ∈ imap (fun k x => (x, uuid k)) (listings node r0 r1)).
    { apply list_elem_of_lookup. exists j. by rewrite list_lookup_imap, Hj. }
    rewrite list.Forall_forall in Hcov. apply Hcov in Hx. cbn in Hx. rewrite Hp, <- E2 in Hx. by apply memb_elem in Hx. }
  apply listed_session in Hin as (o & e & Ho & He & Hse).
  assert (Ht : with_session s1.(store) o = true) by (unfold with_session; rewrite He, Hse; by destruct (s_id r)).
  assert (Hf : o ∈ List.filter (with_session s1.(store)) s1.(store).(entries)) by (by apply elem_filter).
  apply list_elem_of_lookup in Hf as [j Hj]. destruct (Forall2_lookup_l _ _ _ _ _ G4 Hj) as (a & Ha & e' & He' & _ & _ & Hid').
  exists a. rewrite G3. split; [apply elem_of_app; right; by eapply list_elem_of_lookup_2|]. rewrite Hid'. congruence.
Qed.

(** ** Examples *)

Definition sample_session (id : string) (host : Z) (attached : bool) : ServerSession :=
  {| s_kind := if (host =? 0)%Z then js "local" else js "ssh"; s_attached := attached; s_id := js id; s_hostId := host; s_title := js "web" |}.
Definition sample_uuid (k : nat) : jsstr := js "u" ++ dec (N.of_nat k).
Definition sample_listed : Event :=
  Listed 0 (js "local") (js "localhost") (Some [sample_session "a" 3 false; sample_session "b" 0 false; sample_session "c" 4 true]) None sample_uuid.
Definition sample_waiting : Restoring := restore (js "local") initial_restoring.
Definition sample_restored : Restoring := rstep sample_listed sample_waiting.

Lemma sample_waiting_reachable : restoring_reachable sample_waiting.
Proof. apply star_one. by apply (good_rstep (Restore (js "local"))). Qed.

Lemma sample_listed_good : good_event sample_waiting sample_listed.
Proof. cbn. by repeat (split; [apply fresh_initial|split; [apply memb_not_elem; vm_compute; reflexivity|]]). Qed.

Lemma sample_restored_reachable : restoring_reachable sample_restored.
Proof.
  apply (star_trans _ _ sample_waiting); [apply sample_waiting_reachable|]. apply star_one.
  apply (good_rstep sample_listed), sample_listed_good.
Qed.

Lemma restore_reattaches_witness :
  exists n, n <= 8 /\ let s' := run (sample_listed :: repeat (Turn 0) n) sample_waiting in
    (loops s' !! 0 = None) /\ (exists a, a ∈ s'.(store).(accepted) /\ a.(a_sessionId) = Some (js "a")) /\
    exists a, a ∈ s'.(store).(accepted) /\ a.(a_sessionId) = Some (js "b").
Proof.
  destruct (restore_reattaches sample_waiting 0 (js "local") (js "local") (js "localhost")
    (Some [sample_session "a" 3 false; sample_session "b" 0 false; sample_session "c" 4 true]) None sample_uuid) as (n & Hn & Hl & Ha).
  - apply sample_waiting_reachable.
  - reflexivity.
  - apply sample_listed_good.
  - vm_compute. reflexivity.
  - exists n. split; [exact Hn|]. split; [exact Hl|].
    split; [apply (Ha 0 (sample_session "a" 3 false))|apply (Ha 0 (sample_session "b" 0 false))]; try (vm_compute; done); set_solver.
Defined.

(** The terminals that are attached are those the host has mounted for the refreshed entries. *)
Example sample_attached :
  List.map (fun a => (a.(a_inst), a.(a_sessionId))) (run (sample_listed :: repeat (Turn 0) 8) sample_waiting).(store).(accepted) =
  [(0%N, Some (js "a")); (2%N, Some (js "b"))].
Proof. vm_compute. reflexivity. Qed.

Lemma restore_reconnects_once_witness : NoDup (reconnected sample_restored).
Proof. exact (proj1 (restore_reconnects_once sample_restored sample_restored_reachable)). Defined.

Definition sample_loop : Loop := default {| l_array := None; l_pos := 0; l_call := None |} (loops sample_restored !! 0).

Lemma restore_ends_witness : loops (run (repeat (Turn 0) 19) sample_restored) !! 0 = None.
Proof.
  destruct (restore_ends [CloseAll; Turn 0] 0 sample_loop sample_restored) as [_ H].
  - apply sample_restored_reachable.
  - vm_compute. reflexivity.
  - by repeat split.
  - exact H.
Defined.

(** A terminal is opened and connected while the listings are awaited: the restore reconnects
    it although it is online. *)
Lemma restore_reconnects_open_terminal :
  let s := run [Restore (js "local"); Open (js "local") (js "u") (js "t") 0 [] [] []; Resume 0; Resume 0;
                SetSessionId (js "u") (js "x"); Listed 0 (js "local") (js "localhost") (Some []) None sample_uuid]
             initial_restoring in
  s.(reconnected) = [(0, 0%N)] /\ List.map (fun e => (e.(status), e.(refresh))) (live s.(store)) = [(online, 1%Z)].
Proof. vm_compute. auto. Qed.

(** The user is logged out while the listings are awaited: what they list is opened anyway. *)
Lemma restore_survives_logout :
  let s := run [Restore (js "local"); CloseAll;
                Listed 0 (js "local") (js "localhost") (Some [sample_session "a" 3 false]) None sample_uuid] initial_restoring in
  List.map sessionId (live s.(store)) = [js "a"].
Proof. vm_compute. auto. Qed.
