(* ===== verification/Terminal.v ===== *)
(** * A terminal on a page

    src/frontend/src/components/terminal/index.vue: an xterm screen on a web socket that
    the server may detach from and that is connected again with a growing delay.  Sockets
    and timers are identities: the browser runs the handlers of the component whichever
    socket they were registered on.  What the component writes, sends, opens and emits is
    logged.  The screen itself (xterm) is third-party code: it hands the component its
    size, its input and the lines of its buffer. *)

From stdpp Require Import countable.
From S2P Require Import Utf8 Base64.
From S2P Require Import Prelude JsString Splitting Uri.

(** ** The output shown

    The echo of the command sent first and what comes before a prompt are held back. *)

Record Output := {
  hideInitCmdEcho : bool; initCmdEchoBuffer : jsstr; initCmd : jsstr;
  waitForPrompt : jsstr; waitForPromptBuffer : jsstr
}.

(** search(/\r?\n/) *)
Fixpoint search_break (s : jsstr) : option nat :=
  match s with
  | [] => None
  | c :: rest => if (c =? 10)%N || ((c =? 13)%N && startsWith rest [10%N]) then Some 0 else S <$> search_break rest
  end.

Definition stripInitCmdEchoLine (message : jsstr) (o : Output) : jsstr * Output :=
  if negb o.(hideInitCmdEcho) then (message, o)
  else
    let buffer := o.(initCmdEchoBuffer) ++ message in
    match search_break buffer with
    | None => ([], Build_Output true buffer o.(initCmd) o.(waitForPrompt) o.(waitForPromptBuffer))
    | Some lineBreakIndex =>
        let lineBreakLength := if decide (buffer !! lineBreakIndex = Some 13%N) then 2 else 1 in
        (drop (lineBreakIndex + lineBreakLength) buffer,
         Build_Output false [] [] o.(waitForPrompt) o.(waitForPromptBuffer))
    end.

Definition flushPromptBuffer (message : jsstr) (o : Output) : jsstr * Output :=
  if negb (truthy o.(waitForPrompt)) then (message, o)
  else
    let buffer := o.(waitForPromptBuffer) ++ message in
    match indexOf buffer o.(waitForPrompt) with
    | None => ([], Build_Output o.(hideInitCmdEcho) o.(initCmdEchoBuffer) o.(initCmd) o.(waitForPrompt) buffer)
    | Some promptIndex =>
        (drop promptIndex buffer, Build_Output o.(hideInitCmdEcho) o.(initCmdEchoBuffer) o.(initCmd) [] [])
    end.

(** What a message of the shell writes; nothing when it is empty. *)
Definition receive_cmd (receiveMsg : jsstr) (o : Output) : jsstr * Output :=
  let '(receiveMsg, o) := if o.(hideInitCmdEcho) then stripInitCmdEchoLine receiveMsg o else (receiveMsg, o) in
  if truthy receiveMsg && truthy o.(waitForPrompt) then flushPromptBuffer receiveMsg o else (receiveMsg, o).

(** ** The line of the cursor *)

Record TerminalBufferLine := { isWrapped : bool; translateToString : jsstr }.

(** The active buffer: the lines it has and the row of the cursor. *)
Record Buffer := { lines : list TerminalBufferLine; baseY : nat; cursorY : nat }.

Definition wrapped (buffer : Buffer) (row : nat) : bool :=
  match buffer.(lines) !! row with Some line => line.(isWrapped) | None => false end.

(** The loop up from [row]. *)
Fixpoint start_row (buffer : Buffer) (row : nat) : nat :=
  match row with
  | 0 => 0
  | S above => if wrapped buffer row then start_row buffer above else row
  end.

(** The loop down: [n] rows are left, [row] is the next one. *)
Fixpoint end_row (buffer : Buffer) (n row endRow : nat) : nat :=
  match n with
  | 0 => endRow
  | S n => if wrapped buffer row then end_row buffer n (S row) row else endRow
  end.

Definition getCurrentTerminalLine (buffer : option Buffer) : jsstr :=
  match buffer with
  | None => []
  | Some buffer =>
      let cursorRow := buffer.(baseY) + buffer.(cursorY) in
      let startRow := start_row buffer cursorRow in
      let endRow := end_row buffer (length buffer.(lines) - S cursorRow) (S cursorRow) cursorRow in
      trimEnd (mjoin (translateToString <$> take (S endRow - startRow) (drop startRow buffer.(lines))))
  end.

Definition isEnterInputData (data : jsstr) : bool :=
  (data === [13%N]) || (data === [10%N]) || (data === [13%N; 10%N]).

(** ** The component *)

Inductive ReadyState := CONNECTING | OPEN | CLOSING | CLOSED.

Inductive Timer := Heartbeat | Reconnect | HideNotice | ResizeFrame.
#[global] Instance Timer_eq_dec : EqDecision Timer.
Proof. solve_decision. Defined.
#[global] Instance Timer_countable : Countable Timer.
Proof.
  refine (inj_countable' (fun k => match k with Heartbeat => 0 | Reconnect => 1 | HideNotice => 2 | ResizeFrame => 3 end)
    (fun n => match n with 0 => Heartbeat | 1 => Reconnect | 2 => HideNotice | _ => ResizeFrame end) _).
  by intros [].
Defined.

Inductive Message :=
| CmdMessage (data line : jsstr)
| ResizeMessage (cols rows : N)
| HeartbeatMessage (timestamp : Z).

(** The messages of the server, by their type; a missing field is empty. *)
Inductive ServerMessage :=
| ServerCmd (data : jsstr)
| ServerHeartbeat (timestamp : Z)
| ServerSession (id : jsstr)
| ServerNotice (level message : jsstr)
| ServerOther.

Inductive Effect :=
| Write (text : jsstr)
| ResetScreen
| Send (s : N) (m : Message)
| NewSocket (s : N) (url : jsstr)
| ErrorShown (message : jsstr)
| EmitSession (id : jsstr)
| EmitExpired.

Record AiNotice := { visible : bool; loading : bool; level : jsstr; notice_message : jsstr; aiNoticeTimer : option N }.

(** The let variables of the reconnection. *)
Record Retry := {
  closing : bool; reconnecting : bool; reconnectNoticeShown : bool; revalidating : bool;
  reconnectStartedAt : Z; reconnectDelay : Z; reconnectTimer : option N
}.

(** initWebSocket suspended in checkStreamAuth. *)
Record Auth := { a_token : Z; a_conn : jsstr }.

(** The sockets and timers of the browser, the timers with the time at which they may fire.
    No two share an identity; a variable only ever holds a timer of its own kind. *)
Record Browser := { sockets : gmap N ReadyState; timers : gmap (Timer * N) Z; next_id : N }.

Record Link := {
  terminalSocket : option N; heartbeatTimer : option N; webSocketReady : bool;
  initWebSocketToken : Z; auths : list Auth;
  sessionId : jsstr; wsEndpoint : jsstr; wsArgs : jsstr
}.

Record Resize := { resizeFrame : option N; lastResizeColumns : N; lastResizeRows : N }.

Record Terminal := {
  output : Output; notice : AiNotice; retry : Retry; link : Link; resize : Resize;
  browser : Browser; termReady : bool; latency : Z; log : list Effect
}.

Definition initial_terminal : Terminal := {|
  output := Build_Output false [] [] [] []; notice := Build_AiNotice false false (js "info") [] None;
  retry := Build_Retry false false false false 0 1000 None;
  link := Build_Link None None false 0 [] [] [] []; resize := Build_Resize None 0 0;
  browser := Build_Browser ∅ ∅ 1; termReady := false; latency := 0; log := [] |}.

(** *** Assignments *)

Definition on_output (f : Output -> Output) (t : Terminal) : Terminal :=
  Build_Terminal (f t.(output)) t.(notice) t.(retry) t.(link) t.(resize) t.(browser) t.(termReady) t.(latency) t.(log).
Definition on_notice (f : AiNotice -> AiNotice) (t : Terminal) : Terminal :=
  Build_Terminal t.(output) (f t.(notice)) t.(retry) t.(link) t.(resize) t.(browser) t.(termReady) t.(latency) t.(log).
Definition on_retry (f : Retry -> Retry) (t : Terminal) : Terminal :=
  Build_Terminal t.(output) t.(notice) (f t.(retry)) t.(link) t.(resize) t.(browser) t.(termReady) t.(latency) t.(log).
Definition on_link (f : Link -> Link) (t : Terminal) : Terminal :=
  Build_Terminal t.(output) t.(notice) t.(retry) (f t.(link)) t.(resize) t.(browser) t.(termReady) t.(latency) t.(log).
Definition on_resize (f : Resize -> Resize) (t : Terminal) : Terminal :=
  Build_Terminal t.(output) t.(notice) t.(retry) t.(link) (f t.(resize)) t.(browser) t.(termReady) t.(latency) t.(log).
Definition on_browser (f : Browser -> Browser) (t : Terminal) : Terminal :=
  Build_Terminal t.(output) t.(notice) t.(retry) t.(link) t.(resize) (f t.(browser)) t.(termReady) t.(latency) t.(log).
Definition set_ready (b : bool) (t : Terminal) : Terminal :=
  Build_Terminal t.(output) t.(notice) t.(retry) t.(link) t.(resize) t.(browser) b t.(latency) t.(log).
Definition set_latency (l : Z) (t : Terminal) : Terminal :=
  Build_Terminal t.(output) t.(notice) t.(retry) t.(link) t.(resize) t.(browser) t.(termReady) l t.(log).
Definition does (e : Effect) (t : Terminal) : Terminal :=
  Build_Terminal t.(output) t.(notice) t.(retry) t.(link) t.(resize) t.(browser) t.(termReady) t.(latency) (t.(log) ++ [e]).

Definition set_closing (b : bool) : Terminal -> Terminal := on_retry (fun r =>
  Build_Retry b r.(reconnecting) r.(reconnectNoticeShown) r.(revalidating) r.(reconnectStartedAt) r.(reconnectDelay) r.(reconnectTimer)).
Definition set_reconnecting (b : bool) : Terminal -> Terminal := on_retry (fun r =>
  Build_Retry r.(closing) b r.(reconnectNoticeShown) r.(revalidating) r.(reconnectStartedAt) r.(reconnectDelay) r.(reconnectTimer)).
Definition set_notice_shown (b : bool) : Terminal -> Terminal := on_retry (fun r =>
  Build_Retry r.(closing) r.(reconnecting) b r.(revalidating) r.(reconnectStartedAt) r.(reconnectDelay) r.(reconnectTimer)).
Definition set_revalidating (b : bool) : Terminal -> Terminal := on_retry (fun r =>
  Build_Retry r.(closing) r.(reconnecting) r.(reconnectNoticeShown) b r.(reconnectStartedAt) r.(reconnectDelay) r.(reconnectTimer)).
Definition set_startedAt (z : Z) : Terminal -> Terminal := on_retry (fun r =>
  Build_Retry r.(closing) r.(reconnecting) r.(reconnectNoticeShown) r.(revalidating) z r.(reconnectDelay) r.(reconnectTimer)).
Definition set_delay (z : Z) : Terminal -> Terminal := on_retry (fun r =>
  Build_Retry r.(closing) r.(reconnecting) r.(reconnectNoticeShown) r.(revalidating) r.(reconnectStartedAt) z r.(reconnectTimer)).
Definition set_retry_timer (i : option N) : Terminal -> Terminal := on_retry (fun r =>
  Build_Retry r.(closing) r.(reconnecting) r.(reconnectNoticeShown) r.(revalidating) r.(reconnectStartedAt) r.(reconnectDelay) i).

Definition set_socket (s : option N) : Terminal -> Terminal := on_link (fun l =>
  Build_Link s l.(heartbeatTimer) l.(webSocketReady) l.(initWebSocketToken) l.(auths) l.(sessionId) l.(wsEndpoint) l.(wsArgs)).
Definition set_heartbeat (i : option N) : Terminal -> Terminal := on_link (fun l =>
  Build_Link l.(terminalSocket) i l.(webSocketReady) l.(initWebSocketToken) l.(auths) l.(sessionId) l.(wsEndpoint) l.(wsArgs)).
Definition set_wsReady (b : bool) : Terminal -> Terminal := on_link (fun l =>
  Build_Link l.(terminalSocket) l.(heartbeatTimer) b l.(initWebSocketToken) l.(auths) l.(sessionId) l.(wsEndpoint) l.(wsArgs)).
Definition bump_token : Terminal -> Terminal := on_link (fun l =>
  Build_Link l.(terminalSocket) l.(heartbeatTimer) l.(webSocketReady) (l.(initWebSocketToken) + 1) l.(auths) l.(sessionId) l.(wsEndpoint) l.(wsArgs)).
Definition set_auths (a : list Auth) : Terminal -> Terminal := on_link (fun l =>
  Build_Link l.(terminalSocket) l.(heartbeatTimer) l.(webSocketReady) l.(initWebSocketToken) a l.(sessionId) l.(wsEndpoint) l.(wsArgs)).
Definition set_session (id : jsstr) : Terminal -> Terminal := on_link (fun l =>
  Build_Link l.(terminalSocket) l.(heartbeatTimer) l.(webSocketReady) l.(initWebSocketToken) l.(auths) id l.(wsEndpoint) l.(wsArgs)).
Definition set_target (endpoint args : jsstr) : Terminal -> Terminal := on_link (fun l =>
  Build_Link l.(terminalSocket) l.(heartbeatTimer) l.(webSocketReady) l.(initWebSocketToken) l.(auths) l.(sessionId) endpoint args).

(** *** The browser *)

(** setTimeout and its relatives: the timer gets the next identity. *)
Definition set_timer (k : Timer) (due : Z) : Terminal -> Terminal := on_browser (fun b =>
  Build_Browser b.(sockets) (<[(k, b.(next_id)) := due]> b.(timers)) (b.(next_id) + 1)).
Definition next (t : Terminal) : N := t.(browser).(next_id).
Definition clear_timer (k : Timer) (i : N) : Terminal -> Terminal := on_browser (fun b =>
  Build_Browser b.(sockets) (delete (k, i) b.(timers)) b.(next_id)).
Definition clear_some (k : Timer) (i : option N) (t : Terminal) : Terminal :=
  match i with Some i => clear_timer k i t | None => t end.

Definition set_state (s : N) (r : ReadyState) : Terminal -> Terminal := on_browser (fun b =>
  Build_Browser (<[s := r]> b.(sockets)) b.(timers) b.(next_id)).
Definition new_socket (url : jsstr) (t : Terminal) : Terminal :=
  does (NewSocket (next t) url) (on_browser (fun b =>
    Build_Browser (<[b.(next_id) := CONNECTING]> b.(sockets)) b.(timers) (b.(next_id) + 1)) t).
Definition state_of (t : Terminal) (s : N) : option ReadyState := t.(browser).(sockets) !! s.

(** WebSocket.close: a socket that is not closed begins to close. *)
Definition close_socket (s : option N) (t : Terminal) : Terminal :=
  match s with
  | Some s => match state_of t s with
              | Some CONNECTING | Some OPEN => set_state s CLOSING t
              | _ => t
              end
  | None => t
  end.

(** *** Operations *)

Section Component.
(** js-base64, the location of the page, and the current node. *)
Context (encodeBase64 decodeBase64 : jsstr -> jsstr) (href currentNode : jsstr).

Definition esc (color text : jsstr) : jsstr := [27%N] ++ js "[" ++ color ++ js "m" ++ text ++ [27%N] ++ js "[m" ++ [13%N; 10%N].

Definition writeNotice (color message : jsstr) : Terminal -> Terminal :=
  does (Write ([13%N; 10%N] ++ esc color message)).

Definition isWsOpen (t : Terminal) : bool :=
  match t.(link).(terminalSocket) with
  | Some s => match state_of t s with Some OPEN => true | _ => false end
  | None => false
  end.

(** terminalSocket.value!.send, under isWsOpen *)
Definition send (m : Message) (t : Terminal) : Terminal :=
  if isWsOpen t then match t.(link).(terminalSocket) with Some s => does (Send s m) t | None => t end else t.

Definition sendMsg (data line : jsstr) : Terminal -> Terminal := send (CmdMessage (encodeBase64 data) line).

Definition changeTerminalSize (now : Z) (t : Terminal) : Terminal :=
  match t.(resize).(resizeFrame) with
  | Some _ => t
  | None => set_timer ResizeFrame now
              (on_resize (fun r => Build_Resize (Some (next t)) r.(lastResizeColumns) r.(lastResizeRows)) t)
  end.

(** [size] is the screen after the fit, [None] when its element is missing or hidden. *)
Definition resizeTerminal (size : option (N * N)) (t : Terminal) : Terminal :=
  match size with
  | None => t
  | Some (cols, rows) =>
      if isWsOpen t then
        if (cols =? t.(resize).(lastResizeColumns))%N && (rows =? t.(resize).(lastResizeRows))%N then t
        else send (ResizeMessage cols rows) (on_resize (fun r => Build_Resize r.(resizeFrame) cols rows) t)
      else t
  end.

Definition clearAINotice (t : Terminal) : Terminal :=
  on_notice (fun n => Build_AiNotice false false n.(level) n.(notice_message) None)
    (clear_some HideNotice t.(notice).(aiNoticeTimer) t).

Definition showAINotice (now : Z) (l message : jsstr) (t : Terminal) : Terminal :=
  let t := clear_some HideNotice t.(notice).(aiNoticeTimer) t in
  let resolvedLevel := if memb l [js "success"; js "error"; js "info"] then l else js "info" in
  let info := resolvedLevel === js "info" in
  let t' := on_notice (fun _ => Build_AiNotice true info resolvedLevel message (if info then None else Some (next t))) t in
  if info then t' else set_timer HideNotice (now + 2600) t'.

Definition stopReconnect (t : Terminal) : Terminal :=
  set_retry_timer None (clear_some Reconnect t.(retry).(reconnectTimer) (set_revalidating false (set_reconnecting false t))).

Definition onClose (t : Terminal) : Terminal :=
  let t := stopReconnect (set_closing true (bump_token t)) in
  let t := on_resize (fun _ => Build_Resize None 0 0) (clear_some ResizeFrame t.(resize).(resizeFrame) t) in
  let t := set_wsReady false (clearAINotice t) in
  let t := close_socket t.(link).(terminalSocket) t in
  let t := set_heartbeat None (clear_some Heartbeat t.(link).(heartbeatTimer) t) in
  set_socket None t.

(** The target of a connection *)
Definition protocol : jsstr := if (default [] (split_on (js "//") href !! 0) === js "http:") then js "ws" else js "wss".
Definition host : jsstr := default [] (split 47 (default [] (split_on (js "//") href !! 1)) !! 0).
Fixpoint drop_slashes (s : jsstr) : jsstr :=
  match s with c :: rest => if (c =? 47)%N then drop_slashes rest else s | [] => [] end.

Definition conn_base (cols rows : N) (endpoint_ args : jsstr) : jsstr :=
  let endpoint := drop_slashes endpoint_ in
  let node := if includes args (js "id=") then js "local" else currentNode in
  let address := protocol ++ js "://" ++ host ++ js "/" ++ endpoint ++ js "?cols=" ++ dec cols ++ js "&rows=" ++ dec rows
                 ++ js "&" ++ args in
  if includes args (js "operateNode=") then address else address ++ js "&operateNode=" ++ node.

(** [None]: the session cannot be encoded, which rejects the call. *)
Definition conn_url (cols rows : N) (endpoint_ args session : jsstr) (revalidating : bool) : option jsstr :=
  let conn := conn_base cols rows endpoint_ args in
  conn ← (if truthy session then enc ← encodeURIComponent session; Some (conn ++ js "&session=" ++ enc) else Some conn);
  Some (if revalidating then conn ++ js "&terminalRevalidate=1" else conn).

(** initWebSocket up to its await, *)
Definition initWebSocket (cols rows : N) (endpoint_ args : jsstr) (t : Terminal) : Terminal :=
  let t := set_target endpoint_ args (set_closing false (bump_token t)) in
  match conn_url cols rows endpoint_ args t.(link).(sessionId) t.(retry).(revalidating) with
  | None => t
  | Some conn =>
      set_auths (t.(link).(auths) ++ [{| a_token := t.(link).(initWebSocketToken); a_conn := conn |}]) t
  end.

Definition showWebSocketAuthError (message : jsstr) (t : Terminal) : Terminal :=
  does (Write (esc (js "31") message)) (does (ErrorShown message) (clearAINotice t)).

(** and once checkStreamAuth has answered the call at position [n]. *)
Definition resume_auth (now : Z) (n : nat) (authError : jsstr) (t : Terminal) : Terminal :=
  match t.(link).(auths) !! n with
  | None => t
  | Some a =>
      let t := set_auths (take n t.(link).(auths) ++ drop (S n) t.(link).(auths)) t in
      if negb (a.(a_token) =? t.(link).(initWebSocketToken))%Z || negb t.(termReady) then t
      else if truthy authError then
        does EmitExpired (showWebSocketAuthError authError
          (set_session [] (set_revalidating false (set_reconnecting false t))))
      else
        let t := clear_some Heartbeat t.(link).(heartbeatTimer) t in
        let t := set_socket (Some (next t)) (new_socket a.(a_conn) t) in
        set_timer Heartbeat (now + 10000) (set_heartbeat (Some (next t)) t)
  end.

Definition runRealTerminal (now : Z) (t : Terminal) : Terminal :=
  let t := changeTerminalSize now (set_wsReady true t) in
  if truthy t.(output).(initCmd) && negb (truthy t.(link).(sessionId)) then
    sendMsg t.(output).(initCmd) []
      (on_output (fun o => Build_Output true [] o.(initCmd) o.(waitForPrompt) o.(waitForPromptBuffer)) t)
  else t.

Definition onWSReceive (now : Z) (m : ServerMessage) (t : Terminal) : Terminal :=
  match m with
  | ServerCmd data =>
      if truthy data then
        let '(receiveMsg, o) := receive_cmd (decodeBase64 data) t.(output) in
        let t := on_output (fun _ => o) t in
        if truthy receiveMsg then does (Write receiveMsg) t else t
      else t
  | ServerHeartbeat timestamp => set_latency (now - timestamp) t
  | ServerSession id =>
      let wasReconnect := t.(retry).(reconnecting) in
      let wasRevalidate := t.(retry).(revalidating) in
      let t := set_session id (set_delay 1000 (set_revalidating false (set_reconnecting false t))) in
      does (EmitSession id) (if wasReconnect && negb wasRevalidate then does ResetScreen t else t)
  | ServerNotice l message =>
      let message := trim message in
      if truthy message then showAINotice now (if truthy l then l else js "info") message t else t
  | ServerOther => t
  end.

Definition errorRealTerminal (message : jsstr) (t : Terminal) : Terminal :=
  let t := clearAINotice t in
  if t.(retry).(reconnecting) then t
  else does (Write (esc (js "31") (if truthy message then message else js "disconnected"))) t.

Definition reconnectWindow : Z := 30 * 60 * 1000.

Definition scheduleReconnect (now : Z) (forRevalidation : bool) (t : Terminal) : Terminal :=
  let go (t : Terminal) :=
    let t := if negb forRevalidation && negb t.(retry).(reconnectNoticeShown)
             then set_notice_shown true (writeNotice (js "33") (js "terminal.sessionReconnecting") t) else t in
    let t := set_timer Reconnect (now + if forRevalidation then 0 else t.(retry).(reconnectDelay))
               (set_retry_timer (Some (next t)) t) in
    if forRevalidation then t else set_delay (Z.min (t.(retry).(reconnectDelay) * 2) 8000) t in
  if negb t.(retry).(reconnecting) then
    go (set_notice_shown false (set_delay 1000 (set_startedAt now (set_reconnecting true t))))
  else if (now - t.(retry).(reconnectStartedAt) >? reconnectWindow)%Z then
    does EmitExpired (writeNotice (js "31") (js "terminal.sessionExpired") (set_session [] (set_reconnecting false t)))
  else go t.

Definition CLOSE_SESSION_NOT_FOUND : N := 4404.
Definition CLOSE_ATTACHED_ELSEWHERE : N := 4409.
Definition CLOSE_REVALIDATE : N := 4410.

Definition closeRealTerminal (now : Z) (code : N) (reason : jsstr) (t : Terminal) : Terminal :=
  let t := set_wsReady false (clearAINotice t) in
  let t := set_heartbeat None (clear_some Heartbeat t.(link).(heartbeatTimer) t) in
  let t := set_socket None t in
  if t.(retry).(closing) || negb (truthy t.(link).(sessionId)) then
    does (Write reason) (does (Write (js "The connection has been disconnected.")) t)
  else if (code =? 1000)%N || (code =? CLOSE_SESSION_NOT_FOUND)%N then
    does EmitExpired (writeNotice (js "31")
      (if (code =? 1000)%N then js "The connection has been disconnected." else js "terminal.sessionExpired")
      (set_reconnecting false (set_session [] t)))
  else if (code =? CLOSE_ATTACHED_ELSEWHERE)%N then
    writeNotice (js "31") (js "terminal.sessionKicked") (set_reconnecting false t)
  else if (code =? CLOSE_REVALIDATE)%N then scheduleReconnect now true (set_revalidating true t)
  else scheduleReconnect now false t.

Definition onTermData (data : jsstr) (buffer : option Buffer) (t : Terminal) : Terminal :=
  if negb (truthy data) then t
  else if t.(notice).(loading) then t
  else sendMsg data (if isEnterInputData data then getCurrentTerminalLine buffer else []) t.

(** newTerm and initTerminal; [element] says that the page has the terminal's element. *)
Definition initTerminal (element : bool) (t : Terminal) : Terminal :=
  let t := on_resize (fun r => Build_Resize r.(resizeFrame) 0 0) t in
  if element then set_ready true t else t.

Record WsProps := {
  endpoint : jsstr; args : jsstr; error : jsstr; p_initCmd : jsstr; p_waitForPrompt : jsstr; p_sessionId : jsstr
}.

(** acceptParams, at its nextTick *)
Definition acceptParams (props : WsProps) (element : bool) (cols rows : N) (t : Terminal) : Terminal :=
  if truthy props.(error) then
    let t := initTerminal element t in
    if t.(termReady) then does (Write props.(error)) t else t
  else
    let t := on_output (fun o => Build_Output o.(hideInitCmdEcho) o.(initCmdEchoBuffer) props.(p_initCmd)
                                   props.(p_waitForPrompt) []) t in
    let t := initTerminal element (set_session props.(p_sessionId) t) in
    if t.(termReady) then initWebSocket cols rows props.(endpoint) props.(args) t else t.

(** *** Events *)

Inductive Event :=
| Accept (props : WsProps) (element : bool) (cols rows : N)
| OnClose
| AuthAnswer (n : nat) (authError : jsstr)
| SocketOpen (s : N)
| SocketMessage (s : N) (m : ServerMessage)
| SocketError (s : N) (message : jsstr)
| SocketClose (s : N) (code : N) (reason : jsstr)
| Fire (k : Timer) (i : N) (size : option (N * N)) (cols rows : N)
| Input (data : jsstr) (buffer : option Buffer)
| SizeChange
| SendCommand (data : jsstr).

(** A timer fires: an interval stays, a timeout is gone. *)
Definition fire (now : Z) (k : Timer) (i : N) (size : option (N * N)) (cols rows : N) (t : Terminal) : Terminal :=
  match k with
  | Heartbeat => send (HeartbeatMessage now) t
  | Reconnect =>
      let t := set_retry_timer None (clear_timer Reconnect i t) in
      if t.(retry).(closing) || negb (truthy t.(link).(sessionId)) then t
      else initWebSocket cols rows t.(link).(wsEndpoint) t.(link).(wsArgs) t
  | HideNotice =>
      on_notice (fun n => Build_AiNotice false false n.(level) n.(notice_message) None) (clear_timer HideNotice i t)
  | ResizeFrame =>
      resizeTerminal size (on_resize (fun r => Build_Resize None r.(lastResizeColumns) r.(lastResizeRows))
                             (clear_timer ResizeFrame i t))
  end.

Definition handle (now : Z) (e : Event) (t : Terminal) : Terminal :=
  match e with
  | Accept props element cols rows => acceptParams props element cols rows t
  | OnClose => onClose t
  | AuthAnswer n authError => resume_auth now n authError t
  | SocketOpen s => runRealTerminal now (set_state s OPEN t)
  | SocketMessage s m => onWSReceive now m t
  | SocketError s message => errorRealTerminal message t
  | SocketClose s code reason => closeRealTerminal now code reason (set_state s CLOSED t)
  | Fire k i size cols rows => fire now k i size cols rows t
  | Input data buffer => onTermData data buffer t
  | SizeChange => changeTerminalSize now t
  | SendCommand data => sendMsg data [] t
  end.

(** What the browser lets happen: a connecting socket opens, messages arrive on an open one,
    errors on one that is not open, every socket closes once, and a timer fires when due. *)
Definition possible (now : Z) (e : Event) (t : Terminal) : Prop :=
  match e with
  | SocketOpen s => state_of t s = Some CONNECTING
  | SocketMessage s _ => state_of t s = Some OPEN
  | SocketError s _ | SocketClose s _ _ => is_Some (state_of t s) /\ state_of t s <> Some CLOSED
  | Fire k i _ _ _ => exists due, t.(browser).(timers) !! (k, i) = Some due /\ (due <= now)%Z
  | _ => True
  end.

(** A run: its events with their times, which do not go back. *)
Inductive runs : Z -> Terminal -> list (Z * Event) -> Terminal -> Prop :=
| runs_nil now t : runs now t [] t
| runs_cons now later e es t t' :
    (now <= later)%Z -> possible later e t -> runs later (handle later e t) es t' -> runs now t ((later, e) :: es) t'.
End Component.

(** ** What the output shows *)

(** What follows the first line break. *)
Fixpoint after_break (s : jsstr) : option jsstr :=
  match s with [] => None | c :: rest => if (c =? 10)%N then Some rest else after_break rest end.

Lemma search_break_spec s :
  after_break s =
    (fun i => drop (i + if decide (s !! i = Some 13%N) then 2 else 1) s) <$> search_break s.
Proof.
  induction s as [|c s IH]; [done|]. cbn [search_break after_break].
  destruct (N.eqb_spec c 10) as [->|Hc]; [done|]. cbn [orb].
  destruct ((c =? 13)%N && startsWith s [10%N]) eqn:E.
  - apply andb_true_iff in E as [->%N.eqb_eq (r & ->)%startsWith_spec]. done.
  - rewrite IH. by destruct (search_break s).
Qed.

Lemma after_break_app a b :
  after_break (a ++ b) = match after_break a with Some r => Some (r ++ b) | None => after_break b end.
Proof. induction a as [|c a IH]; cbn [app after_break]; [done|]. by case_step. Qed.

(** What is shown of a text: what follows its first line if an echo is awaited, from the
    prompt on if one is. *)
Definition shown (o : Output) (s : jsstr) : jsstr :=
  let s := if o.(hideInitCmdEcho) then default [] (after_break (o.(initCmdEchoBuffer) ++ s)) else s in
  if truthy o.(waitForPrompt) then
    let s := o.(waitForPromptBuffer) ++ s in
    match indexOf s o.(waitForPrompt) with Some i => drop i s | None => [] end
  else s.

(** What is held back is held back for a reason. *)
Definition held (o : Output) : Prop :=
  (o.(hideInitCmdEcho) = true -> after_break o.(initCmdEchoBuffer) = None) /\
  (truthy o.(waitForPrompt) = true -> indexOf o.(waitForPromptBuffer) o.(waitForPrompt) = None).

Lemma indexOf_extend s t p i : indexOf s p = Some i -> indexOf (s ++ t) p = Some i.
Proof.
  intros H. destruct (indexOf_Some _ _ _ H) as (a & b & Hs & Ha). destruct (indexOf (s ++ t) p) as [j|] eqn:E.
  - f_equal. pose proof (indexOf_min _ _ _ a (b ++ t) E) as Hle. specialize (Hle ltac:(by rewrite Hs, <- !app_assoc)).
    destruct (indexOf_Some _ _ _ E) as (a' & b' & Hs' & Ha').
    assert (s = a' ++ p ++ drop (length a' + length p) s) as Hmin.
    { rewrite <- (take_drop (length a' + length p) s) at 1.
      rewrite <- (take_app_le s t), Hs' by (rewrite Hs, !length_app; lia).
      rewrite app_assoc, take_app_le, take_ge by (rewrite length_app; lia). by rewrite <- app_assoc. }
    apply (indexOf_min _ _ _ _ _ H) in Hmin. lia.
  - exfalso. apply (indexOf_None _ _ a (b ++ t) E). by rewrite Hs, <- !app_assoc.
Qed.

Lemma indexOf_le s p i : indexOf s p = Some i -> i <= length s.
Proof. intros (a & b & -> & <-)%indexOf_Some. rewrite length_app. lia. Qed.

Lemma shown_strip m s o : held o -> o.(hideInitCmdEcho) = true ->
  let '(r, o') := stripInitCmdEchoLine m o in
  held o' /\ o'.(waitForPrompt) = o.(waitForPrompt) /\ o'.(waitForPromptBuffer) = o.(waitForPromptBuffer) /\
  (if o'.(hideInitCmdEcho) then r = [] /\ shown o (m ++ s) = shown o' s
   else shown o (m ++ s) = shown o' (r ++ s)).
Proof.
  intros [He Hp] Hh. unfold stripInitCmdEchoLine. rewrite Hh. cbn [negb].
  pose proof (search_break_spec (initCmdEchoBuffer o ++ m)) as Hb.
  destruct (search_break (initCmdEchoBuffer o ++ m)) as [i|] eqn:Ei; cbn [fmap option_fmap option_map] in Hb.
  - split; [by split|]. repeat split. cbn [hideInitCmdEcho]. unfold shown at 1. rewrite Hh, app_assoc, after_break_app, Hb. done.
  - split; [by split|]. repeat split. unfold shown at 1. by rewrite Hh, app_assoc.
Qed.

Lemma shown_flush m s o : held o -> o.(hideInitCmdEcho) = false ->
  let '(w, o') := flushPromptBuffer m o in
  held o' /\ o'.(hideInitCmdEcho) = false /\ shown o (m ++ s) = w ++ shown o' s.
Proof.
  intros Ho Hh. pose proof Ho as [He Hp]. unfold flushPromptBuffer. destruct (truthy (waitForPrompt o)) eqn:Hw; cbn [negb].
  - specialize (Hp eq_refl). destruct (indexOf (waitForPromptBuffer o ++ m) (waitForPrompt o)) as [i|] eqn:Ei.
    + split; [by split|]. split; [done|]. unfold shown. cbn [hideInitCmdEcho waitForPrompt truthy].
      rewrite Hh, Hw, app_assoc. rewrite (indexOf_extend _ _ _ _ Ei).
      by rewrite drop_app_le by by apply (indexOf_le _ _ _ Ei).
    + split; [by split|]. split; [done|]. unfold shown. cbn [hideInitCmdEcho waitForPrompt waitForPromptBuffer].
      by rewrite Hh, Hw, app_assoc.
  - split; [done|]. split; [done|]. unfold shown. by rewrite Hh, Hw.
Qed.

(** One message writes the first part of what all of them show. *)
Lemma receive_cmd_shown m s o : held o ->
  let '(w, o') := receive_cmd m o in held o' /\ shown o (m ++ s) = w ++ shown o' s.
Proof.
  intros Ho. unfold receive_cmd. destruct (hideInitCmdEcho o) eqn:Hh.
  - pose proof (shown_strip m s o Ho Hh) as H. destruct (stripInitCmdEchoLine m o) as [r o1].
    destruct H as (Ho1 & Hw & Hb & H). destruct (hideInitCmdEcho o1) eqn:Hh1.
    + destruct H as [-> H]. cbn [truthy andb]. split; done.
    + destruct (truthy r && truthy (waitForPrompt o1)) eqn:E.
      * pose proof (shown_flush r s o1 Ho1 Hh1) as Hf. destruct (flushPromptBuffer r o1) as [w o2].
        destruct Hf as (Ho2 & _ & Hf). split; [done|]. congruence.
      * split; [done|]. rewrite H. apply andb_false_iff in E as [->%truthy_false|E]; [done|].
        unfold shown. by rewrite Hh1, E.
  - destruct (truthy m && truthy (waitForPrompt o)) eqn:E.
    + pose proof (shown_flush m s o Ho Hh) as Hf. destruct (flushPromptBuffer m o) as [w o2].
      destruct Hf as (Ho2 & _ & Hf). done.
    + split; [done|]. apply andb_false_iff in E as [->%truthy_false|E]; [done|]. unfold shown. by rewrite Hh, E.
Qed.

Lemma shown_nil o : held o -> shown o [] = [].
Proof.
  intros [He Hp]. unfold shown. rewrite app_nil_r. destruct (hideInitCmdEcho o).
  - rewrite He by done. cbn [default]. destruct (truthy (waitForPrompt o)); [|done]. by rewrite app_nil_r, Hp.
  - destruct (truthy (waitForPrompt o)); [|done]. by rewrite app_nil_r, Hp.
Qed.

(** ** What does not touch the connection *)

(** The text written. *)
Definition written (l : list Effect) : jsstr := mjoin (omap (fun e => match e with Write x => Some x | _ => None end) l).
Definition created (l : list Effect) : list N := omap (fun e => match e with NewSocket s _ => Some s | _ => None end) l.
Definition sends (l : list Effect) : list (N * Message) := omap (fun e => match e with Send s m => Some (s, m) | _ => None end) l.

Definition conn (t : Terminal) :=
  let l := t.(link) in
  (l.(terminalSocket), l.(initWebSocketToken), l.(auths), l.(sessionId), (l.(wsEndpoint), l.(wsArgs))).

(** The pending reconnections, with their times. *)
Definition waits (t : Terminal) (i : N) : option Z := t.(browser).(timers) !! (Reconnect, i).

(** Effects that neither open a socket nor give the session up; a message goes to an open
    socket. *)
Definition calm (open : option N) (e : Effect) : Prop :=
  match e with
  | Write _ | ResetScreen | EmitSession _ => True
  | Send s _ => open = Some s
  | NewSocket _ _ | ErrorShown _ | EmitExpired => False
  end.

(** The socket that messages go to. *)
Definition open_socket (t : Terminal) : option N := if isWsOpen t then t.(link).(terminalSocket) else None.

Record frame (t t' : Terminal) : Prop := {
  f_output : t'.(output) = t.(output); f_retry : t'.(retry) = t.(retry); f_conn : conn t' = conn t;
  f_sockets : t'.(browser).(sockets) = t.(browser).(sockets); f_waits i : waits t' i = waits t i;
  f_next : (next t <= next t')%N; f_ready : t'.(termReady) = t.(termReady);
  f_log : exists es, t'.(log) = t.(log) ++ es /\ Forall (calm (open_socket t)) es
}.

Lemma open_socket_ext t t' : conn t' = conn t -> t'.(browser).(sockets) = t.(browser).(sockets) -> open_socket t' = open_socket t.
Proof.
  intros Hc Hs. unfold open_socket, isWsOpen, state_of. rewrite Hs. unfold conn in Hc. by injection Hc as -> _ _ _ _ _.
Qed.

Lemma frame_refl t : frame t t.
Proof. split; try done. exists []. by rewrite app_nil_r. Qed.

Lemma frame_trans t u v : frame t u -> frame u v -> frame t v.
Proof.
  intros [A1 A2 A3 A4 A5 A6 A7 (es & A8 & A9)] [B1 B2 B3 B4 B5 B6 B7 (fs & B8 & B9)].
  split; try (etrans; [eassumption|done]); [by intros i; rewrite B5|].
  exists (es ++ fs). rewrite B8, A8, app_assoc. split; [done|].
  apply Forall_app. split; [done|]. by rewrite (open_socket_ext t u A3 A4) in B9.
Qed.

(** Assignments to the rest of the state *)
Ltac framed := split; try reflexivity; exists []; by rewrite app_nil_r.

Lemma does_frame e t : calm (open_socket t) e -> frame t (does e t).
Proof. intros He. split; try reflexivity. exists [e]. split; [done|]. by constructor. Qed.

Lemma clear_frame k i t : k <> Reconnect -> frame t (clear_some k i t).
Proof.
  intros Hk. destruct i as [i|]; [|apply frame_refl]. split; try reflexivity; [|exists []; by rewrite app_nil_r].
  intros j. unfold waits. cbn. rewrite lookup_delete_ne; [done|congruence].
Qed.

Lemma set_timer_frame k due t : k <> Reconnect -> frame t (set_timer k due t).
Proof.
  intros Hk. split; try reflexivity; [|unfold next; cbn; lia|exists []; by rewrite app_nil_r].
  intros j. unfold waits. cbn. rewrite lookup_insert_ne; [done|congruence].
Qed.

Lemma notice_frame f t : frame t (on_notice f t). Proof. framed. Qed.
Lemma resize_frame f t : frame t (on_resize f t). Proof. framed. Qed.
Lemma wsReady_frame b t : frame t (set_wsReady b t). Proof. framed. Qed.
Lemma heartbeat_frame i t : frame t (set_heartbeat i t). Proof. framed. Qed.
Lemma latency_frame i t : frame t (set_latency i t). Proof. framed. Qed.

Lemma clearAINotice_frame t : frame t (clearAINotice t).
Proof. unfold clearAINotice. eapply frame_trans; [|apply notice_frame]. by apply clear_frame. Qed.

Lemma showAINotice_frame now l m t : frame t (showAINotice now l m t).
Proof.
  unfold showAINotice. cbv zeta. set (u := clear_some _ _ _). assert (frame t u) as H by by apply clear_frame.
  eapply frame_trans; [exact H|]. case_step; [apply notice_frame|].
  eapply frame_trans; [|by apply set_timer_frame]. apply notice_frame.
Qed.

Lemma send_frame m t : frame t (send m t).
Proof.
  unfold send. destruct (isWsOpen t) eqn:Ho; [|apply frame_refl]. destruct (terminalSocket (link t)) as [s|] eqn:Es; [|apply frame_refl].
  apply does_frame. unfold calm, open_socket. by rewrite Ho.
Qed.

Lemma changeTerminalSize_frame now t : frame t (changeTerminalSize now t).
Proof.
  unfold changeTerminalSize. destruct (resizeFrame (resize t)); [apply frame_refl|].
  eapply frame_trans; [|by apply set_timer_frame]. apply resize_frame.
Qed.

Lemma resizeTerminal_frame size t : frame t (resizeTerminal size t).
Proof.
  unfold resizeTerminal. destruct size as [[c r]|]; [|apply frame_refl]. destruct (isWsOpen t); [|apply frame_refl].
  case_step; [apply frame_refl|]. eapply frame_trans; [|apply send_frame]. apply resize_frame.
Qed.

Lemma errorRealTerminal_frame m t : frame t (errorRealTerminal m t).
Proof.
  unfold errorRealTerminal. cbv zeta. eapply frame_trans; [apply clearAINotice_frame|].
  case_step; [apply frame_refl|by apply does_frame].
Qed.

Lemma onTermData_frame enc data b t : frame t (onTermData enc data b t).
Proof. unfold onTermData. repeat (case_step; [apply frame_refl|]). apply send_frame. Qed.

Lemma initTerminal_conn element t :
  let t' := initTerminal element t in
  output t' = output t /\ retry t' = retry t /\ conn t' = conn t /\ browser t' = browser t /\ log t' = log t /\
  termReady t' = termReady t || element.
Proof. cbv zeta. unfold initTerminal. destruct element; cbn; [by rewrite orb_true_r|by rewrite orb_false_r]. Qed.

(** Timers that have nothing to do with reconnections *)
Lemma fire_frame href node now k i size cols rows t : k <> Reconnect -> frame t (fire href node now k i size cols rows t).
Proof.
  intros Hk. destruct k; [apply send_frame|done|..].
  - eapply frame_trans; [|apply notice_frame]. by apply (clear_frame HideNotice (Some i)).
  - eapply frame_trans; [|apply resizeTerminal_frame]. eapply frame_trans; [|apply resize_frame].
    by apply (clear_frame ResizeFrame (Some i)).
Qed.

(** What a close event does first *)
Definition detach (t : Terminal) : Terminal :=
  let t := set_wsReady false (clearAINotice t) in
  set_heartbeat None (clear_some Heartbeat t.(link).(heartbeatTimer) t).

Lemma detach_frame t : frame t (detach t).
Proof.
  unfold detach. cbv zeta. eapply frame_trans; [|apply heartbeat_frame]. eapply frame_trans; [|by apply clear_frame].
  eapply frame_trans; [|apply wsReady_frame]. apply clearAINotice_frame.
Qed.

(** ** What the connection operations do, in one piece *)

Lemma clear_some_eq k i t : clear_some k i t = on_browser (fun b => Build_Browser b.(sockets)
  (match i with Some i => delete (k, i) b.(timers) | None => b.(timers) end) b.(next_id)) t.
Proof. destruct i; [done|]. by destruct t as [? ? ? ? ? []]. Qed.

Definition closed_state (r : ReadyState) : ReadyState := match r with CONNECTING | OPEN => CLOSING | _ => r end.

Lemma close_socket_eq s t : close_socket s t = on_browser (fun b => Build_Browser
  (match s with Some s => alter closed_state s b.(sockets) | None => b.(sockets) end) b.(timers) b.(next_id)) t.
Proof.
  destruct s as [s|]; [|by destruct t as [? ? ? ? ? []]]. unfold close_socket, state_of.
  destruct t as [? ? ? ? ? [so ti nx] ? ? ?]. cbn.
  assert (Hid : (so !! s = None \/ so !! s = Some CLOSING \/ so !! s = Some CLOSED) -> alter closed_state s so = so).
  { intros H. apply map_eq. intros i. destruct (decide (i = s)) as [->|Hne]; [|by rewrite lookup_alter_ne].
    rewrite lookup_alter_eq. by destruct H as [->|[->| ->]]. }
  assert (Hin : forall r, so !! s = Some r -> closed_state r = CLOSING -> alter closed_state s so = <[s := CLOSING]> so).
  { intros r Hr Hc. apply map_eq. intros i. destruct (decide (i = s)) as [->|Hne].
    - by rewrite lookup_alter_eq, lookup_insert_eq, Hr, <- Hc.
    - by rewrite lookup_alter_ne, lookup_insert_ne. }
  unfold on_browser. cbn. destruct (so !! s) as [[]|] eqn:E; cbn; unfold on_browser; cbn;
    first [by rewrite (Hin _ eq_refl eq_refl)|by rewrite Hid by auto].
Qed.

Lemma onClose_eq t :
  let t' := onClose t in
  t'.(output) = t.(output) /\
  t'.(retry) = Build_Retry true false t.(retry).(reconnectNoticeShown) false t.(retry).(reconnectStartedAt) t.(retry).(reconnectDelay) None /\
  conn t' = (None, (t.(link).(initWebSocketToken) + 1)%Z, t.(link).(auths), t.(link).(sessionId),
             (t.(link).(wsEndpoint), t.(link).(wsArgs))) /\
  t'.(browser).(sockets) = match t.(link).(terminalSocket) with
                           | Some s => alter closed_state s t.(browser).(sockets) | None => t.(browser).(sockets) end /\
  (forall i, waits t' i = if decide (t.(retry).(reconnectTimer) = Some i) then None else waits t i) /\
  next t' = next t /\ t'.(termReady) = t.(termReady) /\ t'.(log) = t.(log).
Proof.
  cbv zeta. unfold onClose, stopReconnect, clearAINotice. cbv zeta. rewrite close_socket_eq, !clear_some_eq. cbn.
  repeat split. intros i. unfold waits. cbn.
  destruct (heartbeatTimer (link t)), (aiNoticeTimer (notice t)), (resizeFrame (resize t));
    rewrite ?lookup_delete_ne by (intros [=]);
    (destruct (reconnectTimer (retry t)) as [j|]; [|by rewrite decide_False by done]);
    (destruct (decide (j = i)) as [->|Hne]; [by rewrite decide_True, lookup_delete_eq by done|];
     rewrite decide_False, lookup_delete_ne by congruence; done).
Qed.

(** ** After the page has closed the terminal *)

(** Awaited authentications were asked for with tokens up to the current one. *)
Definition tokens_ok (t : Terminal) : Prop := Forall (fun a => (a.(a_token) <= t.(link).(initWebSocketToken))%Z) t.(link).(auths).

Definition stopped (t : Terminal) : Prop :=
  t.(retry).(closing) = true /\ t.(link).(terminalSocket) = None /\
  Forall (fun a => (a.(a_token) < t.(link).(initWebSocketToken))%Z) t.(link).(auths).

Lemma conn_parts t t' : conn t' = conn t ->
  t'.(link).(terminalSocket) = t.(link).(terminalSocket) /\ t'.(link).(initWebSocketToken) = t.(link).(initWebSocketToken) /\
  t'.(link).(auths) = t.(link).(auths) /\ t'.(link).(sessionId) = t.(link).(sessionId).
Proof. unfold conn. by intros [= -> -> -> ->]. Qed.

Lemma conn_inv t s k a id w : conn t = (s, k, a, id, w) ->
  t.(link).(terminalSocket) = s /\ t.(link).(initWebSocketToken) = k /\ t.(link).(auths) = a /\ t.(link).(sessionId) = id.
Proof. unfold conn. by intros [= -> -> -> -> _]. Qed.

(** What a step leaves when it neither connects nor gives up *)
Definition steps_calmly (t t' : Terminal) : Prop :=
  stopped t' /\ exists es, t'.(log) = t.(log) ++ es /\ Forall (calm None) es.

Lemma stopped_ext t t' : retry t' = retry t -> conn t' = conn t -> stopped t -> stopped t'.
Proof. intros Hr (Hs & Ht & Ha & _)%conn_parts. unfold stopped. by rewrite Hr, Hs, Ht, Ha. Qed.

Lemma open_socket_stopped t : stopped t -> open_socket t = None.
Proof. intros (_ & Hs & _). unfold open_socket, isWsOpen. by rewrite Hs. Qed.

Lemma frame_calmly t t' : frame t t' -> stopped t -> steps_calmly t t'.
Proof.
  intros [_ Hr Hc _ _ _ _ (es & He & Hq)] Hs. split; [by eapply stopped_ext|]. exists es. split; [done|].
  by rewrite open_socket_stopped in Hq.
Qed.

Lemma calmly_then t u v : steps_calmly t u -> (stopped u -> steps_calmly u v) -> steps_calmly t v.
Proof.
  intros [Hu (es & He & Hq)] H. destruct (H Hu) as [Hv (fs & Hf & Hq')]. split; [done|].
  exists (es ++ fs). rewrite Hf, He, app_assoc. split; [done|]. by apply Forall_app.
Qed.

(** Assignments that leave [stopped] alone, and a write *)
Lemma same_calmly t t' : retry t' = retry t -> conn t' = conn t -> log t' = log t -> stopped t -> steps_calmly t t'.
Proof. intros Hr Hc Hl Hs. split; [by eapply stopped_ext|]. exists []. by rewrite app_nil_r. Qed.

Lemma does_calmly e t : calm None e -> stopped t -> steps_calmly t (does e t).
Proof. intros He Hs. apply frame_calmly; [|done]. apply does_frame. by rewrite open_socket_stopped. Qed.

Lemma onClose_stopped t : tokens_ok t -> stopped (onClose t).
Proof.
  intros Ht. destruct (onClose_eq t) as (_ & Hr & (Hs & Hk & Ha & _)%conn_inv & _).
  split; [by rewrite Hr|]. split; [done|]. rewrite Ha, Hk. eapply list.Forall_impl; [exact Ht|]. cbn. intros a. lia.
Qed.

Lemma stopped_tokens t : stopped t -> tokens_ok t.
Proof. intros (_ & _ & Ha). eapply list.Forall_impl; [exact Ha|]. cbn. intros a. lia. Qed.

Lemma remove_Forall {A} (P : A -> Prop) n l : Forall P l -> Forall P (take n l ++ drop (S n) l).
Proof. intros H. apply Forall_app. split; [by apply Forall_take|by apply Forall_drop]. Qed.

Section Silence.
Context (encodeBase64 decodeBase64 : jsstr -> jsstr) (href currentNode : jsstr).
Abbreviation handle := (handle encodeBase64 decodeBase64 href currentNode).
Abbreviation runs := (runs encodeBase64 decodeBase64 href currentNode).

Lemma resume_auth_calmly now n err t : stopped t -> steps_calmly t (resume_auth now n err t).
Proof.
  intros Hs. unfold resume_auth. destruct (auths (link t) !! n) as [a|] eqn:Ea; [|by apply same_calmly].
  cbv zeta. destruct Hs as (Hc & Hk & Ha). pose proof (Forall_lookup_1 _ _ _ _ Ha Ea) as Hlt. cbn in Hlt.
  cbn [set_auths on_link link initWebSocketToken termReady]. rewrite (proj2 (Z.eqb_neq _ _)) by lia. cbn [negb orb].
  split; [|exists []; by rewrite app_nil_r]. split; [done|]. split; [done|]. by apply remove_Forall.
Qed.

Lemma message_calmly now m t : stopped t -> steps_calmly t (onWSReceive decodeBase64 now m t).
Proof.
  intros Hs. destruct m as [data|ts|id|l message|]; cbn [onWSReceive].
  - case_step; [|by apply same_calmly]. destruct (receive_cmd _ _) as [w o]. case_step; [|by apply same_calmly].
    eapply calmly_then; [|by apply does_calmly]. by apply same_calmly.
  - by apply same_calmly.
  - assert (stopped (set_session id (set_delay 1000 (set_revalidating false (set_reconnecting false t))))) as Hu by done.
    eapply calmly_then; [|by apply does_calmly]. case_step; [|split; [done|exists []; by rewrite app_nil_r]].
    split; [done|]. exists [ResetScreen]. split; [done|]. by constructor.
  - case_step; [|by apply same_calmly]. apply frame_calmly; [apply showAINotice_frame|done].
  - by apply same_calmly.
Qed.

Lemma stopped_step now e t : (forall p el c r, e <> Accept p el c r) -> stopped t -> steps_calmly t (handle now e t).
Proof.
  intros Hne Hs. destruct e as [p el c r| |n err|s|s m|s m|s code reason|k i size c r|data b| |data]; cbn [Terminal.handle].
  - by destruct (Hne p el c r).
  - destruct (onClose_eq t) as (_ & _ & _ & _ & _ & _ & _ & Hl). split; [by apply onClose_stopped, stopped_tokens|].
    exists []. by rewrite Hl, app_nil_r.
  - by apply resume_auth_calmly.
  - eapply calmly_then; [by apply (same_calmly t (set_state s OPEN t))|]. intros Hu. unfold runRealTerminal. cbv zeta.
    set (u := set_state s OPEN t) in *. eapply calmly_then.
    + apply (frame_calmly u); [|done]. eapply frame_trans; [|apply changeTerminalSize_frame]. apply wsReady_frame.
    + intros Hv. case_step; [|by apply same_calmly]. eapply calmly_then; [|intros; apply frame_calmly; [apply send_frame|done]].
      by apply same_calmly.
  - by apply message_calmly.
  - apply frame_calmly; [apply errorRealTerminal_frame|done].
  - eapply calmly_then; [by apply (same_calmly t (set_state s CLOSED t))|]. intros Hu. unfold closeRealTerminal. cbv zeta.
    set (u := set_state s CLOSED t) in *. fold (detach u). eapply calmly_then; [by apply frame_calmly; [apply detach_frame|]|].
    intros Hd. assert (stopped (set_socket None (detach u))) as Hn by by destruct Hd as (? & ? & ?).
    replace (closing _) with true by by destruct Hn as (-> & _). cbn [orb].
    eapply calmly_then; [|intros; by apply does_calmly]. eapply calmly_then; [|intros; by apply does_calmly].
    split; [done|]. exists []. by rewrite app_nil_r.
  - destruct (decide (k = Reconnect)) as [->|Hk]; [|by apply frame_calmly; [apply fire_frame|]].
    unfold fire. cbv zeta. destruct Hs as (Hc & Hk & Ha). cbn [set_retry_timer on_retry retry closing clear_timer on_browser].
    rewrite Hc. cbn [orb]. split; [by split|]. exists []. by rewrite app_nil_r.
  - apply frame_calmly; [apply onTermData_frame|done].
  - apply frame_calmly; [apply changeTerminalSize_frame|done].
  - apply frame_calmly; [apply send_frame|done].
Qed.

Definition mounts (e : Event) : bool := match e with Accept _ _ _ _ => true | _ => false end.

Lemma stopped_runs now t es t' : runs now t es t' -> Forall (fun e => mounts e.2 = false) es -> stopped t -> steps_calmly t t'.
Proof.
  intros Hr. induction Hr as [now t|now later e es t t' _ _ _ IH]; intros He Hs; [by apply same_calmly|].
  apply list.Forall_cons in He as [He Hes]. eapply calmly_then; [|by apply IH].
  apply stopped_step; [|done]. by intros ? ? ? ? ->.
Qed.
End Silence.

Lemma initWebSocket_eq href node cols rows ep ar t :
  let t' := initWebSocket href node cols rows ep ar t in
  let l := t.(link) in
  output t' = output t /\ retry t' = retry (set_closing false t) /\
  conn t' = (l.(terminalSocket), (l.(initWebSocketToken) + 1)%Z,
             l.(auths) ++ match conn_url href node cols rows ep ar l.(sessionId) t.(retry).(revalidating) with
                          | Some c => [{| a_token := l.(initWebSocketToken) + 1; a_conn := c |}] | None => [] end,
             l.(sessionId), (ep, ar)) /\
  browser t' = browser t /\ log t' = log t /\ termReady t' = termReady t.
Proof.
  cbv zeta. unfold initWebSocket. cbv zeta.
  cbn [set_target set_closing bump_token on_link on_retry link retry sessionId revalidating].
  destruct (conn_url _ _ _ _ _ _ _ _) as [c|]; [done|]. repeat split. unfold conn. cbn. by rewrite app_nil_r.
Qed.

(** How a reconnection is scheduled, or given up. *)
Definition gives_up (now : Z) (t : Terminal) : bool :=
  t.(retry).(reconnecting) && (now - t.(retry).(reconnectStartedAt) >? reconnectWindow)%Z.

Lemma scheduleReconnect_gives_up now rv t : gives_up now t = true ->
  scheduleReconnect now rv t =
    does EmitExpired (writeNotice (js "31") (js "terminal.sessionExpired") (set_session [] (set_reconnecting false t))).
Proof. intros [Hr Hw]%andb_true_iff. unfold scheduleReconnect. cbv zeta. by rewrite Hr, Hw. Qed.

(** The start of the reconnections and the delay of the next one. *)
Definition started (now : Z) (t : Terminal) : Z := if t.(retry).(reconnecting) then t.(retry).(reconnectStartedAt) else now.
Definition delay (t : Terminal) : Z := if t.(retry).(reconnecting) then t.(retry).(reconnectDelay) else 1000.

Lemma scheduleReconnect_goes_on now rv t : gives_up now t = false ->
  let t' := scheduleReconnect now rv t in
  output t' = output t /\ conn t' = conn t /\ t'.(browser).(sockets) = t.(browser).(sockets) /\ termReady t' = termReady t /\
  (exists shown, retry t' = Build_Retry t.(retry).(closing) true shown t.(retry).(revalidating) (started now t)
                  (if rv then delay t else Z.min (delay t * 2) 8000) (Some (next t))) /\
  (forall i, waits t' i = if decide (i = next t) then Some (now + if rv then 0 else delay t)%Z else waits t i) /\
  next t' = (next t + 1)%N /\
  exists es, log t' = log t ++ es /\ Forall (calm None) es.
Proof.
  intros Hg. unfold gives_up in Hg. unfold scheduleReconnect, started, delay. cbv zeta.
  destruct t as [o n [c r sh rv' st d ti] l rs [so tm nx] rd lat lg]. cbn in Hg |- *.
  assert (Hw : forall due i, (<[(Reconnect, nx) := due]> tm) !! (Reconnect, i) =
    if decide (i = nx) then Some due else tm !! (Reconnect, i)).
  { intros due i. destruct (decide (i = nx)) as [->|Hi]; [by rewrite lookup_insert_eq|]. rewrite lookup_insert_ne; [done|congruence]. }
  unfold waits. destruct r; cbn in Hg |- *; rewrite ?Hg; cbn; destruct rv, sh; cbn;
    (split; [reflexivity|]; split; [reflexivity|]; split; [reflexivity|]; split; [reflexivity|];
     split; [by eexists|]; split; [intros i; apply Hw|]; split; [reflexivity|];
     first [exists []; split; [by rewrite app_nil_r|constructor]|eexists [_]; split; [reflexivity|by constructor]]).
Qed.

(** ** What every run keeps *)

Section Kept.
Context (encodeBase64 decodeBase64 : jsstr -> jsstr) (href currentNode : jsstr).
Abbreviation handle := (handle encodeBase64 decodeBase64 href currentNode).
Abbreviation runs := (runs encodeBase64 decodeBase64 href currentNode).

Definition kept (t : Terminal) : Prop := tokens_ok t /\ held t.(output).

Lemma kept_ext t t' : output t' = output t -> conn t' = conn t -> kept t -> kept t'.
Proof. intros Ho (_ & Hk & Ha & _)%conn_parts. unfold kept, tokens_ok. by rewrite Ho, Hk, Ha. Qed.

Lemma kept_frame t t' : frame t t' -> kept t -> kept t'.
Proof. intros H. by apply kept_ext; [apply f_output|apply f_conn]. Qed.

Lemma kept_does e t : kept t -> kept (does e t). Proof. done. Qed.
Lemma kept_socket s t : kept t -> kept (set_socket s t). Proof. done. Qed.
Lemma kept_heartbeat i t : kept t -> kept (set_heartbeat i t). Proof. done. Qed.
Lemma kept_new_socket u t : kept t -> kept (new_socket u t). Proof. done. Qed.

Lemma kept_init cols rows ep ar t : kept t -> kept (initWebSocket href currentNode cols rows ep ar t).
Proof.
  intros [Ht Ho]. destruct (initWebSocket_eq href currentNode cols rows ep ar t) as (E & _ & (_ & Hk & Ha & _)%conn_inv & _).
  split; [|by rewrite E]. unfold tokens_ok. rewrite Ha, Hk. apply Forall_app. split.
  - eapply list.Forall_impl; [exact Ht|]. cbn. intros a. lia.
  - destruct (conn_url _ _ _ _ _ _ _ _); [|by constructor]. constructor; [cbn; lia|by constructor].
Qed.

Lemma held_prompt hide echo cmd prompt : (hide = true -> after_break echo = None) -> held (Build_Output hide echo cmd prompt []).
Proof. intros He. split; [done|]. cbn. by destruct prompt. Qed.

Lemma kept_accept p el cols rows t : kept t -> kept (acceptParams href currentNode p el cols rows t).
Proof.
  intros Hk. unfold acceptParams. cbv zeta. case_step.
  - destruct (initTerminal_conn el t) as (E1 & _ & E2 & _). set (u := initTerminal el t) in *.
    assert (kept u) by by eapply kept_ext. case_step; [by apply (kept_ext u)|done].
  - set (v := set_session _ _). assert (kept v) as Hv.
    { destruct Hk as [Ht Ho]. split; [exact Ht|]. apply held_prompt. apply Ho. }
    destruct (initTerminal_conn el v) as (E1 & _ & E2 & _). set (u := initTerminal el v) in *.
    assert (kept u) by by eapply kept_ext. case_step; [by apply kept_init|done].
Qed.

Lemma kept_resume now n err t : kept t -> kept (resume_auth now n err t).
Proof.
  intros [Ht Ho]. unfold resume_auth. destruct (auths (link t) !! n) as [a|]; [|done]. cbv zeta.
  set (u := set_auths _ t). assert (kept u) as Hu by (split; [by apply remove_Forall|done]).
  case_step; [done|]. case_step.
  - apply kept_does. unfold showWebSocketAuthError. do 2 apply kept_does. eapply kept_frame; [apply clearAINotice_frame|done].
  - eapply kept_frame; [by apply set_timer_frame|]. apply kept_heartbeat, kept_socket, kept_new_socket.
    eapply kept_frame; [by apply clear_frame|done].
Qed.

Lemma kept_message now m t : kept t -> kept (onWSReceive decodeBase64 now m t).
Proof.
  intros [Ht Ho]. destruct m as [data|ts|id|l message|]; cbn [onWSReceive].
  - case_step; [|done]. pose proof (receive_cmd_shown (decodeBase64 data) [] (output t) Ho) as H.
    destruct (receive_cmd _ _) as [w o]. destruct H as [H _]. case_step; done.
  - done.
  - by case_step.
  - case_step; [|done]. eapply kept_frame; [apply showAINotice_frame|done].
  - done.
Qed.

Lemma close_parts now code reason t :
  closeRealTerminal now code reason t =
    let u := set_socket None (detach t) in
    if u.(retry).(closing) || negb (truthy u.(link).(sessionId)) then
      does (Write reason) (does (Write (js "The connection has been disconnected.")) u)
    else if (code =? 1000)%N || (code =? CLOSE_SESSION_NOT_FOUND)%N then
      does EmitExpired (writeNotice (js "31")
        (if (code =? 1000)%N then js "The connection has been disconnected." else js "terminal.sessionExpired")
        (set_reconnecting false (set_session [] u)))
    else if (code =? CLOSE_ATTACHED_ELSEWHERE)%N then
      writeNotice (js "31") (js "terminal.sessionKicked") (set_reconnecting false u)
    else if (code =? CLOSE_REVALIDATE)%N then scheduleReconnect now true (set_revalidating true u)
    else scheduleReconnect now false u.
Proof. reflexivity. Qed.

Lemma kept_schedule now rv t : kept t -> kept (scheduleReconnect now rv t).
Proof.
  intros Hk. destruct (gives_up now t) eqn:Hg; [by rewrite scheduleReconnect_gives_up|].
  destruct (scheduleReconnect_goes_on now rv t Hg) as (Ho & Hc & _). by eapply kept_ext.
Qed.

Lemma kept_step now e t : kept t -> kept (handle now e t).
Proof.
  intros Hk. destruct e as [p el c r| |n err|s|s m|s m|s code reason|k i size c r|data b| |data]; cbn [Terminal.handle].
  - by apply kept_accept.
  - destruct (onClose_eq t) as (Ho & _ & (_ & Ht & Ha & _)%conn_inv & _). destruct Hk as [Hk Hh]. split; [|by rewrite Ho].
    unfold tokens_ok. rewrite Ha, Ht. eapply list.Forall_impl; [exact Hk|]. cbn. intros a. lia.
  - by apply kept_resume.
  - unfold runRealTerminal. cbv zeta. set (u := changeTerminalSize _ _). assert (kept u) as Hu.
    { eapply kept_frame; [apply changeTerminalSize_frame|]. done. }
    case_step; [|done]. eapply kept_frame; [apply send_frame|]. destruct Hu as [Hu1 Hu2]. split; [done|].
    split; [done|]. apply Hu2.
  - by apply kept_message.
  - eapply kept_frame; [apply errorRealTerminal_frame|done].
  - rewrite close_parts. cbv zeta. set (u := set_socket None _). assert (kept u) as Hu.
    { apply kept_socket. eapply kept_frame; [apply detach_frame|done]. }
    clearbody u. repeat (case_step; [done|]). case_step; by apply kept_schedule.
  - destruct (decide (k = Reconnect)) as [->|Hr]; [|eapply kept_frame; [by apply fire_frame|done]].
    cbn [fire]. cbv zeta. case_step; [done|]. by apply kept_init.
  - eapply kept_frame; [apply onTermData_frame|done].
  - eapply kept_frame; [apply changeTerminalSize_frame|done].
  - eapply kept_frame; [apply send_frame|done].
Qed.

Lemma kept_runs now t es t' : runs now t es t' -> kept t -> kept t'.
Proof. induction 1 as [|now later e es t t' _ _ _ IH]; [done|]. intros H. by apply IH, kept_step. Qed.

Lemma kept_initial : kept initial_terminal.
Proof. split; [by constructor|by split]. Qed.
End Kept.

(** ** Theorems *)

Section Theorems.
Context (encodeBase64 decodeBase64 : jsstr -> jsstr) (href currentNode : jsstr).
Abbreviation handle := (handle encodeBase64 decodeBase64 href currentNode).
Abbreviation runs := (runs encodeBase64 decodeBase64 href currentNode).

(** The messages of the shell that arrive one after the other, each with its time *)
Definition receive_all (ds : list (Z * jsstr)) (t : Terminal) : Terminal :=
  foldl (fun t d => onWSReceive decodeBase64 d.1 (ServerCmd d.2) t) t ds.

Definition texts (ds : list (Z * jsstr)) : jsstr := mjoin (decodeBase64 <$> List.filter truthy (snd <$> ds)).

Lemma written_app l l' : written (l ++ l') = written l ++ written l'.
Proof. induction l as [|[] l IH]; cbn; [done|by rewrite <- app_assoc; f_equal|done..]. Qed.

Lemma texts_cons now d ds : texts ((now, d) :: ds) = (if truthy d then decodeBase64 d else []) ++ texts ds.
Proof. unfold texts. cbn. by destruct (truthy d). Qed.

Lemma receive_all_cons now d ds t :
  receive_all ((now, d) :: ds) t = receive_all ds (onWSReceive decodeBase64 now (ServerCmd d) t).
Proof. done. Qed.

Lemma receive_all_shown ds t : held t.(output) ->
  written (receive_all ds t).(log) = written t.(log) ++ shown t.(output) (texts ds).
Proof.
  revert t. induction ds as [|[now d] ds IH]; intros t Ho; [by cbn; rewrite shown_nil, app_nil_r|].
  rewrite texts_cons, receive_all_cons. cbn [onWSReceive].
  destruct (truthy d); [|by apply IH].
  pose proof (receive_cmd_shown (decodeBase64 d) (texts ds) _ Ho) as H.
  destruct (receive_cmd (decodeBase64 d) (output t)) as [w o]. destruct H as [Ho' H].
  rewrite H. set (u := if truthy w then _ else _). assert (output u = o) as Hu by (unfold u; by case_step).
  rewrite IH by by rewrite Hu. rewrite Hu. rewrite app_assoc. f_equal. unfold u.
  destruct (truthy w) eqn:E; [unfold does, on_output; cbn [log]; rewrite written_app; f_equal; by cbn; rewrite app_nil_r|].
  apply truthy_false in E as ->. by rewrite app_nil_r.
Qed.

(** C32. What the terminal shows of the shell's output does not depend on how its text is cut into
    messages, as long as each message holds whole characters, so that the texts the messages
    decode to make up the text: it is what follows the first line break while the echo of the
    first command is awaited, then what begins with the prompt if one is awaited, of all the
    text. *)
Theorem output_uncut now es t ds : runs now initial_terminal es t ->
  written (receive_all ds t).(log) = written t.(log) ++ shown t.(output) (texts ds) /\
  (forall ds', texts ds' = texts ds -> written (receive_all ds' t).(log) = written (receive_all ds t).(log)).
Proof.
  intros Hr. destruct (kept_runs _ _ _ _ _ _ _ _ Hr kept_initial) as [_ Ho].
  split; [by apply receive_all_shown|]. intros ds' E. by rewrite !receive_all_shown, E.
Qed.

(** Once the page has closed the terminal, whatever timers fire and answers and events of
    its sockets come late, it sends nothing, opens no socket, shows no error and does not
    report the session as expired, until it is given parameters again. *)
Theorem closed_terminal_silent now es t later es' t' : runs now initial_terminal es t ->
  runs later (onClose t) es' t' -> Forall (fun e => mounts e.2 = false) es' ->
  t'.(link).(terminalSocket) = None /\
  exists new, t'.(log) = t.(log) ++ new /\ Forall (calm None) new.
Proof.
  intros Hr Hr' He. destruct (kept_runs _ _ _ _ _ _ _ _ Hr kept_initial) as [Ht _].
  destruct (stopped_runs _ _ _ _ _ _ _ _ Hr' He (onClose_stopped t Ht)) as [(_ & Hs & _) (new & Hl & Hn)].
  split; [done|]. exists new. split; [|done]. rewrite Hl. by destruct (onClose_eq t) as (_ & _ & _ & _ & _ & _ & _ & ->).
Qed.

(** *** The line of the cursor *)

(** The rows from [first] to [last] are the line a long line was wrapped to. *)
Definition wrapped_line (buffer : Buffer) (first last : nat) : Prop :=
  (forall row, first < row <= last -> wrapped buffer row = true) /\
  (first = 0 \/ wrapped buffer first = false) /\ wrapped buffer (S last) = false.

Lemma start_row_spec buffer row :
  start_row buffer row <= row /\
  (forall r, start_row buffer row < r <= row -> wrapped buffer r = true) /\
  (start_row buffer row = 0 \/ wrapped buffer (start_row buffer row) = false).
Proof.
  induction row as [|row (H1 & H2 & H3)]; cbn [start_row]; [split; [lia|]; split; [lia|by left]|].
  destruct (wrapped buffer (S row)) eqn:E; [|split; [lia|]; split; [lia|by right]].
  split; [lia|]. split; [|done]. intros r Hr. destruct (decide (r = S row)) as [->|]; [done|]. apply H2. lia.
Qed.

Lemma wrapped_beyond buffer row : length buffer.(lines) <= row -> wrapped buffer row = false.
Proof. intros H. unfold wrapped. by rewrite lookup_ge_None_2. Qed.

Lemma end_row_spec buffer n row :
  length buffer.(lines) <= S row + n ->
  row <= end_row buffer n (S row) row /\
  (forall r, row < r <= end_row buffer n (S row) row -> wrapped buffer r = true) /\
  wrapped buffer (S (end_row buffer n (S row) row)) = false.
Proof.
  revert row. induction n as [|n IH]; intros row Hl; cbn [end_row].
  - split; [done|]. split; [lia|]. apply wrapped_beyond. lia.
  - destruct (wrapped buffer (S row)) eqn:E; [|split; [done|]; split; [lia|done]].
    destruct (IH (S row) ltac:(lia)) as (H1 & H2 & H3). split; [lia|]. split; [|done].
    intros r Hr. destruct (decide (r = S row)) as [->|]; [done|]. apply H2. lia.
Qed.

(** The line sent with an enter key is the whole line the cursor stands in, however often
    the screen wrapped it, and only that line, without the blanks at its end. *)
Theorem getCurrentTerminalLine_spec buffer :
  exists first last, first <= buffer.(baseY) + buffer.(cursorY) <= last /\ wrapped_line buffer first last /\
  (forall first' last', first' <= buffer.(baseY) + buffer.(cursorY) <= last' -> wrapped_line buffer first' last' ->
     first' = first /\ last' = last) /\
  getCurrentTerminalLine (Some buffer) =
    trimEnd (mjoin (translateToString <$> take (S last - first) (drop first buffer.(lines)))).
Proof.
  set (row := baseY buffer + cursorY buffer).
  set (first := start_row buffer row). set (last := end_row buffer (length (lines buffer) - S row) (S row) row).
  destruct (start_row_spec buffer row) as (A1 & A2 & A3). fold first in A1, A2, A3.
  destruct (end_row_spec buffer (length (lines buffer) - S row) row ltac:(lia)) as (B1 & B2 & B3). fold last in B1, B2, B3.
  exists first, last. split; [lia|]. split; [|split; [|done]].
  - split; [|done]. intros r Hr. destruct (decide (r <= row)); [apply A2; lia|apply B2; lia].
  - intros first' last' Hr (C1 & C2 & C3). split.
    + destruct (decide (first' < first)) as [Hlt|]; [destruct A3 as [?|A3]; [lia|]; rewrite C1 in A3 by lia; done|].
      destruct (decide (first < first')) as [Hlt|]; [|lia]. destruct C2 as [?|C2]; [lia|]. rewrite A2 in C2 by lia. done.
    + destruct (decide (last' < last)) as [Hlt|]; [rewrite B2 in C3 by lia; done|].
      destruct (decide (last < last')) as [Hlt|]; [rewrite C1 in B3 by lia; done|]. lia.
Qed.
End Theorems.

(** ** Examples *)

Definition sample_href : jsstr := js "https://panel.example/hosts/terminal".

(** The shell of a container on another node is asked for on the master, unless the
    parameters name the node: "containerid=" contains "id=". *)
Lemma container_goes_to_master href node cols rows endpoint user :
  conn_base href node cols rows endpoint (js "source=container&containerid=c1&user=" ++ user) =
    conn_base href (js "local") cols rows endpoint (js "source=container&containerid=c1&user=" ++ user).
Proof.
  unfold conn_base. assert (includes (js "source=container&containerid=c1&user=" ++ user) (js "id=") = true) as ->; [|done].
  apply includes_spec. exists (js "source=container&container"), (js "c1&user=" ++ user). done.
Qed.

Example conn_1 : conn_url sample_href (js "node2") 80 24 (js "/api/v2/hosts/terminal/container") (js "source=redis") (js "a b") false =
  Some (js "wss://panel.example/api/v2/hosts/terminal/container?cols=80&rows=24&source=redis&operateNode=node2&session=a%20b").
Proof. vm_compute. reflexivity. Qed.

Definition sample_props : WsProps := {|
  endpoint := js "/api/v2/hosts/terminal/local"; args := js "operateNode=local"; error := [];
  p_initCmd := js "ls"; p_waitForPrompt := js "$"; p_sessionId := [] |}.

(** A new session, whose output comes in three pieces, and that is lost. *)
Definition sample_events : list (Z * Event) :=
  [(0, Accept sample_props true 80 24); (50, AuthAnswer 0 []); (90, SocketOpen 1);
   (91, SocketMessage 1 (ServerSession (js "s1"))); (95, SocketMessage 1 (ServerCmd (js "l")));
   (99, SocketClose 1 1006 []); (1100, Fire Reconnect 4 None 80 24)]%Z.

Definition steps (es : list (Z * Event)) (t : Terminal) : Terminal :=
  foldl (fun t e => handle id id sample_href (js "local") e.1 e.2 t) t es.

Ltac run_steps := repeat (apply runs_cons; [done|vm_compute; naive_solver|]); apply runs_nil.

Lemma sample_runs : runs id id sample_href (js "local") 0 initial_terminal sample_events (steps sample_events initial_terminal).
Proof. unfold sample_events, steps. cbn [foldl fst snd]. run_steps. Qed.

Lemma output_uncut_witness :
  let t := steps (take 4 sample_events) initial_terminal in
  written (receive_all id [(95, js "l"); (96, js "s" ++ [13%N]); (97, [10%N] ++ js "welc"); (98, js "ome $ ")]%Z t).(log) =
    written (receive_all id [(95, js "ls" ++ [13%N; 10%N] ++ js "welcome $ ")]%Z t).(log) /\
  written (receive_all id [(95, js "ls" ++ [13%N; 10%N] ++ js "welcome $ ")]%Z t).(log) = js "$ ".
Proof.
  assert (runs id id sample_href (js "local") 0 initial_terminal (take 4 sample_events) (steps (take 4 sample_events) initial_terminal)) as Hr.
  { unfold sample_events, steps. cbn [foldl take fst snd]. run_steps. }
  destruct (output_uncut id id sample_href (js "local") 0 _ _ [(95, js "ls" ++ [13%N; 10%N] ++ js "welcome $ ")]%Z Hr) as [H1 H2].
  split; [apply H2; vm_compute; reflexivity|]. rewrite H1. vm_compute. reflexivity.
Defined.

Lemma closed_terminal_silent_witness :
  exists new, (steps [(2000, AuthAnswer 0 []); (2100, SizeChange)]%Z (onClose (steps sample_events initial_terminal))).(log) =
      (steps sample_events initial_terminal).(log) ++ new /\ Forall (calm None) new.
Proof.
  refine (proj2 (closed_terminal_silent id id sample_href (js "local") 0 sample_events _ 2000
                   [(2000, AuthAnswer 0 []); (2100, SizeChange)]%Z _ sample_runs _ _)).
  - unfold steps. cbn [foldl fst snd]. run_steps.
  - by repeat constructor.
Defined.

(** Each message is decoded alone, here by the decoder of the platform: the two bytes of the
    letter e with an acute accent are shown as that letter when they come in one message, and
    as two replacement characters when they come in two. *)
Definition platform_decode (s : jsstr) : jsstr := default [] (text_decode <$> atob s).

Lemma cut_character_lost :
  let t := set_ready true initial_terminal in
  let show := fun ds => written (receive_all platform_decode ds t).(log) in
  show [(1, btoa [195; 169]%N)]%Z = [233%N] /\
  show [(1, btoa [195%N]); (2, btoa [169%N])]%Z = [65533; 65533]%N.
Proof. vm_compute. split; reflexivity. Qed.
