(* ===== verification/Reconnect.v ===== *)
(** * How a terminal stays connected

    A terminal of src/frontend/src/components/terminal/index.vue between the call of
    acceptParams that gives it its parameters and the end of its page.  Its variables,
    sockets and timers implement a machine of five phases; from it follow that the first
    command is sent once, and how often a lost connection is tried again. *)

From S2P Require Import Prelude JsString Uri Terminal.

(** ** The phases *)

Inductive phase :=
| Authenticating                      (** checkStreamAuth is awaited *)
| Linked (s : N)                      (** the socket [s] is connecting or open *)
| Waiting (i : N) (due : Z)           (** the timer [i] will connect again *)
| Ended (taken : bool)                (** the session is over, or taken by another page *)
| Closed.                             (** the page has closed the terminal *)

#[global] Instance phase_eq_dec : EqDecision phase.
Proof. solve_decision. Defined.

Definition phase_socket (p : phase) : option N := match p with Linked s => Some s | _ => None end.
Definition phase_timer (p : phase) : option N := match p with Waiting i _ => Some i | _ => None end.
Definition phase_due (p : phase) (i : N) : option Z :=
  match p with Waiting j due => if decide (i = j) then Some due else None | _ => None end.

(** Identities are not used before they are given. *)
Definition fresh_ids (t : Terminal) : Prop :=
  forall i, (next t <= i)%N -> state_of t i = None /\ waits t i = None.

(** The one thing that is going on, and nothing else. *)
Record phase_ok (t : Terminal) (p : phase) : Prop := {
  ok_ready : t.(termReady) = true; ok_open : t.(retry).(closing) = false; ok_fresh : fresh_ids t;
  ok_socket : t.(link).(terminalSocket) = phase_socket p;
  ok_state s r : state_of t s = Some r -> r = CLOSED \/ phase_socket p = Some s /\ r <> CLOSING;
  ok_live s : phase_socket p = Some s -> exists r, state_of t s = Some r /\ r <> CLOSED;
  ok_auths : match p with
             | Authenticating => exists c, t.(link).(auths) = [{| a_token := t.(link).(initWebSocketToken); a_conn := c |}]
             | _ => t.(link).(auths) = []
             end;
  ok_waits i : waits t i = phase_due p i;
  ok_timer : t.(retry).(reconnectTimer) = phase_timer p;
  ok_session : match p with
               | Waiting _ _ => t.(link).(sessionId) <> []
               | Ended false => t.(link).(sessionId) = [] \/ encodeURIComponent t.(link).(sessionId) = None
               | _ => True
               end
}.

Definition in_phase (t : Terminal) (p : phase) : Prop := match p with Closed => stopped t | _ => phase_ok t p end.

(** Events that leave a phase as it is *)
Definition stays (e : Event) (p : phase) : Prop :=
  match e, p with
  | OnClose, _ => p = Closed
  | AuthAnswer n _, Authenticating => n <> 0
  | SocketClose s _ _, Linked s' => s <> s'
  | Fire Reconnect i _ _ _, Waiting j _ => i <> j
  | Accept _ _ _ _, _ => False
  | _, _ => True
  end.

(** The machine of the phases, under the session known when the event comes. *)
Inductive phase_step (session : jsstr) : Event -> phase -> phase -> Prop :=
| ph_answered s : phase_step session (AuthAnswer 0 []) Authenticating (Linked s)
| ph_refused err : err <> [] -> phase_step session (AuthAnswer 0 err) Authenticating (Ended false)
| ph_over s code reason : session = [] \/ code = 1000%N \/ code = CLOSE_SESSION_NOT_FOUND ->
    phase_step session (SocketClose s code reason) (Linked s) (Ended false)
| ph_taken s reason : session <> [] ->
    phase_step session (SocketClose s CLOSE_ATTACHED_ELSEWHERE reason) (Linked s) (Ended true)
| ph_lost s code reason p : session <> [] -> code <> 1000%N -> code <> CLOSE_SESSION_NOT_FOUND ->
    code <> CLOSE_ATTACHED_ELSEWHERE -> (exists i due, p = Waiting i due) \/ p = Ended false ->
    phase_step session (SocketClose s code reason) (Linked s) p
| ph_retry i due size cols rows : encodeURIComponent session <> None ->
    phase_step session (Fire Reconnect i size cols rows) (Waiting i due) Authenticating
| ph_unencodable i due size cols rows : encodeURIComponent session = None ->
    phase_step session (Fire Reconnect i size cols rows) (Waiting i due) (Ended false)
| ph_closed p : phase_step session OnClose p Closed
| ph_stay e p : stays e p -> phase_step session e p p.

(** ** Single operations *)

Lemma phase_ext t t' p : retry t' = retry t -> conn t' = conn t -> t'.(browser).(sockets) = t.(browser).(sockets) ->
  (forall i, waits t' i = waits t i) -> (next t <= next t')%N -> t'.(termReady) = t.(termReady) ->
  phase_ok t p -> phase_ok t' p.
Proof.
  intros Er (Es & Et & Ea & Ei)%conn_parts Eo Ew En Erd []. unfold state_of in *.
  split; unfold state_of; rewrite ?Er, ?Es, ?Et, ?Ea, ?Ei, ?Eo, ?Erd; try done; [|by intros i; rewrite Ew].
  intros i Hi. unfold state_of. rewrite Eo, Ew. apply ok_fresh0. lia.
Qed.

Lemma phase_frame t t' p : frame t t' -> phase_ok t p -> phase_ok t' p.
Proof. intros []. by apply phase_ext. Qed.

Lemma phase_does e t p : phase_ok t p -> phase_ok (does e t) p.
Proof. by apply phase_ext. Qed.

Lemma phase_heartbeat i t p : phase_ok t p -> phase_ok (set_heartbeat i t) p.
Proof. by apply phase_ext. Qed.

(** The connection is refused. *)
Lemma phase_refused t p a : phase_ok t p -> phase_timer p = None -> phase_socket p = None ->
  (forall i, phase_due p i = None) -> a = [] ->
  phase_ok (set_session [] (set_revalidating false (set_reconnecting false (set_auths a t)))) (Ended false).
Proof.
  intros [] Ht Hs Hw ->. split; try done; cbn.
  - by rewrite ok_socket0.
  - intros s r Hr. destruct (ok_state0 s r Hr) as [->|[Hq _]]; [by left|congruence].
  - intros i. exact (eq_trans (ok_waits0 i) (Hw i)).
  - by rewrite ok_timer0.
  - by left.
Qed.

(** It is granted: the next identity becomes a connecting socket. *)
Lemma phase_granted t url : phase_ok t Authenticating ->
  phase_ok (set_socket (Some (next t)) (new_socket url (set_auths [] t))) (Linked (next t)).
Proof.
  intros []. split; try done; cbn.
  - intros i Hi. unfold next in Hi. cbn in Hi. destruct (ok_fresh0 i ltac:(unfold next; lia)) as [Hs Hw].
    split; [|exact Hw]. unfold state_of. cbn. by rewrite lookup_insert_ne by lia.
  - intros s r. unfold state_of, next. cbn. destruct (decide (s = next_id (browser t))) as [->|Hne].
    + rewrite lookup_insert_eq. intros [= <-]. by right.
    + rewrite lookup_insert_ne by done. intros Hr. destruct (ok_state0 s r Hr) as [->|[Hq _]]; [by left|done].
  - intros s [= <-]. exists CONNECTING. unfold state_of. cbn. by rewrite lookup_insert_eq.
Qed.

Lemma resume_auth_phase now n err t : phase_ok t Authenticating ->
  (n <> 0 -> phase_ok (resume_auth now n err t) Authenticating) /\
  (n = 0 -> err <> [] -> phase_ok (resume_auth now n err t) (Ended false)) /\
  (n = 0 -> err = [] -> phase_ok (resume_auth now n err t) (Linked (next t))).
Proof.
  intros Hp. destruct (ok_auths _ _ Hp) as (c & Ha). unfold resume_auth. rewrite Ha.
  split; [intros Hn; by destruct n|]. split; intros -> He.
  - cbn [lookup list_lookup take drop app]. cbv zeta. cbn [set_auths on_link link initWebSocketToken termReady a_token].
    rewrite Z.eqb_refl, (ok_ready _ _ Hp). cbn [negb orb]. rewrite (proj2 (truthy_true err)) by done.
    apply phase_does. unfold showWebSocketAuthError. do 2 apply phase_does.
    eapply phase_frame; [apply clearAINotice_frame|]. by eapply phase_refused.
  - cbn [lookup list_lookup take drop app]. cbv zeta. set (u := set_auths [] t).
    change (initWebSocketToken (link u)) with (initWebSocketToken (link t)). change (termReady u) with (termReady t).
    cbn [a_token]. rewrite Z.eqb_refl, (ok_ready _ _ Hp), He. cbn [negb orb truthy].
    eapply phase_frame; [by apply set_timer_frame|]. apply phase_heartbeat.
    set (h := heartbeatTimer (link u)).
    replace (clear_some Heartbeat h u) with (set_auths [] (clear_some Heartbeat h t)) by by rewrite !clear_some_eq.
    replace (next t) with (next (clear_some Heartbeat h t)) by by rewrite clear_some_eq.
    change (next (set_auths [] (clear_some Heartbeat h t))) with (next (clear_some Heartbeat h t)).
    apply phase_granted. eapply phase_frame; [by apply clear_frame|done].
Qed.

Lemma conn_url_none href node cols rows ep ar session rv :
  conn_url href node cols rows ep ar session rv = None <-> encodeURIComponent session = None.
Proof.
  unfold conn_url. cbv zeta. destruct session as [|c session]; cbn [truthy]; [done|].
  by destruct (encodeURIComponent (c :: session)).
Qed.

Lemma init_phase href node cols rows ep ar t : phase_ok t (Ended true) ->
  phase_ok (initWebSocket href node cols rows ep ar t)
    (if decide (encodeURIComponent t.(link).(sessionId) = None) then Ended false else Authenticating).
Proof.
  intros []. destruct (initWebSocket_eq href node cols rows ep ar t) as (_ & Er & (Es & Et & Ea & Ei)%conn_inv & Eb & _ & Erd).
  assert (Hw : forall i, waits (initWebSocket href node cols rows ep ar t) i = None) by (intros i; unfold waits; rewrite Eb; apply ok_waits0).
  assert (Hf : fresh_ids (initWebSocket href node cols rows ep ar t)).
  { intros i Hi. unfold state_of, waits, next in *. rewrite Eb in *. by apply ok_fresh0. }
  case_decide as He; split; unfold state_of in *; rewrite ?Erd, ?Er, ?Es, ?Et, ?Ea, ?Ei, ?Eb; try done.
  - rewrite ok_auths0. by rewrite (proj2 (conn_url_none _ _ _ _ _ _ _ _) He).
  - by right.
  - rewrite ok_auths0. destruct (conn_url _ _ _ _ _ _ _ _) as [c|] eqn:Ec; [by exists c|]. by apply conn_url_none in Ec.
Qed.

(** The timer of a reconnection is taken out. *)
Lemma phase_woken i due t : phase_ok t (Waiting i due) ->
  phase_ok (set_retry_timer None (clear_timer Reconnect i t)) (Ended true).
Proof.
  intros []. split; try done; cbn.
  - intros j Hj. destruct (ok_fresh0 j Hj) as [Hs Hw]. split; [done|]. unfold waits in *. cbn.
    destruct (decide (i = j)) as [->|Hne]; [by rewrite lookup_delete_eq|]. rewrite lookup_delete_ne; [done|congruence].
  - intros j. unfold waits. cbn. destruct (decide (i = j)) as [->|Hne]; [by rewrite lookup_delete_eq|].
    rewrite lookup_delete_ne by congruence. etrans; [exact (ok_waits0 j)|]. cbn. rewrite decide_False; [done|congruence].
Qed.

Lemma fire_phase href node now i due size cols rows t : phase_ok t (Waiting i due) ->
  phase_ok (fire href node now Reconnect i size cols rows t)
    (if decide (encodeURIComponent t.(link).(sessionId) = None) then Ended false else Authenticating).
Proof.
  intros Hp. pose proof (phase_woken _ _ _ Hp) as Hw. cbn [fire]. cbv zeta.
  set (v := set_retry_timer None _) in *. assert (sessionId (link v) = sessionId (link t)) as Hv by done.
  rewrite (ok_open _ _ Hw), (proj2 (truthy_true (sessionId (link v)))) by (rewrite Hv; apply (ok_session _ _ Hp)).
  cbn [negb orb]. rewrite <- Hv. by apply init_phase.
Qed.

(** The socket has closed. *)
Lemma phase_detached s t : phase_ok t (Linked s) -> phase_ok (set_socket None (detach (set_state s CLOSED t))) (Ended true).
Proof.
  intros Hp. assert (phase_ok (set_socket None (set_state s CLOSED t)) (Ended true)) as Hu.
  { destruct Hp. split; try done; cbn.
    - intros j Hj. destruct (ok_fresh0 j Hj) as [Hs Hw]. split; [|done]. unfold state_of. cbn.
      destruct (decide (s = j)) as [->|Hne]; [|by rewrite lookup_insert_ne].
      destruct (ok_live0 j eq_refl) as (r & Hr & _). by rewrite Hs in Hr.
    - intros j r. unfold state_of. cbn. destruct (decide (s = j)) as [->|Hne].
      + rewrite lookup_insert_eq. intros [= <-]. by left.
      + rewrite lookup_insert_ne by done. intros Hr. destruct (ok_state0 j r Hr) as [->|[[= ->] _]]; [by left|done]. }
  assert (set_socket None (detach (set_state s CLOSED t)) = detach (set_socket None (set_state s CLOSED t))) as ->
    by (unfold detach, clearAINotice; cbv zeta; by rewrite !clear_some_eq).
  eapply phase_frame; [apply detach_frame|done].
Qed.

Lemma schedule_phase now rv t : phase_ok t (Ended true) -> t.(link).(sessionId) <> [] ->
  phase_ok (scheduleReconnect now rv t)
    (if gives_up now t then Ended false else Waiting (next t) (now + if rv then 0 else delay t)).
Proof.
  intros Hp Hs. destruct (gives_up now t) eqn:Hg.
  - rewrite scheduleReconnect_gives_up by done. apply phase_does, phase_does. destruct Hp. split; try done. by left.
  - destruct (scheduleReconnect_goes_on now rv t Hg) as (_ & (Es & Et & Ea & Ei)%conn_parts & Eo & Erd & (sh & Er) & Ew & En & _).
    destruct Hp. unfold state_of in *.
    split; unfold state_of; rewrite ?Er, ?Es, ?Et, ?Ea, ?Ei, ?Eo, ?Erd; try done; cbn [closing reconnectTimer phase_timer phase_due].
    + intros i Hi. rewrite En in Hi. unfold state_of. rewrite Eo, Ew. rewrite decide_False by lia. apply ok_fresh0. lia.
    + intros i. rewrite Ew. case_decide; [done|]. apply ok_waits0.
Qed.

#[local] Opaque scheduleReconnect.

(** How the reconnections go on after a close, which may be one for a revalidation *)
Definition goes_on (rv : bool) (now : Z) (t t' : Terminal) (due : Z) : Prop :=
  gives_up now t = false /\ due = (now + if rv then 0 else delay t)%Z /\ t'.(retry).(reconnecting) = true /\
  t'.(retry).(reconnectStartedAt) = started now t /\
  t'.(retry).(reconnectDelay) = if rv then delay t else Z.min (delay t * 2) 8000.

Lemma close_phase now s code reason t : phase_ok t (Linked s) ->
  exists p, phase_step t.(link).(sessionId) (SocketClose s code reason) (Linked s) p /\
            phase_ok (closeRealTerminal now code reason (set_state s CLOSED t)) p /\
            (forall i due, p = Waiting i due ->
               goes_on (code =? CLOSE_REVALIDATE)%N now t (closeRealTerminal now code reason (set_state s CLOSED t)) due).
Proof.
  intros Hp. rewrite close_parts. cbv zeta. pose proof (phase_detached s t Hp) as Hu.
  set (u := set_socket None _) in *. assert (sessionId (link u) = sessionId (link t) /\ retry u = retry t) as [Hid Hrt].
  { unfold u. destruct (detach_frame (set_state s CLOSED t)) as [_ Hr (_ & _ & _ & Hi)%conn_parts _ _ _ _ _]. by split. }
  assert (Hgo : forall rv t' due, goes_on rv now u t' due -> goes_on rv now t t' due)
    by (intros rv t' due; unfold goes_on, gives_up, delay, started; by rewrite Hrt).
  rewrite <- Hid. clearbody u. clear Hid Hp Hrt. rewrite (ok_open _ _ Hu). cbn [orb].
  destruct (truthy (sessionId (link u))) eqn:Et; cbn [negb].
  2: { apply truthy_false in Et. exists (Ended false). split; [constructor; by left|]. split; [|done].
       apply phase_does, phase_does. destruct Hu. split; try done. by left. }
  apply truthy_true in Et. case_step.
  { exists (Ended false). split; [constructor; right; rewrite orb_true_iff, !N.eqb_eq in *; done|]. split; [|done].
    apply phase_does, phase_does. destruct Hu. split; try done. by left. }
  destruct (N.eqb_spec code CLOSE_ATTACHED_ELSEWHERE) as [->|Ha].
  { exists (Ended true). split; [by constructor|]. split; [|done]. apply phase_does. destruct Hu. by split. }
  rewrite orb_false_iff, !N.eqb_neq in *.
  assert (Hsch : forall rv v, phase_ok v (Ended true) -> sessionId (link v) = sessionId (link u) ->
    exists p, phase_step (sessionId (link u)) (SocketClose s code reason) (Linked s) p /\ phase_ok (scheduleReconnect now rv v) p /\
      (forall i due, p = Waiting i due -> goes_on rv now v (scheduleReconnect now rv v) due)).
  { intros rv v Hv Hi. eexists. split; [|split; [apply schedule_phase; [done|congruence]|]].
    - constructor; try (by destruct_and?); [by intros ->; destruct_and?..|]. case_step; [by right|left; eauto].
    - intros i due E. destruct (gives_up now v) eqn:Hg; [done|]. injection E as <- <-.
      destruct (scheduleReconnect_goes_on now rv v Hg) as (_ & _ & _ & _ & (sh & Er) & _).
      split; [done|]. split; [done|]. by rewrite Er. }
  destruct (N.eqb_spec code CLOSE_REVALIDATE) as [->|Hv].
  - destruct (Hsch true (set_revalidating true u)) as (p & H1 & H2 & H3); [by destruct Hu|done|]. exists p. split; [done|]. split; [done|].
    intros i due E. eapply Hgo. exact (H3 i due E).
  - destruct (Hsch false u Hu eq_refl) as (p & H1 & H2 & H3). exists p. split; [done|]. split; [done|].
    intros i due E. by eapply Hgo, H3.
Qed.

(** ** Whole runs *)

Section Runs.
Context (encodeBase64 decodeBase64 : jsstr -> jsstr) (href currentNode : jsstr).
Abbreviation handle := (Terminal.handle encodeBase64 decodeBase64 href currentNode).
Abbreviation runs := (Terminal.runs encodeBase64 decodeBase64 href currentNode).

(** The socket an event of a socket comes from is the linked one. *)
Lemma phase_from t p s : phase_ok t p -> is_Some (state_of t s) -> state_of t s <> Some CLOSED -> phase_socket p = Some s.
Proof. intros Hp [r Hr] Hn. destruct (ok_state _ _ Hp s r Hr) as [->|[H _]]; done. Qed.

Lemma phase_linked p s : phase_socket p = Some s -> p = Linked s.
Proof. by destruct p; cbn; intros [=]; subst. Qed.

Lemma open_phase now s t p : phase_ok t p -> state_of t s = Some CONNECTING ->
  phase_ok (runRealTerminal encodeBase64 now (set_state s OPEN t)) p.
Proof.
  intros Hp Hs. assert (phase_socket p = Some s) as Hl%phase_linked by (eapply phase_from; [done|by rewrite Hs..]). subst p.
  assert (phase_ok (set_state s OPEN t) (Linked s)) as Hu.
  { destruct Hp. split; try done.
    - intros j Hj. destruct (ok_fresh0 j Hj) as [Hn Hw]. split; [|done]. unfold state_of in *. cbn.
      destruct (decide (s = j)) as [->|Hne]; [by rewrite Hs in Hn|by rewrite lookup_insert_ne].
    - intros j r. unfold state_of. cbn. destruct (decide (s = j)) as [->|Hne].
      + rewrite lookup_insert_eq. intros [= <-]. by right.
      + rewrite lookup_insert_ne by done. apply ok_state0.
    - intros j [= <-]. exists OPEN. unfold state_of. cbn. by rewrite lookup_insert_eq. }
  unfold runRealTerminal. cbv zeta. set (v := changeTerminalSize _ _).
  assert (phase_ok v (Linked s)) as Hv.
  { eapply phase_frame; [apply changeTerminalSize_frame|]. eapply phase_frame; [apply wsReady_frame|done]. }
  clearbody v. case_step; [|done]. eapply phase_frame; [apply send_frame|]. by apply (phase_ext v).
Qed.

Lemma message_phase now s m t p : phase_ok t p -> state_of t s = Some OPEN -> phase_ok (onWSReceive decodeBase64 now m t) p.
Proof.
  intros Hp Hs. assert (phase_socket p = Some s) as Hl%phase_linked by (eapply phase_from; [done|by rewrite Hs..]). subst p.
  destruct m as [data|ts|id|l message|]; cbn [onWSReceive].
  - case_step; [|done]. destruct (receive_cmd _ _) as [w o]. case_step; by apply (phase_ext t).
  - by apply (phase_ext t).
  - set (u := set_session _ _). assert (phase_ok u (Linked s)) as Hu by by destruct Hp. apply phase_does. case_step; [by apply phase_does|done].
  - case_step; [|done]. eapply phase_frame; [apply showAINotice_frame|done].
  - done.
Qed.

Lemma other_answer now n err t p : phase_ok t p -> p <> Authenticating -> p <> Closed -> resume_auth now n err t = t.
Proof. intros Hp H1 H2. unfold resume_auth. pose proof (ok_auths _ _ Hp) as Ha. destruct p; try done; by rewrite Ha. Qed.

(** Every step of the terminal is a step of the machine. *)
Lemma phase_step_ok now e t p : in_phase t p -> possible now e t -> mounts e = false ->
  exists p', phase_step t.(link).(sessionId) e p p' /\ in_phase (handle now e t) p'.
Proof.
  intros Hp He Hm. destruct (decide (p = Closed)) as [->|Hc].
  { exists Closed. split; [apply ph_stay; destruct e as [| | | | | | |k| | |]; try done; by destruct k|]. apply (stopped_step _ _ _ _ now); [by intros ? ? ? ? ->|done]. }
  assert (phase_ok t p) as Hok by by destruct p. clear Hp.
  assert (Hstay : forall t', phase_ok t' p -> in_phase t' p) by by destruct p.
  assert (Hfr : forall t', frame t t' -> stays e p -> exists p', phase_step t.(link).(sessionId) e p p' /\ in_phase t' p').
  { intros t' Hf Hs. exists p. split; [by apply ph_stay|]. by eapply Hstay, phase_frame. }
  destruct e as [pr el c r| |n err|s|s m|s m|s code reason|k i size c r|data b| |data]; cbn [Terminal.handle]; [done|..].
  - exists Closed. split; [apply ph_closed|]. apply onClose_stopped. unfold tokens_ok. pose proof (ok_auths _ _ Hok) as Ha.
    destruct p; try (rewrite Ha; by constructor). destruct Ha as (x & ->). constructor; [cbn; lia|by constructor].
  - destruct (decide (p = Authenticating)) as [->|Ha].
    + destruct (resume_auth_phase now n err t Hok) as (R1 & R2 & R3). destruct (decide (n = 0)) as [->|Hn].
      * destruct (decide (err = [])) as [->|Hne].
        -- exists (Linked (next t)). split; [apply ph_answered|by apply R3].
        -- exists (Ended false). split; [by apply ph_refused|by apply R2].
      * exists Authenticating. split; [by apply ph_stay|by apply R1].
    + rewrite (other_answer now n err t p Hok Ha Hc). apply Hfr; [apply frame_refl|]. by destruct p.
  - exists p. split; [by apply ph_stay; destruct p|]. by apply Hstay, open_phase.
  - exists p. split; [by apply ph_stay; destruct p|]. apply Hstay. by eapply message_phase.
  - apply Hfr; [apply errorRealTerminal_frame|by destruct p].
  - destruct He as [He1 He2]. pose proof (phase_from t p s Hok He1 He2) as ->%phase_linked.
    destruct (close_phase now s code reason t Hok) as (p' & Hs & Hp' & _). exists p'. split; [done|].
    destruct p'; try done. inversion Hs; naive_solver.
  - destruct (decide (k = Reconnect)) as [->|Hk].
    + destruct He as (due & Hd & _). pose proof (ok_waits _ _ Hok i) as Hw. unfold waits in Hw. rewrite Hd in Hw.
      destruct p as [| |j d| |]; try done. cbn in Hw. case_decide as Hij; [|done]. subst j. injection Hw as <-.
      pose proof (fire_phase href currentNode now i due size c r t Hok) as Hf.
      case_decide; [exists (Ended false)|exists Authenticating]; (split; [|exact Hf]); [by apply ph_unencodable|by apply ph_retry].
    + apply Hfr; [by apply fire_frame|]. by destruct k.
  - apply Hfr; [apply onTermData_frame|by destruct p].
  - apply Hfr; [apply changeTerminalSize_frame|by destruct p].
  - apply Hfr; [apply send_frame|by destruct p].
Qed.
End Runs.

(** ** What steps leave alone *)

Lemma created_app l l' : created (l ++ l') = created l ++ created l'.
Proof. unfold created. apply omap_app. Qed.

Lemma calm_created open es : Forall (calm open) es -> created es = [].
Proof. induction 1 as [|[] es He _ IH]; try done. Qed.

Lemma created_calm open (t t' : Terminal) :
  (exists es, t'.(log) = t.(log) ++ es /\ Forall (calm open) es) -> created t'.(log) = created t.(log).
Proof. intros (es & -> & Hc). rewrite created_app, (calm_created _ _ Hc). apply app_nil_r. Qed.

Lemma created_frame t t' : frame t t' -> created t'.(log) = created t.(log).
Proof. intros []. by eapply created_calm. Qed.

Lemma created_does e t : (forall s u, e <> NewSocket s u) -> created (does e t).(log) = created t.(log).
Proof. intros He. unfold does. cbn [log]. rewrite created_app. destruct e as [x| |s m|s u|x|x|]; try apply app_nil_r. destruct (He s u eq_refl). Qed.

Lemma created_schedule now rv t : created (scheduleReconnect now rv t).(log) = created t.(log).
Proof.
  destruct (gives_up now t) eqn:Hg; [rewrite scheduleReconnect_gives_up by done; unfold writeNotice; by rewrite !created_does|].
  destruct (scheduleReconnect_goes_on now rv t Hg) as (_ & _ & _ & _ & _ & _ & _ & H). by eapply created_calm.
Qed.

Lemma created_close now code reason t : created (closeRealTerminal now code reason t).(log) = created t.(log).
Proof.
  rewrite close_parts. cbv zeta. rewrite <- (created_frame _ _ (detach_frame t)).
  change (log (detach t)) with (log (set_socket None (detach t))). set (u := set_socket None _). clearbody u.
  unfold writeNotice. repeat (case_step; [by rewrite !created_does|]). case_step; by rewrite created_schedule.
Qed.

Section Steps.
Context (encodeBase64 decodeBase64 : jsstr -> jsstr) (href currentNode : jsstr).
Abbreviation handle := (Terminal.handle encodeBase64 decodeBase64 href currentNode).
Abbreviation runs := (Terminal.runs encodeBase64 decodeBase64 href currentNode).

Lemma created_step now e t : mounts e = false -> (forall n err, e <> AuthAnswer n err) ->
  created (handle now e t).(log) = created t.(log).
Proof.
  intros Hm Ha. destruct e as [pr el c r| |n err|s|s m|s m|s code reason|k i size c r|data b| |data]; cbn [Terminal.handle].
  - done.
  - by destruct (onClose_eq t) as (_ & _ & _ & _ & _ & _ & _ & ->).
  - by destruct (Ha n err).
  - unfold runRealTerminal. cbv zeta. set (v := changeTerminalSize _ _). assert (created (log v) = created (log t)) as <-
      by (unfold v; by rewrite (created_frame _ _ (changeTerminalSize_frame now _))).
    clearbody v. case_step; [|done]. unfold sendMsg. by rewrite (created_frame _ _ (send_frame _ _)).
  - destruct m; cbn [onWSReceive]; try done.
    + case_step; [|done]. destruct (receive_cmd _ _). case_step; [|done]. by rewrite created_does.
    + rewrite created_does by done. case_step; [by rewrite created_does|done].
    + case_step; [|done]. apply created_frame, showAINotice_frame.
  - apply created_frame, errorRealTerminal_frame.
  - by rewrite created_close.
  - destruct (decide (k = Reconnect)) as [->|Hk]; [|by apply created_frame, fire_frame].
    cbn [fire]. cbv zeta. case_step; [done|].
    by match goal with |- context [initWebSocket ?h ?n ?c ?r ?e ?a ?t] =>
         destruct (initWebSocket_eq h n c r e a t) as (_ & _ & _ & _ & -> & _) end.
  - apply created_frame, onTermData_frame.
  - apply created_frame, changeTerminalSize_frame.
  - apply created_frame, send_frame.
Qed.

Lemma created_answer now n err t :
  created (resume_auth now n err t).(log) = created t.(log) \/
  created (resume_auth now n err t).(log) = created t.(log) ++ [next t] /\ err = [].
Proof.
  unfold resume_auth. destruct (auths (link t) !! n) as [a|]; [|by left]. cbv zeta. set (u := set_auths _ t).
  case_step; [by left|]. destruct (truthy err) eqn:He.
  - left. rewrite created_does by done. unfold showWebSocketAuthError. rewrite !created_does by done.
    by rewrite (created_frame _ _ (clearAINotice_frame _)).
  - right. apply truthy_false in He. split; [|done]. rewrite (created_frame _ _ (set_timer_frame Heartbeat _ _ ltac:(done))).
    rewrite clear_some_eq. cbn. by rewrite created_app.
Qed.

(** A socket is granted. *)
Lemma resume_granted now t : phase_ok t Authenticating ->
  let t' := resume_auth now 0 [] t in
  created t'.(log) = created t.(log) ++ [next t] /\ t'.(link).(sessionId) = t.(link).(sessionId) /\
  t'.(output) = t.(output) /\ t'.(retry) = t.(retry).
Proof.
  intros Hp. destruct (ok_auths _ _ Hp) as (c & Ha). cbv zeta. unfold resume_auth. rewrite Ha.
  cbn [lookup list_lookup take drop app]. cbv zeta. set (u := set_auths [] t).
  change (initWebSocketToken (link u)) with (initWebSocketToken (link t)). change (termReady u) with (termReady t).
  cbn [a_token]. rewrite Z.eqb_refl, (ok_ready _ _ Hp). cbn [negb orb truthy]. rewrite clear_some_eq. cbn.
  by rewrite created_app.
Qed.

(** What can happen without a change of phase *)
Lemma stays_cases now e t p : phase_ok t p -> p <> Closed -> possible now e t -> mounts e = false -> stays e p ->
  frame t (handle now e t) \/
  (exists s, e = SocketOpen s /\ p = Linked s /\ state_of t s = Some CONNECTING) \/
  (exists s m, e = SocketMessage s m /\ p = Linked s /\ state_of t s = Some OPEN).
Proof.
  intros Hok Hc He Hm Hs. destruct e as [pr el c r| |n err|s|s m|s m|s code reason|k i size c r|data b| |data]; cbn [Terminal.handle].
  - done.
  - by cbn in Hs.
  - left. destruct (decide (p = Authenticating)) as [->|Ha].
    + unfold resume_auth. destruct (ok_auths _ _ Hok) as (c & ->). cbn in Hs. destruct n; [done|apply frame_refl].
    + rewrite (other_answer now n err t p Hok Ha Hc). apply frame_refl.
  - right; left. cbn in He. assert (phase_socket p = Some s) as ->%phase_linked by (eapply phase_from; [done|by rewrite He..]). eauto.
  - right; right. cbn in He. assert (phase_socket p = Some s) as ->%phase_linked by (eapply phase_from; [done|by rewrite He..]). eauto.
  - left. apply errorRealTerminal_frame.
  - exfalso. destruct He as [He1 He2]. pose proof (phase_from t p s Hok He1 He2) as ->%phase_linked. by cbn in Hs.
  - destruct (decide (k = Reconnect)) as [->|Hk]; [|by left; apply fire_frame].
    exfalso. destruct He as (due & Hd & _). pose proof (ok_waits _ _ Hok i) as Hw. unfold waits in Hw. rewrite Hd in Hw.
    destruct p as [| |j d| |]; try done. cbn in Hw, Hs. by rewrite decide_False in Hw.
  - left. apply onTermData_frame.
  - left. apply changeTerminalSize_frame.
  - left. apply send_frame.
Qed.

Lemma open_parts now s t :
  let t' := runRealTerminal encodeBase64 now (set_state s OPEN t) in
  t'.(browser).(sockets) = <[s := OPEN]> t.(browser).(sockets) /\ t'.(retry) = t.(retry).
Proof.
  cbv zeta. unfold runRealTerminal. cbv zeta. set (v := changeTerminalSize _ _).
  assert (sockets (browser v) = <[s := OPEN]> (sockets (browser t)) /\ retry v = retry t) as [<- <-].
  { destruct (changeTerminalSize_frame now (set_wsReady true (set_state s OPEN t))) as [_ Hr _ Hs _ _ _ _]. by split. }
  clearbody v. case_step; [|done].
  match goal with |- context [sendMsg ?e ?d ?l ?u] => destruct (send_frame (CmdMessage (e d) l) u) as [_ Hr _ Hs _ _ _ _] end.
  by split.
Qed.

Lemma message_parts now m t :
  let t' := onWSReceive decodeBase64 now m t in
  t'.(browser).(sockets) = t.(browser).(sockets) /\ ((forall id, m <> ServerSession id) -> t'.(retry) = t.(retry)).
Proof.
  cbv zeta. destruct m as [data|ts|id|l message|]; cbn [onWSReceive]; try done.
  - case_step; [|done]. destruct (receive_cmd _ _). by case_step.
  - split; [by case_step|]. intros H. by destruct (H id).
  - case_step; [|done]. by match goal with |- context [showAINotice ?a ?b ?c ?d] => destruct (showAINotice_frame a b c d) end.
Qed.
End Steps.

(** ** Theorems *)

Section Theorems.
Context (encodeBase64 decodeBase64 : jsstr -> jsstr) (href currentNode : jsstr).
Abbreviation handle := (Terminal.handle encodeBase64 decodeBase64 href currentNode).
Abbreviation runs := (Terminal.runs encodeBase64 decodeBase64 href currentNode).

(** A terminal that was given its parameters, once *)
Context (props : WsProps) (cols rows : N) (Herr : props.(error) = []).
Definition mounted : Terminal := acceptParams href currentNode props true cols rows initial_terminal.
Definition first_phase : phase :=
  if decide (encodeURIComponent props.(p_sessionId) = None) then Ended false else Authenticating.

Lemma mounted_phase : phase_ok mounted first_phase.
Proof.
  unfold mounted, acceptParams. rewrite Herr. cbv zeta. cbn [truthy]. set (u := initTerminal true _).
  assert (phase_ok u (Ended true)) as Hu by by split.
  change (termReady u) with true. cbv iota. unfold first_phase. change (p_sessionId props) with (sessionId (link u)).
  by apply init_phase.
Qed.

Inductive phase_runs : list Event -> phase -> phase -> Prop :=
| pr_nil p : phase_runs [] p p
| pr_cons session e es p q r : phase_step session e p q -> phase_runs es q r -> phase_runs (e :: es) p r.

Definition no_mount (es : list (Z * Event)) : Prop := Forall (fun e => mounts e.2 = false) es.

Lemma phase_runs_ok now t es t' p : runs now t es t' -> in_phase t p -> no_mount es ->
  exists p', phase_runs (snd <$> es) p p' /\ in_phase t' p'.
Proof.
  intros Hr. revert p. induction Hr as [now t|now later e es t t' _ He _ IH]; intros p Hp Hm; [exists p; by split; [constructor|]|].
  apply list.Forall_cons in Hm as [Hm Hms].
  destruct (phase_step_ok encodeBase64 decodeBase64 href currentNode later e t p Hp He Hm) as (q & Hs & Hq). destruct (IH q Hq Hms) as (r & Hrs & Hr').
  exists r. split; [|done]. by eapply pr_cons.
Qed.

(** C13. The terminal implements the machine of its phases: whatever comes, it is asking for its
    connection, linked by one socket, waiting to connect again, at the end of its session,
    or closed; in every phase but the last it has no other socket, request and timer. *)
Theorem terminal_refines_phases now es t : runs now mounted es t -> no_mount es ->
  exists p, phase_runs (snd <$> es) first_phase p /\ in_phase t p.
Proof.
  intros Hr Hm. eapply phase_runs_ok; [done| |done]. pose proof mounted_phase as H. unfold first_phase in *. by case_decide.
Qed.

(** *** The first command *)

Definition first (t : Terminal) : Prop :=
  t.(link).(sessionId) = props.(p_sessionId) /\ t.(output).(initCmd) = props.(p_initCmd).

(** Before the first socket opens the parameters are untouched; a later socket belongs to a
    known session. *)
Definition opening (t : Terminal) (p : phase) : Prop :=
  match p with
  | Authenticating => if decide (created t.(log) = []) then first t else t.(link).(sessionId) <> []
  | Linked s => created t.(log) <> [] /\
      (state_of t s = Some CONNECTING -> if decide (created t.(log) = [s]) then first t else t.(link).(sessionId) <> [])
  | Waiting _ _ => created t.(log) <> []
  | _ => True
  end.

Lemma opening_frame t t' p : frame t t' -> opening t p -> opening t' p.
Proof.
  intros Hf. destruct (Hf) as [Ho _ (_ & _ & _ & Hi)%conn_parts Hs _ _ _ _]. pose proof (created_frame _ _ Hf) as Hc.
  unfold opening, first, state_of. by rewrite Hc, Hi, Ho, Hs.
Qed.

Lemma opening_step now e t p p' : in_phase t p -> opening t p -> possible now e t -> mounts e = false ->
  phase_step t.(link).(sessionId) e p p' -> in_phase (handle now e t) p' -> opening (handle now e t) p'.
Proof.
  intros Hp Ho He Hm Hs Hp'. destruct Hs as [s|err|s code reason|s reason|s code reason p' ? ? ? ? Hw|i due size c r Hn|i due size c r|p|e p Hst];
    try done.
  - cbn [Terminal.handle] in *. destruct (resume_granted now t Hp) as (Hc & Hi & Hou & _).
    pose proof (proj2 (proj2 (resume_auth_phase now 0 [] t Hp)) eq_refl eq_refl) as Hl.
    assert (s = next t) as ->. { pose proof (ok_socket _ _ Hp') as H1. rewrite (ok_socket _ _ Hl) in H1. by injection H1. }
    cbn [opening] in *. unfold first. rewrite Hc, Hi, Hou. split; [by destruct (created (log t))|]. intros _.
    destruct (decide (created (log t) = [])) as [E|E]; [by rewrite E, decide_True|].
    rewrite decide_False; [done|]. intros E'. apply E. by apply (app_inv_tail [next t] _ []).
  - assert (created (log (handle now (SocketClose s code reason) t)) = created (log t)) as Hc by by apply created_step.
    destruct Hw as [(i & due & ->)| ->]; [|done]. cbn [opening] in *. rewrite Hc. by destruct Ho.
  - assert (created (log (handle now (Fire Reconnect i size c r) t)) = created (log t)) as Hc by by apply created_step.
    cbn [opening] in *. rewrite Hc, decide_False by done. cbn [Terminal.handle].
    pose proof (ok_session _ _ Hp) as Hsid. cbn [fire] in *. cbv zeta in *. pose proof (phase_woken _ _ _ Hp) as Hw.
    set (v := set_retry_timer None _) in *. assert (sessionId (link v) = sessionId (link t)) as Hv by done.
    case_step; [by rewrite Hv|].
    match goal with |- context [initWebSocket ?h ?n ?c ?r ?e ?a ?t] =>
      destruct (initWebSocket_eq h n c r e a t) as (_ & _ & (_ & _ & _ & ->)%conn_inv & _) end. by rewrite Hv.
  - destruct (decide (p = Closed)) as [->|Hc]; [done|]. assert (phase_ok t p) as Hok by by destruct p.
    destruct (stays_cases encodeBase64 decodeBase64 href currentNode now e t p Hok Hc He Hm Hst) as [Hf|[(s & -> & -> & Hs)|(s & m & -> & -> & Hs)]].
    + by eapply opening_frame.
    + cbn [opening] in *. rewrite created_step by done. split; [by destruct Ho|]. cbn [Terminal.handle].
      destruct (open_parts encodeBase64 now s t) as [E _]. unfold state_of. rewrite E, lookup_insert_eq. done.
    + cbn [opening] in *. rewrite created_step by done. split; [by destruct Ho|]. cbn [Terminal.handle].
      destruct (message_parts decodeBase64 now m t) as [E _]. unfold state_of in *. by rewrite E, Hs.
Qed.

Lemma opening_runs now t es t' p : runs now t es t' -> in_phase t p -> opening t p -> no_mount es ->
  exists p', in_phase t' p' /\ opening t' p'.
Proof.
  intros Hr. revert p. induction Hr as [now t|now later e es t t' _ He _ IH]; intros p Hp Ho Hm; [by exists p|].
  apply list.Forall_cons in Hm as [Hm Hms]. destruct (phase_step_ok encodeBase64 decodeBase64 href currentNode later e t p Hp He Hm) as (q & Hs & Hq).
  apply (IH q Hq); [|done]. by eapply opening_step.
Qed.

Lemma sends_app l l' : sends (l ++ l') = sends l ++ sends l'.
Proof. unfold sends. apply omap_app. Qed.

(** C18. The command given with the parameters is sent when the first socket opens, to that
    socket, and only for a new session; no socket that a lost connection is replaced by
    gets it again. *)
Theorem init_command_once now es t later s : runs now mounted es t -> no_mount es ->
  possible later (SocketOpen s) t -> t.(retry).(closing) = false ->
  sends (handle later (SocketOpen s) t).(log) =
    sends t.(log) ++ (if decide (created t.(log) = [s] /\ props.(p_sessionId) = [] /\ props.(p_initCmd) <> [])
                      then [(s, CmdMessage (encodeBase64 props.(p_initCmd)) [])] else []).
Proof.
  intros Hr Hm Hs Hcl. assert (in_phase mounted first_phase /\ opening mounted first_phase) as [Hp0 Ho0].
  { pose proof mounted_phase as H. unfold first_phase in *. case_decide; [done|]. split; [done|]. cbn [opening].
    unfold mounted, acceptParams. rewrite Herr. cbv zeta. cbn [truthy]. set (u := initTerminal true _).
    change (termReady u) with true. cbv iota.
    destruct (initWebSocket_eq href currentNode cols rows (endpoint props) (args props) u) as (E1 & _ & (_ & _ & _ & E2)%conn_inv & _ & E3 & _).
    unfold first. by rewrite E1, E2, E3. }
  destruct (opening_runs _ _ _ _ _ Hr Hp0 Ho0 Hm) as (p & Hp & Ho).
  destruct (decide (p = Closed)) as [->|Hc]; [destruct Hp as [Hp _]; congruence|]. assert (phase_ok t p) as Hok by by destruct p.
  cbn in Hs. assert (phase_socket p = Some s) as ->%phase_linked by (eapply phase_from; [done|by rewrite Hs..]).
  cbn [opening] in Ho. destruct Ho as [Hne Ho]. specialize (Ho Hs).
  cbn [Terminal.handle]. unfold runRealTerminal. cbv zeta. set (v := changeTerminalSize _ _).
  assert (sends (log v) = sends (log t) /\ initCmd (output v) = initCmd (output t) /\ sessionId (link v) = sessionId (link t) /\
          terminalSocket (link v) = Some s /\ state_of v s = Some OPEN) as (E1 & E2 & E3 & E4 & E5).
  { assert (terminalSocket (link t) = Some s) as Ht by apply (ok_socket _ _ Hok).
    unfold v, changeTerminalSize. case_step; cbn; rewrite ?Ht; unfold state_of; cbn; by rewrite lookup_insert_eq. }
  clearbody v. rewrite E2, E3. destruct (decide (created (log t) = [s])) as [Hfirst|Hlater].
  - destruct Ho as [-> ->]. destruct (truthy (p_initCmd props)) eqn:Ec; cbn [andb].
    + apply truthy_true in Ec. destruct (truthy (p_sessionId props)) eqn:Ei; cbn [negb].
      * apply truthy_true in Ei. rewrite decide_False by naive_solver. by rewrite app_nil_r.
      * apply truthy_false in Ei. rewrite decide_True by done. unfold sendMsg, send, isWsOpen.
        cbn [on_output link]. rewrite E4. unfold state_of in *. cbn [on_output browser]. rewrite E5.
        unfold does. cbn [log]. rewrite sends_app. f_equal. exact E1.
    + apply truthy_false in Ec. rewrite decide_False by naive_solver. by rewrite app_nil_r.
  - rewrite (proj2 (truthy_true (sessionId (link t)))) by done. cbn [negb]. rewrite andb_false_r.
    rewrite decide_False by naive_solver. by rewrite app_nil_r.
Qed.

(** *** How often a lost connection is tried again *)

(** The delay after [k] attempts, and the time the first [k] have waited at least. *)
Definition next_delay (k : nat) : Z := match k with 0 => 1000 | 1 => 2000 | 2 => 4000 | _ => 8000 end.
Definition waited (k : nat) : Z := match k with 0 => 0 | 1 => 1000 | 2 => 3000 | _ => 8000 * Z.of_nat k - 17000 end.
Definition max_attempts : nat := 228.

Lemma waited_S k : waited (S k) = (waited k + next_delay k)%Z.
Proof. destruct k as [|[|[|k]]]; cbn [waited next_delay]; lia. Qed.

Lemma next_delay_S k : Z.min (next_delay k * 2) 8000 = next_delay (S k).
Proof. by destruct k as [|[|[|k]]]. Qed.

Lemma waited_window k : (waited k <= reconnectWindow)%Z -> k < max_attempts.
Proof. unfold reconnectWindow, max_attempts. destruct k as [|[|[|k]]]; cbn [waited]; lia. Qed.

(** Events by which no connection comes about and the page asks for none: the server gives no
    session back. *)
Definition failing (e : Event) : bool :=
  match e with Accept _ _ _ _ | SocketMessage _ (ServerSession _) => false | _ => true end.

(** The server closes the connection to have the session of the user looked at again. *)
Definition revalidates (e : Event) : bool :=
  match e with SocketClose _ code _ => (code =? CLOSE_REVALIDATE)%N | _ => false end.
Definition revalidations (es : list (Z * Event)) : nat := length (List.filter (fun e => revalidates e.2) es).

Definition attempts (t : Terminal) : nat := length (created t.(log)).

Definition trying (n : nat) (now : Z) (t : Terminal) (p : phase) : Prop :=
  match p with
  | Ended _ | Closed => attempts t <= n + max_attempts
  | _ =>
      if t.(retry).(reconnecting) then
        exists k, k <= max_attempts /\ t.(retry).(reconnectDelay) = next_delay k /\
          match p with
          | Waiting _ due => (t.(retry).(reconnectStartedAt) + waited k <= due)%Z /\ attempts t + 1 <= n + k
          | Authenticating => (t.(retry).(reconnectStartedAt) + waited k <= now)%Z /\ attempts t + 1 <= n + k
          | _ => (t.(retry).(reconnectStartedAt) + waited k <= now)%Z /\ attempts t <= n + k
          end
      else (exists s, p = Linked s) /\ attempts t <= n
  end.

Lemma trying_bound n now t p : trying n now t p -> attempts t <= n + max_attempts.
Proof.
  unfold trying. destruct p; try done; case_step; try (intros [_ ?]; lia); intros (k & Hk & _ & _ & H); lia.
Qed.

Lemma trying_keeps n now later t t' p : (now <= later)%Z -> retry t' = retry t -> attempts t' = attempts t ->
  trying n now t p -> trying n later t' p.
Proof.
  intros Hl Hr Ha. unfold trying. rewrite Hr, Ha. destruct p; try done; case_step; try done;
    intros (k & Hk & Hd & H1 & H2); exists k; (split; [done|]; split; [done|]; split; [lia|done]).
Qed.

(** A lost connection is waited for once more; for a revalidation that is one more than the
    delays tell. *)
Lemma trying_lost n rv now later t t' s i due : (now <= later)%Z -> trying n now t (Linked s) -> goes_on rv later t t' due ->
  attempts t' = attempts t -> trying (n + if rv then 1 else 0) later t' (Waiting i due).
Proof.
  intros Hl Ht (Hg & -> & Hr & Hst & Hd) Ha. unfold trying in *. rewrite Hr, Hst, Hd, Ha.
  unfold gives_up, started, delay in *. destruct (reconnecting (retry t)); cbn [andb] in Hg.
  - destruct Ht as (k & Hk & Hdl & H1 & H2). rewrite Hdl. destruct rv.
    + exists k. split; [done|]. split; [done|]. lia.
    + exists (S k). rewrite waited_S, next_delay_S. pose proof (waited_window k ltac:(lia)). split; [lia|]. split; [done|]. lia.
  - destruct Ht as [_ Ht]. destruct rv.
    + exists 0. split; [unfold max_attempts; lia|]. split; [done|]. cbn [waited]. lia.
    + exists 1. split; [unfold max_attempts; lia|]. split; [done|]. cbn [waited]. lia.
Qed.

Lemma trying_more n m now t p : n <= m -> trying n now t p -> trying m now t p.
Proof.
  intros Hle. unfold trying. destruct p; try lia; (case_step; [|intros [? ?]; split; [done|lia]]);
    intros (k & Hk & Hd & H1 & H2); exists k; (split; [done|]; split; [done|]; split; [done|lia]).
Qed.

Lemma fire_retry now i due size c r t : phase_ok t (Waiting i due) ->
  (fire href currentNode now Reconnect i size c r t).(retry) = (set_closing false (set_retry_timer None t)).(retry).
Proof.
  intros Hp. cbn [fire]. cbv zeta. pose proof (phase_woken _ _ _ Hp) as Hw. set (v := set_retry_timer None (clear_timer _ _ _)) in *.
  rewrite (ok_open _ _ Hw), (proj2 (truthy_true (sessionId (link v)))) by apply (ok_session _ _ Hp). cbn [negb orb].
  by destruct (initWebSocket_eq href currentNode c r (wsEndpoint (link v)) (wsArgs (link v)) v) as (_ & -> & _).
Qed.

Lemma trying_retry n now later i due size c r t : phase_ok t (Waiting i due) -> trying n now t (Waiting i due) ->
  possible later (Fire Reconnect i size c r) t ->
  attempts (handle later (Fire Reconnect i size c r) t) = attempts t ->
  trying n later (handle later (Fire Reconnect i size c r) t) Authenticating.
Proof.
  intros Hp Ht He Ha. unfold trying in *. rewrite Ha. cbn [Terminal.handle]. rewrite (fire_retry _ _ _ _ _ _ _ Hp).
  cbn [set_closing set_retry_timer on_retry retry reconnecting reconnectDelay reconnectStartedAt].
  destruct (reconnecting (retry t)); [|by destruct Ht as [(? & ?) _]].
  destruct Ht as (k & Hk & Hd & H1 & H2). exists k. split; [done|]. split; [done|]. split; [|done].
  destruct He as (due' & Hdue & Hle). pose proof (ok_waits _ _ Hp i) as Hw. unfold waits in Hw. rewrite Hdue in Hw.
  cbn in Hw. rewrite decide_True in Hw by done. injection Hw as ->. lia.
Qed.

(** The operations are known by their lemmas from here on. *)
#[local] Opaque runRealTerminal onWSReceive closeRealTerminal resume_auth.

Lemma trying_step n now later e t p p' : (now <= later)%Z -> in_phase t p -> trying n now t p -> possible later e t ->
  failing e = true -> phase_step t.(link).(sessionId) e p p' -> in_phase (handle later e t) p' ->
  trying (n + if revalidates e then 1 else 0) later (handle later e t) p'.
Proof.
  intros Hl Hp Ht He Hf Hs Hp'. pose proof (trying_bound _ _ _ _ Ht) as Hb.
  assert (Hm : mounts e = false) by by destruct e.
  assert (Hsame : (forall m err, e <> AuthAnswer m err) -> attempts (handle later e t) = attempts t)
    by (intros Ha; unfold attempts; by rewrite created_step).
  destruct Hs as [s|err|s code reason|s reason|s code reason p' ? ? ? ? Hw|i due size c r Hn|i due size c r|p|e p Hst];
    try (cbn [trying]; rewrite Hsame by done; lia).
  - cbn [Terminal.handle] in *. destruct (resume_granted later t Hp) as (Hc & _ & _ & Hr).
    unfold trying in *. rewrite Hr. destruct (reconnecting (retry t)); [|by destruct Ht as [(? & ?) _]].
    destruct Ht as (k & Hk & Hd & H1 & H2). exists k. split; [done|]. split; [done|]. unfold attempts in *.
    rewrite Hc, length_app. cbn [length]. lia.
  - cbn [trying Terminal.handle]. unfold attempts in *. destruct (created_answer later 0 err t) as [->|[_ ->]]; [lia|done].
  - destruct Hw as [(i & due & ->)| ->]; [|cbn [trying]; rewrite Hsame by done; lia].
    destruct (close_phase later s code reason t Hp) as (q & _ & Hq & Hgo).
    cbn [revalidates]. eapply trying_lost; [done..| |by apply Hsame]. cbn [Terminal.handle] in *. apply (Hgo i).
    assert (q = Waiting i due) as ->; [|done]. pose proof (ok_timer _ _ Hq) as T1. pose proof (ok_waits _ _ Hq i) as W1.
    rewrite (ok_timer _ _ Hp') in T1. rewrite (ok_waits _ _ Hp') in W1. destruct q; try done. cbn in T1, W1.
    injection T1 as <-. rewrite !decide_True in W1 by done. by injection W1 as <-.
  - apply (trying_more n); [lia|]. eapply trying_retry; [done..|]. by apply Hsame.
  - destruct (decide (p = Closed)) as [->|Hc].
    { cbn [trying]. destruct (stopped_step encodeBase64 decodeBase64 href currentNode later e t) as [_ Hcalm]; [by intros ? ? ? ? ->|done|].
      unfold attempts in *. rewrite (created_calm _ _ _ Hcalm). lia. }
    apply (trying_more n); [lia|]. assert (phase_ok t p) as Hok by by destruct p.
    destruct (stays_cases encodeBase64 decodeBase64 href currentNode later e t p Hok Hc He Hm Hst) as [Hfr|[(s & -> & -> & Hs)|(s & m & -> & -> & Hs)]].
    + eapply trying_keeps; [done|by apply f_retry| |done]. unfold attempts. by rewrite (created_frame _ _ Hfr).
    + eapply trying_keeps; [done|by apply open_parts|by apply Hsame|done].
    + eapply trying_keeps; [done| |by apply Hsame|done]. apply message_parts. intros id ->. done.
Qed.

Lemma trying_runs n now t es t' p : runs now t es t' -> in_phase t p -> trying n now t p ->
  Forall (fun e => failing e.2 = true) es -> attempts t' <= n + max_attempts + revalidations es.
Proof.
  intros Hr. revert n p. induction Hr as [now t|now later e es t t' Hl He _ IH]; intros n p Hp Ht Hf.
  { apply trying_bound in Ht. lia. }
  apply list.Forall_cons in Hf as [Hf Hfs]. assert (mounts e = false) as Hm by by destruct e.
  destruct (phase_step_ok encodeBase64 decodeBase64 href currentNode later e t p Hp He Hm) as (q & Hs & Hq).
  assert (attempts t' <= (n + if revalidates e then 1 else 0) + max_attempts + revalidations es) as Hb
    by (apply (IH _ q Hq); [by eapply trying_step|done]).
  unfold revalidations in *. cbn [List.filter snd]. destruct (revalidates e); cbn [length]; lia.
Qed.

(** C33. When the connection of a session is lost, the terminal tries at most 228 times to get it
    back, and once more for each close by which the server asks for a revalidation (4410),
    until the server gives the session back or the page is given parameters again: after the
    delays of 1, 2, 4, 8, 8 ... seconds the half hour for which the server keeps the session
    is over, and it gives up.  A close for a revalidation is answered without a delay. *)
Theorem reconnect_bounded now es t later es' t' s : runs now mounted es t -> no_mount es ->
  t.(retry).(closing) = false -> t.(link).(terminalSocket) = Some s -> t.(retry).(reconnecting) = false ->
  runs later t es' t' -> Forall (fun e => failing e.2 = true) es' ->
  length (created t'.(log)) <= length (created t.(log)) + 228 + revalidations es'.
Proof.
  intros Hr Hm Hc Hs Hn Hr' Hf. destruct (phase_runs_ok _ _ _ _ first_phase Hr) as (p & _ & Hp); [|done|].
  { pose proof mounted_phase as H. unfold first_phase in *. by case_decide. }
  assert (p <> Closed) as Hpc by (intros ->; destruct Hp as [Hp _]; congruence).
  assert (phase_ok t p) as Hok by by destruct p. pose proof (ok_socket _ _ Hok) as Hl. rewrite Hs in Hl. symmetry in Hl.
  apply phase_linked in Hl as ->. eapply (trying_runs _ _ _ _ _ _ Hr' Hp); [|done].
  cbn [trying]. rewrite Hn. split; [by eexists|done].
Qed.
End Theorems.

(** ** Examples *)

Abbreviation mounted_sample := (mounted sample_href (js "local") sample_props 80 24).

Lemma mounted_runs : runs id id sample_href (js "local") 0 mounted_sample (drop 1 sample_events) (steps (drop 1 sample_events) mounted_sample).
Proof. unfold sample_events, steps. cbn [foldl drop fst snd]. run_steps. Qed.

(** The session is known, and then its connection is lost. *)
Definition sample_linked : Terminal := steps (take 4 (drop 1 sample_events)) mounted_sample.
Definition sample_retried : Terminal := steps (drop 5 sample_events) sample_linked.

Lemma sample_link : runs id id sample_href (js "local") 0 mounted_sample (take 4 (drop 1 sample_events)) sample_linked.
Proof. unfold sample_linked, sample_events, steps. cbn [foldl drop take fst snd]. run_steps. Qed.

(** A lost connection waits for its timer, and asks again. *)
Lemma terminal_refines_phases_witness :
  first_phase sample_props = Authenticating /\
  exists p, phase_runs (snd <$> drop 1 sample_events) (first_phase sample_props) p /\
            in_phase (steps (drop 1 sample_events) mounted_sample) p.
Proof.
  split; [vm_compute; reflexivity|].
  apply (terminal_refines_phases id id sample_href (js "local") sample_props 80 24 eq_refl 0 _ _ mounted_runs). by repeat constructor.
Defined.

Lemma init_command_once_witness :
  sends (handle id id sample_href (js "local") 90 (SocketOpen 1) (steps [(50, AuthAnswer 0 [])]%Z mounted_sample)).(log) =
    [(1%N, CmdMessage (js "ls") [])].
Proof.
  rewrite (init_command_once id id sample_href (js "local") sample_props 80 24 eq_refl 0 [(50, AuthAnswer 0 [])]%Z);
    [vm_compute; reflexivity| |by repeat constructor|vm_compute; reflexivity|reflexivity].
  unfold steps. cbn [foldl fst snd]. run_steps.
Defined.

Lemma sample_lost : runs id id sample_href (js "local") 95 sample_linked (drop 5 sample_events) sample_retried.
Proof. unfold sample_retried, sample_events, steps. cbn [foldl drop fst snd]. run_steps. Qed.

Lemma reconnect_bounded_witness :
  created sample_linked.(log) = [1%N] /\ length (created sample_retried.(log)) <= length (created sample_linked.(log)) + 228 + 0.
Proof.
  split; [vm_compute; reflexivity|].
  apply (reconnect_bounded id id sample_href (js "local") sample_props 80 24 eq_refl 0 (take 4 (drop 1 sample_events)) _ 95 (drop 5 sample_events) _ 1 sample_link).
  - by repeat constructor.
  - vm_compute. reflexivity.
  - vm_compute. reflexivity.
  - vm_compute. reflexivity.
  - exact sample_lost.
  - by repeat constructor.
Defined.
