(* ===== verification/Upload.v ===== *)
(** * The upload drawer

    src/frontend/src/views/host/file-management/upload/index.vue: the files of a list are
    uploaded one after the other, a large one in chunks that are retried, and the upload
    can be cancelled.  Files, controllers and upload ids are identities (uuids are taken to
    be distinct); every await of the script is a suspended call that a later event answers,
    so that calls overlap as the browser lets them.  The percentages shown are left out, and
    the walk through dropped directories, which hands its files to the list, is an event. *)

From S2P Require Import Prelude JsString Splitting.

(** ** Files, requests, effects *)

(** An entry of the list: its name, webkitRelativePath of its raw file, and its size. *)
Record UFile := { f_id : N; f_name : jsstr; f_rel : jsstr; f_size : N }.

Inductive Status := Ready | Success | Fail.

(** The form of a chunk; the chunk itself is the part of the file from [k_start] to [k_end]. *)
Record Chunk := {
  k_file : N; k_uploadID : N; k_filename : jsstr; k_path : jsstr; k_start : N; k_end : N;
  k_index : nat; k_count : nat; k_offset : N; k_fileSize : N; k_overwrite : bool; k_node : jsstr
}.

Inductive Request :=
| BatchCheck (paths : list jsstr)
| UploadEmpty (file : N) (path : jsstr) (overwrite : bool) (node : jsstr)
| UploadChunk (k : Chunk)
| StopUpload (uploadID : N) (node : jsstr).

(** [Acked] and [AckedEmpty] log the answers that have come. *)
Inductive Effect :=
| Sent (q : Request)
| Acked (uploadID : N) (index : nat)
| AckedEmpty (file : N)
| RetryIn (milliseconds : N)
| ErrorShown (message : jsstr)
| SuccessShown
| WarningShown
| EmitClose
| DrawerClosed.

(** ** Errors *)

Inductive Code := CodeText (s : jsstr) | CodeNumber (n : N).

(** What a request is rejected with. *)
Record Err := { e_code : option Code; e_retryable : option bool; e_status : option N; e_message : jsstr }.

Definition shouldRetryChunkUpload (e : Err) : bool :=
  if (match e.(e_code) with Some (CodeText s) => s === js "ERR_CANCELED" | _ => false end) then false
  else match e.(e_retryable) with
       | Some b => b
       | None =>
           let status := match e.(e_status) with
                         | Some n => Some n
                         | None => match e.(e_code) with Some (CodeNumber n) => Some n | _ => None end
                         end in
           match status with
           | None => true
           | Some n => (n =? 0)%N || (n =? 408)%N || (n =? 429)%N || (500 <=? n)%N
           end
       end.

Definition CHUNK_SIZE : N := 1024 * 1024 * 5.
Definition MAX_CHUNK_RETRIES : nat := 3.

(** ** Paths *)

Definition getPathWithoutFilename (path : jsstr) : jsstr := if truthy path then join [47%N] (removelast (split 47 path)) else path.
Definition getFilenameFromPath (path : jsstr) : jsstr := if truthy path then List.last (split 47 path) [] else path.

Definition relative (f : UFile) : jsstr := if truthy f.(f_rel) then f.(f_rel) else f.(f_name).
Definition target (path : jsstr) (f : UFile) : jsstr := path ++ [47%N] ++ relative f.
Definition getUploadPath (path : jsstr) (f : UFile) : jsstr := path ++ [47%N] ++ getPathWithoutFilename (relative f).

(** ** The state *)

(** uploadChunkedFile: the constants of a call *)
Record ChunkUpload := { c_id : N; c_file : UFile; c_count : nat; c_path : jsstr; c_filename : jsstr }.

Inductive Result := Returned (b : bool) | Threw (e : Err).

(** What an uploadFile call awaits. *)
Inductive Await :=
| AwaitEmpty (f : UFile)                                    (** uploadFileData *)
| AwaitChunk (up : ChunkUpload) (c retryCount : nat)        (** chunkUploadFileData *)
| AwaitRetry (up : ChunkUpload) (c retryCount : nat)        (** waitForChunkRetry *)
| AwaitCatch (up : ChunkUpload) (e : Err)                   (** cleanupActiveChunkUpload, in the catch *)
| AwaitFinally (up : ChunkUpload) (r : Result).             (** the same, in the finally *)

(** A call of uploadFile; it is known by its controller. *)
Record Run := { r_files : list UFile; r_overwrite : bool; r_node : jsstr; r_index : nat; r_success : nat }.

(** A call of requestClose; [close_done] says that the drawer has handed it a callback. *)
Inductive CloseCall :=
| Confirming (close_done : bool)
| Stopping (close_done : bool) (controller : option N).

Record View := {
  u_open : bool; upLoading : bool; canceling : bool; uploadTotalCount : nat; uploadCurrentIndex : nat;
  uploaderFiles : list UFile; u_path : jsstr; isAppendOnly : bool
}.

Record Work := {
  abortController : option N; activeChunkUpload : option (N * jsstr); aborted : gset N; calls : gmap N (Run * Await);
  closes : list CloseCall; checks : list (list UFile); existing : option (list jsstr); next_id : N
}.

Record Upload := { view : View; work : Work; statuses : gmap N Status; log : list Effect }.

Definition initial_upload : Upload := {|
  view := Build_View false false false 0 0 [] [] false; work := Build_Work None None ∅ ∅ [] [] None 0;
  statuses := ∅; log := [] |}.

Definition on_view (f : View -> View) (s : Upload) : Upload := Build_Upload (f s.(view)) s.(work) s.(statuses) s.(log).
Definition on_work (f : Work -> Work) (s : Upload) : Upload := Build_Upload s.(view) (f s.(work)) s.(statuses) s.(log).
Definition does (e : Effect) (s : Upload) : Upload := Build_Upload s.(view) s.(work) s.(statuses) (s.(log) ++ [e]).
Definition set_status (i : N) (st : Status) (s : Upload) : Upload :=
  Build_Upload s.(view) s.(work) (<[i := st]> s.(statuses)) s.(log).

Definition set_open (b : bool) : Upload -> Upload := on_view (fun v =>
  Build_View b v.(upLoading) v.(canceling) v.(uploadTotalCount) v.(uploadCurrentIndex) v.(uploaderFiles) v.(u_path) v.(isAppendOnly)).
Definition set_loading (b : bool) : Upload -> Upload := on_view (fun v =>
  Build_View v.(u_open) b v.(canceling) v.(uploadTotalCount) v.(uploadCurrentIndex) v.(uploaderFiles) v.(u_path) v.(isAppendOnly)).
Definition set_canceling (b : bool) : Upload -> Upload := on_view (fun v =>
  Build_View v.(u_open) v.(upLoading) b v.(uploadTotalCount) v.(uploadCurrentIndex) v.(uploaderFiles) v.(u_path) v.(isAppendOnly)).
Definition set_counts (total current : nat) : Upload -> Upload := on_view (fun v =>
  Build_View v.(u_open) v.(upLoading) v.(canceling) total current v.(uploaderFiles) v.(u_path) v.(isAppendOnly)).
Definition set_files (l : list UFile) : Upload -> Upload := on_view (fun v =>
  Build_View v.(u_open) v.(upLoading) v.(canceling) v.(uploadTotalCount) v.(uploadCurrentIndex) l v.(u_path) v.(isAppendOnly)).
Definition set_path (p : jsstr) (append : bool) : Upload -> Upload := on_view (fun v =>
  Build_View v.(u_open) v.(upLoading) v.(canceling) v.(uploadTotalCount) v.(uploadCurrentIndex) v.(uploaderFiles) p append).

Definition set_controller (c : option N) : Upload -> Upload := on_work (fun w =>
  Build_Work c w.(activeChunkUpload) w.(aborted) w.(calls) w.(closes) w.(checks) w.(existing) w.(next_id)).
Definition set_active (a : option (N * jsstr)) : Upload -> Upload := on_work (fun w =>
  Build_Work w.(abortController) a w.(aborted) w.(calls) w.(closes) w.(checks) w.(existing) w.(next_id)).
Definition abort (c : N) : Upload -> Upload := on_work (fun w =>
  Build_Work w.(abortController) w.(activeChunkUpload) ({[c]} ∪ w.(aborted)) w.(calls) w.(closes) w.(checks) w.(existing) w.(next_id)).
Definition set_call (c : N) (r : option (Run * Await)) : Upload -> Upload := on_work (fun w =>
  Build_Work w.(abortController) w.(activeChunkUpload) w.(aborted) (partial_alter (fun _ => r) c w.(calls)) w.(closes) w.(checks)
    w.(existing) w.(next_id)).
Definition set_closes (l : list CloseCall) : Upload -> Upload := on_work (fun w =>
  Build_Work w.(abortController) w.(activeChunkUpload) w.(aborted) w.(calls) l w.(checks) w.(existing) w.(next_id)).
Definition set_checks (l : list (list UFile)) : Upload -> Upload := on_work (fun w =>
  Build_Work w.(abortController) w.(activeChunkUpload) w.(aborted) w.(calls) w.(closes) l w.(existing) w.(next_id)).
Definition set_existing (l : option (list jsstr)) : Upload -> Upload := on_work (fun w =>
  Build_Work w.(abortController) w.(activeChunkUpload) w.(aborted) w.(calls) w.(closes) w.(checks) l w.(next_id)).
(** A new controller or upload id *)
Definition take_id : Upload -> Upload := on_work (fun w =>
  Build_Work w.(abortController) w.(activeChunkUpload) w.(aborted) w.(calls) w.(closes) w.(checks) w.(existing) (w.(next_id) + 1)).

Definition uploadLocked (s : Upload) : bool := s.(view).(upLoading) || s.(view).(canceling).
Definition is_aborted (c : N) (s : Upload) : bool := bool_decide (c ∈ s.(work).(aborted)).

(** ** Uploading *)

Definition clearFiles : Upload -> Upload := set_files [].

(** cleanupActiveChunkUpload up to its await; the flag says that it awaits an answer. *)
Definition cleanupActiveChunkUpload (s : Upload) : bool * Upload :=
  match s.(work).(activeChunkUpload) with
  | None => (false, s)
  | Some active => (true, does (Sent (StopUpload active.1 active.2)) (set_active None s))
  end.

(** After the loop, and the finally of uploadFile *)
Definition finish (c : N) (r : Run) (s : Upload) : Upload :=
  let s := if (r.(r_success) =? length r.(r_files)) && negb (is_aborted c s) then does SuccessShown (clearFiles s) else s in
  let s := set_counts 0 0 (set_loading false s) in
  let s := if decide (s.(work).(abortController) = Some c) then set_controller None s else s in
  set_call c None s.

Definition chunk_of (r : Run) (up : ChunkUpload) (c : nat) : Chunk :=
  let start := (N.of_nat c * CHUNK_SIZE)%N in
  {| k_file := up.(c_file).(f_id); k_uploadID := up.(c_id); k_filename := up.(c_filename); k_path := up.(c_path);
     k_start := start; k_end := N.min (start + CHUNK_SIZE) up.(c_file).(f_size); k_index := c; k_count := up.(c_count);
     k_offset := start; k_fileSize := up.(c_file).(f_size); k_overwrite := r.(r_overwrite); k_node := r.(r_node) |}.

Definition chunkCount (size : N) : nat := N.to_nat ((size + CHUNK_SIZE - 1) / CHUNK_SIZE).

(** The loop of uploadFile at the file [r_index]. *)
Definition next_file (c : N) (r : Run) (s : Upload) : Upload :=
  match r.(r_files) !! r.(r_index) with
  | None => finish c r s
  | Some f =>
      let s := set_counts s.(view).(uploadTotalCount) r.(r_index) s in
      if is_aborted c s then finish c r s
      else if (f.(f_size) =? 0)%N then
        set_call c (Some (r, AwaitEmpty f))
          (does (Sent (UploadEmpty f.(f_id) (getUploadPath s.(view).(u_path) f) r.(r_overwrite) r.(r_node))) s)
      else
        let id := s.(work).(next_id) in
        let up := {| c_id := id; c_file := f; c_count := chunkCount f.(f_size); c_path := getUploadPath s.(view).(u_path) f;
                     c_filename := getFilenameFromPath f.(f_name) |} in
        set_call c (Some (r, AwaitChunk up 0 0))
          (does (Sent (UploadChunk (chunk_of r up 0))) (set_active (Some (id, r.(r_node))) (take_id s)))
  end.

(** The result of a file, and the next one. *)
Definition file_done (c : N) (r : Run) (f : UFile) (result : Result) (s : Upload) : Upload :=
  let s := match result with
           | Threw e => if is_aborted c s then s else does (ErrorShown e.(e_message)) s
           | Returned _ => s
           end in
  let isSuccess := match result with Returned b => b | Threw _ => false end in
  let r' := {| r_files := r.(r_files); r_overwrite := r.(r_overwrite); r_node := r.(r_node); r_index := S r.(r_index);
               r_success := if isSuccess then S r.(r_success) else r.(r_success) |} in
  next_file c r' (set_status f.(f_id) (if isSuccess then Success else Fail) s).

(** The finally of uploadChunkedFile *)
Definition leave (c : N) (r : Run) (up : ChunkUpload) (result : Result) (s : Upload) : Upload :=
  match s.(work).(activeChunkUpload) with
  | Some active =>
      if decide (active.1 = up.(c_id)) then
        if is_aborted c s then set_call c (Some (r, AwaitFinally up result)) (cleanupActiveChunkUpload s).2
        else file_done c r up.(c_file) result (set_active None s)
      else file_done c r up.(c_file) result s
  | None => file_done c r up.(c_file) result s
  end.

(** Its catch *)
Definition catch (c : N) (r : Run) (up : ChunkUpload) (e : Err) (s : Upload) : Upload :=
  let '(awaits, s) := cleanupActiveChunkUpload s in
  if awaits then set_call c (Some (r, AwaitCatch up e)) s else leave c r up (Threw e) s.

(** The loop of uploadChunkedFile at the chunk [k], when those before it were acknowledged. *)
Definition next_chunk (c : N) (r : Run) (up : ChunkUpload) (k : nat) (s : Upload) : Upload :=
  if (k <? up.(c_count))%nat then
    if is_aborted c s then leave c r up (Returned false) s
    else set_call c (Some (r, AwaitChunk up k 0)) (does (Sent (UploadChunk (chunk_of r up k))) s)
  else leave c r up (Returned (k =? up.(c_count))) s.

Definition canceled : Err :=
  {| e_code := Some (CodeText (js "ERR_CANCELED")); e_retryable := None; e_status := None; e_message := js "canceled" |}.

(** A chunk was refused. *)
Definition refused (c : N) (r : Run) (up : ChunkUpload) (k retryCount : nat) (e : Err) (s : Upload) : Upload :=
  if is_aborted c s || (MAX_CHUNK_RETRIES <=? retryCount)%nat || negb (shouldRetryChunkUpload e) then catch c r up e s
  else set_call c (Some (r, AwaitRetry up k retryCount)) (does (RetryIn (500 * 2 ^ N.of_nat retryCount)) s).

Inductive Answer := Ok | Refused (e : Err).

(** What the call [c] awaits has come: an answer, the end of a delay or the abort. *)
Definition resume (c : N) (a : Answer) (s : Upload) : Upload :=
  match s.(work).(calls) !! c with
  | None => s
  | Some (r, AwaitEmpty f) =>
      match a with
      | Ok => file_done c r f (Returned true) (does (AckedEmpty f.(f_id)) s)
      | Refused e => file_done c r f (Threw e) s
      end
  | Some (r, AwaitChunk up k retryCount) =>
      match a with
      | Ok => next_chunk c r up (S k) (does (Acked up.(c_id) k) s)
      | Refused e => refused c r up k retryCount e s
      end
  | Some (r, AwaitRetry up k retryCount) =>
      (* with an aborted signal the request is rejected without being sent *)
      if is_aborted c s then refused c r up k (S retryCount) canceled s
      else set_call c (Some (r, AwaitChunk up k (S retryCount))) (does (Sent (UploadChunk (chunk_of r up k))) s)
  | Some (r, AwaitCatch up e) => leave c r up (Threw e) s
  | Some (r, AwaitFinally up result) => file_done c r up.(c_file) result s
  end.

Definition uploadFile (node : jsstr) (files : list UFile) (overwrite : bool) (s : Upload) : Upload :=
  match files with
  | [] => clearFiles s
  | _ =>
      let s := set_counts (length files) s.(view).(uploadCurrentIndex) (set_loading true s) in
      let c := s.(work).(next_id) in
      next_file c {| r_files := files; r_overwrite := overwrite; r_node := node; r_index := 0; r_success := 0 |}
        (set_controller (Some c) (take_id s))
  end.

(** submit up to its await, *)
Definition submit (s : Upload) : Upload :=
  let files := s.(view).(uploaderFiles) in
  set_checks (s.(work).(checks) ++ [files]) (does (Sent (BatchCheck (spread_set (target s.(view).(u_path) <$> files)))) s).

(** and when the check [n] has answered: the paths that exist, or an exception. *)
Definition resume_check (node : jsstr) (n : nat) (found : option (list jsstr)) (s : Upload) : Upload :=
  match s.(work).(checks) !! n with
  | None => s
  | Some files =>
      let s := set_checks (take n s.(work).(checks) ++ drop (S n) s.(work).(checks)) s in
      match found with
      | None => s
      | Some [] => uploadFile node files false s
      | Some paths => set_existing (Some paths) s
      end
  end.

(** The answer in the dialog of existing files *)
Definition handleFileUpload (node : jsstr) (skip : bool) (skippedPaths : list jsstr) (s : Upload) : Upload :=
  let files := s.(view).(uploaderFiles) in
  if skip then
    let filteredFiles := List.filter (fun f => negb (memb (target s.(view).(u_path) f) skippedPaths)) files in
    uploadFile node filteredFiles false (set_files filteredFiles s)
  else uploadFile node files true s.

Definition choose (node : jsstr) (skip : bool) (s : Upload) : Upload :=
  match s.(work).(existing) with
  | None => s
  | Some paths => handleFileUpload node skip paths (set_existing None s)
  end.

(** ** Closing *)

Definition finishClose (done : bool) (s : Upload) : Upload :=
  let s := does EmitClose (clearFiles (set_counts 0 0 (set_loading false (set_open false s)))) in
  if done then does DrawerClosed s else s.

Definition requestClose (done : bool) (s : Upload) : Upload :=
  if s.(view).(canceling) then s
  else if negb s.(view).(upLoading) then finishClose done s
  else set_closes (s.(work).(closes) ++ [Confirming done]) (set_canceling true s).

(** After the cleanup of requestClose *)
Definition closed (done : bool) (controller : option N) (s : Upload) : Upload :=
  let s := if decide (s.(work).(abortController) = controller) then set_controller None s else s in
  set_canceling false (finishClose done s).

(** The call of requestClose at position [n] goes on; [confirmed] is the answer of the box. *)
Definition resume_close (n : nat) (confirmed : bool) (s : Upload) : Upload :=
  match s.(work).(closes) !! n with
  | None => s
  | Some (Confirming done) =>
      let s := set_closes (take n s.(work).(closes) ++ drop (S n) s.(work).(closes)) s in
      if negb confirmed then set_canceling false s
      else if negb s.(view).(upLoading) then set_canceling false (finishClose done s)
      else
        let controller := s.(work).(abortController) in
        let s := match controller with Some c => abort c s | None => s end in
        let '(awaits, s) := cleanupActiveChunkUpload s in
        if awaits then set_closes (s.(work).(closes) ++ [Stopping done controller]) s else closed done controller s
  | Some (Stopping done controller) =>
      closed done controller (set_closes (take n s.(work).(closes) ++ drop (S n) s.(work).(closes)) s)
  end.

(** ** The list *)

Definition removeFile (index : nat) (s : Upload) : Upload :=
  if uploadLocked s then s
  else set_files (take index s.(view).(uploaderFiles) ++ drop (S index) s.(view).(uploaderFiles)) s.

(** handleDrop, once the entries are read: [None] when there are too many. *)
Definition handleDrop (tmpFiles : option (list UFile)) (s : Upload) : Upload :=
  match tmpFiles with
  | Some l => set_files (s.(view).(uploaderFiles) ++ l) s
  | None => does WarningShown s
  end.

(** fileOnChange sets the list of the upload component; a file that cannot be read is
    taken out later. *)
Definition fileOnChange (files : list UFile) : Upload -> Upload := set_files files.
Definition unreadable (f : UFile) (s : Upload) : Upload :=
  does (ErrorShown (js "file.typeErrOrEmpty"))
    (set_files (List.filter (fun g => negb (g.(f_id) =? f.(f_id))%N) s.(view).(uploaderFiles)) s).
Definition handleExceed (s : Upload) : Upload := does WarningShown (clearFiles s).

Definition acceptParams (path : jsstr) (append : bool) (s : Upload) : Upload :=
  set_canceling false (set_counts 0 0 (set_open true (set_path path append s))).

(** ** Events *)

Inductive Event :=
| Accept (path : jsstr) (append : bool)
| Submit
| CheckAnswer (n : nat) (found : option (list jsstr))
| Choose (skip : bool)
| DismissChoice
| Resume (c : N) (a : Answer)
| RequestClose (done : bool)
| ResumeClose (n : nat) (confirmed : bool)
| RemoveFile (index : nat)
| Drop (tmpFiles : option (list UFile))
| Change (files : list UFile)
| Unreadable (f : UFile)
| Exceed
| ClearList.

(** [node] is the current node when the event comes. *)
Definition handle (node : jsstr) (e : Event) (s : Upload) : Upload :=
  match e with
  | Accept path append => acceptParams path append s
  | Submit => submit s
  | CheckAnswer n found => resume_check node n found s
  | Choose skip => choose node skip s
  | DismissChoice => set_existing None s
  | Resume c a => resume c a s
  | RequestClose done => requestClose done s
  | ResumeClose n confirmed => resume_close n confirmed s
  | RemoveFile index => removeFile index s
  | Drop tmpFiles => handleDrop tmpFiles s
  | Change files => fileOnChange files s
  | Unreadable f => unreadable f s
  | Exceed => handleExceed s
  | ClearList => clearFiles s
  end.

(** The events the template offers: its controls are disabled while [uploadLocked]. *)
Definition offered (e : Event) (s : Upload) : bool :=
  match e with
  | Submit => negb (uploadLocked s) && match s.(view).(uploaderFiles) with [] => false | _ => true end
  | RemoveFile _ | ClearList | Change _ | Exceed => negb (uploadLocked s)
  | _ => true
  end.

(** ** The chunks of a file *)

Lemma CHUNK_pos : (0 < CHUNK_SIZE)%N. Proof. done. Qed.
#[local] Opaque CHUNK_SIZE.

Lemma chunkCount_spec size : (0 < size)%N ->
  (1 <= chunkCount size)%nat /\ (N.of_nat (chunkCount size - 1) * CHUNK_SIZE < size <= N.of_nat (chunkCount size) * CHUNK_SIZE)%N.
Proof.
  intros Hs. unfold chunkCount. pose proof CHUNK_pos as Hp. set (q := ((size + CHUNK_SIZE - 1) / CHUNK_SIZE)%N).
  pose proof (N.div_mod (size + CHUNK_SIZE - 1) CHUNK_SIZE ltac:(lia)) as Hd. fold q in Hd.
  pose proof (N.mod_lt (size + CHUNK_SIZE - 1) CHUNK_SIZE ltac:(lia)) as Hm.
  clearbody q. generalize dependent ((size + CHUNK_SIZE - 1) mod CHUNK_SIZE)%N. intros m Hd Hm. generalize dependent CHUNK_SIZE. intros C Hp Hd Hm.
  assert (1 <= q)%N by (destruct (decide (q = 0%N)) as [E|]; [rewrite E in Hd; lia|lia]).
  replace (N.of_nat (N.to_nat q - 1)) with (q - 1)%N by lia. rewrite N2Nat.id. split; [lia|]. rewrite N.mul_sub_distr_r. lia.
Qed.

(** Blob.slice *)
Definition piece (content : list N) (k : Chunk) : list N := slice content (N.to_nat k.(k_start)) (N.to_nat k.(k_end)).

Lemma mjoin_app (l l' : list (list N)) : mjoin (l ++ l') = mjoin l ++ mjoin l'.
Proof. induction l as [|x l IH]; [done|]. change (x ++ mjoin (l ++ l') = (x ++ mjoin l) ++ mjoin l'). by rewrite IH, app_assoc. Qed.

Lemma pieces_take r up content n : length content = N.to_nat up.(c_file).(f_size) ->
  mjoin (piece content <$> (chunk_of r up <$> seq 0 n)) = take (N.to_nat (N.of_nat n * CHUNK_SIZE)) content.
Proof.
  intros Hl. induction n as [|n IH]; [done|]. rewrite seq_S, !fmap_app, mjoin_app, IH. cbn.
  unfold piece, slice, chunk_of. cbn [k_start k_end]. rewrite app_nil_r.
  set (a := N.to_nat (N.of_nat n * CHUNK_SIZE)).
  rewrite <- (take_drop a content) at 3.
  destruct (decide (a <= length content)) as [Ha|Ha].
  - rewrite take_app. rewrite length_take_le by done. rewrite take_take, Nat.min_r by lia. f_equal.
    replace (N.to_nat (N.of_nat (S n) * CHUNK_SIZE) - a) with (N.to_nat CHUNK_SIZE) by lia.
    destruct (decide (N.of_nat n * CHUNK_SIZE + CHUNK_SIZE <= f_size (c_file up))%N) as [Hle|Hgt].
    + rewrite N.min_l by done. f_equal. lia.
    + rewrite N.min_r by lia. rewrite !take_ge by (rewrite length_drop; lia). done.
  - rewrite drop_ge, !take_nil, !app_nil_r by lia. rewrite take_take. f_equal. lia.
Qed.

Lemma pieces_whole r up content : length content = N.to_nat up.(c_file).(f_size) -> (0 < up.(c_file).(f_size))%N ->
  up.(c_count) = chunkCount up.(c_file).(f_size) ->
  mjoin (piece content <$> (chunk_of r up <$> seq 0 up.(c_count))) = content /\
  forall k, k < up.(c_count) ->
    ((chunk_of r up k).(k_start) < (chunk_of r up k).(k_end) <= (chunk_of r up k).(k_start) + CHUNK_SIZE)%N.
Proof.
  intros Hl Hs Hc. destruct (chunkCount_spec _ Hs) as (H1 & H2 & H3). rewrite Hc. split.
  - rewrite pieces_take by done. apply take_ge. lia.
  - intros k Hk. cbn [chunk_of k_start k_end]. pose proof CHUNK_pos. nia.
Qed.

(** ** What the log says of an upload *)

Definition sends_of (id : N) (k : nat) (l : list Effect) : nat :=
  length (List.filter (fun e => match e with Sent (UploadChunk q) => (q.(k_uploadID) =? id)%N && (q.(k_index) =? k) | _ => false end) l).
Definition acks (id : N) (l : list Effect) : list nat :=
  omap (fun e => match e with Acked i k => if (i =? id)%N then Some k else None | _ => None end) l.
Definition stops (id : N) (l : list Effect) : nat :=
  length (List.filter (fun e => match e with Sent (StopUpload i _) => (i =? id)%N | _ => false end) l).

Lemma sends_of_app id k l l' : sends_of id k (l ++ l') = sends_of id k l + sends_of id k l'.
Proof. unfold sends_of. by rewrite List.filter_app, length_app. Qed.
Lemma acks_app id l l' : acks id (l ++ l') = acks id l ++ acks id l'.
Proof. apply omap_app. Qed.
Lemma stops_app id l l' : stops id (l ++ l') = stops id l + stops id l'.
Proof. unfold stops. by rewrite List.filter_app, length_app. Qed.

(** Nothing in [l] is about the upload [id]. *)
Definition unused (id : N) (l : list Effect) : Prop :=
  (forall k, sends_of id k l = 0) /\ acks id l = [] /\ stops id l = 0.

(** The server has had all of a file: an answer to the empty upload, or to the chunks of one
    upload in their order, which make up the file. *)
Definition delivered (f : UFile) (l : list Effect) : Prop :=
  if (f.(f_size) =? 0)%N then AckedEmpty f.(f_id) ∈ l
  else exists r up l', l' `prefix_of` l /\ up.(c_file) = f /\ up.(c_count) = chunkCount f.(f_size) /\
         acks up.(c_id) l' = seq 0 up.(c_count) /\ forall k, k < up.(c_count) -> Sent (UploadChunk (chunk_of r up k)) ∈ l'.

Lemma delivered_app f l es : delivered f l -> delivered f (l ++ es).
Proof.
  unfold delivered. case_step; [intros H; apply elem_of_app; by left|].
  intros (r & up & l' & Hl & H). exists r, up, l'. split; [|done]. by apply prefix_app_r.
Qed.

(** ** What holds of every call *)

Definition await_up (aw : Await) : option ChunkUpload :=
  match aw with
  | AwaitEmpty _ => None
  | AwaitChunk up _ _ | AwaitRetry up _ _ | AwaitCatch up _ | AwaitFinally up _ => Some up
  end.

(** The upload is at its chunk [k]: those before it are acknowledged, those after it unsent. *)
Record at_chunk (l : list Effect) (r : Run) (up : ChunkUpload) (k : nat) : Prop := {
  ac_size : (0 < up.(c_file).(f_size))%N; ac_count : up.(c_count) = chunkCount up.(c_file).(f_size);
  ac_acks : acks up.(c_id) l = seq 0 k;
  ac_sent j : j < k -> Sent (UploadChunk (chunk_of r up j)) ∈ l;
  ac_unsent j : k <= j -> sends_of up.(c_id) j l = 0
}.

(** It is being sent for the [n]-th time. *)
Record sending (l : list Effect) (r : Run) (up : ChunkUpload) (k n : nat) : Prop := {
  se_size : (0 < up.(c_file).(f_size))%N; se_count : up.(c_count) = chunkCount up.(c_file).(f_size);
  se_acks : acks up.(c_id) l = seq 0 k; se_now : k < up.(c_count);
  se_sent j : j <= k -> Sent (UploadChunk (chunk_of r up j)) ∈ l;
  se_times : sends_of up.(c_id) k l = n;
  se_unsent j : k < j -> sends_of up.(c_id) j l = 0
}.

Definition await_ok (l : list Effect) (r : Run) (aw : Await) : Prop :=
  match aw with
  | AwaitEmpty f => f.(f_size) = 0%N
  | AwaitChunk up k n => sending l r up k (S n) /\ n <= MAX_CHUNK_RETRIES
  | AwaitRetry up k n => sending l r up k (S n) /\ n < MAX_CHUNK_RETRIES
  | AwaitCatch up _ => True
  | AwaitFinally up result => result = Returned true -> delivered up.(c_file) l
  end.

Definition call_ids (o : option (Run * Await)) : option N := o ≫= fun p => c_id <$> await_up p.2.

(** The state, while the call [c] (if any) is running: what the others await, the identities
    given, the attempts made, and the files marked. *)
Record base (c : option N) (s : Upload) : Prop := {
  b_calls c' r aw : Some c' <> c -> s.(work).(calls) !! c' = Some (r, aw) -> await_ok s.(log) r aw;
  b_key i : (s.(work).(next_id) <= i)%N -> s.(work).(calls) !! i = None;
  b_self i : c = Some i -> (i < s.(work).(next_id))%N;
  b_used c' id : Some c' <> c -> call_ids (s.(work).(calls) !! c') = Some id -> (id < s.(work).(next_id))%N;
  b_distinct c1 c2 id : Some c1 <> c -> Some c2 <> c ->
    call_ids (s.(work).(calls) !! c1) = Some id -> call_ids (s.(work).(calls) !! c2) = Some id -> c1 = c2;
  b_unused id : (s.(work).(next_id) <= id)%N -> unused id s.(log);
  b_times id k : sends_of id k s.(log) <= S MAX_CHUNK_RETRIES;
  b_active a : s.(work).(activeChunkUpload) = Some a -> (a.1 < s.(work).(next_id))%N;
  b_status i : s.(statuses) !! i = Some Success -> exists f, f.(f_id) = i /\ delivered f s.(log)
}.

(** No other call has the upload [id]. *)
Definition mine (c : option N) (id : N) (s : Upload) : Prop :=
  (id < s.(work).(next_id))%N /\ forall c', Some c' <> c -> call_ids (s.(work).(calls) !! c') <> Some id.

(** An effect that is not about the upload [id]. *)
Definition other (id : N) (e : Effect) : bool :=
  match e with
  | Sent (UploadChunk q) => negb (q.(k_uploadID) =? id)%N
  | Acked i _ => negb (i =? id)%N
  | _ => true
  end.

Lemma other_effects id l e : other id e = true ->
  acks id (l ++ [e]) = acks id l /\ forall k, sends_of id k (l ++ [e]) = sends_of id k l.
Proof.
  intros He. split.
  - rewrite acks_app. destruct e as [q|i j| | | | | | |]; try apply app_nil_r. cbn in *.
    by rewrite (proj1 (negb_true_iff _) He), app_nil_r.
  - intros k. rewrite sends_of_app. destruct e as [[p|f p o n|q|i n]|i j| | | | | | |]; try (unfold sends_of at 2; cbn; lia).
    unfold sends_of at 2. cbn in *. rewrite (proj1 (negb_true_iff _) He). cbn. lia.
Qed.

Lemma await_ok_ext l r aw e : (forall up, await_up aw = Some up -> other up.(c_id) e = true) ->
  await_ok l r aw -> await_ok (l ++ [e]) r aw.
Proof.
  intros He. destruct aw as [f|up k n|up k n|up x|up x]; cbn [await_ok]; try done.
  1,2: intros [[] Hn]; split; [|done]; destruct (other_effects _ l e (He up eq_refl)) as [Ha Hs];
    split; rewrite ?Ha, ?Hs; try done; [intros j Hj; apply elem_of_app; left; by auto|intros j Hj; rewrite Hs; by auto].
  intros H E. by apply delivered_app, H.
Qed.

(** ** Steps of a running call *)

Lemma base_ext c s s' : s'.(work).(calls) = s.(work).(calls) -> (s.(work).(next_id) <= s'.(work).(next_id))%N ->
  s'.(log) = s.(log) -> s'.(statuses) = s.(statuses) ->
  (forall a, s'.(work).(activeChunkUpload) = Some a -> (a.1 < s'.(work).(next_id))%N) -> base c s -> base c s'.
Proof.
  intros Ec En El Es Ha []. split; rewrite ?Ec, ?El, ?Es; try done.
  - intros i Hi. apply b_key0. lia.
  - intros i Hi. specialize (b_self0 i Hi). lia.
  - intros c' id Hc Hi. specialize (b_used0 c' id Hc Hi). lia.
  - intros id Hi. apply b_unused0. lia.
Qed.

(** The view, and what a call of requestClose keeps *)
Lemma base_view c f s : base c s -> base c (on_view f s).
Proof. intros H. apply (base_ext c s); try done. apply (b_active _ _ H). Qed.

Lemma base_active c a s : (forall x, a = Some x -> (x.1 < s.(work).(next_id))%N) -> base c s -> base c (set_active a s).
Proof. intros Ha H. by apply (base_ext c s). Qed.

Definition effect_mine (c : option N) (s : Upload) (e : Effect) : Prop :=
  match e with
  | Sent (UploadChunk q) => mine c q.(k_uploadID) s /\ sends_of q.(k_uploadID) q.(k_index) s.(log) <= MAX_CHUNK_RETRIES
  | Sent (StopUpload id _) => (id < s.(work).(next_id))%N
  | Acked id _ => mine c id s
  | _ => True
  end.

Lemma effect_other c s e id : effect_mine c s e -> (mine c id s -> False) -> other id e = true.
Proof.
  intros He Hm. destruct e as [[]|i j| | | | | | |]; cbn in *; try done; apply negb_true_iff, N.eqb_neq; intros <-;
    apply Hm; first [apply He|exact He].
Qed.

Lemma effect_times c s e id k : effect_mine c s e -> sends_of id k s.(log) <= S MAX_CHUNK_RETRIES ->
  sends_of id k (s.(log) ++ [e]) <= S MAX_CHUNK_RETRIES.
Proof.
  intros He Hk. rewrite sends_of_app. destruct e as [[p|f p o n|q|i n]|i j| | | | | | |]; try (unfold sends_of at 2; cbn; lia).
  unfold sends_of at 2. cbn. destruct (N.eqb_spec (k_uploadID q) id) as [<-|]; cbn; [|lia].
  destruct (Nat.eqb_spec (k_index q) k) as [<-|]; cbn; [|lia]. destruct He as [_ He]. lia.
Qed.

Lemma effect_unused c s e id : effect_mine c s e -> (s.(work).(next_id) <= id)%N -> unused id s.(log) -> unused id (s.(log) ++ [e]).
Proof.
  intros He Hi (H1 & H2 & H3). assert (other id e = true) as Ho.
  { eapply effect_other; [done|]. intros [Hm _]. lia. }
  destruct (other_effects id s.(log) e Ho) as [Ha Hs]. split; [by intros k; rewrite Hs|]. split; [by rewrite Ha|].
  rewrite stops_app, H3. destruct e as [[p|f p o n|q|i n]|i j| | | | | | |]; try done. unfold stops. cbn in *.
  by rewrite (proj2 (N.eqb_neq i id)) by lia.
Qed.

Lemma base_does c s e : base c s -> effect_mine c s e -> base c (does e s).
Proof.
  intros [] He. split; cbn; try done.
  - intros c' r aw Hc Hl. apply await_ok_ext; [|by eapply b_calls0]. intros up Hu. eapply effect_other; [done|].
    intros [_ Hm]. apply (Hm c' Hc). by rewrite Hl; cbn; rewrite Hu.
  - intros id Hi. eapply effect_unused; [done..|]. by apply b_unused0.
  - intros id k. by eapply effect_times.
  - intros i Hi. destruct (b_status0 i Hi) as (f & Hf & Hd). exists f. split; [done|]. by apply delivered_app.
Qed.

Lemma base_status c i st s : base c s -> (st = Success -> exists f, f.(f_id) = i /\ delivered f s.(log)) -> base c (set_status i st s).
Proof.
  intros [] Hs. split; cbn; try done. intros j. destruct (decide (j = i)) as [->|Hne].
  - rewrite lookup_insert_eq. intros [= ->]. by apply Hs.
  - rewrite lookup_insert_ne by done. apply b_status0.
Qed.

Lemma lookup_call c o s c' : (set_call c o s).(work).(calls) !! c' = if decide (c' = c) then o else s.(work).(calls) !! c'.
Proof.
  cbn. destruct (decide (c' = c)) as [->|Hne]; [by rewrite lookup_partial_alter_eq|by rewrite lookup_partial_alter_ne].
Qed.

(** The call [c] ends, or awaits something. *)
Lemma base_ends c s : base (Some c) s -> base None (set_call c None s).
Proof.
  intros []. split; try done; [intros c' r aw _|intros i Hi|intros c' id _|intros c1 c2 id _ _]; rewrite !lookup_call.
  - case_decide; [done|]. apply b_calls0. congruence.
  - case_decide; [done|]. by apply b_key0.
  - case_decide; [done|]. apply b_used0. congruence.
  - repeat case_decide; try done. apply b_distinct0; congruence.
Qed.

Lemma base_awaits c r aw s : base (Some c) s -> await_ok s.(log) r aw ->
  (forall up, await_up aw = Some up -> mine (Some c) up.(c_id) s) -> base None (set_call c (Some (r, aw)) s).
Proof.
  intros [] Ha Hm.
  assert (Hown : forall id, call_ids (Some (r, aw)) = Some id -> mine (Some c) id s).
  { intros id. cbn. destruct (await_up aw) as [up|] eqn:E; [|done]. intros [= <-]. by apply Hm. }
  split; try done; [intros c' r' aw' _|intros i Hi|intros c' id _|intros c1 c2 id _ _]; rewrite !lookup_call.
  - case_decide; [by intros [= <- <-]|]. apply b_calls0. congruence.
  - change (next_id (work s) <= i)%N in Hi. specialize (b_self0 c eq_refl). rewrite decide_False by lia. by apply b_key0.
  - case_decide as E; [intros Hi; apply Hown in Hi as [? _]; done|]. apply b_used0. congruence.
  - repeat case_decide; subst; try done.
    + intros [_ Hx]%Hown H2. by destruct (Hx c2 ltac:(congruence)).
    + intros H2 [_ Hx]%Hown. by destruct (Hx c1 ltac:(congruence)).
    + apply b_distinct0; congruence.
Qed.

(** *** The operations, from the inside out *)

Lemma base_finish c r s : base (Some c) s -> base None (finish c r s).
Proof.
  intros H. unfold finish. cbv zeta. apply base_ends.
  assert (Hv : forall u, base (Some c) u -> base (Some c) (if decide (u.(work).(abortController) = Some c) then set_controller None u else u)).
  { intros u Hu. case_decide; [|done]. apply (base_ext (Some c) u); try done. apply (b_active _ _ Hu). }
  apply Hv. apply base_view, base_view. case_step; [|done]. by apply base_does; [apply base_view|].
Qed.

Lemma chunkCount_pos size : size <> 0%N -> 0 < chunkCount size.
Proof. intros Hs. destruct (chunkCount_spec size ltac:(lia)) as [H _]. lia. Qed.

(** A chunk is sent, for the first time or again. *)
Lemma base_sends c r up k n s : base (Some c) s -> mine (Some c) up.(c_id) s -> n <= MAX_CHUNK_RETRIES ->
  (n = 0 /\ k < up.(c_count) /\ at_chunk s.(log) r up k \/ sending s.(log) r up k n) ->
  base None (set_call c (Some (r, AwaitChunk up k n)) (does (Sent (UploadChunk (chunk_of r up k))) s)).
Proof.
  intros Hb Hm Hn Hs. assert (sends_of (c_id up) k (log s) = n) as Ht.
  { destruct Hs as [(-> & Hk & [])|[]]; [by apply ac_unsent0|done]. }
  apply base_awaits; [by apply base_does; [|cbn; rewrite Ht]| |by intros ? [= <-]].
  set (e := Sent (UploadChunk (chunk_of r up k))). cbn [await_ok does log]. split; [|done].
  assert (Hnow : sends_of (c_id up) k (log s ++ [e]) = S n).
  { rewrite sends_of_app, Ht. unfold sends_of, e. cbn. rewrite N.eqb_refl, Nat.eqb_refl. cbn. lia. }
  assert (Hafter : forall j, j <> k -> sends_of (c_id up) j (log s ++ [e]) = sends_of (c_id up) j (log s)).
  { intros j Hj. rewrite sends_of_app. unfold sends_of at 2, e. cbn. rewrite N.eqb_refl, (proj2 (Nat.eqb_neq k j)) by done. cbn. lia. }
  assert (Hacks : acks (c_id up) (log s ++ [e]) = acks (c_id up) (log s)) by (rewrite acks_app; apply app_nil_r).
  destruct Hs as [(-> & Hk & [])|[]]; split; rewrite ?Hacks; try done.
  - intros j Hj. apply elem_of_app. destruct (decide (j = k)) as [->|]; [right; by left|left; apply ac_sent0; lia].
  - intros j Hj. rewrite Hafter by lia. apply ac_unsent0. lia.
  - intros j Hj. apply elem_of_app. left. by apply se_sent0.
  - intros j Hj. rewrite Hafter by lia. by apply se_unsent0.
Qed.

Lemma base_next_file c r s : base (Some c) s -> base None (next_file c r s).
Proof.
  intros Hb. unfold next_file. destruct (r_files r !! r_index r) as [f|]; [|by apply base_finish]. cbv zeta.
  set (u := set_counts _ _ s). assert (base (Some c) u) as Hu by by apply base_view.
  case_step; [by apply base_finish|]. case_step.
  - apply base_awaits; [by apply base_does|by apply N.eqb_eq|done].
  - set (up := Build_ChunkUpload _ _ _ _ _). set (id := next_id (work u)).
    assert (base (Some c) (set_active (Some (id, r_node r)) (take_id u))) as Hv.
    { apply base_active; [intros x [= <-]; unfold id, u; cbn; lia|]. apply (base_ext (Some c) u); try done; [cbn; lia|].
      intros a Ha. change (a.1 < next_id (work u) + 1)%N. pose proof (b_active _ _ Hu a Ha). lia. }
    assert (unused id (log u)) as (U1 & U2 & U3) by by apply (b_unused _ _ Hu).
    apply base_sends; [done| |unfold MAX_CHUNK_RETRIES; lia|].
    + split; [unfold id, u; cbn; lia|]. intros c' Hc Hi. pose proof (b_used _ _ Hu c' id Hc Hi). unfold id in *. lia.
    + left. split; [done|]. assert (f_size f <> 0%N) as Hf by by apply N.eqb_neq. split; [by apply chunkCount_pos|].
      split; [cbn; lia|done|exact U2|intros j Hj; lia|intros j _; apply U1].
Qed.

Lemma base_file_done c r f result s : base (Some c) s -> (result = Returned true -> delivered f s.(log)) ->
  base None (file_done c r f result s).
Proof.
  intros Hb Hd. unfold file_done. cbv zeta. apply base_next_file.
  assert (Hs : forall u b, base (Some c) u -> (b = true -> delivered f u.(log)) ->
    base (Some c) (set_status (f_id f) (if b then Success else Fail) u)).
  { intros u b Hu Hx. apply base_status; [done|]. destruct b; [|done]. intros _. exists f. split; [done|by apply Hx]. }
  destruct result as [b|e]; [apply Hs; [done|by intros ->; apply Hd]|].
  apply (Hs _ false); [|done]. case_step; [done|]. by apply base_does.
Qed.

(** The stop of the active upload *)
Lemma base_stop c a s : base c s -> s.(work).(activeChunkUpload) = Some a ->
  base c (does (Sent (StopUpload a.1 a.2)) (set_active None s)).
Proof. intros Hb Ha. apply base_does; [by apply base_active|]. apply (b_active _ _ Hb a Ha). Qed.

Lemma cleanup_base c s : base c s -> base c (cleanupActiveChunkUpload s).2.
Proof. intros Hb. unfold cleanupActiveChunkUpload. destruct (activeChunkUpload (work s)) as [a|] eqn:Ha; [by apply base_stop|done]. Qed.

Lemma cleanup_parts s :
  let s' := (cleanupActiveChunkUpload s).2 in
  s'.(work).(calls) = s.(work).(calls) /\ s'.(work).(next_id) = s.(work).(next_id) /\
  s'.(log) = s.(log) ++ match s.(work).(activeChunkUpload) with Some a => [Sent (StopUpload a.1 a.2)] | None => [] end.
Proof. cbv zeta. unfold cleanupActiveChunkUpload. destruct (activeChunkUpload (work s)); [done|]. by rewrite app_nil_r. Qed.

Lemma base_leave c r up result s : base (Some c) s -> mine (Some c) up.(c_id) s ->
  (result = Returned true -> delivered up.(c_file) s.(log)) -> base None (leave c r up result s).
Proof.
  intros Hb Hm Hd. unfold leave. destruct (activeChunkUpload (work s)) as [a|] eqn:Ea; [|by apply base_file_done].
  case_decide; [|by apply base_file_done]. case_step.
  - destruct (cleanup_parts s) as (Ec & En & El). apply base_awaits; [by apply cleanup_base| |].
    + cbn [await_ok]. rewrite El. intros E. by apply delivered_app, Hd.
    + intros ? [= <-]. unfold mine. by rewrite Ec, En.
  - apply base_file_done; [by apply base_active|done].
Qed.

Lemma base_catch c r up e s : base (Some c) s -> mine (Some c) up.(c_id) s -> base None (catch c r up e s).
Proof.
  intros Hb Hm. unfold catch. pose proof (cleanup_base _ _ Hb) as Hc. destruct (cleanup_parts s) as (Ec & En & El).
  destruct (cleanupActiveChunkUpload s) as [awaits s']. cbn in *.
  assert (mine (Some c) up.(c_id) s') as Hm' by (unfold mine; by rewrite Ec, En).
  case_step; [by apply base_awaits; [| |intros ? [= <-]]|by apply base_leave].
Qed.

(** The chunk [k] of an upload is acknowledged. *)
Lemma base_acked c r up k n s : base (Some c) s -> mine (Some c) up.(c_id) s -> sending s.(log) r up k n ->
  let s' := does (Acked up.(c_id) k) s in
  base (Some c) s' /\ mine (Some c) up.(c_id) s' /\ at_chunk s'.(log) r up (S k) /\
  (S k = up.(c_count) -> delivered up.(c_file) s'.(log)).
Proof.
  intros Hb Hm []. cbv zeta. set (s' := does _ s). assert (Hl : log s' = log s ++ [Acked (c_id up) k]) by done.
  assert (Ha : acks (c_id up) (log s') = seq 0 (S k)).
  { rewrite Hl, acks_app, se_acks0, seq_S. cbn. by rewrite N.eqb_refl. }
  assert (Hs : forall j, sends_of (c_id up) j (log s') = sends_of (c_id up) j (log s)).
  { intros j. rewrite Hl, sends_of_app. unfold sends_of at 2. cbn. lia. }
  assert (Hin : forall j, j < S k -> Sent (UploadChunk (chunk_of r up j)) ∈ log s').
  { intros j Hj. rewrite Hl. apply elem_of_app. left. apply se_sent0. lia. }
  split; [by apply base_does|]. split; [done|]. split; [split; try done; intros j Hj; rewrite Hs; apply se_unsent0; lia|].
  intros E. unfold delivered. rewrite (proj2 (N.eqb_neq _ _)) by lia. exists r, up, (log s'). rewrite <- se_count0, <- E. done.
Qed.

Lemma base_next_chunk c r up k s : base (Some c) s -> mine (Some c) up.(c_id) s -> at_chunk s.(log) r up k ->
  (k = up.(c_count) -> delivered up.(c_file) s.(log)) -> base None (next_chunk c r up k s).
Proof.
  intros Hb Hm Hc Hd. unfold next_chunk. destruct (Nat.ltb_spec k (c_count up)) as [Hk|Hk].
  - case_step; [by apply base_leave|]. apply base_sends; [done..|unfold MAX_CHUNK_RETRIES; lia|by left].
  - apply base_leave; [done..|]. intros [= E%Nat.eqb_eq]. by apply Hd.
Qed.

Lemma base_refused c r up k n e s : base (Some c) s -> mine (Some c) up.(c_id) s -> sending s.(log) r up k (S n) ->
  base None (refused c r up k n e s).
Proof.
  intros Hb Hm Hs. unfold refused. case_step; [by apply base_catch|].
  apply base_awaits; [by apply base_does| |by intros ? [= <-]]. rewrite !orb_false_iff in *. destruct_and?.
  assert (n < MAX_CHUNK_RETRIES) by (rewrite Nat.leb_gt in *; lia). split; [|done].
  cbn [does log]. destruct Hs. destruct (other_effects (c_id up) (log s) (RetryIn (500 * 2 ^ N.of_nat n)) eq_refl) as [Ha Hse].
  split; rewrite ?Ha, ?Hse; try done; [intros j Hj; apply elem_of_app; left; by auto|intros j Hj; rewrite Hse; by auto].
Qed.

(** ** Every event *)

Lemma base_running c s r aw : base None s -> s.(work).(calls) !! c = Some (r, aw) ->
  base (Some c) s /\ await_ok s.(log) r aw /\ (forall up, await_up aw = Some up -> mine (Some c) up.(c_id) s).
Proof.
  intros [] Hc. assert (c < next_id (work s))%N as Hlt.
  { apply N.nle_gt. intros Hge. by rewrite b_key0 in Hc. }
  split; [split; eauto; by intros i [= <-]|]. split; [by eapply b_calls0|]. intros up Hu.
  assert (call_ids (s.(work).(calls) !! c) = Some (c_id up)) as Hi by (rewrite Hc; cbn; by rewrite Hu).
  split; [by eapply b_used0|]. intros c' Hne Hi'. apply Hne. f_equal. by eapply b_distinct0.
Qed.

Lemma base_resume c a s : base None s -> base None (resume c a s).
Proof.
  intros Hb. unfold resume. destruct (calls (work s) !! c) as [[r aw]|] eqn:Hc; [|done].
  destruct (base_running _ _ _ _ Hb Hc) as (Hs & Ha & Hm). destruct aw as [f|up k n|up k n|up x|up x]; cbn [await_ok await_up] in *.
  - destruct a as [|e]; [|by apply base_file_done]. apply base_file_done; [by apply base_does|]. intros _. unfold delivered.
    rewrite Ha. cbn. apply elem_of_app. right. by left.
  - destruct Ha as [Ha Hn]. specialize (Hm up eq_refl). destruct a as [|e]; [|by apply base_refused].
    destruct (base_acked _ _ _ _ _ _ Hs Hm Ha) as (H1 & H2 & H3 & H4). by apply base_next_chunk.
  - destruct Ha as [Ha Hn]. specialize (Hm up eq_refl). case_step.
    + unfold refused. replace (is_aborted c s) with true by done. cbn [orb]. by apply base_catch.
    + apply base_sends; [done..|lia|by right].
  - specialize (Hm up eq_refl). by apply base_leave.
  - by apply base_file_done.
Qed.

(** What leaves the calls, the identities and the log's accounts alone *)
Lemma base_work f s : base None s -> (f s.(work)).(calls) = s.(work).(calls) -> (f s.(work)).(next_id) = s.(work).(next_id) ->
  (f s.(work)).(activeChunkUpload) = s.(work).(activeChunkUpload) -> base None (on_work f s).
Proof.
  intros H Ec En Ea. apply (base_ext None s); try done; cbn; rewrite ?En, ?Ea; [done|]. apply (b_active _ _ H).
Qed.

Lemma base_uploadFile node files overwrite s : base None s -> base None (uploadFile node files overwrite s).
Proof.
  intros Hb. unfold uploadFile. destruct files as [|f files]; [by apply base_view|]. cbv zeta.
  set (u := set_counts _ _ _). assert (base None u) as Hu by by apply base_view, base_view.
  apply base_next_file. set (c := next_id (work u)).
  assert (base None (set_controller (Some c) (take_id u))) as Hv.
  { apply (base_ext None u); try done; [cbn; lia|]. intros a Ha. change (a.1 < next_id (work u) + 1)%N.
    pose proof (b_active _ _ Hu a Ha). lia. }
  destruct Hv. split; eauto. intros i [= <-]. change (c < next_id (work u) + 1)%N. unfold c. lia.
Qed.

Lemma base_closed done_ controller s : base None s -> base None (closed done_ controller s).
Proof.
  intros Hb. unfold closed, finishClose. cbv zeta. apply base_view.
  set (u := if decide _ then _ else _). assert (base None u) as Hu by (unfold u; case_decide; [by apply base_work|done]).
  clearbody u. assert (base None (clearFiles (set_counts 0 0 (set_loading false (set_open false u))))) as Hv by by repeat apply base_view.
  case_step; [by apply base_does; [apply base_does|]|by apply base_does].
Qed.

Lemma base_finishClose done_ s : base None s -> base None (finishClose done_ s).
Proof.
  intros Hb. unfold finishClose. cbv zeta. assert (base None (clearFiles (set_counts 0 0 (set_loading false (set_open false s))))) as Hv
    by by repeat apply base_view.
  case_step; [by apply base_does; [apply base_does|]|by apply base_does].
Qed.

Lemma base_resume_close n confirmed s : base None s -> base None (resume_close n confirmed s).
Proof.
  intros Hb. unfold resume_close. destruct (closes (work s) !! n) as [[done_|done_ controller]|]; [| |done].
  - cbv zeta. set (u := set_closes _ s). assert (base None u) as Hu by by apply base_work.
    case_step; [by apply base_view|]. case_step; [by apply base_view, base_finishClose|].
    set (v := match abortController (work u) with Some c => abort c u | None => u end).
    assert (base None v) as Hv by (unfold v; destruct (abortController (work u)); [by apply base_work|done]).
    pose proof (cleanup_base _ _ Hv) as Hc. destruct (cleanupActiveChunkUpload v) as [awaits w]. cbn in Hc.
    case_step; [by apply base_work|by apply base_closed].
  - by apply base_closed, base_work.
Qed.

Lemma base_handle node e s : base None s -> base None (handle node e s).
Proof.
  intros Hb. destruct e as [p a| |n found|skip| |c a|done_|n confirmed|i|tmp|l|f| |]; cbn [handle].
  - unfold acceptParams. by repeat apply base_view.
  - unfold submit. cbv zeta. apply base_work; [by apply base_does|done..].
  - unfold resume_check. destruct (checks (work s) !! n) as [files|]; [|done]. cbv zeta.
    set (u := set_checks _ s). assert (base None u) as Hu by by apply base_work.
    destruct found as [[|q l]|]; [by apply base_uploadFile|by apply base_work|done].
  - unfold choose. destruct (existing (work s)) as [paths|]; [|done].
    set (u := set_existing None s). assert (base None u) as Hu by by apply base_work. unfold handleFileUpload. cbv zeta.
    case_step; apply base_uploadFile; [by apply base_view|done].
  - by apply base_work.
  - by apply base_resume.
  - unfold requestClose. case_step; [done|]. case_step; [by apply base_finishClose|]. apply base_work; [by apply base_view|done..].
  - by apply base_resume_close.
  - unfold removeFile. case_step; [done|by apply base_view].
  - unfold handleDrop. destruct tmp; [by apply base_view|by apply base_does].
  - by apply base_view.
  - unfold unreadable. apply base_does; [by apply base_view|done].
  - unfold handleExceed. apply base_does; [by apply base_view|done].
  - by apply base_view.
Qed.

Lemma base_initial : base None initial_upload.
Proof. split; try done. intros id k. unfold sends_of. cbn. lia. Qed.

(** The states events lead to, with the current node of each event. *)
Definition run (es : list (jsstr * Event)) (s : Upload) : Upload := foldl (fun s e => handle e.1 e.2 s) s es.

Lemma base_run es s : base None s -> base None (run es s).
Proof. revert s. induction es as [|[node e] es IH]; intros s Hs; [done|]. by apply IH, base_handle. Qed.

(** ** Every call ends *)

Definition file_weight (f : UFile) : nat := 8 * chunkCount f.(f_size) + 8.
Definition files_weight (l : list UFile) : nat := list_sum (List.map file_weight l).
Definition rest_weight (r : Run) : nat := files_weight (drop (S r.(r_index)) r.(r_files)).

(** A bound on the answers a call can still take. *)
Definition weight (r : Run) (aw : Await) : nat :=
  match aw with
  | AwaitEmpty _ => 1
  | AwaitChunk up k n => 8 * (up.(c_count) - k) + 2 * (3 - n) + 1
  | AwaitRetry up k n => 8 * (up.(c_count) - k) + 2 * (3 - n)
  | AwaitCatch _ _ => 2
  | AwaitFinally _ _ => 1
  end + rest_weight r.

Definition weight_of (c : N) (s : Upload) : nat :=
  match s.(work).(calls) !! c with Some (r, aw) => weight r aw | None => 0 end.

Lemma weight_call c r aw s : weight_of c (set_call c (Some (r, aw)) s) = weight r aw.
Proof. unfold weight_of. rewrite lookup_call. by rewrite decide_True. Qed.

Lemma weight_finish c r s : weight_of c (finish c r s) = 0.
Proof. unfold finish, weight_of. cbv zeta. rewrite lookup_call. by rewrite decide_True. Qed.

Lemma weight_next_file c r s : weight_of c (next_file c r s) <= files_weight (drop r.(r_index) r.(r_files)).
Proof.
  unfold next_file. destruct (r_files r !! r_index r) as [f|] eqn:Hf; [|rewrite weight_finish; lia]. cbv zeta.
  assert (files_weight (drop (r_index r) (r_files r)) = file_weight f + rest_weight r) as -> by by rewrite (drop_S _ f).
  case_step; [rewrite weight_finish; lia|].
  case_step; rewrite weight_call; unfold weight, file_weight; cbn [c_count]; lia.
Qed.

Lemma weight_file_done c r f result s : weight_of c (file_done c r f result s) <= rest_weight r.
Proof.
  unfold file_done. cbv zeta. set (r' := Build_Run _ _ _ _ _).
  change (rest_weight r) with (files_weight (drop (r_index r') (r_files r'))). apply weight_next_file.
Qed.

Lemma weight_leave c r up result s : weight_of c (leave c r up result s) <= 1 + rest_weight r.
Proof.
  pose proof (fun s => weight_file_done c r up.(c_file) result s) as Hd. unfold leave.
  destruct (activeChunkUpload (work s)); [|specialize (Hd s); lia]. case_decide; [|specialize (Hd s); lia].
  case_step; [by rewrite weight_call|]. specialize (Hd (set_active None s)). lia.
Qed.

Lemma weight_catch c r up e s : weight_of c (catch c r up e s) <= 2 + rest_weight r.
Proof.
  unfold catch. destruct (cleanupActiveChunkUpload s) as [awaits s']. case_step; [by rewrite weight_call|].
  pose proof (weight_leave c r up (Threw e) s'). lia.
Qed.

Lemma weight_refused c r up k n e s : n <= MAX_CHUNK_RETRIES -> k < up.(c_count) ->
  weight_of c (refused c r up k n e s) < weight r (AwaitChunk up k n).
Proof.
  intros Hn Hk. unfold refused. case_step.
  - pose proof (weight_catch c r up e s). unfold weight. lia.
  - rewrite weight_call. unfold weight. lia.
Qed.

(** An answer brings a call nearer to its end. *)
Lemma weight_resume c a s r aw : base None s -> s.(work).(calls) !! c = Some (r, aw) ->
  weight_of c (resume c a s) < weight r aw.
Proof.
  intros Hb Hc. destruct (base_running _ _ _ _ Hb Hc) as (_ & Ha & _). unfold resume. rewrite Hc.
  destruct aw as [f|up k n|up k n|up x|up x]; cbn [await_ok] in Ha.
  - assert (forall res u, weight_of c (file_done c r f res u) < weight r (AwaitEmpty f)) as H.
    { intros res u. pose proof (weight_file_done c r f res u). unfold weight. lia. }
    destruct a; apply H.
  - destruct Ha as [[] Hn]. unfold MAX_CHUNK_RETRIES in Hn. destruct a as [|e]; [|by apply weight_refused].
    unfold next_chunk. destruct (Nat.ltb_spec (S k) (c_count up)).
    + case_step; [pose proof (weight_leave c r up (Returned false) (does (Acked (c_id up) k) s))|rewrite weight_call]; unfold weight; lia.
    + pose proof (weight_leave c r up (Returned (S k =? c_count up)) (does (Acked (c_id up) k) s)). unfold weight. lia.
  - destruct Ha as [[] Hn]. unfold MAX_CHUNK_RETRIES in Hn. case_step.
    + unfold refused. replace (is_aborted c s) with true by done. cbn [orb].
      pose proof (weight_catch c r up canceled s). unfold weight. lia.
    + rewrite weight_call. unfold weight. lia.
  - pose proof (weight_leave c r up (Threw x) s). unfold weight. lia.
  - pose proof (weight_file_done c r up.(c_file) x s). unfold weight. lia.
Qed.

(** The operations of one call leave the others alone. *)
Definition same_but (c : N) (s s' : Upload) : Prop := forall c', c' <> c -> s'.(work).(calls) !! c' = s.(work).(calls) !! c'.

Lemma same_call c o s s' : s'.(work).(calls) = s.(work).(calls) -> same_but c s (set_call c o s').
Proof. intros E c' Hc. rewrite lookup_call, decide_False by done. by rewrite E. Qed.

Lemma same_finish c r s s' : s'.(work).(calls) = s.(work).(calls) -> same_but c s (finish c r s').
Proof.
  intros E. unfold finish. cbv zeta. apply same_call. case_decide; case_step; exact E.
Qed.

Lemma same_next_file c r s s' : s'.(work).(calls) = s.(work).(calls) -> same_but c s (next_file c r s').
Proof.
  intros E. unfold next_file. destruct (r_files r !! r_index r); [|by apply same_finish]. cbv zeta.
  case_step; [by apply same_finish|]. case_step; by apply same_call.
Qed.

Lemma same_file_done c r f result s s' : s'.(work).(calls) = s.(work).(calls) -> same_but c s (file_done c r f result s').
Proof. intros E. unfold file_done. cbv zeta. apply same_next_file. destruct result; [|case_step]; exact E. Qed.

Lemma call_leave c r up result s s' : s'.(work).(calls) = s.(work).(calls) -> same_but c s (leave c r up result s').
Proof.
  intros E. unfold leave. destruct (activeChunkUpload (work s')); [|by apply same_file_done]. case_decide; [|by apply same_file_done].
  case_step; [apply same_call; by rewrite (proj1 (cleanup_parts s'))|by apply same_file_done].
Qed.

Lemma same_catch c r up e s s' : s'.(work).(calls) = s.(work).(calls) -> same_but c s (catch c r up e s').
Proof.
  intros E. unfold catch. pose proof (proj1 (cleanup_parts s')) as Ec. destruct (cleanupActiveChunkUpload s') as [awaits u].
  cbn in Ec. case_step; [apply same_call|apply call_leave]; congruence.
Qed.

Lemma same_refused c r up k n e s : same_but c s (refused c r up k n e s).
Proof. unfold refused. case_step; [by apply same_catch|by apply same_call]. Qed.

Lemma same_resume c a s : same_but c s (resume c a s).
Proof.
  unfold resume. destruct (calls (work s) !! c) as [[r [f|up k n|up k n|up x|up x]]|]; [..|done].
  - destruct a; by apply same_file_done.
  - destruct a; [|apply same_refused]. unfold next_chunk. repeat case_step; first [by apply same_call|by apply call_leave].
  - case_step; [apply same_refused|by apply same_call].
  - by apply call_leave.
  - by apply same_file_done.
Qed.

Lemma same_uploadFile node files overwrite s : same_but s.(work).(next_id) s (uploadFile node files overwrite s).
Proof. unfold uploadFile. destruct files; [done|]. cbv zeta. by apply same_next_file. Qed.

Lemma finishClose_calls done_ s : (finishClose done_ s).(work).(calls) = s.(work).(calls).
Proof. unfold finishClose. cbv zeta. by case_step. Qed.

Lemma closed_calls done_ controller s : (closed done_ controller s).(work).(calls) = s.(work).(calls).
Proof. unfold closed. cbv zeta. cbn. rewrite finishClose_calls. by case_decide. Qed.

Lemma resume_close_calls n b s : (resume_close n b s).(work).(calls) = s.(work).(calls).
Proof.
  unfold resume_close. destruct (closes (work s) !! n) as [[done_|done_ controller]|]; [|by rewrite closed_calls|done].
  cbv zeta. case_step; [done|]. case_step; [cbn; by rewrite finishClose_calls|].
  match goal with |- context [cleanupActiveChunkUpload ?v] => assert (calls (work v) = calls (work s)) as Ev by (by destruct (abortController _));
    pose proof (eq_trans (proj1 (cleanup_parts v)) Ev) as Ec; destruct (cleanupActiveChunkUpload v) as [awaits w] end.
  cbn [snd] in Ec. case_step; [exact Ec|by rewrite closed_calls].
Qed.

(** Other events leave a call as it is. *)
Lemma handle_other node e s c o : s.(work).(calls) !! c = Some o -> base None s -> (forall a, e <> Resume c a) ->
  (handle node e s).(work).(calls) !! c = Some o.
Proof.
  intros Hc Hb He. assert (c <> next_id (work s)) as Hn by (intros ->; by rewrite (b_key _ _ Hb) in Hc).
  assert (Hu : forall files o' u, next_id (work u) = next_id (work s) -> calls (work u) = calls (work s) ->
    calls (work (uploadFile node files o' u)) !! c = Some o).
  { intros files o' u En Ec. rewrite (same_uploadFile node files o' u c) by congruence. by rewrite Ec. }
  destruct e as [p a| |n found|skip| |c' a|done_|n confirmed|i|tmp|l|f| |]; cbn [handle]; try done.
  - unfold resume_check. destruct (checks (work s) !! n); [|done]. cbv zeta. destruct found as [[|q qs]|]; [by apply Hu|done|done].
  - unfold choose. destruct (existing (work s)); [|done]. unfold handleFileUpload. cbv zeta. case_step; by apply Hu.
  - assert (c' <> c) as Hne by (intros ->; by destruct (He a)). by rewrite (same_resume c' a s c) by done.
  - unfold requestClose. case_step; [done|]. case_step; [by rewrite finishClose_calls|done].
  - by rewrite resume_close_calls.
  - unfold removeFile. by case_step.
  - unfold handleDrop. by destruct tmp.
Qed.

Definition answers (c : N) (es : list (jsstr * Event)) : nat :=
  length (List.filter (fun e => match e.2 with Resume c' _ => (c' =? c)%N | _ => false end) es).

Lemma upload_ends_from c es s : base None s -> weight_of c s <= answers c es -> is_Some (s.(work).(calls) !! c) ->
  exists es1 es2, es = es1 ++ es2 /\ (run es1 s).(work).(calls) !! c = None.
Proof.
  revert s. induction es as [|[node e] es IH]; intros s Hb Hw [[r aw] Hc].
  - pose proof (weight_resume c Ok s r aw Hb Hc). unfold weight_of at 1 in Hw. rewrite Hc in Hw. cbn in Hw. lia.
  - destruct (calls (work (handle node e s)) !! c) as [[r' aw']|] eqn:Hc'; [|by exists [(node, e)], es].
    assert (exists a, e = Resume c a \/ forall a, e <> Resume c a) as [a [->|He]].
    { destruct e as [| | | | |c' a| | | | | | | |]; try (by exists Ok; right).
      destruct (decide (c' = c)) as [->|Hne]; [exists a; by left|exists a; right; congruence]. }
    + cbn [handle] in Hc'. pose proof (weight_resume c a s r aw Hb Hc) as Hlt. unfold answers in Hw. cbn in Hw.
      rewrite N.eqb_refl in Hw. cbn in Hw. fold (answers c es) in Hw.
      destruct (IH (resume c a s)) as (es1 & es2 & -> & H); [by apply base_resume| |by eexists|by exists ((node, Resume c a) :: es1), es2].
      unfold weight_of in Hw at 1. rewrite Hc in Hw. lia.
    + assert (handle_same : weight_of c (handle node e s) = weight_of c s).
      { unfold weight_of. rewrite (handle_other node e s c (r, aw)) by done. by rewrite Hc. }
      destruct (IH (handle node e s)) as (es1 & es2 & -> & H); [by apply base_handle| |by eexists|by exists ((node, e) :: es1), es2].
      rewrite handle_same. etrans; [exact Hw|]. unfold answers. cbn.
      destruct e as [| | | | |c' x| | | | | | | |]; try done. destruct (N.eqb_spec c' c) as [->|]; [by destruct (He x)|done].
Qed.

(** ** Nothing is left behind on the server *)

(** All chunks of the upload are acknowledged. *)
Definition complete (id : N) (l : list Effect) : Prop :=
  exists q, Sent (UploadChunk q) ∈ l /\ q.(k_uploadID) = id /\ acks id l = seq 0 q.(k_count).

(** An upload is stopped once, or was completed or never begun. *)
Definition settled (id : N) (l : list Effect) : Prop :=
  stops id l = 1 \/ stops id l = 0 /\ (complete id l \/ forall k, sends_of id k l = 0).

(** Effects that are not about [id], or only repeat what is known *)
Definition unrelated (id : N) (e : Effect) : bool :=
  other id e && match e with Sent (StopUpload i _) => negb (i =? id)%N | _ => true end.

Lemma unrelated_stops id l e : unrelated id e = true -> stops id (l ++ [e]) = stops id l.
Proof.
  intros [_ He]%andb_true_iff. rewrite stops_app. destruct e as [[p|f p o n|q|i n]|i j| | | | | | |]; try (unfold stops at 2; cbn; lia).
  unfold stops at 2. cbn. rewrite (proj1 (negb_true_iff _) He). cbn. lia.
Qed.

Lemma unrelated_settled id l e : unrelated id e = true -> settled id l -> settled id (l ++ [e]).
Proof.
  intros He Hs. pose proof (unrelated_stops _ l _ He) as Ht. apply andb_true_iff in He as [He _].
  destruct (other_effects id l e He) as [Ha Hk]. unfold settled. rewrite Ht. destruct Hs as [Hs|[H0 Hs]]; [by left|].
  right. split; [done|]. destruct Hs as [(q & Hq & Hi & Hx)|Hs]; [left|right; intros k; by rewrite Hk].
  exists q. split; [apply elem_of_app; by left|]. by rewrite Ha.
Qed.

Definition idle (s : Upload) : Prop := s.(work).(activeChunkUpload) = None /\ forall id, settled id s.(log).

(** The upload [id] is the active one, or has been stopped by the page; all others are settled. *)
Definition held (id : N) (s : Upload) : Prop :=
  (forall i, i <> id -> settled i s.(log)) /\
  ((exists node, s.(work).(activeChunkUpload) = Some (id, node)) /\ stops id s.(log) = 0 \/
   s.(work).(activeChunkUpload) = None /\ stops id s.(log) = 1).

Definition await_state (s : Upload) (aw : Await) : Prop :=
  match aw with
  | AwaitEmpty _ => idle s
  | AwaitChunk up _ _ | AwaitRetry up _ _ => held up.(c_id) s
  | AwaitCatch up _ | AwaitFinally up _ => idle s /\ stops up.(c_id) s.(log) = 1
  end.

(** One call at a time, in its state *)
Record single (s : Upload) : Prop := {
  si_one c c' : is_Some (s.(work).(calls) !! c) -> is_Some (s.(work).(calls) !! c') -> c = c';
  si_state c r aw : s.(work).(calls) !! c = Some (r, aw) -> await_state s aw;
  si_idle : (forall c, s.(work).(calls) !! c = None) -> idle s
}.

Definition only (c : N) (s : Upload) : Prop := forall c', c' <> c -> s.(work).(calls) !! c' = None.

Lemma single_awaits c r aw s : only c s -> await_state s aw -> single (set_call c (Some (r, aw)) s).
Proof.
  intros Ho Ha. assert (forall c', is_Some (calls (work (set_call c (Some (r, aw)) s)) !! c') -> c' = c) as H1.
  { intros c'. rewrite lookup_call. case_decide; [done|]. rewrite Ho by done. by intros [? ?]. }
  split.
  - intros c1 c2 Hc1%H1 Hc2%H1. congruence.
  - intros c' r' aw' Hc. pose proof (H1 c' ltac:(by eexists)) as ->. rewrite lookup_call, decide_True in Hc by done.
    by injection Hc as <- <-.
  - intros H. specialize (H c). by rewrite lookup_call, decide_True in H.
Qed.

Lemma single_ends c s : only c s -> idle s -> single (set_call c None s).
Proof.
  intros Ho Hi. assert (forall c', calls (work (set_call c None s)) !! c' = None) as H1.
  { intros c'. rewrite lookup_call. case_decide; [done|]. by apply Ho. }
  split; [intros c1 c2; rewrite H1; by intros [? ?]|intros c1 r aw; by rewrite H1|done].
Qed.

Lemma idle_does e s : (forall id, unrelated id e = true) -> idle s -> idle (does e s).
Proof. intros He [Ha Hs]. split; [done|]. intros id. by apply unrelated_settled. Qed.

Lemma held_does e id s : (forall i, i <> id -> unrelated i e = true) -> stops id (s.(log) ++ [e]) = stops id s.(log) ->
  held id s -> held id (does e s).
Proof. intros He Hs [Ho H]. split; [intros i Hi; apply unrelated_settled; auto|]. change (log (does e s)) with (log s ++ [e]). by rewrite Hs. Qed.

Lemma idle_finish c r s : only c s -> idle s -> single (finish c r s).
Proof.
  intros Ho Hi. unfold finish. cbv zeta. apply single_ends.
  - case_decide; case_step; exact Ho.
  - assert (forall u, idle u -> idle (if decide (u.(work).(abortController) = Some c) then set_controller None u else u)) as Hc
      by (intros u Hu; by case_decide).
    apply Hc. case_step; [|done]. by apply (idle_does SuccessShown s).
Qed.

Lemma stops_fresh r up k id l : stops id (l ++ [Sent (UploadChunk (chunk_of r up k))]) = stops id l.
Proof. rewrite stops_app. unfold stops at 2. cbn. lia. Qed.

Lemma chunk_unrelated r up k i : i <> up.(c_id) -> unrelated i (Sent (UploadChunk (chunk_of r up k))) = true.
Proof. intros Hi. unfold unrelated. cbn. by rewrite (proj2 (N.eqb_neq (c_id up) i)) by congruence. Qed.

Lemma idle_next_file c r s : base (Some c) s -> only c s -> idle s -> single (next_file c r s).
Proof.
  intros Hb Ho Hi. unfold next_file. destruct (r_files r !! r_index r) as [f|]; [|by apply idle_finish]. cbv zeta.
  case_step; [by apply idle_finish|]. case_step.
  - apply single_awaits; [done|]. by apply (idle_does (Sent (UploadEmpty _ _ _ _)) s).
  - apply single_awaits; [done|]. cbn [await_state c_id]. destruct Hi as [Ha Hs].
    destruct (b_unused _ _ Hb (next_id (work s)) ltac:(lia)) as (_ & _ & H0). split.
    + intros i Hi. apply unrelated_settled; [by apply chunk_unrelated|apply Hs].
    + left. split; [by eexists|]. cbn [does log]. rewrite stops_fresh. exact H0.
Qed.

Lemma idle_file_done c r f result s : base (Some c) s -> (result = Returned true -> delivered f s.(log)) -> only c s -> idle s ->
  single (file_done c r f result s).
Proof.
  intros Hb Hd Ho Hi. unfold file_done. cbv zeta.
  set (u := match result with Returned _ => s | Threw e => _ end).
  assert (base (Some c) u /\ only c u /\ idle u /\ (result = Returned true -> delivered f u.(log))) as (H1 & H2 & H3 & H4).
  { unfold u. destruct result as [b|e]; [done|]. case_step; [done|]. split; [by apply base_does|]. split; [done|].
    split; [by apply idle_does|done]. }
  apply idle_next_file; [|done|done]. apply base_status; [done|]. destruct result as [[]|e]; try done.
  intros _. exists f. split; [done|by apply H4].
Qed.

(** The active upload is stopped. *)
Lemma held_cleanup id s : held id s -> let s' := (cleanupActiveChunkUpload s).2 in idle s' /\ stops id s'.(log) = 1.
Proof.
  intros [Ho H]. cbv zeta. unfold cleanupActiveChunkUpload. destruct H as [[(node & Ha) Hs]|[Ha Hs]]; rewrite Ha.
  - cbn. assert (stops id (log s ++ [Sent (StopUpload id node)]) = 1) as H1.
    { rewrite stops_app, Hs. unfold stops. cbn. by rewrite N.eqb_refl. }
    split; [split; [done|]|exact H1]. intros i. destruct (decide (i = id)) as [->|Hne]; [by left|].
    apply unrelated_settled; [|by apply Ho]. unfold unrelated. cbn. by rewrite (proj2 (N.eqb_neq id i)) by congruence.
  - split; [|done]. split; [done|]. intros i. destruct (decide (i = id)) as [->|Hne]; [by left|by apply Ho].
Qed.

Lemma held_leave c r up result s : base (Some c) s -> only c s -> held up.(c_id) s ->
  (result = Returned true -> delivered up.(c_file) s.(log) /\ complete up.(c_id) s.(log)) ->
  (result <> Returned true -> is_aborted c s = true \/ s.(work).(activeChunkUpload) = None) ->
  single (leave c r up result s).
Proof.
  intros Hb Ho Hh Hd Hx. pose proof (held_cleanup _ _ Hh) as Hc. destruct Hh as [Hs H]. unfold leave.
  destruct H as [[(node & Ha) H0]|[Ha H1]]; rewrite Ha.
  - cbn [fst]. rewrite decide_True by done. case_step.
    + apply single_awaits; [|exact Hc]. intros c' Hne. rewrite (proj1 (cleanup_parts s)). by apply Ho.
    + assert (result = Returned true) as ->.
      { destruct result as [[]|e]; [done|..]; (destruct Hx as [Hx|Hx]; [done|done|congruence]). }
      destruct (Hd eq_refl) as [Hd1 Hd2]. apply idle_file_done; [by apply base_active|done|done|]. split; [done|].
      intros i. destruct (decide (i = c_id up)) as [->|Hne]; [right; split; [done|by left]|by apply Hs].
  - apply idle_file_done; [done|by intros E; apply Hd|done|]. split; [done|].
    intros i. destruct (decide (i = c_id up)) as [->|Hne]; [by left|by apply Hs].
Qed.

Lemma held_stopped id s : idle s -> stops id s.(log) = 1 -> held id s.
Proof. intros [Ha Hs] H1. split; [by intros i _|by right]. Qed.

Lemma held_catch c r up e s : base (Some c) s -> only c s -> held up.(c_id) s -> single (catch c r up e s).
Proof.
  intros Hb Ho Hh. unfold catch. pose proof (held_cleanup _ _ Hh) as [Hi H1]. pose proof (cleanup_base _ _ Hb) as Hb'.
  pose proof (proj1 (cleanup_parts s)) as Ec. destruct (cleanupActiveChunkUpload s) as [awaits s']. cbn [snd] in *.
  assert (only c s') as Ho' by (intros c' Hne; rewrite Ec; by apply Ho).
  case_step; [by apply single_awaits|]. apply held_leave; [done|done|by apply held_stopped|done|]. intros _. right. apply Hi.
Qed.

Lemma held_acked id k s : held id s -> held id (does (Acked id k) s).
Proof.
  intros H. apply held_does; [|by rewrite stops_app; unfold stops at 2; cbn; lia|done].
  intros i Hi. unfold unrelated. cbn. by rewrite (proj2 (N.eqb_neq id i)) by congruence.
Qed.

Lemma held_next_chunk c r up k s : base (Some c) s -> only c s -> held up.(c_id) s -> at_chunk s.(log) r up k ->
  k <= up.(c_count) -> (k = up.(c_count) -> delivered up.(c_file) s.(log)) -> single (next_chunk c r up k s).
Proof.
  intros Hb Ho Hh Hc Hk Hd. unfold next_chunk. destruct (Nat.ltb_spec k (c_count up)) as [Hlt|Hge].
  - case_step; [by apply held_leave; [..|left]|]. apply single_awaits; [done|]. cbn [await_state].
    apply held_does; [intros i Hi; by apply chunk_unrelated|apply stops_fresh|done].
  - assert (k = c_count up) as E by lia. rewrite (proj2 (Nat.eqb_eq _ _) E). apply held_leave; [done..| |done].
    intros _. split; [by apply Hd|]. destruct Hc. exists (chunk_of r up 0). rewrite ac_acks0, E.
    split; [|done]. apply ac_sent0. rewrite E, ac_count0. apply chunkCount_pos. lia.
Qed.

Lemma held_refused c r up k n e s : base (Some c) s -> only c s -> held up.(c_id) s -> single (refused c r up k n e s).
Proof.
  intros Hb Ho Hh. unfold refused. case_step; [by apply held_catch|]. apply single_awaits; [done|].
  apply held_does; [done|by rewrite stops_app; unfold stops at 2; cbn; lia|done].
Qed.

Lemma single_resume c a s : base None s -> single s -> single (resume c a s).
Proof.
  intros Hb Hs. unfold resume. destruct (calls (work s) !! c) as [[r aw]|] eqn:Hc; [|done].
  destruct (base_running _ _ _ _ Hb Hc) as (Hr & Ha & Hm). pose proof (si_state _ Hs c r aw Hc) as Hst.
  assert (only c s) as Ho.
  { intros c' Hne. destruct (calls (work s) !! c') eqn:E; [|done]. destruct Hne. apply (si_one _ Hs); [by eexists|by eexists]. }
  destruct aw as [f|up k n|up k n|up x|up x]; cbn [await_ok await_state] in *.
  - destruct a as [|e]; [|by apply idle_file_done]. apply idle_file_done; [by apply base_does| |done|by apply idle_does].
    intros _. unfold delivered. rewrite Ha. cbn. apply elem_of_app. right. by left.
  - destruct Ha as [Ha Hn]. specialize (Hm up eq_refl). destruct a as [|e]; [|by apply held_refused].
    destruct (base_acked _ _ _ _ _ _ Hr Hm Ha) as (H1 & H2 & H3 & H4). destruct Ha.
    apply held_next_chunk; [done|done|by apply held_acked|done|lia|done].
  - destruct Ha as [Ha Hn]. case_step; [by apply held_refused|]. apply single_awaits; [done|]. cbn [await_state].
    apply held_does; [intros i Hi; by apply chunk_unrelated|apply stops_fresh|done].
  - destruct Hst as [Hi H1]. apply held_leave; [done|done|by apply held_stopped|done|]. intros _. right. apply Hi.
  - destruct Hst as [Hi _]. by apply idle_file_done.
Qed.

(** What leaves the calls, the active upload and the accounts alone *)
Lemma single_ext s s' : s'.(work).(calls) = s.(work).(calls) ->
  s'.(work).(activeChunkUpload) = s.(work).(activeChunkUpload) -> s'.(log) = s.(log) -> single s -> single s'.
Proof.
  intros Ec Ea El [H1 H2 H3]. unfold idle in H3.
  assert (forall aw, await_state s aw -> await_state s' aw) as Hw
    by (intros aw; destruct aw; unfold await_state, idle, held; by rewrite Ea, El).
  split; rewrite ?Ec; [done|intros c r aw Hc; eapply Hw, H2, Hc|]. intros Hn. unfold idle. rewrite Ea, El. by apply H3.
Qed.

Lemma single_does e s : (forall id, unrelated id e = true) -> single s -> single (does e s).
Proof.
  intros He [H1 H2 H3]. split; [done| |intros Hn; by apply idle_does, H3].
  intros c r aw Hc. specialize (H2 c r aw Hc). assert (forall i, stops i (log s ++ [e]) = stops i (log s)) as Hst
    by (intros i; by apply unrelated_stops).
  destruct aw; cbn [await_state] in *; first [by apply idle_does|by apply held_does|destruct H2 as [Hi H2]; split; [by apply idle_does|]];
    change (log (does e s)) with (log s ++ [e]); by rewrite Hst.
Qed.

Lemma single_uploadFile node files overwrite s : base None s -> single s -> (forall c, s.(work).(calls) !! c = None) ->
  single (uploadFile node files overwrite s).
Proof.
  intros Hb Hs Hn. pose proof (si_idle _ Hs Hn) as Hi. unfold uploadFile. destruct files as [|f files]; [by apply (single_ext s)|]. cbv zeta.
  set (u := set_counts _ _ _). assert (base None u) as Hu by by apply base_view, base_view.
  apply idle_next_file; [|intros c' _; apply Hn|exact Hi]. set (c := next_id (work u)).
  assert (base None (set_controller (Some c) (take_id u))) as Hv.
  { apply (base_ext None u); try done; [cbn; lia|]. intros a Ha. change (a.1 < next_id (work u) + 1)%N.
    pose proof (b_active _ _ Hu a Ha). lia. }
  destruct Hv. split; eauto. intros i [= <-]. change (c < next_id (work u) + 1)%N. unfold c. lia.
Qed.

Lemma single_finishClose done_ s : single s -> single (finishClose done_ s).
Proof.
  intros Hs. unfold finishClose. cbv zeta. set (u := clearFiles _). assert (single u) as Hu by by apply (single_ext s).
  clearbody u. case_step; by repeat apply single_does.
Qed.

Lemma single_closed done_ controller s : single s -> single (closed done_ controller s).
Proof.
  intros Hs. unfold closed. cbv zeta. set (u := if decide _ then _ else _).
  assert (single u) as Hu by (unfold u; case_decide; [by apply (single_ext s)|done]).
  apply (single_ext (finishClose done_ u)); [done..|]. by apply single_finishClose.
Qed.

(** The page stops the active upload. *)
Lemma single_cleanup s : single s -> single (cleanupActiveChunkUpload s).2.
Proof.
  intros Hs. pose proof (cleanup_parts s) as (Ec & _ & El). split.
  - rewrite Ec. apply (si_one _ Hs).
  - intros c r aw. rewrite Ec. intros Hc. pose proof (si_state _ Hs c r aw Hc) as Hst.
    assert (idle s -> cleanupActiveChunkUpload s = (false, s)) as Hid by (intros [Ha _]; unfold cleanupActiveChunkUpload; by rewrite Ha).
    destruct aw as [f|up k n|up k n|up x|up x]; cbn [await_state] in *; try by rewrite Hid.
    1,2: by apply held_stopped; apply (held_cleanup _ _ Hst).
    all: destruct Hst as [Hi H1]; by rewrite Hid.
  - rewrite Ec. intros Hn. destruct (si_idle _ Hs Hn) as [Ha Hi]. unfold cleanupActiveChunkUpload. by rewrite Ha.
Qed.

Lemma single_resume_close n confirmed s : single s -> single (resume_close n confirmed s).
Proof.
  intros Hs. unfold resume_close. destruct (closes (work s) !! n) as [[done_|done_ controller]|]; [| |done].
  - cbv zeta. set (u := set_closes _ s). assert (single u) as Hu by by apply (single_ext s).
    case_step; [by apply (single_ext u)|]. case_step; [by apply (single_ext (finishClose done_ u)); [..|apply single_finishClose]|].
    set (v := match abortController (work u) with Some c => abort c u | None => u end).
    assert (single v) as Hv by (unfold v; destruct (abortController (work u)); [by apply (single_ext u)|done]).
    pose proof (single_cleanup _ Hv) as Hc. destruct (cleanupActiveChunkUpload v) as [awaits w]. cbn in Hc.
    case_step; [by apply (single_ext w)|by apply single_closed].
  - apply single_closed. by apply (single_ext s).
Qed.

(** The events that begin an upload, and runs in which none begins during another. *)
Definition begins (e : Event) : bool :=
  match e with CheckAnswer _ (Some []) | Choose _ => true | _ => false end.
Fixpoint alone (es : list (jsstr * Event)) (s : Upload) : Prop :=
  match es with
  | [] => True
  | (node, e) :: es => (begins e = true -> forall c, s.(work).(calls) !! c = None) /\ alone es (handle node e s)
  end.

Lemma single_handle node e s : base None s -> single s -> (begins e = true -> forall c, s.(work).(calls) !! c = None) ->
  single (handle node e s).
Proof.
  intros Hb Hs Hn. destruct e as [p a| |n found|skip| |c a|done_|n confirmed|i|tmp|l|f| |]; cbn [handle].
  - by apply (single_ext s).
  - unfold submit. cbv zeta. apply (single_ext (does (Sent (BatchCheck (spread_set (target (u_path (view s)) <$> uploaderFiles (view s))))) s));
      [done..|]. by apply single_does.
  - unfold resume_check. destruct (checks (work s) !! n) as [files|]; [|done]. cbv zeta.
    set (u := set_checks _ s). assert (base None u) as Hu by by apply base_work. assert (single u) as Hv by by apply (single_ext s).
    destruct found as [[|q qs]|]; [by apply single_uploadFile; [..|apply Hn]|by apply (single_ext u)|done].
  - unfold choose. destruct (existing (work s)) as [paths|]; [|done].
    set (u := set_existing None s). assert (base None u) as Hu by by apply base_work. assert (single u) as Hv by by apply (single_ext s).
    unfold handleFileUpload. cbv zeta.
    case_step; apply single_uploadFile; try done; try (by apply Hn); [by apply base_view|by apply (single_ext u)].
  - by apply (single_ext s).
  - by apply single_resume.
  - unfold requestClose. case_step; [done|]. case_step; [by apply single_finishClose|by apply (single_ext s)].
  - by apply single_resume_close.
  - unfold removeFile. case_step; [done|by apply (single_ext s)].
  - unfold handleDrop. destruct tmp; [by apply (single_ext s)|by apply single_does].
  - by apply (single_ext s).
  - unfold unreadable. apply single_does; [done|by apply (single_ext s)].
  - unfold handleExceed. apply single_does; [done|by apply (single_ext s)].
  - by apply (single_ext s).
Qed.

Lemma single_run es s : base None s -> single s -> alone es s -> single (run es s).
Proof.
  revert s. induction es as [|[node e] es IH]; intros s Hb Hs; [done|]. intros [Hn Ha].
  apply IH; [by apply base_handle|by apply single_handle|done].
Qed.

Lemma single_initial : single initial_upload.
Proof.
  split; cbn; [intros c c'; rewrite lookup_empty; by intros [? ?]|intros c r aw; by rewrite lookup_empty|].
  intros _. split; [done|]. intros id. right. split; [done|]. by right.
Qed.

(** ** Theorems *)

(** C5. A file marked as uploaded has reached the server whole: an empty one by one request,
    another by chunks that were acknowledged in their order, each of them of one byte to
    five megabytes, that put together are its content. *)
Theorem success_means_delivered es i : let s := run es initial_upload in
  s.(statuses) !! i = Some Success -> exists f, f.(f_id) = i /\
    (f.(f_size) = 0%N -> AckedEmpty i ∈ s.(log)) /\
    ((0 < f.(f_size))%N -> exists id chunks l, l `prefix_of` s.(log) /\ acks id l = seq 0 (length chunks) /\
       Forall (fun q => Sent (UploadChunk q) ∈ l /\ q.(k_uploadID) = id /\ q.(k_file) = i /\
                        (q.(k_start) < q.(k_end) <= q.(k_start) + CHUNK_SIZE)%N) chunks /\
       forall content, length content = N.to_nat f.(f_size) -> mjoin (piece content <$> chunks) = content).
Proof.
  cbv zeta. intros Hi. destruct (b_status _ _ (base_run es _ base_initial) i Hi) as (f & Hf & Hd). exists f. split; [done|].
  unfold delivered in Hd. split; intros Hs; [by rewrite (proj2 (N.eqb_eq _ _) Hs), Hf in Hd|].
  rewrite (proj2 (N.eqb_neq _ _)) in Hd by lia. destruct Hd as (r & up & l & Hl & <- & Hc & Ha & Hin).
  exists (c_id up), (chunk_of r up <$> seq 0 (c_count up)), l. rewrite length_fmap, length_seq. split; [done|]. split; [done|]. split.
  - apply Forall_fmap, Forall_forall. intros k Hk%in_seq. split; [apply Hin; lia|]. split; [done|].
    split; [done|]. destruct (chunkCount_spec _ Hs) as (_ & H2 & _). cbn [chunk_of k_start k_end]. pose proof CHUNK_pos. nia.
  - intros content Hn. by apply (pieces_whole r up content).
Qed.

(** A chunk is sent at most four times, whatever the server answers and however the page
    is used meanwhile. *)
Theorem chunk_sent_four_times es id k : sends_of id k (run es initial_upload).(log) <= 4.
Proof. apply (b_times _ _ (base_run es _ base_initial)). Qed.

(** C6. As long as no upload begins during another, the server is left with nothing: an upload
    is stopped at most once, and when no call is left every upload that has sent a chunk is
    complete or has been stopped. *)
Theorem nothing_left_behind es id : alone es initial_upload -> let s := run es initial_upload in
  stops id s.(log) <= 1 /\
  ((forall c, s.(work).(calls) !! c = None) -> (exists k, 0 < sends_of id k s.(log)) ->
   stops id s.(log) = 1 \/ stops id s.(log) = 0 /\ complete id s.(log)).
Proof.
  intros Ha. cbv zeta. pose proof (single_run es _ base_initial single_initial Ha) as Hs. set (s := run es initial_upload) in *. split.
  - assert (forall i, settled i (log s) -> stops i (log s) <= 1) as Hle by (intros i [->|[-> _]]; lia).
    destruct (map_choose_or_empty (calls (work s))) as [(c & [r aw] & Hc)|He].
    + pose proof (si_state _ Hs c r aw Hc) as Hst.
      assert (forall i, held i s -> stops id (log s) <= 1) as Hh.
      { intros i [Ho Hx]. destruct (decide (id = i)) as [->|Hne]; [|by apply Hle, Ho]. destruct Hx as [[_ ->]|[_ ->]]; lia. }
      destruct aw as [f|up k n|up k n|up x|up x]; cbn [await_state] in Hst; try (by eapply Hh); apply Hle, Hst.
    + apply Hle. apply (si_idle _ Hs). intros c. by rewrite He.
  - intros Hn [k Hk]. destruct (proj2 (si_idle _ Hs Hn) id) as [H1|[H0 [Hc|Hz]]]; [by left|by right|]. specialize (Hz k). lia.
Qed.

(** C37. Every upload ends: as many answers as the call is long, whatever they are and whatever
    else happens between them, and it is over. *)
Theorem upload_ends es c es' : let s := run es initial_upload in
  is_Some (s.(work).(calls) !! c) -> weight_of c s <= answers c es' ->
  exists es1 es2, es' = es1 ++ es2 /\ (run es1 s).(work).(calls) !! c = None.
Proof. cbv zeta. intros Hc Hw. by apply upload_ends_from; [apply base_run, base_initial|..]. Qed.

(** ** Examples *)

Definition f_big : UFile := {| f_id := 7; f_name := js "dir/a.bin"; f_rel := []; f_size := 6 * 1024 * 1024 |}.
Definition f_nil : UFile := {| f_id := 8; f_name := js "b.txt"; f_rel := []; f_size := 0 |}.

Definition at_node (l : list Event) : list (jsstr * Event) := (fun e => (js "local", e)) <$> l.

(** Two files, of which the first needs two chunks; the second chunk is refused once. *)
Definition sample_start : list Event := [Accept (js "/opt") false; Change [f_big; f_nil]; Submit; CheckAnswer 0 (Some [])].
Definition busy : Err := {| e_code := None; e_retryable := None; e_status := Some 503%N; e_message := js "busy" |}.
Definition sample_upload : list Event := sample_start ++ [Resume 0 Ok; Resume 0 (Refused busy); Resume 0 Ok; Resume 0 Ok; Resume 0 Ok].

Example upload_paths : target (js "/opt") f_big = js "/opt/dir/a.bin" /\ getUploadPath (js "/opt") f_big = js "/opt/dir" /\
  getFilenameFromPath f_big.(f_name) = js "a.bin".
Proof. vm_compute. done. Qed.

Lemma success_means_delivered_witness :
  (run (at_node sample_upload) initial_upload).(statuses) !! 7%N = Some Success /\ exists f, f.(f_id) = 7%N.
Proof.
  assert ((run (at_node sample_upload) initial_upload).(statuses) !! 7%N = Some Success) as H by (vm_compute; reflexivity).
  split; [exact H|]. destruct (success_means_delivered _ _ H) as (f & Hf & _). exists f. exact Hf.
Defined.

(** The upload is cancelled while its second chunk is under way. *)
Definition sample_cancel : list Event :=
  sample_start ++ [Resume 0 Ok; RequestClose true; ResumeClose 0 true; Resume 0 (Refused canceled); ResumeClose 0 true].

Lemma nothing_left_behind_witness :
  stops 1 (run (at_node sample_cancel) initial_upload).(log) = 1 \/
  stops 1 (run (at_node sample_cancel) initial_upload).(log) = 0 /\ complete 1 (run (at_node sample_cancel) initial_upload).(log).
Proof.
  refine (proj2 (nothing_left_behind (at_node sample_cancel) 1 _) _ _).
  - repeat split; try (intros E; vm_compute in E; done); intros _ c; vm_compute; by destruct c.
  - intros c. replace (calls _) with (∅ : gmap N (Run * Await)) by (vm_compute; reflexivity). apply lookup_empty.
  - exists 0. vm_compute. lia.
Defined.

Lemma upload_ends_witness :
  exists es1 es2, at_node (repeat (Resume 0 Ok) 40) = es1 ++ es2 /\
    (run es1 (run (at_node sample_start) initial_upload)).(work).(calls) !! 0%N = None.
Proof.
  apply (upload_ends (at_node sample_start) 0 (at_node (repeat (Resume 0 Ok) 40))); [vm_compute; by eexists|vm_compute; lia].
Defined.

(** *** What the lock does not cover *)

Fixpoint all_offered (es : list Event) (s : Upload) : bool :=
  match es with [] => true | e :: es => offered e s && all_offered es (handle (js "local") e s) end.

(** submit awaits the check of the names before the drawer is locked, so that it can be
    clicked again: two uploads of the same file run at once, the end of the first unlocks
    the drawer, and it closes without a question while the second still sends its chunks. *)
Definition twice : list Event :=
  [Accept (js "/opt") false; Change [f_big]; Submit; Submit; CheckAnswer 0 (Some []); CheckAnswer 0 (Some []);
   Resume 0 Ok; Resume 0 Ok; RequestClose true; Resume 2 Ok].

Lemma submit_twice : all_offered twice initial_upload = true /\
  let s := run (at_node twice) initial_upload in
  s.(view).(u_open) = false /\ stops 3 s.(log) = 0 /\ sends_of 3 1 s.(log) = 1 /\ is_Some (s.(work).(calls) !! 2%N).
Proof. vm_compute. repeat split. by eexists. Qed.

(** The drawer can be closed while the names are checked; the upload begins all the same. *)
Definition closed_early : list Event :=
  [Accept (js "/opt") false; Change [f_big]; Submit; RequestClose true; CheckAnswer 0 (Some [])].

Lemma upload_after_close : all_offered closed_early initial_upload = true /\
  let s := run (at_node closed_early) initial_upload in s.(view).(u_open) = false /\ sends_of 1 0 s.(log) = 1.
Proof. vm_compute. repeat split. Qed.
