(* ===== verification/Tabs.v ===== *)
(** * The opened tabs

    src/frontend/src/store/modules/tabs.ts and src/frontend/src/utils/tab-cache.ts:
    the list of opened tabs, the tabs kept alive and the names of their caches.
    An index of -1 is [None].  The fields of a tab the store never looks at are
    a parameter; the persistence plugin is not modelled. *)

From Stdlib Require Import ZifyBool ZifyN.
From S2P Require Import Prelude JsString Splitting Uri.

(** ** The name of a tab's cache *)

(** [Array.from(path)] with [codePointAt(0)]: a surrogate pair is one code
    point, a lone surrogate is its own. *)
Fixpoint codePoints (s : jsstr) : list N :=
  match s with
  | [] => []
  | c :: s' =>
      match s' with
      | d :: s'' =>
          if is_high c && is_low d then (65536 + (c - 55296) * 1024 + (d - 56320))%N :: codePoints s''
          else c :: codePoints s'
      | [] => [c]
      end
  end.

(** [n.toString(16)] *)
Definition hex_char (d : N) : N := if (d <? 10)%N then (48 + d)%N else (87 + d)%N.
Fixpoint hex_go (fuel : nat) (n : N) (acc : jsstr) : jsstr :=
  match fuel with
  | O => acc
  | S k =>
      let acc' := hex_char (n mod 16)%N :: acc in
      if (n <? 16)%N then acc' else hex_go k (n / 16)%N acc'
  end.
Definition toString16 (n : N) : jsstr := hex_go (S (N.to_nat (N.log2 n))) n [].

Definition getTabCacheName (path : jsstr) : jsstr :=
  let encodedPath := join (js "_") (List.map toString16 (codePoints path)) in
  js "TabCache_" ++ encodedPath.

(** ** The store *)

Record Tab {A : Type} := { path : jsstr; keepAlive : bool; rest : A }.
Arguments Tab : clear implicits.

Record TabsState {A : Type} := {
  isShowTabIcon : bool;
  openedTabs : list (Tab A);
  activeTabPath : jsstr;
}.
Arguments TabsState : clear implicits.

Inductive CloseType := close | other | left | right | unknown.

#[export] Instance close_type_eq_dec : EqDecision CloseType.
Proof. solve_decision. Defined.

Section Store.
Context {A : Type}.
Implicit Types s : TabsState A.

Definition initial_tabs : TabsState A :=
  {| isShowTabIcon := true; openedTabs := []; activeTabPath := [] |}.

Definition set_tabs (l : list (Tab A)) s : TabsState A :=
  {| isShowTabIcon := isShowTabIcon s; openedTabs := l; activeTabPath := activeTabPath s |}.
Definition set_activeTabPath (p : jsstr) s : TabsState A :=
  {| isShowTabIcon := isShowTabIcon s; openedTabs := openedTabs s; activeTabPath := p |}.

Definition keepAliveTabs s : list jsstr :=
  List.map (fun tab => getTabCacheName (path tab)) (List.filter keepAlive (openedTabs s)).

Definition getActivePath (path : jsstr) : jsstr :=
  let firstSlashIndex := indexOf path (js "/") in
  let lastSlashIndex := lastIndexOf path 47 in
  match firstSlashIndex with
  | None => path
  | Some i => if decide (firstSlashIndex = lastSlashIndex) then path
              else slice path i (default 0 lastSlashIndex)
  end.

Definition getTabIdxByPath s (p : jsstr) : option nat :=
  fst <$> list_find (fun v => path v = p) (openedTabs s).

Definition removeAllTabs s : TabsState A := set_tabs [] s.

Definition removeOtherTabs (p : jsstr) s : TabsState A :=
  match getTabIdxByPath s p with
  | Some idx => match openedTabs s !! idx with Some tab => set_tabs [tab] s | None => s end
  | None => s
  end.

Definition removeUnActiveTabs s : TabsState A :=
  match openedTabs s with
  | [] => s
  | _ =>
      let idx := default 0 (getTabIdxByPath s (activeTabPath s)) in
      match openedTabs s !! idx with Some tab => removeOtherTabs (path tab) s | None => s end
  end.

Definition findTab (p : jsstr) s : option (Tab A) :=
  getTabIdxByPath s p ≫= fun idx => openedTabs s !! idx.

(** Object.assign({}, tab, {keepAlive: false}) *)
Definition addTab (tab : Tab A) s : TabsState A :=
  match getTabIdxByPath s (path tab) with
  | None => set_tabs (openedTabs s ++ [{| path := path tab; keepAlive := false; rest := rest tab |}]) s
  | Some _ => s
  end.

(** The tab found is the object of the list: its flag changes in place. *)
Definition flip (tab : Tab A) : Tab A :=
  {| path := path tab; keepAlive := negb (keepAlive tab); rest := rest tab |}.
Definition toggleKeepAlive (p : jsstr) s : TabsState A :=
  match getTabIdxByPath s p with
  | Some idx => set_tabs (alter flip idx (openedTabs s)) s
  | None => s
  end.

(** Array.prototype.splice with start and delete counts from 0. *)
Definition splice {B} (start count : nat) (l : list B) : list B :=
  take start l ++ drop (start + count) l.

(** It returns the path of the last tab left, and undefined when there is at
    most one tab. *)
Definition removeTab (p : jsstr) s : option jsstr * TabsState A :=
  if 1 <? length (openedTabs s) then
    let s' := match getTabIdxByPath s p with
              | Some idx => set_tabs (splice idx 1 (openedTabs s)) s
              | None => s
              end in
    (path <$> openedTabs s' !! (length (openedTabs s') - 1), s')
  else (None, s).

(** splice(-1 + 1) removes every tab, splice(0, -1) removes none. *)
Definition removeTabs (p : jsstr) (type : CloseType) s : TabsState A :=
  if truthy p then
    let idx := getTabIdxByPath s p in
    match type with
    | right => set_tabs (take (match idx with Some i => i + 1 | None => 0 end) (openedTabs s)) s
    | left => set_tabs (splice 0 (match idx with Some i => i | None => 0 end) (openedTabs s)) s
    | _ => s
    end
  else s.

Definition hasCloseDropdown (p : jsstr) (type : CloseType) s : option bool :=
  let idx := getTabIdxByPath s p in
  match type with
  | close | other => Some (1 <? length (openedTabs s))
  | left => Some (bool_decide (idx <> Some 0))
  | right => Some (match idx with
                   | Some i => negb (i + 1 =? length (openedTabs s))
                   | None => negb (length (openedTabs s) =? 0)
                   end)
  | unknown => None
  end.

(** One call on the store; the layout sets the active path. *)
Inductive op :=
| OAdd (tab : Tab A) | OToggle (p : jsstr) | ORemove (p : jsstr) | ORemoves (p : jsstr) (type : CloseType)
| OOthers (p : jsstr) | OAll | OUnActive | OActive (p : jsstr).

Definition apply_op (o : op) s : TabsState A :=
  match o with
  | OAdd tab => addTab tab s
  | OToggle p => toggleKeepAlive p s
  | ORemove p => (removeTab p s).2
  | ORemoves p type => removeTabs p type s
  | OOthers p => removeOtherTabs p s
  | OAll => removeAllTabs s
  | OUnActive => removeUnActiveTabs s
  | OActive p => set_activeTabPath p s
  end.
End Store.

Example cache_name : getTabCacheName (js "/ab") = js "TabCache_2f_61_62". Proof. reflexivity. Qed.
Example cache_name_pair : getTabCacheName [55357; 56832]%N = js "TabCache_1f600". Proof. reflexivity. Qed.
Example active_path : getActivePath (js "/hosts/files/x") = js "/hosts/files". Proof. reflexivity. Qed.

(** ** Cache names are distinct *)

Local Ltac Zify.zify_post_hook ::= Z.to_euclidean_division_equations.

Lemma units_pair (c d : N) :
  is_high c = true -> is_low d = true ->
  units (65536 + (c - 55296) * 1024 + (d - 56320)) = [c; d].
Proof.
  unfold is_high, is_low, units. intros H1 H2. nbool.
  assert ((65536 + (c - 55296) * 1024 + (d - 56320) <? 65536)%N = false) as -> by lia.
  f_equal; [|f_equal]; lia.
Qed.

(** The code points determine the units. *)
Lemma codePoints_units s : Forall unit16 s -> flat_map units (codePoints s) = s.
Proof.
  assert (H : forall n s, length s <= n -> Forall unit16 s -> flat_map units (codePoints s) = s).
  { induction n as [|n IH]; intros [|c s'] Hn Hs; try done; [cbn in Hn; lia|].
    cbn [length] in Hn. apply Forall_cons_1 in Hs as [Hc Hs].
    assert (Hone : units c = [c]) by (unfold units, unit16 in *; by assert ((c <? 65536)%N = true) as -> by lia).
    cbn [codePoints]. destruct s' as [|d s'']; [cbn [flat_map]; by rewrite Hone|].
    cbn [length] in Hn. destruct (is_high c && is_low d) eqn:E.
    - apply andb_true_iff in E as [E1 E2]. cbn [flat_map]. rewrite units_pair by done.
      apply Forall_cons_1 in Hs as [_ Hs]. rewrite IH by (done || lia). done.
    - cbn [flat_map]. rewrite Hone, IH by (done || cbn; lia). done. }
  by apply (H (length s)).
Qed.

(** Hexadecimal numerals determine the number. *)
Definition hex_val (s : jsstr) : N :=
  foldl (fun v c => 16 * v + (if c <? 58 then c - 48 else c - 87))%N 0%N s.

Definition hex_unit (c : N) : bool := is_digit c || ((97 <=? c) && (c <=? 102))%N.

Lemma hex_char_val d : (d < 16)%N ->
  ((if hex_char d <? 58 then hex_char d - 48 else hex_char d - 87) = d)%N /\ hex_unit (hex_char d) = true.
Proof.
  intros H. unfold hex_char, hex_unit, is_digit. destruct (d <? 10)%N eqn:E; nbool.
  - assert ((48 + d <? 58)%N = true) as -> by lia. split; lia.
  - assert ((87 + d <? 58)%N = false) as -> by lia. split; lia.
Qed.

Lemma hex_go_spec fuel n acc :
  (n < 16 ^ N.of_nat fuel)%N -> fuel <> 0 ->
  exists ds, hex_go fuel n acc = ds ++ acc /\ hex_val ds = n /\ ds <> [] /\ Forall (fun c => hex_unit c = true) ds.
Proof.
  revert n acc. induction fuel as [|k IH]; intros n acc Hn Hk; [done|]. cbn [hex_go].
  destruct (hex_char_val (n mod 16)) as [Hv Hu]; [lia|].
  destruct (N.ltb_spec n 16) as [Hs|Hs].
  - exists [hex_char (n mod 16)]. repeat split; [|done|by constructor].
    unfold hex_val. cbn [foldl]. rewrite Hv. lia.
  - destruct (IH (n / 16)%N (hex_char (n mod 16)%N :: acc)) as (ds & -> & Hd & Hne & Hds).
    { rewrite Nat2N.inj_succ, N.pow_succ_r' in Hn. lia. }
    { intros ->. change (16 ^ N.of_nat 1)%N with 16%N in Hn. lia. }
    exists (ds ++ [hex_char (n mod 16)]). rewrite <- app_assoc. repeat split.
    + unfold hex_val in *. rewrite foldl_app, Hd. cbn [foldl]. rewrite Hv. lia.
    + by destruct ds.
    + apply Forall_app. split; [done|by constructor].
Qed.

Lemma toString16_spec n :
  hex_val (toString16 n) = n /\ toString16 n <> [] /\ Forall (fun c => hex_unit c = true) (toString16 n).
Proof.
  unfold toString16. destruct (hex_go_spec (S (N.to_nat (N.log2 n))) n []) as (ds & -> & H); [|done|].
  - rewrite Nat2N.inj_succ, N2Nat.id. destruct (N.eq_dec n 0) as [->|Hn]; [done|].
    pose proof (N.log2_spec n ltac:(lia)) as [_ Hl].
    eapply N.lt_le_trans; [exact Hl|]. by apply N.pow_le_mono_l.
  - by rewrite app_nil_r.
Qed.

Lemma toString16_inj m n : toString16 m = toString16 n -> m = n.
Proof.
  intros E. rewrite <- (proj1 (toString16_spec m)), <- (proj1 (toString16_spec n)). by rewrite E.
Qed.

Lemma getTabCacheName_inj p q :
  Forall unit16 p -> Forall unit16 q -> getTabCacheName p = getTabCacheName q -> p = q.
Proof.
  intros Hp Hq E. unfold getTabCacheName in E. apply app_inv_head in E.
  assert (Hf : forall l, Forall (fun w => 95%N ∉ w) (List.map toString16 l)).
  { intros l. apply Forall_elem. intros w (n & -> & _)%elem_map Hc.
    destruct (toString16_spec n) as (_ & _ & Hu). rewrite Forall_elem in Hu. by apply Hu in Hc. }
  assert (Hnil : forall l, join (js "_") (List.map toString16 l) = [] -> l = []).
  { intros [|n [|m l]]; [done| |].
    - cbn. intros E0. by apply (toString16_spec n) in E0.
    - cbn [List.map]. rewrite join_cons by done. intros [E0 _]%app_eq_nil. by apply (toString16_spec n) in E0. }
  assert (Hcp : codePoints p = codePoints q).
  { destruct (codePoints p) as [|x l] eqn:Ep; [symmetry in E; by rewrite (Hnil _ E)|].
    destruct (codePoints q) as [|y l'] eqn:Eq; [by rewrite (Hnil _ E)|].
    apply (join_inj 95) in E; [|done|done|apply Hf|apply Hf].
    revert E. generalize (y :: l'). generalize (x :: l). clear.
    intros l l'. revert l'. induction l as [|a l IH]; intros [|b l']; try done.
    intros [= ->%toString16_inj ->%IH]. done. }
  by rewrite <- (codePoints_units p), Hcp, codePoints_units.
Qed.

(** ** The list of tabs *)

Section Properties.
Context {A : Type}.
Implicit Types s : TabsState A.

Definition paths s : list jsstr := List.map path (openedTabs s).

Definition tabs_ok s : Prop := NoDup (paths s) /\ Forall (Forall unit16) (paths s).

(** Only adding a tab needs a well-formed path. *)
Definition valid_op (o : op (A := A)) : Prop :=
  match o with OAdd tab => Forall unit16 (path tab) | _ => True end.

Definition step s s' : Prop := exists o, valid_op o /\ s' = apply_op o s.

Lemma idx_None s p : getTabIdxByPath s p = None <-> p ∉ paths s.
Proof.
  unfold getTabIdxByPath, paths. rewrite fmap_None, list_find_None, Forall_elem, elem_map. split.
  - intros H (x & -> & Hx). by apply (H x).
  - intros H x Hx E. apply H. by exists x.
Qed.

Lemma idx_Some s p i :
  getTabIdxByPath s p = Some i <-> exists tab, openedTabs s !! i = Some tab /\ path tab = p /\
    forall j t, openedTabs s !! j = Some t -> j < i -> path t <> p.
Proof.
  unfold getTabIdxByPath. rewrite fmap_Some. split.
  - intros ([j t] & H & ->). apply list_find_Some in H as (? & ? & ?). exists t. naive_solver.
  - intros (tab & H & E & Hj). exists (i, tab). split; [|done]. apply list_find_Some. naive_solver.
Qed.

(** In a list without duplicates the index of an opened tab is its position. *)
Lemma idx_at s l tab r :
  openedTabs s = l ++ tab :: r -> NoDup (paths s) -> getTabIdxByPath s (path tab) = Some (length l).
Proof.
  intros E Hnd. apply idx_Some. exists tab. rewrite E. rewrite list_lookup_middle by done.
  split; [done|]. split; [done|]. intros j t Hj Hlt Ht. rewrite lookup_app_l in Hj by done.
  unfold paths in Hnd. rewrite E, List.map_app in Hnd. apply list.NoDup_app in Hnd as (_ & Hd & _).
  apply (Hd (path tab)); [|by left]. rewrite <- Ht. apply elem_map. exists t.
  split; [done|]. by apply list_elem_of_lookup_2 in Hj.
Qed.

Lemma splice_sublist {B} i n (l : list B) : sublist (splice i n l) l.
Proof.
  unfold splice. rewrite <- (take_drop i l) at 3. apply sublist_app; [done|].
  rewrite <- drop_drop. apply sublist_drop.
Qed.

Lemma ok_sublist (l : list (Tab A)) s : sublist l (openedTabs s) -> tabs_ok s -> tabs_ok (set_tabs l s).
Proof.
  intros Hl [Hnd Hu]. unfold tabs_ok, paths in *. cbn [openedTabs set_tabs].
  assert (Hm : sublist (List.map path l) (List.map path (openedTabs s))).
  { clear -Hl. induction Hl; cbn [List.map]; by constructor. }
  split; [by eapply sublist_NoDup|]. apply Forall_elem. intros x Hx. rewrite Forall_elem in Hu.
  apply Hu. by eapply elem_of_sublist.
Qed.

Lemma ok_add tab s : Forall unit16 (path tab) -> tabs_ok s -> tabs_ok (addTab tab s).
Proof.
  intros Ht [Hnd Hu]. unfold addTab. destruct (getTabIdxByPath s (path tab)) eqn:E; [done|].
  apply idx_None in E. unfold tabs_ok, paths in *. cbn [openedTabs set_tabs]. rewrite List.map_app. cbn [List.map path].
  split.
  - apply list.NoDup_app. split; [done|]. split; [|apply NoDup_singleton].
    intros x Hx ->%list_elem_of_singleton. done.
  - apply Forall_app. split; [done|]. by repeat constructor.
Qed.

Lemma map_alter i (l : list (Tab A)) : List.map path (alter flip i l) = List.map path l.
Proof. revert i. induction l as [|t l IH]; intros [|i]; try done. cbn. f_equal. apply IH. Qed.

Lemma ok_op o s : valid_op o -> tabs_ok s -> tabs_ok (apply_op o s).
Proof.
  intros Ho Hs. assert (Hself : sublist (openedTabs s) (openedTabs s)) by done.
  assert (Hone : forall i tab, openedTabs s !! i = Some tab -> tabs_ok (set_tabs [tab] s)).
  { intros i tab Hi. apply ok_sublist; [|done]. apply singleton_sublist_l. by eapply list_elem_of_lookup_2. }
  assert (Hother : forall p, tabs_ok (removeOtherTabs p s)).
  { intros p. unfold removeOtherTabs. destruct (getTabIdxByPath s p) as [i|]; [|done].
    destruct (openedTabs s !! i) eqn:E; [by apply (Hone i)|done]. }
  destruct o as [tab|p|p|p type|p| | |p]; cbn [apply_op].
  - by apply ok_add.
  - unfold toggleKeepAlive. destruct (getTabIdxByPath s p); [|done].
    unfold tabs_ok, paths. cbn [openedTabs set_tabs]. by rewrite map_alter.
  - unfold removeTab. destruct (1 <? length (openedTabs s)); [|done]. cbn [snd].
    destruct (getTabIdxByPath s p); [|done]. apply ok_sublist; [apply splice_sublist|done].
  - unfold removeTabs. destruct (truthy p); [|done]. destruct type; try done; (apply ok_sublist; [|done]).
    + apply splice_sublist.
    + apply sublist_take.
  - apply Hother.
  - apply ok_sublist; [apply sublist_nil_l|done].
  - unfold removeUnActiveTabs. destruct (openedTabs s) eqn:E; [done|]. rewrite <- E.
    destruct (openedTabs s !! _); [apply Hother|done].
  - done.
Qed.

Lemma cache_names_distinct s : tabs_ok s -> NoDup (keepAliveTabs s).
Proof.
  intros [Hnd Hu]. unfold keepAliveTabs, paths in *. induction (openedTabs s) as [|t l IH]; [constructor|].
  cbn [List.map] in *. apply Forall_cons_1 in Hu as [Ht Hu]. apply list.NoDup_cons in Hnd as [Hn Hnd].
  cbn [List.filter]. destruct (keepAlive t); [|by apply IH]. cbn [List.map]. constructor; [|by apply IH].
  rewrite elem_map. intros (t' & E & Ht'). apply elem_filter in Ht' as [Ht' _]. apply Hn.
  apply elem_map. exists t'. split; [|done]. apply getTabCacheName_inj; [done| |done].
  rewrite Forall_elem in Hu. apply Hu, elem_map. eauto.
Qed.

(** Whatever the layout does, no path is opened twice, and the tabs kept alive
    have pairwise distinct cache names: the encoding of a path in a cache name
    is injective. *)
Theorem tabs_distinct s :
  star step initial_tabs s -> NoDup (paths s) /\ NoDup (keepAliveTabs s).
Proof.
  intros Hr. assert (Hs : tabs_ok s).
  { apply (star_invariant step tabs_ok) with (a := initial_tabs); [|done|by split; constructor].
    intros a b Ha (o & Ho & ->). by apply ok_op. }
  split; [apply Hs|]. by apply cache_names_distinct.
Qed.

(** Closing: a tab that is opened is removed with nothing else, the tabs to
    its right or left are those after or before it, closing the others leaves
    it alone.  For a path that is not opened only closing to the right has an
    effect: it removes every tab. *)
Theorem tabs_close_spec s p :
  NoDup (paths s) ->
  (forall l tab r, openedTabs s = l ++ tab :: r -> path tab = p ->
     openedTabs (removeTab p s).2 = (if 1 <? length (openedTabs s) then l ++ r else openedTabs s) /\
     openedTabs (removeOtherTabs p s) = [tab] /\
     (p <> [] -> openedTabs (removeTabs p right s) = l ++ [tab] /\
                openedTabs (removeTabs p left s) = tab :: r)) /\
  (p ∉ paths s ->
     (removeTab p s).2 = s /\ removeOtherTabs p s = s /\ openedTabs (removeTabs p left s) = openedTabs s /\
     (p <> [] -> openedTabs (removeTabs p right s) = [])).
Proof.
  intros Hnd. split.
  - intros l tab r E <-. pose proof (idx_at s l tab r E Hnd) as Hi.
    unfold removeTab, removeOtherTabs, removeTabs. rewrite Hi. split.
    { destruct (1 <? length (openedTabs s)); [|done]. cbn [snd openedTabs set_tabs].
      unfold splice. rewrite E, <- drop_drop, drop_app_length. by rewrite take_app_length. }
    split; [rewrite E; by rewrite list_lookup_middle|].
    intros Hp%truthy_true. rewrite Hp. cbn [openedTabs set_tabs]. split.
    + rewrite E. replace (length l + 1) with (length (l ++ [tab])) by (rewrite length_app; done).
      change (tab :: r) with ([tab] ++ r). rewrite app_assoc. by rewrite take_app_length.
    + unfold splice. rewrite E. cbn [take app Nat.add]. by rewrite drop_app_length.
  - intros Hp%idx_None. unfold removeTab, removeOtherTabs, removeTabs. rewrite Hp. repeat split.
    + by case_step.
    + destruct (truthy p); [|done]. cbn [openedTabs set_tabs]. unfold splice. by rewrite drop_0.
    + intros Ht%truthy_true. by rewrite Ht.
Qed.
End Properties.

Definition tab_of (p : string) : Tab unit := {| path := js p; keepAlive := true; rest := tt |}.
Definition sample_tabs : TabsState unit :=
  toggleKeepAlive (js "/b") (addTab (tab_of "/c") (addTab (tab_of "/b") (addTab (tab_of "/a") initial_tabs))).

Lemma tabs_distinct_witness :
  keepAliveTabs sample_tabs = [js "TabCache_2f_62"] /\ length (openedTabs sample_tabs) = 3 /\
  NoDup (paths sample_tabs) /\ NoDup (keepAliveTabs sample_tabs).
Proof.
  split; [vm_compute; reflexivity|]. split; [vm_compute; reflexivity|].
  apply tabs_distinct. unfold sample_tabs.
  assert (H : forall p, forallb (fun c => (c <? 65536)%N) (js p) = true -> Forall unit16 (js p)).
  { intros p Hp. apply Forall_elem. intros c Hc. rewrite forallb_elem in Hp. by apply N.ltb_lt, Hp. }
  eapply star_step; [exists (OAdd (tab_of "/a")); split; [by apply H|reflexivity]|].
  eapply star_step; [exists (OAdd (tab_of "/b")); split; [by apply H|reflexivity]|].
  eapply star_step; [exists (OAdd (tab_of "/c")); split; [by apply H|reflexivity]|].
  apply star_one. exists (OToggle (js "/b")). by split.
Defined.

Lemma tabs_close_spec_witness :
  openedTabs (removeTab (js "/b") sample_tabs).2 = [addTab (tab_of "/a") initial_tabs; addTab (tab_of "/c") initial_tabs] ≫= openedTabs /\
  openedTabs (removeTabs (js "/zz") right sample_tabs) = [].
Proof.
  assert (Hnd : NoDup (paths sample_tabs)) by (vm_compute; repeat constructor; set_solver).
  split.
  - apply (proj1 (tabs_close_spec sample_tabs (js "/b") Hnd) [{| path := js "/a"; keepAlive := false; rest := tt |}]
      {| path := js "/b"; keepAlive := true; rest := tt |} [{| path := js "/c"; keepAlive := false; rest := tt |}]);
      vm_compute; reflexivity.
  - apply (proj2 (tabs_close_spec sample_tabs (js "/zz") Hnd)); [|discriminate].
    apply idx_None. vm_compute. reflexivity.
Defined.
