(* ===== verification/Columns.v ===== *)
(** * Configurable table columns

    src/frontend/src/components/table/Table.ts with shared.ts and
    components/shared/vnode.ts.  The columns of a table are the vnodes of its slot; the
    settings of the user, kept in an array the parent owns and in localStorage, order and
    hide them.  A vnode is its identity, what its type is and the props the code reads;
    the storage holds what JSON.parse makes of its text, [None] when that is no array. *)

From S2P Require Import Prelude JsString Sorting.
From Stdlib Require Import Sorting.Sorted.
From stdpp Require Import sorting.

#[local] Open Scope list_scope.
#[local] Set Warnings "-register-all".

(** ** Data *)

Variant Fixed := FixedBool (b : bool) | FixedSide (side : jsstr).

Record FuTableColumnConfig := {
  c_key : jsstr; c_label : jsstr; c_prop : option jsstr; c_show : bool; c_fixed : option Fixed;
}.

Record VNode := {
  n_id : nat; n_column : bool;
  n_columnKey : option jsstr; n_prop : option jsstr; n_key : option jsstr; n_label : option jsstr;
  n_type : option jsstr; n_fixed : option Fixed; n_fix : option Fixed;
}.

(** A slot before it is flattened. *)
Inductive Slot :=
| Node (v : VNode)
| Array (l : list Slot)          (* an array of children, or a Fragment *)
| Skipped.                       (* a falsy child, a comment or a text *)

Fixpoint flattenVNodes (s : Slot) : list VNode :=
  match s with
  | Node v => [v]
  | Array l => flat_map flattenVNodes l
  | Skipped => []
  end.

(** [a || b || ... || ''] *)
Definition first_truthy (l : list (option jsstr)) : jsstr := default [] (List.find truthy (omap id l)).

Definition getTableColumnKey (v : VNode) : jsstr := first_truthy [v.(n_columnKey); v.(n_prop); v.(n_key); v.(n_label)].

Definition column_name (index : nat) : jsstr := js "column-" ++ dec (N.of_nat index).

Definition buildColumnKey (v : VNode) (index : nat) : jsstr :=
  if truthy (getTableColumnKey v) then getTableColumnKey v else column_name index.

Definition buildColumnConfig (v : VNode) (index : nat) : FuTableColumnConfig :=
  {| c_key := buildColumnKey v index;
     c_label := first_truthy [v.(n_label); v.(n_prop); Some (column_name index)];
     c_prop := v.(n_prop);
     c_show := true;
     c_fixed := match v.(n_fixed) with Some f => Some f | None => v.(n_fix) end |}.

Definition isConfigurableColumn (v : VNode) : bool :=
  v.(n_column) && negb (match v.(n_type) with Some t => memb t [js "selection"; js "index"; js "expand"] | None => false end)
  && truthy (first_truthy [v.(n_label); v.(n_prop)]).

Definition slotColumns (slotChildren : list VNode) : list FuTableColumnConfig :=
  imap (fun index v => buildColumnConfig v index) (List.filter isConfigurableColumn slotChildren).

(** ** Settings of the user *)

(** [new Map(l.map((c) => [c.key, ...]))]: the last column of a key, with its index. *)
Fixpoint last_of (k : jsstr) (l : list FuTableColumnConfig) (i : nat) : option (nat * FuTableColumnConfig) :=
  match l with
  | [] => None
  | c :: l' => match last_of k l' (S i) with
               | Some r => Some r
               | None => if c.(c_key) === k then Some (i, c) else None
               end
  end.

(** One column with its order: [keep_fixed] when the setting of fixed counts too. *)
Definition merge_one (keep_fixed : bool) (source : list FuTableColumnConfig) (index : nat) (column : FuTableColumnConfig) :
  Z * FuTableColumnConfig :=
  let found := last_of column.(c_key) source 0 in
  (Z.of_nat (default index (fst <$> found)),
   {| c_key := column.(c_key); c_label := column.(c_label); c_prop := column.(c_prop);
      c_show := default true (c_show ∘ snd <$> found);
      c_fixed := if keep_fixed then match found ≫= (c_fixed ∘ snd) with Some f => Some f | None => column.(c_fixed) end
                 else column.(c_fixed) |}).

Definition merge (keep_fixed : bool) (source next : list FuTableColumnConfig) : list FuTableColumnConfig :=
  List.map snd (sort_by fst (imap (merge_one keep_fixed source) next)).

Record Table := {
  columns : option (list FuTableColumnConfig);         (* props.columns *)
  storageLoaded : bool;
  storedColumns : list FuTableColumnConfig;
  storage : option (list FuTableColumnConfig);         (* localStorage under the key of the table *)
}.

Section Table.
Variable localKey : bool.                              (* whether the table has one *)

Definition ensureStoredColumns (s : Table) : Table :=
  {| columns := s.(columns); storageLoaded := true;
     storedColumns := if s.(storageLoaded) || negb localKey then s.(storedColumns)
                      else default s.(storedColumns) s.(storage);
     storage := s.(storage) |}.

Definition syncColumns (nextColumns : list FuTableColumnConfig) (s : Table) : Table :=
  match s.(columns) with
  | None => s
  | Some currentColumns =>
      let s := ensureStoredColumns s in
      let sourceColumns := match currentColumns with [] => s.(storedColumns) | _ => currentColumns end in
      {| columns := Some (merge true sourceColumns nextColumns); storageLoaded := s.(storageLoaded);
         storedColumns := s.(storedColumns); storage := s.(storage) |}
  end.

(** The watcher of the columns. *)
Definition saveColumns (s : Table) : Table :=
  match s.(columns) with
  | Some l => {| columns := s.(columns); storageLoaded := s.(storageLoaded); storedColumns := s.(storedColumns);
                 storage := if localKey then Some l else s.(storage) |}
  | None => s
  end.

Definition resolvedColumns (slotChildren : list VNode) (s : Table) : list FuTableColumnConfig :=
  match s.(columns) with
  | Some (c :: l) => c :: l
  | _ => match s.(storedColumns) with
         | [] => slotColumns slotChildren
         | stored => merge false stored (slotColumns slotChildren)
         end
  end.
End Table.

(** ** Rendering *)

(** A child as it is, or the clone of a column under a key. *)
Variant Child := Own (v : VNode) | Clone (v : VNode) (key : jsstr) (fixed : option Fixed).

(** The last configurable vnode of a key. *)
Fixpoint node_of (k : jsstr) (l : list VNode) (i : nat) : option VNode :=
  match l with
  | [] => None
  | v :: l' => match node_of k l' (S i) with
               | Some w => Some w
               | None => if buildColumnKey v i === k then Some v else None
               end
  end.

(** [fixed ?? (fix || undefined)] *)
Definition clone_fixed (v : VNode) : option Fixed :=
  match v.(n_fixed) with
  | Some f => Some f
  | None => match v.(n_fix) with
            | Some (FixedBool false) | Some (FixedSide []) => None
            | f => f
            end
  end.

Definition orderedConfigurableChildren (slotChildren : list VNode) (resolved : list FuTableColumnConfig) : list Child :=
  omap (fun column => (fun v => Clone v column.(c_key) (clone_fixed v)) <$>
                        node_of column.(c_key) (List.filter isConfigurableColumn slotChildren) 0)
    (List.filter c_show resolved).

(** The loop over the children: whether the columns have been inserted yet. *)
Fixpoint render_go (ordered : list Child) (inserted : bool) (l : list VNode) : list Child :=
  match l with
  | [] => []
  | child :: l' =>
      if isConfigurableColumn child then
        if inserted then render_go ordered true l' else ordered ++ render_go ordered true l'
      else Own child :: render_go ordered inserted l'
  end.

Definition renderedChildren (slotChildren : list VNode) (s : Table) : list Child :=
  match slotColumns slotChildren with
  | [] => List.map Own slotChildren
  | _ => render_go (orderedConfigurableChildren slotChildren (resolvedColumns slotChildren s)) false slotChildren
  end.

Definition sample_node (id : nat) (label : string) : VNode :=
  {| n_id := id; n_column := true; n_columnKey := None; n_prop := None; n_key := None; n_label := Some (js label);
     n_type := None; n_fixed := None; n_fix := None |}.
Definition sample_children : list VNode :=
  [ {| n_id := 0; n_column := true; n_columnKey := None; n_prop := None; n_key := None; n_label := None;
       n_type := Some (js "selection"); n_fixed := None; n_fix := None |};
    sample_node 1 "name"; sample_node 2 "size"; sample_node 3 "date" ].
Definition sample_column (k : string) (show : bool) : FuTableColumnConfig :=
  {| c_key := js k; c_label := js k; c_prop := None; c_show := show; c_fixed := None |}.

Example sync_ex :
  columns (syncColumns true (slotColumns sample_children)
    {| columns := Some []; storageLoaded := false; storedColumns := [];
       storage := Some [sample_column "date" true; sample_column "name" false] |})
  = Some [sample_column "date" true; sample_column "name" false; sample_column "size" true].
Proof. vm_compute. reflexivity. Qed.

(** ** Lemmas on the lookups *)

Abbreviation keys l := (List.map c_key l) (only parsing).

Lemma last_of_Some k l i j c : last_of k l i = Some (j, c) -> i <= j /\ l !! (j - i) = Some c /\ c.(c_key) = k.
Proof.
  revert i. induction l as [|d l IH]; intros i; [done|]. cbn [last_of]. destruct (last_of k l (S i)) as [[j' c']|] eqn:E.
  - intros [= <- <-]. apply IH in E as (H1 & H2 & H3). split; [lia|]. split; [|done].
    by replace (j' - i) with (S (j' - S i)) by lia.
  - destruct (c_key d === k) eqn:Ek; [|done]. intros [= <- <-]. apply streqb_eq in Ek. by rewrite Nat.sub_diag.
Qed.

Lemma last_of_None k l i : last_of k l i = None <-> k ∉ keys l.
Proof.
  revert i. induction l as [|d l IH]; intros i; [by split; [intros _; apply not_elem_of_nil|]|].
  cbn [last_of List.map]. rewrite not_elem_of_cons. destruct (last_of k l (S i)) as [r|] eqn:E.
  - split; [done|]. intros [_ H]. apply (IH (S i)) in H. congruence.
  - apply IH in E. destruct (c_key d === k) eqn:Ek; bool_prop; naive_solver.
Qed.

Lemma lookup_keys (l : list FuTableColumnConfig) i c : l !! i = Some c -> keys l !! i = Some c.(c_key).
Proof. intros H. change (keys l) with (c_key <$> l). by rewrite list_lookup_fmap, H. Qed.

Lemma last_of_lookup l i c : NoDup (keys l) -> l !! i = Some c -> last_of c.(c_key) l 0 = Some (i, c).
Proof.
  intros Hn Hi. destruct (last_of (c_key c) l 0) as [[j d]|] eqn:E.
  - apply last_of_Some in E as (_ & Hj & Hk). rewrite Nat.sub_0_r in Hj.
    assert (j = i) as -> by (apply (NoDup_lookup (keys l) j i (c_key c)); [done|rewrite <- Hk|]; by apply lookup_keys).
    congruence.
  - apply last_of_None in E. exfalso. apply E. apply elem_map. exists c. split; [done|by eapply list_elem_of_lookup_2].
Qed.

Lemma key_inj (l : list FuTableColumnConfig) c d : NoDup (keys l) -> c ∈ l -> d ∈ l -> c.(c_key) = d.(c_key) -> c = d.
Proof.
  intros Hn (i & Hi)%list_elem_of_lookup (j & Hj)%list_elem_of_lookup Hk.
  assert (i = j) as ->; [|congruence]. apply (NoDup_lookup (keys l) i j (c_key c)); [done|by apply lookup_keys|].
  rewrite Hk. by apply lookup_keys.
Qed.

(** ** Settings fit the columns of the slot *)

(** Columns that order and decorate those of the slot. *)
Record fits (next cols : list FuTableColumnConfig) : Prop := {
  fit_distinct : NoDup (keys next);
  fit_keys : keys cols ≡ₚ keys next;
  fit_columns : forall c, c ∈ cols -> exists n, n ∈ next /\ n.(c_key) = c.(c_key) /\ n.(c_label) = c.(c_label) /\
    n.(c_prop) = c.(c_prop) /\ (c.(c_fixed) = None -> n.(c_fixed) = None);
}.

Lemma imap_elem {A B} (f : nat -> A -> B) l y : y ∈ imap f l <-> exists i x, l !! i = Some x /\ y = f i x.
Proof.
  rewrite list_elem_of_lookup. setoid_rewrite list_lookup_imap. split.
  - intros (i & (x & Hx & ->)%fmap_Some). eauto.
  - intros (i & x & Hx & ->). exists i. by rewrite Hx.
Qed.

Lemma merge_one_key b source i c : (merge_one b source i c).2.(c_key) = c.(c_key).
Proof. done. Qed.

Lemma merge_keys b source next : keys (merge b source next) ≡ₚ keys next.
Proof.
  unfold merge. rewrite map_map. rewrite (Permutation_map _ (sort_by_perm fst _)).
  assert (H : forall k, List.map (fun x => c_key x.2) (imap (fun i => merge_one b source (k + i)) next) = keys next); [|specialize (H 0); cbn [Nat.add] in H; exact (eq_ind_r (fun l => l ≡ₚ keys next) (Permutation_refl _) H)].
  clear. induction next as [|c next IH]; intros k; [done|]. rewrite imap_cons. cbn [List.map]. f_equal.
  rewrite <- (IH (S k)). f_equal. apply imap_ext. intros i x _. unfold compose. by rewrite Nat.add_succ_r.
Qed.

Lemma merge_elem b source next c : c ∈ merge b source next <-> exists i n, next !! i = Some n /\ c = (merge_one b source i n).2.
Proof.
  unfold merge. rewrite elem_map. 
  split.
  - intros (x & -> & Hx). rewrite sort_by_perm in Hx. apply imap_elem in Hx as (i & n & Hi & ->). eauto.
  - intros (i & n & Hi & ->). eexists. split; [reflexivity|]. rewrite sort_by_perm. apply imap_elem. eauto.
Qed.

(** Merging makes settings that fit. *)
Lemma merge_fits source next : NoDup (keys next) -> fits next (merge true source next).
Proof.
  intros Hn. split; [done|apply merge_keys|]. intros c (i & n & Hi & ->)%merge_elem. exists n.
  split; [by eapply list_elem_of_lookup_2|]. split_and!; try done. cbn.
  by destruct (last_of _ _ _ ≫= _).
Qed.

Lemma StronglySorted_positions (l : list FuTableColumnConfig) :
  StronglySorted (ascending fst) (imap (fun i c => (Z.of_nat i, c)) l).
Proof.
  assert (H : forall k, StronglySorted (ascending fst) (imap (fun i c => (Z.of_nat (k + i), c)) l)); [|apply (H 0)].
  induction l as [|c l IH]; intros k; [constructor|]. rewrite imap_cons. constructor.
  - erewrite imap_ext; [apply (IH (S k))|]. intros i x _. unfold compose. by rewrite Nat.add_succ_r.
  - apply Forall_elem. intros x (i & d & _ & ->)%imap_elem. unfold ascending, compose. cbn. lia.
Qed.

Lemma map_snd_positions (l : list FuTableColumnConfig) : List.map snd (imap (fun i c => (Z.of_nat i, c)) l) = l.
Proof.
  change (snd <$> imap (fun i c => (Z.of_nat i, c)) l = l). apply list_eq. intros i.
  rewrite list_lookup_fmap, list_lookup_imap. by destruct (l !! i).
Qed.

Lemma positions_NoDup (l : list FuTableColumnConfig) : NoDup (List.map fst (imap (fun i c => (Z.of_nat i, c)) l)).
Proof.
  change (NoDup (fst <$> imap (fun i c => (Z.of_nat i, c)) l)). apply NoDup_alt. intros i j z.
  rewrite !list_lookup_fmap, !list_lookup_imap. destruct (l !! i), (l !! j); cbn; try done. intros [= <-] [= H]. lia.
Qed.

(** A column of the slot merges to its setting, at the place of that. *)
Lemma merge_one_fits next cols i n : fits next cols -> next !! i = Some n ->
  exists j c, cols !! j = Some c /\ c.(c_key) = n.(c_key) /\ merge_one true cols i n = (Z.of_nat j, c).
Proof.
  intros [Hn Hk Hc] Hi. assert (Hin : n.(c_key) ∈ keys cols).
  { rewrite Hk. apply elem_map. exists n. split; [done|by eapply list_elem_of_lookup_2]. }
  apply elem_map in Hin as (c & Hkey & (j & Hj)%list_elem_of_lookup). exists j, c. split; [done|]. split; [done|].
  assert (NoDup (keys cols)) as Hnc by by rewrite Hk.
  unfold merge_one. rewrite Hkey, (last_of_lookup cols j c) by done. cbn.
  destruct (Hc c) as (n' & Hn' & K & L & P & F); [by eapply list_elem_of_lookup_2|].
  assert (n' = n) as -> by (apply (key_inj next); [done|done|by eapply list_elem_of_lookup_2|congruence]).
  rewrite L, P. destruct c as [k l p s f]; cbn in *. f_equal. f_equal. destruct f; [done|auto].
Qed.

(** Settings that fit stay as they are. *)
Lemma merge_id next cols : fits next cols -> merge true cols next = cols.
Proof.
  intros Hf. pose proof Hf as [Hn Hk Hc]. unfold merge.
  assert (NoDup (keys cols)) as Hnc by by rewrite Hk.
  assert (Hp : imap (fun i c => (Z.of_nat i, c)) cols ≡ₚ imap (merge_one true cols) next).
  { apply NoDup_Permutation.
    - eapply (NoDup_fmap_1 fst). apply positions_NoDup.
    - apply (NoDup_fmap_1 (fun x => c_key x.2)).
      assert ((fun x => c_key x.2) <$> imap (merge_one true cols) next = keys next) as ->; [|done].
      apply list_eq. intros i. change (keys next) with (c_key <$> next). rewrite !list_lookup_fmap, list_lookup_imap.
      by destruct (next !! i).
    - intros [z c]. rewrite !imap_elem. split.
      + intros (j & c' & Hj & [= -> ->]).
        destruct (Hc c') as (n & (i & Hi)%list_elem_of_lookup & K & _); [by eapply list_elem_of_lookup_2|].
        exists i, n. split; [done|]. destruct (merge_one_fits next cols i n Hf Hi) as (j' & d & Hd & Hk' & ->).
        assert (j' = j) as ->; [|congruence].
        apply (NoDup_lookup (keys cols) j' j (c_key d)); [done|by apply lookup_keys|].
        rewrite Hk', K. by apply lookup_keys.
      + intros (i & n & Hi & E). destruct (merge_one_fits next cols i n Hf Hi) as (j & d & Hj & _ & E').
        rewrite E' in E. eauto. }
  rewrite (sort_by_unique fst _ (imap (fun i c => (Z.of_nat i, c)) cols)).
  - apply map_snd_positions.
  - rewrite <- (Permutation_map fst Hp). apply positions_NoDup.
  - done.
  - apply StronglySorted_positions.
Qed.

(** ** Settings survive *)

(** Another visibility of one column, which the column selector sets. *)
Definition set_show (b : bool) (c : FuTableColumnConfig) : FuTableColumnConfig :=
  {| c_key := c.(c_key); c_label := c.(c_label); c_prop := c.(c_prop); c_show := b; c_fixed := c.(c_fixed) |}.
Inductive toggled : list FuTableColumnConfig -> list FuTableColumnConfig -> Prop :=
| toggle i b l : toggled l (alter (set_show b) i l).

Lemma toggled_fits next l l' : fits next l -> toggled l l' -> fits next l'.
Proof.
  intros Hf Ht. destruct Ht as [i b k]. destruct Hf as [Hn Hk Hc]. split; [done| |].
  - assert (keys (alter (set_show b) i k) = keys k) as ->; [|done].
    change (keys (alter (set_show b) i k)) with (c_key <$> alter (set_show b) i k).
    change (keys k) with (c_key <$> k). apply list_eq. intros j. rewrite !list_lookup_fmap, list_lookup_alter. destruct (decide (i = j)) as [->|]; [|done].
    by destruct (k !! j).
  - intros c (j & Hj)%list_elem_of_lookup. rewrite list_lookup_alter in Hj. destruct (decide (i = j)) as [->|].
    + destruct (k !! j) as [d|] eqn:Ed; [|done]. injection Hj as <-. cbn. apply Hc. by eapply list_elem_of_lookup_2.
    + apply Hc. by eapply list_elem_of_lookup_2.
Qed.

Definition with_columns (l : list FuTableColumnConfig) (s : Table) : Table :=
  {| columns := Some l; storageLoaded := s.(storageLoaded); storedColumns := s.(storedColumns); storage := s.(storage) |}.

Lemma sync_columns lk next s : is_Some s.(columns) -> exists source, columns (syncColumns lk next s) = Some (merge true source next).
Proof. intros [l Hl]. unfold syncColumns. rewrite Hl. by eexists. Qed.

Lemma merge_nil b source : merge b source [] = [].
Proof. done. Qed.

Lemma sync_fits lk next s cols : fits next cols -> s.(columns) = Some cols -> columns (syncColumns lk next s) = Some cols.
Proof.
  intros Hf Hs. unfold syncColumns. rewrite Hs. cbn [columns]. destruct cols as [|c l]; [|by rewrite (merge_id next (c :: l))].
  pose proof (fit_keys _ _ Hf) as Hk. apply Permutation_nil in Hk. destruct next; [|done]. by rewrite merge_nil.
Qed.

(** A table with distinct columns shows each of its columns once, whatever settings it
    finds; what the user shows or hides then stays when the columns are synchronised again,
    and is what a new table with the same columns starts with. *)
Theorem columns_survive_reload next s l cols : NoDup (keys next) ->
  columns (syncColumns true next s) = Some l -> star toggled l cols ->
  keys cols ≡ₚ keys next /\
  let s1 := with_columns cols (syncColumns true next s) in
  columns (syncColumns true next s1) = Some cols /\
  columns (syncColumns true next
    {| columns := Some []; storageLoaded := false; storedColumns := []; storage := storage (saveColumns true s1) |}) = Some cols.
Proof.
  intros Hn Hl Ht. assert (Hf : fits next cols).
  { apply (star_invariant toggled (fits next)) with (2 := Ht); [apply toggled_fits|].
    unfold syncColumns in Hl. destruct (columns s) as [cur|] eqn:Ec; [|congruence].
    cbn [columns] in Hl. injection Hl as <-. by apply merge_fits. }
  split; [by apply fit_keys|]. cbv zeta. split; [by apply sync_fits|].
  unfold syncColumns at 1. cbn. by rewrite merge_id.
Qed.

(** ** Rendering *)

Lemma render_rest ordered l : render_go ordered true l = List.map Own (List.filter (fun v => negb (isConfigurableColumn v)) l).
Proof. induction l as [|v l IH]; [done|]. cbn [render_go List.filter]. destruct (isConfigurableColumn v); cbn; by rewrite IH. Qed.

Lemma render_first ordered a v b : List.filter isConfigurableColumn a = [] -> isConfigurableColumn v = true ->
  render_go ordered false (a ++ v :: b) =
  List.map Own a ++ ordered ++ List.map Own (List.filter (fun v => negb (isConfigurableColumn v)) b).
Proof.
  intros Ha Hv. induction a as [|w a IH]; cbn [app render_go List.map].
  - by rewrite Hv, render_rest.
  - cbn [List.filter] in Ha. destruct (isConfigurableColumn w); [done|]. by rewrite IH.
Qed.

(** The key of a rendered column. *)
Definition clone_key (c : Child) : option jsstr := match c with Clone _ k _ => Some k | Own _ => None end.

Lemma node_of_key k l i v : node_of k l i = Some v -> exists j, l !! j = Some v /\ buildColumnKey v (i + j) = k.
Proof.
  revert i. induction l as [|w l IH]; intros i; [done|]. cbn [node_of]. destruct (node_of k l (S i)) as [x|] eqn:E.
  - intros [= <-]. apply IH in E as (j & Hj & Hk). exists (S j). split; [done|]. by rewrite Nat.add_succ_r.
  - destruct (_ === k) eqn:Ek; [|done]. intros [= <-]. exists 0. rewrite Nat.add_0_r. by apply streqb_eq in Ek.
Qed.

Lemma node_of_found l i k : k ∈ imap (fun j v => buildColumnKey v (i + j)) l -> is_Some (node_of k l i).
Proof.
  revert i. induction l as [|w l IH]; intros i; cbn [node_of]; [intros H; by apply elem_of_nil in H|].
  rewrite imap_cons, elem_of_cons, Nat.add_0_r. intros [->|H].
  - rewrite streqb_refl. by destruct (node_of _ l (S i)).
  - assert (is_Some (node_of k l (S i))) as [x ->]; [|by eexists]. apply IH.
    erewrite imap_ext; [exact H|]. intros j v _. unfold compose. by rewrite Nat.add_succ_r.
Qed.

Lemma slot_keys ch : keys (slotColumns ch) = imap (fun j v => buildColumnKey v j) (List.filter isConfigurableColumn ch).
Proof.
  unfold slotColumns. change (c_key <$> imap (fun i v => buildColumnConfig v i) (List.filter isConfigurableColumn ch) =
    imap (fun j v => buildColumnKey v j) (List.filter isConfigurableColumn ch)).
  apply list_eq. intros i. rewrite list_lookup_fmap, !list_lookup_imap. by destruct (_ !! i).
Qed.

Lemma ordered_keys ch cols : keys cols ≡ₚ keys (slotColumns ch) ->
  List.map clone_key (orderedConfigurableChildren ch cols) = List.map Some (keys (List.filter c_show cols)).
Proof.
  intros Hk. unfold orderedConfigurableChildren.
  assert (H : forall l, (forall c, c ∈ l -> c ∈ cols) ->
    List.map clone_key (omap (fun column => (fun v => Clone v column.(c_key) (clone_fixed v)) <$>
       node_of column.(c_key) (List.filter isConfigurableColumn ch) 0) l) = List.map Some (keys l));
    [|apply H; by intros c [Hc _]%elem_filter].
  induction l as [|c l IH]; intros Hl; [done|].
  destruct (node_of_found (List.filter isConfigurableColumn ch) 0 (c_key c)) as [v Hv].
  { cbn [Nat.add]. rewrite <- slot_keys, <- Hk. apply elem_map. exists c. split; [done|]. apply Hl. by left. }
  cbn [omap list_omap]. rewrite Hv. cbn [fmap option_fmap option_map List.map clone_key]. f_equal.
  apply IH. intros d Hd. apply Hl. by right.
Qed.

(** The configured columns of a table stand together where the first of them stood, in
    the order of the settings and without the hidden ones; everything else of the slot
    stays in its order. *)
Theorem renderedChildren_spec a v b s cols : let ch := a ++ v :: b in
  List.filter isConfigurableColumn a = [] -> isConfigurableColumn v = true ->
  s.(columns) = Some cols -> fits (slotColumns ch) cols ->
  exists shown, renderedChildren ch s =
    List.map Own a ++ shown ++ List.map Own (List.filter (fun v => negb (isConfigurableColumn v)) b) /\
    List.map clone_key shown = List.map Some (keys (List.filter c_show cols)).
Proof.
  intros ch Ha Hv Hs Hf. exists (orderedConfigurableChildren ch cols).
  split; [|apply ordered_keys; by apply fit_keys].
  unfold renderedChildren. assert (Hne : slotColumns ch <> []).
  { unfold slotColumns, ch. rewrite List.filter_app, Ha. cbn [app List.filter]. by rewrite Hv. }
  assert (Hr : resolvedColumns ch s = cols).
  { unfold resolvedColumns. rewrite Hs. destruct cols as [|c l]; [|done].
    pose proof (fit_keys _ _ Hf) as Hk. apply Permutation_nil in Hk. by destruct (slotColumns ch). }
  rewrite Hr. destruct (slotColumns ch) as [|x y] eqn:E; [done|]. by apply render_first.
Qed.

(** ** Witnesses *)

Definition sample_slot : list FuTableColumnConfig := slotColumns sample_children.
Definition sample_table : Table := {| columns := Some []; storageLoaded := false; storedColumns := []; storage := None |}.

Lemma sample_fits : fits sample_slot (alter (set_show false) 1 sample_slot).
Proof.
  apply (toggled_fits _ sample_slot); [|constructor]. assert (sample_slot = merge true [] sample_slot) as E by (vm_compute; reflexivity).
  rewrite E at 2. apply merge_fits. refine (bool_decide_unpack _ _). vm_compute. exact I.
Qed.

Lemma columns_survive_reload_witness :
  columns (syncColumns true sample_slot
    {| columns := Some []; storageLoaded := false; storedColumns := [];
       storage := storage (saveColumns true (with_columns (alter (set_show false) 1 sample_slot)
                                               (syncColumns true sample_slot sample_table))) |})
  = Some (alter (set_show false) 1 sample_slot).
Proof.
  apply (columns_survive_reload sample_slot sample_table sample_slot).
  - refine (bool_decide_unpack _ _). vm_compute. exact I.
  - vm_compute. reflexivity.
  - apply star_one. constructor.
Defined.

Lemma renderedChildren_spec_witness :
  exists shown, renderedChildren sample_children (with_columns (alter (set_show false) 1 sample_slot) sample_table) =
    List.map Own (take 1 sample_children) ++ shown ++ [] /\
    List.map clone_key shown = [Some (js "name"); Some (js "date")].
Proof.
  destruct (renderedChildren_spec (take 1 sample_children) (sample_node 1 "name") (drop 2 sample_children)
    (with_columns (alter (set_show false) 1 sample_slot) sample_table) (alter (set_show false) 1 sample_slot))
    as (shown & H1 & H2); [reflexivity|reflexivity|reflexivity|exact sample_fits|].
  exists shown. split; [exact H1|]. rewrite H2. vm_compute. reflexivity.
Defined.
