(* ===== verification/TableSelection.v ===== *)
(** * Row selection of the complex table

    src/frontend/src/components/table/complex/useTableSelection.ts: the selected
    rows of the composable against those of the Element Plus table, shift-click
    ranges, and the guard against the table's own change events.

    A row is its raw object ([toRaw]), a number here: every comparison of the
    source goes through [sameRow].  The table is an interface ([ElTable]): what
    its two methods do, and that changing its selection emits selection-change
    synchronously, back into [handleSelectionChange]. *)

From S2P Require Import Prelude.

Definition Row := N.

(** [toggleRowSelection] returns the new table and the payloads of the
    selection-change events it emits before it returns. *)
Class ElTable := {
  table : Type;
  getSelectionRows : table -> list Row;
  toggleRowSelection : Row -> bool -> table -> table * list (list Row);
  toggle_rows row selected t :
    getSelectionRows (toggleRowSelection row selected t).1 =
    if selected
    then if decide (row ∈ getSelectionRows t) then getSelectionRows t else getSelectionRows t ++ [row]
    else filter (fun r => r <> row) (getSelectionRows t);
}.

Section Selection.
Context {ET : ElTable}.
(** The arguments of the composable. *)
Context (getTableData : list Row) (isRowSelectable : Row -> bool).

(** The closure's variables, with the table it refers to, the window's text
    selection and the calls of [onSelectionChange], the last one first. *)
Record Selection := {
  tableRef : option table;
  selectedRows : list Row;
  shiftPressed : bool;
  lastSelectedRow : option Row;
  rangeBaseRows : list Row;
  isSyncing : bool;
  skipNext : bool;
  textSelection : bool;
  notified : list (list Row);
}.

Definition initial_selection (t : option table) : Selection :=
  {| tableRef := t; selectedRows := []; shiftPressed := false; lastSelectedRow := None;
     rangeBaseRows := []; isSyncing := false; skipNext := false; textSelection := false; notified := [] |}.

Definition set_table (t : option table) (s : Selection) : Selection :=
  {| tableRef := t; selectedRows := s.(selectedRows); shiftPressed := s.(shiftPressed);
     lastSelectedRow := s.(lastSelectedRow); rangeBaseRows := s.(rangeBaseRows);
     isSyncing := s.(isSyncing); skipNext := s.(skipNext); textSelection := s.(textSelection);
     notified := s.(notified) |}.
Definition set_shift (b : bool) (s : Selection) : Selection :=
  {| tableRef := s.(tableRef); selectedRows := s.(selectedRows); shiftPressed := b;
     lastSelectedRow := s.(lastSelectedRow); rangeBaseRows := s.(rangeBaseRows);
     isSyncing := s.(isSyncing); skipNext := s.(skipNext); textSelection := s.(textSelection);
     notified := s.(notified) |}.
Definition set_anchor (last : option Row) (base : list Row) (s : Selection) : Selection :=
  {| tableRef := s.(tableRef); selectedRows := s.(selectedRows); shiftPressed := s.(shiftPressed);
     lastSelectedRow := last; rangeBaseRows := base;
     isSyncing := s.(isSyncing); skipNext := s.(skipNext); textSelection := s.(textSelection);
     notified := s.(notified) |}.
Definition set_syncing (b : bool) (s : Selection) : Selection :=
  {| tableRef := s.(tableRef); selectedRows := s.(selectedRows); shiftPressed := s.(shiftPressed);
     lastSelectedRow := s.(lastSelectedRow); rangeBaseRows := s.(rangeBaseRows);
     isSyncing := b; skipNext := s.(skipNext); textSelection := s.(textSelection);
     notified := s.(notified) |}.
Definition set_skip (b : bool) (s : Selection) : Selection :=
  {| tableRef := s.(tableRef); selectedRows := s.(selectedRows); shiftPressed := s.(shiftPressed);
     lastSelectedRow := s.(lastSelectedRow); rangeBaseRows := s.(rangeBaseRows);
     isSyncing := s.(isSyncing); skipNext := b; textSelection := s.(textSelection);
     notified := s.(notified) |}.

Definition hasRow (rows : list Row) (row : Row) : bool := existsb (N.eqb row) rows.
Definition isRowSelected (row : Row) (s : Selection) : bool := hasRow s.(selectedRows) row.

Definition clearTextSelection (s : Selection) : Selection :=
  {| tableRef := s.(tableRef); selectedRows := s.(selectedRows); shiftPressed := s.(shiftPressed);
     lastSelectedRow := s.(lastSelectedRow); rangeBaseRows := s.(rangeBaseRows);
     isSyncing := s.(isSyncing); skipNext := s.(skipNext); textSelection := false;
     notified := s.(notified) |}.

Definition setSelectedRows (rows : list Row) (s : Selection) : Selection :=
  {| tableRef := s.(tableRef); selectedRows := rows; shiftPressed := s.(shiftPressed);
     lastSelectedRow := s.(lastSelectedRow); rangeBaseRows := s.(rangeBaseRows);
     isSyncing := s.(isSyncing); skipNext := s.(skipNext); textSelection := s.(textSelection);
     notified := rows :: s.(notified) |}.

(** ** Synchronising the table

    Toggling a row of the table calls [handleSelectionChange], which calls
    [syncTableSelection] again; [fuel] bounds the nesting. *)

Definition handle_change (sync : Selection -> Selection) (rows : list Row) (s : Selection) : Selection :=
  if s.(isSyncing) then s
  else if s.(skipNext) then sync (set_skip false s)
  else
    let s := setSelectedRows rows s in
    if length rows =? 0 then set_anchor None [] s else s.

(** One call of the table, with the events it emits. *)
Definition toggle (sync : Selection -> Selection) (row : Row) (selected : bool) (s : Selection) : Selection :=
  match s.(tableRef) with
  | None => s
  | Some t =>
      let '(t', events) := toggleRowSelection row selected t in
      fold_left (fun s rows => handle_change sync rows s) events (set_table (Some t') s)
  end.

Fixpoint syncTableSelection (fuel : nat) (s : Selection) : Selection :=
  match fuel with
  | O => s
  | S fuel =>
      match s.(tableRef) with
      | None => s
      | Some t =>
          let s := set_syncing true s in
          let tableData := getTableData in
          let nextRows := List.filter (fun row => hasRow tableData row && isRowSelectable row) s.(selectedRows) in
          let currentRows := getSelectionRows t in
          let sync := syncTableSelection fuel in
          let s := fold_left (fun s row => toggle sync row false s)
                     (List.filter (fun row => negb (hasRow nextRows row)) currentRows) s in
          let s := fold_left (fun s row => toggle sync row true s)
                     (List.filter (fun row => negb (hasRow currentRows row)) nextRows) s in
          set_syncing false s
      end
  end.

(** Two levels: the nested calls are refused by the flag. *)
Definition sync := syncTableSelection 2.

Definition handleSelectionChange := handle_change sync.

(** ** The operations *)

Definition selectRow (row : Row) (selected : option bool) (s : Selection) : Selection :=
  let selected := default (negb (isRowSelected row s)) selected in
  if negb (isRowSelectable row) then s
  else
    let nextRows :=
      if selected then
        if isRowSelected row s then s.(selectedRows) else s.(selectedRows) ++ [row]
      else List.filter (fun item => negb (item =? row)%N) s.(selectedRows) in
    sync (setSelectedRows nextRows s).

(** [findIndex], [None] for -1. *)
Fixpoint findIndex (l : list Row) (row : Row) : option nat :=
  match l with
  | [] => None
  | x :: l' => if (x =? row)%N then Some 0 else S <$> findIndex l' row
  end.

(** The rows pushed after the base: each one that is not there yet. *)
Definition push_rows (rangeRows base : list Row) : list Row :=
  fold_left (fun nextRows row => if hasRow nextRows row then nextRows else nextRows ++ [row]) rangeRows base.

Definition applyRangeSelection (targetRow : Row) (s : Selection) : bool * Selection :=
  match s.(lastSelectedRow) with
  | None => (false, s)
  | Some lastRow =>
      let tableData := getTableData in
      match findIndex tableData lastRow, findIndex tableData targetRow with
      | Some startIndex, Some endIndex =>
          let start := Nat.min startIndex endIndex in
          let end_ := Nat.max startIndex endIndex in
          let rangeRows := List.filter isRowSelectable (take (end_ + 1 - start) (drop start tableData)) in
          let nextRows := push_rows rangeRows s.(rangeBaseRows) in
          (true, sync (setSelectedRows nextRows s))
      | _, _ => (false, s)
      end
  end.

Definition handleSelect (selection : list Row) (row : Row) (s : Selection) : Selection :=
  let plain s :=
    clearTextSelection (set_anchor (Some row) (List.filter (fun item => negb (item =? row)%N) selection) s) in
  if s.(shiftPressed) then
    let '(applied, s) := applyRangeSelection row s in
    if applied then clearTextSelection (set_skip true s) else plain s
  else plain s.

Definition clearSelects (s : Selection) : Selection := set_anchor None [] (sync (setSelectedRows [] s)).

Definition pruneSelection (s : Selection) : Selection :=
  let nextRows := List.filter (fun row => hasRow getTableData row) s.(selectedRows) in
  let s := if negb (length nextRows =? length s.(selectedRows)) then setSelectedRows nextRows s else s in
  let s := match s.(lastSelectedRow) with
           | Some r => if negb (hasRow nextRows r) then set_anchor None [] s else s
           | None => s
           end in
  sync s.

Definition toggleSelection (s : Selection) : Selection :=
  let selectableRows := List.filter isRowSelectable getTableData in
  let allSelected := (0 <? length selectableRows) && forallb (fun row => isRowSelected row s) selectableRows in
  let nextRows :=
    if allSelected then List.filter (fun row => negb (hasRow selectableRows row)) s.(selectedRows)
    else s.(selectedRows) ++ List.filter (fun row => negb (isRowSelected row s)) selectableRows in
  sync (setSelectedRows nextRows s).

(** [shiftKey] and [on_control] (a control of the row under the pointer) are
    the event's. *)
Definition handleRowClick (row : Row) (shiftKey on_control : bool) (s : Selection) : Selection :=
  if negb (isRowSelectable row) || (s.(textSelection) && negb shiftKey) then s
  else if on_control then s
  else
    let '(applied, s) := if shiftKey then applyRangeSelection row s else (false, s) in
    if applied then clearTextSelection s
    else
      let s := if isRowSelected row s then s else selectRow row (Some true) s in
      let s := set_anchor (Some row) (List.filter (fun item => negb (item =? row)%N) s.(selectedRows)) s in
      clearTextSelection s.

Definition handleKeyDown (shift : bool) (s : Selection) : Selection := if shift then set_shift true s else s.
Definition handleKeyUp (shift : bool) (s : Selection) : Selection := if shift then set_shift false s else s.

(** ** Synchronisation *)

Lemma hasRow_spec rows row : hasRow rows row = true <-> row ∈ rows.
Proof.
  unfold hasRow. rewrite existsb_elem. split.
  - intros (x & Hx & E). apply N.eqb_eq in E. by subst.
  - intros Hx. exists row. by rewrite N.eqb_refl.
Qed.

Lemma hasRow_false rows row : hasRow rows row = false <-> row ∉ rows.
Proof. rewrite <- hasRow_spec. by destruct (hasRow rows row). Qed.

(** While the flag is set the events of the table are ignored. *)
Lemma handle_ignored sy events s :
  s.(isSyncing) = true -> fold_left (fun s rows => handle_change sy rows s) events s = s.
Proof.
  intros Hs. induction events as [|e events IH]; [done|]. cbn [fold_left].
  unfold handle_change at 2. by rewrite Hs.
Qed.

Definition shown (s : Selection) : list Row :=
  match s.(tableRef) with Some t => getSelectionRows t | None => [] end.

(** Toggling a list of rows while the flag is set changes the table only, and
    does not depend on what a nested call would do. *)
Lemma toggles sy sy' selected rows s t :
  s.(tableRef) = Some t -> s.(isSyncing) = true ->
  exists t',
    fold_left (fun s row => toggle sy row selected s) rows s = set_table (Some t') s /\
    fold_left (fun s row => toggle sy' row selected s) rows s = set_table (Some t') s /\
    forall r, r ∈ getSelectionRows t' <->
      if selected then r ∈ getSelectionRows t \/ r ∈ rows else r ∈ getSelectionRows t /\ r ∉ rows.
Proof.
  revert s t. induction rows as [|row rows IH]; intros s t Ht Hs.
  - exists t. cbn [fold_left]. assert (set_table (Some t) s = s) as ->.
    { destruct s. cbn in *. by subst. }
    split; [done|]. split; [done|]. intros r. destruct selected; set_solver.
  - cbn [fold_left]. unfold toggle at 2 4. rewrite Ht.
    destruct (toggleRowSelection row selected t) as [t1 events] eqn:E.
    rewrite !handle_ignored by done.
    destruct (IH (set_table (Some t1) s) t1 eq_refl Hs) as (t' & -> & -> & Hr).
    exists t'. split; [done|]. split; [done|]. intros r. rewrite Hr.
    pose proof (toggle_rows row selected t) as Hl. rewrite E in Hl. cbn [fst] in Hl. rewrite Hl.
    destruct selected.
    + case_decide; rewrite ?elem_of_app, ?list_elem_of_singleton, elem_of_cons;
        destruct (decide (r = row)) as [->|]; tauto.
    + rewrite list_elem_of_filter, not_elem_of_cons. tauto.
Qed.

(** The rows the table must show. *)
Definition expected (s : Selection) (r : Row) : Prop :=
  r ∈ s.(selectedRows) /\ r ∈ getTableData /\ isRowSelectable r = true.

Lemma sync_levels n s :
  syncTableSelection (S n) s = sync s /\
  match s.(tableRef) with
  | None => sync s = s
  | Some _ => exists t', sync s = set_syncing false (set_table (Some t') s) /\
      forall r, r ∈ getSelectionRows t' <-> expected s r
  end.
Proof.
  unfold sync. destruct (tableRef s) as [t|] eqn:Ht; [|cbn [syncTableSelection]; rewrite Ht; done].
  cbn [syncTableSelection]. rewrite Ht.
  set (next := List.filter _ (selectedRows _)). set (cur := getSelectionRows t).
  destruct (toggles (syncTableSelection n) (syncTableSelection 1) false
    (List.filter (fun row => negb (hasRow next row)) cur) (set_syncing true s) t Ht eq_refl) as (t1 & E1 & E2 & H1).
  rewrite E1. change (fun s0 => match tableRef s0 with Some _ => _ | None => _ end) with (syncTableSelection 1).
  rewrite E2.
  destruct (toggles (syncTableSelection n) (syncTableSelection 1) true
    (List.filter (fun row => negb (hasRow cur row)) next) (set_table (Some t1) (set_syncing true s)) t1 eq_refl eq_refl)
    as (t2 & E3 & E4 & H2).
  rewrite E3, E4. split; [done|]. exists t2. split; [done|]. intros r. rewrite H2, H1, !elem_filter.
  assert (Hn : r ∈ next <-> expected s r).
  { unfold next, expected. cbn [selectedRows set_syncing]. rewrite elem_filter, andb_true_iff, hasRow_spec. done. }
  rewrite <- Hn. rewrite !negb_true_iff, !hasRow_false. fold cur.
  destruct (decide (r ∈ cur)), (decide (r ∈ next)); tauto.
Qed.

Lemma sync_some s t :
  s.(tableRef) = Some t ->
  exists t', sync s = set_syncing false (set_table (Some t') s) /\
    forall r, r ∈ getSelectionRows t' <-> expected s r.
Proof. intros Ht. pose proof (proj2 (sync_levels 0 s)) as H0. by rewrite Ht in H0. Qed.

(** ** Agreement of the composable and the table *)

(** Between events the flags are down and a mounted table shows exactly the
    selected rows that are in the data and may be selected. *)
Definition settled (s : Selection) : Prop :=
  s.(isSyncing) = false /\ s.(skipNext) = false /\
  match s.(tableRef) with
  | Some t => forall r, r ∈ getSelectionRows t <-> expected s r
  | None => True
  end.

(** What [sync] needs to settle a state. *)
Definition idle (s : Selection) : Prop := s.(isSyncing) = false /\ s.(skipNext) = false.

Lemma sync_settles s : idle s -> settled (sync s).
Proof.
  intros [Hs Hk]. destruct (tableRef s) as [t|] eqn:Ht.
  - destruct (sync_some s t Ht) as (t' & -> & H1). split; [done|]. split; [done|]. exact H1.
  - pose proof (proj2 (sync_levels 0 s)) as E. rewrite Ht in E. rewrite E. unfold settled. by rewrite Ht.
Qed.

Lemma sync_keeps s :
  let s' := sync s in
  s'.(selectedRows) = s.(selectedRows) /\ s'.(lastSelectedRow) = s.(lastSelectedRow) /\
  s'.(rangeBaseRows) = s.(rangeBaseRows) /\ s'.(shiftPressed) = s.(shiftPressed) /\
  s'.(notified) = s.(notified) /\ s'.(skipNext) = s.(skipNext) /\
  (s.(isSyncing) = false -> s'.(isSyncing) = false).
Proof.
  cbn zeta. destruct (tableRef s) as [t|] eqn:Ht.
  - destruct (sync_some s t Ht) as (t' & -> & _). done.
  - pose proof (proj2 (sync_levels 0 s)) as E. rewrite Ht in E. by rewrite E.
Qed.

(** Changing the anchor, the text selection or the shift key settles nothing
    and unsettles nothing. *)
Lemma settled_anchor l b s : settled (set_anchor l b s) <-> settled s.
Proof. done. Qed.
Lemma settled_text s : settled (clearTextSelection s) <-> settled s.
Proof. done. Qed.
Lemma settled_shift b s : settled (set_shift b s) <-> settled s.
Proof. done. Qed.

Lemma select_settles row sel s : settled s -> settled (selectRow row sel s).
Proof.
  intros H. unfold selectRow. destruct (isRowSelectable row); [|done]. cbn [negb].
  apply sync_settles. by destruct H as (? & ? & _).
Qed.

Lemma range_settles row s : settled s -> settled (applyRangeSelection row s).2.
Proof.
  intros H. unfold applyRangeSelection. destruct (lastSelectedRow s); [|done].
  repeat (destruct (findIndex _ _); [|done]). cbn [snd]. apply sync_settles. by destruct H as (? & ? & _).
Qed.

Lemma prune_settles s : idle s -> settled (pruneSelection s).
Proof.
  intros H. unfold pruneSelection. apply sync_settles.
  destruct H. repeat case_step; done.
Qed.

(** The pair of events the table emits for a click on a row's checkbox, after
    it changed its own selection to [sel]. *)
Definition checkbox_events (sel : list Row) (row : Row) (s : Selection) : Selection :=
  handleSelectionChange sel (handleSelect sel row s).

Definition allowed_rows (sel : list Row) : Prop :=
  forall r, r ∈ sel -> r ∈ getTableData /\ isRowSelectable r = true.

Lemma plain_change_settles sel s t :
  idle s -> s.(tableRef) = Some t -> getSelectionRows t = sel -> allowed_rows sel ->
  settled (handleSelectionChange sel s).
Proof.
  intros [Hs Hk] Ht Hsel Ha. unfold handleSelectionChange, handle_change. rewrite Hs, Hk.
  assert (H0 : settled (setSelectedRows sel s)).
  { split; [done|]. split; [done|]. cbn [tableRef setSelectedRows]. rewrite Ht, Hsel.
    intros r. unfold expected. cbn [selectedRows setSelectedRows]. split; [|by intros []].
    intros Hr. split; [done|]. by apply Ha. }
  by case_step.
Qed.

Lemma checkbox_settles sel row s t :
  idle s -> s.(tableRef) = Some t -> getSelectionRows t = sel -> allowed_rows sel ->
  settled (checkbox_events sel row s).
Proof.
  intros [Hs Hk] Ht Hsel Ha. unfold checkbox_events, handleSelect.
  destruct (shiftPressed s); [|by apply (plain_change_settles sel _ t)].
  unfold applyRangeSelection.
  destruct (lastSelectedRow s) as [a|]; [|by apply (plain_change_settles sel _ t)].
  destruct (findIndex getTableData a) as [i|]; [|by apply (plain_change_settles sel _ t)].
  destruct (findIndex getTableData row) as [j|]; [|by apply (plain_change_settles sel _ t)].
  set (s1 := setSelectedRows _ s).
  destruct (sync_keeps s1) as (_ & _ & _ & _ & _ & _ & Hsy).
  unfold handleSelectionChange, handle_change. cbn [isSyncing clearTextSelection set_skip].
  rewrite (Hsy Hs). cbn [skipNext clearTextSelection set_skip]. apply sync_settles.
  split; [by apply Hsy|done].
Qed.

Inductive event : Selection -> Selection -> Prop :=
| ev_select row sel s : event s (selectRow row sel s)
| ev_clear s : event s (clearSelects s)
| ev_toggle s : event s (toggleSelection s)
| ev_click row shiftKey on_control s : event s (handleRowClick row shiftKey on_control s)
| ev_keydown b s : event s (handleKeyDown b s)
| ev_keyup b s : event s (handleKeyUp b s)
| ev_text s : event s (* the user selects text *)
    {| tableRef := s.(tableRef); selectedRows := s.(selectedRows); shiftPressed := s.(shiftPressed);
       lastSelectedRow := s.(lastSelectedRow); rangeBaseRows := s.(rangeBaseRows);
       isSyncing := s.(isSyncing); skipNext := s.(skipNext); textSelection := true; notified := s.(notified) |}
| ev_mount t s : event s (sync (set_table (Some t) s))
| ev_unmount s : event s (set_table None s)
| ev_checkbox t row s :
    allowed_rows (getSelectionRows t) -> is_Some s.(tableRef) ->
    event s (checkbox_events (getSelectionRows t) row (set_table (Some t) s))
| ev_select_all t s :
    allowed_rows (getSelectionRows t) -> is_Some s.(tableRef) ->
    event s (handleSelectionChange (getSelectionRows t) (set_table (Some t) s)).

Lemma event_settled s s' : settled s -> event s s' -> settled s'.
Proof.
  intros H He. assert (Hi : idle s) by (by destruct H as (? & ? & _)).
  destruct He as [row sel s|s|s|row sh oc s|b s|b s|s|t s|s|t row s Ha _|t s Ha _].
  - by apply select_settles.
  - unfold clearSelects. apply settled_anchor, sync_settles. done.
  - by apply sync_settles.
  - unfold handleRowClick. destruct (_ || _); [done|]. destruct oc; [done|].
    assert (Hr : settled (if sh then applyRangeSelection row s else (false, s)).2)
      by (destruct sh; [by apply range_settles|done]).
    destruct (if sh then _ else _) as [applied s1]. cbn [snd] in Hr. destruct applied; [by apply settled_text|].
    apply settled_text, settled_anchor. destruct (isRowSelected row s1); [done|by apply select_settles].
  - unfold handleKeyDown. by destruct b.
  - unfold handleKeyUp. by destruct b.
  - done.
  - by apply sync_settles.
  - by destruct H as (? & ? & _).
  - by apply (checkbox_settles _ row _ t).
  - by apply (plain_change_settles _ _ t).
Qed.

(** What is left when the data have changed: the rows that are still there, of which the page
    is told when some are not. *)
Lemma prune_keeps s :
  let rows := List.filter (hasRow getTableData) s.(selectedRows) in
  (pruneSelection s).(selectedRows) = rows /\
  (pruneSelection s).(notified) = if length rows =? length s.(selectedRows) then s.(notified) else rows :: s.(notified).
Proof.
  cbn zeta. unfold pruneSelection. change (fun row => hasRow getTableData row) with (hasRow getTableData).
  set (rows := List.filter _ _). set (s1 := match lastSelectedRow _ with Some _ => _ | None => _ end).
  destruct (sync_keeps s1) as (-> & _ & _ & _ & -> & _).
  assert (E : forall s2, selectedRows (match lastSelectedRow s2 with Some r => if negb (hasRow rows r) then set_anchor None [] s2 else s2 | None => s2 end) = selectedRows s2 /\
    notified (match lastSelectedRow s2 with Some r => if negb (hasRow rows r) then set_anchor None [] s2 else s2 | None => s2 end) = notified s2)
    by (intros s2; repeat case_step; done).
  unfold s1. destruct (E (if negb (length rows =? length (selectedRows s)) then setSelectedRows rows s else s)) as [-> ->].
  destruct (Nat.eqb_spec (length rows) (length (selectedRows s))) as [Hl|]; [|done]. split; [|done]. cbn. symmetry. by apply List.forallb_filter_id, List.filter_length_forallb.
Qed.

(** *** Ranges *)

Lemma push_rows_elem rows base r : r ∈ push_rows rows base <-> r ∈ base \/ r ∈ rows.
Proof.
  unfold push_rows. revert base. induction rows as [|x rows IH]; intros base; cbn [fold_left]; [set_solver|].
  rewrite IH. destruct (hasRow base x) eqn:E; [apply hasRow_spec in E|]; set_solver.
Qed.

Lemma push_rows_NoDup rows base : NoDup base -> NoDup (push_rows rows base).
Proof.
  unfold push_rows. revert base. induction rows as [|x rows IH]; intros base Hb; cbn [fold_left]; [done|].
  apply IH. destruct (hasRow base x) eqn:E; [done|]. apply hasRow_false in E.
  apply list.NoDup_app. split; [done|]. split; [|apply NoDup_singleton]. set_solver.
Qed.

Lemma findIndex_spec l row i : findIndex l row = Some i -> l !! i = Some row.
Proof.
  revert i. induction l as [|x l IH]; intros i; cbn [findIndex]; [done|].
  destruct (N.eqb_spec x row) as [->|]; [by intros [= <-]|].
  destruct (findIndex l row); [|done]. intros [= <-]. by apply IH.
Qed.

Lemma range_elem (l : list Row) i j r :
  r ∈ take (j + 1 - i) (drop i l) <-> exists k, i <= k <= j /\ l !! k = Some r.
Proof.
  rewrite list_elem_of_lookup. split.
  - intros (k & Hk). apply lookup_take_Some in Hk as [Hk Hlt]. rewrite lookup_drop in Hk.
    exists (i + k). split; [lia|done].
  - intros (k & Hk & Hl). exists (k - i). apply lookup_take_Some. split; [|lia].
    rewrite lookup_drop. by replace (i + (k - i)) with k by lia.
Qed.

(** A shift click on a checkbox selects the base of the range and every
    selectable row between the anchor and the clicked row, in either direction,
    whatever selection the table reports with its events; the table then shows
    it, and the anchor stays for the next range. *)
Theorem shift_click_range sel row a i j t s :
  settled s -> s.(shiftPressed) = true -> s.(lastSelectedRow) = Some a ->
  findIndex getTableData a = Some i -> findIndex getTableData row = Some j ->
  s.(tableRef) = Some t ->
  let s' := checkbox_events sel row s in
  (forall r, r ∈ s'.(selectedRows) <->
     r ∈ s.(rangeBaseRows) \/
     isRowSelectable r = true /\ exists k, Nat.min i j <= k <= Nat.max i j /\ getTableData !! k = Some r) /\
  (NoDup s.(rangeBaseRows) -> NoDup s'.(selectedRows)) /\
  settled s' /\ s'.(lastSelectedRow) = Some a /\ s'.(rangeBaseRows) = s.(rangeBaseRows).
Proof.
  intros (Hs & Hk & _) Hsh Ha Hi Hj Ht. cbn zeta.
  unfold checkbox_events, handleSelect, applyRangeSelection. rewrite Hsh, Ha, Hi, Hj.
  set (rows := push_rows _ _). set (s1 := setSelectedRows rows s).
  destruct (sync_keeps s1) as (E1 & E2 & E3 & _ & _ & _ & Hsy).
  unfold handleSelectionChange, handle_change. cbn [isSyncing clearTextSelection set_skip].
  rewrite (Hsy Hs). cbn [skipNext clearTextSelection set_skip].
  set (s2 := set_skip false _).
  destruct (sync_keeps s2) as (F1 & F2 & F3 & _).
  rewrite F1, F2, F3. cbn [s2 set_skip clearTextSelection selectedRows lastSelectedRow rangeBaseRows].
  rewrite E1, E2, E3. split; [|split; [by intros Hb; apply push_rows_NoDup|]].
  - intros r. cbn [s1 selectedRows setSelectedRows]. unfold rows.
    rewrite push_rows_elem, elem_filter, range_elem. tauto.
  - split; [|done]. apply sync_settles. split; [by apply Hsy|done].
Qed.
End Selection.

(** ** The data change

    Beside the events, in which the data are one array, the page may hand the table other
    data; watch(tableData) then prunes the selection before anything else happens.  What the
    table itself drops from its selection, when it is given the data, it tells by its
    selection-change event, as any other change. *)
Inductive happens {ET : ElTable} (isRowSelectable : Row -> bool) : list Row * Selection -> list Row * Selection -> Prop :=
| happens_event data s s' : event data isRowSelectable s s' -> happens isRowSelectable (data, s) (data, s')
| happens_data data data' s : happens isRowSelectable (data, s) (data', pruneSelection data' isRowSelectable s).

(** C27. Whatever the user and the table do and however the data change, between events the table
    shows exactly the selected rows that are in the data and may be selected, and no flag of
    the composable is left up.  Data that change leave those of the selected rows that are in
    the new ones, and tell the page when a row is gone.  A synchronisation leaves the
    selection alone, notifies nobody, and its own change events never nest: any number of
    levels of calls gives the same result. *)
Theorem selection_agrees {ET : ElTable} isRowSelectable data0 t0 data s :
  star (happens isRowSelectable) (data0, initial_selection t0) (data, s) ->
  (forall t, t0 = Some t -> getSelectionRows t = []) ->
  settled data isRowSelectable s /\
  (forall data', let s' := pruneSelection data' isRowSelectable s in
     s'.(selectedRows) = List.filter (hasRow data') s.(selectedRows) /\
     s'.(notified) = if length s'.(selectedRows) =? length s.(selectedRows) then s.(notified) else s'.(selectedRows) :: s.(notified)) /\
  (sync data isRowSelectable s).(selectedRows) = s.(selectedRows) /\ (sync data isRowSelectable s).(notified) = s.(notified) /\
  forall n, syncTableSelection data isRowSelectable (S n) s = sync data isRowSelectable s.
Proof.
  intros Hr Ht. split.
  - apply (star_invariant (happens isRowSelectable) (fun x => settled x.1 isRowSelectable x.2)) in Hr; [done|..].
    + intros x y Hx Hy. destruct Hy as [d s1 s2 He|d d' s1]; cbn in *; [by eapply event_settled|].
      apply prune_settles. by destruct Hx as (? & ? & _).
    + split; [done|]. split; [done|]. cbn. destruct t0 as [t|]; [|done].
      intros r. rewrite (Ht t eq_refl). unfold expected. cbn [selectedRows initial_selection]. set_solver.
  - split.
    + intros data'. cbn zeta. destruct (prune_keeps data' isRowSelectable s) as [-> ->]. done.
    + destruct (sync_keeps data isRowSelectable s) as (? & _ & _ & _ & ? & _). repeat split; try done. intros n. by apply sync_levels.
Qed.

(** ** A table for evaluation *)

#[export] Instance list_table : ElTable.
Proof.
  refine {|
    table := list Row;
    getSelectionRows t := t;
    toggleRowSelection row selected t :=
      let t' := if selected then if decide (row ∈ t) then t else t ++ [row]
                else filter (fun r => r <> row) t in
      (t', if decide (t' = t) then [] else [t']) |}.
  by intros row [] t.
Defined.

Definition tab (l : list Row) : table := l.

Definition data5 : list Row := [1; 2; 3; 4; 5]%N.
Definition but4 (r : Row) : bool := negb (r =? 4)%N.

(** A click on the checkbox of 2, then the shift key and the checkbox of 5: the
    table reports 2 and 5. *)
Definition after_first : Selection :=
  checkbox_events data5 but4 [2%N] 2%N (set_table (Some (tab [2%N])) (initial_selection (Some (tab [])))).
Definition after_shift : Selection := handleKeyDown true after_first.
Definition after_range : Selection :=
  checkbox_events data5 but4 [2; 5]%N 5%N (set_table (Some (tab [2; 5]%N)) after_shift).

Example range_selected : after_range.(selectedRows) = [2; 3; 5]%N /\ shown after_range = [2; 5; 3]%N.
Proof. vm_compute. split; reflexivity. Qed.

Lemma allowed_dec data f sel :
  forallb (fun r => hasRow data r && f r) sel = true -> allowed_rows data f sel.
Proof.
  intros H r Hr. rewrite forallb_elem in H. specialize (H r Hr).
  apply andb_true_iff in H as [Hd Hf]. by apply hasRow_spec in Hd.
Qed.

(** The row 2 is gone from the data. *)
Definition without2 : list Row := [1; 3; 4; 5]%N.

Lemma selection_agrees_witness :
  let s := pruneSelection without2 but4 after_range in
  settled without2 but4 s /\ s.(selectedRows) = [3; 5]%N /\ shown s = [5; 3]%N /\
  (sync without2 but4 s).(selectedRows) = [3; 5]%N.
Proof.
  cbn zeta. assert (Hr : star (happens but4) (data5, initial_selection (Some (tab []))) (without2, pruneSelection without2 but4 after_range)).
  { eapply (star_step _ _ (data5, after_first)); [apply happens_event, (ev_checkbox data5 but4 (tab [2%N]) 2%N); [by apply allowed_dec|done]|].
    eapply (star_step _ _ (data5, after_shift)); [apply happens_event, (ev_keydown data5 but4 true)|].
    eapply (star_step _ _ (data5, after_range)); [apply happens_event, (ev_checkbox data5 but4 (tab [2; 5]%N) 5%N); [by apply allowed_dec|eexists; vm_compute; reflexivity]|].
    apply star_one. apply happens_data. }
  destruct (selection_agrees but4 data5 (Some (tab [])) without2 _ Hr) as (H1 & _ & H2 & _).
  { intros t Ht. by injection Ht as <-. }
  split; [exact H1|]. split; [vm_compute; reflexivity|]. split; [vm_compute; reflexivity|]. rewrite H2. vm_compute. reflexivity.
Defined.

(** The base of a range is forgotten with its anchor only: cards 1 and 2 are clicked and 1
    leaves the data; a click on 3 with the shift key then selects 1 again. *)
Lemma stale_range_base :
  let click row shift data := handleRowClick data (fun _ => true) row shift false in
  let s := click 2%N false data5 (click 1%N false data5 (initial_selection None)) in
  let s := pruneSelection [2; 3; 4; 5]%N (fun _ => true) s in
  s.(selectedRows) = [2]%N /\ (click 3%N true [2; 3; 4; 5]%N s).(selectedRows) = [1; 2; 3]%N.
Proof. vm_compute. split; reflexivity. Qed.

Lemma shift_click_range_witness :
  let s := set_table (Some (tab [2%N])) after_shift in
  let s' := checkbox_events data5 but4 [2; 5]%N 5%N s in
  s'.(selectedRows) = [2; 3; 5]%N /\ settled data5 but4 s'.
Proof.
  cbn zeta. split; [vm_compute; reflexivity|].
  apply (shift_click_range data5 but4 [2; 5]%N 5%N 2%N 1 4 (tab [2%N]) (set_table (Some (tab [2%N])) after_shift));
    try (vm_compute; reflexivity).
  split; [vm_compute; reflexivity|]. split; [vm_compute; reflexivity|].
  change (tableRef (set_table (Some (tab [2%N])) after_shift)) with (Some (tab [2%N])). intros r.
  unfold expected. change (selectedRows (set_table (Some (tab [2%N])) after_shift)) with (selectedRows after_first).
  replace (selectedRows after_first) with [2%N] by (vm_compute; reflexivity). cbn [getSelectionRows list_table].
  split; [|by intros []]. intros Hr. split; [done|]. apply list_elem_of_singleton in Hr as ->.
  split; [|done]. apply hasRow_spec. vm_compute. reflexivity.
Defined.
