(* ===== verification/TableOperations.v ===== *)
(** * Operations of the table rows

    src/frontend/src/components/table/: the buttons of shared.ts, how
    TableOperationActions.vue shows and runs them, the width TableOperations.vue gives
    their column, and the context menu of complex/useContextMenu.ts with the handlers of
    complex/ComplexTable.vue that open and close it.  The condition of a button is a
    value or a function of the row; its handler belongs to the view, so what is modelled
    of it is when it is called, and with which row. *)

From S2P Require Import Prelude JsString Numbers GlobalStore Access TableSelection.

#[local] Open Scope list_scope.

(** ** Buttons (shared.ts) *)

(** [R | ((row: T) => R)] *)
Inductive MaybeFn (T R : Type) := Value (value : R) | Fn (f : T -> R).
Arguments Value {T R} value.
Arguments Fn {T R} f.

(** [true | PermissionBindingValue] *)
Inductive ButtonPermission := ManageRoute | Codes (value : PermissionValue).

Record FuTableOperationButton := {
  b_label : jsstr;
  b_disabled : option (MaybeFn Row bool);
  b_permission : ButtonPermission;
  b_nodeAdmin : option bool;
  b_show : option (MaybeFn Row bool);
}.

Definition resolveMaybeFn {T R} (value : MaybeFn T R) (row : T) : R :=
  match value with Value v => v | Fn f => f row end.

Definition isOperationVisible (button : FuTableOperationButton) (row : Row) : bool :=
  resolveMaybeFn (default (Value true) button.(b_show)) row.

(** A call of the handler of a button with a row. *)
Definition Call : Type := FuTableOperationButton * Row.

Section Operations.
Variable route : CurrentRoute.

Definition isOperationDisabled (button : FuTableOperationButton) (row : Row) : M World bool :=
  let nodeAdmin := match button.(b_nodeAdmin) with Some b => b | None => false end in
  let! permissionDisabled :=
    match button.(b_permission) with
    | ManageRoute =>
        let! access := hasManagePermissionAccess route PUndef nodeAdmin in ret (negb access)
    | Codes PUndef => ret false
    | Codes value => let! access := hasPermissionAccess route value nodeAdmin in ret (negb access)
    end in
  ret (permissionDisabled || resolveMaybeFn (default (Value false) button.(b_disabled)) row).

(** ** TableOperationActions.vue *)

Record Actions := { inline : list FuTableOperationButton; more : list FuTableOperationButton }.

Definition actions (buttons : list FuTableOperationButton) (row : Row) (ellipsis extra : Z) : Actions :=
  let visible := List.filter (fun button => isOperationVisible button row) buttons in
  let limit := Z.max (ellipsis + extra) 0 in
  {| inline := if (0 <? limit)%Z then take (Z.to_nat limit) visible else [];
     more := drop (Z.to_nat limit) visible |}.

Definition handleButtonClick (button : FuTableOperationButton) (row : Row) : M World (list Call) :=
  let! disabled := isOperationDisabled button row in
  ret (if disabled then [] else [(button, row)]).

(** ** The permission of a button as a function of the store *)

Definition permitted (button : FuTableOperationButton) (g : GlobalState) : bool :=
  let nodeAdmin := match button.(b_nodeAdmin) with Some b => b | None => false end in
  match button.(b_permission) with
  | ManageRoute => access_granted route manage PUndef nodeAdmin g
  | Codes PUndef => true
  | Codes value => access_granted route view value nodeAdmin g
  end.

Definition enabled (button : FuTableOperationButton) (row : Row) (g : GlobalState) : bool :=
  permitted button g && negb (resolveMaybeFn (default (Value false) button.(b_disabled)) row).

Lemma isOperationDisabled_reads button row :
  reads world_ok gs (isOperationDisabled button row) (fun g => negb (enabled button row g)).
Proof.
  unfold isOperationDisabled, enabled, permitted.
  set (own := resolveMaybeFn _ row). set (na := match b_nodeAdmin button with Some b => b | None => false end).
  assert (Hneg : forall mode v, reads world_ok gs
    (bind (hasPermissionAccessByMode route mode v na) (fun access => ret (negb access)))
    (fun g => negb (access_granted route mode v na g))).
  { intros mode v. apply (reads_bind _ (fun access => ret (negb access)) _ (fun access _ => negb access)
      (hasPermissionAccessByMode_reads route mode v na)). intros a. by apply reads_ret. }
  eapply reads_ext; [|apply (reads_bind (S := World) _ (fun denied => ret (denied || own))
    (fun g => negb (match b_permission button with
       | ManageRoute => access_granted route manage PUndef na g
       | Codes PUndef => true
       | Codes value => access_granted route view value na g end)) (fun denied _ => denied || own))].
  - intros g. cbn beta. by rewrite negb_andb, negb_involutive.
  - destruct (b_permission button) as [|[|s|l]]; [apply Hneg|by apply reads_ret|apply Hneg..].
  - intros d. by apply reads_ret.
Qed.

Lemma handleButtonClick_reads button row :
  reads world_ok gs (handleButtonClick button row)
    (fun g => if enabled button row g then [(button, row)] else []).
Proof.
  unfold handleButtonClick.
  eapply reads_ext; [|apply (reads_bind (isOperationDisabled button row)
    (fun d => ret (if d then [] else [(button, row)])) (fun g => negb (enabled button row g))
    (fun d _ => if d then [] else [(button, row)]) (isOperationDisabled_reads button row))].
  - intros g. cbn beta. by destruct (enabled button row g).
  - intros d. by apply reads_ret.
Qed.

End Operations.

(** ** The column of the buttons (TableOperations.vue) *)

Inductive Width (num : Type) := WNum (x : num) | WStr (s : jsstr).
Arguments WNum {num} x.
Arguments WStr {num} s.

Definition normalizeWidth {num} (value : option (Width num)) : option (Width num) :=
  match value with
  | None => None
  | Some (WNum x) => Some (WNum x)
  | Some (WStr s) => let trimmed := trim s in
                     if negb (truthy trimmed) || (trimmed === js "auto") then None else Some (WStr trimmed)
  end.

(** [s.replace(p, '')] for a string pattern: the first occurrence. *)
Definition remove_first (s p : jsstr) : jsstr :=
  match split_on p s with [] => [] | w :: ws => w ++ join p ws end.

(** Number.isNaN and Math.max. *)
Class JsMax `{JsNumber} := {
  isNaN : num -> bool;
  num_max : num -> num -> num;
  max_int a b : exact a -> exact b -> num_max (int a) (int b) = int (Z.max a b);
  max_le x y : isNaN x = false -> isNaN y = false -> num_le x (num_max x y) = true;
  isNaN_int z : exact z -> isNaN (int z) = false;
}.

#[export] Instance int_max : JsMax | 100.
Proof.
  refine {| isNaN x := match x with None => true | Some _ => false end;
            num_max x y := match x, y with Some a, Some b => Some (Z.max a b) | _, _ => None end |}.
  - done.
  - intros [a|] [b|] Ha Hb; [|done..]. apply Z.leb_le. lia.
  - done.
Defined.

Variant FixedColumn := FixedFlag (b : bool) | FixedAt (side : jsstr).

Section Column.
Context `{JsMax}.
Variables (buttons : list FuTableOperationButton) (ellipsis : Z).
Variables (width minWidth : option (Width num)).

Definition resolvedFixed (fixed fix_ : option FixedColumn) : FixedColumn :=
  match fixed with
  | Some f => f
  | None => match fix_ with
            | Some (FixedAt side) => FixedAt side
            | Some (FixedFlag true) => FixedAt (js "right")
            | Some (FixedFlag false) | None => FixedFlag false
            end
  end.

Definition hasDynamicShow : bool :=
  existsb (fun button => match button.(b_show) with Some (Fn _) => true | _ => false end) buttons.

Definition staticVisibleCount : nat :=
  length (List.filter (fun button => match button.(b_show) with Some (Value false) => false | _ => true end) buttons).

Definition estimatedVisibleCount : Z :=
  if (staticVisibleCount =? 0)%nat then 0
  else
    let renderCap := (Z.max ellipsis 0 + 1)%Z in
    if hasDynamicShow then renderCap else Z.min (Z.of_nat staticVisibleCount) renderCap.

Definition buttonsWidth : Z := (35 + estimatedVisibleCount * 58 + 58)%Z.

Definition estimatedWidth : num :=
  match normalizeWidth minWidth with
  | Some (WNum x) => num_max (int buttonsWidth) x
  | Some (WStr s) =>
      let parsed := Number (remove_first s (js "px")) in
      if negb (isNaN parsed) then num_max (int buttonsWidth) parsed else int buttonsWidth
  | None => int buttonsWidth
  end.

Definition is_auto (w : option (Width num)) : bool :=
  match w with Some (WStr s) => s === js "auto" | _ => false end.

Definition resolvedWidth : option (Width num) :=
  if is_auto width then None
  else match normalizeWidth width with Some w => Some w | None => Some (WNum estimatedWidth) end.

Definition resolvedMinWidth : option (Width num) :=
  if is_auto width then normalizeWidth minWidth else None.
End Column.

(** The elements shown in a row: its inline buttons and the one that opens the rest. *)
Definition shown_elements (a : Actions) : nat :=
  length a.(inline) + match a.(more) with [] => 0 | _ => 1 end.

Lemma actions_split buttons row ellipsis extra :
  let a := actions buttons row ellipsis extra in
  a.(inline) = take (Z.to_nat (Z.max (ellipsis + extra) 0)) (List.filter (fun b => isOperationVisible b row) buttons) /\
  a.(inline) ++ a.(more) = List.filter (fun b => isOperationVisible b row) buttons.
Proof.
  cbn zeta. unfold actions. set (v := List.filter _ buttons). set (n := Z.max _ 0). cbn [inline more].
  assert ((if (0 <? n)%Z then take (Z.to_nat n) v else []) = take (Z.to_nat n) v) as ->.
  { destruct (Z.ltb_spec 0 n); [done|]. by replace n with 0%Z by lia. }
  split; [done|apply take_drop].
Qed.

Lemma filter_length_imp {A} (f g : A -> bool) l :
  (forall x, x ∈ l -> f x = true -> g x = true) -> length (List.filter f l) <= length (List.filter g l).
Proof.
  induction l as [|x l IH]; intros Hfg; [done|]. cbn.
  assert (IHl : length (List.filter f l) <= length (List.filter g l)) by (apply IH; intros; apply Hfg; [by right|done]).
  pose proof (Hfg x ltac:(left)) as Hx. destruct (f x); [rewrite Hx by done|destruct (g x)]; cbn; lia.
Qed.

Lemma static_bounds buttons row :
  let shown := length (List.filter (fun b => isOperationVisible b row) buttons) in
  shown <= staticVisibleCount buttons.
Proof.
  apply filter_length_imp. intros b _. unfold isOperationVisible. by destruct (b_show b) as [[[]|f]|].
Qed.

(** The width of the column is enough for any row: of all the rows it is computed for,
    none shows more buttons, the one that opens the rest included, than it counts. *)
Theorem estimate_enough buttons row ellipsis :
  let a := actions buttons row ellipsis 0 in
  (Z.of_nat (shown_elements a) <= estimatedVisibleCount buttons ellipsis <= Z.max ellipsis 0 + 1)%Z /\
  (35 + 58 * Z.of_nat (shown_elements a) + 58 <= buttonsWidth buttons ellipsis)%Z.
Proof.
  cbn zeta. destruct (actions_split buttons row ellipsis 0) as [Ei Es]. rewrite Z.add_0_r in Ei.
  set (a := actions buttons row ellipsis 0) in *. pose proof (static_bounds buttons row) as Hv. cbn zeta in Hv.
  set (v := List.filter _ buttons) in *.
  assert (Hl : length v = length (inline a) + length (more a)) by (by rewrite <- Es, length_app).
  assert (Hi : length (inline a) = Nat.min (Z.to_nat (Z.max ellipsis 0)) (length v)) by (rewrite Ei; apply length_take).
  assert (Hm : shown_elements a <= length v /\ shown_elements a <= length (inline a) + 1)
    by (unfold shown_elements; destruct (more a); cbn in *; lia).
  unfold buttonsWidth, estimatedVisibleCount.
  destruct (Nat.eqb_spec (staticVisibleCount buttons) 0), (hasDynamicShow buttons); lia.
Qed.

(** The width given to the column is at least that of its buttons, whatever the view
    asks for as a least width, a text that is no number of pixels included. *)
Lemma estimatedWidth_enough `{JsMax} buttons ellipsis minWidth :
  exact (buttonsWidth buttons ellipsis) ->
  (forall x, minWidth = Some (WNum x) -> isNaN x = false) ->
  num_le (int (buttonsWidth buttons ellipsis)) (estimatedWidth buttons ellipsis minWidth) = true.
Proof.
  intros He Hm. assert (Hrefl : num_le (int (buttonsWidth buttons ellipsis)) (int (buttonsWidth buttons ellipsis)) = true)
    by (rewrite le_int by done; apply Z.leb_refl).
  unfold estimatedWidth. destruct minWidth as [[x|s]|]; cbn [normalizeWidth]; [|cbn zeta; destruct (_ || _)|]; try done.
  - apply max_le; [by apply isNaN_int|by apply Hm].
  - destruct (isNaN _) eqn:E; cbn [negb]; [done|]. apply max_le; [by apply isNaN_int|done].
Qed.

(** Every button of a row that is visible for it is shown once, in order, in the row or in
    the list that opens; and a click of one calls its handler, with this row, exactly when
    the rights of the user and the button's own condition enable it. *)
Theorem row_actions_spec locale route w buttons row ellipsis extra :
  reachable locale w ->
  let a := actions buttons row ellipsis extra in
  a.(inline) ++ a.(more) = List.filter (fun b => isOperationVisible b row) buttons /\
  (Z.of_nat (length a.(inline)) <= Z.max (ellipsis + extra) 0)%Z /\
  forall button, button ∈ a.(inline) ++ a.(more) ->
    (handleButtonClick route button row w).1 =
      (if enabled route button row w.(gs) then [(button, row)] else []) /\
    (handleButtonClick route button row w).2.(gs) = w.(gs).
Proof.
  intros Hw%reachable_ok. cbn zeta. destruct (actions_split buttons row ellipsis extra) as [Ei Es]. split; [done|].
  split; [rewrite Ei, length_take; lia|]. intros button _.
  by destruct (handleButtonClick_reads route button row w Hw) as (-> & -> & _).
Qed.

(** ** The context menu (complex/useContextMenu.ts) *)

Record ContextMenu := { visible : bool; left : Z; top : Z; currentRow : option Row }.

Definition set_visible (b : bool) (m : ContextMenu) : ContextMenu :=
  {| visible := b; left := m.(left); top := m.(top); currentRow := m.(currentRow) |}.

(** What the user and the program do while the table is shown, or when it goes. *)
Inductive MenuEvent :=
| RightClick (row : Row) (clientX clientY : Z)
| ClickItem (i : nat)            (* a click on the i-th item of the menu *)
| ClickDocument                  (* a click elsewhere *)
| KeyDown (shift escape : bool)
| CloseExposed                   (* closeRightClick, which the component exposes *)
| Session (w : World)            (* the store changes: a login, another node *)
| Unmount.

Section Menu.
Context {ET : ElTable}.
Variables (getTableData : list Row) (isRowSelectable : Row -> bool).
Variables (route : CurrentRoute) (rightButtons : option (list FuTableOperationButton)).

Record TableState := {
  mounted : bool;
  contextMenu : ContextMenu;
  listening : bool;               (* close is a click listener of the document *)
  selection : Selection;
  world : World;
}.

Definition set_menu (m : ContextMenu) (l : bool) (s : TableState) : TableState :=
  {| mounted := s.(mounted); contextMenu := m; listening := l; selection := s.(selection); world := s.(world) |}.
Definition set_selection (sel : Selection) (s : TableState) : TableState :=
  {| mounted := s.(mounted); contextMenu := s.(contextMenu); listening := s.(listening); selection := sel;
     world := s.(world) |}.
Definition set_world (w : World) (s : TableState) : TableState :=
  {| mounted := s.(mounted); contextMenu := s.(contextMenu); listening := s.(listening); selection := s.(selection);
     world := w |}.

Definition close (s : TableState) : TableState := set_menu (set_visible false s.(contextMenu)) false s.

Definition has_buttons : bool := match rightButtons with Some (_ :: _) => true | _ => false end.

Definition open_menu (row : Row) (clientX clientY : Z) (s : TableState) : TableState :=
  if negb has_buttons then s
  else set_menu {| visible := true; left := clientX + 5; top := clientY; currentRow := Some row |} true s.

(** The computed list is read by the items of the menu only, which is shown for a row. *)
Definition visibleButtons (s : TableState) : list FuTableOperationButton :=
  match s.(contextMenu).(currentRow) with
  | Some row => List.filter (fun button => isOperationVisible button row) (default [] rightButtons)
  | None => []
  end.

Definition click (button : FuTableOperationButton) (s : TableState) : TableState * list Call :=
  let s := close s in
  (s, match s.(contextMenu).(currentRow) with Some row => [(button, row)] | None => [] end).

(** ** The handlers of ComplexTable.vue *)

Definition handleRightClick (row : Row) (clientX clientY : Z) (s : TableState) : TableState :=
  if negb has_buttons then s
  else
    let sel := s.(selection) in
    let sel := if isRowSelectable row && negb (isRowSelected row sel)
               then selectRow getTableData isRowSelectable row (Some true) (clearSelects getTableData isRowSelectable sel)
               else sel in
    open_menu row clientX clientY (set_selection sel s).

(** The click of an item: [!isRightButtonDisabled(btn) && rightButtonClick(btn)]. *)
Definition click_item (button : FuTableOperationButton) (row : Row) (s : TableState) : TableState * list Call :=
  let '(disabled, w) := isOperationDisabled route button row s.(world) in
  let s := set_world w s in
  if negb disabled then click button s else (s, []).

Definition menu_step (e : MenuEvent) (s : TableState) : TableState * list Call :=
  if negb s.(mounted) then (s, [])
  else
    match e with
    | RightClick row x y => (handleRightClick row x y s, [])
    | ClickItem i =>
        if s.(contextMenu).(visible) then
          match visibleButtons s !! i, s.(contextMenu).(currentRow) with
          | Some button, Some row => click_item button row s
          | _, _ => (s, [])
          end
        else (s, [])
    | ClickDocument => (if s.(listening) then close s else s, [])
    | KeyDown shift escape =>
        let s := set_selection (handleKeyDown shift s.(selection)) s in
        (if escape then close s else s, [])
    | CloseExposed => (close s, [])
    | Session w => (set_world w s, [])
    | Unmount => let s := close s in
        ({| mounted := false; contextMenu := s.(contextMenu); listening := s.(listening);
            selection := s.(selection); world := s.(world) |}, [])
    end.

(** A run, with the calls of handlers and the store each was made under. *)
Fixpoint menu_run (l : list MenuEvent) (s : TableState) : TableState * list (GlobalState * Call) :=
  match l with
  | [] => (s, [])
  | e :: l' =>
      let '(s1, calls) := menu_step e s in
      let '(s2, rest) := menu_run l' s1 in
      (s2, List.map (pair s.(world).(gs)) calls ++ rest)
  end.

Definition initial_state (sel : Selection) (w : World) : TableState :=
  {| mounted := true; contextMenu := {| visible := false; left := 0; top := 0; currentRow := None |};
     listening := false; selection := sel; world := w |}.

(** The menu is shown for a row, exactly while a click elsewhere closes it. *)
Definition menu_ok (s : TableState) : Prop :=
  s.(listening) = s.(contextMenu).(visible) /\
  (s.(contextMenu).(visible) = true -> is_Some s.(contextMenu).(currentRow)) /\ world_ok s.(world).

(** A call the rules allow. *)
Definition allowed (c : GlobalState * Call) : Prop :=
  let '(g, (button, row)) := c in
  button ∈ default [] rightButtons /\ isOperationVisible button row = true /\ enabled route button row g = true.

Definition is_right_click (e : MenuEvent) : bool := match e with RightClick _ _ _ => true | _ => false end.
Definition event_ok (e : MenuEvent) : Prop := match e with Session w => world_ok w | _ => True end.
Definition shown (s : TableState) : nat := if s.(contextMenu).(visible) then 1 else 0.

Lemma close_ok s : menu_ok s -> menu_ok (close s) /\ shown (close s) = 0.
Proof. by intros (_ & _ & Hw). Qed.

Lemma handleRightClick_ok row x y s : menu_ok s ->
  menu_ok (handleRightClick row x y s) /\ shown (handleRightClick row x y s) <= 1.
Proof.
  intros (Hl & Hr & Hw). unfold handleRightClick, open_menu.
  destruct has_buttons; cbn [negb].
  - split; [|cbn; lia]. split; [done|]. split; [|done]. by exists row.
  - split; [done|]. unfold shown. destruct (visible _); lia.
Qed.

Lemma click_item_ok button row s : menu_ok s -> s.(contextMenu).(currentRow) = Some row ->
  s.(contextMenu).(visible) = true ->
  let '(s', calls) := click_item button row s in
  menu_ok s' /\ (calls = [] /\ shown s' = 1 \/
    calls = [(button, row)] /\ shown s' = 0 /\ enabled route button row s.(world).(gs) = true).
Proof.
  intros (Hl & Hr & Hw) Er Ev. unfold click_item.
  destruct (isOperationDisabled_reads route button row s.(world) Hw) as (Ed & _ & Hw').
  destruct (isOperationDisabled route button row (world s)) as [d w]. cbn [fst snd] in *. subst d.
  rewrite negb_involutive. destruct (enabled route button row (gs (world s))) eqn:En.
  - unfold click. cbn. rewrite Er. split; [done|]. right. done.
  - split; [|left; split; [done|]; unfold shown; cbn; by rewrite Ev]. done.
Qed.

Lemma menu_step_ok e s : menu_ok s -> event_ok e ->
  let '(s', calls) := menu_step e s in
  menu_ok s' /\ Forall allowed (List.map (pair s.(world).(gs)) calls) /\
  length calls + shown s' <= shown s + if is_right_click e then 1 else 0.
Proof.
  intros Hs He. unfold menu_step. destruct (mounted s); cbn [negb]; [|split; [done|]; split; [apply Forall_nil_2|cbn; lia]].
  destruct e as [row x y|i| |sh esc| |w|]; cbn [is_right_click].
  - destruct (handleRightClick_ok row x y s Hs) as [H1 H2]. split; [done|]. split; [apply Forall_nil_2|cbn; lia].
  - destruct (visible (contextMenu s)) eqn:Ev; [|split; [done|]; split; [apply Forall_nil_2|cbn; lia]].
    destruct (visibleButtons s !! i) as [button|] eqn:Eb; [|split; [done|]; split; [apply Forall_nil_2|cbn; lia]].
    destruct (currentRow (contextMenu s)) as [row|] eqn:Er; [|split; [done|]; split; [apply Forall_nil_2|cbn; lia]].
    pose proof (click_item_ok button row s Hs Er Ev) as Hc. destruct (click_item button row s) as [s' calls].
    destruct Hc as (Hs' & [(-> & E)|(-> & E & En)]); (split; [done|]); unfold shown in *; rewrite Ev.
    + split; [apply Forall_nil_2|cbn; lia].
    + split; [|cbn; lia]. constructor; [|constructor]. unfold visibleButtons in Eb. rewrite Er in Eb.
      apply list_elem_of_lookup_2, elem_filter in Eb as [Hb Hv]. done.
  - destruct (close_ok s Hs) as [H1 H2]. destruct (listening s); (split; [done|]); (split; [apply Forall_nil_2|]); cbn [length].
    + lia.
    + lia.
  - destruct (close_ok s Hs) as [H1 H2]. destruct esc; (split; [done|]); (split; [apply Forall_nil_2|]).
    + cbn [length]. change (shown (close _)) with (shown (close s)). lia.
    + cbn [length]. change (shown (set_selection _ _)) with (shown s). lia.
  - destruct (close_ok s Hs) as [H1 H2]. split; [done|]. split; [apply Forall_nil_2|cbn [length]; lia].
  - destruct Hs as (? & ? & _). split; [done|]. split; [apply Forall_nil_2|].
    cbn [length]. change (shown (set_world _ _)) with (shown s). lia.
  - destruct (close_ok s Hs) as [H1 H2]. split; [done|]. split; [apply Forall_nil_2|].
    cbn [length]. change (shown _) with (shown (close s)) at 1. lia.
Qed.

(** C25. Whatever is clicked and however the session changes meanwhile, the handler of a
    button of the context menu is called only for a button of the table that is visible
    for the row and that the rights of the moment and its own condition enable; a right
    click leads to one call at most; and the menu is shown for a row, with a listener
    that closes it exactly while it is shown. *)
Theorem context_menu_safe sel w l s calls :
  world_ok w -> Forall event_ok l -> menu_run l (initial_state sel w) = (s, calls) ->
  Forall allowed calls /\
  length calls + shown s <= length (List.filter is_right_click l) /\
  menu_ok s.
Proof.
  intros Hw Hl.
  assert (Hi : menu_ok (initial_state sel w)) by (by split; [|split]).
  change (length (List.filter is_right_click l)) with (shown (initial_state sel w) + length (List.filter is_right_click l)).
  revert Hi. generalize (initial_state sel w) as s0. clear Hw. revert s calls.
  induction Hl as [|e l He _ IH]; intros s calls s0 Hi E; cbn [menu_run] in E.
  - injection E as <- <-. split; [apply Forall_nil_2|]. split; [cbn; lia|done].
  - pose proof (menu_step_ok e s0 Hi He) as Hstep. destruct (menu_step e s0) as [s1 c1].
    destruct Hstep as (H1 & Ha & Hn). destruct (menu_run l s1) as [s2 rest] eqn:Er. injection E as <- <-.
    destruct (IH _ _ _ H1 Er) as (Ha' & Hn' & Hs'). split; [by apply list.Forall_app|]. split; [|done].
    rewrite length_app, length_map. cbn [List.filter]. destruct (is_right_click e); cbn [length]; lia.
Qed.

(** A right click on a row that may be selected acts on it: the menu opens for the row
    next to the pointer, the row is selected, alone when it was not selected before, and
    the table agrees with the selection. *)
Theorem right_click_selects row x y s : has_buttons = true ->
  settled getTableData isRowSelectable s.(selection) ->
  let s' := handleRightClick row x y s in
  s'.(contextMenu) = {| visible := true; left := x + 5; top := y; currentRow := Some row |} /\
  settled getTableData isRowSelectable s'.(selection) /\
  (isRowSelectable row = true -> row ∈ s'.(selection).(selectedRows)) /\
  s'.(selection).(selectedRows) =
    if isRowSelectable row && negb (isRowSelected row s.(selection)) then [row] else s.(selection).(selectedRows).
Proof.
  intros Hb Hs. cbn zeta. unfold handleRightClick, open_menu. rewrite Hb. cbn [negb contextMenu set_menu selection set_selection].
  split; [done|]. destruct (isRowSelectable row) eqn:Er; [|split; [done|]; by split].
  destruct (isRowSelected row (selection s)) eqn:Esel; cbn [andb negb].
  - split; [done|]. split; [|done]. intros _. by apply hasRow_spec.
  - set (s1 := clearSelects getTableData isRowSelectable (selection s)).
    assert (H1 : settled getTableData isRowSelectable s1)
      by (apply (event_settled _ _ _ _ Hs), (ev_clear getTableData isRowSelectable)).
    assert (E1 : selectedRows s1 = []).
    { unfold s1, clearSelects. cbn [selectedRows set_anchor].
      by destruct (sync_keeps getTableData isRowSelectable (setSelectedRows [] (selection s))) as (-> & _). }
    assert (E2 : selectedRows (selectRow getTableData isRowSelectable row (Some true) s1) = [row]).
    { unfold selectRow, isRowSelected. rewrite Er, E1. cbn [negb]. exact (proj1 (sync_keeps getTableData isRowSelectable _)). }
    rewrite E2. split; [by apply select_settles|]. split; [intros _; left|done].
Qed.
End Menu.

(** ** Witnesses *)

Definition sample_button (label : string) (permission : ButtonPermission) (show : option (MaybeFn Row bool)) :
  FuTableOperationButton :=
  {| b_label := js label; b_disabled := None; b_permission := permission; b_nodeAdmin := None; b_show := show |}.
Definition sample_buttons : list FuTableOperationButton :=
  [ sample_button "open" (Codes PUndef) None; sample_button "edit" ManageRoute None;
    sample_button "start" (Codes (PStr (js "app_manage"))) (Some (Fn but4)); sample_button "delete" ManageRoute None ].
Definition sample_route : CurrentRoute :=
  {| route_meta := sample_meta (PStr (js "website_view")); route_matched := [] |}.
Definition manager : World := sample_world false (js "edge1") [js "website_manage"] [].
Definition viewer : World := sample_world false (js "edge1") [js "website_view"] [].

(** The user edits row 2, then loses the right before the click on delete. *)
Definition sample_events : list MenuEvent :=
  [ RightClick 2%N 100 40; ClickItem 1; RightClick 4%N 10 10; ClickItem 1; RightClick 4%N 10 10; Session viewer;
    ClickItem 2; ClickItem 0; Unmount ].
Definition sample_state : TableState := initial_state (set_table (Some (tab [])) (initial_selection (Some (tab [])))) manager.
Definition sample_run := menu_run data5 but4 sample_route (Some sample_buttons) sample_events sample_state.

Example sample_calls : List.map (fun c => (c.2.1.(b_label), c.2.2)) sample_run.2 =
  [(js "edit", 2%N); (js "edit", 4%N); (js "open", 4%N)].
Proof. vm_compute. reflexivity. Qed.

Example sample_actions :
  let a := actions sample_buttons 4%N 2 0 in
  List.map b_label a.(inline) = [js "open"; js "edit"] /\ List.map b_label a.(more) = [js "delete"] /\
  estimatedVisibleCount sample_buttons 2 = 3%Z.
Proof. vm_compute. done. Qed.

Lemma sample_ok ps : world_ok (sample_world false (js "edge1") ps []).
Proof. apply (reachable_ok (js "en")), sample_world_reachable. by apply no_newline_dec. Qed.

Lemma context_menu_safe_witness :
  Forall (allowed sample_route (Some sample_buttons)) sample_run.2 /\
  length sample_run.2 + shown sample_run.1 <= 3 /\ menu_ok sample_run.1.
Proof.
  apply (context_menu_safe data5 but4 sample_route (Some sample_buttons)
    (set_table (Some (tab [])) (initial_selection (Some (tab [])))) manager sample_events sample_run.1 sample_run.2).
  - apply sample_ok.
  - repeat (apply list.Forall_cons; split; [first [exact I|apply sample_ok]|]). apply Forall_nil_2.
  - apply surjective_pairing.
Defined.

Lemma row_actions_spec_witness :
  let a := actions sample_buttons 2%N 2 0 in
  length (a.(inline) ++ a.(more)) = 4 /\
  forall button, button ∈ a.(inline) ++ a.(more) ->
    (handleButtonClick sample_route button 2%N viewer).1 =
      (if enabled sample_route button 2%N viewer.(gs) then [(button, 2%N)] else []).
Proof.
  cbn zeta. destruct (row_actions_spec (js "en") sample_route viewer sample_buttons 2%N 2 0) as (E & _ & H).
  - apply sample_world_reachable. by apply no_newline_dec.
  - split; [rewrite E; vm_compute; reflexivity|]. intros button Hb. exact (proj1 (H button Hb)).
Defined.

Lemma right_click_selects_witness :
  let s' := handleRightClick data5 but4 (Some sample_buttons) 3%N 100 40 sample_state in
  s'.(contextMenu) = {| visible := true; left := 105; top := 40; currentRow := Some 3%N |} /\
  s'.(selection).(selectedRows) = [3%N].
Proof.
  cbn zeta.
  destruct (right_click_selects data5 but4 (Some sample_buttons) 3%N 100 40 sample_state eq_refl) as (-> & _ & _ & ->).
  - split; [done|]. split; [done|]. intros r. unfold expected. cbn. set_solver.
  - split; [reflexivity|]. vm_compute. reflexivity.
Defined.
