(* ===== verification/CardColumns.v ===== *)
(** * Cards and controls of the complex table

    src/frontend/src/components/table/: the grouping of the columns into the parts of a
    card (complex/useCardColumns.ts), the pagination and the placement of the context
    menu (complex/useResponsivePagination.ts, complex/ComplexTable.vue), and the timer
    of TableSetting.vue, whose intervals are the ids [setInterval] returned and
    [clearInterval] has not taken. *)

From S2P Require Import Prelude JsString Numbers Columns TableOperations.

#[local] Open Scope list_scope.

(** ** Card columns *)

(** A vnode of the table's slot: [operations] when it is a column of operations. *)
Record CardNode := {
  cn_node : VNode; cn_operations : bool;
  cn_cardType : option jsstr; cn_card_type : option jsstr;
}.

Definition cardTypes : list jsstr :=
  List.map js ["name"; "status"; "content"; "content-full"; "description"; "button"]%string.

Section Cards.
(** attrs.columns, when it is an array. *)
Variable configured : option (list FuTableColumnConfig).

Definition isVisible (column : CardNode) : bool :=
  if column.(cn_operations) then true
  else
    match configured with
    | None | Some [] => true
    | Some configuredColumns =>
        match List.find (fun item => item.(c_key) === getTableColumnKey column.(cn_node)) configuredColumns with
        | Some config => config.(c_show)
        | None => true
        end
    end.

(** cardType || 'card-type' *)
Definition cardType (column : CardNode) : jsstr := first_truthy [column.(cn_cardType); column.(cn_card_type)].

(** [grouped[cardType].push(column)] *)
Definition push (t : jsstr) (column : CardNode) (grouped : list (jsstr * list CardNode)) : list (jsstr * list CardNode) :=
  List.map (fun '(k, l) => (k, if k === t then l ++ [column] else l)) grouped.

Definition cardColumns (nodes : list CardNode) : list (jsstr * list CardNode) :=
  fold_left (fun grouped column =>
      if truthy (cardType column) && memb (cardType column) cardTypes && isVisible column
      then push (cardType column) column grouped else grouped)
    (List.filter (fun vnode => vnode.(cn_node).(n_column) || vnode.(cn_operations)) nodes)
    (List.map (fun type => (type, [])) cardTypes).

(** The part of a card, in the order of the slot. *)
Definition part (t : jsstr) (nodes : list CardNode) : list CardNode :=
  List.filter (fun c => (c.(cn_node).(n_column) || c.(cn_operations)) && (cardType c === t) && isVisible c) nodes.

Lemma cardColumns_go nodes grouped : List.map fst grouped = cardTypes ->
  fold_left (fun grouped column =>
      if truthy (cardType column) && memb (cardType column) cardTypes && isVisible column
      then push (cardType column) column grouped else grouped) nodes grouped =
  List.map (fun '(k, l) => (k, l ++ List.filter (fun c => (cardType c === k) && isVisible c) nodes)) grouped.
Proof.
  revert grouped. induction nodes as [|c nodes IH]; intros grouped Hg; cbn [fold_left List.filter].
  - symmetry. rewrite <- (map_id grouped) at 2. apply map_ext. intros [k l]. by rewrite app_nil_r.
  - rewrite IH.
    + assert (Hin : forall k l, (k, l) ∈ grouped -> truthy k = true /\ k ∈ cardTypes).
      { intros k l Hk. assert (k ∈ cardTypes) as Hc by (rewrite <- Hg; apply elem_map; by exists (k, l)).
        split; [|done]. exact (proj1 (forallb_elem truthy cardTypes) eq_refl k Hc). }
      destruct (truthy (cardType c) && memb (cardType c) cardTypes && isVisible c) eqn:E.
      * unfold push. rewrite map_map. apply map_ext_in. intros [k l] _.
        apply andb_true_iff in E as [_ ->]. rewrite andb_true_r, streqb_sym.
        destruct (cardType c === k); [by rewrite <- app_assoc|done].
      * apply map_ext_in. intros [k l] Hk%list_elem_of_In%Hin. destruct (cardType c === k) eqn:Ek; [|done].
        apply streqb_eq in Ek. destruct Hk as [Ht Hm%memb_elem]. rewrite Ek, Ht, Hm in E. cbn in E. by rewrite E.
    + case_step; [|done]. unfold push. rewrite map_map. rewrite <- Hg. apply map_ext. by intros [k l].
Qed.

Lemma filter_filter_and {A} (f g : A -> bool) l :
  List.filter f (List.filter g l) = List.filter (fun x => g x && f x) l.
Proof. induction l as [|x l IH]; [done|]. cbn. destruct (g x); cbn; by rewrite IH. Qed.

Lemma cardColumns_parts nodes : cardColumns nodes = List.map (fun t => (t, part t nodes)) cardTypes.
Proof.
  unfold cardColumns. rewrite cardColumns_go by reflexivity. rewrite map_map. apply map_ext. intros t. cbn [app].
  f_equal. unfold part. rewrite filter_filter_and. apply filter_ext. intros c. by rewrite andb_assoc.
Qed.
End Cards.

(** The key of a column that can be configured does not depend on its place. *)
Lemma configurable_key v i : isConfigurableColumn v = true -> buildColumnKey v i = getTableColumnKey v.
Proof.
  unfold isConfigurableColumn, buildColumnKey. intros H. apply andb_true_iff in H as [_ H].
  assert (truthy (getTableColumnKey v) = true) as ->; [|done]. unfold getTableColumnKey.
  destruct (n_columnKey v) as [[]|], (n_prop v) as [[]|], (n_key v) as [[]|], (n_label v) as [[]|]; try done.
Qed.

Lemma find_key (cols : list FuTableColumnConfig) c : NoDup (List.map c_key cols) -> c ∈ cols ->
  List.find (fun item => item.(c_key) === c.(c_key)) cols = Some c.
Proof.
  intros Hn Hc. destruct (List.find (fun item => item.(c_key) === c.(c_key)) cols) as [d|] eqn:E.
  - apply List.find_some in E as [Hd Hk]. apply streqb_eq in Hk. f_equal. apply (key_inj cols); [done| |done|done].
    by apply list_elem_of_In.
  - apply list_elem_of_In in Hc. pose proof (List.find_none _ _ E c Hc) as H. cbn beta in H. by rewrite streqb_refl in H.
Qed.

(** A card groups the columns of the slot by the part they name, each once and in the
    order of the slot; and of the columns the user can configure it shows those the table
    shows: a column the settings hide is on no card. *)
Theorem cards_follow_settings nodes cols : let ch := List.map cn_node nodes in
  fits (slotColumns ch) cols -> cols <> [] ->
  cardColumns (Some cols) nodes = List.map (fun t => (t, part (Some cols) t nodes)) cardTypes /\
  forall column, column ∈ nodes -> column.(cn_operations) = false -> isConfigurableColumn column.(cn_node) = true ->
    (isVisible (Some cols) column = true <->
     Some (getTableColumnKey column.(cn_node)) ∈ List.map clone_key (orderedConfigurableChildren ch cols)).
Proof.
  intros ch Hf Hne. split; [apply cardColumns_parts|]. intros column Hin Hop Hconf.
  rewrite (ordered_keys ch cols (fit_keys _ _ Hf)), elem_map.
  set (k := getTableColumnKey _).
  pose proof (fit_keys _ _ Hf) as Hp.
  assert (Hn : NoDup (List.map c_key cols)) by (rewrite Hp; apply Hf).
  assert (Hk : k ∈ List.map c_key cols).
  { rewrite Hp, slot_keys, imap_elem.
    assert (cn_node column ∈ List.filter isConfigurableColumn ch) as (i & Hi)%list_elem_of_lookup.
    { apply elem_filter. split; [|done]. apply elem_map. by exists column. }
    exists i, (cn_node column). split; [done|]. symmetry. by apply configurable_key. }
  apply elem_map in Hk as (c & Ek & Hc). unfold isVisible. rewrite Hop. fold k.
  destruct cols as [|c0 cols1]; [done|]. rewrite Ek.
  rewrite (find_key (c0 :: cols1) c Hn Hc). split.
  - intros Hs. exists (c_key c). split; [done|]. apply elem_map. exists c. split; [done|by apply elem_filter].
  - intros (k1 & [= E] & (d & Ed & (Hd & Hs)%elem_filter)%elem_map).
    rewrite (key_inj (c0 :: cols1) c d); [done..|]. congruence.
Qed.

Definition sample_card_nodes : list CardNode :=
  List.map (fun '(v, t) => {| cn_node := v; cn_operations := false; cn_cardType := t; cn_card_type := None |})
    (combine sample_children [None; Some (js "name"); Some (js "content"); Some (js "content")]) ++
  [ {| cn_node := {| n_id := 9; n_column := false; n_columnKey := None; n_prop := None; n_key := None;
                     n_label := Some (js "operate"); n_type := None; n_fixed := None; n_fix := None |};
       cn_operations := true; cn_cardType := None; cn_card_type := Some (js "button") |} ].
Definition sample_settings : list FuTableColumnConfig := alter (set_show false) 1 sample_slot.

Example sample_cards :
  List.map (fun '(_, l) => List.map (fun c => n_id c.(cn_node)) l) (cardColumns (Some sample_settings) sample_card_nodes) =
  [[1]; []; [3]; []; []; [9]].
Proof. vm_compute. reflexivity. Qed.

Lemma cards_follow_settings_witness :
  isVisible (Some sample_settings) (nth 2 sample_card_nodes (nth 0 sample_card_nodes (hd
    {| cn_node := sample_node 2 "size"; cn_operations := false; cn_cardType := None; cn_card_type := None |} sample_card_nodes))) = false.
Proof.
  set (column := nth 2 _ _).
  destruct (cards_follow_settings sample_card_nodes sample_settings) as [_ H].
  - exact sample_fits.
  - intros E. discriminate (f_equal length E).
  - destruct (isVisible (Some sample_settings) column) eqn:E; [exfalso|reflexivity].
    apply (H column) in E; [|do 2 right; left|reflexivity|reflexivity].
    revert E. refine (bool_decide_unpack _ _). vm_compute. exact I.
Defined.
