(* ===== verification/TableControls.v ===== *)
(** * Controls of the tables

    src/frontend/src/components/table/: the refresh timer of TableSetting.vue against the
    intervals of the browser, the width of the popover of TableColumnSelect.vue, the
    pagination of complex/useResponsivePagination.ts, and the height, the menu position
    and the page size of complex/ComplexTable.vue.  Numbers of pixels are integers; the
    rate of the timer is a number, as it is read back from localStorage. *)

From S2P Require Import Prelude JsString Numbers Uri TableOperations.

#[local] Open Scope list_scope.

(** ** TableSetting.vue *)

Section Refresh.
Context `{JsMax}.
(** props.title and props.rate. *)
Variables (title : option jsstr) (rate : option num).

(** The script's variables, the intervals of the browser with their delays (the next id
    is fresh), and localStorage. *)
Record Refresh := {
  refreshRateUnit : num;
  timer : option nat;
  intervals : gmap nat num;
  next_id : nat;
  store : gmap jsstr jsstr;
}.

(** [x ? ... : ...]: neither 0 nor NaN. *)
Definition num_truthy (x : num) : bool := negb (num_eq x (int 0)) && negb (isNaN x).

Definition set_rate (x : num) (s : Refresh) : Refresh :=
  {| refreshRateUnit := x; timer := s.(timer); intervals := s.(intervals); next_id := s.(next_id); store := s.(store) |}.

Definition clear_timer (s : Refresh) : Refresh :=
  match s.(timer) with
  | Some t => {| refreshRateUnit := s.(refreshRateUnit); timer := None; intervals := delete t s.(intervals);
                 next_id := s.(next_id); store := s.(store) |}
  | None => s
  end.

Definition set_interval (delay : num) (s : Refresh) : Refresh :=
  {| refreshRateUnit := s.(refreshRateUnit); timer := Some s.(next_id);
     intervals := <[s.(next_id) := delay]> s.(intervals); next_id := S s.(next_id); store := s.(store) |}.

(** localStorage.setItem(title, rate + ''), where the key of no title is "undefined". *)
Definition save_rate (s : Refresh) : Refresh :=
  {| refreshRateUnit := s.(refreshRateUnit); timer := s.(timer); intervals := s.(intervals); next_id := s.(next_id);
     store := <[default (js "undefined") title := String_num s.(refreshRateUnit)]> s.(store) |}.

Definition changeRefresh (command : num) (s : Refresh) : Refresh :=
  let s := set_rate (if num_truthy command then command else int 0) s in
  let s := if negb (num_eq s.(refreshRateUnit) (int 0))
           then set_interval (num_mul (int 1000) s.(refreshRateUnit)) (clear_timer s)
           else clear_timer s in
  save_rate s.

(** The title, when it is not empty. *)
Definition named : option jsstr := match title with Some [] => None | _ => title end.

Definition stored (s : Refresh) : option jsstr := named ≫= fun k => s.(store) !! k.

Definition mounted_hook (s : Refresh) : Refresh :=
  match stored s with
  | Some text =>
      let x := Number text in
      changeRefresh (if num_truthy x then x else int 0) s
  | None =>
      match rate with
      | Some r => if num_truthy r then changeRefresh r s else s
      | None => s
      end
  end.

Definition unmounted_hook (s : Refresh) : Refresh :=
  let s := clear_timer s in
  match named with Some _ => save_rate s | None => s end.

Inductive RefreshEvent := Mounted | Change (command : num).

Definition refresh_step (s : Refresh) (e : RefreshEvent) : Refresh :=
  match e with Mounted => mounted_hook s | Change command => changeRefresh command s end.

(** A component that starts with the store [l], in a browser with intervals of others. *)
Definition initial_refresh (others : gmap nat num) (n : nat) (l : gmap jsstr jsstr) : Refresh :=
  {| refreshRateUnit := int 0; timer := None; intervals := others; next_id := n; store := l |}.

(** One interval at most, the component's own, whose delay is the rate in
    milliseconds; the rate is 0 exactly when there is none. *)
Definition refresh_ok (others : gmap nat num) (s : Refresh) : Prop :=
  (forall i, is_Some (others !! i) -> i < s.(next_id)) /\
  match s.(timer) with
  | Some t => others !! t = None /\
      s.(intervals) = <[t := num_mul (int 1000) s.(refreshRateUnit)]> others /\
      num_eq s.(refreshRateUnit) (int 0) = false
  | None => s.(intervals) = others /\ num_eq s.(refreshRateUnit) (int 0) = true
  end.

Lemma clear_timer_spec others s : refresh_ok others s ->
  (clear_timer s).(intervals) = others /\ (clear_timer s).(timer) = None /\ (clear_timer s).(next_id) = s.(next_id).
Proof.
  intros [_ H2]. unfold clear_timer. destruct (timer s) as [t|] eqn:E; [|by destruct H2].
  destruct H2 as (Ho & -> & _). split; [|done]. cbn. by rewrite delete_insert_id.
Qed.

Lemma num_eq_00 : num_eq (int 0) (int 0) = true.
Proof. rewrite eq_int by (unfold exact; lia). done. Qed.

Lemma changeRefresh_ok others command s : refresh_ok others s -> refresh_ok others (changeRefresh command s).
Proof.
  intros Hs. destruct (clear_timer_spec others s Hs) as (Hi & Ht & Hn). destruct Hs as [Hf _].
  unfold changeRefresh. set (x := if num_truthy command then command else int 0).
  assert (Hc : clear_timer (set_rate x s) = set_rate x (clear_timer s))
    by (unfold clear_timer; cbn [timer set_rate]; by destruct (timer s)).
  cbn [refreshRateUnit set_rate]. rewrite Hc.
  assert (Hnone : others !! next_id s = None).
  { destruct (others !! next_id s) eqn:E; [|done]. pose proof (Hf (next_id s) ltac:(by eexists)). lia. }
  destruct (num_eq x (int 0)) eqn:E; cbn [negb].
  - split; cbn [next_id timer save_rate set_rate intervals refreshRateUnit]; [by rewrite Hn|by rewrite Ht].
  - split; cbn [next_id timer save_rate set_interval set_rate intervals refreshRateUnit]; rewrite ?Hn.
    + intros i Hi0. pose proof (Hf i Hi0). lia.
    + by rewrite Hi.
Qed.

Lemma refresh_step_ok others s e : refresh_ok others s -> refresh_ok others (refresh_step s e).
Proof.
  intros Hs. destruct e as [|c]; [|by apply changeRefresh_ok]. cbn. unfold mounted_hook.
  destruct (stored s); [by apply changeRefresh_ok|].
  destruct rate as [r|]; [|done]. destruct (num_truthy r); [by apply changeRefresh_ok|done].
Qed.

(** Whatever rates are chosen, and however often, the component owns one interval at
    most, of the delay of the rate it shows; the intervals of the others are theirs; and
    when the component goes, its own is gone. *)
Theorem one_refresh_timer others n l events :
  (forall i, is_Some (others !! i) -> i < n) ->
  let s := fold_left refresh_step events (initial_refresh others n l) in
  refresh_ok others s /\ (unmounted_hook s).(intervals) = others.
Proof.
  intros Hn. cbn zeta.
  assert (Hs : refresh_ok others (initial_refresh others n l)) by (split; [done|split; [done|apply num_eq_00]]).
  revert Hs. generalize (initial_refresh others n l). induction events as [|e events IH]; intros s Hs.
  - split; [done|]. destruct (clear_timer_spec others s Hs) as (Hi & _). cbn [fold_left].
    unfold unmounted_hook. by destruct named.
  - by apply IH, refresh_step_ok.
Qed.

(** A rate that was chosen is there when the page is opened again: a component mounted on
    the store another left runs the interval of the rate the other had. *)
Theorem refresh_rate_kept k z others n l others' n' events :
  title = Some k -> k <> [] -> exact (Z.of_N z) -> z <> 0%N ->
  let s := fold_left refresh_step events (initial_refresh others n l) in
  let s' := mounted_hook (initial_refresh others' n' (unmounted_hook (changeRefresh (int (Z.of_N z)) s)).(store)) in
  s'.(refreshRateUnit) = int (Z.of_N z) /\ s'.(timer) = Some n' /\
  s'.(intervals) = <[n' := num_mul (int 1000) (int (Z.of_N z))]> others'.
Proof.
  intros Hk Hk0 Hz Hz0. cbn zeta. assert (Hnm : named = Some k) by (unfold named; rewrite Hk; by destruct k). set (s := fold_left _ _ _).
  assert (Ht : num_eq (int (Z.of_N z)) (int 0) = false).
  { rewrite eq_int by (done || (unfold exact; lia)). apply Z.eqb_neq. lia. }
  assert (Hr : num_truthy (int (Z.of_N z)) = true) by (unfold num_truthy; rewrite Ht, isNaN_int by done; done).
  assert (Hst : (unmounted_hook (changeRefresh (int (Z.of_N z)) s)).(store) !! k = Some (dec z)).
  { unfold unmounted_hook. rewrite Hnm. unfold save_rate at 1. cbn [store]. rewrite Hk. cbn [default].
    rewrite lookup_insert_eq. f_equal. rewrite <- String_N by done. f_equal.
    unfold changeRefresh. rewrite Hr. unfold clear_timer. cbn [refreshRateUnit set_rate]. rewrite Ht. cbn [negb].
    by destruct (timer _), (timer _). }
  set (l' := store _) in *. unfold mounted_hook, stored. rewrite Hnm. cbn [store initial_refresh mbind option_bind].
  rewrite Hst, Number_dec by done. rewrite Hr. unfold changeRefresh. rewrite Hr.
  cbn [refreshRateUnit set_rate]. rewrite Ht. done.
Qed.
End Refresh.

Lemma one_refresh_timer_witness :
  refresh_ok {[3 := int 1000]} (fold_left (refresh_step (Some (js "log")) (Some (int 30)))
    [Mounted; Change (int 5); Change (int 60)] (initial_refresh {[3 := int 1000]} 7 ∅)).
Proof.
  refine (proj1 (one_refresh_timer (Some (js "log")) (Some (int 30)) {[3 := int 1000]} 7 ∅
    [Mounted; Change (int 5); Change (int 60)] _)).
  intros i [x Hx]. apply lookup_singleton_Some in Hx as [<- _]. lia.
Defined.

Lemma refresh_rate_kept_witness :
  let s' := mounted_hook (Some (js "log")) None (initial_refresh ∅ 2
    (unmounted_hook (Some (js "log")) (changeRefresh (Some (js "log")) (int 30)
      (fold_left (refresh_step (Some (js "log")) None) [Mounted] (initial_refresh ∅ 0 ∅)))).(store)) in
  s'.(refreshRateUnit) = int 30.
Proof.
  cbn zeta. refine (proj1 (refresh_rate_kept (Some (js "log")) None (js "log") 30 ∅ 0 ∅ ∅ 2 [Mounted] eq_refl _ _ _)).
  - discriminate.
  - unfold exact. cbn. lia.
  - discriminate.
Defined.

(** ** TableColumnSelect.vue *)

(** The first units of the characters [Array.from] finds: a surrogate pair is one. *)
Fixpoint characters (s : jsstr) : list N :=
  match s with
  | a :: s' =>
      match s' with
      | b :: s'' =>
          if is_high a && is_low b then a :: characters s''
          else a :: characters s'
      | [] => [a]
      end
  | [] => []
  end.

Definition estimateTextWidth (text : jsstr) : Z :=
  fold_left (fun total char => (total + if (255 <? char)%N then 14 else 8)%Z) (characters text) 0%Z.

Definition popoverWidth (resolvedTitle : jsstr) (labels : list jsstr) : Z :=
  let texts := resolvedTitle :: labels in
  let contentWidth := fold_left (fun maxWidth text => Z.max maxWidth (estimateTextWidth text)) texts 0%Z in
  Z.min (Z.max (contentWidth + 72) 180) 320.

Example popoverWidth_ex :
  popoverWidth (js "Columns") [[21517; 31216]%N; [55357; 56832]%N] = 180%Z /\ estimateTextWidth [55357; 56832; 97]%N = 22%Z /\
  popoverWidth (js "Custom") [js "A label that says a lot of things here"] = 320%Z.
Proof. vm_compute. done. Qed.

(** ** Pagination *)

Section Pagination.
Variables (isMobile small : bool) (paginationWidth : Z).

Definition responsivePaginationLayout : jsstr :=
  if isMobile || small || (paginationWidth <? 520)%Z then js "total, prev, pager, next"
  else js "total, sizes, prev, pager, next, jumper".
Definition responsivePagerCount : Z := if isMobile || small || (paginationWidth <? 720)%Z then 5 else 7.
End Pagination.

Record Pagination := { currentPage : Z; pageSize : Z; cacheSizeKey : jsstr }.

(** sizeChange: the pagination, the store and whether the view searches again. *)
Definition sizeChange (p : Pagination) (localStorage : gmap jsstr jsstr) : Pagination * gmap jsstr jsstr * bool :=
  ({| currentPage := 1; pageSize := p.(pageSize); cacheSizeKey := p.(cacheSizeKey) |},
   <[p.(cacheSizeKey) := decZ p.(pageSize)]> localStorage, true).

(** ** ComplexTable.vue *)

(** The height of the table, with the tab bar's when the tabs are open. *)
Definition calcHeight (heightDiff : option Z) (height innerHeight : Z) (openMenuTabs : bool) : Z :=
  let tabHeight := (if openMenuTabs then 48 else 0)%Z in
  if (height =? 0)%Z then (innerHeight - default 320 heightDiff - tabHeight)%Z else (height - tabHeight)%Z.

(** One coordinate of the menu: the watcher of the right click moves it back from the edge. *)
Definition adjust (position extent window : Z) : Z :=
  if (window <? position + extent)%Z then (window - extent - 4)%Z else position.

(** The menu lies within the window it fits in, on both axes. *)
Theorem menu_on_screen position extent window :
  (0 <= position)%Z -> (0 <= extent)%Z -> (extent + 4 <= window)%Z ->
  (0 <= adjust position extent window)%Z /\ (adjust position extent window + extent <= window)%Z.
Proof. unfold adjust. destruct (Z.ltb_spec window (position + extent)); lia. Qed.

Lemma menu_on_screen_witness :
  (0 <= adjust 1900 160 1920)%Z /\ (adjust 1900 160 1920 + 160 <= 1920)%Z.
Proof. apply menu_on_screen; lia. Defined.
