(* ===== verification/Stepper.v ===== *)
(** * The stepper of the wizards

    src/frontend/src/components/fu/steps/Stepper.ts: the steps, the current index
    and the hooks that may veto leaving or entering a step.  [active] is
    asynchronous: between the two hooks, and after each, other calls may run, so
    a call is a continuation that is resumed with what the awaited hook
    resolved to.  The display options of the constructor are its last fields;
    the translated default texts are their keys. *)

From stdpp Require Import gmap.
From S2P Require Import Prelude.

Local Open Scope Z_scope.

(** A hook is a function value; only its identity matters here. *)
Definition hook := N.

Record Step := {
  s_id : option jsstr; s_index : Z;
  s_beforeActive : option hook; s_beforeLeave : option hook;
  s_title : option jsstr; s_description : option jsstr; s_icon : option jsstr; s_status : option jsstr;
}.

(** The constructor copies its options; [undefined] ones are [{ index: 0 }]. *)
Definition new_Step (options : option Step) : Step :=
  match options with
  | Some o =>
      {| s_id := o.(s_id); s_index := o.(s_index); s_beforeActive := o.(s_beforeActive);
         s_beforeLeave := o.(s_beforeLeave); s_title := o.(s_title); s_description := o.(s_description);
         s_icon := o.(s_icon); s_status := o.(s_status) |}
  | None =>
      {| s_id := None; s_index := 0; s_beforeActive := None; s_beforeLeave := None;
         s_title := None; s_description := None; s_icon := None; s_status := None |}
  end.

Record StepperOptions := {
  o_steps : option (list Step); o_index : option Z; o_isLoading : option bool;
  o_onCancelButtonText : option jsstr; o_onFinishButtonText : option jsstr;
  o_prevButtonText : option jsstr; o_nextButtonText : option jsstr;
  o_buttonSize : option jsstr; o_footerAlign : option jsstr; o_showCancel : option bool;
  o_beforeActive : option hook; o_beforeLeave : option hook; o_height : option jsstr;
}.

Definition no_options : StepperOptions :=
  {| o_steps := None; o_index := None; o_isLoading := None; o_onCancelButtonText := None;
     o_onFinishButtonText := None; o_prevButtonText := None; o_nextButtonText := None;
     o_buttonSize := None; o_footerAlign := None; o_showCancel := None;
     o_beforeActive := None; o_beforeLeave := None; o_height := None |}.

(** The step a hook is called with, and the direction. *)
Record HookCall := { h_hook : hook; h_index : Z; h_forward : bool }.

(** A suspended call of [active]: what it awaits. *)
Inductive Phase := Leaving | Activating.
Record Call := { c_target : Z; c_forward : bool; c_phase : Phase }.

Record Stepper := {
  steps : list Step; index : Z; activeSet : gset Z; isLoading : bool;
  onCancelButtonText : jsstr; onFinishButtonText : jsstr; prevButtonText : jsstr; nextButtonText : jsstr;
  buttonSize : jsstr; footerAlign : jsstr; showCancel : bool;
  beforeActive : option hook; beforeLeave : option hook; height : option jsstr;
  pending : gmap nat Call;          (* the suspended calls of [active] *)
  next_call : nat;
  hooks_called : list HookCall;     (* the last one first *)
}.

Definition new_Stepper (options : option StepperOptions) : Stepper :=
  let o := default no_options options in
  {| steps := match o.(o_steps) with Some l => List.map (fun step => new_Step (Some step)) l | None => [] end;
     index := default 0 o.(o_index);
     activeSet := ∅;
     isLoading := default false o.(o_isLoading);
     onCancelButtonText := default (js "fu.steps.cancel") o.(o_onCancelButtonText);
     onFinishButtonText := default (js "fu.steps.finish") o.(o_onFinishButtonText);
     prevButtonText := default (js "fu.steps.prev") o.(o_prevButtonText);
     nextButtonText := default (js "fu.steps.next") o.(o_nextButtonText);
     buttonSize := default (js "default") o.(o_buttonSize);
     footerAlign := default (js "flex") o.(o_footerAlign);
     showCancel := default false o.(o_showCancel);
     beforeActive := o.(o_beforeActive);
     beforeLeave := o.(o_beforeLeave);
     height := o.(o_height);
     pending := ∅; next_call := 0; hooks_called := [] |}.

Definition upd (s : Stepper) (i : Z) (act : gset Z) (p : gmap nat Call) (n : nat) (h : list HookCall) : Stepper :=
  {| steps := s.(steps); index := i; activeSet := act; isLoading := s.(isLoading);
     onCancelButtonText := s.(onCancelButtonText); onFinishButtonText := s.(onFinishButtonText);
     prevButtonText := s.(prevButtonText); nextButtonText := s.(nextButtonText);
     buttonSize := s.(buttonSize); footerAlign := s.(footerAlign); showCancel := s.(showCancel);
     beforeActive := s.(beforeActive); beforeLeave := s.(beforeLeave); height := s.(height);
     pending := p; next_call := n; hooks_called := h |}.

Definition isFirst (i : Z) : bool := i =? 0.
Definition isLast (i : Z) (s : Stepper) : bool := i =? Z.of_nat (length s.(steps)) - 1.
Definition isActive (i : Z) (s : Stepper) : bool := bool_decide (i ∈ s.(activeSet)).
Definition isCurrent (i : Z) (s : Stepper) : bool := s.(index) =? i.

Definition getStep (i : Z) (s : Stepper) : option Step :=
  if i <? 0 then None else s.(steps) !! Z.to_nat i.

(** The hook [executeBeforeLeave] and [executeBeforeActive] run: the step's own,
    or else the stepper's. *)
Definition leave_hook (i : Z) (s : Stepper) : option hook :=
  match getStep i s ≫= s_beforeLeave with Some h => Some h | None => s.(beforeLeave) end.
Definition active_hook (i : Z) (s : Stepper) : option hook :=
  match getStep i s ≫= s_beforeActive with Some h => Some h | None => s.(beforeActive) end.

Definition log_hook (h : option hook) (i : Z) (forward : bool) (l : list HookCall) : list HookCall :=
  match h with Some f => {| h_hook := f; h_index := i; h_forward := forward |} :: l | None => l end.

Definition executeBeforeLeave (i : Z) (forward : bool) (s : Stepper) : Stepper :=
  upd s s.(index) s.(activeSet) s.(pending) s.(next_call)
    (log_hook (leave_hook i s) i forward s.(hooks_called)).
Definition executeBeforeActive (i : Z) (forward : bool) (s : Stepper) : Stepper :=
  upd s s.(index) s.(activeSet) s.(pending) s.(next_call)
    (log_hook (active_hook i s) i forward s.(hooks_called)).

(** The synchronous part of [active]: it ends by awaiting the leave hook. *)
Definition active (i : Z) (s : Stepper) : Stepper :=
  let isValid := (0 <=? i) && (i <? Z.of_nat (length s.(steps))) && negb (s.(index) =? i) in
  let forward := s.(index) <? i in
  if negb isValid then s
  else
    let s := executeBeforeLeave s.(index) forward s in
    upd s s.(index) s.(activeSet)
      (<[s.(next_call) := {| c_target := i; c_forward := forward; c_phase := Leaving |}]> s.(pending))
      (S s.(next_call)) s.(hooks_called).

(** What the awaited value is: [false], anything else, or a rejection. *)
Inductive Answer := AFalse | AOther | AThrow.

Definition resume (k : nat) (a : Answer) (s : Stepper) : Stepper :=
  match s.(pending) !! k with
  | None => s
  | Some c =>
      let s := upd s s.(index) s.(activeSet) (delete k s.(pending)) s.(next_call) s.(hooks_called) in
      match a with
      | AFalse | AThrow => s
      | AOther =>
          match c.(c_phase) with
          | Leaving =>
              let s := executeBeforeActive c.(c_target) c.(c_forward) s in
              upd s s.(index) s.(activeSet)
                (<[k := {| c_target := c.(c_target); c_forward := c.(c_forward); c_phase := Activating |}]> s.(pending))
                s.(next_call) s.(hooks_called)
          | Activating => upd s c.(c_target) ({[c.(c_target)]} ∪ s.(activeSet)) s.(pending) s.(next_call) s.(hooks_called)
          end
      end
  end.

Definition next (s : Stepper) : Stepper := if isLast s.(index) s then s else active (s.(index) + 1) s.
Definition prev (s : Stepper) : Stepper := if isFirst s.(index) then s else active (s.(index) - 1) s.

Inductive step_rel : Stepper -> Stepper -> Prop :=
| st_active i s : step_rel s (active i s)
| st_next s : step_rel s (next s)
| st_prev s : step_rel s (prev s)
| st_resume k a s : step_rel s (resume k a s).

(** ** Properties *)

Definition in_range (s : Stepper) (i : Z) : Prop := 0 <= i < Z.of_nat (length s.(steps)).

Definition stepper_ok (s : Stepper) : Prop :=
  in_range s s.(index) /\ (forall i, i ∈ s.(activeSet) -> in_range s i) /\
  (forall k c, s.(pending) !! k = Some c -> in_range s c.(c_target) /\ (k < s.(next_call))%nat).

Lemma active_ok i s : stepper_ok s -> stepper_ok (active i s).
Proof.
  intros (Hi & Ha & Hp). unfold active. destruct (negb _) eqn:E; [done|].
  apply negb_false_iff in E. rewrite !andb_true_iff, Z.leb_le, Z.ltb_lt in E.
  split; [done|]. split; [done|]. intros k c. cbn [pending next_call upd executeBeforeLeave].
  rewrite lookup_insert_Some. intros [[<- <-]|[_ H]]; [split; [|lia]; unfold in_range; cbn; lia|].
  destruct (Hp k c H) as [? ?]. split; [done|]. lia.
Qed.

Lemma step_ok s s' : stepper_ok s -> step_rel s s' -> stepper_ok s'.
Proof.
  intros H Hs. destruct Hs as [i s|s|s|k a s].
  - by apply active_ok.
  - unfold next. destruct (isLast _ _); [done|by apply active_ok].
  - unfold prev. destruct (isFirst _); [done|by apply active_ok].
  - unfold resume. destruct (pending s !! k) as [c|] eqn:E; [|done].
    destruct H as (Hi & Ha & Hp). destruct (Hp k c E) as [Hc Hk].
    assert (Hd : forall k' c', delete k s.(pending) !! k' = Some c' -> in_range s c'.(c_target) /\ (k' < s.(next_call))%nat).
    { intros k' c' [_ ?]%lookup_delete_Some. by apply Hp. }
    destruct a; [by split; [|split]| |by split; [|split]]. destruct (c_phase c).
    + split; [done|]. split; [done|]. intros k' c'. cbn [pending next_call upd executeBeforeActive].
      rewrite lookup_insert_Some. intros [[<- <-]|[_ ?]]; [done|by apply Hd].
    + split; [done|]. split; [|done]. intros i. cbn [activeSet upd].
      rewrite elem_of_union, elem_of_singleton. intros [->|?]; [done|by apply Ha].
Qed.

(** The hooks a pending call has run: the leave hook of some step, in the
    direction of the target, and once it awaits the second, that of the target. *)
Definition logged (s : Stepper) (c : Call) : Prop :=
  (exists i0, i0 <> c.(c_target) /\ c.(c_forward) = (i0 <? c.(c_target)) /\
     forall h, leave_hook i0 s = Some h ->
       {| h_hook := h; h_index := i0; h_forward := c.(c_forward) |} ∈ s.(hooks_called)) /\
  (c.(c_phase) = Activating -> forall h, active_hook c.(c_target) s = Some h ->
     {| h_hook := h; h_index := c.(c_target); h_forward := c.(c_forward) |} ∈ s.(hooks_called)).

Definition all_logged (s : Stepper) : Prop := forall k c, s.(pending) !! k = Some c -> logged s c.

(** A step keeps the steps and the hooks, and forgets no hook call. *)
Definition same_hooks (s s' : Stepper) : Prop :=
  s'.(steps) = s.(steps) /\ s'.(beforeActive) = s.(beforeActive) /\ s'.(beforeLeave) = s.(beforeLeave) /\
  forall x, x ∈ s.(hooks_called) -> x ∈ s'.(hooks_called).

Lemma same_leave s s' i : same_hooks s s' -> leave_hook i s' = leave_hook i s.
Proof. intros (E1 & _ & E3 & _). unfold leave_hook, getStep. by rewrite E1, E3. Qed.
Lemma same_active s s' i : same_hooks s s' -> active_hook i s' = active_hook i s.
Proof. intros (E1 & E2 & _). unfold active_hook, getStep. by rewrite E1, E2. Qed.

Lemma logged_mono s s' c : same_hooks s s' -> logged s c -> logged s' c.
Proof.
  intros Hs [(i0 & Hne & Hf & Hl) Ha]. split.
  - exists i0. split; [done|]. split; [done|]. intros h Hh. rewrite (same_leave s s') in Hh by done.
    by apply Hs, Hl.
  - intros Hp h Hh. rewrite (same_active s s') in Hh by done. by apply Hs, Ha.
Qed.

Lemma log_hook_old h i f l x : x ∈ l -> x ∈ log_hook h i f l.
Proof. destruct h; [by right|done]. Qed.
Lemma log_hook_new h i f l :
  {| h_hook := h; h_index := i; h_forward := f |} ∈ log_hook (Some h) i f l.
Proof. by left. Qed.

Lemma active_same i s : same_hooks s (active i s).
Proof.
  unfold active. destruct (negb _); [done|]. repeat split.
  intros x Hx. cbn [hooks_called upd executeBeforeLeave]. by apply log_hook_old.
Qed.

Lemma resume_keeps k a s : same_hooks s (resume k a s).
Proof.
  unfold resume. destruct (pending s !! k) as [c|]; [|done].
  destruct a; [done| |done]. destruct (c_phase c); [|done]. repeat split.
  intros x Hx. cbn [hooks_called upd executeBeforeActive]. by apply log_hook_old.
Qed.

Lemma active_logged i s : all_logged s -> all_logged (active i s).
Proof.
  intros H k c. pose proof (active_same i s) as Hs. revert Hs. unfold active. destruct (negb _) eqn:E; [intros _ ?; by apply (H k)|].
  apply negb_false_iff in E. rewrite !andb_true_iff, negb_true_iff, Z.eqb_neq in E. destruct E as [_ Hne].
  intros Hs. cbn [pending upd executeBeforeLeave next_call]. rewrite lookup_insert_Some.
  intros [[_ <-]|[_ Hk]]; [|by apply (logged_mono s _ c Hs), (H k)].
  split; [|done]. exists s.(index). split; [done|]. split; [done|]. intros h Hh.
  rewrite (same_leave s) in Hh by done. cbn [hooks_called upd executeBeforeLeave]. rewrite Hh. apply log_hook_new.
Qed.

Lemma resume_logged k a s : all_logged s -> all_logged (resume k a s).
Proof.
  intros H k' c'. pose proof (resume_keeps k a s) as Hs. revert Hs. unfold resume.
  destruct (pending s !! k) as [c|] eqn:E; [|by intros _ ?; apply (H k')].
  assert (Hd : forall s', same_hooks s s' -> delete k s.(pending) !! k' = Some c' -> logged s' c').
  { intros s' Hs [_ ?]%lookup_delete_Some. by apply (logged_mono s), (H k'). }
  destruct a; [intros Hs; by apply Hd| |intros Hs; by apply Hd].
  destruct (c_phase c) eqn:Ep; [|intros Hs; by apply Hd].
  intros Hs. cbn [pending upd executeBeforeActive]. rewrite lookup_insert_Some.
  intros [[<- <-]|[_ ?]]; [|by apply Hd]. destruct (logged_mono s _ c Hs (H k c E)) as [Hl _]. split; [exact Hl|].
  intros _ h Hh. cbn [c_target] in Hh. rewrite (same_active s) in Hh by done.
  cbn [hooks_called upd executeBeforeActive c_target c_forward].
  change (active_hook (c_target c) (upd s _ _ _ _ _)) with (active_hook (c_target c) s) at 1.
  rewrite Hh. apply log_hook_new.
Qed.

Lemma step_logged s s' : all_logged s -> step_rel s s' -> all_logged s'.
Proof.
  intros H Hs. destruct Hs; [by apply active_logged| | |by apply resume_logged].
  - unfold next. destruct (isLast _ _); [done|by apply active_logged].
  - unfold prev. destruct (isFirst _); [done|by apply active_logged].
Qed.

(** Only the end of a call moves the index. *)
Lemma active_index i s : (active i s).(index) = s.(index).
Proof. unfold active. by destruct (negb _). Qed.

Lemma index_moves s s' :
  step_rel s s' -> s'.(index) <> s.(index) ->
  exists k c, s.(pending) !! k = Some c /\ c.(c_phase) = Activating /\ s' = resume k AOther s /\
    s'.(index) = c.(c_target) /\ c.(c_target) ∈ s'.(activeSet) /\ s'.(pending) !! k = None.
Proof.
  intros Hs Hne. destruct Hs as [i s0|s0|s0|k a s0].
  - by rewrite active_index in Hne.
  - unfold next in Hne. destruct (isLast _ _); [done|]. by rewrite active_index in Hne.
  - unfold prev in Hne. destruct (isFirst _); [done|]. by rewrite active_index in Hne.
  - revert Hne. unfold resume. destruct (pending s0 !! k) as [c|] eqn:E; [|done].
    destruct a; [done| |done]. destruct (c_phase c) eqn:Ep; [done|]. intros _.
    exists k, c. rewrite E, Ep. repeat split; [|apply lookup_delete_eq].
    cbn [activeSet upd]. set_solver.
Qed.

(** However calls of the stepper overlap, the current step and every activated
    step exist; the current step changes only when a call that awaited the hook
    of its target is let through, after the leave hook of another step and the
    target's own hook were called in the right direction; a call both hooks let through
    arrives, and one that a hook refuses or fails ends without effect. *)
Theorem stepper_guarded s0 s :
  in_range s0 s0.(index) -> s0.(activeSet) = ∅ -> s0.(pending) = ∅ -> star step_rel s0 s ->
  stepper_ok s /\
  (forall s', step_rel s s' -> s'.(index) <> s.(index) ->
     exists k c, s.(pending) !! k = Some c /\ c.(c_phase) = Activating /\ logged s c /\
       s' = resume k AOther s /\ s'.(index) = c.(c_target) /\ c.(c_target) ∈ s'.(activeSet)) /\
  (forall i, in_range s i -> i <> s.(index) ->
     (resume s.(next_call) AOther (resume s.(next_call) AOther (active i s))).(index) = i) /\
  (forall k a, a <> AOther ->
     (resume k a s).(index) = s.(index) /\ (resume k a s).(hooks_called) = s.(hooks_called) /\
     (resume k a s).(pending) !! k = None).
Proof.
  intros Hi Ha Hp Hr.
  assert (Hok : stepper_ok s).
  { apply (star_invariant step_rel stepper_ok step_ok _ _ Hr). split; [done|]. rewrite Ha, Hp. set_solver. }
  assert (Hlog : all_logged s).
  { apply (star_invariant step_rel all_logged step_logged _ _ Hr). intros k c. by rewrite Hp, lookup_empty. }
  split; [done|]. split; [|split].
  - intros s' Hs Hne. destruct (index_moves s s' Hs Hne) as (k & c & Hk & Hc & E & Ei & Eact & _).
    exists k, c. repeat split; try done; by apply (Hlog k).
  - intros i Hin Hne. unfold active.
    assert (E : (0 <=? i) && (i <? Z.of_nat (length s.(steps))) && negb (s.(index) =? i) = true).
    { unfold in_range in Hin. rewrite !andb_true_iff, Z.leb_le, Z.ltb_lt, negb_true_iff, Z.eqb_neq. lia. }
    rewrite E. cbn [negb]. unfold resume. cbn [pending upd next_call executeBeforeLeave].
    rewrite lookup_insert_eq. cbn [c_phase]. cbn [pending upd next_call executeBeforeActive].
    rewrite lookup_insert_eq. done.
  - intros k a Hne. unfold resume. destruct (pending s !! k) eqn:E; [|done].
    destruct a; [|done|]; (repeat split; apply lookup_delete_eq).
Qed.

Definition plain_step (i : Z) (leave : option hook) : Step :=
  {| s_id := None; s_index := i; s_beforeActive := None; s_beforeLeave := leave;
     s_title := None; s_description := None; s_icon := None; s_status := None |}.

Definition wizard : Stepper :=
  new_Stepper (Some {| o_steps := Some [plain_step 0 (Some 7%N); plain_step 1 None; plain_step 2 None];
    o_index := None; o_isLoading := None; o_onCancelButtonText := None;
    o_onFinishButtonText := None; o_prevButtonText := None; o_nextButtonText := None;
    o_buttonSize := None; o_footerAlign := None; o_showCancel := None;
    o_beforeActive := Some 9%N; o_beforeLeave := None; o_height := None |}).

(** The user presses next twice before the first leave hook answers. *)
Definition pressed_twice : Stepper := resume 0 AOther (next (next wizard)).

Lemma stepper_guarded_witness :
  pressed_twice.(index) = 0 /\ length pressed_twice.(hooks_called) = 3%nat /\
  stepper_ok pressed_twice /\
  (resume 2 AOther (resume 2 AOther (active 2 pressed_twice))).(index) = 2.
Proof.
  assert (Hr : star step_rel wizard pressed_twice).
  { eapply star_step; [apply st_next|]. eapply star_step; [apply st_next|]. apply star_one, st_resume. }
  destruct (stepper_guarded wizard pressed_twice ltac:(split; [discriminate|reflexivity]) eq_refl eq_refl Hr)
    as (H1 & _ & H3 & _).
  split; [vm_compute; reflexivity|]. split; [vm_compute; reflexivity|]. split; [exact H1|].
  apply (H3 2); [split; [discriminate|reflexivity]|discriminate].
Defined.
