(* ===== verification/FooterNavigation.v ===== *)
(** * The links of the footer

    src/frontend/src/components/footer-navigation/model.ts.  A link a setting holds is any
    JSON value and is used only when it is a safe external URL.  the URL
    parser is the class [WebURL]. *)

From Stdlib Require Import ZifyBool ZifyN.
From S2P Require Import Prelude JsString Numbers Uri Utf8 Json WebUrl.

#[local] Open Scope N_scope.
#[local] Open Scope list_scope.

Local Ltac Zify.zify_post_hook ::= Z.to_euclidean_division_equations.

(** ** Safe URLs *)

Definition control (c : N) : bool := (c <=? 31) || ((127 <=? c) && (c <=? 159)).
Definition containsControlCharacter (value : jsstr) : bool := existsb control value.

(** The loop of decodePercentEscapes: [segment] is value.slice(segmentStart, index) reversed. *)
Fixpoint escapes_go (segment value : jsstr) : option (list N) :=
  match value with
  | [] => Some (text_encode (rev segment))
  | c :: value' =>
      if c =? 37 then
        match value' with
        | h :: l :: rest =>
            match hex_value h, hex_value l with
            | Some h, Some l => app (text_encode (rev segment) ++ [16 * h + l]) <$> escapes_go [] rest
            | _, _ => None
            end
        | _ => None
        end
      else escapes_go (c :: segment) value'
  end.

Definition decodePercentEscapes (value : jsstr) : option jsstr :=
  if negb (includes value (js "%")) then Some value else text_decode <$> escapes_go [] value.

(** schemeAuthorityPattern: the group of its match, the authority after a scheme. *)
Definition scheme_unit (c : N) : bool := is_lower c || is_upper c || is_digit c || (c =? 43) || (c =? 46) || (c =? 45).

Fixpoint span (f : N -> bool) (s : jsstr) : jsstr * jsstr :=
  match s with
  | c :: s' => if f c then let '(a, b) := span f s' in (c :: a, b) else ([], s)
  | [] => ([], [])
  end.

Definition authority_of (value : jsstr) : option jsstr :=
  match value with
  | c :: _ =>
      if is_lower c || is_upper c then
        let rest := (span scheme_unit value).2 in
        if startsWith rest (js "://") then Some (span (fun c => negb ((c =? 47) || (c =? 63) || (c =? 35))) (drop 3 rest)).1
        else None
      else None
  | [] => None
  end.

(** The host of a URL is its hostname and, after a colon, its port; colons of an address
    stand between brackets. *)
Definition url_port (url : URL) : jsstr :=
  match lastIndexOf url.(u_host) 58 with
  | Some i => if has_unit 93 (drop i url.(u_host)) then [] else drop (S i) url.(u_host)
  | None => []
  end.
Definition url_hostname (url : URL) : jsstr :=
  match lastIndexOf url.(u_host) 58 with
  | Some i => if has_unit 93 (drop i url.(u_host)) then url.(u_host) else take i url.(u_host)
  | None => url.(u_host)
  end.

Section Links.
Context {JN : JsNumber} {JI : JsInteger} {WU : WebURL}.

Definition isSafeExternalUrl (value : option json) : bool :=
  match value with
  | Some (JStr value) =>
      if containsControlCharacter value then false
      else
        let normalizedURL := trim value in
        if includes normalizedURL (js "\") then false
        else
          let authority := default [] (authority_of normalizedURL) in
          if negb (truthy authority) || endsWith authority (js ":") || includes authority (js "@")
             || includes authority (js "%") then false
          else
            match decodePercentEscapes normalizedURL with
            | None => false
            | Some decodedURL =>
                if containsControlCharacter decodedURL then false
                else
                  match new_URL normalizedURL with
                  | None => false
                  | Some url =>
                      let port := url_port url in
                      ((url.(u_protocol) === js "http:") || (url.(u_protocol) === js "https:"))
                      && truthy (url_hostname url) && negb (truthy url.(u_username)) && negb (truthy url.(u_password))
                      && (negb (truthy port) ||
                          isInteger (Number port) && num_le (int 1) (Number port) && num_le (Number port) (int 65535))
                  end
            end
  | _ => false
  end.

(** ** Links *)

Variant FooterNavigationKey := learnMore | forum | documentation | project.
Definition footerNavigationKeys : list FooterNavigationKey := [learnMore; forum; documentation; project].

Definition key_name (key : FooterNavigationKey) : jsstr :=
  match key with
  | learnMore => js "learnMore" | forum => js "forum" | documentation => js "documentation" | project => js "project"
  end.

Record FooterNavigationLinkSetting := { visible : bool; url : jsstr }.
Definition FooterNavigationLinks := FooterNavigationKey -> FooterNavigationLinkSetting.

Definition createDefaultFooterNavigationLinks (isIntl : bool) (docsUrl : jsstr) : FooterNavigationLinks := fun key =>
  {| visible := true;
     url := match key with
            | learnMore => if isIntl then js "https://1panel.pro/pricing" else js "https://1panel.cn/versions.html"
            | forum => if isIntl then js "https://github.com/1Panel-dev/1Panel/discussions"
                       else js "https://bbs.fit2cloud.com/c/1p/7"
            | documentation => if endsWith docsUrl (js "/") then docsUrl else docsUrl ++ js "/"
            | project => js "https://github.com/1Panel-dev/1Panel"
            end |}.

(** Boolean(v) *)
Definition truthy_json (v : option json) : bool :=
  match v with
  | None | Some JNull => false
  | Some (JBool b) => b
  | Some (JNum d) => negb (num_eq (Number d) (int 0)) && num_eq (Number d) (Number d)
  | Some (JStr s) => truthy s
  | Some (JArr _) | Some (JObj _) => true
  end.

(** [v?.key] *)
Definition get_member (key : jsstr) (v : option json) : option json := v ≫= member key.

Definition mergeFooterNavigationLinks (setting : json) (defaults : FooterNavigationLinks) : FooterNavigationLinks :=
  let links := get_member (js "links") (Some setting) in
  if negb (truthy_json (get_member (js "customized") (Some setting))) || negb (truthy_json links) then defaults
  else fun key =>
    let customized := get_member (key_name key) links in
    {| visible := match get_member (js "visible") customized with Some (JBool b) => b | _ => (defaults key).(visible) end;
       url := match get_member (js "url") customized with
              | Some (JStr u) => if isSafeExternalUrl (Some (JStr u)) then u else (defaults key).(url)
              | _ => (defaults key).(url)
              end |}.
End Links.

(** ** Lemmas *)

#[local] Existing Instances int_numbers int_integers simple_urls.

Example safe_1 : isSafeExternalUrl (Some (JStr (js " https://1panel.cn ")))  = true.
Proof. by vm_compute. Qed.
Example safe_2 : List.map (fun s => isSafeExternalUrl (Some (JStr (js s))))
  ["javascript:alert(1)"; "https://a@b"; "https://"; "//1panel.cn"; "https://1panel.cn:"; "https://%31panel.cn"; "https://1panel.cn\a"]%string
  = [false; false; false; false; false; false; false].
Proof. by vm_compute. Qed.
Example escape_1 : decodePercentEscapes (js "a%0Ab%C2%85") = Some [97; 10; 98; 133].
Proof. by vm_compute. Qed.

Abbreviation byte b := (b < 256) (only parsing).

Lemma escapes_pct b segment rest : byte b ->
  escapes_go segment (pct b ++ rest) = app (text_encode (rev segment) ++ [b]) <$> escapes_go [] rest.
Proof.
  intros Hb. unfold pct. cbn [app escapes_go]. rewrite N.eqb_refl, !hex_value_digit by lia.
  by replace (16 * (b / 16) + b mod 16) with b by lia.
Qed.

Lemma escapes_bytes l rest bs : Forall (fun b => byte b) l -> escapes_go [] (flat_map pct l ++ rest) = Some bs ->
  exists y, bs = l ++ y.
Proof.
  intros Hl. revert bs. induction Hl as [|b l Hb _ IH]; intros bs; [by exists bs|].
  cbn [flat_map]. rewrite <- app_assoc, escapes_pct by done. intros (bs' & H & ->)%fmap_Some.
  change (text_encode (rev [])) with (@nil N). cbn [app]. apply IH in H as [y ->]. by exists y.
Qed.

Lemma hex_value_percent : hex_value 37 = None.
Proof. done. Qed.

(** Escaped bytes are bytes of the text, whatever stands before and after them. *)
Lemma escapes_inside l b a : Forall (fun b => byte b) l -> forall segment bs,
  escapes_go segment (a ++ flat_map pct l ++ b) = Some bs -> exists x y, bs = x ++ l ++ y.
Proof.
  intros Hl. destruct l as [|b0 l]; [intros segment bs _; by exists [], bs|].
  assert (Hhead : exists t, flat_map pct (b0 :: l) ++ b = 37 :: t) by (eexists; done).
  induction a as [a IH] using (induction_ltof1 _ (@length N)). unfold ltof in IH. intros segment bs.
  destruct a as [|c a]; cbn [app].
  - cbn [flat_map]. rewrite <- app_assoc. inversion Hl; subst. rewrite escapes_pct by done.
    intros (bs' & H' & ->)%fmap_Some. apply escapes_bytes in H' as [y ->]; [|done].
    exists (text_encode (rev segment)), y. by rewrite <- !app_assoc.
  - cbn [escapes_go]. destruct (N.eqb_spec c 37) as [->|_]; [|apply IH; cbn; lia].
    destruct Hhead as [t Ht]. destruct a as [|h [|k a]]; cbn [app]; rewrite ?Ht.
    + destruct t as [|k t]; [done|]. by rewrite hex_value_percent.
    + rewrite hex_value_percent. by destruct (hex_value h).
    + destruct (hex_value h) as [h'|]; [|done]. destruct (hex_value k) as [k'|]; [|done].
      rewrite <- Ht. intros (bs' & H & ->)%fmap_Some. apply IH in H as (x & y & ->); [|cbn; lia].
      exists ((text_encode (rev segment) ++ [16 * h' + k']) ++ x), y. by rewrite <- !app_assoc.
Qed.

(** Trimming keeps what holds no white space. *)
Lemma trimStart_middle a t : t <> [] -> (forall c, head t = Some c -> is_ws c = false) ->
  forall b, exists a', trimStart (a ++ t ++ b) = a' ++ t ++ b.
Proof.
  intros Hne Ht b. induction a as [|c a IH]; cbn [app trimStart].
  - exists []. destruct t as [|c t]; [done|]. cbn [app trimStart]. by rewrite (Ht c).
  - destruct (is_ws c); [done|by exists (c :: a)].
Qed.

Lemma trim_middle a t b : t <> [] -> Forall (fun c => is_ws c = false) t ->
  exists a' b', trim (a ++ t ++ b) = a' ++ t ++ b'.
Proof.
  intros Hne Ht. unfold trim, trimEnd. rewrite Forall_elem in Ht.
  destruct (trimStart_middle a t Hne) with b as [a' ->].
  { intros c Hc. apply Ht. destruct t; [done|]. injection Hc as ->. by left. }
  rewrite !rev_app_distr, <- app_assoc. destruct (trimStart_middle (rev b) (rev t)) with (rev a') as [b' ->].
  - intros E. apply Hne. apply (f_equal (@rev N)) in E. by rewrite rev_involutive in E.
  - intros c Hc. apply Ht. assert (c ∈ rev t) as H by (destruct (rev t); [done|injection Hc as ->; by left]).
    by rewrite list_elem_of_In, <- in_rev, <- list_elem_of_In in H.
  - exists a', (rev b'). by rewrite !rev_app_distr, !rev_involutive, <- app_assoc.
Qed.

Lemma existsb_false {A} (f : A -> bool) l x : existsb f l = false -> x ∈ l -> f x = false.
Proof. intros H Hx. apply not_true_iff_false. intros Hf. apply not_true_iff_false in H. apply H. apply existsb_elem. eauto. Qed.

Lemma control_scalar c : control c = true -> scalar c /\ c < 65279 /\ unreserved c = false.
Proof.
  intros H. unfold control in H. unfold scalar, is_high, is_low. split; [lia|]. split; [lia|].
  destruct (unreserved c) eqn:E; [|done]. exfalso. assert (c < 160) as Hc by lia.
  assert (Hall : negb (control c && unreserved c) = true).
  { apply (forall_from_spec (fun c => negb (control c && unreserved c)) 0 160); [by vm_compute|lia]. }
  unfold control in Hall. rewrite H, E in Hall. done.
Qed.

(** ** Theorems *)

Section Theorems.
Context {JN : JsNumber} {JI : JsInteger} {WU : WebURL}.

(** C24. Nothing can be smuggled into a safe URL: no control character of it, raw or in the
    percent-encoding of some text, wherever that stands and whatever is around it. *)
Theorem safe_url_hides_no_control a s t b : Forall unit16 s -> encodeURIComponent s = Some t ->
  isSafeExternalUrl (Some (JStr (a ++ t ++ b))) = true ->
  containsControlCharacter (a ++ t ++ b) = false /\ containsControlCharacter s = false.
Proof.
  intros Hs Ht H. cbn [isSafeExternalUrl] in H. destruct (containsControlCharacter (a ++ t ++ b)); [done|]. split; [done|].
  destruct (includes (trim (a ++ t ++ b)) _); [done|]. destruct (_ || _) in H; [done|].
  destruct (decodePercentEscapes (trim (a ++ t ++ b))) as [d|] eqn:Hd; [|done].
  destruct (containsControlCharacter d) eqn:Ec; [done|]. clear H.
  apply not_true_iff_false. intros (c & Hc & Hctl)%existsb_elem. destruct (control_scalar c Hctl) as (Hsc & Hlt & Hu).
  unfold encodeURIComponent in Ht. apply fmap_Some in Ht as (cps & Hcps & ->).
  destruct (code_points_strong (length s) s cps) as [Hall Hun]; [done|done|done|].
  assert (c ∈ cps) as (l1 & l2 & ->)%list_elem_of_split.
  { rewrite <- Hun in Hc. apply list_elem_of_In, in_flat_map in Hc as (cp & Hcp & Hin). apply list_elem_of_In in Hcp.
    unfold units in Hin. destruct (cp <? 65536) eqn:E; cbn [In] in Hin.
    - destruct Hin as [->|[]]. done.
    - exfalso. unfold control in Hctl. lia. }
  rewrite flat_map_app in Hd. cbn [flat_map] in Hd. unfold encode_cp at 2 in Hd. rewrite Hu in Hd.
  set (e := flat_map pct (utf8 c)) in *.
  assert (Heq : a ++ (flat_map encode_cp l1 ++ e ++ flat_map encode_cp l2) ++ b
    = (a ++ flat_map encode_cp l1) ++ e ++ (flat_map encode_cp l2 ++ b)) by (by rewrite <- !app_assoc).
  rewrite Heq in Hd.
  assert (He : exists x, e = 37 :: x).
  { subst e. destruct (lead_byte c Hsc) as (b0 & l & -> & _). by eexists. }
  destruct (trim_middle (a ++ flat_map encode_cp l1) e (flat_map encode_cp l2 ++ b)) as (a' & b' & Htr).
  { destruct He as [x ->]. done. }
  { apply Forall_elem. intros x Hx. subst e. apply list_elem_of_In, in_flat_map in Hx as (y & Hy & Hx).
    apply list_elem_of_In in Hx, Hy. apply pct_safe in Hx.
    - unfold uri_safe in Hx. apply orb_true_iff in Hx as [Hx|Hx%N.eqb_eq]; [|by subst].
      apply unreserved_ws in Hx. done.
    - pose proof (utf8_bytes c) as Hb. rewrite Forall_elem in Hb. apply Hb; [unfold scalar in Hsc; lia|done]. }
  rewrite Htr in Hd. unfold decodePercentEscapes in Hd.
  assert (includes (a' ++ e ++ b') (js "%") = true) as Hinc.
  { apply (includes_unit _ "%"%string 37 eq_refl). destruct He as [x ->]. rewrite elem_of_app. right. by left. }
  rewrite Hinc in Hd. cbn [negb] in Hd. apply fmap_Some in Hd as (bs & Hbs & ->).
  apply escapes_inside in Hbs as (x & y & ->); [|apply utf8_bytes; unfold scalar in Hsc; lia].
  apply (existsb_false _ _ c) in Ec; [congruence|]. by apply text_decode_elem.
Qed.

(** What the editor saves: the links as they are shown. *)
Definition saved_setting (links : FooterNavigationLinks) : json :=
  JObj [(js "customized", JBool true);
        (js "links", JObj (List.map (fun key =>
           (key_name key, JObj [(js "visible", JBool (links key).(visible)); (js "url", JStr (links key).(url))]))
           footerNavigationKeys))].

(** With safe defaults every link of the footer is safe, whatever the setting holds; and
    the links that are shown, saved as a setting, are shown again, whatever the defaults
    are by then. *)
Theorem footer_links_safe setting defaults defaults' :
  (forall key, isSafeExternalUrl (Some (JStr (defaults key).(url))) = true) ->
  let links := mergeFooterNavigationLinks setting defaults in
  (forall key, isSafeExternalUrl (Some (JStr (links key).(url))) = true) /\
  (forall key, mergeFooterNavigationLinks (saved_setting links) defaults' key = links key).
Proof.
  intros Hd. cbv zeta. assert (Hl : forall key, isSafeExternalUrl (Some (JStr (mergeFooterNavigationLinks setting defaults key).(url))) = true).
  { intros key. unfold mergeFooterNavigationLinks. case_step; [done|]. cbv zeta. cbn [url].
    destruct (get_member (js "url") _) as [[| | |u| |]|]; try done. case_step; done. }
  split; [done|]. generalize dependent (mergeFooterNavigationLinks setting defaults). intros links Hl key.
  assert (Hs : get_member (key_name key) (get_member (js "links") (Some (saved_setting links))) =
    Some (JObj [(js "visible", JBool (links key).(visible)); (js "url", JStr (links key).(url))])) by by destruct key.
  unfold mergeFooterNavigationLinks at 1. cbv zeta.
  change (truthy_json (get_member (js "customized") (Some (saved_setting links)))) with true.
  change (truthy_json (get_member (js "links") (Some (saved_setting links)))) with true. cbn [negb orb].
  rewrite Hs.
  change (get_member (js "visible") (Some (JObj [(js "visible", JBool (visible (links key))); (js "url", JStr (url (links key)))])))
    with (Some (JBool (visible (links key)))).
  change (get_member (js "url") (Some (JObj [(js "visible", JBool (visible (links key))); (js "url", JStr (url (links key)))])))
    with (Some (JStr (url (links key)))).
  cbv iota. rewrite Hl. by destruct (links key).
Qed.
End Theorems.

Lemma safe_url_hides_no_control_witness :
  encodeURIComponent (js "1panel.cn") = Some (js "1panel.cn") /\
  isSafeExternalUrl (Some (JStr (js "https://" ++ js "1panel.cn" ++ js " "))) = true /\
  containsControlCharacter (js "1panel.cn") = false.
Proof.
  split; [by vm_compute|]. split; [by vm_compute|].
  apply (safe_url_hides_no_control (js "https://") (js "1panel.cn") (js "1panel.cn") (js " ")); [|by vm_compute|by vm_compute].
  repeat constructor; by vm_compute.
Defined.

Lemma footer_links_safe_witness :
  let defaults (key : FooterNavigationKey) := {| visible := true; url := js "https://1panel.cn" |} in
  let setting := saved_setting (fun key => {| visible := false; url := if key is forum then js "javascript:alert(1)" else js "http://a.b" |}) in
  (mergeFooterNavigationLinks setting defaults learnMore).(url) = js "http://a.b" /\
  isSafeExternalUrl (Some (JStr (mergeFooterNavigationLinks setting defaults forum).(url))) = true.
Proof.
  cbv zeta. split; [by vm_compute|]. apply footer_links_safe with (defaults' := fun _ => {| visible := true; url := [] |}).
  intros key. by vm_compute.
Defined.
