(* ===== verification/AxiosCancel.v ===== *)
(** * Cancelling requests

    src/frontend/src/api/helper/axios-cancel.ts: the map of cancellers of the
    pending requests.  A canceller is an identity, and calling it is recorded;
    qs.stringify is third-party code and a parameter. *)

From S2P Require Import Prelude JsString.

Section AxiosCanceler.
(** The bodies and parameters a request carries, and qs.stringify on them. *)
Context {D : Type} (stringify : D -> jsstr).

Record RequestConfig := {
  method : option jsstr; url : option jsstr; data : D; params : D; cancelToken : option N;
}.

(** Array.prototype.join renders an absent element as the empty string. *)
Definition getPendingUrl (config : RequestConfig) : jsstr :=
  join (js "&") [default [] config.(method); default [] config.(url);
                 stringify config.(data); stringify config.(params)].

(** [pendingMap] in insertion order, and the cancellers called so far. *)
Record Pending := { pendingMap : list (jsstr * N); called : list N; next_cancel : N }.

Definition initial_pending : Pending := {| pendingMap := []; called := []; next_cancel := 0 |}.

Definition has (u : jsstr) (p : Pending) : bool := existsb (fun e => e.1 === u) p.(pendingMap).
Definition map_get (u : jsstr) (p : Pending) : option N :=
  snd <$> List.find (fun e => e.1 === u) p.(pendingMap).
Definition map_delete (u : jsstr) (p : Pending) : Pending :=
  {| pendingMap := List.filter (fun e => e.1 !== u) p.(pendingMap);
     called := p.(called); next_cancel := p.(next_cancel) |}.
Definition cancel (c : N) (p : Pending) : Pending :=
  {| pendingMap := p.(pendingMap); called := p.(called) ++ [c]; next_cancel := p.(next_cancel) |}.

Definition removePending (config : RequestConfig) (p : Pending) : Pending :=
  let u := getPendingUrl config in
  if has u p then
    map_delete u (match map_get u p with Some c => cancel c p | None => p end)
  else p.

(** The CancelToken constructor runs its executor with a fresh canceller. *)
Definition addPending (config : RequestConfig) (p : Pending) : RequestConfig * Pending :=
  let p := removePending config p in
  let u := getPendingUrl config in
  match config.(cancelToken) with
  | Some _ => (config, p)
  | None =>
      let c := p.(next_cancel) in
      (Build_RequestConfig config.(method) config.(url) config.(data) config.(params) (Some c),
       {| pendingMap := if has u p then p.(pendingMap) else p.(pendingMap) ++ [(u, c)];
          called := p.(called); next_cancel := c + 1 |})
  end.

Definition removeAllPending (p : Pending) : Pending :=
  {| pendingMap := []; called := p.(called) ++ List.map snd p.(pendingMap); next_cancel := p.(next_cancel) |}.

Definition reset (p : Pending) : Pending :=
  {| pendingMap := []; called := p.(called); next_cancel := p.(next_cancel) |}.

(** ** Runs *)

Inductive pending_step : Pending -> Pending -> Prop :=
| p_add config p : pending_step p (addPending config p).2
| p_remove config p : pending_step p (removePending config p)
| p_removeAll p : pending_step p (removeAllPending p)
| p_reset p : pending_step p (reset p).

Definition pending_reachable (p : Pending) : Prop := star pending_step initial_pending p.

(** Every canceller issued is registered or called, but not both, and once. *)
Record pending_ok (p : Pending) : Prop := {
  pk_keys : NoDup (List.map fst p.(pendingMap));
  pk_once : NoDup (List.map snd p.(pendingMap) ++ p.(called));
  pk_next : forall c, c ∈ List.map snd p.(pendingMap) ++ p.(called) -> (c < p.(next_cancel))%N;
}.

Lemma has_spec u p : has u p = true <-> u ∈ List.map fst p.(pendingMap).
Proof.
  unfold has. rewrite existsb_elem, elem_map. setoid_rewrite streqb_eq. naive_solver.
Qed.

Lemma filter_key_absent u (l : list (jsstr * N)) :
  u ∉ List.map fst l -> List.filter (fun e => e.1 !== u) l = l.
Proof.
  induction l as [|[k d] l IH]; intros H; [done|]. cbn [List.map fst] in H.
  apply not_elem_of_cons in H as [H1 H2]. cbn [List.filter fst].
  assert ((k === u) = false) as -> by (apply streqb_neq; congruence). cbn [negb]. by rewrite IH.
Qed.

(** Deleting a key of a map splits its only entry off. *)
Lemma delete_split u p :
  NoDup (List.map fst p.(pendingMap)) -> has u p = true ->
  exists l1 c l2, p.(pendingMap) = l1 ++ (u, c) :: l2 /\ map_get u p = Some c /\
    List.filter (fun e => e.1 !== u) p.(pendingMap) = l1 ++ l2.
Proof.
  unfold has, map_get. induction (pendingMap p) as [|[k d] l IH]; intros Hn Hu; [done|].
  cbn in Hn. inversion_clear Hn as [|? ? Hk Hn']. cbn [existsb fst] in Hu. cbn [List.find List.filter fst].
  destruct (k === u) eqn:E; cbn [negb].
  - apply streqb_eq in E as ->. exists [], d, l. split; [done|]. split; [done|].
    by apply filter_key_absent.
  - destruct (IH Hn' Hu) as (l1 & c & l2 & -> & Hg & ->). by exists ((k, d) :: l1), c, l2.
Qed.

Lemma removePending_ok config p : pending_ok p -> pending_ok (removePending config p).
Proof.
  intros [H1 H2 H3]. unfold removePending. cbn zeta.
  destruct (has (getPendingUrl config) p) eqn:E; [|done].
  destruct (delete_split _ _ H1 E) as (l1 & c & l2 & Hl & Hg & Hf). rewrite Hg.
  assert (P : List.map snd (l1 ++ l2) ++ called p ++ [c] ≡ₚ List.map snd (pendingMap p) ++ called p).
  { rewrite Hl, !map_app. cbn [List.map snd]. solve_Permutation. }
  split; cbn [map_delete cancel pendingMap called next_cancel]; rewrite Hf.
  - rewrite Hl, map_app in H1. cbn [List.map fst] in H1. rewrite map_app.
    apply list.NoDup_app in H1 as (Ha & Hb & Hc). apply list.NoDup_app. split; [done|].
    inversion_clear Hc. split; [|done]. intros x Hx Hx'. apply (Hb x Hx). by right.
  - by rewrite P.
  - intros d. rewrite P. apply H3.
Qed.

Lemma removePending_has config p :
  pending_ok p -> has (getPendingUrl config) (removePending config p) = false.
Proof.
  intros _. unfold removePending. cbn zeta. destruct (has (getPendingUrl config) p) eqn:E; [|done].
  apply not_true_iff_false. rewrite has_spec. cbn [map_delete pendingMap].
  intros H. apply elem_map in H as (e & He & Hin). apply elem_filter in Hin as [_ Hin].
  rewrite <- He, streqb_refl in Hin. done.
Qed.

Lemma pending_step_ok p p' : pending_ok p -> pending_step p p' -> pending_ok p'.
Proof.
  intros Hp H. destruct H as [config p|config p|p|p].
  - pose proof (removePending_ok config p Hp) as Hr. unfold addPending. cbn zeta.
    destruct (cancelToken config); [done|]. rewrite removePending_has by done.
    destruct Hr as [H1 H2 H3]. cbn [snd].
    split; cbn [pendingMap called next_cancel]; rewrite ?map_app; cbn [List.map fst snd].
    + apply list.NoDup_app. split; [done|]. split; [|by apply NoDup_singleton].
      intros x Hx Hx'. apply list_elem_of_singleton in Hx' as ->. apply has_spec in Hx.
      by rewrite removePending_has in Hx.
    + assert (P : forall (a b : list N) x, (a ++ [x]) ++ b ≡ₚ x :: a ++ b) by (intros; solve_Permutation).
      rewrite P. constructor; [|done]. intros Hin. apply H3 in Hin. lia.
    + intros c Hc. rewrite <- app_assoc in Hc. apply elem_of_app in Hc as [Hc|Hc].
      * assert (c < next_cancel (removePending config p))%N by (apply H3, elem_of_app; by left). lia.
      * cbn in Hc. apply elem_of_cons in Hc as [->|Hc]; [lia|].
        assert (c < next_cancel (removePending config p))%N by (apply H3, elem_of_app; by right). lia.
  - by apply removePending_ok.
  - destruct Hp as [H1 H2 H3].
    assert (P : called p ++ List.map snd (pendingMap p) ≡ₚ List.map snd (pendingMap p) ++ called p)
      by solve_Permutation.
    split; cbn [removeAllPending pendingMap called next_cancel List.map app]; [constructor|..].
    + by rewrite P.
    + intros c. rewrite P. apply H3.
  - destruct Hp as [H1 H2 H3]. split; cbn [reset pendingMap called next_cancel List.map app]; [constructor|..].
    + by apply list.NoDup_app in H2 as (_ & _ & H2).
    + intros c Hc. apply H3, elem_of_app. by right.
Qed.

Lemma initial_pending_ok : pending_ok initial_pending.
Proof. split; cbn; [constructor..|]. intros c Hc. inversion Hc. Qed.

Lemma pending_reachable_ok p : pending_reachable p -> pending_ok p.
Proof. intros H. by apply (star_invariant _ _ pending_step_ok _ _ H), initial_pending_ok. Qed.

(** Registering a request cancels the pending request with the same
    method, address, body and parameters, and leaves the new one as the only
    one under that key; no canceller is ever called twice, and none that is
    still registered has been called. *)
Theorem addPending_single_flight config p :
  pending_reachable p -> config.(cancelToken) = None ->
  let p' := (addPending config p).2 in
  map_get (getPendingUrl config) p' = Some p.(next_cancel) /\
  NoDup (List.map fst p'.(pendingMap)) /\ NoDup (List.map snd p'.(pendingMap) ++ p'.(called)) /\
  (forall c, map_get (getPendingUrl config) p = Some c -> p'.(called) = p.(called) ++ [c]).
Proof.
  intros Hp%pending_reachable_ok Ht p'.
  assert (pending_ok p') as [K1 K2 _] by (by apply (pending_step_ok p), p_add).
  split; [|split; [done|split; [done|]]].
  - subst p'. unfold addPending. cbn zeta. rewrite Ht, removePending_has by done. cbn [snd].
    assert (next_cancel (removePending config p) = next_cancel p) as ->
      by (unfold removePending; cbn zeta; repeat case_match; done).
    unfold map_get. cbn [pendingMap]. pose proof (removePending_has config p Hp) as Hh. unfold has in Hh.
    induction (pendingMap (removePending config p)) as [|e l IH]; cbn [app List.find fst].
    + by rewrite streqb_refl.
    + cbn [existsb] in Hh. apply orb_false_iff in Hh as [-> Hh]. by apply IH.
  - intros c Hc. subst p'. unfold addPending, removePending. cbn zeta. rewrite Ht, Hc.
    assert (has (getPendingUrl config) p = true) as ->; [|by cbn].
    unfold map_get in Hc. unfold has. destruct (List.find _ _) eqn:Ef; [|discriminate Hc].
    apply List.find_some in Ef as [Hin He]. apply existsb_elem. exists p0.
    split; [by apply list_elem_of_In|done].
Qed.
End AxiosCanceler.

Definition sample_request (u : jsstr) : RequestConfig :=
  {| method := Some (js "post"); url := Some u; data := js "a=1"; params := []; cancelToken := None |}.

Lemma addPending_single_flight_witness :
  let p := (addPending id (sample_request (js "/files/search")) initial_pending).2 in
  let p' := (addPending id (sample_request (js "/files/search")) p).2 in
  map_get (js "post&/files/search&a=1&") p' = Some 1%N /\
  NoDup (List.map fst p'.(pendingMap)) /\ NoDup (List.map snd p'.(pendingMap) ++ p'.(called)) /\
  (forall c, map_get (js "post&/files/search&a=1&") p = Some c -> p'.(called) = p.(called) ++ [c]).
Proof.
  cbn zeta. apply (addPending_single_flight id (sample_request (js "/files/search"))).
  - apply star_one, (p_add id (sample_request (js "/files/search"))).
  - reflexivity.
Defined.
