(* ===== verification/RouterGuard.v ===== *)
(** * The license status and the router guard

    src/frontend/src/utils/xpack.ts (the license part) and routers/index.ts:
    what happens before and after every navigation.  vue-router's resolution of
    a location is third-party code and a parameter. *)

From S2P Require Import Prelude JsString GlobalStore Access TerminalSession AxiosCancel.

(** ** xpack.ts: the license of the server *)

(** An answer of a license request: its data, absent when there is none.
    [l_productPro] is Number(res.data.productPro). *)
Record LicenseData := { l_status : jsstr; l_productPro : Z }.
Definition LicenseAnswer : Type := option LicenseData.

Definition bound (a : LicenseAnswer) : bool :=
  match a with Some d => d.(l_status) === js "Bound" | None => false end.
Definition productPro (a : LicenseAnswer) : Z := match a with Some d => d.(l_productPro) | None => 0 end.

(** loadProductProFromDB, once the request it sends has answered: getLicenseStatus
    for the community and professional editions, getEnterpriseLicenseStatus for the
    enterprise edition.  The former marks the license as loaded before it asks. *)
Definition mark_loaded : GlobalState -> GlobalState := set_license (fun l =>
  Build_License l.(isProductPro) l.(productProExpires) l.(isMasterProductPro) l.(isEnterpriseLicensed) true).

(** Its end in the enterprise edition, after the await. *)
Definition enterprise_loaded (answer : LicenseAnswer) (g : GlobalState) : GlobalState :=
  set_license (fun l =>
    Build_License (bound answer) (if bound answer then productPro answer else 0)
      l.(isMasterProductPro) (bound answer) l.(isEnterpriseLicenseLoaded)) (mark_loaded g).

Definition loadProductProFromDB (answer : LicenseAnswer) (g : GlobalState) : GlobalState :=
  if negb g.(tags).(isEnterprise) then
    set_license (fun l =>
      Build_License (bound answer) (if bound answer then productPro answer else 0)
        l.(isMasterProductPro) l.(isEnterpriseLicensed) l.(isEnterpriseLicenseLoaded)) (mark_loaded g)
  else enterprise_loaded answer g.

(** loadMasterProductProFromDB up to the theme and the base settings it loads
    afterwards. *)
Definition loadMasterProductProFromDB (answer : LicenseAnswer) (g : GlobalState) : GlobalState :=
  if negb g.(tags).(isEnterprise) then
    set_license (fun l =>
      Build_License l.(isProductPro) l.(productProExpires) (bound answer)
        l.(isEnterpriseLicensed) l.(isEnterpriseLicenseLoaded)) (mark_loaded g)
  else
    set_license (fun l =>
      Build_License (bound answer) (if bound answer then productPro answer else 0) (bound answer)
        (bound answer) l.(isEnterpriseLicenseLoaded)) (mark_loaded g).

(** ** Routes *)

(** The route records vue-router matched: their path and meta. *)
Record RouteRecord := { r_path : jsstr; r_meta : option Meta }.

(** The value of a query parameter: null when it is given without one, an array when it is
    given more than once. *)
Inductive QueryValue := QNull | QStr (s : jsstr) | QArr (l : list (option jsstr)).

(** A resolved location. *)
Record Target := {
  name : option jsstr; path : jsstr; query : list (jsstr * QueryValue);
  params : list (jsstr * jsstr); activeMenu : jsstr; ignoreTab : bool; matched : list RouteRecord;
}.

(** What a guard returns to navigate elsewhere. *)
Inductive Location :=
| ByName (n : jsstr) (ps : list (jsstr * jsstr)) (q : list (jsstr * QueryValue))
| ByPath (p : jsstr) (q : list (jsstr * QueryValue))
| ByString (s : jsstr).

(** A guard's verdict. *)
Inductive Verdict := Allow | Block | Redirect (l : Location) | Throws.

(** String(to.name) *)
Definition String_name (t : Target) : jsstr := default (js "undefined") t.(name).
Definition named (t : Target) (n : jsstr) : bool :=
  match t.(name) with Some m => m === n | None => false end.
(** to.query[k] != undefined *)
Definition query_given (k : jsstr) (t : Target) : bool :=
  existsb (fun e => (e.1 === k) && match e.2 with QNull => false | _ => true end) t.(query).
Definition param (k : jsstr) (t : Target) : option jsstr :=
  snd <$> List.find (fun e => e.1 === k) t.(params).
Definition matched_meta (t : Target) : list (option Meta) := List.map r_meta t.(matched).

Definition enterpriseLicenseCheckWhiteList : list jsstr :=
  [js "EnterpriseLicenseRequired"; js "entrance"; js "login"; js "Expired"].
Definition noLoginWhiteList : list jsstr :=
  [js "entrance"; js "login"; js "file-share"; js "404"; js "Expired"].

(** ** The state the guard shares *)

Record Guard := {
  g_world : World; g_pending : Pending; g_sessions : Sessions;
  localStorage : gmap jsstr jsstr; isRedirecting : bool; messages : nat;
}.

Definition with_world (f : World -> World) (s : Guard) : Guard :=
  Build_Guard (f s.(g_world)) s.(g_pending) s.(g_sessions) s.(localStorage) s.(isRedirecting) s.(messages).
Definition with_storage (f : gmap jsstr jsstr -> gmap jsstr jsstr) (s : Guard) : Guard :=
  Build_Guard s.(g_world) s.(g_pending) s.(g_sessions) (f s.(localStorage)) s.(isRedirecting) s.(messages).
Definition with_redirecting (b : bool) (s : Guard) : Guard :=
  Build_Guard s.(g_world) s.(g_pending) s.(g_sessions) s.(localStorage) b s.(messages).
Definition with_pending (f : Pending -> Pending) (s : Guard) : Guard :=
  Build_Guard s.(g_world) (f s.(g_pending)) s.(g_sessions) s.(localStorage) s.(isRedirecting) s.(messages).
Definition with_sessions (f : Sessions -> Sessions) (s : Guard) : Guard :=
  Build_Guard s.(g_world) s.(g_pending) (f s.(g_sessions)) s.(localStorage) s.(isRedirecting) s.(messages).
Definition MsgError (s : Guard) : Guard :=
  Build_Guard s.(g_world) s.(g_pending) s.(g_sessions) s.(localStorage) s.(isRedirecting) (S s.(messages)).

Definition store (s : Guard) : GlobalState := s.(g_world).(gs).
Definition on_world {A} (m : M World A) : M Guard A :=
  fun s => let '(a, w) := m s.(g_world) in (a, with_world (fun _ => w) s).

Definition clearLicenseStatus : M Guard unit :=
  modify (with_world (set_gs (set_license (fun l =>
    Build_License l.(isProductPro) l.(productProExpires) l.(isMasterProductPro) false false)))).

Definition clearLoginStatus : M Guard unit :=
  on_world (setLogStatus false);;;
  on_world clearAuthInfo;;;
  clearLicenseStatus;;;
  modify (with_sessions closeAll).

(** { name: 'entrance', params: { code: entrance.value } } *)
Definition to_entrance (g : GlobalState) : Location := ByName (js "entrance") [(js "code", g.(auth).(entrance))] [].
Definition to_name (n : string) : Location := ByName (js n) [] [].

Definition cachedRoute_key (menu : jsstr) : jsstr := js "cachedRoute" ++ menu.

Section Guard.
(** router.resolve on a location *)
Variable resolve : Location -> Target.

Section BeforeEach.
Variables to from : Target.

(** The redirects on the login status. *)
Definition decide_login (g : GlobalState) : option Verdict :=
  let isLogin := g.(auth).(isLogin) in
  let entrance := g.(auth).(entrance) in
  if negb isLogin && negb (memb (String_name to) noLoginWhiteList)
  then Some (Redirect (if truthy entrance then to_entrance g else to_name "login"))
  else if named to (js "login") && negb isLogin && truthy entrance
  then Some (Redirect (to_entrance g))
  else if named to (js "login") && isLogin then Some (Redirect (to_name "home"))
  else if named to (js "entrance") && isLogin
  then Some (Redirect (match param (js "code") to with
                       | Some code => if code === entrance then to_name "home" else to_name "404"
                       | None => to_name "404"
                       end))
  else None.

(** The guard up to the license check: a verdict, or on to the check. *)
Definition check_login : M Guard (option Verdict) :=
  modify (with_pending removeAllPending);;;
  let! s0 := get in
  (if negb (store s0).(auth).(isLogin) then clearLoginStatus else ret tt);;;
  let! s := get in
  ret (decide_login (store s)).

(** The condition of the license check. *)
Definition needs_license (g : GlobalState) : bool :=
  g.(auth).(isLogin) && g.(tags).(isEnterprise) && negb (memb (String_name to) enterpriseLicenseCheckWhiteList).

(** The check of the license that is loaded. *)
Definition check_licensed : M Guard (option Verdict) :=
  gets (fun s =>
    if negb (store s).(license).(isEnterpriseLicensed)
    then Some (Redirect (ByName (js "EnterpriseLicenseRequired") []
                [(js "code", QStr (default [] (param (js "code") to)))]))
    else None).

Definition check_license_page : M Guard (option Verdict) :=
  gets (fun s =>
    let g := store s in
    if named to (js "EnterpriseLicenseRequired") then
      Some (if negb g.(auth).(isLogin) then Redirect (ByName (js "entrance") to.(params) [])
            else if negb g.(tags).(isEnterprise) || g.(license).(isEnterpriseLicensed)
                 then Redirect (to_name "home")
                 else Allow)
    else None).

(** The branch of the cached route of a menu. *)
Definition check_cached : M Guard (option Verdict) :=
  let activeMenuKey := cachedRoute_key to.(activeMenu) in
  let! s := get in
  match s.(localStorage) !! activeMenuKey with
  | Some cachedRoute =>
      if truthy to.(activeMenu) && (to.(activeMenu) !== from.(activeMenu)) && truthy cachedRoute
         && (cachedRoute !== to.(path)) && negb s.(isRedirecting)
      then
        let cachedRouteInfo := resolve (ByString cachedRoute) in
        let! access := (match cachedRouteInfo.(matched) with
                        | [] => ret false
                        | _ => on_world (hasRouteAccess (matched_meta cachedRouteInfo))
                        end) in
        if access then
          modify (with_redirecting true);;; ret (Some (Redirect (ByString cachedRoute)))
        else modify (with_storage (delete activeMenuKey));;; ret None
      else ret None
  | None => ret None
  end.

Definition check_route : M Guard Verdict :=
  if (to.(path) === js "/apps/all") && query_given (js "install") to then ret Allow
  else if named to (js "Expired") then ret Allow
  else if query_given (js "uncached") to then
    modify (with_storage (delete (cachedRoute_key to.(activeMenu))));;;
    ret (Redirect (ByPath to.(path) (List.filter (fun e => e.1 !== js "uncached") to.(query))))
  else
    let! cached := check_cached in
    match cached with
    | Some v => ret v
    | None =>
        let! access := on_world (hasRouteAccess (matched_meta to)) in
        if access then ret Allow else modify MsgError;;; ret Block
    end.

(** The guard returns at the first check that decides. *)
Definition or_next (m : M Guard (option Verdict)) (next : M Guard Verdict) : M Guard Verdict :=
  let! v := m in match v with Some r => ret r | None => next end.

(** What follows the license check. *)
Definition check_rest : M Guard Verdict := or_next check_license_page check_route.

(** The guard up to its verdict or to the await of loadProductProFromDB, which is in the
    enterprise edition then. *)
Variant Progress := Decided (v : Verdict) | AwaitLicense.

Definition before_license : M Guard Progress :=
  let! v := check_login in
  match v with
  | Some v => ret (Decided v)
  | None =>
      let! s := get in
      if needs_license (store s) then
        if negb (store s).(license).(isEnterpriseLicenseLoaded) then ret AwaitLicense
        else let! v := or_next check_licensed check_rest in ret (Decided v)
      else let! v := check_rest in ret (Decided v)
  end.

(** The guard after the await; a request that fails, [None], rejects its promise. *)
Definition after_license (answer : option LicenseAnswer) : M Guard Verdict :=
  match answer with
  | Some a => modify (with_world (set_gs (enterprise_loaded a)));;; or_next check_licensed check_rest
  | None => ret Throws
  end.

(** The guard when nothing happens during the await. *)
Definition beforeEach (answer : option LicenseAnswer) : M Guard Verdict :=
  let! p := before_license in match p with Decided v => ret v | AwaitLicense => after_license answer end.
End BeforeEach.

(** The route a menu remembers for a visited location. *)
Definition remembered (to : Target) : jsstr :=
  if (to.(activeMenu) === js "/cronjobs") && (to.(path) === js "/cronjobs/cronjob/operate")
  then js "/cronjobs/cronjob"
  else if (to.(activeMenu) === js "/containers") && (to.(path) === js "/containers/container/operate")
  then js "/containers/container"
  else if (to.(activeMenu) === js "/toolbox") && (to.(path) === js "/toolbox/clam/setting")
  then js "/toolbox/clam"
  else to.(path).

Definition afterEach (to : Target) (s : Guard) : Guard :=
  let s' :=
    if truthy to.(activeMenu) && negb to.(ignoreTab) && negb s.(isRedirecting)
    then if existsb (fun r => has_unit 58 r.(r_path)) to.(matched) then s
         else with_storage <[cachedRoute_key to.(activeMenu) := remembered to]> s
    else s in
  with_redirecting false s'.

End Guard.

(** Split a conjunction, but not the definitions it is made of. *)
Ltac splits := repeat lazymatch goal with |- _ /\ _ => split end.

(** ** What each check does to the store *)

Definition logged_out (g : GlobalState) : GlobalState :=
  set_license (fun l => Build_License l.(isProductPro) l.(productProExpires) l.(isMasterProductPro) false false)
    (set_tags (with_auth_info false [] [] [])
      (set_auth (fun a => Build_Auth a.(ignoreCaptcha) a.(agreeLicense) false a.(entrance) a.(csrfToken)) g)).

(** The store the checks see: nobody's, when nobody is logged in. *)
Definition entering (g : GlobalState) : GlobalState :=
  if g.(auth).(isLogin) then g else logged_out g.

Lemma clearAuthInfo_gs w : gs (clearAuthInfo w).2 = set_tags (with_auth_info false [] [] []) (gs w).
Proof. unfold clearAuthInfo, setMasterOnlyPermissionCodes, bind, modify. cbn. by case_step. Qed.

Lemma bind_eq {S A B} (m : M S A) (k : A -> M S B) s a s' : m s = (a, s') -> bind m k s = k a s'.
Proof. unfold bind. by intros ->. Qed.

Definition guard_ok (s : Guard) : Prop := world_ok s.(g_world).

(** [same_store s s']: only the cached codes, the cached routes and the
    counters differ. *)
Definition same_store (s s' : Guard) : Prop :=
  store s' = store s /\ guard_ok s' /\ s'.(g_sessions) = s.(g_sessions) /\ s'.(g_pending) = s.(g_pending).

Lemma check_login_spec to s :
  guard_ok s ->
  exists s', check_login to s = (decide_login to (entering (store s)), s') /\
    store s' = entering (store s) /\ guard_ok s' /\
    s'.(g_sessions) = (if (store s).(auth).(isLogin) then s.(g_sessions) else closeAll s.(g_sessions)) /\
    s'.(g_pending) = removeAllPending s.(g_pending) /\
    s'.(localStorage) = s.(localStorage) /\ s'.(isRedirecting) = s.(isRedirecting).
Proof.
  intros Hs. unfold check_login, bind, get, modify, ret.
  change (store (with_pending removeAllPending s)) with (store s). unfold entering. destruct (isLogin (auth (store s))) eqn:E; cbn [negb].
  - eexists. split; [reflexivity|]. by splits.
  - unfold clearLoginStatus, clearLicenseStatus, bind, on_world, modify. cbn [with_pending g_world].
    pose proof (clearAuthInfo_gs (setLogStatus false (g_world s)).2) as Eg.
    assert (world_ok (clearAuthInfo (setLogStatus false (g_world s)).2).2) as Hw.
    { apply clearAuthInfo_ok. by destruct Hs. }
    destruct (setLogStatus false (g_world s)) as [u w1] eqn:E1. cbn [snd] in *. cbn [with_world g_world].
    destruct (clearAuthInfo w1) as [u2 w2] eqn:E2. cbn [snd] in *.
    assert (gs w1 = set_auth (fun a => Build_Auth a.(ignoreCaptcha) a.(agreeLicense) false a.(entrance) a.(csrfToken)) (gs (g_world s))) as Ew
      by (injection E1 as _ <-; reflexivity).
    rewrite Ew in Eg.
    match goal with |- exists s', (_, ?x) = _ /\ _ => exists x end.
    assert (store (with_sessions closeAll (with_world (set_gs (set_license (fun l =>
      Build_License l.(isProductPro) l.(productProExpires) l.(isMasterProductPro) false false)))
      (with_world (fun _ => w2) (with_world (fun _ => w1) (with_pending removeAllPending s)))))
      = logged_out (store s)) as Est.
    { unfold store. cbn [with_sessions with_world g_world set_gs gs]. by rewrite Eg. }
    split; [f_equal|split; [exact Est|]].
    + cbv zeta. by rewrite Est.
    + split; [|by splits]. destruct Hw as [Hc Hn]. by split.
Qed.

(** The store after the license check. *)
Definition licensed_store (to : Target) (answer : option LicenseAnswer) (g : GlobalState) : GlobalState :=
  if needs_license to g && negb g.(license).(isEnterpriseLicenseLoaded) then
    match answer with Some a => enterprise_loaded a g | None => g end
  else g.

Definition decide_license (to : Target) (answer : option LicenseAnswer) (g : GlobalState) : option Verdict :=
  if needs_license to g then
    if negb g.(license).(isEnterpriseLicenseLoaded) && negb (match answer with Some _ => true | None => false end)
    then Some Throws
    else if negb (licensed_store to answer g).(license).(isEnterpriseLicensed)
    then Some (Redirect (ByName (js "EnterpriseLicenseRequired") []
                [(js "code", QStr (default [] (param (js "code") to)))]))
    else None
  else None.

Lemma enterprise_loaded_rest a g :
  (enterprise_loaded a g).(auth) = g.(auth) /\ (enterprise_loaded a g).(tags) = g.(tags) /\
  (enterprise_loaded a g).(node) = g.(node) /\
  (enterprise_loaded a g).(license).(isEnterpriseLicenseLoaded) = true.
Proof. done. Qed.

(** The license check as one step. *)
Definition check_license (to : Target) (answer : option LicenseAnswer) : M Guard (option Verdict) :=
  let! s := get in
  if needs_license to (store s) then
    if negb (store s).(license).(isEnterpriseLicenseLoaded) then
      match answer with
      | Some a => modify (with_world (set_gs (enterprise_loaded a)));;; check_licensed to
      | None => ret (Some Throws)
      end
    else check_licensed to
  else ret None.

Lemma beforeEach_at_once resolve to from answer s :
  beforeEach resolve to from answer s = or_next (check_login to) (or_next (check_license to answer) (check_rest resolve to from)) s.
Proof.
  unfold beforeEach, before_license, check_license, after_license, or_next, bind, get, ret, modify.
  destruct (check_login to s) as [[v|] s1]; [done|]. destruct (needs_license to (store s1)).
  - destruct (negb _); [by destruct answer|]. unfold check_licensed, gets. destruct (negb _); [done|]. by destruct (check_rest resolve to from s1).
  - by destruct (check_rest resolve to from s1).
Qed.

Lemma check_license_spec to answer s :
  guard_ok s ->
  exists s', check_license to answer s = (decide_license to answer (store s), s') /\
    store s' = licensed_store to answer (store s) /\ guard_ok s' /\
    s'.(g_sessions) = s.(g_sessions) /\ s'.(g_pending) = s.(g_pending) /\
    s'.(localStorage) = s.(localStorage) /\ s'.(isRedirecting) = s.(isRedirecting).
Proof.
  intros Hs. unfold check_license, decide_license, licensed_store, check_licensed, gets, bind, get, ret, modify.
  destruct (needs_license to (store s)) eqn:En; cbn [andb]; [|by exists s].
  destruct (isEnterpriseLicenseLoaded _) eqn:El; cbn [negb andb]; [by exists s|].
  destruct answer as [a|]; cbn [negb andb]; [|by exists s].
  eexists. split; [reflexivity|]. split; [done|]. split; [|by splits]. by destruct Hs as [Hc Hn].
Qed.

Lemma on_world_access r s :
  guard_ok s ->
  exists s', on_world (hasRouteAccess r) s = (route_granted (store s) r, s') /\ same_store s s' /\
    s'.(localStorage) = s.(localStorage) /\ s'.(isRedirecting) = s.(isRedirecting).
Proof.
  intros Hs. unfold on_world. destruct (hasRouteAccess_reads r _ Hs) as (E1 & E2 & E3).
  destruct (hasRouteAccess r (g_world s)) as [b w]. cbn [fst snd] in *. subst b.
  eexists. split; [reflexivity|]. by splits.
Qed.

Section Cached.
Variable resolve : Location -> Target.

(** The cached route the guard would move to. *)
Definition cached_target (to from : Target) (ls : gmap jsstr jsstr) (redirecting : bool) : option jsstr :=
  match ls !! cachedRoute_key to.(activeMenu) with
  | Some c =>
      if truthy to.(activeMenu) && (to.(activeMenu) !== from.(activeMenu)) && truthy c
         && (c !== to.(path)) && negb redirecting then Some c else None
  | None => None
  end.

Definition cached_open (g : GlobalState) (c : jsstr) : bool :=
  match (resolve (ByString c)).(matched) with
  | [] => false
  | _ => route_granted g (matched_meta (resolve (ByString c)))
  end.

Lemma check_cached_spec to from s :
  guard_ok s ->
  exists s', check_cached resolve to from s =
    (match cached_target to from s.(localStorage) s.(isRedirecting) with
     | Some c => if cached_open (store s) c then Some (Redirect (ByString c)) else None
     | None => None
     end, s') /\ same_store s s' /\
    s'.(isRedirecting) =
      match cached_target to from s.(localStorage) s.(isRedirecting) with
      | Some c => cached_open (store s) c || s.(isRedirecting) | None => s.(isRedirecting) end.
Proof.
  intros Hs. unfold check_cached, cached_target, bind, get, ret, modify.
  destruct (localStorage s !! _) as [c|]; [|by exists s].
  destruct (truthy _ && _ && _ && _ && _); [|by exists s]. unfold cached_open.
  destruct (matched (resolve (ByString c))) as [|r rs] eqn:Em.
  - eexists. split; [reflexivity|]. by splits.
  - destruct (on_world_access (matched_meta (resolve (ByString c))) s Hs) as (s1 & -> & Hss & Hl & Hr).
    destruct (route_granted _ _); eexists; (split; [reflexivity|]); split; try done;
      destruct Hss as (? & ? & ? & ?); by splits.
Qed.

(** What the last part decides, as a function of the store and the cache. *)
Definition decide_route (to from : Target) (g : GlobalState) (ls : gmap jsstr jsstr) (redirecting : bool)
    : Verdict :=
  if (to.(path) === js "/apps/all") && query_given (js "install") to then Allow
  else if named to (js "Expired") then Allow
  else if query_given (js "uncached") to
  then Redirect (ByPath to.(path) (List.filter (fun e => e.1 !== js "uncached") to.(query)))
  else match cached_target to from ls redirecting with
       | Some c => if cached_open g c then Redirect (ByString c)
                   else if route_granted g (matched_meta to) then Allow else Block
       | None => if route_granted g (matched_meta to) then Allow else Block
       end.

Lemma check_access_spec to s :
  guard_ok s ->
  exists s', (let! access := on_world (hasRouteAccess (matched_meta to)) in
              if access then ret Allow else modify MsgError;;; ret Block) s
    = ((if route_granted (store s) (matched_meta to) then Allow else Block), s') /\
    same_store s s' /\ s'.(isRedirecting) = s.(isRedirecting).
Proof.
  intros Hs. destruct (on_world_access (matched_meta to) s Hs) as (s2 & E & (Eg & Hok & Hse & Hpe) & _ & Hr).
  rewrite (bind_eq _ _ _ _ _ E). destruct (route_granted _ _); eexists; (split; [reflexivity|]); by splits.
Qed.

Lemma check_route_spec to from s :
  guard_ok s ->
  exists s', check_route resolve to from s = (decide_route to from (store s) s.(localStorage) s.(isRedirecting), s') /\ same_store s s' /\
    s'.(isRedirecting) = (match decide_route to from (store s) s.(localStorage) s.(isRedirecting) with
                          | Redirect (ByString _) => true | _ => s.(isRedirecting) end).
Proof.
  intros Hs. unfold check_route, decide_route.
  destruct ((path to === _) && _) eqn:E0; [exists s; by splits|].
  destruct (named to (js "Expired")); [exists s; by splits|].
  destruct (query_given (js "uncached") to) eqn:Eu; [eexists; split; [reflexivity|]; by splits|].
  destruct (check_cached_spec to from s Hs) as (s1 & E1 & (Eg & Hok & Hse & Hpe) & Hr).
  rewrite (bind_eq _ _ _ _ _ E1).
  destruct (check_access_spec to s1 Hok) as (s2 & E2 & (Eg2 & Hok2 & Hse2 & Hpe2) & Hr2).
  rewrite Eg in *.
  assert (same_store s s2) as Hss by (unfold same_store; splits; try done; congruence).
  destruct (cached_target to from _ _) as [c|].
  - destruct (cached_open (store s) c); cbn [orb] in Hr.
    + exists s1. by splits.
    + exists s2. rewrite E2. split; [done|]. split; [done|]. destruct (route_granted _ _); congruence.
  - exists s2. rewrite E2. split; [done|]. split; [done|]. destruct (route_granted _ _); congruence.
Qed.

Definition decide_page (to : Target) (g : GlobalState) : option Verdict :=
  if named to (js "EnterpriseLicenseRequired") then
    Some (if negb g.(auth).(isLogin) then Redirect (ByName (js "entrance") to.(params) [])
          else if negb g.(tags).(isEnterprise) || g.(license).(isEnterpriseLicensed)
               then Redirect (to_name "home")
               else Allow)
  else None.

(** The guard's verdict and the store it leaves, from the store it sees. *)
Definition verdict (to from : Target) (answer : option LicenseAnswer) (g : GlobalState)
    (ls : gmap jsstr jsstr) (redirecting : bool) : Verdict * GlobalState :=
  match decide_login to g with
  | Some v => (v, g)
  | None =>
      let g' := licensed_store to answer g in
      (match decide_license to answer g with
       | Some v => v
       | None =>
           match decide_page to g' with
           | Some v => v
           | None => decide_route to from g' ls redirecting
           end
       end, g')
  end.

Lemma beforeEach_spec to from answer s :
  guard_ok s ->
  let r := verdict to from answer (entering (store s)) s.(localStorage) s.(isRedirecting) in
  exists s', beforeEach resolve to from answer s = (r.1, s') /\ store s' = r.2 /\ guard_ok s' /\
    s'.(g_sessions) = (if (store s).(auth).(isLogin) then s.(g_sessions) else closeAll s.(g_sessions)) /\
    s'.(g_pending) = removeAllPending s.(g_pending) /\
    s'.(isRedirecting) = (match r.1 with Redirect (ByString _) => true | _ => s.(isRedirecting) end).
Proof.
  intros Hs. cbv zeta. rewrite beforeEach_at_once. unfold check_rest, or_next, verdict.
  destruct (check_login_spec to s Hs) as (s1 & E1 & G1 & O1 & S1 & P1 & L1 & R1).
  rewrite (bind_eq _ _ _ _ _ E1). destruct (decide_login to (entering (store s))) as [v|] eqn:D1; cbn [fst snd].
  { exists s1. splits; try done. rewrite R1. destruct v as [| |[]|]; try done.
    unfold decide_login in D1. repeat case_in D1; discriminate D1. }
  destruct (check_license_spec to answer s1 O1) as (s2 & E2 & G2 & O2 & S2 & P2 & L2 & R2).
  rewrite (bind_eq _ _ _ _ _ E2). rewrite G1 in *.
  destruct (decide_license to answer (entering (store s))) as [v|] eqn:D2.
  { exists s2. splits; try done; try congruence. rewrite R2, R1. destruct v as [| |[]|]; try done.
    unfold decide_license in D2. repeat case_in D2; discriminate D2. }
  assert (check_license_page to s2 = (decide_page to (store s2), s2)) as E3 by done.
  rewrite (bind_eq _ _ _ _ _ E3), G2.
  destruct (decide_page to (licensed_store to answer (entering (store s)))) as [v|] eqn:D3.
  { exists s2. splits; try done; try congruence. rewrite R2, R1. destruct v as [| |[]|]; try done.
    unfold decide_page in D3. repeat case_in D3; discriminate D3. }
  destruct (check_route_spec to from s2 O2) as (s3 & E4 & (G4 & O4 & S4 & P4) & R4).
  rewrite G2, L2, L1, R2, R1 in *. exists s3. rewrite E4. by splits; try done; congruence.
Qed.
End Cached.

(** ** Properties *)

Lemma enabled_name t n : named t n = true -> String_name t = n.
Proof.
  unfold named, String_name. destruct (name t); [|done]. intros H. by apply streqb_eq in H as ->.
Qed.

Lemma entering_login g : (entering g).(auth).(isLogin) = g.(auth).(isLogin).
Proof. unfold entering. by destruct (isLogin (auth g)) eqn:E. Qed.

Lemma licensed_store_rest to answer g :
  (licensed_store to answer g).(auth) = g.(auth) /\ (licensed_store to answer g).(tags) = g.(tags).
Proof.
  unfold licensed_store. destruct (_ && _); [|done]. destruct answer; [|done].
  by destruct (enterprise_loaded_rest l g) as (-> & -> & _).
Qed.

Lemma licensed_store_out to answer g : g.(auth).(isLogin) = false -> licensed_store to answer g = g.
Proof. intros H. unfold licensed_store, needs_license. by rewrite H. Qed.

Lemma verdict_store_out resolve to from answer g ls red :
  g.(auth).(isLogin) = false -> (verdict resolve to from answer g ls red).2 = g.
Proof.
  intros H. unfold verdict. destruct (decide_login to g); [done|]. by apply licensed_store_out.
Qed.

Definition guard_reachable (locale : jsstr) (s : Guard) : Prop := reachable locale s.(g_world).

(** What opens a location in the store [g]: access to its records, or one of the
    exemptions the code makes. *)
Definition opened (to : Target) (g : GlobalState) : Prop :=
  route_ok g (matched_meta to) \/
  (String_name to = js "EnterpriseLicenseRequired" /\ g.(auth).(isLogin) = true /\
   g.(tags).(isEnterprise) = true /\ g.(license).(isEnterpriseLicensed) = false) \/
  (to.(path) = js "/apps/all" /\ query_given (js "install") to = true) \/
  String_name to = js "Expired".

(** What lets a location through that is asked for in the store [g0], when the guard has
    decided in [g]: a session, unless the page is public; a license, in the enterprise
    edition; and that it is open. *)
Definition may_enter (to : Target) (g0 g : GlobalState) : Prop :=
  (g0.(auth).(isLogin) = true \/ String_name to ∈ noLoginWhiteList) /\
  (needs_license to g0 = true -> g.(license).(isEnterpriseLicensed) = true) /\ opened to g.

(** What else happens during the await of the license: the store runs on, everything else
    may change. *)
Definition meanwhile (s s' : Guard) : Prop := star store_step s.(g_world) s'.(g_world).

Section Runs.
Variables (resolve : Location -> Target) (to from : Target).

(** A run of the guard with its verdict: it decides at once, or after the await. *)
Inductive guarded : Guard -> Verdict -> Guard -> Prop :=
| decided_at_once s v s' : before_license resolve to from s = (Decided v, s') -> guarded s v s'
| decided_after s s1 s2 answer v s' : before_license resolve to from s = (AwaitLicense, s1) -> meanwhile s1 s2 ->
    after_license resolve to from answer s2 = (v, s') -> guarded s v s'.
End Runs.

Section Safety.
Variable resolve : Location -> Target.

Lemma decide_route_safe to from g ls red :
  (decide_route resolve to from g ls red = Allow ->
   route_ok g (matched_meta to) \/ (to.(path) = js "/apps/all" /\ query_given (js "install") to = true) \/
   String_name to = js "Expired") /\
  (forall c, decide_route resolve to from g ls red = Redirect (ByString c) ->
   route_ok g (matched_meta (resolve (ByString c)))).
Proof.
  unfold decide_route. destruct ((path to === _) && _) eqn:E0.
  { apply andb_true_iff in E0 as [E0%streqb_eq ?]. split; [|done]. intros _. right. by left. }
  destruct (named to (js "Expired")) eqn:E1.
  { apply enabled_name in E1. split; [|done]. intros _. right. by right. }
  destruct (query_given (js "uncached") to); [done|].
  assert (forall v, v = (if route_granted g (matched_meta to) then Allow else Block) ->
    (v = Allow -> route_ok g (matched_meta to)) /\ (forall c, v <> Redirect c)) as Hend.
  { intros v ->. rewrite <- route_granted_spec. by destruct (route_granted _ _). }
  destruct (cached_target to from ls red) as [c|].
  - destruct (cached_open resolve g c) eqn:Ec.
    + split; [done|]. intros c' [= <-]. apply route_granted_spec. unfold cached_open in Ec.
      by destruct (matched _).
    + destruct (Hend _ eq_refl) as [H1 H2]. split; [auto|]. intros c' H. by apply H2 in H.
  - destruct (Hend _ eq_refl) as [H1 H2]. split; [auto|]. intros c' H. by apply H2 in H.
Qed.

Lemma login_passed to g : decide_login to g = None -> g.(auth).(isLogin) = true \/ String_name to ∈ noLoginWhiteList.
Proof.
  unfold decide_login. destruct (isLogin (auth g)); [by left|]. intros D. right. apply memb_elem.
  by destruct (memb (String_name to) noLoginWhiteList).
Qed.

Lemma may_enter_entering to g g' : may_enter to (entering g) g' -> may_enter to g g'.
Proof.
  intros (H1 & H2 & H3). rewrite entering_login in H1. split; [done|]. split; [|done]. intros Hn. apply H2.
  unfold entering. destruct (isLogin (auth g)) eqn:E; [done|]. unfold needs_license in Hn. by rewrite E in Hn.
Qed.

Lemma page_safe to g v : decide_page to g = Some v -> (v = Allow -> opened to g) /\ forall c, v <> Redirect (ByString c).
Proof.
  unfold decide_page. destruct (named to _) eqn:En; [|done]. intros [= <-].
  destruct (isLogin (auth g)) eqn:E1; cbn [negb]; [|done].
  destruct (isEnterprise (tags g)) eqn:E2, (isEnterpriseLicensed (license g)) eqn:E3; cbn [negb orb]; try done.
  split; [|done]. intros _. right. left. by apply enabled_name in En.
Qed.

(** The end of the guard. *)
Definition decide_rest (to from : Target) (g : GlobalState) (ls : gmap jsstr jsstr) (redirecting : bool) : Verdict :=
  match decide_page to g with Some v => v | None => decide_route resolve to from g ls redirecting end.

Lemma rest_safe to from g ls red : let v := decide_rest to from g ls red in
  (v = Allow -> opened to g) /\ forall c, v = Redirect (ByString c) -> route_ok g (matched_meta (resolve (ByString c))).
Proof.
  cbv zeta. unfold decide_rest. destruct (decide_page to g) as [v|] eqn:D.
  - destruct (page_safe to g v D) as [H1 H2]. split; [done|]. intros c Hc. by destruct (H2 c).
  - destruct (decide_route_safe to from g ls red) as [H1 H2]. split; [|done]. intros Hv. destruct (H1 Hv) as [?|[?|?]].
    + by left.
    + by right; right; left.
    + by right; right; right.
Qed.

Lemma verdict_safe to from answer g ls red :
  let '(v, g') := verdict resolve to from answer g ls red in
  (v = Allow -> may_enter to g g') /\
  (forall c, v = Redirect (ByString c) -> route_ok g' (matched_meta (resolve (ByString c)))).
Proof.
  unfold verdict. destruct (decide_login to g) as [v|] eqn:D1.
  { unfold decide_login, to_name, to_entrance in D1. split; [intros ->|intros c ->]; repeat case_in D1; discriminate D1. }
  set (g' := licensed_store to answer g). destruct (decide_license to answer g) as [v|] eqn:D2.
  { unfold decide_license in D2. split; [intros ->|intros c ->]; repeat case_in D2; discriminate D2. }
  destruct (rest_safe to from g' ls red) as [H1 H2]. split; [|exact H2]. intros Hv. split; [by apply login_passed|].
  split; [|by apply H1]. intros Hn. unfold decide_license in D2. rewrite Hn in D2. fold g' in D2.
  destruct (isEnterpriseLicensed (license g')) eqn:E3; [done|]. by case_in D2.
Qed.

Lemma check_rest_spec to from s : guard_ok s ->
  exists s', check_rest resolve to from s = (decide_rest to from (store s) s.(localStorage) s.(isRedirecting), s') /\ store s' = store s.
Proof.
  intros Hs. unfold check_rest, or_next, decide_rest. assert (check_license_page to s = (decide_page to (store s), s)) as E by done.
  rewrite (bind_eq _ _ _ _ _ E). destruct (decide_page to (store s)); [by exists s|].
  destruct (check_route_spec resolve to from s Hs) as (s' & -> & [H _] & _). by exists s'.
Qed.

(** After the await, whatever the store has become. *)
Lemma after_license_safe to from answer s v s' : guard_ok s -> after_license resolve to from answer s = (v, s') ->
  (v = Allow -> (store s').(license).(isEnterpriseLicensed) = true /\ opened to (store s')) /\
  forall c, v = Redirect (ByString c) -> route_ok (store s') (matched_meta (resolve (ByString c))).
Proof.
  intros Hs. unfold after_license. destruct answer as [a|]; [|by intros [= <- <-]]. unfold bind at 1, modify.
  set (s1 := with_world _ s). assert (H1 : guard_ok s1) by by destruct Hs.
  unfold or_next. unfold check_licensed, gets, bind at 1. destruct (isEnterpriseLicensed (license (store s1))) eqn:El; cbn [negb]; [|by intros [= <- <-]].
  destruct (check_rest_spec to from s1 H1) as (s2 & -> & E2). intros [= <- <-]. rewrite E2.
  destruct (rest_safe to from (store s1) (localStorage s1) (isRedirecting s1)) as [G1 G2]. split; [|exact G2]. intros Hv. split; [done|]. by apply G1.
Qed.

(** The guard up to the await passed its first checks. *)
Lemma awaiting_license to from s s1 : guard_ok s -> before_license resolve to from s = (AwaitLicense, s1) ->
  guard_ok s1 /\ (store s).(auth).(isLogin) = true.
Proof.
  intros Hs. destruct (check_login_spec to s Hs) as (s2 & E & G & O & _). unfold before_license. rewrite (bind_eq _ _ _ _ _ E).
  destruct (decide_login to _) as [v|]; [done|]. unfold bind at 1, get. rewrite G.
  destruct (needs_license to (entering (store s))) eqn:En; [|by unfold bind; destruct (check_rest resolve to from s2)].
  assert (Hl : isLogin (auth (store s)) = true).
  { unfold needs_license in En. rewrite entering_login in En. by destruct (isLogin (auth (store s))). }
  destruct (negb _); [intros [= <-]; done|]. unfold bind. by destruct (or_next _ _ s2).
Qed.

Lemma decided_same to from answer s v s1 : before_license resolve to from s = (Decided v, s1) -> beforeEach resolve to from answer s = (v, s1).
Proof. intros H. unfold beforeEach. by rewrite (bind_eq _ _ _ _ _ H). Qed.
End Safety.

(** C1. The guard lets a navigation through only to a location the user may enter, and moves it
    to the remembered location of a menu only if every record of that location is open to the
    user: whatever vue-router resolves, whatever is remembered, whatever the license request
    answers, and however the store changes while it is awaited.  The session is the one there
    is when the guard begins; the license and the rights are those there are when it decides. *)
Theorem beforeEach_safe locale resolve to from s v s' :
  guard_reachable locale s -> guarded resolve to from s v s' ->
  (v = Allow -> may_enter to (store s) (store s')) /\
  (forall c, v = Redirect (ByString c) -> route_ok (store s') (matched_meta (resolve (ByString c)))).
Proof.
  intros Hr H. pose proof (reachable_ok _ _ Hr) as Hs. destruct H as [s v s' H|s s1 s2 answer v s' H Hm Ha].
  - apply (decided_same _ _ _ None) in H. destruct (beforeEach_spec resolve to from None s Hs) as (s1 & E & Hst & _). rewrite E in H.
    injection H as <- <-. rewrite Hst.
    pose proof (verdict_safe resolve to from None (entering (store s)) (localStorage s) (isRedirecting s)) as Hv.
    destruct (verdict _ _ _ _ _ _) as [v g']. destruct Hv as [H1 H2]. split; [|exact H2]. intros Hv. by apply may_enter_entering, H1.
  - destruct (awaiting_license resolve to from s s1 Hs H) as (H1 & Hl).
    assert (H2 : guard_ok s2) by (apply (star_invariant store_step world_ok store_step_ok _ _ Hm H1)).
    destruct (after_license_safe resolve to from answer s2 v s' H2 Ha) as [G1 G2]. split; [|exact G2].
    intros Hv. destruct (G1 Hv) as [G3 G4]. split; [by left|]. split; [done|exact G4].
Qed.

(** A navigation without a session leaves nothing of the previous user:
    whatever the guard decides, no permission is granted afterwards, no terminal
    session or instance is left, the page states and the pending requests are
    dropped and the license status is to be loaded again. *)
Theorem beforeEach_logged_out locale resolve to from answer s v s' p :
  guard_reachable locale s -> sessions_reachable s.(g_sessions) ->
  (store s).(auth).(isLogin) = false -> beforeEach resolve to from answer s = (v, s') ->
  (hasPermission p s'.(g_world)).1 = false /\ s'.(g_sessions).(entries) = [] /\
  (forall k, s'.(g_sessions).(instances) !! k = None) /\ s'.(g_pending).(pendingMap) = [] /\
  (store s').(license).(isEnterpriseLicensed) = false /\
  (store s').(license).(isEnterpriseLicenseLoaded) = false.
Proof.
  intros Hs%reachable_ok Hse%sessions_reachable_ok Hl H.
  destruct (beforeEach_spec resolve to from answer s Hs) as (s1 & E & Hst & Hok & Hss & Hp & _).
  rewrite E in H. injection H as _ <-.
  assert (store s1 = logged_out (store s)) as Hg.
  { rewrite Hst, verdict_store_out by (by rewrite entering_login). unfold entering. by rewrite Hl. }
  rewrite Hl in Hss. rewrite Hss, Hp, Hg.
  assert (entries (closeAll (g_sessions s)) = []) as Hnil.
  { cbn. apply filter_none. intros o Ho. by apply (ok_live _ Hse) in Ho as [e ->]. }
  split; [|split; [done|split; [|done]]].
  - apply not_true_iff_false. destruct (hasPermission_reads p _ Hok) as (-> & _ & _).
    change (gs (g_world s1)) with (store s1). rewrite grantedb_spec, Hg.
    intros (_ & _ & [?|[H|(m & _ & _ & H)]]); [done|inversion H|inversion H].
  - apply no_instances; [by apply removeWhere_ok|done].
Qed.

(** A user of the enterprise edition whose license is to be loaded opens the
    websites, and the files are remembered for their menu. *)
Definition sample_target (n p menu : string) (perm : PermissionValue) : Target :=
  {| name := Some (js n); path := js p; query := []; params := []; activeMenu := js menu;
     ignoreTab := false; matched := [ {| r_path := js p; r_meta := sample_meta perm |} ] |}.

Definition sample_guard (login : bool) : Guard := {|
  g_world := (setLogStatus login (sample_world false (js "local") [js "website_view"] [])).2;
  g_pending := (addPending id (sample_request (js "/files/search")) initial_pending).2;
  g_sessions := sample_opened; localStorage := {[ cachedRoute_key (js "/websites") := js "/websites/ssl" ]};
  isRedirecting := false; messages := 0 |}.

Definition sample_resolve (l : Location) : Target :=
  match l with
  | ByString _ => sample_target "SSL" "/websites/ssl" "/websites" (PStr (js "website_view"))
  | _ => sample_target "login" "/login" "" PUndef
  end.

Lemma sample_guard_reachable login : guard_reachable (js "en") (sample_guard login).
Proof.
  unfold guard_reachable, reachable.
  apply (star_trans _ _ (sample_world false (js "local") [js "website_view"] []));
    [by apply sample_world_reachable, no_newline_dec|].
  apply star_one, step_setLogStatus.
Qed.

(** A user of the enterprise edition opens the websites; the license is asked for, and the
    user switches the node before it is answered. *)
Definition enterprise_guard : Guard :=
  with_world (set_gs (set_tags (with_edition true false false false))) (sample_guard true).
Definition websites : Target := sample_target "Website" "/websites" "/websites" (PStr (js "website_view")).
Definition bound_license : option LicenseAnswer := Some (Some {| l_status := js "Bound"; l_productPro := 7 |}).
Definition switched (s : Guard) : Guard := with_world (switch_node (js "edge1")) s.

Lemma beforeEach_safe_witness :
  let s1 := switched (before_license sample_resolve websites websites enterprise_guard).2 in
  let r := after_license sample_resolve websites websites bound_license s1 in
  r.1 = Allow /\ may_enter websites (store enterprise_guard) (store r.2).
Proof.
  cbv zeta. set (s1 := switched _). split; [vm_compute; reflexivity|].
  refine (proj1 (beforeEach_safe (js "en") sample_resolve websites websites enterprise_guard
    (after_license sample_resolve websites websites bound_license s1).1
    (after_license sample_resolve websites websites bound_license s1).2 _ _) _).
  - apply (star_trans _ _ (sample_guard true).(g_world)); [apply sample_guard_reachable|].
    apply star_one, step_assign_edition.
  - apply (decided_after _ _ _ _ (before_license sample_resolve websites websites enterprise_guard).2 s1 bound_license).
    + by rewrite (surjective_pairing (before_license _ _ _ _)).
    + apply star_one, step_switch_node.
    + apply surjective_pairing.
  - vm_compute. reflexivity.
Defined.

(** Without a license the guard leads to the page that asks for one; with rights that were
    taken away meanwhile it refuses the location. *)
Example unlicensed_redirected :
  (after_license sample_resolve websites websites (Some None) (before_license sample_resolve websites websites enterprise_guard).2).1 =
  Redirect (ByName (js "EnterpriseLicenseRequired") [] [(js "code", QStr [])]).
Proof. vm_compute. reflexivity. Qed.

Example revoked_refused :
  (after_license sample_resolve websites websites bound_license
    (with_world (fun w => (clearAuthInfo w).2) (before_license sample_resolve websites websites enterprise_guard).2)).1 = Block.
Proof. vm_compute. reflexivity. Qed.

Lemma beforeEach_logged_out_witness :
  let to := sample_target "Website" "/websites" "/websites" (PStr (js "website_view")) in
  let r := beforeEach sample_resolve to to None (sample_guard false) in
  (hasPermission (js "website_view") r.2.(g_world)).1 = false /\ r.2.(g_sessions).(entries) = [] /\
  (forall k, r.2.(g_sessions).(instances) !! k = None) /\ r.2.(g_pending).(pendingMap) = [] /\
  (store r.2).(license).(isEnterpriseLicensed) = false /\
  (store r.2).(license).(isEnterpriseLicenseLoaded) = false.
Proof.
  cbv zeta. set (to := sample_target _ _ _ _).
  apply (beforeEach_logged_out (js "en") sample_resolve to to None (sample_guard false)
    (beforeEach sample_resolve to to None (sample_guard false)).1).
  - apply sample_guard_reachable.
  - apply star_one. apply (s_open (js "local") (js "u1") (js "root") 0 [] [] []);
      [apply fresh_initial|vm_compute; reflexivity].
  - reflexivity.
  - apply surjective_pairing.
Defined.
