(* ===== verification/RouteTable.v ===== *)
(** * The route table

    src/frontend/src/routers/modules/*.ts and routers/router.ts: every route the
    panel declares, as data, and the lists router.ts builds from them. *)

From Stdlib Require Import Strings.String Strings.Ascii Sorting.Sorted.
From S2P Require Import Prelude JsString GlobalStore Access.

Local Open Scope string_scope.
Local Open Scope list_scope.

(** ** Routes as the modules write them *)

Inductive PermissionField := One (p : string) | Many (ps : list string).

Inductive MetaField :=
| Title (s : string) | Icon (s : string) | ParentTitle (s : string) | Detail (s : string) | Key (s : string)
| ActiveMenu (s : string) | Permission (p : PermissionField)
| AdminOnly (b : bool) | ProtectedRoleOnly (b : bool) | IgnoreTab (b : bool) | RequiresAuth (b : bool).

(** A component is the module it is imported from; the only redirect that is a
    function is redirectToAvailableSetting. *)
Inductive Field :=
| Sort (n : Z) | Name (s : string) | Component (s : string) | Props (b : bool) | Hidden (b : bool)
| RedirectTo (s : string) | RedirectName (s : string) | RedirectFn.

#[warnings="-register-all"]
Inductive Route :=
| route (path : string) (fields : list Field) (meta : option (list MetaField)) (children : option (list Route)).

Definition Modules : Type := list (string * option Route).

Definition path (r : Route) : string := match r with route p _ _ _ => p end.
Definition fields (r : Route) : list Field := match r with route _ f _ _ => f end.
Definition meta (r : Route) : option (list MetaField) := match r with route _ _ m _ => m end.
Definition children (r : Route) : option (list Route) := match r with route _ _ _ c => c end.

(** The first field a selector finds. *)
Definition pick {A B} (f : A -> option B) (l : list A) : option B := head (omap f l).

Definition name (r : Route) : option string :=
  pick (fun x => match x with Name s => Some s | _ => None end) (fields r).
Definition sort_key (r : Route) : option Z :=
  pick (fun x => match x with Sort n => Some n | _ => None end) (fields r).
Definition hidden (r : Route) : option bool :=
  pick (fun x => match x with Hidden b => Some b | _ => None end) (fields r).
Definition redirect (r : Route) : option Field :=
  pick (fun x => match x with RedirectTo _ | RedirectName _ | RedirectFn => Some x | _ => None end) (fields r).

Definition activeMenu (m : list MetaField) : option string :=
  pick (fun x => match x with ActiveMenu s => Some s | _ => None end) m.
Definition permission_field (m : list MetaField) : option PermissionField :=
  pick (fun x => match x with Permission p => Some p | _ => None end) m.
Definition flag (f : MetaField -> option bool) (m : list MetaField) : bool := default false (pick f m).

Definition permission_value (p : option PermissionField) : PermissionValue :=
  match p with
  | None => PUndef
  | Some (One s) => PStr (js s)
  | Some (Many l) => PList (List.map js l)
  end.

(** What rbac.ts reads of a record's meta. *)
Definition access_meta (r : Route) : option Meta :=
  match meta r with
  | None => None
  | Some m => Some {|
      adminOnly := flag (fun x => match x with AdminOnly b => Some b | _ => None end) m;
      protectedRoleOnly := flag (fun x => match x with ProtectedRoleOnly b => Some b | _ => None end) m;
      permission := permission_value (permission_field m) |}
  end.

(** ** The modules *)

(** modules/ai.ts *)
Definition aiRouter : Route :=
  route "/ai"
    [Sort 4; Name "AI-Menu"; Component "Layout"; RedirectTo "/ai/model/account"]
    (Some [Icon "p-jiqiren2"; Title "menu.aiTools"])
    (Some [
      route "/ai/agents/agent"
        [Name "Agents"; Component "@/views/ai/agents/agent/index.vue"]
        (Some [Icon "p-jiqiren2"; Title "aiTools.agents.agent"; Permission (One "ai_agent_view")])
        None;
      route "/ai/model/account"
        [Name "AIModel"; Component "@/views/ai/model/index.vue"]
        (Some [Icon "p-moxing-menu"; Title "aiTools.model.model"; Permission (One "ai_model_view")])
        None;
      route "/ai/model/local"
        [Hidden true; Name "LocalModel"; Component "@/views/ai/model/index.vue"]
        (Some [Title "aiTools.model.localModel"; ActiveMenu "/ai/model/account";
          Permission (One "ai_model_view")])
        None;
      route "/ai/mcp"
        [Name "MCPServer"; Component "@/views/ai/mcp/server/index.vue"]
        (Some [Icon "p-mcp-menu"; Title "menu.mcp"; Permission (One "ai_mcp_view")])
        None;
      route "/ai/gpu/current"
        [Name "GPU"; Component "@/views/ai/gpu/current/index.vue"]
        (Some [Icon "p-gpu-menu"; Title "aiTools.gpu.gpu"; ActiveMenu "/ai/gpu/current";
          Permission (One "ai_gpu_view")])
        None;
      route "/ai/gpu/history"
        [Name "GPUHistory"; Component "@/views/ai/gpu/history/index.vue"; Hidden true]
        (Some [Title "aiTools.gpu.history"; ActiveMenu "/ai/gpu/current";
          Permission (One "ai_gpu_view")])
        None]).

(** modules/app-store.ts *)
Definition appStoreRouter : Route :=
  route "/apps"
    [Sort 2; Name "App-Menu"; Component "Layout"; RedirectTo "/apps/all"]
    (Some [Icon "p-appstore"; Title "menu.apps"; Permission (One "app_view")])
    (Some [
      route "/apps"
        [Name "App"; RedirectTo "/apps/all"; Component "@/views/app-store/index.vue"]
        (Some [Permission (One "app_view")])
        (Some [
          route "all"
            [Name "AppAll"; Component "@/views/app-store/apps/index.vue"; Props true; Hidden true]
            (Some [ActiveMenu "/apps"; ParentTitle "menu.app"; Title "app.all";
              Permission (One "app_view")])
            None;
          route "installed"
            [Name "AppInstalled"; Component "@/views/app-store/installed/index.vue"; Props true;
              Hidden true]
            (Some [ActiveMenu "/apps"; ParentTitle "menu.app"; Title "app.installed";
              Permission (One "app_view")])
            None;
          route "upgrade"
            [Name "AppUpgrade"; Component "@/views/app-store/installed/index.vue"; Props true;
              Hidden true]
            (Some [ActiveMenu "/apps"; ParentTitle "menu.app"; Title "app.canUpgrade";
              Permission (One "app_view")])
            None;
          route "setting"
            [Name "AppStoreSetting"; Component "@/views/app-store/setting/index.vue"; Props true;
              Hidden true]
            (Some [ActiveMenu "/apps"; ParentTitle "menu.app"; Title "commons.button.set";
              Permission (One "app_view")])
            None])]).

(** modules/container.ts *)
Definition containerRouter : Route :=
  route "/containers"
    [Sort 6; Name "Container-Menu"; Component "Layout"; RedirectTo "/containers/container"]
    (Some [Icon "p-docker1"; Title "menu.container"; Permission (One "container_view")])
    (Some [
      route "/containers"
        [Name "Container"; RedirectTo "/containers/dashboard";
          Component "@/views/container/index.vue"]
        (Some [])
        (Some [
          route "dashboard"
            [Name "ContainerDashboard"; Component "@/views/container/dashboard/index.vue";
              Props true; Hidden true]
            (Some [ActiveMenu "/containers"; ParentTitle "menu.container"; Title "menu.home";
              Permission (One "container_view")])
            None;
          route "container"
            [Name "ContainerItem"; Component "@/views/container/container/index.vue"; Props true;
              Hidden true]
            (Some [ActiveMenu "/containers"; ParentTitle "menu.container"; Title "menu.container";
              Permission (One "container_view")])
            None;
          route "container/operate"
            [Name "ContainerCreate"; Component "@/views/container/container/operate/index.vue";
              Props true; Hidden true]
            (Some [ActiveMenu "/containers"; IgnoreTab true; Permission (One "container_view")])
            None;
          route "image"
            [Name "Image"; Component "@/views/container/image/index.vue"; Hidden true]
            (Some [ActiveMenu "/containers"; ParentTitle "menu.container"; Title "container.image";
              Permission (One "container_view")])
            None;
          route "network"
            [Name "Network"; Component "@/views/container/network/index.vue"; Hidden true]
            (Some [ActiveMenu "/containers"; ParentTitle "menu.container"; Title "container.network";
              Permission (One "container_view")])
            None;
          route "volume"
            [Name "Volume"; Component "@/views/container/volume/index.vue"; Hidden true]
            (Some [ActiveMenu "/containers"; ParentTitle "menu.container"; Title "container.volume";
              Permission (One "container_view")])
            None;
          route "repo"
            [Name "Repo"; Component "@/views/container/repo/index.vue"; Hidden true]
            (Some [ActiveMenu "/containers"; ParentTitle "menu.container"; Title "container.repo";
              Permission (One "container_view")])
            None;
          route "compose"
            [Name "Compose"; Component "@/views/container/compose/index.vue"; Hidden true]
            (Some [ActiveMenu "/containers"; ParentTitle "menu.container"; Title "container.compose";
              Permission (One "container_view")])
            None;
          route "template"
            [Name "ComposeTemplate"; Component "@/views/container/template/index.vue";
              Hidden true]
            (Some [ActiveMenu "/containers"; ParentTitle "menu.container";
              Title "container.composeTemplate"; Permission (One "container_view")])
            None;
          route "setting"
            [Name "ContainerSetting"; Component "@/views/container/setting/index.vue";
              Hidden true]
            (Some [ActiveMenu "/containers"; ParentTitle "menu.container"; Title "container.setting";
              Permission (One "container_view")])
            None])]).

(** modules/cronjob.ts *)
Definition cronRouter : Route :=
  route "/cronjobs"
    [Sort 9; Name "Cronjob-Menu"; Component "Layout"; RedirectTo "/cronjobs/cronjob"]
    (Some [Icon "p-plan"; Title "menu.cronjob"; Permission (One "cronjob_view")])
    (Some [
      route "/cronjobs"
        [Name "Cronjob"; RedirectTo "/cronjobs/cronjob"; Component "@/views/cronjob/index.vue"]
        (Some [])
        (Some [
          route "cronjob"
            [Name "CronjobItem"; Component "@/views/cronjob/cronjob/index.vue"; Hidden true]
            (Some [ActiveMenu "/cronjobs"; Title "menu.cronjob"; Permission (One "cronjob_view")])
            None;
          route "cronjob/operate"
            [Name "CronjobOperate"; Component "@/views/cronjob/cronjob/operate/index.vue";
              Hidden true]
            (Some [ActiveMenu "/cronjobs"; IgnoreTab true; Permission (One "cronjob_view")])
            None;
          route "library"
            [Name "Library"; Component "@/views/cronjob/library/index.vue"; Hidden true]
            (Some [ActiveMenu "/cronjobs"; Title "cronjob.library.library";
              Permission (One "cronjob_view")])
            None])]).

(** modules/database.ts *)
Definition databaseRouter : Route :=
  route "/databases"
    [Sort 5; Name "Database-Menu"; Component "Layout"; RedirectTo "/databases/mysql"]
    (Some [Icon "p-database"; Title "menu.database"; Permission (One "database_view")])
    (Some [
      route "/databases"
        [Name "Database"; RedirectTo "/databases/mysql"; Component "@/views/database/index.vue"]
        (Some [])
        (Some [
          route "mysql"
            [Name "MySQL"; Component "@/views/database/mysql/index.vue"; Hidden true]
            (Some [ActiveMenu "/databases"; ParentTitle "menu.database"; Title "MySQL";
              Permission (One "database_view")])
            None;
          route "mysql/setting/:type/:database"
            [Name "MySQL-Setting"; Component "@/views/database/mysql/setting/index.vue";
              Props true; Hidden true]
            (Some [ActiveMenu "/databases"; IgnoreTab true; Permission (One "database_view")])
            None;
          route "mysql/remote"
            [Name "MySQL-Remote"; Component "@/views/database/mysql/remote/index.vue";
              Hidden true]
            (Some [ActiveMenu "/databases"; ParentTitle "menu.database"; Title "MySQL";
              Detail "database.remote"; Permission (One "database_view")])
            None;
          route "postgresql"
            [Name "PostgreSQL"; Component "@/views/database/postgresql/index.vue"; Hidden true]
            (Some [ActiveMenu "/databases"; ParentTitle "menu.database"; Title "PostgreSQL";
              Permission (One "database_view")])
            None;
          route "postgresql/remote"
            [Name "PostgreSQL-Remote"; Component "@/views/database/postgresql/remote/index.vue";
              Hidden true]
            (Some [ActiveMenu "/databases"; ParentTitle "menu.database"; Title "PostgreSQL";
              Detail "database.remote"; Permission (One "database_view")])
            None;
          route "postgresql/setting/:type/:database"
            [Name "PostgreSQL-Setting"; Component "@/views/database/postgresql/setting/index.vue";
              Props true; Hidden true]
            (Some [ActiveMenu "/databases"; IgnoreTab true; Permission (One "database_view")])
            None;
          route "redis"
            [Name "Redis"; Component "@/views/database/redis/index.vue"; Hidden true]
            (Some [ActiveMenu "/databases"; ParentTitle "menu.database"; Title "Redis";
              Permission (One "database_view")])
            None;
          route "redis/remote"
            [Name "Redis-Remote"; Component "@/views/database/redis/remote/index.vue";
              Hidden true]
            (Some [ActiveMenu "/databases"; ParentTitle "menu.database"; Title "Redis";
              Detail "database.remote"; Permission (One "database_view")])
            None;
          route "mongodb"
            [Name "MongoDB"; Component "@/views/database/mongodb/index.vue"; Hidden true]
            (Some [ActiveMenu "/databases"; RequiresAuth false; ParentTitle "menu.database";
              Title "MongoDB"; Permission (One "database_view")])
            None;
          route "mongodb/remote"
            [Name "MongoDB-Remote"; Component "@/views/database/mongodb/remote/index.vue";
              Hidden true]
            (Some [ActiveMenu "/databases"; RequiresAuth false; ParentTitle "menu.database";
              Title "MongoDB"; Detail "database.remote"; Permission (One "database_view")])
            None])]).

(** modules/error.ts *)
Definition errorRouter : Route :=
  route "/error"
    [Component "Layout"]
    None
    (Some [
      route "404"
        [Name "404"; Hidden true; Component "@/components/error-message/404.vue"]
        (Some [Title "commons.msg.notFound"; Key "404"])
        None]).

(** modules/host.ts *)
Definition hostRouter : Route :=
  route "/hosts"
    [Sort 7; Name "System-Menu"; Component "Layout"; RedirectTo "/hosts/security"]
    (Some [Icon "p-host"; Title "menu.system"])
    (Some [
      route "/hosts/files"
        [Name "File"; Props true; Component "@/views/host/file-management/index.vue"]
        (Some [Icon "p-file-menu"; Title "menu.files"; Permission (One "host_file_view")])
        None;
      route "/hosts/monitor/monitor"
        [Name "Monitorx"; Component "@/views/host/monitor/monitor/index.vue"]
        (Some [Icon "p-system-monitor-menu"; Title "menu.monitor"; Permission (One "host_monitor_view")])
        None;
      route "/hosts/monitor/setting"
        [Name "HostMonitorSetting"; Component "@/views/host/monitor/setting/index.vue";
          Hidden true]
        (Some [ActiveMenu "/hosts/monitor/monitor"; Title "menu.monitor"; Detail "commons.button.set";
          Permission (One "host_monitor_view")])
        None;
      route "/hosts/firewall/rules"
        [Name "FirewallPort"; Component "@/views/host/firewall/rule/index.vue"]
        (Some [Icon "p-firewalld-menu"; ActiveMenu "/hosts/firewall/rules"; Title "menu.firewall";
          Permission (One "host_firewall_view")])
        None;
      route "/hosts/firewall/docker"
        [Name "FirewallDockerGuard"; Component "@/views/host/firewall/docker/index.vue";
          Hidden true]
        (Some [ActiveMenu "/hosts/firewall/rules"; ParentTitle "menu.firewall";
          Title "firewall.dockerGuard"; Permission (One "host_firewall_view")])
        None;
      route "/hosts/firewall/forward"
        [Name "FirewallForward"; Component "@/views/host/firewall/forward/index.vue"; Hidden true]
        (Some [ActiveMenu "/hosts/firewall/rules"; ParentTitle "menu.firewall";
          Title "firewall.forwardRule"; Permission (One "host_firewall_view")])
        None;
      route "/hosts/firewall/setting"
        [Name "FirewallSetting"; Component "@/views/host/firewall/setting/index.vue"; Hidden true]
        (Some [ActiveMenu "/hosts/firewall/rules"; ParentTitle "menu.firewall";
          Title "commons.button.set"; Permission (One "host_firewall_view")])
        None;
      route "/hosts/disk"
        [Name "Disk"; Props true; Component "@/views/host/disk-management/disk/index.vue"]
        (Some [Icon "p-disk-menu"; Title "menu.disk"; Permission (One "host_disk_view")])
        None;
      route "/hosts/process/process"
        [Name "Process"; Component "@/views/host/process/process/index.vue"]
        (Some [Icon "p-process-menu"; Title "menu.processManage"; Detail "menu.process";
          ActiveMenu "/hosts/process/process"; Permission (One "host_process_view")])
        None;
      route "/hosts/process/network"
        [Name "ProcessNetwork"; Hidden true; Component "@/views/host/process/network/index.vue"]
        (Some [ParentTitle "menu.processManage"; Title "menu.network";
          ActiveMenu "/hosts/process/process"; Permission (One "host_process_view")])
        None;
      route "/hosts/ssh/ssh"
        [Name "SSH"; Component "@/views/host/ssh/ssh/index.vue"]
        (Some [Icon "p-ssh-menu"; Title "menu.ssh"; Detail "menu.config"; ActiveMenu "/hosts/ssh/ssh";
          Permission (One "host_ssh_view")])
        None;
      route "/hosts/ssh/log"
        [Name "SSHLog"; Component "@/views/host/ssh/log/index.vue"; Hidden true]
        (Some [ParentTitle "menu.ssh"; Title "ssh.loginLogs"; ActiveMenu "/hosts/ssh/ssh";
          Permission (One "host_ssh_view")])
        None;
      route "/hosts/ssh/session"
        [Name "SSHSession"; Component "@/views/host/ssh/session/index.vue"; Hidden true]
        (Some [ParentTitle "menu.ssh"; Title "ssh.session"; ActiveMenu "/hosts/ssh/ssh";
          Permission (One "host_ssh_view")])
        None]).

(** modules/log.ts *)
Definition logsRouter : Route :=
  route "/logs"
    [Sort 11; Name "Log-Menu"; Component "Layout"; RedirectTo "/logs/operation"]
    (Some [Title "menu.logs"; Icon "p-log"; Permission (One "log_view")])
    (Some [
      route "/logs"
        [Name "Log"; RedirectTo "/logs/operation"; Component "@/views/log/index.vue"]
        (Some [])
        (Some [
          route "operation"
            [Name "OperationLog"; Component "@/views/log/operation/index.vue"; Hidden true]
            (Some [ParentTitle "menu.logs"; Title "logs.operation"; ActiveMenu "/logs";
              Permission (One "log_view")])
            None;
          route "login"
            [Name "LoginLog"; Component "@/views/log/login/index.vue"; Hidden true]
            (Some [ParentTitle "menu.logs"; Title "logs.login"; ActiveMenu "/logs";
              Permission (One "log_view")])
            None;
          route "website"
            [Name "WebsiteLog"; Component "@/views/log/website/index.vue"; Hidden true]
            (Some [ParentTitle "menu.logs"; Title "logs.websiteLog"; ActiveMenu "/logs";
              Permission (One "log_view")])
            None;
          route "system"
            [Name "SystemLog"; Component "@/views/log/system/index.vue"; Hidden true]
            (Some [ParentTitle "menu.logs"; Title "logs.system"; ActiveMenu "/logs";
              Permission (One "log_view")])
            None;
          route "host"
            [Name "HostSystemLog"; Component "@/views/log/host-system/index.vue"; Hidden true]
            (Some [ParentTitle "menu.logs"; Title "logs.hostSystem"; ActiveMenu "/logs";
              Permission (One "log_view")])
            None;
          route "ssh"
            [Name "SSHLog2"; Component "@/views/host/ssh/log/log.vue"; Hidden true]
            (Some [ParentTitle "menu.logs"; Title "ssh.loginLogs"; ActiveMenu "/logs";
              Permission (One "log_view")])
            None;
          route "task"
            [Name "Task"; Component "@/views/log/task/index.vue"; Hidden true]
            (Some [ParentTitle "menu.logs"; Title "logs.task"; ActiveMenu "/logs";
              Permission (One "log_view")])
            None])]).

(** modules/setting.ts *)
Definition settingRouter : Route :=
  route "/settings"
    [Sort 12; Name "Setting-Menu"; Component "Layout"; RedirectFn]
    (Some [Title "menu.settings"; Icon "p-config"; Permission (Many ["alert_view"; "backup_view"])])
    (Some [
      route "/settings"
        [Name "Setting"; RedirectFn; Component "@/views/setting/index.vue"]
        (Some [Permission (Many ["alert_view"; "backup_view"])])
        (Some [
          route "panel"
            [Name "Panel"; Component "@/views/setting/panel/index.vue"; Hidden true]
            (Some [ParentTitle "menu.settings"; Title "setting.panel"; ActiveMenu "/settings";
              AdminOnly true])
            None;
          route "alert"
            [Name "Alert"; Component "@/views/setting/alert/index.vue"; Hidden true]
            (Some [ParentTitle "menu.settings"; Title "xpack.alert.alertNotice"; ActiveMenu "/settings";
              Permission (One "alert_view")])
            None;
          route "backupaccount"
            [Name "BackupAccount"; Component "@/views/setting/backup-account/index.vue";
              Hidden true]
            (Some [ParentTitle "menu.settings"; Title "setting.backupAccount"; ActiveMenu "/settings";
              Permission (One "backup_view")])
            None;
          route "license"
            [Name "License"; Component "@/views/setting/license/index.vue"; Hidden true]
            (Some [ParentTitle "menu.settings"; Title "setting.license"; ActiveMenu "/settings";
              AdminOnly true])
            None;
          route "about"
            [Name "About"; Component "@/views/setting/about/index.vue"; Hidden true]
            (Some [ParentTitle "menu.settings"; Title "setting.about"; ActiveMenu "/settings";
              AdminOnly true])
            None;
          route "safe"
            [Name "Safe"; Component "@/views/setting/safe/index.vue"; Hidden true]
            (Some [ParentTitle "menu.settings"; Title "setting.safe"; ActiveMenu "/settings";
              AdminOnly true])
            None;
          route "snapshot"
            [Name "Snapshot"; Hidden true; Component "@/views/setting/snapshot/index.vue"]
            (Some [ParentTitle "menu.settings"; Title "setting.snapshot"; ActiveMenu "/settings";
              AdminOnly true])
            None;
          route "expired"
            [Name "Expired"; Hidden true; Component "@/views/setting/expired.vue"]
            (Some [ActiveMenu "/settings"; IgnoreTab true])
            None])]).

(** modules/terminal.ts *)
Definition terminalRouter : Route :=
  route "/terminal"
    [Sort 8; Name "Terminal-Menu"; Component "Layout"; RedirectTo "/terminal"]
    (Some [Title "menu.terminal"; Icon "p-terminal2"; ProtectedRoleOnly true])
    (Some [
      route "/terminal"
        [Name "Terminal"; Props true; Component "@/views/terminal/index.vue"]
        (Some [ProtectedRoleOnly true])
        None]).

(** modules/toolbox.ts *)
Definition toolboxRouter : Route :=
  route "/toolbox"
    [Sort 9; Name "Toolbox-Menu"; Component "Layout"; RedirectTo "/toolbox/supervisor"]
    (Some [Title "menu.toolbox"; Icon "p-toolbox"; Permission (One "toolbox_view")])
    (Some [
      route "/toolbox"
        [Name "Toolbox"; RedirectTo "/toolbox/device"; Component "@/views/toolbox/index.vue"]
        (Some [])
        (Some [
          route "device"
            [Name "Device"; Component "@/views/toolbox/device/index.vue"; Hidden true]
            (Some [ParentTitle "menu.toolbox"; Title "toolbox.device.toolbox"; ActiveMenu "/toolbox";
              Permission (One "toolbox_view")])
            None;
          route "supervisor"
            [Name "Supervisor"; Component "@/views/toolbox/supervisor/index.vue"; Hidden true]
            (Some [ParentTitle "menu.toolbox"; Title "menu.supervisor"; ActiveMenu "/toolbox";
              Permission (One "toolbox_view")])
            None;
          route "clam"
            [Name "Clam"; Component "@/views/toolbox/clam/index.vue"; Hidden true]
            (Some [ParentTitle "menu.toolbox"; Title "toolbox.clam.clam"; ActiveMenu "/toolbox";
              Permission (One "toolbox_view")])
            None;
          route "clam/setting"
            [Name "Clam-Setting"; Component "@/views/toolbox/clam/setting/index.vue"; Hidden true]
            (Some [IgnoreTab true; ActiveMenu "/toolbox"; Permission (One "toolbox_view")])
            None;
          route "ftp"
            [Name "FTP"; Component "@/views/toolbox/ftp/index.vue"; Hidden true]
            (Some [ParentTitle "menu.toolbox"; Title "FTP"; ActiveMenu "/toolbox";
              Permission (One "toolbox_view")])
            None;
          route "fail2ban"
            [Name "Fail2ban"; Component "@/views/toolbox/fail2ban/index.vue"; Hidden true]
            (Some [ParentTitle "menu.toolbox"; Title "Fail2Ban"; ActiveMenu "/toolbox";
              Permission (One "toolbox_view")])
            None;
          route "clean"
            [Name "Clean"; Component "@/views/toolbox/clean/index.vue"; Hidden true]
            (Some [ParentTitle "menu.toolbox"; Title "setting.diskClean"; ActiveMenu "/toolbox";
              Permission (One "toolbox_view")])
            None])]).

(** modules/website.ts *)
Definition webSiteRouter : Route :=
  route "/websites"
    [Sort 3; Name "Website-Menu"; Component "Layout"; RedirectTo "/websites"]
    (Some [Icon "p-website"; Title "menu.website"])
    (Some [
      route "/websites"
        [Name "Website"; Component "@/views/website/website/index.vue"]
        (Some [Icon "p-website"; Title "menu.website"; Permission (One "website_view")])
        None;
      route "/websites/:id/config/:tab"
        [Name "WebsiteConfig"; Component "@/views/website/website/config/index.vue"; Hidden true;
          Props true]
        (Some [ActiveMenu "/websites"; IgnoreTab true; Permission (One "website_view")])
        None;
      route "/websites/ssl"
        [Name "SSL"; Component "@/views/website/ssl/index.vue"]
        (Some [Icon "p-ssl-menu"; Title "menu.ssl"; Permission (One "website_cert_view")])
        None;
      route "/websites/templates"
        [Name "WebsiteTemplate"; Component "@/views/website/template/index.vue"]
        (Some [Icon "p-file-html"; Title "menu.template"; Permission (One "website_view")])
        None;
      route "/websites/runtimes/php"
        [Name "PHP"; Component "@/views/website/runtime/php/index.vue"]
        (Some [Icon "p-run-menu"; Title "menu.runtime"; Detail "PHP";
          ActiveMenu "/websites/runtimes/php"; Permission (One "website_runtime_view")])
        None;
      route "/websites/runtimes/node"
        [Name "node"; Hidden true; Component "@/views/website/runtime/node/index.vue"]
        (Some [Title "menu.runtime"; Detail "Node"; ActiveMenu "/websites/runtimes/php";
          Permission (One "website_runtime_view")])
        None;
      route "/websites/runtimes/java"
        [Name "java"; Hidden true; Component "@/views/website/runtime/java/index.vue"]
        (Some [Title "menu.runtime"; Detail "Java"; ActiveMenu "/websites/runtimes/php";
          Permission (One "website_runtime_view")])
        None;
      route "/websites/runtimes/go"
        [Name "go"; Hidden true; Component "@/views/website/runtime/go/index.vue"]
        (Some [Title "menu.runtime"; Detail "Go"; ActiveMenu "/websites/runtimes/php";
          Permission (One "website_runtime_view")])
        None;
      route "/websites/runtimes/python"
        [Name "python"; Hidden true; Component "@/views/website/runtime/python/index.vue"]
        (Some [Title "menu.runtime"; Detail "Python"; ActiveMenu "/websites/runtimes/php";
          Permission (One "website_runtime_view")])
        None;
      route "/websites/runtimes/dotnet"
        [Name "dotNet"; Hidden true; Component "@/views/website/runtime/dotnet/index.vue"]
        (Some [Title "menu.runtime"; Detail ".Net"; ActiveMenu "/websites/runtimes/php";
          Permission (One "website_runtime_view")])
        None]).

(** import.meta.glob('./modules/*.ts'), in the order of the file names *)
Definition modules : Modules :=
  [ ("./modules/ai.ts", Some aiRouter);
    ("./modules/app-store.ts", Some appStoreRouter);
    ("./modules/container.ts", Some containerRouter);
    ("./modules/cronjob.ts", Some cronRouter);
    ("./modules/database.ts", Some databaseRouter);
    ("./modules/error.ts", Some errorRouter);
    ("./modules/host.ts", Some hostRouter);
    ("./modules/log.ts", Some logsRouter);
    ("./modules/setting.ts", Some settingRouter);
    ("./modules/terminal.ts", Some terminalRouter);
    ("./modules/toolbox.ts", Some toolboxRouter);
    ("./modules/website.ts", Some webSiteRouter) ].


(** modules/setting.ts: where the settings menu leads. *)
Definition redirectToAvailableSetting : M World string :=
  let! w := get in
  if w.(gs).(tags).(isAdmin) then ret "/settings/panel"
  else
    let! alert := hasPermission (js "alert_view") in
    if alert then ret "/settings/alert"
    else
      let! backup := hasPermission (js "backup_view") in
      if backup then ret "/settings/backupaccount" else ret "/settings/panel".

(** ** router.ts *)

(** r.sort ??= Number.MAX_VALUE; r1.sort - r2.sort < 0 *)
Definition sorts_before (r1 r2 : Route) : bool :=
  match sort_key r1, sort_key r2 with
  | Some a, Some b => (a <? b)%Z
  | Some _, None => true
  | None, _ => false
  end.

(** Array.prototype.sort is stable. *)
Fixpoint insert_route (r : Route) (l : list Route) : list Route :=
  match l with
  | [] => [r]
  | r' :: l' => if sorts_before r r' then r :: l else r' :: insert_route r l'
  end.
Definition sort_routes (l : list Route) : list Route := foldl (fun acc r => insert_route r acc) [] l.

Definition homeRouter : Route :=
  route "/" [Name "Home-Menu"; Component "Layout"; RedirectTo "/"]
    (Some [Title "menu.home"; Icon "p-home"])
    (Some [route "/" [Name "home"; Component "@/views/home/index.vue"] None None]).

(** [ms] are the modules together with the extensions' routes. *)
Definition rolesRoutes (ms : Modules) : list Route := sort_routes (omap snd ms).

Definition routerArray (ms : Modules) : list Route := rolesRoutes ms.

Definition shown (r : Route) : bool := match hidden r with None | Some false => true | Some true => false end.

Definition menuList (ms : Modules) : list Route :=
  homeRouter :: omap (fun item =>
    match children item with
    | None => None
    | Some cs => Some (route (path item) (fields item) (meta item) (Some (List.filter shown cs)))
    end) (rolesRoutes ms).

Definition routes (ms : Modules) : list Route :=
  [ homeRouter;
    route "/login" [Name "login"; Props true; Component "@/views/login/index.vue"] (Some [Key "login"]) None;
    route "/enterprise/license-required"
      [Name "EnterpriseLicenseRequired"; Component "@/views/setting/license-required/index.vue"]
      (Some [Key "enterprise-license-required"]) None;
    route "/s/:code" [Name "file-share"; Component "@/views/share/index.vue"] (Some []) None;
    route "/:code?" [Name "entrance"; Component "@/views/login/index.vue"; Props true] None None ]
  ++ routerArray ms
  ++ [ route "/:pathMatch(.*)" [RedirectName "404"] None None ].

(** ** Chains of records

    vue-router matches a path to a record together with its ancestors; the
    access checks run over that chain. *)

Fixpoint chains (ancestors : list Route) (r : Route) : list (list Route * Route) :=
  match r with
  | route _ _ _ cs =>
      (ancestors, r) ::
      match cs with
      | None => []
      | Some l => flat_map (chains (ancestors ++ [r])) l
      end
  end.

Definition all_chains (ms : Modules) : list (list Route * Route) := flat_map (chains []) (routes ms).

Definition metas (c : list Route * Route) : list (option Meta) := List.map access_meta (c.1 ++ [c.2]).

(** The codes a permission value holds. *)
Definition codes_of (p : PermissionValue) : list jsstr :=
  match p with PUndef => [] | PStr s => [s] | PList l => l end.

(** An ancestor that admits whoever holds the code [c]. *)
Definition admits (c : jsstr) (m : option Meta) : bool :=
  match m with
  | None => true
  | Some m =>
      negb m.(adminOnly) && negb m.(protectedRoleOnly) &&
      match m.(permission) with PUndef => true | p => memb c (codes_of p) end
  end.

Lemma admits_ok g c m :
  trim c = c -> granted g c -> admits c m = true -> role_ok g m /\ permission_ok g (meta_permission m).
Proof.
  intros Ht Hg H. destruct m as [[a r p]|]; [|done]. cbn in H.
  apply andb_true_iff in H as [H Hp]. apply andb_true_iff in H as [Ha Hr].
  apply negb_true_iff in Ha as ->. apply negb_true_iff in Hr as ->. cbn [role_ok meta_permission].
  split; [by right|]. destruct p as [|s|l]; cbn in *; [done| |].
  - apply orb_true_iff in Hp as [Hp|?]; [|done]. apply streqb_eq in Hp as <-. right. by rewrite Ht.
  - apply memb_elem in Hp. right. exists c. by rewrite Ht.
Qed.

(** A leaf with a code of its own, under ancestors that admit its holders. *)
Definition decided_by_leaf (c : list Route * Route) : bool :=
  match meta_permission (access_meta c.2) with
  | PStr s => truthy s && (trim s === s) && forallb (admits s) (List.map access_meta c.1)
  | _ => false
  end.

Lemma decided_by_leaf_ok g c :
  decided_by_leaf c = true ->
  (route_ok g (metas c) <-> role_ok g (access_meta c.2) /\ permission_ok g (meta_permission (access_meta c.2))).
Proof.
  unfold decided_by_leaf, metas. destruct c as [anc leaf]. cbn [fst snd]. intros H. split.
  - intros Hr. apply Hr. rewrite map_app. apply elem_of_app. right. left.
  - destruct (meta_permission (access_meta leaf)) as [|s|] eqn:E; [done| |done].
    apply andb_true_iff in H as [H Hanc]. apply andb_true_iff in H as [Hs Ht].
    apply streqb_eq in Ht. apply truthy_true in Hs.
    intros [Hr Hp] m Hm. rewrite map_app in Hm. apply elem_of_app in Hm as [Hm|Hm].
    + destruct Hp as [?|Hg]; [done|]. rewrite Ht in Hg. rewrite forallb_elem in Hanc.
      by apply (admits_ok g s), Hanc.
    + cbn in Hm. apply list_elem_of_singleton in Hm as ->. by rewrite E.
Qed.

(** The leaves that hold no code of their own. *)
Definition own_code (r : Route) : bool :=
  match meta_permission (access_meta r) with PUndef => false | _ => true end.
Definition is_leaf (r : Route) : bool := match children r with None => true | Some _ => false end.

Lemma leaves_checked :
  forallb (fun c => negb (is_leaf c.2) || negb (own_code c.2) || decided_by_leaf c) (all_chains modules) = true.
Proof. vm_compute. reflexivity. Qed.

(** The access to a page is decided by the page's own record: for every
    page of the table that declares a permission, the checks on the menu records
    above it never refuse a user the page's record admits. *)
Theorem page_access_by_leaf c g :
  c ∈ all_chains modules -> is_leaf c.2 = true -> own_code c.2 = true ->
  (route_ok g (metas c) <-> role_ok g (access_meta c.2) /\ permission_ok g (meta_permission (access_meta c.2))).
Proof.
  intros Hc Hl Ho. apply decided_by_leaf_ok. pose proof leaves_checked as H. rewrite forallb_elem in H.
  specialize (H c Hc). by rewrite Hl, Ho in H.
Qed.

Definition ssl_chain : list Route * Route :=
  default ([], homeRouter) (List.find (fun c => match name c.2 with Some n => String.eqb n "SSL" | _ => false end)
    (all_chains modules)).

Lemma page_access_by_leaf_witness :
  let g := initial_state (js "en") in
  path ssl_chain.2 = "/websites/ssl" /\
  (route_ok g (metas ssl_chain) <->
   role_ok g (access_meta ssl_chain.2) /\ permission_ok g (meta_permission (access_meta ssl_chain.2))).
Proof.
  cbv zeta. split; [vm_compute; reflexivity|]. apply page_access_by_leaf; [|vm_compute; reflexivity..].
  unfold ssl_chain. destruct (List.find _ _) as [c|] eqn:E; [|vm_compute in E; discriminate E].
  apply List.find_some in E as [H _]. by apply list_elem_of_In.
Defined.

(** *** The settings menu *)

Definition find_chain (n : string) : list Route * Route :=
  default ([], homeRouter) (List.find (fun c => match name c.2 with Some m => String.eqb m n | _ => false end)
    (all_chains modules)).

(** The page a path of the settings menu leads to. *)
Definition settings_page (p : string) : list Route * Route :=
  if String.eqb p "/settings/panel" then find_chain "Panel"
  else if String.eqb p "/settings/alert" then find_chain "Alert"
  else find_chain "BackupAccount".

Definition settings_meta : option Meta :=
  Some {| adminOnly := false; protectedRoleOnly := false; permission := PList [js "alert_view"; js "backup_view"] |}.

Lemma settings_chains :
  metas (find_chain "Panel") =
    [settings_meta; settings_meta; Some {| adminOnly := true; protectedRoleOnly := false; permission := PUndef |}] /\
  metas (find_chain "Alert") =
    [settings_meta; settings_meta;
     Some {| adminOnly := false; protectedRoleOnly := false; permission := PStr (js "alert_view") |}] /\
  metas (find_chain "BackupAccount") =
    [settings_meta; settings_meta;
     Some {| adminOnly := false; protectedRoleOnly := false; permission := PStr (js "backup_view") |}] /\
  access_meta settingRouter = settings_meta.
Proof. vm_compute. repeat split. Qed.

Lemma route_ok_cons g m l :
  route_ok g (m :: l) <-> (role_ok g m /\ permission_ok g (meta_permission m)) /\ route_ok g l.
Proof.
  unfold route_ok. split.
  - intros H. split; [apply H; left|]. intros r Hr. apply H. by right.
  - intros [H1 H2] r Hr. apply elem_of_cons in Hr as [->|Hr]; auto.
Qed.

Lemma route_ok_nil g : route_ok g [].
Proof. intros r Hr. inversion Hr. Qed.

Lemma settings_open g :
  permission_ok g (PList [js "alert_view"; js "backup_view"]) ->
  granted g (js "alert_view") \/ granted g (js "backup_view").
Proof.
  intros [H|(s & Hs & Hg)].
  - specialize (H (js "alert_view")). discriminate H. left.
  - apply elem_of_cons in Hs as [->|Hs]; [by left|]. apply list_elem_of_singleton in Hs as ->. by right.
Qed.

(** The redirect of the settings menu never leads a user to a page that is
    closed to them: in every reachable state where the menu is open to the user,
    the page it chooses is open. *)
Theorem redirectToAvailableSetting_open locale w :
  reachable locale w -> route_ok w.(gs) [access_meta settingRouter] ->
  let '(p, w') := redirectToAvailableSetting w in
  w'.(gs) = w.(gs) /\ route_ok w'.(gs) (metas (settings_page p)).
Proof.
  intros Hw%reachable_ok Hm. destruct settings_chains as (E1 & E2 & E3 & E4). rewrite E4 in Hm.
  apply route_ok_cons in Hm as [[Hr Hp] _]. pose proof (settings_open _ Hp) as Hs.
  unfold redirectToAvailableSetting, bind, get, ret.
  destruct (isAdmin (tags (gs w))) eqn:Ea.
  { split; [done|]. change (settings_page "/settings/panel") with (find_chain "Panel"). rewrite E1.
    apply route_ok_cons; split; [by split|]. apply route_ok_cons; split; [by split|].
    apply route_ok_cons; split; [by split; [left|]|apply route_ok_nil]. }
  destruct (hasPermission_reads (js "alert_view") w Hw) as (A1 & A2 & A3).
  destruct (hasPermission (js "alert_view") w) as [a w1]. cbn [fst snd] in *. destruct a.
  { rewrite A2. split; [done|]. change (settings_page "/settings/alert") with (find_chain "Alert").
    rewrite E2. symmetry in A1. apply grantedb_spec in A1.
    apply route_ok_cons; split; [by split|]. apply route_ok_cons; split; [by split|].
    apply route_ok_cons; split; [by split; right|apply route_ok_nil]. }
  destruct (hasPermission_reads (js "backup_view") w1 A3) as (B1 & B2 & B3).
  destruct (hasPermission (js "backup_view") w1) as [b w2]. cbn [fst snd] in *. rewrite A2 in *.
  assert (b = true) as ->.
  { destruct Hs as [Hs|Hs]; [apply grantedb_spec in Hs; change (trim (js "alert_view")) with (js "alert_view") in A1; congruence|].
    apply grantedb_spec in Hs. change (trim (js "backup_view")) with (js "backup_view") in B1. congruence. }
  rewrite B2. split; [done|]. change (settings_page "/settings/backupaccount") with (find_chain "BackupAccount").
  rewrite E3. symmetry in B1. apply grantedb_spec in B1.
  apply route_ok_cons; split; [by split|]. apply route_ok_cons; split; [by split|].
  apply route_ok_cons; split; [by split; right|apply route_ok_nil].
Qed.

Lemma redirectToAvailableSetting_open_witness :
  let w := sample_world false (js "local") [js "backup_manage"] [] in
  (redirectToAvailableSetting w).1 = "/settings/backupaccount" /\
  let '(p, w') := redirectToAvailableSetting w in
  w'.(gs) = w.(gs) /\ route_ok w'.(gs) (metas (settings_page p)).
Proof.
  cbv zeta. split; [vm_compute; reflexivity|]. apply (redirectToAvailableSetting_open (js "en")).
  - by apply sample_world_reachable, no_newline_dec.
  - apply route_granted_spec. vm_compute. reflexivity.
Defined.

(** *** The table *)

Definition all_routes (ms : Modules) : list Route := List.map snd (all_chains ms).

Definition names (ms : Modules) : list string := omap name (all_routes ms).

Definition codes (ms : Modules) : list jsstr :=
  flat_map (fun r => codes_of (meta_permission (access_meta r))) (all_routes ms).

(** The names of the routes are unique, so a redirect by name is never
    ambiguous; every permission the table asks for is a view code, so holding
    the manage code grants it too; and the pages the guard itself redirects to
    are declared. *)
Theorem route_table_well_formed :
  NoDup (names modules) /\
  (forall c, c ∈ codes modules -> exists m, c = m ++ js "_view") /\
  (forall n, n ∈ ["entrance"; "login"; "home"; "404"; "EnterpriseLicenseRequired"; "Expired"] -> n ∈ names modules).
Proof.
  split; [|split].
  - apply (bool_decide_unpack _). vm_compute. exact I.
  - intros c Hc. assert (forallb (fun c => endsWith c (js "_view")) (codes modules) = true) as H
      by (vm_compute; reflexivity).
    rewrite forallb_elem in H. by apply endsWith_spec, H.
  - assert (forallb (fun n => existsb (String.eqb n) (names modules))
      ["entrance"; "login"; "home"; "404"; "EnterpriseLicenseRequired"; "Expired"] = true) as H
      by (vm_compute; reflexivity).
    rewrite forallb_elem in H. intros n Hn. apply H, existsb_elem in Hn as (m & Hm & E).
    by apply String.eqb_eq in E as ->.
Qed.

(** *** Paths

    vue-router's rule for nested routes, as its guide states it: a path that
    starts with a slash is a root path, and any other is appended to its
    parent's. *)
Definition slash : Ascii.ascii := Ascii.ascii_of_nat 47.

Section Paths.
Variable join_path : string -> string -> string.
Hypothesis join_root : forall base p, String.get 0 p = Some slash -> join_path base p = p.
Hypothesis join_nested : forall base p, String.get 0 p <> Some slash -> join_path base p = String.append base (String.append "/" p).

Fixpoint full_paths (join : string -> string -> string) (base : string) (r : Route) : list (string * Route) :=
  match r with
  | route p _ _ cs =>
      (join base p, r) ::
      match cs with
      | None => []
      | Some l => flat_map (full_paths join (join base p)) l
      end
  end.

Definition declared (join : string -> string -> string) : list (string * Route) :=
  flat_map (full_paths join "") (routes modules).

Definition join_guide (base p : string) : string :=
  if match p with String c _ => Ascii.eqb c slash | EmptyString => false end then p
  else String.append base (String.append "/" p).

Lemma join_path_guide base p : join_path base p = join_guide base p.
Proof.
  unfold join_guide. destruct p as [|c p]; [by rewrite join_nested|].
  destruct (Ascii.eqb_spec c slash) as [->|Hn]; [by rewrite join_root|].
  apply join_nested. cbn. congruence.
Qed.

Lemma full_paths_ext r base : full_paths join_path base r = full_paths join_guide base r.
Proof.
  revert base. refine ((fix IH (r : Route) : forall base, full_paths join_path base r = full_paths join_guide base r :=
    match r with route p f m cs => _ end) r).
  intros base. cbn [full_paths]. rewrite join_path_guide. f_equal. destruct cs as [l|]; [|done].
  generalize (join_guide base p) as b. intros b. induction l as [|r' l IHl]; [done|].
  cbn [flat_map]. by rewrite IH, IHl.
Qed.

Lemma declared_guide : declared join_path = declared join_guide.
Proof.
  unfold declared. generalize (routes modules) as l. intros l. induction l as [|r l IH]; [done|].
  cbn [flat_map]. by rewrite full_paths_ext, IH.
Qed.

Definition redirect_targets (join : string -> string -> string) : list (string * string) :=
  omap (fun '(p, r) => match redirect r with Some (RedirectTo s) => Some (p, s) | _ => None end) (declared join).

Definition menus (join : string -> string -> string) : list string :=
  omap (fun '(_, r) => meta r ≫= activeMenu) (declared join).

(** Every menu a page names as active and every path a menu redirects to
    is the path of a declared route, with one exception: the system menu,
    /hosts, redirects to /hosts/security, which no module declares. *)
Theorem redirects_declared :
  (forall m, m ∈ menus join_path -> m ∈ List.map fst (declared join_path)) /\
  (forall p s, (p, s) ∈ redirect_targets join_path ->
    s ∈ List.map fst (declared join_path) \/ (p, s) = ("/hosts", "/hosts/security")) /\
  ("/hosts", "/hosts/security") ∈ redirect_targets join_path /\
  "/hosts/security" ∉ List.map fst (declared join_path).
Proof.
  unfold menus, redirect_targets. rewrite declared_guide.
  set (d := List.map fst (declared join_guide)).
  assert (forall s, s ∈ d <-> existsb (String.eqb s) d = true) as Hd.
  { intros s. rewrite existsb_elem. setoid_rewrite String.eqb_eq. naive_solver. }
  split; [|split; [|split]].
  - assert (forallb (fun m => existsb (String.eqb m) d) (menus join_guide) = true) as H by (vm_compute; reflexivity).
    rewrite forallb_elem in H. intros m Hm. by apply Hd, H.
  - assert (forallb (fun '(p, s) => existsb (String.eqb s) d ||
      String.eqb p "/hosts" && String.eqb s "/hosts/security") (redirect_targets join_guide) = true) as H
      by (vm_compute; reflexivity).
    rewrite forallb_elem in H. intros p s Hs. apply H in Hs. apply orb_true_iff in Hs as [Hs|Hs].
    + left. by apply Hd.
    + right. apply andb_true_iff in Hs as [H1 H2]. apply String.eqb_eq in H1, H2. by subst.
  - apply (bool_decide_unpack _). vm_compute. exact I.
  - rewrite Hd. vm_compute. discriminate.
Qed.
End Paths.

Lemma redirects_declared_witness :
  (forall m, m ∈ menus join_guide -> m ∈ List.map fst (declared join_guide)) /\
  (forall p s, (p, s) ∈ redirect_targets join_guide ->
    s ∈ List.map fst (declared join_guide) \/ (p, s) = ("/hosts", "/hosts/security")) /\
  ("/hosts", "/hosts/security") ∈ redirect_targets join_guide /\
  "/hosts/security" ∉ List.map fst (declared join_guide).
Proof.
  apply (redirects_declared join_guide).
  - intros base p H. destruct p as [|c p]; [discriminate H|]. injection H as ->. reflexivity.
  - intros base p H. unfold join_guide. destruct p as [|c p]; [reflexivity|].
    destruct (Ascii.eqb_spec c slash) as [->|Hn]; [by destruct H|reflexivity].
Defined.

(** *** Menus *)

Definition precedes (r1 r2 : Route) : Prop := sorts_before r2 r1 = false.

Lemma insert_route_perm r l : insert_route r l ≡ₚ r :: l.
Proof.
  induction l as [|r' l IH]; [done|]. cbn [insert_route]. case_step; [done|].
  rewrite IH. apply Permutation_swap.
Qed.

Lemma sorts_before_trans r1 r2 r3 : precedes r1 r2 -> precedes r2 r3 -> precedes r1 r3.
Proof.
  unfold precedes, sorts_before. destruct (sort_key r1), (sort_key r2), (sort_key r3); try done.
  rewrite !Z.ltb_ge. lia.
Qed.

Lemma insert_route_sorted r l : StronglySorted precedes l -> StronglySorted precedes (insert_route r l).
Proof.
  induction 1 as [|r' l Hl IH Hr']; cbn [insert_route]; [repeat constructor|].
  destruct (sorts_before r r') eqn:E.
  - assert (precedes r r') as Hrr.
    { unfold precedes, sorts_before in *. destruct (sort_key r), (sort_key r'); try done.
      apply Z.ltb_lt in E. apply Z.ltb_ge. lia. }
    constructor; [by constructor|]. constructor; [done|].
    rewrite Forall_elem in *. intros x Hx. eapply sorts_before_trans; eauto.
  - constructor; [done|]. rewrite Forall_elem in *. intros x Hx.
    rewrite insert_route_perm in Hx. apply elem_of_cons in Hx as [->|Hx]; [done|auto].
Qed.

Lemma sort_routes_spec l : StronglySorted precedes (sort_routes l) /\ sort_routes l ≡ₚ l.
Proof.
  unfold sort_routes.
  assert (forall acc, StronglySorted precedes acc ->
    StronglySorted precedes (foldl (fun acc r => insert_route r acc) acc l) /\
    foldl (fun acc r => insert_route r acc) acc l ≡ₚ acc ++ l) as H.
  { induction l as [|r l IH]; intros acc Ha; cbn [foldl]; [by rewrite app_nil_r|].
    destruct (IH (insert_route r acc)) as [H1 H2]; [by apply insert_route_sorted|].
    split; [done|]. rewrite H2, insert_route_perm. solve_Permutation. }
  by apply (H []); constructor.
Qed.

(** The menu list is the home entry followed by the modules that have
    children, in the order of their sort keys with the unsorted ones last; an
    entry shows exactly the children of its module that are not hidden. *)
Theorem menuList_spec ms :
  exists items, menuList ms = homeRouter :: items /\
    StronglySorted precedes (rolesRoutes ms) /\ rolesRoutes ms ≡ₚ omap snd ms /\
    items = List.map (fun item => route (path item) (fields item) (meta item)
                        (List.filter shown <$> children item))
              (List.filter (fun r => negb (is_leaf r)) (rolesRoutes ms)) /\
    (forall item cs, item ∈ items -> children item = Some cs -> forall c, c ∈ cs -> hidden c <> Some true).
Proof.
  eexists. split; [reflexivity|]. destruct (sort_routes_spec (omap snd ms)) as [H1 H2].
  split; [done|]. split; [done|]. split.
  - induction (rolesRoutes ms) as [|r l IH]; [done|]. cbn [omap list_omap List.filter].
    unfold is_leaf at 1. destruct r as [p f m [cs|]]; cbn [children negb path fields meta List.map fmap option_fmap option_map];
      by rewrite IH.
  - intros item cs Hi Hc c Hin. apply list_elem_of_omap in Hi as (r & _ & E).
    destruct (children r) as [cs'|]; [|discriminate E]. injection E as <-. cbn in Hc. injection Hc as <-.
    apply elem_filter in Hin as [_ Hs]. unfold shown in Hs. intros Hh. by rewrite Hh in Hs.
Qed.
