(* ===== verification/Navigation.v ===== *)
(** * The redirects of a navigation

    vue-router runs the guard of src/frontend/src/routers/index.ts again on every location
    it redirects to; a navigation ends, and the table of src/frontend/src/routers has what
    this takes of vue-router. *)

From S2P Require Import Prelude JsString GlobalStore Access RouterGuard RouteTable.

#[local] Open Scope list_scope.

Import RouterGuard.

(** ** Navigations

    [resolve] is router.resolve, which the guard calls; [target] is the location that the
    guard is given for one that is navigated to, after the redirects of its records. *)
Section Navigate.
Variables resolve target : Location -> Target.

(** A navigation during which nothing else happens: every guard sees the answer [answer]. *)
Fixpoint navigate (fuel : nat) (answer : option LicenseAnswer) (to from : Target) (s : Guard)
    : option (Target * Verdict * Guard) :=
  match fuel with
  | O => None
  | S n =>
      let '(v, s') := beforeEach resolve to from answer s in
      match v with
      | Redirect l => navigate n answer (target l) from s'
      | _ => Some (to, v, s')
      end
  end.
End Navigate.

(** What the guard relies on of vue-router and its table: the five routes the guard redirects
    to by name have that name and the query they are given, and belong to no menu; and a
    path is navigated to with the query it is given. *)

Definition special_names : list jsstr :=
  [js "entrance"; js "login"; js "home"; js "404"; js "EnterpriseLicenseRequired"].

Class Router (target : Location -> Target) : Prop := {
  target_name n ps q : n ∈ special_names -> name (target (ByName n ps q)) = Some n;
  target_query n ps q : n ∈ special_names -> query (target (ByName n ps q)) = q;
  target_special l : String_name (target l) ∈ special_names -> activeMenu (target l) = [];
  target_path p q : query (target (ByPath p q)) = q
}.

Lemma redirect_inj a b : Some (Redirect a) = Some (Redirect b) -> a = b.
Proof. congruence. Qed.

Inductive Kind := KEntrance | KLogin | KPublic | KExpired | KLicense | KOther.

Definition kind_of_name (n : jsstr) : Kind :=
  if n === js "entrance" then KEntrance
  else if n === js "login" then KLogin
  else if (n === js "file-share") || (n === js "404") then KPublic
  else if n === js "Expired" then KExpired
  else if n === js "EnterpriseLicenseRequired" then KLicense
  else KOther.
Definition kind (t : Target) : Kind := kind_of_name (String_name t).

Definition kind_eqb (a b : Kind) : bool :=
  match a, b with
  | KEntrance, KEntrance | KLogin, KLogin | KPublic, KPublic | KExpired, KExpired
  | KLicense, KLicense | KOther, KOther => true
  | _, _ => false
  end.

Lemma named_kind t :
  named t (js "login") = kind_eqb (kind t) KLogin /\ named t (js "entrance") = kind_eqb (kind t) KEntrance /\
  named t (js "Expired") = kind_eqb (kind t) KExpired /\
  named t (js "EnterpriseLicenseRequired") = kind_eqb (kind t) KLicense /\
  memb (String_name t) noLoginWhiteList =
    match kind t with KLicense | KOther => false | _ => true end /\
  memb (String_name t) enterpriseLicenseCheckWhiteList =
    match kind t with KPublic | KOther => false | _ => true end.
Proof.
  unfold kind, named, String_name. destruct (name t) as [n|]; [|vm_compute; by splits].
  cbn [default]. unfold id, kind_of_name, memb, noLoginWhiteList, enterpriseLicenseCheckWhiteList. cbn [existsb].
  destruct (n === js "entrance") eqn:E1; [apply streqb_eq in E1 as ->; vm_compute; by splits|].
  destruct (n === js "login") eqn:E2; [apply streqb_eq in E2 as ->; vm_compute; by splits|].
  destruct (n === js "file-share") eqn:E3; [apply streqb_eq in E3 as ->; vm_compute; by splits|].
  destruct (n === js "404") eqn:E4; [apply streqb_eq in E4 as ->; vm_compute; by splits|].
  destruct (n === js "Expired") eqn:E5; [apply streqb_eq in E5 as ->; vm_compute; by splits|].
  destruct (n === js "EnterpriseLicenseRequired") eqn:E6; [apply streqb_eq in E6 as ->; vm_compute; by splits|].
  by splits.
Qed.

Lemma kind_special t :
  match kind t with KEntrance | KLogin | KLicense => String_name t ∈ special_names | _ => True end.
Proof.
  unfold kind, kind_of_name. destruct (_ === js "entrance") eqn:E1.
  { apply streqb_eq in E1 as ->. by left. }
  destruct (_ === js "login") eqn:E2; [apply streqb_eq in E2 as ->; right; by left|].
  destruct (_ || _); [done|]. destruct (_ === js "Expired"); [done|].
  destruct (_ === js "EnterpriseLicenseRequired") eqn:E3; [|done].
  apply streqb_eq in E3 as ->. by do 4 right; left.
Qed.

(** How many redirects a location is away from a decision, at most. *)
Definition given (q : list (jsstr * QueryValue)) : bool :=
  existsb (fun e => (e.1 === js "uncached") && match e.2 with QNull => false | _ => true end) q.

(** The bounds for a location without and with the parameter that empties the cache. *)
Definition plain_rank (login redirecting : bool) : nat :=
  match login, redirecting with true, true => 2 | true, false => 4 | false, true => 1 | false, false => 3 end.

Definition rank (g : GlobalState) (redirecting : bool) (t : Target) : nat :=
  let menu := truthy t.(activeMenu) && negb redirecting in
  let login := g.(auth).(isLogin) in
  let uncached (n : nat) := if given t.(query) then S (plain_rank login redirecting) else n in
  if login then
    match kind t with
    | KExpired => 0
    | KLicense => if g.(tags).(isEnterprise) && negb g.(license).(isEnterpriseLicensed) then 0 else 2
    | KLogin | KEntrance => 2
    | _ => uncached (if menu then 4 else 1)
    end
  else
    match kind t with
    | KExpired => 0
    | KEntrance => uncached 0
    | KLogin => if truthy g.(auth).(entrance) then 1 else uncached 0
    | KPublic => uncached (if menu then 3 else 0)
    | _ => 1
    end.

Lemma rank_bound g red t : rank g red t <= 5.
Proof. unfold rank, plain_rank. cbv beta zeta. destruct (isLogin _), red, (kind t), (given (query t)), (truthy (activeMenu t)); cbn [negb andb]; repeat case_match; lia. Qed.

Lemma rank_plain g red t : given t.(query) = false -> rank g red t <= plain_rank g.(auth).(isLogin) red.
Proof. intros H. unfold rank, plain_rank. cbv beta zeta. rewrite H. destruct (isLogin _), red, (kind t), (truthy (activeMenu t)); cbn [negb andb]; repeat case_match; lia. Qed.

(** Once a menu's location has been restored, few redirects are left. *)
Lemma rank_redirecting g t : rank g true t <= if g.(auth).(isLogin) then 3 else 2.
Proof.
  unfold rank, plain_rank. cbv beta zeta. rewrite andb_false_r. destruct (isLogin (auth g)), (kind t), (given (query t)); cbn [negb andb]; repeat case_match; lia.
Qed.

Section Termination.
Context (resolve target : Location -> Target) `{!Router target}.

Lemma rank_named g red n ps q :
  n ∈ special_names -> given q = false ->
  rank g red (target (ByName n ps q)) =
    if g.(auth).(isLogin) then
      match kind_of_name n with
      | KExpired => 0
      | KLicense => if g.(tags).(isEnterprise) && negb g.(license).(isEnterpriseLicensed) then 0 else 2
      | KLogin | KEntrance => 2
      | _ => 1
      end
    else match kind_of_name n with
         | KEntrance => 0 | KLogin => if truthy g.(auth).(entrance) then 1 else 0
         | KPublic | KExpired => 0 | _ => 1 end.
Proof.
  intros Hn Hq. unfold rank, kind. cbv beta zeta.
  assert (String_name (target (ByName n ps q)) = n) as En by (unfold String_name; by rewrite target_name).
  rewrite target_query, Hq, En, target_special by (by rewrite ?En). cbn [truthy andb].
  destruct (isLogin _), (kind_of_name n); done.
Qed.

(** Where the guard's own redirects lead. *)
Lemma rank_targets g red ps code :
  let r n q := rank g red (target (ByName n ps q)) in
  let b := g.(auth).(isLogin) in
  r (js "entrance") [] = (if b then 2 else 0) /\
  r (js "login") [] = (if b then 2 else if truthy g.(auth).(entrance) then 1 else 0) /\
  r (js "home") [] = 1 /\ r (js "404") [] = (if b then 1 else 0) /\
  r (js "EnterpriseLicenseRequired") [(js "code", QStr code)] =
    (if b then if g.(tags).(isEnterprise) && negb g.(license).(isEnterpriseLicensed) then 0 else 2 else 1).
Proof.
  cbv beta zeta. rewrite !rank_named by (first [apply memb_elem; vm_compute; reflexivity | vm_compute; reflexivity]).
  assert (kind_of_name (js "entrance") = KEntrance /\ kind_of_name (js "login") = KLogin /\
    kind_of_name (js "home") = KOther /\ kind_of_name (js "404") = KPublic /\
    kind_of_name (js "EnterpriseLicenseRequired") = KLicense) as (-> & -> & -> & -> & ->)
    by (vm_compute; by splits).
  destruct (isLogin _); by splits.
Qed.

(** The redirects of the guard move to a location of lower rank. *)
Lemma decide_login_rank t g l red :
  decide_login t g = Some (Redirect l) -> rank g red (target l) < rank g red t.
Proof.
  intros Hd. destruct (named_kind t) as (N1 & N2 & N3 & N4 & N5 & N6).
  unfold decide_login in Hd. rewrite N1, N2, N5 in Hd. clear N1 N2 N3 N4 N5 N6. unfold rank at 2.
  destruct (rank_targets g red [(js "code", g.(auth).(entrance))] []) as (T1 & _).
  destruct (rank_targets g red [] []) as (_ & T2 & T3 & T4 & _).
  unfold to_entrance, to_name in Hd.
  destruct (isLogin (auth g)) eqn:El, (kind t) eqn:Ek; cbn [negb andb kind_eqb] in Hd; try discriminate Hd;
    try (destruct (truthy (entrance (auth g))) eqn:Ee; try discriminate Hd);
    try (destruct (param _ t) as [code|]; [destruct (code === entrance (auth g))|]);
    apply redirect_inj in Hd as <-; rewrite ?El, ?Ee in *; lia.
Qed.

Lemma decide_license_rank t answer g l red :
  decide_login t g = None -> decide_license t answer g = Some (Redirect l) ->
  rank (licensed_store t answer g) red (target l) < rank (licensed_store t answer g) red t.
Proof.
  intros _ Hd. destruct (named_kind t) as (_ & _ & _ & _ & _ & N6).
  destruct (licensed_store_rest t answer g) as [Ea Et].
  unfold decide_license in Hd. destruct (needs_license t g) eqn:En; [|discriminate Hd].
  match type of Hd with (if ?b then _ else _) = _ => destruct b; [discriminate Hd|] end.
  match type of Hd with (if ?b then _ else _) = _ => destruct b eqn:E2; [|discriminate Hd] end. apply redirect_inj in Hd as <-.
  destruct (rank_targets (licensed_store t answer g) red [] (default [] (param (js "code") t)))
    as (_ & _ & _ & _ & T5).
  unfold needs_license in En. apply andb_true_iff in En as [En Ek]. apply andb_true_iff in En as [El Ee].
  rewrite Ea, Et, El, Ee, E2 in T5. cbn [andb] in T5.
  match goal with |- ?a < ?b => assert (a = 0) as -> by exact T5 end.
  unfold rank. cbv beta zeta. rewrite Ea, El. rewrite N6 in Ek. destruct (kind t); try discriminate Ek; repeat case_match; lia.
Qed.

Lemma decide_page_rank t g l red :
  decide_page t g = Some (Redirect l) -> rank g red (target l) < rank g red t.
Proof.
  intros Hd. destruct (named_kind t) as (_ & _ & _ & N4 & _). unfold decide_page in Hd. rewrite N4 in Hd.
  destruct (rank_targets g red t.(params) []) as (T1 & _).
  destruct (rank_targets g red [] []) as (_ & _ & T3 & _). unfold to_name in Hd.
  unfold rank at 2. destruct (kind t); try discriminate Hd. cbn [kind_eqb] in Hd.
  destruct (isLogin (auth g)) eqn:El; cbn [negb] in Hd.
  - match type of Hd with Some (if ?b then _ else _) = _ => destruct b eqn:E; [|discriminate Hd] end.
    apply redirect_inj in Hd as <-. rewrite T3.
    destruct (isEnterprise (tags g)), (isEnterpriseLicensed (license g)); cbn in *; done || lia.
  - apply redirect_inj in Hd as <-. rewrite T1. lia.
Qed.

Lemma not_given q : given (List.filter (fun e => e.1 !== js "uncached") q) = false.
Proof.
  apply not_true_iff_false. intros H. apply existsb_elem in H as (e & He & H).
  apply elem_filter in He as [_ He]. by destruct (e.1 === js "uncached").
Qed.

(** A location whose kind the first checks let pass. *)
Lemma kind_passed t answer g : let g' := licensed_store t answer g in
  decide_login t g = None -> decide_page t g' = None ->
  match kind t with
  | KLicense => False
  | KEntrance => isLogin (auth g') = false
  | KLogin => isLogin (auth g') = false /\ truthy (entrance (auth g')) = false
  | KOther => isLogin (auth g') = true
  | _ => True
  end.
Proof.
  cbv zeta. intros D1 D3. destruct (named_kind t) as (N1 & N2 & N3 & N4 & N5 & _).
  destruct (licensed_store_rest t answer g) as [Ea _]. unfold decide_login in D1. unfold decide_page in D3.
  rewrite N1, N2, N5 in D1. rewrite N4 in D3. rewrite Ea. clear -D1 D3.
  destruct (kind t), (isLogin (auth g)); try done; cbn [kind_eqb negb andb] in D1. by destruct (truthy (entrance (auth g))).
Qed.

Lemma query_given_uncached t : query_given (js "uncached") t = given t.(query).
Proof. done. Qed.

(** The kinds that may belong to a menu. *)
Lemma kind_menu l : truthy (activeMenu (target l)) = true ->
  match kind (target l) with KEntrance | KLogin | KLicense => False | _ => True end.
Proof.
  intros H. pose proof (kind_special (target l)) as Hsp. destruct (kind (target l)); try done; apply target_special in Hsp; by rewrite Hsp in H.
Qed.

Lemma decide_route_rank from answer g ls red l0 l :
  let t := target l0 in
  let g' := licensed_store t answer g in
  decide_login t g = None -> decide_page t g' = None ->
  decide_route resolve t from g' ls red = Redirect l ->
  let red' := match l with ByString _ => true | _ => red end in
  rank g' red' (target l) < rank g' red t.
Proof.
  cbv zeta. set (t := target l0). set (g' := licensed_store t answer g). intros D1 D3 Hd.
  pose proof (kind_passed t answer g D1 D3) as Hk. fold g' in Hk.
  destruct (named_kind t) as (_ & _ & N3 & _ & _ & _). unfold decide_route in Hd. rewrite N3, query_given_uncached in Hd.
  match type of Hd with (if ?b then _ else _) = _ => destruct b; [discriminate Hd|] end.
  destruct (kind_eqb (kind t) KExpired) eqn:Ee; [discriminate Hd|]. destruct (given (query t)) eqn:Eu.
  - apply (f_equal Some), redirect_inj in Hd as <-.
    pose proof (rank_plain g' red (target (ByPath (path t) (List.filter (fun e => e.1 !== js "uncached") (query t))))) as Hr.
    rewrite target_path, not_given in Hr. specialize (Hr eq_refl). unfold rank at 2. cbv beta zeta. rewrite Eu. clear -Hr Hk Ee.
    destruct (kind t), (isLogin (auth g')); try done; try lia. destruct Hk as [_ Hk2]. rewrite Hk2. lia.
  - assert (exists c, cached_target t from ls red = Some c /\ l = ByString c) as (c & Hc & ->).
    { destruct (cached_target t from ls red) as [c|]; [|destruct (route_granted _ _); discriminate Hd].
      exists c. split; [done|]. destruct (cached_open _ _ _); [congruence|]. destruct (route_granted _ _); discriminate Hd. }
    unfold cached_target in Hc. destruct (ls !! _); [|discriminate Hc].
    match type of Hc with (if ?b then _ else _) = _ => destruct b eqn:E; [|discriminate Hc] end.
    injection Hc as ->. repeat (apply andb_true_iff in E as [E ?]). pose proof (kind_menu l0 E) as Hns. fold t in Hns.
    assert (truthy (activeMenu t) && negb red = true) as Emenu by (by apply andb_true_iff).
    pose proof (rank_redirecting g' (target (ByString c))) as Hr. cbv beta iota. unfold rank at 2. cbv beta zeta. rewrite Emenu, Eu.
    clear -Hr Hk Hns Ee. destruct (kind t), (isLogin (auth g')); try done; lia.
Qed.

Lemma rank_licensed t answer g red : rank (licensed_store t answer g) red t = rank g red t.
Proof.
  destruct (named_kind t) as (_ & _ & _ & _ & _ & N6).
  destruct (licensed_store_rest t answer g) as [Ea Et]. destruct (needs_license t g) eqn:En.
  - unfold needs_license in En. apply andb_true_iff in En as [_ Ek]. rewrite N6 in Ek.
    unfold rank. rewrite Ea. by destruct (kind t).
  - unfold licensed_store. by rewrite En.
Qed.

Lemma verdict_rank from answer g ls red l0 l :
  let r := verdict resolve (target l0) from answer g ls red in
  r.1 = Redirect l ->
  let red' := match r.1 with Redirect (ByString _) => true | _ => red end in
  rank r.2 red' (target l) < rank g red (target l0).
Proof.
  cbv zeta. unfold verdict. destruct (decide_login (target l0) g) as [v|] eqn:D1; cbn [fst snd].
  { intros ->. assert (match l with ByString _ => true | _ => red end = red) as ->.
    { destruct l; [done..|]. unfold decide_login, to_name, to_entrance in D1. repeat case_in D1; discriminate D1. }
    by apply decide_login_rank. }
  rewrite <- (rank_licensed (target l0) answer g red).
  destruct (decide_license (target l0) answer g) as [v|] eqn:D2.
  { intros ->. assert (match l with ByString _ => true | _ => red end = red) as ->.
    { destruct l; [done..|]. unfold decide_license in D2. repeat case_in D2; discriminate D2. }
    by apply decide_license_rank. }
  destruct (decide_page (target l0) _) as [v|] eqn:D3.
  { intros ->. assert (match l with ByString _ => true | _ => red end = red) as ->.
    { destruct l; [done..|]. unfold decide_page, to_name in D3. repeat case_in D3; discriminate D3. }
    by apply decide_page_rank. }
  intros Hd. rewrite Hd. by apply (decide_route_rank from answer g ls red l0 l).
Qed.

Lemma entering_verdict to from answer g ls red :
  entering (verdict resolve to from answer (entering g) ls red).2 =
  (verdict resolve to from answer (entering g) ls red).2.
Proof.
  destruct (isLogin (auth g)) eqn:El.
  - assert (isLogin (auth (verdict resolve to from answer (entering g) ls red).2) = true) as H.
    { unfold verdict. destruct (decide_login _ _); cbn [snd]; [by rewrite entering_login|].
      destruct (licensed_store_rest to answer (entering g)) as [-> _]. by rewrite entering_login. }
    unfold entering at 1. by rewrite H.
  - rewrite verdict_store_out by (by rewrite entering_login). unfold entering. rewrite El. cbn.
    by destruct g.
Qed.

Lemma navigate_total n answer l from s :
  guard_ok s -> rank (entering (store s)) s.(isRedirecting) (target l) < n ->
  exists t v s', navigate resolve target n answer (target l) from s = Some (t, v, s') /\
    match v with Redirect _ => False | _ => True end.
Proof.
  revert l s. induction n as [|n IH]; intros l s Hs Hr; [lia|]. cbn [navigate].
  destruct (beforeEach_spec resolve (target l) from answer s Hs) as (s1 & E & Hst & Hok & _ & _ & Hred).
  rewrite E. pose proof (verdict_rank from answer (entering (store s)) (localStorage s) (isRedirecting s) l) as Hv.
  pose proof (entering_verdict (target l) from answer (store s) (localStorage s) (isRedirecting s)) as He.
  destruct (verdict _ _ _ _ _ _ _) as [v g']. cbn [fst snd] in *. destruct v as [| |l'|]; [by eexists _, _, _..| |by eexists _, _, _].
  apply IH; [done|]. specialize (Hv l' eq_refl). rewrite Hst, He, Hred. lia.
Qed.
End Termination.

(** C36. Every navigation ends: whatever is stored, whoever is logged in, whatever the edition and
    whatever the license request answers, the guard redirects at most five times before it
    lets a location in, refuses it, or fails with the request, as long as nothing but the
    guard changes the store meanwhile. *)
Theorem navigate_terminates locale resolve target answer l from s :
  Router target -> guard_reachable locale s ->
  exists t v s', navigate resolve target 6 answer (target l) from s = Some (t, v, s') /\
    match v with Redirect _ => False | _ => True end.
Proof.
  intros HR Hs%reachable_ok. apply (navigate_total resolve target); [done|].
  pose proof (rank_bound (entering (store s)) (isRedirecting s) (target l)). lia.
Qed.

(** ** The table

    The routes of the panel with a resolver that follows vue-router's guide: a name is that of
    a record, a path is a static one before one with parameters, which is the entrance or a
    share; a record with a redirect leads to the path it gives, and any other path to 404.  The meta of
    a location is that of its records, the inner ones first. *)

Definition chain_path (c : list Route * Route) : string := foldl join_guide String.EmptyString (List.map RouteTable.path (c.1 ++ [c.2])).

Definition chain_menu (c : list Route * Route) : jsstr :=
  from_option js [] (pick (fun r => RouteTable.meta r ≫= RouteTable.activeMenu) (rev (c.1 ++ [c.2]))).

Definition chain_target (c : list Route * Route) (p : jsstr) (ps : list (jsstr * jsstr)) (q : list (jsstr * QueryValue)) : Target :=
  {| name := js <$> RouteTable.name c.2; path := p; query := q; params := ps; activeMenu := chain_menu c;
     ignoreTab := existsb (fun r => match RouteTable.meta r with
       | Some m => RouteTable.flag (fun x => match x with IgnoreTab b => Some b | _ => None end) m | None => false end) (c.1 ++ [c.2]);
     matched := List.map (fun r => {| r_path := js (RouteTable.path r); r_meta := access_meta r |}) (c.1 ++ [c.2]) |}.

Definition table : list (list Route * Route) := Eval vm_compute in all_chains modules.

Definition by_name (n : jsstr) : option (list Route * Route) :=
  List.find (fun c => match RouteTable.name c.2 with Some m => js m === n | None => false end) table.
Definition by_path (p : jsstr) : option (list Route * Route) :=
  List.find (fun c => is_leaf c.2 && (js (chain_path c) === p)) table.
Definition not_found : list Route * Route := default ([], homeRouter) (by_name (js "404")).

Definition redirected (p : jsstr) : option (list Route * Route) :=
  c ← List.find (fun c => js (chain_path c) === p) table;
  match redirect c.2 with Some (RedirectTo s) => Some (default not_found (by_path (js s))) | _ => None end.

Definition path_target (p : jsstr) (q : list (jsstr * QueryValue)) : Target :=
  match by_path p with
  | Some c => chain_target c p [] q
  | None =>
      match redirected p with
      | Some c => chain_target c (js (chain_path c)) [] q
      | None =>
          match split 47 p with
          | [[]; code] => chain_target (default not_found (by_name (js "entrance"))) p [(js "code", code)] q
          | [[]; [115%N]; code] => chain_target (default not_found (by_name (js "file-share"))) p [(js "code", code)] q
          | _ => chain_target not_found (js "/error/404") [] q
          end
      end
  end.

Definition table_target (l : Location) : Target :=
  match l with
  | ByName n ps q => match by_name n with Some c => chain_target c (js (chain_path c)) ps q | None => chain_target not_found (js "/error/404") ps q end
  | ByPath p q => path_target p q
  | ByString s => path_target (hd [] (split 63 s)) []
  end.

(** The pages the guard leads to belong to no menu. *)
Definition outside_menus (c : list Route * Route) : bool :=
  negb (memb (default (js "undefined") (js <$> RouteTable.name c.2)) special_names) || (chain_menu c === []).

Lemma table_outside : forallb outside_menus (not_found :: default not_found (by_name (js "entrance")) :: default not_found (by_name (js "file-share")) :: table) = true.
Proof. vm_compute. reflexivity. Qed.

Lemma outside_target c p ps q : outside_menus c = true -> String_name (chain_target c p ps q) ∈ special_names -> activeMenu (chain_target c p ps q) = [].
Proof.
  unfold outside_menus. intros [H|H]%orb_true_iff Hs; [|by apply streqb_eq in H].
  apply memb_elem in Hs. unfold String_name in Hs. cbn [chain_target name] in Hs. by rewrite Hs in H.
Qed.

Lemma found_outside f c : List.find f table = Some c -> outside_menus c = true.
Proof.
  intros [H _]%List.find_some. pose proof table_outside as Ht. rewrite forallb_forall in Ht. apply Ht. by do 3 right.
Qed.

Lemma path_target_outside p q : String_name (path_target p q) ∈ special_names -> activeMenu (path_target p q) = [].
Proof.
  pose proof table_outside as Ht. cbn [forallb] in Ht. apply andb_true_iff in Ht as [Hn Ht]. apply andb_true_iff in Ht as [He Ht].
  apply andb_true_iff in Ht as [Hs _]. unfold path_target. revert Hn He Hs. generalize (default not_found (by_name (js "entrance"))) as e.
  generalize (default not_found (by_name (js "file-share"))) as sh. generalize not_found as nf. intros nf sh e Hn He Hs.
  destruct (by_path p) as [c|] eqn:E1; [apply outside_target; by eapply found_outside|].
  destruct (redirected p) as [c|] eqn:E2.
  { apply outside_target. unfold redirected in E2. destruct (List.find _ table) as [c'|]; [|done]. cbn [mbind option_bind] in E2.
    destruct (redirect c'.2) as [[]|]; try done. injection E2 as <-. destruct (by_path (js s)) as [d|] eqn:E3; [by eapply found_outside|].
    pose proof table_outside as Ht. by apply andb_true_iff in Ht as [Ht _]. }
  repeat case_match; apply outside_target; assumption.
Qed.

Lemma table_router : Router table_target.
Proof.
  assert (Hn : Forall (fun n => exists c, by_name n = Some c /\ js <$> RouteTable.name c.2 = Some n) special_names)
    by (repeat constructor; eexists; (split; vm_compute; reflexivity)).
  rewrite list.Forall_forall in Hn. split.
  - intros n ps q (c & E & Hc)%Hn. unfold table_target. by rewrite E.
  - intros n ps q (c & E & Hc)%Hn. unfold table_target. by rewrite E.
  - intros [n ps q|p q|s]; cbn [table_target]; [|apply path_target_outside..].
    destruct (by_name n) as [c|] eqn:E; apply outside_target; [by eapply found_outside|].
    pose proof table_outside as Ht. by apply andb_true_iff in Ht as [Ht _].
  - intros p q. cbn. unfold path_target. repeat case_match; done.
Qed.

(** The websites are opened in the enterprise edition without a license: the guard leads to the
    page that asks for one.  A share is opened without a session; a page is not. *)
Definition opening (l : Location) (s : Guard) : option (option jsstr * Verdict) :=
  (fun '(t, v, _) => (t.(name), v)) <$> navigate table_target table_target 6 (Some None) (table_target l) (table_target (ByName (js "home") [] [])) s.

Example unlicensed_navigation : opening (ByPath (js "/websites") []) enterprise_guard = Some (Some (js "EnterpriseLicenseRequired"), Allow).
Proof. vm_compute. reflexivity. Qed.

Example share_navigation : opening (ByString (js "/s/abc?x=1")) (sample_guard false) = Some (Some (js "file-share"), Allow).
Proof. vm_compute. reflexivity. Qed.

Example guarded_navigation : opening (ByString (js "/websites")) (sample_guard false) = Some (Some (js "login"), Allow).
Proof. vm_compute. reflexivity. Qed.

Lemma navigate_terminates_witness :
  exists t v s', navigate table_target table_target 6 (Some None) (table_target (ByPath (js "/websites") []))
    (table_target (ByName (js "home") [] [])) enterprise_guard = Some (t, v, s') /\ match v with Redirect _ => False | _ => True end.
Proof.
  apply (navigate_terminates (js "en") table_target table_target (Some None) (ByPath (js "/websites") [])).
  - apply table_router.
  - apply (star_trans _ _ (sample_guard true).(g_world)); [apply sample_guard_reachable|]. apply star_one, step_assign_edition.
Defined.
