(* ===== verification/ProcessStore.v ===== *)
(** * The process store

    src/frontend/src/store/modules/process.ts: one web socket shared by the
    process and the network pages, polled by timers.  Sockets and timers are
    identities; every callback the code registers is a step that may run at any
    time.  [Num] is the type of JavaScript numbers, [Number] the conversion of a
    string to one, and [V] the type of the rows the server sends. *)

From S2P Require Import Prelude JsString.

(** 'ps' | 'net' *)
Inductive ReqType := Ps | Net.
#[global] Instance ReqType_eq_dec : EqDecision ReqType.
Proof. solve_decision. Defined.

Inductive ReadyState := CONNECTING | OPEN | CLOSING | CLOSED.

Section ProcessStore.
Context {Num V : Type} (Number : jsstr -> Num).

(** A numeric field of a search form, which an input may have filled with a
    string. *)
Inductive Numeric := NUndefined | NNumber (n : Num) | NString (s : jsstr).

Record PsSearch := { pid : Numeric; username : jsstr; ps_name : jsstr }.
Record NetSearch := { processID : Numeric; processName : jsstr; port : Numeric }.

(** The object that is sent, before JSON.stringify. *)
Inductive Message := PsMessage (s : PsSearch) | NetMessage (s : NetSearch).

(** The callbacks that wait for a timer. *)
Inductive Timer :=
| PollTimer (type : ReqType)
| CheckConnection (type : ReqType) (delayed : bool)
| StopCheck (check : N)
| SendInitial (type : ReqType)
| DisconnectTimer.

(** initWebSocket suspended in checkStreamAuth. *)
Record Init := { i_token : Z }.

Record Process := {
  websocket : option N; sockets : gmap N ReadyState; timers : gmap N Timer; next_id : N;
  pollingTimer : option N; disconnectTimer : option N; initWebSocketToken : Z;
  connectionRefCount : nat; isConnected : bool; isConnecting : bool;
  psData : list V; psLoading : bool; psSearch : PsSearch;
  netData : list V; netLoading : bool; netSearch : NetSearch;
  pendingRequestType : option ReqType; queuedRequestType : option ReqType;
  isPsFetching : bool; isNetFetching : bool; activePollingType : option ReqType;
  inits : list Init; sent : list (N * Message); messages : nat;
}.

Definition initial_process : Process := {|
  websocket := None; sockets := ∅; timers := ∅; next_id := 0; pollingTimer := None;
  disconnectTimer := None; initWebSocketToken := 0; connectionRefCount := 0;
  isConnected := false; isConnecting := false;
  psData := []; psLoading := false; psSearch := {| pid := NUndefined; username := []; ps_name := [] |};
  netData := []; netLoading := false;
  netSearch := {| processID := NUndefined; processName := []; port := NUndefined |};
  pendingRequestType := None; queuedRequestType := None; isPsFetching := false; isNetFetching := false;
  activePollingType := None; inits := []; sent := []; messages := 0 |}.

(** *** Assignments *)

Definition set_socket (w : option N) (p : Process) : Process :=
  Build_Process w p.(sockets) p.(timers) p.(next_id) p.(pollingTimer) p.(disconnectTimer)
    p.(initWebSocketToken) p.(connectionRefCount) p.(isConnected) p.(isConnecting) p.(psData) p.(psLoading)
    p.(psSearch) p.(netData) p.(netLoading) p.(netSearch) p.(pendingRequestType) p.(queuedRequestType)
    p.(isPsFetching) p.(isNetFetching) p.(activePollingType) p.(inits) p.(sent) p.(messages).
Definition set_sockets (f : gmap N ReadyState -> gmap N ReadyState) (p : Process) : Process :=
  Build_Process p.(websocket) (f p.(sockets)) p.(timers) p.(next_id) p.(pollingTimer) p.(disconnectTimer)
    p.(initWebSocketToken) p.(connectionRefCount) p.(isConnected) p.(isConnecting) p.(psData) p.(psLoading)
    p.(psSearch) p.(netData) p.(netLoading) p.(netSearch) p.(pendingRequestType) p.(queuedRequestType)
    p.(isPsFetching) p.(isNetFetching) p.(activePollingType) p.(inits) p.(sent) p.(messages).
Definition set_link (connected connecting : bool) (p : Process) : Process :=
  Build_Process p.(websocket) p.(sockets) p.(timers) p.(next_id) p.(pollingTimer) p.(disconnectTimer)
    p.(initWebSocketToken) p.(connectionRefCount) connected connecting p.(psData) p.(psLoading)
    p.(psSearch) p.(netData) p.(netLoading) p.(netSearch) p.(pendingRequestType) p.(queuedRequestType)
    p.(isPsFetching) p.(isNetFetching) p.(activePollingType) p.(inits) p.(sent) p.(messages).
(** New timers, and the variables that hold them. *)
Definition set_timers (t : gmap N Timer) (n : N) (poll disc : option N) (p : Process) : Process :=
  Build_Process p.(websocket) p.(sockets) t n poll disc
    p.(initWebSocketToken) p.(connectionRefCount) p.(isConnected) p.(isConnecting) p.(psData) p.(psLoading)
    p.(psSearch) p.(netData) p.(netLoading) p.(netSearch) p.(pendingRequestType) p.(queuedRequestType)
    p.(isPsFetching) p.(isNetFetching) p.(activePollingType) p.(inits) p.(sent) p.(messages).
Definition set_init (token : Z) (ins : list Init) (p : Process) : Process :=
  Build_Process p.(websocket) p.(sockets) p.(timers) p.(next_id) p.(pollingTimer) p.(disconnectTimer)
    token p.(connectionRefCount) p.(isConnected) p.(isConnecting) p.(psData) p.(psLoading)
    p.(psSearch) p.(netData) p.(netLoading) p.(netSearch) p.(pendingRequestType) p.(queuedRequestType)
    p.(isPsFetching) p.(isNetFetching) p.(activePollingType) ins p.(sent) p.(messages).
Definition set_refs (n : nat) (p : Process) : Process :=
  Build_Process p.(websocket) p.(sockets) p.(timers) p.(next_id) p.(pollingTimer) p.(disconnectTimer)
    p.(initWebSocketToken) n p.(isConnected) p.(isConnecting) p.(psData) p.(psLoading)
    p.(psSearch) p.(netData) p.(netLoading) p.(netSearch) p.(pendingRequestType) p.(queuedRequestType)
    p.(isPsFetching) p.(isNetFetching) p.(activePollingType) p.(inits) p.(sent) p.(messages).
Definition set_ps (d : list V) (l : bool) (p : Process) : Process :=
  Build_Process p.(websocket) p.(sockets) p.(timers) p.(next_id) p.(pollingTimer) p.(disconnectTimer)
    p.(initWebSocketToken) p.(connectionRefCount) p.(isConnected) p.(isConnecting) d l
    p.(psSearch) p.(netData) p.(netLoading) p.(netSearch) p.(pendingRequestType) p.(queuedRequestType)
    p.(isPsFetching) p.(isNetFetching) p.(activePollingType) p.(inits) p.(sent) p.(messages).
Definition set_net (d : list V) (l : bool) (p : Process) : Process :=
  Build_Process p.(websocket) p.(sockets) p.(timers) p.(next_id) p.(pollingTimer) p.(disconnectTimer)
    p.(initWebSocketToken) p.(connectionRefCount) p.(isConnected) p.(isConnecting) p.(psData) p.(psLoading)
    p.(psSearch) d l p.(netSearch) p.(pendingRequestType) p.(queuedRequestType)
    p.(isPsFetching) p.(isNetFetching) p.(activePollingType) p.(inits) p.(sent) p.(messages).
Definition set_request (pending queued : option ReqType) (ps net : bool) (p : Process) : Process :=
  Build_Process p.(websocket) p.(sockets) p.(timers) p.(next_id) p.(pollingTimer) p.(disconnectTimer)
    p.(initWebSocketToken) p.(connectionRefCount) p.(isConnected) p.(isConnecting) p.(psData) p.(psLoading)
    p.(psSearch) p.(netData) p.(netLoading) p.(netSearch) pending queued
    ps net p.(activePollingType) p.(inits) p.(sent) p.(messages).
Definition set_active (a : option ReqType) (p : Process) : Process :=
  Build_Process p.(websocket) p.(sockets) p.(timers) p.(next_id) p.(pollingTimer) p.(disconnectTimer)
    p.(initWebSocketToken) p.(connectionRefCount) p.(isConnected) p.(isConnecting) p.(psData) p.(psLoading)
    p.(psSearch) p.(netData) p.(netLoading) p.(netSearch) p.(pendingRequestType) p.(queuedRequestType)
    p.(isPsFetching) p.(isNetFetching) a p.(inits) p.(sent) p.(messages).
Definition set_search (ps : PsSearch) (net : NetSearch) (p : Process) : Process :=
  Build_Process p.(websocket) p.(sockets) p.(timers) p.(next_id) p.(pollingTimer) p.(disconnectTimer)
    p.(initWebSocketToken) p.(connectionRefCount) p.(isConnected) p.(isConnecting) p.(psData) p.(psLoading)
    ps p.(netData) p.(netLoading) net p.(pendingRequestType) p.(queuedRequestType)
    p.(isPsFetching) p.(isNetFetching) p.(activePollingType) p.(inits) p.(sent) p.(messages).
Definition send (s : N) (m : Message) (p : Process) : Process :=
  Build_Process p.(websocket) p.(sockets) p.(timers) p.(next_id) p.(pollingTimer) p.(disconnectTimer)
    p.(initWebSocketToken) p.(connectionRefCount) p.(isConnected) p.(isConnecting) p.(psData) p.(psLoading)
    p.(psSearch) p.(netData) p.(netLoading) p.(netSearch) p.(pendingRequestType) p.(queuedRequestType)
    p.(isPsFetching) p.(isNetFetching) p.(activePollingType) p.(inits) (p.(sent) ++ [(s, m)]) p.(messages).
Definition MsgError (p : Process) : Process :=
  Build_Process p.(websocket) p.(sockets) p.(timers) p.(next_id) p.(pollingTimer) p.(disconnectTimer)
    p.(initWebSocketToken) p.(connectionRefCount) p.(isConnected) p.(isConnecting) p.(psData) p.(psLoading)
    p.(psSearch) p.(netData) p.(netLoading) p.(netSearch) p.(pendingRequestType) p.(queuedRequestType)
    p.(isPsFetching) p.(isNetFetching) p.(activePollingType) p.(inits) p.(sent) (S p.(messages)).

(** setInterval, setTimeout and their cancellation *)
Definition add_timer (t : Timer) (p : Process) : Process :=
  set_timers (<[p.(next_id) := t]> p.(timers)) (p.(next_id) + 1) p.(pollingTimer) p.(disconnectTimer) p.
Definition clear_timer (i : N) (p : Process) : Process :=
  set_timers (delete i p.(timers)) p.(next_id) p.(pollingTimer) p.(disconnectTimer) p.

(** *** The socket *)

Definition isWsOpen (p : Process) : bool :=
  match p.(websocket) with
  | Some s => match p.(sockets) !! s with Some OPEN => true | _ => false end
  | None => false
  end.

Definition onOpen (p : Process) : Process := set_link true false p.

Definition to_number (n : Numeric) : Numeric :=
  match n with NString s => NNumber (Number s) | _ => n end.

(** websocket!.send: a null socket throws after the flags are set, which the
    callers exclude by isWsOpen. *)
Definition send_current (m : Message) (p : Process) : Process :=
  match p.(websocket) with Some s => send s m p | None => p end.

Definition doSendMessage (type : ReqType) (p : Process) : Process :=
  match type with
  | Ps =>
      let p := set_request (Some Ps) p.(queuedRequestType) true p.(isNetFetching) p in
      let p := set_ps p.(psData) (match p.(psData) with [] => true | _ => false end) p in
      let q := p.(psSearch) in
      send_current (PsMessage {| pid := to_number q.(pid); username := q.(username); ps_name := q.(ps_name) |}) p
  | Net =>
      let p := set_request (Some Net) p.(queuedRequestType) p.(isPsFetching) true p in
      let p := set_net p.(netData) (match p.(netData) with [] => true | _ => false end) p in
      let q := p.(netSearch) in
      send_current (NetMessage {| processID := to_number q.(processID); processName := q.(processName);
                                  port := to_number q.(port) |}) p
  end.

(** [data] is what JSON.parse gives: [None] when it throws, and the absent
    rows when the text is null. *)
Definition onMessage (data : option (option (list V))) (p : Process) : Process :=
  match data with
  | None => p
  | Some rows =>
      let responseType := p.(pendingRequestType) in
      let p :=
        match p.(pendingRequestType) with
        | Some Ps => set_request None p.(queuedRequestType) false p.(isNetFetching) p
        | Some Net => set_request None p.(queuedRequestType) p.(isPsFetching) false p
        | None => p
        end in
      let p :=
        if decide (responseType = p.(activePollingType)) then
          match responseType with
          | Some Ps => set_ps (default [] rows) false p
          | Some Net => set_net (default [] rows) false p
          | None => p
          end
        else p in
      match p.(queuedRequestType) with
      | Some typeToSend =>
          if isWsOpen p
          then doSendMessage typeToSend
                 (set_request p.(pendingRequestType) None p.(isPsFetching) p.(isNetFetching) p)
          else p
      | None => p
      end
  end.

Definition onClose (p : Process) : Process := set_socket None (set_link false false p).

(** initWebSocket up to its await, *)
Definition initWebSocket (p : Process) : Process :=
  if (match p.(websocket) with Some _ => true | None => false end) || p.(isConnecting) then p
  else
    let token := (p.(initWebSocketToken) + 1)%Z in
    set_link p.(isConnected) true (set_init token (p.(inits) ++ [{| i_token := token |}]) p).

(** and once checkStreamAuth has answered for the call at position [n]. *)
Definition resume_init (n : nat) (authError : bool) (p : Process) : Process :=
  match p.(inits) !! n with
  | None => p
  | Some i =>
      let p := set_init p.(initWebSocketToken) (take n p.(inits) ++ drop (S n) p.(inits)) p in
      if negb (i.(i_token) =? p.(initWebSocketToken))%Z || (p.(connectionRefCount) =? 0)%nat then
        if (i.(i_token) =? p.(initWebSocketToken))%Z then set_link p.(isConnected) false p else p
      else if authError then set_link p.(isConnected) false (MsgError p)
      else
        let s := p.(next_id) in
        set_socket (Some s)
          (set_sockets <[s := CONNECTING]>
            (set_timers p.(timers) (s + 1) p.(pollingTimer) p.(disconnectTimer) p))
  end.

Definition stopPolling (p : Process) : Process :=
  let p := match p.(pollingTimer) with
           | Some t => set_timers (delete t p.(timers)) p.(next_id) None p.(disconnectTimer) p
           | None => p
           end in
  set_active None p.

(** WebSocket.close on an open or connecting socket *)
Definition close (s : N) (p : Process) : Process :=
  set_sockets (alter (fun r => match r with CLOSED => CLOSED | _ => CLOSING end) s) p.

Definition closeWebSocket (p : Process) : Process :=
  let p := stopPolling (set_init (p.(initWebSocketToken) + 1)%Z p.(inits) p) in
  let p := match p.(websocket) with Some s => set_socket None (close s p) | None => p end in
  set_link false false p.

Definition connect (p : Process) : Process :=
  let p := match p.(disconnectTimer) with
           | Some t => set_timers (delete t p.(timers)) p.(next_id) p.(pollingTimer) None p
           | None => p
           end in
  let p := set_refs (S p.(connectionRefCount)) p in
  if (match p.(websocket) with Some _ => false | None => true end) && negb p.(isConnecting)
  then initWebSocket p else p.

Definition disconnect (p : Process) : Process :=
  let p := set_refs (p.(connectionRefCount) - 1) p in
  if (p.(connectionRefCount) =? 0)%nat then
    let t := p.(next_id) in
    set_timers (<[t := DisconnectTimer]> p.(timers)) (t + 1) p.(pollingTimer) (Some t) p
  else p.

Definition fetching (type : ReqType) (p : Process) : bool :=
  match type with Ps => p.(isPsFetching) | Net => p.(isNetFetching) end.

(** sendPsMessage and sendNetMessage *)
Definition sendMessage (type : ReqType) (p : Process) : Process :=
  if negb (isWsOpen p) then p
  else match p.(pendingRequestType) with
       | Some _ => set_request p.(pendingRequestType) (Some type) p.(isPsFetching) p.(isNetFetching) p
       | None => if fetching type p then p else doSendMessage type p
       end.
Definition sendPsMessage : Process -> Process := sendMessage Ps.
Definition sendNetMessage : Process -> Process := sendMessage Net.

Definition scheduleInitialFetch (type : ReqType) (delayed : bool) (p : Process) : Process :=
  if delayed then add_timer (SendInitial type) p else sendMessage type p.

(** [delayed] says that initialDelay is positive. *)
Definition startPolling (type : ReqType) (delayed : bool) (p : Process) : Process :=
  let p := set_active (Some type) (stopPolling p) in
  let p :=
    if isWsOpen p then scheduleInitialFetch type delayed p
    else
      let check := p.(next_id) in
      add_timer (StopCheck check) (add_timer (CheckConnection type delayed) p) in
  let t := p.(next_id) in
  set_timers (<[t := PollTimer type]> p.(timers)) (t + 1) (Some t) p.(disconnectTimer) p.

(** A timer fires: intervals stay, timeouts are gone. *)
Definition fire (i : N) (p : Process) : Process :=
  match p.(timers) !! i with
  | None => p
  | Some (PollTimer type) => sendMessage type p
  | Some (CheckConnection type delayed) =>
      if isWsOpen p then scheduleInitialFetch type delayed (clear_timer i p) else p
  | Some (StopCheck check) => clear_timer check (clear_timer i p)
  | Some (SendInitial type) => sendMessage type (clear_timer i p)
  | Some DisconnectTimer =>
      let p := clear_timer i p in
      if (p.(connectionRefCount) =? 0)%nat then closeWebSocket p else p
  end.

(** *** The search forms: absent fields of the parameters are kept *)

Definition updatePsSearch (a : option Numeric) (u n : option jsstr) (p : Process) : Process :=
  let q := p.(psSearch) in
  set_search {| pid := default q.(pid) a; username := default q.(username) u; ps_name := default q.(ps_name) n |}
    p.(netSearch) p.
Definition updateNetSearch (a : option Numeric) (n : option jsstr) (t : option Numeric) (p : Process) : Process :=
  let q := p.(netSearch) in
  set_search p.(psSearch)
    {| processID := default q.(processID) a; processName := default q.(processName) n; port := default q.(port) t |} p.
Definition resetPsSearch (p : Process) : Process :=
  set_search {| pid := NUndefined; username := []; ps_name := [] |} p.(netSearch) p.
Definition resetNetSearch (p : Process) : Process :=
  set_search p.(psSearch) {| processID := NUndefined; processName := []; port := NUndefined |} p.

(** ** Steps

    The browser opens a connecting socket, delivers messages to a socket that
    is not closed, and closes any socket, running the handlers of the store
    whichever socket they were registered on. *)
Definition browser_open (s : N) (p : Process) : Process := onOpen (set_sockets (alter (fun _ => OPEN) s) p).
Definition browser_close (s : N) (p : Process) : Process := onClose (set_sockets (alter (fun _ => CLOSED) s) p).

Inductive process_step : Process -> Process -> Prop :=
| ps_connect p : process_step p (connect p)
| ps_disconnect p : process_step p (disconnect p)
| ps_initWebSocket p : process_step p (initWebSocket p)
| ps_resume n b p : process_step p (resume_init n b p)
| ps_closeWebSocket p : process_step p (closeWebSocket p)
| ps_send t p : process_step p (sendMessage t p)
| ps_startPolling t d p : process_step p (startPolling t d p)
| ps_stopPolling p : process_step p (stopPolling p)
| ps_fire i p : process_step p (fire i p)
| ps_update f g p : process_step p (set_search f g p)
| ps_open s p : p.(sockets) !! s = Some CONNECTING -> process_step p (browser_open s p)
| ps_message s d p : p.(sockets) !! s = Some OPEN \/ p.(sockets) !! s = Some CLOSING ->
    process_step p (onMessage d p)
| ps_close s p : p.(sockets) !! s <> Some CLOSED -> is_Some (p.(sockets) !! s) ->
    process_step p (browser_close s p).

Definition process_reachable (p : Process) : Prop := star process_step initial_process p.
End ProcessStore.

(** ** Properties *)

Section Properties.
Context {Num V : Type} (Number : jsstr -> Num).
Abbreviation Process := (@Process Num V).
Abbreviation step := (process_step (V := V) Number).
Abbreviation reachable := (process_reachable (V := V) Number).

Definition msg_type (m : @Message Num) : ReqType := match m with PsMessage _ => Ps | NetMessage _ => Net end.

(** *** The request in flight *)

(** A type is being fetched exactly when its request is the pending one. *)
Definition flags_ok (p : Process) : Prop := forall t, fetching t p = true <-> p.(pendingRequestType) = Some t.

(** The part of the state that requests depend on. *)
Definition same_requests (p p' : Process) : Prop :=
  p'.(sent) = p.(sent) /\ p'.(pendingRequestType) = p.(pendingRequestType) /\
  (forall t, fetching t p' = fetching t p).

Lemma same_refl p : same_requests p p.
Proof. by repeat split. Qed.

Lemma same_trans p q r : same_requests p q -> same_requests q r -> same_requests p r.
Proof. intros (A1 & A2 & A3) (B1 & B2 & B3). repeat split; congruence. Qed.

Ltac same := split; [reflexivity|split; [reflexivity|intros []; reflexivity]].

Lemma stopPolling_same p : same_requests p (stopPolling p).
Proof. unfold stopPolling. destruct (pollingTimer p); same. Qed.

Lemma closeWebSocket_same p : same_requests p (closeWebSocket p).
Proof.
  unfold closeWebSocket.
  assert (same_requests p (stopPolling (set_init (initWebSocketToken p + 1) (inits p) p))) as H
    by (unfold stopPolling; cbn [set_init pollingTimer]; destruct (pollingTimer p); same).
  destruct (websocket _); (eapply same_trans; [exact H|same]).
Qed.

Lemma initWebSocket_same p : same_requests p (initWebSocket p).
Proof. unfold initWebSocket. destruct (_ || _); [apply same_refl|same]. Qed.

Lemma connect_same p : same_requests p (connect p).
Proof.
  unfold connect. cbv zeta.
  set (q := set_refs _ _). assert (same_requests p q) as H by (unfold q; destruct (disconnectTimer p); same).
  destruct (_ && _); [|done]. eapply same_trans; [exact H|apply initWebSocket_same].
Qed.

Lemma resume_same n b p : same_requests p (resume_init n b p).
Proof. unfold resume_init. destruct (inits p !! n); [|apply same_refl]. repeat case_step; same. Qed.

(** One message is sent on the open socket, and its type becomes the pending one. *)
Definition sends (p p' : Process) : Prop :=
  exists s m, p'.(sent) = p.(sent) ++ [(s, m)] /\ p.(sockets) !! s = Some OPEN /\ p'.(sockets) = p.(sockets) /\
    p'.(pendingRequestType) = Some (msg_type m).

Lemma isWsOpen_spec (p : Process) :
  isWsOpen p = true <-> exists s, p.(websocket) = Some s /\ p.(sockets) !! s = Some OPEN.
Proof.
  unfold isWsOpen. destruct (websocket p) as [s|]; [|split; [done|by intros (s & ? & _)]].
  split; [|by intros (s' & [= <-] & ->)].
  destruct (sockets p !! s) as [[]|] eqn:E; try done. eauto.
Qed.

Lemma doSendMessage_sends t p :
  isWsOpen p = true -> p.(pendingRequestType) = None -> flags_ok p ->
  sends p (doSendMessage Number t p) /\ flags_ok (doSendMessage Number t p).
Proof.
  intros (s & Hs & Ho)%isWsOpen_spec Hp Hf.
  assert (forall t, fetching t p = false) as Hn.
  { intros t'. apply not_true_iff_false. rewrite (Hf t'), Hp. done. }
  destruct t; unfold doSendMessage, send_current; cbn [set_request set_ps set_net websocket]; rewrite Hs.
  - split.
    + eexists s, _. split; [reflexivity|]. by repeat split.
    + intros []; cbn; [done|]. pose proof (Hn Net) as H. cbn in H. rewrite H. done.
  - split.
    + eexists s, _. split; [reflexivity|]. by repeat split.
    + intros []; cbn; [|done]. pose proof (Hn Ps) as H. cbn in H. rewrite H. done.
Qed.

Lemma sendMessage_cases t p :
  flags_ok p ->
  flags_ok (sendMessage Number t p) /\
  (same_requests p (sendMessage Number t p) \/
   p.(pendingRequestType) = None /\ sends p (sendMessage Number t p)).
Proof.
  intros Hf. unfold sendMessage. destruct (isWsOpen p) eqn:Eo; cbn [negb]; [|split; [done|left; apply same_refl]].
  destruct (pendingRequestType p) as [t'|] eqn:Ep.
  - split; [|left; split; [done|split; [by cbn|by intros []]]].
    intros []; cbn; rewrite <- Ep; [apply (Hf Ps)|apply (Hf Net)].
  - destruct (fetching t p) eqn:Ef; [split; [done|left; apply same_refl]|].
    destruct (doSendMessage_sends t p Eo Ep Hf) as [H1 H2]. split; [done|]. by right.
Qed.

Lemma same_flags p p' : flags_ok p -> same_requests p p' -> flags_ok p'.
Proof. intros Hf (_ & E & H) t. rewrite H, E. apply Hf. Qed.

(** Anything but an answer either leaves the requests alone or sends one while
    none is pending. *)
Definition sends_or_keeps (p p' : Process) : Prop :=
  flags_ok p' /\ (same_requests p p' \/ p.(pendingRequestType) = None /\ sends p p').

Lemma keeps p p' : flags_ok p -> same_requests p p' -> sends_or_keeps p p'.
Proof. intros Hf H. split; [by apply (same_flags p)|by left]. Qed.

Lemma sends_after p q p' : flags_ok p -> same_requests p q -> q.(sockets) = p.(sockets) ->
  sends_or_keeps q p' -> sends_or_keeps p p'.
Proof.
  intros Hf Hs Hk [Hf' [H|[Hn (s & m & E & Ho & Es & Ep)]]]; (split; [done|]).
  - left. by apply (same_trans p q).
  - right. destruct Hs as (E1 & E2 & _). split; [congruence|]. exists s, m.
    repeat split; congruence.
Qed.

Lemma sendMessage_after t p q : flags_ok p -> same_requests p q -> q.(sockets) = p.(sockets) ->
  sends_or_keeps p (sendMessage Number t q).
Proof.
  intros Hf Hs Hk. apply (sends_after p q); [done..|]. apply sendMessage_cases. by apply (same_flags p).
Qed.

Lemma schedule_after t d p q : flags_ok p -> same_requests p q -> q.(sockets) = p.(sockets) ->
  sends_or_keeps p (scheduleInitialFetch Number t d q).
Proof.
  intros Hf Hs Hk. destruct d; cbn [scheduleInitialFetch]; [|by apply sendMessage_after].
  apply keeps; [done|]. eapply same_trans; [exact Hs|same].
Qed.

Lemma keeps_after p q r : sends_or_keeps p q -> same_requests q r -> r.(sockets) = q.(sockets) -> sends_or_keeps p r.
Proof.
  intros [Hf [H|[Hn (s & m & E & Ho & Es & Ep)]]] Hs Hk; (split; [by apply (same_flags q)|]).
  - left. by apply (same_trans p q).
  - right. split; [done|]. destruct Hs as (E1 & E2 & _). exists s, m. repeat split; congruence.
Qed.

Lemma fire_cases i p : flags_ok p -> sends_or_keeps p (fire Number i p).
Proof.
  intros Hf. unfold fire. destruct (timers p !! i) as [[t|t d|c|t|]|]; [| | | | |apply keeps; [done|apply same_refl]].
  - apply sendMessage_after; [done|apply same_refl|done].
  - destruct (isWsOpen p); [|apply keeps; [done|apply same_refl]]. apply schedule_after; [done|same|done].
  - apply keeps; [done|same].
  - apply sendMessage_after; [done|same|done].
  - cbv zeta. case_step; [|apply keeps; [done|same]].
    apply keeps; [done|]. eapply same_trans; [|apply closeWebSocket_same]. same.
Qed.

Lemma startPolling_cases t d p : flags_ok p -> sends_or_keeps p (startPolling Number t d p).
Proof.
  intros Hf. unfold startPolling. cbv zeta. set (q := set_active (Some t) (stopPolling p)).
  assert (same_requests p q) as Hq by (eapply same_trans; [apply stopPolling_same|same]).
  assert (sockets q = sockets p) as Hk by (unfold q, stopPolling; by destruct (pollingTimer p)).
  set (r := if isWsOpen q then _ else _).
  assert (sends_or_keeps p r) as Hr.
  { unfold r. destruct (isWsOpen q); [by apply schedule_after|].
    apply keeps; [done|]. eapply same_trans; [exact Hq|same]. }
  apply (keeps_after p r); [done|same|done].
Qed.

Lemma step_cases p p' :
  flags_ok p -> step p p' ->
  sends_or_keeps p p' \/ exists d, p' = onMessage Number (Some d) p.
Proof.
  intros Hf H. destruct H as [p|p|p|n b p|p|t p|t d p|p|i p|f g p|s p Hs|s d p Hs|s p Hs1 Hs2].
  - left. apply keeps; [done|apply connect_same].
  - left. apply keeps; [done|]. unfold disconnect. cbv zeta. case_step; same.
  - left. apply keeps; [done|apply initWebSocket_same].
  - left. apply keeps; [done|apply resume_same].
  - left. apply keeps; [done|apply closeWebSocket_same].
  - left. by apply sendMessage_cases.
  - left. by apply startPolling_cases.
  - left. apply keeps; [done|apply stopPolling_same].
  - left. by apply fire_cases.
  - left. apply keeps; [done|same].
  - left. apply keeps; [done|same].
  - destruct d as [d|]; [right; eauto|left; apply keeps; [done|apply same_refl]].
  - left. apply keeps; [done|same].
Qed.

(** *** Answers *)

(** The state once the answer is stored, before the queue is looked at. *)
Definition answered (rows : option (list V)) (p : Process) : Process :=
  let q := set_request None p.(queuedRequestType) false false p in
  match p.(pendingRequestType) with
  | Some t =>
      if decide (Some t = p.(activePollingType)) then
        match t with Ps => set_ps (default [] rows) false q | Net => set_net (default [] rows) false q end
      else q
  | None => q
  end.

Lemma flags_other t p : flags_ok p -> p.(pendingRequestType) <> Some t -> fetching t p = false.
Proof. intros Hf H. apply not_true_iff_false. by rewrite (Hf t). Qed.

Lemma onMessage_eq rows p :
  flags_ok p ->
  onMessage Number (Some rows) p =
    let q := answered rows p in
    match q.(queuedRequestType) with
    | Some t => if isWsOpen q then doSendMessage Number t (set_request None None false false q) else q
    | None => q
    end.
Proof.
  intros Hf. unfold onMessage, answered. pose proof (flags_other Ps p Hf) as H1. pose proof (flags_other Net p Hf) as H2.
  cbn [fetching] in H1, H2. destruct (pendingRequestType p) as [[]|] eqn:Ep; cbv zeta.
  - rewrite (H2 ltac:(done)). destruct (decide (Some Ps = activePollingType p)) as [E|E]; cbn [set_request activePollingType];
      [rewrite decide_True by done|rewrite decide_False by done]; cbn; case_step; try done; by case_step.
  - rewrite (H1 ltac:(done)). destruct (decide (Some Net = activePollingType p)) as [E|E]; cbn [set_request activePollingType];
      [rewrite decide_True by done|rewrite decide_False by done]; cbn; case_step; try done; by case_step.
  - specialize (H1 ltac:(done)). specialize (H2 ltac:(done)).
    assert (set_request None p.(queuedRequestType) false false p = p) as -> 
      by (clear Hf; destruct p; cbn in Ep, H1, H2; by subst).
    case_step; case_step; try done; try (case_step; [|done]); rewrite ?Ep, ?H1, ?H2; try done.
Qed.

Lemma answered_facts rows p :
  flags_ok p ->
  flags_ok (answered rows p) /\ (answered rows p).(pendingRequestType) = None /\
  (answered rows p).(sent) = p.(sent) /\ (answered rows p).(sockets) = p.(sockets) /\
  (answered rows p).(websocket) = p.(websocket) /\
  (answered rows p).(queuedRequestType) = p.(queuedRequestType).
Proof.
  intros Hf. unfold answered. destruct (pendingRequestType p) as [[]|]; cbv zeta;
    try destruct (decide _); (split; [intros []; done|by repeat split]).
Qed.

(** Storing an answer ends the pending request, and may send the queued one. *)
Lemma onMessage_cases rows p :
  flags_ok p ->
  let p' := onMessage Number (Some rows) p in
  flags_ok p' /\ (p'.(sent) = p.(sent) /\ p'.(pendingRequestType) = None \/ sends p p').
Proof.
  intros Hf. cbv zeta. rewrite onMessage_eq by done. cbv zeta.
  destruct (answered_facts rows p Hf) as (A1 & A2 & A3 & A4 & A5 & A6).
  destruct (queuedRequestType (answered rows p)) as [t|]; [|split; [done|left; by rewrite A3]].
  destruct (isWsOpen (answered rows p)) eqn:Eo; [|split; [done|left; by rewrite A3]].
  destruct (doSendMessage_sends t (set_request None None false false (answered rows p))) as [H1 H2];
    [exact Eo|done|intros []; done|].
  split; [done|]. right. destruct H1 as (s & m & E & Ho & Es & Ep). cbn in E, Ho, Es.
  exists s, m. rewrite <- A3, <- A4. done.
Qed.

Lemma initial_flags : flags_ok (initial_process : Process).
Proof. by intros []. Qed.

Lemma step_flags p p' : flags_ok p -> step p p' -> flags_ok p'.
Proof.
  intros Hf H. destruct (step_cases p p' Hf H) as [[H' _]|[d ->]]; [done|]. by apply onMessage_cases.
Qed.

Lemma reachable_flags p : reachable p -> flags_ok p.
Proof. intros H. by apply (star_invariant step flags_ok step_flags _ _ H), initial_flags. Qed.

(** C2. Requests never overlap: whatever the pages, the timers and the socket
    do, and in whatever order, a step sends at most one message, on an open
    socket, when no request is pending or in answer to the pending one, and
    the request it sends becomes the pending one; a type is marked as being
    fetched exactly while its request is pending. *)
Theorem one_request_at_a_time p p' :
  reachable p -> step p p' ->
  (forall t, fetching t p' = true <-> p'.(pendingRequestType) = Some t) /\
  (p'.(sent) = p.(sent) \/
   exists s m, p'.(sent) = p.(sent) ++ [(s, m)] /\ p.(sockets) !! s = Some OPEN /\
     p'.(pendingRequestType) = Some (msg_type m) /\
     (p.(pendingRequestType) = None \/ exists d, p' = onMessage Number (Some d) p)).
Proof.
  intros Hf%reachable_flags H. split; [by apply (step_flags p)|].
  destruct (step_cases p p' Hf H) as [[_ [(E & _)|[Hn (s & m & E & Ho & _ & Ep)]]]|[d ->]]; [by left|eauto 9|].
  destruct (onMessage_cases d p Hf) as [_ [[E _]|(s & m & E & Ho & _ & Ep)]]; [by left|eauto 9].
Qed.

(** An answer is stored under the type of the request it answers, and only
    while that type is being polled: the data of the other type is never
    touched, and a late answer to a page that was left is dropped. *)
Theorem onMessage_routes rows p t :
  reachable p -> p.(pendingRequestType) = Some t ->
  let p' := onMessage Number (Some rows) p in
  let data t (p : Process) := match t with Ps => p.(psData) | Net => p.(netData) end in
  data t p' = (if decide (p.(activePollingType) = Some t) then default [] rows else data t p) /\
  (forall t', t' <> t -> data t' p' = data t' p).
Proof.
  intros Hf%reachable_flags Hp. cbv zeta. rewrite onMessage_eq by done. cbv zeta.
  assert (forall t (q : Process), let r := doSendMessage Number t q in psData r = psData q /\ netData r = netData q) as Hd.
  { intros t' q. unfold doSendMessage, send_current. by destruct t'; cbn; destruct (websocket q). }
  set (q := answered rows p).
  set (r := match queuedRequestType q with Some t => _ | None => _ end).
  assert (psData r = psData q /\ netData r = netData q) as [-> ->].
  { unfold r. destruct (queuedRequestType q) as [t'|]; [|done]. destruct (isWsOpen q); [|done].
    by destruct (Hd t' (set_request None None false false q)) as [-> ->]. }
  unfold q, answered. rewrite Hp. cbv zeta.
  destruct (decide (Some t = activePollingType p)) as [E|E]; [rewrite decide_True by done|rewrite decide_False by done];
    (split; [by destruct t|]); intros [] Ht; destruct t; done.
Qed.

(** *** Reconnecting *)

(** The steps that deliver no answer. *)
Definition silent_step (p p' : Process) : Prop :=
  step p p' /\ forall d, p' <> onMessage Number (Some d) p.

(** A request that is pending when its socket is closed blocks the store
    for good: closing does not reset it, so until a message arrives no step
    sends anything, neither after reconnecting nor while polling. *)
Theorem pending_survives_close p p' :
  reachable p -> p.(pendingRequestType) <> None ->
  star silent_step (closeWebSocket p) p' ->
  p'.(sent) = p.(sent) /\ p'.(pendingRequestType) = p.(pendingRequestType).
Proof.
  intros Hf%reachable_flags Hp H.
  set (I := fun q : Process => flags_ok q /\ q.(sent) = p.(sent) /\ q.(pendingRequestType) = p.(pendingRequestType)).
  enough (I p') as (_ & ? & ?) by done.
  refine (star_invariant _ I _ _ _ H _).
  - intros a b (Ha & E1 & E2) [Hst Hno].
    destruct (step_cases a b Ha Hst) as [[Hb [(F1 & F2 & _)|[Hn _]]]|[d ->]].
    + split; [done|]. split; congruence.
    + congruence.
    + by destruct (Hno d).
  - destruct (closeWebSocket_same p) as (E1 & E2 & E3). split; [|done].
    by apply (same_flags p), closeWebSocket_same.
Qed.

(** *** Creating sockets *)

Definition inits_ok (p : Process) : Prop :=
  NoDup (List.map i_token p.(inits)) /\
  (forall i, i ∈ List.map i_token p.(inits) -> (i <= p.(initWebSocketToken))%Z) /\
  (p.(initWebSocketToken) ∈ List.map i_token p.(inits) -> p.(websocket) = None).

Definition same_inits (p p' : Process) : Prop :=
  p'.(inits) = p.(inits) /\ p'.(initWebSocketToken) = p.(initWebSocketToken) /\
  (p'.(websocket) = p.(websocket) \/ p'.(websocket) = None).

Lemma same_inits_ok p p' : inits_ok p -> same_inits p p' -> inits_ok p'.
Proof.
  intros (H1 & H2 & H3) (E1 & E2 & E3). unfold inits_ok. rewrite E1, E2.
  split; [done|]. split; [done|]. intros H. destruct E3 as [->| ->]; auto.
Qed.

Lemma same_inits_refl p : same_inits p p.
Proof. by repeat split; left. Qed.

Lemma same_inits_trans p q r : same_inits p q -> same_inits q r -> same_inits p r.
Proof.
  intros (A1 & A2 & A3) (B1 & B2 & B3). split; [congruence|]. split; [congruence|].
  destruct B3 as [->| ->]; [done|by right].
Qed.

Ltac same_i := split; [reflexivity|split; [reflexivity|left; reflexivity]].

Lemma doSend_inits t p : same_inits p (doSendMessage Number t p).
Proof. unfold doSendMessage, send_current. destruct t; cbn; destruct (websocket p); same_i. Qed.

Lemma sendMessage_inits t p : same_inits p (sendMessage Number t p).
Proof.
  unfold sendMessage. repeat case_step; try apply same_inits_refl; try same_i. apply doSend_inits.
Qed.

Lemma stopPolling_inits p : same_inits p (stopPolling p).
Proof. unfold stopPolling. destruct (pollingTimer p); same_i. Qed.

Lemma schedule_inits t d p : same_inits p (scheduleInitialFetch Number t d p).
Proof. unfold scheduleInitialFetch. destruct d; [same_i|apply sendMessage_inits]. Qed.

Lemma onMessage_inits d p : same_inits p (onMessage Number d p).
Proof.
  unfold onMessage. destruct d as [rows|]; [|apply same_inits_refl]. cbv zeta.
  set (q := match pendingRequestType p with Some Ps => _ | _ => _ end).
  assert (same_inits p q) as Hq by (unfold q; repeat case_step; same_i).
  set (r := if decide _ then _ else q).
  assert (same_inits q r) as Hr by (unfold r; repeat case_step; same_i).
  destruct (queuedRequestType r); [|by apply (same_inits_trans p q)].
  destruct (isWsOpen r); [|by apply (same_inits_trans p q)].
  apply (same_inits_trans p q), (same_inits_trans q r); [done..|].
  eapply same_inits_trans; [|apply doSend_inits]. same_i.
Qed.

Lemma initWebSocket_ok p : inits_ok p -> inits_ok (initWebSocket p).
Proof.
  intros Hi. unfold initWebSocket. destruct (websocket p) eqn:Ew; [done|]. cbn [orb].
  destruct (isConnecting p); [done|]. destruct Hi as (H1 & H2 & H3). unfold inits_ok. cbn [set_link set_init inits initWebSocketToken websocket].
  rewrite map_app. cbn [List.map i_token]. split; [|split].
  - apply list.NoDup_app. split; [done|]. split; [|by apply NoDup_singleton].
    intros i Hi Hi'. apply list_elem_of_singleton in Hi' as ->. apply H2 in Hi. lia.
  - intros i Hi. apply elem_of_app in Hi as [Hi|Hi]; [apply H2 in Hi; lia|].
    apply list_elem_of_singleton in Hi as ->. lia.
  - done.
Qed.

Lemma bump_ok p : inits_ok p -> inits_ok (set_init (initWebSocketToken p + 1) (inits p) p).
Proof.
  intros (H1 & H2 & H3). unfold inits_ok. cbn [set_init inits initWebSocketToken websocket].
  split; [done|]. split; [intros i Hi; apply H2 in Hi; lia|]. intros Hi. apply H2 in Hi. lia.
Qed.

Lemma closeWebSocket_ok p : inits_ok p -> inits_ok (closeWebSocket p).
Proof.
  intros H%bump_ok. unfold closeWebSocket. cbv zeta.
  set (q := stopPolling _). assert (inits_ok q) as Hq by (eapply same_inits_ok; [exact H|apply stopPolling_inits]).
  apply (same_inits_ok q); [done|]. destruct (websocket q); [|same_i].
  by split; [|split; [|right]].
Qed.

Lemma resume_init_ok n b p :
  inits_ok p -> inits_ok (resume_init n b p) /\
  (is_Some p.(websocket) -> (resume_init n b p).(websocket) = p.(websocket)).
Proof.
  intros Hp. pose proof Hp as (H1 & H2 & H3). unfold resume_init.
  destruct (inits p !! n) as [i|] eqn:Ei; [|by split].
  cbv zeta. set (ins := take n (inits p) ++ drop (S n) (inits p)).
  assert (List.map i_token (inits p) ≡ₚ i_token i :: List.map i_token ins) as P.
  { unfold ins. rewrite <- (take_drop_middle _ _ _ Ei) at 1. rewrite !map_app. cbn [List.map].
    by rewrite Permutation_middle. }
  assert (inits_ok (set_init (initWebSocketToken p) ins p)) as Hi.
  { unfold inits_ok. cbn [set_init inits initWebSocketToken websocket].
    split; [by rewrite P in H1; inversion H1|]. split.
    - intros j Hj. apply H2. rewrite P. by right.
    - intros Hj. apply H3. rewrite P. by right. }
  cbn [set_init initWebSocketToken connectionRefCount].
  destruct (Z.eqb_spec (i_token i) (initWebSocketToken p)) as [Et|Et]; cbn [negb orb]; [|done].
  assert (websocket p = None) as Hw by (apply H3; rewrite P, Et; by left).
  destruct (connectionRefCount p =? 0) eqn:Er.
  - split; [eapply same_inits_ok; [exact Hi|same_i]|done].
  - destruct b; [split; [eapply same_inits_ok; [exact Hi|same_i]|done]|].
    split; [|rewrite Hw; by intros [? ?]]. destruct Hi as (I1 & I2 & I3).
    unfold inits_ok. cbn [set_socket set_sockets set_timers set_init inits initWebSocketToken websocket] in *.
    split; [done|]. split; [done|]. intros Hj. rewrite P, Et in H1. by inversion_clear H1.
Qed.

Lemma step_inits p p' : inits_ok p -> step p p' -> inits_ok p'.
Proof.
  intros Hi H. destruct H as [p|p|p|n b p|p|t p|t d p|p|i p|f g p|s p Hs|s d p Hs|s p Hs1 Hs2].
  - unfold connect. cbv zeta. set (q := set_refs _ _).
    assert (inits_ok q) as Hq by (eapply same_inits_ok; [exact Hi|unfold q; destruct (disconnectTimer p); same_i]).
    case_step; [by apply initWebSocket_ok|done].
  - eapply same_inits_ok; [exact Hi|]. unfold disconnect. cbv zeta. case_step; same_i.
  - by apply initWebSocket_ok.
  - by apply resume_init_ok.
  - by apply closeWebSocket_ok.
  - eapply same_inits_ok; [exact Hi|apply sendMessage_inits].
  - eapply same_inits_ok; [exact Hi|]. unfold startPolling. cbv zeta.
    set (q := set_active (Some t) (stopPolling p)).
    assert (same_inits p q) as Hq by (eapply same_inits_trans; [apply stopPolling_inits|same_i]).
    set (r := if isWsOpen q then _ else _).
    assert (same_inits q r) as Hr by (unfold r; destruct (isWsOpen q); [apply schedule_inits|same_i]).
    eapply same_inits_trans; [exact Hq|]. eapply same_inits_trans; [exact Hr|same_i].
  - eapply same_inits_ok; [exact Hi|apply stopPolling_inits].
  - unfold fire. destruct (timers p !! i) as [[t|t d|c|t|]|]; [| | | | |done].
    + eapply same_inits_ok; [exact Hi|apply sendMessage_inits].
    + destruct (isWsOpen p); [|done]. eapply same_inits_ok; [exact Hi|].
      eapply same_inits_trans; [|apply schedule_inits]. same_i.
    + eapply same_inits_ok; [exact Hi|same_i].
    + eapply same_inits_ok; [exact Hi|]. eapply same_inits_trans; [|apply sendMessage_inits]. same_i.
    + cbv zeta. assert (inits_ok (clear_timer i p)) by (eapply same_inits_ok; [exact Hi|same_i]).
      case_step; [by apply closeWebSocket_ok|done].
  - eapply same_inits_ok; [exact Hi|same_i].
  - eapply same_inits_ok; [exact Hi|same_i].
  - eapply same_inits_ok; [exact Hi|apply onMessage_inits].
  - eapply same_inits_ok; [exact Hi|]. by split; [|split; [|right]].
Qed.

(** A connection attempt whose authentication answers late never replaces
    a socket: whatever attempts are suspended and in whatever order they
    resume, a socket is created only when the store has none. *)
Theorem init_never_replaces p n b :
  reachable p -> is_Some p.(websocket) -> (resume_init n b p).(websocket) = p.(websocket).
Proof.
  intros H. assert (inits_ok p) as Hi.
  { apply (star_invariant step inits_ok step_inits _ _ H).
    split; [constructor|]. split; [|done]. intros i Hi. inversion Hi. }
  by apply resume_init_ok.
Qed.
End Properties.

(** ** Runs *)

Definition process0 : @Process N N := initial_process.
Definition opened (p : @Process N N) : Process := browser_open p.(next_id) (resume_init 0 false (connect p)).
Definition number : jsstr -> N := digits_val.

Lemma opened_reachable p :
  process_reachable number p ->
  sockets (resume_init 0 false (connect p)) !! p.(next_id) = Some CONNECTING ->
  process_reachable number (opened p).
Proof.
  intros H Hs. eapply star_trans; [exact H|]. eapply star_step; [apply ps_connect|].
  eapply star_step; [apply (ps_resume _ 0 false)|]. apply star_one. by apply ps_open.
Qed.

(** The process page polls, is left while a request is in flight, and is
    opened again. *)
Definition polling : @Process N N := startPolling number Ps false (opened process0).
Definition left_page : @Process N N := closeWebSocket polling.
Definition back1 : @Process N N := browser_close 0 left_page.
Definition back2 : @Process N N := connect back1.
Definition back3 : @Process N N := resume_init 0 false back2.
Definition back4 : @Process N N := browser_open 2 back3.
Definition back5 : @Process N N := startPolling number Ps false back4.
Definition back : @Process N N := fire number 3 back5.

Lemma polling_reachable : process_reachable number polling.
Proof.
  eapply star_trans; [apply (opened_reachable process0); [apply star_refl|reflexivity]|].
  apply star_one, ps_startPolling.
Qed.

Lemma one_request_at_a_time_witness :
  let p := sendMessage number Net polling in
  let p' := onMessage number (Some (Some [7%N])) p in
  length p'.(sent) = 2 /\
  (forall t, fetching t p' = true <-> p'.(pendingRequestType) = Some t) /\
  (p'.(sent) = p.(sent) \/
   exists s m, p'.(sent) = p.(sent) ++ [(s, m)] /\ p.(sockets) !! s = Some OPEN /\
     p'.(pendingRequestType) = Some (msg_type m) /\
     (p.(pendingRequestType) = None \/ exists d, p' = onMessage number (Some d) p)).
Proof.
  cbv zeta. split; [vm_compute; reflexivity|]. apply (one_request_at_a_time number).
  - eapply star_trans; [apply polling_reachable|]. apply star_one, ps_send.
  - apply (ps_message number 0). left. reflexivity.
Defined.

Lemma onMessage_routes_witness :
  let p' := onMessage number (Some (Some [7%N])) polling in
  p'.(psData) = (if decide (polling.(activePollingType) = Some Ps) then [7%N] else polling.(psData)) /\
  (forall t', t' <> Ps -> (match t' with Ps => p'.(psData) | Net => p'.(netData) end) =
    (match t' with Ps => polling.(psData) | Net => polling.(netData) end)).
Proof.
  apply (onMessage_routes number (Some [7%N]) polling Ps); [apply polling_reachable|reflexivity].
Defined.

(** A step that neither ends the pending request nor sends is not an answer. *)
Ltac not_answer :=
  let d := fresh in let H := fresh in
  intros d H; apply (f_equal (fun p => (pendingRequestType p, length (sent p)))) in H; vm_compute in H; discriminate H.

Lemma pending_survives_close_witness :
  isWsOpen back = true /\ back.(activePollingType) = Some Ps /\ length polling.(sent) = 1 /\
  (back.(sent) = polling.(sent) /\ back.(pendingRequestType) = polling.(pendingRequestType)).
Proof.
  split; [vm_compute; reflexivity|]. split; [vm_compute; reflexivity|]. split; [vm_compute; reflexivity|].
  apply (pending_survives_close number); [apply polling_reachable|discriminate|].
  apply (star_step _ _ back1); [split; [apply (ps_close number 0); [vm_compute; discriminate|vm_compute; eauto]|not_answer]|].
  apply (star_step _ _ back2); [split; [apply ps_connect|not_answer]|].
  apply (star_step _ _ back3); [split; [apply ps_resume|not_answer]|].
  apply (star_step _ _ back4); [split; [apply (ps_open number 2 back3); vm_compute; reflexivity|not_answer]|].
  apply (star_step _ _ back5); [split; [apply ps_startPolling|not_answer]|].
  apply star_one. split; [apply (ps_fire number 3 back5)|not_answer].
Defined.

Lemma init_never_replaces_witness :
  let p := closeWebSocket (connect process0) in
  let p' := browser_open 0 (resume_init 1 false (connect p)) in
  is_Some p'.(websocket) /\ (resume_init 0 false p').(websocket) = p'.(websocket).
Proof.
  cbv zeta. split; [vm_compute; eauto|]. apply (init_never_replaces number); [|vm_compute; eauto].
  eapply star_step; [apply ps_connect|]. eapply star_step; [apply ps_closeWebSocket|].
  eapply star_step; [apply ps_connect|]. eapply star_step; [apply (ps_resume _ 1 false)|].
  apply star_one, ps_open. reflexivity.
Defined.

(** The page is left and opened again before the browser has closed the old
    socket, whose handler then forgets the new one. *)
Definition reopened : @Process N N := browser_close 0 (opened (closeWebSocket (disconnect (opened process0)))).

(** The close handler of an old socket drops the new one: a run of the store
    leads to an open socket that nothing refers to, with a page still connected,
    so the page is never polled and the socket is never closed by the store. *)
Theorem stale_close_orphans :
  exists p : @Process N N, process_reachable number p /\ p.(websocket) = None /\
    p.(connectionRefCount) = 1 /\ p.(isConnected) = false /\
    exists s, p.(sockets) !! s = Some OPEN.
Proof.
  exists reopened. split; [|split; [reflexivity|split; [reflexivity|split; [reflexivity|]]]].
  - unfold reopened. eapply star_trans; [|apply star_one, ps_close; [vm_compute; congruence|vm_compute; eauto]].
    apply opened_reachable; [|vm_compute; reflexivity].
    eapply star_trans; [apply (opened_reachable process0); [apply star_refl|reflexivity]|].
    eapply star_step; [apply ps_disconnect|]. apply star_one, ps_closeWebSocket.
  - exists (next_id (closeWebSocket (disconnect (opened process0)))). vm_compute. reflexivity.
Qed.
