(* ===== verification/ExtensionRoutes.v ===== *)
(** * The routes of the extensions

    src/frontend/src/extensions/routes.ts.  Route records are objects that are shared: the
    record a module exports is the one that becomes a child of another.  So records live in a
    heap and are named by their addresses.  The modules of the extensions, which the build
    collects, are arguments. *)

From S2P Require Import Prelude JsString Sorting.

#[local] Open Scope list_scope.

Record ExtensionRouteRecord := {
  name : option jsstr;
  parentRouteName : option jsstr;      (* meta?.parentRouteName *)
  insertAfter : option jsstr;          (* meta?.insertAfter *)
  sort : option Z;
  children : option (list nat)
}.

Abbreviation Heap := (gmap nat ExtensionRouteRecord).

(** Modules by their paths, with the record each exports by default. *)
Abbreviation RouteModuleMap := (list (jsstr * option nat)).

(** [object[key] = value] *)
Fixpoint set_module (key : jsstr) (v : option nat) (ms : RouteModuleMap) : RouteModuleMap :=
  match ms with
  | [] => [(key, v)]
  | (k, w) :: ms' => if k === key then (key, v) :: ms' else (k, w) :: set_module key v ms'
  end.

(** [{ ...a, ...b }] *)
Definition spread (a b : RouteModuleMap) : RouteModuleMap :=
  fold_left (fun ms m => set_module m.1 m.2 ms) b a.

Definition MAX_VALUE : Z := (2 ^ 1024 - 2 ^ 971)%Z.

Definition route_sort (h : Heap) (i : nat) : Z := default MAX_VALUE (h !! i ≫= sort).
Definition route_name (h : Heap) (i : nat) : option jsstr := h !! i ≫= name.

(** A text that is set and not empty. *)
Definition given (s : option jsstr) : option jsstr := s ≫= fun t => if truthy t then Some t else None.

(** [rawRoutes] *)
Definition raw_routes (h : Heap) (routes : RouteModuleMap) : list nat := sort_by (route_sort h) (omap snd routes).

(** [routeMap]: of the records of one name the last one. *)
Definition route_map (h : Heap) (records : list nat) : gmap jsstr nat :=
  fold_left (fun m i => match given (route_name h i) with Some n => <[n := i]> m | None => m end) records ∅.

(** [Array.isArray(route.children) ? route.children : []] *)
Definition kids (h : Heap) (i : nat) : list nat := default [] (h !! i ≫= children).

Definition set_children (l : list nat) (r : ExtensionRouteRecord) : ExtensionRouteRecord :=
  {| name := r.(name); parentRouteName := r.(parentRouteName); insertAfter := r.(insertAfter);
     sort := r.(sort); children := Some l |}.

(** [insertIndex] *)
Definition insert_index (h : Heap) (l : list nat) (after : option jsstr) : Z :=
  match given after with
  | Some a => (match list_find (fun i => route_name h i = Some a) l with Some (k, _) => Z.of_nat k | None => -1 end + 1)%Z
  | None => (-1)%Z
  end.

Definition insert_route (h : Heap) (i : nat) (after : option jsstr) (l : list nat) : list nat :=
  let ix := insert_index h l after in
  if (0 <? ix)%Z then take (Z.to_nat ix) l ++ i :: drop (Z.to_nat ix) l else l ++ [i].

(** The record the route names as its parent. *)
Definition parent_of (m : gmap jsstr nat) (h : Heap) (i : nat) : option nat :=
  given (h !! i ≫= parentRouteName) ≫= fun p => m !! p.

(** One turn of the loop over [rawRoutes]; [mergedRouteNames] may hold undefined. *)
Definition merge_step (m : gmap jsstr nat) (s : Heap * list (option jsstr)) (i : nat) : Heap * list (option jsstr) :=
  let '(h, merged) := s in
  match parent_of m h i with
  | Some parent =>
      (alter (set_children (insert_route h i (h !! i ≫= insertAfter) (kids h parent))) parent h, route_name h i :: merged)
  | None => s
  end.

Definition getXpackRoutes (h : Heap) (baseModules xpackRoutes enterpriseRoutes : RouteModuleMap) : Heap * RouteModuleMap :=
  let routes := spread xpackRoutes enterpriseRoutes in
  let raw := raw_routes h routes in
  let m := route_map h (omap snd baseModules ++ raw) in
  let '(h', merged) := fold_left (merge_step m) raw (h, []) in
  (h', List.filter (fun md => negb (bool_decide (md.2 ≫= route_name h' ∈ merged))) routes).

(** ** Lemmas *)

(** Two heaps whose records differ in their children only. *)
Definition same_but_children (h h' : Heap) : Prop :=
  forall i, route_name h' i = route_name h i /\ h' !! i ≫= parentRouteName = h !! i ≫= parentRouteName /\
    h' !! i ≫= insertAfter = h !! i ≫= insertAfter /\ (is_Some (h' !! i) <-> is_Some (h !! i)).

Lemma same_refl_heap h : same_but_children h h.
Proof. by intros i. Qed.

Lemma same_alter h p l : same_but_children h (alter (set_children l) p h).
Proof.
  intros i. unfold route_name. destruct (decide (p = i)) as [->|Hne].
  - rewrite lookup_alter_eq. destruct (h !! i) as [r|]; cbn; [|done]. repeat split; intros _; by eexists.
  - by rewrite lookup_alter_ne.
Qed.

Lemma same_trans_heap h1 h2 h3 : same_but_children h1 h2 -> same_but_children h2 h3 -> same_but_children h1 h3.
Proof.
  intros H12 H23 i. destruct (H12 i) as (a & b & c & d), (H23 i) as (a' & b' & c' & d').
  rewrite a', b', c'. tauto.
Qed.

Lemma kids_alter h p l i : is_Some (h !! p) -> kids (alter (set_children l) p h) i = if decide (i = p) then l else kids h i.
Proof.
  intros [r Hr]. unfold kids. destruct (decide (i = p)) as [->|Hne].
  - by rewrite lookup_alter_eq, Hr.
  - by rewrite lookup_alter_ne.
Qed.

(** Where the route is put among the children. *)
Lemma insert_route_split h i after l : exists l1 l2, l = l1 ++ l2 /\ insert_route h i after l = l1 ++ i :: l2.
Proof.
  unfold insert_route. destruct (0 <? _)%Z.
  - eexists _, _. split; [symmetry; apply take_drop|done].
  - exists l, []. by rewrite app_nil_r.
Qed.

Lemma insert_route_filter f h i after l :
  (f i = false -> List.filter f (insert_route h i after l) = List.filter f l) /\
  (f i = true -> List.filter f (insert_route h i after l) ≡ₚ i :: List.filter f l).
Proof.
  destruct (insert_route_split h i after l) as (l1 & l2 & -> & ->). rewrite !List.filter_app. cbn [List.filter].
  split; intros ->; [done|]. symmetry. apply Permutation_middle.
Qed.

(** The children a route is put among, and what it is put behind. *)
Lemma insert_route_place h i after l : exists l1 l2, l = l1 ++ l2 /\ insert_route h i after l = l1 ++ i :: l2 /\
  match given after with
  | None => l2 = []
  | Some a =>
      (exists l0 c, l1 = l0 ++ [c] /\ route_name h c = Some a /\ Forall (fun x => route_name h x <> Some a) l0) \/
      (l2 = [] /\ Forall (fun x => route_name h x <> Some a) l1)
  end.
Proof.
  unfold insert_route, insert_index. destruct (given after) as [a|]; [|by exists l, []; rewrite app_nil_r].
  destruct (list_find _ l) as [[k c]|] eqn:Ek.
  - apply list_find_Some in Ek as (Hk & Hn & Hfirst). destruct (Z.ltb_spec 0 (Z.of_nat k + 1)); [|lia].
    replace (Z.to_nat (Z.of_nat k + 1)) with (S k) by lia. exists (take (S k) l), (drop (S k) l).
    split; [symmetry; apply take_drop|]. split; [done|]. left. exists (take k l), c.
    split; [by apply take_S_r|]. split; [done|]. apply Forall_lookup. intros j x Hj.
    apply lookup_take_Some in Hj as [Hj Hlt]. by apply (Hfirst j).
  - apply list_find_None in Ek. exists l, []. rewrite app_nil_r. split; [done|]. split; [done|]. by right.
Qed.

Lemma given_name_some h i n : given (route_name h i) = Some n -> route_name h i = Some n.
Proof. unfold given. destruct (route_name h i); cbn; [|done]. by case_match. Qed.

Lemma route_map_in h l : forall n p, route_map h l !! n = Some p -> p ∈ l /\ is_Some (h !! p).
Proof.
  unfold route_map. assert (H : forall n p, (∅ : gmap jsstr nat) !! n = Some p -> p ∈ l /\ is_Some (h !! p)) by done.
  assert (Hl : forall x, x ∈ l -> x ∈ l) by done. revert H Hl. generalize (∅ : gmap jsstr nat) as m. generalize l at 1 3 5 as l0.
  induction l as [|i l IH]; intros l0 m Hm Hl; [done|]. cbn [fold_left]. apply IH; [|intros x Hx; apply Hl; by right].
  intros n p. destruct (given (route_name h i)) as [n'|] eqn:E; [|apply Hm].
  rewrite lookup_insert_Some. intros [[_ <-]|[_ Hp]]; [|by eapply Hm]. split; [apply Hl; by left|].
  apply given_name_some in E. unfold route_name in E. destruct (h !! i); [by eexists|done].
Qed.

(** ** Where the routes of the extensions end up *)

(** The route [i] stands at its place among the children [now], the routes left aside that are
    merged after it, [later]: the last one when it names no child to stand behind, or a name
    no child has; right behind the first child of the name otherwise. *)
Definition at_place (h0 : Heap) (later : list nat) (i : nat) (now : list nat) : Prop :=
  exists l1 l2, List.filter (fun c => negb (bool_decide (c ∈ later))) now = l1 ++ i :: l2 /\
  match given (h0 !! i ≫= insertAfter) with
  | None => l2 = []
  | Some a =>
      (exists l0 c, l1 = l0 ++ [c] /\ route_name h0 c = Some a /\ Forall (fun x => route_name h0 x <> Some a) l0) \/
      (l2 = [] /\ Forall (fun x => route_name h0 x <> Some a) l1)
  end.

(** Of the routes [raw] of the extensions those in [seen] have been merged. *)
Record merged_so_far (m : gmap jsstr nat) (raw : list nat) (h0 : Heap) (seen : list nat) (s : Heap * list (option jsstr)) : Prop := {
  mf_same : same_but_children h0 s.1;
  mf_names : forall n, n ∈ s.2 <-> exists i, i ∈ seen /\ is_Some (parent_of m h0 i) /\ n = route_name h0 i;
  mf_kids : forall r,
    List.filter (fun c => negb (bool_decide (c ∈ raw))) (kids s.1 r) = kids h0 r /\
    List.filter (fun c => bool_decide (c ∈ raw)) (kids s.1 r) ≡ₚ
      List.filter (fun i => bool_decide (parent_of m h0 i = Some r)) seen;
  mf_place : forall l1 i l2 r, seen = l1 ++ i :: l2 -> parent_of m h0 i = Some r -> at_place h0 l2 i (kids s.1 r)
}.

Lemma parent_of_same m h h' i : same_but_children h h' -> parent_of m h' i = parent_of m h i.
Proof. intros Hs. unfold parent_of. destruct (Hs i) as (_ & -> & _). done. Qed.

Lemma insert_route_same h h' i after l : same_but_children h h' -> insert_route h' i after l = insert_route h i after l.
Proof.
  intros Hs. unfold insert_route, insert_index. destruct (given after) as [a|]; [|done].
  assert (E : list_find (fun i => route_name h' i = Some a) l = list_find (fun i => route_name h i = Some a) l).
  { apply list_find_ext. intros x. destruct (Hs x) as (-> & _). done. }
  by rewrite E.
Qed.

Lemma filter_later (later : list nat) i h after l : i ∉ l ->
  List.filter (fun c => negb (bool_decide (c ∈ later ++ [i]))) (insert_route h i after l) =
  List.filter (fun c => negb (bool_decide (c ∈ later))) l.
Proof.
  intros Hi. rewrite (proj1 (insert_route_filter _ h i after l)) by (rewrite bool_decide_eq_true_2; [done|set_solver]).
  apply List.filter_ext_in. intros c Hc%list_elem_of_In. f_equal. apply bool_decide_ext. set_solver.
Qed.

Lemma filter_later_none (later : list nat) i l : i ∉ l ->
  List.filter (fun c => negb (bool_decide (c ∈ later ++ [i]))) l = List.filter (fun c => negb (bool_decide (c ∈ later))) l.
Proof. intros Hi. apply List.filter_ext_in. intros c Hc%list_elem_of_In. f_equal. apply bool_decide_ext. set_solver. Qed.

Lemma app_snoc_split {A} (seen l1 l2 : list A) i j : seen ++ [j] = l1 ++ i :: l2 ->
  (l2 = [] /\ i = j /\ l1 = seen) \/ exists l2', l2 = l2' ++ [j] /\ seen = l1 ++ i :: l2'.
Proof.
  destruct l2 as [|x l2 _] using rev_ind.
  - intros E%app_inj_2; [|done]. destruct E as [-> [= ->]]. by left.
  - rewrite app_comm_cons, app_assoc. intros E%app_inj_2; [|done]. destruct E as [-> [= ->]]. right. by exists l2.
Qed.

(** A route not merged yet is nobody's child. *)
Lemma not_yet m raw h0 seen s i r : merged_so_far m raw h0 seen s -> i ∈ raw -> i ∉ seen -> i ∉ kids s.1 r.
Proof.
  intros Hs Hi Hn Hk. destruct (mf_kids _ _ _ _ _ Hs r) as [_ H]. apply Hn.
  assert (Hx : i ∈ List.filter (fun c => bool_decide (c ∈ raw)) (kids s.1 r)).
  { apply elem_filter. split; [done|]. by rewrite bool_decide_eq_true_2. }
  rewrite H in Hx. by apply elem_filter in Hx as [? _].
Qed.

Lemma merge_place m raw h0 seen s i :
  i ∈ raw -> i ∉ seen -> merged_so_far m raw h0 seen s ->
  forall p l, parent_of m h0 i = Some p -> is_Some (s.1 !! p) -> l = insert_route h0 i (h0 !! i ≫= insertAfter) (kids s.1 p) ->
  forall l1 j l2 r, seen ++ [i] = l1 ++ j :: l2 -> parent_of m h0 j = Some r ->
  at_place h0 l2 j (kids (alter (set_children l) p s.1) r).
Proof.
  intros Hi Hn Hs p l Ep Hp -> l1 j l2 r E Hj. rewrite kids_alter by done.
  apply app_snoc_split in E as [(-> & -> & ->)|(l2' & -> & ->)].
  - assert (r = p) as -> by congruence. rewrite decide_True by done.
    destruct (insert_route_place h0 i (h0 !! i ≫= insertAfter) (kids s.1 p)) as (k1 & k2 & _ & -> & Hpl).
    exists k1, k2. split; [|done]. apply filter_all. intros c _. by rewrite bool_decide_eq_false_2 by apply not_elem_of_nil.
  - pose proof (mf_place _ _ _ _ _ Hs l1 j l2' r eq_refl Hj) as H. unfold at_place in *. case_decide as Er; [subst r|].
    + by rewrite filter_later by (by eapply not_yet).
    + by rewrite filter_later_none by (by eapply not_yet).
Qed.

Lemma merge_one m raw h0 seen s i :
  i ∈ raw -> i ∉ seen -> (forall n p, m !! n = Some p -> is_Some (h0 !! p)) ->
  merged_so_far m raw h0 seen s -> merged_so_far m raw h0 (seen ++ [i]) (merge_step m s i).
Proof.
  intros Hi Hn Hm Hs. pose proof (merge_place m raw h0 seen s i Hi Hn Hs) as Hnew. pose proof (fun r => not_yet _ _ _ _ _ i r Hs Hi Hn) as Hfree.
  destruct Hs as [Hsame Hnames Hkids Hplace]. destruct s as [h merged]. cbn [fst snd merge_step] in *.
  rewrite (parent_of_same m h0 h) by done. destruct (parent_of m h0 i) as [p|] eqn:Ep.
  2:{ constructor; cbn [fst snd]; [done|..].
      - intros n. rewrite Hnames. apply exist_proper. intros j. rewrite elem_of_app, list_elem_of_singleton.
        split; [tauto|]. intros ([?| ->] & [x Hx] & ?); [eauto|congruence].
      - intros r. destruct (Hkids r) as [H1 H2]. split; [done|]. rewrite H2, List.filter_app. cbn [List.filter].
        rewrite bool_decide_eq_false_2 by congruence. by rewrite app_nil_r.
      - intros l1 j l2 r E Hj. apply app_snoc_split in E as [(-> & -> & ->)|(l2' & -> & ->)]; [congruence|].
        unfold at_place. rewrite filter_later_none by apply Hfree. by eapply Hplace. }
  assert (Hp : is_Some (h !! p)).
  { destruct (Hsame p) as (_ & _ & _ & ->). unfold parent_of in Ep. destruct (given _); [|done]. by eapply Hm. }
  set (l := insert_route _ _ _ _).
  assert (Hl : l = insert_route h0 i (h0 !! i ≫= insertAfter) (kids h p)).
  { unfold l. destruct (Hsame i) as (_ & _ & -> & _). by apply insert_route_same. }
  assert (Hk : forall r, kids (alter (set_children l) p h) r = if decide (r = p) then l else kids h r) by (intros r; by apply kids_alter).
  constructor; cbn [fst snd].
  - eapply same_trans_heap; [exact Hsame|apply same_alter].
  - intros n. rewrite elem_of_cons, Hnames. destruct (Hsame i) as (-> & _). split.
    + intros [->|(j & Hj & Hjp & ->)]; [exists i|exists j]; rewrite elem_of_app, list_elem_of_singleton; eauto.
    + intros (j & [Hj| ->%list_elem_of_singleton]%elem_of_app & Hjp & ->); eauto.
  - intros r. rewrite Hk, List.filter_app. cbn [List.filter]. destruct (Hkids r) as [H1 H2]. destruct (decide (r = p)) as [->|Hne].
    + rewrite bool_decide_eq_true_2 by done. rewrite Hl. split.
      * rewrite (proj1 (insert_route_filter _ h0 i _ (kids h p))) by (by rewrite bool_decide_eq_true_2). done.
      * rewrite (proj2 (insert_route_filter _ h0 i _ (kids h p))) by (by rewrite bool_decide_eq_true_2). rewrite H2.
        apply Permutation_cons_append.
    + rewrite bool_decide_eq_false_2 by congruence. by rewrite app_nil_r.
  - by apply (Hnew p).
Qed.

Lemma merge_all m raw h0 todo : forall seen s,
  (forall i, i ∈ todo -> i ∈ raw) -> NoDup (seen ++ todo) -> (forall n p, m !! n = Some p -> is_Some (h0 !! p)) ->
  merged_so_far m raw h0 seen s -> merged_so_far m raw h0 (seen ++ todo) (fold_left (merge_step m) todo s).
Proof.
  induction todo as [|i todo IH]; intros seen s Hin Hd Hm Hs; cbn [fold_left]; [by rewrite app_nil_r|].
  rewrite (cons_middle i seen todo), app_assoc in Hd |- *. apply IH; [intros; apply Hin; by right|done|done|].
  apply merge_one; [apply Hin; by left| |done|done].
  apply list.NoDup_app in Hd as [Hd _]. apply list.NoDup_app in Hd as (_ & Hd & _). intros Hi. by apply (Hd i Hi); left.
Qed.

(** C23. Every route of the extensions ends up at one place, when these are named, each by a name
    of its own, and none is anybody's child yet: the modules of those whose parent is known
    are taken out of the table, the other modules stay as they are; and the parent, with its
    own children in their order, holds the route once, right behind the first child of the
    name the route gives among those there when it is merged, and last when there is none. *)
Theorem extension_routes_placed h baseModules xpackRoutes enterpriseRoutes :
  let routes := spread xpackRoutes enterpriseRoutes in
  let raw := raw_routes h routes in
  let parent := parent_of (route_map h (omap snd baseModules ++ raw)) h in
  let '(h', merged) := getXpackRoutes h baseModules xpackRoutes enterpriseRoutes in
  Forall (fun i => is_Some (route_name h i)) raw -> NoDup (List.map (route_name h) raw) ->
  (forall r c, c ∈ kids h r -> c ∉ raw) ->
  merged = List.filter (fun md => negb (bool_decide (is_Some (md.2 ≫= parent)))) routes /\
  (forall r, List.filter (fun c => negb (bool_decide (c ∈ raw))) (kids h' r) = kids h r /\
     List.filter (fun c => bool_decide (c ∈ raw)) (kids h' r) ≡ₚ List.filter (fun i => bool_decide (parent i = Some r)) raw /\
     forall before i later, raw = before ++ i :: later -> parent i = Some r -> at_place h later i (kids h' r)).
Proof.
  cbv zeta. unfold getXpackRoutes. set (routes := spread _ _). set (raw := raw_routes h routes). set (m := route_map h _).
  destruct (fold_left (merge_step m) raw (h, [])) as [h' merged] eqn:Ef. intros Hnamed Hn Hkids.
  assert (Hm : merged_so_far m raw h raw (h', merged)).
  { rewrite <- Ef. apply (merge_all m raw h raw []); [done|by apply (NoDup_fmap_1 (route_name h))|intros n p Hp; by eapply route_map_in|].
    constructor; cbn [fst snd]; [apply same_refl_heap| | |by intros [] ? ? ?].
    - intros n. rewrite elem_of_nil. split; [done|]. by intros (i & ?%elem_of_nil & _).
    - intros r. split; [apply filter_all|rewrite filter_none; [done|]]; intros c Hc; specialize (Hkids r c Hc).
      + by rewrite bool_decide_eq_false_2.
      + by rewrite bool_decide_eq_false_2. }
  destruct Hm as [Hsame Hnames Hk Hp]. cbn [fst snd] in *. split; [|intros r; destruct (Hk r) as [H1 H2]; eauto].
  apply List.filter_ext_in. intros [k [i|]] Hin; cbn [snd mbind option_bind].
  2:{ rewrite !bool_decide_eq_false_2; [done|intros [? [=]]|]. rewrite Hnames. intros (i & Hi & _ & E).
      rewrite Forall_elem in Hnamed. destruct (Hnamed i Hi). congruence. }
  f_equal. apply bool_decide_ext. destruct (Hsame i) as (-> & _). rewrite Hnames. split.
  - intros (j & Hj & Hjp & E). apply list_elem_of_In in Hin.
    assert (Hi : i ∈ raw). { unfold raw, raw_routes. rewrite sort_by_perm. apply list_elem_of_omap. by exists (k, Some i). }
    assert (i = j) as ->; [|done].
    apply list_elem_of_lookup in Hi as [a Ha], Hj as [b Hb]. assert (a = b) as ->; [|congruence].
    apply (NoDup_lookup (List.map (route_name h) raw) a b (route_name h i)); [done|..];
      change (List.map (route_name h) raw) with (route_name h <$> raw); rewrite list_lookup_fmap.
    + by rewrite Ha.
    + rewrite Hb. cbn. by rewrite E.
  - intros Hip. exists i. apply list_elem_of_In in Hin. split; [|done].
    unfold raw, raw_routes. rewrite sort_by_perm. apply list_elem_of_omap. by exists (k, Some i).
Qed.

(** ** A witness *)

(** The record 0 of the base has the child 1; the extensions export 2, to stand after 1, and
    3, which has no parent. *)
Definition sample_record (n p a : string) (l : option (list nat)) : ExtensionRouteRecord :=
  {| name := Some (js n); parentRouteName := Some (js p); insertAfter := Some (js a); sort := None; children := l |}.

Definition sample_heap : Heap :=
  <[0 := sample_record "Website" "" "" (Some [1; 4])]> (<[1 := sample_record "SSL" "" "" None]>
  (<[2 := sample_record "Waf" "Website" "SSL" None]> (<[3 := sample_record "Node" "" "" None]>
  (<[4 := sample_record "PHP" "" "" None]> ∅)))).

Definition sample_base : RouteModuleMap := [(js "website.ts", Some 0)].
Definition sample_xpack : RouteModuleMap := [(js "waf.ts", Some 2); (js "node.ts", Some 3)].

Example sample_routes :
  let '(h, merged) := getXpackRoutes sample_heap sample_base sample_xpack [] in
  merged = [(js "node.ts", Some 3)] /\ kids h 0 = [1; 2; 4].
Proof. vm_compute. auto. Qed.

Lemma sample_kids r c : c ∈ kids sample_heap r -> c ∉ [2; 3].
Proof.
  unfold kids, sample_heap. destruct (decide (r = 0)) as [->|Hr].
  - rewrite lookup_insert_eq. cbn. set_solver.
  - rewrite lookup_insert_ne by done.
    repeat (match goal with |- context [<[?k := _]> _ !! r] => destruct (decide (r = k)) as [->|] end;
      [by rewrite lookup_insert_eq; intros ?%elem_of_nil|rewrite lookup_insert_ne by done]).
    by intros ?%elem_of_nil.
Qed.

Lemma extension_routes_placed_witness :
  let '(h, merged) := getXpackRoutes sample_heap sample_base sample_xpack [] in
  merged = [(js "node.ts", Some 3)] /\
  List.filter (fun c => negb (bool_decide (c ∈ [2; 3]))) (kids h 0) = [1; 4] /\
  at_place sample_heap [3] 2 (kids h 0).
Proof.
  pose proof (extension_routes_placed sample_heap sample_base sample_xpack []) as H. cbv zeta in H.
  destruct (getXpackRoutes _ _ _ _) as [h merged]. destruct H as [H1 H2].
  - apply (bool_decide_unpack _). vm_compute. exact I.
  - apply (bool_decide_unpack _). vm_compute. exact I.
  - exact sample_kids.
  - destruct (H2 0) as (Hb & _ & Hp). split; [exact H1|]. split; [exact Hb|].
    apply (Hp [] 2 [3]); reflexivity.
Defined.
