(* ===== verification/TaskText.v ===== *)
(** * The texts of tasks

    src/frontend/src/utils/task.ts: the names of batch tasks in a line of a log are replaced
    by their translations.  [t] is vue-i18n's translation of a key with its arguments. *)

From S2P Require Import Prelude JsString Splitting Sorting.

#[local] Open Scope list_scope.

(** ** String.prototype.replaceAll with a text *)

(** What stands for the replacement [r]: its patterns name the match and the text around it. *)
Fixpoint expand (matched before after r : jsstr) : jsstr :=
  match r with
  | 36 :: 36 :: r' => 36 :: expand matched before after r'
  | 36 :: 38 :: r' => matched ++ expand matched before after r'
  | 36 :: 96 :: r' => before ++ expand matched before after r'
  | 36 :: 39 :: r' => after ++ expand matched before after r'
  | c :: r' => c :: expand matched before after r'
  | [] => []
  end%N.

(** The rest of the text after [before]; [skip] units of a match are still to drop. *)
Fixpoint substitute_go (p r s : jsstr) (skip : nat) (before : jsstr) : jsstr :=
  match s with
  | [] => []
  | a :: s' =>
      match skip with
      | S k => substitute_go p r s' k (before ++ [a])
      | O => if prefixb p s
             then expand p before (drop (length p) s) r ++ substitute_go p r s' (length p - 1) (before ++ [a])
             else a :: substitute_go p r s' 0 (before ++ [a])
      end
  end.

(** [s.replaceAll(p, r)] for a pattern that is not empty. *)
Definition substitute (s p r : jsstr) : jsstr := substitute_go p r s 0 [].

Section TaskText.
Variable t : jsstr -> list jsstr -> jsstr.

Definition agentActionKeyMap : list (string * string) :=
  [("Install", "commons.button.install"); ("Upgrade", "commons.button.upgrade"); ("Start", "commons.operate.start");
   ("Stop", "commons.operate.stop"); ("Restart", "commons.operate.restart"); ("Delete", "commons.operate.delete")]%string.

(** The actions of this file are all in the map. *)
Definition getActionText (action : string) : jsstr :=
  match List.find (fun e => bool_decide (e.1 = action)) agentActionKeyMap with
  | Some e => t (js e.2) []
  | None => []
  end.

Definition formatBatchAgentTask (action : string) : jsstr := t (js "aiTools.agents.batchAgentTask") [getActionText action].
Definition formatDispatchAgentTask (action : string) : jsstr := t (js "aiTools.agents.dispatchAgentTask") [getActionText action].
Definition formatSkillInstallTask : jsstr := js "Skill " ++ t (js "commons.button.install") [].

Definition taskTextMap : list (jsstr * jsstr) :=
  [(js "BatchInstallAgent", formatBatchAgentTask "Install");
   (js "DispatchAgentInstallTasks", formatDispatchAgentTask "Install");
   (js "BatchUpgradeAgent", formatBatchAgentTask "Upgrade");
   (js "DispatchAgentUpgradeTasks", formatDispatchAgentTask "Upgrade");
   (js "BatchInstallAgentSkill", t (js "aiTools.agents.batchAction") [t (js "aiTools.agents.installSkillAction") []]);
   (js "DispatchAgentSkillInstallTasks", t (js "aiTools.agents.dispatchTask") [formatSkillInstallTask]);
   (js "BatchStartAgent", formatBatchAgentTask "Start");
   (js "DispatchAgentStartTasks", formatDispatchAgentTask "Start");
   (js "BatchStopAgent", formatBatchAgentTask "Stop");
   (js "DispatchAgentStopTasks", formatDispatchAgentTask "Stop");
   (js "BatchRestartAgent", formatBatchAgentTask "Restart");
   (js "DispatchAgentRestartTasks", formatDispatchAgentTask "Restart");
   (js "BatchDeleteAgent", formatBatchAgentTask "Delete");
   (js "DispatchAgentDeleteTasks", formatDispatchAgentTask "Delete")]%string.

(** The entries, those of long keys first. *)
Definition longest_first : list (jsstr * jsstr) := sort_by (fun e => (- Z.of_nat (length e.1))%Z) taskTextMap.

Definition translateTaskText (value : option jsstr) : jsstr :=
  match value with
  | None | Some [] => []
  | Some value => fold_left (fun text e => substitute text e.1 e.2) longest_first value
  end.

(** ** Lemmas *)

(** The names do not depend on the language. *)
Definition task_list : list jsstr := List.map js
  ["DispatchAgentSkillInstallTasks"; "DispatchAgentInstallTasks"; "DispatchAgentUpgradeTasks"; "DispatchAgentRestartTasks";
   "DispatchAgentDeleteTasks"; "DispatchAgentStartTasks"; "BatchInstallAgentSkill"; "DispatchAgentStopTasks";
   "BatchInstallAgent"; "BatchUpgradeAgent"; "BatchRestartAgent"; "BatchDeleteAgent"; "BatchStartAgent"; "BatchStopAgent"]%string.

Lemma task_names : List.map fst longest_first = task_list.
Proof. reflexivity. Qed.

Lemma expand_plain matched before after r : 36%N ∉ r -> expand matched before after r = r.
Proof.
  induction r as [|c r IH]; intros Hr; [done|]. apply not_elem_of_cons in Hr as [Hc Hr]. cbn [expand].
  destruct c as [|p]; [by rewrite IH|]. repeat (destruct p as [p|p|]; try (by rewrite IH)); done.
Qed.

Lemma substitute_go_none p r s before : includes s p = false -> substitute_go p r s 0 before = s.
Proof.
  rewrite includes_false. revert before. induction s as [|a s IH]; intros before Hs; [done|]. cbn [substitute_go].
  destruct (prefixb p (a :: s)) eqn:E.
  - apply prefixb_spec in E as [u Hu]. by destruct (Hs [] u).
  - rewrite IH; [done|]. intros x y ->. by apply (Hs (a :: x) y).
Qed.

Lemma substitute_go_skip p r s u before : substitute_go p r (s ++ u) (length s) before = substitute_go p r u 0 (before ++ s).
Proof.
  revert before. induction s as [|a s IH]; intros before; cbn [app length substitute_go].
  - by rewrite app_nil_r.
  - destruct (s ++ u); rewrite IH, <- app_assoc; done.
Qed.

Lemma substitute_self p r : p <> [] -> 36%N ∉ r -> substitute p p r = r.
Proof.
  intros Hp Hr. unfold substitute. destruct p as [|a p]; [done|]. cbn [substitute_go].
  assert (prefixb (a :: p) (a :: p) = true) as -> by (apply prefixb_spec; exists []; by rewrite app_nil_r).
  rewrite expand_plain by done. replace (length (a :: p) - 1) with (length p) by (cbn; lia).
  pose proof (substitute_go_skip (a :: p) r p [] ([] ++ [a])) as E. rewrite app_nil_r in E. rewrite E.
  by rewrite app_nil_r.
Qed.

Lemma prefix_before_unit c p s u : c ∉ p -> prefixb p (s ++ c :: u) = prefixb p s.
Proof.
  revert s. induction p as [|a p IH]; intros s Hc; [by destruct (s ++ c :: u), s|].
  apply not_elem_of_cons in Hc as [Ha Hc]. destruct s as [|b s]; cbn [app prefixb].
  - assert ((a =? c)%N = false) as -> by (apply N.eqb_neq; congruence). done.
  - by rewrite IH.
Qed.

Lemma prefixb_length p s : prefixb p s = true -> length p <= length s.
Proof. intros [u ->]%prefixb_spec. rewrite length_app. lia. Qed.

(** A unit that is in no match separates the replacements. *)
Lemma substitute_go_unit c p r s u : c ∉ p -> p <> [] -> 36%N ∉ r -> forall skip before before' before'',
  skip <= length s ->
  substitute_go p r (s ++ c :: u) skip before = substitute_go p r s skip before' ++ c :: substitute_go p r u 0 before''.
Proof.
  intros Hc Hp Hr. assert (Hb : forall u before before'' skip, substitute_go p r u skip before = substitute_go p r u skip before'').
  { clear s u. induction u as [|a u IH]; intros before before'' skip; [done|]. cbn [substitute_go].
    destruct skip; [|apply IH]. rewrite !expand_plain by done. by rewrite !(IH (before ++ [a]) (before'' ++ [a])). }
  induction s as [|a s IH]; intros skip before before' before'' Hs; cbn [app substitute_go length] in *.
  - destruct skip; [|lia]. assert (prefixb p (c :: u) = false) as ->.
    { destruct p as [|b p]; [done|]. cbn [prefixb]. apply not_elem_of_cons in Hc as [Hcb _].
      by assert ((b =? c)%N = false) as -> by (apply N.eqb_neq; congruence). }
    cbn [app]. by rewrite (Hb u _ before'').
  - destruct skip as [|k].
    + change (a :: s ++ c :: u) with ((a :: s) ++ c :: u). rewrite (prefix_before_unit c p (a :: s) u Hc).
      destruct (prefixb p (a :: s)) eqn:E.
      * apply prefixb_length in E. cbn [length] in E. rewrite !expand_plain by done. rewrite <- app_assoc. f_equal. apply IH. lia.
      * cbn [app]. f_equal. apply IH. lia.
    + apply IH. lia.
Qed.

Lemma substitute_join c p r ws : c ∉ p -> p <> [] -> 36%N ∉ r ->
  substitute (join [c] ws) p r = join [c] (List.map (fun w => substitute w p r) ws).
Proof.
  intros Hc Hp Hr. induction ws as [|w ws IH]; [done|]. destruct ws as [|w' ws]; [done|].
  cbn [List.map]. rewrite !join_cons by done. unfold substitute at 1.
  change (w ++ [c] ++ ?x) with (w ++ c :: x). rewrite (substitute_go_unit c p r w _ Hc Hp Hr 0 [] [] []) by lia.
  fold (substitute w p r) (substitute (join [c] (w' :: ws)) p r). by rewrite IH.
Qed.

(** ** What is shown of a line *)

(** The texts hold no name of a task and nothing that replaceAll reads as a pattern. *)
Definition plain_texts : Prop :=
  forall e, e ∈ longest_first -> (36%N ∉ e.2) /\ (forall k, k ∈ List.map fst longest_first -> includes e.2 k = false).

(** A word that is a name is its text, another one stays. *)
Definition translated (w : jsstr) : jsstr :=
  match List.find (fun e => e.1 === w) longest_first with Some e => e.2 | None => w end.

Definition plain_word (w : jsstr) : Prop :=
  w ∈ List.map fst longest_first \/ forall k, k ∈ List.map fst longest_first -> includes w k = false.

Lemma includes_refl k : includes k k = true.
Proof. apply includes_spec. exists [], []. by rewrite app_nil_r. Qed.

(** The replacements of the entries [es] in a word. *)
Lemma fold_free es w : (forall e, e ∈ es -> includes w e.1 = false) -> fold_left (fun text e => substitute text e.1 e.2) es w = w.
Proof.
  induction es as [|e es IH]; intros Hf; [done|]. cbn [fold_left]. unfold substitute at 2.
  rewrite substitute_go_none by (apply Hf; by left). apply IH. intros x Hx. apply Hf. by right.
Qed.

Lemma fold_name es w : plain_texts -> (forall e, e ∈ es -> e ∈ longest_first) ->
  w <> [] -> NoDup (List.map fst es) ->
  (forall i j a b, i < j -> List.map fst es !! i = Some a -> List.map fst es !! j = Some b -> includes b a = false) ->
  fold_left (fun text e => substitute text e.1 e.2) es w =
    match List.find (fun e => e.1 === w) es with Some e => e.2 | None => w end \/
  w ∉ List.map fst es.
Proof.
  intros Ht. induction es as [|e es IH]; intros Hin Hw Hn Ho; [by right; apply not_elem_of_nil|].
  cbn [fold_left List.find List.map] in *. apply list.NoDup_cons in Hn as [Hne Hn]. destruct (e.1 === w) eqn:E.
  - apply streqb_eq in E as <-. left. destruct (Ht e) as [Hd Hk]; [by apply Hin; left|].
    rewrite substitute_self by done. apply fold_free. intros x Hx. apply Hk. apply elem_map. exists x. split; [done|].
    apply Hin. by right.
  - destruct (decide (w ∈ List.map fst es)) as [Hwe|Hwe].
    + left. apply list_elem_of_lookup in Hwe as Hl. destruct Hl as [j Hj].
      assert (Hf : includes w e.1 = false) by (apply (Ho 0 (S j)); [lia|done|done]).
      unfold substitute at 2. rewrite substitute_go_none by done.
      destruct IH as [Hi|Hi]; [intros x Hx; apply Hin; by right|done|done| |done|done].
      intros i j' a b Hij Ha Hb. apply (Ho (S i) (S j')); [lia|done|done].
    + right. rewrite not_elem_of_cons. split; [|done]. apply streqb_neq in E. congruence.
Qed.

(** No name is a part of a name that comes after it. *)
Lemma names_ordered i j a b : i < j -> List.map fst longest_first !! i = Some a ->
  List.map fst longest_first !! j = Some b -> includes b a = false.
Proof.
  rewrite task_names. intros Hij Ha Hb. pose proof (lookup_lt_Some _ _ _ Hb) as Hj. cbn in Hj.
  assert (Hall : forallb (fun j => forallb (fun i => match task_list !! i, task_list !! j with
    | Some a, Some b => negb (includes b a) | _, _ => true end) (seq 0 j)) (seq 0 14) = true) by (vm_compute; reflexivity).
  rewrite forallb_forall in Hall. specialize (Hall j ltac:(apply in_seq; lia)).
  rewrite forallb_forall in Hall. specialize (Hall i ltac:(apply in_seq; lia)).
  cbn beta in Hall. rewrite Ha, Hb in Hall. by apply negb_true_iff.
Qed.

Lemma no_empty_name : [] ∉ task_list.
Proof. apply (bool_decide_unpack _). vm_compute. exact I. Qed.

Lemma translate_word w : plain_texts -> plain_word w ->
  fold_left (fun text e => substitute text e.1 e.2) longest_first w = translated w.
Proof.
  intros Ht [Hw|Hw].
  - destruct (fold_name longest_first w) as [E|E]; [done|done| | |by apply names_ordered|exact E|done].
    + intros ->. rewrite task_names in Hw. by apply no_empty_name in Hw.
    + rewrite task_names. apply (bool_decide_unpack _). vm_compute. exact I.
  - rewrite fold_free.
    + unfold translated. destruct (List.find _ longest_first) as [e|] eqn:E; [|done].
      apply find_some in E as [Hin He]. apply streqb_eq in He as <-.
      assert (Hk : e.1 ∈ List.map fst longest_first) by (apply elem_map; exists e; split; [done|by apply list_elem_of_In]).
      specialize (Hw _ Hk). by rewrite includes_refl in Hw.
    + intros e He. apply Hw. apply elem_map. by exists e.
Qed.

Lemma fold_join c es ws : (forall e, e ∈ es -> (c ∉ e.1) /\ e.1 <> [] /\ (36%N ∉ e.2)) ->
  fold_left (fun text e => substitute text e.1 e.2) es (join [c] ws) =
  join [c] (List.map (fun w => fold_left (fun text e => substitute text e.1 e.2) es w) ws).
Proof.
  revert ws. induction es as [|e es IH]; intros ws He; cbn [fold_left]; [by rewrite List.map_id|].
  destruct (He e) as (H1 & H2 & H3); [by left|]. rewrite substitute_join by done.
  rewrite IH by (intros x Hx; apply He; by right). by rewrite List.map_map.
Qed.

(** A line of words is shown word by word: the name of a batch task as its text, also the name
    that starts another one, and every other word as it is. *)
Theorem task_line_translated c ws :
  plain_texts -> Forall plain_word ws -> (forall k, k ∈ List.map fst longest_first -> c ∉ k) ->
  translateTaskText (Some (join [c] ws)) = join [c] (List.map translated ws).
Proof.
  intros Ht Hws Hc. assert (Hj : fold_left (fun text e => substitute text e.1 e.2) longest_first (join [c] ws)
    = join [c] (List.map translated ws)).
  { rewrite fold_join.
    - f_equal. apply List.map_ext_in. intros w Hw. rewrite Forall_elem in Hws. apply translate_word; [done|].
      apply Hws. by apply list_elem_of_In.
    - intros e He. assert (Hk : e.1 ∈ List.map fst longest_first) by (apply elem_map; by exists e).
      split; [by apply Hc|]. split; [|by apply Ht]. intros E. rewrite E, task_names in Hk. revert Hk.
      apply no_empty_name. }
  unfold translateTaskText. destruct (join [c] ws) eqn:E; [|done]. rewrite <- Hj.
  symmetry. apply fold_free. intros e He. assert (Hk : e.1 ∈ List.map fst longest_first) by (apply elem_map; by exists e).
  rewrite task_names in Hk. apply elem_map in Hk as (n & -> & Hn). revert n Hn. apply Forall_elem.
  apply (bool_decide_unpack _). vm_compute. exact I.
Qed.
End TaskText.

(** ** A witness *)

(** Translations that show the key and the arguments in brackets. *)
Definition bracketed (key : jsstr) (args : list jsstr) : jsstr := js "<" ++ key ++ List.concat args ++ js ">".

Lemma task_line_translated_witness :
  translateTaskText bracketed (Some (js "[TASK] BatchInstallAgentSkill DispatchAgentStopTasks")) =
  js "[TASK] <aiTools.agents.batchAction<aiTools.agents.installSkillAction>> <aiTools.agents.dispatchAgentTask<commons.operate.stop>>".
Proof.
  refine (task_line_translated bracketed 32 [js "[TASK]"; js "BatchInstallAgentSkill"; js "DispatchAgentStopTasks"] _ _ _).
  - intros e He. assert (Hall : forallb (fun e => negb (memb [36%N] (List.map (fun c => [c]) e.2)) &&
      forallb (fun k => negb (includes e.2 k)) (List.map fst (longest_first bracketed))) (longest_first bracketed) = true)
      by (vm_compute; reflexivity).
    rewrite forallb_elem in Hall. specialize (Hall e He). apply andb_true_iff in Hall as [H1 H2]. split.
    + intros Hd. apply negb_true_iff, memb_not_elem in H1. apply H1. apply elem_map. by exists 36%N.
    + intros k Hk. rewrite forallb_elem in H2. specialize (H2 k Hk). by apply negb_true_iff in H2.
  - apply list.Forall_cons. split; [right|apply list.Forall_cons; split; [left|apply list.Forall_cons; split; [left|apply Forall_nil_2]]].
    + intros k Hk. rewrite task_names in Hk. apply elem_map in Hk as (n & -> & Hn). revert n Hn. apply Forall_elem.
      apply (bool_decide_unpack _). vm_compute. exact I.
    + apply (bool_decide_unpack _). vm_compute. exact I.
    + apply (bool_decide_unpack _). vm_compute. exact I.
  - intros k Hk. rewrite task_names in Hk. apply elem_map in Hk as (n & -> & Hn). revert n Hn. apply Forall_elem.
    apply (bool_decide_unpack _). vm_compute. exact I.
Defined.
