(* ===== verification/LogViewer.v ===== *)
(** * The viewer of log files

    src/frontend/src/components/log/file/index.vue, the script of the component with the
    events its template offers, and the reader of the server it pages through
    ([ReadFileByLine] of src/agent/utils/files/utils.go).

    A call of getContent waits for its request as a task; what is left to do after it is
    [After].  Intervals have identities, since a variable that is overwritten leaves its
    interval running.  Positions are whole pixels; the place a step scrolls to is a quotient.
    The effects of one step are listed, those of nextTick last. *)

From S2P Require Import Prelude JsString TaskText.

#[local] Open Scope list_scope.
#[local] Open Scope Z_scope.

(** ** Texts of lines *)

(** A unit of the class of words. *)
Definition word_unit (c : N) : bool := is_digit c || is_lower c || is_upper c || (c =? 95)%N.

Definition hex_unit (c : N) : option N :=
  if is_digit c then Some (c - 48)%N
  else if ((97 <=? c) && (c <=? 102))%N then Some (c - 87)%N
  else if ((65 <=? c) && (c <=? 70))%N then Some (c - 55)%N
  else None.

(** The value of the digits at the start; [None] is NaN. *)
Fixpoint hex_prefix (s : jsstr) (acc : option N) : option N :=
  match s with
  | c :: s' => match hex_unit c with Some d => hex_prefix s' (Some (16 * default 0 acc + d)%N) | None => acc end
  | [] => acc
  end.

(** [parseInt(s, 16)] of four units of the class of words: 0x may stand in front. *)
Definition parse_hex (s : jsstr) : option N :=
  match s with
  | 48%N :: x :: s' => if ((x =? 120) || (x =? 88))%N then hex_prefix s' None else hex_prefix s None
  | _ => hex_prefix s None
  end.

(** A backslash, a u and four units of the class of words stand for the unit they number. *)
Fixpoint unescape (s : jsstr) : jsstr :=
  match s with
  | 92%N :: ((117%N :: a :: b :: c :: d :: s') as rest) =>
      if word_unit a && word_unit b && word_unit c && word_unit d
      then default 0%N (parse_hex [a; b; c; d]) :: unescape s'
      else 92%N :: unescape rest
  | c :: s' => c :: unescape s'
  | [] => []
  end.

(** ** Data *)

Record LogProps := {
  id : Z; type : jsstr; name : jsstr; tail : bool; taskID : jsstr; colorMode : jsstr;
  taskType : jsstr; taskOperate : jsstr; resourceID : Z; operateNode : jsstr
}.

Definition pageSize : Z := 500.

(** What the server is asked: the fields of the request that change; the others are copied from
    the properties when the viewer is mounted. *)
Record ReadReq := { target : LogProps; page : Z; latest : bool }.

Record LogAnswer := {
  lines : option (list jsstr);
  total : Z;
  a_totalLines : Z;
  a_end : bool;
  path : jsstr;
  scope : jsstr;
  taskStatus : jsstr
}.

Definition stopSignals : list jsstr := List.map js
  ["docker-compose up failed!"; "docker-compose up successful!"; "image build failed!"; "image build successful!";
   "image pull failed!"; "image pull successful!"; "image push failed!"; "image push successful!"; "[TASK-END]"]%string.

Variant Effect :=
| EmitLoading (b : bool) | EmitContent (b : bool) | EmitReading (b : bool) | EmitStop
| RefreshTask                                            (* on the bus *)
| Request (task : nat) (req : ReadReq) (node : jsstr)
| Download (path node : jsstr)
| ScrollTo (num den : Z) | ScrollBottom.

(** What is left to do after a call of getContent: nothing, the rest of init, or the rest of
    the mounted hook. *)
Variant After := Nothing | AfterFirst | AfterSecond.
Record Task := { pre : bool; after : After }.

(** The lines and where they are in the file. *)
Record Paging := {
  logs : list jsstr; lastLogs : list jsstr; end_ : bool; maxPage : Z; minPage : Z;
  totalLines : Z; totalPages : Z; isEndOfFile : bool
}.

(** The watching of the file; [intervals] are those the browser runs. *)
Record Watching := {
  tailLog : bool; timer : option nat; intervals : gset nat; fresh_timer : nat;
  showTail : bool; isTailDisabled : bool
}.

(** What the page shows of the lines, over the size the browser gives the container. *)
Record Window := {
  containerHeight : Z; scrollTop : Z; lastScrollTop : Z;
  container : bool; observing : bool; rect_height : Z
}.

Record Viewer := {
  props : LogProps; currentNode : jsstr;
  paging : Paging; readReq : ReadReq; watching : Watching; window : Window;
  isLoading : bool; firstLoading : bool; loading : bool; logPath : jsstr;
  tasks : gmap nat Task; fresh_task : nat; effects : list Effect
}.

Section LogViewer.
Variable t : jsstr -> list jsstr -> jsstr.

(** ** Setters *)

Definition with_paging (f : Paging -> Paging) (s : Viewer) : Viewer :=
  {| props := s.(props); currentNode := s.(currentNode); paging := f s.(paging); readReq := s.(readReq);
     watching := s.(watching); window := s.(window); isLoading := s.(isLoading); firstLoading := s.(firstLoading);
     loading := s.(loading); logPath := s.(logPath); tasks := s.(tasks); fresh_task := s.(fresh_task); effects := s.(effects) |}.
Definition with_req (f : ReadReq -> ReadReq) (s : Viewer) : Viewer :=
  {| props := s.(props); currentNode := s.(currentNode); paging := s.(paging); readReq := f s.(readReq);
     watching := s.(watching); window := s.(window); isLoading := s.(isLoading); firstLoading := s.(firstLoading);
     loading := s.(loading); logPath := s.(logPath); tasks := s.(tasks); fresh_task := s.(fresh_task); effects := s.(effects) |}.
Definition with_watching (f : Watching -> Watching) (s : Viewer) : Viewer :=
  {| props := s.(props); currentNode := s.(currentNode); paging := s.(paging); readReq := s.(readReq);
     watching := f s.(watching); window := s.(window); isLoading := s.(isLoading); firstLoading := s.(firstLoading);
     loading := s.(loading); logPath := s.(logPath); tasks := s.(tasks); fresh_task := s.(fresh_task); effects := s.(effects) |}.
Definition with_window (f : Window -> Window) (s : Viewer) : Viewer :=
  {| props := s.(props); currentNode := s.(currentNode); paging := s.(paging); readReq := s.(readReq);
     watching := s.(watching); window := f s.(window); isLoading := s.(isLoading); firstLoading := s.(firstLoading);
     loading := s.(loading); logPath := s.(logPath); tasks := s.(tasks); fresh_task := s.(fresh_task); effects := s.(effects) |}.
Definition set_flags (reading first load : bool) (p : jsstr) (s : Viewer) : Viewer :=
  {| props := s.(props); currentNode := s.(currentNode); paging := s.(paging); readReq := s.(readReq);
     watching := s.(watching); window := s.(window); isLoading := reading; firstLoading := first;
     loading := load; logPath := p; tasks := s.(tasks); fresh_task := s.(fresh_task); effects := s.(effects) |}.
Definition set_tasks (ts : gmap nat Task) (n : nat) (s : Viewer) : Viewer :=
  {| props := s.(props); currentNode := s.(currentNode); paging := s.(paging); readReq := s.(readReq);
     watching := s.(watching); window := s.(window); isLoading := s.(isLoading); firstLoading := s.(firstLoading);
     loading := s.(loading); logPath := s.(logPath); tasks := ts; fresh_task := n; effects := s.(effects) |}.
Definition emit (e : Effect) (s : Viewer) : Viewer :=
  {| props := s.(props); currentNode := s.(currentNode); paging := s.(paging); readReq := s.(readReq);
     watching := s.(watching); window := s.(window); isLoading := s.(isLoading); firstLoading := s.(firstLoading);
     loading := s.(loading); logPath := s.(logPath); tasks := s.(tasks); fresh_task := s.(fresh_task); effects := s.(effects) ++ [e] |}.
Definition set_props (p : LogProps) (n : jsstr) (s : Viewer) : Viewer :=
  {| props := p; currentNode := n; paging := s.(paging); readReq := s.(readReq);
     watching := s.(watching); window := s.(window); isLoading := s.(isLoading); firstLoading := s.(firstLoading);
     loading := s.(loading); logPath := s.(logPath); tasks := s.(tasks); fresh_task := s.(fresh_task); effects := s.(effects) |}.

Definition set_isLoading (b : bool) (s : Viewer) : Viewer := set_flags b s.(firstLoading) s.(loading) s.(logPath) s.
Definition set_page (p : Z) : Viewer -> Viewer :=
  with_req (fun r => {| target := r.(target); page := p; latest := r.(latest) |}).
Definition set_latest (b : bool) : Viewer -> Viewer :=
  with_req (fun r => {| target := r.(target); page := r.(page); latest := b |}).
Definition set_logs (l : list jsstr) : Viewer -> Viewer :=
  with_paging (fun p => {| logs := l; lastLogs := p.(lastLogs); end_ := p.(end_); maxPage := p.(maxPage); minPage := p.(minPage);
    totalLines := p.(totalLines); totalPages := p.(totalPages); isEndOfFile := p.(isEndOfFile) |}).
Definition set_pages (mx mn : Z) (eof : bool) : Viewer -> Viewer :=
  with_paging (fun p => {| logs := p.(logs); lastLogs := p.(lastLogs); end_ := p.(end_); maxPage := mx; minPage := mn;
    totalLines := p.(totalLines); totalPages := p.(totalPages); isEndOfFile := eof |}).
Definition set_tailLog (b : bool) : Viewer -> Viewer :=
  with_watching (fun w => {| tailLog := b; timer := w.(timer); intervals := w.(intervals); fresh_timer := w.(fresh_timer);
    showTail := w.(showTail); isTailDisabled := w.(isTailDisabled) |}).

(** ** The rows on the page *)

Definition isTaskMode (s : Viewer) : bool := s.(props).(colorMode) === js "task".
Definition logHeight (s : Viewer) : Z := if isTaskMode s then 16 else 23.
Definition logCount (s : Viewer) : Z := Z.of_nat (length s.(paging).(logs)).
Definition totalHeight (s : Viewer) : Z := logCount s * logHeight s.
Definition buffer : Z := 5.
Definition visibleCount (s : Viewer) : Z := - ((- s.(window).(containerHeight)) / logHeight s) + buffer * 2.
Definition startIndex (s : Viewer) : Z := Z.max 0 (s.(window).(scrollTop) / logHeight s - buffer).
Definition endIndex (s : Viewer) : Z := Z.min (logCount s) (startIndex s + visibleCount s).
Definition visibleLogs (s : Viewer) : list jsstr :=
  drop (Z.to_nat (startIndex s)) (take (Z.to_nat (endIndex s)) s.(paging).(logs)).
Definition offsetY (s : Viewer) : Z := startIndex s * logHeight s.

(** ** Operations *)

Definition updateContainerHeight : Viewer -> Viewer :=
  with_window (fun w => if w.(container)
    then {| containerHeight := w.(rect_height); scrollTop := w.(scrollTop); lastScrollTop := w.(lastScrollTop);
            container := true; observing := w.(observing); rect_height := w.(rect_height) |}
    else w).

Definition changeLoading (s : Viewer) : Viewer :=
  let s := set_flags s.(isLoading) s.(firstLoading) (negb s.(loading)) s.(logPath) s in
  emit (EmitLoading s.(loading)) s.

(** The node of the properties, or the one the panel works on. *)
Definition node_of (s : Viewer) : jsstr :=
  if truthy s.(props).(operateNode) then s.(props).(operateNode) else s.(currentNode).

Definition onDownload (s : Viewer) : Viewer :=
  let s := changeLoading s in changeLoading (emit (Download s.(logPath) (node_of s)) s).

Definition onCloseLog (s : Viewer) : Viewer :=
  let s := with_watching (fun w => {| tailLog := false; timer := None;
    intervals := match w.(timer) with Some i => w.(intervals) ∖ {[i]} | None => w.(intervals) end;
    fresh_timer := w.(fresh_timer); showTail := w.(showTail); isTailDisabled := w.(isTailDisabled) |}) s in
  emit RefreshTask (emit (EmitReading false) (set_isLoading false (emit EmitStop s))).

Definition changeTail (fromOutSide : bool) (s : Viewer) : Viewer :=
  let s := if fromOutSide then set_tailLog (negb s.(watching).(tailLog)) s else s in
  if s.(watching).(tailLog)
  then with_watching (fun w => {| tailLog := w.(tailLog); timer := Some w.(fresh_timer);
         intervals := {[w.(fresh_timer)]} ∪ w.(intervals); fresh_timer := S w.(fresh_timer);
         showTail := w.(showTail); isTailDisabled := w.(isTailDisabled) |}) s
  else onCloseLog s.

Definition clearLog (s : Viewer) : Viewer :=
  let s := with_paging (fun p => {| logs := []; lastLogs := []; end_ := p.(end_); maxPage := p.(maxPage); minPage := p.(minPage);
    totalLines := p.(totalLines); totalPages := p.(totalPages); isEndOfFile := p.(isEndOfFile) |}) s in
  set_page 1 (with_window (fun w => {| containerHeight := w.(containerHeight); scrollTop := 0; lastScrollTop := w.(lastScrollTop);
    container := w.(container); observing := w.(observing); rect_height := w.(rect_height) |}) s).

(** *** getContent *)

(** Up to its await, when nothing is read. *)
Definition send_read (pr : bool) (a : After) (s : Viewer) : Viewer :=
  let s := if s.(readReq).(page) <? 1 then set_page 1 s else s in
  let s := emit (EmitReading true) (set_isLoading true s) in
  emit (Request s.(fresh_task) s.(readReq) (node_of s))
    (set_tasks (<[s.(fresh_task) := {| pre := pr; after := a |}]> s.(tasks)) (S s.(fresh_task)) s).

(** The mounted hook after init. *)
Definition after_init (s : Viewer) : Viewer :=
  let s := updateContainerHeight s in
  if s.(window).(container)
  then emit ScrollBottom (with_window (fun w => {| containerHeight := w.(containerHeight); scrollTop := w.(scrollTop);
         lastScrollTop := w.(lastScrollTop); container := true; observing := true; rect_height := w.(rect_height) |}) s)
  else s.

(** init after its first await; a second read does not wait while something is read. *)
Definition after_first (s : Viewer) : Viewer :=
  if (1 <? s.(readReq).(page)) && (s.(paging).(totalPages) =? s.(paging).(maxPage)) then
    let s := set_page (s.(readReq).(page) - 1) s in
    if s.(isLoading) then after_init s else send_read true AfterSecond s
  else after_init s.

Definition continue_ (a : After) (s : Viewer) : Viewer :=
  match a with Nothing => s | AfterFirst => after_first s | AfterSecond => after_init s end.

Definition getContent (pr : bool) (a : After) (s : Viewer) : Viewer :=
  if s.(isLoading) then continue_ a s else send_read pr a s.

(** The request fails. *)
Definition read_failed (s : Viewer) : Viewer := set_flags false false s.(loading) s.(logPath) s.

(** The answer, up to the lines. *)
Definition receive_head (res : LogAnswer) (s : Viewer) : Viewer :=
  let finished := truthy res.(taskStatus) && negb (res.(taskStatus) === js "Executing") in
  let s := with_watching (fun w => {| tailLog := if finished then false else w.(tailLog); timer := w.(timer);
    intervals := w.(intervals); fresh_timer := w.(fresh_timer);
    showTail := if res.(scope) === js "tail" then false else w.(showTail);
    isTailDisabled := if finished then true else w.(isTailDisabled) |}) s in
  let s := set_flags s.(isLoading) false s.(loading) res.(path) s in
  with_paging (fun p => {| logs := p.(logs);
    lastLogs := if negb p.(end_) && res.(a_end) then p.(logs) else p.(lastLogs);
    end_ := p.(end_); maxPage := p.(maxPage); minPage := p.(minPage);
    totalLines := res.(a_totalLines); totalPages := p.(totalPages); isEndOfFile := p.(isEndOfFile) |}) s.

Definition line_text (line : jsstr) : jsstr := translateTaskText t (Some (unescape line)).

Definition next_page (newLogs : list jsstr) (res : LogAnswer) (s : Viewer) : Viewer :=
  if s.(watching).(tailLog) && (Z.of_nat (length newLogs) =? pageSize) && (s.(readReq).(page) <? res.(total))
  then set_page (s.(readReq).(page) + 1) s else s.

(** The last line of a php log has been shown already. *)
Definition same_last (newLogs : list jsstr) (s : Viewer) : bool :=
  (s.(readReq).(target).(type) === js "php") &&
  match list.last s.(paging).(logs), list.last newLogs with Some a, Some b => b === a | _, _ => false end.

Definition stops (newLogs : list jsstr) : bool :=
  match list.last newLogs with Some l => existsb (endsWith l) stopSignals | None => false end.

(** The lines that are shown afterwards. *)
Definition join_logs (pr : bool) (newLogs : list jsstr) (p : Paging) : list jsstr :=
  match p.(logs) with
  | [] => newLogs
  | _ :: _ =>
      if pr then newLogs ++ p.(logs)
      else if p.(end_) then p.(lastLogs) ++ newLogs
      else if (length p.(logs) <? length newLogs)%nat then newLogs
      else p.(logs) ++ newLogs
  end.

(** The answer after the lines, up to the cut. *)
Definition receive_pages (res : LogAnswer) (s : Viewer) : Viewer :=
  let s := with_paging (fun p => {| logs := p.(logs); lastLogs := p.(lastLogs); end_ := res.(a_end);
    maxPage := p.(maxPage); minPage := p.(minPage); totalLines := p.(totalLines); totalPages := res.(total);
    isEndOfFile := p.(isEndOfFile) |}) s in
  let s := emit (EmitContent (bool_decide (s.(paging).(logs) <> []))) s in
  if s.(readReq).(latest) then
    let many := match res.(lines) with Some l => 500 <? Z.of_nat (length l) | None => false end in
    set_pages res.(total) (if many then res.(total) - 1 else res.(total)) true
      (set_latest false (set_page res.(total) s))
  else set_pages (Z.max s.(paging).(maxPage) s.(readReq).(page)) s.(paging).(minPage) s.(paging).(isEndOfFile) s.

(** More than 3000 lines are cut by a page, at the end they were not added to.  The second
    component is the place to scroll to. *)
Definition cut (pr : bool) (s : Viewer) : Viewer * option Effect :=
  let l := s.(paging).(logs) in
  let n := Z.of_nat (length l) in
  if 3000 <? n then
    let p := s.(paging) in
    if pr then
      (set_pages (if 1 <? p.(maxPage) then p.(maxPage) - 1 else p.(maxPage)) p.(minPage) p.(isEndOfFile)
         (set_logs (take (length l - 500) l) s), None)
    else
      let h := logHeight s in
      (set_pages p.(maxPage) (if 1 <? p.(minPage) then p.(minPage) + 1 else p.(minPage)) false (set_logs (drop 500 l) s),
       Some (ScrollTo (Z.max 0 (s.(window).(scrollTop) * (n - 500) - 500 * h * n)) n))
  else (s, None).

(** An effect of nextTick, which needs the container. *)
Definition on_tick (e : Effect) (s : Viewer) : Viewer := if s.(window).(container) then emit e s else s.

(** The place to scroll to after [added] lines. *)
Definition scroll_after (pr : bool) (added : nat) (s : Viewer) : Viewer :=
  if pr then
    if 1 <? s.(readReq).(page)
    then on_tick (ScrollTo (s.(window).(lastScrollTop) + Z.of_nat added * logHeight s) 1) s
    else s
  else on_tick ScrollBottom s.

(** getContent after its await, with the answer, and what waits for it. *)
Definition receive (tk : Task) (res : LogAnswer) (s : Viewer) : Viewer :=
  let s := receive_head res s in
  let newLogs := List.map line_text (default [] res.(lines)) in
  match newLogs with
  | [] =>
      let '(s, e) := cut tk.(pre) (receive_pages res s) in
      let s := continue_ tk.(after) (set_isLoading false s) in
      match e with Some e => on_tick e s | None => s end
  | _ :: _ =>
      let s := next_page newLogs res s in
      if same_last newLogs s then continue_ tk.(after) (set_isLoading false s)
      else
        let s := if stops newLogs then onCloseLog s else s in
        let s := set_logs (join_logs tk.(pre) newLogs s.(paging)) s in
        let '(s, e) := cut tk.(pre) (receive_pages res s) in
        let s := scroll_after tk.(pre) (length newLogs) (continue_ tk.(after) (set_isLoading false s)) in
        match e with Some e => on_tick e s | None => s end
  end.

(** *** Scrolling *)

Definition onScroll (top scrollHeight clientHeight : Z) (s : Viewer) : Viewer :=
  if negb s.(window).(container) then s
  else
    let s := with_window (fun w => {| containerHeight := w.(containerHeight); scrollTop := top; lastScrollTop := top;
      container := true; observing := w.(observing); rect_height := w.(rect_height) |}) s in
    let p := s.(paging) in
    if s.(isLoading) then s
    else if (top <=? 50) && (1 <? s.(readReq).(page)) then
      if p.(minPage) <=? 1 then s
      else
        let pg := if 1 <? p.(minPage) then p.(minPage) - 1 else 1 in
        getContent true Nothing (set_pages p.(maxPage) pg p.(isEndOfFile) (set_page pg s))
    else if (scrollHeight - top - clientHeight <=? 50) && negb p.(end_) && negb p.(isEndOfFile) then
      if s.(readReq).(page) <? p.(maxPage) then getContent false Nothing (set_page p.(maxPage) s)
      else if s.(readReq).(page) <? p.(totalPages) then
        getContent false Nothing (set_page (p.(maxPage) + 1) (set_pages (p.(maxPage) + 1) p.(minPage) p.(isEndOfFile) s))
      else s
    else s.

(** *** The life of the component *)

Definition init (s : Viewer) : Viewer :=
  let s := set_tailLog s.(props).(tail) s in
  let s := if s.(watching).(tailLog) then changeTail false s else s in
  getContent false AfterFirst (set_latest true s).

(** The component mounted with its properties; [show] and [load] are showTail and loading. *)
Definition mounted (p : LogProps) (node : jsstr) (show load : bool) (height : Z) : Viewer :=
  init {| props := p; currentNode := node;
    paging := {| logs := []; lastLogs := []; end_ := false; maxPage := 0; minPage := 0; totalLines := 0; totalPages := 0;
                 isEndOfFile := false |};
    readReq := {| target := p; page := 1; latest := false |};
    watching := {| tailLog := true; timer := None; intervals := ∅; fresh_timer := 0; showTail := show; isTailDisabled := false |};
    window := {| containerHeight := 500; scrollTop := 0; lastScrollTop := 0; container := true; observing := false; rect_height := height |};
    isLoading := false; firstLoading := true; loading := load; logPath := []; tasks := ∅; fresh_task := 0; effects := [] |}.

Definition unmounted (s : Viewer) : Viewer :=
  onCloseLog (with_window (fun w => {| containerHeight := w.(containerHeight); scrollTop := w.(scrollTop);
    lastScrollTop := w.(lastScrollTop); container := false; observing := w.(observing); rect_height := w.(rect_height) |}) s).

Inductive Event :=
| Refresh | ToggleTail | DownloadClicked                   (* buttons of the template *)
| ParentTail | ParentDownload | ParentClear                 (* what is exposed *)
| Scroll (top scrollHeight clientHeight : Z)
| Resized (height : Z)
| Tick (i : nat)                                          (* of an interval *)
| SetProps (p : LogProps) (node : jsstr) | SetLoading (b : bool)
| Unmount
| Answer (task : nat) (res : LogAnswer) | Failure (task : nat).

Definition Resized_to (height : Z) : Viewer -> Viewer :=
  with_window (fun w => {| containerHeight := if w.(observing) && w.(container) then height else w.(containerHeight);
    scrollTop := w.(scrollTop); lastScrollTop := w.(lastScrollTop); container := w.(container);
    observing := w.(observing); rect_height := height |}).

(** Events of the page need the component: [container] is set as long as it is mounted. *)
Definition on_page (f : Viewer -> Viewer) (s : Viewer) : Viewer := if s.(window).(container) then f s else s.

Definition handle (defaultButton showDownload : bool) (e : Event) (s : Viewer) : Viewer :=
  match e with
  | Refresh => on_page (fun s => if defaultButton && negb s.(watching).(showTail) then getContent false Nothing s else s) s
  | ToggleTail =>
      on_page (fun s => if defaultButton && s.(watching).(showTail) && negb s.(watching).(isTailDisabled)
                        then changeTail false (set_tailLog (negb s.(watching).(tailLog)) s) else s) s
  | DownloadClicked =>
      on_page (fun s => if defaultButton && showDownload && bool_decide (s.(paging).(logs) <> []) then onDownload s else s) s
  | ParentTail => on_page (changeTail true) s
  | ParentDownload => on_page onDownload s
  | ParentClear => on_page clearLog s
  | Scroll top sh ch => onScroll top sh ch s
  | Resized h => Resized_to h s
  | Tick i => if decide (i ∈ s.(watching).(intervals)) then getContent false Nothing s else s
  | SetProps p n => set_props p n s
  | SetLoading b => set_flags s.(isLoading) s.(firstLoading) b s.(logPath) s
  | Unmount => on_page unmounted s
  | Answer i res =>
      match s.(tasks) !! i with
      | Some tk => receive tk res (set_tasks (delete i s.(tasks)) s.(fresh_task) s)
      | None => s
      end
  | Failure i =>
      match s.(tasks) !! i with
      | Some tk => continue_ tk.(after) (read_failed (set_tasks (delete i s.(tasks)) s.(fresh_task) s))
      | None => s
      end
  end.

(** *** The server *)

(** [(n + pageSize - 1) / pageSize] *)
Definition pages_of (n : Z) : Z := (n + pageSize - 1) / pageSize.

(** ReadFileByLine of a file that can be read, with the page size of the viewer: the lines, the
    number of lines and of pages, and whether the end is reached. *)
Definition ReadFileByLine (file : list jsstr) (pg : Z) (last : bool) : list jsstr * Z * Z * bool :=
  let n := Z.of_nat (length file) in
  if last then
    if n =? 0 then ([], 0, 0, true)
    else
      let lastPageSize := if n mod pageSize =? 0 then pageSize else n mod pageSize in
      let lastPageSize := if n <? lastPageSize then n else lastPageSize in
      (drop (Z.to_nat (n - lastPageSize)) file, n, pages_of n, true)
  else
    let startLine := (pg - 1) * pageSize in
    (drop (Z.to_nat startLine) (take (Z.to_nat (startLine + pageSize)) file), n, pages_of n, pages_of n <=? pg).

(** The answer to a request, with a path and a status of the task. *)
Definition answer (file : list jsstr) (req : ReadReq) (p status : jsstr) : LogAnswer :=
  let '(l, n, tot, e) := ReadFileByLine file req.(page) req.(latest) in
  {| lines := Some l; total := tot; a_totalLines := n; a_end := e; path := p; scope := js "page"; taskStatus := status |}.
End LogViewer.

(** ** The rows on the page *)

Section Proofs.
Variable t : jsstr -> list jsstr -> jsstr.

Lemma logHeight_pos s : 16 <= logHeight s.
Proof. unfold logHeight. destruct (isTaskMode s); lia. Qed.

(** Of however many lines, a bounded number of rows is on the page, each at its place, and
    every row that a part of the container shows is among them. *)
Theorem rows_in_sight s (i : nat) :
  0 <= s.(window).(scrollTop) -> 0 <= s.(window).(containerHeight) ->
  (i < length s.(paging).(logs))%nat ->
  Z.of_nat i * logHeight s < s.(window).(scrollTop) + s.(window).(containerHeight) ->
  s.(window).(scrollTop) < (Z.of_nat i + 1) * logHeight s ->
  Z.of_nat (length (visibleLogs s)) <= s.(window).(containerHeight) / 16 + 11 /\
  exists j : nat, visibleLogs s !! j = s.(paging).(logs) !! i /\ (j < length (visibleLogs s))%nat /\
    offsetY s + Z.of_nat j * logHeight s = Z.of_nat i * logHeight s.
Proof.
  intros Ht Hh Hi Hlow Hhigh. pose proof (logHeight_pos s) as Hp. set (h := logHeight s) in *.
  set (top := scrollTop _) in *. set (H := containerHeight _) in *.
  assert (Hc : visibleCount s = - (- H / h) + 10) by reflexivity.
  assert (Hd : h * (- (- H / h)) >= H /\ h * (- (- H / h)) < H + h)
    by (pose proof (Z.div_mod (- H) h ltac:(lia)); pose proof (Z.mod_pos_bound (- H) h ltac:(lia)); split; lia).
  assert (Hs : startIndex s = Z.max 0 (top / h - 5)) by reflexivity.
  assert (Ht' : h * (top / h) <= top < h * (top / h) + h)
    by (pose proof (Z.div_mod top h ltac:(lia)); pose proof (Z.mod_pos_bound top h ltac:(lia)); lia).
  set (q := top / h) in *. set (c := - (- H / h)) in *.
  assert (Hq : 0 <= q) by (unfold q; apply Z.div_pos; lia).
  assert (Hc0 : 0 <= c) by nia.
  assert (Hqi : q <= Z.of_nat i) by nia.
  assert (Hiq : Z.of_nat i <= q + c) by nia.
  assert (Hlen : Z.of_nat (length (visibleLogs s)) = endIndex s - startIndex s).
  { unfold visibleLogs. rewrite length_drop, length_take. unfold endIndex, logCount. lia. }
  assert (He : endIndex s = Z.min (logCount s) (startIndex s + (c + 10))) by (unfold endIndex; by rewrite Hc).
  assert (Hin : startIndex s <= Z.of_nat i < endIndex s) by (rewrite He, Hs; unfold logCount; lia).
  split.
  - rewrite Hlen, He. assert (Hc16 : c <= H / 16 + 1) by (pose proof (Z.div_mod H 16 ltac:(lia)); pose proof (Z.mod_pos_bound H 16 ltac:(lia)); nia). lia.
  - exists (Z.to_nat (Z.of_nat i - startIndex s)). assert (H0 : 0 <= startIndex s) by lia. split; [|split].
    + unfold visibleLogs. rewrite lookup_drop, lookup_take_lt by lia. f_equal. lia.
    + lia.
    + unfold offsetY. fold h. nia.
Qed.
End Proofs.

(** ** Intervals *)

Section Intervals.
Variable t : jsstr -> list jsstr -> jsstr.

(** Runs in which the parent does not switch the watching after the task is over. *)
Inductive used : Viewer -> Prop :=
| u_mounted p node show load height : used (mounted p node show load height)
| u_event s e b1 b2 : used s -> (e = ParentTail -> s.(watching).(isTailDisabled) = false) -> used (handle t b1 b2 e s).

Definition one_timer (on_page : bool) (w : Watching) : Prop :=
  w.(intervals) = match w.(timer) with Some i => {[i]} | None => ∅ end /\
  (is_Some w.(timer) -> w.(tailLog) = true \/ w.(isTailDisabled) = true) /\
  (on_page = false -> w.(timer) = None).

Definition timer_ok (s : Viewer) : Prop := one_timer s.(window).(container) s.(watching).

(** Two states with the same watching on the same page. *)
Definition same_watch (s s' : Viewer) : Prop :=
  s'.(watching) = s.(watching) /\ s'.(window).(container) = s.(window).(container).

Lemma same_watch_ok s s' : same_watch s s' -> timer_ok s -> timer_ok s'.
Proof. intros [E1 E2] Hs. unfold timer_ok. by rewrite E1, E2. Qed.

Lemma same_watch_trans s1 s2 s3 : same_watch s1 s2 -> same_watch s2 s3 -> same_watch s1 s3.
Proof. intros [] []. split; congruence. Qed.

Lemma watch_send pr a s : same_watch s (send_read pr a s).
Proof. unfold send_read. cbv zeta. by destruct (_ <? 1). Qed.

Lemma watch_after_init s : same_watch s (after_init s).
Proof.
  unfold after_init, updateContainerHeight. split.
  - by case_step.
  - destruct (container (window s)) eqn:E; cbn; repeat (progress (rewrite ?E; cbn)); congruence.
Qed.

Lemma watch_continue a s : same_watch s (continue_ a s).
Proof.
  destruct a; cbn [continue_]; [done| |apply watch_after_init]. unfold after_first. destruct (_ && _); [|apply watch_after_init].
  cbv zeta. destruct (isLoading _).
  - eapply same_watch_trans; [|apply watch_after_init]. done.
  - eapply same_watch_trans; [|apply watch_send]. done.
Qed.

Lemma watch_get pr a s : same_watch s (getContent pr a s).
Proof. unfold getContent. destruct (isLoading s); [apply watch_continue|apply watch_send]. Qed.

Lemma watch_tick e s : same_watch s (on_tick e s).
Proof. unfold on_tick. by case_step. Qed.

Lemma watch_scroll_after pr n s : same_watch s (scroll_after pr n s).
Proof. unfold scroll_after. destruct pr; [destruct (1 <? _)|]; (apply watch_tick || done). Qed.

Lemma watch_pages res s : same_watch s (receive_pages res s).
Proof. unfold receive_pages. cbv zeta. by destruct (latest _). Qed.

Lemma watch_cut pr s : same_watch s (cut pr s).1.
Proof. unfold cut. cbv zeta. by repeat case_step. Qed.

Lemma watch_onScroll a b c s : same_watch s (onScroll a b c s).
Proof.
  unfold onScroll. destruct (container (window s)) eqn:Ec; cbn [negb]; [|done]. cbv zeta.
  repeat case_step; (eapply same_watch_trans; [|apply watch_get]; split; [done|by cbn]) || (split; [done|by cbn]).
Qed.

Lemma close_timer_ok s : s.(watching).(intervals) = match s.(watching).(timer) with Some i => {[i]} | None => ∅ end ->
  timer_ok (onCloseLog s).
Proof.
  intros H1. split; [|split; [|done]]; cbn.
  - rewrite H1. destruct (timer (watching s)); set_solver.
  - by intros [? ?].
Qed.

Lemma head_ok res s : timer_ok s -> timer_ok (receive_head res s).
Proof.
  intros (H1 & H2 & H3). split; [exact H1|split; [|exact H3]]. cbn. intros Ht. destruct (_ && _); [by right|by apply H2].
Qed.

Lemma receive_ok tk res s : timer_ok s -> timer_ok (receive t tk res s).
Proof.
  intros Hs. apply (head_ok res) in Hs. unfold receive. set (s1 := receive_head res s) in *.
  set (newLogs := List.map _ _). clearbody newLogs. destruct newLogs as [|x l]; cbv zeta.
  - pose proof (watch_cut (pre tk) (receive_pages res s1)) as Hc. destruct (cut _ _) as [s2 e]. cbn [fst] in Hc.
    assert (H2 : timer_ok (continue_ (after tk) (set_isLoading false s2))).
    { eapply same_watch_ok; [apply watch_continue|]. eapply same_watch_ok; [exact Hc|]. eapply same_watch_ok; [apply watch_pages|done]. }
    destruct e; [|done]. eapply same_watch_ok; [apply watch_tick|done].
  - assert (Hn : timer_ok (next_page (x :: l) res s1)) by (unfold next_page; case_step; done).
    destruct (same_last _ _).
    { eapply same_watch_ok; [apply watch_continue|done]. }
    set (s2 := if stops _ then _ else _). assert (H2 : timer_ok s2) by (unfold s2; destruct (stops _); [apply close_timer_ok; apply Hn|done]).
    set (s3 := set_logs _ s2). pose proof (watch_cut (pre tk) (receive_pages res s3)) as Hc. destruct (cut _ _) as [s4 e]. cbn [fst] in Hc.
    assert (H4 : timer_ok (scroll_after (pre tk) (length (x :: l)) (continue_ (after tk) (set_isLoading false s4)))).
    { eapply same_watch_ok; [apply watch_scroll_after|]. eapply same_watch_ok; [apply watch_continue|].
      eapply same_watch_ok; [exact Hc|]. eapply same_watch_ok; [apply watch_pages|]. exact H2. }
    destruct e; [|done]. eapply same_watch_ok; [apply watch_tick|done].
Qed.

(** Switching the watching of a file whose task is not over. *)
Lemma switch_ok s : timer_ok s -> s.(watching).(isTailDisabled) = false -> s.(window).(container) = true ->
  timer_ok (changeTail false (set_tailLog (negb s.(watching).(tailLog)) s)).
Proof.
  intros (H1 & H2 & H3) Hd Hc. unfold changeTail. cbn [set_tailLog with_watching watching tailLog].
  destruct (tailLog (watching s)) eqn:Et; cbn [negb]; [by apply close_timer_ok|].
  assert (Hn : timer (watching s) = None) by (destruct (timer (watching s)); [destruct H2 as [?|?]; [by eexists|congruence..]|done]).
  split; [|split]; cbn.
  - rewrite H1, Hn. set_solver.
  - by left.
  - intros E. cbn in E. congruence.
Qed.

Lemma timer_ok_on_page f s : timer_ok s -> (s.(window).(container) = true -> timer_ok (f s)) -> timer_ok (on_page f s).
Proof. intros Hs Hf. unfold on_page. destruct (container _); auto. Qed.

Lemma timer_ok_step s e b1 b2 : timer_ok s -> (e = ParentTail -> s.(watching).(isTailDisabled) = false) -> timer_ok (handle t b1 b2 e s).
Proof.
  intros Hs He. destruct e; cbn [handle].
  - apply timer_ok_on_page; [done|]. intros _. case_step; [|done]. eapply same_watch_ok; [apply watch_get|done].
  - apply timer_ok_on_page; [done|]. intros Hc. case_step; [|done]. bool_prop. apply switch_ok; tauto.
  - apply timer_ok_on_page; [done|]. intros _. by case_step.
  - apply timer_ok_on_page; [done|]. intros Hc. by apply (switch_ok s Hs (He eq_refl)).
  - by apply timer_ok_on_page.
  - by apply timer_ok_on_page.
  - eapply same_watch_ok; [apply watch_onScroll|done].
  - done.
  - destruct (decide _); [|done]. eapply same_watch_ok; [apply watch_get|done].
  - done.
  - done.
  - apply timer_ok_on_page; [done|]. intros _. apply close_timer_ok. apply Hs.
  - case_step; [|done]. by apply receive_ok.
  - case_step; [|done]. eapply same_watch_ok; [apply watch_continue|done].
Qed.

Lemma timer_ok_mounted p node show load height : timer_ok (mounted p node show load height).
Proof.
  unfold mounted, init. cbn [props]. cbv zeta. eapply same_watch_ok; [apply watch_get|].
  destruct (tail p) eqn:Ht; cbn [set_tailLog with_watching watching tailLog].
  - unfold changeTail. cbn [set_tailLog with_watching watching tailLog]. split; [|split; [|done]]; cbn; [set_solver|by left].
  - split; [done|split; [by intros [? ?]|done]].
Qed.

(** However the watching is switched, at most one interval reads the file, the one the viewer
    knows, and none after the viewer has been unmounted. *)
Theorem one_interval s : used s ->
  s.(watching).(intervals) = match s.(watching).(timer) with Some i => {[i]} | None => ∅ end /\
  (s.(window).(container) = false -> s.(watching).(intervals) = ∅).
Proof.
  intros Hu. assert (Hs : timer_ok s) by (induction Hu; [apply timer_ok_mounted|by apply timer_ok_step]).
  destruct Hs as (H1 & _ & H3). split; [done|]. intros Hc. by rewrite H1, (H3 Hc).
Qed.
End Intervals.

(** ** Witnesses and counterexamples *)

(** Translations that show the key. *)
Definition keys_only (k : jsstr) (args : list jsstr) : jsstr := k.

Definition system_log (watch : bool) : LogProps :=
  {| id := 0; type := js "system"; name := []; tail := watch; taskID := []; colorMode := []; taskType := [];
     taskOperate := []; resourceID := 0; operateNode := [] |}.

Definition viewer (watch : bool) : Viewer := mounted (system_log watch) (js "local") true true 600.

(** A file of [n] numbered lines. *)
Definition numbered (n : nat) : list jsstr := List.map (fun i => dec (N.of_nat i)) (seq 0 n).

Definition answered (i : nat) (file : list jsstr) (s : Viewer) : Viewer :=
  handle keys_only true true (Answer i (answer file s.(readReq) [] [])) s.
Definition event (e : Event) (s : Viewer) : Viewer := handle keys_only true true e s.

Lemma rows_in_sight_witness :
  let s := event (Scroll 460 1380 600) (answered 0 (numbered 60) (viewer false)) in
  Z.of_nat (length (visibleLogs s)) <= 600 / 16 + 11 /\ exists j : nat, visibleLogs s !! j = Some (js "22").
Proof.
  cbv zeta. destruct (rows_in_sight (event (Scroll 460 1380 600) (answered 0 (numbered 60) (viewer false))) 22)
    as (H1 & j & H2 & _); [vm_compute; discriminate|vm_compute; discriminate|vm_compute; lia|vm_compute; reflexivity|vm_compute; reflexivity|].
  split; [exact H1|]. exists j. rewrite H2. vm_compute. reflexivity.
Defined.

Lemma one_interval_witness :
  (event Unmount (event ToggleTail (event ToggleTail (viewer true)))).(watching).(intervals) = ∅.
Proof.
  refine (proj2 (one_interval keys_only _ _) _); [|reflexivity].
  repeat (apply u_event; [|discriminate]). apply u_mounted.
Defined.

(** A file of more lines than a page is read from its last page on, and then the page before.
    When it is watched, the last page is added once more and then stays twice. *)
Lemma watched_page_twice :
  let file := numbered 600 in
  let s := answered 2 file (event (Tick 0) (answered 1 file (answered 0 file (viewer true)))) in
  s.(paging).(logs) = file ++ drop 500 file /\ s.(paging).(end_) = true /\
  (answered 3 file (event (Tick 0) s)).(paging).(logs) = file ++ drop 500 file.
Proof. vm_compute. auto. Qed.

(** The page before the last one is read again when the viewer is scrolled to the top. *)
Lemma scrolled_page_twice :
  let file := numbered 1100 in
  let s := answered 2 file (event (Scroll 0 13800 600) (answered 1 file (answered 0 file (viewer false)))) in
  s.(paging).(logs) = take 500 (drop 500 file) ++ drop 500 file.
Proof. vm_compute. reflexivity. Qed.
