(* ===== verification/LogFollowing.v ===== *)
(** * Following a growing file in the viewer of log files

    The run of a viewer that watches a file, over the pages it reads of LogViewer's server:
    what is shown is the file as it was read last. *)

From S2P Require Import Prelude JsString TaskText LogViewer.

#[local] Open Scope list_scope.
#[local] Open Scope Z_scope.

(** ** Following a growing file *)

Section Following.
Variable t : jsstr -> list jsstr -> jsstr.
#[local] Abbreviation texts := (List.map (line_text t)).

(** The requests sent so far with their tasks. *)
Definition requests (s : Viewer) : list (nat * ReadReq) :=
  omap (fun e => match e with Request i r _ => Some (i, r) | _ => None end) s.(effects).

(** Two states that differ in what is shown of the lines and in other effects. *)
Record same_core (s s' : Viewer) : Prop := {
  sc_paging : s'.(paging) = s.(paging);
  sc_req : s'.(readReq) = s.(readReq);
  sc_watching : s'.(watching) = s.(watching);
  sc_loading : s'.(isLoading) = s.(isLoading);
  sc_tasks : s'.(tasks) = s.(tasks);
  sc_fresh : s'.(fresh_task) = s.(fresh_task);
  sc_requests : requests s' = requests s
}.

Lemma core_refl s : same_core s s.
Proof. by constructor. Qed.

Lemma core_trans s1 s2 s3 : same_core s1 s2 -> same_core s2 s3 -> same_core s1 s3.
Proof. intros [] []. constructor; congruence. Qed.

Definition is_request (e : Effect) : bool := match e with Request _ _ _ => true | _ => false end.

Lemma requests_emit e s : is_request e = false -> requests (emit e s) = requests s.
Proof. intros He. unfold requests. cbn [emit effects]. rewrite omap_app. destruct e; try discriminate He; cbn; by rewrite app_nil_r. Qed.

Lemma core_emit e s : is_request e = false -> same_core s (emit e s).
Proof. intros He. constructor; try done. by apply requests_emit. Qed.

Lemma core_window f s : same_core s (with_window f s).
Proof. by constructor. Qed.

Lemma core_tick e s : is_request e = false -> same_core s (on_tick e s).
Proof. intros He. unfold on_tick. destruct (container _); [by apply core_emit|apply core_refl]. Qed.

Lemma core_after_init s : same_core s (after_init s).
Proof.
  unfold after_init, updateContainerHeight. destruct (container (window (with_window _ s))); [|apply core_window].
  eapply core_trans; [apply core_window|]. eapply core_trans; [apply core_window|]. by apply core_emit.
Qed.

Lemma core_scroll_after pr n s : same_core s (scroll_after pr n s).
Proof. unfold scroll_after. repeat case_step; (by apply core_tick) || apply core_refl. Qed.

(** ** Pages *)

Lemma pages_of_bound n k : 1 <= k -> 0 <= n -> pages_of n <= k <-> n <= 500 * k.
Proof. intros Hk Hn. unfold pages_of, pageSize. Z.to_euclidean_division_equations. lia. Qed.

(** The lines of page [k], and what they are of the file. *)
Definition page_lines (k : nat) (file : list jsstr) : list jsstr := drop (500 * (k - 1)) (take (500 * k) file).

Lemma read_page file k : (1 <= k)%nat ->
  ReadFileByLine file (Z.of_nat k) false =
    (page_lines k file, Z.of_nat (length file), pages_of (Z.of_nat (length file)), bool_decide (length file <= 500 * k)%nat).
Proof.
  intros Hk. unfold ReadFileByLine, page_lines.
  replace (Z.to_nat ((Z.of_nat k - 1) * pageSize)) with (500 * (k - 1))%nat by (unfold pageSize; lia).
  replace (Z.to_nat ((Z.of_nat k - 1) * pageSize + pageSize)) with (500 * k)%nat by (unfold pageSize; lia).
  f_equal. pose proof (pages_of_bound (Z.of_nat (length file)) (Z.of_nat k)).
  destruct (Z.leb_spec (pages_of (Z.of_nat (length file))) (Z.of_nat k)); case_bool_decide; lia || done.
Qed.

Lemma read_last file : (length file <= 500)%nat ->
  ReadFileByLine file 1 true = (file, Z.of_nat (length file), pages_of (Z.of_nat (length file)), true).
Proof.
  intros Hl. unfold ReadFileByLine. destruct (Z.eqb_spec (Z.of_nat (length file)) 0) as [E|E].
  - destruct file; [done|cbn in E; lia].
  - set (m := if Z.of_nat (length file) mod pageSize =? 0 then pageSize else Z.of_nat (length file) mod pageSize).
    assert (Hm : (if Z.of_nat (length file) <? m then Z.of_nat (length file) else m) = Z.of_nat (length file)).
    { destruct (Z.ltb_spec (Z.of_nat (length file)) m); [done|]. unfold m, pageSize in *.
      destruct (Z.eqb_spec (Z.of_nat (length file) mod 500) 0); Z.to_euclidean_division_equations; lia. }
    rewrite Hm. by replace (Z.to_nat (Z.of_nat (length file) - Z.of_nat (length file))) with 0%nat by lia.
Qed.

Lemma page_lines_join file file' k : (1 <= k)%nat -> file `prefix_of` file' -> (500 * (k - 1) <= length file)%nat ->
  take (500 * (k - 1)) file ++ page_lines k file' = take (500 * k) file'.
Proof.
  intros Hk [rest ->] Hl. unfold page_lines. rewrite <- (take_drop (500 * (k - 1)) (take (500 * k) (file ++ rest))) at 2.
  f_equal. rewrite take_take, Nat.min_l by lia. by rewrite take_app_le.
Qed.

Lemma page_lines_length file k : (1 <= k)%nat -> (500 * k <= length file)%nat -> length (page_lines k file) = 500%nat.
Proof. intros Hk Hl. unfold page_lines. rewrite length_drop, length_take. lia. Qed.


(** ** The answer to a read that adds lines behind those shown *)

Definition unfinished (status : jsstr) : Prop := status = [] \/ status = js "Executing".

Lemma cut_small pr s : (length s.(paging).(logs) <= 3000)%nat -> cut pr s = (s, None).
Proof. intros Hl. unfold cut. destruct (Z.ltb_spec 3000 (Z.of_nat (length (logs (paging s))))); [lia|done]. Qed.

(** The state that an answer leaves, but for what is scrolled to and what waits for it. *)
Definition received (res : LogAnswer) (s : Viewer) : Viewer :=
  let s := receive_head res s in
  let newLogs := texts (default [] res.(lines)) in
  let s := match newLogs with
           | [] => s
           | _ :: _ =>
               let s := next_page newLogs res s in
               let s := if stops newLogs then onCloseLog s else s in
               set_logs (join_logs false newLogs s.(paging)) s
           end in
  set_isLoading false (receive_pages res s).

Lemma receive_received tk res s : tk.(pre) = false -> s.(readReq).(target).(type) <> js "php" ->
  (length (received res s).(paging).(logs) <= 3000)%nat ->
  same_core (continue_ tk.(after) (received res s)) (receive t tk res s).
Proof.
  intros Hp Ht Hl. unfold receive, received in *. rewrite Hp. cbv zeta in *.
  assert (Hsame : forall s', s'.(readReq).(target) = s.(readReq).(target) -> forall l, same_last l s' = false).
  { intros s' E l. unfold same_last. rewrite E. assert ((type (target (readReq s)) === js "php") = false) as -> by (by apply streqb_neq). done. }
  destruct (texts (default [] (lines res))) as [|x newLogs] eqn:En.
  - rewrite cut_small by (revert Hl; unfold receive_pages; destruct (latest _); done). apply core_refl.
  - rewrite Hsame by (unfold next_page; case_step; done).
    rewrite cut_small by (revert Hl; unfold receive_pages; destruct (latest _); done).
    apply core_scroll_after.
Qed.

Lemma requests_head res s : requests (receive_head res s) = requests s.
Proof. done. Qed.

Lemma requests_close s : requests (onCloseLog s) = requests s.
Proof. unfold onCloseLog. rewrite !requests_emit by done. unfold requests. cbn [set_isLoading set_flags effects]. apply (requests_emit EmitStop); done. Qed.

Lemma requests_pages res s : requests (receive_pages res s) = requests s.
Proof.
  unfold receive_pages. cbv zeta. set (s1 := with_paging _ s).
  transitivity (requests (emit (EmitContent (bool_decide (logs (paging s1) <> []))) s1)).
  - destruct (latest _); reflexivity.
  - by rewrite requests_emit.
Qed.

Lemma requests_received res s : requests (received res s) = requests s.
Proof.
  unfold received. cbv zeta. set (s1 := match texts _ with [] => _ | _ => _ end).
  assert (E : requests s1 = requests s).
  { unfold s1. destruct (texts _); [done|]. unfold requests at 1. cbn [set_logs with_paging effects]. fold (requests (if stops (l :: l0) then onCloseLog (next_page (l :: l0) res (receive_head res s)) else next_page (l :: l0) res (receive_head res s))).
    assert (En : requests (next_page (l :: l0) res (receive_head res s)) = requests s) by (unfold next_page; case_step; done).
    destruct (stops _); [rewrite requests_close|]; done. }
  rewrite <- E. transitivity (requests (receive_pages res s1)); [done|apply requests_pages].
Qed.

(** The lines, the page and the watching an answer leaves. *)
Lemma received_fields res s : s.(watching).(tailLog) = true -> unfinished res.(taskStatus) ->
  let newLogs := texts (default [] res.(lines)) in
  let p := s.(paging) in
  let last' := if negb p.(end_) && res.(a_end) then p.(logs) else p.(lastLogs) in
  let pg := if (Z.of_nat (length newLogs) =? 500) && (s.(readReq).(page) <? res.(total)) then s.(readReq).(page) + 1 else s.(readReq).(page) in
  let s' := received res s in
  s'.(paging).(logs) = match newLogs with [] => p.(logs) | _ :: _ => join_logs false newLogs {| logs := p.(logs); lastLogs := last';
    end_ := p.(end_); maxPage := 0; minPage := 0; totalLines := 0; totalPages := 0; isEndOfFile := false |} end /\
  s'.(paging).(lastLogs) = last' /\ s'.(paging).(end_) = res.(a_end) /\
  s'.(readReq) = {| target := s.(readReq).(target); page := if s.(readReq).(latest) then res.(total) else pg; latest := false |} /\
  s'.(paging).(minPage) = (if s.(readReq).(latest)
    then (if 500 <? Z.of_nat (length (default [] res.(lines))) then res.(total) - 1 else res.(total)) else p.(minPage)) /\
  s'.(paging).(isEndOfFile) = (if s.(readReq).(latest) then true else p.(isEndOfFile)) /\
  s'.(isLoading) = false /\ s'.(tasks) = s.(tasks) /\ s'.(fresh_task) = s.(fresh_task) /\
  s'.(watching).(tailLog) = negb (stops newLogs) /\ s'.(watching).(timer) = (if stops newLogs then None else s.(watching).(timer)) /\
  s'.(watching).(intervals) = (if stops newLogs
    then match s.(watching).(timer) with Some i => s.(watching).(intervals) ∖ {[i]} | None => s.(watching).(intervals) end
    else s.(watching).(intervals)).
Proof.
  intros Ht Hu. cbv zeta.
  assert (Hf : truthy res.(taskStatus) && negb (res.(taskStatus) === js "Executing") = false).
  { destruct Hu as [-> | ->]; [done|]. rewrite streqb_refl. by rewrite andb_false_r. }
  unfold received, receive_head. rewrite Hf. cbv zeta.
  assert (Hlen : forall l : option (list jsstr), (500 <? Z.of_nat (length (default [] l))) = match l with Some l => 500 <? Z.of_nat (length l) | None => false end).
  { by intros [l|]. }
  rewrite Hlen. clear Hlen. destruct (texts (default [] (lines res))) as [|x newLogs] eqn:En.
  - unfold receive_pages. cbn [stops list.last]. cbn -[Z.mul]. destruct (readReq s) as [? ? []] eqn:Er; cbn -[Z.mul]; rewrite ?Ht, ?Er; repeat split.
  - unfold next_page. cbn [set_flags with_paging with_watching watching tailLog readReq]. rewrite Ht. cbn [andb]. change pageSize with 500.
    destruct ((Z.of_nat (length (x :: newLogs)) =? 500) && (page (readReq s) <? total res)), (stops (x :: newLogs));
      unfold receive_pages, onCloseLog; cbn -[Z.mul join_logs]; destruct (readReq s) as [? ? []] eqn:Er; cbn -[Z.mul join_logs]; rewrite ?Ht, ?Er; repeat split.
Qed.

(** ** What is shown while a file is watched *)

(** The lines of the file [F] as it was read last: until the first answer none; then pages 1
    to [k], the last of them perhaps not full and to be read again, or pages before [k], which
    is read next. *)
Definition pages_ok (r : ReadReq) (p : Paging) (F : list jsstr) : Prop :=
  if r.(latest) then r.(page) = 1 /\ p.(logs) = [] /\ p.(lastLogs) = [] /\ p.(end_) = false /\ p.(maxPage) = 0 /\
    p.(minPage) = 0 /\ p.(totalPages) = 0 /\ F = []
  else exists k : nat, (1 <= k)%nat /\ Z.max 1 r.(page) = Z.of_nat k /\ p.(isEndOfFile) = true /\ p.(minPage) <= 1 /\
    (500 * (k - 1) <= length F)%nat /\
    if p.(end_) then (length F <= 500 * k)%nat /\ p.(lastLogs) = texts (take (500 * (k - 1)) F) /\ p.(logs) = texts F
    else (2 <= k)%nat /\ p.(logs) = texts (take (500 * (k - 1)) F).

Record following (s : Viewer) (F : list jsstr) : Prop := {
  fo_type : s.(readReq).(target).(type) <> js "php";
  fo_tasks : (s.(isLoading) = false /\ s.(tasks) = ∅) \/
    (exists i a, s.(isLoading) = true /\ s.(tasks) = {[ i := {| pre := false; after := a |} ]} /\ 1 <= s.(readReq).(page) /\
       (a = Nothing \/ a = AfterFirst /\ s.(readReq).(latest) = true) /\ forall r, (i, r) ∈ requests s -> r = s.(readReq));
  fo_fresh : forall i r, (i, r) ∈ requests s -> (i < s.(fresh_task))%nat;
  fo_watch : (s.(watching).(tailLog) = true /\ exists i, s.(watching).(timer) = Some i /\ s.(watching).(intervals) = {[i]}) \/
    (s.(watching).(intervals) = ∅ /\ s.(tasks) = ∅);
  fo_pages : pages_ok s.(readReq) s.(paging) F
}.

Lemma following_core s s' F : same_core s s' -> following s F -> following s' F.
Proof. intros [Ep Er Ew El Et Ef Hr] []. constructor; rewrite ?Ep, ?Er, ?Ew, ?El, ?Et, ?Ef, ?Hr; done. Qed.

Lemma omap_snoc {A B} (f : A -> option B) l x : omap f (l ++ [x]) = omap f l ++ omap f [x].
Proof. apply omap_app. Qed.

(** A read is started only while the file is watched, and nothing is read. *)
Lemma following_send a s F : a = Nothing \/ a = AfterFirst /\ s.(readReq).(latest) = true -> s.(isLoading) = false -> s.(watching).(tailLog) = true ->
  (exists i, s.(watching).(timer) = Some i /\ s.(watching).(intervals) = {[i]}) ->
  following s F -> following (send_read false a s) F.
Proof.
  intros Ha Hl Hw Hi [Ht Hts Hf _ Hp]. destruct Hts as [[_ Hts]|(i0 & a0 & E0 & _)]; [|congruence].
  unfold send_read. cbv zeta. set (s1 := if page (readReq s) <? 1 then set_page 1 s else s).
  assert (H1 : s1.(paging) = s.(paging) /\ s1.(watching) = s.(watching) /\ s1.(tasks) = s.(tasks) /\ s1.(fresh_task) = s.(fresh_task) /\
    requests s1 = requests s /\ s1.(readReq).(target) = s.(readReq).(target) /\ s1.(readReq).(latest) = s.(readReq).(latest) /\
    1 <= s1.(readReq).(page) /\ Z.max 1 s1.(readReq).(page) = Z.max 1 s.(readReq).(page)).
  { unfold s1. destruct (Z.ltb_spec (page (readReq s)) 1); cbn [set_page with_req paging watching tasks fresh_task readReq page target latest]; repeat split; lia. }
  destruct H1 as (Ep & Ew & Et & Efr & Er & Etg & El & Hpg & Hmax).
  set (s2 := emit (EmitReading true) (set_isLoading true s1)).
  assert (Er2 : requests s2 = requests s) by (unfold s2; rewrite requests_emit by done; exact Er).
  set (s3 := emit _ _). assert (Er3 : requests s3 = requests s ++ [(s.(fresh_task), s1.(readReq))]).
  { unfold s3, requests. cbn [emit effects set_tasks]. rewrite omap_snoc. fold (requests s2). rewrite Er2. cbn. by rewrite Efr. }
  constructor.
  - cbn. by rewrite Etg.
  - right. exists s.(fresh_task), a. split; [done|]. split; [|split; [done|split; [cbn; by rewrite El|]]].
    + cbn. by rewrite Et, Efr, Hts, insert_empty.
    + intros r. rewrite Er3, elem_of_app, list_elem_of_singleton. intros [Hin|[= ->]]; [|done].
      apply Hf in Hin. lia.
  - intros i r. rewrite Er3, elem_of_app, list_elem_of_singleton. cbn. rewrite Efr. intros [Hin|[= -> _]]; [apply Hf in Hin|]; lia.
  - left. cbn. rewrite Ew. done.
  - cbn. rewrite Ep. unfold pages_ok in *. rewrite El. destruct (latest (readReq s)).
    + destruct Hp as (Hp & ?). split; [lia|done].
    + by setoid_rewrite Hmax.
Qed.

Lemma answer_taskStatus F' r pth st : taskStatus (answer F' r pth st) = st.
Proof. unfold answer. by destruct (ReadFileByLine _ _ _) as [[[? ?] ?] ?]. Qed.

(** The pages after the first answer. *)
Lemma pages_received_first s F' pth st : s.(watching).(tailLog) = true -> unfinished st ->
  s.(readReq).(latest) = true -> pages_ok s.(readReq) s.(paging) [] -> (length F' <= 500)%nat ->
  let s' := received (answer F' s.(readReq) pth st) s in
  pages_ok s'.(readReq) s'.(paging) F' /\ (length s'.(paging).(logs) <= 3000)%nat /\ s'.(readReq).(page) <= 1.
Proof.
  intros Htl Hu El Hp Hfirst. cbv zeta. unfold pages_ok in Hp. rewrite El in Hp. destruct Hp as (Hpage & Hlogs & Hlast & Hend & _).
  assert (Eres : answer F' (readReq s) pth st = {| lines := Some F'; total := pages_of (Z.of_nat (length F'));
    a_totalLines := Z.of_nat (length F'); a_end := true; path := pth; scope := js "page"; taskStatus := st |})
    by (unfold answer; by rewrite Hpage, El, read_last).
  rewrite Eres. destruct (received_fields {| lines := Some F'; total := pages_of (Z.of_nat (length F'));
    a_totalLines := Z.of_nat (length F'); a_end := true; path := pth; scope := js "page"; taskStatus := st |} s Htl Hu)
    as (Elogs & Elast & Eend & Ereq & Emin & Eeof & _).
  set (s' := received _ s) in *. cbn [lines total a_end default Datatypes.id] in *. rewrite El, Hlogs, Hlast, Hend in *.
  assert (El' : logs (paging s') = texts F') by (rewrite Elogs; by destruct (texts F')).
  assert (Htot : 0 <= pages_of (Z.of_nat (length F')) <= 1) by (unfold pages_of, pageSize; Z.to_euclidean_division_equations; lia).
  unfold pages_ok. rewrite Ereq. cbn [latest page]. split; [|split; [rewrite El', length_map; lia|lia]].
  exists 1%nat. rewrite Emin, Eend, Elast, Eeof, El'. destruct (Z.ltb_spec 500 (Z.of_nat (length F'))); [lia|].
  repeat split; lia || done.
Qed.

(** The lines after a later answer, which was asked for page [k]. *)
Lemma join_page p F F' k newLogs last' :
  (1 <= k)%nat -> F `prefix_of` F' -> (500 * (k - 1) <= length F)%nat ->
  newLogs = texts (page_lines k F') ->
  (if p.(end_) then (length F <= 500 * k)%nat /\ last' = texts (take (500 * (k - 1)) F) /\ p.(logs) = texts F
   else (2 <= k)%nat /\ p.(logs) = texts (take (500 * (k - 1)) F)) ->
  match newLogs with [] => p.(logs) | _ :: _ => join_logs false newLogs {| logs := p.(logs); lastLogs := last';
    end_ := p.(end_); maxPage := 0; minPage := 0; totalLines := 0; totalPages := 0; isEndOfFile := false |} end =
  texts (take (500 * k) F').
Proof.
  intros Hk Hpre Hlow -> Hp. rewrite <- (page_lines_join F F' k Hk Hpre Hlow), List.map_app.
  assert (Hlen : length (texts (page_lines k F')) = (length F' `min` (500 * k) - 500 * (k - 1))%nat)
    by (rewrite length_map; unfold page_lines; rewrite length_drop, length_take; lia).
  apply prefix_length in Hpre as HF. destruct (texts (page_lines k F')) as [|x l] eqn:En.
  - rewrite app_nil_r. cbn in Hlen. destruct (end_ p); destruct Hp as [? Hp]; [|done]. destruct Hp as [_ ->].
    rewrite take_ge by lia. done.
  - unfold join_logs. cbn [logs lastLogs end_]. destruct (end_ p).
    + destruct Hp as (_ & -> & ->). destruct (texts F) as [|y F0] eqn:EF; [|done]. apply map_eq_nil in EF as ->. by rewrite take_nil.
    + destruct Hp as (Hk2 & ->). assert (H5 : length (texts (take (500 * (k - 1)) F)) = (500 * (k - 1))%nat) by (rewrite length_map, length_take; lia).
      destruct (texts (take (500 * (k - 1)) F)) as [|y l'] eqn:EF; [cbn in H5; lia|].
      destruct (Nat.ltb_spec (length (y :: l')) (length (x :: l))); [lia|done].
Qed.

(** The pages after a later answer. *)
Lemma pages_received_next s F F' pth st : s.(watching).(tailLog) = true -> unfinished st ->
  s.(readReq).(latest) = false -> 1 <= s.(readReq).(page) -> pages_ok s.(readReq) s.(paging) F ->
  F `prefix_of` F' -> (length F' <= 3000)%nat ->
  let s' := received (answer F' s.(readReq) pth st) s in
  pages_ok s'.(readReq) s'.(paging) F' /\ (length s'.(paging).(logs) <= 3000)%nat.
Proof.
  intros Htl Hu El Hpg Hp Hpre H3. cbv zeta. unfold pages_ok in Hp. rewrite El in Hp.
  destruct Hp as (k & Hk & Hmax & Heof & Hmin & Hlow & Hp).
  assert (Epg : page (readReq s) = Z.of_nat k) by lia. apply prefix_length in Hpre as HF.
  assert (Eres : answer F' (readReq s) pth st = {| lines := Some (page_lines k F'); total := pages_of (Z.of_nat (length F'));
    a_totalLines := Z.of_nat (length F'); a_end := bool_decide (length F' <= 500 * k)%nat; path := pth; scope := js "page"; taskStatus := st |})
    by (unfold answer; by rewrite Epg, El, read_page).
  rewrite Eres. destruct (received_fields {| lines := Some (page_lines k F'); total := pages_of (Z.of_nat (length F'));
    a_totalLines := Z.of_nat (length F'); a_end := bool_decide (length F' <= 500 * k)%nat; path := pth; scope := js "page"; taskStatus := st |} s Htl Hu)
    as (Elogs & Elast & Eend & Ereq & Emin & Eeof & _).
  set (s' := received _ s) in *. cbn [lines total a_end default Datatypes.id] in *. rewrite El in *.
  rewrite (join_page _ F F' k _ _ Hk Hpre Hlow eq_refl) in Elogs.
  2:{ destruct (end_ (paging s)); cbn [negb andb]; tauto. }
  split; [|rewrite Elogs, length_map, length_take; lia].
  assert (Hmore : pages_of (Z.of_nat (length F')) <= Z.of_nat k <-> (length F' <= 500 * k)%nat) by (rewrite pages_of_bound; lia).
  assert (Hnew : length (texts (page_lines k F')) = (length F' `min` (500 * k) - 500 * (k - 1))%nat)
    by (rewrite length_map; unfold page_lines; rewrite length_drop, length_take; lia).
  unfold pages_ok. rewrite Ereq, Eend, Emin, Eeof, Elast, Elogs. cbn [latest page]. rewrite Epg, Hnew.
  destruct (bool_decide (length F' <= 500 * k)%nat) eqn:Eb.
  - apply bool_decide_eq_true in Eb. exists k. destruct (Z.ltb_spec (Z.of_nat k) (pages_of (Z.of_nat (length F')))); [lia|].
    rewrite andb_false_r, (take_ge F' (500 * k)) by lia. split; [done|]. split; [lia|]. split; [done|]. split; [done|]. split; [lia|].
    split; [done|]. split; [|done].
    assert (Htk : take (500 * (k - 1)) F' = take (500 * (k - 1)) F) by (destruct Hpre as [rest ->]; by rewrite take_app_le).
    rewrite Htk. destruct (end_ (paging s)); cbn [negb andb]; tauto.
  - apply bool_decide_eq_false in Eb. exists (S k).
    destruct (Z.eqb_spec (Z.of_nat (length F' `min` (500 * k) - 500 * (k - 1))) 500); [|lia].
    destruct (Z.ltb_spec (Z.of_nat k) (pages_of (Z.of_nat (length F')))); [|lia]. cbn [andb]. cbn iota.
    repeat (split; [lia || done|]). by replace (S k - 1)%nat with k by lia.
Qed.

(** ** Runs *)

(** Events that leave the reading of the file to the interval. *)
Definition quiet (e : Event) : bool :=
  match e with
  | DownloadClicked | ParentDownload | Scroll _ _ _ | Resized _ | Tick _ | SetProps _ _ | SetLoading _ => true
  | _ => false
  end.

(** A viewer that watches a file from when it is mounted, over its last state that was read.  The
    source promises what is proved of it only within bounds, which are conditions here: the
    file only grows, by whole lines; it is at most one page long when it is first read, since
    a longer one is read from its last page, of which lines may be read twice
    ([watched_page_twice]); and it is never longer than the 3000 lines that are kept, beyond
    which the first ones are dropped.  The user turns nothing off: any other event may come.
    Requests may fail, and are answered in any order with the other events. *)
Inductive watched : Viewer -> list jsstr -> Prop :=
| w_mounted p node show load height : p.(tail) = true -> p.(type) <> js "php" -> watched (mounted p node show load height) []
| w_event s F e b1 b2 : quiet e = true -> watched s F -> watched (handle t b1 b2 e s) F
| w_failure s F i b1 b2 : watched s F -> watched (handle t b1 b2 (Failure i) s) F
| w_answer s F F' i r pth st b1 b2 : watched s F -> is_Some (s.(tasks) !! i) -> (i, r) ∈ requests s ->
    F `prefix_of` F' -> (r.(latest) = true -> (length F' <= 500)%nat) -> (length F' <= 3000)%nat -> unfinished st ->
    watched (handle t b1 b2 (Answer i (answer F' r pth st)) s) F'.

Lemma core_scroll s F a b c : following s F -> same_core s (onScroll a b c s).
Proof.
  intros [_ _ _ _ Hp]. unfold onScroll. destruct (container (window s)); cbn [negb]; [|apply core_refl].
  cbv zeta. set (s1 := with_window _ s). assert (H1 : same_core s s1) by apply core_window.
  change (isLoading s1) with (isLoading s). change (paging s1) with (paging s). change (readReq s1) with (readReq s).
  destruct (isLoading s); [done|]. unfold pages_ok in Hp. destruct (latest (readReq s)).
  - destruct Hp as (-> & _ & _ & -> & -> & _ & -> & _). rewrite andb_false_r. by case_step.
  - destruct Hp as (k & _ & _ & -> & Hmin & _). destruct ((a <=? 50) && _).
    + destruct (Z.leb_spec (minPage (paging s)) 1); [done|lia].
    + by rewrite andb_false_r.
Qed.

Lemma core_download s : same_core s (onDownload s).
Proof.
  unfold onDownload, changeLoading. cbv zeta.
  repeat (eapply core_trans; [|apply core_emit; done]).
  eapply core_trans; [by constructor|]. eapply core_trans; [apply (core_emit (EmitLoading (negb (loading s)))); done|].
  eapply core_trans; [apply core_emit with (e := Download (logPath s) (node_of s)); done|]. by constructor.
Qed.

Lemma following_event s F e b1 b2 : quiet e = true -> following s F -> following (handle t b1 b2 e s) F.
Proof.
  intros Hq Hs. destruct e; try discriminate Hq; cbn [handle]; unfold on_page.
  - repeat case_step; try done. eapply following_core; [apply core_download|done].
  - case_step; [|done]. eapply following_core; [apply core_download|done].
  - eapply following_core; [by eapply core_scroll|done].
  - eapply following_core; [apply core_window|done].
  - destruct (decide _) as [Hi|]; [|done]. unfold getContent. destruct (isLoading s) eqn:El; [done|].
    destruct Hs as [H1 H2 H3 H4 H5]. destruct H4 as [[Htl Hint]|[He _]]; [|rewrite He in Hi; by apply not_elem_of_empty in Hi].
    apply following_send; [by left|done..|]. constructor; auto.
  - eapply following_core; [|exact Hs]. by constructor.
  - eapply following_core; [|exact Hs]. by constructor.
Qed.

(** Nothing more is read after the first read. *)
Lemma core_continue a s F : following s F -> s.(readReq).(page) <= 1 \/ a = Nothing -> a <> AfterSecond -> same_core s (continue_ a s).
Proof.
  intros Hs Hp Ha. destruct a; [apply core_refl| |done]. cbn [continue_]. unfold after_first.
  destruct Hp as [Hp|]; [|done]. destruct (Z.ltb_spec 1 (page (readReq s))); [lia|]. apply core_after_init.
Qed.

(** The task of a read that is over. *)
Lemma following_task s F i tk : following s F -> s.(tasks) !! i = Some tk ->
  s.(isLoading) = true /\ s.(watching).(tailLog) = true /\ (exists n, s.(watching).(timer) = Some n /\ s.(watching).(intervals) = {[n]}) /\
  delete i s.(tasks) = ∅ /\ tk.(pre) = false /\ 1 <= s.(readReq).(page) /\
  (tk.(after) = Nothing \/ tk.(after) = AfterFirst /\ s.(readReq).(latest) = true) /\ forall r, (i, r) ∈ requests s -> r = s.(readReq).
Proof.
  intros [_ H2 _ H4 _] Hi. destruct H2 as [[_ H2]|(j & a & Hl & Hts & Hpg & Ha & Hr)]; [by rewrite H2, lookup_empty in Hi|].
  rewrite Hts in Hi. apply lookup_singleton_Some in Hi as [<- <-].
  destruct H4 as [[Htl Hn]|[_ H4]]; [|rewrite H4 in Hts; symmetry in Hts; by apply map_non_empty_singleton in Hts].
  rewrite Hts, delete_singleton_eq. by repeat split.
Qed.

Lemma following_failure s F i b1 b2 : following s F -> following (handle t b1 b2 (Failure i) s) F.
Proof.
  intros Hs. cbn [handle]. destruct (tasks s !! i) as [tk|] eqn:Ei; [|done].
  destruct (following_task s F i tk Hs Ei) as (_ & Htl & Hn & Hd & _ & _ & Ha & _).
  set (s1 := read_failed _). assert (H1 : following s1 F).
  { destruct Hs as [H1 H2 H3 H4 H5]. constructor; [done|left; split; [done|exact Hd]|done|left; done|done]. }
  eapply following_core; [|exact H1]. apply (core_continue _ _ F H1); [|destruct Ha as [->|[-> _]]; done].
  destruct Ha as [Ha|[_ El]]; [by right|left]. destruct Hs as [_ _ _ _ Hp]. unfold pages_ok in Hp. rewrite El in Hp.
  destruct Hp as [Hp _]. cbn. lia.
Qed.

Lemma following_answer s F F' i r pth st b1 b2 : following s F -> is_Some (s.(tasks) !! i) -> (i, r) ∈ requests s ->
  F `prefix_of` F' -> (r.(latest) = true -> (length F' <= 500)%nat) -> (length F' <= 3000)%nat -> unfinished st ->
  following (handle t b1 b2 (Answer i (answer F' r pth st)) s) F'.
Proof.
  intros Hs [tk Ei] Hr Hpre Hfirst H3 Hu. cbn [handle]. rewrite Ei.
  destruct (following_task s F i tk Hs Ei) as (_ & Htl & (n & Hn & Hint) & Hd & Hpr & Hpg & Ha & Huniq). rewrite (Huniq r Hr) in *.
  set (s0 := set_tasks _ _ s). set (res := answer _ _ _ _). destruct Hs as [Hty _ Hf _ Hp].
  assert (Hpages : pages_ok (received res s0).(readReq) (received res s0).(paging) F' /\ (length (received res s0).(paging).(logs) <= 3000)%nat /\
    (s.(readReq).(latest) = true -> (received res s0).(readReq).(page) <= 1)).
  { destruct (latest (readReq s)) eqn:El.
    - assert (F = []) as -> by (unfold pages_ok in Hp; rewrite El in Hp; tauto).
      destruct (pages_received_first s0 F' pth st Htl Hu El Hp (Hfirst eq_refl)) as (? & ? & ?). done.
    - destruct (pages_received_next s0 F F' pth st Htl Hu El Hpg Hp Hpre H3) as (? & ?). done. }
  destruct Hpages as (Hok & Hlen & Hone).
  destruct (received_fields res s0 Htl) as (_ & _ & _ & Ereq & _ & _ & Eld & Ets & Efr & Etl & Etm & Eint); [unfold res; by rewrite answer_taskStatus|].
  assert (Hfo : following (received res s0) F').
  { constructor; [by rewrite Ereq|left; split; [done|]|..|done].
    - rewrite Ets. exact Hd.
    - intros j r'. rewrite requests_received, Efr. apply Hf.
    - rewrite Etl, Etm, Eint. change (watching s0) with (watching s). rewrite Hn, Hint. destruct (stops _); [right|left].
      + split; [apply difference_diag_L|]. rewrite Ets. exact Hd.
      + split; [done|]. by exists n. }
  eapply following_core; [apply receive_received; done|]. eapply following_core; [|exact Hfo].
  apply (core_continue _ _ F' Hfo); [|destruct Ha as [->|[-> _]]; done].
  destruct Ha as [Ha|[_ El]]; [by right|left; by apply Hone].
Qed.

Lemma following_mounted p node show load height : p.(tail) = true -> p.(type) <> js "php" ->
  following (mounted p node show load height) [].
Proof.
  intros Ht Hp. unfold mounted, init. cbn [props]. rewrite Ht. cbv zeta. cbn [set_tailLog with_watching watching tailLog]. unfold changeTail.
  cbn [set_tailLog with_watching watching tailLog]. unfold getContent. cbn [set_latest with_req with_watching isLoading].
  apply following_send; [by right|done|done| |].
  - exists 0%nat. split; [done|]. cbn. set_solver.
  - constructor; [done|by left|by intros i r ?%elem_of_nil| |cbn; tauto].
    left. split; [done|]. exists 0%nat. split; [done|]. cbn. set_solver.
Qed.

End Following.

(** ** A witness *)

