(* ===== verification/DashboardCache.v ===== *)
(** * The cache of the dashboard

    src/frontend/src/utils/dashboardCache.ts: entries with a time to live in one item of
    localStorage, as the JSON text of an object.  The item is [None] when it is absent;
    [full] says that localStorage has no room for a text; an object or an array that is
    compared with a time is left to [other_number]. *)

From S2P Require Import Prelude JsString Numbers Uri Json.

#[local] Open Scope list_scope.

Section DashboardCache.
Context `{JsNumber}.
Variables (full : jsstr -> bool) (other_number : json -> num).

(** What comes back: null, undefined or a value. *)
Variant Got := GNull | GUndefined | GValue (v : json).

(** [cacheRaw ? JSON.parse(cacheRaw) : {}]; [None] is an exception. *)
Definition parse_cache (cacheRaw : option jsstr) : option json :=
  match cacheRaw with None | Some [] => Some (JObj []) | Some text => parse text end.

Definition readCache : option jsstr -> option json := parse_cache.

Definition json_number (v : json) : num :=
  match v with
  | JNum d => Number d
  | JStr s => Number s
  | JBool b => int (if b then 1 else 0)
  | JNull => int 0
  | _ => other_number v
  end.

Definition getDashboardCache (key : jsstr) (now : N) (cacheRaw : option jsstr) : Got :=
  match readCache cacheRaw ≫= member key with
  | Some entry =>
      match member (js "expireAt") entry with
      | Some expireAt =>
          if num_lt (int (Z.of_N now)) (json_number expireAt)
          then match member (js "value") entry with Some v => GValue v | None => GUndefined end
          else GNull
      | None => GNull
      end
  | None => GNull
  end.

Definition entry_of (value : json) (expireAt : N) : json :=
  JObj [(js "value", value); (js "expireAt", JNum (dec expireAt))].

(** [cache[key] = entry]: a new entry is not written under the name of the prototype. *)
Definition set_entry (key : jsstr) (entry : json) (ms : list (jsstr * json)) : list (jsstr * json) :=
  if (key === js "__proto__") && negb (memb key (List.map fst ms)) then ms else put key entry ms.

(** localStorage.setItem, or the catch that removes the item. *)
Definition store_item (text : jsstr) : option jsstr := if full text then None else Some text.

(** The item afterwards.  A member set on an array is not written, one set on a value that is
    no object is an exception. *)
Definition setDashboardCache (key : jsstr) (value : json) (ttl now : N) (cacheRaw : option jsstr) : option jsstr :=
  match parse_cache cacheRaw with
  | Some (JObj ms) => store_item (stringify (JObj (set_entry key (entry_of value (now + ttl)) ms)))
  | Some (JArr l) => store_item (stringify (JArr l))
  | _ => None
  end.

Definition clearDashboardCache (cacheRaw : option jsstr) : option jsstr := None.

Definition matches (prefixes : list jsstr) (key : jsstr) : bool := existsb (startsWith key) prefixes.

(** Deleting an element of an array leaves a hole, which is written as null; deleting a unit
    of a string is an exception. *)
Definition clearDashboardCacheByPrefix (prefixes : list jsstr) (cacheRaw : option jsstr) : option jsstr :=
  match cacheRaw with
  | None | Some [] => cacheRaw
  | Some text =>
      match parse text with
      | Some (JObj ms) => store_item (stringify (JObj (List.filter (fun m => negb (matches prefixes m.1)) ms)))
      | Some (JArr l) =>
          store_item (stringify (JArr (imap (fun i v => if matches prefixes (dec (N.of_nat i)) then JNull else v) l)))
      | Some (JStr s) =>
          if existsb (fun i => matches prefixes (dec (N.of_nat i))) (seq 0 (length s)) then None
          else store_item (stringify (JStr s))
      | Some JNull | None => clearDashboardCache cacheRaw
      | Some v => store_item (stringify v)
      end
  end.

(** ** Lemmas *)

Lemma put_keys k v ms : NoDup (List.map fst ms) ->
  NoDup (List.map fst (put k v ms)) /\ forall m, m ∈ put k v ms -> m = (k, v) \/ m ∈ ms.
Proof.
  induction ms as [|[k' v'] ms IH]; cbn [put List.map fst]; intros Hn.
  { split; [repeat constructor; by apply not_elem_of_nil|]. intros m Hm. left. by apply list_elem_of_singleton in Hm. }
  apply list.NoDup_cons in Hn as [Hk Hn]. destruct (IH Hn) as [IH1 IH2]. destruct (k' === k) eqn:E.
  - apply streqb_eq in E as ->. cbn [List.map fst]. split; [by apply list.NoDup_cons|].
    intros m. rewrite !elem_of_cons. tauto.
  - cbn [List.map fst]. split.
    + apply list.NoDup_cons. split; [|done]. intros (m & Em & Hm)%elem_map. destruct (IH2 m Hm) as [->|Hin].
      * cbn [fst] in Em. apply streqb_neq in E. congruence.
      * apply Hk. apply elem_map. by exists m.
    + intros m. rewrite !elem_of_cons. intros [->|Hm]; [by right; left|]. destruct (IH2 m Hm); auto.
Qed.

Lemma member_put k k' v ms : member k' (JObj (put k v ms)) = if k === k' then Some v else member k' (JObj ms).
Proof.
  cbn [member]. induction ms as [|[k1 v1] ms IH]; cbn [put List.find fst].
  - destruct (k === k'); done.
  - destruct (k1 === k) eqn:E; cbn [List.find fst].
    + apply streqb_eq in E as ->. by destruct (k === k').
    + destruct (k1 === k') eqn:E'; [|exact IH]. apply streqb_eq in E' as ->. by rewrite streqb_sym, E.
Qed.

Lemma member_filter f k ms : member k (JObj (List.filter (fun m => f m.1) ms)) = if f k then member k (JObj ms) else None.
Proof.
  cbn [member]. induction ms as [|[k1 v1] ms IH]; cbn [List.filter List.find fst].
  - by destruct (f k).
  - destruct (f k1) eqn:E; cbn [List.find fst].
    + destruct (k1 === k) eqn:E'; [|exact IH]. apply streqb_eq in E' as ->. by rewrite E.
    + rewrite IH. destruct (k1 === k) eqn:E'; [|done]. apply streqb_eq in E' as ->. by rewrite E.
Qed.

Lemma set_entry_put k v ms : k <> js "__proto__" -> set_entry k v ms = put k v ms.
Proof. intros Hk. unfold set_entry. by assert ((k === js "__proto__") = false) as -> by (by apply streqb_neq). Qed.

(** A cache the program wrote: no item, or the text of an object that reads back. *)
Definition cache_of (cacheRaw : option jsstr) (ms : list (jsstr * json)) : Prop :=
  parse_cache cacheRaw = Some (JObj ms) /\ writable (JObj ms).

Lemma stringify_object ms : exists t, stringify (JObj ms) = 123%N :: t.
Proof. cbn [stringify]. by eexists. Qed.

Lemma stored_cache ms : writable (JObj ms) -> full (stringify (JObj ms)) = false ->
  cache_of (store_item (stringify (JObj ms))) ms.
Proof.
  intros Hw Hf. split; [|done]. unfold store_item. rewrite Hf. unfold parse_cache.
  destruct (stringify_object ms) as [t Et]. rewrite Et, <- Et. by apply json_roundtrip.
Qed.

Lemma writable_put k v ms : Forall unit16 k -> writable v -> writable (JObj ms) -> writable (JObj (put k v ms)).
Proof.
  intros Hk Hv Hw. inversion Hw as [| | | | |ms' Hn Hu Hm]; subst. destruct (put_keys k v ms Hn) as [Hn' Hin].
  constructor; [done|apply Forall_elem; intros m H1..]; rewrite Forall_elem in Hu, Hm;
    destruct (Hin m H1) as [->|H2]; cbn [fst snd]; auto.
Qed.

Lemma writable_entry v t : writable v -> writable (entry_of v t).
Proof.
  intros Hv. constructor.
  - apply (bool_decide_unpack _). vm_compute. exact I.
  - repeat constructor; cbn; unfold unit16; lia.
  - repeat constructor. done.
Qed.

(** What a cache gives for a key: the value of its entry until the entry expires. *)
Definition found (ms : list (jsstr * json)) (key : jsstr) (now : N) : Got :=
  match member key (JObj ms) with
  | Some entry =>
      match member (js "expireAt") entry with
      | Some expireAt =>
          if num_lt (int (Z.of_N now)) (json_number expireAt)
          then match member (js "value") entry with Some v => GValue v | None => GUndefined end
          else GNull
      | None => GNull
      end
  | None => GNull
  end.

Lemma get_found raw ms key now : cache_of raw ms -> getDashboardCache key now raw = found ms key now.
Proof. intros [Hp _]. unfold getDashboardCache, readCache. by rewrite Hp. Qed.

(** C29. What is cached comes back as it was until its time is over, and not after; the other
    entries are not touched; and the cache stays one that can be written to. *)
Theorem cached_until_expiry key value ttl now raw ms :
  cache_of raw ms -> key <> js "__proto__" -> Forall unit16 key -> writable value ->
  full (stringify (JObj (put key (entry_of value (now + ttl)) ms))) = false ->
  exact (Z.of_N (now + ttl)) ->
  let raw' := setDashboardCache key value ttl now raw in
  cache_of raw' (put key (entry_of value (now + ttl)) ms) /\
  (forall t, exact (Z.of_N t) ->
     getDashboardCache key t raw' = if (t <? now + ttl)%N then GValue value else GNull) /\
  (forall k t, k <> key -> getDashboardCache k t raw' = getDashboardCache k t raw).
Proof.
  intros Hc Hp Hk Hv Hf He. cbn zeta. set (ms' := put _ _ ms) in *.
  assert (Hc' : cache_of (setDashboardCache key value ttl now raw) ms').
  { unfold setDashboardCache. destruct Hc as [-> Hw]. rewrite (set_entry_put _ _ _ Hp). apply stored_cache; [|done].
    by apply writable_put; [|apply writable_entry|]. }
  split; [done|]. split.
  - intros t Ht. rewrite (get_found _ _ _ _ Hc'). unfold found, ms'. rewrite member_put, streqb_refl.
    change (member (js "expireAt") (entry_of value (now + ttl))) with (Some (JNum (dec (now + ttl)))).
    change (member (js "value") (entry_of value (now + ttl))) with (Some value). cbn [json_number].
    rewrite Number_dec, lt_int by done. destruct (Z.ltb_spec (Z.of_N t) (Z.of_N (now + ttl))), (N.ltb_spec t (now + ttl)); lia || done.
  - intros k t Hkey. rewrite (get_found _ _ _ _ Hc'), (get_found _ _ _ _ Hc). unfold found, ms'. rewrite member_put.
    assert ((key === k) = false) as -> by (by apply streqb_neq). done.
Qed.

Lemma writable_filter f ms : writable (JObj ms) -> writable (JObj (List.filter f ms)).
Proof.
  intros Hw. inversion Hw as [| | | | |ms' Hn Hu Hm]; subst. constructor.
  - induction ms as [|m ms IH]; [done|]. cbn [List.filter List.map] in *. apply list.NoDup_cons in Hn as [Hk Hn].
    apply list.Forall_cons in Hu as [_ Hu]. apply list.Forall_cons in Hm as [_ Hm].
    specialize (IH ltac:(by constructor) Hn Hu Hm). destruct (f m); [|done]. cbn [List.map]. apply list.NoDup_cons. split; [|done].
    intros (x & Ex & [Hx _]%elem_filter)%elem_map. apply Hk. apply elem_map. by exists x.
  - apply Forall_elem. intros m [Hx _]%elem_filter. rewrite Forall_elem in Hu. auto.
  - apply Forall_elem. intros m [Hx _]%elem_filter. rewrite Forall_elem in Hm. auto.
Qed.

(** Clearing by prefixes forgets the keys that start with one and nothing else. *)
Theorem cleared_by_prefix prefixes raw ms key t :
  cache_of raw ms -> (forall text, full text = false) ->
  getDashboardCache key t (clearDashboardCacheByPrefix prefixes raw) =
    if matches prefixes key then GNull else getDashboardCache key t raw.
Proof.
  intros Hc Hf. rewrite (get_found _ _ _ _ Hc). unfold clearDashboardCacheByPrefix.
  assert (Hnil : forall raw, raw = None \/ raw = Some [] -> parse_cache raw = Some (JObj ms) -> ms = [])
    by (intros r [-> | ->]; cbn; congruence).
  destruct Hc as [Hp Hw]. destruct raw as [[|c text]|].
  - rewrite (Hnil _ (or_intror eq_refl) Hp). by destruct (matches prefixes key).
  - cbn [parse_cache] in Hp. rewrite Hp.
    rewrite (get_found _ (List.filter (fun m => negb (matches prefixes m.1)) ms)).
    + unfold found. rewrite (member_filter (fun k => negb (matches prefixes k))). by destruct (matches prefixes key).
    + apply stored_cache; [by apply writable_filter|done].
  - rewrite (Hnil _ (or_introl eq_refl) Hp). by destruct (matches prefixes key).
Qed.
End DashboardCache.

(** ** Witnesses *)

Definition no_number (v : json) : num := None.
Definition roomy (text : jsstr) : bool := false.

Lemma empty_cache : cache_of None [].
Proof. split; [reflexivity|repeat constructor]. Qed.

Lemma cached_until_expiry_witness :
  let raw := setDashboardCache roomy (js "netOptions") (JArr [JStr (js "eth0")]) 600 1000 None in
  getDashboardCache no_number (js "netOptions") 1599 raw = GValue (JArr [JStr (js "eth0")]) /\
  getDashboardCache no_number (js "netOptions") 1600 raw = GNull.
Proof.
  cbv zeta.
  destruct (cached_until_expiry roomy no_number (js "netOptions") (JArr [JStr (js "eth0")]) 600 1000 None [])
    as (_ & H1 & _); [exact empty_cache|discriminate| | |reflexivity|unfold exact; cbn; lia|].
  - apply (bool_decide_unpack _). vm_compute. exact I.
  - repeat constructor.
  - split; [exact (H1 1599%N ltac:(unfold exact; cbn; lia))|exact (H1 1600%N ltac:(unfold exact; cbn; lia))].
Defined.

Lemma cleared_by_prefix_witness :
  let raw := setDashboardCache roomy (js "safeStatus") (JBool true) 600 1000 None in
  getDashboardCache no_number (js "safeStatus") 1100 (clearDashboardCacheByPrefix roomy [js "safe"] raw) = GNull.
Proof.
  cbv zeta. refine (cleared_by_prefix roomy no_number [js "safe"] _ [(js "safeStatus", entry_of (JBool true) 1600)]
    (js "safeStatus") 1100 _ _); [|done].
  split; [vm_compute; reflexivity|]. constructor.
  - repeat constructor. by apply not_elem_of_nil.
  - apply list.Forall_cons. split; [|apply Forall_nil_2]. apply (bool_decide_unpack _). vm_compute. exact I.
  - apply list.Forall_cons. split; [|apply Forall_nil_2]. apply writable_entry. constructor.
Defined.
