(* ===== verification/Misc.v ===== *)
(** * Small helpers

    src/frontend/src/utils/misc.ts: copies of JSON-like data, a debounced function, the
    message of an error, the order of menus, and names in Punycode, where [toUnicode] is the
    punycode package's. *)

From S2P Require Import Prelude JsString Json Sorting.
From Stdlib Require Import Sorting.Sorted.

#[local] Open Scope list_scope.
#[local] Set Warnings "-register-all".

(** ** deepCopy *)

Definition json_truthy (v : json) : bool :=
  match v with
  | JNull => false
  | JBool b => b
  | JNum d => negb (memb d [js "0"; js "-0"])
  | JStr s => truthy s
  | JArr _ | JObj _ => true
  end.

(** [obj.push ? [] : {}]: whether the copy starts as an array; null has no members. *)
Definition starts_array (v : json) : bool :=
  match v with
  | JArr _ => true
  | JObj _ => match member (js "push") v with Some p => json_truthy p | None => false end
  | _ => false
  end.

(** [typeof v === 'object'] *)
Definition is_object (v : json) : bool := match v with JNull | JArr _ | JObj _ => true | _ => false end.

(** The members a loop over [in] visits, each copied; [None] when an array takes the members
    of an object, which JSON has no text for. *)
Fixpoint deepCopy (v : json) : option json :=
  match v with
  | JNull | JBool _ | JNum _ => Some (JObj [])
  | JStr s => Some (JObj (imap (fun i c => (dec (N.of_nat i), JStr [c])) s))
  | JArr l =>
      JArr <$> (fix copies (l : list json) : option (list json) :=
                  match l with
                  | [] => Some []
                  | x :: l' => y ← if is_object x then deepCopy x else Some x; ys ← copies l'; Some (y :: ys)
                  end) l
  | JObj ms =>
      if starts_array (JObj ms) then None
      else JObj <$> (fix copies (ms : list (jsstr * json)) : option (list (jsstr * json)) :=
                       match ms with
                       | [] => Some []
                       | (k, x) :: ms' => y ← if is_object x then deepCopy x else Some x; ys ← copies ms'; Some ((k, y) :: ys)
                       end) ms
  end.

(** Data without null and without an object whose member push is set. *)
Inductive plain_data : json -> Prop :=
| pd_bool b : plain_data (JBool b)
| pd_num d : plain_data (JNum d)
| pd_str s : plain_data (JStr s)
| pd_arr l : Forall plain_data l -> plain_data (JArr l)
| pd_obj ms : starts_array (JObj ms) = false -> Forall (fun m => plain_data m.2) ms -> plain_data (JObj ms).

Lemma deepCopy_member v : plain_data v -> (is_object v = true -> deepCopy v = Some v) ->
  (if is_object v then deepCopy v else Some v) = Some v.
Proof. intros _ Hv. destruct (is_object v); auto. Qed.

(** The copy of an array or an object of such data is equal to it. *)
Theorem deepCopy_id v : plain_data v -> is_object v = true -> deepCopy v = Some v.
Proof.
  induction v as [| | | |l IH|ms IH] using json_nested_ind; intros Hp Ho; try discriminate Ho; inversion Hp as [| | |l' Hl|ms' Hs Hm]; subst.
  - cbn [deepCopy]. enough ((fix copies (l : list json) : option (list json) := match l with
      | [] => Some [] | x :: l' => y ← if is_object x then deepCopy x else Some x; ys ← copies l'; Some (y :: ys) end) l = Some l)
      as -> by done.
    clear Hp Ho. induction l as [|x l IHl]; [done|]. apply list.Forall_cons in IH as [IHx IH]. apply list.Forall_cons in Hl as [Hx Hl].
    rewrite (deepCopy_member x Hx (IHx Hx)). cbn [mbind option_bind]. by rewrite (IHl IH Hl).
  - cbn [deepCopy]. rewrite Hs. enough ((fix copies (ms : list (jsstr * json)) : option (list (jsstr * json)) := match ms with
      | [] => Some [] | (k, x) :: ms' => y ← if is_object x then deepCopy x else Some x; ys ← copies ms'; Some ((k, y) :: ys) end) ms = Some ms)
      as -> by done.
    clear Hp Ho Hs. induction ms as [|[k x] ms IHl]; [done|]. apply list.Forall_cons in IH as [IHx IH]. apply list.Forall_cons in Hm as [Hx Hm].
    cbn [snd] in *. rewrite (deepCopy_member x Hx (IHx Hx)). cbn [mbind option_bind]. by rewrite (IHl IH Hm).
Qed.

(** A member that is null is an empty object in the copy. *)
Lemma deepCopy_null k : k <> js "push" -> deepCopy (JObj [(k, JNull)]) = Some (JObj [(k, JObj [])]).
Proof.
  intros Hk. cbn [deepCopy starts_array member List.find fst]. assert ((k === js "push") = false) as -> by (by apply streqb_neq). done.
Qed.

(** ** debounce *)

Section Debounce.
Context {Args : Type}.

(** The variable [timeout], the timers that are pending with the arguments of their calls, in
    a browser whose next id is fresh, and the calls of [func], the last one first. *)
Record Debounce := { timeout : option nat; timers : gmap nat Args; fresh_id : nat; calls : list Args }.

Definition clear_timeout (s : Debounce) : Debounce :=
  {| timeout := s.(timeout); timers := match s.(timeout) with Some t => delete t s.(timers) | None => s.(timers) end;
     fresh_id := s.(fresh_id); calls := s.(calls) |}.

(** A call of the debounced function. *)
Definition executedFunction (args : Args) (s : Debounce) : Debounce :=
  let s := clear_timeout s in
  {| timeout := Some s.(fresh_id); timers := <[s.(fresh_id) := args]> s.(timers); fresh_id := S s.(fresh_id); calls := s.(calls) |}.

(** A timer that is pending fires. *)
Definition later (t : nat) (s : Debounce) : Debounce :=
  match s.(timers) !! t with
  | None => s
  | Some args =>
      let s := clear_timeout {| timeout := s.(timeout); timers := delete t s.(timers); fresh_id := s.(fresh_id); calls := s.(calls) |} in
      {| timeout := s.(timeout); timers := s.(timers); fresh_id := s.(fresh_id); calls := args :: s.(calls) |}
  end.

Inductive DebounceEvent := Call (args : Args) | Fire (t : nat).
Definition debounce_step (s : Debounce) (e : DebounceEvent) : Debounce :=
  match e with Call args => executedFunction args s | Fire t => later t s end.

Definition debounced : Debounce := {| timeout := None; timers := ∅; fresh_id := 0; calls := [] |}.

(** At most the last call waits, for the timer the variable names. *)
Definition debounce_ok (last : option Args) (s : Debounce) : Prop :=
  (s.(timers) = ∅ \/ exists t a, s.(timeout) = Some t /\ last = Some a /\ s.(timers) = {[t := a]} /\ t < s.(fresh_id)).

(** The arguments of the last call. *)
Definition last_call (l : list DebounceEvent) : option Args :=
  fold_left (fun a e => match e with Call args => Some args | Fire _ => a end) l None.

(** Of the calls that come before the one that waits is over, func is called for the last
    one only: whenever a timer fires, it is with the arguments of the last call, and no timer
    is left then. *)
Theorem debounce_last l :
  let s := fold_left debounce_step l debounced in
  debounce_ok (last_call l) s /\
  forall t, is_Some (s.(timers) !! t) ->
    exists a, last_call l = Some a /\ (later t s).(calls) = a :: s.(calls) /\ (later t s).(timers) = ∅.
Proof.
  cbn zeta.
  assert (Hok : debounce_ok (last_call l) (fold_left debounce_step l debounced)).
  { unfold last_call. assert (H0 : debounce_ok (None : option Args) debounced) by (by left).
    revert H0. generalize (None : option Args) as a. generalize debounced as s.
    induction l as [|e l IH]; intros s a Hs; [done|]. cbn [fold_left]. apply IH. destruct e as [args|t]; cbn [debounce_step].
    - right. exists s.(fresh_id), args. unfold executedFunction, clear_timeout. cbn [timeout timers fresh_id].
      split; [done|]. split; [done|]. split; [|lia].
      destruct Hs as [Hs|(t & b & Ht & _ & Hs & _)]; [rewrite Hs|rewrite Hs, Ht].
      + destruct (timeout s); by rewrite ?delete_empty.
      + by rewrite delete_singleton_eq.
    - unfold later. destruct (timers s !! t) as [args|] eqn:Et; [|done]. left. unfold clear_timeout. cbn [timers timeout].
      destruct Hs as [Hs|(t' & b & Ht & _ & Hs & _)]; [by rewrite Hs, lookup_empty in Et|]. rewrite Ht, Hs in *.
      apply lookup_singleton_Some in Et as [<- _]. by rewrite delete_singleton_eq, delete_empty. }
  split; [done|]. intros t [args Ht]. destruct Hok as [Hs|(t' & b & Htm & Hl & Hs & _)].
  - by rewrite Hs, lookup_empty in Ht.
  - exists b. split; [done|]. unfold later. rewrite Ht. unfold clear_timeout. cbn [calls timers timeout].
    rewrite Hs in Ht |- *. apply lookup_singleton_Some in Ht as [<- <-]. split; [done|].
    rewrite Htm. by rewrite delete_singleton_eq, delete_empty.
Qed.
End Debounce.

Lemma debounce_last_witness :
  let s := fold_left debounce_step [Call 1; Call 2; Fire 0; Call 3] (debounced (Args := nat)) in
  (later 2 s).(calls) = [3] /\ (later 2 s).(timers) = ∅.
Proof.
  cbv zeta. destruct (debounce_last [Call 1; Call 2; Fire 0; Call 3]) as [_ Hf].
  destruct (Hf 2) as (a & Ha & -> & ->); [by eexists|]. injection Ha as <-. split; reflexivity.
Defined.

(** ** isJson and getErrorMessage *)

(** [None] is undefined: the text of a value that is no object. *)
Definition isJson (str : jsstr) : option bool :=
  match parse str with Some v => if is_object v then Some true else None | None => Some false end.

(** A string, an Error with its message and text, an object, or something else with its text. *)
Inductive Thrown := ThrownString (s : jsstr) | ThrownError (message text : jsstr) | ThrownObject (v : json) | ThrownOther (text : jsstr).

(** [v?.a?.b] *)
Definition path (names : list string) (v : json) : option json :=
  fold_left (fun v k => v ≫= member (js k)) names (Some v).

Definition message_paths : list (list string) :=
  [["message"]; ["msg"]; ["error"; "message"]; ["response"; "data"; "message"]; ["response"; "data"; "msg"];
   ["data"; "message"]; ["data"; "msg"]]%string.

(** The first of the values that is truthy, else the text of the object. *)
Definition getErrorMessage (error : Thrown) : json :=
  match error with
  | ThrownString s => JStr s
  | ThrownError message text => JStr (if truthy message then message else text)
  | ThrownObject v =>
      match List.find json_truthy (omap (fun names => path names v) message_paths) with
      | Some m => m
      | None => JStr (stringify v)
      end
  | ThrownOther text => JStr text
  end.

Example error_messages :
  getErrorMessage (ThrownObject (JObj [(js "message", JStr []); (js "response", JObj [(js "data", JObj [(js "msg", JStr (js "no"))])])]))
    = JStr (js "no") /\
  getErrorMessage (ThrownObject (JObj [(js "code", JNum (js "5"))])) = JStr (stringify (JObj [(js "code", JNum (js "5"))])) /\
  isJson (js "null") = Some true /\ isJson (js "5") = None.
Proof. vm_compute. auto. Qed.

(** ** sortMenu *)

Record MenuItem := { m_name : jsstr; m_sort : Z; m_children : option (list (jsstr * Z)) }.

Definition sort_children (item : MenuItem) : MenuItem :=
  {| m_name := item.(m_name); m_sort := item.(m_sort); m_children := sort_by snd <$> item.(m_children) |}.

Definition sortMenu (arr : list MenuItem) : list MenuItem := sort_by m_sort (List.map sort_children arr).

(** Menus and their children come in the order of their sort, and those of one sort as they were. *)
Lemma sortMenu_spec arr :
  sortMenu arr ≡ₚ List.map sort_children arr /\ StronglySorted (ascending m_sort) (sortMenu arr) /\
  (forall k, List.filter (fun item => (m_sort item =? k)%Z) (sortMenu arr) =
             List.filter (fun item => (m_sort item =? k)%Z) (List.map sort_children arr)) /\
  forall item children, item ∈ sortMenu arr -> item.(m_children) = Some children -> StronglySorted (ascending snd) children.
Proof.
  split; [apply sort_by_perm|]. split; [apply sort_by_sorted|]. split; [intros k; apply sort_by_stable|].
  intros item children. unfold sortMenu. rewrite sort_by_perm. intros (i & -> & _)%elem_map. cbn [m_children sort_children].
  destruct (m_children i); [|done]. intros [= <-]. apply sort_by_sorted.
Qed.

(** ** Punycode *)

Section Punycode.
Variable toUnicode : jsstr -> option jsstr.      (* None is an exception *)

Definition isPunycoded (domain : jsstr) : bool := includes domain (js "xn--").

Definition GetPunyCodeDomain (domain : jsstr) : jsstr :=
  if negb (truthy domain) then []
  else if negb (includes (toLowerCase domain) (js "xn--")) then []
  else match toUnicode domain with
       | Some decoded => if decoded === domain then [] else decoded
       | None => []
       end.
End Punycode.
