(* ===== verification/FilePaths.v ===== *)
(** * Paths, breadcrumbs and sizes of the file manager

    The functions of src/frontend/src/views/host/file-management/index.vue that hold no
    state, and size-cache.ts beside it.  What the page measures, the width of the breadcrumb
    with [k] items hidden and the widths of the toolbar, and the server's answers whether a
    path exists are arguments. *)

From S2P Require Import Prelude JsString Sorting.
From Stdlib Require Import Sorting.Sorted.

#[local] Open Scope list_scope.

Record FilePath := { url : jsstr; name : jsstr }.

#[export] Instance FilePath_eq_dec : EqDecision FilePath.
Proof. solve_decision. Defined.

(** ** Paths *)

(** [path.split('/').filter(Boolean)] *)
Definition segments (path : jsstr) : list jsstr := List.filter truthy (split 47 path).

(** [`/${segments.join('/')}`] *)
Definition path_of (l : list jsstr) : jsstr := 47%N :: join [47%N] l.

Definition normalizeFilePath (filePath : jsstr) : jsstr :=
  if negb (truthy filePath) then js "/"
  else let normalized := path_of (segments filePath) in if normalized === [] then js "/" else normalized.

(** The loop of getPaths; [base] is the path so far. *)
Fixpoint breadcrumbs_go (base : jsstr) (l : list jsstr) : list FilePath :=
  match l with
  | [] => []
  | p :: l' => let base := base ++ 47%N :: p in {| url := base; name := p |} :: breadcrumbs_go base l'
  end.
Definition getPaths (reqPath : option jsstr) : list FilePath := breadcrumbs_go [] (segments (default [] reqPath)).

(** The reduction of buildPaths. *)
Definition push_crumb (accumulator : list FilePath) (segment : jsstr) : list FilePath :=
  let currentUrl := match list.last accumulator with Some p => p.(url) ++ 47%N :: segment | None => 47%N :: segment end in
  accumulator ++ [{| url := currentUrl; name := segment |}].
Definition buildPaths (path : jsstr) : list FilePath := fold_left push_crumb (segments path) [].

Definition getLastPath (path : option jsstr) : jsstr :=
  match path with
  | None | Some [] => []
  | Some p => default [] (list.last (segments p))
  end.

(** The loop of findExistingPath over the first [n] segments; [None] is a failed check. *)
Fixpoint find_go (checkFile : jsstr -> option bool) (l : list jsstr) (n : nat) : jsstr :=
  match n with
  | O => js "/"
  | S k => match checkFile (path_of (take n l)) with Some true => path_of (take n l) | _ => find_go checkFile l k end
  end.
Definition findExistingPath (checkFile : jsstr -> option bool) (filePath : jsstr) : jsstr :=
  let l := segments (normalizeFilePath filePath) in find_go checkFile l (length l).

Definition remarkBlackList : list jsstr := List.map js ["/proc"; "/sys"; "/dev"; "/run"]%string.
Definition isInRemarkBlackList (path : jsstr) : bool :=
  existsb (fun p => (path === p) || startsWith path (p ++ [47%N])) remarkBlackList.

(** ** Breadcrumbs *)

Definition formatBreadcrumbName (visible : list FilePath) (path : FilePath) (index : nat) : jsstr :=
  if (index =? length visible - 1) || (length path.(name) <=? 25) then path.(name)
  else take 22 path.(name) ++ js "...".

(** The breadcrumb with [k] items hidden after the first one. *)
Definition visible_crumbs (paths : list FilePath) (k : nat) : list FilePath :=
  if k =? 0 then paths else match paths with [] => [] | p :: _ => p :: drop (1 + k) paths end.
Definition hidden_crumbs (paths : list FilePath) (k : nat) : list FilePath :=
  if k =? 0 then [] else take k (drop 1 paths).

(** The loop of handlePath from [k] hidden items, with [fuel] more that may be hidden. *)
Fixpoint hide_go (scrollWidth : nat -> Z) (maxWidth : Z) (k fuel : nat) : nat :=
  match fuel with
  | O => k
  | S n => if (maxWidth <? scrollWidth k)%Z then hide_go scrollWidth maxWidth (S k) n else k
  end.

(** How many items handlePath hides; [None] is a breadcrumb that is not on the page. *)
Definition handlePath (paths : list FilePath) (scrollWidth : option (nat -> Z)) (clientWidth : Z) : nat :=
  if length paths <=? 2 then 0
  else match scrollWidth with
       | None => 0
       | Some w => let maxWidth := (clientWidth - 24)%Z in
           if (maxWidth <=? 0)%Z then 0 else hide_go w maxWidth 0 (length paths - 2)
       end.

(** ** The toolbar *)

Definition batchButtonMinWidths : list Z := [64; 64; 64; 64; 64]%Z.
Definition moreButtonWidth : Z := 76.
Definition toolbarGap : Z := 8.

(** The loop over the widths: how many buttons are shown. *)
Fixpoint fit_go (widths : list Z) (count : nat) (available used : Z) (visible : nat) : nat :=
  match widths with
  | [] => visible
  | w :: ws =>
      let nextUsedWidth := (used + w)%Z in
      let remaining := (Z.of_nat count - Z.of_nat visible - 1)%Z in
      let reserve := if (0 <? remaining)%Z then moreButtonWidth else 0%Z in
      if (nextUsedWidth + reserve <=? available)%Z then fit_go ws count available nextUsedWidth (S visible) else visible
  end.

(** The number of buttons shown and whether the toolbar is wrapped; [rowWidth] 0 shows all and
    leaves the wrapping as it was. *)
Definition updateButtons {B} (toolButtons : list B) (rowWidth : Z) (leftSibling : option Z) (pasteWidth : Z) (moveOpen wrapped : bool)
  : list B * list B * bool :=
  if (rowWidth =? 0)%Z then (toolButtons, [], wrapped)
  else
    let pasteReserve := if moveOpen then (pasteWidth + toolbarGap)%Z else 0%Z in
    let columnSelectWidth := 48%Z in
    let sameLineReserve := match leftSibling with Some w => (w + 16)%Z | None => 0%Z end in
    let sameLineAvailable := (rowWidth - sameLineReserve - pasteReserve - columnSelectWidth - toolbarGap)%Z in
    let isRightToolbarWrapped := match leftSibling with Some _ => (sameLineAvailable <? moreButtonWidth)%Z | None => false end in
    let leftReserve := if isRightToolbarWrapped then 0%Z else sameLineReserve in
    let rightLineWidth := Z.max 0 (rowWidth - leftReserve - columnSelectWidth - toolbarGap) in
    let availableWidth := Z.max 0 (rightLineWidth - pasteReserve) in
    let visibleCount := fit_go batchButtonMinWidths (length toolButtons) availableWidth 0 0 in
    (take visibleCount toolButtons, drop visibleCount toolButtons, isRightToolbarWrapped).

(** ** size-cache.ts *)

Record FileItem := {
  f_path : jsstr; f_name : jsstr; f_isDir : bool; f_size : Z; f_dirSize : option Z; f_btnLoading : bool; f_remark : jsstr
}.

Definition with_dirSize (n : Z) (f : FileItem) : FileItem :=
  {| f_path := f.(f_path); f_name := f.(f_name); f_isDir := f.(f_isDir); f_size := f.(f_size); f_dirSize := Some n;
     f_btnLoading := f.(f_btnLoading); f_remark := f.(f_remark) |}.

Abbreviation SizeCache := (gmap jsstr Z).

Definition updateDirSizeCache (cache : SizeCache) (items : list (jsstr * Z)) : SizeCache :=
  fold_left (fun c i => <[i.1 := i.2]> c) items cache.

Definition mergeDirSizeCache (items : list FileItem) (cache : SizeCache) : list FileItem :=
  if size cache =? 0 then items
  else List.map (fun item => if negb item.(f_isDir) then item
                             else match cache !! item.(f_path) with Some n => with_dirSize n item | None => item end) items.

Inductive Order := Ascending | Descending | NoOrder.

#[export] Instance Order_eq_dec : EqDecision Order.
Proof. solve_decision. Defined.

Definition displaySize (f : FileItem) : Z := if f.(f_isDir) then default f.(f_size) f.(f_dirSize) else f.(f_size).

Definition sortFilesByDisplaySize (items : list FileItem) (order : Order) : list FileItem :=
  match order with
  | Ascending => sort_by displaySize items
  | Descending => sort_by (fun f => (- displaySize f)%Z) items
  | NoOrder => items
  end.

(** ** Lemmas on segments *)

Definition is_segment (s : jsstr) : Prop := s <> [] /\ 47%N ∉ s.

Lemma segments_ok path : Forall is_segment (segments path).
Proof.
  unfold segments. apply Forall_elem. intros s [Hs Ht]%elem_filter. split; [by apply truthy_true|].
  pose proof (split_pieces 47 path) as Hp. rewrite Forall_elem in Hp. by apply Hp.
Qed.

Lemma segments_join l : Forall is_segment l -> segments (path_of l) = l.
Proof.
  intros Hl. unfold segments, path_of. cbn [split]. rewrite N.eqb_refl. cbn [List.filter truthy].
  destruct l as [|s l]; [done|]. rewrite split_join; [|done|].
  - apply filter_all. intros x Hx. rewrite Forall_elem in Hl. apply truthy_true. by apply Hl.
  - apply Forall_elem. intros x Hx. rewrite Forall_elem in Hl. by apply Hl.
Qed.

Lemma normalize_path_of path : normalizeFilePath path = path_of (segments path).
Proof. unfold normalizeFilePath. destruct path; [done|]. cbn [truthy negb]. destruct (path_of _) eqn:E; [discriminate E|]. by rewrite <- E. Qed.

Lemma segments_normalize path : segments (normalizeFilePath path) = segments path.
Proof. rewrite normalize_path_of. apply segments_join, segments_ok. Qed.

Lemma path_of_snoc l s : l <> [] -> path_of (l ++ [s]) = path_of l ++ 47%N :: s.
Proof.
  unfold path_of. intros Hl. cbn [app]. f_equal. induction l as [|x l IH]; [done|]. destruct l as [|y l]; [done|].
  cbn [app]. rewrite !join_cons by done. cbn [app] in IH. rewrite IH by done. by simplify_list_eq.
Qed.

(** The breadcrumb of the segments: one item for each, with the path up to it. *)
Definition crumbs (l : list jsstr) : list FilePath := imap (fun i s => {| url := path_of (take (S i) l); name := s |}) l.

Lemma crumbs_snoc l s : crumbs (l ++ [s]) = crumbs l ++ [{| url := path_of (l ++ [s]); name := s |}].
Proof.
  unfold crumbs. rewrite imap_app. cbn [imap]. f_equal.
  - apply imap_ext. intros i x Hx. apply lookup_lt_Some in Hx. by rewrite take_app_le by lia.
  - rewrite Nat.add_0_r, take_ge; [done|]. rewrite length_app. cbn. lia.
Qed.

Lemma last_crumb l s : list.last (crumbs (l ++ [s])) = Some {| url := path_of (l ++ [s]); name := s |}.
Proof. rewrite crumbs_snoc. by rewrite last_snoc. Qed.

Lemma push_crumb_crumbs l s : push_crumb (crumbs l) s = crumbs (l ++ [s]).
Proof.
  rewrite crumbs_snoc. unfold push_crumb. destruct l as [|x l _] using rev_ind; [done|].
  rewrite last_crumb. cbn [url]. rewrite (path_of_snoc (l ++ [x])); [done|]. by destruct l.
Qed.

Lemma fold_crumbs l2 : forall l1, fold_left push_crumb l2 (crumbs l1) = crumbs (l1 ++ l2).
Proof.
  induction l2 as [|s l2 IH]; intros l1; cbn [fold_left]; [by rewrite app_nil_r|].
  rewrite push_crumb_crumbs, IH, <- app_assoc. done.
Qed.

Lemma breadcrumbs_go_crumbs l2 : forall l1,
  breadcrumbs_go (match l1 with [] => [] | _ => path_of l1 end) l2 = drop (length l1) (crumbs (l1 ++ l2)).
Proof.
  induction l2 as [|s l2 IH]; intros l1; cbn [breadcrumbs_go].
  { rewrite app_nil_r. unfold crumbs. rewrite drop_ge; [done|]. by rewrite length_imap. }
  assert (E : (match l1 with [] => [] | _ => path_of l1 end) ++ 47%N :: s = path_of (l1 ++ [s])).
  { destruct l1 as [|x l1]; [done|]. by rewrite path_of_snoc. }
  rewrite E. specialize (IH (l1 ++ [s])). rewrite length_app in IH. cbn [length] in IH.
  replace (match l1 ++ [s] with [] => [] | _ :: _ => path_of (l1 ++ [s]) end) with (path_of (l1 ++ [s])) in IH by (by destruct l1).
  rewrite IH, <- app_assoc. cbn [app].
  assert (Hl : crumbs (l1 ++ s :: l2) !! length l1 = Some {| url := path_of (l1 ++ [s]); name := s |}).
  { unfold crumbs. rewrite list_lookup_imap, list_lookup_middle by done. cbn. do 3 f_equal.
    rewrite cons_middle, app_assoc, take_app_length'; [done|]. rewrite length_app. cbn. lia. }
  rewrite (drop_S _ _ _ Hl). by rewrite Nat.add_1_r.
Qed.

(** The two functions that build the breadcrumb agree on every path: one item for each
    segment, with the normalised path up to it. *)
Theorem breadcrumbs_agree path :
  getPaths (Some path) = buildPaths path /\ buildPaths path = crumbs (segments path) /\
  match list.last (buildPaths path) with
  | Some p => p.(url) = normalizeFilePath path /\ p.(name) = getLastPath (Some path)
  | None => normalizeFilePath path = js "/" /\ getLastPath (Some path) = []
  end.
Proof.
  assert (E1 : getPaths (Some path) = crumbs (segments path)).
  { unfold getPaths. cbn [default Datatypes.id]. rewrite (breadcrumbs_go_crumbs _ []). done. }
  assert (E2 : buildPaths path = crumbs (segments path)) by apply (fold_crumbs _ []).
  rewrite E1, E2. split; [done|]. split; [done|]. rewrite normalize_path_of.
  assert (El : getLastPath (Some path) = default [] (list.last (segments path))) by (by destruct path).
  rewrite El. destruct (segments path) as [|s l _] using rev_ind; [done|]. by rewrite last_crumb, last_snoc.
Qed.

(** The path that is opened at first is the longest prefix of the path, by segments, that the
    server knows, and the root when it knows none. *)
Theorem findExistingPath_spec checkFile path :
  exists n, n <= length (segments path) /\
    findExistingPath checkFile path = path_of (take n (segments path)) /\
    (n = 0 \/ checkFile (path_of (take n (segments path))) = Some true) /\
    forall m, n < m <= length (segments path) -> checkFile (path_of (take m (segments path))) <> Some true.
Proof.
  unfold findExistingPath. rewrite segments_normalize. set (l := segments path).
  assert (H : forall k, exists n, n <= k /\ find_go checkFile l k = path_of (take n l) /\
    (n = 0 \/ checkFile (path_of (take n l)) = Some true) /\ forall m, n < m <= k -> checkFile (path_of (take m l)) <> Some true).
  { induction k as [|k (n & Hn & E & Hc & Hm)]; [exists 0; repeat split; [lia|by left|lia]|]. cbn [find_go].
    destruct (checkFile (path_of (take (S k) l))) as [[]|] eqn:Ec.
    - exists (S k). repeat split; [lia|by right|lia].
    - exists n. split; [lia|]. split; [done|]. split; [done|]. intros m Hm'. destruct (decide (m = S k)) as [->|]; [congruence|apply Hm; lia].
    - exists n. split; [lia|]. split; [done|]. split; [done|]. intros m Hm'. destruct (decide (m = S k)) as [->|]; [congruence|apply Hm; lia]. }
  apply H.
Qed.

(** ** What is hidden *)

Lemma hide_go_spec w maxWidth k fuel :
  let r := hide_go w maxWidth k fuel in
  k <= r <= k + fuel /\ (r = k + fuel \/ (w r <= maxWidth)%Z) /\ forall j, k <= j < r -> (maxWidth < w j)%Z.
Proof.
  revert k. induction fuel as [|n IH]; intros k; cbn [hide_go]; cbv zeta; [split; [lia|split; [by left; lia|lia]]|].
  destruct (Z.ltb_spec maxWidth (w k)).
  - destruct (IH (S k)) as (H1 & H2 & H3). split; [lia|]. split; [destruct H2; [left; lia|by right]|].
    intros j Hj. destruct (decide (j = k)) as [->|]; [done|apply H3; lia].
  - split; [lia|]. split; [by right|lia].
Qed.

(** The breadcrumb keeps its first and its last item, hides the others from the left, no more
    than it has to, and none is lost. *)
Theorem handlePath_spec paths w clientWidth :
  let k := handlePath paths (Some w) clientWidth in
  (k = 0 \/ k <= length paths - 2) /\
  ((24 < clientWidth)%Z -> 2 < length paths -> k = length paths - 2 \/ (w k <= clientWidth - 24)%Z) /\
  (forall j, j < k -> (clientWidth - 24 < w j)%Z) /\
  match paths with
  | [] => visible_crumbs paths k = []
  | p :: rest => exists shown, visible_crumbs paths k = p :: shown /\ hidden_crumbs paths k ++ shown = rest /\ (rest <> [] -> shown <> [])
  end.
Proof.
  cbv zeta. unfold handlePath. destruct (Nat.leb_spec (length paths) 2) as [Hl|Hl].
  { split; [by left|]. split; [lia|]. split; [lia|]. destruct paths as [|p rest]; [done|]. by exists rest. }
  destruct (Z.leb_spec (clientWidth - 24) 0) as [Hw|Hw].
  { split; [by left|]. split; [lia|]. split; [lia|]. destruct paths as [|p rest]; [done|]. by exists rest. }
  destruct (hide_go_spec w (clientWidth - 24) 0 (length paths - 2)) as (H1 & H2 & H3). set (k := hide_go _ _ _ _) in *.
  split; [right; lia|]. split; [intros _ _; destruct H2; [left; lia|by right]|]. split; [intros j Hj; apply H3; lia|].
  destruct paths as [|p rest]; [cbn in Hl; lia|]. cbn [length] in *. unfold visible_crumbs, hidden_crumbs.
  destruct (Nat.eqb_spec k 0) as [->|Hk]; [by exists rest|]. exists (drop k rest). cbn [drop]. split; [done|].
  rewrite drop_0, take_drop. split; [done|]. intros _ E. apply (f_equal length) in E. rewrite length_drop in E. cbn in E. cbn in H1, H2. lia.
Qed.

(** ** The toolbar *)

Definition total_width (l : list Z) : Z := fold_right Z.add 0%Z l.

Definition more_width (count visible : nat) : Z := if (0 <? Z.of_nat count - Z.of_nat visible)%Z then moreButtonWidth else 0%Z.

Lemma fit_go_spec all available : forall ws used visible n,
  all = n ++ ws -> length n = visible -> total_width n = used -> length all = 5 ->
  let r := fit_go ws 5 available used visible in
  visible <= r <= 5 /\
  (r = visible \/ (total_width (take r all) + more_width 5 r <= available)%Z) /\
  (r < 5 -> (available < total_width (take (S r) all) + more_width 5 (S r))%Z).
Proof.
  induction ws as [|w ws IH]; intros used visible n Ha Hn Hu H5; cbn [fit_go]; cbv zeta.
  - rewrite app_nil_r in Ha. subst. split; [lia|]. split; [by left|lia].
  - assert (Hs : take (S visible) all = n ++ [w]).
    { rewrite Ha, cons_middle, app_assoc. rewrite take_app_length'; [done|]. rewrite length_app. cbn. lia. }
    assert (Ht : total_width (n ++ [w]) = (used + w)%Z).
    { clear -Hu. revert used Hu. induction n as [|x n IHn]; intros used <-; cbn; [lia|]. specialize (IHn _ eq_refl). unfold total_width in *. lia. }
    assert (Hm : more_width 5 (S visible) = if (0 <? Z.of_nat 5 - Z.of_nat visible - 1)%Z then moreButtonWidth else 0%Z)
      by (unfold more_width; replace (Z.of_nat 5 - Z.of_nat (S visible))%Z with (Z.of_nat 5 - Z.of_nat visible - 1)%Z by lia; done).
    assert (Hv : visible < 5) by (rewrite Ha, length_app in H5; cbn in H5; lia).
    rewrite <- Hm. destruct (Z.leb_spec (used + w + more_width 5 (S visible)) available) as [Hle|Hgt].
    + destruct (IH (used + w)%Z (S visible) (n ++ [w])) as (H1 & H2 & H3); [by rewrite Ha, <- app_assoc|rewrite length_app; cbn; lia|done|done|].
      split; [lia|]. split; [|done]. right. destruct H2 as [->|H2]; [|done]. by rewrite Hs, Ht.
    + split; [lia|]. split; [by left|]. intros _. rewrite Hs, Ht. lia.
Qed.

(** The width for the batch buttons: the row, less the left side unless it is wrapped, the
    column selection and the paste button. *)
Definition buttons_width (rowWidth : Z) (leftSibling : option Z) (paste : Z) : Z :=
  let left := match leftSibling with
              | Some w => if (rowWidth - (w + 16) - paste - 56 <? 76)%Z then 0%Z else (w + 16)%Z
              | None => 0%Z
              end in
  Z.max 0 (Z.max 0 (rowWidth - left - 56) - paste).

(** The batch buttons of the toolbar: those shown and those behind the more button are all of
    them in order; what is shown fits beside the more button, and one more would not. *)
Theorem updateButtons_spec {B} (toolButtons : list B) (rowWidth : Z) (leftSibling : option Z) (pasteWidth : Z) (moveOpen wrapped : bool) :
  length toolButtons = 5 -> (0 < rowWidth)%Z ->
  let available := buttons_width rowWidth leftSibling (if moveOpen then (pasteWidth + 8)%Z else 0%Z) in
  exists visible : nat,
    (updateButtons toolButtons rowWidth leftSibling pasteWidth moveOpen wrapped).1 = (take visible toolButtons, drop visible toolButtons) /\
    visible <= 5 /\
    (visible = 0 \/ (64 * Z.of_nat visible + (if decide (visible < 5)%nat then 76 else 0) <= available)%Z) /\
    (visible < 5 -> (available < 64 * Z.of_nat (S visible) + (if decide (S visible < 5)%nat then 76 else 0))%Z).
Proof.
  intros Hb Hr. cbv zeta. unfold updateButtons. destruct (Z.eqb_spec rowWidth 0); [lia|]. cbv zeta. rewrite Hb.
  match goal with |- context [fit_go batchButtonMinWidths 5 ?a 0 0] => set (available := a) end. set (available' := buttons_width _ _ _).
  assert (E : available = available').
  { unfold available, available', buttons_width, toolbarGap, moreButtonWidth. destruct leftSibling as [w|]; [|f_equal; lia].
    replace (rowWidth - (w + 16) - (if moveOpen then pasteWidth + 8 else 0) - 48 - 8)%Z
      with (rowWidth - (w + 16) - (if moveOpen then pasteWidth + 8 else 0) - 56)%Z by lia.
    destruct (_ <? 76)%Z; f_equal; lia. }
  rewrite <- E. clearbody available. exists (fit_go batchButtonMinWidths 5 available 0 0).
  destruct (fit_go_spec batchButtonMinWidths available batchButtonMinWidths 0%Z 0 [] eq_refl eq_refl eq_refl eq_refl) as (H1 & H2 & H3).
  set (r := fit_go _ _ _ _ _) in *. split; [done|]. split; [lia|].
  assert (Hw : forall m, m <= 5 -> total_width (take m batchButtonMinWidths) = (64 * Z.of_nat m)%Z)
    by (intros m Hm; do 6 (destruct m as [|m]; [reflexivity|]); lia).
  assert (Hm : forall m, m <= 5 -> more_width 5 m = if decide (m < 5) then 76%Z else 0%Z).
  { intros m Hm'. unfold more_width, moreButtonWidth. destruct (Z.ltb_spec 0 (Z.of_nat 5 - Z.of_nat m)), (decide (m < 5)); lia || done. }
  split.
  - destruct H2 as [->|H2]; [by left|right]. rewrite <- Hw, <- Hm by lia. done.
  - intros Hr5. rewrite <- Hw, <- Hm by lia. by apply H3.
Qed.

(** ** Sizes *)

Lemma StronglySorted_ext {A} (R S : A -> A -> Prop) l : (forall a b, R a b -> S a b) -> StronglySorted R l -> StronglySorted S l.
Proof.
  intros H. induction 1 as [|x l Hl IH Hx]; constructor; [done|]. rewrite Forall_elem in *. eauto.
Qed.

Lemma merge_map items cache :
  mergeDirSizeCache items cache =
  List.map (fun item => match (if item.(f_isDir) then cache !! item.(f_path) else None) with Some n => with_dirSize n item | None => item end) items.
Proof.
  unfold mergeDirSizeCache. destruct (Nat.eqb_spec (size cache) 0) as [E|_].
  - apply map_size_empty_inv in E as ->. symmetry. rewrite <- (List.map_id items) at 2. apply List.map_ext.
    intros item. rewrite lookup_empty. by destruct (f_isDir item).
  - apply List.map_ext. intros item. destruct (f_isDir item); cbn [negb]; [|done]. by destruct (cache !! _).
Qed.

(** What a directory was last found to hold. *)
Lemma cache_last cache items p : updateDirSizeCache cache items !! p =
  match list.last (List.filter (fun i => i.1 === p) items) with Some i => Some i.2 | None => cache !! p end.
Proof.
  revert cache. unfold updateDirSizeCache. induction items as [|i items IH] using rev_ind; intros cache; [done|].
  rewrite fold_left_app, List.filter_app. cbn [fold_left List.filter]. destruct (i.1 === p) eqn:E.
  - apply streqb_eq in E as <-. by rewrite lookup_insert_eq, last_snoc.
  - apply streqb_neq in E. rewrite lookup_insert_ne by done. rewrite app_nil_r. apply IH.
Qed.

(** Sorted by size, the rows are those of the list in the order of the sizes they show, with
    rows of one size as they were; the sizes found for directories are shown and nothing else
    of a row changes. *)
Theorem sorted_by_shown_size items cache order : order <> NoOrder ->
  let rows := sortFilesByDisplaySize (mergeDirSizeCache items cache) order in
  rows ≡ₚ mergeDirSizeCache items cache /\
  StronglySorted (fun a b => if decide (order = Ascending) then displaySize a <= displaySize b else displaySize b <= displaySize a)%Z rows /\
  (forall n, List.filter (fun f => (displaySize f =? n)%Z) rows = List.filter (fun f => (displaySize f =? n)%Z) (mergeDirSizeCache items cache)) /\
  List.map displaySize (mergeDirSizeCache items cache) =
    List.map (fun f => if f.(f_isDir) then match cache !! f.(f_path) with Some n => n | None => displaySize f end else f.(f_size)) items.
Proof.
  intros Ho. cbv zeta. split; [|split; [|split]].
  - destruct order; [apply sort_by_perm|apply sort_by_perm|done].
  - destruct order; [| |done]; cbn [sortFilesByDisplaySize].
    + eapply StronglySorted_ext; [|apply (sort_by_sorted displaySize)]. done.
    + eapply StronglySorted_ext; [|apply (sort_by_sorted (fun f => (- displaySize f)%Z))]. unfold ascending. intros a b Hab. destruct (decide _); [done|lia].
  - intros n. destruct order; [apply sort_by_stable| |done]. cbn [sortFilesByDisplaySize].
    pose proof (sort_by_stable (fun f => (- displaySize f)%Z) (- n) (mergeDirSizeCache items cache)) as H.
    assert (E : forall l, List.filter (fun f => (- displaySize f =? - n)%Z) l = List.filter (fun f => (displaySize f =? n)%Z) l).
    { intros l. apply List.filter_ext. intros f. destruct (Z.eqb_spec (- displaySize f) (- n)), (Z.eqb_spec (displaySize f) n); lia || done. }
    by rewrite !E in H.
  - rewrite merge_map, List.map_map. apply List.map_ext. intros f. unfold displaySize.
    destruct (f_isDir f) eqn:Ed; cbn; rewrite ?Ed; [|done]. destruct (cache !! f_path f); cbn; by rewrite ?Ed.
Qed.

(** ** Witnesses *)

Lemma handlePath_spec_witness :
  let paths := buildPaths (js "/opt/1panel/apps/mysql") in
  let k := handlePath paths (Some (fun k => 300 - 60 * Z.of_nat k)%Z) 230 in
  k = 2 /\ (300 - 60 * Z.of_nat k <= 230 - 24)%Z.
Proof.
  cbv zeta. split; [vm_compute; reflexivity|].
  destruct (handlePath_spec (buildPaths (js "/opt/1panel/apps/mysql")) (fun k => 300 - 60 * Z.of_nat k)%Z 230) as (_ & H & _).
  destruct H as [H|H]; [lia|vm_compute; lia|revert H; vm_compute; discriminate|exact H].
Defined.

Lemma updateButtons_spec_witness :
  updateButtons [1; 2; 3; 4; 5] 500 (Some 100%Z) 0 false false = ([1; 2; 3], [4; 5], false) /\ exists visible : nat, visible <= 5 /\
  (updateButtons [1; 2; 3; 4; 5] 500 (Some 100%Z) 0 false false).1 = (take visible [1; 2; 3; 4; 5], drop visible [1; 2; 3; 4; 5]).
Proof.
  split; [vm_compute; reflexivity|].
  destruct (updateButtons_spec [1; 2; 3; 4; 5] 500 (Some 100%Z) 0 false false eq_refl eq_refl) as (v & H1 & H2 & _).
  exists v. split; [exact H2|exact H1].
Defined.

Definition sample_file (p : string) (dir : bool) (n : Z) : FileItem :=
  {| f_path := js p; f_name := js p; f_isDir := dir; f_size := n; f_dirSize := None; f_btnLoading := false; f_remark := [] |}.

Lemma sorted_by_shown_size_witness :
  let items := [sample_file "/a" false 30; sample_file "/b" true 4096; sample_file "/c" false 7] in
  let rows := sortFilesByDisplaySize (mergeDirSizeCache items {[js "/b" := 10%Z]}) Ascending in
  List.map displaySize rows = [7; 10; 30]%Z /\ rows ≡ₚ mergeDirSizeCache items {[js "/b" := 10%Z]}.
Proof.
  cbv zeta. split; [vm_compute; reflexivity|].
  refine (proj1 (sorted_by_shown_size [sample_file "/a" false 30; sample_file "/b" true 4096; sample_file "/c" false 7]
    {[js "/b" := 10%Z]} Ascending _)). discriminate.
Defined.
