(* ===== verification/DirSizes.v ===== *)
(** * The sizes of directories in the file manager

    The requests for sizes of src/frontend/src/views/host/file-management/index.vue: the
    queue of getDirSize with at most two requests at a time, the sizes of files, of the whole
    directory and of its entries in depth.  Requests are identities, answered in any order. *)

From S2P Require Import Prelude JsString FilePaths.

#[local] Open Scope list_scope.

Definition MAX_DIR_SIZE_CONCURRENT : nat := 2.

Record Sizes := {
  data : list FileItem;
  dirSizeCache : SizeCache;
  req_path : jsstr;
  dirSizeQueue : list jsstr;                 (* the paths of the tasks that wait *)
  dirSizeLoadingPaths : gset jsstr;
  activeDirSizeRequests : nat;
  running : gmap nat jsstr;                   (* the tasks that await computeDirSize *)
  file_reads : gmap nat jsstr;                (* getFileSize after its request *)
  depthSizeToken : nat;
  depth_reads : gmap nat (nat * jsstr);       (* calculateSize with its token and path *)
  total_reads : gset nat;                     (* getDirTotalSize after its request *)
  dirTotalSize : option Z;                    (* None is -1 *)
  disableBtn : bool;
  calculateBtn : bool;
  fresh : nat
}.

Definition with_data (d : list FileItem) (c : SizeCache) (s : Sizes) : Sizes :=
  {| data := d; dirSizeCache := c; req_path := s.(req_path); dirSizeQueue := s.(dirSizeQueue);
     dirSizeLoadingPaths := s.(dirSizeLoadingPaths); activeDirSizeRequests := s.(activeDirSizeRequests); running := s.(running);
     file_reads := s.(file_reads); depthSizeToken := s.(depthSizeToken); depth_reads := s.(depth_reads);
     total_reads := s.(total_reads); dirTotalSize := s.(dirTotalSize); disableBtn := s.(disableBtn);
     calculateBtn := s.(calculateBtn); fresh := s.(fresh) |}.
Definition with_queue (q : list jsstr) (l : gset jsstr) (a : nat) (r : gmap nat jsstr) (n : nat) (s : Sizes) : Sizes :=
  {| data := s.(data); dirSizeCache := s.(dirSizeCache); req_path := s.(req_path); dirSizeQueue := q;
     dirSizeLoadingPaths := l; activeDirSizeRequests := a; running := r;
     file_reads := s.(file_reads); depthSizeToken := s.(depthSizeToken); depth_reads := s.(depth_reads);
     total_reads := s.(total_reads); dirTotalSize := s.(dirTotalSize); disableBtn := s.(disableBtn);
     calculateBtn := s.(calculateBtn); fresh := n |}.
Definition with_reads (f : gmap nat jsstr) (tk : nat) (d : gmap nat (nat * jsstr)) (t : gset nat) (n : nat) (s : Sizes) : Sizes :=
  {| data := s.(data); dirSizeCache := s.(dirSizeCache); req_path := s.(req_path); dirSizeQueue := s.(dirSizeQueue);
     dirSizeLoadingPaths := s.(dirSizeLoadingPaths); activeDirSizeRequests := s.(activeDirSizeRequests); running := s.(running);
     file_reads := f; depthSizeToken := tk; depth_reads := d; total_reads := t; dirTotalSize := s.(dirTotalSize);
     disableBtn := s.(disableBtn); calculateBtn := s.(calculateBtn); fresh := n |}.
Definition with_page (p : jsstr) (total : option Z) (disable calculate : bool) (s : Sizes) : Sizes :=
  {| data := s.(data); dirSizeCache := s.(dirSizeCache); req_path := p; dirSizeQueue := s.(dirSizeQueue);
     dirSizeLoadingPaths := s.(dirSizeLoadingPaths); activeDirSizeRequests := s.(activeDirSizeRequests); running := s.(running);
     file_reads := s.(file_reads); depthSizeToken := s.(depthSizeToken); depth_reads := s.(depth_reads);
     total_reads := s.(total_reads); dirTotalSize := total; disableBtn := disable; calculateBtn := calculate; fresh := s.(fresh) |}.

Definition set_loading (b : bool) (f : FileItem) : FileItem :=
  {| f_path := f.(f_path); f_name := f.(f_name); f_isDir := f.(f_isDir); f_size := f.(f_size); f_dirSize := f.(f_dirSize);
     f_btnLoading := b; f_remark := f.(f_remark) |}.

Definition updateByPath (path : jsstr) (patch : FileItem -> FileItem) (s : Sizes) : Sizes :=
  with_data (List.map (fun item => if item.(f_path) === path then patch item else item) s.(data)) s.(dirSizeCache) s.

Definition cache_size (path : jsstr) (n : Z) (s : Sizes) : Sizes :=
  with_data s.(data) (updateDirSizeCache s.(dirSizeCache) [(path, n)]) s.

(** ** The queue *)

(** The loop: a task that is taken runs up to its request. *)
Fixpoint flush_go (q : list jsstr) (active : nat) (r : gmap nat jsstr) (n : nat) : list jsstr * nat * gmap nat jsstr * nat :=
  match q with
  | p :: q' => if active <? MAX_DIR_SIZE_CONCURRENT then flush_go q' (S active) (<[n := p]> r) (S n) else (q, active, r, n)
  | [] => (q, active, r, n)
  end.
Definition flushDirSizeQueue (s : Sizes) : Sizes :=
  let '(q, a, r, n) := flush_go s.(dirSizeQueue) s.(activeDirSizeRequests) s.(running) s.(fresh) in
  with_queue q s.(dirSizeLoadingPaths) a r n s.

Definition enqueueDirSizeTask (path : jsstr) (s : Sizes) : Sizes :=
  flushDirSizeQueue (with_queue (s.(dirSizeQueue) ++ [path]) s.(dirSizeLoadingPaths) s.(activeDirSizeRequests) s.(running) s.(fresh) s).

(** Up to the await. *)
Definition getDirSize (path : jsstr) (s : Sizes) : Sizes :=
  if decide (path ∈ s.(dirSizeLoadingPaths)) then s
  else
    let s := with_queue s.(dirSizeQueue) ({[path]} ∪ s.(dirSizeLoadingPaths)) s.(activeDirSizeRequests) s.(running) s.(fresh) s in
    enqueueDirSizeTask path (updateByPath path (set_loading true) s).

(** The task of a request that is answered or, with [None], fails: the rest of the task, of
    getDirSize, and the next tasks. *)
Definition dir_size_done (i : nat) (answer : option Z) (s : Sizes) : Sizes :=
  match s.(running) !! i with
  | None => s
  | Some path =>
      let s := match answer with
               | Some n => updateByPath path (with_dirSize n) (cache_size path n s)
               | None => s
               end in
      let s := with_queue s.(dirSizeQueue) (s.(dirSizeLoadingPaths) ∖ {[path]}) (s.(activeDirSizeRequests) - 1) (delete i s.(running)) s.(fresh) s in
      flushDirSizeQueue (updateByPath path (set_loading false) s)
  end.

(** ** The other sizes *)

Definition getFileSize (path : jsstr) (s : Sizes) : Sizes :=
  let s := updateByPath path (set_loading true) s in
  with_reads (<[s.(fresh) := path]> s.(file_reads)) s.(depthSizeToken) s.(depth_reads) s.(total_reads) (S s.(fresh)) s.

Definition file_size_done (i : nat) (answer : option Z) (s : Sizes) : Sizes :=
  match s.(file_reads) !! i with
  | None => s
  | Some path =>
      let s := with_reads (delete i s.(file_reads)) s.(depthSizeToken) s.(depth_reads) s.(total_reads) s.(fresh) s in
      let s := match answer with Some n => updateByPath path (with_dirSize n) (cache_size path n s) | None => s end in
      updateByPath path (set_loading false) s
  end.

Definition getDirTotalSize (s : Sizes) : Sizes :=
  with_page s.(req_path) s.(dirTotalSize) s.(disableBtn) true
    (with_reads s.(file_reads) s.(depthSizeToken) s.(depth_reads) ({[s.(fresh)]} ∪ s.(total_reads)) (S s.(fresh)) s).

Definition total_size_done (i : nat) (answer : option Z) (s : Sizes) : Sizes :=
  if decide (i ∈ s.(total_reads)) then
    with_page s.(req_path) (match answer with Some n => Some n | None => s.(dirTotalSize) end) s.(disableBtn) false
      (with_reads s.(file_reads) s.(depthSizeToken) s.(depth_reads) (s.(total_reads) ∖ {[i]}) s.(fresh) s)
  else s.

(** Up to the request, which a timer makes. *)
Definition calculateSize (path : jsstr) (s : Sizes) : Sizes :=
  let token := S s.(depthSizeToken) in
  with_page s.(req_path) s.(dirTotalSize) true s.(calculateBtn)
    (with_reads s.(file_reads) token (<[s.(fresh) := (token, path)]> s.(depth_reads)) s.(total_reads) (S s.(fresh)) s).

Definition depth_size_done (i : nat) (answer : option (list (jsstr * Z))) (s : Sizes) : Sizes :=
  match s.(depth_reads) !! i with
  | None => s
  | Some (token, path) =>
      let s := with_reads s.(file_reads) s.(depthSizeToken) (delete i s.(depth_reads)) s.(total_reads) s.(fresh) s in
      let s := match answer with
               | Some sizes =>
                   if (token =? s.(depthSizeToken)) && (s.(req_path) === path) then
                     with_data (List.map (fun item => match updateDirSizeCache ∅ sizes !! item.(f_path) with
                                                      | Some n => with_dirSize n item | None => item end) s.(data))
                       (updateDirSizeCache s.(dirSizeCache) sizes) s
                   else s
               | None => s
               end in
      if token =? s.(depthSizeToken) then with_page s.(req_path) s.(dirTotalSize) false s.(calculateBtn) s else s
  end.

(** A listing is shown: the entries of handleSearchResult, its cache cleared when the path is
    another one, sorted as the columns say. *)
Definition show_listing (path : option jsstr) (items : list FileItem) (order : Order) (s : Sizes) : Sizes :=
  let c := match path with Some p => if p === s.(req_path) then s.(dirSizeCache) else ∅ | None => s.(dirSizeCache) end in
  with_page (default s.(req_path) path) s.(dirTotalSize) s.(disableBtn) s.(calculateBtn)
    (with_data (sortFilesByDisplaySize (mergeDirSizeCache items c) order) c s).

Inductive Event :=
| GetDirSize (path : jsstr) | GetFileSize (path : jsstr) | GetTotal | Calculate (path : jsstr)
| DirSize (i : nat) (answer : option Z) | FileSize (i : nat) (answer : option Z) | TotalSize (i : nat) (answer : option Z)
| DepthSize (i : nat) (answer : option (list (jsstr * Z)))
| Listing (path : option jsstr) (items : list FileItem) (order : Order)
| Navigate (path : jsstr)                     (* the request changes before the listing *)
| ResetCache.

Definition step (s : Sizes) (e : Event) : Sizes :=
  match e with
  | GetDirSize p => getDirSize p s
  | GetFileSize p => getFileSize p s
  | GetTotal => getDirTotalSize s
  | Calculate p => calculateSize p s
  | DirSize i a => dir_size_done i a s
  | FileSize i a => file_size_done i a s
  | TotalSize i a => total_size_done i a s
  | DepthSize i a => depth_size_done i a s
  | Listing p items order => show_listing p items order s
  | Navigate p => with_page p None s.(disableBtn) s.(calculateBtn) s
  | ResetCache => with_data s.(data) ∅ s
  end.

Definition initial : Sizes :=
  {| data := []; dirSizeCache := ∅; req_path := js "/"; dirSizeQueue := []; dirSizeLoadingPaths := ∅; activeDirSizeRequests := 0;
     running := ∅; file_reads := ∅; depthSizeToken := 0; depth_reads := ∅; total_reads := ∅; dirTotalSize := None;
     disableBtn := false; calculateBtn := false; fresh := 0 |}.

(** ** The queue loses nothing *)

(** The paths that are computed. *)
Definition running_paths (r : gmap nat jsstr) : list jsstr := (map_to_list r).*2.

Record queue_ok (s : Sizes) : Prop := {
  qo_active : s.(activeDirSizeRequests) = size s.(running);
  qo_two : s.(activeDirSizeRequests) <= MAX_DIR_SIZE_CONCURRENT;
  qo_busy : s.(dirSizeQueue) <> [] -> s.(activeDirSizeRequests) = MAX_DIR_SIZE_CONCURRENT;
  qo_fresh : forall i, i ∈ dom s.(running) -> i < s.(fresh);
  qo_paths : NoDup (s.(dirSizeQueue) ++ running_paths s.(running));
  qo_loading : forall p, p ∈ s.(dirSizeLoadingPaths) <-> p ∈ s.(dirSizeQueue) ++ running_paths s.(running)
}.

Lemma running_insert (r : gmap nat jsstr) n p : n ∉ dom r -> running_paths (<[n := p]> r) ≡ₚ p :: running_paths r.
Proof. intros Hn. unfold running_paths. rewrite map_to_list_insert; [done|by apply not_elem_of_dom]. Qed.

(** The loop keeps the paths, and stops when nothing waits or two are computed. *)
Lemma flush_go_ok q : forall active r n, active = size r -> active <= 2 -> (forall i, i ∈ dom r -> i < n) ->
  let '(q', a', r', n') := flush_go q active r n in
  a' = size r' /\ a' <= 2 /\ (q' <> [] -> a' = 2) /\ (forall i, i ∈ dom r' -> i < n') /\ n <= n' /\
  q' ++ running_paths r' ≡ₚ q ++ running_paths r.
Proof.
  induction q as [|p q IH]; intros active r n Ha H2 Hf; cbn [flush_go].
  { split; [done|]. split; [done|]. split; [done|]. split; [done|]. by split. }
  unfold MAX_DIR_SIZE_CONCURRENT. destruct (Nat.ltb_spec active 2) as [Hlt|Hge].
  - assert (Hn : n ∉ dom r) by (intros Hn; apply Hf in Hn; lia).
    specialize (IH (S active) (<[n := p]> r) (S n)).
    destruct (flush_go q (S active) (<[n := p]> r) (S n)) as [[[q' a'] r'] n'].
    destruct IH as (H1 & H3 & H4 & H5 & H6 & H7).
    + rewrite map_size_insert_None by (by apply not_elem_of_dom). lia.
    + lia.
    + intros i. rewrite dom_insert, elem_of_union, elem_of_singleton. intros [->|Hi]; [lia|]. apply Hf in Hi. lia.
    + split; [done|]. split; [done|]. split; [done|]. split; [done|]. split; [lia|].
      rewrite H7, running_insert by done. cbn [app]. apply Permutation_sym, Permutation_middle.
  - split; [done|]. split; [done|]. split; [intros _; lia|]. split; [done|]. by split.
Qed.

Lemma flush_ok s l : s.(activeDirSizeRequests) = size s.(running) -> s.(activeDirSizeRequests) <= 2 ->
  (forall i, i ∈ dom s.(running) -> i < s.(fresh)) ->
  s.(dirSizeQueue) ++ running_paths s.(running) ≡ₚ l -> NoDup l ->
  (forall p, p ∈ s.(dirSizeLoadingPaths) <-> p ∈ l) -> queue_ok (flushDirSizeQueue s).
Proof.
  intros Ha H2 Hf Hp Hn Hl. unfold flushDirSizeQueue.
  pose proof (flush_go_ok s.(dirSizeQueue) s.(activeDirSizeRequests) s.(running) s.(fresh) Ha H2 Hf) as H.
  destruct (flush_go _ _ _ _) as [[[q a] r] n]. destruct H as (H1 & H3 & H4 & H5 & H6 & H7). rewrite Hp in H7.
  constructor; cbn; [done|done|done|done|by rewrite H7|intros p; by rewrite H7].
Qed.

Lemma getDirSize_ok path s : queue_ok s -> queue_ok (getDirSize path s).
Proof.
  intros Hs. unfold getDirSize. destruct (decide _) as [|Hin]; [done|]. unfold enqueueDirSizeTask. destruct Hs as [H1 H2 H3 H4 H5 H6].
  apply (flush_ok _ (path :: s.(dirSizeQueue) ++ running_paths s.(running))); cbn; [done|done|done|..].
  - rewrite <- app_assoc. cbn. apply Permutation_sym, Permutation_middle.
  - apply list.NoDup_cons. split; [by rewrite <- H6|done].
  - intros p. rewrite elem_of_union, elem_of_singleton, elem_of_cons, H6. done.
Qed.

Lemma dir_size_done_ok i answer s : queue_ok s -> queue_ok (dir_size_done i answer s).
Proof.
  intros [H1 H2 H3 H4 H5 H6]. unfold MAX_DIR_SIZE_CONCURRENT in H2. unfold dir_size_done. destruct (running s !! i) as [path|] eqn:Ei; [|by constructor].
  assert (Hr : running_paths s.(running) ≡ₚ path :: running_paths (delete i s.(running))).
  { rewrite <- (running_insert _ i path) by (rewrite dom_delete; set_solver). by rewrite insert_delete_id. }
  assert (Hp : s.(dirSizeQueue) ++ running_paths s.(running) ≡ₚ path :: s.(dirSizeQueue) ++ running_paths (delete i s.(running)))
    by (rewrite Hr; apply Permutation_sym, Permutation_middle).
  rewrite Hp in H5. apply list.NoDup_cons in H5 as [H5 H5'].
  assert (Hsz : size (delete i s.(running)) = size s.(running) - 1) by (rewrite map_size_delete_Some by (by eexists); lia).
  apply (flush_ok _ (s.(dirSizeQueue) ++ running_paths (delete i s.(running)))); destruct answer; cbn;
    rewrite ?Hsz; try done; try lia; try (intros j Hj; apply H4; revert Hj; rewrite dom_delete; set_solver).
  all: intros p; rewrite elem_of_difference, elem_of_singleton, H6, Hp, elem_of_cons; split; [tauto|];
    intros Hin; split; [by right|]; by intros ->.
Qed.

Lemma step_queue_ok s e : queue_ok s -> queue_ok (step s e).
Proof.
  intros Hs. destruct e; cbn [step]; [by apply getDirSize_ok| | | |by apply dir_size_done_ok| | | | | |];
    try (destruct Hs; by constructor).
  - destruct Hs as [? ? ? H4]. constructor; try done. cbn. intros i Hi. apply H4 in Hi. lia.
  - destruct Hs as [? ? ? H4]. constructor; try done. cbn. intros i Hi. apply H4 in Hi. lia.
  - destruct Hs as [? ? ? H4]. constructor; try done. cbn. intros i Hi. apply H4 in Hi. lia.
  - unfold file_size_done. destruct (file_reads s !! i); [|done]. destruct Hs. destruct answer; by constructor.
  - unfold total_size_done. destruct (decide _); [|done]. destruct Hs. by constructor.
  - unfold depth_size_done. destruct (depth_reads s !! i) as [[tk p]|]; [|done]. destruct Hs.
    destruct answer; repeat case_step; by constructor.
Qed.

(** C15. However the sizes of directories are asked for row by row and answered, the requests of the
    queue of these (getDirSize) are at most two at a time, and none asks for a directory that
    waits or is computed already; what waits, waits for two others, so when no request of the
    queue is awaited nothing waits and no directory is marked as loading.  The requests for the
    total and for the sizes of all entries (getDirTotalSize, calculateSize) are made beside the
    queue, and are not among the two. *)
Theorem dir_sizes_queued l :
  let s := fold_left step l initial in
  size s.(running) <= 2 /\ NoDup (s.(dirSizeQueue) ++ running_paths s.(running)) /\
  (forall p, p ∈ s.(dirSizeLoadingPaths) <-> p ∈ s.(dirSizeQueue) ++ running_paths s.(running)) /\
  (s.(dirSizeQueue) <> [] -> size s.(running) = 2) /\
  (s.(running) = ∅ -> s.(dirSizeQueue) = [] /\ s.(dirSizeLoadingPaths) ≡ ∅).
Proof.
  cbv zeta. assert (Hs : queue_ok (fold_left step l initial)).
  { assert (H0 : queue_ok initial).
    { constructor; try (cbn; done || lia).
      - unfold running_paths. cbn. rewrite map_to_list_empty. constructor.
      - intros p. unfold running_paths. cbn. rewrite map_to_list_empty. cbn. set_solver. }
    revert H0. generalize initial as s. induction l as [|e l IH]; intros s Hs; [done|]. cbn [fold_left]. apply IH. by apply step_queue_ok. }
  destruct Hs as [H1 H2 H3 _ H5 H6]. rewrite <- H1. split; [exact H2|]. split; [done|]. split; [done|]. split; [exact H3|].
  intros He. rewrite He in *. assert (Hq : dirSizeQueue (fold_left step l initial) = []).
  { destruct (dirSizeQueue (fold_left step l initial)); [done|]. rewrite map_size_empty in H1. specialize (H3 ltac:(done)).
    rewrite H1 in H3. discriminate H3. }
  split; [done|]. intros p. rewrite H6, Hq. unfold running_paths. rewrite map_to_list_empty. cbn. set_solver.
Qed.

(** The size of the whole directory is asked for, and another directory is opened before the
    answer: the size of the first is shown as that of the second, since getDirTotalSize,
    unlike calculateSize, does not look at the path it has asked for. *)
Lemma stale_total_shown :
  let s := fold_left step [GetTotal; Navigate (js "/b"); Listing (Some (js "/b")) [] NoOrder; TotalSize 0 (Some 7%Z)] initial in
  s.(req_path) = js "/b" /\ s.(dirTotalSize) = Some 7%Z.
Proof. vm_compute. auto. Qed.
