(* ===== verification/FileManager.v ===== *)
(** * Navigation in the file manager

    src/frontend/src/views/host/file-management/index.vue: the address, the history, the
    tabs and the listings.  Awaited requests are tasks that are answered in any order; the
    path, if any, and the entries of a listing are the answer's.  The awaits of
    findExistingPath are one task, since nothing they read changes meanwhile.  A tab without a
    path is opened with the empty one. *)

From S2P Require Import Prelude JsString FilePaths DirSizes.

#[local] Open Scope list_scope.

Record Tab := { id : jsstr; t_name : jsstr; t_path : option jsstr }.

Record Req := {
  path : jsstr; expand : bool; showHidden : bool; page : Z; pageSize : Z; search_text : jsstr;
  containSub : bool; sortBy : jsstr; sortOrder : jsstr
}.

Record Listed := { l_path : option jsstr; l_items : list FileItem; l_total : Z; l_appendOnly : bool }.

(** What follows the listing of search: nothing more, or the rest of initHistory. *)
Variant After := Plain | PushHistory.

Variant Task :=
| AwaitBase                                  (* loadPath in the mounted hook *)
| AwaitMounts                                (* getHostMount in the mounted hook *)
| AwaitExisting (url : jsstr)                (* findExistingPath in loadInitialExistingPath *)
| AwaitWget (after : After)                  (* getWgetProcess in search *)
| AwaitSearch (after : After)                (* getFilesList in search *)
| AwaitJump (oldUrl : jsstr)
| AwaitBackForward
| AwaitToggle.                               (* viewHideFile *)

Variant Message := NotFound | ClashOpen | NotCanTab | KeepOneTab.

(** The history with its pointer, which is -1 before the first entry. *)
Record Nav := { history : list jsstr; pointer : Z }.

Record Manager := {
  req : Req; nav : Nav; paths : list FilePath;
  editableTabs : list Tab; editableTabsKey : jsstr;
  lastFilePath : jsstr; baseDir : option jsstr;
  currentPage : Z; config_pageSize : Z; total : Z;
  dirNum : nat; fileNum : nat; isAppendOnly : bool; loading : bool;
  sizes : Sizes;
  storage_tabs : option (list Tab); storage_key : option jsstr; storage_hidden : option bool;
  tasks : gmap nat Task; fresh_task : nat;
  requests : list (nat * Req);               (* the listings asked for *)
  messages : list Message
}.

(** ** Setters *)

Definition with_req (f : Req -> Req) (s : Manager) : Manager :=
  {| req := f s.(req); nav := s.(nav); paths := s.(paths); editableTabs := s.(editableTabs); editableTabsKey := s.(editableTabsKey);
     lastFilePath := s.(lastFilePath); baseDir := s.(baseDir); currentPage := s.(currentPage); config_pageSize := s.(config_pageSize);
     total := s.(total); dirNum := s.(dirNum); fileNum := s.(fileNum); isAppendOnly := s.(isAppendOnly); loading := s.(loading);
     sizes := s.(sizes); storage_tabs := s.(storage_tabs); storage_key := s.(storage_key); storage_hidden := s.(storage_hidden);
     tasks := s.(tasks); fresh_task := s.(fresh_task); requests := s.(requests); messages := s.(messages) |}.
Definition with_nav (n : Nav) (s : Manager) : Manager :=
  {| req := s.(req); nav := n; paths := s.(paths); editableTabs := s.(editableTabs); editableTabsKey := s.(editableTabsKey);
     lastFilePath := s.(lastFilePath); baseDir := s.(baseDir); currentPage := s.(currentPage); config_pageSize := s.(config_pageSize);
     total := s.(total); dirNum := s.(dirNum); fileNum := s.(fileNum); isAppendOnly := s.(isAppendOnly); loading := s.(loading);
     sizes := s.(sizes); storage_tabs := s.(storage_tabs); storage_key := s.(storage_key); storage_hidden := s.(storage_hidden);
     tasks := s.(tasks); fresh_task := s.(fresh_task); requests := s.(requests); messages := s.(messages) |}.
Definition with_paths (p : list FilePath) (s : Manager) : Manager :=
  {| req := s.(req); nav := s.(nav); paths := p; editableTabs := s.(editableTabs); editableTabsKey := s.(editableTabsKey);
     lastFilePath := s.(lastFilePath); baseDir := s.(baseDir); currentPage := s.(currentPage); config_pageSize := s.(config_pageSize);
     total := s.(total); dirNum := s.(dirNum); fileNum := s.(fileNum); isAppendOnly := s.(isAppendOnly); loading := s.(loading);
     sizes := s.(sizes); storage_tabs := s.(storage_tabs); storage_key := s.(storage_key); storage_hidden := s.(storage_hidden);
     tasks := s.(tasks); fresh_task := s.(fresh_task); requests := s.(requests); messages := s.(messages) |}.
Definition with_tabs (ts : list Tab) (k : jsstr) (s : Manager) : Manager :=
  {| req := s.(req); nav := s.(nav); paths := s.(paths); editableTabs := ts; editableTabsKey := k;
     lastFilePath := s.(lastFilePath); baseDir := s.(baseDir); currentPage := s.(currentPage); config_pageSize := s.(config_pageSize);
     total := s.(total); dirNum := s.(dirNum); fileNum := s.(fileNum); isAppendOnly := s.(isAppendOnly); loading := s.(loading);
     sizes := s.(sizes); storage_tabs := s.(storage_tabs); storage_key := s.(storage_key); storage_hidden := s.(storage_hidden);
     tasks := s.(tasks); fresh_task := s.(fresh_task); requests := s.(requests); messages := s.(messages) |}.
Definition with_places (last : jsstr) (base : option jsstr) (s : Manager) : Manager :=
  {| req := s.(req); nav := s.(nav); paths := s.(paths); editableTabs := s.(editableTabs); editableTabsKey := s.(editableTabsKey);
     lastFilePath := last; baseDir := base; currentPage := s.(currentPage); config_pageSize := s.(config_pageSize);
     total := s.(total); dirNum := s.(dirNum); fileNum := s.(fileNum); isAppendOnly := s.(isAppendOnly); loading := s.(loading);
     sizes := s.(sizes); storage_tabs := s.(storage_tabs); storage_key := s.(storage_key); storage_hidden := s.(storage_hidden);
     tasks := s.(tasks); fresh_task := s.(fresh_task); requests := s.(requests); messages := s.(messages) |}.
Definition with_counts (tot : Z) (d f : nat) (ao : bool) (s : Manager) : Manager :=
  {| req := s.(req); nav := s.(nav); paths := s.(paths); editableTabs := s.(editableTabs); editableTabsKey := s.(editableTabsKey);
     lastFilePath := s.(lastFilePath); baseDir := s.(baseDir); currentPage := s.(currentPage); config_pageSize := s.(config_pageSize);
     total := tot; dirNum := d; fileNum := f; isAppendOnly := ao; loading := s.(loading);
     sizes := s.(sizes); storage_tabs := s.(storage_tabs); storage_key := s.(storage_key); storage_hidden := s.(storage_hidden);
     tasks := s.(tasks); fresh_task := s.(fresh_task); requests := s.(requests); messages := s.(messages) |}.
Definition with_loading (b : bool) (s : Manager) : Manager :=
  {| req := s.(req); nav := s.(nav); paths := s.(paths); editableTabs := s.(editableTabs); editableTabsKey := s.(editableTabsKey);
     lastFilePath := s.(lastFilePath); baseDir := s.(baseDir); currentPage := s.(currentPage); config_pageSize := s.(config_pageSize);
     total := s.(total); dirNum := s.(dirNum); fileNum := s.(fileNum); isAppendOnly := s.(isAppendOnly); loading := b;
     sizes := s.(sizes); storage_tabs := s.(storage_tabs); storage_key := s.(storage_key); storage_hidden := s.(storage_hidden);
     tasks := s.(tasks); fresh_task := s.(fresh_task); requests := s.(requests); messages := s.(messages) |}.
Definition with_sizes (z : Sizes) (s : Manager) : Manager :=
  {| req := s.(req); nav := s.(nav); paths := s.(paths); editableTabs := s.(editableTabs); editableTabsKey := s.(editableTabsKey);
     lastFilePath := s.(lastFilePath); baseDir := s.(baseDir); currentPage := s.(currentPage); config_pageSize := s.(config_pageSize);
     total := s.(total); dirNum := s.(dirNum); fileNum := s.(fileNum); isAppendOnly := s.(isAppendOnly); loading := s.(loading);
     sizes := z; storage_tabs := s.(storage_tabs); storage_key := s.(storage_key); storage_hidden := s.(storage_hidden);
     tasks := s.(tasks); fresh_task := s.(fresh_task); requests := s.(requests); messages := s.(messages) |}.
Definition with_storage (ts : option (list Tab)) (k : option jsstr) (h : option bool) (s : Manager) : Manager :=
  {| req := s.(req); nav := s.(nav); paths := s.(paths); editableTabs := s.(editableTabs); editableTabsKey := s.(editableTabsKey);
     lastFilePath := s.(lastFilePath); baseDir := s.(baseDir); currentPage := s.(currentPage); config_pageSize := s.(config_pageSize);
     total := s.(total); dirNum := s.(dirNum); fileNum := s.(fileNum); isAppendOnly := s.(isAppendOnly); loading := s.(loading);
     sizes := s.(sizes); storage_tabs := ts; storage_key := k; storage_hidden := h;
     tasks := s.(tasks); fresh_task := s.(fresh_task); requests := s.(requests); messages := s.(messages) |}.
Definition with_tasks (t : gmap nat Task) (n : nat) (r : list (nat * Req)) (s : Manager) : Manager :=
  {| req := s.(req); nav := s.(nav); paths := s.(paths); editableTabs := s.(editableTabs); editableTabsKey := s.(editableTabsKey);
     lastFilePath := s.(lastFilePath); baseDir := s.(baseDir); currentPage := s.(currentPage); config_pageSize := s.(config_pageSize);
     total := s.(total); dirNum := s.(dirNum); fileNum := s.(fileNum); isAppendOnly := s.(isAppendOnly); loading := s.(loading);
     sizes := s.(sizes); storage_tabs := s.(storage_tabs); storage_key := s.(storage_key); storage_hidden := s.(storage_hidden);
     tasks := t; fresh_task := n; requests := r; messages := s.(messages) |}.
Definition warn (m : Message) (s : Manager) : Manager :=
  {| req := s.(req); nav := s.(nav); paths := s.(paths); editableTabs := s.(editableTabs); editableTabsKey := s.(editableTabsKey);
     lastFilePath := s.(lastFilePath); baseDir := s.(baseDir); currentPage := s.(currentPage); config_pageSize := s.(config_pageSize);
     total := s.(total); dirNum := s.(dirNum); fileNum := s.(fileNum); isAppendOnly := s.(isAppendOnly); loading := s.(loading);
     sizes := s.(sizes); storage_tabs := s.(storage_tabs); storage_key := s.(storage_key); storage_hidden := s.(storage_hidden);
     tasks := s.(tasks); fresh_task := s.(fresh_task); requests := s.(requests); messages := s.(messages) ++ [m] |}.
Definition with_pages (p n : Z) (s : Manager) : Manager :=
  {| req := s.(req); nav := s.(nav); paths := s.(paths); editableTabs := s.(editableTabs); editableTabsKey := s.(editableTabsKey);
     lastFilePath := s.(lastFilePath); baseDir := s.(baseDir); currentPage := p; config_pageSize := n;
     total := s.(total); dirNum := s.(dirNum); fileNum := s.(fileNum); isAppendOnly := s.(isAppendOnly); loading := s.(loading);
     sizes := s.(sizes); storage_tabs := s.(storage_tabs); storage_key := s.(storage_key); storage_hidden := s.(storage_hidden);
     tasks := s.(tasks); fresh_task := s.(fresh_task); requests := s.(requests); messages := s.(messages) |}.

(** [req.path = p], which the sizes read as well. *)
Definition set_path (p : jsstr) (s : Manager) : Manager :=
  with_sizes (with_page p s.(sizes).(dirTotalSize) s.(sizes).(disableBtn) s.(sizes).(calculateBtn) s.(sizes))
    (with_req (fun r => {| path := p; expand := r.(expand); showHidden := r.(showHidden); page := r.(page); pageSize := r.(pageSize);
       search_text := r.(search_text); containSub := r.(containSub); sortBy := r.(sortBy); sortOrder := r.(sortOrder) |}) s).

(** [Object.assign(req, initData(), { ... })] with the fields that are kept. *)
Definition reset_req (url : jsstr) (s : Manager) : Manager :=
  set_path url (with_req (fun r => {| path := url; expand := true; showHidden := r.(showHidden); page := 1; pageSize := r.(pageSize);
    search_text := []; containSub := false; sortBy := r.(sortBy); sortOrder := r.(sortOrder) |}) s).

(** Suspend a task. *)
Definition await (t : Task) (s : Manager) : Manager :=
  with_tasks (<[s.(fresh_task) := t]> s.(tasks)) (S s.(fresh_task)) s.(requests) s.

(** Ask for a listing and wait for it. *)
Definition ask (t : Task) (s : Manager) : Manager :=
  with_tasks (<[s.(fresh_task) := t]> s.(tasks)) (S s.(fresh_task)) (s.(requests) ++ [(s.(fresh_task), s.(req))]) s.

Definition resetDirSizeCache (s : Manager) : Manager := with_sizes (step s.(sizes) ResetCache) s.

(** [dirTotalSize.value = -1] *)
Definition reset_total (s : Manager) : Manager :=
  with_sizes (with_page s.(req).(path) None s.(sizes).(disableBtn) s.(sizes).(calculateBtn) s.(sizes)) s.

(** ** Listings *)

(** search up to its first await, and up to its second. *)
Definition search (after : After) (s : Manager) : Manager := await (AwaitWget after) (reset_total s).

Definition search_list (after : After) (s : Manager) : Manager :=
  let s := with_loading true s in
  let s := with_req (fun r =>
    let found := truthy r.(search_text) in
    {| path := r.(path); expand := r.(expand); showHidden := r.(showHidden); page := s.(currentPage); pageSize := s.(config_pageSize);
       search_text := r.(search_text); containSub := r.(containSub);
       sortBy := if found then js "name" else r.(sortBy); sortOrder := if found then js "ascending" else r.(sortOrder) |}) s in
  ask (AwaitSearch after) s.

(** searchFile up to its await. *)
Definition searchFile (t : Task) (s : Manager) : Manager := ask t (reset_total (with_loading true s)).

Definition order_of (r : Req) : Order :=
  if r.(sortBy) === js "size"
  then (if r.(sortOrder) === js "ascending" then Ascending else if r.(sortOrder) === js "descending" then Descending else NoOrder)
  else NoOrder.

Definition handleSearchResult (res : Listed) (s : Manager) : Manager :=
  let given := res.(l_path) ≫= fun p => if truthy p then Some p else None in
  let s := with_sizes (step s.(sizes) (Listing given res.(l_items) (order_of s.(req)))) s in
  let s := with_counts res.(l_total) (length (List.filter f_isDir s.(sizes).(data)))
             (length (List.filter (fun f => negb f.(f_isDir)) s.(sizes).(data))) res.(l_appendOnly) s in
  match given with Some p => set_path p s | None => s end.

(** ** Paths and tabs *)

Definition getPaths (s : Manager) : Manager := with_paths (FilePaths.getPaths (Some s.(req).(path))) s.

Definition saveStorageTabs (s : Manager) : Manager := with_storage (Some s.(editableTabs)) s.(storage_key) s.(storage_hidden) s.
Definition saveStorageTabsKey (s : Manager) : Manager :=
  with_storage s.(storage_tabs) (Some s.(editableTabsKey)) s.(storage_hidden) s.

Definition updateTab (newPath : jsstr) (s : Manager) : Manager :=
  saveStorageTabs (with_tabs (List.map (fun tab => if tab.(id) === s.(editableTabsKey)
    then {| id := tab.(id); t_name := getLastPath (Some newPath); t_path := Some newPath |} else tab) s.(editableTabs))
    s.(editableTabsKey) s).

(** An identifier that no tab has makes an exception. *)
Definition changeTab (target : jsstr) (s : Manager) : Manager :=
  if target === js "99" then s
  else
    match List.find (fun tab => tab.(id) === target) s.(editableTabs) with
    | None => s
    | Some current =>
        let s := saveStorageTabsKey (saveStorageTabs (with_tabs s.(editableTabs) current.(id) s)) in
        let s := if bool_decide (current.(t_path) = Some s.(req).(path)) then s else resetDirSizeCache s in
        let s := set_path (default [] current.(t_path)) s in
        let s := with_places s.(req).(path) s.(baseDir) s in
        search Plain (getPaths s)
    end.

(** The identifiers from 1 to 6, of which addTab takes the first that is free. *)
Definition tab_ids : list jsstr := List.map (fun n => dec (N.of_nat n)) (seq 1 6).

Definition addTab (s : Manager) : Manager :=
  if 6 <=? length s.(editableTabs) then warn NotCanTab s
  else
    match List.find (fun i => negb (memb i (List.map id s.(editableTabs)))) tab_ids with
    | None => warn NotCanTab s
    | Some newId =>
        changeTab newId
          (with_tabs (s.(editableTabs) ++ [{| id := newId; t_name := getLastPath s.(baseDir); t_path := s.(baseDir) |}]) newId s)
    end.

(** The tab beside the one that is removed. *)
Definition neighbour (tabs : list Tab) (idx : nat) (current : jsstr) : jsstr :=
  match tabs !! (idx + 1) with
  | Some t => t.(id)
  | None => match idx with
            | O => current
            | S i => match tabs !! i with Some t => t.(id) | None => current end
            end
  end.

Definition removeTab (target : jsstr) (s : Manager) : Manager :=
  let tabs := s.(editableTabs) in
  if length tabs <=? 1 then warn KeepOneTab s
  else
    match list_find (fun t : Tab => t.(id) = target) tabs with
    | None => s
    | Some (idx, _) =>
        let current := s.(editableTabsKey) in
        let nextActive := if current === target then neighbour tabs idx current else current in
        changeTab nextActive (with_tabs (List.filter (fun t : Tab => t.(id) !== target) tabs) nextActive s)
    end.

(** ** Navigation *)

Definition push_history (url : jsstr) (n : Nav) : Nav :=
  let h := take (Z.to_nat (n.(pointer) + 1)) n.(history) ++ [url] in
  {| history := h; pointer := Z.of_nat (length h) - 1 |}.

(** The url back or right goes to, and the pointer. *)
Definition go_back (n : Nav) : option (jsstr * Nav) :=
  if (0 <? n.(pointer))%Z
  then let p := (n.(pointer) - 1)%Z in
       url ← n.(history) !! Z.to_nat p; Some (url, {| history := n.(history); pointer := p |})
  else None.
Definition go_right (n : Nav) : option (jsstr * Nav) :=
  if (n.(pointer) <? Z.of_nat (length n.(history)) - 1)%Z
  then let p := (n.(pointer) + 1)%Z in
       url ← n.(history) !! Z.to_nat p; Some (url, {| history := n.(history); pointer := p |})
  else None.

Definition jump (target : jsstr) (s : Manager) : Manager :=
  let s := with_nav (push_history target s.(nav)) s in
  let oldUrl := s.(req).(path) in
  let s := if oldUrl === target then s else resetDirSizeCache s in
  searchFile (AwaitJump oldUrl) (reset_req target s).

Definition backForwardJump (target : jsstr) (s : Manager) : Manager :=
  let s := if s.(req).(path) === target then s else resetDirSizeCache s in
  searchFile AwaitBackForward (reset_req target s).

Definition back (s : Manager) : Manager :=
  match go_back s.(nav) with Some (u, n) => backForwardJump u (with_nav n s) | None => s end.
Definition right (s : Manager) : Manager :=
  match go_right s.(nav) with Some (u, n) => backForwardJump u (with_nav n s) | None => s end.

Definition top (s : Manager) : Manager :=
  match length s.(paths) with
  | O => s
  | S O => jump (js "/") s
  | S (S n) => match s.(paths) !! n with Some p => jump p.(url) s | None => s end
  end.

(** A directory of the listing is opened. *)
Definition open_dir (name : jsstr) (s : Manager) : Manager :=
  let s := with_sizes (with_page s.(req).(path) s.(sizes).(dirTotalSize) false false s.(sizes)) s in
  if includes name (js ".1panel_clash") then warn ClashOpen s
  else
    let p := s.(req).(path) in
    let s := set_path (if endsWith p (js "/") then p ++ name else p ++ 47%N :: name) s in
    jump s.(req).(path) (with_paths (s.(paths) ++ [{| url := s.(req).(path); name := name |}]) s).

Definition viewHideFile (s : Manager) : Manager :=
  let h := negb s.(req).(showHidden) in
  let s := with_req (fun r => {| path := r.(path); expand := r.(expand); showHidden := h; page := r.(page); pageSize := r.(pageSize);
    search_text := r.(search_text); containSub := r.(containSub); sortBy := r.(sortBy); sortOrder := r.(sortOrder) |}) s in
  searchFile AwaitToggle (with_storage s.(storage_tabs) s.(storage_key) (Some h) s).

Definition changeSort (prop order : jsstr) (s : Manager) : Manager :=
  search Plain (with_req (fun r => {| path := r.(path); expand := r.(expand); showHidden := r.(showHidden); page := 1;
    pageSize := s.(config_pageSize); search_text := []; containSub := false; sortBy := prop; sortOrder := order |}) s).

(** The listing of jump. *)
Definition jump_done (oldUrl : jsstr) (res : Listed) (s : Manager) : Manager :=
  match res.(l_path) ≫= fun p => if truthy p then Some p else None with
  | None => let s := set_path oldUrl s in warn NotFound (with_places s.(req).(path) s.(baseDir) s)
  | Some p =>
      let s := set_path p s in
      let s := handleSearchResult res (with_places s.(req).(path) s.(baseDir) s) in
      updateTab s.(req).(path) (getPaths s)
  end.

(** The listing of back and right. *)
Definition back_done (res : Listed) (s : Manager) : Manager :=
  let s := getPaths (handleSearchResult res s) in updateTab s.(req).(path) s.

(** ** Mounting *)

Definition initShowHidden (s : Manager) : Manager :=
  let s' := match s.(storage_hidden) with
            | None => with_storage s.(storage_tabs) s.(storage_key) (Some true) s
            | Some _ => s
            end in
  with_req (fun r => {| path := r.(path); expand := r.(expand); showHidden := default true s.(storage_hidden); page := r.(page);
    pageSize := r.(pageSize); search_text := r.(search_text); containSub := r.(containSub); sortBy := r.(sortBy); sortOrder := r.(sortOrder) |}) s'.

(** Without a stored key the first tab is active; an empty list of tabs with no key is
    initialised without end, and is excluded by what is stored. *)
Definition initTabs (s : Manager) : Manager :=
  let ts := default s.(editableTabs) s.(storage_tabs) in
  let k := match s.(storage_key) with
           | Some (c :: k) => c :: k
           | _ => match ts with t :: _ => t.(id) | [] => s.(editableTabsKey) end
           end in
  with_tabs ts k s.

(** The initial path and whether it is stored as the last one; [route] is the query of the route. *)
Definition getInitialPath (route : option jsstr) (s : Manager) : jsstr * Manager :=
  let nonempty (p : option jsstr) := p ≫= fun t => if truthy (trim t) then Some t else None in
  match nonempty route with
  | Some r => (trim r, with_places (trim r) s.(baseDir) s)
  | None =>
      match nonempty (List.find (fun t => t.(id) === s.(editableTabsKey)) s.(editableTabs) ≫= t_path) with
      | Some p => (trim p, with_places (trim p) s.(baseDir) s)
      | None => match nonempty (Some s.(lastFilePath)) with Some p => (p, s) | None => (js "/", s) end
      end
  end.

Definition initTabsAndPaths (route : option jsstr) (s : Manager) : Manager :=
  let '(p, s) := getInitialPath route (initTabs s) in
  let s := updateTab p (getPaths (set_path p s)) in
  with_paths (buildPaths p) s.

(** loadInitialExistingPath once the path is found. *)
Definition existing_done (target existingPath : jsstr) (s : Manager) : Manager :=
  if existingPath === normalizeFilePath target then s
  else
    let s := reset_req existingPath s in
    let s := getPaths (with_places s.(req).(path) s.(baseDir) s) in
    let s := updateTab s.(req).(path) s in
    warn NotFound (with_paths (buildPaths s.(req).(path)) s).

(** ** Events *)

Variant Answer :=
| BaseDir (p : jsstr) | Mounts | Checked (checkFile : jsstr -> option bool) | WgetKeys
| Listing_ (res : Listed) | Failed.

Inductive Event :=
| Back | Right | Top | Jump (target : jsstr) | OpenDir (name : jsstr) | ToggleHidden
| Refresh | TypeSearch (text : jsstr) (sub : bool) | SetPage (p n : Z) | Sort (prop order : jsstr)
| AddTab | ClickTab (i : jsstr) | RemoveTab (i : jsstr)
| SizeEvent (e : DirSizes.Event)
| Answered (i : nat) (a : Answer) (route : option jsstr).

(** What a task does with its answer; an answer of another kind does not occur. *)
Definition resume (t : Task) (a : Answer) (route : option jsstr) (s : Manager) : Manager :=
  match t, a with
  | AwaitBase, BaseDir p =>
      await AwaitMounts (initTabsAndPaths route (initShowHidden (with_places s.(lastFilePath) (Some p) s)))
  | AwaitMounts, (Mounts | Failed) => await (AwaitExisting s.(req).(path)) s
  | AwaitExisting target, Checked f => search PushHistory (existing_done target (findExistingPath f target) s)
  | AwaitWget after, (WgetKeys | Failed) => search_list after s
  | AwaitSearch after, Listing_ res =>
      let s := with_loading false (handleSearchResult res s) in
      match after with
      | Plain => s
      | PushHistory =>
          let h := s.(nav).(history) ++ [s.(req).(path)] in
          with_nav {| history := h; pointer := Z.of_nat (length h) - 1 |} s
      end
  | AwaitJump oldUrl, Listing_ res => jump_done oldUrl res (with_loading false s)
  | AwaitBackForward, Listing_ res => back_done res (with_loading false s)
  | AwaitToggle, Listing_ res => handleSearchResult res (with_loading false s)
  | (AwaitSearch _ | AwaitJump _ | AwaitBackForward | AwaitToggle), Failed => with_loading false s
  | _, _ => s
  end.

(** Of the sizes, the page makes these events. *)
Definition size_event (e : DirSizes.Event) : bool :=
  match e with Listing _ _ _ | Navigate _ | ResetCache => false | _ => true end.

Definition handle (e : Event) (s : Manager) : Manager :=
  match e with
  | Back => back s
  | Right => right s
  | Top => top s
  | Jump u => jump u s
  | OpenDir n => open_dir n s
  | ToggleHidden => viewHideFile s
  | Refresh => search Plain s
  | TypeSearch text sub =>
      with_req (fun r => {| path := r.(path); expand := r.(expand); showHidden := r.(showHidden); page := r.(page); pageSize := r.(pageSize);
        search_text := text; containSub := sub; sortBy := r.(sortBy); sortOrder := r.(sortOrder) |}) s
  | SetPage p n => search Plain (with_pages p n s)
  | Sort prop order => changeSort prop order s
  | AddTab => addTab s
  | ClickTab i => if memb i (List.map id s.(editableTabs)) then changeTab i (with_tabs s.(editableTabs) i s) else s
  | RemoveTab i => removeTab i s
  | SizeEvent e => if size_event e then with_sizes (step s.(sizes) e) s else s
  | Answered i a route =>
      match s.(tasks) !! i with
      | Some t => resume t a route (with_tasks (delete i s.(tasks)) s.(fresh_task) s.(requests) s)
      | None => s
      end
  end.

(** The page when it is mounted; the tabs, the key and show-hidden are read from what is stored. *)
Definition mounted (tabs : option (list Tab)) (key : option jsstr) (hidden : option bool) (last : jsstr) (size : Z) : Manager :=
  await AwaitBase
  {| req := {| path := js "/"; expand := true; showHidden := default false hidden; page := 1; pageSize := 100; search_text := [];
               containSub := false; sortBy := js "name"; sortOrder := js "ascending" |};
     nav := {| history := []; pointer := -1 |}; paths := [];
     editableTabs := [{| id := js "1"; t_name := []; t_path := None |}; {| id := js "2"; t_name := js "home"; t_path := Some (js "/home") |}];
     editableTabsKey := []; lastFilePath := last; baseDir := None; currentPage := 1; config_pageSize := size; total := 0;
     dirNum := 0; fileNum := 0; isAppendOnly := false; loading := false; sizes := initial;
     storage_tabs := tabs; storage_key := key; storage_hidden := hidden; tasks := ∅; fresh_task := 0; requests := []; messages := [] |}.

(** The events of a page, in order. *)
Definition run (es : list Event) (s : Manager) : Manager := fold_left (fun s e => handle e s) es s.

(** The path of the tab that is active. *)
Definition active_path (s : Manager) : option jsstr :=
  List.find (fun t => t.(id) === s.(editableTabsKey)) s.(editableTabs) ≫= t_path.

(** ** Examples *)

Definition listed (p : jsstr) : Listed := {| l_path := Some p; l_items := []; l_total := 0; l_appendOnly := false |}.
Definition not_listed : Listed := {| l_path := None; l_items := []; l_total := 0; l_appendOnly := false |}.

(** A page whose first listing, of the base directory's tab, is over. *)
Definition page_of_opt : Manager := Eval vm_compute in
  run [Answered 0 (BaseDir (js "/opt")) (Some (js "/opt")); Answered 1 Mounts None; Answered 2 (Checked (fun _ => Some true)) None;
       Answered 3 WgetKeys None; Answered 4 (Listing_ (listed (js "/opt"))) None] (mounted None None None [] 20).

(** A directory of the listing that was removed meanwhile is opened: the address and the
    breadcrumbs show it although it is not there, since open sets the address before jump
    keeps it to go back to. *)
Lemma open_missing_keeps_path :
  let s := run [OpenDir (js "gone"); Answered 5 (Listing_ not_listed) None] page_of_opt in
  s.(messages) = [NotFound] /\ s.(req).(path) = js "/opt/gone" /\ List.map url s.(paths) = [js "/opt"; js "/opt/gone"] /\
  active_path s = Some (js "/opt").
Proof. vm_compute. auto. Qed.

(** Two directories are gone to, and the second is listed first: the first is shown, although
    the history is at the second. *)
Lemma overtaken_listing_shown :
  let s := run [Jump (js "/a"); Jump (js "/b"); Answered 6 (Listing_ (listed (js "/b"))) None;
                Answered 5 (Listing_ (listed (js "/a"))) None] page_of_opt in
  s.(req).(path) = js "/a" /\ active_path s = Some (js "/a") /\
  s.(nav).(history) !! Z.to_nat s.(nav).(pointer) = Some (js "/b").
Proof. vm_compute. auto. Qed.

(** A tab is left while its directory is listed: the listing moves the tab that is now shown. *)
Lemma late_listing_moves_tab :
  let s := run [Jump (js "/a"); ClickTab (js "2"); Answered 5 (Listing_ (listed (js "/a"))) None] page_of_opt in
  List.map (fun t => (t.(id), t.(t_path))) s.(editableTabs) = [(js "1", Some (js "/opt")); (js "2", Some (js "/a"))].
Proof. vm_compute. auto. Qed.
