(* ===== verification/FileHistory.v ===== *)
(** * The history of the file manager

    src/frontend/src/views/host/file-management/index.vue: history and pointer, as jump, back,
    right and initHistory keep them, implement a zipper. *)

From S2P Require Import Prelude JsString FilePaths DirSizes FileManager.

#[local] Open Scope list_scope.

(** ** The history *)

(** A history as a zipper: the places before, the nearest first, the one shown and those after it. *)
Record Zip := { past : list jsstr; here : jsstr; future : list jsstr }.

Definition represents (n : Nav) (z : Zip) : Prop :=
  n.(history) = rev z.(past) ++ z.(here) :: z.(future) /\ n.(pointer) = Z.of_nat (length z.(past)).

Definition visit (u : jsstr) (z : Zip) : Zip := {| past := z.(here) :: z.(past); here := u; future := [] |}.
Definition zip_back (z : Zip) : option Zip :=
  match z.(past) with
  | [] => None
  | p :: ps => Some {| past := ps; here := p; future := z.(here) :: z.(future) |}
  end.
Definition zip_right (z : Zip) : option Zip :=
  match z.(future) with
  | [] => None
  | f :: fs => Some {| past := z.(here) :: z.(past); here := f; future := fs |}
  end.

Lemma push_history_zip u n z : represents n z -> represents (push_history u n) (visit u z).
Proof.
  intros [Hh Hp]. unfold push_history, represents. cbn [history pointer visit past here future]. rewrite Hp, Hh.
  assert (E : take (Z.to_nat (Z.of_nat (length (past z)) + 1)) (rev (past z) ++ here z :: future z) = rev (past z) ++ [here z]).
  { rewrite cons_middle, app_assoc, take_app_length'; [done|]. rewrite length_app, length_rev. cbn. lia. }
  rewrite E. split; [by cbn; rewrite <- app_assoc|]. rewrite !length_app, length_rev. cbn. lia.
Qed.

Lemma go_back_zip n z : represents n z ->
  match zip_back z with
  | Some z' => exists n', go_back n = Some (z'.(here), n') /\ represents n' z'
  | None => go_back n = None
  end.
Proof.
  intros [Hh Hp]. unfold go_back, zip_back. rewrite Hp. destruct (past z) as [|p ps] eqn:E; [done|]. cbn [length].
  destruct (Z.ltb_spec 0 (Z.of_nat (S (length ps)))); [|lia]. rewrite Hh. cbn [rev]. rewrite <- app_assoc. cbn [app].
  replace (Z.to_nat (Z.of_nat (S (length ps)) - 1)) with (length (rev ps)) by (rewrite length_rev; lia).
  rewrite list_lookup_middle by done. cbn. eexists. split; [done|]. split; cbn; [done|]. lia.
Qed.

Lemma go_right_zip n z : represents n z ->
  match zip_right z with
  | Some z' => exists n', go_right n = Some (z'.(here), n') /\ represents n' z'
  | None => go_right n = None
  end.
Proof.
  intros [Hh Hp]. unfold go_right, zip_right. rewrite Hp, Hh, length_app, length_rev. cbn [length].
  destruct (future z) as [|f fs] eqn:E; cbn [length].
  - destruct (Z.ltb_spec (Z.of_nat (length (past z))) (Z.of_nat (length (past z) + 1) - 1)); [lia|done].
  - destruct (Z.ltb_spec (Z.of_nat (length (past z))) (Z.of_nat (length (past z) + S (S (length fs))) - 1)); [|lia].
    replace (Z.to_nat (Z.of_nat (length (past z)) + 1)) with (length (rev (past z) ++ [here z])) by (rewrite length_app, length_rev; cbn; lia).
    rewrite cons_middle, app_assoc, list_lookup_middle by done. cbn. eexists. split; [done|]. split; cbn; [|lia].
    by rewrite <- !app_assoc.
Qed.

(** The place an event goes to that is not one of the history. *)
Definition visits (e : Event) (s : Manager) : option jsstr :=
  match e with
  | Jump u => Some u
  | OpenDir n => if includes n (js ".1panel_clash") then None
                 else Some (if endsWith s.(req).(path) (js "/") then s.(req).(path) ++ n else s.(req).(path) ++ 47%N :: n)
  | Top => match length s.(paths) with
           | O => None
           | S O => Some (js "/")
           | S (S n) => url <$> s.(paths) !! n
           end
  | _ => None
  end.

Definition zip_step (e : Event) (s : Manager) (z : Zip) : Zip :=
  match e with
  | Back => default z (zip_back z)
  | Right => default z (zip_right z)
  | _ => match visits e s with Some u => visit u z | None => z end
  end.

(** The first listing of the page, which starts the history, is over. *)
Definition started (s : Manager) : Prop :=
  forall i t, s.(tasks) !! i = Some t ->
    match t with AwaitWget PushHistory | AwaitSearch PushHistory | AwaitExisting _ | AwaitMounts | AwaitBase => False | _ => True end.

Lemma started_await t s : started s ->
  match t with AwaitWget PushHistory | AwaitSearch PushHistory | AwaitExisting _ | AwaitMounts | AwaitBase => False | _ => True end ->
  forall n r, started (with_tasks (<[s.(fresh_task) := t]> s.(tasks)) n r s).
Proof.
  intros Hs Ht n r i t'. cbn. rewrite lookup_insert_Some. intros [[_ <-]|[_ Hi]]; [done|by eapply Hs].
Qed.

Lemma changeTab_nav i s : nav (changeTab i s) = nav s.
Proof. unfold changeTab. destruct (_ === _); [done|]. destruct (List.find _ _); [|done]. cbv zeta. destruct (bool_decide _); done. Qed.

Lemma changeTab_started i s : started s -> started (changeTab i s).
Proof.
  intros Hs. unfold changeTab. destruct (_ === _); [done|]. destruct (List.find _ _); [|done]. cbv zeta.
  destruct (bool_decide _); apply started_await; done.
Qed.

Lemma jump_nav u s : nav (jump u s) = push_history u (nav s).
Proof. unfold jump. cbv zeta. by destruct (_ === _). Qed.

Lemma back_nav u s : nav (backForwardJump u s) = nav s.
Proof. unfold backForwardJump. cbv zeta. by destruct (_ === _). Qed.

Lemma jump_started u s : started s -> started (jump u s).
Proof. intros Hs. unfold jump. cbv zeta. destruct (_ === _); apply started_await; done. Qed.

Lemma back_started u s : started s -> started (backForwardJump u s).
Proof. intros Hs. unfold backForwardJump. cbv zeta. destruct (_ === _); apply started_await; done. Qed.

Lemma result_nav res s : nav (handleSearchResult res s) = nav s /\ tasks (handleSearchResult res s) = tasks s /\
  fresh_task (handleSearchResult res s) = fresh_task s /\ requests (handleSearchResult res s) = requests s.
Proof. unfold handleSearchResult. cbv zeta. by destruct (_ ≫= _). Qed.

(** Answers do not change the history once it is started. *)
Lemma resume_nav t a route s : started s ->
  match t with AwaitWget PushHistory | AwaitSearch PushHistory | AwaitExisting _ | AwaitMounts | AwaitBase => False | _ => True end ->
  nav (resume t a route s) = nav s /\ started (resume t a route s).
Proof.
  intros Hs Ht. unfold started. destruct t as [| | |[]|[]| | |]; try done; destruct a as [| | | |res|]; cbn [resume]; try done.
  - split; [done|]. apply started_await; done.
  - split; [done|]. apply started_await; done.
  - destruct (result_nav res s) as (E1 & E2 & _). set (y := handleSearchResult res s) in *. cbn. by rewrite E1, E2.
  - unfold jump_done. destruct (_ ≫= _) as [p|]; [|done]. cbv zeta.
    match goal with |- context [handleSearchResult res ?x] => destruct (result_nav res x) as (E1 & E2 & _); set (y := handleSearchResult res x) in * end.
    cbn. by rewrite E1, E2.
  - unfold back_done. destruct (result_nav res (with_loading false s)) as (E1 & E2 & _).
    set (y := handleSearchResult res _) in *. cbn. by rewrite E1, E2.
  - destruct (result_nav res (with_loading false s)) as (E1 & E2 & _). by rewrite E1, E2.
Qed.

(** What jump asks for, and what back and right do. *)
Lemma jump_visits u s s' z : represents s.(nav) z -> started s ->
  nav s' = nav s -> tasks s' = tasks s -> requests s' = requests s -> fresh_task s' = fresh_task s ->
  started (jump u s') /\ represents (nav (jump u s')) (visit u z) /\
  exists r, requests (jump u s') = requests s ++ [(fresh_task s, r)] /\ path r = u.
Proof.
  intros Hz Hs E1 E2 E3 E4. split; [apply jump_started; unfold started; by rewrite E2|]. rewrite jump_nav, E1.
  split; [by apply push_history_zip|]. unfold jump. cbv zeta. rewrite <- E3, <- E4. destruct (_ === _); eexists; done.
Qed.

Lemma back_asks u s n' : started s -> started (backForwardJump u (with_nav n' s)) /\
  exists r, requests (backForwardJump u (with_nav n' s)) = requests s ++ [(fresh_task s, r)] /\ path r = u.
Proof. intros Hs. split; [by apply back_started|]. unfold backForwardJump. cbv zeta. destruct (_ === _); eexists; done. Qed.


