(* ===== verification/FileTabs.v ===== *)
(** * The tabs of the file manager

    src/frontend/src/views/host/file-management/index.vue: an invariant of the tabs, their
    active key and what is stored of them, under any order of events and answers, and what
    a directory that is gone to shows. *)

From S2P Require Import Prelude JsString FilePaths DirSizes FileManager.

#[local] Open Scope list_scope.

(** ** The tabs *)

(** Tabs with distinct identifiers of those addTab gives, and at least one. *)
Definition tabs_ok (ts : list Tab) : Prop :=
  NoDup (List.map id ts) /\ (forall i, i ∈ List.map id ts -> i ∈ tab_ids) /\ ts <> [].

(** What a page has stored: tabs, and a key only of one of them. *)
Definition stored_ok (ts : option (list Tab)) (k : option jsstr) : Prop :=
  match ts with Some ts => tabs_ok ts | None => True end /\
  match k with
  | Some k => match ts with Some ts => k ∈ List.map id ts | None => False end
  | None => True
  end.

Record manager_ok (s : Manager) : Prop := {
  mo_tabs : tabs_ok s.(editableTabs);
  mo_key : s.(editableTabsKey) ∈ List.map id s.(editableTabs);
  mo_stored : match s.(storage_tabs) with Some ts => tabs_ok ts | None => True end;
  mo_stored_key : s.(storage_key) = None \/ s.(storage_key) = Some s.(editableTabsKey);
  mo_saved : s.(storage_tabs) <> None;
  mo_key_saved : match s.(storage_tabs) with Some ts => List.map id ts = List.map id s.(editableTabs) | None => True end;
  mo_base : forall i, s.(tasks) !! i <> Some AwaitBase
}.

(** Two states with the same tabs. *)
Record same_tabs (s s' : Manager) : Prop := {
  st_tabs : s'.(editableTabs) = s.(editableTabs);
  st_key : s'.(editableTabsKey) = s.(editableTabsKey);
  st_stored : s'.(storage_tabs) = s.(storage_tabs);
  st_stored_key : s'.(storage_key) = s.(storage_key);
  st_base : (forall i, s.(tasks) !! i <> Some AwaitBase) -> forall i, s'.(tasks) !! i <> Some AwaitBase
}.

Lemma same_tabs_ok s s' : same_tabs s s' -> manager_ok s -> manager_ok s'.
Proof. intros [E1 E2 E3 E4 E5] []. constructor; rewrite ?E1, ?E2, ?E3, ?E4; auto. Qed.

(** Closes the case of an operation that does not touch the tabs. *)
Ltac tabs_same := constructor; [reflexivity|reflexivity|reflexivity|reflexivity|exact (fun H => H)].

Lemma same_tabs_trans s1 s2 s3 : same_tabs s1 s2 -> same_tabs s2 s3 -> same_tabs s1 s3.
Proof. intros [] []. constructor; [congruence..|auto]. Qed.

Lemma same_tabs_await t s n r : t <> AwaitBase -> same_tabs s (with_tasks (<[s.(fresh_task) := t]> s.(tasks)) n r s).
Proof.
  intros Ht. constructor; try done. intros Hb i. cbn. rewrite lookup_insert_Some. intros [[_ ?]|[_ Hi]]; [done|by apply (Hb i)].
Qed.

Lemma same_tabs_result res s : same_tabs s (handleSearchResult res s).
Proof. unfold handleSearchResult. cbv zeta. destruct (_ ≫= _); tabs_same. Qed.

Lemma result_tabs res s s' (f : Manager -> Manager) : same_tabs s s' -> (forall x, same_tabs x (f x)) ->
  same_tabs s (f (handleSearchResult res s')).
Proof.
  intros H Hf. apply (same_tabs_trans _ (handleSearchResult res s')); [|apply Hf].
  by apply (same_tabs_trans _ s'); [|apply same_tabs_result].
Qed.

Lemma same_tabs_search a s : same_tabs s (search a s).
Proof. apply (same_tabs_trans s (reset_total s)); [tabs_same|]. by apply (same_tabs_await (AwaitWget a)). Qed.

Lemma same_tabs_list a s : same_tabs s (search_list a s).
Proof.
  unfold search_list, ask. cbv zeta. match goal with |- same_tabs s (with_tasks _ _ _ ?x) => apply (same_tabs_trans s x); [tabs_same|] end.
  by apply same_tabs_await.
Qed.

Lemma same_tabs_searchFile t s : t <> AwaitBase -> same_tabs s (searchFile t s).
Proof. intros Ht. apply (same_tabs_trans s (reset_total (with_loading true s))); [tabs_same|]. by apply (same_tabs_await t). Qed.

Lemma map_id_update k p ts : List.map id (List.map (fun tab => if tab.(id) === k
  then {| id := tab.(id); t_name := getLastPath (Some p); t_path := Some p |} else tab) ts) = List.map id ts.
Proof. rewrite List.map_map. apply List.map_ext. intros tab. by case_step. Qed.

Lemma tabs_ok_ids ts ts' : List.map id ts' = List.map id ts -> tabs_ok ts -> tabs_ok ts'.
Proof.
  intros E (H1 & H2 & H3). unfold tabs_ok. rewrite E. split; [done|]. split; [done|]. intros ->. by destruct ts.
Qed.

(** updateTab stores the tabs, whatever was stored before. *)
Lemma updateTab_stores p s : tabs_ok s.(editableTabs) -> s.(editableTabsKey) ∈ List.map id s.(editableTabs) ->
  s.(storage_key) = None \/ s.(storage_key) = Some s.(editableTabsKey) -> (forall i, s.(tasks) !! i <> Some AwaitBase) ->
  manager_ok (updateTab p s).
Proof.
  intros H1 H2 H3 H4. pose proof (map_id_update s.(editableTabsKey) p s.(editableTabs)) as E.
  constructor; cbn [updateTab saveStorageTabs with_storage with_tabs editableTabs editableTabsKey storage_tabs storage_key tasks];
    [by apply (tabs_ok_ids s.(editableTabs))|by rewrite E|by apply (tabs_ok_ids s.(editableTabs))|done|done|done|done].
Qed.

Lemma updateTab_ok p s : manager_ok s -> manager_ok (updateTab p s).
Proof. intros []. by apply updateTab_stores. Qed.

(** A tab is shown: whatever was active and stored before. *)
Lemma changeTab_ok i s : tabs_ok s.(editableTabs) -> i ∈ List.map id s.(editableTabs) ->
  (forall j, s.(tasks) !! j <> Some AwaitBase) -> manager_ok (changeTab i s).
Proof.
  intros Ht Hi Hb. unfold changeTab. assert ((i === js "99") = false) as ->.
  { apply streqb_neq. intros ->. destruct Ht as (_ & H2 & _). specialize (H2 _ Hi).
    assert (H99 : js "99" ∉ tab_ids) by (apply (bool_decide_unpack _); vm_compute; exact I). done. }
  destruct (List.find (fun tab => id tab === i) (editableTabs s)) as [cur|] eqn:Ef.
  2:{ exfalso. apply elem_map in Hi as (t & -> & Hin). pose proof (find_none _ _ Ef t (proj1 (list_elem_of_In _ _) Hin)) as Hn. cbn in Hn. by rewrite streqb_refl in Hn. }
  apply find_some in Ef as [Hin Ecur]. apply streqb_eq in Ecur as <-. apply list_elem_of_In in Hin. cbv zeta.
  set (s1 := saveStorageTabsKey _). assert (H1 : manager_ok s1).
  { constructor; cbn; try done. by right. }
  clearbody s1. destruct (bool_decide _);
    (eapply same_tabs_ok; [|exact H1]; eapply same_tabs_trans; [|apply same_tabs_search]; tabs_same).
Qed.

Lemma free_id ids : length ids < 6 -> exists i, List.find (fun i => negb (memb i ids)) tab_ids = Some i.
Proof.
  intros Hl. destruct (List.find _ tab_ids) as [i|] eqn:E; [by exists i|]. exfalso.
  assert (Hsub : tab_ids ⊆ ids).
  { intros i Hi. pose proof (find_none _ _ E i (proj1 (list_elem_of_In _ _) Hi)) as Hn. cbn beta in Hn.
    apply negb_false_iff, memb_elem in Hn. done. }
  assert (Hn : NoDup tab_ids) by (apply (bool_decide_unpack _); vm_compute; exact I).
  pose proof (submseteq_length _ _ (NoDup_submseteq _ _ Hn Hsub)) as H6. change (length tab_ids) with 6 in H6. lia.
Qed.

Lemma addTab_ok s : manager_ok s -> manager_ok (addTab s).
Proof.
  intros Hs. unfold addTab. destruct (6 <=? length (editableTabs s)); [eapply same_tabs_ok; [|exact Hs]; tabs_same|].
  destruct (List.find _ tab_ids) as [i|] eqn:E; [|eapply same_tabs_ok; [|exact Hs]; tabs_same].
  apply find_some in E as [Hi Hf]. apply negb_true_iff, memb_not_elem in Hf. apply list_elem_of_In in Hi.
  destruct Hs as [(H1 & H2 & H3) _ _ _ _ _ H7]. apply changeTab_ok; cbn; [|rewrite List.map_app, elem_of_app; right; by left|done].
  unfold tabs_ok. rewrite List.map_app. cbn [List.map]. split; [|split].
  - apply list.NoDup_app. split; [done|]. split; [intros j Hj ->%list_elem_of_singleton; done|]. by apply NoDup_singleton.
  - intros j [Hj| ->%list_elem_of_singleton]%elem_of_app; [by apply H2|done].
  - by destruct (editableTabs s).
Qed.

Lemma neighbour_spec tabs idx (t : Tab) : NoDup (List.map id tabs) -> tabs !! idx = Some t -> 1 < length tabs ->
  neighbour tabs idx t.(id) ∈ List.map id tabs /\ neighbour tabs idx t.(id) <> t.(id).
Proof.
  intros Hn Ht Hl. unfold neighbour.
  assert (Hne : forall j u, tabs !! j = Some u -> j <> idx -> u.(id) ∈ List.map id tabs /\ u.(id) <> t.(id)).
  { intros j u Hu Hj. split; [apply elem_map; exists u; split; [done|by eapply list_elem_of_lookup_2]|].
    intros E. apply Hj. apply (NoDup_lookup (List.map id tabs) j idx u.(id)); [done|..];
      change (List.map id tabs) with (id <$> tabs); rewrite list_lookup_fmap; [by rewrite Hu|rewrite Ht; cbn; by rewrite E]. }
  destruct (tabs !! (idx + 1)) as [u|] eqn:E; [apply (Hne (idx + 1)); [done|lia]|].
  destruct idx as [|i].
  - apply lookup_ge_None in E. lia.
  - apply lookup_lt_Some in Ht as Hlt. destruct (lookup_lt_is_Some_2 tabs i) as [u Hu]; [lia|]. rewrite Hu. apply (Hne i); [done|lia].
Qed.

Lemma removeTab_ok i s : manager_ok s -> manager_ok (removeTab i s).
Proof.
  intros Hs. unfold removeTab. destruct (Nat.leb_spec (length (editableTabs s)) 1) as [|Hl]; [eapply same_tabs_ok; [|exact Hs]; tabs_same|].
  destruct (list_find _ _) as [[idx t]|] eqn:E; [|done]. apply list_find_Some in E as (Ht & <- & _).
  destruct Hs as [(H1 & H2 & H3) Hk _ _ _ _ H7].
  assert (Hin : forall j, j ∈ List.map id (List.filter (fun u : Tab => id u !== id t) (editableTabs s)) <-> j ∈ List.map id (editableTabs s) /\ j <> id t).
  { intros j. rewrite !elem_map. split.
    - intros (u & -> & [Hu Hf]%elem_filter). apply negb_true_iff, streqb_neq in Hf. split; [by exists u|done].
    - intros [(u & -> & Hu) Hj]. exists u. split; [done|]. apply elem_filter. split; [done|]. by apply negb_true_iff, streqb_neq. }
  assert (Hnext : (if editableTabsKey s === id t then neighbour (editableTabs s) idx (editableTabsKey s) else editableTabsKey s)
    ∈ List.map id (List.filter (fun u : Tab => id u !== id t) (editableTabs s))).
  { apply Hin. destruct (editableTabsKey s === id t) eqn:E; [|split; [done|by apply streqb_neq]].
    apply streqb_eq in E as ->. by apply (neighbour_spec _ _ t). }
  apply changeTab_ok; cbn; [|done|done]. split; [|split].
  - assert (Hnd : forall l : list Tab, NoDup (List.map id l) -> NoDup (List.map id (List.filter (fun u : Tab => id u !== id t) l))).
    { induction l as [|u l IH]; [done|]. cbn [List.map List.filter]. intros [Hu Hn]%list.NoDup_cons. destruct (id u === id t); cbn [negb]; [by apply IH|].
      cbn [List.map]. apply list.NoDup_cons. split; [|by apply IH]. intros (v & Ev & [Hv _]%elem_filter)%elem_map. apply Hu. apply elem_map. by exists v. }
    by apply Hnd.
  - intros j Hj. apply H2. by apply Hin.
  - intros E. rewrite E in Hnext. by apply not_elem_of_nil in Hnext.
Qed.

Lemma resume_manager_ok t a route s : t <> AwaitBase -> manager_ok s -> manager_ok (resume t a route s).
Proof.
  intros Ht Hs. assert (Hsame : forall s', same_tabs s s' -> manager_ok s') by (intros s' H; by eapply same_tabs_ok).
  destruct t; try done; destruct a as [| |f| |res|]; cbn [resume]; try done;
    try (apply Hsame; first [by apply same_tabs_await|tabs_same]).
  - eapply same_tabs_ok; [apply same_tabs_search|]. unfold existing_done. destruct (_ === _); [done|]. cbv zeta.
    match goal with |- manager_ok (warn _ (with_paths _ ?x)) => apply (same_tabs_ok x); [tabs_same|] end.
    apply updateTab_ok. apply Hsame. tabs_same.
  - apply Hsame, same_tabs_list.
  - apply Hsame, same_tabs_list.
  - destruct after; apply Hsame, (same_tabs_trans _ (handleSearchResult res s)); [apply same_tabs_result|tabs_same|apply same_tabs_result|tabs_same].
  - unfold jump_done. destruct (_ ≫= _) as [p|]; cbv zeta; [|apply Hsame; tabs_same].
    apply updateTab_ok, Hsame. apply (result_tabs res s _ getPaths); [tabs_same|intros; tabs_same].
  - unfold back_done. cbv zeta. apply updateTab_ok, Hsame. apply (result_tabs res s _ getPaths); [tabs_same|intros; tabs_same].
  - apply Hsame. apply (same_tabs_trans _ (with_loading false s)); [tabs_same|apply same_tabs_result].
Qed.

Lemma jump_tabs u s : same_tabs s (jump u s).
Proof.
  unfold jump. cbv zeta. eapply same_tabs_trans; [|apply same_tabs_searchFile; done]. destruct (_ === _); tabs_same.
Qed.

Lemma handle_manager_ok e s : manager_ok s -> manager_ok (handle e s).
Proof.
  intros Hs. assert (Hsame : forall s', same_tabs s s' -> manager_ok s') by (intros s' H; by eapply same_tabs_ok).
  assert (Hback : forall u n, manager_ok (backForwardJump u (with_nav n s))).
  { intros u n. unfold backForwardJump. cbv zeta. apply Hsame. eapply same_tabs_trans; [|apply same_tabs_searchFile; done]. destruct (_ === _); tabs_same. }
  destruct e; cbn [handle].
  - unfold back. destruct (go_back (nav s)) as [[u n]|]; auto.
  - unfold right. destruct (go_right (nav s)) as [[u n]|]; auto.
  - unfold top. repeat case_step; try done; apply Hsame, jump_tabs.
  - apply Hsame, jump_tabs.
  - unfold open_dir. cbv zeta. destruct (includes _ _); [apply Hsame; tabs_same|]. apply Hsame. eapply same_tabs_trans; [|apply jump_tabs]. tabs_same.
  - apply Hsame. eapply same_tabs_trans; [|apply same_tabs_searchFile; done]. tabs_same.
  - apply Hsame, same_tabs_search.
  - apply Hsame. tabs_same.
  - apply Hsame. eapply same_tabs_trans; [|apply same_tabs_search]. tabs_same.
  - apply Hsame. eapply same_tabs_trans; [|apply same_tabs_search]. tabs_same.
  - by apply addTab_ok.
  - destruct (memb _ _) eqn:Em; [|done]. apply memb_elem in Em. destruct Hs. by apply changeTab_ok.
  - by apply removeTab_ok.
  - apply Hsame. destruct (size_event e); tabs_same.
  - destruct (tasks s !! i) as [t|] eqn:Et; [|done]. apply resume_manager_ok.
    + intros ->. destruct Hs as [_ _ _ _ _ _ H7]. by apply (H7 i).
    + apply Hsame. constructor; try done. intros Hb j. cbn. rewrite lookup_delete_Some. intros [_ Hj]. by apply (Hb j).
Qed.

Lemma tabs_ok_length ts : tabs_ok ts -> 1 <= length ts <= 6.
Proof.
  intros (H1 & H2 & H3). split; [destruct ts; [done|cbn; lia]|].
  pose proof (submseteq_length _ _ (NoDup_submseteq _ _ H1 H2)) as H6. rewrite List.length_map in H6. exact H6.
Qed.

Lemma manager_stored s : manager_ok s -> stored_ok s.(storage_tabs) s.(storage_key).
Proof.
  intros [H1 H2 H3 H4 H5 H6 H7]. split; [done|]. destruct H4 as [->| ->]; [done|].
  destruct (storage_tabs s); [by rewrite H6|done].
Qed.

(** The tabs of a page that has none stored. *)
Lemma first_tabs_ok (n m : jsstr) (p q : option jsstr) :
  tabs_ok [{| id := js "1"; t_name := n; t_path := p |}; {| id := js "2"; t_name := m; t_path := q |}].
Proof.
  split; [apply (bool_decide_unpack _); vm_compute; exact I|]. split; [|done].
  apply list.Forall_forall. apply (bool_decide_unpack _); vm_compute; exact I.
Qed.

Lemma initial_path_tabs route s : same_tabs s (getInitialPath route s).2.
Proof.
  unfold getInitialPath. cbv zeta. destruct (_ ≫= _); [tabs_same|]. destruct (_ ≫= _); [tabs_same|].
  destruct (_ ≫= _); tabs_same.
Qed.

Lemma init_tabs_ok route s : tabs_ok s.(editableTabs) -> stored_ok s.(storage_tabs) s.(storage_key) ->
  (forall i, s.(tasks) !! i <> Some AwaitBase) -> manager_ok (initTabsAndPaths route s).
Proof.
  intros H1 [H2 H3] Hb. unfold initTabsAndPaths. pose proof (initial_path_tabs route (initTabs s)) as He.
  destruct (getInitialPath route (initTabs s)) as [p s2]. cbn [snd] in He.
  assert (Ht : tabs_ok (editableTabs s2) /\ editableTabsKey s2 ∈ List.map id (editableTabs s2) /\
    (storage_key s2 = None \/ storage_key s2 = Some (editableTabsKey s2)) /\ forall i, s2.(tasks) !! i <> Some AwaitBase).
  { destruct He as [-> -> _ -> Hb']. split; [|split; [|split; [|by apply Hb']]]; cbn.
    - destruct (storage_tabs s); done.
    - destruct (storage_tabs s) as [ts|]; cbn.
      + destruct H2 as (_ & _ & Hn). destruct ts; [done|]. destruct (storage_key s) as [[|c k]|]; try done; apply list_elem_of_here.
      + destruct H1 as (_ & _ & Hn). destruct (editableTabs s); [done|]. destruct (storage_key s) as [[|c k]|]; try done; apply list_elem_of_here.
    - destruct (storage_key s) as [[|c k]|]; [|by right|by left]. destruct (storage_tabs s) as [ts|]; [|done].
      destruct H2 as (_ & H2 & _). apply H2 in H3. exfalso. revert H3. apply (bool_decide_unpack (_ ∉ _)). vm_compute. exact I. }
  destruct Ht as (T1 & T2 & T3 & T4). apply (same_tabs_ok (updateTab p (getPaths (set_path p s2)))); [tabs_same|].
  by apply updateTab_stores.
Qed.

Lemma run_manager_ok es : forall s, manager_ok s -> manager_ok (run es s).
Proof. induction es as [|e es IH]; intros s Hs; [done|]. by apply IH, handle_manager_ok. Qed.



(** ** A directory is opened *)

Lemma updated_path k p ts : k ∈ List.map id ts ->
  (List.find (fun t => t.(id) === k) (List.map (fun tab => if tab.(id) === k
    then {| id := tab.(id); t_name := getLastPath (Some p); t_path := Some p |} else tab) ts) ≫= t_path) = Some p.
Proof.
  induction ts as [|t ts IH]; intros Hk; [by apply not_elem_of_nil in Hk|]. cbn [List.map List.find].
  destruct (id t === k) eqn:E; cbn [id]; [by rewrite E|]. rewrite E. apply IH.
  apply streqb_neq in E. cbn [List.map] in Hk. apply elem_of_cons in Hk as [->|Hk]; done.
Qed.

Lemma updateTab_active p s : s.(editableTabsKey) ∈ List.map id s.(editableTabs) -> active_path (updateTab p s) = Some p.
Proof. intros Hk. by apply updated_path. Qed.

Lemma handleSearchResult_path p res s : res.(l_path) = Some p -> truthy p = true ->
  (handleSearchResult res s).(req).(path) = p /\ (handleSearchResult res s).(editableTabs) = s.(editableTabs) /\
  (handleSearchResult res s).(editableTabsKey) = s.(editableTabsKey) /\ (handleSearchResult res s).(total) = res.(l_total) /\
  (handleSearchResult res s).(lastFilePath) = s.(lastFilePath) /\ (handleSearchResult res s).(messages) = s.(messages) /\
  (handleSearchResult res s).(nav) = s.(nav).
Proof. intros E Ht. unfold handleSearchResult. cbv zeta. rewrite E. cbn. rewrite Ht. cbn. done. Qed.

Lemma jump_answered u res route s : handle (Answered s.(fresh_task) (Listing_ res) route) (jump u s) =
  jump_done s.(req).(path) res (with_loading false
    (with_tasks (delete s.(fresh_task) (jump u s).(tasks)) (jump u s).(fresh_task) (jump u s).(requests) (jump u s))).
Proof.
  assert (Ht : tasks (jump u s) !! fresh_task s = Some (AwaitJump s.(req).(path))).
  { unfold jump. cbv zeta. destruct (_ === _); cbn; by rewrite lookup_insert_eq. }
  unfold handle. by rewrite Ht.
Qed.

Lemma jump_keeps u s : nav (jump u s) = push_history u (nav s) /\ paths (jump u s) = paths s /\ messages (jump u s) = messages s.
Proof. unfold jump. cbv zeta. by destruct (_ === _). Qed.

(** The listing of jump when the directory exists. *)
Lemma jump_done_found old c p res k : k.(editableTabsKey) ∈ List.map id k.(editableTabs) -> res.(l_path) = Some (c :: p) ->
  let s' := jump_done old res k in
  s'.(nav) = k.(nav) /\ s'.(req).(path) = c :: p /\ s'.(lastFilePath) = c :: p /\ s'.(paths) = FilePaths.getPaths (Some (c :: p)) /\
  active_path s' = Some (c :: p) /\ s'.(storage_tabs) = Some s'.(editableTabs) /\ s'.(total) = res.(l_total) /\
  s'.(messages) = k.(messages).
Proof.
  intros Hk El. unfold jump_done. rewrite El. cbn [mbind option_bind truthy]. cbv zeta.
  destruct (handleSearchResult_path (c :: p) res
    (with_places (path (req (set_path (c :: p) k))) (baseDir (set_path (c :: p) k)) (set_path (c :: p) k)) El eq_refl) as (P1 & P2 & P3 & P4 & P5 & P6 & P7).
  cbn in P2, P3, P5, P6, P7. set (h := handleSearchResult res _) in *. clearbody h. rewrite P1.
  assert (Ha : active_path (updateTab (c :: p) (getPaths h)) = Some (c :: p)).
  { apply updateTab_active. cbn [getPaths with_paths editableTabsKey editableTabs]. by rewrite P2, P3. }
  split; [exact P7|]. split; [exact P1|]. split; [exact P5|]. split; [|split; [exact Ha|split; [reflexivity|split; [exact P4|exact P6]]]].
  cbn [updateTab saveStorageTabs with_storage with_tabs getPaths with_paths paths]. by rewrite P1.
Qed.

Lemma jump_done_missing old res k : match res.(l_path) with Some (_ :: _) => False | _ => True end ->
  jump_done old res k = warn NotFound (with_places old (set_path old k).(baseDir) (set_path old k)).
Proof. unfold jump_done. by destruct (l_path res) as [[|c p]|]. Qed.

(** A directory that is gone to and listed is what the address, its breadcrumbs, the active tab
    and the place the next visit starts from show, and it is added to the history; one that is
    not found leaves the address, the breadcrumbs and the tabs as they were, with a warning,
    and stays in the history. *)
Theorem jump_shows u res route s (Hk : s.(editableTabsKey) ∈ List.map id s.(editableTabs)) :
  let s' := run [Jump u; Answered s.(fresh_task) (Listing_ res) route] s in
  s'.(nav) = push_history u s.(nav) /\
  match res.(l_path) with
  | Some (c :: p) =>
      s'.(req).(path) = c :: p /\ s'.(lastFilePath) = c :: p /\ s'.(paths) = FilePaths.getPaths (Some (c :: p)) /\
      active_path s' = Some (c :: p) /\ s'.(storage_tabs) = Some s'.(editableTabs) /\ s'.(total) = res.(l_total) /\
      s'.(messages) = s.(messages)
  | _ =>
      s'.(req).(path) = s.(req).(path) /\ s'.(lastFilePath) = s.(req).(path) /\ s'.(paths) = s.(paths) /\
      s'.(editableTabs) = s.(editableTabs) /\ s'.(messages) = s.(messages) ++ [NotFound]
  end.
Proof.
  cbv zeta. unfold run. cbn [fold_left]. change (handle (Jump u) s) with (jump u s). rewrite jump_answered.
  destruct (jump_keeps u s) as (En & Ep & Em). pose proof (jump_tabs u s) as [E1 E2 _ _ _].
  generalize dependent (jump u s). intros j En Ep Em E1 E2.
  assert (Hj : editableTabsKey j ∈ List.map id (editableTabs j)) by by rewrite E1, E2.
  set (k := with_loading false _). assert (Hn : nav k = nav j) by reflexivity. assert (Hp : paths k = paths j) by reflexivity.
  assert (Hm : messages k = messages j) by reflexivity.
  assert (Hk' : editableTabsKey k ∈ List.map id (editableTabs k)) by exact Hj.
  assert (Ht : editableTabs k = editableTabs j) by reflexivity. clearbody k. rewrite <- En, <- Hn, <- Em, <- Hm, <- Ep, <- Hp, <- E1, <- Ht.
  destruct (l_path res) as [[|c p]|] eqn:El; [| by destruct (jump_done_found s.(req).(path) c p res k Hk' El)|];
    rewrite jump_done_missing by (by rewrite El); done.
Qed.

Lemma jump_shows_witness :
  let s' := run [Jump (js "/opt/a"); Answered page_of_opt.(fresh_task) (Listing_ (listed (47%N :: js "opt/a"))) None] page_of_opt in
  s'.(nav).(history) = [js "/opt"; js "/opt/a"] /\ active_path s' = Some (47%N :: js "opt/a").
Proof.
  cbv zeta. assert (Hk : page_of_opt.(editableTabsKey) ∈ List.map id page_of_opt.(editableTabs)).
  { apply (bool_decide_unpack _). vm_compute. exact I. }
  pose proof (jump_shows (js "/opt/a") (listed (47%N :: js "opt/a")) None page_of_opt Hk) as [Hn H].
  cbn [l_path listed] in H. split; [by rewrite Hn|]. apply H.
Defined.
