(* ===== verification/Downloads.v ===== *)
(** * The downloads of the file manager

    src/frontend/src/views/host/file-management/process/index.vue: the panel that watches the
    downloads of the server over a socket, removes the records of those that are over and
    stops others.  Awaited requests are tasks that are answered in any order.  A message of
    the socket is the list of its records, or nothing when it is not one; the fields of a
    record have their declared types, and a percentage is a rational number. *)

From S2P Require Import Prelude JsString.
From Stdlib Require Import QArith Qround Lqa.

#[local] Open Scope nat_scope.
#[local] Open Scope list_scope.

Variant Status := Downloading | Retrying | Success | Failed | Canceled.

#[export] Instance status_dec : EqDecision Status.
Proof. solve_decision. Defined.

(** [percent] is [None] when it is not finite. *)
Record DownloadProcess := {
  key : jsstr; name : jsstr; percent : option Q; status : option Status; attempt : option Z; error : jsstr
}.

Definition with_key (k : jsstr) (v : DownloadProcess) : DownloadProcess :=
  {| key := k; name := v.(name); percent := v.(percent); status := v.(status); attempt := v.(attempt); error := v.(error) |}.

(** ** What is shown of a download *)

Definition getStatus (v : DownloadProcess) : Status :=
  match v.(status) with
  | Some st => st
  | None => if match v.(percent) with Some q => Qeq_bool q 100 | None => false end then Success else Downloading
  end.
Definition isActive (v : DownloadProcess) : bool := bool_decide (getStatus v = Downloading \/ getStatus v = Retrying).
Definition finished (v : DownloadProcess) : bool :=
  bool_decide (getStatus v = Success \/ getStatus v = Failed \/ getStatus v = Canceled).

(** [toFixed(2)] of a number, in hundredths: the nearest, of two the greater. *)
Definition toFixed2 (q : Q) : Z := Qfloor (q * 100 + (1 # 2))%Q.
Definition Qmin2 (a b : Q) : Q := if Qle_bool a b then a else b.
Definition Qmax2 (a b : Q) : Q := if Qle_bool a b then b else a.

(** The percentage in hundredths. *)
Definition getProgressPercent (v : DownloadProcess) : Z :=
  if decide (getStatus v = Success) then 10000
  else match v.(percent) with
       | None => 0
       | Some p => toFixed2 (Qmin2 (if isActive v then 9999 # 100 else 100) (Qmax2 0 p))
       end.

Definition getStatusText (v : DownloadProcess) : jsstr :=
  match getStatus v with
  | Success => js "file.downloadSuccess"
  | Failed => js "commons.status.failed"
  | Canceled => js "commons.status.canceled"
  | Retrying => js "commons.button.retry (" ++ match v.(attempt) with Some n => decZ n | None => js "undefined" end ++ js "/3)"
  | Downloading => js "file.downloading"
  end.
Definition getProgressStatus (v : DownloadProcess) : jsstr :=
  match getStatus v with
  | Success => js "success" | Failed => js "exception" | Canceled => js "warning" | _ => []
  end.

(** ** State *)

Variant ReadyState := CONNECTING | OPEN | CLOSED.

#[export] Instance readyState_dec : EqDecision ReadyState.
Proof. solve_decision. Defined.

(** The current socket with its identity, the sockets that are not closed, and likewise the
    interval; [fresh] gives identities. *)
Record Conn := {
  processSocket : option (nat * ReadyState); sockets : gset nat; sendTimer : option nat; timers : gset nat; fresh : nat
}.

Record Lists := {
  res : list DownloadProcess; keys : list jsstr; stoppingKeys : list jsstr; removingKeys : list jsstr;
  removedKeys : list jsstr; reportedFailures : gset jsstr; reportedSuccesses : gset jsstr; autoRemoveAttempts : gmap jsstr nat
}.

(** What the panel has sent, said and asked for; [opening] counts how often its lists were
    cleared, by which removals are told apart. *)
Record Log := {
  sent : list (nat * list jsstr); errors : list jsstr; successes : list jsstr; closes : nat;
  opening : nat; removals : list (nat * jsstr); stops : list jsstr
}.

(** The removal a task is at: the batch asked for, and the keys selected after it. *)
Record Removal := { r_batch : list jsstr; r_rest : list jsstr; r_node : jsstr; r_token : nat }.

Variant Task :=
| AwaitKeys (token : nat)                    (* fileWgetKeys *)
| AwaitAuth (token : nat)                    (* checkStreamAuth *)
| AwaitRemove (r : Removal)                  (* removeWgetRecords *)
| AwaitConfirm (k node : jsstr) (token : nat)
| AwaitStop (k node : jsstr) (token : nat).  (* stopWgetFile *)

Record Panel := {
  initProcessToken : nat; open : bool; loading : bool; mounted : bool; currentNode : jsstr;
  conn : Conn; lists : Lists; log : Log; tasks : gmap nat Task; fresh_task : nat
}.

Definition initial (node : jsstr) : Panel :=
  {| initProcessToken := 0; open := false; loading := false; mounted := true; currentNode := node;
     conn := {| processSocket := None; sockets := ∅; sendTimer := None; timers := ∅; fresh := 0 |};
     lists := {| res := []; keys := [[]]; stoppingKeys := []; removingKeys := []; removedKeys := [];
                 reportedFailures := ∅; reportedSuccesses := ∅; autoRemoveAttempts := ∅ |};
     log := {| sent := []; errors := []; successes := []; closes := 0; opening := 0; removals := []; stops := [] |};
     tasks := ∅; fresh_task := 0 |}.

(** ** Setters *)

Definition with_token (t : nat) (s : Panel) : Panel :=
  {| initProcessToken := t; open := s.(open); loading := s.(loading); mounted := s.(mounted); currentNode := s.(currentNode);
     conn := s.(conn); lists := s.(lists); log := s.(log); tasks := s.(tasks); fresh_task := s.(fresh_task) |}.
Definition with_flags (o l m : bool) (s : Panel) : Panel :=
  {| initProcessToken := s.(initProcessToken); open := o; loading := l; mounted := m; currentNode := s.(currentNode);
     conn := s.(conn); lists := s.(lists); log := s.(log); tasks := s.(tasks); fresh_task := s.(fresh_task) |}.
Definition with_node (n : jsstr) (s : Panel) : Panel :=
  {| initProcessToken := s.(initProcessToken); open := s.(open); loading := s.(loading); mounted := s.(mounted); currentNode := n;
     conn := s.(conn); lists := s.(lists); log := s.(log); tasks := s.(tasks); fresh_task := s.(fresh_task) |}.
Definition with_conn (c : Conn) (s : Panel) : Panel :=
  {| initProcessToken := s.(initProcessToken); open := s.(open); loading := s.(loading); mounted := s.(mounted); currentNode := s.(currentNode);
     conn := c; lists := s.(lists); log := s.(log); tasks := s.(tasks); fresh_task := s.(fresh_task) |}.
Definition with_lists (f : Lists -> Lists) (s : Panel) : Panel :=
  {| initProcessToken := s.(initProcessToken); open := s.(open); loading := s.(loading); mounted := s.(mounted); currentNode := s.(currentNode);
     conn := s.(conn); lists := f s.(lists); log := s.(log); tasks := s.(tasks); fresh_task := s.(fresh_task) |}.
Definition with_log (f : Log -> Log) (s : Panel) : Panel :=
  {| initProcessToken := s.(initProcessToken); open := s.(open); loading := s.(loading); mounted := s.(mounted); currentNode := s.(currentNode);
     conn := s.(conn); lists := s.(lists); log := f s.(log); tasks := s.(tasks); fresh_task := s.(fresh_task) |}.
Definition with_tasks (t : gmap nat Task) (n : nat) (s : Panel) : Panel :=
  {| initProcessToken := s.(initProcessToken); open := s.(open); loading := s.(loading); mounted := s.(mounted); currentNode := s.(currentNode);
     conn := s.(conn); lists := s.(lists); log := s.(log); tasks := t; fresh_task := n |}.

Definition await (t : Task) (s : Panel) : Panel := with_tasks (<[s.(fresh_task) := t]> s.(tasks)) (S s.(fresh_task)) s.
Definition set_loading (b : bool) (s : Panel) : Panel := with_flags s.(open) b s.(mounted) s.
Definition set_removing (l : list jsstr) : Panel -> Panel :=
  with_lists (fun x => {| res := x.(res); keys := x.(keys); stoppingKeys := x.(stoppingKeys); removingKeys := l;
    removedKeys := x.(removedKeys); reportedFailures := x.(reportedFailures); reportedSuccesses := x.(reportedSuccesses);
    autoRemoveAttempts := x.(autoRemoveAttempts) |}).
Definition set_stopping (f : list jsstr -> list jsstr) : Panel -> Panel :=
  with_lists (fun x => {| res := x.(res); keys := x.(keys); stoppingKeys := f x.(stoppingKeys); removingKeys := x.(removingKeys);
    removedKeys := x.(removedKeys); reportedFailures := x.(reportedFailures); reportedSuccesses := x.(reportedSuccesses);
    autoRemoveAttempts := x.(autoRemoveAttempts) |}).
Definition set_shown (r : list DownloadProcess) (k : list jsstr) : Panel -> Panel :=
  with_lists (fun x => {| res := r; keys := k; stoppingKeys := x.(stoppingKeys); removingKeys := x.(removingKeys);
    removedKeys := x.(removedKeys); reportedFailures := x.(reportedFailures); reportedSuccesses := x.(reportedSuccesses);
    autoRemoveAttempts := x.(autoRemoveAttempts) |}).
Definition MsgError (m : jsstr) : Panel -> Panel :=
  with_log (fun x => {| sent := x.(sent); errors := x.(errors) ++ [m]; successes := x.(successes); closes := x.(closes);
    opening := x.(opening); removals := x.(removals); stops := x.(stops) |}).
Definition MsgSuccess (m : jsstr) : Panel -> Panel :=
  with_log (fun x => {| sent := x.(sent); errors := x.(errors); successes := x.(successes) ++ [m]; closes := x.(closes);
    opening := x.(opening); removals := x.(removals); stops := x.(stops) |}).

(** ** The socket *)

Definition clearSendTimer (c : Conn) : Conn :=
  {| processSocket := c.(processSocket); sockets := c.(sockets); sendTimer := None;
     timers := match c.(sendTimer) with Some t => c.(timers) ∖ {[t]} | None => c.(timers) end; fresh := c.(fresh) |}.

(** Its handlers are taken off, so that only the current socket has any. *)
Definition close_conn (c : Conn) : Conn :=
  let c := clearSendTimer c in
  {| processSocket := None; sockets := match c.(processSocket) with Some (i, _) => c.(sockets) ∖ {[i]} | None => c.(sockets) end;
     sendTimer := c.(sendTimer); timers := c.(timers); fresh := c.(fresh) |}.
Definition closeSocket (s : Panel) : Panel := with_conn (close_conn s.(conn)) s.

(** [new WebSocket(url)] with its handlers. *)
Definition open_conn (c : Conn) : Conn :=
  {| processSocket := Some (c.(fresh), CONNECTING); sockets := {[c.(fresh)]} ∪ c.(sockets); sendTimer := c.(sendTimer);
     timers := c.(timers); fresh := S c.(fresh) |}.

(** setInterval after clearSendTimer. *)
Definition start_timer (c : Conn) : Conn :=
  let c := clearSendTimer c in
  {| processSocket := c.(processSocket); sockets := c.(sockets); sendTimer := Some c.(fresh); timers := {[c.(fresh)]} ∪ c.(timers);
     fresh := S c.(fresh) |}.

Definition set_state (st : ReadyState) (c : Conn) : Conn :=
  {| processSocket := (fun x => (x.1, st)) <$> c.(processSocket);
     sockets := match c.(processSocket), st with Some (i, _), CLOSED => c.(sockets) ∖ {[i]} | _, _ => c.(sockets) end;
     sendTimer := c.(sendTimer); timers := c.(timers); fresh := c.(fresh) |}.

Definition handleClose (s : Panel) : Panel :=
  let s := closeSocket (with_token (S s.(initProcessToken)) s) in
  with_log (fun x => {| sent := x.(sent); errors := x.(errors); successes := x.(successes); closes := S x.(closes);
    opening := x.(opening); removals := x.(removals); stops := x.(stops) |})
    (with_flags false false s.(mounted) s).

Definition sendProgressRequest (s : Panel) : Panel :=
  match s.(conn).(processSocket) with
  | Some (i, OPEN) =>
      with_log (fun x => {| sent := x.(sent) ++ [(i, s.(lists).(keys))]; errors := x.(errors); successes := x.(successes);
        closes := x.(closes); opening := x.(opening); removals := x.(removals); stops := x.(stops) |}) s
  | _ => s
  end.

Definition sendMsg (s : Panel) : Panel := with_conn (start_timer s.(conn)) s.
Definition onOpenProcess (s : Panel) : Panel := sendMsg (sendProgressRequest s).

Definition onerror (s : Panel) : Panel :=
  if s.(open) && s.(loading) then handleClose (MsgError (js "commons.msg.operationFailed") s) else s.
Definition onClose (s : Panel) : Panel := onerror (with_conn (clearSendTimer s.(conn)) s).

(** ** Removing *)

Definition isRemovable (s : Panel) (v : DownloadProcess) : bool := memb v.(key) s.(lists).(keys) && finished v.
Definition getFinishedKeys (s : Panel) : list jsstr := List.map key (List.filter (isRemovable s) s.(lists).(res)).
Definition attempts (s : Panel) (k : jsstr) : nat := default 0 (s.(lists).(autoRemoveAttempts) !! k).
Definition getAutoRemoveKeys (s : Panel) : list jsstr :=
  List.map key (List.filter (fun v => isRemovable s v && (attempts s v.(key) <? 3)) s.(lists).(res)).

Definition closeIdleSocket (s : Panel) : Panel :=
  if s.(open) && bool_decide (s.(lists).(res) = []) && bool_decide (s.(lists).(removingKeys) = [])
  then handleClose (set_shown s.(lists).(res) [] s)
  else if forallb (fun v => negb (isActive v)) s.(lists).(res) && bool_decide (getAutoRemoveKeys s = []) then closeSocket s
  else s.

(** [new Set], spread. *)
Fixpoint distinct (l : list jsstr) : list jsstr :=
  match l with [] => [] | k :: l => k :: List.filter (fun k' => k' !== k) (distinct l) end.

Definition BATCH : nat := 1000.

(** The attempts of a batch and its request. *)
Definition bump (k : jsstr) (m : gmap jsstr nat) : gmap jsstr nat := <[k := S (default 0 (m !! k))]> m.
Definition ask_batch (batch rest : list jsstr) (node : jsstr) (token : nat) (s : Panel) : Panel :=
  let s := with_lists (fun x => {| res := x.(res); keys := x.(keys); stoppingKeys := x.(stoppingKeys); removingKeys := x.(removingKeys);
    removedKeys := x.(removedKeys); reportedFailures := x.(reportedFailures); reportedSuccesses := x.(reportedSuccesses);
    autoRemoveAttempts := fold_left (fun m k => bump k m) batch x.(autoRemoveAttempts) |}) s in
  let s := with_log (fun x => {| sent := x.(sent); errors := x.(errors); successes := x.(successes); closes := x.(closes);
    opening := x.(opening); removals := x.(removals) ++ List.map (pair x.(opening)) batch; stops := x.(stops) |}) s in
  await (AwaitRemove {| r_batch := batch; r_rest := rest; r_node := node; r_token := token |}) s.

(** The end of onRemove, which is also that of onMessage. *)
Definition remove_over (token : nat) (s : Panel) : Panel :=
  let s := if token =? s.(initProcessToken) then closeIdleSocket (set_removing [] s) else s in
  if token =? s.(initProcessToken) then closeIdleSocket s else s.

(** The next turn of the loop over the batches. *)
Definition next_batch (todo : list jsstr) (node : jsstr) (token : nat) (s : Panel) : Panel :=
  match todo with
  | [] => remove_over token s
  | _ :: _ =>
      if (node !== s.(currentNode)) || negb (token =? s.(initProcessToken)) || negb s.(open) then remove_over token s
      else ask_batch (take BATCH todo) (drop BATCH todo) node token s
  end.

(** onRemove of the keys that onMessage selects, up to its request, with the end of onMessage
    when there is nothing to remove. *)
Definition onRemove (requestedKeys : list jsstr) (s : Panel) : Panel :=
  if bool_decide (s.(lists).(removingKeys) = []) then
    match distinct (List.filter (fun k => memb k (getFinishedKeys s)) requestedKeys) with
    | [] => closeIdleSocket s
    | selected => next_batch selected s.(currentNode) s.(initProcessToken) (set_removing selected s)
    end
  else closeIdleSocket s.

(** The answer of removeWgetRecords; [None] is a failure. *)
Definition removed_answer (r : Removal) (answer : option (option (list jsstr))) (s : Panel) : Panel :=
  match answer with
  | None => remove_over r.(r_token) s
  | Some ks =>
      if (r.(r_node) !== s.(currentNode)) || negb (r.(r_token) =? s.(initProcessToken)) || negb s.(open) then remove_over r.(r_token) s
      else
        let removed := List.filter (fun k => memb k r.(r_batch)) (default [] ks) in
        let s := with_lists (fun x =>
          {| res := List.filter (fun v => negb (memb v.(key) removed)) x.(res);
             keys := List.filter (fun k => negb (memb k removed)) x.(keys); stoppingKeys := x.(stoppingKeys);
             removingKeys := x.(removingKeys); removedKeys := x.(removedKeys) ++ removed; reportedFailures := x.(reportedFailures);
             reportedSuccesses := x.(reportedSuccesses); autoRemoveAttempts := x.(autoRemoveAttempts) |}) s in
        let s := closeIdleSocket s in
        if length removed =? length r.(r_batch) then next_batch r.(r_rest) r.(r_node) r.(r_token) s
        else
          remove_over r.(r_token)
            (if existsb (fun k => 3 <=? attempts s k) r.(r_batch) then MsgError (js "file.downloadRecordsNotRemoved") s else s)
  end.

(** ** Messages *)

Definition named (text : DownloadProcess -> jsstr) (v : DownloadProcess) : jsstr := v.(name) ++ js ": " ++ text v.

(** The failures and successes that are new are said once. *)
Definition report (s : Panel) : Panel :=
  let failures := List.filter (fun v => bool_decide (getStatus v = Failed) && negb (bool_decide (v.(key) ∈ s.(lists).(reportedFailures)))) s.(lists).(res) in
  let s := match failures with
           | [] => s
           | _ => MsgError (join [10%N] (List.map (named (fun v => if truthy v.(error) then v.(error) else getStatusText v)) failures)) s
           end in
  let done := List.filter (fun v => bool_decide (getStatus v = Success) && negb (bool_decide (v.(key) ∈ s.(lists).(reportedSuccesses)))) s.(lists).(res) in
  let s := match done with
           | [] => s
           | _ => MsgSuccess (join [10%N] (List.map (named getStatusText) done)) s
           end in
  with_lists (fun x => {| res := x.(res); keys := x.(keys); stoppingKeys := x.(stoppingKeys); removingKeys := x.(removingKeys);
    removedKeys := x.(removedKeys); reportedFailures := list_to_set (List.map key failures) ∪ x.(reportedFailures);
    reportedSuccesses := list_to_set (List.map key done) ∪ x.(reportedSuccesses); autoRemoveAttempts := x.(autoRemoveAttempts) |}) s.

(** The key of a record: its own, that of its place, or one made of its name. *)
Definition keyed (ks : list jsstr) (n : nat) (i : nat) (v : DownloadProcess) : DownloadProcess :=
  if truthy v.(key) then v
  else if n =? length ks then with_key (default (js "undefined") (ks !! i)) v else with_key (js "legacy:" ++ v.(name)) v.

Definition onMessage (data : option (list DownloadProcess)) (s : Panel) : Panel :=
  match data with
  | None => s
  | Some processes =>
      let s := set_loading false s in
      let shown := List.filter (fun v => negb (memb v.(key) s.(lists).(removedKeys)))
                     (imap (keyed s.(lists).(keys) (length processes)) processes) in
      let s := set_shown shown s.(lists).(keys) s in
      if s.(open) then let s := report s in onRemove (getAutoRemoveKeys s) s else closeIdleSocket s
  end.

(** ** Opening *)

(** The lists of an opening. *)
Definition clear_lists (x : Lists) : Lists :=
  {| res := []; keys := []; stoppingKeys := x.(stoppingKeys); removingKeys := []; removedKeys := []; reportedFailures := ∅;
     reportedSuccesses := ∅; autoRemoveAttempts := ∅ |}.
Definition clear (s : Panel) : Panel :=
  with_log (fun x => {| sent := x.(sent); errors := x.(errors); successes := x.(successes); closes := x.(closes); opening := S x.(opening);
    removals := x.(removals); stops := x.(stops) |}) (with_lists clear_lists s).

Definition acceptParams (s : Panel) : Panel :=
  let s := with_flags true s.(loading) s.(mounted) s in
  let s := set_loading true (clear (with_token (S s.(initProcessToken)) s)) in
  await (AwaitKeys s.(initProcessToken)) s.

Definition keys_answer (token : nat) (answer : option (list jsstr)) (s : Panel) : Panel :=
  if negb (token =? s.(initProcessToken)) || negb s.(open) then s
  else match answer with
       | Some (k :: ks) => await (AwaitAuth token) (set_shown s.(lists).(res) (k :: ks) s)
       | _ => handleClose s
       end.

Definition auth_answer (token : nat) (authError : jsstr) (s : Panel) : Panel :=
  if negb (token =? s.(initProcessToken)) || negb s.(open) then s
  else if truthy authError then handleClose (MsgError authError s)
  else let s := closeSocket s in with_conn (open_conn s.(conn)) s.

(** ** Stopping *)

Definition onStop (k : jsstr) (s : Panel) : Panel :=
  if negb (memb k s.(lists).(keys)) || memb k s.(lists).(stoppingKeys) then s
  else await (AwaitConfirm k s.(currentNode) s.(initProcessToken)) s.

Definition confirm_answer (k node : jsstr) (token : nat) (yes : bool) (s : Panel) : Panel :=
  if negb yes then s
  else if (node !== s.(currentNode)) || negb (token =? s.(initProcessToken)) || negb s.(open) then s
  else
    await (AwaitStop k node token)
      (with_log (fun x => {| sent := x.(sent); errors := x.(errors); successes := x.(successes); closes := x.(closes); opening := x.(opening);
         removals := x.(removals); stops := x.(stops) ++ [k] |}) (set_stopping (fun l => l ++ [k]) s)).

Definition stop_answer (k node : jsstr) (token : nat) (ok : bool) (s : Panel) : Panel :=
  let s := if ok && (token =? s.(initProcessToken)) && s.(open) && (node === s.(currentNode))
           then MsgSuccess (js "commons.msg.operationSuccess") s else s in
  set_stopping (List.filter (fun k' => k' !== k)) s.

(** ** Events *)

Inductive Answer :=
| Keys (ks : option (list jsstr)) | Auth (e : jsstr) | Removed (ks : option (option (list jsstr))) | Confirmed (yes : bool) | Stopped (ok : bool).

Inductive Event :=
| Accept | Close | Stop (k : jsstr) | NodeChanged (node : jsstr) | Unmount
| SocketOpen (i : nat) | SocketMessage (i : nat) (data : option (list DownloadProcess)) | SocketError (i : nat) | SocketClosed (i : nat)
| Tick (t : nat)
| Answered (i : nat) (a : Answer).

Definition resume (t : Task) (a : Answer) (s : Panel) : Panel :=
  match t, a with
  | AwaitKeys tk, Keys ks => keys_answer tk ks s
  | AwaitAuth tk, Auth e => auth_answer tk e s
  | AwaitRemove r, Removed ks => removed_answer r ks s
  | AwaitConfirm k n tk, Confirmed yes => confirm_answer k n tk yes s
  | AwaitStop k n tk, Stopped ok => stop_answer k n tk ok s
  | _, _ => s
  end.

(** Events of a socket reach its handlers while it is the current one, and come in the states
    in which a socket has them. *)
Definition on_socket (i : nat) (when : ReadyState -> bool) (f : Panel -> Panel) (s : Panel) : Panel :=
  match s.(conn).(processSocket) with Some (j, st) => if (i =? j) && when st then f s else s | None => s end.

Definition handle (e : Event) (s : Panel) : Panel :=
  match e with
  | Accept => if s.(mounted) then acceptParams s else s
  | Close => if s.(mounted) then handleClose s else s
  | Stop k => if s.(mounted) then onStop k s else s
  | NodeChanged n => if s.(mounted) then clear (handleClose (with_node n s)) else with_node n s
  | Unmount => closeSocket (with_flags s.(open) s.(loading) false (with_token (S s.(initProcessToken)) s))
  | SocketOpen i => on_socket i (fun st => bool_decide (st = CONNECTING)) (fun s => onOpenProcess (with_conn (set_state OPEN s.(conn)) s)) s
  | SocketMessage i d => on_socket i (fun st => bool_decide (st = OPEN)) (onMessage d) s
  | SocketError i => on_socket i (fun _ => true) onerror s
  | SocketClosed i => on_socket i (fun st => negb (bool_decide (st = CLOSED))) (fun s => onClose (with_conn (set_state CLOSED s.(conn)) s)) s
  | Tick t => if decide (t ∈ s.(conn).(timers)) then sendProgressRequest s else s
  | Answered i a =>
      match s.(tasks) !! i with
      | Some t => resume t a (with_tasks (delete i s.(tasks)) s.(fresh_task) s)
      | None => s
      end
  end.

Definition run (es : list Event) (s : Panel) : Panel := fold_left (fun s e => handle e s) es s.

(** The percentage shown is one, and only a download that is over can show a hundred. *)
Theorem progress_shown v : (0 <= getProgressPercent v <= 10000)%Z /\ (getStatus v = Success -> getProgressPercent v = 10000%Z) /\
  (getProgressPercent v = 10000%Z -> finished v = true).
Proof.
  unfold getProgressPercent. destruct (decide (getStatus v = Success)) as [E|Hn].
  { split; [lia|]. split; [done|]. intros _. unfold finished. rewrite E. done. }
  assert (Hb : forall m q, (0 <= m)%Q -> (0 <= toFixed2 (Qmin2 m (Qmax2 0 q)) <= toFixed2 m)%Z).
  { intros m q Hm. assert (Hr : (0 <= Qmin2 m (Qmax2 0 q) <= m)%Q).
    { unfold Qmin2, Qmax2. destruct (Qle_bool 0 q) eqn:E0.
      - apply Qle_bool_iff in E0. destruct (Qle_bool m q) eqn:E1; [split; [done|apply Qle_refl]|]. split; [done|].
        apply Qnot_lt_le. intros Hlt. apply Qlt_le_weak, Qle_bool_iff in Hlt. congruence.
      - destruct (Qle_bool m 0) eqn:E1; [split; [done|apply Qle_refl]|]. split; [apply Qle_refl|done]. }
    unfold toFixed2. destruct Hr as [Hr1 Hr2]. set (x := Qmin2 _ _) in *. clearbody x. split.
    - change 0%Z with (Qfloor (0 # 1)). apply Qfloor_resp_le. lra.
    - apply Qfloor_resp_le. lra. }
  split; [|split; [done|]].
  - destruct (percent v) as [p|]; [|lia]. destruct (isActive v).
    + specialize (Hb (9999 # 100) p ltac:(done)). change (toFixed2 (9999 # 100)) with 9999%Z in Hb. lia.
    + specialize (Hb 100%Q p ltac:(done)). change (toFixed2 100) with 10000%Z in Hb. lia.
  - destruct (percent v) as [p|]; [|done]. destruct (isActive v) eqn:Ea.
    + specialize (Hb (9999 # 100) p ltac:(done)). change (toFixed2 (9999 # 100)) with 9999%Z in Hb. lia.
    + intros _. unfold isActive in Ea. unfold finished. apply bool_decide_eq_false in Ea. apply bool_decide_eq_true.
      destruct (getStatus v); tauto.
Qed.

(** ** Examples *)

Definition sample_download (k : string) (st : Status) : DownloadProcess :=
  {| key := js k; name := js k; percent := Some 100%Q; status := Some st; attempt := None; error := [] |}.
Definition sample_run : list Event :=
  [Accept; Answered 0 (Keys (Some [js "a"; js "b"])); Answered 1 (Auth []); SocketOpen 0;
   SocketMessage 0 (Some [sample_download "a" Success; sample_download "b" Retrying])].

Example sample_sends : (run sample_run (initial (js "n"))).(log).(sent) = [(0, [js "a"; js "b"])] /\
  (run sample_run (initial (js "n"))).(log).(removals) = [(1, js "a")] /\
  (run sample_run (initial (js "n"))).(log).(successes) = [js "a: file.downloadSuccess"].
Proof. vm_compute. auto. Qed.
