(* ===== verification/DownloadRemovals.v ===== *)
(** * What the downloads panel promises

    Invariants of src/frontend/src/views/host/file-management/process/index.vue over every
    order of its events: what it holds open, how often it asks for a removal, and that it is
    silent once it is closed. *)

From S2P Require Import Prelude JsString Downloads.

#[local] Open Scope nat_scope.
#[local] Open Scope list_scope.

(** ** The socket and the interval *)

(** No socket and no interval is left behind. *)
Record conn_ok (c : Conn) : Prop := {
  co_sockets : c.(sockets) = match c.(processSocket) with Some (i, CONNECTING) | Some (i, OPEN) => {[i]} | _ => ∅ end;
  co_timers : c.(timers) = match c.(sendTimer) with Some t => {[t]} | None => ∅ end;
  co_open : match c.(processSocket) with Some (_, OPEN) => True | _ => c.(sendTimer) = None end
}.

Definition token_of (t : Task) : nat :=
  match t with AwaitKeys n | AwaitAuth n | AwaitConfirm _ _ n | AwaitStop _ _ n => n | AwaitRemove r => r.(r_token) end.

Definition rests (r : Removal) (s : Panel) : Prop :=
  s.(lists).(removingKeys) <> [] /\ NoDup r.(r_rest) /\ forall k, k ∈ r.(r_rest) -> attempts s k < 3.

Definition count (o : nat) (k : jsstr) (l : list (nat * jsstr)) : nat := length (List.filter (fun x => bool_decide (x = (o, k))) l).

(** Neither a closed panel nor one that is unmounted has a socket. *)
Definition conn_part (s : Panel) : Prop :=
  conn_ok s.(conn) /\ (s.(open) = false \/ s.(mounted) = false -> s.(conn).(processSocket) = None).

Lemma clear_timer_conn c : conn_ok c -> conn_ok (clearSendTimer c).
Proof.
  intros [H1 H2 H3]. split; cbn; [done| |].
  - rewrite H2. destruct (sendTimer c); [|done]. set_solver.
  - by destruct (processSocket c) as [[i []]|].
Qed.

Lemma close_conn_ok c : conn_ok c -> conn_ok (close_conn c).
Proof.
  intros Hc. pose proof (clear_timer_conn c Hc) as [H1 H2 H3]. split; cbn in *; [|done|done].
  rewrite H1. destruct (processSocket c) as [[i []]|]; set_solver.
Qed.

Lemma open_conn_ok c : conn_ok c -> c.(processSocket) = None -> conn_ok (open_conn c).
Proof. intros [H1 H2 H3] E. rewrite E in *. split; cbn; [|done|done]. rewrite H1. set_solver. Qed.

Lemma start_timer_ok c i : conn_ok c -> c.(processSocket) = Some (i, OPEN) -> conn_ok (start_timer c).
Proof.
  intros Hc E. pose proof (clear_timer_conn c Hc) as [H1 H2 H3]. split; cbn in *; [done| |by rewrite E]. rewrite H2. set_solver.
Qed.

Lemma panel_opened_ok c i : conn_ok c -> c.(processSocket) = Some (i, CONNECTING) -> conn_ok (set_state OPEN c).
Proof. intros [H1 H2 H3] E. split; cbn; rewrite ?E; cbn; [by rewrite H1, E|done|done]. Qed.

Lemma closed_ok c : conn_ok c -> conn_ok (clearSendTimer (set_state CLOSED c)).
Proof.
  intros [H1 H2 H3]. split; cbn; [|rewrite H2; destruct (sendTimer c); [set_solver|done]|by destruct (processSocket c) as [[i st]|]].
  rewrite H1. destruct (processSocket c) as [[i []]|]; cbn; set_solver.
Qed.

(** ** The removals *)

(** The part of the invariant that the socket has no part in. *)
Record removal_ok (s : Panel) : Prop := {
  ro_tokens : forall i t, s.(tasks) !! i = Some t -> token_of t <= s.(initProcessToken) /\ (s.(mounted) = false -> token_of t < s.(initProcessToken));
  ro_removal : forall i r, s.(tasks) !! i = Some (AwaitRemove r) -> r.(r_token) = s.(initProcessToken) -> rests r s;
  ro_single : forall i j r q, s.(tasks) !! i = Some (AwaitRemove r) -> s.(tasks) !! j = Some (AwaitRemove q) ->
    r.(r_token) = s.(initProcessToken) -> q.(r_token) = s.(initProcessToken) -> i = j;
  ro_attempts : forall k, attempts s k <= 3;
  ro_count : forall k, count s.(log).(opening) k s.(log).(removals) = attempts s k;
  ro_past : forall o k, count o k s.(log).(removals) <= 3 /\ (s.(log).(opening) < o -> count o k s.(log).(removals) = 0)
}.

(** No removal of this opening is awaited. *)
Definition idle (s : Panel) : Prop := forall i r, s.(tasks) !! i = Some (AwaitRemove r) -> r.(r_token) <> s.(initProcessToken).

Record same_removal (s s' : Panel) : Prop := {
  sr_tasks : s'.(tasks) = s.(tasks);
  sr_token : s'.(initProcessToken) = s.(initProcessToken);
  sr_removing : s'.(lists).(removingKeys) = s.(lists).(removingKeys);
  sr_attempts : s'.(lists).(autoRemoveAttempts) = s.(lists).(autoRemoveAttempts);
  sr_opening : s'.(log).(opening) = s.(log).(opening);
  sr_removals : s'.(log).(removals) = s.(log).(removals);
  sr_mounted : s'.(mounted) = s.(mounted)
}.
Ltac same_rm := constructor; reflexivity.

Lemma same_removal_ok s s' : same_removal s s' -> removal_ok s -> removal_ok s'.
Proof.
  intros [E1 E2 E3 E4 E5 E6 E7] [H1 H2 H3 H4 H5 H6].
  split; unfold rests, attempts in *; rewrite ?E1, ?E2, ?E3, ?E4, ?E5, ?E6, ?E7; done.
Qed.

Lemma same_idle s s' : same_removal s s' -> idle s -> idle s'.
Proof. intros [E1 E2 _ _ _ _ _] H. unfold idle. by rewrite E1, E2. Qed.

Lemma same_removal_trans s1 s2 s3 : same_removal s1 s2 -> same_removal s2 s3 -> same_removal s1 s3.
Proof. intros [] []. constructor; congruence. Qed.

(** A new token leaves the removals that were awaited behind. *)
Lemma panel_bump_ok s s' : s'.(tasks) = s.(tasks) -> s'.(initProcessToken) = S s.(initProcessToken) ->
  s'.(lists).(autoRemoveAttempts) = s.(lists).(autoRemoveAttempts) -> s'.(log).(opening) = s.(log).(opening) ->
  s'.(log).(removals) = s.(log).(removals) -> removal_ok s ->
  removal_ok s' /\ forall i t, s'.(tasks) !! i = Some t -> token_of t < s'.(initProcessToken).
Proof.
  intros E1 E2 E3 E4 E5 [H1 H2 H3 H4 H5 H6].
  assert (Hlt : forall i t, s'.(tasks) !! i = Some t -> token_of t < s'.(initProcessToken)).
  { intros i t Ht. rewrite E1 in Ht. rewrite E2. apply H1 in Ht as [Ht _]. lia. }
  split; [|done]. split.
  - intros i t Ht. apply Hlt in Ht. lia.
  - intros i r Hr Hk. apply Hlt in Hr. cbn in Hr. lia.
  - intros i j r q Hr _ Hk. apply Hlt in Hr. cbn in Hr. lia.
  - unfold attempts in *. by rewrite E3.
  - unfold attempts in *. by rewrite E3, E4, E5.
  - by rewrite E4, E5.
Qed.

Lemma handleClose_removal s : removal_ok s -> removal_ok (handleClose s) /\ idle (handleClose s).
Proof.
  intros Hs. destruct (panel_bump_ok s (handleClose s)) as [H1 H2]; try done. split; [done|]. intros i r Hr Hk. apply H2 in Hr. cbn in Hr, Hk. lia.
Qed.

Lemma clear_removal s : (forall i t, s.(tasks) !! i = Some t -> token_of t < s.(initProcessToken)) -> removal_ok s -> removal_ok (clear s).
Proof.
  intros Hlt [H1 H2 H3 H4 H5 H6]. split; cbn; try done.
  - intros i r Hr Hk. apply Hlt in Hr. cbn in Hr. lia.
  - intros k. unfold attempts. cbn. rewrite lookup_empty. cbn. lia.
  - intros k. unfold attempts. cbn. rewrite lookup_empty. apply H6. lia.
  - intros o k. split; [apply H6|]. intros Ho. apply H6. lia.
Qed.

Lemma await_removal t s : match t with AwaitRemove _ => False | _ => True end -> token_of t <= s.(initProcessToken) ->
  (s.(mounted) = false -> token_of t < s.(initProcessToken)) -> removal_ok s -> removal_ok (await t s).
Proof.
  intros Ht Hle Hlt [H1 H2 H3 H4 H5 H6].
  assert (Hr : forall i r, tasks (await t s) !! i = Some (AwaitRemove r) -> tasks s !! i = Some (AwaitRemove r)).
  { intros i r. cbn. rewrite lookup_insert_Some. intros [[_ ->]|[_ Hr]]; done. }
  split; try done.
  - intros i t'. cbn. rewrite lookup_insert_Some. intros [[_ <-]|[_ Hi]]; [done|by eapply H1].
  - intros i r Hi. by eapply H2, Hr.
  - intros i j r q Hi Hj. eapply H3; by apply Hr.
Qed.

Lemma closeIdle_removal s : removal_ok s -> removal_ok (closeIdleSocket s) /\ (idle s -> idle (closeIdleSocket s)).
Proof.
  intros Hs. unfold closeIdleSocket. destruct (_ && _ && _).
  - destruct (handleClose_removal (set_shown s.(lists).(res) [] s)) as [H1 H2]; [|done].
    by apply (same_removal_ok s); [same_rm|].
  - destruct (_ && _); [|done]. split; [by apply (same_removal_ok s); [same_rm|]|apply same_idle; same_rm].
Qed.

Lemma set_removing_ok l s : idle s -> removal_ok s -> removal_ok (set_removing l s).
Proof. intros Hi [H1 H2 H3 H4 H5 H6]. split; try done. intros i r Hr Hk. by destruct (Hi i r Hr). Qed.

Lemma remove_over_removal tk s : (tk = s.(initProcessToken) -> idle s) -> removal_ok s -> removal_ok (remove_over tk s).
Proof.
  intros Hi Hs. unfold remove_over. destruct (Nat.eqb_spec tk (initProcessToken s)) as [E|].
  - destruct (closeIdle_removal (set_removing [] s)) as [H1 _]; [by apply set_removing_ok; [apply Hi|]|].
    destruct (_ =? _); [by apply closeIdle_removal|done].
  - destruct (Nat.eqb_spec tk (initProcessToken s)); [done|]. done.
Qed.

Lemma count_app o k l l' : count o k (l ++ l') = count o k l + count o k l'.
Proof. unfold count. by rewrite List.filter_app, length_app. Qed.

Lemma count_pairs o o' k l : count o k (List.map (pair o') l) = if decide (o = o') then length (List.filter (fun x => bool_decide (x = k)) l) else 0.
Proof.
  unfold count. induction l as [|x l IH]; [by destruct (decide _)|]. cbn [List.map List.filter].
  destruct (decide (o = o')) as [->|Hn].
  - destruct (bool_decide_reflect (x = k)) as [->|Hx].
    + rewrite bool_decide_true by done. cbn. by rewrite IH.
    + rewrite bool_decide_false by congruence. done.
  - rewrite bool_decide_false by congruence. done.
Qed.

Lemma bump_lookup (l : list jsstr) : forall m k, default 0 (fold_left (fun m k => bump k m) l m !! k) = default 0 (m !! k) + length (List.filter (fun x => bool_decide (x = k)) l).
Proof.
  induction l as [|x l IH]; intros m k; [cbn; lia|]. cbn [fold_left List.filter]. rewrite IH. unfold bump.
  destruct (bool_decide_reflect (x = k)) as [->|Hx]; [rewrite lookup_insert_eq; cbn; lia|by rewrite lookup_insert_ne].
Qed.

Lemma once_in (l : list jsstr) (k : jsstr) : NoDup l -> length (List.filter (fun x => bool_decide (x = k)) l) = if decide (k ∈ l) then 1 else 0.
Proof.
  induction l as [|x l IH]; [done|]. intros [Hx Hn]%list.NoDup_cons. cbn [List.filter].
  destruct (bool_decide_reflect (x = k)) as [->|Hk]; cbn [length]; rewrite IH by done.
  - rewrite decide_False by done. rewrite decide_True; [done|left].
  - destruct (decide (k ∈ l)); [rewrite decide_True; [done|by right]|]. rewrite decide_False; [done|]. by intros [->|?]%elem_of_cons.
Qed.

Lemma ask_batch_removal batch rest node tk s : NoDup (batch ++ rest) -> (forall k, k ∈ batch ++ rest -> attempts s k < 3) ->
  s.(lists).(removingKeys) <> [] -> idle s -> tk = s.(initProcessToken) -> s.(mounted) = true -> removal_ok s ->
  removal_ok (ask_batch batch rest node tk s).
Proof.
  intros Hn Ha Hr Hi -> Hm [H1 H2 H3 H4 H5 H6]. assert (Hbn : NoDup batch) by by apply list.NoDup_app in Hn as (? & _).
  assert (Hatt : forall k, attempts (ask_batch batch rest node (initProcessToken s) s) k = attempts s k + if decide (k ∈ batch) then 1 else 0).
  { intros k. unfold attempts. cbn. rewrite bump_lookup, once_in; done. }
  assert (Hcnt : forall o k, count o k (removals (log (ask_batch batch rest node (initProcessToken s) s))) =
    count o k s.(log).(removals) + if decide (o = s.(log).(opening)) then if decide (k ∈ batch) then 1 else 0 else 0).
  { intros o k. change (removals (log (ask_batch batch rest node (initProcessToken s) s))) with (s.(log).(removals) ++ List.map (pair s.(log).(opening)) batch).
    rewrite count_app, count_pairs. destruct (decide _); [|done]. rewrite once_in; done. }
  assert (Hlt : forall k, attempts s k + (if decide (k ∈ batch) then 1 else 0) <= 3).
  { intros k. destruct (decide (k ∈ batch)) as [Hk|]; [|specialize (H4 k); lia]. assert (k ∈ batch ++ rest) by (apply elem_of_app; by left).
    specialize (Ha k ltac:(done)). lia. }
  split.
  - intros i t. cbn. rewrite lookup_insert_Some. intros [[_ <-]|[_ Ht]]; [cbn; split; [done|congruence]|by eapply H1].
  - intros i r. cbn [ask_batch await with_tasks tasks]. rewrite lookup_insert_Some. intros [[_ [= <-]]|[_ Hx]] Hk; [|by destruct (Hi _ _ Hx)].
    split; [done|]. apply list.NoDup_app in Hn as (Hb & Hd & Hre). split; [done|]. cbn [r_rest]. intros k Hkr. rewrite Hatt, decide_False by (intros Hkb; by apply (Hd k)).
    rewrite Nat.add_0_r. apply Ha, elem_of_app. by right.
  - intros i j r q. cbn. rewrite !lookup_insert_Some. intros [[<- _]|[_ Hx]] [[<- _]|[_ Hy]] Hk Hk'; [done|by destruct (Hi _ _ Hy)|by destruct (Hi _ _ Hx)|by destruct (Hi _ _ Hx)].
  - intros k. rewrite Hatt. apply Hlt.
  - intros k. rewrite Hcnt, Hatt. cbn [ask_batch await with_tasks with_log with_lists log opening]. rewrite decide_True by done. by rewrite H5.
  - intros o k. rewrite Hcnt. cbn [ask_batch await with_tasks with_log with_lists log opening]. split.
    + destruct (decide (o = opening (log s))) as [->|]; [rewrite H5; apply Hlt|]. destruct (H6 o k). lia.
    + intros Ho. rewrite decide_False by lia. destruct (H6 o k) as [_ ->]; lia.
Qed.

Lemma elem_distinct k l : k ∈ distinct l <-> k ∈ l.
Proof.
  induction l as [|x l IH]; [done|]. cbn [distinct]. rewrite !elem_of_cons, elem_filter, IH.
  destruct (decide (k = x)) as [->|Hn]; [tauto|]. assert ((k !== x) = true) as -> by by apply negb_true_iff, streqb_neq. tauto.
Qed.

Lemma NoDup_distinct l : NoDup (distinct l).
Proof.
  induction l as [|x l IH]; [constructor|]. cbn [distinct]. apply list.NoDup_cons. split.
  - intros [_ Hx]%elem_filter. by rewrite streqb_refl in Hx.
  - clear -IH. induction IH as [|y l' Hy Hl IH']; [constructor|]. cbn. destruct (y !== x); [|done]. apply list.NoDup_cons. split; [|done].
    by intros [? _]%elem_filter.
Qed.

Lemma auto_keys_spec s k : k ∈ getAutoRemoveKeys s ->
  attempts s k < 3 /\ (k ∈ s.(lists).(keys)) /\ exists v, v ∈ s.(lists).(res) /\ v.(key) = k /\ finished v = true.
Proof.
  unfold getAutoRemoveKeys. intros (v & -> & [Hv Hf]%elem_filter)%elem_map. apply andb_true_iff in Hf as [Hr Ha].
  unfold isRemovable in Hr. apply andb_true_iff in Hr as [Hk Hf]. apply Nat.ltb_lt in Ha. apply memb_elem in Hk. split; [done|]. split; [done|]. by exists v.
Qed.

Lemma next_batch_removal todo node tk s : (tk = s.(initProcessToken) -> idle s) -> removal_ok s ->
  (tk = s.(initProcessToken) -> s.(lists).(removingKeys) <> [] /\ NoDup todo /\ (forall k, k ∈ todo -> attempts s k < 3) /\ s.(mounted) = true) ->
  removal_ok (next_batch todo node tk s).
Proof.
  intros Hi Hs Ht. unfold next_batch. destruct todo as [|k todo]; [by apply remove_over_removal|].
  destruct (_ || _ || _) eqn:Eg; [by apply remove_over_removal|].
  apply orb_false_iff in Eg as [[_ Etk]%orb_false_iff _]. apply negb_false_iff, Nat.eqb_eq in Etk.
  destruct (Ht Etk) as (H1 & H2 & H3 & H4). apply ask_batch_removal; try done; [by rewrite take_drop| |by apply Hi]. intros k'. rewrite take_drop. apply H3.
Qed.

Lemma onRemove_removal l s : (forall k, k ∈ l -> attempts s k < 3) -> s.(mounted) = true -> removal_ok s -> removal_ok (onRemove l s).
Proof.
  intros Hl Hm Hs. unfold onRemove. destruct (bool_decide_reflect (s.(lists).(removingKeys) = [])) as [Hr|]; [|by apply closeIdle_removal].
  destruct (distinct _) as [|k sel] eqn:Ed; [by apply closeIdle_removal|].
  assert (Hi : idle s) by (intros i r Hx Hk; by destruct (ro_removal s Hs i r Hx Hk)).
  apply next_batch_removal; [done|by apply set_removing_ok|]. intros _. split; [done|]. rewrite <- Ed. split; [apply NoDup_distinct|]. split; [|done].
  intros k' Hk'. rewrite elem_distinct, elem_filter in Hk'. apply Hl, Hk'.
Qed.

Lemma removed_answer_removal r ks s : r.(r_token) <= s.(initProcessToken) -> (r.(r_token) = s.(initProcessToken) -> idle s /\ rests r s /\ s.(mounted) = true) -> removal_ok s ->
  removal_ok (removed_answer r ks s).
Proof.
  intros Hle Hr Hs. unfold removed_answer. destruct ks as [ks|]; [|by apply remove_over_removal; [apply Hr|]].
  destruct (_ || _ || _); [by apply remove_over_removal; [apply Hr|]|]. cbv zeta.
  set (s1 := with_lists _ s). assert (H1 : same_removal s s1) by same_rm.
  assert (Hs1 : removal_ok s1) by by eapply same_removal_ok.
  destruct (closeIdle_removal s1 Hs1) as [Hs2 Hi2].
  assert (Hc : r.(r_token) = initProcessToken (closeIdleSocket s1) ->
    idle (closeIdleSocket s1) /\ rests r (closeIdleSocket s1) /\ mounted (closeIdleSocket s1) = true).
  { intros Hk. assert (Hsame : same_removal s1 (closeIdleSocket s1) \/ initProcessToken (closeIdleSocket s1) = S (initProcessToken s)).
    { unfold closeIdleSocket. destruct (_ && _ && _); [by right|]. left. destruct (_ && _); same_rm. }
    destruct Hsame as [Hsame|Hb].
    - pose proof Hsame as [_ Etk Er Ea _ _ Em]. rewrite Etk in Hk. destruct (Hr Hk) as (G1 & (G2 & G3 & G4) & G5).
      split; [by apply (same_idle s1), (same_idle s)|]. split; [|by rewrite Em]. unfold rests, attempts. by rewrite Er, Ea.
    - exfalso. lia. }
  destruct (_ =? _).
  - apply next_batch_removal; [by intros Hk; apply Hc|done|]. intros Hk. destruct (Hc Hk) as (_ & (G1 & G2 & G3) & G4). done.
  - apply remove_over_removal.
    + destruct (existsb _ _); intros Hk; destruct (Hc Hk) as [Hx _]; [by apply (same_idle (closeIdleSocket s1)); [same_rm|]|done].
    + destruct (existsb _ _); [|done]. by apply (same_removal_ok (closeIdleSocket s1)); [same_rm|].
Qed.

Lemma report_same s : same_removal s (report s).
Proof. unfold report. cbv zeta. repeat case_match; same_rm. Qed.

Lemma onMessage_removal d s : s.(mounted) = true -> removal_ok s -> removal_ok (onMessage d s).
Proof.
  intros Hm Hs. unfold onMessage. destruct d as [ps|]; [|done]. cbv zeta. set (s1 := set_shown _ _ (set_loading false s)).
  assert (Hs1 : removal_ok s1) by (apply (same_removal_ok s); [same_rm|done]).
  destruct (open s1); [|by apply closeIdle_removal]. pose proof (report_same s1) as Hsame.
  apply onRemove_removal; [|by rewrite (sr_mounted _ _ Hsame)|by eapply same_removal_ok].
  intros k Hk. by apply auto_keys_spec in Hk as [? _].
Qed.

Lemma onerror_removal s : removal_ok s -> removal_ok (onerror s).
Proof.
  intros Hs. unfold onerror. destruct (_ && _); [|done]. apply handleClose_removal. by apply (same_removal_ok s); [same_rm|].
Qed.

Lemma send_same s : same_removal s (sendProgressRequest s).
Proof. unfold sendProgressRequest. destruct (processSocket (conn s)) as [[i []]|]; same_rm. Qed.

Lemma resume_removal t a s : token_of t <= s.(initProcessToken) -> (token_of t = s.(initProcessToken) -> s.(mounted) = true) ->
  (forall r, t = AwaitRemove r -> r.(r_token) = s.(initProcessToken) -> idle s /\ rests r s) -> removal_ok s -> removal_ok (resume t a s).
Proof.
  intros Hle Hm Hr Hs. assert (Hsame : forall s', same_removal s s' -> removal_ok s') by (intros s' H; by eapply same_removal_ok).
  destruct t as [tk|tk|r|k n tk|k n tk]; destruct a; cbn [resume token_of] in *; try done.
  - unfold keys_answer. destruct (_ || _) eqn:Eg; [done|]. apply orb_false_iff in Eg as [Etk%negb_false_iff%Nat.eqb_eq _].
    destruct ks as [[|k ks]|]; try by apply handleClose_removal. apply await_removal; try done; [cbn; by rewrite (Hm Etk)|].
    by apply Hsame; same_rm.
  - unfold auth_answer. destruct (_ || _); [done|]. destruct (truthy e); [apply handleClose_removal|]; apply Hsame; same_rm.
  - apply removed_answer_removal; [done| |done]. intros Hk. destruct (Hr r eq_refl Hk). auto.
  - unfold confirm_answer. destruct (negb yes); [done|]. destruct (_ || _ || _) eqn:Eg; [done|].
    apply orb_false_iff in Eg as [[_ Etk%negb_false_iff%Nat.eqb_eq]%orb_false_iff _].
    apply await_removal; try done; [cbn; by rewrite (Hm Etk)|]. apply Hsame; same_rm.
  - unfold stop_answer. apply Hsame. destruct (_ && _); same_rm.
Qed.

(** An answered task is no longer awaited. *)
Lemma panel_answered_ok i t s : removal_ok s -> s.(tasks) !! i = Some t ->
  let s' := with_tasks (delete i s.(tasks)) s.(fresh_task) s in
  removal_ok s' /\ forall r, t = AwaitRemove r -> r.(r_token) = s.(initProcessToken) -> idle s' /\ rests r s'.
Proof.
  intros [H1 H2 H3 H4 H5 H6] Ht. cbv zeta.
  assert (Hd : forall j t', delete i s.(tasks) !! j = Some t' -> i <> j /\ s.(tasks) !! j = Some t') by (intros j t'; by rewrite lookup_delete_Some).
  split.
  - split; try done.
    + intros j t' Hj. apply Hd in Hj as [_ Hj]. by eapply H1.
    + intros j r Hj. apply Hd in Hj as [_ Hj]. by eapply H2.
    + intros j j' r q Hj Hj'. apply Hd in Hj as [_ Hj]. apply Hd in Hj' as [_ Hj']. by eapply H3.
  - intros r -> Hk. split; [|by eapply H2]. intros j q Hj Hk'. apply Hd in Hj as [Hn Hj]. by destruct Hn; eapply H3.
Qed.

(** ** The socket, by event *)

Lemma conn_same s s' : s'.(conn) = s.(conn) -> s'.(open) = s.(open) -> s'.(mounted) = s.(mounted) -> conn_part s -> conn_part s'.
Proof. intros E1 E2 E3 [H1 H2]. split; rewrite E1; [done|]. by rewrite E2, E3. Qed.

Lemma conn_closed s s' : s'.(conn) = close_conn s.(conn) -> conn_part s -> conn_part s'.
Proof. intros E [H1 _]. split; rewrite E; [by apply close_conn_ok|done]. Qed.

Lemma handleClose_conn s : conn_part s -> conn_part (handleClose s).
Proof. by apply conn_closed. Qed.

Lemma closeIdle_conn s : conn_part s -> conn_part (closeIdleSocket s).
Proof.
  intros Hs. unfold closeIdleSocket. destruct (_ && _ && _); [by apply (conn_closed s)|].
  destruct (_ && _); [by apply (conn_closed s)|done].
Qed.

Lemma remove_over_conn tk s : conn_part s -> conn_part (remove_over tk s).
Proof. intros Hs. unfold remove_over. repeat case_step; repeat apply closeIdle_conn; done. Qed.

Lemma next_batch_conn todo node tk s : conn_part s -> conn_part (next_batch todo node tk s).
Proof.
  intros Hs. unfold next_batch. destruct todo; [by apply remove_over_conn|]. destruct (_ || _ || _); [by apply remove_over_conn|done].
Qed.

Lemma removed_answer_conn r ks s : conn_part s -> conn_part (removed_answer r ks s).
Proof.
  intros Hs. unfold removed_answer. destruct ks as [ks|]; [|by apply remove_over_conn].
  destruct (_ || _ || _); [by apply remove_over_conn|]. cbv zeta. set (s1 := with_lists _ s).
  assert (Hs1 : conn_part (closeIdleSocket s1)) by by apply closeIdle_conn.
  destruct (_ =? _); [by apply next_batch_conn|]. apply remove_over_conn. by destruct (existsb _ _).
Qed.

Lemma onMessage_conn d s : conn_part s -> conn_part (onMessage d s).
Proof.
  intros Hs. unfold onMessage. destruct d as [ps|]; [|done]. cbv zeta. set (s1 := set_shown _ _ (set_loading false s)).
  assert (Hs1 : conn_part s1) by exact Hs. destruct (open s1); [|by apply closeIdle_conn].
  assert (Hs2 : conn_part (report s1)).
  { apply (conn_same s1); try done; unfold report; cbv zeta; repeat case_match; done. }
  unfold onRemove. destruct (bool_decide _); [|by apply closeIdle_conn]. destruct (distinct _); [by apply closeIdle_conn|by apply next_batch_conn].
Qed.

Lemma onerror_conn s : conn_part s -> conn_part (onerror s).
Proof. intros Hs. unfold onerror. destruct (_ && _); [by apply (handleClose_conn (MsgError _ s))|done]. Qed.

Lemma send_conn s : conn (sendProgressRequest s) = conn s /\ open (sendProgressRequest s) = open s /\ mounted (sendProgressRequest s) = mounted s.
Proof. unfold sendProgressRequest. by destruct (processSocket (conn s)) as [[i []]|]. Qed.

Lemma resume_conn t a s : (token_of t = s.(initProcessToken) -> s.(mounted) = true) -> conn_part s -> conn_part (resume t a s).
Proof.
  intros Hm Hs. destruct t as [tk|tk|r|k n tk|k n tk]; destruct a; cbn [resume token_of] in *; try done.
  - unfold keys_answer. destruct (_ || _); [done|]. by destruct ks as [[|k ks]|]; try apply handleClose_conn.
  - unfold auth_answer. destruct (_ || _) eqn:Eg; [done|]. apply orb_false_iff in Eg as [Etk%negb_false_iff%Nat.eqb_eq Eo%negb_false_iff].
    destruct (truthy e); [by apply (handleClose_conn (MsgError e s))|]. cbv zeta. split.
    + cbn. apply open_conn_ok; [|done]. apply close_conn_ok, Hs.
    + cbn. rewrite Eo, (Hm Etk). by intros [?|?].
  - by apply removed_answer_conn.
  - unfold confirm_answer. destruct (negb yes); [done|]. by destruct (_ || _ || _).
  - unfold stop_answer. by destruct (_ && _).
Qed.

(** A handler of the current socket. *)
Lemma on_socket_cases (P : Panel -> Prop) i when f s : P s ->
  (forall st, s.(conn).(processSocket) = Some (i, st) -> when st = true -> P (f s)) -> P (on_socket i when f s).
Proof.
  intros Hs Hf. unfold on_socket. destruct (processSocket (conn s)) as [[j st]|] eqn:E; [|done].
  destruct ((i =? j) && when st) eqn:Ei; [|done]. apply andb_true_iff in Ei as [->%Nat.eqb_eq Hw]. by apply (Hf st).
Qed.

Lemma has_socket_mounted s x : conn_part s -> s.(conn).(processSocket) = Some x -> s.(open) = true /\ s.(mounted) = true.
Proof.
  intros [_ H] E. destruct (open s); [|by rewrite H in E; [|left]]. destruct (mounted s); [done|by rewrite H in E; [|right]].
Qed.

Lemma handle_conn e s : removal_ok s -> conn_part s -> conn_part (handle e s).
Proof.
  intros Hr Hs. destruct e; cbn [handle].
  - destruct (mounted s) eqn:Em; [|done]. destruct Hs as [H1 H2]. split; [exact H1|]. cbn. rewrite Em. by intros [?|?].
  - destruct (mounted s); [by apply handleClose_conn|done].
  - destruct (mounted s); [|done]. unfold onStop. by destruct (_ || _).
  - destruct (mounted s); [by apply (conn_closed s)|done].
  - by apply (conn_closed s).
  - apply on_socket_cases; [done|]. intros st E Hw. apply bool_decide_eq_true in Hw as ->.
    destruct (has_socket_mounted s _ Hs E) as [Ho Hm]. destruct Hs as [H1 H2].
    unfold onOpenProcess, sendMsg. set (s1 := with_conn _ s). destruct (send_conn s1) as (E1 & E2 & E3). split.
    + cbn. rewrite E1. apply (start_timer_ok _ i); cbn; [by eapply panel_opened_ok|by rewrite E].
    + cbn. rewrite E2, E3. cbn. rewrite Ho, Hm. by intros [?|?].
  - apply on_socket_cases; [done|]. intros st E Hw. by apply onMessage_conn.
  - apply on_socket_cases; [done|]. intros st E Hw. by apply onerror_conn.
  - apply on_socket_cases; [done|]. intros st E Hw. destruct (has_socket_mounted s _ Hs E) as [Ho Hm]. unfold onClose. apply onerror_conn. split; cbn.
    + apply closed_ok, Hs.
    + rewrite Ho, Hm. by intros [?|?].
  - destruct (decide _); [|done]. destruct (send_conn s) as (E1 & E2 & E3). by apply (conn_same s).
  - destruct (tasks s !! i) as [t|] eqn:Et; [|done]. apply resume_conn; [|done]. cbn. intros Hk.
    destruct (ro_tokens s Hr i t Et) as [_ Hlt]. destruct (mounted s); [done|]. specialize (Hlt eq_refl). lia.
Qed.

Lemma handle_removal e s : conn_part s -> removal_ok s -> removal_ok (handle e s).
Proof.
  intros Hc Hs. assert (Hsame : forall s', same_removal s s' -> removal_ok s') by (intros s' H; by eapply same_removal_ok).
  destruct e; cbn [handle].
  - destruct (mounted s) eqn:Em; [|done]. unfold acceptParams. cbv zeta.
    apply await_removal; [done|done|cbn; congruence|]. set (s1 := with_token _ (with_flags _ _ _ s)).
    destruct (panel_bump_ok s s1) as [H1 H2]; try done. apply (same_removal_ok (clear s1)); [same_rm|]. by apply clear_removal.
  - destruct (mounted s); [by apply handleClose_removal|done].
  - destruct (mounted s) eqn:Em; [|done]. unfold onStop. destruct (_ || _); [done|]. apply await_removal; try done. cbn. congruence.
  - destruct (mounted s); [|apply Hsame; same_rm]. set (s1 := handleClose (with_node node s)).
    destruct (panel_bump_ok s s1) as [H1 H2]; try done. by apply clear_removal.
  - by apply (panel_bump_ok s).
  - apply on_socket_cases; [done|]. intros st E Hw. apply Hsame. eapply same_removal_trans; [|].
    + eapply same_removal_trans; [|apply (send_same (with_conn (set_state OPEN (conn s)) s))]. same_rm.
    + unfold onOpenProcess, sendMsg. same_rm.
  - apply on_socket_cases; [done|]. intros st E Hw. apply onMessage_removal; [|done]. by eapply has_socket_mounted.
  - apply on_socket_cases; [done|]. intros st E Hw. by apply onerror_removal.
  - apply on_socket_cases; [done|]. intros st E Hw. unfold onClose. apply onerror_removal. apply Hsame. same_rm.
  - destruct (decide _); [|done]. apply Hsame, send_same.
  - destruct (tasks s !! i) as [t|] eqn:Et; [|done]. destruct (panel_answered_ok i t s Hs Et) as [H1 H2].
    destruct (ro_tokens s Hs i t Et) as [Hle Hlt]. apply resume_removal; try done.
    cbn. intros Hk. destruct (mounted s); [done|]. specialize (Hlt eq_refl). lia.
Qed.

Lemma panel_run_ok es : forall s, conn_part s -> removal_ok s -> conn_part (run es s) /\ removal_ok (run es s).
Proof.
  induction es as [|e es IH]; intros s Hc Hr; [done|]. apply IH; [by apply handle_conn|by apply handle_removal].
Qed.

Lemma initial_ok node : conn_part (initial node) /\ removal_ok (initial node).
Proof.
  split; [by repeat split|]. split; cbn; try done; [|by intros o k; split; [cbn; lia|]].
  intros k. unfold attempts. cbn. rewrite lookup_empty. cbn. lia.
Qed.

(** ** What the panel promises *)

(** C16. However the panel is used and in whatever order its requests and its sockets answer, it
    holds one socket at most and one interval at most, which reads an open socket, and
    neither of them once it is closed or unmounted. *)
Theorem downloads_leave_nothing es node :
  let s := run es (initial node) in
  s.(conn).(sockets) = match s.(conn).(processSocket) with Some (i, CONNECTING) | Some (i, OPEN) => {[i]} | _ => ∅ end /\
  s.(conn).(timers) = match s.(conn).(sendTimer) with Some t => {[t]} | None => ∅ end /\
  (s.(conn).(timers) <> ∅ -> exists i, s.(conn).(processSocket) = Some (i, OPEN)) /\
  (s.(open) = false \/ s.(mounted) = false -> s.(conn).(sockets) = ∅ /\ s.(conn).(timers) = ∅).
Proof.
  cbv zeta. destruct (initial_ok node) as [H1 H2]. destruct (panel_run_ok es _ H1 H2) as [[[C1 C2 C3] Hc] _].
  split; [done|]. split; [done|]. split.
  - rewrite C2. intros Ht. destruct (processSocket (conn (run es (initial node)))) as [[i []]|]; try (rewrite C3 in Ht; done). by exists i.
  - intros Hx. apply Hc in Hx. rewrite Hx in *. by rewrite C1, C2, C3.
Qed.

Lemma ask_batch_removals todo node tk s : todo <> [] -> tk = s.(initProcessToken) -> node = s.(currentNode) -> s.(open) = true ->
  next_batch todo node tk s = ask_batch (take BATCH todo) (drop BATCH todo) node tk s.
Proof.
  intros Ht -> -> Ho. unfold next_batch. destruct todo; [done|]. by rewrite streqb_refl, Nat.eqb_refl, Ho.
Qed.

Lemma closeIdle_removals s : removals (log (closeIdleSocket s)) = removals (log s).
Proof. unfold closeIdleSocket. destruct (_ && _ && _); [done|]. by destruct (_ && _). Qed.

Lemma report_shown s : lists (report s) = {| res := s.(lists).(res); keys := s.(lists).(keys); stoppingKeys := s.(lists).(stoppingKeys);
    removingKeys := s.(lists).(removingKeys); removedKeys := s.(lists).(removedKeys); reportedFailures := (report s).(lists).(reportedFailures);
    reportedSuccesses := (report s).(lists).(reportedSuccesses); autoRemoveAttempts := s.(lists).(autoRemoveAttempts) |} /\ open (report s) = open s.
Proof. unfold report. cbv zeta. repeat case_match; done. Qed.

(** The key of a finished download that the panel [s] shows. *)
Definition over (s : Panel) (k : jsstr) : Prop := (k ∈ s.(lists).(keys)) /\ exists v, v ∈ s.(lists).(res) /\ v.(key) = k /\ finished v = true.

Lemma auto_keys_complete s k : over s k -> attempts s k < 3 -> k ∈ getAutoRemoveKeys s.
Proof.
  intros (Hk & v & Hv & <- & Hf) Ha. unfold getAutoRemoveKeys. apply elem_map. exists v. split; [done|]. apply elem_filter.
  split; [done|]. apply andb_true_iff. split; [|by apply Nat.ltb_lt]. unfold isRemovable. by rewrite Hf, (proj2 (memb_elem _ _) Hk).
Qed.

Lemma closeIdle_over s k : over (closeIdleSocket s) k -> over s k.
Proof.
  unfold closeIdleSocket. destruct (_ && _ && _); [|by destruct (_ && _)]. intros [Hk _]. by apply not_elem_of_nil in Hk.
Qed.

(** What is asked to be removed when a message is shown: nothing while a removal is awaited, and
    the first of the keys that are over otherwise. *)
Lemma removed_now s : s.(open) = true ->
  exists batch, removals (log (onRemove (getAutoRemoveKeys s) s)) = removals (log s) ++ List.map (pair s.(log).(opening)) batch /\
    length batch <= BATCH /\ (forall k, k ∈ batch -> over (onRemove (getAutoRemoveKeys s) s) k) /\
    (s.(lists).(removingKeys) = [] -> forall k, over (onRemove (getAutoRemoveKeys s) s) k -> attempts s k < 3 -> k ∈ batch \/ length batch = BATCH).
Proof.
  intros Ho.
  assert (Hsel : forall k, k ∈ distinct (List.filter (fun k => memb k (getFinishedKeys s)) (getAutoRemoveKeys s)) <-> over s k /\ attempts s k < 3).
  { intros k. rewrite elem_distinct, elem_filter. split; [by intros [[? ?]%auto_keys_spec _]|]. intros [Hk Ha]. split; [by apply auto_keys_complete|].
    apply memb_elem. destruct Hk as (Hk & v & Hv & <- & Hf). unfold getFinishedKeys. apply elem_map. exists v. split; [done|]. apply elem_filter.
    split; [done|]. unfold isRemovable. by rewrite Hf, (proj2 (memb_elem _ _) Hk). }
  assert (Hnone : (s.(lists).(removingKeys) = [] -> forall k, over s k -> attempts s k < 3 -> False) ->
    exists batch : list jsstr, removals (log (closeIdleSocket s)) = removals (log s) ++ List.map (pair s.(log).(opening)) batch /\
    length batch <= BATCH /\ (forall k, k ∈ batch -> over (closeIdleSocket s) k) /\
    (s.(lists).(removingKeys) = [] -> forall k, over (closeIdleSocket s) k -> attempts s k < 3 -> k ∈ batch \/ length batch = BATCH)).
  { intros H. exists []. rewrite closeIdle_removals, app_nil_r. split; [done|]. split; [apply Nat.le_0_l|]. split; [by intros k ?%not_elem_of_nil|].
    intros Hr k Hk%closeIdle_over Ha. destruct (H Hr k Hk Ha). }
  unfold onRemove. destruct (bool_decide_reflect (s.(lists).(removingKeys) = [])) as [Hr|Hr]; [|by apply Hnone].
  destruct (distinct _) as [|k0 sel] eqn:Ed.
  { apply Hnone. intros _ k Hk Ha. by apply (not_elem_of_nil k), Hsel. }
  rewrite ask_batch_removals by (cbn; congruence || done). exists (take BATCH (k0 :: sel)). split; [done|].
  split; [apply firstn_le_length|]. split.
  - intros k Hk%subseteq_take. by apply Hsel in Hk as [Hk _].
  - intros _ k Hk Ha. destruct (decide (k ∈ take BATCH (k0 :: sel))) as [Hin|Hin]; [by left|right].
    assert (Hk' : k ∈ k0 :: sel) by by apply Hsel. rewrite length_take. apply Nat.min_l. destruct (Nat.le_gt_cases BATCH (length (k0 :: sel))); [done|].
    rewrite take_ge in Hin by lia. done.
Qed.

(** What a message has removed. *)
Lemma message_removals d s : exists batch, removals (log (onMessage d s)) = removals (log s) ++ List.map (pair s.(log).(opening)) batch /\
  length batch <= BATCH /\ (forall k, k ∈ batch -> over (onMessage d s) k) /\
  (d <> None -> s.(open) = true -> s.(lists).(removingKeys) = [] ->
    forall k, over (onMessage d s) k -> attempts s k < 3 -> k ∈ batch \/ length batch = BATCH).
Proof.
  assert (Hnone : forall s' (P : Prop), removals (log s') = removals (log s) -> ~ P -> exists batch : list jsstr,
    removals (log s') = removals (log s) ++ List.map (pair s.(log).(opening)) batch /\ length batch <= BATCH /\
    (forall k, k ∈ batch -> over s' k) /\ (d <> None -> P -> s.(lists).(removingKeys) = [] ->
      forall k, over s' k -> attempts s k < 3 -> k ∈ batch \/ length batch = BATCH)).
  { intros s' P E HP. exists []. rewrite app_nil_r. split; [done|]. split; [apply Nat.le_0_l|]. by split; [intros k ?%not_elem_of_nil|]. }
  unfold onMessage. destruct d as [ps|].
  2:{ destruct (Hnone s False eq_refl) as (batch & E & Hl & Hb & _); [tauto|]. by exists batch. }
  cbv zeta. set (s1 := set_shown _ _ (set_loading false s)).
  destruct (open s1) eqn:Eo; [|apply Hnone; [by rewrite closeIdle_removals|intros Ho; change (open s1 = true) in Ho; congruence]].
  pose proof (report_same s1) as Hsame. destruct (report_shown s1) as [_ Eo']. set (s2 := report s1) in *.
  destruct (removed_now s2) as (batch & E & Hl & Hb & Hc); [congruence|]. exists batch.
  rewrite E, (sr_removals _ _ Hsame), (sr_opening _ _ Hsame). split; [done|]. split; [done|]. split; [done|]. intros _ _ Hr k Hk Ha.
  apply Hc; [by rewrite (sr_removing _ _ Hsame)|done|]. unfold attempts in *. by rewrite (sr_attempts _ _ Hsame).
Qed.


(** What the user sees and what is sent. *)
Definition visible (s : Panel) :=
  (s.(lists).(res), s.(lists).(keys), s.(log).(sent), s.(log).(errors), s.(log).(successes), s.(log).(removals), s.(log).(stops)).

Lemma closed_idle s : s.(open) = false -> visible (closeIdleSocket s) = visible s /\ open (closeIdleSocket s) = false.
Proof. intros Ho. unfold closeIdleSocket. rewrite Ho. cbn [andb]. by destruct (_ && _). Qed.

Lemma closed_over tk s : s.(open) = false -> visible (remove_over tk s) = visible s /\ open (remove_over tk s) = false.
Proof.
  intros Ho. unfold remove_over. destruct (tk =? initProcessToken s) eqn:E; [|by rewrite E].
  destruct (closed_idle (set_removing [] s) Ho) as [E1 E2]. destruct (tk =? initProcessToken (closeIdleSocket _)); [|done].
  by destruct (closed_idle _ E2) as [-> ->].
Qed.

(** A closed panel says and sends nothing, and its lists stay, whatever is still answered. *)
Theorem closed_panel_silent es node e (Ho : (run es (initial node)).(open) = false)
  (He : match e with Accept | NodeChanged _ => False | _ => True end) :
  visible (handle e (run es (initial node))) = visible (run es (initial node)) /\ (handle e (run es (initial node))).(open) = false.
Proof.
  destruct (initial_ok node) as [H1 H2]. destruct (panel_run_ok es _ H1 H2) as [Hc _]. set (s := run es (initial node)) in *. clearbody s.
  assert (Hn : processSocket (conn s) = None) by (apply Hc; by left).
  destruct e; try done; cbn [handle].
  - by destruct (mounted s).
  - destruct (mounted s); [|done]. unfold onStop. by destruct (_ || _).
  - unfold on_socket. by rewrite Hn.
  - unfold on_socket. by rewrite Hn.
  - unfold on_socket. by rewrite Hn.
  - unfold on_socket. by rewrite Hn.
  - destruct (decide _); [|done]. unfold sendProgressRequest. by rewrite Hn.
  - destruct (tasks s !! i) as [t|]; [|done]. set (s1 := with_tasks _ _ s). assert (Ho1 : open s1 = false) by done.
    change (visible s) with (visible s1). clearbody s1. clear -Ho1.
    destruct t as [tk|tk|r|k n tk|k n tk]; destruct a; cbn [resume]; try done.
    + unfold keys_answer. rewrite Ho1. by rewrite orb_true_r.
    + unfold auth_answer. rewrite Ho1. by rewrite orb_true_r.
    + assert (Hx : removed_answer r ks s1 = remove_over (r_token r) s1) by (unfold removed_answer; rewrite Ho1, !orb_true_r; by destruct ks).
      rewrite Hx. by apply closed_over.
    + unfold confirm_answer. rewrite Ho1. destruct (negb yes); [done|]. by rewrite !orb_true_r.
    + unfold stop_answer. by rewrite Ho1, andb_false_r.
Qed.

Lemma closed_panel_silent_witness :
  visible (handle (Answered 2 (Removed (Some (Some [js "a"])))) (run (sample_run ++ [Close]) (initial (js "n")))) =
  visible (run (sample_run ++ [Close]) (initial (js "n"))).
Proof.
  destruct (closed_panel_silent (sample_run ++ [Close]) (js "n") (Answered 2 (Removed (Some (Some [js "a"]))))) as [E _].
  - vm_compute. reflexivity.
  - exact I.
  - exact E.
Defined.
