(* ===== verification/ContainerLog.v ===== *)
(** * The log of a container

    src/frontend/src/components/log/container/index.vue: the search parameters, the event
    stream that is opened for them after its authentication was probed, the lines written to
    the terminal, downloads and cleaning.  Streams have identities; awaited requests are
    tasks that are answered in any order.  A terminal is the lines that were written since
    its reset and are still in its buffer, which holds its rows and MAX_VIEW_LINES above them
    (a line that is wrapped counts once). *)

From S2P Require Import Prelude JsString.

#[local] Open Scope list_scope.

Definition MAX_VIEW_LINES : nat := 200 * 100.

(** ** State *)

Record Props := { p_container : jsstr; p_compose : jsstr; p_resource : jsstr; p_node : jsstr; p_timestamp : bool }.

Record LogSearch := {
  isWatch : bool; isShowTimestamp : bool; container : jsstr; mode : jsstr; tail : Z; compose : jsstr; resource : jsstr
}.

(** [d_tail] is [None] when it is no number. *)
Record DownloadForm := { d_mode : jsstr; d_tail : option Z }.
Record DownloadParams := { dp_container : jsstr; dp_since : jsstr; dp_tail : Z; dp_timestamp : bool; dp_type : jsstr }.

Variant Task :=
| AwaitAuth (url : jsstr)                    (* checkStreamAuth *)
| AwaitConfirm                               (* the box of onClean *)
| AwaitCleanCompose | AwaitCleanContainer
| AwaitDownload (fileName : jsstr).

Variant Effect :=
| Error (m : jsstr) | Done (m : jsstr) | EmitLoading (b : bool)
| Cleaning (resource compose node : jsstr) | CleaningContainer (container node : jsstr)
| Downloading (p : DownloadParams) | Saved (fileName : jsstr).

Record Viewer := {
  props : Props; mounted : bool; currentNode : jsstr;
  logSearch : LogSearch; downloadForm : DownloadForm; downloadDialogVisible : bool;
  eventSource : option nat; streams : gmap nat jsstr;     (* the open streams with their URLs *)
  term : option (list jsstr); followBottom : bool; rows : nat; atBottom : bool;
  received : list (nat * jsstr);                          (* what the streams have delivered *)
  effects : list Effect; tasks : gmap nat Task; fresh : nat
}.

(** ** Setters *)

Definition with_search (l : LogSearch) (s : Viewer) : Viewer :=
  {| props := s.(props); mounted := s.(mounted); currentNode := s.(currentNode); logSearch := l; downloadForm := s.(downloadForm);
     downloadDialogVisible := s.(downloadDialogVisible); eventSource := s.(eventSource); streams := s.(streams); term := s.(term);
     followBottom := s.(followBottom); rows := s.(rows); atBottom := s.(atBottom); received := s.(received); effects := s.(effects); tasks := s.(tasks); fresh := s.(fresh) |}.
Definition with_dialog (b : bool) (f : DownloadForm) (s : Viewer) : Viewer :=
  {| props := s.(props); mounted := s.(mounted); currentNode := s.(currentNode); logSearch := s.(logSearch); downloadForm := f;
     downloadDialogVisible := b; eventSource := s.(eventSource); streams := s.(streams); term := s.(term);
     followBottom := s.(followBottom); rows := s.(rows); atBottom := s.(atBottom); received := s.(received); effects := s.(effects); tasks := s.(tasks); fresh := s.(fresh) |}.
Definition with_streams (e : option nat) (m : gmap nat jsstr) (n : nat) (s : Viewer) : Viewer :=
  {| props := s.(props); mounted := s.(mounted); currentNode := s.(currentNode); logSearch := s.(logSearch); downloadForm := s.(downloadForm);
     downloadDialogVisible := s.(downloadDialogVisible); eventSource := e; streams := m; term := s.(term);
     followBottom := s.(followBottom); rows := s.(rows); atBottom := s.(atBottom); received := s.(received); effects := s.(effects); tasks := s.(tasks); fresh := n |}.
Definition with_term (t : option (list jsstr)) (follow bottom : bool) (s : Viewer) : Viewer :=
  {| props := s.(props); mounted := s.(mounted); currentNode := s.(currentNode); logSearch := s.(logSearch); downloadForm := s.(downloadForm);
     downloadDialogVisible := s.(downloadDialogVisible); eventSource := s.(eventSource); streams := s.(streams); term := t;
     followBottom := follow; rows := s.(rows); atBottom := bottom; received := s.(received); effects := s.(effects); tasks := s.(tasks); fresh := s.(fresh) |}.
Definition with_tasks (t : gmap nat Task) (n : nat) (s : Viewer) : Viewer :=
  {| props := s.(props); mounted := s.(mounted); currentNode := s.(currentNode); logSearch := s.(logSearch); downloadForm := s.(downloadForm);
     downloadDialogVisible := s.(downloadDialogVisible); eventSource := s.(eventSource); streams := s.(streams); term := s.(term);
     followBottom := s.(followBottom); rows := s.(rows); atBottom := s.(atBottom); received := s.(received); effects := s.(effects); tasks := t; fresh := n |}.
Definition with_place (m : bool) (n : jsstr) (s : Viewer) : Viewer :=
  {| props := s.(props); mounted := m; currentNode := n; logSearch := s.(logSearch); downloadForm := s.(downloadForm);
     downloadDialogVisible := s.(downloadDialogVisible); eventSource := s.(eventSource); streams := s.(streams); term := s.(term);
     followBottom := s.(followBottom); rows := s.(rows); atBottom := s.(atBottom); received := s.(received); effects := s.(effects); tasks := s.(tasks); fresh := s.(fresh) |}.
Definition with_rows (n : nat) (s : Viewer) : Viewer :=
  {| props := s.(props); mounted := s.(mounted); currentNode := s.(currentNode); logSearch := s.(logSearch); downloadForm := s.(downloadForm);
     downloadDialogVisible := s.(downloadDialogVisible); eventSource := s.(eventSource); streams := s.(streams); term := s.(term);
     followBottom := s.(followBottom); rows := n; atBottom := s.(atBottom); received := s.(received); effects := s.(effects); tasks := s.(tasks); fresh := s.(fresh) |}.
Definition deliver (j : nat) (d : jsstr) (s : Viewer) : Viewer :=
  {| props := s.(props); mounted := s.(mounted); currentNode := s.(currentNode); logSearch := s.(logSearch); downloadForm := s.(downloadForm);
     downloadDialogVisible := s.(downloadDialogVisible); eventSource := s.(eventSource); streams := s.(streams); term := s.(term);
     followBottom := s.(followBottom); rows := s.(rows); atBottom := s.(atBottom); received := s.(received) ++ [(j, d)]; effects := s.(effects); tasks := s.(tasks);
     fresh := s.(fresh) |}.
Definition emit (e : Effect) (s : Viewer) : Viewer :=
  {| props := s.(props); mounted := s.(mounted); currentNode := s.(currentNode); logSearch := s.(logSearch); downloadForm := s.(downloadForm);
     downloadDialogVisible := s.(downloadDialogVisible); eventSource := s.(eventSource); streams := s.(streams); term := s.(term);
     followBottom := s.(followBottom); rows := s.(rows); atBottom := s.(atBottom); received := s.(received); effects := s.(effects) ++ [e]; tasks := s.(tasks);
     fresh := s.(fresh) |}.
Definition await (t : Task) (s : Viewer) : Viewer := with_tasks (<[s.(fresh) := t]> s.(tasks)) (S s.(fresh)) s.

(** ** Operations *)

Definition stopListening (s : Viewer) : Viewer :=
  match s.(eventSource) with
  | Some j => with_streams None (delete j s.(streams)) s.(fresh) s
  | None => s
  end.

Definition clearTerminal (s : Viewer) : Viewer := with_term ((fun _ => []) <$> s.(term)) true s.(atBottom) s.

(** What the buffer of a terminal of [n] rows keeps of the lines. *)
Definition kept (n : nat) (l : list jsstr) : list jsstr := drop (length l - (MAX_VIEW_LINES + n)) l.

Definition writeLogLine (d : jsstr) (s : Viewer) : Viewer :=
  match s.(term) with
  | Some l => with_term (Some (kept s.(rows) (l ++ [d]))) s.(followBottom) (s.(followBottom) || s.(atBottom)) s
  | None => s
  end.

Definition showEventSourceAuthError (m : jsstr) (s : Viewer) : Viewer := writeLogLine m (emit (Error m) s).

(** fitAddon.fit, which finds that [n] rows fit. *)
Definition fit (n : nat) (s : Viewer) : Viewer := with_rows n (with_term (kept n <$> s.(term)) s.(followBottom) s.(atBottom) s).

Definition initTerminal (n : nat) (s : Viewer) : Viewer :=
  match s.(term) with None => fit n (with_term (Some []) s.(followBottom) true s) | Some _ => s end.

Definition node_of (s : Viewer) : jsstr := if truthy s.(props).(p_node) then s.(props).(p_node) else s.(currentNode).

Definition bool_text (b : bool) : jsstr := if b then js "true" else js "false".
Definition log_url (s : Viewer) : jsstr :=
  let l := s.(logSearch) in
  js "/api/v2/containers/search/log?" ++
    (if l.(compose) === [] then js "container=" ++ l.(container) else js "compose=" ++ l.(compose)) ++
    js "&since=" ++ l.(mode) ++ js "&tail=" ++ decZ l.(tail) ++ js "&follow=" ++ bool_text l.(isWatch) ++
    js "&timestamp=" ++ bool_text l.(isShowTimestamp) ++ js "&operateNode=" ++ node_of s.

(** searchLogs up to its await. *)
Definition searchLogs (s : Viewer) : Viewer :=
  if (s.(logSearch).(tail) <? 0)%Z then emit (Error (js "container.linesHelper")) s
  else
    let s := clearTerminal (stopListening s) in
    await (AwaitAuth (log_url s)) s.

(** The rest of searchLogs, with what the probe has answered. *)
Definition auth_answer (url authError : jsstr) (s : Viewer) : Viewer :=
  if truthy authError then showEventSourceAuthError authError s
  else with_streams (Some s.(fresh)) (<[s.(fresh) := url]> s.(streams)) (S s.(fresh)) s.

(** The handlers of a stream, which act on whatever is the current one. *)
Definition onmessage (j : nat) (d : jsstr) (s : Viewer) : Viewer := writeLogLine d (deliver j d s).
Definition onerror (d : option jsstr) (s : Viewer) : Viewer :=
  let s := stopListening s in
  match d with Some (c :: m) => emit (Error (c :: m)) s | _ => s end.

Definition openDownloadDialog (s : Viewer) : Viewer :=
  with_dialog true {| d_mode := s.(logSearch).(mode); d_tail := Some s.(logSearch).(tail) |} s.

(** [now] is the date as dateFormatForName writes it. *)
Definition onDownload (now : jsstr) (s : Viewer) : Viewer :=
  match s.(downloadForm).(d_tail) with
  | None => emit (Error (js "container.linesHelper")) s
  | Some n =>
      if (n <? 0)%Z then emit (Error (js "container.linesHelper")) s
      else
        let l := s.(logSearch) in
        let alone := l.(compose) === [] in
        let c := if alone then l.(container) else l.(compose) in
        let named := if truthy s.(props).(p_resource) then s.(props).(p_resource) else c in
        let s := emit (Downloading {| dp_container := c; dp_since := s.(downloadForm).(d_mode); dp_tail := n;
                   dp_timestamp := l.(isShowTimestamp); dp_type := if alone then js "container" else js "compose" |}) s in
        with_dialog false s.(downloadForm) (await (AwaitDownload (named ++ js "-" ++ now ++ js ".log")) s)
  end.

Definition onClean (s : Viewer) : Viewer := await AwaitConfirm s.
Definition confirm_answer (yes : bool) (s : Viewer) : Viewer :=
  if negb yes then s
  else
    let l := s.(logSearch) in
    if l.(compose) === [] then await AwaitCleanContainer (emit (CleaningContainer l.(container) (node_of s)) s)
    else await AwaitCleanCompose (emit (Cleaning l.(resource) l.(compose) (node_of s)) (emit (EmitLoading true) s)).

Definition cleaned_compose (ok : bool) (s : Viewer) : Viewer :=
  let s := if ok then emit (Done (js "commons.msg.operationSuccess")) (searchLogs (emit (EmitLoading false) s)) else s in
  emit (EmitLoading false) s.
Definition cleaned_container (ok : bool) (s : Viewer) : Viewer :=
  if ok then emit (Done (js "commons.msg.operationSuccess")) (searchLogs s) else s.

(** onMounted before its nextTick; [node] is the current node. *)
Definition onMounted (p : Props) (node : jsstr) : Viewer :=
  {| props := p; mounted := true; currentNode := node;
     logSearch := {| isWatch := true; isShowTimestamp := p.(p_timestamp); container := p.(p_container); mode := js "all"; tail := 100;
                     compose := p.(p_compose); resource := p.(p_resource) |};
     downloadForm := {| d_mode := js "all"; d_tail := Some 0%Z |}; downloadDialogVisible := false; eventSource := None; streams := ∅;
     term := None; followBottom := true; rows := 24; atBottom := true; received := []; effects := []; tasks := ∅; fresh := 0 |}.

Definition onUnmounted (s : Viewer) : Viewer :=
  with_place false s.(currentNode) (with_term None s.(followBottom) s.(atBottom) (stopListening s)).

(** ** Events *)

Inductive Event :=
| NextTick (rows : nat)                      (* of onMounted *)
| Resized (rows : nat)                       (* the resize observer *)
| SetMode (m : jsstr) | SetTail (n : Z) | SetWatch (b : bool) | SetTimestamp (b : bool)
| Authed (i : nat) (authError : jsstr)
| Message (j : nat) (d : jsstr) | StreamError (j : nat) (d : option jsstr)
| Scrolled (bottom : bool)
| OpenDownload | SetDownload (f : DownloadForm) | CancelDownload | Download (now : jsstr) | Downloaded (i : nat) (ok : bool)
| Clean | Confirmed (i : nat) (yes : bool) | Cleaned (i : nat) (ok : bool)
| NodeChanged (node : jsstr) | Unmount.

Definition set_search (f : LogSearch -> LogSearch) (s : Viewer) : Viewer := searchLogs (with_search (f s.(logSearch)) s).

Definition over (i : nat) (s : Viewer) : Viewer := with_tasks (delete i s.(tasks)) s.(fresh) s.

Definition handle (e : Event) (s : Viewer) : Viewer :=
  match e with
  | NextTick n => searchLogs (initTerminal n s)
  | Resized n => if s.(mounted) then fit n s else s
  | SetMode m => set_search (fun l => {| isWatch := l.(isWatch); isShowTimestamp := l.(isShowTimestamp); container := l.(container); mode := m;
      tail := l.(tail); compose := l.(compose); resource := l.(resource) |}) s
  | SetTail n => set_search (fun l => {| isWatch := l.(isWatch); isShowTimestamp := l.(isShowTimestamp); container := l.(container); mode := l.(mode);
      tail := n; compose := l.(compose); resource := l.(resource) |}) s
  | SetWatch b => set_search (fun l => {| isWatch := b; isShowTimestamp := l.(isShowTimestamp); container := l.(container); mode := l.(mode);
      tail := l.(tail); compose := l.(compose); resource := l.(resource) |}) s
  | SetTimestamp b => set_search (fun l => {| isWatch := l.(isWatch); isShowTimestamp := b; container := l.(container); mode := l.(mode);
      tail := l.(tail); compose := l.(compose); resource := l.(resource) |}) s
  | Authed i e => match s.(tasks) !! i with Some (AwaitAuth u) => auth_answer u e (over i s) | _ => s end
  | Message j d => match s.(streams) !! j with Some _ => onmessage j d s | None => s end
  | StreamError j d => match s.(streams) !! j with Some _ => onerror d s | None => s end
  | Scrolled b => match s.(term) with Some _ => with_term s.(term) b b s | None => s end
  | OpenDownload => openDownloadDialog s
  | SetDownload f => with_dialog s.(downloadDialogVisible) f s
  | CancelDownload => with_dialog false s.(downloadForm) s
  | Download now => onDownload now s
  | Downloaded i ok =>
      match s.(tasks) !! i with
      | Some (AwaitDownload n) => if ok then emit (Saved n) (over i s) else over i s
      | _ => s
      end
  | Clean => onClean s
  | Confirmed i yes => match s.(tasks) !! i with Some AwaitConfirm => confirm_answer yes (over i s) | _ => s end
  | Cleaned i ok =>
      match s.(tasks) !! i with
      | Some AwaitCleanCompose => cleaned_compose ok (over i s)
      | Some AwaitCleanContainer => cleaned_container ok (over i s)
      | _ => s
      end
  | NodeChanged n => with_place s.(mounted) n s
  | Unmount => onUnmounted s
  end.

Definition run (es : list Event) (s : Viewer) : Viewer := fold_left (fun s e => handle e s) es s.

(** ** One stream *)

Definition pending (s : Viewer) : Prop := exists i u, s.(tasks) !! i = Some (AwaitAuth u).

(** Events that begin a search. *)
Definition begins (e : Event) (s : Viewer) : bool :=
  match e with
  | NextTick _ | SetMode _ | SetTail _ | SetWatch _ | SetTimestamp _ => true
  | Cleaned i ok => ok && match s.(tasks) !! i with Some AwaitCleanCompose | Some AwaitCleanContainer => true | _ => false end
  | _ => false
  end.

Definition is_tick (e : Event) : bool := match e with NextTick _ => true | _ => false end.

(** A search begins while the viewer is mounted and has its terminal, and after the check of the
    one before was answered. *)
Definition calm (e : Event) (s : Viewer) : Prop :=
  begins e s = true -> ~ pending s /\ s.(mounted) = true /\ (is_tick e = true \/ s.(term) <> None).

Fixpoint calm_run (es : list Event) (s : Viewer) : Prop :=
  match es with [] => True | e :: es => calm e s /\ calm_run es (handle e s) end.

(** The viewer is not unmounted while a check is awaited. *)
Fixpoint settled_run (es : list Event) (s : Viewer) : Prop :=
  match es with [] => True | e :: es => (e = Unmount -> ~ pending s) /\ settled_run es (handle e s) end.

(** The lines that stream [j] has delivered. *)
Definition lines_of (j : nat) (l : list (nat * jsstr)) : list jsstr := omap (fun x => if decide (x.1 = j) then Some x.2 else None) l.

(** A terminal that shows the lines [all], or of so many the last ones. *)
Definition shows (l all : list jsstr) : Prop := exists k, l = drop k all /\ (k = 0 \/ MAX_VIEW_LINES <= length l).

Lemma lines_positive : 0 < MAX_VIEW_LINES.
Proof. unfold MAX_VIEW_LINES. lia. Qed.
#[local] Opaque MAX_VIEW_LINES.

Lemma kept_shows n l all : shows l all -> shows (kept n l) all.
Proof.
  intros (k & -> & Hk). unfold kept. destruct (decide (length (drop k all) <= MAX_VIEW_LINES + n)).
  - exists k. replace (length (drop k all) - (MAX_VIEW_LINES + n)) with 0 by lia. done.
  - exists (k + (length (drop k all) - (MAX_VIEW_LINES + n))). rewrite drop_drop. split; [done|]. right. rewrite <- drop_drop, length_drop. lia.
Qed.

Lemma shows_snoc l all d : shows l all -> shows (l ++ [d]) (all ++ [d]).
Proof.
  intros (k & -> & Hk). exists k. rewrite length_app. split; [|destruct Hk; [by left|right; lia]].
  rewrite drop_app_le; [done|]. destruct Hk as [->|Hk]; [lia|]. rewrite length_drop in Hk. pose proof lines_positive. lia.
Qed.

Record viewer_ok (s : Viewer) : Prop := {
  vo_streams : dom s.(streams) = match s.(eventSource) with Some j => {[j]} | None => ∅ end;
  vo_single : forall i j u v, s.(tasks) !! i = Some (AwaitAuth u) -> s.(tasks) !! j = Some (AwaitAuth v) -> i = j;
  vo_pending : pending s -> s.(eventSource) = None /\ (s.(mounted) = true -> s.(term) = Some []);
  vo_fresh : (forall j, s.(eventSource) = Some j -> j < s.(fresh)) /\ (forall x, x ∈ s.(received) -> x.1 < s.(fresh)) /\
    forall i t, s.(tasks) !! i = Some t -> i < s.(fresh);
  vo_lines : forall j, s.(eventSource) = Some j -> s.(mounted) = true -> exists l, s.(term) = Some l /\ shows l (lines_of j s.(received));
  vo_gone : s.(mounted) = false -> s.(term) = None
}.

(** What an event leaves alone, but for tasks that are no probes. *)
Record same_view (s s' : Viewer) : Prop := {
  sv_source : s'.(eventSource) = s.(eventSource);
  sv_streams : s'.(streams) = s.(streams);
  sv_term : s'.(term) = s.(term);
  sv_received : s'.(received) = s.(received);
  sv_mounted : s'.(mounted) = s.(mounted);
  sv_fresh : s.(fresh) <= s'.(fresh);
  sv_auth : forall i u, s'.(tasks) !! i = Some (AwaitAuth u) -> s.(tasks) !! i = Some (AwaitAuth u);
  sv_tasks : (forall i t, s.(tasks) !! i = Some t -> i < s.(fresh)) -> forall i t, s'.(tasks) !! i = Some t -> i < s'.(fresh)
}.
Ltac same_vw := constructor; try reflexivity; try done; cbn; lia.

Lemma same_view_ok s s' : same_view s s' -> viewer_ok s -> viewer_ok s'.
Proof.
  intros [E1 E2 E3 E4 E5 E6 E7 E8] [H1 H2 H3 (H5 & H6 & H7) H8 H9].
  assert (Hp : pending s' -> pending s) by (intros (i & u & Hi); exists i, u; auto).
  split; rewrite ?E1, ?E2, ?E3, ?E4, ?E5; auto.
  - intros i j u v Hi Hj. by eapply H2; apply E7.
  - split; [intros j Hj; specialize (H5 j Hj); lia|]. split; [intros x Hx; specialize (H6 x Hx); lia|exact (E8 H7)].
Qed.

Lemma await_same t s : match t with AwaitAuth _ => False | _ => True end -> same_view s (await t s).
Proof.
  intros Ht. constructor; try reflexivity; cbn; [lia| |].
  - intros i u. rewrite lookup_insert_Some. intros [[_ ->]|[_ Hi]]; done.
  - intros H i t'. rewrite lookup_insert_Some. intros [[<- _]|[_ Hi]]; [lia|]. specialize (H i t' Hi). lia.
Qed.

Lemma over_same i s : same_view s (over i s).
Proof.
  constructor; try reflexivity; cbn; [intros j u|intros H j t]; rewrite lookup_delete_Some; intros [_ Hj]; [done|by eapply H].
Qed.

Lemma same_view_trans s1 s2 s3 : same_view s1 s2 -> same_view s2 s3 -> same_view s1 s3.
Proof.
  intros [? ? ? ? ? ? A1 T1] [? ? ? ? ? ? A2 T2]. constructor; try congruence; [lia|by intros i u ?%A2%A1|intros H; exact (T2 (T1 H))].
Qed.

Lemma stop_ok s : viewer_ok s -> viewer_ok (stopListening s) /\ eventSource (stopListening s) = None /\ streams (stopListening s) = ∅ /\
  term (stopListening s) = term s /\ tasks (stopListening s) = tasks s /\ mounted (stopListening s) = mounted s /\ fresh (stopListening s) = fresh s /\
  received (stopListening s) = received s.
Proof.
  intros [H1 H2 H3 (H5 & H6 & H7) H8 H9]. unfold stopListening. destruct (eventSource s) as [j|] eqn:Ej.
  - assert (E : delete j (streams s) = ∅).
    { apply dom_empty_inv_L. rewrite dom_delete_L, H1. set_solver. }
    split; [|by cbn; rewrite E]. split; cbn; rewrite ?E, ?dom_empty_L; try done. intros Hp. destruct (H3 Hp). congruence.
  - split; [by split; auto; rewrite Ej|]. split; [done|]. split; [|done]. apply dom_empty_inv_L. by rewrite H1.
Qed.

Lemma searchLogs_ok s : viewer_ok s -> ~ pending s -> s.(mounted) = true -> s.(term) <> None -> viewer_ok (searchLogs s).
Proof.
  intros Hs Hp Hm Ht. unfold searchLogs. destruct (_ <? _)%Z; [by apply (same_view_ok s); [same_vw|]|]. cbv zeta.
  destruct (stop_ok s Hs) as ([H1 H2 H3 (H5 & H6 & H7) H8 H9] & E1 & E2 & E3 & E4 & E5 & E6 & E7).
  set (x := stopListening s) in *. assert (Hx : term x <> None) by (by rewrite E3).
  assert (Hn : forall i u, tasks x !! i <> Some (AwaitAuth u)) by (intros i u Hi; rewrite E4 in Hi; apply Hp; by exists i, u).
  set (u0 := log_url _). clearbody u0. split; cbn.
  - by rewrite E1, E2, dom_empty_L.
  - intros i j u v. rewrite !lookup_insert_Some. intros [[<- _]|[_ Hi]] [[<- _]|[_ Hj]]; [done|by destruct (Hn j v)|by destruct (Hn i u)|by destruct (Hn i u)].
  - intros _. split; [done|]. intros _. by destruct (term x).
  - split; [intros j; by rewrite E1|]. split; [intros y Hy; specialize (H6 y Hy); lia|]. intros i t. rewrite lookup_insert_Some.
    intros [[<- _]|[_ Hi]]; [lia|]. specialize (H7 i t Hi). lia.
  - intros j. by rewrite E1.
  - by rewrite E5, Hm.
Qed.

Lemma pending_over i s : viewer_ok s -> (exists u, s.(tasks) !! i = Some (AwaitAuth u)) -> ~ pending (over i s).
Proof.
  intros Hs [u Hi] (j & v & Hj). cbn in Hj. apply lookup_delete_Some in Hj as [Hn Hj]. apply Hn. by eapply (vo_single s Hs).
Qed.

Lemma no_lines j (l : list (nat * jsstr)) : (forall x, x ∈ l -> x.1 < j) -> lines_of j l = [].
Proof.
  induction l as [|x l IH]; [done|]. intros Hx. unfold lines_of. cbn. rewrite decide_False by (specialize (Hx x ltac:(left)); lia).
  apply IH. intros y Hy. apply Hx. by right.
Qed.

Lemma auth_ok u e s : viewer_ok s -> ~ pending s -> s.(eventSource) = None -> (s.(mounted) = true -> s.(term) = Some []) ->
  viewer_ok (auth_answer u e s).
Proof.
  intros Hs Hp He Ht. unfold auth_answer. destruct Hs as [H1 H2 H3 (H5 & H6 & H7) H8 H9]. destruct (truthy e).
  - unfold showEventSourceAuthError, writeLogLine. cbn [emit term].
    destruct (term s) as [l|] eqn:El; split; cbn; try done; rewrite ?El; try done; try (intros Hp'; destruct (Hp Hp')); try (intros Hm'; by specialize (H9 Hm')); try (intros j Hj; congruence).
  - rewrite He in H1. split; cbn; try done.
    + rewrite dom_insert_L, H1. set_solver.
    + split; [intros j [= <-]; lia|]. split; [intros x Hx; specialize (H6 x Hx); lia|]. intros i t Hi. specialize (H7 i t Hi). lia.
    + intros j [= <-] Hm. exists []. split; [by apply Ht|]. change (shows [] (lines_of (fresh s) (received s))). rewrite no_lines by done. exists 0. split; [done|by left].
Qed.

Lemma message_ok j d s : viewer_ok s -> is_Some (s.(streams) !! j) -> viewer_ok (onmessage j d s).
Proof.
  intros [H1 H2 H3 (H5 & H6 & H7) H8 H9] Hj. assert (Ej : eventSource s = Some j).
  { apply elem_of_dom in Hj. rewrite H1 in Hj. destruct (eventSource s); [set_solver|set_solver]. }
  assert (Hfresh : forall x, x ∈ s.(received) ++ [(j, d)] -> x.1 < s.(fresh)).
  { intros x [Hx|Hx]%elem_of_app; [by apply H6|]. apply list_elem_of_singleton in Hx as ->. cbn. by apply H5. }
  unfold onmessage, writeLogLine. cbn [deliver term]. destruct (term s) as [l|] eqn:El; split; cbn; try done; rewrite ?El; try done.
  - by intros [? _]%H3; congruence.
  - intros j' Ej' Hm. assert (j' = j) as -> by congruence. destruct (H8 j Ej Hm) as (l' & [= <-] & Hl).
    eexists. split; [done|]. apply kept_shows. unfold lines_of. rewrite omap_app. cbn. rewrite decide_True by done. by apply shows_snoc.
  - intros Hm. by specialize (H9 Hm).
  - intros j' Ej' Hm. destruct (H8 j' Ej' Hm) as (l' & ? & _). congruence.
Qed.

Lemma fit_ok n s : viewer_ok s -> viewer_ok (fit n s).
Proof.
  intros [H1 H2 H3 H5 H8 H9]. split; cbn; try done.
  - intros [E Hp]%H3. split; [done|]. intros Hm. by rewrite (Hp Hm).
  - intros j Hj Hm. destruct (H8 j Hj Hm) as (l & -> & Hl). eexists. split; [done|]. by apply kept_shows.
  - intros Hm. by rewrite (H9 Hm).
Qed.

Lemma cleaned_ok (f : Viewer -> Viewer) i s : viewer_ok s -> ~ pending s -> s.(mounted) = true -> s.(term) <> None ->
  (forall x, same_view x (f x)) -> viewer_ok (f (searchLogs (over i s))).
Proof.
  intros Hs Hp Hm Ht Hf. apply (same_view_ok (searchLogs (over i s))); [apply Hf|]. apply searchLogs_ok; try done.
  - apply (same_view_ok s); [apply over_same|done].
  - intros (j & u & Hj). apply Hp. exists j, u. by apply (sv_auth _ _ (over_same i s)).
Qed.

Lemma log_emit_same e s : same_view s (emit e s).
Proof. same_vw. Qed.

Lemma sv_emit e s x : same_view s x -> same_view s (emit e x).
Proof. intros H. eapply same_view_trans; [exact H|apply log_emit_same]. Qed.

Lemma sv_await t s x : match t with AwaitAuth _ => False | _ => True end -> same_view s x -> same_view s (await t x).
Proof. intros Ht H. eapply same_view_trans; [exact H|by apply await_same]. Qed.

(** The events that touch neither streams nor checks nor the terminal. *)
Lemma handle_same e s : begins e s = false ->
  match e with Authed _ _ | Message _ _ | StreamError _ _ | Resized _ | Unmount => False | _ => True end -> same_view s (handle e s).
Proof.
  intros Hb He. destruct e; cbn [handle begins] in *; try done; try same_vw.
  - destruct (term s) eqn:Et; constructor; try reflexivity; try done.
  - unfold onDownload. destruct (d_tail (downloadForm s)) as [n|]; [|apply log_emit_same].
    destruct (n <? 0)%Z; [apply log_emit_same|]. cbv zeta.
    match goal with |- same_view s (with_dialog _ _ ?x) => apply (same_view_trans s x); [|same_vw] end. apply sv_await; [done|apply log_emit_same].
  - destruct (tasks s !! i) as [[u| | | |n]|]; try same_vw. destruct ok; [apply sv_emit|]; apply over_same.
  - by apply await_same.
  - destruct (tasks s !! i) as [[u| | | |n]|]; try same_vw. unfold confirm_answer. destruct (negb yes); [apply over_same|]. cbv zeta.
    destruct (_ === _); apply sv_await; try done; repeat apply sv_emit; apply over_same.
  - destruct (tasks s !! i) as [[u| | | |n]|]; try same_vw; destruct ok; try done; [apply sv_emit|]; apply over_same.
Qed.

Lemma handle_viewer_ok e s : calm e s -> viewer_ok s -> viewer_ok (handle e s).
Proof.
  intros Hc Hs. unfold calm in Hc. destruct (begins e s) eqn:Hb.
  - destruct (Hc eq_refl) as (Hp & Hm & Ht). clear Hc. destruct e; try done; cbn [handle begins is_tick] in *;
      try (destruct Ht as [?|Ht]; [done|]; apply searchLogs_ok; try done; apply (same_view_ok s); [same_vw|done]).
    + unfold initTerminal. destruct (term s) eqn:Et; [by apply searchLogs_ok; rewrite ?Et|].
      apply searchLogs_ok; [|done..]. apply fit_ok. destruct Hs as [H1 H2 H3 H5 H8 H9]. split; cbn; try done.
      * intros j Hj. destruct (H8 j Hj Hm) as (l & ? & _). congruence.
      * by rewrite Hm.
    + destruct Ht as [?|Ht]; [done|]. destruct (tasks s !! i) as [[u| | | |n]|]; try done; destruct ok; try done.
      * unfold cleaned_compose. cbv zeta. apply (same_view_ok (searchLogs (emit (EmitLoading false) (over i s)))); [by apply sv_emit, log_emit_same|].
        apply searchLogs_ok; try done; [by apply (same_view_ok s); [apply sv_emit, over_same|]|].
        intros (j & u & Hj). apply Hp. exists j, u. by apply (sv_auth _ _ (over_same i s)).
      * by apply (cleaned_ok (emit _)).
  - destruct e; try (apply (same_view_ok s); [by apply handle_same|done]); cbn [handle].
    + destruct (mounted s); [|done]. by apply fit_ok.
    + destruct (tasks s !! i) as [[u| | | |n]|] eqn:Et; try done. destruct (vo_pending s Hs) as (E1 & E2); [by exists i, u|].
      apply auth_ok; try done; [by apply (same_view_ok s); [apply over_same|]|]. apply pending_over; [done|by exists u].
    + destruct (streams s !! j) eqn:Ej; [|done]. apply message_ok; [done|by eexists].
    + destruct (streams s !! j); [|done]. destruct (stop_ok s Hs) as [H _]. unfold onerror. cbv zeta.
      destruct d as [[|c m]|]; try done. by apply (same_view_ok (stopListening s)); [same_vw|].
    + destruct (stop_ok s Hs) as ([H1 H2 H3 (H5 & H6 & H7) H8 H9] & E1 & E2 & E3 & E4 & E5 & E6 & E7).
      unfold onUnmounted. split; cbn; try done; intros j; by rewrite E1.
Qed.

Lemma mounted_ok p node : viewer_ok (onMounted p node).
Proof.
  split; cbn; try done; [intros (i & u & Hi); done|]. split; [done|]. split; [|done]. intros x Hx. by apply not_elem_of_nil in Hx.
Qed.

(** A viewer that is unmounted while no check is awaited. *)
Definition at_rest (s : Viewer) : Prop := s.(mounted) = false -> s.(streams) = ∅ /\ ~ pending s.

Lemma handle_at_rest e s : calm e s -> (e = Unmount -> ~ pending s) -> viewer_ok s -> at_rest s -> at_rest (handle e s).
Proof.
  intros Hc Hu Hs Hr. destruct (begins e s) eqn:Hb.
  - destruct (Hc Hb) as (_ & Hm & _). intros Hm'. exfalso. assert (Hk : mounted (handle e s) = mounted s); [|congruence].
    clear -Hb. destruct e; try done; cbn [handle begins] in *.
    1-5: unfold set_search, searchLogs, initTerminal, stopListening; cbn; repeat (case_match; cbn); done.
    destruct (tasks s !! i) as [[]|]; try done; destruct ok; try done; unfold cleaned_compose, cleaned_container, searchLogs, stopListening; cbn; repeat (case_match; cbn); done.
  - destruct e; try (match goal with |- at_rest ?x => assert (Hsv : same_view s x) by by apply handle_same end;
      intros Hm; rewrite (sv_mounted _ _ Hsv) in Hm; destruct (Hr Hm) as [H1 H2]; split; [by rewrite (sv_streams _ _ Hsv)|];
      intros (i0 & u & Hi); apply H2; exists i0, u; by apply (sv_auth _ _ Hsv)).
    + cbn [handle]. destruct (mounted s) eqn:E; [|done]. intros Hm. cbn in Hm. congruence.
    + intros Hm. cbn [handle] in *. destruct (tasks s !! i) as [[u| | | |n]|] eqn:Et; try by apply Hr.
      exfalso. assert (E : mounted s = false) by (revert Hm; unfold auth_answer, showEventSourceAuthError, writeLogLine; repeat (case_match; cbn); done).
      destruct (Hr E) as [_ H]. apply H. by exists i, u.
    + intros Hm. cbn [handle] in *. destruct (streams s !! j) eqn:Ej; [|by apply Hr].
      assert (E : mounted s = false) by (revert Hm; unfold onmessage, writeLogLine; cbn; case_match; done). destruct (Hr E) as [H _]. by rewrite H, lookup_empty in Ej.
    + intros Hm. cbn [handle] in *. destruct (streams s !! j) eqn:Ej; [|by apply Hr].
      assert (E : mounted s = false) by (revert Hm; unfold onerror, stopListening; cbn; repeat (case_match; cbn); done). destruct (Hr E) as [H _]. by rewrite H, lookup_empty in Ej.
    + intros _. destruct (stop_ok s Hs) as (_ & _ & E2 & _ & E4 & _). cbn. split; [exact E2|]. intros (i & u & Hi). cbn in Hi. rewrite E4 in Hi.
      apply (Hu eq_refl). by exists i, u.
Qed.


(** ** Examples *)

Definition sample_props : Props :=
  {| p_container := js "web"; p_compose := []; p_resource := []; p_node := []; p_timestamp := false |}.

Example sample_url : (run [NextTick 30; Authed 0 []] (onMounted sample_props (js "local"))).(streams) =
  {[ 1 := js "/api/v2/containers/search/log?container=web&since=all&tail=100&follow=true&timestamp=false&operateNode=local" ]}.
Proof. vm_compute. reflexivity. Qed.

Definition calm_events : list Event :=
  [NextTick 30; Authed 0 []; Message 1 (js "a"); SetMode (js "1h"); Authed 2 []; Message 3 (js "b"); Resized 20].


(** The mode is changed twice before the first probe is answered: the first of the two streams
    is never closed, and its lines are written between those of the second, also after the
    viewer is unmounted. *)
Lemma overlapping_searches_leak :
  let s := run [NextTick 30; Authed 0 []; SetMode (js "1h"); SetMode (js "4h"); Authed 2 []; Authed 3 []] (onMounted sample_props (js "local")) in
  s.(eventSource) = Some 5 /\ dom s.(streams) = {[4; 5]} /\
  (run [Message 4 (js "x"); Message 5 (js "y")] s).(term) = Some [js "x"; js "y"] /\
  dom (run [Unmount] s).(streams) = {[4]}.
Proof. vm_compute. auto. Qed.

(** The viewer is unmounted while the probe is awaited: the stream is opened for good. *)
Lemma unmounted_stream_leaks :
  let s := run [NextTick 30; Unmount; Authed 0 []] (onMounted sample_props (js "local")) in
  s.(mounted) = false /\ dom s.(streams) = {[1]}.
Proof. vm_compute. auto. Qed.
