(* ===== verification/DropWalk.v ===== *)
(** * The walk through what is dropped on the upload drawer

    handleDrop and traverseFileTree of src/frontend/src/views/host/file-management/upload/index.vue.
    The items that are dropped are walked at the same time, each in order; a directory is read
    in batches, whose sizes are the browser's, until a batch is empty.  A walker is suspended
    at a file or at a batch.  The files collected and the flag that the limit was passed are
    shared by all walkers, also by those of another drop. *)

From S2P Require Import Prelude JsString.

#[local] Open Scope list_scope.

(** ** Data *)

(** A file has an identity; an item that is no entry is [None] below. *)
Inductive FsEntry := FsFile (name : jsstr) (id : N) | FsDir (name : jsstr) (children : list FsEntry).

(** An UploadFile that is ready. *)
Record Dropped := { f_name : jsstr; f_id : N }.

(** A directory that is being read: the path of its entries, what is left of the batch, and
    what the reader has not given yet. *)
Record Frame := { path : jsstr; batch : list FsEntry; unread : list FsEntry }.

Variant Await := AwaitFile (f : Dropped) | AwaitRead.

(** The directories around the await, the innermost first; a batch is awaited in the first. *)
Record Walker := { w_await : Await; w_stack : list Frame }.

(** tmpFiles and breakFlag. *)
Record Temp := { tmpFiles : list Dropped; breakFlag : bool }.

Record Drops := {
  temp : Temp; uploaderFiles : list Dropped; overLimit : nat;
  walks : gmap nat (list (option Walker));   (* the drops that are walked; [None] is a walker that is done *)
  fresh : nat
}.

Definition LIMIT : nat := 1000.

Definition initTempFiles : Temp := {| tmpFiles := []; breakFlag := false |}.

Definition convertFileToUploadFile (name : jsstr) (id : N) (p : jsstr) : Dropped := {| f_name := p ++ name; f_id := id |}.

(** ** The walk *)

(** traverseFileTree up to its await.  When the limit is passed every call around it returns. *)
Definition traverseFileTree (item : FsEntry) (p : jsstr) (stack : list Frame) (t : Temp) : Temp * option Walker :=
  match item with
  | FsFile name id =>
      if LIMIT <? length t.(tmpFiles) then ({| tmpFiles := t.(tmpFiles); breakFlag := true |}, None)
      else (t, Some {| w_await := AwaitFile (convertFileToUploadFile name id p); w_stack := stack |})
  | FsDir name children =>
      (t, Some {| w_await := AwaitRead; w_stack := {| path := p ++ name ++ js "/"; batch := []; unread := children |} :: stack |})
  end.

(** After an entry of the batch: the next one, or the next batch. *)
Definition next_element (stack : list Frame) (t : Temp) : Temp * option Walker :=
  match stack with
  | [] => (t, None)
  | f :: rest =>
      if t.(breakFlag) then (t, None)
      else match f.(batch) with
           | x :: b => traverseFileTree x f.(path) ({| path := f.(path); batch := b; unread := f.(unread) |} :: rest) t
           | [] => (t, Some {| w_await := AwaitRead; w_stack := stack |})
           end
  end.

(** The file, or a batch of at most [n] and one entries, is there. *)
Definition answer (n : nat) (w : Walker) (t : Temp) : Temp * option Walker :=
  match w.(w_await), w.(w_stack) with
  | AwaitFile f, stack =>
      next_element stack (if t.(breakFlag) then t else {| tmpFiles := t.(tmpFiles) ++ [f]; breakFlag := t.(breakFlag) |})
  | AwaitRead, f :: rest =>
      match take (S n) f.(unread) with
      | [] => next_element rest t
      | x :: b => traverseFileTree x f.(path) ({| path := f.(path); batch := b; unread := drop (S n) f.(unread) |} :: rest) t
      end
  | AwaitRead, [] => (t, None)
  end.

(** The walkers of a drop up to their first awaits. *)
Fixpoint start (items : list (option FsEntry)) (t : Temp) : Temp * list (option Walker) :=
  match items with
  | [] => (t, [])
  | None :: items => let '(t, ws) := start items t in (t, None :: ws)
  | Some e :: items =>
      let '(t, w) := traverseFileTree e [] [] t in
      let '(t, ws) := start items t in (t, w :: ws)
  end.

(** ** The drop *)

Definition is_done (w : option Walker) : bool := match w with None => true | Some _ => false end.

(** The end of handleDrop. *)
Definition finish (s : Drops) : Drops :=
  {| temp := initTempFiles;
     uploaderFiles := if s.(temp).(breakFlag) then s.(uploaderFiles) else s.(uploaderFiles) ++ s.(temp).(tmpFiles);
     overLimit := if s.(temp).(breakFlag) then S s.(overLimit) else s.(overLimit); walks := s.(walks); fresh := s.(fresh) |}.

(** The walkers of drop [d] are where they are now; when all are done the drop ends. *)
Definition settle (d : nat) (t : Temp) (ws : list (option Walker)) (s : Drops) : Drops :=
  let s' := {| temp := t; uploaderFiles := s.(uploaderFiles); overLimit := s.(overLimit);
               walks := if forallb is_done ws then delete d s.(walks) else <[d := ws]> s.(walks); fresh := s.(fresh) |} in
  if forallb is_done ws then finish s' else s'.

(** [locked] is whether an upload is going on; an event without a data transfer has no items. *)
Definition handleDrop (locked : bool) (items : option (list (option FsEntry))) (s : Drops) : Drops :=
  if locked then s
  else
    let d := s.(fresh) in
    let s := {| temp := initTempFiles; uploaderFiles := s.(uploaderFiles); overLimit := s.(overLimit);
                walks := s.(walks); fresh := S d |} in
    match items with
    | Some items => let '(t, ws) := start items s.(temp) in settle d t ws s
    | None => s
    end.

(** Walker [i] of drop [d] is answered. *)
Definition walk_on (d i n : nat) (s : Drops) : Drops :=
  match s.(walks) !! d with
  | Some ws =>
      match ws !! i with
      | Some (Some w) => let '(t, w') := answer n w s.(temp) in settle d t (<[i := w']> ws) s
      | _ => s
      end
  | None => s
  end.

Inductive Event := Drop (locked : bool) (items : option (list (option FsEntry))) | Answered (d i n : nat).

Definition handle (e : Event) (s : Drops) : Drops :=
  match e with
  | Drop locked items => handleDrop locked items s
  | Answered d i n => walk_on d i n s
  end.

Definition run (es : list Event) (s : Drops) : Drops := fold_left (fun s e => handle e s) es s.

Definition initial : Drops := {| temp := initTempFiles; uploaderFiles := []; overLimit := 0; walks := ∅; fresh := 0 |}.

(** ** What is to be found *)

(** The files of an entry in their order, with their paths. *)
Fixpoint files (p : jsstr) (e : FsEntry) : list Dropped :=
  match e with
  | FsFile name id => [{| f_name := p ++ name; f_id := id |}]
  | FsDir name children => flat_map (files (p ++ name ++ js "/")) children
  end.

Definition frame_files (f : Frame) : list Dropped := flat_map (files f.(path)) (f.(batch) ++ f.(unread)).
Definition stack_files (stack : list Frame) : list Dropped := flat_map frame_files stack.

(** What a walker has still to find. *)
Definition to_find (w : option Walker) : list Dropped :=
  match w with
  | Some {| w_await := AwaitFile f; w_stack := stack |} => f :: stack_files stack
  | Some {| w_await := AwaitRead; w_stack := stack |} => stack_files stack
  | None => []
  end.

(** A batch is awaited when the last one is used up. *)
Definition walker_ok (w : option Walker) : Prop :=
  match w with
  | Some {| w_await := AwaitRead; w_stack := f :: _ |} => f.(batch) = []
  | Some {| w_await := AwaitRead; w_stack := [] |} => False
  | _ => True
  end.

Lemma traverse_finds item p stack t : let '(t', w) := traverseFileTree item p stack t in
  walker_ok w /\ t'.(tmpFiles) = t.(tmpFiles) /\
  (t' = t /\ to_find w = files p item ++ stack_files stack \/ t'.(breakFlag) = true /\ w = None /\ LIMIT < length t.(tmpFiles)).
Proof.
  destruct item as [name id|name cs]; cbn [traverseFileTree].
  - destruct (Nat.ltb_spec LIMIT (length (tmpFiles t))); split; [done| |done|]; (split; [done|]); [by right|by left].
  - split; [done|]. split; [done|]. left. split; [done|]. cbn [to_find stack_files flat_map files]. done.
Qed.

Lemma frame_next p x b u : frame_files {| path := p; batch := x :: b; unread := u |} = files p x ++ frame_files {| path := p; batch := b; unread := u |}.
Proof. done. Qed.

Lemma next_finds stack t : t.(breakFlag) = false -> let '(t', w) := next_element stack t in
  walker_ok w /\ t'.(tmpFiles) = t.(tmpFiles) /\
  (t' = t /\ to_find w = stack_files stack \/ t'.(breakFlag) = true /\ w = None /\ LIMIT < length t.(tmpFiles)).
Proof.
  intros Hb. unfold next_element. destruct stack as [|f rest]; [by split; [|split; [|left]]|]. rewrite Hb.
  destruct f as [p [|x b] u]; cbn [batch path unread].
  - split; [done|]. split; [done|]. by left.
  - pose proof (traverse_finds x p ({| path := p; batch := b; unread := u |} :: rest) t) as H.
    destruct (traverseFileTree _ _ _ t) as [t' w]. destruct H as (H1 & H2 & [[H3 H4]|H3]); (split; [done|]; split; [done|]); [left|by right].
    split; [done|]. rewrite H4. cbn [stack_files flat_map]. by rewrite (frame_next p x b u), <- app_assoc.
Qed.

(** An answer adds at most one file, the next one of its walker. *)
Lemma answer_finds n w t : walker_ok (Some w) -> t.(breakFlag) = false -> let '(t', w') := answer n w t in
  walker_ok w' /\ exists new, t'.(tmpFiles) = t.(tmpFiles) ++ new /\
  (t'.(breakFlag) = false /\ to_find (Some w) = new ++ to_find w' \/
   t'.(breakFlag) = true /\ w' = None /\ LIMIT < length t'.(tmpFiles) /\ exists more, to_find (Some w) = new ++ more).
Proof.
  intros Hw Hb. destruct w as [[f|] stack]; unfold answer; cbn [w_await w_stack].
  - rewrite Hb. set (t1 := {| tmpFiles := t.(tmpFiles) ++ [f]; breakFlag := false |}).
    pose proof (next_finds stack t1 eq_refl) as H. destruct (next_element stack t1) as [t' w'].
    destruct H as (H1 & H2 & H3). split; [done|]. exists [f]. split; [done|]. cbn [to_find].
    destruct H3 as [[-> ->]|(H3 & H4 & H5)]; [by left|]. right. split; [done|]. split; [done|]. split; [by rewrite H2|]. by eexists.
  - destruct stack as [|[p b u] rest]; [done|]. cbn in Hw. subst b. cbn [unread path].
    destruct (take (S n) u) as [|x b] eqn:Eu.
    + pose proof (next_finds rest t Hb) as H. destruct (next_element rest t) as [t' w']. destruct H as (H1 & H2 & H3).
      split; [done|]. exists []. rewrite app_nil_r. split; [done|]. assert (u = []) as -> by by destruct u.
      destruct H3 as [[-> ->]|(H3 & H4 & H5)]; [by left|]. right. split; [done|]. split; [done|]. split; [by rewrite H2|]. by eexists.
    + pose proof (traverse_finds x p ({| path := p; batch := b; unread := drop (S n) u |} :: rest) t) as H.
      destruct (traverseFileTree _ _ _ t) as [t' w']. destruct H as (H1 & H2 & H3). split; [done|]. exists []. rewrite app_nil_r. split; [done|].
      destruct H3 as [[-> H3]|(H3 & H4 & H5)]; [left|right; split; [done|]; split; [done|]; split; [by rewrite H2|]; by eexists].
      split; [done|]. rewrite H3. cbn [app to_find stack_files flat_map]. rewrite app_assoc, <- frame_next. f_equal.
      unfold frame_files. cbn [path batch unread]. f_equal. cbn [app]. rewrite <- (take_drop (S n) u) at 1. by rewrite Eu.
Qed.

(** ** Its end *)

(** The answers that an entry, and a walker, may still take. *)
Fixpoint weight (e : FsEntry) : nat :=
  match e with
  | FsFile _ _ => 1
  | FsDir _ cs => S (list_sum (List.map (fun c => S (weight c)) cs))
  end.
Definition frame_weight (f : Frame) : nat :=
  S (list_sum (List.map weight f.(batch)) + list_sum (List.map (fun c => S (weight c)) f.(unread))).
Definition stack_weight (stack : list Frame) : nat := list_sum (List.map frame_weight stack).
Definition walker_weight (w : option Walker) : nat :=
  match w with
  | Some {| w_await := AwaitFile _; w_stack := stack |} => S (stack_weight stack)
  | Some {| w_await := AwaitRead; w_stack := stack |} => stack_weight stack
  | None => 0
  end.

Lemma stack_weight_cons f rest : stack_weight (f :: rest) = frame_weight f + stack_weight rest.
Proof. done. Qed.

Definition batch_weight (l : list FsEntry) : nat := list_sum (List.map weight l).
Definition unread_weight (l : list FsEntry) : nat := list_sum (List.map (fun c => S (weight c)) l).

Lemma frame_weight_eq p b u : frame_weight {| path := p; batch := b; unread := u |} = S (batch_weight b + unread_weight u).
Proof. done. Qed.

Lemma batch_weight_cons x b : batch_weight (x :: b) = weight x + batch_weight b.
Proof. done. Qed.

Lemma unread_split n u : unread_weight u = unread_weight (take n u) + unread_weight (drop n u).
Proof. unfold unread_weight. by rewrite <- list_sum_app, <- List.map_app, take_drop. Qed.

Lemma unread_batch l : batch_weight l + length l = unread_weight l.
Proof.
  induction l as [|x l IH]; [done|]. change (weight x + batch_weight l + S (length l) = S (weight x) + unread_weight l). lia.
Qed.

Lemma traverse_weight item p stack t : walker_weight (traverseFileTree item p stack t).2 <= weight item + stack_weight stack.
Proof.
  destruct item as [name id|name cs]; cbn [traverseFileTree].
  - destruct (_ <? _); cbn [snd walker_weight weight]; lia.
  - cbn [snd walker_weight]. rewrite stack_weight_cons, frame_weight_eq. change (weight (FsDir name cs)) with (S (unread_weight cs)). change (batch_weight []) with 0. lia.
Qed.

Lemma next_weight stack t : walker_weight (next_element stack t).2 <= stack_weight stack.
Proof.
  unfold next_element. destruct stack as [|[p [|x b] u] rest]; [done|destruct (breakFlag t); [apply Nat.le_0_l|apply le_n]|].
  destruct (breakFlag t); [cbn [snd walker_weight]; lia|]. cbn [batch path unread]. etransitivity; [apply traverse_weight|].
  rewrite !stack_weight_cons, !frame_weight_eq, batch_weight_cons. lia.
Qed.

Lemma answer_weight n w t : walker_ok (Some w) -> walker_weight (answer n w t).2 < walker_weight (Some w).
Proof.
  intros Hw. destruct w as [[f|] stack]; unfold answer; cbn [w_await w_stack].
  - cbn [walker_weight]. match goal with |- context [next_element stack ?x] => pose proof (next_weight stack x) end. lia.
  - destruct stack as [|[p b u] rest]; [done|]. cbn in Hw. subst b. cbn [unread path walker_weight]. rewrite stack_weight_cons, frame_weight_eq.
    destruct (take (S n) u) as [|x b] eqn:Eu; [pose proof (next_weight rest t); lia|].
    pose proof (traverse_weight x p ({| path := p; batch := b; unread := drop (S n) u |} :: rest) t) as H.
    rewrite stack_weight_cons, frame_weight_eq in H. pose proof (unread_split (S n) u) as Hu. rewrite Eu in Hu.
    pose proof (unread_batch (x :: b)) as Hb. rewrite batch_weight_cons in Hb. cbn [length] in Hb. lia.
Qed.

(** ** A drop on its own *)

Definition all_files (items : list (option FsEntry)) : list Dropped := flat_map (fun i => match i with Some e => files [] e | None => [] end) items.
Definition waits (w : option Walker) : nat := match w with Some {| w_await := AwaitFile _ |} => 1 | _ => 0 end.
Definition waiting (ws : list (option Walker)) : nat := list_sum (List.map waits ws).

(** What the walkers have collected and what they have still to find are the files; past the
    limit enough is collected; and no more than one file too many for each walker. *)
Record walk_ok (items : list (option FsEntry)) (t : Temp) (ws : list (option Walker)) : Prop := {
  wo_length : length ws = length items;
  wo_walkers : Forall walker_ok ws;
  wo_files : exists more, t.(tmpFiles) ++ more ≡ₚ all_files items /\ (length ws = 1 -> t.(tmpFiles) ++ more = all_files items) /\
    (t.(breakFlag) = false -> more = flat_map to_find ws);
  wo_limit : t.(breakFlag) = true -> LIMIT < length t.(tmpFiles);
  wo_bound : length t.(tmpFiles) + waiting ws <= LIMIT + length ws
}.

Lemma walk_start_ok items : let '(t, ws) := start items initTempFiles in t = initTempFiles /\ walk_ok items t ws /\
  flat_map to_find ws = all_files items /\ list_sum (List.map walker_weight ws) <= list_sum (List.map (fun i => match i with Some e => weight e | None => 0 end) items).
Proof.
  induction items as [|i items IH].
  - cbn. split; [done|]. split; [|done]. split; [done|done| |done|cbn; lia]. exists []. done.
  - cbn [start]. destruct i as [e|].
    + pose proof (traverse_finds e [] [] initTempFiles) as H. pose proof (traverse_weight e [] [] initTempFiles) as Hw.
      destruct (traverseFileTree e [] [] initTempFiles) as [t w]. destruct H as (H1 & H2 & [[-> H3]|(_ & _ & H3)]); [|cbn in H3; unfold LIMIT in H3; lia].
      destruct (start items initTempFiles) as [t ws]. destruct IH as (-> & [G1 G2 G3 G4 G5] & G6 & G7).
      assert (Hf : flat_map to_find (w :: ws) = all_files (Some e :: items)) by (cbn; by rewrite H3, G6, app_nil_r).
      split; [done|]. split; [|split; [done|]].
      * split; [cbn; by rewrite G1|by constructor| |done|].
        -- exists (flat_map to_find (w :: ws)). rewrite Hf. done.
        -- cbn [length] in *. change (waiting (w :: ws)) with (waits w + waiting ws). cbn in G5 |- *. destruct w as [[[] ]|]; cbn [waits]; lia.
      * cbn [snd] in Hw. change (list_sum (List.map walker_weight (w :: ws))) with (walker_weight w + list_sum (List.map walker_weight ws)).
        match goal with |- _ <= list_sum (List.map ?f (Some e :: items)) => change (list_sum (List.map f (Some e :: items))) with (weight e + list_sum (List.map f items)) end.
        change (stack_weight []) with 0 in Hw. lia.
    + destruct (start items initTempFiles) as [t ws]. destruct IH as (-> & [G1 G2 G3 G4 G5] & G6 & G7).
      assert (Hf : flat_map to_find (None :: ws) = all_files (None :: items)) by (cbn; by rewrite G6).
      split; [done|]. split; [|split; [done|exact G7]]. split; [cbn; by rewrite G1|by constructor| |done|].
      * exists (flat_map to_find (None :: ws)). rewrite Hf. done.
      * change (waiting (None :: ws)) with (waiting ws). cbn in *. lia.
Qed.

(** Past the limit nothing is added. *)
Lemma answer_broken n w t : walker_ok (Some w) -> t.(breakFlag) = true -> LIMIT < length t.(tmpFiles) ->
  tmpFiles (answer n w t).1 = t.(tmpFiles) /\ breakFlag (answer n w t).1 = true /\ walker_ok (answer n w t).2 /\
  waits (answer n w t).2 = 0.
Proof.
  intros Hw Hb Hl.
  assert (Hn : forall stack, next_element stack t = (t, None)) by (intros [|f rest]; cbn; [done|by rewrite Hb]).
  assert (Ht : forall x p stack, tmpFiles (traverseFileTree x p stack t).1 = t.(tmpFiles) /\ breakFlag (traverseFileTree x p stack t).1 = true /\
    walker_ok (traverseFileTree x p stack t).2 /\ waits (traverseFileTree x p stack t).2 = 0).
  { intros [name id|name cs] p stack; cbn [traverseFileTree]; [|done]. destruct (Nat.ltb_spec LIMIT (length (tmpFiles t))); [done|lia]. }
  destruct w as [[f|] stack]; unfold answer; cbn [w_await w_stack].
  - rewrite Hb, Hn. done.
  - destruct stack as [|[p b u] rest]; [done|]. cbn [unread path]. destruct (take (S n) u); [by rewrite Hn|apply Ht].
Qed.

(** The files a walker waits for: an answer that collects one waits for at most one more. *)
Lemma answer_waits n w t : walker_ok (Some w) ->
  length (tmpFiles (answer n w t).1) <= length t.(tmpFiles) + waits (Some w) /\
  (waits (answer n w t).2 = 1 -> length (tmpFiles (answer n w t).1) <= LIMIT).
Proof.
  intros Hw.
  assert (Ht : forall x p stack t, tmpFiles (traverseFileTree x p stack t).1 = t.(tmpFiles) /\
    (waits (traverseFileTree x p stack t).2 = 1 -> length t.(tmpFiles) <= LIMIT)).
  { intros [name id|name cs] p stack t0; cbn [traverseFileTree]; [|done]. destruct (Nat.ltb_spec LIMIT (length (tmpFiles t0))); done. }
  assert (Hn : forall stack t, tmpFiles (next_element stack t).1 = t.(tmpFiles) /\ (waits (next_element stack t).2 = 1 -> length t.(tmpFiles) <= LIMIT)).
  { intros [|f rest] t0; cbn; [done|]. destruct (breakFlag t0); [done|]. destruct (batch f); [done|apply Ht]. }
  destruct w as [[f|] stack]; unfold answer; cbn [w_await w_stack].
  - match goal with |- context [next_element stack ?x] => destruct (Hn stack x) as [E1 E2]; rewrite E1; set (t1 := x) in * end.
    split; [|done]. unfold t1. destruct (breakFlag t); cbn; rewrite ?length_app; cbn; lia.
  - destruct stack as [|[p b u] rest]; [done|]. cbn [unread path]. destruct (take (S n) u) as [|x b'].
    + destruct (Hn rest t) as [E1 E2]. rewrite E1. split; [lia|done].
    + match goal with |- context [traverseFileTree x p ?st t] => destruct (Ht x p st t) as [E1 E2] end. rewrite E1. split; [lia|done].
Qed.

Lemma waits_le w : waits w <= 1.
Proof. destruct w as [[[] ?]|]; cbn; lia. Qed.

Lemma waiting_insert i w w' ws : ws !! i = Some w -> waiting (<[i := w']> ws) + waits w = waiting ws + waits w'.
Proof.
  revert i. induction ws as [|v ws IH]; intros [|i] H; [done|done| |].
  - injection H as ->. change (waits w' + waiting ws + waits w = waits w + waiting ws + waits w'). lia.
  - specialize (IH i H). change (waits v + waiting (<[i := w']> ws) + waits w = waits v + waiting ws + waits w'). lia.
Qed.

Lemma waiting_le ws : waiting ws <= length ws.
Proof.
  induction ws as [|v ws IH]; [done|]. change (waits v + waiting ws <= S (length ws)). pose proof (waits_le v). lia.
Qed.

(** Every walker stays in its place. *)
Lemma found_split i w ws : ws !! i = Some w -> exists A C,
  flat_map to_find ws = A ++ to_find w ++ C /\ (forall w', flat_map to_find (<[i := w']> ws) = A ++ to_find w' ++ C) /\
  (length ws = 1 -> A = [] /\ C = []).
Proof.
  revert i. induction ws as [|v ws IH]; intros [|i] H; [done|done| |].
  - injection H as ->. exists [], (flat_map to_find ws). split; [done|]. split; [done|]. intros Hl. by destruct ws.
  - destruct (IH i H) as (A & C & H1 & H2 & _). exists (to_find v ++ A), C. cbn. rewrite H1, <- app_assoc. split; [done|].
    split; [intros w'; by rewrite H2, <- app_assoc|]. intros Hl. by destruct ws.
Qed.

Lemma perm_move {A} (t x a b c : list A) : (t ++ x) ++ a ++ b ++ c ≡ₚ t ++ a ++ (x ++ b) ++ c.
Proof. rewrite <- !app_assoc. f_equiv. rewrite (app_assoc x a (b ++ c)), (app_assoc a x (b ++ c)). f_equiv. apply Permutation_app_comm. Qed.

(** An answer leaves the walk right. *)
Lemma walk_answer_ok items n i w t ws : walk_ok items t ws -> ws !! i = Some (Some w) ->
  walk_ok items (answer n w t).1 (<[i := (answer n w t).2]> ws).
Proof.
  intros [H1 H2 (more & H3 & H4 & H5) H6 H7] Hi.
  assert (Hw : walker_ok (Some w)) by (by eapply Forall_lookup_1 in H2).
  pose proof (answer_waits n w t Hw) as [W1 W2]. pose proof (waiting_insert i (Some w) (answer n w t).2 ws Hi) as W3.
  pose proof (waiting_le (<[i := (answer n w t).2]> ws)) as W4. rewrite length_insert in W4. pose proof (waits_le (answer n w t).2) as W5.
  assert (Hbound : length (tmpFiles (answer n w t).1) + waiting (<[i := (answer n w t).2]> ws) <= LIMIT + length (<[i := (answer n w t).2]> ws)).
  { rewrite length_insert. destruct (Nat.eq_dec (waits (answer n w t).2) 1) as [E|E]; [specialize (W2 E)|]; lia. }
  destruct (breakFlag t) eqn:Eb.
  - destruct (answer_broken n w t Hw Eb (H6 eq_refl)) as (B1 & B2 & B3 & _).
    split; [by rewrite length_insert|by apply Forall_insert| |by rewrite B1; auto|done].
    exists more. rewrite B1, B2, length_insert. done.
  - pose proof (answer_finds n w t Hw Eb) as H. destruct (answer n w t) as [t' w'] eqn:Ea. cbn [fst snd] in *.
    destruct H as (F1 & new & F2 & F3). destruct (found_split i (Some w) ws Hi) as (A & C & S1 & S2 & S3).
    specialize (H5 eq_refl). subst more.
    assert (exists rest, to_find (Some w) = new ++ rest /\ (breakFlag t' = false -> rest = to_find w') /\ (breakFlag t' = true -> LIMIT < length t'.(tmpFiles)))
      as (rest & R1 & R2 & R3) by (destruct F3 as [[F3 F4]|(F3 & _ & F5 & m & F6)]; rewrite F3; [exists (to_find w')|exists m]; done).
    split; [by rewrite length_insert|by apply Forall_insert| |done|done].
    exists (A ++ rest ++ C). rewrite F2, length_insert. rewrite S1, R1 in H3, H4. split; [by rewrite perm_move|]. split.
    + intros Hl. destruct (S3 Hl) as [-> ->]. rewrite <- (H4 Hl). cbn. by rewrite !app_nil_r, <- app_assoc.
    + intros Hb. by rewrite S2, (R2 Hb).
Qed.

Lemma done_found ws : forallb is_done ws = true -> flat_map to_find ws = [].
Proof. induction ws as [|[w|] ws IH]; [done|done|exact IH]. Qed.

(** What the drop came to. *)
Record collected (items : list (option FsEntry)) (s0 s : Drops) : Prop := {
  co_temp : s.(temp) = initTempFiles;
  co_walks : s.(walks) = ∅;
  co_files : (exists l, s.(uploaderFiles) = s0.(uploaderFiles) ++ l /\ s.(overLimit) = s0.(overLimit) /\ l ≡ₚ all_files items /\
      (length items = 1 -> l = all_files items) /\ length l <= LIMIT + length items) \/
    (s.(uploaderFiles) = s0.(uploaderFiles) /\ s.(overLimit) = S s0.(overLimit) /\ LIMIT < length (all_files items))
}.

(** A drop that is walked alone. *)
Record walking (items : list (option FsEntry)) (d : nat) (ws : list (option Walker)) (s0 s : Drops) : Prop := {
  wk_ok : walk_ok items s.(temp) ws;
  wk_walks : s.(walks) = {[d := ws]};
  wk_open : forallb is_done ws = false;
  wk_files : s.(uploaderFiles) = s0.(uploaderFiles);
  wk_over : s.(overLimit) = s0.(overLimit)
}.

Lemma settle_alone items d t ws s0 s : walk_ok items t ws -> (s.(walks) = ∅ \/ exists ws', s.(walks) = {[d := ws']}) ->
  s.(uploaderFiles) = s0.(uploaderFiles) -> s.(overLimit) = s0.(overLimit) ->
  collected items s0 (settle d t ws s) /\ forallb is_done ws = true \/ walking items d ws s0 (settle d t ws s).
Proof.
  intros Hok Hws Hu Ho. unfold settle. destruct (forallb is_done ws) eqn:Ed; cbv zeta; [left|right].
  - split; [|done]. split; [done| |].
    + cbn [finish walks]. destruct Hws as [->|[ws' ->]]; [apply delete_empty|apply delete_singleton_eq].
    + cbn [finish uploaderFiles overLimit temp]. rewrite Hu, Ho. destruct Hok as [H1 _ (more & H3 & H4 & H5) H6 H7].
      destruct (breakFlag t); [right|left].
      * split; [done|]. split; [done|]. rewrite <- H3, length_app. specialize (H6 eq_refl). lia.
      * rewrite (done_found ws Ed) in H5. rewrite (H5 eq_refl), app_nil_r in H3, H4. exists (tmpFiles t).
        split; [done|]. split; [done|]. split; [done|]. rewrite <- H1. split; [exact H4|]. lia.
  - split; [exact Hok| |done|exact Hu|exact Ho]. cbn [walks]. destruct Hws as [->|[ws' ->]]; [done|apply insert_singleton_eq].
Qed.

Lemma dropped_alone items s : s.(walks) = ∅ -> let s' := handleDrop false (Some items) s in
  collected items s s' \/ exists ws, walking items s.(fresh) ws s s'.
Proof.
  intros Hs s'. unfold s', handleDrop. cbv zeta. cbn [temp]. pose proof (walk_start_ok items) as H. destruct (start items initTempFiles) as [t ws].
  destruct H as (-> & H & _). match goal with |- context [settle ?d ?t ?w ?x] => destruct (settle_alone items d t w s x H) as [[G _]|G] end; cbn; eauto.
Qed.

Lemma answered_alone items d i n ws s0 s : walking items d ws s0 s -> let s' := walk_on d i n s in
  s' = s \/ collected items s0 s' \/ exists ws, walking items d ws s0 s'.
Proof.
  intros [H1 H2 H3 H4 H5] s'. unfold s', walk_on. rewrite H2, lookup_singleton_eq. destruct (ws !! i) as [[w|]|] eqn:Ei; [|by left|by left].
  right. pose proof (walk_answer_ok items n i w (temp s) ws H1 Ei) as H. destruct (answer n w (temp s)) as [t w'].
  destruct (settle_alone items d t (<[i := w']> ws) s0 s H) as [[G _]|G]; eauto.
Qed.

Definition is_answer (e : Event) : bool := match e with Answered _ _ _ => true | Drop _ _ => false end.

Lemma collected_stays items s0 s d i n : collected items s0 s -> walk_on d i n s = s.
Proof. intros [_ H _]. unfold walk_on. by rewrite H, lookup_empty. Qed.

Lemma answers_alone items d s0 es s : Forall is_answer es -> (collected items s0 s \/ exists ws, walking items d ws s0 s) ->
  collected items s0 (run es s) \/ exists ws, walking items d ws s0 (run es s).
Proof.
  revert s. induction es as [|e es IH]; intros s He Hs; [done|]. inversion He as [|? ? H1 H2]; subst. cbn [run fold_left]. apply (IH _ H2).
  destruct e as [|d' i n]; [done|]. cbn [handle]. destruct Hs as [Hs|[ws Hs]]; [rewrite (collected_stays _ _ _ _ _ _ Hs); by left|].
  destruct (decide (d' = d)) as [->|Hd].
  - destruct (answered_alone items d i n ws s0 s Hs) as [->|H]; [right; by exists ws|exact H].
  - right. exists ws. unfold walk_on. rewrite (wk_walks _ _ _ _ _ Hs), lookup_singleton_ne by done. exact Hs.
Qed.

(** C7. A drop that no other drop meets collects the files of the items, each once and with its
    path, in any order of the answers and any batches; for one item in their order.  If there are more
    than a thousand the drop is refused instead as a whole, except that each item may take one file more
    than the limit.  Until it ends nothing is added. *)
Theorem drop_collects items es s : s.(walks) = ∅ -> Forall is_answer es ->
  let s' := run (Drop false (Some items) :: es) s in
  (s'.(walks) = ∅ -> collected items s s') /\
  (s'.(walks) <> ∅ -> s'.(uploaderFiles) = s.(uploaderFiles) /\ s'.(overLimit) = s.(overLimit)).
Proof.
  intros Hs He s'. destruct (answers_alone items (fresh s) s es (handleDrop false (Some items) s) He (dropped_alone items s Hs)) as [H|[ws H]].
  - split; [intros _; exact H|]. intros Hn. by destruct Hn, H.
  - split; [|intros _; by split; apply H]. intros Hn. pose proof (wk_walks _ _ _ _ _ H) as H'. unfold s' in Hn. change (walks (run es (handleDrop false (Some items) s)) = ∅) in Hn.
    rewrite H' in Hn. by apply map_non_empty_singleton in Hn.
Qed.

(** ** The drop ends *)

(** The answer is one that a walker waits for. *)
Definition is_live (e : Event) (s : Drops) : bool :=
  match e with
  | Answered d i _ => match s.(walks) !! d with Some ws => match ws !! i with Some (Some _) => true | _ => false end | None => false end
  | Drop _ _ => false
  end.

Fixpoint all_live (es : list Event) (s : Drops) : bool :=
  match es with
  | [] => true
  | e :: es => is_live e s && all_live es (handle e s)
  end.

Definition walkers_weight (ws : list (option Walker)) : nat := list_sum (List.map walker_weight ws).
Definition drop_weight (items : list (option FsEntry)) : nat :=
  list_sum (List.map (fun i => match i with Some e => weight e | None => 0 end) items).

Lemma walkers_weight_insert i w w' ws : ws !! i = Some w -> walkers_weight (<[i := w']> ws) + walker_weight w = walkers_weight ws + walker_weight w'.
Proof.
  revert i. induction ws as [|v ws IH]; intros [|i] H; [done|done| |].
  - injection H as ->. change (walker_weight w' + walkers_weight ws + walker_weight w = walker_weight w + walkers_weight ws + walker_weight w'). lia.
  - specialize (IH i H). change (walker_weight v + walkers_weight (<[i := w']> ws) + walker_weight w = walker_weight v + walkers_weight ws + walker_weight w'). lia.
Qed.

(** A drop that is walked alone, and the answers that it can still take. *)
Definition left_of (items : list (option FsEntry)) (d : nat) (s0 : Drops) (m : nat) (s : Drops) : Prop :=
  s.(walks) = ∅ \/ exists ws, walking items d ws s0 s /\ walkers_weight ws <= m.

Lemma settle_left items d t ws s0 s : walk_ok items t ws -> (s.(walks) = ∅ \/ exists ws', s.(walks) = {[d := ws']}) ->
  s.(uploaderFiles) = s0.(uploaderFiles) -> s.(overLimit) = s0.(overLimit) -> left_of items d s0 (walkers_weight ws) (settle d t ws s).
Proof.
  intros H1 H2 H3 H4. destruct (settle_alone items d t ws s0 s H1 H2 H3 H4) as [[[_ H _] _]|H]; [by left|right]. exists ws. split; [exact H|lia].
Qed.

Lemma dropped_left items s : s.(walks) = ∅ -> left_of items s.(fresh) s (drop_weight items) (handleDrop false (Some items) s).
Proof.
  intros Hs. unfold handleDrop. cbv zeta. cbn [temp]. pose proof (walk_start_ok items) as H. destruct (start items initTempFiles) as [t ws].
  destruct H as (-> & H & _ & Hw). match goal with |- context [settle ?d ?t ?w ?x] => destruct (settle_left items d t w s x H) as [G|(ws' & G1 & G2)] end;
    cbn; [by left|done|done|by left|]. right. exists ws'. split; [exact G1|]. etransitivity; [exact G2|exact Hw].
Qed.

Lemma answered_left items d s0 m e s : left_of items d s0 m s -> is_live e s = true -> 0 < m /\ left_of items d s0 (pred m) (handle e s).
Proof.
  intros Hl He. destruct e as [|d' i n]; [done|]. cbn [is_live handle] in *. destruct Hl as [H|(ws & [H1 H2 H3 H4 H5] & Hm)]; [by rewrite H, lookup_empty in He|].
  unfold walk_on. rewrite H2 in He |- *. destruct (decide (d' = d)) as [->|Hd]; [|by rewrite lookup_singleton_ne in He by done].
  rewrite lookup_singleton_eq in He |- *. destruct (ws !! i) as [[w|]|] eqn:Ei; [|done|done].
  assert (Hw : walker_ok (Some w)) by (eapply Forall_lookup_1; [apply (wo_walkers _ _ _ H1)|exact Ei]).
  pose proof (answer_weight n w (temp s) Hw) as A1. pose proof (walkers_weight_insert i (Some w) (answer n w (temp s)).2 ws Ei) as A2.
  pose proof (walk_answer_ok items n i w (temp s) ws H1 Ei) as A3. destruct (answer n w (temp s)) as [t w']. cbn [fst snd] in *.
  split; [lia|]. destruct (settle_left items d t (<[i := w']> ws) s0 s A3) as [G|(ws' & G1 & G2)]; [by right; exists ws|done|done|by left|].
  right. exists ws'. split; [exact G1|lia].
Qed.

Lemma lives_left items d s0 es m s : left_of items d s0 m s -> all_live es s = true -> length es <= m /\ left_of items d s0 (m - length es) (run es s).
Proof.
  revert m s. induction es as [|e es IH]; intros m s Hl He; [by rewrite Nat.sub_0_r; split; [apply Nat.le_0_l|]|].
  apply andb_true_iff in He as [He1 He2]. destruct (answered_left items d s0 m e s Hl He1) as [H1 H2].
  destruct (IH _ _ H2 He2) as [H3 H4]. cbn [length run fold_left]. split; [lia|]. by replace (m - S (length es)) with (pred m - length es) by lia.
Qed.

Lemma open_live ws : forallb is_done ws = false -> exists i w, ws !! i = Some (Some w).
Proof.
  induction ws as [|[w|] ws IH]; intros H; [done|by exists 0, w|]. destruct (IH H) as (i & w & Hi). by exists (S i), w.
Qed.

(** A drop that no other drop meets ends: it takes no more answers than there are files, directories and
    entries in them, and before its end there is always one that it waits for. *)
Theorem drop_ends items es s : s.(walks) = ∅ -> all_live es (handleDrop false (Some items) s) = true ->
  let s' := run (Drop false (Some items) :: es) s in
  length es <= drop_weight items /\ (s'.(walks) = ∅ \/ forall n, exists i, is_live (Answered s.(fresh) i n) s' = true).
Proof.
  intros Hs He s'. destruct (lives_left items (fresh s) s es _ _ (dropped_left items s Hs) He) as [H1 H2]. split; [exact H1|].
  destruct H2 as [H2|(ws & [G1 G2 G3 _ _] & _)]; [by left|]. right. intros n. destruct (open_live ws G3) as (i & w & Hi). exists i.
  change s' with (run es (handleDrop false (Some items) s)). cbn [is_live]. by rewrite G2, lookup_singleton_eq, Hi.
Qed.

(** ** A drop *)

Definition tree : list (option FsEntry) :=
  [Some (FsDir (js "d") [FsFile (js "a") 1; FsDir (js "e") [FsFile (js "b") 2]; FsFile (js "c") 3]); None; Some (FsFile (js "x") 4)].

Definition tree_answers : list Event :=
  [Answered 0 0 1; Answered 0 2 0; Answered 0 0 0; Answered 0 0 5; Answered 0 0 0; Answered 0 0 0; Answered 0 0 0; Answered 0 0 0; Answered 0 0 0].

Example tree_dropped : let s := run (Drop false (Some tree) :: tree_answers) initial in
  (s.(uploaderFiles), bool_decide (s.(walks) = ∅)) =
  ([{| f_name := js "x"; f_id := 4 |}; {| f_name := js "d/a"; f_id := 1 |}; {| f_name := js "d/e/b"; f_id := 2 |}; {| f_name := js "d/c"; f_id := 3 |}], true).
Proof. vm_compute. reflexivity. Qed.

Lemma drop_collects_witness : let s' := run (Drop false (Some tree) :: tree_answers) initial in collected tree initial s'.
Proof.
  refine (proj1 (drop_collects tree tree_answers initial eq_refl _) _); [repeat constructor|]. vm_compute. reflexivity.
Defined.

Lemma drop_ends_witness : length tree_answers <= drop_weight tree.
Proof. refine (proj1 (drop_ends tree tree_answers initial eq_refl _)). vm_compute. reflexivity. Defined.

(** ** What the walk lets through *)

(** A second drop before the first has ended empties what the first has collected: the file with
    identity 1 is in neither. *)
Lemma second_drop_loses_files : exists s, s = run
    [Drop false (Some [Some (FsDir (js "d") [FsFile (js "a") 1; FsFile (js "b") 2])]); Answered 0 0 5; Answered 0 0 0;
     Drop false (Some [Some (FsFile (js "c") 3)]); Answered 1 0 0; Answered 0 0 0; Answered 0 0 0] initial /\
  s.(walks) = ∅ /\ s.(overLimit) = 0 /\ List.map f_id s.(uploaderFiles) = [3; 2]%N.
Proof. eexists. split; [reflexivity|]. vm_compute. done. Qed.

(** A directory of 1001 files passes; the upload component's limit is 1000. *)
Definition many (n : nat) : FsEntry := FsDir (js "d") (List.map (fun i => FsFile (js "f") (N.of_nat i)) (seq 0 n)).

Lemma limit_exceeded_by_one : let s := run (Drop false (Some [Some (many 1001)]) :: repeat (Answered 0 0 99) 1030) initial in
  s.(walks) = ∅ /\ s.(overLimit) = 0 /\ length s.(uploaderFiles) = LIMIT + 1.
Proof. vm_compute. done. Qed.

Example refused : let s := run (Drop false (Some [Some (many 1002)]) :: repeat (Answered 0 0 99) 1030) initial in
  (length s.(uploaderFiles), s.(overLimit)) = (0, 1).
Proof. vm_compute. reflexivity. Qed.
